(* ===== verification/_CoqProject ===== *)
-Q . S2P
Prelude.v
Bytecode.v
Variables.v
VMState.v
VM.v
Safety.v
AST.v
Driver.v
Codegen.v
Semantics.v
Simulation.v
CallSim.v
ExprSim.v
CmdSim.v
Declarations.v
Program.v
FindProtocol.v
Olcb.v
Runner.v
AutomataDefs.v
Automata.v
AutomataTermination.v
AutomataOps.v
AutomataSim.v
AutomataBuild.v
AutomataBoard.v
AutomataRun.v
AutomataThread.v
ControlRules.v
ControlLogic.v
ControlTurnouts.v
ControlBuild.v
ControlSafety.v
ControlPermits.v
ScheduleRules.v
TrainSchedule.v
ScheduleBuild.v
ScheduleOps.v
ScheduleSpec.v
ScheduleRuns.v
ScheduleRounds.v
ScheduleSafety.v
ScheduleDeparture.v
ScheduleCheck.v
TrackPlan.v
Layouts.v
LayoutPlans.v
LayoutChecks.v
LayoutSafety.v
Queues.v
UpdateProcessor.v
UpdateLoop.v
TrackPower.v
TrackPowerSafety.v
XmlGenerator.v
TrainDb.v
FdiXmlGenerator.v
FindProtocolServer.v
TrainSearch.v
TrainNodeInfoCache.v
TrainCacheWindow.v
TrainCacheRuns.v
TrainCacheDisplay.v
RailcomBroadcast.v
RailcomTracking.v
RailcomTimeouts.v
ProgrammingTrack.v
ProgrammingCVSpace.v
ProgrammingSafety.v
ProgrammingRuns.v
ProgrammingDecoder.v
CVSpaceAccess.v
CVSpaceValues.v
Witnesses.v
AutomataWitnesses.v
TrainWitnesses.v
TrackWitnesses.v
TrainCacheWitnesses.v
ScheduleWitnesses.v
