(* ===== verification/Prelude.v ===== *)
(** * Verification of openmrn_cue

    openmrn_cue is a command station for model railways.  This development
    covers its engines: the logic language, the automata of the layout, the search
    for trains with the train database and the search of a throttle, the RailCom
    detectors, the programming track, and the loop that fills the packets for the
    track with the switch of its power.  Definitions are translated from the C++ code, in the
    order and with the names of the code where possible; each file names the
    source files that it models.

    ** Conventions

    Integers are [Z], wrapped where the C++ type wraps ([u8], [u16], [u32],
    [u64]); a signed operation that overflows is a crash.  A member function is
    a [prog S A]: it takes the state [S] of its object and ends with [Done], with
    [Failed] (the function reported an error), or with [Crashed], which stands
    for undefined behaviour, a failed assertion or [diewith].  A function that
    loops over program text is an [fprog]: it takes fuel, and [None] says that
    the fuel was not enough.  The fuel of every loop is computed from the data
    (the length of the code, the number of bytes of an operation, 32 local
    variables), and theorems state that it is enough; only [VM::execute], which
    may really loop, takes the fuel as an argument, and its theorems hold for all
    fuel that is large enough, or say that the run has a result exactly if the
    reference semantics has.

    Code of the OpenMRN submodule is not in the repository: event handlers, the
    bus, velocities, queues and the configuration file are type classes
    ([VariableFactory], [EventBus], [Node], [Velocity], [QList], [TypedQueue],
    [AllTrainNodes]), whose laws, where a theorem needs some, are classes too
    ([VariableFactoryOk], [QuietNode], [QListOk], [AllTrainNodesOk]).  The generated parser is a
    function from texts to parse results.

    The flows of OpenMRN run on one executor.  A flow is a state with an operation
    per state function; what happens in between (messages, answers, timers) is an
    inductive type of events, and a run is a list of events.  An event that the
    executor cannot deliver in a state (the answer to a request that was not made)
    is not a step.

    ** The logic language (src/cs/logic)

    [Bytecode], [Variables]: opcodes, varints, variables.
    [VMState], [VM]: the stack machine of VM.hxx and VM.cxx, one definition per
    instruction; [VMData] is what instructions compute with, [VMControl] the
    instruction pointer and the return addresses.  Objects of type [Variable]
    live in a heap, so that dangling references can be seen.
    [Safety]: no code, generated or not, makes the machine use a variable that
    was destroyed ([execute_memory_safe]).
    [AST], [Driver]: the syntax with its code generator, scopes and declarations.
    [Codegen], [Semantics], [Simulation], [CallSim], [ExprSim], [CmdSim],
    [Program]: a reference semantics of the language by recursion on the syntax,
    and the refinement of it by the machine run on the generated code
    ([compiled_program_runs], [compiled_preamble_creates]).  Calls have a meaning in
    block 0 only, of functions compiled before: in other blocks CALL jumps into
    block 0 ([offset_is_address_in_block_0]), and programs without calls have a
    result in every block ([meaningful]).
    [Declarations]: what declarations, lookups and calls check.
    [Olcb]: variables bound to events, and the factory that stores their events.
    [Runner]: the compilation of all blocks and their execution from a timer
    ([compile_impl_result], [enabled_block_runs], [single_step_isolates],
    [stopped_runner_is_quiet]).

    ** The automata (src/cs/src, src/automata)

    An automata is a list of operations, which are conditions followed by
    actions, on bits of the layout, a state and a timer.  The builder in
    src/automata renders automata to bytes; the runner in src/cs/src interprets
    the bytes of all automata ten times a second.

    [AutomataDefs]: the instruction set.
    [Automata]: the interpreter, automata_runner.cpp: bits, conditions, actions,
    operations, the table of automata, rounds.  [Core] has the members that
    instructions change; the instruction pointer is added by [AutomataRunner].
    [AutomataTermination]: nothing hangs the interpreter ([automata_terminate]).
    [AutomataSim]: operations as data with a meaning of their own, and the
    interpreter refines it ([run_automata_refines]).
    [AutomataOps], [AutomataBuild]: the builder; what was called on operations is
    what the interpreter does ([rendered_body_runs]); local variables have ids of
    their own ([import_ids_distinct]).
    [AutomataBoard], [AutomataRun]: boards; the runner finds the automata
    where the board put them and runs them round after round ([board_starts],
    [board_runs], [variable_declared]).
    [AutomataThread]: the timer and the thread, between whose steps commands come
    in ([ticks_every_second], [stop_takes_effect]).

    [ControlLogic], [ControlTurnouts]: the bodies of the automata of tracks,
    signals, detectors, turnouts, slips, magnets and permits, control-logic.hxx
    and control-logic.cc.  Variables of the layout are numbered; [gid] gives the
    id under which the board declared a number.
    [ControlRules]: operations as guarded rules on the numbered variables, and
    the interpreter runs rendered bodies as their rules ([body_runs_rules]).
    [ControlBuild]: the rules of the bodies.
    [ControlSafety]: what the layout can rely on: conflicting routes are never set
    together, magnets are pulled one at a time, signals show what is ahead
    ([routes_never_conflict], [one_magnet_at_a_time], [signal_shows_next]).
    [ControlPermits]: a permit is held by one taker ([permits_are_exclusive]).  These
    are stated about runs of the interpreter on the rendered bytes, in
    between which the rest of the layout may change anything that the statements
    do not name.  The bits of the layout may be events of their own or bits of a
    block of events ([Place]).

    [TrainSchedule]: blocks, and the automata that drives a train from block to
    block.  A subclass of the C++ class is its list of calls ([ScheduleCall]); one
    class of the layouts also has operations of its own ([OwnCall]), which are
    modelled, but of which the rules below say nothing.
    [ScheduleRules]: guarded rules whose guards and effects may name reserved local
    variables, which effects bind while the rules run.
    [ScheduleBuild], [ScheduleOps]: the rules that the calls build.
    [ScheduleSpec]: the same rules with the local variables resolved.
    [ScheduleRuns], [ScheduleRounds]: a run of the automata is a round of the resolved
    rules, where the train is in a block.
    [ScheduleSafety], [ScheduleDeparture]: a schedule is run as its rules
    ([schedule_runs_as_rules]), keeps its train in one block and moves it along its
    transitions, the chosen one where there are several ([train_follows_schedule]), and lets it go only when the way is
    clear ([train_goes_when_clear]).  [wired] and [tests_apart] say which variables of a
    schedule have to be distinct; [ScheduleCheck] computes whether they are.
    Variables are bits, but for the one that holds the speed of a train, which is a
    byte ([ready], [all_placed]).

    [TrackPlan]: ends of track, the objects of a layout, what their constructors
    bind, validation, and the way that a route takes ([route_end], whose fuel is
    four steps for each piece).
    [Layouts]: the calls of the classes of trains with the variables of a layout by
    name, numbered for [TrainSchedule] by [number_in].  [LayoutChecks]: routes when the
    state of only some turnouts is known, that the ways of [TrackPlan] are those
    of [ControlTurnouts], and the automata of a train of a layout.
    [LayoutPlans]: a module for each bracz-layout file with trains ([Layout1i] to
    [Layout6a]): magnets, turnouts, blocks, bindings, conditions, classes of trains
    and trains, in the order of the source.
    [LayoutSafety]: computed on them, the trains of the four layouts whose trains
    all render follow their schedules ([layout_trains_follow], the theorems on
    schedules without their hypotheses on the schedule), green signals lead trains to the destinations of their
    transitions ([transitions_lead], with the six transitions where they do not),
    and boards are valid and their trains render ([layouts_render], with the two
    layouts where some do not, so that these boards never run).

    ** Trains (src/cs/commandstation)

    [FindProtocol]: building, decoding and matching of search events.
    [FindProtocolServer]: the server of the search, event handlers and the states
    of its flow, as steps between which other requests come in; merged, restarted
    and cancelled iterations never lose a request ([identify_requests_answered]).
    [TrainSearch]: the answers to one query ([search_answers]), and that the
    server gets done ([server_becomes_idle]).  While a query is answered trains only
    come ([nodes_grow]): [AllTrainNodes::update_config], which deletes trains when
    the configuration is read again, is not modelled.
    [TrainDb]: the train database, and what an edited file does to its ids
    ([reload_keeps_trains], [max_fn_is_highest]).
    [XmlGenerator], [FdiXmlGenerator]: text that is generated while it is read, and
    the description of the functions of a train ([fdi_read_in_pieces]).
    [TrainNodeInfoCache]: the search of a throttle, TrainNodeInfoCache.cxx: the
    window of nodes that are cached around the one displayed, the search and
    the fetching of names.
    [TrainCacheWindow], [TrainCacheRuns]: the cache is a window of the sorted list
    of all nodes that answered ([cache_is_window], [fresh_search_is_sorted_prefix]),
    where each node answers each search at most once and no search is begun
    while the answers to another one are outstanding.  [TrainCacheDisplay]: the lines displayed
    are those of the nodes of the window ([lines_have_their_ids]).

    ** The track (src/cs/commandstation)

    [UpdateProcessor]: the DCC update loop; [reachable] and [steps] are the runs of
    its operations ([packets_keep_distance], [background_round_robin],
    [urgent_update_served], [packet_source_choice]).
    [Queues]: the queues of OpenMRN as interfaces.
    [UpdateLoop]: what the update loop promises to those that register sources with
    it, as a class, and its instance by [UpdateProcessor].
    [TrackPower]: the power bit and the emergency stop of TrackPowerBit.hxx against
    this class.  [TrackPowerSafety]: while the stop is on, every packet is a
    stop ([stop_silences_trains], with a loop present and other sources of lower
    priority); the power goes off after the stop was sent
    for the time that was asked ([power_is_cut_after_stops]).
    [RailcomBroadcast]: the flow that turns the feedback of RailCom into events.
    [RailcomTracking]: per detector, entries and exits alternate
    ([detectors_report_in_turn]).  [RailcomTimeouts]: a locomotive that answers stays,
    and one that is silent is reported gone ([answers_keep_presence],
    [silent_locos_leave], which is about polls between which no packets come in, once
    the flow has noted that a locomotive is silent).
    [ProgrammingTrack]: the requests of the programming track and the flow of the
    frontend, ProgrammingTrackFrontend.hxx and ProgrammingTrackBackend use of it.
    [ProgrammingSafety]: success is only reported after the decoder answered, and the
    track is in service mode exactly during a request ([success_is_confirmed],
    [service_mode_is_bracketed]).  [ProgrammingRuns]: requests return, in order and
    after a bounded number of packets ([requests_return_soon]); the bound needs
    settings within their documented ranges ([settings_ok]).
    [ProgrammingDecoder]: against a decoder that answers as the standard says,
    a direct read returns the value of the variable ([direct_read_returns_value]).
    [ProgrammingCVSpace]: the memory space of the programming track,
    ProgrammingTrackCVSpace.hxx.  [CVSpaceAccess]: reads and writes of at least one byte
    stay inside the layout of the space ([accesses_stay_inside]).  [CVSpaceValues]: what
    is read and written are the values of the track's requests
    ([cv_read_returns_value], [cv_write_is_requested]); the space is not called while
    one of its requests is pending.

    [Witnesses], [AutomataWitnesses], [TrainWitnesses], [TrackWitnesses],
    [TrainCacheWitnesses], [ScheduleWitnesses]: the theorems at concrete inputs.

    ** Not modelled

    The grammar (bison and flex input), virtual train nodes, the finding of remote
    nodes, the mobile station: mostly calls of OpenMRN.  Of the automata:
    [ActScaleSpeed] (floating point), and the allocators of variables, which here are
    numbered by hand or by name.  Of the layouts: physical boards, lights, buttons
    and the automata for them, whose only trace is the list of signals that let routes
    pass ([open_signals]); layout 1a, which has no trains, and the demonstrations.
    Drivers, targets and the server are input and output.

    The runner handles events on another thread while automata run; a run of an
    automata is one step here, as are the messages it sends, whose effect on the
    shared memory is the [bus] of [Node]. *)

From Stdlib Require Export ZArith Lia Ascii String.
From stdpp Require Export base strings gmap numbers option list.
From stdpp Require Import sorting.

#[global] Open Scope Z_scope.

#[global] Arguments Z.testbit : simpl never.
#[global] Arguments Z.shiftl : simpl never.
#[global] Arguments Z.shiftr : simpl never.
#[global] Arguments Z.land : simpl never.
#[global] Arguments Z.lor : simpl never.
#[global] Arguments Z.pow : simpl never.
#[global] Arguments Z.modulo : simpl never.
#[global] Arguments Z.div : simpl never.

(** ** Machine integers

    [uint8_t], [unsigned] and [int] are kept as [Z]; the conversions below
    write out the wrap-around of the C++ implicit conversions. *)

Definition u8 (z : Z) : Z := z mod 2 ^ 8.
Definition u16 (z : Z) : Z := z mod 2 ^ 16.
Definition u32 (z : Z) : Z := z mod 2 ^ 32.
Definition u64 (z : Z) : Z := z mod 2 ^ 64.
Definition s32 (z : Z) : Z := (z + 2 ^ 31) mod 2 ^ 32 - 2 ^ 31.

Definition INT_MAX : Z := 2 ^ 31 - 1.
Definition INT_MIN : Z := - 2 ^ 31.

Definition is_int32 (z : Z) : Prop := INT_MIN <= z <= INT_MAX.
Definition is_uint8 (z : Z) : Prop := 0 <= z < 2 ^ 8.
Definition is_uint32 (z : Z) : Prop := 0 <= z < 2 ^ 32.

#[export] Instance is_int32_dec z : Decision (is_int32 z).
Proof. unfold is_int32. apply _. Defined.
#[export] Instance is_uint8_dec z : Decision (is_uint8 z).
Proof. unfold is_uint8. apply _. Defined.
#[export] Instance is_uint32_dec z : Decision (is_uint32 z).
Proof. unfold is_uint32. apply _. Defined.

(** A C++ [bool] used as an [int]. *)
Definition b2z (b : bool) : Z := if b then 1 else 0.

(** [openlcb::EventState], as far as the program uses it. *)
Inductive EventState := VALID | INVALID | UNKNOWN.

#[export] Instance EventState_eq_dec : EqDecision EventState.
Proof. solve_decision. Defined.

(** Testing bits of a flag byte: [x & mask] in a condition. *)
Definition has_bits (x mask : Z) : bool := negb (Z.land x mask =? 0).

(** ** Vectors

    A [std::vector] is a list with its [back()] at the end. *)

Definition zlen {A} (l : list A) : Z := Z.of_nat (length l).

(** [l[i]] for an index that may be out of range. *)
Definition znth {A} (l : list A) (i : Z) : option A :=
  if 0 <=? i then l !! Z.to_nat i else None.

(** [l[i] = x]; every use is guarded by a bounds check in the source. *)
Definition zset {A} (l : list A) (i : Z) (x : A) : list A :=
  <[Z.to_nat i := x]> l.

Definition push_back {A} (l : list A) (x : A) : list A := l ++ [x].
Definition back {A} (l : list A) : option A := last l.
Definition pop_back {A} (l : list A) : list A := removelast l.

(** ** Byte strings

    Bytecode is a [std::string] of [uint8_t] values. *)

Definition byte_of_ascii (c : ascii) : Z := Z.of_N (N_of_ascii c).
Definition ascii_of_byte (z : Z) : ascii := ascii_of_N (Z.to_N z).

Fixpoint bytes_of_string (s : string) : list Z :=
  match s with
  | EmptyString => []
  | String c s' => byte_of_ascii c :: bytes_of_string s'
  end.

Fixpoint string_of_bytes (l : list Z) : string :=
  match l with
  | [] => EmptyString
  | b :: l' => String (ascii_of_byte b) (string_of_bytes l')
  end.

(** ** Outcomes of imperative code

    A C++ member function run on an object state either returns normally,
    reports an error to its caller ([return false] with the error text stored
    in the object), or leaves the defined behaviour of the program: undefined
    behaviour, an uncaught exception, a failed [HASSERT] or [diewith]. *)

Inductive crash :=
| SignedOverflow
| ShiftOutOfRange
| ReadOutsideCode
| DanglingPointer
| BadResize
| EmptyCallback
| AssertFailed
| OutOfBounds
| Died (pattern : Z).

Inductive outcome (S A : Type) : Type :=
| Done (a : A) (s : S)
| Failed (s : S)
| Crashed (c : crash).

Arguments Done {S A} a s.
Arguments Failed {S A} s.
Arguments Crashed {S A} c.

Definition prog (S A : Type) : Type := S -> outcome S A.

#[export] Instance prog_ret S : MRet (prog S) := fun A a s => Done a s.
#[export] Instance prog_bind S : MBind (prog S) := fun A B k m s =>
  match m s with
  | Done a s' => k a s'
  | Failed s' => Failed s'
  | Crashed c => Crashed c
  end.

Definition get_state {S} : prog S S := fun s => Done s s.
Definition put_state {S} (s : S) : prog S unit := fun _ => Done tt s.
Definition modify_state {S} (f : S -> S) : prog S unit := fun s => Done tt (f s).
Definition crashing {S A} (c : crash) : prog S A := fun _ => Crashed c.

(** [a + b] on [int]: overflow is undefined behaviour. *)
Definition int_result {S} (z : Z) : prog S Z :=
  if decide (is_int32 z) then mret z else crashing SignedOverflow.

(** ** Programs that may not terminate

    [None] is a run that needs more fuel. *)

Definition fprog (S A : Type) : Type := S -> option (outcome S A).

#[export] Instance fprog_ret S : MRet (fprog S) := fun A a s => Some (Done a s).
#[export] Instance fprog_bind S : MBind (fprog S) := fun A B k m s =>
  match m s with
  | Some (Done a s) => k a s
  | Some (Failed s) => Some (Failed s)
  | Some (Crashed c) => Some (Crashed c)
  | None => None
  end.

(** A program that always terminates. *)
Definition total {S A} (m : prog S A) : fprog S A := fun s => Some (m s).

Definition fmodify {S} (f : S -> S) : fprog S unit := fun s => Some (Done tt (f s)).

Lemma fbind_Done {S A C} (m : fprog S A) (k : A -> fprog S C) (x : S) c (x' : S) :
  (m ≫= k) x = Some (Done c x') -> exists a x1, m x = Some (Done a x1) /\ k a x1 = Some (Done c x').
Proof. unfold mbind, fprog_bind. destruct (m x) as [[a x1| |]|]; try done. eauto. Qed.

(** ** Lemmas on machine integers *)

Lemma u32_range z : is_uint32 (u32 z).
Proof. unfold is_uint32, u32. apply Z.mod_pos_bound. lia. Qed.

Lemma u32_small z : is_uint32 z -> u32 z = z.
Proof. intros H. unfold u32. by apply Z.mod_small. Qed.

Lemma u8_range z : is_uint8 (u8 z).
Proof. unfold is_uint8, u8. apply Z.mod_pos_bound. lia. Qed.

Lemma u8_small z : is_uint8 z -> u8 z = z.
Proof. intros H. unfold u8. by apply Z.mod_small. Qed.

Lemma s32_range z : is_int32 (s32 z).
Proof.
  unfold is_int32, s32, INT_MIN, INT_MAX.
  pose proof (Z.mod_pos_bound (z + 2 ^ 31) (2 ^ 32)). lia.
Qed.

Lemma s32_small z : is_int32 z -> s32 z = z.
Proof.
  unfold is_int32, s32, INT_MIN, INT_MAX. intros H.
  rewrite Z.mod_small; lia.
Qed.

Lemma s32_mod z : s32 z mod 2 ^ 32 = z mod 2 ^ 32.
Proof.
  unfold s32. rewrite Zminus_mod_idemp_l. f_equal. lia.
Qed.

Lemma s32_congr a b : a mod 2 ^ 32 = b mod 2 ^ 32 -> s32 a = s32 b.
Proof.
  intros H. unfold s32. f_equal.
  rewrite <- (Zplus_mod_idemp_l a), <- (Zplus_mod_idemp_l b). by rewrite H.
Qed.

(** Bit fields: [b] in the low [k] bits and [a] above. *)
Lemma testbit_field_low k b i : 0 <= b < 2 ^ k -> k <= i -> Z.testbit b i = false.
Proof.
  intros Hb Hi. destruct (Z.le_gt_cases 0 k).
  - rewrite <- (Z.mod_small b (2 ^ k)) by lia. apply Z.mod_pow2_bits_high. lia.
  - rewrite Z.pow_neg_r in Hb by lia. lia.
Qed.

Lemma field_low a k b :
  0 <= k -> 0 <= b < 2 ^ k -> Z.land (Z.lor (Z.shiftl a k) b) (Z.ones k) = b.
Proof.
  intros Hk Hb. apply Z.bits_inj'. intros i Hi. rewrite Z.land_spec, Z.lor_spec, Z.shiftl_spec by lia.
  destruct (Z.ltb_spec i k).
  - rewrite Z.ones_spec_low, (Z.testbit_neg_r a) by lia. by rewrite andb_true_r.
  - rewrite Z.ones_spec_high, (testbit_field_low k b) by lia. apply andb_false_r.
Qed.

Lemma field_high a k b :
  0 <= k -> 0 <= b < 2 ^ k -> Z.shiftr (Z.lor (Z.shiftl a k) b) k = a.
Proof.
  intros Hk Hb. apply Z.bits_inj'. intros i Hi.
  rewrite Z.shiftr_spec, Z.lor_spec, Z.shiftl_spec, (testbit_field_low k b) by lia.
  rewrite orb_false_r. f_equal. lia.
Qed.

Lemma field_split x k : 0 <= k -> Z.lor (Z.shiftl (Z.shiftr x k) k) (Z.land x (Z.ones k)) = x.
Proof.
  intros Hk. apply Z.bits_inj'. intros i Hi.
  rewrite Z.lor_spec, Z.land_spec, Z.shiftl_spec by lia. destruct (Z.ltb_spec i k).
  - rewrite Z.ones_spec_low, (Z.testbit_neg_r (Z.shiftr x k)) by lia. by rewrite andb_true_r.
  - rewrite Z.ones_spec_high, Z.shiftr_spec by lia. rewrite andb_false_r, orb_false_r. f_equal. lia.
Qed.

Lemma land_ones_small x k : 0 <= k -> 0 <= x < 2 ^ k -> Z.land x (Z.ones k) = x.
Proof. intros Hk Hx. rewrite Z.land_ones by lia. by apply Z.mod_small. Qed.

Lemma land_ones_range x k : 0 <= k -> 0 <= Z.land x (Z.ones k) < 2 ^ k.
Proof. intros Hk. rewrite Z.land_ones by lia. apply Z.mod_pos_bound. lia. Qed.

Lemma shiftr_range x k n : 0 <= k -> 0 <= n -> 0 <= x < 2 ^ (k + n) -> 0 <= Z.shiftr x k < 2 ^ n.
Proof.
  intros Hk Hn Hx. rewrite Z.shiftr_div_pow2 by lia. rewrite Z.pow_add_r in Hx by lia. split.
  - apply Z.div_pos; lia.
  - apply Z.div_lt_upper_bound; lia.
Qed.

(** A property of a small range, checked at each value. *)
Lemma range_check (n : nat) (P : Z -> bool) :
  forallb P (List.map Z.of_nat (seq 0 n)) = true -> forall x, 0 <= x < Z.of_nat n -> P x = true.
Proof.
  intros Hall x Hx. rewrite forallb_forall in Hall. apply Hall. apply in_map_iff.
  exists (Z.to_nat x). split; [lia|]. apply in_seq. lia.
Qed.

(** [int] values are those whose bits from 31 up are all the sign bit. *)
Lemma testbit_low_mod z n i : 0 <= i < n -> Z.testbit (z mod 2 ^ n) i = Z.testbit z i.
Proof. intros H. apply Z.mod_pow2_bits_low. lia. Qed.

Lemma testbit_nonneg_high z n i : 0 <= z < 2 ^ n -> n <= i -> Z.testbit z i = false.
Proof.
  intros Hz Hi. rewrite <- (Z.mod_small z (2 ^ n)) by lia.
  destruct (Z.le_gt_cases 0 n).
  - apply Z.mod_pow2_bits_high. lia.
  - rewrite Z.pow_neg_r in Hz by lia. lia.
Qed.

Lemma is_int32_bits z :
  is_int32 z <-> (forall i, 31 <= i -> Z.testbit z i = Z.testbit z 31).
Proof.
  unfold is_int32, INT_MIN, INT_MAX. split.
  - intros Hz i Hi. destruct (Z.le_gt_cases 0 z).
    + rewrite !(testbit_nonneg_high z 31); lia.
    + assert (Hm : exists m, z = Z.lnot m /\ 0 <= m < 2 ^ 31).
      { exists (Z.lnot z). rewrite Z.lnot_involutive. unfold Z.lnot. split; [done|lia]. }
      destruct Hm as (m & -> & Hm). rewrite !Z.lnot_spec by lia.
      rewrite !(testbit_nonneg_high m 31); lia.
  - intros Hb.
    assert (Hs : Z.shiftr z 31 = if Z.testbit z 31 then -1 else 0).
    { apply Z.bits_inj'. intros n Hn. rewrite Z.shiftr_spec, Hb by lia.
      destruct (Z.testbit z 31); [by rewrite Z.bits_m1 | by rewrite Z.bits_0]. }
    rewrite Z.shiftr_div_pow2 in Hs by lia.
    pose proof (Z.div_mod z (2 ^ 31)). pose proof (Z.mod_pos_bound z (2 ^ 31)).
    destruct (Z.testbit z 31); lia.
Qed.

Lemma s32_bits z i : 0 <= i -> Z.testbit (s32 z) i = Z.testbit z (Z.min i 31).
Proof.
  intros Hi. destruct (Z.le_gt_cases 31 i).
  - rewrite (proj1 (is_int32_bits _) (s32_range z)) by lia.
    rewrite Z.min_r by lia.
    rewrite <- (testbit_low_mod (s32 z) 32), s32_mod, testbit_low_mod by lia. done.
  - rewrite Z.min_l by lia.
    rewrite <- (testbit_low_mod (s32 z) 32), s32_mod, testbit_low_mod by lia. done.
Qed.

Lemma int32_land a b : is_int32 a -> is_int32 b -> is_int32 (Z.land a b).
Proof.
  rewrite !is_int32_bits. intros Ha Hb i Hi. rewrite !Z.land_spec.
  by rewrite (Ha i), (Hb i).
Qed.

Lemma int32_lor a b : is_int32 a -> is_int32 b -> is_int32 (Z.lor a b).
Proof.
  rewrite !is_int32_bits. intros Ha Hb i Hi. rewrite !Z.lor_spec.
  by rewrite (Ha i), (Hb i).
Qed.

Lemma int32_lnot a : is_int32 a -> is_int32 (Z.lnot a).
Proof. unfold is_int32, INT_MIN, INT_MAX, Z.lnot. lia. Qed.

Lemma has_bits_pow2 x n : 0 <= n -> has_bits x (2 ^ n) = Z.testbit x n.
Proof.
  intros Hn. unfold has_bits. destruct (Z.testbit x n) eqn:E.
  - destruct (Z.eqb_spec (Z.land x (2 ^ n)) 0) as [H|]; [|done].
    apply (f_equal (fun z => Z.testbit z n)) in H.
    rewrite Z.land_spec, E, Z.pow2_bits_true, Z.bits_0 in H by lia. done.
  - destruct (Z.eqb_spec (Z.land x (2 ^ n)) 0) as [|H]; [done|].
    exfalso. apply H. apply Z.bits_inj'. intros i Hi.
    rewrite Z.land_spec, Z.bits_0. destruct (Z.eq_dec i n) as [->|].
    + by rewrite E.
    + rewrite Z.pow2_bits_false by lia. apply andb_false_r.
Qed.

(** ** Lemmas on vectors *)

Lemma zlen_app {A} (l1 l2 : list A) : zlen (l1 ++ l2) = zlen l1 + zlen l2.
Proof. unfold zlen. rewrite length_app. lia. Qed.

Lemma zlen_cons {A} (x : A) l : zlen (x :: l) = 1 + zlen l.
Proof. unfold zlen. simpl length. lia. Qed.

Lemma zlen_nil {A} : zlen (@nil A) = 0.
Proof. done. Qed.

Lemma zlen_nonneg {A} (l : list A) : 0 <= zlen l.
Proof. unfold zlen. lia. Qed.

Lemma zlen_push {A} (l : list A) x : zlen (push_back l x) = zlen l + 1.
Proof. unfold push_back. by rewrite zlen_app. Qed.

Lemma zlen_snoc {A} (l : list A) x : zlen (l ++ [x]) = zlen l + 1.
Proof. apply zlen_push. Qed.

Lemma back_push {A} (l : list A) x : back (push_back l x) = Some x.
Proof. unfold back, push_back. apply last_snoc. Qed.

Lemma pop_push {A} (l : list A) x : pop_back (push_back l x) = l.
Proof. unfold pop_back, push_back. apply removelast_last. Qed.

Lemma back_None {A} (l : list A) : back l = None <-> l = [].
Proof. unfold back. apply last_None. Qed.

Lemma Forall_pop {A} (P : A -> Prop) l : Forall P l -> Forall P (pop_back l).
Proof.
  intros Hl. unfold pop_back. destruct (decide (l = [])) as [->|Hne]; [done|].
  destruct (exists_last Hne) as (l' & x & ->). rewrite removelast_last.
  by apply Forall_app in Hl as [? _].
Qed.

Lemma znth_Some {A} (l : list A) i x : znth l i = Some x -> 0 <= i < zlen l.
Proof.
  unfold znth, zlen. destruct (Z.leb_spec 0 i); [|done].
  intros H1%lookup_lt_Some. lia.
Qed.

Lemma znth_is_Some {A} (l : list A) i : is_Some (znth l i) <-> 0 <= i < zlen l.
Proof.
  split.
  - intros [x Hx]. by eapply znth_Some.
  - intros Hi. unfold znth, zlen in *. destruct (Z.leb_spec 0 i); [|lia].
    apply lookup_lt_is_Some. lia.
Qed.

Lemma znth_app_l {A} (l l' : list A) i :
  i < zlen l -> znth (l ++ l') i = znth l i.
Proof.
  intros H. unfold znth, zlen in *. destruct (Z.leb_spec 0 i); [|done].
  apply lookup_app_l. lia.
Qed.

Lemma znth_app_r {A} (l l' : list A) i :
  zlen l <= i -> znth (l ++ l') i = znth l' (i - zlen l).
Proof.
  intros H. unfold znth, zlen in *.
  destruct (Z.leb_spec 0 i); [|lia].
  destruct (Z.leb_spec 0 (i - Z.of_nat (length l))); [|lia].
  rewrite lookup_app_r by lia. f_equal. lia.
Qed.

Lemma znth_middle {A} (l l' : list A) x : znth (l ++ x :: l') (zlen l) = Some x.
Proof. rewrite znth_app_r by lia. by rewrite Z.sub_diag. Qed.

Lemma zset_app_l {A} (l l' : list A) i x :
  0 <= i < zlen l -> zset (l ++ l') i x = zset l i x ++ l'.
Proof. intros H. unfold zset, zlen in *. apply insert_app_l. lia. Qed.

Lemma zlen_zset {A} (l : list A) i x : zlen (zset l i x) = zlen l.
Proof. unfold zlen, zset. by rewrite length_insert. Qed.

Lemma bytes_string_roundtrip s : string_of_bytes (bytes_of_string s) = s.
Proof.
  induction s as [|c s IH]; [done|]. simpl. f_equal; [|done].
  unfold ascii_of_byte, byte_of_ascii. rewrite N2Z.id. apply ascii_N_embedding.
Qed.

Lemma bytes_of_string_range s : Forall is_uint8 (bytes_of_string s).
Proof.
  induction s as [|c s IH]; simpl; constructor; [|done].
  unfold is_uint8, byte_of_ascii. pose proof (N_ascii_bounded c). lia.
Qed.

Lemma zlen_bytes_of_string s : zlen (bytes_of_string s) = Z.of_nat (String.length s).
Proof. unfold zlen. f_equal. induction s; simpl; congruence. Qed.

(** ** Lemmas on programs *)

Lemma bind_Done {S A B} (m : prog S A) (k : A -> prog S B) s b s' :
  (m ≫= k) s = Done b s' -> exists a s1, m s = Done a s1 /\ k a s1 = Done b s'.
Proof. unfold mbind, prog_bind. destruct (m s) as [a s1| |]; try done. eauto. Qed.

(** ** Automation *)

Create HintDb wf discriminated.
Create Rewrite HintDb zlen.
Create Rewrite HintDb vec.
#[export] Hint Resolve u32_range u8_range s32_range bytes_of_string_range zlen_nonneg : wf.

#[export] Hint Rewrite @zlen_app @zlen_cons @zlen_nil @zlen_push @zlen_zset @length_app : zlen.
#[export] Hint Rewrite @back_push @pop_push : vec.

(** Length goals on concatenated code. *)
Ltac zlen_lia := autorewrite with zlen in *; unfold zlen in *; simpl length in *; lia.

(** ** Ascending lists of integers: the keys of an ordered map, which the models
    have as the list of its entries in the order of keys *)

Abbreviation ascending := (StronglySorted Z.lt).

Lemma ascending_app l1 l2 :
  ascending (l1 ++ l2) <->
  ascending l1 /\ ascending l2 /\ (forall x y, x ∈ l1 -> y ∈ l2 -> x < y).
Proof.
  induction l1 as [|a l1 IH]; simpl.
  - split; [intros H; repeat split; [constructor | done | intros x y Hx; by apply elem_of_nil in Hx] | tauto].
  - split.
    + intros H. apply StronglySorted_inv in H as [H Ha]. apply IH in H as (H1 & H2 & H3).
      rewrite Forall_app in Ha. destruct Ha as [Ha1 Ha2]. repeat split; [by constructor | done|].
      intros x y [->|Hx]%elem_of_cons Hy; [|by apply H3]. rewrite Forall_forall in Ha2. by apply Ha2.
    + intros (H1 & H2 & H3). apply StronglySorted_inv in H1 as [H1 Ha]. constructor.
      * apply IH. repeat split; [done | done|]. intros x y Hx Hy. apply H3; [by right | done].
      * apply Forall_app. split; [done|]. apply Forall_forall. intros y Hy. apply H3; [by left | done].
Qed.

Lemma ascending_cons x l : ascending (x :: l) <-> ascending l /\ (forall y, y ∈ l -> x < y).
Proof.
  split.
  - intros H. apply StronglySorted_inv in H as [H Hx]. rewrite Forall_forall in Hx. by split.
  - intros [H Hx]. constructor; [done | by apply Forall_forall].
Qed.

Lemma ascending_snoc x l : ascending (l ++ [x]) <-> ascending l /\ (forall y, y ∈ l -> y < x).
Proof.
  rewrite ascending_app. split.
  - intros (H1 & _ & H). split; [done|]. intros y Hy. apply H; [done | by apply list_elem_of_singleton].
  - intros [H1 H]. repeat split; [done | repeat constructor|]. intros y z Hy ->%list_elem_of_singleton. auto.
Qed.

Lemma ascending_NoDup l : ascending l -> NoDup l.
Proof.
  induction l as [|x l IH]; intros H; [constructor|]. apply ascending_cons in H as [H Hx].
  constructor; [|by apply IH]. intros Hi. apply Hx in Hi. lia.
Qed.
