(* ===== verification/Bytecode.v ===== *)
(** Bytecode of the logic language (src/cs/logic/Bytecode.hxx and the
    serializer half of src/cs/logic/VM.cxx): the symbol table entries, the
    opcodes with their byte values, and the writers that append varints,
    opcodes and strings to a bytecode string.  The reader half is in
    [VMState.v]; the round trips are proved there. *)

From S2P Require Import Prelude.

(** ** Symbol table entries *)

Inductive SymbolType := VARIABLE | FUNCTION.
Inductive DataType := DATATYPE_VOID | DATATYPE_INT | DATATYPE_BOOL.
Inductive Access := LOCAL_VAR | INDIRECT_VAR | STATIC_VAR.

#[export] Instance SymbolType_eq_dec : EqDecision SymbolType.
Proof. solve_decision. Defined.
#[export] Instance DataType_eq_dec : EqDecision DataType.
Proof. solve_decision. Defined.
#[export] Instance Access_eq_dec : EqDecision Access.
Proof. solve_decision. Defined.

Definition datatype_to_string (d : DataType) : string :=
  match d with
  | DATATYPE_VOID => "void"
  | DATATYPE_INT => "int"
  | DATATYPE_BOOL => "bool"
  end.

Record TypeSpecifier := mkTypeSpecifier { builtin_type_ : DataType }.

Definition TypeSpecifier_to_string (t : TypeSpecifier) : string :=
  datatype_to_string (builtin_type_ t).

Record FunctionArgument := mkFunctionArgument {
  arg_name_ : string;
  arg_type_ : TypeSpecifier;
  arg_access_ : Access
}.

(** [args_] is a weak pointer: [None] is a pointer that cannot be locked. *)
Record Symbol := mkSymbol {
  symbol_type_ : SymbolType;
  access_ : Access;
  data_type_ : DataType;
  fp_offset_ : Z;
  args_ : option (list FunctionArgument)
}.

(** ** Opcodes *)

Inductive OpCode :=
| TERMINATE | PUSH_CONSTANT | PUSH_CONSTANT_0 | PUSH_CONSTANT_1 | PUSH_TOP
| POP_OP | ENTER | LEAVE | CHECK_STACK_LENGTH | STORE_FP_REL | LOAD_FP_REL
| INDIRECT_LOAD | INDIRECT_STORE | ASSIGN_VAR | ASSIGN_VAR_0 | ASSIGN_VAR_1
| LOAD_STRING | CREATE_VAR | CREATE_STATIC_VAR | IMPORT_VAR
| CREATE_INDIRECT_VAR
| NUMERIC_PLUS | NUMERIC_MINUS | NUMERIC_MUL | NUMERIC_DIV | NUMERIC_MOD
| BOOL_EQ | BOOL_NEQ | NUMERIC_LEQ | NUMERIC_GEQ | NUMERIC_LT | NUMERIC_GT
| NUMERIC_EQ | NUMERIC_NEQ | NUMERIC_INVERT | BOOL_NOT | BOOL_PROJECT
| IF_PREAMBLE | JUMP | CALL | RET | TEST_JUMP_IF_FALSE | TEST_JUMP_IF_TRUE
| PRINT_NUM | PRINT_STR | NOP.

#[export] Instance OpCode_eq_dec : EqDecision OpCode.
Proof. solve_decision. Defined.

(** The enumerators in declaration order; they count up from 0. *)
Definition opcode_list : list OpCode :=
  [ TERMINATE; PUSH_CONSTANT; PUSH_CONSTANT_0; PUSH_CONSTANT_1; PUSH_TOP;
    POP_OP; ENTER; LEAVE; CHECK_STACK_LENGTH; STORE_FP_REL; LOAD_FP_REL;
    INDIRECT_LOAD; INDIRECT_STORE; ASSIGN_VAR; ASSIGN_VAR_0; ASSIGN_VAR_1;
    LOAD_STRING; CREATE_VAR; CREATE_STATIC_VAR; IMPORT_VAR;
    CREATE_INDIRECT_VAR;
    NUMERIC_PLUS; NUMERIC_MINUS; NUMERIC_MUL; NUMERIC_DIV; NUMERIC_MOD;
    BOOL_EQ; BOOL_NEQ; NUMERIC_LEQ; NUMERIC_GEQ; NUMERIC_LT; NUMERIC_GT;
    NUMERIC_EQ; NUMERIC_NEQ; NUMERIC_INVERT; BOOL_NOT; BOOL_PROJECT;
    IF_PREAMBLE; JUMP; CALL; RET; TEST_JUMP_IF_FALSE; TEST_JUMP_IF_TRUE;
    PRINT_NUM; PRINT_STR ].

Fixpoint index_of (op : OpCode) (l : list OpCode) : Z :=
  match l with
  | [] => 0
  | o :: l' => if decide (o = op) then 0 else 1 + index_of op l'
  end.

(** The [uint8_t] value of an enumerator; [NOP = 0xff] is explicit. *)
Definition opcode_byte (op : OpCode) : Z :=
  match op with
  | NOP => 0xff
  | _ => index_of op opcode_list
  end.

#[global] Arguments opcode_byte : simpl never.

(** Which [case] label an instruction byte selects, if any. *)
Definition opcode_of_byte (b : Z) : option OpCode :=
  if b =? 0xff then Some NOP else znth opcode_list b.

(** ** Writing bytecode *)

(** [output->back() |= mask]. *)
Definition or_back (output : list Z) (mask : Z) : list Z :=
  match back output with
  | Some b => push_back (pop_back output) (Z.lor b mask)
  | None => output
  end.

(** The two [while] loops of [append_varint]; [stop] is 0 for positive values
    and -1 for negative ones. *)
Fixpoint append_varint_loop (fuel : nat) (stop : Z) (output : list Z) (value : Z)
    : list Z :=
  match fuel with
  | O => output
  | S fuel' =>
      if value =? stop then output
      else
        let output := or_back output 0x80 in
        let b := Z.land value 0x7F in
        append_varint_loop fuel' stop (push_back output b) (Z.shiftr value 7)
  end.

(** An [int] needs at most four rounds after its first six bits. *)
Definition varint_fuel : nat := 5.

Definition append_varint (output : list Z) (value : Z) : list Z :=
  if value =? 0 then push_back output 0
  else if 0 <? value then
    let b := Z.lor 0 (Z.land value 0x3F) in
    append_varint_loop varint_fuel 0 (push_back output b) (Z.shiftr value 6)
  else
    let b := Z.lor 0x40 (Z.land value 0x3F) in
    append_varint_loop varint_fuel (-1) (push_back output b) (Z.shiftr value 6).

Definition append_opcode (output : list Z) (opcode : OpCode) : list Z :=
  push_back output (opcode_byte opcode).

Definition append_string (output : list Z) (value : string) : list Z :=
  append_varint output (zlen (bytes_of_string value)) ++ bytes_of_string value.

(** ** The writers only append *)

(** The bytes of one varint. *)
Definition varint (value : Z) : list Z := append_varint [] value.

(** The seven-bit groups the loop emits, lowest first. *)
Fixpoint varint_groups (fuel : nat) (stop value : Z) : list Z :=
  match fuel with
  | O => []
  | S fuel' =>
      if value =? stop then []
      else Z.land value 0x7F :: varint_groups fuel' stop (Z.shiftr value 7)
  end.

(** Continuation bits on every byte but the last. *)
Fixpoint mark_continued (b : Z) (l : list Z) : list Z :=
  match l with
  | [] => [b]
  | b' :: l' => Z.lor b 0x80 :: mark_continued b' l'
  end.

Lemma opcode_of_byte_opcode op : opcode_of_byte (opcode_byte op) = Some op.
Proof. by destruct op. Qed.

Lemma opcode_of_byte_Some b op : opcode_of_byte b = Some op -> b = opcode_byte op.
Proof.
  unfold opcode_of_byte. destruct (Z.eqb_spec b 0xff) as [->|_]; [by intros [= <-]|].
  intros E. pose proof (znth_Some _ _ _ E) as Hb. unfold znth in E.
  destruct (Z.leb_spec 0 b); [|done]. rewrite <- (Z2Nat.id b) by lia.
  revert E. generalize (Z.to_nat b). intros n.
  do 50 (destruct n as [|n]; [by intros [= <-]|]). done.
Qed.

Lemma opcode_byte_range op : is_uint8 (opcode_byte op).
Proof. unfold is_uint8. destruct op; vm_compute; split; congruence. Qed.

Lemma or_back_push l b mask : or_back (push_back l b) mask = push_back l (Z.lor b mask).
Proof. unfold or_back. by rewrite back_push, pop_push. Qed.

Lemma append_varint_loop_groups fuel stop out b v :
  append_varint_loop fuel stop (push_back out b) v =
  out ++ mark_continued b (varint_groups fuel stop v).
Proof.
  revert out b v. induction fuel as [|fuel IH]; intros out b v; [done|].
  cbn [append_varint_loop varint_groups].
  destruct (v =? stop); [done|].
  rewrite or_back_push, IH. unfold push_back. by rewrite <- app_assoc.
Qed.

(** The bytes of a varint, as a list of groups. *)
Lemma append_varint_groups out v :
  append_varint out v =
  out ++
  (if v =? 0 then [0]
   else if 0 <? v
   then mark_continued (Z.land v 0x3F) (varint_groups varint_fuel 0 (Z.shiftr v 6))
   else mark_continued (Z.lor 0x40 (Z.land v 0x3F))
          (varint_groups varint_fuel (-1) (Z.shiftr v 6))).
Proof.
  unfold append_varint.
  destruct (v =? 0); [done|].
  destruct (0 <? v); by rewrite append_varint_loop_groups, ?Z.lor_0_l.
Qed.

Lemma append_varint_app out v : append_varint out v = out ++ varint v.
Proof. unfold varint. by rewrite !append_varint_groups. Qed.

Lemma append_opcode_app out op : append_opcode out op = out ++ [opcode_byte op].
Proof. done. Qed.

Lemma append_string_app out s :
  append_string out s = out ++ varint (zlen (bytes_of_string s)) ++ bytes_of_string s.
Proof. unfold append_string. by rewrite append_varint_app, app_assoc. Qed.

Create Rewrite HintDb emit.
#[export] Hint Rewrite append_varint_app append_opcode_app append_string_app : emit.
