(* ===== verification/Variables.v ===== *)
(** Variables as the virtual machine sees them (src/cs/logic/Variable.hxx):
    the creation request, the abstract variable and factory interfaces, and
    the static variable implementation.

    [Variable] and [VariableFactory] are abstract classes; the machine is
    verified against the type class [VariableFactory] below, over a type [W]
    of the state of the world outside the machine (the event bus, the
    configuration file) and a type [H] of handles for created variables. *)

From S2P Require Import Prelude.

(** ** Creation requests *)

Inductive RequestType := TYPE_BOOL | TYPE_INT.

#[export] Instance RequestType_eq_dec : EqDecision RequestType.
Proof. solve_decision. Defined.

Record VariableCreationRequest := mkRequest {
  req_block_num : Z;
  req_type : RequestType;
  req_num_states : Z;
  req_name : string;
  default_event : Z;
  default_on_event : Z
}.

(** [VariableCreationRequest::clear], also run by the constructor. *)
Definition VariableCreationRequest_clear : VariableCreationRequest :=
  mkRequest 0 TYPE_BOOL 2 "" 0 0.

(** ** The abstract interfaces

    [create_variable] returns [None] for a null pointer, or the crash of a
    failed [HASSERT].  [var_read] and [var_write] return, next to the new world,
    whether the variable called [report_access_error] on its factory. *)

Class VariableFactory (W H : Type) := {
  create_variable : VariableCreationRequest -> W -> option H * W + crash;
  var_read : H -> Z -> W -> Z * bool * W;
  var_write : H -> Z -> Z -> W -> bool * W;
  var_max_state : H -> W -> Z
}.

(** What the machine relies on: [read] returns an [int], and the factory does
    not follow dangling pointers. *)
Class VariableFactoryOk (W H : Type) (F : VariableFactory W H) : Prop := {
  var_read_int32 : forall (h : H) (arg : Z) (w : W), is_int32 (fst (fst (var_read h arg w)));
  create_variable_crash : forall r w c, create_variable r w = inr c -> c <> DanglingPointer
}.

(** ** Static variables *)

Record StaticVariable := mkStatic { value_ : Z }.

Definition StaticVariable_new : StaticVariable := mkStatic 0.
Definition StaticVariable_max_state (v : StaticVariable) : Z := INT_MAX.
Definition StaticVariable_read (v : StaticVariable) (arg : Z) : Z := value_ v.
Definition StaticVariable_write (v : StaticVariable) (arg value : Z) : StaticVariable :=
  mkStatic value.

(** A static variable keeps what was last written to it. *)
Lemma StaticVariable_read_write v arg arg' x :
  StaticVariable_read (StaticVariable_write v arg x) arg' = x.
Proof. done. Qed.
