(* ===== verification/VMState.v ===== *)
(** The state of the virtual machine and the primitives that read its
    instruction stream (src/cs/logic/VM.hxx, src/cs/logic/VM.cxx).

    The members of class [VM] are kept in two records: [VMData] holds what
    instructions compute with, [VMControl] the cached code pointers and the
    stack of return addresses.  Pointers to [Variable] objects are modelled by
    a heap of variable objects, so that a pointer whose object was destroyed is
    a dangling one. *)

From stdpp Require Import pretty.
From S2P Require Import Prelude Bytecode Variables.

Section State.
Context {W H : Type}.

(** ** Data of the machine *)

(** [VM::ExecutionEnvironment]: one entry of the call stack. *)
Record ExecutionEnvironment := mkEnv {
  env_fp : Z;
  env_vp : Z;
  return_address : Z
}.

(** A [Variable*]: the machine's own [operand_stack_variables_], or an object
    on the heap. *)
Inductive VarPtr :=
| OperandStackVariables
| VarAt (loc : nat).

(** [VM::VMVariableReference]. *)
Record VMVariableReference := mkRef {
  ref_var : VarPtr;
  ref_arg : Z
}.

(** The variable objects the machine can own. *)
Inductive VarObject :=
| StaticObj (v : StaticVariable)
| ExternalObj (h : H).

(** The private members of [VM], without the code pointers and the call
    stack.  [print_cb_] is [None] until [set_output] is called and then
    collects what was printed. *)
Record VMData := mkVMData {
  blocks_ : list (list Z);
  operand_stack_ : list Z;
  variable_stack_ : list VMVariableReference;
  string_acc_ : string;
  variable_request_ : VariableCreationRequest;
  world_ : W;
  heap_ : gmap nat VarObject;
  next_loc_ : nat;
  external_variables_ : gmap Z nat;
  external_variable_holding_ : list nat;
  error_ : string;
  print_cb_ : option (list string);
  fp_ : Z;
  block_num_ : Z;
  is_preamble_ : bool;
  access_error_ : bool
}.

(** [code_] is the code between [_block_start_] and [_eof_] ([None] when the
    pointers are uninitialized or their buffer is gone), [ip_] is
    [_ip_ - _block_start_]. *)
Record VMControl := mkControl {
  code_ : option (list Z);
  ip_ : Z;
  ip_block_num_ : Z;
  call_stack_ : list ExecutionEnvironment
}.

Record VM := mkVM { data : VMData; ctl : VMControl }.

(** Member updates. *)

Definition set_blocks (x : list (list Z)) (s : VMData) : VMData :=
  mkVMData
    x (operand_stack_ s) (variable_stack_ s) (string_acc_ s)
    (variable_request_ s) (world_ s) (heap_ s) (next_loc_ s)
    (external_variables_ s) (external_variable_holding_ s) (error_ s)
    (print_cb_ s) (fp_ s) (block_num_ s) (is_preamble_ s)
    (access_error_ s).
Definition set_operand_stack (x : list Z) (s : VMData) : VMData :=
  mkVMData
    (blocks_ s) x (variable_stack_ s) (string_acc_ s)
    (variable_request_ s) (world_ s) (heap_ s) (next_loc_ s)
    (external_variables_ s) (external_variable_holding_ s) (error_ s)
    (print_cb_ s) (fp_ s) (block_num_ s) (is_preamble_ s)
    (access_error_ s).
Definition set_variable_stack (x : list VMVariableReference) (s : VMData) : VMData :=
  mkVMData
    (blocks_ s) (operand_stack_ s) x (string_acc_ s)
    (variable_request_ s) (world_ s) (heap_ s) (next_loc_ s)
    (external_variables_ s) (external_variable_holding_ s) (error_ s)
    (print_cb_ s) (fp_ s) (block_num_ s) (is_preamble_ s)
    (access_error_ s).
Definition set_string_acc (x : string) (s : VMData) : VMData :=
  mkVMData
    (blocks_ s) (operand_stack_ s) (variable_stack_ s) x
    (variable_request_ s) (world_ s) (heap_ s) (next_loc_ s)
    (external_variables_ s) (external_variable_holding_ s) (error_ s)
    (print_cb_ s) (fp_ s) (block_num_ s) (is_preamble_ s)
    (access_error_ s).
Definition set_variable_request (x : VariableCreationRequest) (s : VMData) : VMData :=
  mkVMData
    (blocks_ s) (operand_stack_ s) (variable_stack_ s) (string_acc_ s)
    x (world_ s) (heap_ s) (next_loc_ s) (external_variables_ s)
    (external_variable_holding_ s) (error_ s) (print_cb_ s) (fp_ s)
    (block_num_ s) (is_preamble_ s) (access_error_ s).
Definition set_world (x : W) (s : VMData) : VMData :=
  mkVMData
    (blocks_ s) (operand_stack_ s) (variable_stack_ s) (string_acc_ s)
    (variable_request_ s) x (heap_ s) (next_loc_ s)
    (external_variables_ s) (external_variable_holding_ s) (error_ s)
    (print_cb_ s) (fp_ s) (block_num_ s) (is_preamble_ s)
    (access_error_ s).
Definition set_heap (x : gmap nat VarObject) (s : VMData) : VMData :=
  mkVMData
    (blocks_ s) (operand_stack_ s) (variable_stack_ s) (string_acc_ s)
    (variable_request_ s) (world_ s) x (next_loc_ s)
    (external_variables_ s) (external_variable_holding_ s) (error_ s)
    (print_cb_ s) (fp_ s) (block_num_ s) (is_preamble_ s)
    (access_error_ s).
Definition set_next_loc (x : nat) (s : VMData) : VMData :=
  mkVMData
    (blocks_ s) (operand_stack_ s) (variable_stack_ s) (string_acc_ s)
    (variable_request_ s) (world_ s) (heap_ s) x (external_variables_
    s) (external_variable_holding_ s) (error_ s) (print_cb_ s) (fp_ s)
    (block_num_ s) (is_preamble_ s) (access_error_ s).
Definition set_external_variables (x : gmap Z nat) (s : VMData) : VMData :=
  mkVMData
    (blocks_ s) (operand_stack_ s) (variable_stack_ s) (string_acc_ s)
    (variable_request_ s) (world_ s) (heap_ s) (next_loc_ s) x
    (external_variable_holding_ s) (error_ s) (print_cb_ s) (fp_ s)
    (block_num_ s) (is_preamble_ s) (access_error_ s).
Definition set_external_variable_holding (x : list nat) (s : VMData) : VMData :=
  mkVMData
    (blocks_ s) (operand_stack_ s) (variable_stack_ s) (string_acc_ s)
    (variable_request_ s) (world_ s) (heap_ s) (next_loc_ s)
    (external_variables_ s) x (error_ s) (print_cb_ s) (fp_ s)
    (block_num_ s) (is_preamble_ s) (access_error_ s).
Definition set_error (x : string) (s : VMData) : VMData :=
  mkVMData
    (blocks_ s) (operand_stack_ s) (variable_stack_ s) (string_acc_ s)
    (variable_request_ s) (world_ s) (heap_ s) (next_loc_ s)
    (external_variables_ s) (external_variable_holding_ s) x
    (print_cb_ s) (fp_ s) (block_num_ s) (is_preamble_ s)
    (access_error_ s).
Definition set_print_cb (x : option (list string)) (s : VMData) : VMData :=
  mkVMData
    (blocks_ s) (operand_stack_ s) (variable_stack_ s) (string_acc_ s)
    (variable_request_ s) (world_ s) (heap_ s) (next_loc_ s)
    (external_variables_ s) (external_variable_holding_ s) (error_ s)
    x (fp_ s) (block_num_ s) (is_preamble_ s) (access_error_ s).
Definition set_fp (x : Z) (s : VMData) : VMData :=
  mkVMData
    (blocks_ s) (operand_stack_ s) (variable_stack_ s) (string_acc_ s)
    (variable_request_ s) (world_ s) (heap_ s) (next_loc_ s)
    (external_variables_ s) (external_variable_holding_ s) (error_ s)
    (print_cb_ s) x (block_num_ s) (is_preamble_ s) (access_error_ s).
Definition set_block_num (x : Z) (s : VMData) : VMData :=
  mkVMData
    (blocks_ s) (operand_stack_ s) (variable_stack_ s) (string_acc_ s)
    (variable_request_ s) (world_ s) (heap_ s) (next_loc_ s)
    (external_variables_ s) (external_variable_holding_ s) (error_ s)
    (print_cb_ s) (fp_ s) x (is_preamble_ s) (access_error_ s).
Definition set_is_preamble (x : bool) (s : VMData) : VMData :=
  mkVMData
    (blocks_ s) (operand_stack_ s) (variable_stack_ s) (string_acc_ s)
    (variable_request_ s) (world_ s) (heap_ s) (next_loc_ s)
    (external_variables_ s) (external_variable_holding_ s) (error_ s)
    (print_cb_ s) (fp_ s) (block_num_ s) x (access_error_ s).
Definition set_access_error (x : bool) (s : VMData) : VMData :=
  mkVMData
    (blocks_ s) (operand_stack_ s) (variable_stack_ s) (string_acc_ s)
    (variable_request_ s) (world_ s) (heap_ s) (next_loc_ s)
    (external_variables_ s) (external_variable_holding_ s) (error_ s)
    (print_cb_ s) (fp_ s) (block_num_ s) (is_preamble_ s) x.

Definition set_code (x : option (list Z)) (c : VMControl) : VMControl :=
  mkControl x (ip_ c) (ip_block_num_ c) (call_stack_ c).
Definition set_ip (x : Z) (c : VMControl) : VMControl :=
  mkControl (code_ c) x (ip_block_num_ c) (call_stack_ c).
Definition set_call_stack (x : list ExecutionEnvironment) (c : VMControl) : VMControl :=
  mkControl (code_ c) (ip_ c) (ip_block_num_ c) x.

Definition set_data (d : VMData) (s : VM) : VM := mkVM d (ctl s).
Definition set_ctl (c : VMControl) (s : VM) : VM := mkVM (data s) c.

(** Error exit: [error_ = msg; return false]. *)
Definition fail_data {A} (msg : string) : prog VMData A :=
  fun d => Failed (set_error msg d).
Definition fail_vm {A} (msg : string) : prog VM A :=
  fun s => Failed (set_data (set_error msg (data s)) s).

(** ** Instruction pointer *)

(** Number of bits reserved for IPs within a single block. *)
Definition BLOCK_CODE_IP_SHIFT : Z := 16.

Definition get_block_start_ip (s : VM) : Z :=
  Z.shiftl (block_num_ (data s)) BLOCK_CODE_IP_SHIFT.

Definition get_ip (s : VM) : Z :=
  u32 (Z.lor (Z.shiftl (ip_block_num_ (ctl s)) BLOCK_CODE_IP_SHIFT) (ip_ (ctl s))).

(** An operation on the data that may mention [get_ip()] in an error text. *)
Definition on_data {A} (m : Z -> prog VMData A) : prog VM A :=
  fun s =>
    match m (get_ip s) (data s) with
    | Done a d => Done a (set_data d s)
    | Failed d => Failed (set_data d s)
    | Crashed c => Crashed c
    end.

Definition at_eof : prog VM bool :=
  fun s =>
    match code_ (ctl s) with
    | Some code => Done (zlen code <=? ip_ (ctl s)) s
    | None => Crashed DanglingPointer
    end.

(** [*_ip_]. *)
Definition peek_insn : prog VM Z :=
  fun s =>
    match code_ (ctl s) with
    | Some code =>
        match znth code (ip_ (ctl s)) with
        | Some b => Done b s
        | None => Crashed ReadOutsideCode
        end
    | None => Crashed DanglingPointer
    end.

(** [_ip_ += n]. *)
Definition advance_ip (n : Z) : prog VM unit :=
  modify_state (fun s => set_ctl (set_ip (ip_ (ctl s) + n) (ctl s)) s).

Definition fetch_insn : prog VM Z :=
  b ← peek_insn;
  advance_ip 1;;
  mret b.

(** Returns false, and changes nothing, if the target is invalid. *)
Definition jump (target : Z) : prog VM bool :=
  fun s =>
    let block_num := Z.shiftr target BLOCK_CODE_IP_SHIFT in
    match znth (blocks_ (data s)) block_num with
    | None => Done false s
    | Some c =>
        let ofs := Z.land target (Z.shiftl 1 BLOCK_CODE_IP_SHIFT - 1) in
        if zlen c <? ofs then Done false s
        else
          Done true
            (set_ctl (mkControl (Some c) ofs (u8 block_num) (call_stack_ (ctl s))) s)
    end.

Definition unexpected_eof {A} (where_ : string) : prog VM A :=
  fail_vm ("Unexpected EOF " +:+ where_).

(** [VM::access_error]. *)
Definition access_error (ip : Z) : prog VMData unit :=
  modify_state (fun d =>
    set_error ("At IP " +:+ pretty ip +:+ ": Variable access error.")
      (set_access_error true d)).

(** ** Reading arguments *)

(** The loop of [parse_varint] over the continuation bytes.  Shifting
    [0x7f] by 32 or more bits is undefined, which bounds the loop: [ofs]
    starts at 6 and grows by 7, so the fuel never runs out before that. *)
Fixpoint parse_varint_loop (fuel : nat) (ofs ret : Z) : prog VM Z :=
  match fuel with
  | O => crashing ShiftOutOfRange
  | S fuel' =>
      b ← peek_insn;
      if has_bits b 0x80 then
        advance_ip 1;;
        eof ← at_eof;
        if (eof : bool) then unexpected_eof "parsing varint"
        else
          if 32 <=? ofs then crashing ShiftOutOfRange
          else
            b' ← peek_insn;
            let ret := Z.land ret (Z.lnot (s32 (Z.shiftl 0x7f ofs))) in
            let ret := Z.lor ret (s32 (Z.shiftl (Z.land b' 0x7f) ofs)) in
            parse_varint_loop fuel' (ofs + 7) ret
      else mret ret
  end.

Definition parse_varint_fuel : nat := 6.

Definition parse_varint : prog VM Z :=
  eof ← at_eof;
  if (eof : bool) then unexpected_eof "parsing varint"
  else
    b ← peek_insn;
    let ret := if has_bits b 0x40 then -1 else 0 in
    let ret := Z.lor (Z.land ret (Z.lnot 0x3F)) (Z.land b 0x3F) in
    output ← parse_varint_loop parse_varint_fuel 6 ret;
    advance_ip 1;;
    mret output.

(** A negative length makes [std::string::assign] throw. *)
Definition parse_string : prog VM unit :=
  on_data (fun _ => modify_state (set_string_acc ""));;
  len ← parse_varint;
  s ← get_state;
  match code_ (ctl s) with
  | None => crashing DanglingPointer
  | Some code =>
      if zlen code <? ip_ (ctl s) + len then unexpected_eof "parsing string"
      else if len <? 0 then crashing BadResize
      else
        let text := take (Z.to_nat len) (drop (Z.to_nat (ip_ (ctl s))) code) in
        on_data (fun _ => modify_state (set_string_acc (string_of_bytes text)));;
        advance_ip len
  end.

End State.


(** ** Positions in code *)

Section Lemmas.
Context {W H : Type}.
Implicit Types (s : @VM W H) (c rest : list Z).

(** The instruction pointer of [s] is at the start of [c]. *)
Definition at_code s c : Prop :=
  exists C1 C3, code_ (ctl s) = Some (C1 ++ c ++ C3) /\ ip_ (ctl s) = zlen C1.

Definition adv (n : Z) s : @VM W H := set_ctl (set_ip (ip_ (ctl s) + n) (ctl s)) s.

Lemma adv_adv n m s : adv n (adv m s) = adv (m + n) s.
Proof. unfold adv. simpl. unfold set_ctl, set_ip. simpl. do 2 f_equal. lia. Qed.

Lemma adv_0 s : adv 0 s = s.
Proof.
  unfold adv, set_ctl, set_ip. rewrite Z.add_0_r.
  by destruct s as [d [? ? ? ?]].
Qed.

Lemma at_code_app_l s c1 c2 : at_code s (c1 ++ c2) -> at_code s c1.
Proof.
  intros (C1 & C3 & Hc & Hi). exists C1, (c2 ++ C3).
  by rewrite Hc, <- !app_assoc.
Qed.

Lemma at_code_adv s c1 c2 : at_code s (c1 ++ c2) -> at_code (adv (zlen c1) s) c2.
Proof.
  intros (C1 & C3 & Hc & Hi). exists (C1 ++ c1), C3. simpl. split.
  - by rewrite Hc, <- !app_assoc.
  - rewrite Hi. by autorewrite with zlen.
Qed.

Lemma at_code_cons s b c : at_code s (b :: c) -> at_code (adv 1 s) c.
Proof. apply (at_code_adv s [b] c). Qed.

Lemma at_code_set_data s d c : at_code (set_data d s) c <-> at_code s c.
Proof. done. Qed.

Lemma peek_at s b c : at_code s (b :: c) -> peek_insn s = Done b s.
Proof.
  intros (C1 & C3 & Hc & Hi). unfold peek_insn. rewrite Hc, Hi.
  by rewrite <- app_comm_cons, znth_middle.
Qed.

Lemma at_eof_at s b c : at_code s (b :: c) -> at_eof s = Done false s.
Proof.
  intros (C1 & C3 & Hc & Hi). unfold at_eof. rewrite Hc, Hi.
  f_equal. apply Z.leb_gt. autorewrite with zlen.
  pose proof (zlen_nonneg c). pose proof (zlen_nonneg C3). lia.
Qed.

Lemma at_eof_end s C : code_ (ctl s) = Some C -> ip_ (ctl s) = zlen C -> at_eof s = Done true s.
Proof.
  intros Hc Hi. unfold at_eof. rewrite Hc, Hi. f_equal. apply Z.leb_refl.
Qed.

Lemma fetch_at s b c : at_code s (b :: c) -> fetch_insn s = Done b (adv 1 s).
Proof.
  intros Ha. unfold fetch_insn, mbind, prog_bind. by rewrite (peek_at _ _ _ Ha).
Qed.

End Lemmas.

(** ** Varint round trip *)

Section Varint.
Context {W H : Type}.
Implicit Types (s : @VM W H) (rest : list Z).
Context (V : Z) (HV : is_int32 V).

Let stop : Z := if Z.testbit V 31 then -1 else 0.

(** [ret] has the bits of [V] below [ofs] and the sign above. *)
Definition varint_prefix (ofs ret : Z) : Prop :=
  forall i, 0 <= i ->
    Z.testbit ret i = if i <? ofs then Z.testbit V i else Z.testbit V 31.

Lemma varint_prefix_full ofs ret :
  varint_prefix ofs ret -> (31 <= ofs \/ Z.shiftr V ofs = stop /\ 0 <= ofs) -> ret = V.
Proof.
  intros Hp Hfull. apply Z.bits_inj'. intros i Hi. rewrite Hp by done.
  destruct (Z.ltb_spec i ofs); [done|].
  destruct Hfull as [?|[Hs ?]].
  - symmetry. apply (proj1 (is_int32_bits V) HV). lia.
  - apply (f_equal (fun z => Z.testbit z (i - ofs))) in Hs.
    rewrite Z.shiftr_spec in Hs by lia.
    replace (i - ofs + ofs) with i in Hs by lia. rewrite Hs. unfold stop.
    destruct (Z.testbit V 31); [by rewrite Z.bits_m1 by lia | by rewrite Z.bits_0].
Qed.

Lemma varint_prefix_step ofs ret :
  0 <= ofs <= 30 -> varint_prefix ofs ret ->
  varint_prefix (ofs + 7)
    (Z.lor (Z.land ret (Z.lnot (s32 (Z.shiftl 0x7f ofs))))
       (s32 (Z.shiftl (Z.land (Z.shiftr V ofs) 0x7f) ofs))).
Proof.
  intros Ho Hp i Hi. change 0x7f with (Z.ones 7).
  rewrite Z.lor_spec, Z.land_spec, Z.lnot_spec, !s32_bits, !Z.shiftl_spec by lia.
  rewrite Z.land_spec, (Hp i Hi).
  assert (Hs : Z.testbit V i = Z.testbit V (Z.min i 31)).
  { destruct (Z.le_gt_cases i 31); [by rewrite Z.min_l by lia|].
    rewrite Z.min_r by lia. apply (proj1 (is_int32_bits V) HV). lia. }
  destruct (Z.ltb_spec i ofs).
  { rewrite !(Z.testbit_neg_r _ (Z.min i 31 - ofs)) by lia.
    destruct (Z.ltb_spec i (ofs + 7)); [|lia]. simpl.
    by rewrite andb_true_r, orb_false_r. }
  rewrite Z.shiftr_spec by lia. replace (Z.min i 31 - ofs + ofs) with (Z.min i 31) by lia.
  rewrite Z.testbit_ones by lia.
  destruct (Z.leb_spec 0 (Z.min i 31 - ofs)); [|lia].
  destruct (Z.ltb_spec (Z.min i 31 - ofs) 7), (Z.ltb_spec i (ofs + 7)); simpl;
    rewrite ?andb_false_r, ?andb_true_r, ?orb_false_r, ?orb_false_l; try done; try lia.
  rewrite <- Hs. apply (proj1 (is_int32_bits V) HV). lia.
Qed.

Lemma varint_first_prefix b :
  b = Z.lor (if Z.testbit V 31 then 0x40 else 0) (Z.land V 0x3F) ->
  varint_prefix 6
    (Z.lor (Z.land (if has_bits b 0x40 then -1 else 0) (Z.lnot 0x3F)) (Z.land b 0x3F)).
Proof.
  intros ->. change 0x40 with (2 ^ 6). rewrite has_bits_pow2 by lia.
  change 0x3F with (Z.ones 6). intros i Hi.
  assert (H6 : Z.testbit (Z.lor (if Z.testbit V 31 then 2 ^ 6 else 0) (Z.land V (Z.ones 6))) 6
               = Z.testbit V 31).
  { rewrite Z.lor_spec, Z.land_spec, Z.testbit_ones by lia.
    destruct (Z.testbit V 31); simpl; by rewrite ?andb_false_r. }
  rewrite H6, Z.lor_spec, !Z.land_spec, Z.lnot_spec, Z.lor_spec, Z.land_spec by lia.
  rewrite Z.testbit_ones by lia. destruct (Z.leb_spec 0 i); [|lia].
  destruct (Z.ltb_spec i 6); simpl.
  - rewrite !andb_true_r, andb_false_r. simpl.
    destruct (Z.testbit V 31); [by rewrite Z.pow2_bits_false by lia|].
    by rewrite Z.bits_0.
  - rewrite !andb_false_r, orb_false_r, andb_true_r.
    destruct (Z.testbit V 31); [by rewrite Z.bits_m1 by lia | by rewrite Z.bits_0].
Qed.

Lemma has_bits_marked b : 0 <= b < 128 -> has_bits (Z.lor b 0x80) 0x80 = true.
Proof.
  intros Hb. change 0x80 with (2 ^ 7). rewrite has_bits_pow2 by lia.
  rewrite Z.lor_spec, Z.pow2_bits_true by lia. apply orb_true_r.
Qed.

Lemma has_bits_unmarked b : 0 <= b < 128 -> has_bits b 0x80 = false.
Proof.
  intros Hb. change 0x80 with (2 ^ 7). rewrite has_bits_pow2 by lia.
  apply (testbit_nonneg_high _ 7); lia.
Qed.

Lemma marked_low b : 0 <= b < 128 -> Z.land (Z.lor b 0x80) 0x7f = b.
Proof.
  intros Hb. change 0x7f with (Z.ones 7). apply Z.bits_inj'. intros i Hi.
  rewrite Z.land_spec, Z.lor_spec, Z.testbit_ones by lia. change 0x80 with (2 ^ 7).
  destruct (Z.leb_spec 0 i); [|lia]. destruct (Z.ltb_spec i 7); simpl.
  - rewrite Z.pow2_bits_false by lia. by rewrite orb_false_r, andb_true_r.
  - rewrite andb_false_r. symmetry. apply (testbit_nonneg_high _ 7); lia.
Qed.

Lemma group_range v : 0 <= Z.land v 0x7f < 128.
Proof. change 0x7f with (Z.ones 7). rewrite Z.land_ones by lia. apply Z.mod_pos_bound. lia. Qed.

Lemma unmarked_low b : 0 <= b < 128 -> Z.land b 0x7f = b.
Proof.
  intros Hb. change 0x7f with (Z.ones 7). rewrite Z.land_ones by lia.
  by apply Z.mod_small.
Qed.

(** The next byte holds the next group, marked or not. *)
Lemma mark_continued_head g l rest :
  0 <= g < 128 ->
  exists b tl, mark_continued g l ++ rest = b :: tl /\ Z.land b 0x7f = g.
Proof.
  intros Hg. destruct l as [|g' l]; simpl; eexists _, _; (split; [done|]).
  - by apply unmarked_low.
  - by apply marked_low.
Qed.

Lemma shiftr_int32_stop ofs : 31 <= ofs -> Z.shiftr V ofs = stop.
Proof.
  intros Ho. apply Z.bits_inj'. intros i Hi. rewrite Z.shiftr_spec by lia.
  rewrite (proj1 (is_int32_bits V) HV) by lia. unfold stop.
  destruct (Z.testbit V 31); [by rewrite Z.bits_m1 by lia | by rewrite Z.bits_0].
Qed.

Lemma parse_varint_loop_spec g fuel ofs ret b rest s :
  varint_prefix ofs ret -> 0 <= ofs -> 31 <= ofs + 7 * Z.of_nat g -> (g < fuel)%nat ->
  0 <= b < 128 ->
  at_code s (mark_continued b (varint_groups g stop (Z.shiftr V ofs)) ++ rest) ->
  parse_varint_loop fuel ofs ret s =
  Done V (adv (zlen (varint_groups g stop (Z.shiftr V ofs))) s).
Proof.
  revert fuel ofs ret b s. induction g as [|g IH]; intros fuel ofs ret b s Hp Ho Hg Hf Hb Hc.
  all: destruct fuel as [|fuel]; [lia|].
  - cbn [varint_groups mark_continued app] in Hc |- *.
    cbn [parse_varint_loop]. unfold mbind, prog_bind. rewrite (peek_at _ _ _ Hc).
    rewrite has_bits_unmarked by done. rewrite zlen_nil, adv_0.
    by rewrite (varint_prefix_full _ _ Hp) by lia.
  - cbn [varint_groups] in Hc |- *.
    destruct (Z.eqb_spec (Z.shiftr V ofs) stop) as [Hs|Hs].
    { cbn [mark_continued app] in Hc. cbn [parse_varint_loop].
      unfold mbind, prog_bind. rewrite (peek_at _ _ _ Hc).
      rewrite has_bits_unmarked by done. rewrite zlen_nil, adv_0.
      by rewrite (varint_prefix_full _ _ Hp) by (right; done). }
    assert (Ho' : ofs <= 30).
    { destruct (Z.le_gt_cases 31 ofs); [|lia]. by rewrite shiftr_int32_stop in Hs. }
    cbn [mark_continued app] in Hc. cbn [parse_varint_loop].
    unfold mbind at 1, prog_bind at 1. rewrite (peek_at _ _ _ Hc).
    rewrite has_bits_marked by done.
    apply at_code_cons in Hc.
    pose proof (group_range (Z.shiftr V ofs)) as Hgr.
    destruct (mark_continued_head (Z.land (Z.shiftr V ofs) 0x7f)
                (varint_groups g stop (Z.shiftr (Z.shiftr V ofs) 7)) rest Hgr)
      as (b' & tl & Heq & Hlow).
    pose proof Hc as Hc'. rewrite Heq in Hc'.
    unfold mbind at 1, prog_bind at 1. unfold advance_ip at 1, modify_state at 1.
    change (set_ctl (set_ip (ip_ (ctl s) + 1) (ctl s)) s) with (adv 1 s).
    unfold mbind at 1, prog_bind at 1. rewrite (at_eof_at _ _ _ Hc').
    destruct (Z.leb_spec 32 ofs); [lia|].
    unfold mbind at 1, prog_bind at 1. rewrite (peek_at _ _ _ Hc'), Hlow.
    rewrite Z.shiftr_shiftr in Hc |- * by lia.
    rewrite (IH fuel (ofs + 7) _ _ (adv 1 s)
               (varint_prefix_step _ _ (conj Ho Ho') Hp)) by (done || lia).
    rewrite adv_adv, zlen_cons. done.
Qed.

End Varint.

Section RoundTrip.
Context {W H : Type}.
Implicit Types (s : @VM W H) (rest : list Z).

Lemma first_group_range b neg :
  0 <= Z.lor (if neg : bool then 0x40 else 0) (Z.land b 0x3F) < 128.
Proof.
  change 0x3F with (Z.ones 6). rewrite Z.land_ones by lia.
  pose proof (Z.mod_pos_bound b (2 ^ 6) ltac:(lia)) as Hm.
  destruct neg; [|rewrite Z.lor_0_l; lia].
  assert (Z.land 0x40 (b mod 2 ^ 6) = 0) as Hz.
  { apply Z.bits_inj'. intros i Hi. rewrite Z.land_spec, Z.bits_0.
    change 0x40 with (2 ^ 6). destruct (Z.eq_dec i 6) as [->|].
    - rewrite (testbit_nonneg_high (b mod 2 ^ 6) 6) by lia. apply andb_false_r.
    - by rewrite Z.pow2_bits_false by lia. }
  rewrite <- Z.lxor_lor, <- Z.add_nocarry_lxor by done. lia.
Qed.

(** The bytes [append_varint] writes for an [int], in one form for both
    signs. *)
Lemma varint_int32 V :
  is_int32 V ->
  varint V = mark_continued (Z.lor (if Z.testbit V 31 then 0x40 else 0) (Z.land V 0x3F))
               (varint_groups varint_fuel (if Z.testbit V 31 then -1 else 0) (Z.shiftr V 6)).
Proof.
  intros HV. unfold varint. rewrite append_varint_groups, app_nil_l.
  assert (Hneg : Z.testbit V 31 = (V <? 0)).
  { unfold is_int32, INT_MIN, INT_MAX in HV. destruct (Z.ltb_spec V 0).
    - replace V with (Z.lnot (Z.lnot V)) by apply Z.lnot_involutive.
      rewrite Z.lnot_spec by lia. rewrite (testbit_nonneg_high _ 31); unfold Z.lnot; try lia.
    - apply (testbit_nonneg_high _ 31); lia. }
  rewrite Hneg. destruct (Z.eqb_spec V 0) as [->|]; [done|].
  destruct (Z.ltb_spec 0 V), (Z.ltb_spec V 0); try lia; [|done].
  by rewrite Z.lor_0_l.
Qed.

(** Reading back a varint: the value, and the pointer just behind it. *)
Lemma parse_varint_at V rest s :
  is_int32 V -> at_code s (varint V ++ rest) ->
  parse_varint s = Done V (adv (zlen (varint V)) s).
Proof.
  intros HV Hc. rewrite (varint_int32 V HV) in Hc |- *.
  set (b0 := Z.lor _ _) in *. set (gs := varint_groups _ _ _) in *.
  pose proof (first_group_range V (Z.testbit V 31)) as Hb0. fold b0 in Hb0.
  assert (Hhd : exists b tl, mark_continued b0 gs ++ rest = b :: tl /\
            has_bits b 0x40 = has_bits b0 0x40 /\ Z.land b 0x3F = Z.land b0 0x3F).
  { destruct gs as [|g gs']; simpl; eexists _, _; (split; [done|]); [done|].
    change 0x40 with (2 ^ 6). rewrite !has_bits_pow2 by lia. split.
    - by rewrite Z.lor_spec, orb_false_r.
    - rewrite Z.land_lor_distr_l. change (Z.land 0x80 0x3F) with 0. apply Z.lor_0_r. }
  destruct Hhd as (b & tl & Heq & H40 & H3f).
  pose proof Hc as Hc'. rewrite Heq in Hc'.
  unfold parse_varint, mbind, prog_bind.
  rewrite (at_eof_at _ _ _ Hc'), (peek_at _ _ _ Hc'), H40, H3f.
  rewrite (parse_varint_loop_spec V HV varint_fuel parse_varint_fuel 6 _ b0 rest s
             (varint_first_prefix V b0 eq_refl)); try (done || (unfold varint_fuel, parse_varint_fuel; lia)).
  unfold advance_ip, modify_state.
  change (set_ctl _ (adv _ s)) with (adv 1 (adv (zlen gs) s)). fold gs.
  rewrite adv_adv. unfold mret, prog_ret. do 2 f_equal.
  clearbody b0 gs. clear. revert b0. induction gs as [|g gs IH]; intros b0; [done|].
  cbn [mark_continued]. rewrite !zlen_cons, <- IH. lia.
Qed.

End RoundTrip.

(** ** Theorems *)

Section Theorems.
Context {W H : Type}.
Implicit Types (s : @VM W H) (rest : list Z).

Lemma length_mark_continued b l : length (mark_continued b l) = S (length l).
Proof. revert b. induction l as [|b' l IH]; intros b; [done|]. simpl. by rewrite IH. Qed.

Lemma varint_length V : is_int32 V -> 1 <= zlen (varint V) <= 5.
Proof.
  intros HV. rewrite (varint_int32 V HV). unfold zlen. rewrite length_mark_continued.
  pose proof (shiftr_int32_stop V HV 34 ltac:(lia)) as Hstop.
  set (stop := if Z.testbit V 31 then -1 else 0) in *.
  assert (E : Z.shiftr (Z.shiftr (Z.shiftr (Z.shiftr (Z.shiftr V 6) 7) 7) 7) 7 = stop).
  { rewrite !Z.shiftr_shiftr by lia. exact Hstop. }
  unfold varint_fuel. cbn [varint_groups].
  repeat (case_match; [simpl; lia|]).
  match goal with H : (_ =? _) = false |- _ => rewrite E, Z.eqb_refl in H end. done.
Qed.

(** C36: Integers survive the bytecode: what [append_varint] writes behind any
    other code, [parse_varint] reads back, for every [int], and it uses one to
    five bytes and leaves the pointer behind them. *)
Theorem varint_roundtrip out V rest s :
  is_int32 V -> code_ (ctl s) = Some (append_varint out V ++ rest) -> ip_ (ctl s) = zlen out ->
  let size := zlen (append_varint out V) - zlen out in
  parse_varint s = Done V (adv size s) /\ 1 <= size <= 5.
Proof.
  intros HV Hc Hi size.
  assert (E : size = zlen (varint V)).
  { unfold size. rewrite append_varint_app. autorewrite with zlen. lia. }
  rewrite E. split; [|by apply varint_length]. apply (parse_varint_at V rest); [done|].
  exists out, []. rewrite Hc, append_varint_app, app_nil_r, <- app_assoc. done.
Qed.

End Theorems.
