(* ===== verification/VM.v ===== *)
(** The virtual machine (src/cs/logic/VM.cxx, src/cs/logic/VM.hxx): one
    definition per instruction, the dispatch and execution loop of
    [VM::execute], and the public operations of the class.

    An instruction that only works on data is a [prog VMData]; it takes the
    current [get_ip()] for its error texts.  [GET_VARINT] is [parse_varint],
    [GET_FROM_STACK] is [get_from_stack]. *)

From stdpp Require Import pretty.
From S2P Require Import Prelude Bytecode Variables VMState.

Section Machine.
Context {W H : Type} `{F : !VariableFactory W H}.

Abbreviation VMData := (@VMData W H).
Abbreviation VM := (@VM W H).

(** ** Error texts *)

Definition hex_digit (n : Z) : ascii :=
  match String.get (Z.to_nat n) "0123456789abcdef" with
  | Some c => c
  | None => "0"%char
  end.

(** [StringPrintf("%02x", b)] for a byte. *)
Definition print_hex2 (b : Z) : string :=
  String (hex_digit (Z.shiftr b 4)) (String (hex_digit (Z.land b 0xF)) "").

(** ** Operand stack *)

Definition push (v : Z) : prog VMData unit :=
  modify_state (fun d => set_operand_stack (push_back (operand_stack_ d) v) d).

(** [GET_FROM_STACK(name, INSN)]. *)
Definition get_from_stack (ip insn : Z) (INSN : string) : prog VMData Z :=
  fun d =>
    match back (operand_stack_ d) with
    | None =>
        fail_data ("Stack underflow at ip " +:+ pretty ip +:+ " insn "
                   +:+ print_hex2 insn +:+ " " +:+ INSN) d
    | Some v => Done v (set_operand_stack (pop_back (operand_stack_ d)) d)
    end.

(** [operand_stack_.resize(n)]; a negative size is a huge [size_t]. *)
Definition resize_operand_stack (n : Z) : prog VMData unit :=
  fun d =>
    if n <? 0 then Crashed BadResize
    else Done tt (set_operand_stack (resize (Z.to_nat n) 0 (operand_stack_ d)) d).

Definition insn_PUSH_CONSTANT : prog VM unit :=
  r ← parse_varint;
  on_data (fun _ => push r).

Definition insn_ENTER : prog VM unit :=
  r ← parse_varint;
  on_data (fun _ d => resize_operand_stack (zlen (operand_stack_ d) + r) d).

Definition leave (r ip : Z) : prog VMData unit :=
  fun d =>
    if r <? 0 then
      fail_data ("At IP " +:+ pretty ip +:+ ": LEAVE with negative argument "
                 +:+ pretty r +:+ ".") d
    else if zlen (operand_stack_ d) <? r then
      fail_data ("At IP " +:+ pretty ip +:+ ": Stack underflow with LEAVE; arg="
                 +:+ pretty r +:+ " stack size=" +:+ pretty (zlen (operand_stack_ d))) d
    else resize_operand_stack (zlen (operand_stack_ d) - r) d.

Definition insn_LEAVE : prog VM unit :=
  r ← parse_varint;
  on_data (leave r).

Definition check_stack_length (r ip : Z) : prog VMData unit :=
  fun d =>
    if negb (zlen (operand_stack_ d) =? u32 (fp_ d + r)) then
      fail_data ("At IP " +:+ pretty ip
                 +:+ ": Operand stack length error, expected " +:+ pretty r
                 +:+ ", actual " +:+ pretty (zlen (operand_stack_ d)) +:+ ".") d
    else Done tt d.

Definition insn_CHECK_STACK_LENGTH : prog VM unit :=
  r ← parse_varint;
  on_data (check_stack_length r).

Definition store_fp_rel (relofs val : Z) : prog VMData unit :=
  fun d =>
    let ofs := u32 (fp_ d + relofs) in
    if zlen (operand_stack_ d) <=? ofs then
      fail_data "Invalid relative offset for STORE_FP_REL" d
    else Done tt (set_operand_stack (zset (operand_stack_ d) ofs val) d).

Definition insn_STORE_FP_REL (insn : Z) : prog VM unit :=
  val ← on_data (fun ip => get_from_stack ip insn "STORE_FP_REL");
  relofs ← parse_varint;
  on_data (fun _ => store_fp_rel relofs val).

Definition load_fp_rel (relofs : Z) : prog VMData Z :=
  fun d =>
    let ofs := u32 (fp_ d + relofs) in
    match znth (operand_stack_ d) ofs with
    | None => fail_data "Invalid relative offset for LOAD_FP_REL" d
    | Some val => Done val d
    end.

Definition insn_LOAD_FP_REL : prog VM unit :=
  relofs ← parse_varint;
  on_data (fun _ => val ← load_fp_rel relofs; push val).

Definition insn_PUSH_TOP : prog VMData unit :=
  fun d =>
    match back (operand_stack_ d) with
    | None => fail_data "Stack underflow at PUSH_TOP" d
    | Some v => push v d
    end.

Definition insn_POP_OP : prog VMData unit :=
  fun d =>
    match back (operand_stack_ d) with
    | None => fail_data "Stack underflow at POP_OP" d
    | Some _ => Done tt (set_operand_stack (pop_back (operand_stack_ d)) d)
    end.

Definition insn_IF_PREAMBLE : prog VMData unit :=
  fun d => push (if is_preamble_ d then 1 else 0) d.

(** ** Variables *)

(** [VMAbsoluteVariable::read], a local variable seen as a [Variable]. *)
Definition VMAbsoluteVariable_read (ip arg : Z) : prog VMData Z :=
  fun d =>
    match znth (operand_stack_ d) arg with
    | None => (access_error ip;; mret (-1)) d
    | Some v => Done v d
    end.

Definition VMAbsoluteVariable_write (ip arg value : Z) : prog VMData unit :=
  fun d =>
    if zlen (operand_stack_ d) <=? arg then access_error ip d
    else Done tt (set_operand_stack (zset (operand_stack_ d) arg value) d).

(** [ref.var->read(variable_factory_, ref.arg)]. *)
Definition variable_read (ip : Z) (ref : VMVariableReference) : prog VMData Z :=
  match ref_var ref with
  | OperandStackVariables => VMAbsoluteVariable_read ip (ref_arg ref)
  | VarAt l => fun d =>
      match heap_ d !! l with
      | None => Crashed DanglingPointer
      | Some (StaticObj v) => Done (StaticVariable_read v (ref_arg ref)) d
      | Some (ExternalObj h) =>
          let '(val, err, w) := var_read h (ref_arg ref) (world_ d) in
          ((if err : bool then access_error ip else mret tt);; mret val) (set_world w d)
      end
  end.

(** [ref.var->write(variable_factory_, ref.arg, value)]. *)
Definition variable_write (ip : Z) (ref : VMVariableReference) (value : Z)
    : prog VMData unit :=
  match ref_var ref with
  | OperandStackVariables => VMAbsoluteVariable_write ip (ref_arg ref) value
  | VarAt l => fun d =>
      match heap_ d !! l with
      | None => Crashed DanglingPointer
      | Some (StaticObj v) =>
          Done tt (set_heap (<[l := StaticObj (StaticVariable_write v (ref_arg ref) value)]>
                               (heap_ d)) d)
      | Some (ExternalObj h) =>
          let '(err, w) := var_write h (ref_arg ref) value (world_ d) in
          (if err : bool then access_error ip else mret tt) (set_world w d)
      end
  end.

(** [if (access_error_) return false;] *)
Definition check_access : prog VMData unit :=
  fun d => if access_error_ d then Failed d else Done tt d.

Definition indirect_load (ip varidx : Z) : prog VMData Z :=
  fun d =>
    match znth (variable_stack_ d) varidx with
    | None => fail_data "Invalid indirect variable reference." d
    | Some ref => (val ← variable_read ip ref; check_access;; mret val) d
    end.

Definition insn_INDIRECT_LOAD (insn ip : Z) : prog VMData unit :=
  varidx ← get_from_stack ip insn "INDIRECT_LOAD";
  val ← indirect_load ip varidx;
  push val.

Definition indirect_store (ip varidx value : Z) : prog VMData unit :=
  fun d =>
    match znth (variable_stack_ d) varidx with
    | None => fail_data "Invalid indirect variable reference." d
    | Some ref => (variable_write ip ref value;; check_access) d
    end.

Definition insn_INDIRECT_STORE (insn ip : Z) : prog VMData unit :=
  varidx ← get_from_stack ip insn "INDIRECT_STORE";
  value ← get_from_stack ip insn "INDIRECT_STORE";
  indirect_store ip varidx value.

(** [variable_stack_.emplace_back(ref)], then the offset of the new entry. *)
Definition push_variable (ref : VMVariableReference) : prog VMData Z :=
  fun d =>
    let vs := push_back (variable_stack_ d) ref in
    Done (s32 (zlen vs - 1)) (set_variable_stack vs d).

(** [external_variables_[guid] = new object]; an object it replaces is
    destroyed. *)
Definition install_variable (guid : Z) (obj : VarObject) : prog VMData nat :=
  fun d =>
    let l := next_loc_ d in
    let heap := match external_variables_ d !! guid with
                | Some old => delete old (heap_ d)
                | None => heap_ d
                end in
    Done l (set_next_loc (S l)
      (set_external_variables (<[guid := l]> (external_variables_ d))
        (set_heap (<[l := obj]> heap) d))).

Definition create_var (guid num_states : Z) : prog VMData unit :=
  fun d =>
    let r := variable_request_ d in
    let r := mkRequest (u8 (block_num_ d)) (req_type r) (req_num_states r)
               (string_acc_ d) (default_event r) (default_on_event r) in
    let r := if 0 <=? num_states
             then mkRequest (req_block_num r) TYPE_INT num_states (req_name r)
                    (default_event r) (default_on_event r)
             else r in
    let d := set_variable_request r (set_string_acc "" d) in
    match create_variable r (world_ d) with
    | inr c => Crashed c
    | inl (None, w) =>
        fail_data ("Error creating variable '" +:+ req_name r +:+ "'.") (set_world w d)
    | inl (Some h, w) =>
        (install_variable (u32 guid) (ExternalObj h);; mret tt)
          (set_variable_request VariableCreationRequest_clear (set_world w d))
    end.

Definition insn_CREATE_VAR : prog VM unit :=
  guid ← parse_varint;
  num_states ← parse_varint;
  on_data (fun _ => create_var guid num_states).

Definition import_var (arg guid : Z) : prog VMData unit :=
  fun d =>
    match external_variables_ d !! u32 guid with
    | None =>
        fail_data ("Unknown variable GUID " +:+ pretty guid +:+ " at IMPORT_VAR") d
    | Some l => (idx ← push_variable (mkRef (VarAt l) (u32 arg)); push idx) d
    end.

Definition insn_IMPORT_VAR (insn ip : Z) : prog VMData unit :=
  arg ← get_from_stack ip insn "IMPORT_VAR";
  guid ← get_from_stack ip insn "IMPORT_VAR";
  import_var arg guid.

Definition create_indirect_var (fpofs : Z) : prog VMData unit :=
  fun d =>
    (idx ← push_variable (mkRef OperandStackVariables (u32 (fp_ d + fpofs))); push idx) d.

Definition insn_CREATE_INDIRECT_VAR : prog VM unit :=
  fpofs ← parse_varint;
  on_data (fun _ => create_indirect_var fpofs).

Definition create_static_var (guid : Z) : prog VMData unit :=
  fun d =>
    match external_variables_ d !! u32 guid with
    | Some l =>
        (idx ← push_variable (mkRef (VarAt l) 0); push idx;; push 0) d
    | None =>
        (l ← install_variable (u32 guid) (StaticObj StaticVariable_new);
         idx ← push_variable (mkRef (VarAt l) 0); push idx;; push 1) d
    end.

Definition insn_CREATE_STATIC_VAR : prog VM unit :=
  guid ← parse_varint;
  on_data (fun _ => create_static_var guid).

(** ** Arithmetic *)

(** [lhs op rhs] on [int]; overflow and [INT_MIN / -1] are undefined. *)
Definition numeric_plus (lhs rhs : Z) : prog VMData Z := int_result (lhs + rhs).
Definition numeric_minus (lhs rhs : Z) : prog VMData Z := int_result (lhs - rhs).
Definition numeric_mul (lhs rhs : Z) : prog VMData Z := int_result (lhs * rhs).

Definition numeric_div (lhs rhs : Z) : prog VMData Z :=
  if rhs =? 0 then fail_data "Div by zero" else int_result (Z.quot lhs rhs).

Definition numeric_mod (lhs rhs : Z) : prog VMData Z :=
  if rhs =? 0 then fail_data "Div by zero"
  else int_result (Z.quot lhs rhs);; mret (Z.rem lhs rhs).

Definition bool_eq (lhs rhs : Z) : Z :=
  b2z (Bool.eqb (negb (lhs =? 0)) (negb (rhs =? 0))).
Definition bool_neq (lhs rhs : Z) : Z :=
  b2z (negb (Bool.eqb (negb (lhs =? 0)) (negb (rhs =? 0)))).

Definition insn_NUMERIC_PLUS (insn ip : Z) : prog VMData unit :=
  rhs ← get_from_stack ip insn "NUMERIC_PLUS";
  lhs ← get_from_stack ip insn "NUMERIC_PLUS";
  r ← numeric_plus lhs rhs;
  push r.

Definition insn_NUMERIC_MINUS (insn ip : Z) : prog VMData unit :=
  rhs ← get_from_stack ip insn "";
  lhs ← get_from_stack ip insn "";
  r ← numeric_minus lhs rhs;
  push r.

Definition insn_NUMERIC_MUL (insn ip : Z) : prog VMData unit :=
  rhs ← get_from_stack ip insn "";
  lhs ← get_from_stack ip insn "";
  r ← numeric_mul lhs rhs;
  push r.

Definition insn_NUMERIC_DIV (insn ip : Z) : prog VMData unit :=
  rhs ← get_from_stack ip insn "";
  lhs ← get_from_stack ip insn "";
  r ← numeric_div lhs rhs;
  push r.

Definition insn_NUMERIC_MOD (insn ip : Z) : prog VMData unit :=
  rhs ← get_from_stack ip insn "";
  lhs ← get_from_stack ip insn "";
  r ← numeric_mod lhs rhs;
  push r.

Definition insn_BOOL_EQ (insn ip : Z) : prog VMData unit :=
  rhs ← get_from_stack ip insn "BOOLEQ";
  lhs ← get_from_stack ip insn "BOOLEQ";
  push (bool_eq lhs rhs).

Definition insn_BOOL_NEQ (insn ip : Z) : prog VMData unit :=
  rhs ← get_from_stack ip insn "BOOLNEQ";
  lhs ← get_from_stack ip insn "BOOLNEQ";
  push (bool_neq lhs rhs).

(** The inner [switch] of the comparisons. *)
Definition int_comparison (op : OpCode) (lhs rhs : Z) : Z :=
  match op with
  | NUMERIC_LEQ => b2z (lhs <=? rhs)
  | NUMERIC_GEQ => b2z (rhs <=? lhs)
  | NUMERIC_LT => b2z (lhs <? rhs)
  | NUMERIC_GT => b2z (rhs <? lhs)
  | NUMERIC_EQ => b2z (lhs =? rhs)
  | NUMERIC_NEQ => b2z (negb (lhs =? rhs))
  | _ => 0
  end.

Definition insn_INTCOMP (op : OpCode) (insn ip : Z) : prog VMData unit :=
  rhs ← get_from_stack ip insn "INTCOMP";
  lhs ← get_from_stack ip insn "INTCOMP";
  push (int_comparison op lhs rhs).

Definition insn_BOOL_NOT (insn ip : Z) : prog VMData unit :=
  rhs ← get_from_stack ip insn "";
  if rhs =? 0 then push 1 else push 0.

Definition insn_BOOL_PROJECT (insn ip : Z) : prog VMData unit :=
  rhs ← get_from_stack ip insn "";
  if rhs =? 0 then push 0 else push 1.

(** ** Control flow *)

(** The result of [jump] is ignored by its callers here. *)
Definition insn_JUMP : prog VM unit :=
  r ← parse_varint;
  s ← get_state;
  jump (u32 (get_ip s + r));;
  mret tt.

Definition insn_CALL (insn : Z) : prog VM unit :=
  s ← get_state;
  match back (call_stack_ (ctl s)) with
  | None => fail_vm "Call stack underflow at CALL"
  | Some top =>
      if negb (fp_ (data s) =? env_fp top) then
        fail_vm ("Unexpected fp at CALL. Expected " +:+ pretty (s32 (env_fp top))
                 +:+ " actual " +:+ pretty (s32 (fp_ (data s))))
      else
        dst ← on_data (fun ip => get_from_stack ip insn "");
        num_arg ← parse_varint;
        s ← get_state;
        let fp := u32 (zlen (operand_stack_ (data s)) - num_arg) in
        let env := mkEnv fp (zlen (variable_stack_ (data s))) (get_ip s) in
        put_state (set_ctl (set_call_stack (push_back (call_stack_ (ctl s)) env) (ctl s)) s);;
        on_data (fun _ => modify_state (set_fp fp));;
        jump (u32 dst);;
        mret tt
  end.

(** [variable_stack_.resize(vp); operand_stack_.resize(fp)]: [vp] never
    exceeds the size, since it was the size at [CALL] and only [RET] shrinks
    the stack; growing it would create references to no object. *)
Definition unwind_frame (env : ExecutionEnvironment) : prog VMData unit :=
  fun d =>
    if zlen (variable_stack_ d) <? env_vp env then Crashed BadResize
    else
      resize_operand_stack (env_fp env)
        (set_variable_stack (take (Z.to_nat (env_vp env)) (variable_stack_ d)) d).

Definition insn_RET : prog VM unit :=
  s ← get_state;
  match back (call_stack_ (ctl s)), back (pop_back (call_stack_ (ctl s))) with
  | Some env, Some ss =>
      on_data (fun _ => unwind_frame env);;
      jump (return_address env);;
      modify_state (fun s => set_ctl (set_call_stack (pop_back (call_stack_ (ctl s))) (ctl s)) s);;
      on_data (fun _ => modify_state (set_fp (env_fp ss)))
  | _, _ => fail_vm "Call stack underflow at RET"
  end.

Definition insn_TEST_JUMP_IF_FALSE (insn : Z) : prog VM unit :=
  r ← parse_varint;
  arg ← on_data (fun ip => get_from_stack ip insn "TEST_JUMP_IF_FALSE");
  if arg =? 0 then advance_ip r else mret tt.

Definition insn_TEST_JUMP_IF_TRUE (insn : Z) : prog VM unit :=
  r ← parse_varint;
  arg ← on_data (fun ip => get_from_stack ip insn "TEST_JUMP_IF_TRUE");
  if negb (arg =? 0) then advance_ip r else mret tt.

(** ** Output *)

(** [print_cb_(text)]: calling an empty [std::function] throws. *)
Definition print_output (text : string) : prog VMData unit :=
  fun d =>
    match print_cb_ d with
    | None => Crashed EmptyCallback
    | Some out => Done tt (set_print_cb (Some (push_back out text)) d)
    end.

Definition insn_PRINT_NUM (insn ip : Z) : prog VMData unit :=
  arg ← get_from_stack ip insn "PRINT_NUM";
  print_output (pretty arg).

Definition insn_PRINT_STR : prog VMData unit :=
  fun d => print_output (string_acc_ d) d.

(** ** Dispatch *)

(** The body of the [switch]; [TERMINATE] is handled by [step]. *)
Definition exec_opcode (op : OpCode) (insn : Z) : prog VM unit :=
  match op with
  | PUSH_CONSTANT => insn_PUSH_CONSTANT
  | ENTER => insn_ENTER
  | LEAVE => insn_LEAVE
  | CHECK_STACK_LENGTH => insn_CHECK_STACK_LENGTH
  | STORE_FP_REL => insn_STORE_FP_REL insn
  | LOAD_FP_REL => insn_LOAD_FP_REL
  | INDIRECT_LOAD => on_data (insn_INDIRECT_LOAD insn)
  | INDIRECT_STORE => on_data (insn_INDIRECT_STORE insn)
  | PUSH_TOP => on_data (fun _ => insn_PUSH_TOP)
  | POP_OP => on_data (fun _ => insn_POP_OP)
  | PUSH_CONSTANT_0 => on_data (fun _ => push 0)
  | PUSH_CONSTANT_1 => on_data (fun _ => push 1)
  | IF_PREAMBLE => on_data (fun _ => insn_IF_PREAMBLE)
  | LOAD_STRING => parse_string
  | CREATE_VAR => insn_CREATE_VAR
  | IMPORT_VAR => on_data (insn_IMPORT_VAR insn)
  | CREATE_INDIRECT_VAR => insn_CREATE_INDIRECT_VAR
  | CREATE_STATIC_VAR => insn_CREATE_STATIC_VAR
  | NUMERIC_PLUS => on_data (insn_NUMERIC_PLUS insn)
  | NUMERIC_MINUS => on_data (insn_NUMERIC_MINUS insn)
  | NUMERIC_MUL => on_data (insn_NUMERIC_MUL insn)
  | NUMERIC_DIV => on_data (insn_NUMERIC_DIV insn)
  | NUMERIC_MOD => on_data (insn_NUMERIC_MOD insn)
  | BOOL_EQ => on_data (insn_BOOL_EQ insn)
  | BOOL_NEQ => on_data (insn_BOOL_NEQ insn)
  | NUMERIC_LEQ | NUMERIC_GEQ | NUMERIC_LT | NUMERIC_GT | NUMERIC_EQ | NUMERIC_NEQ =>
      on_data (insn_INTCOMP op insn)
  | BOOL_NOT => on_data (insn_BOOL_NOT insn)
  | BOOL_PROJECT => on_data (insn_BOOL_PROJECT insn)
  | JUMP => insn_JUMP
  | CALL => insn_CALL insn
  | RET => insn_RET
  | TEST_JUMP_IF_FALSE => insn_TEST_JUMP_IF_FALSE insn
  | TEST_JUMP_IF_TRUE => insn_TEST_JUMP_IF_TRUE insn
  | PRINT_NUM => on_data (insn_PRINT_NUM insn)
  | PRINT_STR => on_data (fun _ => insn_PRINT_STR)
  | NOP => mret tt
  | TERMINATE => mret tt
  | ASSIGN_VAR | ASSIGN_VAR_0 | ASSIGN_VAR_1 | NUMERIC_INVERT =>
      fail_vm ("Unexpected instruction " +:+ print_hex2 insn)
  end.

(** One round of the [while] loop; false is [return true]. *)
Definition step : prog VM bool :=
  insn ← fetch_insn;
  match opcode_of_byte insn with
  | Some TERMINATE => mret false
  | Some op => exec_opcode op insn;; mret true
  | None => fail_vm ("Unexpected instruction " +:+ print_hex2 insn)
  end.

(** [VM::execute]: [Done] is [return true], [Failed] is [return false],
    [None] means that the fuel ran out. *)
Fixpoint execute (fuel : nat) (s : VM) : option (outcome VM unit) :=
  match fuel with
  | O => None
  | S fuel' =>
      match at_eof s with
      | Done true s => Some (Done tt s)
      | Done false s =>
          match step s with
          | Done true s => execute fuel' s
          | Done false s => Some (Done tt s)
          | Failed s => Some (Failed s)
          | Crashed c => Some (Crashed c)
          end
      | Failed s => Some (Failed s)
      | Crashed c => Some (Crashed c)
      end
  end.

(** Rounds of the execution loop. *)
Inductive steps : VM -> VM -> Prop :=
| steps_refl s : steps s s
| steps_step s1 s2 s3 :
    at_eof s1 = Done false s1 -> step s1 = Done true s2 -> steps s2 s3 -> steps s1 s3.

(** ** Public operations *)

(** The constructor.  [fp_] is uninitialized until [clear]. *)
Definition VM_new (w : W) : VM :=
  mkVM
    (mkVMData [] [] [] "" VariableCreationRequest_clear w ∅ 0 ∅ [] "" None 0 0 false false)
    (mkControl None 0 0 []).

Definition set_vm_block_num (block_num : Z) (s : VM) : VM :=
  set_data (set_block_num (u8 block_num) (data s)) s.

Definition execute_block (fuel : nat) (block_num : Z) (s : VM) : option (outcome VM unit) :=
  let s := set_vm_block_num block_num s in
  match jump (get_block_start_ip s) s with
  | Done _ s => execute fuel s
  | Failed s => Some (Failed s)
  | Crashed c => Some (Crashed c)
  end.

Definition set_preamble (is_preamble : bool) (s : VM) : VM :=
  set_data (set_is_preamble is_preamble (data s)) s.

(** Replacing the code of the running block, or growing [blocks_], leaves the
    cached code pointers behind. *)
Definition set_block_code (block_num : Z) (code : list Z) : prog VM unit :=
  fun s =>
    if negb (zlen code <? Z.shiftl 1 BLOCK_CODE_IP_SHIFT) then Crashed AssertFailed
    else
      let grow := zlen (blocks_ (data s)) <=? block_num in
      let blocks := if grow then resize (Z.to_nat (block_num + 1)) [] (blocks_ (data s))
                    else blocks_ (data s) in
      let c := if grow || (ip_block_num_ (ctl s) =? block_num)
               then set_code None (ctl s) else ctl s in
      Done tt (mkVM (set_blocks (zset blocks block_num code) (data s)) c).

Definition clear_block_code (block_num : Z) : prog VM unit :=
  fun s =>
    if block_num <? zlen (blocks_ (data s)) then
      let c := if ip_block_num_ (ctl s) =? block_num
               then set_code None (ctl s) else ctl s in
      Done tt (mkVM (set_blocks (zset (blocks_ (data s)) block_num []) (data s)) c)
    else Done tt s.

(** [VM::execute(ops)]: loads the current block and runs it. *)
Definition execute_ops (fuel : nat) (ops : list Z) (s : VM) : option (outcome VM unit) :=
  match set_block_code (block_num_ (data s)) ops s with
  | Done _ s => execute_block fuel (block_num_ (data s)) s
  | Failed s => Some (Failed s)
  | Crashed c => Some (Crashed c)
  end.

Definition VM_set_output (s : VM) : VM := set_data (set_print_cb (Some []) (data s)) s.

Definition clear_data (d : VMData) : VMData :=
  set_access_error false (set_fp 0 (set_variable_stack [] (set_operand_stack [] d))).

Definition VM_clear (s : VM) : VM :=
  mkVM (clear_data (data s)) (set_call_stack [mkEnv 0 0 0] (ctl s)).

(** The entries of [external_variables_] with a GUID in [begin, end). *)
Definition in_guid_range (begin end_ : Z) (g : Z) : bool := (begin <=? g) && (g <? end_).

(** Iterating from [lower_bound(begin)] to a [lower_bound(end)] that lies
    before it runs off the map. *)
Definition save_variables (begin end_ : Z) : prog VMData unit :=
  fun d =>
    let vars := external_variables_ d in
    if (end_ <? begin) && negb (bool_decide (filter (fun kv => in_guid_range end_ begin kv.1) vars = ∅))
    then Crashed DanglingPointer
    else
      let saved := filter (fun kv => in_guid_range begin end_ kv.1) vars in
      let kept := filter (fun kv => ~ in_guid_range begin end_ kv.1) vars in
      Done tt
        (set_external_variable_holding
           (external_variable_holding_ d ++ (map_to_list saved).*2)
           (set_external_variables kept d)).

Definition destroy_saved_variables : prog VMData unit :=
  modify_state (fun d =>
    set_external_variable_holding []
      (set_heap (foldr delete (heap_ d) (external_variable_holding_ d)) d)).

End Machine.

(** ** Theorems *)

Section Theorems.
Context {W H : Type} `{F : !VariableFactory W H}.
Implicit Types (s : @VM W H).

(** The machine behind a one byte instruction that left [l] on the stack. *)
Definition after_insn (l : list Z) s : @VM W H :=
  set_data (set_operand_stack l (data s)) (adv 1 s).

Lemma get_from_stack_snoc ip insn name (d : @VMData W H) l v :
  operand_stack_ d = l ++ [v] ->
  get_from_stack ip insn name d = Done v (set_operand_stack l d).
Proof.
  intros E. unfold get_from_stack. rewrite E. change (l ++ [v]) with (push_back l v).
  by rewrite back_push, pop_push.
Qed.

Lemma quot_int32 a b :
  is_int32 a -> b <> 0 -> ~ (a = INT_MIN /\ b = -1) -> is_int32 (Z.quot a b).
Proof.
  unfold is_int32, INT_MIN, INT_MAX. intros Ha Hb Hne.
  destruct (Z.eq_dec b 1) as [->|H1]; [by rewrite Z.quot_1_r|].
  destruct (Z.eq_dec b (-1)) as [->|H2].
  { change (-1) with (- (1)). rewrite Z.quot_opp_r, Z.quot_1_r by lia. lia. }
  pose proof (Z.quot_abs a b Hb) as Habs.
  pose proof (Z.quot_lt (Z.abs a) (Z.abs b)) as Hlt.
  destruct (Z.eq_dec a 0) as [->|Ha0]; [rewrite Z.quot_0_l by done; lia|].
  specialize (Hlt ltac:(lia) ltac:(lia)). lia.
Qed.

(** A division instruction, down to the operation. *)
Lemma step_division s op rest l a b :
  op = NUMERIC_DIV \/ op = NUMERIC_MOD ->
  at_code s (opcode_byte op :: rest) -> operand_stack_ (data s) = l ++ [a; b] ->
  step s =
    match (if decide (op = NUMERIC_DIV) then numeric_div a b else numeric_mod a b)
            (set_operand_stack l (data s)) with
    | Done r d => Done true (set_data (set_operand_stack (push_back (operand_stack_ d) r) d) (adv 1 s))
    | Failed d => Failed (set_data d (adv 1 s))
    | Crashed c => Crashed c
    end.
Proof.
  intros Hop Hc Hst. unfold step, mbind, prog_bind. rewrite (fetch_at _ _ _ Hc).
  rewrite opcode_of_byte_opcode.
  assert (E1 : forall ip insn, get_from_stack ip insn "" (data (adv 1 s)) =
                 Done b (set_operand_stack (l ++ [a]) (data s))).
  { intros. apply get_from_stack_snoc. simpl. by rewrite Hst, <- app_assoc. }
  assert (E2 : forall ip insn, get_from_stack ip insn "" (set_operand_stack (l ++ [a]) (data s)) =
                 Done a (set_operand_stack l (data s))).
  { intros. by rewrite (get_from_stack_snoc _ _ _ _ l a). }
  destruct Hop as [-> | ->]; cbn [exec_opcode decide];
    unfold on_data, insn_NUMERIC_DIV, insn_NUMERIC_MOD, mbind, prog_bind; rewrite E1, E2;
    [rewrite decide_True by done|rewrite decide_False by done].
  - by destruct (numeric_div a b _).
  - by destruct (numeric_mod a b _).
Qed.

(** Division never leaves the defined behaviour silently: dividing by
    zero stops the program with an error, dividing the smallest [int] by -1 is
    the only undefined case, and otherwise the quotient rounds toward zero, the
    remainder has the sign of the dividend, and both are [int]s. *)
Theorem division_outcomes s op rest l a b :
  op = NUMERIC_DIV \/ op = NUMERIC_MOD ->
  at_code s (opcode_byte op :: rest) -> operand_stack_ (data s) = l ++ [a; b] ->
  is_int32 a -> is_int32 b ->
  let r := if decide (op = NUMERIC_DIV) then Z.quot a b else Z.rem a b in
  if b =? 0 then
    step s = Failed (set_data (set_error "Div by zero" (data (after_insn l s))) (after_insn l s))
  else if (a =? INT_MIN) && (b =? -1) then step s = Crashed SignedOverflow
  else step s = Done true (after_insn (l ++ [r]) s) /\ is_int32 (Z.quot a b).
Proof.
  intros Hop Hc Hst Ha Hb r. rewrite (step_division _ _ _ _ _ _ Hop Hc Hst).
  unfold numeric_div, numeric_mod. destruct (Z.eqb_spec b 0) as [->|Hb0].
  { by destruct (decide (op = NUMERIC_DIV)). }
  unfold int_result. destruct (Z.eqb_spec a INT_MIN), (Z.eqb_spec b (-1)); cbn [andb].
  1: { subst. assert (Hn : ~ is_int32 (Z.quot INT_MIN (-1))).
       { unfold is_int32. change (Z.quot INT_MIN (-1)) with (INT_MAX + 1). lia. }
       destruct (decide (op = NUMERIC_DIV)); unfold mbind, prog_bind;
         by rewrite (decide_False (P := is_int32 _)). }
  all: assert (Hq : is_int32 (Z.quot a b)) by (apply quot_int32; [done..|tauto]);
    unfold r; (split; [|done]); destruct (decide (op = NUMERIC_DIV)); unfold mbind, prog_bind;
      by rewrite (decide_True (P := is_int32 _)).
Qed.

End Theorems.
