(* ===== verification/Safety.v ===== *)
(** Invariants of the virtual machine (src/cs/logic/VM.cxx): what every
    instruction preserves, whatever code it is part of.

    Two invariants are carried through all instructions: [vm_ok], which says
    that the operands are [int]s and that every reference to a variable points
    to an object that is alive, and an arbitrary preorder on the outside world
    that the variables respect. *)

From S2P Require Import Prelude Bytecode Variables VMState VM.

Create HintDb triple discriminated.

(** ** Partial correctness of programs *)

(** [m] keeps [I], also when it fails; a value it returns satisfies [Q]; it
    does not crash in a way that is [bad]. *)
Definition keeping {S A} (bad : crash -> Prop) (I : S -> Prop) (Q : A -> Prop)
    (o : outcome S A) : Prop :=
  match o with
  | Done a s => I s /\ Q a
  | Failed s => I s
  | Crashed c => ~ bad c
  end.

Definition triple {S A} (bad : crash -> Prop) (I : S -> Prop) (m : prog S A) (Q : A -> Prop)
    : Prop :=
  forall s, I s -> keeping bad I Q (m s).

Definition any {A} (a : A) : Prop := True.

Section Triples.
Context {S : Type} (bad : crash -> Prop) (I : S -> Prop).

Lemma triple_ret {A} (a : A) (Q : A -> Prop) : Q a -> triple bad I (mret a) Q.
Proof. intros ? s ?. done. Qed.

Lemma triple_bind {A B} (m : prog S A) (k : A -> prog S B) P Q :
  triple bad I m P -> (forall a, P a -> triple bad I (k a) Q) -> triple bad I (m ≫= k) Q.
Proof.
  intros Hm Hk s Hs. specialize (Hm s Hs). unfold mbind, prog_bind, keeping in *.
  destruct (m s) as [a s'| |]; [|done..]. destruct Hm. by apply Hk.
Qed.

Lemma triple_weaken {A} (m : prog S A) P Q :
  triple bad I m P -> (forall a, P a -> Q a) -> triple bad I m Q.
Proof.
  intros Hm Hq s Hs. specialize (Hm s Hs). unfold keeping in *.
  destruct (m s); [|done..]. destruct Hm. auto.
Qed.

Lemma triple_any {A} (m : prog S A) P : triple bad I m P -> triple bad I m any.
Proof. intros Hm. by eapply triple_weaken. Qed.

Lemma triple_modify f : (forall s, I s -> I (f s)) -> triple bad I (modify_state f) any.
Proof. intros Hf s Hs. split; [by apply Hf|done]. Qed.

Lemma triple_crashing {A} c (Q : A -> Prop) : ~ bad c -> triple bad I (crashing c) Q.
Proof. intros ? s ?. done. Qed.

(** Reading the state, when only its invariant matters. *)
Lemma triple_get {A} (k : S -> prog S A) Q :
  (forall s, I s -> triple bad I (k s) Q) -> triple bad I (get_state ≫= k) Q.
Proof. intros Hk s Hs. by apply Hk. Qed.

Lemma triple_state {A} (k : S -> prog S A) Q :
  (forall s, I s -> triple bad I (k s) Q) -> triple bad I (fun s => k s s) Q.
Proof. intros Hk s Hs. by apply Hk. Qed.

End Triples.

Section Invariants.
Context {W H : Type} `{F : !VariableFactory W H}.

Abbreviation VMData := (@VMData W H).
Abbreviation VM := (@VM W H).

(** ** Invariants of the data *)

(** What an invariant [I] of the data has to provide for the instructions to
    keep it.  [val] holds of the operands, [creatable g] is needed for
    [CREATE_VAR] of the GUID [g]. *)
Class DataInv (bad : crash -> Prop) (I : VMData -> Prop) (val : Z -> Prop)
    (creatable : Z -> VMData -> Prop) : Prop := {
  inv_bad c : bad c -> c = DanglingPointer;
  inv_int v : is_int32 v -> val v;
  inv_rem a b : val a -> b <> 0 -> val (Z.rem a b);
  inv_operands d : I d -> Forall val (operand_stack_ d);
  inv_set_operands d l : I d -> Forall val l -> I (set_operand_stack l d);
  inv_set_error d e : I d -> I (set_error e d);
  creatable_set_error g d e : creatable g d -> creatable g (set_error e d);
  inv_set_access d b : I d -> I (set_access_error b d);
  inv_set_string d x : I d -> I (set_string_acc x d);
  inv_set_print d x : I d -> I (set_print_cb x d);
  inv_set_fp d x : I d -> I (set_fp x d);
  inv_set_block_num d x : I d -> I (set_block_num x d);
  inv_drop_refs d n : I d -> I (set_variable_stack (take n (variable_stack_ d)) d);
  inv_variable_read d ip i ref :
    I d -> znth (variable_stack_ d) i = Some ref -> keeping bad I val (variable_read ip ref d);
  inv_variable_write d ip i ref v :
    I d -> val v -> znth (variable_stack_ d) i = Some ref ->
    keeping bad I any (variable_write ip ref v d);
  inv_import_var d arg guid : I d -> keeping bad I any (import_var arg guid d);
  inv_create_indirect_var d ofs : I d -> keeping bad I any (create_indirect_var ofs d);
  inv_create_static_var d guid : I d -> keeping bad I any (create_static_var guid d);
  inv_create_var d guid n : I d -> creatable guid d -> keeping bad I any (create_var guid n d)
}.

Lemma rem_int32 a b : b <> 0 -> is_int32 a -> is_int32 (Z.rem a b).
Proof.
  unfold is_int32, INT_MIN, INT_MAX. intros Hb Ha.
  pose proof (Z.rem_abs a b Hb) as Habs.
  pose proof (Z.rem_le (Z.abs a) (Z.abs b) ltac:(lia) ltac:(lia)).
  destruct (Z.le_gt_cases 0 a).
  - pose proof (Z.rem_nonneg a b Hb ltac:(lia)). lia.
  - pose proof (Z.rem_nonpos a b Hb ltac:(lia)). lia.
Qed.

(** What reading the code needs of an invariant. *)
Class ErrorInv (bad : crash -> Prop) (I : VMData -> Prop) : Prop := {
  err_bad c : bad c -> c = DanglingPointer;
  err_set_error d e : I d -> I (set_error e d)
}.

(** The invariant of the whole machine: there is code to run. *)
Definition vm_inv (bad : crash -> Prop) (I : VMData -> Prop) (s : VM) : Prop :=
  I (data s) /\ (bad DanglingPointer -> is_Some (code_ (ctl s))).

(** ** Reading the code *)

Section Parsing.
Context {bad : crash -> Prop} {I : VMData -> Prop} `{EI : !ErrorInv bad I}.

Lemma bad_only c : c <> DanglingPointer -> ~ bad c.
Proof. intros Hc Hb. by apply Hc, err_bad. Qed.
Hint Resolve bad_only : core.
Hint Extern 1 (_ <> DanglingPointer) => discriminate : core.

Abbreviation vtriple := (triple bad (vm_inv bad I)).

Lemma triple_fail_vm {A} e (Q : A -> Prop) : vtriple (fail_vm e) Q.
Proof. intros s [Hd Hc]. split; [by apply err_set_error|done]. Qed.

Lemma triple_advance n : vtriple (advance_ip n) any.
Proof. apply triple_modify. by intros s []. Qed.

Lemma triple_at_eof : vtriple at_eof any.
Proof.
  intros s Hs. unfold at_eof. destruct (code_ (ctl s)) eqn:E; [done|].
  destruct Hs as [_ Hc]. intros Hb. destruct (Hc Hb). congruence.
Qed.

Lemma triple_peek : vtriple peek_insn any.
Proof.
  intros s Hs. unfold peek_insn. destruct (code_ (ctl s)) eqn:E.
  - destruct (znth _ _); [done|by apply bad_only].
  - destruct Hs as [_ Hc]. intros Hb. destruct (Hc Hb). congruence.
Qed.

Lemma triple_fetch : vtriple fetch_insn any.
Proof.
  eapply triple_bind; [apply triple_peek|]. intros b _.
  eapply triple_bind; [apply triple_advance|]. intros _ _. by apply triple_ret.
Qed.

Lemma triple_jump target : vtriple (jump target) any.
Proof.
  intros s Hs. unfold jump. destruct (znth _ _); [|done]. destruct (_ <? _); [done|].
  split; [|done]. by destruct Hs.
Qed.

#[local] Hint Resolve triple_fail_vm triple_advance triple_at_eof triple_peek triple_fetch
  triple_jump : triple.

Lemma triple_varint_loop fuel ofs ret :
  is_int32 ret -> vtriple (parse_varint_loop fuel ofs ret) is_int32.
Proof.
  revert ofs ret. induction fuel as [|fuel IH]; intros ofs ret Hr; cbn [parse_varint_loop].
  { by apply triple_crashing, bad_only. }
  eapply triple_bind; [apply triple_peek|]. intros b _.
  destruct (has_bits b 128); [|by apply triple_ret].
  eapply triple_bind; [apply triple_advance|]. intros _ _.
  eapply triple_bind; [apply triple_at_eof|]. intros [] _; [apply triple_fail_vm|].
  destruct (32 <=? ofs); [by apply triple_crashing, bad_only|].
  eapply triple_bind; [apply triple_peek|]. intros b' _.
  apply IH. eauto using int32_lor, int32_land, int32_lnot, s32_range.
Qed.

Lemma triple_parse_varint : vtriple parse_varint is_int32.
Proof.
  unfold parse_varint.
  eapply triple_bind; [apply triple_at_eof|]. intros [] _; [apply triple_fail_vm|].
  eapply triple_bind; [apply triple_peek|]. intros b _.
  eapply triple_bind; [apply triple_varint_loop|].
  - apply int32_lor; [|].
    + by destruct (has_bits b 64).
    + change 0x3F with (Z.ones 6). rewrite Z.land_ones by lia.
      unfold is_int32, INT_MIN, INT_MAX. pose proof (Z.mod_pos_bound b (2 ^ 6)). lia.
  - intros v Hv. eapply triple_bind; [apply triple_advance|]. intros _ _. by apply triple_ret.
Qed.

End Parsing.

(** ** Operations on data *)

Section Instructions.
Context {bad : crash -> Prop} {I : VMData -> Prop} {val : Z -> Prop} {creatable : Z -> VMData -> Prop}.
Context `{DI : !DataInv bad I val creatable}.

Abbreviation dtriple := (triple bad I).

#[export] Instance DataInv_ErrorInv : ErrorInv bad I.
Proof. split; [apply inv_bad|apply inv_set_error]. Qed.

Hint Resolve bad_only : core.
Hint Extern 1 (_ <> DanglingPointer) => discriminate : core.

Lemma triple_fail {A} e (Q : A -> Prop) : dtriple (fail_data e) Q.
Proof. intros d Hd. by apply inv_set_error. Qed.

Lemma triple_push v : val v -> dtriple (push v) any.
Proof.
  intros Hv d Hd. split; [|done]. apply inv_set_operands; [done|].
  apply Forall_app. split; [by apply inv_operands|]. by constructor.
Qed.

Lemma val_back d v : I d -> back (operand_stack_ d) = Some v -> val v.
Proof.
  intros Hd%inv_operands Hv. unfold back in Hv. apply last_Some in Hv as [l E].
  rewrite E in Hd. apply Forall_app in Hd as [_ Hd]. by inversion Hd.
Qed.

Lemma inv_pop d : I d -> I (set_operand_stack (pop_back (operand_stack_ d)) d).
Proof. intros Hd. apply inv_set_operands; [done|]. by apply Forall_pop, inv_operands. Qed.

Lemma triple_get_from_stack ip insn name : dtriple (get_from_stack ip insn name) val.
Proof.
  intros d Hd. unfold get_from_stack. destruct (back _) as [v|] eqn:E.
  - split; [by apply inv_pop|by eapply val_back].
  - by apply inv_set_error.
Qed.

Lemma triple_resize n : dtriple (resize_operand_stack n) any.
Proof.
  intros d Hd. unfold resize_operand_stack. destruct (n <? 0); [by apply bad_only|].
  split; [|done]. apply inv_set_operands; [done|]. apply Forall_resize; [|by apply inv_operands].
  apply inv_int. unfold is_int32, INT_MIN, INT_MAX. lia.
Qed.

Lemma triple_int_result z : dtriple (int_result z) val.
Proof.
  unfold int_result. destruct (decide _); [by apply triple_ret, inv_int|].
  by apply triple_crashing, bad_only.
Qed.

Lemma val_small z : 0 <= z <= 1 -> val z.
Proof. intros Hz. apply inv_int. unfold is_int32, INT_MIN, INT_MAX. lia. Qed.

Lemma val_b2z b : val (b2z b).
Proof. apply val_small. destruct b; simpl; lia. Qed.

Lemma triple_leave r ip : dtriple (leave r ip) any.
Proof.
  unfold leave. intros d Hd. destruct (r <? 0); [by apply inv_set_error|].
  destruct (_ <? _); [by apply inv_set_error|]. by apply triple_resize.
Qed.

Lemma triple_check_stack_length r ip : dtriple (check_stack_length r ip) any.
Proof.
  unfold check_stack_length. intros d Hd. destruct (negb _); [by apply inv_set_error|done].
Qed.

Lemma triple_store_fp_rel ofs v : val v -> dtriple (store_fp_rel ofs v) any.
Proof.
  unfold store_fp_rel. intros Hv d Hd. destruct (_ <=? _); [by apply inv_set_error|].
  split; [|done]. apply inv_set_operands; [done|]. by apply Forall_insert; [apply inv_operands|].
Qed.

Lemma val_znth d i v : I d -> znth (operand_stack_ d) i = Some v -> val v.
Proof.
  intros Hd%inv_operands. unfold znth. destruct (0 <=? i); [|done].
  by apply Forall_lookup_1.
Qed.

Lemma triple_load_fp_rel ofs : dtriple (load_fp_rel ofs) val.
Proof.
  unfold load_fp_rel. intros d Hd. destruct (znth _ _) as [v|] eqn:E; [|by apply inv_set_error].
  split; [done|by eapply val_znth].
Qed.

Lemma triple_PUSH_TOP : dtriple insn_PUSH_TOP any.
Proof.
  unfold insn_PUSH_TOP. intros d Hd. destruct (back _) as [v|] eqn:E; [|by apply inv_set_error].
  apply triple_push; [|done]. by eapply val_back.
Qed.

Lemma triple_POP_OP : dtriple insn_POP_OP any.
Proof.
  unfold insn_POP_OP. intros d Hd. destruct (back _) as [v|] eqn:E; [|by apply inv_set_error].
  split; [by apply inv_pop|done].
Qed.

Lemma triple_IF_PREAMBLE : dtriple insn_IF_PREAMBLE any.
Proof.
  unfold insn_IF_PREAMBLE. intros d Hd. apply triple_push; [|done].
  apply val_small. destruct (is_preamble_ d); lia.
Qed.

Lemma triple_check_access : dtriple check_access any.
Proof. unfold check_access. intros d Hd. by destruct (access_error_ d). Qed.

Lemma triple_indirect_load ip i : dtriple (indirect_load ip i) val.
Proof.
  unfold indirect_load. intros d Hd. destruct (znth _ _) as [ref|] eqn:E; [|by apply inv_set_error].
  unfold mbind, prog_bind. pose proof (inv_variable_read d ip i ref Hd E) as Hr.
  destruct (variable_read ip ref d) as [v d'| |]; [|done..]. destruct Hr as [Hr Hv].
  unfold check_access. by destruct (access_error_ d').
Qed.

Lemma triple_indirect_store ip i v : val v -> dtriple (indirect_store ip i v) any.
Proof.
  unfold indirect_store. intros Hv d Hd.
  destruct (znth _ _) as [ref|] eqn:E; [|by apply inv_set_error].
  unfold mbind, prog_bind. pose proof (inv_variable_write d ip i ref v Hd Hv E) as Hr.
  destruct (variable_write ip ref v d) as [u d'| |]; [|done..].
  destruct Hr. by apply triple_check_access.
Qed.

Lemma triple_numeric_div a b : dtriple (numeric_div a b) val.
Proof.
  unfold numeric_div. destruct (b =? 0); [apply triple_fail|apply triple_int_result].
Qed.

Lemma triple_print text : dtriple (print_output text) any.
Proof.
  unfold print_output. intros d Hd. destruct (print_cb_ d); [|by apply bad_only].
  split; [by apply inv_set_print|done].
Qed.

Lemma triple_PRINT_STR : dtriple insn_PRINT_STR any.
Proof. intros d Hd. by apply triple_print. Qed.

Lemma triple_unwind env : dtriple (unwind_frame env) any.
Proof.
  unfold unwind_frame. intros d Hd. destruct (_ <? _); [by apply bad_only|].
  apply triple_resize. by apply inv_drop_refs.
Qed.

Lemma triple_import_var arg guid : dtriple (import_var arg guid) any.
Proof. intros d Hd. by apply inv_import_var. Qed.
Lemma triple_create_indirect_var ofs : dtriple (create_indirect_var ofs) any.
Proof. intros d Hd. by apply inv_create_indirect_var. Qed.
Lemma triple_create_static_var guid : dtriple (create_static_var guid) any.
Proof. intros d Hd. by apply inv_create_static_var. Qed.

#[local] Hint Resolve triple_push triple_get_from_stack triple_int_result triple_numeric_div
  triple_indirect_load triple_indirect_store triple_print triple_PRINT_STR triple_POP_OP
  triple_PUSH_TOP triple_IF_PREAMBLE val_b2z triple_fail triple_resize triple_leave
  triple_check_stack_length triple_store_fp_rel triple_load_fp_rel triple_unwind
  triple_import_var triple_create_indirect_var triple_create_static_var : triple.
#[local] Hint Extern 1 (val _) => apply val_small; lia : triple.

(** Follows the binds of an instruction. *)
Ltac triple_binds :=
  repeat (eapply triple_bind; [eauto with triple nocore|]; intros ? ?);
  eauto with triple nocore.

Lemma triple_arith insn ip name (op : Z -> Z -> prog VMData Z) :
  (forall a b, val a -> val b -> dtriple (op a b) val) ->
  dtriple (rhs ← get_from_stack ip insn name;
           lhs ← get_from_stack ip insn name;
           r ← op lhs rhs;
           push r) any.
Proof. intros Hop. triple_binds. Qed.

Lemma triple_numeric_mod a b : val a -> dtriple (numeric_mod a b) val.
Proof.
  intros Ha. unfold numeric_mod. destruct (Z.eqb_spec b 0); [apply triple_fail|].
  triple_binds. apply triple_ret. by apply inv_rem.
Qed.

Lemma val_int_comparison op a b : val (int_comparison op a b).
Proof. destruct op; simpl; try apply val_b2z; apply val_small; lia. Qed.
#[local] Hint Resolve triple_arith triple_numeric_mod val_int_comparison : triple.

(** ** Instructions *)

Abbreviation vtriple := (triple bad (vm_inv bad I)).

Lemma triple_on_data {A} (m : Z -> prog VMData A) Q :
  (forall ip, dtriple (m ip) Q) -> vtriple (on_data m) Q.
Proof.
  intros Hm s [Hd Hc]. specialize (Hm (get_ip s) _ Hd). unfold on_data, keeping in *.
  destruct (m _ _); [destruct Hm|..]; done.
Qed.

Lemma triple_parse_string : vtriple parse_string any.
Proof.
  unfold parse_string.
  eapply triple_bind; [apply triple_on_data; intros _; apply triple_modify; intros; by apply inv_set_string|].
  intros _ _. eapply triple_bind; [apply triple_parse_varint|]. intros len _.
  apply triple_get. intros s Hs. destruct (code_ (ctl s)) eqn:E.
  - destruct (_ <? _); [apply triple_fail_vm|].
    destruct (len <? 0); [by apply triple_crashing, bad_only|].
    eapply triple_bind; [apply triple_on_data; intros _; apply triple_modify; intros; by apply inv_set_string|].
    intros _ _. apply triple_advance.
  - apply triple_crashing. destruct Hs as [_ Hc]. intros Hb. destruct (Hc Hb). congruence.
Qed.

#[local] Hint Extern 1 (triple _ _ (fail_vm _) _) => apply triple_fail_vm : triple.
#[local] Hint Extern 1 (triple _ _ (advance_ip _) _) => apply triple_advance : triple.
#[local] Hint Extern 1 (triple _ _ (jump _) _) => apply triple_jump : triple.
#[local] Hint Extern 1 (triple _ _ parse_varint _) => apply triple_parse_varint : triple.
#[local] Hint Extern 1 (triple _ _ parse_string _) => apply triple_parse_string : triple.

Lemma triple_CALL insn : vtriple (insn_CALL insn) any.
Proof.
  unfold insn_CALL. apply triple_get. intros s _.
  destruct (back _) as [top|]; [|apply triple_fail_vm].
  destruct (negb _); [apply triple_fail_vm|].
  eapply triple_bind; [apply triple_on_data; eauto with triple|]. intros dst _.
  eapply triple_bind; [apply triple_parse_varint|]. intros num_arg _.
  apply triple_get. intros s1 Hs1.
  eapply (triple_bind _ _ _ _ any); [intros s2 _; split; [exact Hs1|done]|]. intros _ _.
  eapply triple_bind; [apply triple_on_data; intros _; apply triple_modify; intros; by apply inv_set_fp|].
  intros _ _. eapply triple_bind; [apply triple_jump|]. intros _ _. by apply triple_ret.
Qed.

Lemma triple_RET : vtriple insn_RET any.
Proof.
  unfold insn_RET. apply triple_get. intros s _.
  destruct (back _) as [env|]; [|apply triple_fail_vm].
  destruct (back _) as [ss|]; [|apply triple_fail_vm].
  eapply triple_bind; [apply triple_on_data; eauto with triple|]. intros _ _.
  eapply triple_bind; [apply triple_jump|]. intros _ _.
  eapply triple_bind; [apply triple_modify; by intros ? []|]. intros _ _.
  apply triple_on_data. intros _. apply triple_modify. intros; by apply inv_set_fp.
Qed.

Lemma triple_enter r :
  dtriple (fun d => resize_operand_stack (zlen (operand_stack_ d) + r) d) any.
Proof. intros d Hd. by apply triple_resize. Qed.

#[local] Hint Resolve triple_CALL triple_RET triple_enter : triple.
#[local] Hint Extern 1 (val _) => apply inv_int; assumption : triple.
#[local] Hint Extern 2 (triple _ _ (mret _) any) => by apply triple_ret : triple.

Ltac triple_vm :=
  first
    [ solve [eauto 2 with triple nocore]
    | lazymatch goal with
      | |- triple _ _ (on_data _) _ => apply triple_on_data; intros ?; triple_vm
      | |- triple _ _ (get_state ≫= _) _ => apply triple_get; intros ? ?; triple_vm
      | |- triple _ _ (_ ≫= _) _ => eapply triple_bind; [triple_vm|intros ? ?; triple_vm]
      | |- _ => case_match; triple_vm
      end ].

(** All instructions but one keep the invariant. *)
Lemma triple_exec_opcode op insn :
  op <> CREATE_VAR -> vtriple (exec_opcode op insn) any.
Proof.
  intros Hop. destruct op; try done; cbn [exec_opcode];
    unfold insn_PUSH_CONSTANT, insn_ENTER, insn_LEAVE, insn_CHECK_STACK_LENGTH,
      insn_STORE_FP_REL, insn_LOAD_FP_REL, insn_INDIRECT_LOAD, insn_INDIRECT_STORE,
      insn_IMPORT_VAR, insn_CREATE_INDIRECT_VAR, insn_CREATE_STATIC_VAR,
      insn_NUMERIC_PLUS, insn_NUMERIC_MINUS, insn_NUMERIC_MUL, insn_NUMERIC_DIV,
      insn_NUMERIC_MOD, insn_BOOL_EQ, insn_BOOL_NEQ, insn_INTCOMP, insn_BOOL_NOT,
      insn_BOOL_PROJECT, insn_JUMP, insn_TEST_JUMP_IF_FALSE, insn_TEST_JUMP_IF_TRUE,
      insn_PRINT_NUM; triple_vm.
Qed.

End Instructions.

(** ** The execution loop *)

Section Loop.
Context {bad : crash -> Prop} {I : VMData -> Prop} {val : Z -> Prop} {creatable : Z -> VMData -> Prop}.
Context `{DI : !DataInv bad I val creatable}.

#[local] Instance creatable_ErrorInv g : ErrorInv bad (fun d => I d /\ creatable g d).
Proof.
  split; [apply inv_bad|]. intros d e [? ?]. split; [by apply inv_set_error|].
  by apply creatable_set_error.
Qed.

#[local] Instance plain_ErrorInv : ErrorInv bad I.
Proof. split; [apply inv_bad|apply inv_set_error]. Qed.

Lemma keeping_CREATE_VAR s :
  vm_inv bad I s -> (forall g s', parse_varint s = Done g s' -> creatable g (data s)) ->
  keeping bad (vm_inv bad I) any (insn_CREATE_VAR s).
Proof.
  intros Hs Hcr. unfold insn_CREATE_VAR, mbind, prog_bind. pose proof (triple_parse_varint s Hs) as H0.
  destruct (parse_varint s) as [g s1|s1|] eqn:Ep; [|done..].
  assert (Hs0 : vm_inv bad (fun d => I d /\ creatable g d) s) by (destruct Hs; split; eauto).
  pose proof (triple_parse_varint s Hs0) as H1. rewrite Ep in H1. destruct H1 as [H1 _].
  pose proof (triple_parse_varint s1 H1) as H2.
  destruct (parse_varint s1) as [n s2|s2|]; [|by destruct H2 as [[??]?]|done].
  destruct H2 as [[[H2 Hcr2] Hc2] _]. unfold on_data.
  pose proof (inv_create_var (data s2) g n H2 Hcr2) as H3. unfold keeping in *.
  destruct (create_var g n (data s2)); [destruct H3|..]; done.
Qed.

(** The next instruction is [CREATE_VAR] of the GUID [g]. *)
Definition creates_guid (s : VM) (g : Z) : Prop :=
  exists s1 s2, fetch_insn s = Done (opcode_byte CREATE_VAR) s1 /\ parse_varint s1 = Done g s2.

(** One round of the loop. *)
Lemma keeping_step s :
  vm_inv bad I s -> (forall g, creates_guid s g -> creatable g (data s)) ->
  keeping bad (vm_inv bad I) any (step s).
Proof.
  intros Hs Hcr. pose proof (triple_fetch s Hs) as Hf. unfold step, mbind, prog_bind.
  destruct (fetch_insn s) as [b s1|s1|] eqn:Ef; [|done..]. destruct Hf as [Hs1 _].
  destruct (opcode_of_byte b) as [op|] eqn:Eop; [|by apply triple_fail_vm].
  destruct (decide (op = CREATE_VAR)) as [->|Hop].
  - apply opcode_of_byte_Some in Eop as ->.
    assert (Hd : data s1 = data s).
    { unfold fetch_insn, peek_insn, mbind, prog_bind in Ef.
      destruct (code_ (ctl s)) as [C|]; [|done]. destruct (znth C _) as [b'|]; [|done]. by injection Ef as _ <-. }
    cbn [exec_opcode].
    assert (H1 : keeping bad (vm_inv bad I) any (insn_CREATE_VAR s1)).
    { apply keeping_CREATE_VAR; [done|]. intros g s2 Ep. rewrite Hd. apply Hcr. by exists s1, s2. }
    unfold keeping in *. by destruct (insn_CREATE_VAR s1).
  - pose proof (triple_exec_opcode op b Hop s1 Hs1) as H1.
    destruct op; try done; unfold keeping in *; by destruct (exec_opcode _ b s1).
Qed.

Lemma keeping_execute fuel s o :
  vm_inv bad I s ->
  (forall s' g, steps s s' -> creates_guid s' g -> creatable g (data s')) ->
  execute fuel s = Some o -> keeping bad (vm_inv bad I) any o.
Proof.
  revert s. induction fuel as [|fuel IH]; intros s Hs Hcr; [done|]. simpl.
  pose proof (triple_at_eof s Hs) as He.
  assert (Hpure : forall b s1, at_eof s = Done b s1 -> s1 = s).
  { unfold at_eof. intros b s1. destruct (code_ _); by intros [= _ ->]. }
  destruct (at_eof s) as [[] s1|s1|c] eqn:Eeof; [..|by intros [= <-]].
  - by intros [= <-].
  - assert (s1 = s) as -> by (by eapply Hpure).
    pose proof (keeping_step s Hs (fun g => Hcr s g (steps_refl s))) as Hk.
    destruct (step s) as [[] s2|s2|c] eqn:Es; [|by intros [= <-]..].
    destruct Hk as [Hk _]. apply IH; [done|]. intros s' g Hsteps. apply Hcr. by econstructor.
  - by intros [= <-].
Qed.

Lemma keeping_execute_block fuel b s o :
  vm_inv bad I s ->
  (forall r s1 s' g, jump (get_block_start_ip (set_vm_block_num b s)) (set_vm_block_num b s) = Done r s1 ->
     steps s1 s' -> creates_guid s' g -> creatable g (data s')) ->
  execute_block fuel b s = Some o -> keeping bad (vm_inv bad I) any o.
Proof.
  intros [Hd Hc] Hcr. unfold execute_block.
  assert (Hs : vm_inv bad I (set_vm_block_num b s)) by (split; [by apply inv_set_block_num|done]).
  pose proof (triple_jump (get_block_start_ip (set_vm_block_num b s)) _ Hs) as Hj.
  destruct (jump _ _) as [r s1|s1|c] eqn:Ej; [|by intros [= <-]..]. destruct Hj as [Hj _].
  apply keeping_execute; [done|]. intros s' g. by apply Hcr with r.
Qed.

End Loop.
End Invariants.

(** ** The outside world *)

(** A relation that running the machine does not break: the variables and the
    factory only move the world along it. *)
Class WorldFrame {W H} (F : VariableFactory W H) (R : W -> W -> Prop) : Prop := {
  frame_preorder : PreOrder R;
  frame_create r w h w' : create_variable r w = inl (h, w') -> R w w';
  frame_read h arg w : R w (snd (var_read h arg w));
  frame_write h arg v w : R w (snd (var_write h arg v w))
}.

Section World.
Context {W H : Type} {F : VariableFactory W H} {R : W -> W -> Prop} {WF : WorldFrame F R}.
#[local] Existing Instance frame_preorder.

(** The world moves along [R], and the code stays. *)
Definition world_ok (w : W) (C : list (list Z)) (d : @VMData W H) : Prop :=
  R w (world_ d) /\ blocks_ d = C.

#[local] Instance world_inv (w : W) (C : list (list Z)) :
  DataInv (fun _ => False) (world_ok w C) any (fun _ => any).
Proof.
  split; try done.
  - intros d _. by apply Forall_forall.
  - intros d ip i ref [Hd HC] _. unfold variable_read, VMAbsoluteVariable_read.
    destruct (ref_var ref); [by destruct (znth _ _)|].
    destruct (heap_ d !! loc) as [[v|h]|]; [done| |by intros []].
    pose proof (frame_read h (ref_arg ref) (world_ d)) as Hr.
    destruct (var_read _ _ _) as [[v err] w']. simpl in Hr.
    destruct err; (split; [split; [by etrans|done]|done]).
  - intros d ip i ref v [Hd HC] _ _. unfold variable_write, VMAbsoluteVariable_write.
    destruct (ref_var ref); [by destruct (_ <=? _)|].
    destruct (heap_ d !! loc) as [[v'|h]|]; [done| |by intros []].
    pose proof (frame_write h (ref_arg ref) v (world_ d)) as Hr.
    destruct (var_write _ _ _ _) as [err w']. simpl in Hr.
    destruct err; (split; [split; [by etrans|done]|done]).
  - intros d arg guid Hd. unfold import_var. by destruct (_ !! _).
  - intros d guid Hd. unfold create_static_var. by destruct (_ !! _).
  - intros d guid n [Hd HC] _. unfold create_var. cbv zeta.
    destruct (create_variable _ _) as [[[h|] w']|c] eqn:E; [..|by intros []];
      apply frame_create in E; [split; [|done]|]; (split; [simpl; by etrans|done]).
Qed.

(** What running a block does to the world and to the code. *)
Lemma execute_block_world fuel b (s : @VM W H) o :
  execute_block fuel b s = Some o ->
  match o with
  | Done _ s' | Failed s' =>
      R (world_ (data s)) (world_ (data s')) /\ blocks_ (data s') = blocks_ (data s)
  | Crashed _ => True
  end.
Proof.
  intros E.
  assert (Hs : vm_inv (fun _ => False) (world_ok (world_ (data s)) (blocks_ (data s))) s).
  { split; [split; reflexivity|done]. }
  eapply (keeping_execute_block (creatable := fun _ => any)) in E; [|exact Hs|done].
  destruct o; [by destruct E as [[]]|by destruct E|done].
Qed.

End World.

(** ** Memory *)

Section Memory.
Context {W H : Type}.
Implicit Types (d : @VMData W H).

(** Where a reference points to is alive. *)
Definition ref_ok (heap : gmap nat (@VarObject H)) (ref : VMVariableReference) : Prop :=
  match ref_var ref with
  | OperandStackVariables => True
  | VarAt l => is_Some (heap !! l)
  end.

Definition object_ok (o : @VarObject H) : Prop :=
  match o with
  | StaticObj v => is_int32 (value_ v)
  | ExternalObj _ => True
  end.

(** The machine owns each of its variables once: under one GUID, or among
    those that are saved for destruction. *)
Record heap_ok d : Prop := {
  heap_owned g l : external_variables_ d !! g = Some l -> is_Some (heap_ d !! l);
  heap_once g g' l :
    external_variables_ d !! g = Some l -> external_variables_ d !! g' = Some l -> g = g';
  heap_saved g l : external_variables_ d !! g = Some l -> l ∉ external_variable_holding_ d;
  heap_saved_alive l : l ∈ external_variable_holding_ d -> (l < next_loc_ d)%nat;
  heap_fresh l : is_Some (heap_ d !! l) -> (l < next_loc_ d)%nat;
  heap_objects l o : heap_ d !! l = Some o -> object_ok o
}.

Record memory_ok d : Prop := {
  mem_heap : heap_ok d;
  mem_refs : Forall (ref_ok (heap_ d)) (variable_stack_ d);
  mem_operands : Forall is_int32 (operand_stack_ d)
}.

(** [CREATE_VAR] of the GUID [g] destroys the variable that had it before, to
    which no reference may be left. *)
Definition unreferenced (g : Z) d : Prop :=
  forall l, external_variables_ d !! u32 g = Some l ->
    Forall (fun ref => ref_var ref <> VarAt l) (variable_stack_ d).

(** What makes a crash one of memory. *)
Definition memory_fault (c : crash) : Prop := c = DanglingPointer.

Lemma heap_ok_install d guid o :
  heap_ok d -> object_ok o ->
  keeping memory_fault heap_ok (fun l => l = next_loc_ d) (install_variable guid o d).
Proof.
  intros Hd Ho. unfold install_variable. split; [|done].
  set (heap := match external_variables_ d !! guid with
               | Some old => delete old (heap_ d) | None => heap_ d end).
  assert (Hsub : forall l x, heap !! l = Some x -> heap_ d !! l = Some x).
  { intros l x. unfold heap. destruct (_ !! _); [|done]. rewrite lookup_delete_Some. tauto. }
  assert (Hold : forall g l, g <> guid -> external_variables_ d !! g = Some l ->
                   is_Some (heap !! l) /\ (l < next_loc_ d)%nat).
  { intros g l Hg Hl. pose proof (heap_owned _ Hd _ _ Hl) as Hh. split; [|by apply (heap_fresh _ Hd)].
    unfold heap. destruct (external_variables_ d !! guid) as [old|] eqn:E; [|done].
    rewrite lookup_delete_ne; [done|]. intros ->. by apply Hg, (heap_once _ Hd g guid l). }
  split; simpl.
  - intros g l. rewrite lookup_insert_Some. intros [[_ <-]|[Hg Hl]].
    + by rewrite lookup_insert_eq.
    + destruct (Hold g l) as [[x Hx] ?]; [done..|]. rewrite lookup_insert_ne; [by exists x|lia].
  - intros g g' l. rewrite !lookup_insert_Some.
    intros [[<- <-]|[Hg Hl]] [[<- E]|[Hg' Hl']]; [done|..|by eapply (heap_once _ Hd)].
    + apply Hold in Hl' as [_ ?]; [lia|done].
    + apply Hold in Hl as [_ ?]; [lia|done].
  - intros g l. rewrite lookup_insert_Some. intros [[_ <-]|[_ Hl]]; [|by apply (heap_saved _ Hd g)].
    intros Hin%(heap_saved_alive _ Hd). lia.
  - intros l Hin%(heap_saved_alive _ Hd). lia.
  - intros l [x Hx]. apply lookup_insert_Some in Hx as [[<- _]|[_ Hx]]; [lia|].
    apply Hsub in Hx. pose proof (heap_fresh _ Hd l (mk_is_Some _ _ Hx)). lia.
  - intros l x. rewrite lookup_insert_Some. intros [[_ <-]|[_ Hx]]; [done|].
    by apply (heap_objects _ Hd l), Hsub.
Qed.

Lemma memory_ok_push_ref d ref :
  memory_ok d -> ref_ok (heap_ d) ref ->
  memory_ok (set_variable_stack (push_back (variable_stack_ d) ref) d).
Proof.
  intros [[] Hr Ho] Href. split; [by split| |done].
  apply Forall_app. split; [done|]. by constructor.
Qed.

Lemma memory_ok_push d v :
  memory_ok d -> is_int32 v -> memory_ok (set_operand_stack (push_back (operand_stack_ d) v) d).
Proof.
  intros [[] Hr Ho] Hv. split; [by split|done|].
  apply Forall_app. split; [done|]. by constructor.
Qed.

Lemma memory_ok_set_object d l o o' :
  memory_ok d -> heap_ d !! l = Some o' -> object_ok o -> memory_ok (set_heap (<[l := o]> (heap_ d)) d).
Proof.
  intros [Hh Hr Hop] Hl Ho.
  assert (Hs : forall l', is_Some (<[l := o]> (heap_ d) !! l') <-> is_Some (heap_ d !! l')).
  { intros l'. destruct (decide (l' = l)) as [->|Hne];
      [by rewrite lookup_insert_eq, Hl|by rewrite lookup_insert_ne]. }
  destruct Hh. split; [split; simpl; try done| |done].
  - intros g l' Hl'. apply Hs. eauto.
  - intros l' Hl'. apply Hs in Hl'. eauto.
  - intros l' x. rewrite lookup_insert_Some. intros [[_ <-]|[_ Hx]]; [done|]. eauto.
  - eapply Forall_impl; [exact Hr|]. intros [[|l'] a]; [done|]. unfold ref_ok. simpl. apply Hs.
Qed.

End Memory.

Section MemorySafety.
Context {W H : Type} `{F : !VariableFactory W H} `{OK : !VariableFactoryOk W H F}.
Implicit Types (d : @VMData W H).

(** The invariant only depends on the memory. *)
Lemma memory_ok_ext d d' :
  heap_ d' = heap_ d -> external_variables_ d' = external_variables_ d ->
  external_variable_holding_ d' = external_variable_holding_ d -> next_loc_ d' = next_loc_ d ->
  variable_stack_ d' = variable_stack_ d -> operand_stack_ d' = operand_stack_ d ->
  memory_ok d -> memory_ok d'.
Proof.
  intros E1 E2 E3 E4 E5 E6 [[] Hr Ho].
  split; [split|..]; rewrite ?E1, ?E2, ?E3, ?E4, ?E5, ?E6; done.
Qed.

Lemma memory_access_error d ip (A : Type) (a : A) (P : A -> Prop) (err : bool) :
  memory_ok d -> P a ->
  keeping memory_fault memory_ok P (((if err then access_error ip else mret tt);; mret a) d).
Proof.
  intros Hd Ha. destruct err; (split; [|done]); [|done].
  by eapply (memory_ok_ext d).
Qed.

Lemma local_object d l o : memory_ok d -> heap_ d !! l = Some o -> object_ok o.
Proof. intros [Hh _ _]. apply (heap_objects _ Hh). Qed.

Lemma memory_variable_read d ip i ref :
  memory_ok d -> znth (variable_stack_ d) i = Some ref ->
  keeping memory_fault memory_ok is_int32 (variable_read ip ref d).
Proof.
  intros Hd Hi. unfold variable_read, VMAbsoluteVariable_read.
  assert (Hin : ref ∈ variable_stack_ d).
  { unfold znth in Hi. destruct (0 <=? i); [|done]. by eapply list_elem_of_lookup_2. }
  pose proof (mem_refs _ Hd) as Hr. rewrite Forall_forall in Hr. specialize (Hr ref Hin).
  unfold ref_ok in Hr. destruct (ref_var ref) as [|l].
  - destruct (znth (operand_stack_ d) (ref_arg ref)) as [v|] eqn:E.
    + split; [done|]. unfold znth in E. destruct (0 <=? ref_arg ref); [|done].
      pose proof (mem_operands _ Hd) as Ho. by eapply Forall_lookup_1 in E.
    + split; [|done]. by eapply (memory_ok_ext d).
  - destruct Hr as [o Ho]. rewrite Ho. destruct o as [v|h].
    + split; [done|]. exact (local_object _ _ _ Hd Ho).
    + pose proof (var_read_int32 h (ref_arg ref) (world_ d)) as Hv.
      destruct (var_read _ _ _) as [[v err] w]. simpl in Hv.
      apply memory_access_error; [|done]. by eapply (memory_ok_ext d).
Qed.

Lemma memory_variable_write d ip i ref v :
  memory_ok d -> is_int32 v -> znth (variable_stack_ d) i = Some ref ->
  keeping memory_fault memory_ok any (variable_write ip ref v d).
Proof.
  intros Hd Hv Hi. unfold variable_write, VMAbsoluteVariable_write.
  assert (Hin : ref ∈ variable_stack_ d).
  { unfold znth in Hi. destruct (0 <=? i); [|done]. by eapply list_elem_of_lookup_2. }
  pose proof (mem_refs _ Hd) as Hr. rewrite Forall_forall in Hr. specialize (Hr ref Hin).
  unfold ref_ok in Hr. destruct (ref_var ref) as [|l].
  - destruct (_ <=? _); (split; [|done]).
    + by eapply (memory_ok_ext d).
    + destruct Hd as [[] ? ?]. split; [by split|done|]. by apply Forall_insert.
  - destruct Hr as [o Ho]. rewrite Ho. destruct o as [x|h].
    + split; [|done]. by eapply memory_ok_set_object.
    + destruct (var_write _ _ _ _) as [err w].
      assert (Hw : memory_ok (set_world w d)) by (by eapply (memory_ok_ext d)).
      destruct err; [|by split]. split; [|done]. by eapply (memory_ok_ext (set_world w d)).
Qed.

(** A new reference, and its index on the operand stack. *)
Lemma memory_push_variable d ref :
  memory_ok d -> ref_ok (heap_ d) ref ->
  keeping memory_fault memory_ok any ((idx ← push_variable ref; push idx) d).
Proof.
  intros Hd Hr. split; [|done]. apply (memory_ok_push (set_variable_stack _ d)).
  - by apply memory_ok_push_ref.
  - apply s32_range.
Qed.

Lemma memory_import_var d arg guid :
  memory_ok d -> keeping memory_fault memory_ok any (import_var arg guid d).
Proof.
  intros Hd. unfold import_var. destruct (_ !! _) as [l|] eqn:E.
  - apply memory_push_variable; [done|]. by apply (heap_owned _ (mem_heap _ Hd) _ _ E).
  - by eapply (memory_ok_ext d).
Qed.

Lemma memory_create_static_var d guid :
  memory_ok d -> keeping memory_fault memory_ok any (create_static_var guid d).
Proof.
  intros Hd. unfold create_static_var. destruct (_ !! _) as [l|] eqn:E.
  - split; [|done]. apply (memory_ok_push (set_operand_stack _ _)); [|done].
    apply (memory_ok_push (set_variable_stack _ d)); [|apply s32_range].
    apply memory_ok_push_ref; [done|]. by apply (heap_owned _ (mem_heap _ Hd) _ _ E).
  - pose proof (heap_ok_install d (u32 guid) (StaticObj StaticVariable_new) (mem_heap _ Hd)) as Hi.
    assert (Hs : object_ok (StaticObj (H := H) StaticVariable_new)) by done.
    specialize (Hi Hs). unfold mbind, prog_bind.
    unfold install_variable in *. rewrite E in *. destruct Hi as [Hi _].
    set (d1 := set_next_loc _ _) in *.
    assert (Hd1 : memory_ok d1).
    { split; [done| |exact (mem_operands _ Hd)].
      eapply Forall_impl; [exact (mem_refs _ Hd)|]. intros [[|l] a]; [done|].
      unfold ref_ok. simpl. intros Hl. destruct (decide (l = next_loc_ d)) as [->|Hne];
        [by rewrite lookup_insert_eq|by rewrite lookup_insert_ne]. }
    split; [|done]. apply (memory_ok_push (set_operand_stack _ _)); [|done].
    apply (memory_ok_push (set_variable_stack _ d1)); [|apply s32_range].
    apply memory_ok_push_ref; [done|]. unfold ref_ok. simpl. by rewrite lookup_insert_eq.
Qed.

Lemma memory_create_var d guid n :
  memory_ok d -> unreferenced guid d -> keeping memory_fault memory_ok any (create_var guid n d).
Proof.
  intros Hd Hn. unfold create_var. cbv zeta. set (r := if 0 <=? n then _ else _).
  destruct (create_variable r _) as [[[h|] w]|c] eqn:E.
  - unfold mbind, prog_bind. set (d1 := set_variable_request VariableCreationRequest_clear _).
    assert (Hd1 : memory_ok d1) by (by eapply (memory_ok_ext d)).
    pose proof (heap_ok_install d1 (u32 guid) (ExternalObj h) (mem_heap _ Hd1) I) as Hi.
    destruct (install_variable _ _ d1) as [l d2| |] eqn:Ei; [|done..]. destruct Hi as [Hi _].
    split; [|done]. unfold install_variable in Ei. injection Ei as _ <-. split; [done| |exact (mem_operands _ Hd)].
    apply Forall_forall. intros ref Hin. pose proof (mem_refs _ Hd) as Href. rewrite Forall_forall in Href.
    specialize (Href ref Hin). unfold ref_ok in *. destruct ref as [[|l'] arg]; [done|]. cbn in Href |- *.
    assert (Hne : forall old, external_variables_ d !! u32 guid = Some old -> old <> l').
    { intros old Hold ->. specialize (Hn _ Hold). rewrite Forall_forall in Hn. by apply (Hn _ Hin). }
    destruct (decide (l' = next_loc_ d)) as [->|Hl]; [by rewrite lookup_insert_eq|]. rewrite lookup_insert_ne by done.
    destruct (external_variables_ d !! u32 guid) as [old|]; [|done]. by rewrite lookup_delete_ne by eauto.
  - by eapply (memory_ok_ext d).
  - by eapply create_variable_crash.
Qed.

#[local] Instance memory_inv : DataInv memory_fault memory_ok is_int32 unreferenced.
Proof.
  split; try done; try (intros d ? Hd; by apply (memory_ok_ext d)); try (by intros d []).
  - intros. by apply rem_int32.
  - intros d l [[]] Hl. split; [by split|done..].
  - intros d n [[]]. split; [by split| |done]. by apply Forall_take.
  - intros. by eapply memory_variable_read.
  - intros. by eapply memory_variable_write.
  - intros. by apply memory_import_var.
  - intros. by apply memory_push_variable.
  - intros. by apply memory_create_static_var.
  - intros. by apply memory_create_var.
Qed.

(** C5: Memory safety.  Running any bytecode from a state whose references
    and owned variables are alive never follows a dangling pointer and only
    ends in such states, if no variable is re-created while references to it
    exist: [CREATE_VAR] may come at any time with a GUID that is new, or whose
    variable has no reference left on the stack of variables. *)
Theorem execute_memory_safe fuel (s : @VM W H) o :
  memory_ok (data s) -> is_Some (code_ (ctl s)) ->
  (forall s' g, steps s s' -> creates_guid s' g -> unreferenced g (data s')) ->
  execute fuel s = Some o ->
  match o with
  | Done _ s' | Failed s' => memory_ok (data s')
  | Crashed c => c <> DanglingPointer
  end.
Proof.
  intros Hd Hc Hcr E. eapply (keeping_execute (bad := memory_fault)) in E; [|by split|done].
  destruct o; [by destruct E as [[]]|by destruct E|done].
Qed.

End MemorySafety.
