(* ===== verification/AST.v ===== *)
(** The abstract syntax tree of the logic language and its code generator
    (src/cs/logic/AST.hxx): one inductive type per class hierarchy, one
    definition per [serialize], [serialize_fetch], [serialize_store],
    [serialize_ref], [serialize_preamble] and [debug_print] override.

    A [shared_ptr<Command>] that in fact holds an expression (an initial
    value) is [IntCmd] or [BoolCmd].  Code generation reads, through the
    [const Symbol&] of a call, the symbol table of the driver, and a function
    definition writes its address there; so commands are serialized in a state
    that holds that table ([SerState]).

    A serialized string that is not the driver's output is always a fresh
    local one; [is_root] says whether the output is the driver's. *)

From stdpp Require Import pretty.
From S2P Require Import Prelude Bytecode.

(** ** Syntax *)

(** [LocalVariableReference] and [GlobalVariableReference]. *)
Inductive VariableReference :=
| LocalVariableReference (name_ : string) (fp_offset_ : Z)
| GlobalVariableReference (name_ : string) (fp_offset_ : Z).

(** The subclasses of [IntExpression] and [BooleanExpression], with the
    [FunctionCall] and [PolymorphicExpression] they share. [fn] is the key of
    the symbol that [fn_] refers to. *)
Inductive IntExpression :=
| IntVariable (variable_ : VariableReference)
| IntBinaryExpression (opcode_ : OpCode) (left_ right_ : IntExpression)
| IntConstant (value : Z)
| IntFunctionCall (fc_ : FunctionCall)
with BooleanExpression :=
| BoolVariable (variable_ : VariableReference)
| IntComp (opcode_ : OpCode) (left_ right_ : IntExpression)
| BooleanConstant (value : bool)
| BoolNot (left_ : BooleanExpression)
| BoolAnd (left_ right_ : BooleanExpression)
| BoolCmp (opcode_ : OpCode) (left_ right_ : BooleanExpression)
| BoolOr (left_ right_ : BooleanExpression)
| BoolFunctionCall (fc_ : FunctionCall)
with FunctionCall :=
| mkFunctionCall (stack_ofs_ : Z) (name_ : string) (fn : string)
    (args : list PolymorphicExpression) (need_retval_ : bool)
with PolymorphicExpression :=
| PolyVoid
| PolyBool (bool_expr_ : BooleanExpression)
| PolyInt (int_expr_ : IntExpression)
| PolyVar (var_type_ : DataType) (var_ : option VariableReference).

(** The other subclasses of [Command]. *)
Inductive Command :=
| EmptyCommand
| CommandSequence (commands_ : list Command) (trim_stack_from_ trim_stack_to_ : Z)
| IndirectVarCreate (guid_ arg_ : Z) (type_ : DataType) (num_states_ : Z)
    (name_ : string) (fp_offset_ : Z)
| StaticVarCreate (guid_ : Z) (type_ : TypeSpecifier) (name_ : string) (fp_offset_ : Z)
    (init_ : Command)
| LocalVarCreate (name_ : string) (type_ : TypeSpecifier) (fp_offset_ : Z) (init_ : Command)
| NumericAssignment (variable_ : VariableReference) (value : IntExpression)
| BooleanAssignment (variable_ : VariableReference) (value : BooleanExpression)
| IfThenElse (condition_ : BooleanExpression) (then_case_ : Command)
    (else_case_ : option Command)
| Function (name_ : string) (return_type_ : TypeSpecifier) (args : list FunctionArgument)
    (body_ : Command)
| FunctionCallCmd (fc_ : FunctionCall)
| PrintString (txt_ : string)
| PrintInt (value : IntExpression)
| Terminate
| IntCmd (e : IntExpression)
| BoolCmd (e : BooleanExpression).

(** ** Symbol tables during serialization *)

Abbreviation SymbolTable := (gmap string Symbol).

(** [fn_.fp_offset_]: function symbols are never erased, see [Driver.v]; a
    symbol that was not yet given an address has the initial value -1. *)
Definition fn_address (st : SymbolTable) (fn : string) : Z :=
  match st !! fn with
  | Some s => fp_offset_ s
  | None => -1
  end.

(** What [Function::register_function] works on: the symbol table of the global
    context, that of the function context when it is the current one, and the
    error messages. *)
Record SerState := mkSerState {
  ser_symbols : SymbolTable;
  ser_function_symbols : option SymbolTable;
  ser_errors : list string
}.

(** ** Variable references *)

Definition reference_name (v : VariableReference) : string :=
  match v with
  | LocalVariableReference name _ | GlobalVariableReference name _ => name
  end.

Definition local_serialize_fetch (fp_offset : Z) (output : list Z) : list Z :=
  let output := append_opcode output LOAD_FP_REL in
  append_varint output fp_offset.

Definition local_serialize_store (fp_offset : Z) (output : list Z) : list Z :=
  let output := append_opcode output STORE_FP_REL in
  append_varint output fp_offset.

Definition local_serialize_ref (fp_offset : Z) (output : list Z) : list Z :=
  let output := append_opcode output CREATE_INDIRECT_VAR in
  append_varint output fp_offset.

Definition global_serialize_fetch (fp_offset : Z) (output : list Z) : list Z :=
  append_opcode (local_serialize_fetch fp_offset output) INDIRECT_LOAD.

Definition global_serialize_store (fp_offset : Z) (output : list Z) : list Z :=
  append_opcode (local_serialize_fetch fp_offset output) INDIRECT_STORE.

Definition global_serialize_ref (fp_offset : Z) (output : list Z) : list Z :=
  local_serialize_fetch fp_offset output.

(** The virtual calls. *)
Definition serialize_fetch (v : VariableReference) (output : list Z) : list Z :=
  match v with
  | LocalVariableReference _ ofs => local_serialize_fetch ofs output
  | GlobalVariableReference _ ofs => global_serialize_fetch ofs output
  end.

Definition serialize_store (v : VariableReference) (output : list Z) : list Z :=
  match v with
  | LocalVariableReference _ ofs => local_serialize_store ofs output
  | GlobalVariableReference _ ofs => global_serialize_store ofs output
  end.

Definition serialize_ref (v : VariableReference) (output : list Z) : list Z :=
  match v with
  | LocalVariableReference _ ofs => local_serialize_ref ofs output
  | GlobalVariableReference _ ofs => global_serialize_ref ofs output
  end.

(** ** Expressions *)

Definition IntConstant_serialize (value : Z) (output : list Z) : list Z :=
  if value =? 0 then append_opcode output PUSH_CONSTANT_0
  else if value =? 1 then append_opcode output PUSH_CONSTANT_1
  else append_varint (append_opcode output PUSH_CONSTANT) value.

Definition BooleanConstant_serialize (value : bool) (output : list Z) : list Z :=
  append_opcode output (if value then PUSH_CONSTANT_1 else PUSH_CONSTANT_0).

(** [IntBinaryExpression], [IntComp] and [BoolCmp]: both operands, then the
    opcode. *)
Definition IntBinaryExpression_serialize (op : OpCode) (left right : list Z -> list Z)
    (output : list Z) : list Z :=
  let output := left output in
  let output := right output in
  append_opcode output op.

Definition IntComp_serialize (op : OpCode) (left right : list Z -> list Z)
    (output : list Z) : list Z :=
  let output := left output in
  let output := right output in
  append_opcode output op.

Definition BoolCmp_serialize (op : OpCode) (left right : list Z -> list Z)
    (output : list Z) : list Z :=
  let output := left output in
  let output := right output in
  append_opcode output op.

Definition BoolNot_serialize (left : list Z -> list Z) (output : list Z) : list Z :=
  append_opcode (left output) BOOL_NOT.

Definition BoolAnd_serialize (left right : list Z -> list Z) (output : list Z) : list Z :=
  let output := left output in
  let rhs := append_opcode [] POP_OP in
  let rhs := right rhs in
  let output := append_opcode output PUSH_TOP in
  let output := append_opcode output TEST_JUMP_IF_FALSE in
  let output := append_varint output (zlen rhs) in
  output ++ rhs.

Definition BoolOr_serialize (left right : list Z -> list Z) (output : list Z) : list Z :=
  let output := left output in
  let rhs := append_opcode [] POP_OP in
  let rhs := right rhs in
  let output := append_opcode output PUSH_TOP in
  let output := append_opcode output TEST_JUMP_IF_TRUE in
  let output := append_varint output (zlen rhs) in
  output ++ rhs.

(** [FunctionCall::serialize], given how to serialize its arguments. *)
Definition FunctionCall_serialize (st : SymbolTable) (stack_ofs : Z) (fn : string)
    (num_args : Z) (need_retval : bool) (args : list Z -> list Z) (output : list Z) : list Z :=
  let output := append_varint (append_opcode output CHECK_STACK_LENGTH) stack_ofs in
  (* Create space for return value of the function. *)
  let output := append_opcode output PUSH_CONSTANT_0 in
  (* Render arguments to the function. *)
  let output := args output in
  (* Call target address. *)
  let output := append_varint (append_opcode output PUSH_CONSTANT) (fn_address st fn) in
  (* Execute call. *)
  let output := append_varint (append_opcode output CALL) num_args in
  if negb need_retval then append_opcode output POP_OP else output.

Fixpoint serialize_int (st : SymbolTable) (e : IntExpression) (output : list Z) : list Z :=
  match e with
  | IntVariable v => serialize_fetch v output
  | IntBinaryExpression op l r =>
      IntBinaryExpression_serialize op (serialize_int st l) (serialize_int st r) output
  | IntConstant v => IntConstant_serialize v output
  | IntFunctionCall fc => serialize_call st fc output
  end
with serialize_bool (st : SymbolTable) (e : BooleanExpression) (output : list Z) : list Z :=
  match e with
  | BoolVariable v => serialize_fetch v output
  | IntComp op l r => IntComp_serialize op (serialize_int st l) (serialize_int st r) output
  | BooleanConstant v => BooleanConstant_serialize v output
  | BoolNot l => BoolNot_serialize (serialize_bool st l) output
  | BoolAnd l r => BoolAnd_serialize (serialize_bool st l) (serialize_bool st r) output
  | BoolCmp op l r => BoolCmp_serialize op (serialize_bool st l) (serialize_bool st r) output
  | BoolOr l r => BoolOr_serialize (serialize_bool st l) (serialize_bool st r) output
  | BoolFunctionCall fc => serialize_call st fc output
  end
with serialize_call (st : SymbolTable) (fc : FunctionCall) (output : list Z) : list Z :=
  match fc with
  | mkFunctionCall stack_ofs name fn args need_retval =>
      FunctionCall_serialize st stack_ofs fn (zlen args) need_retval
        (fun output => fold_left (fun output a => serialize_poly st a output) args output)
        output
  end
with serialize_poly (st : SymbolTable) (a : PolymorphicExpression) (output : list Z)
    : list Z :=
  match a with
  | PolyBool e => serialize_bool st e output
  | PolyInt e => serialize_int st e output
  | PolyVar _ (Some v) => serialize_ref v output
  | PolyVar _ None | PolyVoid => append_opcode output PUSH_CONSTANT_0
  end.

(** ** Commands *)

Definition IndirectVarCreate_serialize_preamble (name : string) (guid : Z) (type : DataType)
    (num_states : Z) (output : list Z) : list Z :=
  let output := append_opcode output LOAD_STRING in
  let output := append_string output name in
  let output := append_opcode output CREATE_VAR in
  let output := append_varint output guid in
  if decide (type = DATATYPE_BOOL) then append_varint output (-1)
  else append_varint output num_states.

Definition IndirectVarCreate_serialize (guid arg : Z) (output : list Z) : list Z :=
  let output := append_varint (append_opcode output PUSH_CONSTANT) guid in
  let output := append_varint (append_opcode output PUSH_CONSTANT) arg in
  append_opcode output IMPORT_VAR.

(** [init] is the code of the initial value. *)
Definition StaticVarCreate_serialize (guid fp_offset : Z) (init : list Z) (output : list Z)
    : list Z :=
  let output := append_varint (append_opcode output CREATE_STATIC_VAR) guid in
  let init := global_serialize_store fp_offset init in
  let output := append_varint (append_opcode output TEST_JUMP_IF_FALSE) (zlen init) in
  output ++ init.

Definition NumericAssignment_serialize (st : SymbolTable) (v : VariableReference)
    (value : IntExpression) (output : list Z) : list Z :=
  serialize_store v (serialize_int st value output).

Definition BooleanAssignment_serialize (st : SymbolTable) (v : VariableReference)
    (value : BooleanExpression) (output : list Z) : list Z :=
  let output := serialize_bool st value output in
  (* ensures we only write 0 or 1 to a boolean variable. *)
  let output := append_opcode output BOOL_PROJECT in
  serialize_store v output.

Definition PrintString_serialize (txt : string) (output : list Z) : list Z :=
  let output := append_string (append_opcode output LOAD_STRING) txt in
  append_opcode output PRINT_STR.

Definition PrintInt_serialize (st : SymbolTable) (value : IntExpression) (output : list Z)
    : list Z :=
  append_opcode (serialize_int st value output) PRINT_NUM.

Definition CommandSequence_trim (from to_ : Z) (output : list Z) : list Z :=
  if 0 <=? from then
    let output := append_varint (append_opcode output CHECK_STACK_LENGTH) from in
    if 0 <=? to_ then append_varint (append_opcode output LEAVE) (from - to_)
    else output
  else output.

(** Write the address of a function to its symbol. *)
Definition set_fp_offset (ofs : Z) (s : Symbol) : Symbol :=
  mkSymbol (symbol_type_ s) (access_ s) (data_type_ s) ofs (args_ s).

Definition ser_error (msg : string) (s : SerState) : SerState :=
  mkSerState (ser_symbols s) (ser_function_symbols s) (push_back (ser_errors s) msg).

Definition is_function (s : Symbol) : bool := bool_decide (symbol_type_ s = FUNCTION).

(** [driver_->find_mutable_symbol(name)], followed by the update of the
    [fp_offset_] of what it found. *)
Definition register_symbol (name : string) (jump_ofs : Z) (s : SerState) : option SerState :=
  match ser_function_symbols s with
  | Some t =>
      match t !! name, ser_symbols s !! name with
      | Some sym, _ =>
          Some (mkSerState (ser_symbols s) (Some (<[name := set_fp_offset jump_ofs sym]> t))
                  (ser_errors s))
      | None, Some sym =>
          if is_function sym
          then Some (mkSerState (<[name := set_fp_offset jump_ofs sym]> (ser_symbols s))
                       (Some t) (ser_errors s))
          else None
      | None, None => None
      end
  | None =>
      match ser_symbols s !! name with
      | Some sym =>
          Some (mkSerState (<[name := set_fp_offset jump_ofs sym]> (ser_symbols s)) None
                  (ser_errors s))
      | None => None
      end
  end.

(** [Function::register_function]. *)
Definition register_function (name : string) (is_root : bool) (output : list Z)
    (s : SerState) : SerState :=
  if negb is_root then ser_error ("Function " +:+ name +:+ " not defined at the top level.") s
  else
    let jump_ofs := zlen output in
    match register_symbol name jump_ofs s with
    | None =>
        ser_error ("Function " +:+ name +:+ ": symbol table entry not found during serialize.") s
    | Some s => s
    end.

(** [IfThenElse::serialize] from the code of its parts. *)
Definition IfThenElse_blocks (then_block : list Z) (else_block : option (list Z))
    (output : list Z) : list Z :=
  let then_block :=
    match else_block with
    | Some e => append_varint (append_opcode then_block JUMP) (zlen e)
    | None => then_block
    end in
  let output := append_varint (append_opcode output TEST_JUMP_IF_FALSE) (zlen then_block) in
  output ++ then_block ++ default [] else_block.

(** [Command::serialize]: the new state and the extended output. *)
Fixpoint serialize (c : Command) (is_root : bool) (s : SerState) (output : list Z)
    : SerState * list Z :=
  match c with
  | EmptyCommand => (s, output)
  | CommandSequence commands from to_ =>
      let '(s, output) :=
        fold_left (fun '(s, output) c => serialize c is_root s output) commands (s, output) in
      (s, CommandSequence_trim from to_ output)
  | IndirectVarCreate guid arg _ _ _ _ => (s, IndirectVarCreate_serialize guid arg output)
  | StaticVarCreate guid _ _ fp_offset init =>
      let '(s, init) := serialize init false s [] in
      (s, StaticVarCreate_serialize guid fp_offset init output)
  | LocalVarCreate _ _ fp_offset init =>
      let output := append_varint (append_opcode output CHECK_STACK_LENGTH) fp_offset in
      serialize init is_root s output
  | NumericAssignment v e => (s, NumericAssignment_serialize (ser_symbols s) v e output)
  | BooleanAssignment v e => (s, BooleanAssignment_serialize (ser_symbols s) v e output)
  | IfThenElse cond then_case else_case =>
      let output := serialize_bool (ser_symbols s) cond output in
      let '(s, then_block) := serialize then_case false s [] in
      match else_case with
      | None => (s, IfThenElse_blocks then_block None output)
      | Some e =>
          let '(s, else_block) := serialize e false s [] in
          (s, IfThenElse_blocks then_block (Some else_block) output)
      end
  | Function name _ _ body =>
      let '(s, tmp) := serialize body false s [] in
      let tmp := append_opcode tmp RET in
      (* Jump over the function body. *)
      let output := append_varint (append_opcode output JUMP) (zlen tmp) in
      let s := register_function name is_root output s in
      (s, output ++ tmp)
  | FunctionCallCmd fc => (s, serialize_call (ser_symbols s) fc output)
  | PrintString txt => (s, PrintString_serialize txt output)
  | PrintInt e => (s, PrintInt_serialize (ser_symbols s) e output)
  | Terminate => (s, append_opcode output TERMINATE)
  | IntCmd e => (s, serialize_int (ser_symbols s) e output)
  | BoolCmd e => (s, serialize_bool (ser_symbols s) e output)
  end.

(** [Command::serialize_preamble]: only [IndirectVarCreate] overrides it. *)
Definition serialize_preamble (c : Command) (output : list Z) : list Z :=
  match c with
  | IndirectVarCreate guid _ type num_states name _ =>
      IndirectVarCreate_serialize_preamble name guid type num_states output
  | _ => output
  end.

(** ** Debug printing *)

Definition int_op_name (op : OpCode) : string :=
  match op with
  | NUMERIC_PLUS => "plus("
  | NUMERIC_MINUS => "minus("
  | NUMERIC_MUL => "mul("
  | NUMERIC_DIV => "div("
  | NUMERIC_MOD => "mod("
  | _ => "???("
  end.

Definition int_comp_name (op : OpCode) : string :=
  match op with
  | NUMERIC_EQ => "eq("
  | NUMERIC_NEQ => "noteq("
  | NUMERIC_LEQ => "leq("
  | NUMERIC_GEQ => "geq("
  | NUMERIC_LT => "lt("
  | NUMERIC_GT => "gt("
  | _ => "???("
  end.

Definition bool_cmp_name (op : OpCode) : string :=
  match op with
  | BOOL_EQ => "bool_eq("
  | BOOL_NEQ => "bool_neq("
  | _ => "???("
  end.

Definition debug_print_pair (head l r : string) : string :=
  head +:+ l +:+ "," +:+ r +:+ ")".

Definition debug_print_fetch (v : VariableReference) : string :=
  "fetch(" +:+ reference_name v +:+ ")".

(** The comma separated arguments of [FunctionCall::debug_print]. *)
Fixpoint comma_separated (first : bool) (l : list string) : string :=
  match l with
  | [] => ""
  | a :: l' => (if first then "" else ", ") +:+ a +:+ comma_separated false l'
  end.

Fixpoint debug_print_int (e : IntExpression) : string :=
  match e with
  | IntVariable v => debug_print_fetch v
  | IntBinaryExpression op l r =>
      debug_print_pair (int_op_name op) (debug_print_int l) (debug_print_int r)
  | IntConstant v => pretty v
  | IntFunctionCall fc => debug_print_call fc
  end
with debug_print_bool (e : BooleanExpression) : string :=
  match e with
  | BoolVariable v => debug_print_fetch v
  | IntComp op l r =>
      debug_print_pair (int_comp_name op) (debug_print_int l) (debug_print_int r)
  | BooleanConstant v => if v then "true" else "false"
  | BoolNot l => "bool_not(" +:+ debug_print_bool l +:+ ")"
  | BoolAnd l r => debug_print_pair "bool_and(" (debug_print_bool l) (debug_print_bool r)
  | BoolCmp op l r =>
      debug_print_pair (bool_cmp_name op) (debug_print_bool l) (debug_print_bool r)
  | BoolOr l r => debug_print_pair "bool_or(" (debug_print_bool l) (debug_print_bool r)
  | BoolFunctionCall fc => debug_print_call fc
  end
with debug_print_call (fc : FunctionCall) : string :=
  match fc with
  | mkFunctionCall _ name _ args _ =>
      name +:+ "(" +:+ comma_separated true (List.map debug_print_poly args) +:+ ")"
  end
with debug_print_poly (a : PolymorphicExpression) : string :=
  match a with
  | PolyInt e => debug_print_int e
  | PolyBool e => debug_print_bool e
  | PolyVar _ _ | PolyVoid => ""
  end.

(** The parameter list of [Function::debug_print]: a comma goes before every
    parameter unless the output ends in the opening bracket. *)
Definition debug_print_params (args : list FunctionArgument) : string :=
  comma_separated true
    (List.map (fun a => TypeSpecifier_to_string (arg_type_ a) +:+ " " +:+ arg_name_ a) args).

Definition newline : string := String "010"%char "".
Definition double_quote : string := String "034"%char "".

Fixpoint debug_print (c : Command) : string :=
  match c with
  | EmptyCommand => ""
  | CommandSequence commands _ _ =>
      "{" +:+ newline
      +:+ String.concat "" (List.map (fun c => debug_print c +:+ newline) commands)
      +:+ "}" +:+ newline
  | IndirectVarCreate guid arg _ _ name _ =>
      "import_var(" +:+ name +:+ "/guid " +:+ pretty guid +:+ ",arg " +:+ pretty arg +:+ ")"
  | StaticVarCreate _ type name _ init =>
      "static " +:+ TypeSpecifier_to_string type +:+ " " +:+ name +:+ " = " +:+ debug_print init
  | LocalVarCreate name type _ init =>
      TypeSpecifier_to_string type +:+ " " +:+ name +:+ " = " +:+ debug_print init
  | NumericAssignment v e =>
      "assign(" +:+ reference_name v +:+ ", " +:+ debug_print_int e +:+ ")"
  | BooleanAssignment v e =>
      "boolassign(" +:+ reference_name v +:+ ", " +:+ debug_print_bool e +:+ ")"
  | IfThenElse cond then_case else_case =>
      "if (" +:+ debug_print_bool cond +:+ ")" +:+ debug_print then_case
      +:+ match else_case with
          | Some e => " else " +:+ debug_print e
          | None => ""
          end
  | Function name return_type args body =>
      TypeSpecifier_to_string return_type +:+ " " +:+ name +:+ "("
      +:+ debug_print_params args +:+ ") " +:+ debug_print body
  | FunctionCallCmd fc => debug_print_call fc
  | PrintString txt => "print(" +:+ double_quote +:+ txt +:+ double_quote +:+ ")"
  | PrintInt e => "print_num(" +:+ debug_print_int e +:+ ")"
  | Terminate => "terminate()"
  | IntCmd e => debug_print_int e
  | BoolCmd e => debug_print_bool e
  end.
