(* ===== verification/Driver.v ===== *)
(** The compiler driver (src/cs/logic/Driver.hxx, src/cs/logic/Driver.cxx):
    symbol tables, declarations, type checks and the top level of code
    generation.

    The generated parser calls the members of [Driver] from the actions of its
    grammar rules.  A member that returns [nullptr] for a syntax error returns
    [None] here; [Crashed] is undefined behaviour.  A [Symbol*] is the key of
    the symbol in the current table. *)

From stdpp Require Import pretty.
From S2P Require Import Prelude Bytecode AST.

(** ** State *)

(** [yy::location]: where a token begins and ends. *)
Record location := mkLocation {
  begin_line : Z;
  begin_column : Z;
  end_line : Z;
  end_column : Z
}.

Definition location_new : location := mkLocation 1 1 1 1.

Record ParsingContext := mkContext {
  symbol_table_ : SymbolTable;
  frame_size_ : Z
}.

Definition ParsingContext_clear : ParsingContext := mkContext ∅ 0.

(** [in_function_] says that [current_context_] points to
    [function_context_]. *)
Record Driver := mkDriver {
  global_context_ : ParsingContext;
  function_context_ : ParsingContext;
  in_function_ : bool;
  commands_ : list Command;
  decl_storage_ : Access;
  decl_type_ : TypeSpecifier;
  decl_name_ : string;
  decl_num_states_ : Z;
  error_output_ : string;
  next_guid_ : Z
}.

(** A polymorphic expression with the location it was parsed at. *)
Record located_expression := mkLocated {
  loc_ : location;
  expr_ : PolymorphicExpression
}.

(** [decl_storage_] and [decl_type_] are uninitialized until the first
    declaration. *)
Definition Driver_new : Driver :=
  mkDriver ParsingContext_clear ParsingContext_clear false [] LOCAL_VAR
    (mkTypeSpecifier DATATYPE_VOID) "" (-1) "" 1.

(** What [operator[]] of the symbol table creates. *)
Definition Symbol_new : Symbol := mkSymbol VARIABLE LOCAL_VAR DATATYPE_VOID (-1) None.

Definition set_symbol_type (t : SymbolType) (s : Symbol) : Symbol :=
  mkSymbol t (access_ s) (data_type_ s) (fp_offset_ s) (args_ s).
Definition set_access (a : Access) (s : Symbol) : Symbol :=
  mkSymbol (symbol_type_ s) a (data_type_ s) (fp_offset_ s) (args_ s).
Definition set_data_type (t : DataType) (s : Symbol) : Symbol :=
  mkSymbol (symbol_type_ s) (access_ s) t (fp_offset_ s) (args_ s).
Definition set_args (a : list FunctionArgument) (s : Symbol) : Symbol :=
  mkSymbol (symbol_type_ s) (access_ s) (data_type_ s) (fp_offset_ s) (Some a).

Definition current_context (d : Driver) : ParsingContext :=
  if in_function_ d then function_context_ d else global_context_ d.

Definition set_current_context (c : ParsingContext) (d : Driver) : Driver :=
  mkDriver (if in_function_ d then global_context_ d else c)
    (if in_function_ d then c else function_context_ d)
    (in_function_ d) (commands_ d) (decl_storage_ d) (decl_type_ d) (decl_name_ d)
    (decl_num_states_ d) (error_output_ d) (next_guid_ d).

Definition set_in_function (b : bool) (d : Driver) : Driver :=
  mkDriver (global_context_ d) (function_context_ d) b (commands_ d) (decl_storage_ d)
    (decl_type_ d) (decl_name_ d) (decl_num_states_ d) (error_output_ d) (next_guid_ d).

Definition set_function_context (c : ParsingContext) (d : Driver) : Driver :=
  mkDriver (global_context_ d) c (in_function_ d) (commands_ d) (decl_storage_ d)
    (decl_type_ d) (decl_name_ d) (decl_num_states_ d) (error_output_ d) (next_guid_ d).

Definition set_global_context (c : ParsingContext) (d : Driver) : Driver :=
  mkDriver c (function_context_ d) (in_function_ d) (commands_ d) (decl_storage_ d)
    (decl_type_ d) (decl_name_ d) (decl_num_states_ d) (error_output_ d) (next_guid_ d).

Definition set_decl (storage : Access) (type : TypeSpecifier) (d : Driver) : Driver :=
  mkDriver (global_context_ d) (function_context_ d) (in_function_ d) (commands_ d) storage
    type (decl_name_ d) (decl_num_states_ d) (error_output_ d) (next_guid_ d).

Definition set_decl_parameters (name : string) (num_states : Z) (d : Driver) : Driver :=
  mkDriver (global_context_ d) (function_context_ d) (in_function_ d) (commands_ d)
    (decl_storage_ d) (decl_type_ d) name num_states (error_output_ d) (next_guid_ d).

Definition set_error_output (e : string) (d : Driver) : Driver :=
  mkDriver (global_context_ d) (function_context_ d) (in_function_ d) (commands_ d)
    (decl_storage_ d) (decl_type_ d) (decl_name_ d) (decl_num_states_ d) e (next_guid_ d).

Definition set_next_guid (g : Z) (d : Driver) : Driver :=
  mkDriver (global_context_ d) (function_context_ d) (in_function_ d) (commands_ d)
    (decl_storage_ d) (decl_type_ d) (decl_name_ d) (decl_num_states_ d) (error_output_ d) g.

Definition set_commands (l : list Command) (d : Driver) : Driver :=
  mkDriver (global_context_ d) (function_context_ d) (in_function_ d) l
    (decl_storage_ d) (decl_type_ d) (decl_name_ d) (decl_num_states_ d) (error_output_ d)
    (next_guid_ d).

(** ** Errors *)

(** The position that [Driver::error] prints. *)
Definition print_location (l : location) : string :=
  pretty (begin_line l) +:+ "." +:+ pretty (begin_column l)
  +:+ (if begin_line l <? end_line l
       then "-" +:+ pretty (end_line l) +:+ "." +:+ pretty (end_column l)
       else if begin_column l <? end_column l then "-" +:+ pretty (end_column l)
       else "")
  +:+ ": ".

Definition error_at (l : location) (m : string) (d : Driver) : Driver :=
  set_error_output (error_output_ d +:+ print_location l +:+ m +:+ newline) d.

(** [driver.error(m)]. *)
Definition error_message (m : string) (d : Driver) : Driver :=
  set_error_output (error_output_ d +:+ m +:+ newline) d.

(** Report an error and return [nullptr]. *)
Definition reject {A} (l : location) (m : string) : prog Driver (option A) :=
  modify_state (error_at l m);; mret None.

(** Continue with what a member returned unless it was [nullptr]. *)
Definition checked {A B} (m : prog Driver (option A)) (k : A -> prog Driver (option B))
    : prog Driver (option B) :=
  r ← m; match r with Some a => k a | None => mret None end.

(** ** Contexts *)

(** [next_guid_] and the declaration variables keep their values. *)
Definition clear (d : Driver) : Driver :=
  mkDriver ParsingContext_clear ParsingContext_clear false [] (decl_storage_ d) (decl_type_ d)
    (decl_name_ d) (decl_num_states_ d) "" (next_guid_ d).

Definition set_guid_start (next_guid : Z) (d : Driver) : Driver :=
  set_next_guid (s32 next_guid) d.

Definition is_global_context (d : Driver) : bool := negb (in_function_ d).

(** Removes from the symbol table what [trim_stack] erases. *)
Definition trimmed (new_size : Z) (s : Symbol) : bool :=
  (0 <=? fp_offset_ s) && (fp_offset_ s <=? s32 new_size).

Definition trim_stack (new_size : Z) (d : Driver) : Driver :=
  let c := current_context d in
  set_current_context
    (mkContext (filter (fun kv => negb (trimmed new_size kv.2) = true) (symbol_table_ c))
       (frame_size_ c)) d.

Definition exit_function (d : Driver) : Driver := set_in_function false d.

(** ** Symbols *)

Definition set_current_symbol (name : string) (s : Symbol) (d : Driver) : Driver :=
  let c := current_context d in
  set_current_context (mkContext (<[name := s]> (symbol_table_ c)) (frame_size_ c)) d.

(** Assignments through the [Symbol*] that [allocate_symbol] returned. *)
Definition update_symbol (name : string) (f : Symbol -> Symbol) (d : Driver) : Driver :=
  let c := current_context d in
  set_current_context (mkContext (alter f name (symbol_table_ c)) (frame_size_ c)) d.

Definition allocate_symbol (name : string) (loc : location) (type : SymbolType)
    : prog Driver (option string) :=
  fun d =>
    match symbol_table_ (current_context d) !! name with
    | Some _ => reject loc ("Identifier '" +:+ name +:+ "' is already declared.") d
    | None => Done (Some name) (set_current_symbol name (set_symbol_type type Symbol_new) d)
    end.

Definition allocate_variable (name : string) (loc : location) (type : SymbolType)
    : prog Driver (option string) :=
  checked (allocate_symbol name loc type) (fun s d =>
    let size := frame_size_ (current_context d) in
    let d := update_symbol s (set_fp_offset (s32 size)) d in
    let c := current_context d in
    Done (Some s) (set_current_context (mkContext (symbol_table_ c) (u32 (size + 1))) d)).

(** The fresh function context has no symbol of that name yet. *)
Definition enter_function (return_type : TypeSpecifier) : prog Driver unit :=
  modify_state (fun d => set_function_context ParsingContext_clear (set_in_function true d));;
  s ← allocate_symbol "return_value" location_new VARIABLE;
  match s with
  | Some s =>
      modify_state (update_symbol s (fun s =>
        set_data_type (builtin_type_ return_type) (set_fp_offset (-1) (set_access LOCAL_VAR s))))
  | None => crashing DanglingPointer
  end.

Definition find_mutable_symbol (name : string) (d : Driver) : option Symbol :=
  match symbol_table_ (current_context d) !! name with
  | Some s => Some s
  | None =>
      if negb (is_global_context d) then
        match symbol_table_ (global_context_ d) !! name with
        | Some s => if is_function s then Some s else None
        | None => None
        end
      else None
  end.

Definition find_symbol (name : string) (d : Driver) : option Symbol :=
  find_mutable_symbol name d.

(** The iterator of the global table is compared with the end of the current
    one; in a function these differ, and a missing name makes the function
    dereference the end iterator. *)
Definition find_function (name : string) : prog Driver (option Symbol) :=
  fun d =>
    match symbol_table_ (global_context_ d) !! name with
    | Some s => Done (Some s) d
    | None => if is_global_context d then Done None d else Crashed DanglingPointer
    end.

(** ** Declarations *)

Definition clear_variable_parameters (d : Driver) : Driver := set_decl_parameters "" (-1) d.

(** False is a syntax error. *)
Definition set_var_description (loc : location) (descr : string) (d : Driver)
    : bool * Driver :=
  if negb (bool_decide (decl_storage_ d = INDIRECT_VAR)) then
    (false, error_at loc
       "syntax error: export parameters are only valid for exported variables." d)
  else (true, set_decl_parameters descr (decl_num_states_ d) d).

Definition set_var_num_states (loc : location) (num_states : Z) (d : Driver)
    : bool * Driver :=
  if negb (bool_decide (decl_storage_ d = INDIRECT_VAR)) then
    (false, error_at loc
       "syntax error: export parameters are only valid for exported variables." d)
  else if negb (bool_decide (builtin_type_ (decl_type_ d) = DATATYPE_INT)) then
    (false, error_at loc
       "syntax error: max_state is only valid for exported int variable." d)
  else (true, set_decl_parameters (decl_name_ d) num_states d).

(** [next_guid_++]. *)
Definition allocate_guid : prog Driver Z :=
  fun d =>
    (next ← int_result (next_guid_ d + 1);
     modify_state (set_next_guid next);; mret (next_guid_ d)) d.

(** [PolymorphicExpression::get_data_type], [is_void] and [is_variable]. *)
Definition get_data_type (e : PolymorphicExpression) : DataType :=
  match e with
  | PolyBool _ => DATATYPE_BOOL
  | PolyInt _ => DATATYPE_INT
  | PolyVar t (Some _) => t
  | PolyVar _ None | PolyVoid => DATATYPE_VOID
  end.

Definition is_void (e : PolymorphicExpression) : bool :=
  match e with
  | PolyBool _ | PolyInt _ => false
  | _ => true
  end.

Definition is_variable (e : PolymorphicExpression) : bool :=
  match e with
  | PolyVar _ (Some _) => true
  | _ => false
  end.

(** The initial value of a variable that is not exported. *)
Definition init_command (type : DataType) (e : PolymorphicExpression) : option Command :=
  let has_value := negb (bool_decide (get_data_type e = DATATYPE_VOID)) in
  match type with
  | DATATYPE_BOOL =>
      Some (match e with
            | PolyBool b => BoolCmd b
            | _ => BoolCmd (BooleanConstant false)
            end)
  | DATATYPE_INT =>
      Some (match e with
            | PolyInt i => IntCmd i
            | _ => IntCmd (IntConstant 0)
            end)
  | DATATYPE_VOID => None
  end.

(** The branch of [declare_variable] for exported variables; [s] is the new
    symbol. *)
Definition declare_exported (name : string) (loc : location) (e : PolymorphicExpression)
    (s : Symbol) : prog Driver (option Command) :=
  fun d =>
    if negb (is_void e) then
      reject loc "Exported variable declaration cannot have an initializer." d
    else
      let descr := decl_name_ d in
      let '(name, d) :=
        if bool_decide (descr = "") then (name, d)
        else (descr, set_decl_parameters "" (decl_num_states_ d) d) in
      if bool_decide (data_type_ s = DATATYPE_INT) && (decl_num_states_ d <? 0) then
        reject loc "Exported int variable must be declared with num state information." d
      else
        (guid ← allocate_guid;
         mret (Some (IndirectVarCreate guid 0 (data_type_ s) (decl_num_states_ d) name
                       (fp_offset_ s)))) d.

(** The branch for local and static variables.  An initial value that is a
    reference, which the grammar does not make, would put a null pointer into the
    command; that is a crash here. *)
Definition declare_internal (name : string) (loc : location) (e : PolymorphicExpression)
    (val_loc : location) (s : Symbol) : prog Driver (option Command) :=
  fun d =>
    let type := builtin_type_ (decl_type_ d) in
    let value_type := get_data_type e in
    let has_value := negb (bool_decide (value_type = DATATYPE_VOID)) in
    if has_value && negb (bool_decide (value_type = type)) then
      reject val_loc
        ("Incorrect type in assignment; expected " +:+ datatype_to_string type
         +:+ ", got " +:+ datatype_to_string value_type +:+ ".") d
    else
      match init_command type e with
      | None => reject loc "Variables cannot be void type." d
      | Some init =>
          if is_variable e then Crashed DanglingPointer else
          match decl_storage_ d with
          | STATIC_VAR =>
              (modify_state (update_symbol name (set_access INDIRECT_VAR));;
               guid ← allocate_guid;
               mret (Some (StaticVarCreate guid (decl_type_ d) name (fp_offset_ s) init))) d
          | LOCAL_VAR => Done (Some (LocalVarCreate name (decl_type_ d) (fp_offset_ s) init)) d
          | INDIRECT_VAR => Done None d
          end
      end.

Definition declare_variable (name : string) (loc : location) (initial_value : PolymorphicExpression)
    (val_loc : location) : prog Driver (option Command) :=
  checked (allocate_variable name loc VARIABLE) (fun key d =>
    let d := update_symbol key (fun s =>
               set_access (decl_storage_ d) (set_data_type (builtin_type_ (decl_type_ d)) s)) d in
    match symbol_table_ (current_context d) !! key with
    | None => Crashed DanglingPointer
    | Some s =>
        if bool_decide (decl_storage_ d = INDIRECT_VAR)
        then declare_exported name loc initial_value s d
        else declare_internal name loc initial_value val_loc s d
    end).

(** ** References and calls *)

Definition get_variable (name : string) (loc : location) (expected_type : DataType)
    : prog Driver (option Symbol) :=
  fun d =>
    match find_symbol name d with
    | None => reject loc ("Undeclared variable '" +:+ name +:+ "'") d
    | Some s =>
        if negb (bool_decide (data_type_ s = expected_type)) then
          reject loc
            ("'" +:+ name +:+ "' incorrect type; expected "
             +:+ datatype_to_string expected_type +:+ ", actual type "
             +:+ datatype_to_string (data_type_ s)) d
        else Done (Some s) d
    end.

Definition get_variable_reference (name : string) (loc : location) (type : DataType)
    : prog Driver (option VariableReference) :=
  checked (get_variable name loc type) (fun s =>
    match access_ s with
    | LOCAL_VAR => mret (Some (LocalVariableReference name (fp_offset_ s)))
    | INDIRECT_VAR => mret (Some (GlobalVariableReference name (fp_offset_ s)))
    | STATIC_VAR => reject loc "Unexpected storage modifier for variable."
    end).

(** One round of the loop that type checks the arguments. *)
Definition check_argument (name : string) (arg : located_expression) (sym_arg : FunctionArgument)
    : prog Driver (option unit) :=
  let act_type := get_data_type (expr_ arg) in
  let exp_type := arg_type_ sym_arg in
  if negb (bool_decide (act_type = builtin_type_ exp_type)) then
    reject (loc_ arg)
      ("Syntax error calling function " +:+ name +:+ ". Type error supplying argument "
       +:+ arg_name_ sym_arg +:+ ", expected " +:+ TypeSpecifier_to_string exp_type
       +:+ ", actual " +:+ datatype_to_string act_type +:+ ".")
  else if is_variable (expr_ arg) && negb (bool_decide (arg_access_ sym_arg = INDIRECT_VAR)) then
    reject (loc_ arg)
      ("Syntax error calling function " +:+ name +:+ ". Argument " +:+ arg_name_ sym_arg
       +:+ " should be an expression, but was given a reference. Remove '&'.")
  else if negb (is_variable (expr_ arg)) && negb (bool_decide (arg_access_ sym_arg = LOCAL_VAR))
  then
    reject (loc_ arg)
      ("Syntax error calling function " +:+ name +:+ ". Argument " +:+ arg_name_ sym_arg
       +:+ " should be a reference, but was given an expression. Use &variable_name syntax.")
  else mret (Some tt).

Fixpoint check_arguments (name : string) (args : list located_expression)
    (sym_args : list FunctionArgument) : prog Driver (option unit) :=
  match args, sym_args with
  | arg :: args, sym_arg :: sym_args =>
      checked (check_argument name arg sym_arg) (fun _ => check_arguments name args sym_args)
  | _, _ => mret (Some tt)
  end.

Definition get_function_call (name : string) (loc : location)
    (args : option (list located_expression)) (need_result : bool)
    : prog Driver (option FunctionCall) :=
  sym ← find_function name;
  match sym with
  | None => reject loc ("Syntax error: function " +:+ name +:+ " is not declared")
  | Some sym =>
      match args_ sym, args with
      | None, _ => reject loc "internal error: sym_args_ is null"
      | _, None => reject loc "internal error: args_ is null"
      | Some sym_args, Some args =>
          if negb (zlen args =? zlen sym_args) then
            reject loc
              ("Syntax error. Function " +:+ name +:+ " takes " +:+ pretty (zlen sym_args)
               +:+ " argument(s), given " +:+ pretty (zlen args) +:+ ".")
          else
            checked (check_arguments name args sym_args) (fun _ d =>
              Done (Some (mkFunctionCall (s32 (frame_size_ (current_context d))) name name
                            (List.map expr_ args) need_result)) d)
      end
  end.

(** ** Top level *)

(** [parse_file], given what [parser.parse()] does to the driver: that is
    generated code. *)
Definition parse_file (parse : Driver -> Z * Driver) (d : Driver) : Z * Driver :=
  let '(res, d) := parse d in
  if negb (bool_decide (error_output_ d = "")) then (1, d) else (res, d).

Definition Driver_debug_print (d : Driver) : string :=
  String.concat "" (List.map (fun c => debug_print c +:+ ";" +:+ newline) (commands_ d)).

(** The code that runs in preamble mode. *)
Definition serialize_preambles (l : list Command) : list Z :=
  append_opcode (fold_left (fun output c => serialize_preamble c output) l []) TERMINATE.

Definition ser_state (d : Driver) : SerState :=
  mkSerState (symbol_table_ (global_context_ d))
    (if in_function_ d then Some (symbol_table_ (function_context_ d)) else None) [].

(** Writes back the addresses and errors of serialization. *)
Definition with_ser_state (s : SerState) (d : Driver) : Driver :=
  let d := set_global_context
             (mkContext (ser_symbols s) (frame_size_ (global_context_ d))) d in
  let d := match ser_function_symbols s with
           | Some t => set_function_context (mkContext t (frame_size_ (function_context_ d))) d
           | None => d
           end in
  fold_left (fun d m => error_message m d) (ser_errors s) d.

Definition Driver_serialize (output : list Z) (d : Driver) : list Z * Driver :=
  let preamble := serialize_preambles (commands_ d) in
  let output := append_opcode output IF_PREAMBLE in
  let output := append_opcode output TEST_JUMP_IF_FALSE in
  let output := append_varint output (zlen preamble) in
  let output := output ++ preamble in
  let '(s, output) :=
    fold_left (fun '(s, output) c => serialize c true s output) (commands_ d)
      (ser_state d, output) in
  (output, with_ser_state s d).
