(* ===== verification/Codegen.v ===== *)
(** The shape of generated code (src/cs/logic/AST.hxx): the code generator of
    [AST.v] extends its output string; here the code of every construct is
    given as a value of its own ([code_int], [code_bool], [compile], ...), and
    the generator is shown to append exactly that value.  Also the induction
    principles of the syntax, whose lists of arguments and of commands are
    nested. *)

From S2P Require Import Prelude Bytecode AST.

(** ** Reference code of expressions *)

Definition op1 (op : OpCode) : list Z := [opcode_byte op].
Definition opv (op : OpCode) (v : Z) : list Z := opcode_byte op :: varint v.

#[global] Arguments op1 : simpl never.
#[global] Arguments opv : simpl never.

Definition code_int (st : SymbolTable) (e : IntExpression) : list Z := serialize_int st e [].
Definition code_bool (st : SymbolTable) (e : BooleanExpression) : list Z := serialize_bool st e [].
Definition code_call (st : SymbolTable) (fc : FunctionCall) : list Z := serialize_call st fc [].
Definition code_poly (st : SymbolTable) (a : PolymorphicExpression) : list Z :=
  serialize_poly st a [].

Definition code_fetch (v : VariableReference) : list Z := serialize_fetch v [].
Definition code_store (v : VariableReference) : list Z := serialize_store v [].
Definition code_trim (from to_ : Z) : list Z := CommandSequence_trim from to_ [].

(** ** Reference code of commands *)

(** [Function::register_function] for a function whose code starts at [ofs]. *)
Definition register_at (name : string) (is_root : bool) (ofs : Z) (s : SerState) : SerState :=
  if negb is_root then ser_error ("Function " +:+ name +:+ " not defined at the top level.") s
  else default (ser_error ("Function " +:+ name
                           +:+ ": symbol table entry not found during serialize.") s)
         (register_symbol name ofs s).

Definition if_code (cond then_block : list Z) (else_block : option (list Z)) : list Z :=
  cond ++ IfThenElse_blocks then_block else_block [].

(** The code of a command that starts at offset [base] of the block. *)
Fixpoint compile (c : Command) (is_root : bool) (s : SerState) (base : Z)
    : SerState * list Z :=
  match c with
  | EmptyCommand => (s, [])
  | CommandSequence commands from to_ =>
      let '(s, code) :=
        (fix compile_seq (l : list Command) (s : SerState) (base : Z) : SerState * list Z :=
           match l with
           | [] => (s, [])
           | c :: l =>
               let '(s, code) := compile c is_root s base in
               let '(s, codes) := compile_seq l s (base + zlen code) in
               (s, code ++ codes)
           end) commands s base in
      (s, code ++ code_trim from to_)
  | IndirectVarCreate guid arg _ _ _ _ =>
      (s, opv PUSH_CONSTANT guid ++ opv PUSH_CONSTANT arg ++ op1 IMPORT_VAR)
  | StaticVarCreate guid _ _ fp_offset init =>
      let '(s, init) := compile init false s 0 in
      let init := init ++ opv LOAD_FP_REL fp_offset ++ op1 INDIRECT_STORE in
      (s, opv CREATE_STATIC_VAR guid ++ opv TEST_JUMP_IF_FALSE (zlen init) ++ init)
  | LocalVarCreate _ _ fp_offset init =>
      let check := opv CHECK_STACK_LENGTH fp_offset in
      let '(s, init) := compile init is_root s (base + zlen check) in
      (s, check ++ init)
  | NumericAssignment v e => (s, code_int (ser_symbols s) e ++ code_store v)
  | BooleanAssignment v e =>
      (s, code_bool (ser_symbols s) e ++ op1 BOOL_PROJECT ++ code_store v)
  | IfThenElse cond then_case else_case =>
      let cond := code_bool (ser_symbols s) cond in
      let '(s, then_block) := compile then_case false s 0 in
      match else_case with
      | None => (s, if_code cond then_block None)
      | Some e =>
          let '(s, else_block) := compile e false s 0 in
          (s, if_code cond then_block (Some else_block))
      end
  | Function name _ _ body =>
      let '(s, body) := compile body false s 0 in
      let body := body ++ op1 RET in
      let over := opv JUMP (zlen body) in
      (register_at name is_root (base + zlen over) s, over ++ body)
  | FunctionCallCmd fc => (s, code_call (ser_symbols s) fc)
  | PrintString txt =>
      (s, opv LOAD_STRING (zlen (bytes_of_string txt)) ++ bytes_of_string txt ++ op1 PRINT_STR)
  | PrintInt e => (s, code_int (ser_symbols s) e ++ op1 PRINT_NUM)
  | Terminate => (s, op1 TERMINATE)
  | IntCmd e => (s, code_int (ser_symbols s) e)
  | BoolCmd e => (s, code_bool (ser_symbols s) e)
  end.

Definition compile_seq (is_root : bool) : list Command -> SerState -> Z -> SerState * list Z :=
  fix compile_seq l s base :=
    match l with
    | [] => (s, [])
    | c :: l =>
        let '(s, code) := compile c is_root s base in
        let '(s, codes) := compile_seq l s (base + zlen code) in
        (s, code ++ codes)
    end.

(** ** Induction principles *)

Section Induction.
Variables (PI : IntExpression -> Prop) (PB : BooleanExpression -> Prop)
  (PC : FunctionCall -> Prop) (PP : PolymorphicExpression -> Prop).
Hypotheses
  (HIvar : forall v, PI (IntVariable v))
  (HIbin : forall op l r, PI l -> PI r -> PI (IntBinaryExpression op l r))
  (HIconst : forall v, PI (IntConstant v))
  (HIcall : forall fc, PC fc -> PI (IntFunctionCall fc))
  (HBvar : forall v, PB (BoolVariable v))
  (HBcomp : forall op l r, PI l -> PI r -> PB (IntComp op l r))
  (HBconst : forall v, PB (BooleanConstant v))
  (HBnot : forall l, PB l -> PB (BoolNot l))
  (HBand : forall l r, PB l -> PB r -> PB (BoolAnd l r))
  (HBcmp : forall op l r, PB l -> PB r -> PB (BoolCmp op l r))
  (HBor : forall l r, PB l -> PB r -> PB (BoolOr l r))
  (HBcall : forall fc, PC fc -> PB (BoolFunctionCall fc))
  (HC : forall ofs name fn args r, Forall PP args -> PC (mkFunctionCall ofs name fn args r))
  (HPvoid : PP PolyVoid)
  (HPbool : forall e, PB e -> PP (PolyBool e))
  (HPint : forall e, PI e -> PP (PolyInt e))
  (HPvar : forall t v, PP (PolyVar t v)).

Fixpoint IntExpression_ind' (e : IntExpression) : PI e :=
  match e with
  | IntVariable v => HIvar v
  | IntBinaryExpression op l r =>
      HIbin op l r (IntExpression_ind' l) (IntExpression_ind' r)
  | IntConstant v => HIconst v
  | IntFunctionCall fc => HIcall fc (FunctionCall_ind' fc)
  end
with BooleanExpression_ind' (e : BooleanExpression) : PB e :=
  match e with
  | BoolVariable v => HBvar v
  | IntComp op l r => HBcomp op l r (IntExpression_ind' l) (IntExpression_ind' r)
  | BooleanConstant v => HBconst v
  | BoolNot l => HBnot l (BooleanExpression_ind' l)
  | BoolAnd l r => HBand l r (BooleanExpression_ind' l) (BooleanExpression_ind' r)
  | BoolCmp op l r => HBcmp op l r (BooleanExpression_ind' l) (BooleanExpression_ind' r)
  | BoolOr l r => HBor l r (BooleanExpression_ind' l) (BooleanExpression_ind' r)
  | BoolFunctionCall fc => HBcall fc (FunctionCall_ind' fc)
  end
with FunctionCall_ind' (fc : FunctionCall) : PC fc :=
  match fc with
  | mkFunctionCall ofs name fn args r =>
      HC ofs name fn args r
        ((fix go (l : list PolymorphicExpression) : Forall PP l :=
            match l with
            | [] => @List.Forall_nil _ PP
            | a :: l => @List.Forall_cons _ PP a l (PolymorphicExpression_ind' a) (go l)
            end) args)
  end
with PolymorphicExpression_ind' (a : PolymorphicExpression) : PP a :=
  match a with
  | PolyVoid => HPvoid
  | PolyBool e => HPbool e (BooleanExpression_ind' e)
  | PolyInt e => HPint e (IntExpression_ind' e)
  | PolyVar t v => HPvar t v
  end.

Lemma expr_ind :
  (forall e, PI e) /\ (forall e, PB e) /\ (forall fc, PC fc) /\ (forall a, PP a).
Proof.
  split; [exact IntExpression_ind'|]. split; [exact BooleanExpression_ind'|].
  split; [exact FunctionCall_ind' | exact PolymorphicExpression_ind'].
Qed.
End Induction.

Section CommandInduction.
Variables (P : Command -> Prop).
Hypotheses
  (Hempty : P EmptyCommand)
  (Hseq : forall l from to_, Forall P l -> P (CommandSequence l from to_))
  (Hindirect : forall g a t n m o, P (IndirectVarCreate g a t n m o))
  (Hstatic : forall g t n o i, P i -> P (StaticVarCreate g t n o i))
  (Hlocal : forall n t o i, P i -> P (LocalVarCreate n t o i))
  (Hnum : forall v e, P (NumericAssignment v e))
  (Hbool : forall v e, P (BooleanAssignment v e))
  (Hif : forall b t, P t -> P (IfThenElse b t None))
  (Hifelse : forall b t e, P t -> P e -> P (IfThenElse b t (Some e)))
  (Hfn : forall n r a b, P b -> P (Function n r a b))
  (Hcall : forall fc, P (FunctionCallCmd fc))
  (Hprints : forall t, P (PrintString t))
  (Hprinti : forall e, P (PrintInt e))
  (Hterm : P Terminate)
  (Hint : forall e, P (IntCmd e))
  (Hboolc : forall e, P (BoolCmd e)).

Fixpoint Command_ind' (c : Command) : P c :=
  match c with
  | EmptyCommand => Hempty
  | CommandSequence l from to_ =>
      Hseq l from to_
        ((fix go (l : list Command) : Forall P l :=
            match l with
            | [] => @List.Forall_nil _ P
            | c :: l => @List.Forall_cons _ P c l (Command_ind' c) (go l)
            end) l)
  | IndirectVarCreate g a t n m o => Hindirect g a t n m o
  | StaticVarCreate g t n o i => Hstatic g t n o i (Command_ind' i)
  | LocalVarCreate n t o i => Hlocal n t o i (Command_ind' i)
  | NumericAssignment v e => Hnum v e
  | BooleanAssignment v e => Hbool v e
  | IfThenElse b t None => Hif b t (Command_ind' t)
  | IfThenElse b t (Some e) => Hifelse b t e (Command_ind' t) (Command_ind' e)
  | Function n r a b => Hfn n r a b (Command_ind' b)
  | FunctionCallCmd fc => Hcall fc
  | PrintString t => Hprints t
  | PrintInt e => Hprinti e
  | Terminate => Hterm
  | IntCmd e => Hint e
  | BoolCmd e => Hboolc e
  end.
End CommandInduction.

(** ** The writers append *)

#[export] Hint Rewrite append_opcode_app append_varint_app append_string_app app_nil_l : emit.

Ltac emit := autorewrite with emit; rewrite <- ?app_assoc.

Lemma local_fetch_app ofs out :
  local_serialize_fetch ofs out = out ++ opv LOAD_FP_REL ofs.
Proof. unfold local_serialize_fetch. by emit. Qed.

Lemma local_store_app ofs out :
  local_serialize_store ofs out = out ++ opv STORE_FP_REL ofs.
Proof. unfold local_serialize_store. by emit. Qed.

Lemma local_ref_app ofs out :
  local_serialize_ref ofs out = out ++ opv CREATE_INDIRECT_VAR ofs.
Proof. unfold local_serialize_ref. by emit. Qed.

Lemma global_fetch_app ofs out :
  global_serialize_fetch ofs out = out ++ opv LOAD_FP_REL ofs ++ op1 INDIRECT_LOAD.
Proof. unfold global_serialize_fetch. rewrite local_fetch_app. by emit. Qed.

Lemma global_store_app ofs out :
  global_serialize_store ofs out = out ++ opv LOAD_FP_REL ofs ++ op1 INDIRECT_STORE.
Proof. unfold global_serialize_store. rewrite local_fetch_app. by emit. Qed.

Lemma trim_app from to_ out :
  CommandSequence_trim from to_ out = out ++ code_trim from to_.
Proof.
  unfold code_trim, CommandSequence_trim.
  destruct (0 <=? from), (0 <=? to_); emit; by rewrite ?app_nil_r.
Qed.

#[export] Hint Rewrite local_fetch_app local_store_app local_ref_app global_fetch_app
  global_store_app trim_app : emit.

Lemma serialize_fetch_app v out : serialize_fetch v out = out ++ code_fetch v.
Proof. unfold code_fetch. destruct v; simpl; by emit. Qed.

Lemma serialize_store_app v out : serialize_store v out = out ++ code_store v.
Proof. unfold code_store. destruct v; simpl; by emit. Qed.

Lemma serialize_ref_app v out : serialize_ref v out = out ++ serialize_ref v [].
Proof. destruct v; simpl; unfold global_serialize_ref; by emit. Qed.

Lemma code_fetch_eq v :
  code_fetch v =
  match v with
  | LocalVariableReference _ ofs => opv LOAD_FP_REL ofs
  | GlobalVariableReference _ ofs => opv LOAD_FP_REL ofs ++ op1 INDIRECT_LOAD
  end.
Proof. unfold code_fetch. destruct v; simpl; by emit. Qed.

Lemma code_store_eq v :
  code_store v =
  match v with
  | LocalVariableReference _ ofs => opv STORE_FP_REL ofs
  | GlobalVariableReference _ ofs => opv LOAD_FP_REL ofs ++ op1 INDIRECT_STORE
  end.
Proof. unfold code_store. destruct v; simpl; by emit. Qed.

Lemma code_ref_eq v :
  serialize_ref v [] =
  match v with
  | LocalVariableReference _ ofs => opv CREATE_INDIRECT_VAR ofs
  | GlobalVariableReference _ ofs => opv LOAD_FP_REL ofs
  end.
Proof. destruct v; simpl; unfold global_serialize_ref; by emit. Qed.

(** The arguments of a call. *)
Definition code_args (st : SymbolTable) (args : list PolymorphicExpression) : list Z :=
  List.concat (List.map (code_poly st) args).

Lemma serialize_args_app st args out :
  Forall (fun a => forall out, serialize_poly st a out = out ++ code_poly st a) args ->
  fold_left (fun output a => serialize_poly st a output) args out = out ++ code_args st args.
Proof.
  unfold code_args. intros Ha. revert out. induction Ha as [|a args Ha _ IH]; intros out; simpl.
  - by rewrite app_nil_r.
  - by rewrite Ha, IH, <- app_assoc.
Qed.

(** The code of a call, given the code of its arguments. *)
Definition call_code (st : SymbolTable) (ofs : Z) (fn : string)
    (args : list PolymorphicExpression) (need : bool) : list Z :=
  opv CHECK_STACK_LENGTH ofs ++ op1 PUSH_CONSTANT_0 ++ code_args st args
  ++ opv PUSH_CONSTANT (fn_address st fn) ++ opv CALL (zlen args)
  ++ (if need then [] else op1 POP_OP).

Lemma FunctionCall_serialize_app st ofs fn args need out :
  Forall (fun a => forall out, serialize_poly st a out = out ++ code_poly st a) args ->
  FunctionCall_serialize st ofs fn (zlen args) need
    (fun out => fold_left (fun output a => serialize_poly st a output) args out) out =
  out ++ call_code st ofs fn args need.
Proof.
  intros Ha. unfold FunctionCall_serialize, call_code.
  rewrite serialize_args_app by done. destruct need; simpl; emit; [|done].
  rewrite app_nil_r. done.
Qed.

Lemma serialize_app st :
  (forall e out, serialize_int st e out = out ++ code_int st e) /\
  (forall e out, serialize_bool st e out = out ++ code_bool st e) /\
  (forall fc out, serialize_call st fc out = out ++ code_call st fc) /\
  (forall a out, serialize_poly st a out = out ++ code_poly st a).
Proof.
  apply expr_ind; unfold code_int, code_bool, code_call, code_poly; intros; simpl;
    unfold IntBinaryExpression_serialize, IntComp_serialize, BoolCmp_serialize,
      BoolNot_serialize, BoolAnd_serialize, BoolOr_serialize, IntConstant_serialize,
      BooleanConstant_serialize;
    repeat match goal with
           | H : forall out : list Z, _ = _ |- context [serialize_int _ ?e ?o] =>
               lazymatch o with [] => fail | _ => rewrite (H o) end
           | H : forall out : list Z, _ = _ |- context [serialize_bool _ ?e ?o] =>
               lazymatch o with [] => fail | _ => rewrite (H o) end
           end;
    rewrite ?serialize_fetch_app; emit; try done.
  - destruct (v =? 0), (v =? 1); by emit.
  - by rewrite !FunctionCall_serialize_app.
  - destruct v; [by rewrite serialize_ref_app | by emit].
Qed.

Lemma serialize_int_app st e out : serialize_int st e out = out ++ code_int st e.
Proof. apply serialize_app. Qed.
Lemma serialize_bool_app st e out : serialize_bool st e out = out ++ code_bool st e.
Proof. apply serialize_app. Qed.
Lemma serialize_call_app st fc out : serialize_call st fc out = out ++ code_call st fc.
Proof. apply serialize_app. Qed.

#[export] Hint Rewrite serialize_fetch_app serialize_store_app serialize_int_app
  serialize_bool_app serialize_call_app : emit.

(** ** The code of each construct *)

Lemma code_int_binary st op l r :
  code_int st (IntBinaryExpression op l r) = code_int st l ++ code_int st r ++ op1 op.
Proof. unfold code_int. simpl. unfold IntBinaryExpression_serialize. by emit. Qed.

Lemma code_bool_comp st op l r :
  code_bool st (IntComp op l r) = code_int st l ++ code_int st r ++ op1 op.
Proof. unfold code_bool. simpl. unfold IntComp_serialize. by emit. Qed.

Lemma code_bool_cmp st op l r :
  code_bool st (BoolCmp op l r) = code_bool st l ++ code_bool st r ++ op1 op.
Proof. unfold code_bool. simpl. unfold BoolCmp_serialize. by emit. Qed.

Lemma code_bool_not st l : code_bool st (BoolNot l) = code_bool st l ++ op1 BOOL_NOT.
Proof. unfold code_bool. simpl. unfold BoolNot_serialize. by emit. Qed.

(** The code of a short-circuit operator that skips its right operand with
    [jump]. *)
Definition short_circuit_code (jump : OpCode) (l r : list Z) : list Z :=
  let rhs := op1 POP_OP ++ r in
  l ++ op1 PUSH_TOP ++ opv jump (zlen rhs) ++ rhs.

Lemma code_bool_and st l r :
  code_bool st (BoolAnd l r) =
  short_circuit_code TEST_JUMP_IF_FALSE (code_bool st l) (code_bool st r).
Proof. unfold code_bool. simpl. unfold BoolAnd_serialize, short_circuit_code. by emit. Qed.

Lemma code_bool_or st l r :
  code_bool st (BoolOr l r) =
  short_circuit_code TEST_JUMP_IF_TRUE (code_bool st l) (code_bool st r).
Proof. unfold code_bool. simpl. unfold BoolOr_serialize, short_circuit_code. by emit. Qed.

Lemma code_int_const st v :
  code_int st (IntConstant v) =
  if v =? 0 then op1 PUSH_CONSTANT_0
  else if v =? 1 then op1 PUSH_CONSTANT_1 else opv PUSH_CONSTANT v.
Proof.
  unfold code_int. simpl. unfold IntConstant_serialize.
  destruct (v =? 0), (v =? 1); by emit.
Qed.

Lemma code_args_cons st a args : code_args st (a :: args) = code_poly st a ++ code_args st args.
Proof. done. Qed.

Lemma code_poly_var st t v :
  code_poly st (PolyVar t v) =
  match v with
  | Some (LocalVariableReference _ ofs) => opv CREATE_INDIRECT_VAR ofs
  | Some (GlobalVariableReference _ ofs) => opv LOAD_FP_REL ofs
  | None => op1 PUSH_CONSTANT_0
  end.
Proof. unfold code_poly. destruct v as [v|]; simpl; [|done]. rewrite code_ref_eq. by destruct v. Qed.

Lemma code_call_eq st ofs name fn args need :
  code_call st (mkFunctionCall ofs name fn args need) = call_code st ofs fn args need.
Proof.
  unfold code_call. simpl. rewrite FunctionCall_serialize_app; [done|].
  apply Forall_forall. intros a _ out. apply serialize_app.
Qed.

Lemma IfThenElse_blocks_app t e out :
  IfThenElse_blocks t e out = out ++ IfThenElse_blocks t e [].
Proof. unfold IfThenElse_blocks. by emit. Qed.

(** The conditional, spelled out. *)
Lemma if_code_eq cond t e :
  if_code cond t e =
  match e with
  | None => cond ++ opv TEST_JUMP_IF_FALSE (zlen t) ++ t
  | Some e =>
      let t := t ++ opv JUMP (zlen e) in
      cond ++ opv TEST_JUMP_IF_FALSE (zlen t) ++ t ++ e
  end.
Proof.
  unfold if_code, IfThenElse_blocks. destruct e; emit; [done|].
  by rewrite app_nil_r.
Qed.

Lemma register_function_at name is_root out s :
  register_function name is_root out s = register_at name is_root (zlen out) s.
Proof.
  unfold register_function, register_at. destruct is_root; simpl; [|done].
  by destruct (register_symbol _ _ _).
Qed.

(** ** The generator appends the reference code *)

Lemma serialize_fold_app is_root l s out :
  Forall (fun c => forall r s out,
    serialize c r s out = let '(s', code) := compile c r s (zlen out) in (s', out ++ code)) l ->
  fold_left (fun '(s, output) c => serialize c is_root s output) l (s, out) =
  let '(s', code) := compile_seq is_root l s (zlen out) in (s', out ++ code).
Proof.
  intros Hl. revert s out. induction Hl as [|c l Hc _ IH]; intros s out; simpl.
  - by rewrite app_nil_r.
  - rewrite Hc. destruct (compile c is_root s (zlen out)) as [s1 c1].
    rewrite IH, zlen_app.
    destruct (compile_seq is_root l s1 _) as [s2 c2]. by rewrite <- app_assoc.
Qed.

Ltac fold_opv :=
  repeat match goal with
         | |- context [[opcode_byte ?o] ++ varint ?v] =>
             change ([opcode_byte o] ++ varint v) with (opv o v)
         end.

Lemma serialize_compile c r s out :
  serialize c r s out = let '(s', code) := compile c r s (zlen out) in (s', out ++ code).
Proof.
  revert r s out. induction c using Command_ind'; intros root s out; simpl; emit;
    rewrite ?app_nil_r; try done;
    repeat match goal with
           | H : forall r s out, serialize ?c r s out = _ |- context [serialize ?c _ _ _] =>
               rewrite H; change (zlen (@nil Z)) with 0;
               fold_opv; rewrite ?zlen_app;
               let s' := fresh "s" in let code := fresh "code" in
               destruct (compile c _ _ _) as [s' code]
           end.
  - rewrite serialize_fold_app by done.
    change (compile_seq root l s (zlen out)) with
      ((fix compile_seq (l : list Command) (s : SerState) (base : Z) : SerState * list Z :=
           match l with
           | [] => (s, [])
           | c :: l =>
               let '(s, code) := compile c root s base in
               let '(s, codes) := compile_seq l s (base + zlen code) in
               (s, code ++ codes)
           end) l s (zlen out)).
    destruct (_ l s (zlen out)) as [s' code]. by emit.
  - unfold IndirectVarCreate_serialize. by emit.
  - unfold StaticVarCreate_serialize. by emit.
  - by rewrite <- app_assoc.
  - unfold NumericAssignment_serialize. by emit.
  - unfold BooleanAssignment_serialize. by emit.
  - rewrite IfThenElse_blocks_app. unfold if_code. by emit.
  - rewrite IfThenElse_blocks_app. unfold if_code. by emit.
  - rewrite register_function_at. emit. by rewrite zlen_app.
  - unfold PrintString_serialize. by emit.
  - unfold PrintInt_serialize. by emit.
Qed.
