(* ===== verification/Semantics.v ===== *)
(** A reference semantics of the logic language: what a command of [AST.v]
    does to the data of the machine, by recursion on the command, without
    bytecode, instruction pointers or return addresses.

    Expressions return their value.  A value that has to wait for another one
    is held on the operand stack meanwhile, which is visible to the program: a
    call checks the length of the stack, and a reference may point to any slot
    of it. *)

From stdpp Require Import pretty.
From S2P Require Import Prelude Bytecode Variables VMState VM AST.

(** ** Results *)

(** A run returns, is stopped by [terminate()], fails with an error of the
    machine, or crashes.  [Stuck] is a run this semantics gives no meaning to:
    a call of a function that was not compiled before, an operator that is
    none, a call that leaves no result. *)
Inductive sem_result (D A : Type) : Type :=
| Returns (a : A) (d : D)
| Halts (d : D)
| Fails
| Crashes (c : crash)
| Stuck.

Arguments Returns {D A} a d.
Arguments Halts {D A} d.
Arguments Fails {D A}.
Arguments Crashes {D A} c.
Arguments Stuck {D A}.

Definition sem (D A : Type) : Type := D -> sem_result D A.

#[export] Instance sem_ret D : MRet (sem D) := fun A a d => Returns a d.
#[export] Instance sem_bind D : MBind (sem D) := fun A B k m d =>
  match m d with
  | Returns a d => k a d
  | Halts d => Halts d
  | Fails => Fails
  | Crashes c => Crashes c
  | Stuck => Stuck
  end.

(** An operation of the machine; the text of an error is forgotten. *)
Definition of_outcome {D A} (o : outcome D A) : sem_result D A :=
  match o with
  | Done a d => Returns a d
  | Failed _ => Fails
  | Crashed c => Crashes c
  end.

Definition lift {D A} (m : prog D A) : sem D A := fun d => of_outcome (m d).

Definition halt {D A} : sem D A := fun d => Halts d.
Definition stuck {D A} : sem D A := fun _ => Stuck.

Section Semantics.
Context {W H : Type} `{F : !VariableFactory W H}.

Abbreviation VMData := (@VMData W H).
Abbreviation sem := (sem VMData).

(** ** Operations on the stack *)

(** Error texts are forgotten, so their arguments do not matter. *)
Definition pop : sem Z := lift (get_from_stack 0 0 "").
Definition push_value (v : Z) : sem unit := lift (push v).

(** Keep [v] on the stack while [m] runs. *)
Definition hold {A} (v : Z) (m : sem A) : sem (Z * A) :=
  push_value v;; a ← m; v ← pop; mret (v, a).

(** The result slot of a call. *)
Definition take_result : sem Z := fun d =>
  match back (operand_stack_ d) with
  | Some v => Returns v (set_operand_stack (pop_back (operand_stack_ d)) d)
  | None => Stuck
  end.

(** ** Variables *)

Definition fetch (v : VariableReference) : sem Z :=
  match v with
  | LocalVariableReference _ ofs => lift (load_fp_rel ofs)
  | GlobalVariableReference _ ofs =>
      idx ← lift (load_fp_rel ofs); lift (indirect_load 0 idx)
  end.

Definition store (v : VariableReference) (value : Z) : sem unit :=
  match v with
  | LocalVariableReference _ ofs => lift (store_fp_rel ofs value)
  | GlobalVariableReference _ ofs =>
      '(value, idx) ← hold value (lift (load_fp_rel ofs));
      lift (indirect_store 0 idx value)
  end.

(** A reference passed as an argument: an index into the variable stack. *)
Definition take_ref (v : VariableReference) : sem Z :=
  match v with
  | LocalVariableReference _ ofs => lift (create_indirect_var ofs);; take_result
  | GlobalVariableReference _ ofs => lift (load_fp_rel ofs)
  end.

(** ** Operators *)

Definition int_operator (op : OpCode) (l r : Z) : sem Z :=
  match op with
  | NUMERIC_PLUS => lift (numeric_plus l r)
  | NUMERIC_MINUS => lift (numeric_minus l r)
  | NUMERIC_MUL => lift (numeric_mul l r)
  | NUMERIC_DIV => lift (numeric_div l r)
  | NUMERIC_MOD => lift (numeric_mod l r)
  | _ => stuck
  end.

Definition comp_operator (op : OpCode) (l r : Z) : sem Z :=
  match op with
  | NUMERIC_LEQ | NUMERIC_GEQ | NUMERIC_LT | NUMERIC_GT | NUMERIC_EQ | NUMERIC_NEQ =>
      mret (int_comparison op l r)
  | _ => stuck
  end.

Definition bool_operator (op : OpCode) (l r : Z) : sem Z :=
  match op with
  | BOOL_EQ => mret (bool_eq l r)
  | BOOL_NEQ => mret (bool_neq l r)
  | _ => stuck
  end.

(** ** Calls *)

(** Functions that can be called, by name: what their body does. *)
Abbreviation functions := (gmap string (sem unit)).

(** A call with its [num_args] arguments on the stack: a new frame, the body,
    and back to the caller's frame. *)
Definition call (num_args : Z) (body : sem unit) : sem unit := fun d =>
  let fp := u32 (zlen (operand_stack_ d) - num_args) in
  let vp := zlen (variable_stack_ d) in
  (body;; lift (unwind_frame (mkEnv fp vp 0));; lift (modify_state (set_fp (fp_ d))))
    (set_fp fp d).

Section Expressions.
Context (fns : functions).

Fixpoint eval_int (e : IntExpression) : sem Z :=
  match e with
  | IntVariable v => fetch v
  | IntBinaryExpression op l r =>
      a ← eval_int l;
      '(a, b) ← hold a (eval_int r);
      int_operator op a b
  | IntConstant v => mret v
  | IntFunctionCall fc => eval_call fc;; take_result
  end
with eval_bool (e : BooleanExpression) : sem Z :=
  match e with
  | BoolVariable v => fetch v
  | IntComp op l r =>
      a ← eval_int l;
      '(a, b) ← hold a (eval_int r);
      comp_operator op a b
  | BooleanConstant v => mret (b2z v)
  | BoolNot l => a ← eval_bool l; mret (if a =? 0 then 1 else 0)
  | BoolAnd l r => a ← eval_bool l; if a =? 0 then mret a else eval_bool r
  | BoolOr l r => a ← eval_bool l; if a =? 0 then eval_bool r else mret a
  | BoolCmp op l r =>
      a ← eval_bool l;
      '(a, b) ← hold a (eval_bool r);
      bool_operator op a b
  | BoolFunctionCall fc => eval_call fc;; take_result
  end
with eval_call (fc : FunctionCall) : sem unit :=
  match fc with
  | mkFunctionCall stack_ofs _ fn args need_retval =>
      lift (check_stack_length stack_ofs 0);;
      push_value 0;;
      (fix eval_args (args : list PolymorphicExpression) : sem unit :=
         match args with
         | [] => mret tt
         | a :: args => (v ← eval_poly a; push_value v);; eval_args args
         end) args;;
      match fns !! fn with
      | Some body => call (zlen args) body
      | None => stuck
      end;;
      if need_retval then mret tt else lift insn_POP_OP
  end
with eval_poly (a : PolymorphicExpression) : sem Z :=
  match a with
  | PolyBool e => eval_bool e
  | PolyInt e => eval_int e
  | PolyVar _ (Some v) => take_ref v
  | PolyVar _ None | PolyVoid => mret 0
  end.

Definition eval_args : list PolymorphicExpression -> sem unit :=
  fix eval_args args :=
    match args with
    | [] => mret tt
    | a :: args => (v ← eval_poly a; push_value v);; eval_args args
    end.

End Expressions.

(** ** Commands *)

Definition trim (from to_ : Z) : sem unit :=
  if 0 <=? from then
    lift (check_stack_length from 0);;
    if 0 <=? to_ then lift (leave (from - to_) 0) else mret tt
  else mret tt.

Section Commands.
(** The names in the symbol table: a definition with another name has no
    effect on calls. *)
Context (declared : string -> bool).

(** The functions that can be called after a command. *)
Fixpoint define (c : Command) (is_root : bool) (fns : functions) : functions :=
  match c with
  | CommandSequence commands _ _ =>
      fold_left (fun fns c => define c is_root fns) commands fns
  | LocalVarCreate _ _ _ init => define init is_root fns
  | Function name _ _ body =>
      if is_root && declared name then <[name := exec body false fns]> fns else fns
  | _ => fns
  end
with exec (c : Command) (is_root : bool) (fns : functions) : sem unit :=
  match c with
  | EmptyCommand => mret tt
  | CommandSequence commands from to_ =>
      (fix exec_seq (l : list Command) (fns : functions) : sem unit :=
         match l with
         | [] => mret tt
         | c :: l => exec c is_root fns;; exec_seq l (define c is_root fns)
         end) commands fns;;
      trim from to_
  | IndirectVarCreate guid arg _ _ _ _ => lift (import_var arg guid)
  | StaticVarCreate guid _ _ fp_offset init =>
      lift (create_static_var guid);;
      created ← pop;
      if created =? 0 then mret tt
      else
        exec init false fns;;
        idx ← lift (load_fp_rel fp_offset);
        value ← pop;
        lift (indirect_store 0 idx value)
  | LocalVarCreate _ _ fp_offset init =>
      lift (check_stack_length fp_offset 0);;
      exec init is_root fns
  | NumericAssignment v e => value ← eval_int fns e; store v value
  | BooleanAssignment v e =>
      value ← eval_bool fns e;
      store v (if value =? 0 then 0 else 1)
  | IfThenElse cond then_case else_case =>
      b ← eval_bool fns cond;
      if b =? 0
      then match else_case with Some e => exec e false fns | None => mret tt end
      else exec then_case false fns
  | Function _ _ _ _ => mret tt
  | FunctionCallCmd fc => eval_call fns fc
  | PrintString txt =>
      lift (modify_state (set_string_acc txt));;
      lift (print_output txt)
  | PrintInt e => v ← eval_int fns e; lift (print_output (pretty v))
  | Terminate => halt
  | IntCmd e => v ← eval_int fns e; push_value v
  | BoolCmd e => v ← eval_bool fns e; push_value v
  end.

End Commands.
End Semantics.
