(* ===== verification/Simulation.v ===== *)
(** Running code: the steps of [VM::execute] (src/cs/logic/VM.cxx) as a
    relation, what it means that the machine simulates a run of the reference
    semantics, and one lemma per group of instructions. *)

From S2P Require Import Prelude Bytecode Variables VMState VM AST Codegen Semantics.

(** ** Control *)

Definition adv_c (n : Z) (c : VMControl) : VMControl := set_ip (ip_ c + n) c.

(** The instruction pointer is at the start of [l]. *)
Definition code_at (c : VMControl) (l : list Z) : Prop :=
  exists C1 C3, code_ c = Some (C1 ++ l ++ C3) /\ ip_ c = zlen C1.

Section Simulation.
Context {W H : Type} `{F : !VariableFactory W H}.

Abbreviation VMData := (@VMData W H).
Abbreviation VM := (@VM W H).
Abbreviation sem := (sem VMData).
Implicit Types (d : VMData) (c : VMControl) (s : VM).

Definition pushv (v : Z) d : VMData :=
  set_operand_stack (push_back (operand_stack_ d) v) d.

(** [s] runs as the result [r] of the semantics says; [post] relates the value
    and data of a run that returns to the state the machine is in then. *)
Definition sim {A} (r : sem_result VMData A) (s : VM) (post : A -> VMData -> VM -> Prop)
    : Prop :=
  match r with
  | Returns a d => exists s', steps s s' /\ post a d s'
  | Halts d => exists s1 s2, steps s s1 /\ at_eof s1 = Done false s1
                 /\ step s1 = Done false s2 /\ data s2 = d
  | Fails => exists s1 s2, steps s s1 /\ at_eof s1 = Done false s1 /\ step s1 = Failed s2
  | Crashes k => exists s1, steps s s1 /\ at_eof s1 = Done false s1 /\ step s1 = Crashed k
  | Stuck => True
  end.

(** The two usual postconditions: control at [c], and the value on the stack. *)
Definition plain {A} (c : VMControl) : A -> VMData -> VM -> Prop :=
  fun _ d s => s = mkVM d c.
Definition pushed (c : VMControl) : Z -> VMData -> VM -> Prop :=
  fun v d s => s = mkVM (pushv v d) c.

(** ** What running code does not change *)

Definition same_frame d d' : Prop := fp_ d' = fp_ d /\ blocks_ d' = blocks_ d.

Class Keeps {A} (m : sem A) : Prop :=
  keeps : forall d a d', m d = Returns a d' -> same_frame d d'.

Class KeepsP {A} (m : prog VMData A) : Prop :=
  keepsP : forall d a d', m d = Done a d' -> same_frame d d'.

(** Block [b] with code [C] is running, in the frame on top of the call
    stack. *)
Record running (b : Z) (C : list Z) (c : VMControl) d : Prop := {
  run_code : code_ c = Some C;
  run_block : ip_block_num_ c = b;
  run_block_range : 0 <= b < 2 ^ 8;
  run_size : zlen C < 2 ^ 16;
  run_blocks : znth (blocks_ d) b = Some C;
  run_frame : exists env, back (call_stack_ c) = Some env /\ env_fp env = fp_ d
}.

(** ** Lemmas on control *)

Lemma adv_c_0 c : adv_c 0 c = c.
Proof. unfold adv_c, set_ip. rewrite Z.add_0_r. by destruct c. Qed.

Lemma adv_c_add n m c : adv_c n (adv_c m c) = adv_c (m + n) c.
Proof. unfold adv_c, set_ip. simpl. f_equal. lia. Qed.

Lemma adv_c_app (l1 l2 : list Z) c :
  adv_c (zlen (l1 ++ l2)) c = adv_c (zlen l2) (adv_c (zlen l1) c).
Proof. by rewrite adv_c_add, zlen_app. Qed.

Lemma code_at_app_l c l1 l2 : code_at c (l1 ++ l2) -> code_at c l1.
Proof.
  intros (C1 & C3 & Hc & Hi). exists C1, (l2 ++ C3). by rewrite Hc, <- !app_assoc.
Qed.

Lemma code_at_adv c l1 l2 : code_at c (l1 ++ l2) -> code_at (adv_c (zlen l1) c) l2.
Proof.
  intros (C1 & C3 & Hc & Hi). exists (C1 ++ l1), C3. simpl. split.
  - by rewrite Hc, <- !app_assoc.
  - rewrite Hi. by autorewrite with zlen.
Qed.

Lemma code_at_bounds c l C :
  code_at c l -> code_ c = Some C -> 0 <= ip_ c /\ ip_ c + zlen l <= zlen C.
Proof.
  intros (C1 & C3 & Hc & ->) HC. rewrite HC in Hc. injection Hc as ->.
  autorewrite with zlen. pose proof (zlen_nonneg C1). pose proof (zlen_nonneg C3). lia.
Qed.

Lemma running_adv b C c d n : running b C c d -> running b C (adv_c n c) d.
Proof. by intros []. Qed.

Lemma running_same b C c d d' : running b C c d -> same_frame d d' -> running b C c d'.
Proof. intros [] [Hf Hb]. split; try done; by rewrite ?Hf, ?Hb. Qed.

Lemma running_int32 b C c d l : running b C c d -> code_at c l -> is_int32 (zlen l).
Proof.
  intros [] Hc. eapply code_at_bounds in Hc; [|done].
  pose proof (zlen_nonneg l). unfold is_int32, INT_MIN, INT_MAX. lia.
Qed.

(** ** Lemmas on steps and simulations *)

Lemma steps_trans s1 s2 s3 : steps s1 s2 -> steps s2 s3 -> steps s1 s3.
Proof. induction 1; intros; [done|]. econstructor; eauto. Qed.

Lemma steps_execute s s' :
  steps s s' -> exists n, forall fuel, execute (n + fuel) s = execute fuel s'.
Proof.
  induction 1 as [s|s1 s2 s3 He Hs _ [n IH]]; [by exists 0%nat|].
  exists (S n). intros fuel. simpl. by rewrite He, Hs.
Qed.

Lemma sim_steps {A} (r : sem_result VMData A) s s' post :
  steps s s' -> sim r s' post -> sim r s post.
Proof.
  intros Hs. destruct r; simpl; [| | |  |done].
  - intros (s1 & ? & ?). eauto using steps_trans.
  - intros (s1 & s2 & ? & ?). eauto 6 using steps_trans.
  - intros (s1 & s2 & ? & ?). eauto 6 using steps_trans.
  - intros (s1 & ? & ?). eauto 6 using steps_trans.
Qed.

Lemma sim_bind {A B} (m : sem A) (k : A -> sem B) d s P Q :
  sim (m d) s P ->
  (forall a d' s', m d = Returns a d' -> P a d' s' -> sim (k a d') s' Q) ->
  sim ((m ≫= k) d) s Q.
Proof.
  unfold mbind, sem_bind. intros Hm Hk.
  destruct (m d) as [a d'| | | |] eqn:E; try done.
  destruct Hm as (s' & Hs & HP). eapply sim_steps; [done|]. by apply Hk.
Qed.

Lemma sim_weaken {A} (r : sem_result VMData A) s (P Q : A -> VMData -> VM -> Prop) :
  (forall a d s, P a d s -> Q a d s) -> sim r s P -> sim r s Q.
Proof. intros HPQ. destruct r; simpl; try done. intros (s' & ? & ?). eauto. Qed.

Lemma sim_ret {A} (a : A) d s (post : A -> VMData -> VM -> Prop) :
  post a d s -> sim (Returns a d) s post.
Proof. intros ?. exists s. split; [constructor|done]. Qed.

(** One instruction. *)
Lemma sim_instr {A} op l s (r : sem_result VMData A) post :
  at_code s (opcode_byte op :: l) -> op <> TERMINATE ->
  match exec_opcode op (opcode_byte op) (adv 1 s) with
  | Done _ s' => sim r s' post
  | Failed _ => r = Fails \/ r = Stuck
  | Crashed k => r = Crashes k \/ r = Stuck
  end ->
  sim r s post.
Proof.
  intros Hc Hop Hr.
  assert (Hs : step s = (exec_opcode op (opcode_byte op);; mret true) (adv 1 s)).
  { unfold step, mbind at 1, prog_bind at 1. rewrite (fetch_at _ _ _ Hc).
    rewrite opcode_of_byte_opcode. by destruct op. }
  pose proof (at_eof_at _ _ _ Hc) as He.
  unfold mbind, prog_bind in Hs.
  destruct (exec_opcode _ _ _) as [[] s'|s'|k] eqn:E.
  - eapply sim_steps; [|exact Hr]. by econstructor; [..|constructor].
  - destruct Hr as [-> | ->]; [|done]. exists s, s'. repeat split; [constructor|done..].
  - destruct Hr as [-> | ->]; [|done]. exists s. repeat split; [constructor|done..].
Qed.

Lemma sim_halt d c {A} (post : A -> VMData -> VM -> Prop) :
  code_at c (op1 TERMINATE) -> sim (Halts d) (mkVM d c) post.
Proof.
  intros Hc. exists (mkVM d c), (mkVM d (adv_c 1 c)).
  split; [constructor|]. split; [exact (at_eof_at (mkVM d c) _ [] Hc)|]. split; [|done].
  unfold step, mbind, prog_bind. by rewrite (fetch_at (mkVM d c) _ [] Hc).
Qed.

(** A value that is pushed at the end. *)
Lemma sim_pushed (m : sem Z) d s c :
  sim ((m ≫= push_value) d) s (plain c) -> sim (m d) s (pushed c).
Proof.
  unfold mbind, sem_bind. destruct (m d); try done.
Qed.

Lemma of_outcome_bind {A B} (m : prog VMData A) (k : A -> prog VMData B) d :
  of_outcome ((m ≫= k) d) = (lift m ≫= fun a => lift (k a)) d.
Proof. unfold mbind, prog_bind, sem_bind, lift. by destruct (m d). Qed.

(** ** Instructions on data *)

Lemma sim_op1 op (m : Z -> prog VMData unit) (r : sem_result VMData unit) c d :
  exec_opcode op (opcode_byte op) = on_data m -> op <> TERMINATE ->
  (forall ip, of_outcome (m ip d) = r) ->
  code_at c (op1 op) ->
  sim r (mkVM d c) (plain (adv_c (zlen (op1 op)) c)).
Proof.
  intros Hop Hne Hr Hc. eapply sim_instr; [exact Hc|done|]. rewrite Hop.
  unfold on_data. rewrite <- (Hr (get_ip (adv 1 (mkVM d c)))). simpl.
  destruct (m _ d) as [[] d'| |] ; simpl; [|by left..].
  by apply sim_ret.
Qed.

Lemma parse_varint_c v l d c :
  is_int32 v -> code_at c (varint v ++ l) ->
  parse_varint (mkVM d c) = Done v (mkVM d (adv_c (zlen (varint v)) c)).
Proof. intros Hv Hc. by apply (parse_varint_at v l (mkVM d c)). Qed.

Lemma sim_opv op v (m : Z -> Z -> prog VMData unit) (r : sem_result VMData unit) c d :
  exec_opcode op (opcode_byte op) = (v ← parse_varint; on_data (m v)) -> op <> TERMINATE ->
  is_int32 v ->
  (forall ip, of_outcome (m v ip d) = r) ->
  code_at c (opv op v) ->
  sim r (mkVM d c) (plain (adv_c (zlen (opv op v)) c)).
Proof.
  intros Hop Hne Hv Hr Hc. eapply sim_instr; [exact Hc|done|]. rewrite Hop.
  apply (code_at_adv _ [_]) in Hc. change (zlen [opcode_byte op]) with 1 in Hc. rewrite <- (app_nil_r (varint v)) in Hc.
  unfold mbind, prog_bind. change (adv 1 (mkVM d c)) with (mkVM d (adv_c 1 c)).
  rewrite (parse_varint_c v [] d _ Hv Hc), adv_c_add.
  unfold on_data. rewrite <- (Hr (get_ip (mkVM d (adv_c (1 + zlen (varint v)) c)))). simpl.
  destruct (m v _ d) as [[] d'| |] ; simpl; [|by left..].
  apply sim_ret. unfold plain, opv. by rewrite zlen_cons.
Qed.

(** ** Jumps *)

Lemma block_ip b ofs :
  0 <= b < 2 ^ 8 -> 0 <= ofs < 2 ^ 16 ->
  let ip := b * 2 ^ 16 + ofs in
  Z.lor (Z.shiftl b BLOCK_CODE_IP_SHIFT) ofs = ip /\ u32 ip = ip /\
  Z.shiftr ip BLOCK_CODE_IP_SHIFT = b /\
  Z.land ip (Z.shiftl 1 BLOCK_CODE_IP_SHIFT - 1) = ofs.
Proof.
  intros Hb Ho ip. unfold BLOCK_CODE_IP_SHIFT. repeat split.
  - rewrite Z.shiftl_mul_pow2 by lia. rewrite <- Z.lxor_lor, <- Z.add_nocarry_lxor; try done.
    all: apply Z.bits_inj'; intros i Hi; rewrite Z.land_spec, Z.bits_0;
      destruct (Z.le_gt_cases 16 i);
      [ rewrite (testbit_nonneg_high ofs 16) by lia; apply andb_false_r
      | rewrite Z.mul_pow2_bits_low by lia; done ].
  - apply u32_small. unfold is_uint32. lia.
  - rewrite Z.shiftr_div_pow2 by lia. unfold ip.
    rewrite Z.add_comm, Z.div_add, Z.div_small by lia. lia.
  - change (Z.shiftl 1 16 - 1) with (Z.ones 16). rewrite Z.land_ones by lia. unfold ip.
    rewrite Z.add_comm, Z.mod_add, Z.mod_small by lia. lia.
Qed.

Lemma get_ip_running b C c d :
  running b C c d -> 0 <= ip_ c < 2 ^ 16 -> get_ip (mkVM d c) = b * 2 ^ 16 + ip_ c.
Proof.
  intros [] Hi. unfold get_ip. simpl. rewrite run_block0.
  destruct (block_ip b (ip_ c)) as (-> & -> & _); done.
Qed.

Lemma jump_running b C c d ofs :
  running b C c d -> 0 <= ofs <= zlen C ->
  jump (b * 2 ^ 16 + ofs) (mkVM d c) = Done true (mkVM d (set_ip ofs c)).
Proof.
  intros [] Ho. unfold jump.
  destruct (block_ip b ofs) as (_ & _ & -> & ->); [lia..|]. simpl.
  rewrite run_blocks0. destruct (Z.ltb_spec (zlen C) ofs); [lia|].
  rewrite u8_small by (unfold is_uint8; lia). unfold set_ctl, set_ip.
  by rewrite run_code0, run_block0.
Qed.

(** [JUMP] over [l]. *)
Lemma sim_JUMP b C c d l :
  running b C c d -> code_at c (opv JUMP (zlen l) ++ l) ->
  sim (Returns tt d) (mkVM d c) (plain (adv_c (zlen (opv JUMP (zlen l) ++ l)) c)).
Proof.
  intros Hr Hc. pose proof Hc as Hl.
  apply (code_at_adv _ (opv JUMP (zlen l))) in Hl.
  assert (Hv : is_int32 (zlen l)) by (eapply running_int32; [apply running_adv, Hr|exact Hl]).
  assert (Hr' := running_adv _ _ _ _ (zlen (opv JUMP (zlen l))) Hr).
  pose proof (code_at_bounds _ _ _ Hl (run_code _ _ _ _ Hr')) as [Hb1 Hb2].
  pose proof (run_size _ _ _ _ Hr). pose proof (zlen_nonneg l).
  eapply sim_instr; [exact Hc|done|].
  apply (code_at_adv _ [_]) in Hc. change (zlen [opcode_byte JUMP]) with 1 in Hc.
  simpl exec_opcode. unfold insn_JUMP, mbind, prog_bind, get_state.
  change (adv 1 (mkVM d c)) with (mkVM d (adv_c 1 c)).
  rewrite (parse_varint_c _ _ _ _ Hv Hc), adv_c_add.
  change (1 + zlen (varint (zlen l))) with (zlen [opcode_byte JUMP] + zlen (varint (zlen l))).
  rewrite <- zlen_app. change ([opcode_byte JUMP] ++ varint (zlen l)) with (opv JUMP (zlen l)).
  rewrite (get_ip_running _ _ _ _ Hr') by lia.
  rewrite u32_small by (pose proof (run_block_range _ _ _ _ Hr); unfold is_uint32; lia).
  rewrite <- Z.add_assoc, (jump_running _ _ _ _ _ Hr') by lia.
  apply sim_ret. unfold plain, adv_c, set_ip. rewrite zlen_app. cbn. do 2 f_equal. lia.
Qed.

(** A conditional jump over [l], taken when [taken v]. *)
Lemma sim_test_jump op name (taken : Z -> bool) c d v n :
  exec_opcode op (opcode_byte op) =
    (r ← parse_varint;
     arg ← on_data (fun ip => get_from_stack ip (opcode_byte op) name);
     if taken arg then advance_ip r else mret tt) ->
  op <> TERMINATE -> is_int32 n -> code_at c (opv op n) ->
  sim (Returns tt d) (mkVM (pushv v d) c)
    (plain (adv_c (zlen (opv op n) + if taken v then n else 0) c)).
Proof.
  intros Hop Hne Hn Hc. eapply sim_instr; [exact Hc|done|]. rewrite Hop.
  apply (code_at_adv _ [_]) in Hc. change (zlen [opcode_byte op]) with 1 in Hc.
  rewrite <- (app_nil_r (varint n)) in Hc.
  unfold mbind, prog_bind. change (adv 1 (mkVM (pushv v d) c)) with (mkVM (pushv v d) (adv_c 1 c)).
  rewrite (parse_varint_c _ _ _ _ Hn Hc), adv_c_add.
  change (1 + zlen (varint n)) with (zlen [opcode_byte op] + zlen (varint n)).
  rewrite <- zlen_app. change ([opcode_byte op] ++ varint n) with (opv op n).
  unfold on_data, get_from_stack. cbn [data pushv set_operand_stack operand_stack_].
  rewrite back_push, pop_push.
  replace (set_data _ _) with (mkVM d (adv_c (zlen (opv op n)) c)) by (by destruct d).
  destruct (taken v).
  - apply sim_ret. unfold plain. change (set_ctl _ _) with (mkVM d (adv_c n (adv_c (zlen (opv op n)) c))).
    by rewrite adv_c_add.
  - apply sim_ret. unfold plain. by rewrite Z.add_0_r.
Qed.

(** ** Stores and strings *)

Lemma sim_STORE_FP_REL c d v ofs :
  is_int32 ofs -> code_at c (opv STORE_FP_REL ofs) ->
  sim (lift (store_fp_rel ofs v) d) (mkVM (pushv v d) c)
    (plain (adv_c (zlen (opv STORE_FP_REL ofs)) c)).
Proof.
  intros Ho Hc. eapply sim_instr; [exact Hc|done|].
  apply (code_at_adv _ [_]) in Hc. change (zlen [opcode_byte STORE_FP_REL]) with 1 in Hc.
  rewrite <- (app_nil_r (varint ofs)) in Hc.
  cbn [exec_opcode]. unfold insn_STORE_FP_REL, mbind, prog_bind.
  unfold on_data at 1, get_from_stack. cbn [data adv set_ctl pushv set_operand_stack operand_stack_].
  rewrite back_push, pop_push.
  replace (set_data _ _) with (mkVM d (adv_c 1 c)) by (by destruct d).
  rewrite (parse_varint_c _ _ _ _ Ho Hc), adv_c_add. unfold on_data, lift. cbn [data].
  destruct (store_fp_rel ofs v d) as [[] d'| |]; cbn; [|by left..].
  apply sim_ret. unfold plain, set_data, opv. by rewrite zlen_cons.
Qed.

Lemma sim_LOAD_STRING b C c d txt :
  let bytes := bytes_of_string txt in
  running b C c d -> code_at c (opv LOAD_STRING (zlen bytes) ++ bytes) ->
  sim (Returns tt (set_string_acc txt d)) (mkVM d c)
    (plain (adv_c (zlen (opv LOAD_STRING (zlen bytes) ++ bytes)) c)).
Proof.
  intros bytes Hr Hc. pose proof Hc as Hl.
  apply (code_at_adv _ (opv LOAD_STRING (zlen bytes))) in Hl.
  assert (Hv : is_int32 (zlen bytes)) by (eapply running_int32; [apply running_adv, Hr|exact Hl]).
  eapply sim_instr; [exact Hc|done|].
  apply (code_at_adv _ [_]) in Hc. change (zlen [opcode_byte LOAD_STRING]) with 1 in Hc.
  cbn [exec_opcode]. unfold parse_string, mbind, prog_bind, on_data at 1, modify_state.
  change (set_data _ _) with (mkVM (set_string_acc "" d) (adv_c 1 c)).
  rewrite (parse_varint_c _ _ _ _ Hv Hc), adv_c_add.
  change (1 + zlen (varint (zlen bytes)))
    with (zlen [opcode_byte LOAD_STRING] + zlen (varint (zlen bytes))).
  rewrite <- zlen_app.
  change ([opcode_byte LOAD_STRING] ++ varint (zlen bytes)) with (opv LOAD_STRING (zlen bytes)).
  set (c' := adv_c (zlen (opv LOAD_STRING (zlen bytes))) c) in *.
  destruct Hl as (C1 & C3 & HC & Hi). unfold get_state. cbn [ctl]. rewrite HC, Hi.
  autorewrite with zlen. pose proof (zlen_nonneg C3). pose proof (zlen_nonneg bytes).
  destruct (Z.ltb_spec (zlen C1 + (zlen bytes + zlen C3)) (zlen C1 + zlen bytes)); [lia|].
  destruct (Z.ltb_spec (zlen bytes) 0); [lia|].
  unfold zlen at 1 2. rewrite !Nat2Z.id, drop_app_length, take_app_length.
  unfold bytes at 1. rewrite bytes_string_roundtrip. cbn.
  apply sim_ret. unfold plain. by rewrite <- adv_c_add.
Qed.

End Simulation.
