(* ===== verification/CallSim.v ===== *)
(** Calls: the instructions [CALL] and [RET] of [VM::execute]
    (src/cs/logic/VM.cxx) around the body of a function, and the facts about
    the reference semantics that calls rely on: running a piece of program
    leaves the frame pointer and the code blocks as they were. *)

From S2P Require Import Prelude Bytecode Variables VMState VM AST Codegen Semantics Simulation.

Section Calls.
Context {W H : Type} `{F : !VariableFactory W H}.

Abbreviation VMData := (@VMData W H).
Abbreviation VM := (@VM W H).
Abbreviation sem := (sem VMData).
Abbreviation functions := (gmap string (sem unit)).
Implicit Types (d : VMData) (c : VMControl) (s : VM).

(** The function body [body] is at offset [dst] of block 0, whose code is
    [C]: it runs to its [RET] instruction. *)
Definition callee (C : list Z) (dst : Z) (body : sem unit) : Prop :=
  Keeps body /\ 0 <= dst <= zlen C /\
  forall c d, running 0 C c d -> ip_ c = dst ->
    sim (body d) (mkVM d c) (fun _ d' s' =>
      exists n, s' = mkVM d' (adv_c n c) /\ code_at (adv_c n c) (op1 RET)).

(** Every function that can be called is in block 0, which is running, where
    the symbol table says. *)
Definition callable (st : SymbolTable) (fns : functions) (b : Z) (C : list Z) : Prop :=
  forall fn body, fns !! fn = Some body -> b = 0 /\ callee C (fn_address st fn) body.

(** ** Running keeps the frame *)

Lemma same_frame_refl d : same_frame d d.
Proof. done. Qed.

Lemma same_frame_trans d1 d2 d3 : same_frame d1 d2 -> same_frame d2 d3 -> same_frame d1 d3.
Proof. intros [H1 H2] [H3 H4]. split; congruence. Qed.

#[global] Instance keeps_ret {A} (a : A) : Keeps (mret (M := sem) a).
Proof. unfold mret, sem_ret. intros d a' d' E. by simplify_eq. Qed.

#[global] Instance keeps_bind {A B} (m : sem A) (k : A -> sem B) :
  Keeps m -> (forall a, Keeps (k a)) -> Keeps (m ≫= k).
Proof.
  intros Hm Hk d b d'. unfold mbind, sem_bind. destruct (m d) eqn:E; try done.
  intros E'. eapply same_frame_trans; [by eapply Hm|by eapply Hk].
Qed.

#[global] Instance keeps_stuck {A} : Keeps (stuck (D := VMData) (A := A)).
Proof. done. Qed.
#[global] Instance keeps_halt {A} : Keeps (halt (D := VMData) (A := A)).
Proof. done. Qed.

#[global] Instance keeps_lift {A} (m : prog VMData A) : KeepsP m -> Keeps (lift m).
Proof. intros Hm d a d'. unfold lift. destruct (m d) eqn:E; simpl; intros ?; simplify_eq. eauto. Qed.

#[global] Instance keepsP_ret {A} (a : A) : KeepsP (mret (M := prog VMData) a).
Proof. unfold mret, prog_ret. intros d a' d' E. by simplify_eq. Qed.

#[global] Instance keepsP_bind {A B} (m : prog VMData A) (k : A -> prog VMData B) :
  KeepsP m -> (forall a, KeepsP (k a)) -> KeepsP (m ≫= k).
Proof.
  intros Hm Hk d b d'. unfold mbind, prog_bind. destruct (m d) eqn:E; try done.
  intros E'. eapply same_frame_trans; [by eapply Hm|by eapply Hk].
Qed.

Ltac keeps_prim :=
  intros ?d ?a ?d'; unfold mret, prog_ret; cbv beta delta [push get_from_stack resize_operand_stack load_fp_rel
    store_fp_rel check_stack_length leave insn_POP_OP unwind_frame print_output push_variable
    install_variable access_error check_access modify_state fail_data crashing int_result
    numeric_plus numeric_minus numeric_mul];
  cbv beta zeta; repeat (case_match; cbv beta); intros; simplify_eq; try done.

#[global] Instance keepsP_push v : KeepsP (push (W := W) (H := H) v).
Proof. keeps_prim. Qed.
#[global] Instance keepsP_get ip i n : KeepsP (get_from_stack (W := W) (H := H) ip i n).
Proof. keeps_prim. Qed.
#[global] Instance keepsP_resize n : KeepsP (resize_operand_stack (W := W) (H := H) n).
Proof. keeps_prim. Qed.
#[global] Instance keepsP_load ofs : KeepsP (load_fp_rel (W := W) (H := H) ofs).
Proof. keeps_prim. Qed.
#[global] Instance keepsP_store ofs v : KeepsP (store_fp_rel (W := W) (H := H) ofs v).
Proof. keeps_prim. Qed.
#[global] Instance keepsP_check r ip : KeepsP (check_stack_length (W := W) (H := H) r ip).
Proof. keeps_prim. Qed.
#[global] Instance keepsP_leave r ip : KeepsP (leave (W := W) (H := H) r ip).
Proof. keeps_prim. Qed.
#[global] Instance keepsP_pop_op : KeepsP (insn_POP_OP (W := W) (H := H)).
Proof. keeps_prim. Qed.
#[global] Instance keepsP_print t : KeepsP (print_output (W := W) (H := H) t).
Proof. keeps_prim. Qed.
#[global] Instance keepsP_push_variable r : KeepsP (push_variable (W := W) (H := H) r).
Proof. keeps_prim. Qed.
#[global] Instance keepsP_install g o : KeepsP (install_variable (W := W) (H := H) g o).
Proof. keeps_prim. Qed.
#[global] Instance keepsP_access_error ip : KeepsP (access_error (W := W) (H := H) ip).
Proof. keeps_prim. Qed.
#[global] Instance keepsP_check_access : KeepsP (check_access (W := W) (H := H)).
Proof. keeps_prim. Qed.
#[global] Instance keepsP_string t : KeepsP (modify_state (set_string_acc (W := W) (H := H) t)).
Proof. keeps_prim. Qed.
#[global] Instance keepsP_int_result z : KeepsP (int_result (S := VMData) z).
Proof. unfold int_result. destruct (decide _); [apply _|done]. Qed.
#[global] Instance keepsP_div l r : KeepsP (numeric_div (W := W) (H := H) l r).
Proof. unfold numeric_div. destruct (r =? 0); [done|apply _]. Qed.
#[global] Instance keepsP_mod l r : KeepsP (numeric_mod (W := W) (H := H) l r).
Proof. unfold numeric_mod. destruct (r =? 0); [done|apply _]. Qed.

(** An operation chosen by the state it starts in. *)
Lemma keepsP_intro {A} (m : prog VMData A) d a d' :
  KeepsP m -> m d = Done a d' -> same_frame d d'.
Proof. intros Hm. apply Hm. Qed.

(** An operation that starts by changing a member that is not of the frame. *)
Lemma keepsP_after {A} (m : prog VMData A) d d0 a d' :
  same_frame d d0 -> KeepsP m -> m d0 = Done a d' -> same_frame d d'.
Proof. intros Hf Hm E. eapply same_frame_trans; [done|by eapply Hm]. Qed.

Ltac keeps_here := apply keepsP_intro; apply _.

#[global] Instance keepsP_read ip ref : KeepsP (variable_read (W := W) (H := H) ip ref).
Proof.
  intros d a d'. unfold variable_read, VMAbsoluteVariable_read.
  destruct (ref_var ref) as [|l].
  - destruct (znth _ _); [intros; by simplify_eq|keeps_here].
  - destruct (heap_ d !! l) as [[v|h]|]; try done; [intros; by simplify_eq|].
    destruct (var_read _ _ _) as [[val err] w].
    apply keepsP_after; [done|]. destruct err; apply _.
Qed.

#[global] Instance keepsP_write ip ref v : KeepsP (variable_write (W := W) (H := H) ip ref v).
Proof.
  intros d a d'. unfold variable_write, VMAbsoluteVariable_write.
  destruct (ref_var ref) as [|l].
  - destruct (_ <=? _); [keeps_here|intros; by simplify_eq].
  - destruct (heap_ d !! l) as [[x|h]|]; try done; [intros; by simplify_eq|].
    destruct (var_write _ _ _ _) as [err w].
    apply keepsP_after; [done|]. destruct err; apply _.
Qed.

#[global] Instance keepsP_indirect_load ip i : KeepsP (indirect_load (W := W) (H := H) ip i).
Proof. intros d a d'. unfold indirect_load. destruct (znth _ _); [keeps_here|done]. Qed.

#[global] Instance keepsP_indirect_store ip i v :
  KeepsP (indirect_store (W := W) (H := H) ip i v).
Proof. intros d a d'. unfold indirect_store. destruct (znth _ _); [keeps_here|done]. Qed.

#[global] Instance keepsP_import a g : KeepsP (import_var (W := W) (H := H) a g).
Proof. intros d x d'. unfold import_var. destruct (_ !! _); [keeps_here|done]. Qed.

#[global] Instance keepsP_indirect_var ofs : KeepsP (create_indirect_var (W := W) (H := H) ofs).
Proof. intros d x d'. unfold create_indirect_var. keeps_here. Qed.

#[global] Instance keepsP_static_var g : KeepsP (create_static_var (W := W) (H := H) g).
Proof. intros d x d'. unfold create_static_var. destruct (_ !! _); keeps_here. Qed.

#[global] Instance keeps_pop : Keeps (pop (W := W) (H := H)).
Proof. unfold pop. apply _. Qed.
#[global] Instance keeps_push v : Keeps (push_value (W := W) (H := H) v).
Proof. unfold push_value. apply _. Qed.
#[global] Instance keeps_hold {A} v (m : sem A) : Keeps m -> Keeps (hold v m).
Proof. unfold hold. apply _. Qed.
#[global] Instance keeps_take_result : Keeps (take_result (W := W) (H := H)).
Proof. intros d a d'. unfold take_result. case_match; intros; by simplify_eq. Qed.

#[global] Instance keepsP_unwind env : KeepsP (unwind_frame (W := W) (H := H) env).
Proof. keeps_prim. Qed.

#[global] Instance keeps_call n body : Keeps body -> Keeps (call (W := W) (H := H) n body).
Proof.
  intros Hb d a d'. unfold call, mbind, sem_bind.
  destruct (body _) as [[] d1| | | |] eqn:E1; try done.
  destruct (lift (unwind_frame _) d1) as [[] d2| | | |] eqn:E2; try done.
  unfold lift, modify_state. cbn. intros E. injection E as _ <-. apply Hb in E1 as [_ Hb1].
  apply keeps in E2 as [_ Hb2].
  split; [done|]. simpl. by rewrite Hb2, Hb1.
Qed.

(** ** The instructions *)

Lemma back_push_back_pop {A} (l : list A) x : back (pop_back (push_back l x)) = back l.
Proof. by rewrite pop_push. Qed.

(** [CALL] enters a new frame at the address on the stack. *)
Lemma sim_CALL C c d dst n (r : sem_result VMData unit) post :
  let fp := u32 (zlen (operand_stack_ d) - n) in
  running 0 C c d -> code_at c (opv CALL n) -> is_int32 n -> 0 <= dst <= zlen C ->
  (forall env, env_fp env = fp -> env_vp env = zlen (variable_stack_ d) ->
     return_address env = ip_ (adv_c (zlen (opv CALL n)) c) ->
     sim r (mkVM (set_fp fp d) (mkControl (Some C) dst 0 (push_back (call_stack_ c) env))) post) ->
  sim r (mkVM (pushv dst d) c) post.
Proof.
  intros fp Hr Hc Hn Hdst Hk.
  pose proof (run_size _ _ _ _ Hr) as Hsize.
  eapply sim_instr; [exact Hc|done|].
  pose proof (code_at_bounds _ _ _ Hc (run_code _ _ _ _ Hr)) as Hip.
  apply (code_at_adv _ [_]) in Hc. change (zlen [opcode_byte CALL]) with 1 in Hc.
  rewrite <- (app_nil_r (varint n)) in Hc.
  cbn [exec_opcode]. unfold insn_CALL, mbind, prog_bind, get_state.
  cbn [adv set_ctl set_ip ctl call_stack_ data pushv set_operand_stack fp_].
  destruct (run_frame _ _ _ _ Hr) as (top & -> & Htop). rewrite Htop, Z.eqb_refl.
  unfold on_data at 1, get_from_stack. cbn [negb adv set_ctl ctl data pushv operand_stack_ set_operand_stack].
  rewrite back_push, pop_push.
  replace (set_data _ _) with (mkVM d (adv_c 1 c)) by (by destruct d).
  rewrite (parse_varint_c _ _ _ _ Hn Hc), adv_c_add.
  change (1 + zlen (varint n)) with (zlen [opcode_byte CALL] + zlen (varint n)).
  rewrite <- zlen_app. change ([opcode_byte CALL] ++ varint n) with (opv CALL n).
  cbn [data]. fold fp. unfold put_state, on_data, modify_state.
  set (c1 := adv_c (zlen (opv CALL n)) c) in *.
  assert (Hr1 : running 0 C c1 d) by (by apply running_adv).
  assert (Hip1 : 0 <= ip_ c1 < 2 ^ 16).
  { unfold c1. simpl. pose proof (zlen_nonneg (opv CALL n)). lia. }
  rewrite (get_ip_running _ _ _ _ Hr1 Hip1). cbn [data ctl set_ctl set_data].
  set (env := mkEnv _ _ _). set (c2 := set_call_stack _ _).
  assert (Hr2 : jump (0 * 2 ^ 16 + dst) (mkVM (set_fp fp d) c2)
                = Done true (mkVM (set_fp fp d) (set_ip dst c2))).
  { eapply (jump_running 0 C); [|done]. destruct Hr1. split; try done.
    exists env. by rewrite <- (back_push (call_stack_ c1) env). }
  rewrite u32_small by (unfold is_uint32; lia).
  rewrite Z.mul_0_l, Z.add_0_l in Hr2.
  change (set_data _ _) with (mkVM (set_fp fp d) c2). rewrite Hr2.
  unfold mret, prog_ret. unfold set_ip, c2, set_call_stack. cbn.
  rewrite (run_code _ _ _ _ Hr), (run_block _ _ _ _ Hr).
  by apply Hk.
Qed.

(** [RET] goes back to the caller's frame. *)
Lemma sim_RET C c d cs top env ofs :
  code_ c = Some C -> znth (blocks_ d) 0 = Some C -> zlen C < 2 ^ 16 ->
  call_stack_ c = push_back cs env -> back cs = Some top ->
  return_address env = ofs -> 0 <= ofs <= zlen C ->
  code_at c (op1 RET) ->
  sim ((lift (unwind_frame env);; lift (modify_state (set_fp (env_fp top)))) d) (mkVM d c)
    (plain (mkControl (Some C) ofs 0 cs)).
Proof.
  intros HC Hb Hsize Hcs Htop Hret Hofs Hc.
  eapply sim_instr; [exact Hc|done|].
  cbn [exec_opcode]. unfold insn_RET, mbind, sem_bind, prog_bind, get_state.
  cbn [adv set_ctl set_ip ctl call_stack_ data].
  rewrite Hcs, back_push, back_push_back_pop, Htop.
  unfold on_data at 1. change (data (adv 1 (mkVM d c))) with d.
  change (lift (unwind_frame env) d) with (of_outcome (unwind_frame env d)).
  destruct (unwind_frame env d) as [[] d'| |] eqn:E; cbn; [|by left..].
  apply keepsP in E as [_ Hb'].
  rewrite Hret. unfold jump, set_data. cbn.
  destruct (block_ip 0 ofs) as (_ & _ & Hs & Hl); [lia..|].
  rewrite Z.mul_0_l, Z.add_0_l in Hs, Hl. rewrite Hs, Hl, Hb', Hb.
  destruct (Z.ltb_spec (zlen C) ofs); [lia|]. cbn.
  apply sim_ret. unfold plain. rewrite Hcs, pop_push. by rewrite u8_small.
Qed.

(** A call with its arguments on the stack. *)
Lemma sim_call C c d dst n body :
  let code := opv PUSH_CONSTANT dst ++ opv CALL n in
  running 0 C c d -> code_at c code -> is_int32 n -> callee C dst body ->
  sim (call n body d) (mkVM d c) (plain (adv_c (zlen code) c)).
Proof.
  intros code Hr Hc Hn (Hkeep & Hdst & Hbody).
  pose proof (run_size _ _ _ _ Hr) as Hsize.
  pose proof (code_at_adv _ _ _ Hc) as Hc2. set (c1 := adv_c _ _) in Hc2.
  assert (Hr1 : running 0 C c1 d) by (by apply running_adv).
  pose proof (code_at_bounds _ _ _ Hc2 (run_code _ _ _ _ Hr1)) as Hip.
  pose proof (zlen_nonneg (opv CALL n)).
  eapply sim_steps with (s' := mkVM (pushv dst d) c1).
  { assert (Hp : sim (of_outcome (push dst d)) (mkVM d c) (plain c1)).
    { eapply (sim_opv _ _ (fun v _ => push v)); [done..| |done|by eapply code_at_app_l].
      unfold is_int32, INT_MIN, INT_MAX. lia. }
    destruct Hp as (s' & ? & ->). done. }
  eapply sim_CALL; [done..|]. intros env Hfp Hvp Hret.
  set (fp := u32 _) in *. unfold call. fold fp.
  set (c2 := mkControl _ _ _ _).
  assert (Hr2 : running 0 C c2 (set_fp fp d)).
  { destruct Hr1. split; try done. exists env. by rewrite <- (back_push (call_stack_ c1) env). }
  unfold mbind at 1. eapply sim_bind; [by apply Hbody|].
  intros [] d' s' E (k & -> & Hret').
  apply Hkeep in E as [Hf' Hb'].
  destruct (run_frame _ _ _ _ Hr1) as (top & Htop & Htfp).
  assert (Hu : unwind_frame (W := W) (H := H) (mkEnv fp (zlen (variable_stack_ d)) 0)
               = unwind_frame env).
  { unfold unwind_frame. by rewrite Hfp, Hvp. }
  rewrite Hu, <- Htfp.
  eapply sim_weaken; [|eapply sim_RET with (ofs := ip_ (adv_c (zlen (opv CALL n)) c1))];
    [|try done..].
  - intros [] d0 s0 ->. unfold plain, code. f_equal. rewrite adv_c_app. fold c1.
    rewrite <- (run_code _ _ _ _ Hr1), <- (run_block _ _ _ _ Hr1) at 1. done.
  - rewrite Hb'. simpl. apply (run_blocks _ _ _ _ Hr).
  - simpl. pose proof (zlen_nonneg (opv PUSH_CONSTANT dst)). simpl in Hip. lia.
Qed.

End Calls.
