(* ===== verification/ExprSim.v ===== *)
(** Compiled expressions compute what the reference semantics says: the
    machine, run on the code that [IntExpression::serialize] and its siblings
    (src/cs/logic/AST.hxx) generate, pushes the value of the expression and
    stops behind the code. *)

From S2P Require Import Prelude Bytecode Variables VMState VM AST Codegen Semantics Simulation CallSim.

(** ** Well-formed syntax

    Members that are [int] in the source hold an [int], and operators are those
    of their class. *)

Definition is_int_operator (op : OpCode) : bool :=
  match op with
  | NUMERIC_PLUS | NUMERIC_MINUS | NUMERIC_MUL | NUMERIC_DIV | NUMERIC_MOD => true
  | _ => false
  end.

Definition is_comp_operator (op : OpCode) : bool :=
  match op with
  | NUMERIC_LEQ | NUMERIC_GEQ | NUMERIC_LT | NUMERIC_GT | NUMERIC_EQ | NUMERIC_NEQ => true
  | _ => false
  end.

Definition is_bool_operator (op : OpCode) : bool :=
  match op with
  | BOOL_EQ | BOOL_NEQ => true
  | _ => false
  end.

Definition wf_ref (v : VariableReference) : Prop :=
  match v with
  | LocalVariableReference _ ofs | GlobalVariableReference _ ofs => is_int32 ofs
  end.

Fixpoint wf_int (e : IntExpression) : Prop :=
  match e with
  | IntVariable v => wf_ref v
  | IntBinaryExpression op l r => is_int_operator op /\ wf_int l /\ wf_int r
  | IntConstant v => is_int32 v
  | IntFunctionCall fc => wf_call fc
  end
with wf_bool (e : BooleanExpression) : Prop :=
  match e with
  | BoolVariable v => wf_ref v
  | IntComp op l r => is_comp_operator op /\ wf_int l /\ wf_int r
  | BooleanConstant _ => True
  | BoolNot l => wf_bool l
  | BoolAnd l r | BoolOr l r => wf_bool l /\ wf_bool r
  | BoolCmp op l r => is_bool_operator op /\ wf_bool l /\ wf_bool r
  | BoolFunctionCall fc => wf_call fc
  end
with wf_call (fc : FunctionCall) : Prop :=
  match fc with
  | mkFunctionCall ofs _ _ args _ =>
      is_int32 ofs /\ is_int32 (zlen args) /\
      (fix wf_args (l : list PolymorphicExpression) : Prop :=
         match l with [] => True | a :: l => wf_poly a /\ wf_args l end) args
  end
with wf_poly (a : PolymorphicExpression) : Prop :=
  match a with
  | PolyVoid => True
  | PolyBool e => wf_bool e
  | PolyInt e => wf_int e
  | PolyVar _ (Some v) => wf_ref v
  | PolyVar _ None => True
  end.

Section Expressions.
Context {W H : Type} `{F : !VariableFactory W H}.

Abbreviation VMData := (@VMData W H).
Abbreviation VM := (@VM W H).
Abbreviation sem := (sem VMData).
Abbreviation functions := (gmap string (sem unit)).
Implicit Types (d : VMData) (c : VMControl) (s : VM).

(** ** The stack *)

Lemma get_from_stack_pushv ip insn name v d :
  get_from_stack ip insn name (pushv v d) = Done v d.
Proof.
  unfold get_from_stack, pushv. cbn [set_operand_stack operand_stack_].
  rewrite back_push, pop_push. by destruct d.
Qed.

Lemma of_get_from_stack ip insn name d : of_outcome (get_from_stack ip insn name d) = pop d.
Proof. unfold pop, lift, get_from_stack. by destruct (back _). Qed.

Lemma same_frame_pushv v d : same_frame d (pushv v d).
Proof. done. Qed.

Lemma pushv_take_result v d d' : take_result d = Returns v d' -> pushv v d' = d.
Proof.
  unfold take_result. destruct (back (operand_stack_ d)) as [x|] eqn:E; [|done].
  intros [= <- <-]. unfold pushv. cbn [set_operand_stack operand_stack_].
  apply last_Some in E as [l E]. rewrite E. change (l ++ [x]) with (push_back l x).
  rewrite pop_push. destruct d; simpl in *; by subst.
Qed.

Lemma hold_bind {A B} v (m : sem A) (k : Z * A -> sem B) d :
  (hold v m ≫= k) d = (a ← m; v ← pop; k (v, a)) (pushv v d).
Proof.
  assert (E : hold v m d = (a ← m; v ← pop; mret (v, a)) (pushv v d)) by done.
  unfold mbind, sem_bind in *. rewrite E.
  destruct (m (pushv v d)) as [a d'| | | |]; try done. by destruct (pop d').
Qed.

(** ** Error texts do not matter *)

Lemma of_check_stack_length r ip d :
  of_outcome (check_stack_length r ip d) = of_outcome (check_stack_length r 0 d).
Proof. unfold check_stack_length. by destruct (negb _). Qed.

Lemma of_leave r ip d : of_outcome (leave r ip d) = of_outcome (leave r 0 d).
Proof. unfold leave. destruct (r <? 0); [done|]. by destruct (_ <? r). Qed.

Lemma of_read_checked ip ref d :
  of_outcome ((val ← variable_read ip ref; check_access;; mret val) d) =
  of_outcome ((val ← variable_read 0 ref; check_access;; mret val) d).
Proof.
  unfold variable_read, VMAbsoluteVariable_read, mbind, prog_bind.
  destruct (ref_var ref) as [|l]; [by destruct (znth _ _)|].
  destruct (heap_ d !! l) as [[v|h]|]; [done| |done].
  destruct (var_read _ _ _) as [[val err] w]. by destruct err.
Qed.

Lemma of_write_checked ip ref v d :
  of_outcome ((variable_write ip ref v;; check_access) d) =
  of_outcome ((variable_write 0 ref v;; check_access) d).
Proof.
  unfold variable_write, VMAbsoluteVariable_write, mbind, prog_bind.
  destruct (ref_var ref) as [|l]; [by destruct (_ <=? _)|].
  destruct (heap_ d !! l) as [[x|h]|]; [done| |done].
  destruct (var_write _ _ _ _) as [err w]. by destruct err.
Qed.

Lemma of_indirect_load ip i d :
  of_outcome (indirect_load ip i d) = of_outcome (indirect_load 0 i d).
Proof. unfold indirect_load. destruct (znth _ _); [apply of_read_checked|done]. Qed.

Lemma of_indirect_store ip i v d :
  of_outcome (indirect_store ip i v d) = of_outcome (indirect_store 0 i v d).
Proof. unfold indirect_store. destruct (znth _ _); [apply of_write_checked|done]. Qed.

(** ** Instructions that push *)

Lemma sim_op1_pushed op (m : Z -> prog VMData unit) (f : sem Z) c d0 d :
  exec_opcode op (opcode_byte op) = on_data m -> op <> TERMINATE ->
  (forall ip, of_outcome (m ip d0) = (f ≫= push_value) d) ->
  code_at c (op1 op) ->
  sim (f d) (mkVM d0 c) (pushed (adv_c (zlen (op1 op)) c)).
Proof. intros Hop Hne Hm Hc. apply sim_pushed. by eapply sim_op1. Qed.

Lemma sim_opv_pushed op v (m : Z -> prog VMData Z) c d :
  exec_opcode op (opcode_byte op) =
    (v ← parse_varint; on_data (fun _ => x ← m v; push x)) ->
  op <> TERMINATE -> is_int32 v -> code_at c (opv op v) ->
  sim (lift (m v) d) (mkVM d c) (pushed (adv_c (zlen (opv op v)) c)).
Proof.
  intros Hop Hne Hv Hc. apply sim_pushed.
  eapply (sim_opv _ _ (fun v _ => x ← m v; push x)); [done..| |done].
  intros _. apply of_outcome_bind.
Qed.

(** A constant, from whichever instruction pushes it. *)
Lemma sim_PUSH_CONSTANT v c d :
  is_int32 v -> code_at c (opv PUSH_CONSTANT v) ->
  sim (Returns v d) (mkVM d c) (pushed (adv_c (zlen (opv PUSH_CONSTANT v)) c)).
Proof.
  intros Hv Hc. apply (sim_pushed (mret v)).
  by eapply (sim_opv _ _ (fun v _ => push v)).
Qed.

Lemma sim_push_op op v c d :
  exec_opcode op (opcode_byte op) = on_data (fun _ => push v) -> op <> TERMINATE ->
  code_at c (op1 op) ->
  sim (Returns v d) (mkVM d c) (pushed (adv_c (zlen (op1 op)) c)).
Proof. intros Hop Hne Hc. by eapply (sim_op1_pushed op _ (mret v)). Qed.

(** An operator on the two values on top of the stack. *)
Lemma sim_binary_op op (f : Z -> Z -> prog VMData Z) name c d b :
  exec_opcode op (opcode_byte op) =
    on_data (fun ip =>
      rhs ← get_from_stack ip (opcode_byte op) name;
      lhs ← get_from_stack ip (opcode_byte op) name;
      r ← f lhs rhs; push r) ->
  op <> TERMINATE -> code_at c (op1 op) ->
  sim ((a ← pop; lift (f a b)) d) (mkVM (pushv b d) c) (pushed (adv_c (zlen (op1 op)) c)).
Proof.
  intros Hop Hne Hc. eapply sim_op1_pushed; [exact Hop|done| |done]. intros ip.
  unfold mbind at 1, prog_bind at 1. rewrite get_from_stack_pushv, of_outcome_bind.
  unfold mbind, sem_bind. change (lift (get_from_stack ip (opcode_byte op) name) d)
    with (of_outcome (get_from_stack ip (opcode_byte op) name d)).
  rewrite of_get_from_stack. destruct (pop d) as [a d'| | | |]; try done.
  exact (of_outcome_bind (f a b) push d').
Qed.

(** ** Variables *)

Lemma sim_LOAD_FP_REL ofs c d :
  is_int32 ofs -> code_at c (opv LOAD_FP_REL ofs) ->
  sim (lift (load_fp_rel ofs) d) (mkVM d c) (pushed (adv_c (zlen (opv LOAD_FP_REL ofs)) c)).
Proof. intros Ho Hc. by eapply (sim_opv_pushed _ _ load_fp_rel). Qed.

Lemma sim_INDIRECT_LOAD idx c d :
  code_at c (op1 INDIRECT_LOAD) ->
  sim (lift (indirect_load 0 idx) d) (mkVM (pushv idx d) c)
    (pushed (adv_c (zlen (op1 INDIRECT_LOAD)) c)).
Proof.
  intros Hc. eapply sim_op1_pushed; [done|done| |done]. intros ip.
  unfold insn_INDIRECT_LOAD, mbind at 1, prog_bind at 1.
  rewrite get_from_stack_pushv, of_outcome_bind.
  unfold mbind, sem_bind. unfold lift at 1. by rewrite of_indirect_load.
Qed.

Lemma sim_INDIRECT_STORE idx c d :
  code_at c (op1 INDIRECT_STORE) ->
  sim ((value ← pop; lift (indirect_store 0 idx value)) d) (mkVM (pushv idx d) c)
    (plain (adv_c (zlen (op1 INDIRECT_STORE)) c)).
Proof.
  intros Hc. eapply sim_op1; [done|done| |done]. intros ip.
  unfold insn_INDIRECT_STORE, mbind at 1, prog_bind at 1.
  rewrite get_from_stack_pushv, of_outcome_bind.
  unfold mbind, sem_bind. unfold lift at 1. rewrite of_get_from_stack.
  destruct (pop d); try done. apply of_indirect_store.
Qed.

Lemma sim_fetch v c d :
  wf_ref v -> code_at c (code_fetch v) ->
  sim (fetch v d) (mkVM d c) (pushed (adv_c (zlen (code_fetch v)) c)).
Proof.
  rewrite code_fetch_eq. destruct v as [name ofs|name ofs]; intros Hv Hc.
  - by apply sim_LOAD_FP_REL.
  - rewrite adv_c_app. simpl fetch.
    eapply sim_bind; [by eapply sim_LOAD_FP_REL, code_at_app_l|].
    intros idx d' s' _ ->. apply code_at_adv in Hc. by apply sim_INDIRECT_LOAD.
Qed.

Lemma sim_store v value c d :
  wf_ref v -> code_at c (code_store v) ->
  sim (store v value d) (mkVM (pushv value d) c) (plain (adv_c (zlen (code_store v)) c)).
Proof.
  rewrite code_store_eq. destruct v as [name ofs|name ofs]; intros Hv Hc.
  - by apply sim_STORE_FP_REL.
  - rewrite adv_c_app. simpl store. rewrite hold_bind.
    eapply sim_bind; [by eapply sim_LOAD_FP_REL, code_at_app_l|].
    intros idx d' s' _ ->. apply code_at_adv in Hc. by apply sim_INDIRECT_STORE.
Qed.

(** ** Operators *)

Lemma sim_binary (l r : sem Z) (f : Z -> Z -> sem Z) c d c1 c2 c3 :
  sim (l d) (mkVM d c) (pushed c1) ->
  (forall a d1, l d = Returns a d1 ->
     sim (r (pushv a d1)) (mkVM (pushv a d1) c1) (pushed c2)) ->
  (forall b d2, sim ((a ← pop; f a b) d2) (mkVM (pushv b d2) c2) (pushed c3)) ->
  sim ((a ← l; '(a, b) ← hold a r; f a b) d) (mkVM d c) (pushed c3).
Proof.
  intros Hl Hr Hf. eapply sim_bind; [exact Hl|]. intros a d1 s1 E ->.
  rewrite hold_bind. eapply sim_bind; [by apply Hr|]. intros b d2 s2 _ ->. apply Hf.
Qed.

Lemma sim_int_operator op c d b :
  is_int_operator op -> code_at c (op1 op) ->
  sim ((a ← pop; int_operator op a b) d) (mkVM (pushv b d) c)
    (pushed (adv_c (zlen (op1 op)) c)).
Proof.
  intros Hop Hc.
  destruct op; try done; by eapply sim_binary_op.
Qed.

Lemma sim_comp_operator op c d b :
  is_comp_operator op -> code_at c (op1 op) ->
  sim ((a ← pop; comp_operator op a b) d) (mkVM (pushv b d) c)
    (pushed (adv_c (zlen (op1 op)) c)).
Proof.
  intros Hop Hc.
  assert (Hcomp : comp_operator (W := W) (H := H) op = fun a b => lift (mret (int_comparison op a b)))
    by (destruct op; done).
  rewrite Hcomp.
  eapply (sim_binary_op op (fun a b => mret (int_comparison op a b)) "INTCOMP");
    by destruct op.
Qed.

Lemma sim_bool_operator op c d b :
  is_bool_operator op -> code_at c (op1 op) ->
  sim ((a ← pop; bool_operator op a b) d) (mkVM (pushv b d) c)
    (pushed (adv_c (zlen (op1 op)) c)).
Proof.
  intros Hop Hc.
  set (f := match op with BOOL_EQ => bool_eq | _ => bool_neq end).
  assert (Hcomp : bool_operator (W := W) (H := H) op = fun a b => lift (mret (f a b)))
    by (destruct op; done).
  rewrite Hcomp.
  apply (sim_binary_op op (fun a b => mret (f a b))
           (match op with BOOL_EQ => "BOOLEQ" | _ => "BOOLNEQ" end)); by destruct op.
Qed.

(** ** The frame is kept *)

#[global] Instance keeps_fetch v : Keeps (fetch (W := W) (H := H) v).
Proof. destruct v; apply _. Qed.

#[global] Instance keeps_store v x : Keeps (store (W := W) (H := H) v x).
Proof. destruct v; simpl; [apply _|]. apply keeps_bind; [apply _|]. intros []; apply _. Qed.

#[global] Instance keeps_take_ref v : Keeps (take_ref (W := W) (H := H) v).
Proof. destruct v; apply _. Qed.

#[global] Instance keeps_int_operator op l r : Keeps (int_operator (W := W) (H := H) op l r).
Proof. destruct op; simpl; apply _. Qed.
#[global] Instance keeps_comp_operator op l r : Keeps (comp_operator (W := W) (H := H) op l r).
Proof. destruct op; simpl; apply _. Qed.
#[global] Instance keeps_bool_operator op l r : Keeps (bool_operator (W := W) (H := H) op l r).
Proof. destruct op; simpl; apply _. Qed.

Section Evaluation.
Context (fns : functions) (Hfns : forall fn (body : sem unit), fns !! fn = Some body -> Keeps body).

Lemma keeps_binary (l r : sem Z) (f : Z -> Z -> sem Z) :
  Keeps l -> Keeps r -> (forall a b, Keeps (f a b)) ->
  Keeps (a ← l; '(a, b) ← hold a r; f a b).
Proof. intros Hl Hr Hf. apply keeps_bind; [done|]. intros a. apply keeps_bind; [apply _|]. by intros []. Qed.

Lemma keeps_eval :
  (forall e, Keeps (eval_int fns e)) /\ (forall e, Keeps (eval_bool fns e)) /\
  (forall fc, Keeps (eval_call fns fc)) /\ (forall a, Keeps (eval_poly fns a)).
Proof.
  apply expr_ind; intros; simpl; try apply _.
  - apply keeps_binary; [done..|apply _].
  - apply keeps_binary; [done..|apply _].
  - apply keeps_bind; [done|]. intros a. destruct (a =? 0); apply _.
  - apply keeps_binary; [done..|apply _].
  - apply keeps_bind; [done|]. intros a. destruct (a =? 0); apply _.
  - apply keeps_bind; [apply _|]. intros []. apply keeps_bind; [apply _|]. intros [].
    apply keeps_bind.
    { match goal with H : Forall _ args |- _ => induction H end; apply _. }
    intros []. apply keeps_bind; [|destruct r; apply _].
    destruct (fns !! fn) eqn:E; [|apply _]. apply keeps_call. by eapply Hfns.
  - destruct v; apply _.
Qed.

End Evaluation.

(** ** Short circuit *)

Lemma sim_plain_steps d c s : sim (Returns tt d) s (plain c) -> steps s (mkVM d c).
Proof. by intros (s' & ? & ->). Qed.

Lemma step_PUSH_TOP v c d :
  code_at c (op1 PUSH_TOP) ->
  steps (mkVM (pushv v d) c) (mkVM (pushv v (pushv v d)) (adv_c (zlen (op1 PUSH_TOP)) c)).
Proof.
  intros Hc. apply sim_plain_steps.
  eapply (sim_op1 _ (fun _ => insn_PUSH_TOP)); [done|done| |done]. intros _.
  unfold insn_PUSH_TOP. unfold pushv at 1. cbn [set_operand_stack operand_stack_].
  by rewrite back_push.
Qed.

Lemma insn_POP_OP_pushv v d : insn_POP_OP (pushv v d) = Done tt d.
Proof.
  unfold insn_POP_OP, pushv. cbn [set_operand_stack operand_stack_].
  rewrite back_push, pop_push. by destruct d.
Qed.

Lemma step_POP_OP v c d :
  code_at c (op1 POP_OP) ->
  steps (mkVM (pushv v d) c) (mkVM d (adv_c (zlen (op1 POP_OP)) c)).
Proof.
  intros Hc. apply sim_plain_steps.
  eapply (sim_op1 _ (fun _ => insn_POP_OP)); [done|done| |done]. intros _.
  by rewrite insn_POP_OP_pushv.
Qed.

(** [l && r] and [l || r]: [skip] says for which values of [l] the right
    operand is skipped. *)
Lemma sim_short_circuit jump name (skip : Z -> bool) (l r : sem Z) lc rc b C c d :
  let code := short_circuit_code jump lc rc in
  exec_opcode (W := W) (H := H) jump (opcode_byte jump) =
    (r ← parse_varint;
     arg ← on_data (fun ip => get_from_stack ip (opcode_byte jump) name);
     if skip arg then advance_ip r else mret tt) ->
  jump <> TERMINATE ->
  running b C c d -> code_at c code -> Keeps l ->
  sim (l d) (mkVM d c) (pushed (adv_c (zlen lc) c)) ->
  (forall c d, running b C c d -> code_at c rc ->
     sim (r d) (mkVM d c) (pushed (adv_c (zlen rc) c))) ->
  sim ((a ← l; if skip a then mret a else r) d) (mkVM d c) (pushed (adv_c (zlen code) c)).
Proof.
  intros code Hjump Hne Hr Hc Hkeep Hsl Hsr. unfold code, short_circuit_code in *.
  set (rhs := op1 POP_OP ++ rc) in *.
  eapply sim_bind; [exact Hsl|]. intros a d1 s1 E ->. apply Hkeep in E.
  apply code_at_adv in Hc. rewrite adv_c_app. set (c1 := adv_c (zlen lc) c) in *.
  assert (Hr1 : running b C c1 d1) by (apply running_adv; by eapply running_same).
  eapply sim_steps; [by eapply step_PUSH_TOP, code_at_app_l|].
  apply code_at_adv in Hc. rewrite adv_c_app. set (c2 := adv_c (zlen (op1 PUSH_TOP)) c1) in *.
  assert (Hr2 : running b C c2 d1) by (by apply running_adv).
  pose proof (code_at_adv _ _ _ Hc) as Hc3. set (c3 := adv_c _ c2) in Hc3.
  assert (Hr3 : running b C c3 d1) by (by apply running_adv).
  eapply sim_steps.
  { eapply sim_plain_steps, (sim_test_jump jump name skip); [done|done| |by eapply code_at_app_l].
    by eapply running_int32. }
  fold rhs. rewrite adv_c_app. destruct (skip a).
  - rewrite <- adv_c_add. by apply (sim_ret a d1).
  - rewrite Z.add_0_r. fold c3. unfold rhs in *.
    eapply sim_steps; [by eapply step_POP_OP, code_at_app_l|].
    apply code_at_adv in Hc3. rewrite adv_c_app. apply Hsr; [by apply running_adv|done].
Qed.

(** ** Expressions *)

Lemma sim_take_ref t v st c d :
  wf_ref v -> code_at c (code_poly st (PolyVar t (Some v))) ->
  sim (take_ref v d) (mkVM d c) (pushed (adv_c (zlen (code_poly st (PolyVar t (Some v)))) c)).
Proof.
  rewrite code_poly_var. destruct v as [name ofs|name ofs]; intros Hv Hc; simpl.
  - assert (Hs : sim (lift (create_indirect_var ofs) d) (mkVM d c)
                   (plain (adv_c (zlen (opv CREATE_INDIRECT_VAR ofs)) c))).
    { by eapply (sim_opv _ _ (fun v _ => create_indirect_var v)). }
    eapply sim_bind; [exact Hs|]. intros [] d' s' E ->.
    destruct (take_result d') as [x d2| | | |] eqn:E2;
      [|unfold take_result in E2; by destruct (back _)..|done].
    apply sim_ret. unfold pushed. f_equal. symmetry. by apply pushv_take_result.
  - by apply sim_LOAD_FP_REL.
Qed.

(** A call leaves its result on the stack. *)
Lemma sim_result fns fc c d (code : list Z) :
  sim (eval_call fns fc d) (mkVM d c) (plain (adv_c (zlen code) c)) ->
  sim ((eval_call fns fc;; take_result) d) (mkVM d c) (pushed (adv_c (zlen code) c)).
Proof.
  intros Hs. eapply sim_bind; [exact Hs|]. intros [] d' s' _ ->.
  destruct (take_result d') as [v d2| | | |] eqn:E;
    [|unfold take_result in E; by destruct (back _)..|done].
  apply sim_ret. unfold pushed. f_equal. symmetry. by apply pushv_take_result.
Qed.

Section Simulate.
Context (st : SymbolTable) (fns : functions) (b : Z) (C : list Z)
  (Hcallable : callable st fns b C).

Definition sim_int_expr (e : IntExpression) : Prop :=
  wf_int e -> forall c d, running b C c d -> code_at c (code_int st e) ->
  sim (eval_int fns e d) (mkVM d c) (pushed (adv_c (zlen (code_int st e)) c)).
Definition sim_bool_expr (e : BooleanExpression) : Prop :=
  wf_bool e -> forall c d, running b C c d -> code_at c (code_bool st e) ->
  sim (eval_bool fns e d) (mkVM d c) (pushed (adv_c (zlen (code_bool st e)) c)).
Definition sim_call_expr (fc : FunctionCall) : Prop :=
  wf_call fc -> forall c d, running b C c d -> code_at c (code_call st fc) ->
  sim (eval_call fns fc d) (mkVM d c) (plain (adv_c (zlen (code_call st fc)) c)).
Definition sim_poly_expr (a : PolymorphicExpression) : Prop :=
  wf_poly a -> forall c d, running b C c d -> code_at c (code_poly st a) ->
  sim (eval_poly fns a d) (mkVM d c) (pushed (adv_c (zlen (code_poly st a)) c)).

Lemma callable_keeps fn (body : sem unit) : fns !! fn = Some body -> Keeps body.
Proof. intros E. apply Hcallable in E as (_ & Hk & _). exact Hk. Qed.

Lemma keeps_eval_int e : Keeps (eval_int fns e).
Proof. apply (keeps_eval fns callable_keeps). Qed.
Lemma keeps_eval_bool e : Keeps (eval_bool fns e).
Proof. apply (keeps_eval fns callable_keeps). Qed.
Lemma keeps_eval_poly a : Keeps (eval_poly fns a).
Proof. apply (keeps_eval fns callable_keeps). Qed.

(** The second operand of a binary operator starts with the first on the
    stack. *)
Lemma running_next c d a d1 (m : sem Z) n :
  Keeps m -> running b C c d -> m d = Returns a d1 -> running b C (adv_c n c) (pushv a d1).
Proof. intros Hm Hr E. apply Hm in E. apply running_adv. by eapply running_same. Qed.

Lemma sim_int_binary op l r :
  sim_int_expr l -> sim_int_expr r -> sim_int_expr (IntBinaryExpression op l r).
Proof.
  intros IHl IHr (Hop & Hl & Hr) c d Hrun Hc. rewrite code_int_binary in *.
  rewrite !adv_c_app. simpl eval_int. eapply sim_binary.
  - apply IHl; [done..|]. by eapply code_at_app_l.
  - intros a d1 E. apply code_at_adv in Hc. apply IHr; [done| |by eapply code_at_app_l].
    eapply running_next; [apply keeps_eval_int|done..].
  - intros v d2. do 2 apply code_at_adv in Hc. by apply sim_int_operator.
Qed.

Lemma sim_bool_comp op l r :
  sim_int_expr l -> sim_int_expr r -> sim_bool_expr (IntComp op l r).
Proof.
  intros IHl IHr (Hop & Hl & Hr) c d Hrun Hc. rewrite code_bool_comp in *.
  rewrite !adv_c_app. simpl eval_bool. eapply sim_binary.
  - apply IHl; [done..|]. by eapply code_at_app_l.
  - intros a d1 E. apply code_at_adv in Hc. apply IHr; [done| |by eapply code_at_app_l].
    eapply running_next; [apply keeps_eval_int|done..].
  - intros v d2. do 2 apply code_at_adv in Hc. by apply sim_comp_operator.
Qed.

Lemma sim_bool_cmp op l r :
  sim_bool_expr l -> sim_bool_expr r -> sim_bool_expr (BoolCmp op l r).
Proof.
  intros IHl IHr (Hop & Hl & Hr) c d Hrun Hc. rewrite code_bool_cmp in *.
  rewrite !adv_c_app. simpl eval_bool. eapply sim_binary.
  - apply IHl; [done..|]. by eapply code_at_app_l.
  - intros a d1 E. apply code_at_adv in Hc. apply IHr; [done| |by eapply code_at_app_l].
    eapply running_next; [apply keeps_eval_bool|done..].
  - intros v d2. do 2 apply code_at_adv in Hc. by apply sim_bool_operator.
Qed.

Lemma sim_bool_not l : sim_bool_expr l -> sim_bool_expr (BoolNot l).
Proof.
  intros IH Hl c d Hrun Hc. rewrite code_bool_not in *. rewrite adv_c_app.
  simpl eval_bool. eapply sim_bind; [apply IH; [done..|by eapply code_at_app_l]|].
  intros a d1 s1 _ ->. apply code_at_adv in Hc.
  eapply (sim_op1_pushed BOOL_NOT _ (mret (if a =? 0 then 1 else 0))); [done|done| |done].
  intros ip. unfold insn_BOOL_NOT, mbind, prog_bind. rewrite get_from_stack_pushv.
  by destruct (a =? 0).
Qed.

Lemma sim_call_args args c d :
  Forall sim_poly_expr args -> Forall wf_poly args ->
  running b C c d -> code_at c (code_args st args) ->
  sim (eval_args fns args d) (mkVM d c) (plain (adv_c (zlen (code_args st args)) c)).
Proof.
  intros IH Hwf. revert c d. induction IH as [|a args IHa _ IH]; intros c d Hr Hc.
  - apply sim_ret. unfold plain. by rewrite adv_c_0.
  - inversion_clear Hwf as [|? ? Ha Hargs]. rewrite code_args_cons in *. rewrite adv_c_app.
    simpl eval_args.
    assert (Hs : sim ((v ← eval_poly fns a; push_value v) d) (mkVM d c)
                   (plain (adv_c (zlen (code_poly st a)) c))).
    { eapply sim_bind; [apply IHa; [done..|by eapply code_at_app_l]|].
      intros v d1 s1 _ ->. by apply sim_ret. }
    eapply sim_bind; [exact Hs|]. intros [] d1 s1 E ->. apply code_at_adv in Hc.
    apply IH; [done| |done].
    assert (Hk : Keeps (v ← eval_poly fns a; push_value v)).
    { apply keeps_bind; [apply keeps_eval_poly|apply _]. }
    apply Hk in E. apply running_adv. by eapply running_same.
Qed.

Lemma keeps_eval_args args : Keeps (eval_args fns args).
Proof.
  induction args as [|a args IH]; simpl; [apply _|].
  apply keeps_bind; [|done]. apply keeps_bind; [apply keeps_eval_poly|apply _].
Qed.

Lemma wf_call_args ofs name fn args need :
  wf_call (mkFunctionCall ofs name fn args need) ->
  is_int32 ofs /\ is_int32 (zlen args) /\ Forall wf_poly args.
Proof.
  intros (Ho & Hn & Ha). repeat split; try apply Ho; try apply Hn.
  clear Hn. induction args as [|a args IH]; constructor; [apply Ha|]. apply IH, Ha.
Qed.

(** The call itself: the address and [CALL], or no meaning if the function
    was not compiled before. *)
Lemma sim_call_fn n fn c d :
  let code := opv PUSH_CONSTANT (fn_address st fn) ++ opv CALL n in
  is_int32 n -> running b C c d -> code_at c code ->
  sim (match fns !! fn with Some body => call n body | None => stuck end d) (mkVM d c)
    (plain (adv_c (zlen code) c)).
Proof.
  intros code Hn Hr Hc. destruct (fns !! fn) as [body|] eqn:E; [|done].
  apply Hcallable in E as [-> Hcallee]. by eapply sim_call.
Qed.

Lemma sim_function_call ofs name fn args need :
  Forall sim_poly_expr args -> sim_call_expr (mkFunctionCall ofs name fn args need).
Proof.
  intros IH Hwf c d Hr Hc. apply wf_call_args in Hwf as (Ho & Hn & Ha).
  rewrite code_call_eq in *. unfold call_code in *. simpl eval_call.
  rewrite adv_c_app.
  eapply sim_bind.
  { eapply (sim_opv CHECK_STACK_LENGTH ofs check_stack_length); [done|done|done| |by eapply code_at_app_l].
    intros ip. apply of_check_stack_length. }
  intros [] d1 s1 E ->. apply (keeps (m := lift (check_stack_length ofs 0))) in E.
  apply code_at_adv in Hc. set (c1 := adv_c _ c) in *.
  assert (Hr1 : running b C c1 d1) by (apply running_adv; by eapply running_same).
  rewrite adv_c_app. eapply sim_bind.
  { eapply (sim_op1 PUSH_CONSTANT_0 (fun _ => push 0)); [done|done|done|by eapply code_at_app_l]. }
  intros [] d2 s2 E2 ->. apply (keeps (m := push_value 0)) in E2.
  apply code_at_adv in Hc. set (c2 := adv_c _ c1) in *.
  assert (Hr2 : running b C c2 d2) by (apply running_adv; by eapply running_same).
  rewrite adv_c_app. eapply sim_bind.
  { apply (sim_call_args args c2 d2); [done..|by eapply code_at_app_l]. }
  intros [] d3 s3 E3 ->. apply (keeps_eval_args args) in E3.
  apply code_at_adv in Hc. set (c3 := adv_c _ c2) in *.
  assert (Hr3 : running b C c3 d3) by (apply running_adv; by eapply running_same).
  rewrite app_assoc in *. rewrite adv_c_app. eapply sim_bind.
  { apply sim_call_fn; [done..|by eapply code_at_app_l]. }
  intros [] d4 s4 _ ->. apply code_at_adv in Hc. destruct need.
  - apply sim_ret. unfold plain. by rewrite adv_c_0.
  - by eapply (sim_op1 POP_OP (fun _ => insn_POP_OP)).
Qed.

(** Compiled expressions compute their value. *)
Lemma sim_expr :
  (forall e, sim_int_expr e) /\ (forall e, sim_bool_expr e) /\
  (forall fc, sim_call_expr fc) /\ (forall a, sim_poly_expr a).
Proof.
  apply expr_ind.
  - intros v Hv c d _ Hc. by apply sim_fetch.
  - intros. by apply sim_int_binary.
  - intros v Hv c d _ Hc. rewrite code_int_const in *.
    destruct (Z.eqb_spec v 0) as [->|]; [by apply sim_push_op|].
    destruct (Z.eqb_spec v 1) as [->|]; [by apply sim_push_op|].
    by apply sim_PUSH_CONSTANT.
  - intros fc IH Hwf c d Hr Hc. apply sim_result. by apply IH.
  - intros v Hv c d _ Hc. by apply sim_fetch.
  - intros. by apply sim_bool_comp.
  - intros v _ c d _ Hc. destruct v; by apply sim_push_op.
  - intros. by apply sim_bool_not.
  - intros l r IHl IHr [Hl Hr] c d Hrun Hc. rewrite code_bool_and in *.
    eapply (sim_short_circuit _ _ (fun a => a =? 0)); try done.
    + apply keeps_eval_bool.
    + apply IHl; [done..|]. by eapply code_at_app_l.
    + intros c' d'. by apply IHr.
  - intros. by apply sim_bool_cmp.
  - intros l r IHl IHr [Hl Hr] c d Hrun Hc. rewrite code_bool_or in *.
    assert (E : eval_bool fns (BoolOr l r) d =
      (a ← eval_bool fns l; if negb (a =? 0) then mret a else eval_bool fns r) d).
    { simpl. unfold mbind, sem_bind. destruct (eval_bool fns l d) as [a d'| | | |]; try done.
      by destruct (a =? 0). }
    rewrite E. eapply (sim_short_circuit _ _ (fun a => negb (a =? 0))); try done.
    + apply keeps_eval_bool.
    + apply IHl; [done..|]. by eapply code_at_app_l.
    + intros c' d'. by apply IHr.
  - intros fc IH Hwf c d Hr Hc. apply sim_result. by apply IH.
  - intros. by apply sim_function_call.
  - intros _ c d _ Hc. by apply sim_push_op.
  - intros e IH. exact IH.
  - intros e IH. exact IH.
  - intros t [v|] Hv c d _ Hc; [by apply sim_take_ref|by apply sim_push_op].
Qed.

End Simulate.

End Expressions.
