(* ===== verification/CmdSim.v ===== *)
(** Compiled commands do what the reference semantics says: the machine, run
    on the code that [Command::serialize] (src/cs/logic/AST.hxx) generates,
    reaches the data that [exec] computes. *)

From stdpp Require Import pretty.
From S2P Require Import Prelude Bytecode Variables VMState VM AST Codegen Semantics Simulation CallSim ExprSim.

(** ** Well-formed commands *)

Fixpoint wf_cmd (c : Command) : Prop :=
  match c with
  | EmptyCommand | PrintString _ | Terminate => True
  | CommandSequence commands from to_ =>
      is_int32 from /\ is_int32 to_ /\
      (fix wf_cmds (l : list Command) : Prop :=
         match l with [] => True | c :: l => wf_cmd c /\ wf_cmds l end) commands
  | IndirectVarCreate guid arg _ num_states _ _ =>
      is_int32 guid /\ is_int32 arg /\ is_int32 num_states
  | StaticVarCreate guid _ _ ofs init => is_int32 guid /\ is_int32 ofs /\ wf_cmd init
  | LocalVarCreate _ _ ofs init => is_int32 ofs /\ wf_cmd init
  | NumericAssignment v e => wf_ref v /\ wf_int e
  | BooleanAssignment v e => wf_ref v /\ wf_bool e
  | IfThenElse b t e =>
      wf_bool b /\ wf_cmd t /\ match e with Some e => wf_cmd e | None => True end
  | Function _ _ _ body => wf_cmd body
  | FunctionCallCmd fc => wf_call fc
  | PrintInt e | IntCmd e => wf_int e
  | BoolCmd e => wf_bool e
  end.

(** [code] is at offset [base] of [C]. *)
Definition code_in (C : list Z) (base : Z) (code : list Z) : Prop :=
  exists C1 C3, C = C1 ++ code ++ C3 /\ base = zlen C1.

Section Commands.
Context {W H : Type} `{F : !VariableFactory W H}.

Abbreviation VMData := (@VMData W H).
Abbreviation VM := (@VM W H).
Abbreviation sem := (sem VMData).
Abbreviation functions := (gmap string (sem unit)).
Implicit Types (d : VMData).

Definition exec_seq (declared : string -> bool) (is_root : bool)
    : list Command -> functions -> sem unit :=
  fix exec_seq l fns :=
    match l with
    | [] => mret tt
    | c :: l => exec declared c is_root fns;; exec_seq l (define declared c is_root fns)
    end.

Lemma code_in_app_l C base l1 l2 : code_in C base (l1 ++ l2) -> code_in C base l1.
Proof. intros (C1 & C3 & -> & ->). exists C1, (l2 ++ C3). by rewrite <- app_assoc. Qed.

Lemma code_in_app_r C base l1 l2 :
  code_in C base (l1 ++ l2) -> code_in C (base + zlen l1) l2.
Proof.
  intros (C1 & C3 & -> & ->). exists (C1 ++ l1), C3. rewrite zlen_app. split; [|done].
  by rewrite <- !app_assoc.
Qed.

Lemma code_in_bounds C base l : code_in C base l -> 0 <= base <= zlen C.
Proof.
  intros (C1 & C3 & -> & ->). autorewrite with zlen.
  pose proof (zlen_nonneg C1). pose proof (zlen_nonneg C3). pose proof (zlen_nonneg l). lia.
Qed.

Lemma code_in_at C l (c : VMControl) : code_in C (ip_ c) l -> code_ c = Some C -> code_at c l.
Proof. intros (C1 & C3 & -> & Hi) Hc. by exists C1, C3. Qed.

(** ** The frame is kept *)

Definition fns_keep (fns : functions) : Prop :=
  forall fn body, fns !! fn = Some body -> Keeps body.

Lemma fns_keep_insert fns name body :
  fns_keep fns -> Keeps body -> fns_keep (<[name := body]> fns).
Proof.
  intros Hf Hb fn g. destruct (decide (fn = name)) as [->|].
  - rewrite lookup_insert_eq. by intros [= <-].
  - rewrite lookup_insert_ne by done. apply Hf.
Qed.

#[global] Instance keeps_trim from to_ : Keeps (trim (W := W) (H := H) from to_).
Proof. unfold trim. destruct (0 <=? from), (0 <=? to_); apply _. Qed.

Section Declared.
Context (declared : string -> bool).

Lemma keeps_exec_seq is_root l fns :
  Forall (fun c => forall r fns, fns_keep fns ->
    Keeps (exec declared c r fns) /\ fns_keep (define declared c r fns)) l ->
  fns_keep fns ->
  Keeps (exec_seq declared is_root l fns) /\
  fns_keep (fold_left (fun fns c => define declared c is_root fns) l fns).
Proof.
  intros Hl. revert fns. induction Hl as [|c l Hc _ IH]; intros fns Hf; simpl.
  - split; [apply _|done].
  - destruct (Hc is_root fns Hf) as [H1 H2]. destruct (IH _ H2) as [H3 H4].
    split; [|done]. apply keeps_bind; [done|]. by intros [].
Qed.

Lemma keeps_exec c is_root fns :
  fns_keep fns ->
  Keeps (exec declared c is_root fns) /\ fns_keep (define declared c is_root fns).
Proof.
  revert is_root fns. induction c using Command_ind'; intros root fns Hf; simpl.
  all: try pose proof (proj1 (keeps_eval fns Hf)) as Hint.
  all: try pose proof (proj1 (proj2 (keeps_eval fns Hf))) as Hbool.
  all: try pose proof (proj1 (proj2 (proj2 (keeps_eval fns Hf)))) as Hcall.
  all: try (split; [apply _|done]).
  - destruct (keeps_exec_seq root l fns) as [H1 H2]; [done..|]. split; [|done].
    apply keeps_bind; [exact H1|]. intros []. apply _.
  - split; [|done]. apply keeps_bind; [apply _|]. intros []. apply keeps_bind; [apply _|].
    intros a. destruct (a =? 0); [apply _|]. apply keeps_bind; [by apply IHc|]. intros []. apply _.
  - destruct (IHc root fns Hf) as [H1 H2]. split; [|done].
    apply keeps_bind; [apply _|]. by intros [].
  - split; [|done]. apply keeps_bind; [apply _|]. intros a. destruct (a =? 0); [apply _|].
    by apply IHc.
  - split; [|done]. apply keeps_bind; [apply _|]. intros a.
    destruct (a =? 0); [by apply IHc2|by apply IHc1].
  - split; [apply _|]. destruct (root && declared n); [|done].
    apply fns_keep_insert; [done|]. by apply IHc.
Qed.

End Declared.

(** ** Definitions *)

Section Simulate.
Context (declared : string -> bool) (b : Z) (C : list Z).

(** What is fixed while the commands of a block are serialized: no function
    context is open, and calls reach the functions of block 0 whose names are
    in the symbol table. *)
Definition tables_ok (s : SerState) : Prop :=
  ser_function_symbols s = None /\
  (forall name, declared name = true <-> b = 0 /\ is_Some (ser_symbols s !! name)).

(** Serializing [c] at [base] keeps the functions callable. *)
Definition defines (c : Command) : Prop :=
  forall is_root s base s' code fns,
  wf_cmd c -> compile c is_root s base = (s', code) ->
  tables_ok s -> callable (ser_symbols s) fns b C ->
  (is_root = true -> code_in C base code) ->
  tables_ok s' /\ callable (ser_symbols s') (define declared c is_root fns) b C.

(** Running the code of [c] does what [c] does. *)
Definition sim_cmd (c : Command) : Prop :=
  forall is_root s base s' code fns ct d,
  wf_cmd c -> compile c is_root s base = (s', code) ->
  tables_ok s -> callable (ser_symbols s) fns b C ->
  running b C ct d -> code_at ct code -> (is_root = true -> ip_ ct = base) ->
  sim (exec declared c is_root fns d) (mkVM d ct) (plain (adv_c (zlen code) ct)).

Lemma callable_fns_keep st fns : callable st fns b C -> fns_keep fns.
Proof. intros Hc fn body E. apply Hc in E as (_ & Hk & _). exact Hk. Qed.

Lemma keeps_exec_callable st fns c is_root :
  callable st fns b C -> Keeps (exec declared c is_root fns).
Proof. intros Hc. apply keeps_exec. by eapply callable_fns_keep. Qed.

(** After a command that returned, the code behind it runs. *)
Lemma running_after st fns c is_root ct d d' n :
  callable st fns b C -> running b C ct d ->
  exec declared c is_root fns d = Returns tt d' -> running b C (adv_c n ct) d'.
Proof.
  intros Hc Hr E. apply (keeps_exec_callable _ _ c is_root Hc) in E.
  apply running_adv. by eapply running_same.
Qed.

(** *** Registering a function *)

Lemma register_at_tables name is_root ofs s :
  tables_ok s -> tables_ok (register_at name is_root ofs s).
Proof.
  intros [Hf Hd]. unfold register_at, register_symbol. rewrite Hf.
  destruct is_root; simpl; [|done].
  destruct (ser_symbols s !! name) as [sym|] eqn:E; simpl; [|done].
  split; [done|]. intros n. rewrite Hd. simpl.
  destruct (decide (n = name)) as [->|].
  - rewrite lookup_insert_eq, E. split; intros [? _]; eauto.
  - by rewrite lookup_insert_ne.
Qed.

Lemma callable_insert st fns name body sym ofs :
  b = 0 -> callable st fns b C -> callee C ofs body ->
  callable (<[name := set_fp_offset ofs sym]> st) (<[name := body]> fns) b C.
Proof.
  intros Hb Hc Hbody fn g. unfold fn_address. destruct (decide (fn = name)) as [->|].
  - rewrite !lookup_insert_eq. by intros [= <-].
  - rewrite !lookup_insert_ne by done. apply Hc.
Qed.

Lemma callable_other st fns name s :
  b <> 0 -> callable st fns b C -> callable (<[name := s]> st) fns b C.
Proof. intros Hb Hc fn g E. by apply Hc in E as [? _]. Qed.

Lemma register_at_callable name is_root ofs s fns body :
  tables_ok s -> callable (ser_symbols s) fns b C ->
  (is_root = true -> callee C ofs body) ->
  callable (ser_symbols (register_at name is_root ofs s))
    (if is_root && declared name then <[name := body]> fns else fns) b C.
Proof.
  intros [Hf Hd] Hc Hbody. unfold register_at, register_symbol. rewrite Hf.
  destruct is_root; simpl; [|done].
  specialize (Hd name). destruct (declared name).
  - destruct (proj1 Hd eq_refl) as [Hb [sym ->]]. simpl. apply callable_insert; auto.
  - destruct (ser_symbols s !! name) as [sym|]; [|done]. simpl.
    apply callable_other; [|done]. intros Hb. by discriminate (proj2 Hd).
Qed.

(** *** Sequences *)

Lemma wf_cmds l from to_ :
  wf_cmd (CommandSequence l from to_) -> is_int32 from /\ is_int32 to_ /\ Forall wf_cmd l.
Proof.
  intros (? & ? & Hl). split; [done|]. split; [done|].
  induction l as [|c l IH]; constructor; [apply Hl|apply IH, Hl].
Qed.

Lemma compile_seq_cons is_root c l s base s' code :
  compile_seq is_root (c :: l) s base = (s', code) ->
  exists s1 c1 c2, compile c is_root s base = (s1, c1) /\
    compile_seq is_root l s1 (base + zlen c1) = (s', c2) /\ code = c1 ++ c2.
Proof.
  simpl. destruct (compile c is_root s base) as [s1 c1].
  destruct (compile_seq is_root l s1 _) as [s2 c2] eqn:E. intros [= <- <-].
  eauto 6.
Qed.

Lemma compile_sequence l from to_ is_root s base :
  compile (CommandSequence l from to_) is_root s base =
  let '(s', code) := compile_seq is_root l s base in (s', code ++ code_trim from to_).
Proof. done. Qed.

Lemma defines_seq l is_root s base s' code fns :
  Forall defines l -> Forall wf_cmd l ->
  compile_seq is_root l s base = (s', code) ->
  tables_ok s -> callable (ser_symbols s) fns b C ->
  (is_root = true -> code_in C base code) ->
  tables_ok s' /\
  callable (ser_symbols s') (fold_left (fun fns c => define declared c is_root fns) l fns) b C.
Proof.
  intros Hl Hwf. revert s base code fns.
  induction Hl as [|c l Hc _ IH]; intros s base code fns E Ht Hf Hin; [by simplify_eq/=|].
  inversion_clear Hwf as [|? ? Hwc Hwl].
  apply compile_seq_cons in E as (s1 & c1 & c2 & E1 & E2 & ->).
  destruct (Hc is_root s base s1 c1 fns Hwc E1 Ht Hf) as [Ht1 Hf1].
  { intros Hroot. by eapply code_in_app_l, Hin. }
  eapply (IH Hwl _ _ _ _ E2 Ht1 Hf1). intros Hroot. by apply code_in_app_r, Hin.
Qed.

Lemma sim_seq l is_root s base s' code fns ct d :
  Forall defines l -> Forall sim_cmd l -> Forall wf_cmd l ->
  compile_seq is_root l s base = (s', code) ->
  tables_ok s -> callable (ser_symbols s) fns b C ->
  running b C ct d -> code_at ct code -> (is_root = true -> ip_ ct = base) ->
  sim (exec_seq declared is_root l fns d) (mkVM d ct) (plain (adv_c (zlen code) ct)).
Proof.
  intros Hd Hl Hwf. revert s base code fns ct d Hd.
  induction Hl as [|c l Hc _ IH]; intros s base code fns ct d Hd E Ht Hf Hr Hat Hip.
  - simplify_eq/=. apply sim_ret. unfold plain. by rewrite adv_c_0.
  - inversion_clear Hwf as [|? ? Hwc Hwl]. inversion_clear Hd as [|? ? Hdc Hdl].
    apply compile_seq_cons in E as (s1 & c1 & c2 & E1 & E2 & ->). rewrite adv_c_app.
    destruct (Hdc is_root s base s1 c1 fns Hwc E1 Ht Hf) as [Ht1 Hf1].
    { intros Hroot. rewrite <- (Hip Hroot). destruct Hat as (C1 & C3 & HC & Hi).
      rewrite (run_code _ _ _ _ Hr) in HC. injection HC as ->. rewrite <- app_assoc.
      by exists C1, (c2 ++ C3). }
    simpl. eapply sim_bind; [by eapply (Hc is_root); eauto using code_at_app_l|].
    intros [] d1 s2 E ->. apply code_at_adv in Hat.
    apply (IH Hwl s1 (base + zlen c1) c2); try done; [exact (running_after _ _ _ _ _ _ _ _ Hf Hr E)|].
    intros Hroot. simpl. by rewrite (Hip Hroot).
Qed.

Lemma sim_trim from to_ ct d :
  is_int32 from -> is_int32 to_ -> code_at ct (code_trim from to_) ->
  sim (trim from to_ d) (mkVM d ct) (plain (adv_c (zlen (code_trim from to_)) ct)).
Proof.
  intros Hfrom Hto. unfold code_trim, CommandSequence_trim, trim. emit.
  destruct (Z.leb_spec 0 from).
  2:{ intros _. apply sim_ret. unfold plain. by rewrite adv_c_0. }
  destruct (Z.leb_spec 0 to_).
  2:{ change ([opcode_byte CHECK_STACK_LENGTH] ++ varint from)
        with (opv CHECK_STACK_LENGTH from).
      intros Hc. eapply sim_bind.
      - eapply (sim_opv CHECK_STACK_LENGTH from check_stack_length); [done|done|done| |done].
        intros ip. apply of_check_stack_length.
      - intros [] d1 s1 _ ->. by apply sim_ret. }
  change ([opcode_byte CHECK_STACK_LENGTH] ++ varint from ++
          [opcode_byte LEAVE] ++ varint (from - to_))
    with (opv CHECK_STACK_LENGTH from ++ opv LEAVE (from - to_)).
  intros Hc. rewrite adv_c_app. eapply sim_bind.
  { eapply (sim_opv CHECK_STACK_LENGTH from check_stack_length);
      [done|done|done| |by eapply code_at_app_l]. intros ip. apply of_check_stack_length. }
  intros [] d1 s1 _ ->. apply code_at_adv in Hc.
  eapply (sim_opv LEAVE (from - to_) leave); [done|done| | |done].
  - unfold is_int32, INT_MIN, INT_MAX in *. lia.
  - intros ip. apply of_leave.
Qed.

(** *** Commands inside a conditional, an initial value or a function *)

Lemma define_inner c fns : define (W := W) (H := H) declared c false fns = fns.
Proof.
  revert fns. induction c using Command_ind'; intros fns; simpl; try done.
  match goal with H : Forall _ l |- _ => revert fns; induction H as [|c l Hc _ IH] end;
    intros fns; simpl; [done|]. by rewrite Hc.
Qed.

Lemma defines_inner c s base s' code fns :
  defines c -> wf_cmd c -> compile c false s base = (s', code) ->
  tables_ok s -> callable (ser_symbols s) fns b C ->
  tables_ok s' /\ callable (ser_symbols s') fns b C.
Proof.
  intros Hd Hwf E Ht Hf. destruct (Hd _ _ _ _ _ fns Hwf E Ht Hf) as [? Hc]; [done|].
  by rewrite define_inner in Hc.
Qed.

(** *** Function definitions *)

Lemma callee_function name rt args body s base s' code fns :
  sim_cmd body -> wf_cmd body ->
  compile (Function name rt args body) true s base = (s', code) ->
  tables_ok s -> callable (ser_symbols s) fns b C -> b = 0 -> zlen C < 2 ^ 16 ->
  code_in C base code ->
  exists s1 codeb, compile body false s 0 = (s1, codeb) /\
    callee C (base + zlen (opv JUMP (zlen (codeb ++ op1 RET))))
      (exec declared body false fns).
Proof.
  intros Hs Hwf. cbn [compile]. destruct (compile body false s 0) as [s1 codeb] eqn:Eb.
  intros E Ht Hf Hb Hsize Hin. apply pair_equal_spec in E as [_ <-]. exists s1, codeb. split; [done|].
  pose proof (code_in_app_r _ _ _ _ Hin) as Hbody.
  split; [by eapply keeps_exec_callable|]. split; [by eapply code_in_bounds|].
  intros ct d Hr Hip. rewrite <- Hip in Hbody. rewrite <- Hb in Hr.
  eapply code_in_at in Hbody; [|apply (run_code _ _ _ _ Hr)].
  eapply sim_weaken; [|eapply (Hs false); try done; [..|by eapply code_at_app_l]; done].
  intros [] d1 s2 ->. exists (zlen codeb). split; [done|]. by apply code_at_adv in Hbody.
Qed.

(** *** Simple commands *)

Lemma sim_int e st fns ct d :
  wf_int e -> callable st fns b C -> running b C ct d -> code_at ct (code_int st e) ->
  sim (eval_int fns e d) (mkVM d ct) (pushed (adv_c (zlen (code_int st e)) ct)).
Proof. intros Hwf Hf. exact (proj1 (sim_expr st fns b C Hf) e Hwf ct d). Qed.

Lemma sim_bool e st fns ct d :
  wf_bool e -> callable st fns b C -> running b C ct d -> code_at ct (code_bool st e) ->
  sim (eval_bool fns e d) (mkVM d ct) (pushed (adv_c (zlen (code_bool st e)) ct)).
Proof. intros Hwf Hf. exact (proj1 (proj2 (sim_expr st fns b C Hf)) e Hwf ct d). Qed.

Lemma sim_push_after (m : sem Z) ct d c' :
  sim (m d) (mkVM d ct) (pushed c') -> sim ((v ← m; push_value v) d) (mkVM d ct) (plain c').
Proof.
  intros Hm. eapply sim_bind; [exact Hm|]. intros v d' s' _ ->. by apply sim_ret.
Qed.

Lemma sim_import guid arg ct d :
  let code := opv PUSH_CONSTANT guid ++ opv PUSH_CONSTANT arg ++ op1 IMPORT_VAR in
  is_int32 guid -> is_int32 arg -> code_at ct code ->
  sim (lift (import_var arg guid) d) (mkVM d ct) (plain (adv_c (zlen code) ct)).
Proof.
  intros code Hg Ha Hc. unfold code in *. rewrite !adv_c_app.
  eapply (sim_steps _ _ (mkVM (pushv guid d) (adv_c (zlen (opv PUSH_CONSTANT guid)) ct))).
  { apply sim_plain_steps.
    by eapply (sim_opv PUSH_CONSTANT guid (fun v _ => push v)), code_at_app_l. }
  apply code_at_adv in Hc. set (c1 := adv_c _ ct) in *.
  eapply (sim_steps _ _ (mkVM (pushv arg (pushv guid d)) (adv_c (zlen (opv PUSH_CONSTANT arg)) c1))).
  { apply sim_plain_steps.
    by eapply (sim_opv PUSH_CONSTANT arg (fun v _ => push v)), code_at_app_l. }
  apply code_at_adv in Hc. eapply (sim_op1 IMPORT_VAR); [done|done| |done]. intros ip.
  unfold insn_IMPORT_VAR, mbind, prog_bind. by rewrite !get_from_stack_pushv.
Qed.

Lemma sim_numeric_assignment v e st fns ct d :
  let code := code_int st e ++ code_store v in
  wf_ref v -> wf_int e -> callable st fns b C -> running b C ct d -> code_at ct code ->
  sim ((value ← eval_int fns e; store v value) d) (mkVM d ct) (plain (adv_c (zlen code) ct)).
Proof.
  intros code Hv He Hf Hr Hc. unfold code in *. rewrite adv_c_app.
  eapply sim_bind; [by eapply sim_int, code_at_app_l|].
  intros x d1 s1 _ ->. apply code_at_adv in Hc. by apply sim_store.
Qed.

Lemma sim_bool_assignment v e st fns ct d :
  let code := code_bool st e ++ op1 BOOL_PROJECT ++ code_store v in
  wf_ref v -> wf_bool e -> callable st fns b C -> running b C ct d -> code_at ct code ->
  sim ((value ← eval_bool fns e; store v (if value =? 0 then 0 else 1)) d) (mkVM d ct)
    (plain (adv_c (zlen code) ct)).
Proof.
  intros code Hv He Hf Hr Hc. unfold code in *. rewrite !adv_c_app.
  eapply sim_bind; [by eapply sim_bool, code_at_app_l|].
  intros x d1 s1 _ ->. apply code_at_adv in Hc.
  eapply (sim_steps _ _ (mkVM (pushv (if x =? 0 then 0 else 1) d1) _)).
  { apply sim_plain_steps. eapply (sim_op1 BOOL_PROJECT); [done|done| |by eapply code_at_app_l].
    intros ip. unfold insn_BOOL_PROJECT, mbind, prog_bind. rewrite get_from_stack_pushv.
    by destruct (x =? 0). }
  apply code_at_adv in Hc. by apply sim_store.
Qed.

Lemma sim_print_string txt ct d :
  let code := opv LOAD_STRING (zlen (bytes_of_string txt)) ++ bytes_of_string txt
              ++ op1 PRINT_STR in
  running b C ct d -> code_at ct code ->
  sim ((lift (modify_state (set_string_acc txt));; lift (print_output txt)) d) (mkVM d ct)
    (plain (adv_c (zlen code) ct)).
Proof.
  intros code Hr Hc. unfold code in *. rewrite app_assoc in *. rewrite adv_c_app.
  eapply sim_bind; [by eapply (sim_LOAD_STRING b C), code_at_app_l|].
  intros [] d1 s1 E ->. apply code_at_adv in Hc.
  eapply (sim_op1 PRINT_STR (fun _ => insn_PRINT_STR)); [done|done| |done]. intros _.
  unfold lift, modify_state in E. simpl in E. apply (f_equal (fun r =>
    match r with Returns _ d => string_acc_ d | _ => "" end)) in E. simpl in E.
  unfold insn_PRINT_STR. by rewrite <- E.
Qed.

Lemma sim_print_int e st fns ct d :
  let code := code_int st e ++ op1 PRINT_NUM in
  wf_int e -> callable st fns b C -> running b C ct d -> code_at ct code ->
  sim ((v ← eval_int fns e; lift (print_output (pretty v))) d) (mkVM d ct)
    (plain (adv_c (zlen code) ct)).
Proof.
  intros code He Hf Hr Hc. unfold code in *. rewrite adv_c_app.
  eapply sim_bind; [by eapply sim_int, code_at_app_l|].
  intros x d1 s1 _ ->. apply code_at_adv in Hc.
  eapply (sim_op1 PRINT_NUM); [done|done| |done]. intros ip.
  unfold insn_PRINT_NUM, mbind, prog_bind. by rewrite get_from_stack_pushv.
Qed.

(** *** Declarations *)

Lemma create_static_var_pushes guid d d' :
  lift (create_static_var guid) d = Returns tt d' -> exists v d0, d' = pushv v d0.
Proof.
  unfold create_static_var, lift.
  assert (Hpush : forall x d d', of_outcome (push x d) = Returns tt d' -> d' = pushv x d)
    by (intros x d0 d1 [= <-]; done).
  destruct (external_variables_ d !! u32 guid).
  - match goal with |- context [of_outcome ?o] => destruct o as [[] d1| |] eqn:E end; try done. simpl. intros [= <-].
    apply bind_Done in E as (idx & d2 & _ & E). apply bind_Done in E as ([] & d3 & _ & E).
    exists 0, d3. apply Hpush. by rewrite E.
  - match goal with |- context [of_outcome ?o] => destruct o as [[] d1| |] eqn:E end; try done. simpl. intros [= <-].
    apply bind_Done in E as (l & d2 & _ & E). apply bind_Done in E as (idx & d3 & _ & E).
    apply bind_Done in E as ([] & d4 & _ & E). exists 1, d4. apply Hpush. by rewrite E.
Qed.

Lemma pop_pushv v d : pop (pushv v d) = Returns v d.
Proof. unfold pop, lift. by rewrite get_from_stack_pushv. Qed.

Lemma sim_static_var init s s1 codei fns guid ofs ct d :
  let inner := codei ++ opv LOAD_FP_REL ofs ++ op1 INDIRECT_STORE in
  let code := opv CREATE_STATIC_VAR guid ++ opv TEST_JUMP_IF_FALSE (zlen inner) ++ inner in
  is_int32 guid -> is_int32 ofs -> wf_cmd init -> sim_cmd init ->
  compile init false s 0 = (s1, codei) ->
  tables_ok s -> callable (ser_symbols s) fns b C ->
  running b C ct d -> code_at ct code ->
  sim ((lift (create_static_var guid);;
        created ← pop;
        if created =? 0 then mret tt
        else
          exec declared init false fns;;
          idx ← lift (load_fp_rel ofs);
          value ← pop;
          lift (indirect_store 0 idx value)) d) (mkVM d ct) (plain (adv_c (zlen code) ct)).
Proof.
  intros inner code Hg Ho Hwf Hinit Ei Ht Hf Hr Hc. unfold code in *. rewrite adv_c_app.
  eapply sim_bind.
  { by eapply (sim_opv CREATE_STATIC_VAR guid (fun v _ => create_static_var v)), code_at_app_l. }
  intros [] d1 s2 E ->. apply code_at_adv in Hc. set (c1 := adv_c _ ct) in *.
  assert (Hr1 : running b C c1 d1).
  { apply (keeps (m := lift (create_static_var guid))) in E. apply running_adv.
    by eapply running_same. }
  apply create_static_var_pushes in E as (v & d0 & ->).
  assert (Hr0 : running b C c1 d0) by (by destruct Hr1).
  unfold mbind at 1, sem_bind at 1. rewrite pop_pushv.
  pose proof (code_at_adv _ _ _ Hc) as Hi. set (c2 := adv_c _ c1) in Hi.
  assert (Hr2 : running b C c2 d0) by (by apply running_adv).
  eapply sim_steps.
  { eapply sim_plain_steps,
      (sim_test_jump TEST_JUMP_IF_FALSE "TEST_JUMP_IF_FALSE" (fun v => v =? 0));
      [done|done| |by eapply code_at_app_l]. by eapply running_int32. }
  rewrite adv_c_app. destruct (v =? 0).
  { rewrite <- adv_c_add. by apply sim_ret. }
  rewrite Z.add_0_r. fold c2. unfold inner in *. rewrite !adv_c_app.
  eapply sim_bind; [eapply (Hinit false); try done; by eapply code_at_app_l|].
  intros [] d2 s3 _ ->. apply code_at_adv in Hi.
  eapply sim_bind; [by eapply sim_LOAD_FP_REL, code_at_app_l|].
  intros idx d3 s4 _ ->. apply code_at_adv in Hi. by apply sim_INDIRECT_STORE.
Qed.

Lemma sim_local_var init is_root s base s1 codei fns ofs ct d :
  let check := opv CHECK_STACK_LENGTH ofs in
  is_int32 ofs -> wf_cmd init -> sim_cmd init ->
  compile init is_root s (base + zlen check) = (s1, codei) ->
  tables_ok s -> callable (ser_symbols s) fns b C ->
  running b C ct d -> code_at ct (check ++ codei) -> (is_root = true -> ip_ ct = base) ->
  sim ((lift (check_stack_length ofs 0);; exec declared init is_root fns) d) (mkVM d ct)
    (plain (adv_c (zlen (check ++ codei)) ct)).
Proof.
  intros check Ho Hwf Hinit Ei Ht Hf Hr Hc Hip. rewrite adv_c_app.
  eapply sim_bind.
  { eapply (sim_opv CHECK_STACK_LENGTH ofs check_stack_length);
      [done|done|done| |by eapply code_at_app_l]. intros ip. apply of_check_stack_length. }
  intros [] d1 s2 E ->. apply (keeps (m := lift (check_stack_length ofs 0))) in E.
  apply code_at_adv in Hc. eapply (Hinit is_root); try done.
  - apply running_adv. by eapply running_same.
  - intros Hroot. simpl. by rewrite (Hip Hroot).
Qed.

(** *** Conditionals *)

(** The condition and the jump on it: control is behind the conditional jump,
    or [n] bytes further if the condition is false. *)
Lemma sim_condition {A} cond st fns (k : Z -> sem A) n ct d post :
  let code := code_bool st cond ++ opv TEST_JUMP_IF_FALSE n in
  wf_bool cond -> callable st fns b C -> running b C ct d -> is_int32 n ->
  code_at ct code ->
  (forall v d', running b C ct d' ->
     sim (k v d') (mkVM d' (adv_c (zlen code + if v =? 0 then n else 0) ct)) post) ->
  sim ((v ← eval_bool fns cond; k v) d) (mkVM d ct) post.
Proof.
  intros code Hwf Hf Hr Hn Hc Hk. unfold code in *.
  eapply sim_bind; [by eapply sim_bool, code_at_app_l|].
  intros v d1 s1 E ->. apply code_at_adv in Hc.
  apply (keeps_eval_bool st fns b C Hf) in E.
  eapply sim_steps.
  { by eapply sim_plain_steps,
      (sim_test_jump TEST_JUMP_IF_FALSE "TEST_JUMP_IF_FALSE" (fun v => v =? 0)). }
  rewrite adv_c_add, Z.add_assoc, <- zlen_app. apply Hk. by eapply running_same.
Qed.

Lemma sim_if_then cond t s s1 codet fns ct d :
  let code := if_code (code_bool (ser_symbols s) cond) codet None in
  wf_bool cond -> wf_cmd t -> sim_cmd t -> compile t false s 0 = (s1, codet) ->
  tables_ok s -> callable (ser_symbols s) fns b C ->
  running b C ct d -> code_at ct code ->
  sim ((v ← eval_bool fns cond; if v =? 0 then mret tt else exec declared t false fns) d)
    (mkVM d ct) (plain (adv_c (zlen code) ct)).
Proof.
  intros code Hb Hwf Ht Et Hok Hf Hr Hc. unfold code in *. rewrite if_code_eq in *.
  pose proof Hc as Hc'. rewrite app_assoc in Hc'. pose proof (code_at_adv _ _ _ Hc') as Hct.
  eapply sim_condition; [done|exact Hf|done| |exact (code_at_app_l _ _ _ Hc')|].
  { eapply running_int32; [|exact Hct]. by apply running_adv. }
  intros v d1 Hr1. rewrite app_assoc, adv_c_app. destruct (v =? 0).
  - rewrite <- adv_c_add. by apply sim_ret.
  - rewrite Z.add_0_r. eapply (Ht false); try done. by apply running_adv.
Qed.

Lemma sim_if_then_else cond t e s s1 s2 codet codee fns ct d :
  let code := if_code (code_bool (ser_symbols s) cond) codet (Some codee) in
  wf_bool cond -> wf_cmd t -> wf_cmd e -> sim_cmd t -> defines t -> sim_cmd e ->
  compile t false s 0 = (s1, codet) -> compile e false s1 0 = (s2, codee) ->
  tables_ok s -> callable (ser_symbols s) fns b C ->
  running b C ct d -> code_at ct code ->
  sim ((v ← eval_bool fns cond;
        if v =? 0 then exec declared e false fns else exec declared t false fns) d)
    (mkVM d ct) (plain (adv_c (zlen code) ct)).
Proof.
  intros code Hb Hwt Hwe Ht Hdt He Et Ee Hok Hf Hr Hc. unfold code in *.
  rewrite if_code_eq in *. cbv zeta in *.
  set (skip := codet ++ opv JUMP (zlen codee)) in *.
  destruct (defines_inner _ _ _ _ _ fns Hdt Hwt Et Hok Hf) as [Hok1 Hf1].
  pose proof Hc as Hc'. rewrite app_assoc in Hc'. pose proof (code_at_adv _ _ _ Hc') as Hct.
  eapply sim_condition; [done|exact Hf|done| |exact (code_at_app_l _ _ _ Hc')|].
  { eapply running_int32; [|by eapply code_at_app_l]. by apply running_adv. }
  intros v d1 Hr1. rewrite app_assoc, adv_c_app. set (c1 := adv_c _ ct) in *.
  assert (Hrc : running b C c1 d1) by (by apply running_adv).
  destruct (v =? 0).
  - rewrite <- adv_c_add. fold c1. apply code_at_adv in Hct. rewrite adv_c_app.
    eapply (He false); try done. by apply running_adv.
  - rewrite Z.add_0_r. fold c1. unfold skip in *. rewrite <- app_assoc in *.
    rewrite adv_c_app. change (exec declared t false fns d1)
      with ((exec declared t false fns) d1).
    assert (Hs : sim ((exec declared t false fns;; mret tt) d1) (mkVM d1 c1)
              (plain (adv_c (zlen (opv JUMP (zlen codee) ++ codee)) (adv_c (zlen codet) c1)))).
    { eapply sim_bind; [eapply (Ht false); try done; by eapply code_at_app_l|].
      intros [] d2 s3 E ->. apply code_at_adv in Hct. eapply sim_JUMP; [|done].
      by eapply running_after. }
    revert Hs. unfold mbind, sem_bind.
    by destruct (exec declared t false fns d1) as [[] d2| | | |].
Qed.

(** *** All commands *)

Lemma sim_function_definition name rt args body is_root s base s' code fns ct d :
  compile (Function name rt args body) is_root s base = (s', code) ->
  running b C ct d -> code_at ct code ->
  sim (exec declared (Function name rt args body) is_root fns d) (mkVM d ct)
    (plain (adv_c (zlen code) ct)).
Proof.
  cbn [compile]. destruct (compile body false s 0) as [s1 codeb].
  intros E Hr Hc. apply pair_equal_spec in E as [_ <-]. by eapply sim_JUMP.
Qed.

Lemma defines_function name rt args body :
  zlen C < 2 ^ 16 -> sim_cmd body -> defines body -> defines (Function name rt args body).
Proof.
  intros Hsize Hs Hd is_root s base s' code fns Hwf E Ht Hf Hin.
  pose proof E as E'. cbn [compile] in E'.
  destruct (compile body false s 0) as [s1 codeb] eqn:Eb.
  apply pair_equal_spec in E' as [<- <-].
  destruct (defines_inner _ _ _ _ _ fns Hd Hwf Eb Ht Hf) as [Ht1 Hf1].
  split; [by apply register_at_tables|]. cbn [define].
  destruct (decide (b = 0)) as [Hb|Hb].
  - apply register_at_callable; [done..|]. intros ->.
    destruct (callee_function name rt args body s base _ _ fns Hs Hwf E Ht Hf Hb Hsize (Hin eq_refl))
      as (s2 & codeb2 & Eb2 & Hcallee).
    rewrite Eb in Eb2. by injection Eb2 as _ <-.
  - destruct Ht as [Hfn Hdecl]. destruct (declared name) eqn:Ed.
    { by destruct (proj1 (Hdecl name) Ed). }
    rewrite andb_false_r. intros fn g Efn. by apply Hf in Efn as [? _].
Qed.

Lemma defines_sequence l from to_ :
  Forall defines l -> defines (CommandSequence l from to_).
Proof.
  intros Hl is_root s base s' code fns Hwf E Ht Hf Hin.
  apply wf_cmds in Hwf as (_ & _ & Hwf). rewrite compile_sequence in E.
  destruct (compile_seq is_root l s base) as [s1 codes] eqn:Es.
  apply pair_equal_spec in E as [<- <-].
  eapply defines_seq; [done..|]. intros Hroot. by eapply code_in_app_l, Hin.
Qed.

Lemma sim_sequence l from to_ :
  Forall defines l -> Forall sim_cmd l -> sim_cmd (CommandSequence l from to_).
Proof.
  intros Hd Hl is_root s base s' code fns ct d Hwf E Ht Hf Hr Hc Hip.
  apply wf_cmds in Hwf as (Hfrom & Hto & Hwf). rewrite compile_sequence in E.
  destruct (compile_seq is_root l s base) as [s1 codes] eqn:Es.
  apply pair_equal_spec in E as [<- <-]. rewrite adv_c_app.
  eapply sim_bind.
  { eapply sim_seq; [exact Hd|exact Hl|done..|by eapply code_at_app_l|done]. }
  intros [] d1 s2 _ ->. apply code_at_adv in Hc. by apply sim_trim.
Qed.

Lemma defines_static g t n o i : defines i -> defines (StaticVarCreate g t n o i).
Proof.
  intros Hi is_root s base s' code fns (_ & _ & Hwf) E Ht Hf _. cbn [compile] in E.
  destruct (compile i false s 0) as [s1 codei] eqn:Ei.
  apply pair_equal_spec in E as [<- <-]. by eapply defines_inner.
Qed.

Lemma defines_local n t o i : defines i -> defines (LocalVarCreate n t o i).
Proof.
  intros Hi is_root s base s' code fns [_ Hwf] E Ht Hf Hin. cbn [compile] in E.
  destruct (compile i is_root s _) as [s1 codei] eqn:Ei.
  apply pair_equal_spec in E as [<- <-]. eapply Hi; [done..|].
  intros Hroot. by apply code_in_app_r, Hin.
Qed.

Lemma defines_if cond t e :
  defines t -> match e with Some e => defines e | None => True end ->
  defines (IfThenElse cond t e).
Proof.
  intros Htd Hed is_root s base s' code fns (_ & Hwt & Hwe) E Ht Hf _. cbn [compile] in E.
  destruct (compile t false s 0) as [s1 codet] eqn:Et.
  destruct (defines_inner _ _ _ _ _ fns Htd Hwt Et Ht Hf) as [Ht1 Hf1].
  destruct e as [e|]; [|by apply pair_equal_spec in E as [<- _]].
  destruct (compile e false s1 0) as [s2 codee] eqn:Ee.
  apply pair_equal_spec in E as [<- _]. by eapply (defines_inner e).
Qed.

Ltac compiled E := cbn [compile] in E; apply pair_equal_spec in E as [<- <-].

(** Every command. *)
Lemma commands_ok : zlen C < 2 ^ 16 -> forall c, defines c /\ sim_cmd c.
Proof.
  intros Hsize c. induction c using Command_ind'.
  all: repeat match goal with H : defines _ /\ sim_cmd _ |- _ => destruct H end.
  all: split; [try (intros is_root s base s' code fns Hwf E Ht Hf _; compiled E; done)|].
  all: try (intros is_root s base s' code fns ct d Hwf E Ht Hf Hr Hc Hip).
  - compiled E. apply sim_ret. unfold plain. by rewrite adv_c_0.
  - match goal with H : Forall _ l |- _ => apply Forall_and in H as [? ?] end.
    by apply defines_sequence.
  - match goal with H : Forall _ l |- _ => apply Forall_and in H as [? ?] end.
    by eapply (sim_sequence l from to_).
  - compiled E. destruct Hwf as (? & ? & _). by apply sim_import.
  - by apply defines_static.
  - cbn [compile] in E. destruct (compile c false s 0) as [s1 codei] eqn:Ei.
    apply pair_equal_spec in E as [<- <-]. destruct Hwf as (? & ? & ?).
    by eapply sim_static_var.
  - by apply defines_local.
  - cbn [compile] in E. destruct (compile c is_root s _) as [s1 codei] eqn:Ei.
    apply pair_equal_spec in E as [<- <-]. destruct Hwf as (? & ?).
    by eapply sim_local_var.
  - compiled E. destruct Hwf. by eapply sim_numeric_assignment.
  - compiled E. destruct Hwf. by eapply sim_bool_assignment.
  - by apply defines_if.
  - cbn [compile] in E. destruct (compile c false s 0) as [s1 codet] eqn:Et.
    apply pair_equal_spec in E as [<- <-]. destruct Hwf as (? & ? & _).
    by eapply sim_if_then.
  - by apply defines_if.
  - cbn [compile] in E. destruct (compile c1 false s 0) as [s1 codet] eqn:Et.
    destruct (compile c2 false s1 0) as [s2 codee] eqn:Ee.
    apply pair_equal_spec in E as [<- <-]. destruct Hwf as (? & ? & ?).
    by eapply sim_if_then_else.
  - by apply defines_function.
  - by eapply sim_function_definition.
  - compiled E. by apply (proj1 (proj2 (proj2 (sim_expr (ser_symbols s) fns b C Hf)))).
  - compiled E. by apply sim_print_string.
  - compiled E. by eapply sim_print_int.
  - compiled E. by eapply sim_halt.
  - compiled E. eapply sim_push_after. by eapply sim_int.
  - compiled E. eapply sim_push_after. by eapply sim_bool.
Qed.

End Simulate.
End Commands.
