(* ===== verification/Declarations.v ===== *)
(** What the members of [Driver] (src/cs/logic/Driver.hxx) guarantee to the
    actions of the grammar: variables of a scope get slots of the stack of
    their own, declarations and calls are type checked, and errors are
    reported. *)

From stdpp Require Import pretty.
From S2P Require Import Prelude Bytecode AST Driver ExprSim CmdSim.

(** ** Notions *)

(** Two variables of a scope do not share a slot of the stack frame. *)
Record context_ok (c : ParsingContext) : Prop := {
  ctx_slot name s : symbol_table_ c !! name = Some s -> symbol_type_ s = VARIABLE ->
    fp_offset_ s < frame_size_ c;
  ctx_distinct n1 n2 s1 s2 :
    symbol_table_ c !! n1 = Some s1 -> symbol_table_ c !! n2 = Some s2 ->
    symbol_type_ s1 = VARIABLE -> symbol_type_ s2 = VARIABLE ->
    0 <= fp_offset_ s1 -> fp_offset_ s1 = fp_offset_ s2 -> n1 = n2;
  ctx_size : 0 <= frame_size_ c <= INT_MAX
}.

(** The command that creates a variable in slot [ofs]. *)
Definition creates (c : Command) (ofs : Z) : Prop :=
  match c with
  | IndirectVarCreate _ _ _ _ _ o | StaticVarCreate _ _ _ o _ | LocalVarCreate _ _ o _ => o = ofs
  | _ => False
  end.

(** A member that returns [nullptr] has appended an error to the output; one
    that does not has left the output alone. *)
Definition reports {A} (m : prog Driver (option A)) : Prop :=
  forall d r d', m d = Done r d' ->
    match r with
    | Some _ => error_output_ d' = error_output_ d
    | None => exists msg, msg <> "" /\ error_output_ d' = error_output_ d +:+ msg
    end.

(** What [get_function_call] asks of an argument. *)
Definition argument_ok (arg : located_expression) (sym_arg : FunctionArgument) : Prop :=
  get_data_type (expr_ arg) = builtin_type_ (arg_type_ sym_arg) /\
  arg_access_ sym_arg = (if is_variable (expr_ arg) then INDIRECT_VAR else LOCAL_VAR).

(** ** Lemmas *)

Lemma reports_ret {A} (a : A) : reports (mret (Some a)).
Proof. by intros d r d' [= <- <-]. Qed.

Lemma reports_reject {A} l m : reports (reject (A := A) l m).
Proof.
  intros d r d' [= <- <-]. unfold error_at. simpl.
  exists (print_location l +:+ m +:+ newline). split; [|done].
  destruct (print_location l); [by destruct m|done].
Qed.

(** Reports under a change of the driver that keeps the output. *)
Lemma reports_checked {A B} (m : prog Driver (option A)) (k : A -> prog Driver (option B)) :
  reports m -> (forall a, reports (k a)) -> reports (checked m k).
Proof.
  intros Hm Hk d r d'. unfold checked, mbind, prog_bind.
  destruct (m d) as [o d1| |] eqn:E; try done. apply Hm in E. destruct o as [a|].
  - intros E2. apply Hk in E2. destruct r as [b|]; [congruence|].
    destruct E2 as (msg & ? & ->). exists msg. by rewrite E.
  - intros [= <- <-]. exact E.
Qed.

Lemma reports_bind {A B} (m : prog Driver A) (k : A -> prog Driver (option B)) :
  (forall d a d', m d = Done a d' -> error_output_ d' = error_output_ d) ->
  (forall a, reports (k a)) -> reports (m ≫= k).
Proof.
  intros Hm Hk d r d' E. apply bind_Done in E as (a & d1 & E1 & E). apply Hm in E1.
  apply Hk in E. destruct r; [congruence|]. destruct E as (msg & ? & ->). exists msg. by rewrite E1.
Qed.

Lemma reports_state {A} (f : Driver -> Driver) (k : Driver -> prog Driver (option A)) :
  (forall d, error_output_ (f d) = error_output_ d) ->
  (forall d, reports (k d)) -> reports (fun d => k d (f d)).
Proof.
  intros Hf Hk d r d' E. apply Hk in E. destruct r; [congruence|].
  destruct E as (msg & ? & ->). exists msg. by rewrite Hf.
Qed.

Lemma set_context_output c d : error_output_ (set_current_context c d) = error_output_ d.
Proof. done. Qed.

Lemma allocate_guid_output d g d' :
  allocate_guid d = Done g d' -> error_output_ d' = error_output_ d.
Proof.
  unfold allocate_guid, int_result, mbind, prog_bind. destruct (decide _); [|done].
  by intros [= <- <-].
Qed.

Lemma reports_allocate_symbol name l t : reports (allocate_symbol name l t).
Proof.
  intros d r d'. unfold allocate_symbol. destruct (_ !! name); [apply reports_reject|].
  by intros [= <- <-].
Qed.

Lemma reports_allocate_variable name l t : reports (allocate_variable name l t).
Proof.
  apply reports_checked; [apply reports_allocate_symbol|]. by intros s d r d' [= <- <-].
Qed.

Lemma reports_declare_exported name l e s : reports (declare_exported name l e s).
Proof.
  intros d r d'. unfold declare_exported. destruct (negb _); [apply reports_reject|].
  cbv zeta. destruct (bool_decide (decl_name_ d = "")).
  - destruct (_ && _); [apply reports_reject|].
    apply reports_bind; [apply allocate_guid_output|]. intros g. apply reports_ret.
  - cbn [decl_num_states_ set_decl_parameters]. destruct (_ && _); intros E.
    + apply reports_reject in E. exact E.
    + apply reports_bind in E; [|apply allocate_guid_output|intros g; apply reports_ret]. exact E.
Qed.

Lemma reports_declare_internal name l e vl s d r d' :
  decl_storage_ d <> INDIRECT_VAR -> declare_internal name l e vl s d = Done r d' ->
  match r with
  | Some _ => error_output_ d' = error_output_ d
  | None => exists msg, msg <> "" /\ error_output_ d' = error_output_ d +:+ msg
  end.
Proof.
  intros Hst. unfold declare_internal. cbv zeta. destruct (_ && _); [apply reports_reject|].
  destruct (init_command _ _) as [init|]; [|apply reports_reject].
  destruct (is_variable e); [done|]. destruct (decl_storage_ d); [by intros [= <- <-]|done|].
  apply (reports_bind _ (fun _ => _)); [by intros d1 a d2 [= _ <-]|]. intros _.
  apply reports_bind; [apply allocate_guid_output|]. intros g. apply reports_ret.
Qed.

Lemma reports_declare_variable name l e vl : reports (declare_variable name l e vl).
Proof.
  apply reports_checked; [apply reports_allocate_variable|]. intros key d r d' E.
  set (d1 := update_symbol key _ d) in E. cbv zeta in E.
  change (error_output_ d) with (error_output_ d1). revert E.
  destruct (symbol_table_ (current_context d1) !! key) as [s|]; [|done].
  destruct (bool_decide_reflect (decl_storage_ d1 = INDIRECT_VAR)) as [Hst|Hst].
  - apply reports_declare_exported.
  - by apply reports_declare_internal.
Qed.

Lemma reports_get_variable name l t : reports (get_variable name l t).
Proof.
  intros d r d'. unfold get_variable. destruct (find_symbol name d); [|apply reports_reject].
  destruct (negb _); [apply reports_reject|]. by intros [= <- <-].
Qed.

Lemma reports_get_variable_reference name l t : reports (get_variable_reference name l t).
Proof.
  apply reports_checked; [apply reports_get_variable|]. intros s.
  destruct (access_ s); [apply reports_ret..|apply reports_reject].
Qed.

Lemma reports_check_argument name a sa : reports (check_argument name a sa).
Proof.
  unfold check_argument. destruct (negb _); [apply reports_reject|].
  destruct (_ && _); [apply reports_reject|]. destruct (_ && _); [apply reports_reject|].
  apply reports_ret.
Qed.

Lemma reports_check_arguments name args sargs : reports (check_arguments name args sargs).
Proof.
  revert sargs. induction args as [|a args IH]; intros [|sa sargs]; try apply reports_ret.
  apply reports_checked; [apply reports_check_argument|]. intros _. apply IH.
Qed.

Lemma find_function_same name d r d' : find_function name d = Done r d' -> d' = d.
Proof.
  unfold find_function. destruct (_ !! name); [by intros [= _ <-]|].
  destruct (is_global_context d); [by intros [= _ <-]|done].
Qed.

Lemma reports_get_function_call name l args need :
  reports (get_function_call name l args need).
Proof.
  apply reports_bind; [by intros d a d' ->%find_function_same|]. intros [sym|]; [|apply reports_reject].
  destruct (args_ sym) as [sargs|], args as [args|]; try apply reports_reject.
  destruct (negb _); [apply reports_reject|].
  apply reports_checked; [apply reports_check_arguments|]. by intros _ d r d' [= <- <-].
Qed.

(** A member that returns a bool. *)
Definition accepts (f : Driver -> bool * Driver) : Prop :=
  forall d, let (ok, d') := f d in
    if ok then error_output_ d' = error_output_ d
    else exists msg, msg <> "" /\ error_output_ d' = error_output_ d +:+ msg.

Lemma rejected l m d : exists msg, msg <> "" /\ error_output_ (error_at l m d) = error_output_ d +:+ msg.
Proof. apply (reports_reject (A := unit) l m d None). reflexivity. Qed.

Lemma accepts_description l descr : accepts (set_var_description l descr).
Proof. intros d. unfold set_var_description. destruct (negb _); [apply rejected|done]. Qed.

Lemma accepts_num_states l n : accepts (set_var_num_states l n).
Proof.
  intros d. unfold set_var_num_states. destruct (negb _); [apply rejected|].
  destruct (negb _); [apply rejected|done].
Qed.

(** No function is declared inside of another. *)
Definition no_inner_functions (d : Driver) : Prop :=
  is_global_context d = false -> forall name s, symbol_table_ (current_context d) !! name = Some s -> is_function s = false.

Lemma find_function_found name d s :
  no_inner_functions d -> find_symbol name d = Some s -> is_function s = true ->
  find_function name d = Done (Some s) d.
Proof.
  unfold no_inner_functions, find_symbol, find_mutable_symbol, find_function. intros Hd E Hs.
  destruct (symbol_table_ (current_context d) !! name) as [s'|] eqn:Ec.
  - injection E as ->. destruct (is_global_context d) eqn:Eg.
    + unfold current_context in Ec. unfold is_global_context in Eg. destruct (in_function_ d); [done|]. by rewrite Ec.
    + exfalso. by rewrite (Hd eq_refl _ _ Ec) in Hs.
  - destruct (is_global_context d); [done|]. cbn [negb] in E.
    destruct (symbol_table_ (global_context_ d) !! name) as [s'|]; [|done].
    destruct (is_function s'); [by injection E as ->|done].
Qed.

Lemma parse_file_ok parse d :
  fst (parse_file parse d) = 0 <-> fst (parse d) = 0 /\ error_output_ (snd (parse d)) = "".
Proof.
  unfold parse_file. destruct (parse d) as [res d']. cbn [fst snd].
  destruct (bool_decide_reflect (error_output_ d' = "")) as [E|E]; cbn [negb fst].
  - split; [done|]. by intros [H _].
  - split; [done|]. by intros [_ H].
Qed.

(** *** Calls *)

Lemma check_argument_spec name a sa d r d' :
  check_argument name a sa d = Done r d' ->
  (r = Some tt /\ argument_ok a sa /\ d' = d) \/ (r = None /\ ~ argument_ok a sa).
Proof.
  unfold check_argument, argument_ok.
  destruct (bool_decide_reflect (get_data_type (expr_ a) = builtin_type_ (arg_type_ sa))) as [Ht|Ht].
  - destruct (is_variable (expr_ a)), (bool_decide_reflect (arg_access_ sa = INDIRECT_VAR)) as [H1|H1],
      (bool_decide_reflect (arg_access_ sa = LOCAL_VAR)) as [H2|H2]; cbn [negb andb];
      intros [= <- <-]; try (by left); right; (split; [done|]); intros [_ E]; congruence.
  - intros [= <- <-]. right. split; [done|]. by intros [? _].
Qed.

Lemma check_arguments_spec name args sargs d r d' :
  length args = length sargs -> check_arguments name args sargs d = Done r d' ->
  (r = Some tt /\ Forall2 argument_ok args sargs /\ d' = d) \/
  (r = None /\ ~ Forall2 argument_ok args sargs).
Proof.
  revert sargs d. induction args as [|a args IH]; intros [|sa sargs] d Hlen E; try done.
  - injection E as <- <-. left. by repeat constructor.
  - simpl in E. apply bind_Done in E as (r1 & d1 & E1 & E).
    apply check_argument_spec in E1 as [(-> & Ha & ->)|(-> & Ha)].
    + apply IH in E as [(-> & Hall & ->)|(-> & Hall)]; [left|right|by injection Hlen].
      * repeat split. by constructor.
      * split; [done|]. intros Hf. by inversion Hf.
    + injection E as <- <-. right. split; [done|]. intros Hf. by inversion Hf.
Qed.

Lemma check_arguments_total name args sargs d :
  exists r d', check_arguments name args sargs d = Done r d'.
Proof.
  revert sargs d. induction args as [|a args IH]; intros [|sa sargs] d; simpl; eauto.
  unfold checked, mbind, prog_bind, check_argument.
  destruct (negb _); [eauto|]. destruct (_ && _); [eauto|]. destruct (_ && _); [eauto|]. apply IH.
Qed.

(** *** Slots *)

Lemma current_set_current c d : current_context (set_current_context c d) = c.
Proof. unfold current_context, set_current_context. by destruct (in_function_ d) eqn:E; simpl; rewrite ?E. Qed.

Lemma allocate_symbol_Some name l t d key d' :
  allocate_symbol name l t d = Done (Some key) d' ->
  key = name /\ symbol_table_ (current_context d) !! name = None /\
  current_context d' = mkContext (<[name := set_symbol_type t Symbol_new]>
                          (symbol_table_ (current_context d))) (frame_size_ (current_context d)) /\
  decl_type_ d' = decl_type_ d /\ decl_storage_ d' = decl_storage_ d /\ next_guid_ d' = next_guid_ d.
Proof.
  unfold allocate_symbol. destruct (_ !! name) eqn:E; [done|]. intros [= <- <-].
  unfold set_current_symbol. rewrite current_set_current. done.
Qed.

(** The symbol of a new variable. *)
Definition new_variable (t : DataType) (a : Access) (ofs : Z) : Symbol :=
  mkSymbol VARIABLE a t ofs None.

Lemma allocate_variable_Some name l d key d' :
  0 <= frame_size_ (current_context d) < INT_MAX ->
  allocate_variable name l VARIABLE d = Done (Some key) d' ->
  key = name /\ symbol_table_ (current_context d) !! name = None /\
  symbol_table_ (current_context d') =
    <[name := new_variable DATATYPE_VOID LOCAL_VAR (frame_size_ (current_context d))]>
      (symbol_table_ (current_context d)) /\
  frame_size_ (current_context d') = frame_size_ (current_context d) + 1 /\
  decl_type_ d' = decl_type_ d /\ decl_storage_ d' = decl_storage_ d /\ next_guid_ d' = next_guid_ d.
Proof.
  intros Hsz E. unfold allocate_variable, checked in E. apply bind_Done in E as (k & d1 & E1 & E).
  destruct k as [k|]; [|done].
  apply allocate_symbol_Some in E1 as (-> & Hn & Hc & Ht & Hs & Hg).
  cbv zeta in E. injection E as <- <-. split; [done|]. split; [done|].
  rewrite !current_set_current. unfold update_symbol. rewrite !current_set_current, Hc. simpl.
  split; [|split; [|done]].
  - rewrite alter_insert_eq. unfold set_fp_offset. simpl. unfold new_variable.
    do 2 f_equal. apply s32_small. unfold is_int32, INT_MIN, INT_MAX in *. lia.
  - apply u32_small. unfold is_uint32, INT_MAX in *. lia.
Qed.

Lemma context_ok_allocate c name t a :
  context_ok c -> frame_size_ c < INT_MAX -> symbol_table_ c !! name = None ->
  context_ok (mkContext (<[name := new_variable t a (frame_size_ c)]> (symbol_table_ c))
                (frame_size_ c + 1)).
Proof.
  intros [Hslot Hdist Hsz] Hlt Hn. split; simpl; [..|lia].
  - intros n s. rewrite lookup_insert_Some. intros [[_ <-]|[_ Hs]] Hv; simpl; [lia|].
    specialize (Hslot n s Hs Hv). lia.
  - intros n1 n2 s1 s2. rewrite !lookup_insert_Some.
    intros [[<- <-]|[Hn1 H1]] [[<- <-]|[Hn2 H2]] V1 V2 H0 He; simpl in *; try done.
    + specialize (Hslot n2 s2 H2 V2). lia.
    + specialize (Hslot n1 s1 H1 V1). lia.
    + by apply (Hdist n1 n2 s1 s2).
Qed.

Lemma allocate_guid_same d g d' :
  allocate_guid d = Done g d' ->
  g = next_guid_ d /\ d' = set_next_guid (next_guid_ d + 1) d.
Proof.
  unfold allocate_guid, int_result, mbind, prog_bind. destruct (decide _); [|done].
  by intros [= <- <-].
Qed.

Lemma current_set_next_guid g d : current_context (set_next_guid g d) = current_context d.
Proof. done. Qed.

(** What [declare_exported] and [declare_internal] make of a new symbol. *)
Lemma declare_exported_Some name l e s d c d' :
  declare_exported name l e s d = Done (Some c) d' ->
  creates c (fp_offset_ s) /\ symbol_table_ (current_context d') = symbol_table_ (current_context d) /\
  frame_size_ (current_context d') = frame_size_ (current_context d).
Proof.
  unfold declare_exported. destruct (negb _); [done|]. cbv zeta.
  destruct (bool_decide (decl_name_ d = "")).
  - destruct (_ && _); [done|]. intros E. apply bind_Done in E as (g & d1 & E1 & E).
    apply allocate_guid_same in E1 as [-> ->]. by injection E as <- <-.
  - destruct (_ && _); [done|]. intros E. apply bind_Done in E as (g & d1 & E1 & E).
    apply allocate_guid_same in E1 as [-> ->]. by injection E as <- <-.
Qed.

Lemma declare_internal_Some name l e vl s d c d' :
  declare_internal name l e vl s d = Done (Some c) d' ->
  creates c (fp_offset_ s) /\ frame_size_ (current_context d') = frame_size_ (current_context d) /\
  symbol_table_ (current_context d') =
    (if bool_decide (decl_storage_ d = STATIC_VAR)
     then alter (set_access INDIRECT_VAR) name (symbol_table_ (current_context d))
     else symbol_table_ (current_context d)).
Proof.
  unfold declare_internal. cbv zeta. destruct (_ && _); [done|].
  destruct (init_command _ _) as [init|]; [|done]. destruct (is_variable e); [done|]. destruct (decl_storage_ d) eqn:Es; [|done|].
  - intros [= <- <-]. rewrite bool_decide_false by done. done.
  - intros E. apply bind_Done in E as ([] & d1 & E1 & E). injection E1 as <-.
    apply bind_Done in E as (g & d2 & E2 & E). apply allocate_guid_same in E2 as [-> ->].
    injection E as <- <-. rewrite current_set_next_guid, bool_decide_true by done.
    unfold update_symbol. by rewrite current_set_current.
Qed.

(** ** Theorems *)

(** Every variable has a slot of its own: a declaration that is
    accepted binds the name to the next free slot of the stack frame with the
    declared type, makes the command create the variable in that slot, and no
    two variables of the scope share a slot. *)
Theorem declare_variable_allocates name l e vl d c d' :
  context_ok (current_context d) -> frame_size_ (current_context d) < INT_MAX ->
  declare_variable name l e vl d = Done (Some c) d' ->
  let size := frame_size_ (current_context d) in
  symbol_table_ (current_context d) !! name = None /\
  context_ok (current_context d') /\ frame_size_ (current_context d') = size + 1 /\
  creates c size /\
  exists a, symbol_table_ (current_context d') =
    <[name := new_variable (builtin_type_ (decl_type_ d)) a size]> (symbol_table_ (current_context d)).
Proof.
  intros Hok Hsz E size. unfold declare_variable, checked in E.
  apply bind_Done in E as (key & d1 & E1 & E). destruct key as [key|]; [|done].
  apply allocate_variable_Some in E1 as (-> & Hn & Ht & Hf & Hdt & Hds & _);
    [|split; [apply (ctx_size _ Hok)|done]].
  fold size in Ht, Hf. cbv zeta in E. rewrite Hdt, Hds in E.
  set (d2 := update_symbol name _ d1) in E.
  assert (Hc2 : current_context d2 =
            mkContext (<[name := new_variable (builtin_type_ (decl_type_ d)) (decl_storage_ d) size]>
                         (symbol_table_ (current_context d))) (size + 1)).
  { unfold d2, update_symbol. rewrite current_set_current, Ht, Hf, alter_insert_eq. done. }
  assert (Hs2 : decl_storage_ d2 = decl_storage_ d) by done.
  rewrite Hc2 in E. cbn [symbol_table_] in E. rewrite lookup_insert_eq in E.
  split; [done|].
  assert (Hfin : creates c size /\ frame_size_ (current_context d') = size + 1 /\
            exists a, symbol_table_ (current_context d') =
              <[name := new_variable (builtin_type_ (decl_type_ d)) a size]>
                (symbol_table_ (current_context d))).
  { destruct (bool_decide_reflect (decl_storage_ d2 = INDIRECT_VAR)) as [Hst|Hst].
    - apply declare_exported_Some in E as (Hc & Htab & Hfr). rewrite Htab, Hfr, Hc2.
      split; [done|]. split; [done|]. by eexists.
    - apply declare_internal_Some in E as (Hc & Hfr & Htab). rewrite Htab, Hfr, Hc2.
      split; [done|]. split; [done|]. cbn [symbol_table_].
      destruct (bool_decide _); [rewrite alter_insert_eq|]; by eexists. }
  destruct Hfin as (Hc & Hfr & a & Htab). split; [|by eauto].
  pose proof (context_ok_allocate _ name (builtin_type_ (decl_type_ d)) a Hok Hsz Hn) as Hctx.
  fold size in Hctx. rewrite <- Htab, <- Hfr in Hctx.
  by destruct (current_context d').
Qed.

(** Calls are type checked: a call of a declared function is accepted
    exactly if the number of arguments is right and each has the type of its
    parameter and is a reference exactly where one is asked for; otherwise an
    error is reported.  A name that is not declared is reported in the global
    scope, and is undefined behaviour in a function. *)
Theorem get_function_call_checks name l args need d :
  match symbol_table_ (global_context_ d) !! name with
  | Some sym =>
      match args_ sym with
      | Some sargs =>
          (Forall2 argument_ok args sargs ->
           get_function_call name l (Some args) need d =
           Done (Some (mkFunctionCall (s32 (frame_size_ (current_context d))) name name
                         (List.map expr_ args) need)) d) /\
          (~ Forall2 argument_ok args sargs ->
           exists msg d', get_function_call name l (Some args) need d = Done None d' /\
             msg <> "" /\ error_output_ d' = error_output_ d +:+ msg)
      | None =>
          exists msg d', get_function_call name l (Some args) need d = Done None d' /\
            msg <> "" /\ error_output_ d' = error_output_ d +:+ msg
      end
  | None =>
      if in_function_ d then get_function_call name l (Some args) need d = Crashed DanglingPointer
      else exists msg d', get_function_call name l (Some args) need d = Done None d' /\
             msg <> "" /\ error_output_ d' = error_output_ d +:+ msg
  end.
Proof.
  assert (Hrep : forall d', get_function_call name l (Some args) need d = Done None d' ->
            exists msg d', get_function_call name l (Some args) need d = Done None d' /\
             msg <> "" /\ error_output_ d' = error_output_ d +:+ msg).
  { intros d' E. pose proof (reports_get_function_call _ _ _ _ _ _ _ E) as (msg & ? & ?).
    by exists msg, d'. }
  destruct (symbol_table_ (global_context_ d) !! name) as [sym|] eqn:Es.
  - assert (Hff : find_function name d = Done (Some sym) d) by (unfold find_function; by rewrite Es).
    destruct (args_ sym) as [sargs|] eqn:Ea.
    + assert (Hgc : get_function_call name l (Some args) need d =
                if negb (zlen args =? zlen sargs) then
                  reject l ("Syntax error. Function " +:+ name +:+ " takes " +:+ pretty (zlen sargs)
                            +:+ " argument(s), given " +:+ pretty (zlen args) +:+ ".") d
                else checked (check_arguments name args sargs) (fun _ d =>
                  Done (Some (mkFunctionCall (s32 (frame_size_ (current_context d))) name name
                                (List.map expr_ args) need)) d) d).
      { unfold get_function_call, mbind, prog_bind. rewrite Hff, Ea. by destruct (negb _). }
      rewrite Hgc in *. destruct (Z.eqb_spec (zlen args) (zlen sargs)) as [El|El]; cbn [negb] in *.
      * destruct (check_arguments_total name args sargs d) as (r & d1 & Ec).
        unfold checked, mbind, prog_bind in *. rewrite Ec in *.
        assert (Hl : length args = length sargs) by (unfold zlen in El; lia).
        apply (check_arguments_spec _ _ _ _ _ _ Hl) in Ec as [(-> & Hall & ->)|(-> & Hall)].
        -- done.
        -- split; [done|]. intros _. by apply (Hrep d1).
      * split; [|intros _; by eapply Hrep].
        intros Hall%Forall2_length. unfold zlen in El. lia.
    + eapply Hrep. unfold get_function_call, mbind, prog_bind. by rewrite Hff, Ea.
  - destruct (in_function_ d) eqn:Ef.
    + unfold get_function_call, find_function, is_global_context, mbind, prog_bind. by rewrite Es, Ef.
    + eapply Hrep. unfold get_function_call, find_function, is_global_context, mbind, prog_bind.
      by rewrite Es, Ef.
Qed.

(** C40: No syntax error gets lost: a member of the driver that tells the parser
    to give up has added an error to the output, and one that does not has left
    the output alone.  [find_function], which reports nothing, finds every name
    that the scanner has taken for a function, as long as no function is
    declared inside of another.  [parse_file] returns 0 exactly if the parser did
    and the output has no error. *)
Theorem rejections_are_reported :
  (forall name l t, reports (allocate_symbol name l t)) /\
  (forall name l t, reports (allocate_variable name l t)) /\
  (forall name l e vl, reports (declare_variable name l e vl)) /\
  (forall name l t, reports (get_variable name l t)) /\
  (forall name l t, reports (get_variable_reference name l t)) /\
  (forall name l args need, reports (get_function_call name l args need)) /\
  (forall l descr, accepts (set_var_description l descr)) /\
  (forall l n, accepts (set_var_num_states l n)) /\
  (forall name d s, no_inner_functions d -> find_symbol name d = Some s -> is_function s = true ->
     find_function name d = Done (Some s) d) /\
  (forall parse d, fst (parse_file parse d) = 0 <-> fst (parse d) = 0 /\ error_output_ (snd (parse d)) = "").
Proof.
  repeat split_and!; intros; eauto using reports_allocate_symbol, reports_allocate_variable,
    reports_declare_variable, reports_get_variable, reports_get_variable_reference,
    reports_get_function_call, accepts_description, accepts_num_states, find_function_found, parse_file_ok.
Qed.

(** When a syntactic scope is left, [trim_stack] keeps exactly the
    variables in the slots above the new size, and the symbols without a
    slot. *)
Theorem trim_stack_keeps new_size d name s :
  is_int32 new_size ->
  symbol_table_ (current_context (trim_stack new_size d)) !! name = Some s <->
  symbol_table_ (current_context d) !! name = Some s /\ (fp_offset_ s < 0 \/ new_size < fp_offset_ s).
Proof.
  intros Hs. unfold trim_stack. rewrite current_set_current. cbn [symbol_table_].
  rewrite map_lookup_filter_Some. cbn [snd]. unfold trimmed. rewrite s32_small by done.
  destruct (Z.leb_spec 0 (fp_offset_ s)), (Z.leb_spec (fp_offset_ s) new_size);
    cbn [andb negb]; intuition (try lia; congruence).
Qed.
