(* ===== verification/Program.v ===== *)
(** Whole programs: what the machine does with the code that
    [Driver::serialize] (src/cs/logic/Driver.cxx) generates, in preamble mode,
    where the exported variables are created, and in normal mode. *)

From S2P Require Import Prelude Bytecode Variables VMState VM AST Driver Codegen Semantics Simulation CallSim ExprSim CmdSim.

(** ** The code of a program *)

(** The code of [serialize_preamble]. *)
Definition code_preamble (c : Command) : list Z := serialize_preamble c [].

Definition code_prologue (l : list Command) : list Z :=
  let preamble := List.concat (List.map code_preamble l) ++ op1 TERMINATE in
  op1 IF_PREAMBLE ++ opv TEST_JUMP_IF_FALSE (zlen preamble) ++ preamble.

Definition wf_preamble (c : Command) : Prop :=
  match c with
  | IndirectVarCreate guid _ _ num_states _ _ => is_int32 guid /\ is_int32 num_states
  | _ => True
  end.

(** ** Programs that have a meaning *)

(** An expression, or a command as far as it is executed, without a call.  The
    body of a function is only executed by calls. *)
Fixpoint call_free_int (e : IntExpression) : bool :=
  match e with
  | IntVariable _ | IntConstant _ => true
  | IntBinaryExpression _ l r => call_free_int l && call_free_int r
  | IntFunctionCall _ => false
  end.

Fixpoint call_free_bool (e : BooleanExpression) : bool :=
  match e with
  | BoolVariable _ | BooleanConstant _ => true
  | IntComp _ l r => call_free_int l && call_free_int r
  | BoolNot l => call_free_bool l
  | BoolAnd l r | BoolOr l r | BoolCmp _ l r => call_free_bool l && call_free_bool r
  | BoolFunctionCall _ => false
  end.

Fixpoint call_free (c : Command) : bool :=
  match c with
  | CommandSequence commands _ _ => forallb call_free commands
  | StaticVarCreate _ _ _ _ init | LocalVarCreate _ _ _ init => call_free init
  | NumericAssignment _ e | PrintInt e | IntCmd e => call_free_int e
  | BooleanAssignment _ e | BoolCmd e => call_free_bool e
  | IfThenElse b t e => call_free_bool b && call_free t && match e with Some e => call_free e | None => true end
  | FunctionCallCmd _ => false
  | EmptyCommand | IndirectVarCreate _ _ _ _ _ _ | Function _ _ _ _ | PrintString _ | Terminate => true
  end.

(** A computation that always has a meaning. *)
Definition meaningful {D A} (m : sem D A) : Prop := forall d, m d <> Stuck.

Lemma meaningful_ret {D A} (a : A) : meaningful (D := D) (mret a).
Proof. done. Qed.

Lemma meaningful_lift {D A} (m : prog D A) : meaningful (lift m).
Proof. intros d. unfold lift, of_outcome. by destruct (m d). Qed.

Lemma meaningful_halt {D A} : meaningful (@halt D A).
Proof. done. Qed.

Lemma meaningful_bind {D A B} (m : sem D A) (k : A -> sem D B) :
  meaningful m -> (forall a, meaningful (k a)) -> meaningful (m ≫= k).
Proof.
  intros Hm Hk d. unfold mbind, sem_bind. specialize (Hm d). destruct (m d) as [a d'|d'| |c|]; try done. apply Hk.
Qed.

Create HintDb meaning.
#[export] Hint Resolve meaningful_ret meaningful_lift meaningful_halt meaningful_bind : meaning.

Section Meaning.
Context {W H : Type} `{F : !VariableFactory W H}.

Lemma meaningful_hold {A} v (m : sem (@VMData W H) A) : meaningful m -> meaningful (hold v m).
Proof. unfold hold, push_value, pop. eauto with meaning. Qed.

Lemma meaningful_fetch v : meaningful (fetch (W := W) (H := H) v).
Proof. destruct v; cbn; eauto with meaning. Qed.

Lemma meaningful_store v n : meaningful (store (W := W) (H := H) v n).
Proof.
  destruct v; cbn; [apply meaningful_lift|]. apply meaningful_bind; [apply meaningful_hold, meaningful_lift|].
  intros [? ?]. apply meaningful_lift.
Qed.

Lemma meaningful_held {B} (l r : sem (@VMData W H) Z) (op : Z -> Z -> sem (@VMData W H) B) :
  meaningful l -> meaningful r -> (forall a b, meaningful (op a b)) ->
  meaningful (a ← l; '(a, b) ← hold a r; op a b).
Proof.
  intros Hl Hr Hop. apply meaningful_bind; [done|]. intros a. apply meaningful_bind; [by apply meaningful_hold|].
  by intros [? ?].
Qed.

Lemma meaningful_int (fns : gmap string (sem (@VMData W H) unit)) e :
  wf_int e -> call_free_int e = true -> meaningful (eval_int fns e).
Proof.
  induction e as [v|op l IHl r IHr|v|fc]; intros Hwf Hf; cbn in *; [apply meaningful_fetch| |done..].
  destruct Hwf as (Hop & Hl & Hr). apply andb_prop in Hf as [Hfl Hfr].
  apply meaningful_held; [auto..|]. intros a b. by destruct op; try done; apply meaningful_lift.
Qed.

Lemma meaningful_bool (fns : gmap string (sem (@VMData W H) unit)) e :
  wf_bool e -> call_free_bool e = true -> meaningful (eval_bool fns e).
Proof.
  induction e as [v|op l r|v|l IHl|l IHl r IHr|op l IHl r IHr|l IHl r IHr|fc]; intros Hwf Hf; cbn in *;
    [apply meaningful_fetch| |done| | | | |done].
  - destruct Hwf as (Hop & Hl & Hr). apply andb_prop in Hf as [Hfl Hfr].
    apply meaningful_held; [by apply meaningful_int..|]. intros a b. by destruct op.
  - apply meaningful_bind; [auto|]. auto with meaning.
  - destruct Hwf as [Hl Hr]. apply andb_prop in Hf as [Hfl Hfr]. apply meaningful_bind; [auto|]. intros a.
    destruct (_ =? 0); auto with meaning.
  - destruct Hwf as (Hop & Hl & Hr). apply andb_prop in Hf as [Hfl Hfr].
    apply meaningful_held; [auto..|]. intros a b. by destruct op.
  - destruct Hwf as [Hl Hr]. apply andb_prop in Hf as [Hfl Hfr]. apply meaningful_bind; [auto|]. intros a.
    destruct (_ =? 0); auto with meaning.
Qed.

Lemma meaningful_trim from to_ : meaningful (trim (W := W) (H := H) from to_).
Proof.
  unfold trim. destruct (0 <=? from); [|done]. apply meaningful_bind; [apply meaningful_lift|]. intros _.
  destruct (0 <=? to_); auto with meaning.
Qed.

Lemma meaningful_seq declared is_root l fns :
  Forall (fun c => forall root fns, meaningful (exec (W := W) (H := H) declared c root fns)) l ->
  meaningful (exec_seq declared is_root l fns).
Proof.
  intros Hl. revert fns. induction Hl as [|c l Hc _ IH]; intros fns; [done|]. cbn [exec_seq].
  apply meaningful_bind; [apply Hc|auto].
Qed.

Lemma meaningful_exec declared c is_root fns :
  wf_cmd c -> call_free c = true -> meaningful (exec (W := W) (H := H) declared c is_root fns).
Proof.
  revert is_root fns. induction c using Command_ind'; intros root fns Hwf Hf; cbn [call_free] in Hf; try done;
    try (exact (meaningful_lift _)).
  - apply wf_cmds in Hwf as (_ & _ & Hl). apply meaningful_bind; [|intros _; apply meaningful_trim].
    apply meaningful_seq. rewrite forallb_forall in Hf. rewrite List.Forall_forall in *.
    intros c Hc root' fns'. by apply H0; auto.
  - destruct Hwf as (_ & _ & Hwf). cbn [exec]. apply meaningful_bind; [apply meaningful_lift|]. intros _.
    apply meaningful_bind; [apply meaningful_lift|]. intros x. destruct (x =? 0); [done|].
    apply meaningful_bind; [auto|]. intros _. unfold pop. auto with meaning.
  - destruct Hwf as [_ Hwf]. cbn [exec]. apply meaningful_bind; [apply meaningful_lift|]. auto.
  - destruct Hwf as [_ Hwf]. apply meaningful_bind; [by apply meaningful_int|]. intros x. apply meaningful_store.
  - destruct Hwf as [_ Hwf]. apply meaningful_bind; [by apply meaningful_bool|]. intros x. apply meaningful_store.
  - destruct Hwf as (Hb & Ht & _). rewrite andb_true_r in Hf. apply andb_prop in Hf as [Hf1 Hf2].
    apply meaningful_bind; [by apply meaningful_bool|]. intros x. destruct (x =? 0); [done|auto].
  - destruct Hwf as (Hb & Ht & He). apply andb_prop in Hf as [[Hf1 Hf2]%andb_prop Hf3].
    apply meaningful_bind; [by apply meaningful_bool|]. intros x. destruct (x =? 0); auto.
  - apply meaningful_bind; [by apply meaningful_int|]. intros x. apply meaningful_lift.
  - apply meaningful_bind; [by apply meaningful_int|]. intros x. apply meaningful_lift.
  - apply meaningful_bind; [by apply meaningful_bool|]. intros x. apply meaningful_lift.
Qed.

End Meaning.

Section Program.
Context {W H : Type} `{F : !VariableFactory W H}.

Abbreviation VMData := (@VMData W H).
Abbreviation VM := (@VM W H).
Abbreviation sem := (sem VMData).
Implicit Types (d : VMData).

(** ** Reference semantics of a program *)

(** Calls in block [b] reach the functions in the symbol table if [b] is 0. *)
Definition declared_in (st : SymbolTable) (b : Z) (name : string) : bool :=
  bool_decide (b = 0 /\ is_Some (st !! name)).

Definition run_commands (st : SymbolTable) (b : Z) (l : list Command) : sem unit :=
  exec_seq (declared_in st b) true l ∅.

(** What a command does in preamble mode. *)
Definition create_exported (c : Command) : sem unit :=
  match c with
  | IndirectVarCreate guid _ type num_states name _ =>
      lift (modify_state (set_string_acc name));;
      lift (create_var guid (if decide (type = DATATYPE_BOOL) then -1 else num_states))
  | _ => mret tt
  end.

Fixpoint run_preamble (l : list Command) : sem unit :=
  match l with
  | [] => halt
  | c :: l => create_exported c;; run_preamble l
  end.

(** [r] is how [VM::execute] ends, given enough fuel. *)
Definition runs_as {A} (run : nat -> option (outcome VM unit)) (r : sem_result VMData A) : Prop :=
  match r with
  | Returns _ d | Halts d =>
      exists n s, data s = d /\ forall fuel, (n <= fuel)%nat -> run fuel = Some (Done tt s)
  | Fails => exists n s, forall fuel, (n <= fuel)%nat -> run fuel = Some (Failed s)
  | Crashes c => exists n, forall fuel, (n <= fuel)%nat -> run fuel = Some (Crashed c)
  | Stuck => True
  end.

(** ** Lemmas *)

Lemma runs_as_ext {A} (run run' : nat -> option (outcome VM unit)) (r : sem_result VMData A) :
  (forall fuel, run fuel = run' fuel) -> runs_as run' r -> runs_as run r.
Proof.
  intros E. destruct r; simpl; [| | | |done].
  - intros (n & s & Hd & Hr). exists n, s. split; [done|]. intros. rewrite E. auto.
  - intros (n & s & Hd & Hr). exists n, s. split; [done|]. intros. rewrite E. auto.
  - intros (n & s & Hr). exists n, s. intros. rewrite E. auto.
  - intros (n & Hr). exists n. intros. rewrite E. auto.
Qed.

Lemma execute_steps s s' :
  steps s s' -> exists n, forall fuel, (n <= fuel)%nat -> execute fuel s = execute (fuel - n) s'.
Proof.
  intros Hs. apply steps_execute in Hs as [n Hn]. exists n. intros fuel Hf.
  rewrite <- Hn. f_equal. lia.
Qed.

(** A simulation that ends at the end of the code is a complete run. *)
Lemma sim_execute {A} (r : sem_result VMData A) s post :
  sim r s post ->
  (forall a d s', r = Returns a d -> post a d s' -> at_eof s' = Done true s' /\ data s' = d) ->
  runs_as (fun fuel => execute fuel s) r.
Proof.
  intros Hs Hend. destruct r as [a d|d| |k|]; [| | | |done].
  - destruct Hs as (s' & Hs & Hp). apply (Hend _ _ _ eq_refl) in Hp as [He Hd].
    apply execute_steps in Hs as [n Hn]. exists (S n), s'. split; [done|].
    intros fuel Hf. rewrite Hn by lia. destruct (fuel - n)%nat as [|m] eqn:E; [lia|].
    simpl. by rewrite He.
  - destruct Hs as (s1 & s2 & Hs & He & Hstep & Hd).
    apply execute_steps in Hs as [n Hn]. exists (S n), s2. split; [done|].
    intros fuel Hf. rewrite Hn by lia. destruct (fuel - n)%nat as [|m] eqn:E; [lia|].
    simpl. by rewrite He, Hstep.
  - destruct Hs as (s1 & s2 & Hs & He & Hstep).
    apply execute_steps in Hs as [n Hn]. exists (S n), s2.
    intros fuel Hf. rewrite Hn by lia. destruct (fuel - n)%nat as [|m] eqn:E; [lia|].
    simpl. by rewrite He, Hstep.
  - destruct Hs as (s1 & Hs & He & Hstep).
    apply execute_steps in Hs as [n Hn]. exists (S n).
    intros fuel Hf. rewrite Hn by lia. destruct (fuel - n)%nat as [|m] eqn:E; [lia|].
    simpl. by rewrite He, Hstep.
Qed.

Lemma preamble_app c out : serialize_preamble c out = out ++ code_preamble c.
Proof.
  unfold code_preamble. destruct c; simpl; rewrite ?app_nil_r; try done.
  unfold IndirectVarCreate_serialize_preamble. destruct (decide _); emit; by rewrite <- ?app_assoc.
Qed.

Lemma preambles_app l out :
  fold_left (fun output c => serialize_preamble c output) l out =
  out ++ List.concat (List.map code_preamble l).
Proof.
  revert out. induction l as [|c l IH]; intros out; simpl; [by rewrite app_nil_r|].
  by rewrite IH, preamble_app, <- app_assoc.
Qed.

(** The output of the driver: the prologue and the code of the commands. *)
Lemma Driver_serialize_code (dr : Driver) :
  let l := commands_ dr in
  let '(s, code) := compile_seq true l (ser_state dr) (zlen (code_prologue l)) in
  Driver_serialize [] dr = (code_prologue l ++ code, with_ser_state s dr).
Proof.
  cbv zeta. unfold Driver_serialize, serialize_preambles. rewrite preambles_app.
  assert (E : append_varint (append_opcode (append_opcode [] IF_PREAMBLE) TEST_JUMP_IF_FALSE)
            (zlen (append_opcode (List.concat (List.map code_preamble (commands_ dr))) TERMINATE))
          ++ append_opcode (List.concat (List.map code_preamble (commands_ dr))) TERMINATE
          = code_prologue (commands_ dr)) by (by emit).
  rewrite app_nil_l, E, serialize_fold_app.
  - by destruct (compile_seq _ _ _ _) as [s code].
  - apply Forall_forall. intros c _ r s out. apply serialize_compile.
Qed.

(** ** The prologue *)

Lemma step_IF_PREAMBLE c d :
  code_at c (op1 IF_PREAMBLE) ->
  steps (mkVM d c)
    (mkVM (pushv (if is_preamble_ d then 1 else 0) d) (adv_c (zlen (op1 IF_PREAMBLE)) c)).
Proof.
  intros Hc. apply sim_plain_steps.
  by eapply (sim_op1 IF_PREAMBLE (fun _ => insn_IF_PREAMBLE)).
Qed.

(** In normal mode the prologue is skipped, in preamble mode it is entered. *)
Lemma steps_prologue b C l ct d :
  let preamble := List.concat (List.map code_preamble l) ++ op1 TERMINATE in
  running b C ct d -> code_at ct (code_prologue l) ->
  exists c', steps (mkVM d ct) (mkVM d c') /\
    if is_preamble_ d then running b C c' d /\ code_at c' preamble
    else c' = adv_c (zlen (code_prologue l)) ct.
Proof.
  intros preamble Hr Hc. unfold code_prologue in *. fold preamble in Hc |- *.
  pose proof (code_at_adv _ _ _ Hc) as Hj. set (c1 := adv_c _ ct) in Hj.
  pose proof (code_at_adv _ _ _ Hj) as Hp. set (c2 := adv_c _ c1) in Hp.
  assert (Hr2 : running b C c2 d) by (by do 2 apply running_adv).
  eexists. split.
  - eapply steps_trans; [by eapply step_IF_PREAMBLE, code_at_app_l|].
    eapply sim_plain_steps,
      (sim_test_jump TEST_JUMP_IF_FALSE "TEST_JUMP_IF_FALSE" (fun v => v =? 0));
      [done|done| |by eapply code_at_app_l]. by eapply running_int32.
  - rewrite !adv_c_app. destruct (is_preamble_ d); simpl.
    + rewrite Z.add_0_r. done.
    + by rewrite <- adv_c_add.
Qed.

Lemma sim_CREATE_VAR guid num_states ct d :
  let code := op1 CREATE_VAR ++ varint guid ++ varint num_states in
  is_int32 guid -> is_int32 num_states -> code_at ct code ->
  sim (lift (create_var guid num_states) d) (mkVM d ct) (plain (adv_c (zlen code) ct)).
Proof.
  intros code Hg Hn Hc. eapply sim_instr; [exact Hc|done|]. cbn [exec_opcode].
  unfold insn_CREATE_VAR, mbind, prog_bind.
  change (adv 1 (mkVM d ct)) with (mkVM d (adv_c (zlen (op1 CREATE_VAR)) ct)).
  unfold code in *. rewrite !adv_c_app. apply code_at_adv in Hc.
  rewrite (parse_varint_c _ _ _ _ Hg Hc). apply code_at_adv in Hc.
  rewrite <- (app_nil_r (varint num_states)) in Hc.
  rewrite (parse_varint_c _ _ _ _ Hn Hc). unfold on_data, lift. cbn [data].
  destruct (create_var guid num_states d) as [[] d'| |]; cbn; [|by left..].
  by apply sim_ret.
Qed.

Lemma code_preamble_indirect guid arg type num_states name ofs :
  let n := if decide (type = DATATYPE_BOOL) then -1 else num_states in
  code_preamble (IndirectVarCreate guid arg type num_states name ofs) =
  (opv LOAD_STRING (zlen (bytes_of_string name)) ++ bytes_of_string name)
  ++ op1 CREATE_VAR ++ varint guid ++ varint n.
Proof.
  unfold code_preamble. simpl. unfold IndirectVarCreate_serialize_preamble.
  destruct (decide _); emit; done.
Qed.

Lemma sim_create_exported b C c ct d :
  wf_preamble c -> running b C ct d -> code_at ct (code_preamble c) ->
  sim (create_exported c d) (mkVM d ct) (plain (adv_c (zlen (code_preamble c)) ct)).
Proof.
  intros Hwf Hr Hc.
  destruct c; try (apply sim_ret; unfold plain; by rewrite adv_c_0).
  rewrite code_preamble_indirect in *. rewrite adv_c_app. destruct Hwf as [Hg Hn].
  simpl create_exported. eapply sim_bind; [by eapply (sim_LOAD_STRING b C), code_at_app_l|].
  intros [] d1 s1 _ ->. apply code_at_adv in Hc. apply sim_CREATE_VAR; [done| |done].
  by destruct (decide _).
Qed.

#[global] Instance keepsP_create_var g n : KeepsP (create_var (W := W) (H := H) g n).
Proof.
  intros d x d'. unfold create_var. cbv zeta. destruct (create_variable _ _) as [[[h|] w]|]; [|done|done].
  apply keepsP_after; [done|apply _].
Qed.

#[global] Instance keeps_create_exported c : Keeps (create_exported c).
Proof. destruct c; apply _. Qed.

Lemma sim_preamble b C l ct d :
  Forall wf_preamble l -> running b C ct d ->
  code_at ct (List.concat (List.map code_preamble l) ++ op1 TERMINATE) ->
  sim (run_preamble l d) (mkVM d ct) (fun _ _ _ => False).
Proof.
  intros Hwf. revert ct d. induction Hwf as [|c l Hc _ IH]; intros ct d Hr Hat; simpl.
  - exact (sim_halt d ct (fun (_ : unit) _ _ => False) Hat).
  - simpl in Hat. rewrite <- app_assoc in Hat.
    eapply sim_bind; [by eapply sim_create_exported, code_at_app_l|].
    intros [] d1 s1 E ->. apply keeps in E. apply code_at_adv in Hat.
    apply IH; [|done]. apply running_adv. by eapply running_same.
Qed.

(** ** Complete runs *)

(** A machine that is ready to run the program [C] as block [b]: a frame is
    open, as after [VM::clear], and the code was stored with
    [set_block_code]. *)
Record ready (b : Z) (C : list Z) (s : VM) : Prop := {
  ready_range : 0 <= b < 2 ^ 8;
  ready_size : zlen C < 2 ^ 16;
  ready_block : znth (blocks_ (data s)) b = Some C;
  ready_frame : exists env, back (call_stack_ (ctl s)) = Some env /\ env_fp env = fp_ (data s)
}.

Lemma execute_block_ready b C s :
  ready b C s ->
  let d := set_block_num b (data s) in
  let ct := mkControl (Some C) 0 b (call_stack_ (ctl s)) in
  running b C ct d /\ forall fuel, execute_block fuel b s = execute fuel (mkVM d ct).
Proof.
  intros [Hb Hsize Hblock Hframe] d ct. split.
  { split; try done. }
  intros fuel. unfold execute_block, set_vm_block_num.
  rewrite u8_small by done. fold d. unfold jump, get_block_start_ip, set_data.
  cbn [data ctl]. change (block_num_ d) with b. change (blocks_ d) with (blocks_ (data s)).
  destruct (block_ip b 0) as (E1 & _ & E2 & E3); [lia..|]. rewrite Z.lor_0_r in E1.
  rewrite Z.add_0_r in *. rewrite E1, E2, E3, Hblock.
  pose proof (zlen_nonneg C). destruct (Z.ltb_spec (zlen C) 0); [lia|].
  rewrite u8_small by done. done.
Qed.

Lemma code_at_whole C b cs l1 l2 :
  C = l1 ++ l2 -> code_at (mkControl (Some C) 0 b cs) (l1 ++ l2).
Proof. intros ->. exists [], []. by rewrite app_nil_r. Qed.

Lemma tables_ok_driver dr b :
  in_function_ dr = false ->
  tables_ok (declared_in (symbol_table_ (global_context_ dr)) b) b (ser_state dr).
Proof.
  intros Hg. split; [unfold ser_state; by rewrite Hg|].
  intros name. unfold declared_in, ser_state. simpl. by rewrite bool_decide_eq_true.
Qed.

(** A program in normal mode. *)
Lemma run_program dr b s C :
  in_function_ dr = false -> Forall wf_cmd (commands_ dr) ->
  fst (Driver_serialize [] dr) = C -> ready b C s -> is_preamble_ (data s) = false ->
  runs_as (fun fuel => execute_block fuel b s)
    (run_commands (symbol_table_ (global_context_ dr)) b (commands_ dr)
       (set_block_num b (data s))).
Proof.
  intros Hg Hwf HC Hready Hmode.
  destruct (execute_block_ready b C s Hready) as [Hr Hex].
  set (d := set_block_num b (data s)) in *. set (ct := mkControl _ _ _ _) in *.
  pose proof (Driver_serialize_code dr) as Hcode. cbv zeta in Hcode.
  destruct (compile_seq _ _ _ _) as [ss code] eqn:E. rewrite Hcode in HC. simpl in HC.
  set (l := commands_ dr) in *.
  assert (Hat : code_at ct (code_prologue l ++ code)) by (by apply code_at_whole).
  destruct (steps_prologue b C l ct d Hr (code_at_app_l _ _ _ Hat)) as (c' & Hs & Hc').
  change (is_preamble_ d) with (is_preamble_ (data s)) in Hc'. rewrite Hmode in Hc'. subst c'.
  apply code_at_adv in Hat. set (c1 := adv_c _ ct) in *.
  assert (Hsim : sim (run_commands (symbol_table_ (global_context_ dr)) b l d) (mkVM d ct)
                   (plain (adv_c (zlen code) c1))).
  { eapply sim_steps; [exact Hs|].
    pose proof (fun c => commands_ok (declared_in (symbol_table_ (global_context_ dr)) b) b C
                           (run_size _ _ _ _ Hr) c) as Hok.
    eapply (sim_seq _ b C l true); [..|exact E| | | |exact Hat|].
    - apply Forall_forall. intros c _. apply Hok.
    - apply Forall_forall. intros c _. apply Hok.
    - done.
    - by apply tables_ok_driver.
    - intros fn body Efn. by rewrite lookup_empty in Efn.
    - by apply running_adv.
    - done. }
  eapply runs_as_ext; [exact Hex|]. apply (sim_execute _ _ _ Hsim).
  intros [] d' s' _ ->. split; [|done].
  apply (at_eof_end _ C); [done|]. rewrite <- HC.
  change (zlen (code_prologue l) + zlen code = zlen (code_prologue l ++ code)).
  by rewrite zlen_app.
Qed.

(** A program in preamble mode. *)
Lemma run_program_preamble dr b s C :
  Forall wf_preamble (commands_ dr) ->
  fst (Driver_serialize [] dr) = C -> ready b C s -> is_preamble_ (data s) = true ->
  runs_as (fun fuel => execute_block fuel b s)
    (run_preamble (commands_ dr) (set_block_num b (data s))).
Proof.
  intros Hwf HC Hready Hmode.
  destruct (execute_block_ready b C s Hready) as [Hr Hex].
  set (d := set_block_num b (data s)) in *. set (ct := mkControl _ _ _ _) in *.
  pose proof (Driver_serialize_code dr) as Hcode. cbv zeta in Hcode.
  destruct (compile_seq _ _ _ _) as [ss code] eqn:E. rewrite Hcode in HC. simpl in HC.
  set (l := commands_ dr) in *.
  assert (Hat : code_at ct (code_prologue l ++ code)) by (by apply code_at_whole).
  destruct (steps_prologue b C l ct d Hr (code_at_app_l _ _ _ Hat)) as (c' & Hs & Hc').
  change (is_preamble_ d) with (is_preamble_ (data s)) in Hc'. rewrite Hmode in Hc'.
  destruct Hc' as [Hr' Hp].
  eapply runs_as_ext; [exact Hex|]. eapply sim_execute.
  - eapply sim_steps; [exact Hs|]. by eapply sim_preamble.
  - done.
Qed.

(** ** Theorems *)

(** A cleared machine is ready to run the code that was stored in it. *)
Lemma ready_loaded b C (s s' : VM) (m : bool) :
  0 <= b < 2 ^ 8 -> set_block_code b C s = Done tt s' -> ready b C (set_preamble m (VM_clear s')).
Proof.
  intros Hb E. unfold set_block_code in E.
  destruct (Z.ltb_spec (zlen C) (Z.shiftl 1 BLOCK_CODE_IP_SHIFT)) as [Hz|]; [|done].
  cbn [negb] in E. injection E as <-. split; [done|exact Hz| |by exists (mkEnv 0 0 0)].
  simpl. unfold zset, znth. destruct (Z.leb_spec 0 b); [|lia].
  apply list_lookup_insert_eq. destruct (Z.leb_spec (zlen (blocks_ (data s))) b).
  - rewrite length_resize. lia.
  - unfold zlen in *. lia.
Qed.

(** A program whose commands make no calls always has a meaning. *)
Lemma run_commands_meaningful st b l d :
  Forall wf_cmd l -> forallb call_free l = true -> run_commands st b l d <> Stuck.
Proof.
  intros Hwf Hf. apply meaningful_seq. rewrite forallb_forall in Hf. rewrite List.Forall_forall in *.
  intros c Hc root fns. apply meaningful_exec; auto.
Qed.

(** [CALL] jumps to the offset of the function in its block as if it were an
    address: whatever block makes the call, it goes on in block 0. *)
Lemma offset_is_address_in_block_0 ofs C (s : VM) :
  0 <= ofs < 2 ^ 16 -> znth (blocks_ (data s)) 0 = Some C -> ofs <= zlen C ->
  jump ofs s = Done true (set_ctl (mkControl (Some C) ofs 0 (call_stack_ (ctl s))) s).
Proof.
  intros Ho HC Hl. unfold jump, BLOCK_CODE_IP_SHIFT. rewrite Z.shiftr_div_pow2, Z.div_small by lia. rewrite HC.
  change (Z.shiftl 1 16 - 1) with (Z.ones 16). rewrite Z.land_ones, Z.mod_small by lia.
  destruct (Z.ltb_spec (zlen C) ofs); [lia|done].
Qed.

(** C1: The compiler is correct: the code that [Driver::serialize] makes of
    well-formed commands, loaded as a block and run in a cleared machine, ends
    as the reference semantics of the commands says: with the same data, stopped
    or not, with an error, or in undefined behaviour.  A program that makes no
    function call has such a meaning in every block.  Nothing is said of runs to
    which the semantics gives no meaning: those that reach a call of a function
    that was not compiled before the call, and in a block other than 0 those that
    reach any function call, since [CALL] goes on at the offset of the function
    in block 0. *)
Theorem compiled_program_runs dr b (s0 s1 : VM) :
  in_function_ dr = false -> Forall wf_cmd (commands_ dr) -> 0 <= b < 2 ^ 8 ->
  set_block_code b (fst (Driver_serialize [] dr)) s0 = Done tt s1 ->
  let s := set_preamble false (VM_clear s1) in
  let meaning := run_commands (symbol_table_ (global_context_ dr)) b (commands_ dr) (set_block_num b (data s)) in
  runs_as (fun fuel => execute_block fuel b s) meaning /\
  (forallb call_free (commands_ dr) = true -> meaning <> Stuck).
Proof.
  intros Hg Hwf Hb Hload s meaning. split; [|by apply run_commands_meaningful].
  eapply run_program; [done..|by eapply ready_loaded|done].
Qed.

(** In preamble mode the same code creates the exported variables, in
    the order of their declarations, and nothing else. *)
Theorem compiled_preamble_creates dr b (s0 s1 : VM) :
  Forall wf_preamble (commands_ dr) -> 0 <= b < 2 ^ 8 ->
  set_block_code b (fst (Driver_serialize [] dr)) s0 = Done tt s1 ->
  let s := set_preamble true (VM_clear s1) in
  runs_as (fun fuel => execute_block fuel b s)
    (run_preamble (commands_ dr) (set_block_num b (data s))).
Proof. intros Hwf Hb Hload s. eapply run_program_preamble; [done..|by eapply ready_loaded|done]. Qed.

(** A call is only possible where nothing is waiting on the stack: as
    the right operand of an operator it always fails, since the machine checks
    that the stack has the size of the frame while the left operand is kept
    there. *)
Theorem call_as_right_operand_fails fns op l ofs name fn args need d v d' :
  zlen (operand_stack_ d) = u32 (fp_ d + ofs) ->
  eval_int fns l d = Returns v d' ->
  zlen (operand_stack_ d') = zlen (operand_stack_ d) -> fp_ d' = fp_ d ->
  eval_int fns (IntBinaryExpression op l (IntFunctionCall (mkFunctionCall ofs name fn args need))) d
  = Fails.
Proof.
  intros Hd El Hlen Hfp. simpl. unfold mbind, sem_bind. rewrite El. simpl.
  unfold hold, push_value, lift, push, modify_state, of_outcome, check_stack_length, mbind, sem_bind.
  simpl. rewrite zlen_push, Hlen, Hfp, Hd.
  destruct (Z.eqb_spec (u32 (fp_ d + ofs) + 1) (u32 (fp_ d + ofs))); [lia|done].
Qed.

End Program.
