(* ===== verification/FindProtocol.v ===== *)
(** The train search protocol (src/cs/commandstation/FindProtocolDefs.cxx,
    FindProtocolDefs.hxx) over the drive modes of TrainDbDefs.hxx and the
    entries of ExternalTrainDbEntry.hxx.

    A search is a 64-bit event ID: a fixed upper half, six nibbles of query and
    a flag byte.  Throttles build it from what the user typed, command stations
    decode it and match it against their trains. *)

From S2P Require Import Prelude.

(** ** Drive modes *)

Module TrainDbDefs.

(** [DccMode] is a bit field. *)
Definition DCCMODE_DEFAULT : Z := 0.
Definition DCCMODE_OLCBUSER : Z := 1.
Definition MARKLIN_ANY : Z := 0x04.
Definition MARKLIN_ANY_MASK : Z := 0x1c.
Definition MARKLIN_V_MASK : Z := 0x03.
Definition MARKLIN_DEFAULT : Z := MARKLIN_ANY.
Definition MARKLIN_OLD : Z := Z.lor MARKLIN_ANY 1.
Definition MARKLIN_NEW : Z := Z.lor MARKLIN_ANY 2.
Definition MARKLIN_TWOADDR : Z := Z.lor MARKLIN_ANY 3.
Definition MFX : Z := MARKLIN_NEW.
Definition DCC_ANY : Z := 0x08.
Definition DCC_ANY_MASK : Z := 0x18.
Definition DCC_DEFAULT : Z := DCC_ANY.
Definition DCC_LONG_ADDRESS : Z := 0x04.
Definition DCC_SS_MASK : Z := 0x03.
Definition DCC_14 : Z := Z.lor DCC_ANY 1.
Definition DCC_28 : Z := Z.lor DCC_ANY 2.
Definition DCC_128 : Z := Z.lor DCC_ANY 3.
Definition DCCMODE_PROTOCOL_MASK : Z := 0x1f.

(** [dcc::TrainAddressType], of which only equality matters here. *)
Inductive TrainAddressType :=
| UNSPECIFIED
| UNSUPPORTED
| MM
| DCC_LONG
| DCC_SHORT.

#[export] Instance TrainAddressType_eq_dec : EqDecision TrainAddressType.
Proof. solve_decision. Defined.

Definition dcc_mode_to_address_type (mode address : Z) : TrainAddressType :=
  if mode =? DCCMODE_DEFAULT then UNSPECIFIED
  else if Z.land mode MARKLIN_ANY_MASK =? MARKLIN_ANY then MM
  else if Z.land mode DCC_ANY_MASK =? DCC_ANY then
    if has_bits mode DCC_LONG_ADDRESS || (128 <=? address) then DCC_LONG else DCC_SHORT
  else UNSUPPORTED.

Definition dcc_mode_to_protocol (mode : Z) : Z :=
  if (mode =? DCCMODE_DEFAULT) || (mode =? DCCMODE_OLCBUSER) then mode
  else if Z.land mode MARKLIN_ANY_MASK =? MARKLIN_ANY then MARKLIN_ANY
  else if Z.land mode DCC_ANY_MASK =? DCC_ANY then DCC_ANY
  else mode.

End TrainDbDefs.

Import TrainDbDefs.

(** ** Events *)

Definition TRAIN_FIND_BASE : Z := 0x090099FF00000000.
Definition TRAIN_FIND_MASK : Z := 32.
Definition TRAIN_FIND_MASK_LOW : Z := 8.
Definition ALLOCATE : Z := 0x80.
Definition EXACT : Z := 0x40.
Definition ADDRESS_ONLY : Z := 0x20.
Definition MATCH_ANY : Z := 0x01.

Definition is_find_event (event : Z) : bool :=
  Z.shiftr event TRAIN_FIND_MASK =? Z.shiftr TRAIN_FIND_BASE TRAIN_FIND_MASK.

Definition get_query_part (event : Z) : Z :=
  u32 (Z.shiftr (Z.land event (Z.shiftl 1 TRAIN_FIND_MASK - 1)) TRAIN_FIND_MASK_LOW).

Definition QUERY_SHIFTED_MASK : Z :=
  Z.shiftr (Z.shiftl 1 TRAIN_FIND_MASK - 1) (TRAIN_FIND_MASK_LOW + 4).

(** The default drive modes of allocated trains; configuration may change
    them. *)
Record Defaults := mkDefaults {
  DEFAULT_DRIVE_MODE : Z;
  DEFAULT_MARKLIN_DRIVE_MODE : Z;
  DEFAULT_DCC_DRIVE_MODE : Z
}.

Definition initial_defaults : Defaults := mkDefaults DCC_128 MARKLIN_NEW DCC_128.

(** ** Queries *)

(** The values of [shift] in the loops over the query nibbles. *)
Definition query_shifts : list Z := [28; 24; 20; 16; 12; 8].

Definition query_nibble (event shift : Z) : Z := Z.land (Z.shiftr event shift) 0xf.

Definition is_digit_nibble (nibble : Z) : bool := (0 <=? nibble) && (nibble <=? 9).

(** [is_number] on the byte of a character. *)
Definition is_number (c : Z) : bool := (48 <=? c) && (c <=? 57).

Definition has_query (event : Z) : bool :=
  existsb (fun shift => is_digit_nibble (query_nibble event shift)) query_shifts.

Definition match_event_to_drive_mode (event mode : Z) : bool :=
  let req_mode := Z.land event DCCMODE_PROTOCOL_MASK in
  if req_mode =? DCCMODE_DEFAULT then true
  else if mode =? DCCMODE_DEFAULT then true
  else dcc_mode_to_protocol mode =? dcc_mode_to_protocol req_mode.

(** One round of the loop of [query_to_address]. *)
Definition query_digit (event : Z) (acc : Z * bool) (shift : Z) : Z * bool :=
  let '(supplied_address, has_prefix_zero) := acc in
  let nibble := query_nibble event shift in
  let has_prefix_zero :=
    if (0 =? nibble) && (0 =? supplied_address) then true else has_prefix_zero in
  if is_digit_nibble nibble
  then (u32 (u32 (supplied_address * 10) + nibble), has_prefix_zero)
  else (supplied_address, has_prefix_zero).

(** The drive mode of an allocation request. *)
Definition allocate_drive_type (df : Defaults) (drive_type : Z) : Z :=
  if drive_type =? DCCMODE_DEFAULT then DEFAULT_DRIVE_MODE df
  else if drive_type =? MARKLIN_DEFAULT then DEFAULT_MARKLIN_DRIVE_MODE df
  else if drive_type =? DCC_DEFAULT then DEFAULT_DCC_DRIVE_MODE df
  else if drive_type =? Z.lor DCC_DEFAULT DCC_LONG_ADDRESS then
    Z.lor drive_type (Z.land (DEFAULT_DCC_DRIVE_MODE df) DCC_SS_MASK)
  else drive_type.

(** The address and the drive mode. *)
Definition query_to_address (df : Defaults) (event : Z) : Z * Z :=
  let '(supplied_address, has_prefix_zero) :=
    fold_left (query_digit event) query_shifts (0, false) in
  let drive_type := Z.land event DCCMODE_PROTOCOL_MASK in
  let drive_type :=
    if has_bits event ALLOCATE then allocate_drive_type df drive_type else drive_type in
  let drive_type :=
    if has_prefix_zero
       && ((Z.land drive_type DCC_ANY_MASK =? DCC_ANY) || (drive_type =? DCCMODE_DEFAULT))
    then Z.lor drive_type (Z.lor DCC_DEFAULT DCC_LONG_ADDRESS) else drive_type in
  (supplied_address, drive_type).

(** The first loop of [address_to_query]: the digits from the lowest up.
    Shifting an [unsigned] by 32 or more is undefined ([None]).  An [unsigned]
    has at most ten digits. *)
Fixpoint address_digits (fuel : nat) (event shift address : Z) : option (Z * Z) :=
  match fuel with
  | O => None
  | S fuel =>
      if address =? 0 then Some (event, shift)
      else if 32 <=? shift then None
      else
        address_digits fuel
          (Z.lor event (u32 (Z.shiftl (address mod 10) shift))) (shift + 4) (address / 10)
  end.

Definition address_fuel : nat := 11.

(** The second loop: unused nibbles. *)
Fixpoint fill_nibbles (fuel : nat) (event shift : Z) : Z :=
  match fuel with
  | O => event
  | S fuel =>
      if shift <? TRAIN_FIND_MASK
      then fill_nibbles fuel (Z.lor event (Z.shiftl 0xF shift)) (shift + 4)
      else event
  end.

Definition fill_fuel : nat := 6.

Definition address_to_query (address : Z) (exact : bool) (mode : Z) : option Z :=
  '(event, shift) ← address_digits address_fuel TRAIN_FIND_BASE TRAIN_FIND_MASK_LOW address;
  let event := fill_nibbles fill_fuel event shift in
  let event := if exact then Z.lor event EXACT else event in
  mret (Z.lor event (Z.land mode DCCMODE_PROTOCOL_MASK)).

Definition address_to_allocate (address : Z) (exact : bool) (mode : Z) : option Z :=
  event ← address_to_query address exact mode;
  mret (Z.lor event ALLOCATE).

(** ** Matching *)

(** A name from some position on: the rest of its characters.  The character
    at the end of a name reads as 0. *)
Fixpoint skip_non_numbers (name : list Z) : list Z :=
  match name with
  | c :: rest => if is_number c then name else skip_non_numbers rest
  | [] => []
  end.

Fixpoint skip_numbers (name : list Z) : list Z :=
  match name with
  | c :: rest => if is_number c then skip_numbers rest else name
  | [] => []
  end.

(** The first loop of [attempt_match]: the rest of the name and the number of
    matched digits, or [None] for a mismatch. *)
Fixpoint match_digits (event : Z) (shifts : list Z) (name : list Z) (count_matches : Z)
    : option (list Z * Z) :=
  match shifts with
  | [] => Some (name, count_matches)
  | shift :: shifts =>
      let nibble := query_nibble event shift in
      if is_digit_nibble nibble then
        match skip_non_numbers name with
        | [] => None
        | c :: rest =>
            if negb (c - 48 =? nibble) then None
            else match_digits event shifts rest (count_matches + 1)
        end
      else match_digits event shifts name count_matches
  end.

Definition attempt_match (name : list Z) (event : Z) : Z :=
  match match_digits event query_shifts name 0 with
  | None => 0
  | Some (rest, count_matches) =>
      if count_matches =? 0 then 0
      else
        match skip_non_numbers rest with
        | _ :: _ => if has_bits event EXACT then 0 else MATCH_ANY
        | [] => Z.lor EXACT MATCH_ANY
        end
  end.

(** One number of the name: the first and the best match so far. *)
Definition update_name_match (current_match : Z) (acc : Z * Z) : Z * Z :=
  let '(first_name_match, best_name_match) := acc in
  let '(first_name_match, best_name_match) :=
    if first_name_match =? 0xff then (current_match, current_match)
    else (first_name_match, best_name_match) in
  let best_name_match :=
    if ((best_name_match =? 0) && negb (current_match =? 0)) || has_bits current_match EXACT
    then current_match else best_name_match in
  (first_name_match, best_name_match).

(** The loop over the numbers in the name; every round consumes a
    character. *)
Fixpoint match_name_loop (fuel : nat) (event : Z) (name : list Z) (acc : Z * Z) : Z * Z :=
  match fuel with
  | O => acc
  | S fuel =>
      match name with
      | [] => acc
      | c :: rest =>
          if is_number c
          then match_name_loop fuel event (skip_numbers name)
                 (update_name_match (attempt_match name event) acc)
          else match_name_loop fuel event rest acc
      end
  end.

Definition best_name_match (event : Z) (name : list Z) : Z :=
  let '(first_name_match, best_name_match) :=
    match_name_loop (length name) event name (0xff, 0) in
  if first_name_match =? 0xff then 0 else best_name_match.

(** The loop that looks for [supplied_address] among the decimal prefixes of
    an address; an [unsigned] has at most ten digits. *)
Fixpoint has_address_prefix (fuel : nat) (address_prefix supplied_address : Z) : bool :=
  match fuel with
  | O => false
  | S fuel =>
      if address_prefix =? 0 then false
      else if address_prefix =? supplied_address then true
      else has_address_prefix fuel (address_prefix / 10) supplied_address
  end.

(** What a [TrainDbEntry] tells about its train. *)
Record TrainDbEntry := mkEntry {
  get_train_name : string;
  get_legacy_address : Z;
  get_legacy_drive_mode : Z
}.

Definition ExternalTrainDbEntry (name : string) (address mode : Z) : TrainDbEntry :=
  mkEntry name (s32 address) mode.

Section Matching.
(** The event of all trains, and the configured defaults. *)
Variables (IS_TRAIN_EVENT : Z) (df : Defaults).

Definition match_query_to_node (event : Z) (train : TrainDbEntry) : Z :=
  if event =? IS_TRAIN_EVENT then Z.lor (Z.lor MATCH_ANY ADDRESS_ONLY) EXACT
  else
    let legacy_address := u32 (get_legacy_address train) in
    let '(supplied_address, mode) := query_to_address df event in
    let req_has_query := has_query event in
    let actual_drive_mode := get_legacy_drive_mode train in
    let desired_address_type := dcc_mode_to_address_type mode supplied_address in
    let actual_address_type := dcc_mode_to_address_type actual_drive_mode legacy_address in
    let address_type_match :=
      bool_decide (actual_address_type = UNSUPPORTED)
      || bool_decide (desired_address_type = UNSPECIFIED)
      || bool_decide (desired_address_type = actual_address_type) in
    if negb (match_event_to_drive_mode event actual_drive_mode) then 0
    else if (supplied_address =? legacy_address) && address_type_match
    then Z.lor (Z.lor MATCH_ANY ADDRESS_ONLY) EXACT
    else
      let has_address_prefix_match :=
        negb (has_bits event EXACT) && address_type_match
        && has_address_prefix address_fuel (legacy_address / 10) supplied_address in
      if negb (mode =? DCCMODE_DEFAULT) && has_bits event EXACT && has_bits event ALLOCATE
         && has_bits event ADDRESS_ONLY
         && negb (bool_decide (desired_address_type = actual_address_type))
      then 0
      else if has_bits event ADDRESS_ONLY then
        if has_bits event EXACT || negb has_address_prefix_match then 0
        else Z.lor MATCH_ANY ADDRESS_ONLY
      else if negb req_has_query then
        if has_bits event EXACT then 0 else MATCH_ANY
      else
        let best_name_match :=
          best_name_match event (bytes_of_string (get_train_name train)) in
        if negb (has_bits best_name_match EXACT) && has_address_prefix_match
           && negb (has_bits event EXACT)
        then Z.lor MATCH_ANY ADDRESS_ONLY
        else if has_bits event EXACT && negb (has_bits best_name_match EXACT) then 0
        else best_name_match.

Definition match_query_to_train (event : Z) (name : string) (address mode : Z) : Z :=
  match_query_to_node event (ExternalTrainDbEntry name address mode).

(** ** User input *)

(** The loop of [input_to_event]: 6 nibbles at most. *)
Fixpoint input_query (input : list Z) (shift : Z) (has_space : bool) (qry : Z) : Z :=
  match input with
  | [] => qry
  | c :: rest =>
      if TRAIN_FIND_MASK_LOW <=? shift then
        if is_number c then
          input_query rest (shift - 4) false (Z.lor (u32 (Z.shiftl qry 4)) (c - 48))
        else if negb has_space then
          input_query rest (shift - 4) true (Z.lor (u32 (Z.shiftl qry 4)) 0xF)
        else input_query rest shift true qry
      else qry
  end.

(** [input] is not empty. *)
Definition input_flags (input : list Z) : Z :=
  let first := znth input 0 in
  let last := back input in
  if (2 <? zlen input) && bool_decide (first = Some 48) && bool_decide (znth input 1 = Some 48)
  then MARKLIN_NEW
  else if bool_decide (first = Some 48) || bool_decide (last = Some 76)
  then Z.lor DCC_ANY DCC_LONG_ADDRESS
  else if bool_decide (last = Some 77) then MARKLIN_NEW
  else if bool_decide (last = Some 109) then MARKLIN_OLD
  else if bool_decide (last = Some 83) then DCC_ANY
  else 0.

Definition input_to_event (input : list Z) : Z :=
  let qry := input_query input (TRAIN_FIND_MASK - 4) true 0xFFFFFFFF in
  let event := Z.lor TRAIN_FIND_BASE (Z.shiftl (Z.land qry 0xFFFFFF) TRAIN_FIND_MASK_LOW) in
  let flags := input_flags input in
  let event := Z.ldiff event 0xff in
  Z.lor event (Z.land flags 0xff).

Definition input_to_search (input : string) : Z :=
  match bytes_of_string input with
  | [] => IS_TRAIN_EVENT
  | input => input_to_event input
  end.

Definition input_to_allocate (input : string) : Z :=
  match bytes_of_string input with
  | [] => 0
  | input => Z.lor (input_to_event input) (Z.lor (Z.lor ALLOCATE EXACT) ADDRESS_ONLY)
  end.

Definition input_to_headless (input : string) : Z :=
  match bytes_of_string input with
  | [] => 0
  | input => Z.lor (input_to_event input) (Z.lor ALLOCATE EXACT)
  end.

End Matching.

(** ** Lemmas on nibbles *)

(** The low 32 bits of a search event as a number. *)
Lemma shifted_nibble_free B low x s :
  0 <= x < 16 -> 0 <= s <= 28 -> 0 <= low < 2 ^ s ->
  Z.lor (B * 2 ^ 32 + low) (Z.shiftl x s) = B * 2 ^ 32 + (low + x * 2 ^ s).
Proof.
  intros Hx Hs Hlow.
  assert (H28 : 2 ^ s <= 2 ^ 28) by (apply Z.pow_le_mono_r; lia).
  assert (Hz : Z.land (B * 2 ^ 32 + low) (Z.shiftl x s) = 0).
  { apply Z.bits_inj'. intros i Hi. rewrite Z.land_spec, Z.bits_0, Z.shiftl_spec by lia.
    destruct (Z.lt_ge_cases i s); [rewrite (Z.testbit_neg_r x) by lia; apply andb_false_r|].
    destruct (Z.lt_ge_cases i (s + 4)).
    - rewrite <- (testbit_low_mod _ 32) by lia.
      rewrite Z.add_comm, Z.mod_add, Z.mod_small by lia.
      rewrite (testbit_nonneg_high low s) by lia. done.
    - rewrite (testbit_nonneg_high x 4) by lia. apply andb_false_r. }
  rewrite <- Z.lxor_lor, <- Z.add_nocarry_lxor by done.
  rewrite Z.shiftl_mul_pow2 by lia. lia.
Qed.

Lemma query_nibble_div event shift :
  0 <= shift -> query_nibble event shift = (event / 2 ^ shift) mod 16.
Proof.
  intros Hs. unfold query_nibble. change 0xf with (Z.ones 4).
  rewrite Z.land_ones, Z.shiftr_div_pow2 by lia. done.
Qed.

Lemma query_nibble_range event shift : 0 <= query_nibble event shift < 16.
Proof.
  unfold query_nibble. change 0xf with (Z.ones 4). rewrite Z.land_ones by lia.
  apply Z.mod_pos_bound. lia.
Qed.

(** The low byte does not reach the nibbles. *)
Lemma query_nibble_flags event flags shift :
  0 <= flags < 2 ^ 8 -> 8 <= shift -> query_nibble (Z.lor event flags) shift = query_nibble event shift.
Proof.
  intros Hf Hs. unfold query_nibble. apply Z.bits_inj'. intros i Hi.
  rewrite !Z.land_spec, !Z.shiftr_spec, Z.lor_spec by lia.
  by rewrite (testbit_nonneg_high flags 8), orb_false_r by lia.
Qed.

(** *** The nibbles of an address *)

(** [k] nibbles of query for an address: its digits, lowest first, then
    0xF. *)
Fixpoint address_nibbles (k : nat) (address : Z) : Z :=
  match k with
  | O => 0
  | S k => (if address =? 0 then 15 else address mod 10) + 16 * address_nibbles k (address / 10)
  end.

Lemma address_nibbles_range k a : 0 <= a -> 0 <= address_nibbles k a < 16 ^ Z.of_nat k.
Proof.
  revert a. induction k as [|k IH]; intros a Ha; [simpl; lia|].
  cbn [address_nibbles]. specialize (IH (a / 10)).
  rewrite Nat2Z.inj_succ, Z.pow_succ_r by lia.
  pose proof (Z.mod_pos_bound a 10). pose proof (Z.div_pos a 10).
  destruct (a =? 0); lia.
Qed.

Lemma fill_nibbles_spec k B low s :
  s + 4 * Z.of_nat k = 32 -> 0 <= s -> 0 <= low < 2 ^ s ->
  fill_nibbles k (B * 2 ^ 32 + low) s = B * 2 ^ 32 + (low + 2 ^ s * address_nibbles k 0).
Proof.
  revert low s. induction k as [|k IH]; intros low s Hs H0 Hlow.
  - simpl. lia.
  - cbn [fill_nibbles address_nibbles]. change TRAIN_FIND_MASK with 32.
    destruct (Z.ltb_spec s 32); [|lia]. rewrite shifted_nibble_free by lia.
    rewrite Zdiv_0_l. assert (2 ^ (s + 4) = 16 * 2 ^ s) as Hp by (rewrite Z.pow_add_r; lia).
    rewrite IH by lia. change (0 =? 0) with true. cbv iota. rewrite Hp. ring.
Qed.

Lemma fill_more k event s : 32 <= s -> fill_nibbles k event s = event.
Proof.
  intros Hs. destruct k; [done|]. cbn [fill_nibbles]. change TRAIN_FIND_MASK with 32.
  destruct (Z.ltb_spec s 32); [lia|done].
Qed.

Lemma fill_nibbles_fuel k k' event s :
  s + 4 * Z.of_nat k = 32 -> (k <= k')%nat -> fill_nibbles k' event s = fill_nibbles k event s.
Proof.
  revert k' event s. induction k as [|k IH]; intros k' event s Hs Hk.
  - rewrite fill_more; [done|lia].
  - destruct k' as [|k']; [lia|]. cbn [fill_nibbles]. change TRAIN_FIND_MASK with 32.
    destruct (Z.ltb_spec s 32); [|done]. apply IH; lia.
Qed.

Lemma address_digits_spec k fuel B low s a :
  s + 4 * Z.of_nat k = 32 -> 0 <= s -> 0 <= low < 2 ^ s -> 0 <= a < 10 ^ Z.of_nat k ->
  (k < fuel)%nat ->
  exists event s', address_digits fuel (B * 2 ^ 32 + low) s a = Some (event, s') /\
    forall n, (k <= n)%nat ->
      fill_nibbles n event s' = B * 2 ^ 32 + (low + 2 ^ s * address_nibbles k a).
Proof.
  revert fuel low s a. induction k as [|k IH]; intros fuel low s a Hs H0 Hlow Ha Hf;
    (destruct fuel as [|fuel]; [lia|]).
  - simpl in Ha. assert (a = 0) as -> by lia. exists (B * 2 ^ 32 + low), s. simpl.
    split; [done|]. intros n _. rewrite fill_more; lia.
  - cbn [address_digits]. destruct (Z.eqb_spec a 0) as [->|].
    { exists (B * 2 ^ 32 + low), s. split; [done|]. intros n Hn.
      rewrite (fill_nibbles_fuel (S k)) by lia. by apply fill_nibbles_spec. }
    destruct (Z.leb_spec 32 s); [lia|].
    pose proof (Z.mod_pos_bound a 10 ltac:(lia)).
    assert (2 ^ (s + 4) = 16 * 2 ^ s) as Hp by (rewrite Z.pow_add_r; lia).
    assert (Hr : 0 < 2 ^ s) by lia.
    assert (2 ^ s <= 2 ^ 28) by (apply Z.pow_le_mono_r; lia).
    assert (0 <= a mod 10 * 2 ^ s <= 9 * 2 ^ s) by nia.
    rewrite u32_small by (unfold is_uint32; rewrite Z.shiftl_mul_pow2 by lia; lia).
    rewrite shifted_nibble_free by lia.
    rewrite Nat2Z.inj_succ, Z.pow_succ_r in Ha by lia.
    destruct (IH fuel (low + a mod 10 * 2 ^ s) (s + 4) (a / 10)) as (event & s' & E & Hfill);
      [lia..|nia| |lia|].
    { split; [apply Z.div_pos; lia|]. apply Z.div_lt_upper_bound; lia. }
    exists event, s'. split; [done|]. intros m Hm. rewrite Hfill by lia.
    cbn [address_nibbles]. destruct (Z.eqb_spec a 0); [done|]. rewrite Hp. ring.
Qed.

(** *** Decoding *)

(** The decoding loop on the lowest [k] nibbles of [v], highest first. *)
Fixpoint decode_nibbles (k : nat) (v : Z) (acc : Z * bool) : Z * bool :=
  match k with
  | O => acc
  | S k => query_digit (v mod 16) (decode_nibbles k (v / 16) acc) 0
  end.

Lemma query_digit_nibble event event' acc s s' :
  query_nibble event s = query_nibble event' s' ->
  query_digit event acc s = query_digit event' acc s'.
Proof. unfold query_digit. by intros ->. Qed.

(** The loop over the six nibbles of an event. *)
Lemma decode_event event acc :
  fold_left (query_digit event) query_shifts acc = decode_nibbles 6 (event / 2 ^ 8) acc.
Proof.
  unfold query_shifts. cbn [fold_left decode_nibbles].
  assert (Hn : forall acc s, 0 <= s ->
    query_digit event acc s = query_digit ((event / 2 ^ s) mod 16) acc 0).
  { intros a s Hs. apply query_digit_nibble. rewrite !query_nibble_div by lia.
    rewrite Z.div_1_r, Zmod_mod. done. }
  rewrite (Hn _ 28), (Hn _ 24), (Hn _ 20), (Hn _ 16), (Hn _ 12), (Hn _ 8) by lia.
  rewrite !Z.div_div by lia.
  by repeat (f_equal; try done).
Qed.

Lemma decode_step k v w acc :
  0 <= v < 16 -> decode_nibbles (S k) (v + 16 * w) acc =
  query_digit v (decode_nibbles k w acc) 0.
Proof.
  intros Hv. cbn [decode_nibbles]. rewrite (Z.mul_comm 16), Z.mod_add, Z.div_add by lia.
  by rewrite Z.mod_small, Z.div_small by lia.
Qed.

(** Decoding an address gives the address back, and no leading zero. *)
Lemma decode_address k a :
  (k <= 6)%nat -> 0 <= a < 10 ^ Z.of_nat k ->
  decode_nibbles k (address_nibbles k a) (0, false) = (a, false).
Proof.
  revert a. induction k as [|k IH]; intros a Hk Ha.
  - simpl in *. by assert (a = 0) as -> by lia.
  - cbn [address_nibbles]. pose proof (Z.mod_pos_bound a 10 ltac:(lia)).
    rewrite decode_step by (destruct (a =? 0); lia).
    rewrite Nat2Z.inj_succ, Z.pow_succ_r in Ha by lia.
    rewrite IH; [|lia|split; [apply Z.div_pos; lia|apply Z.div_lt_upper_bound; lia]].
    assert (10 ^ Z.of_nat k <= 10 ^ 5) by (apply Z.pow_le_mono_r; lia).
    unfold query_digit. rewrite query_nibble_div, Z.div_1_r by lia.
    destruct (Z.eqb_spec a 0) as [->|]; [done|].
    rewrite (Z.mod_small (a mod 10)) by lia. unfold is_digit_nibble.
    destruct (Z.leb_spec 0 (a mod 10)); [|lia]. destruct (Z.leb_spec (a mod 10) 9); [|lia].
    pose proof (Z.div_mod a 10 ltac:(lia)). cbn [andb].
    rewrite (u32_small (a / 10 * 10)) by (unfold is_uint32; lia).
    rewrite (u32_small (a / 10 * 10 + a mod 10)) by (unfold is_uint32; lia).
    destruct (Z.eqb_spec 0 (a mod 10)), (Z.eqb_spec 0 (a / 10)); cbn [andb]; try lia;
      f_equal; lia.
Qed.

(** ** Events and their parts *)

Lemma flags_below z n : 0 <= n -> Z.land z (Z.ones n) = z mod 2 ^ n.
Proof. intros. by apply Z.land_ones. Qed.

(** The search event of an address. *)
Lemma address_to_query_eq a exact mode :
  0 <= a < 10 ^ 6 ->
  address_to_query a exact mode =
  Some (Z.lor (if exact then Z.lor (0x090099FF * 2 ^ 32 + 2 ^ 8 * address_nibbles 6 a) EXACT
               else 0x090099FF * 2 ^ 32 + 2 ^ 8 * address_nibbles 6 a)
          (Z.land mode DCCMODE_PROTOCOL_MASK)).
Proof.
  intros Ha. unfold address_to_query.
  destruct (address_digits_spec 6 address_fuel 0x090099FF 0 8 a) as (event & s' & E & Hf);
    [lia..|unfold address_fuel; lia|].
  change (0x090099FF * 2 ^ 32 + 0) with TRAIN_FIND_BASE in E.
  change TRAIN_FIND_MASK_LOW with 8. rewrite E. cbn [mbind option_bind].
  rewrite Hf by (unfold fill_fuel; lia). rewrite Z.add_0_l. done.
Qed.

Lemma mode_byte mode : 0 <= Z.land mode DCCMODE_PROTOCOL_MASK < 2 ^ 5.
Proof. change DCCMODE_PROTOCOL_MASK with (Z.ones 5). rewrite flags_below by lia. apply Z.mod_pos_bound. lia. Qed.

(** Or-ing flag bytes into an event whose low byte is clear. *)
Lemma lor_flags v f : 0 <= f < 2 ^ 8 -> Z.lor (2 ^ 8 * v) f = 2 ^ 8 * v + f.
Proof.
  intros Hf. assert (Hz : Z.land (2 ^ 8 * v) f = 0).
  { apply Z.bits_inj'. intros i Hi. rewrite Z.land_spec, Z.bits_0, Z.mul_comm.
    destruct (Z.lt_ge_cases i 8).
    - by rewrite Z.mul_pow2_bits_low by lia.
    - rewrite (testbit_nonneg_high f 8) by lia. apply andb_false_r. }
  by rewrite <- Z.lxor_lor, <- Z.add_nocarry_lxor by done.
Qed.

(** The event as a number: the query part and the flag byte. *)
Lemma address_to_query_value a exact mode :
  0 <= a < 10 ^ 6 ->
  address_to_query a exact mode =
  Some (2 ^ 8 * (0x090099FF * 2 ^ 24 + address_nibbles 6 a)
        + Z.lor (if exact then EXACT else 0) (Z.land mode DCCMODE_PROTOCOL_MASK)).
Proof.
  intros Ha. rewrite address_to_query_eq by done. f_equal. pose proof (mode_byte mode).
  replace (0x090099FF * 2 ^ 32 + 2 ^ 8 * address_nibbles 6 a)
    with (2 ^ 8 * (0x090099FF * 2 ^ 24 + address_nibbles 6 a)) by ring.
  rewrite <- lor_flags.
  - destruct exact; [by rewrite Z.lor_assoc|by rewrite Z.lor_0_l].
  - assert (Hl : forall x, 0 <= x < 2 ^ 7 -> 0 <= Z.lor x (Z.land mode DCCMODE_PROTOCOL_MASK) < 2 ^ 8).
    { intros x Hx. split; [apply Z.lor_nonneg; lia|].
      destruct (Z.eq_dec (Z.lor x (Z.land mode DCCMODE_PROTOCOL_MASK)) 0) as [->|]; [lia|].
      assert (0 <= Z.lor x (Z.land mode DCCMODE_PROTOCOL_MASK)) by (apply Z.lor_nonneg; lia).
      apply Z.log2_lt_pow2; [lia|]. rewrite Z.log2_lor by lia.
      apply Z.max_lub_lt; [destruct (Z.eq_dec x 0) as [->|]; [by vm_compute|]|
        destruct (Z.eq_dec (Z.land mode DCCMODE_PROTOCOL_MASK) 0) as [->|]; [by vm_compute|]];
        (apply Z.log2_lt_pow2; lia). }
    apply Hl. destruct exact; vm_compute; split; congruence.
Qed.

Lemma decode_high k B v acc :
  decode_nibbles k (B * 16 ^ Z.of_nat k + v) acc = decode_nibbles k v acc.
Proof.
  revert v. induction k as [|k IH]; intros v; [done|]. cbn [decode_nibbles].
  rewrite Nat2Z.inj_succ, Z.pow_succ_r by lia.
  replace (B * (16 * 16 ^ Z.of_nat k) + v) with (v + (B * 16 ^ Z.of_nat k) * 16) by ring.
  rewrite Z.mod_add, Z.div_add by lia. rewrite (Z.add_comm (v / 16)). by rewrite IH.
Qed.

(** An event of query part [v] with flag byte [f]. *)
Definition find_event (v f : Z) : Z := 2 ^ 8 * (0x090099FF * 2 ^ 24 + v) + f.

Lemma find_event_query v f acc :
  0 <= f < 2 ^ 8 ->
  fold_left (query_digit (find_event v f)) query_shifts acc = decode_nibbles 6 v acc.
Proof.
  intros Hf. rewrite decode_event. unfold find_event.
  rewrite Z.mul_comm, Z.div_add_l, (Z.div_small f), Z.add_0_r by lia.
  apply (decode_high 6).
Qed.

Lemma find_event_is_find v f : 0 <= v < 2 ^ 24 -> 0 <= f < 2 ^ 8 -> is_find_event (find_event v f) = true.
Proof.
  intros Hv Hf. unfold is_find_event, find_event. apply Z.eqb_eq.
  rewrite !Z.shiftr_div_pow2 by (unfold TRAIN_FIND_MASK; lia).
  change (TRAIN_FIND_BASE / 2 ^ TRAIN_FIND_MASK) with 0x090099FF. unfold TRAIN_FIND_MASK.
  replace (2 ^ 8 * (0x090099FF * 2 ^ 24 + v) + f)
    with (0x090099FF * 2 ^ 32 + (2 ^ 8 * v + f)) by ring.
  rewrite Z.div_add_l, Z.div_small by lia. lia.
Qed.

(** The flag byte is the low byte of the event. *)
Lemma find_event_land v f m :
  0 <= f < 2 ^ 8 -> 0 <= m < 2 ^ 8 -> Z.land (find_event v f) m = Z.land f m.
Proof.
  intros Hf Hm. unfold find_event. rewrite <- lor_flags by done.
  rewrite Z.land_lor_distr_l.
  assert (Z.land (2 ^ 8 * (0x090099FF * 2 ^ 24 + v)) m = 0) as ->; [|by rewrite Z.lor_0_l].
  apply Z.bits_inj'. intros i Hi. rewrite Z.land_spec, Z.bits_0, (Z.mul_comm (2 ^ 8)).
  destruct (Z.lt_ge_cases i 8).
  - by rewrite Z.mul_pow2_bits_low by lia.
  - rewrite (testbit_nonneg_high m 8) by lia. apply andb_false_r.
Qed.

(** *** Requests that do not allocate keep the drive mode they ask for *)

Lemma query_to_address_find df v f a zero :
  0 <= f < 2 ^ 8 -> decode_nibbles 6 v (0, false) = (a, zero) ->
  query_to_address df (find_event v f) =
  (a,
   let drive_type := Z.land f DCCMODE_PROTOCOL_MASK in
   let drive_type :=
     if has_bits f ALLOCATE then allocate_drive_type df drive_type else drive_type in
   if zero && ((Z.land drive_type DCC_ANY_MASK =? DCC_ANY) || (drive_type =? DCCMODE_DEFAULT))
   then Z.lor drive_type (Z.lor DCC_DEFAULT DCC_LONG_ADDRESS) else drive_type).
Proof.
  intros Hf Hd. unfold query_to_address. rewrite find_event_query, Hd by done.
  unfold has_bits. rewrite !find_event_land by (done || (vm_compute; split; congruence)).
  done.
Qed.

Lemma lor_disjoint_low mode flag :
  0 <= mode < 32 -> Z.land flag 31 = 0 -> Z.land (Z.lor flag mode) 31 = mode.
Proof.
  intros Hm Hf. rewrite Z.land_lor_distr_l, Hf, Z.lor_0_l.
  change 31 with (Z.ones 5). rewrite Z.land_ones by lia. by apply Z.mod_small.
Qed.

(** The flag byte of [address_to_query]. *)
Definition query_flags (exact : bool) (mode : Z) : Z := Z.lor (if exact then EXACT else 0) mode.

Lemma query_flags_facts exact mode :
  0 <= mode < 32 ->
  0 <= query_flags exact mode < 2 ^ 8 /\
  Z.land (query_flags exact mode) DCCMODE_PROTOCOL_MASK = mode /\
  has_bits (query_flags exact mode) ALLOCATE = false /\
  has_bits (query_flags exact mode) EXACT = exact /\
  has_bits (query_flags exact mode) ADDRESS_ONLY = false.
Proof.
  intros Hm.
  assert (Hall : forallb (fun m => let f := query_flags exact m in
     (0 <=? f) && (f <? 2 ^ 8) && (Z.land f DCCMODE_PROTOCOL_MASK =? m)
     && negb (has_bits f ALLOCATE) && Bool.eqb (has_bits f EXACT) exact
     && negb (has_bits f ADDRESS_ONLY))
     (List.map Z.of_nat (List.seq 0 32)) = true) by (destruct exact; by vm_compute).
  rewrite List.forallb_forall in Hall. specialize (Hall mode).
  rewrite !andb_true_iff, !negb_true_iff, Z.leb_le, Z.ltb_lt, Z.eqb_eq, eqb_true_iff in Hall.
  destruct Hall as [[[[[? ?] ?] ?] ?] ?]; [|done].
  apply List.in_map_iff. exists (Z.to_nat mode). split; [lia|]. apply List.in_seq. lia.
Qed.

Lemma address_to_query_find a exact mode :
  0 <= a < 10 ^ 6 -> 0 <= mode < 32 ->
  address_to_query a exact mode = Some (find_event (address_nibbles 6 a) (query_flags exact mode)).
Proof.
  intros Ha Hm. rewrite address_to_query_value by done. unfold find_event, query_flags.
  do 3 f_equal. change DCCMODE_PROTOCOL_MASK with (Z.ones 5). rewrite Z.land_ones by lia.
  by apply Z.mod_small.
Qed.

Lemma query_to_address_query df a exact mode :
  0 <= a < 10 ^ 6 -> 0 <= mode < 32 ->
  query_to_address df (find_event (address_nibbles 6 a) (query_flags exact mode)) = (a, mode).
Proof.
  intros Ha Hm. destruct (query_flags_facts exact mode Hm) as (Hr & Hl & Hal & _).
  rewrite (query_to_address_find _ _ _ a false); [|done|by apply decode_address].
  by rewrite Hl, Hal.
Qed.

(** ** Match results *)

Lemma attempt_match_cases name event :
  attempt_match name event = 0 \/
  attempt_match name event = MATCH_ANY /\ has_bits event EXACT = false \/
  attempt_match name event = Z.lor EXACT MATCH_ANY.
Proof.
  unfold attempt_match. destruct (match_digits _ _ _ _) as [[rest n]|]; [|by left].
  destruct (n =? 0); [by left|]. destruct (skip_non_numbers rest); [by do 2 right|].
  destruct (has_bits event EXACT); [by left|right; by left].
Qed.

Definition name_result (m : Z) : Prop := m = 0 \/ m = MATCH_ANY \/ m = Z.lor EXACT MATCH_ANY.

Lemma match_name_loop_result fuel event name acc :
  name_result (snd acc) -> name_result (snd (match_name_loop fuel event name acc)).
Proof.
  revert name acc. induction fuel as [|fuel IH]; intros name [f b] Hacc; [done|].
  destruct name as [|c rest]; [done|]. cbn [match_name_loop].
  destruct (is_number c); [|by apply IH]. apply IH. unfold update_name_match.
  assert (Hm : name_result (attempt_match (c :: rest) event)).
  { unfold name_result. destruct (attempt_match_cases (c :: rest) event) as [?|[[? _]|?]]; auto. }
  revert Hm. generalize (attempt_match (c :: rest) event). intros m Hm. cbn [snd] in Hacc.
  destruct (f =? 0xff); cbn [snd]; by destruct (_ || _).
Qed.

Lemma best_name_match_result event name : name_result (best_name_match event name).
Proof.
  unfold best_name_match.
  pose proof (match_name_loop_result (length name) event name (0xff, 0)) as Hr.
  destruct (match_name_loop _ _ _ _) as [f b]. destruct (f =? 0xff); [by left|].
  apply Hr. by left.
Qed.

Lemma name_result_exact m : name_result m -> has_bits m EXACT = true -> m = Z.lor EXACT MATCH_ANY.
Proof. by intros [-> | [-> | ->]]. Qed.

(** *** Decimal prefixes *)

Lemma has_address_prefix_spec fuel p q :
  0 <= p < 10 ^ Z.of_nat fuel ->
  has_address_prefix fuel p q = true <-> q <> 0 /\ exists k, 0 <= k /\ p / 10 ^ k = q.
Proof.
  revert p. induction fuel as [|fuel IH]; intros p Hp.
  - simpl in *. assert (p = 0) as -> by lia. split; [done|].
    intros (Hq & k & Hk & E). rewrite Zdiv_0_l in E. by subst.
  - cbn [has_address_prefix]. rewrite Nat2Z.inj_succ, Z.pow_succ_r in Hp by lia.
    destruct (Z.eqb_spec p 0) as [->|].
    { split; [done|]. intros (Hq & k & Hk & E). rewrite Zdiv_0_l in E. by subst. }
    destruct (Z.eqb_spec p q) as [->|].
    { split; [|done]. intros _. split; [done|]. exists 0. by rewrite Z.div_1_r. }
    rewrite IH by (split; [apply Z.div_pos|apply Z.div_lt_upper_bound]; lia).
    split; intros (Hq & k & Hk & E); (split; [done|]).
    + exists (k + 1). split; [lia|]. rewrite Z.div_div in E by lia.
      by rewrite Z.pow_add_r, (Z.mul_comm (10 ^ k)) by lia.
    + destruct (Z.eq_dec k 0) as [->|].
      { by rewrite Z.div_1_r in E. }
      exists (k - 1). split; [lia|]. rewrite Z.div_div by lia.
      rewrite <- Z.pow_succ_r by lia. by replace (Z.succ (k - 1)) with k by lia.
Qed.

(** *** What the user typed *)

(** The number written by decimal digits, and the same digits as nibbles. *)
Definition decimal (l : list Z) : Z := fold_left (fun acc c => acc * 10 + (c - 48)) l 0.
Definition nibbles (l : list Z) : Z := fold_left (fun acc c => acc * 16 + (c - 48)) l 0.

Lemma decimal_snoc l c : decimal (l ++ [c]) = decimal l * 10 + (c - 48).
Proof. unfold decimal. by rewrite fold_left_app. Qed.
Lemma nibbles_snoc l c : nibbles (l ++ [c]) = nibbles l * 16 + (c - 48).
Proof. unfold nibbles. by rewrite fold_left_app. Qed.

Lemma is_number_range c : is_number c = true -> 48 <= c <= 57.
Proof. unfold is_number. rewrite andb_true_iff, !Z.leb_le. done. Qed.

Lemma nibbles_range l :
  Forall (fun c => is_number c = true) l ->
  0 <= nibbles l < 16 ^ zlen l /\ 0 <= decimal l < 10 ^ zlen l.
Proof.
  induction l as [|c l IH] using rev_ind; [done|].
  rewrite Forall_app, Forall_singleton. intros [Hl Hc%is_number_range].
  specialize (IH Hl). rewrite nibbles_snoc, decimal_snoc, zlen_app.
  change (zlen [c]) with 1. pose proof (zlen_nonneg l).
  rewrite !Z.pow_add_r by lia. lia.
Qed.

Lemma u32_lor_digit q c :
  0 <= q < 2 ^ 32 -> 48 <= c <= 57 ->
  Z.lor (u32 (Z.shiftl q 4)) (c - 48) = u32 (q * 16 + (c - 48)).
Proof.
  intros Hq Hc. unfold u32. rewrite Z.shiftl_mul_pow2 by lia.
  assert (E : (q * 2 ^ 4) mod 2 ^ 32 = (q mod 2 ^ 28) * 2 ^ 4).
  { rewrite Z.mul_comm, <- (Z.mul_comm (2 ^ 4)). change (2 ^ 32) with (2 ^ 4 * 2 ^ 28).
    apply Z.mul_mod_distr_l; lia. }
  rewrite E. pose proof (Z.mod_pos_bound q (2 ^ 28) ltac:(lia)).
  replace (q * 16 + (c - 48)) with ((q mod 2 ^ 28 * 16 + (c - 48)) + (q / 2 ^ 28) * 2 ^ 32)
    by (pose proof (Z.div_mod q (2 ^ 28) ltac:(lia)); lia).
  rewrite Z.mod_add, (Z.mod_small (q mod 2 ^ 28 * 16 + (c - 48))) by lia.
  assert (Hz : Z.land (q mod 2 ^ 28 * 2 ^ 4) (c - 48) = 0).
  { apply Z.bits_inj'. intros i Hi. rewrite Z.land_spec, Z.bits_0.
    destruct (Z.lt_ge_cases i 4).
    - by rewrite Z.mul_pow2_bits_low by lia.
    - rewrite (testbit_nonneg_high (c - 48) 4) by lia. apply andb_false_r. }
  rewrite <- Z.lxor_lor, <- Z.add_nocarry_lxor by done. lia.
Qed.

Lemma input_query_digits l shift has_space q :
  Forall (fun c => is_number c = true) l -> 4 * zlen l <= shift - 4 -> 0 <= q < 2 ^ 32 ->
  input_query l shift has_space q =
  u32 (fold_left (fun acc c => acc * 16 + (c - 48)) l q).
Proof.
  intros Hl. revert shift has_space q.
  induction Hl as [|c l Hc _ IH]; intros shift hs q Hs Hq; cbn [input_query fold_left].
  - by rewrite u32_small.
  - rewrite zlen_cons in Hs. pose proof (zlen_nonneg l). unfold TRAIN_FIND_MASK_LOW.
    destruct (Z.leb_spec 8 shift); [|lia]. rewrite Hc. apply is_number_range in Hc.
    rewrite u32_lor_digit by lia. rewrite IH; [|lia|apply u32_range].
    clear. generalize (q * 16 + (c - 48)). intros z.
    assert (Hg : forall x y, x mod 2 ^ 32 = y mod 2 ^ 32 ->
              u32 (fold_left (fun acc c => acc * 16 + (c - 48)) l x) =
              u32 (fold_left (fun acc c => acc * 16 + (c - 48)) l y)).
    { induction l as [|c' l IH]; intros x y Hxy; cbn [fold_left]; [done|].
      apply IH. rewrite <- Zplus_mod_idemp_l, <- (Zplus_mod_idemp_l (y * 16)).
      rewrite <- Zmult_mod_idemp_l, <- (Zmult_mod_idemp_l y). by rewrite Hxy. }
    apply Hg. unfold u32. apply Zmod_mod.
Qed.

Lemma fold_nibbles l q :
  fold_left (fun acc c => acc * 16 + (c - 48)) l q = q * 16 ^ zlen l + nibbles l.
Proof.
  induction l as [|c l IH] using rev_ind; [|].
  { change (zlen (@nil Z)) with 0. change (nibbles []) with 0. cbn [fold_left]. lia. }
  rewrite fold_left_app. cbn [fold_left]. rewrite IH, nibbles_snoc, zlen_app.
  change (zlen [c]) with 1. pose proof (zlen_nonneg l). rewrite Z.pow_add_r by lia. ring.
Qed.

(** The query part for a sequence of digits. *)
Lemma query_part_digits l :
  Forall (fun c => is_number c = true) l -> zlen l <= 6 ->
  Z.land (input_query l 28 true 0xFFFFFFFF) 0xFFFFFF = 2 ^ 24 - 16 ^ zlen l + nibbles l.
Proof.
  intros Hl Hn. pose proof (zlen_nonneg l).
  rewrite input_query_digits by (done || lia). rewrite fold_nibbles.
  change 0xFFFFFF with (Z.ones 24). rewrite Z.land_ones by lia. unfold u32.
  destruct (nibbles_range l Hl) as [Hr _].
  assert (16 ^ zlen l <= 16 ^ 6) by (apply Z.pow_le_mono_r; lia).
  rewrite Z.mod_mod_divide by (by exists (2 ^ 8)).
  replace (0xFFFFFFFF * 16 ^ zlen l + nibbles l)
    with ((2 ^ 24 - 16 ^ zlen l + nibbles l) + (256 * 16 ^ zlen l - 1) * 2 ^ 24) by ring.
  rewrite Z.mod_add by lia. apply Z.mod_small. lia.
Qed.

Lemma decode_unused j acc : decode_nibbles j (16 ^ Z.of_nat j - 1) acc = acc.
Proof.
  induction j as [|j IH]; [done|].
  rewrite Nat2Z.inj_succ, Z.pow_succ_r by lia.
  replace (16 * 16 ^ Z.of_nat j - 1) with (15 + 16 * (16 ^ Z.of_nat j - 1)) by ring.
  rewrite decode_step, IH by lia. by destruct acc.
Qed.

Lemma decode_digits l j :
  Forall (fun c => is_number c = true) l -> (length l + j <= 6)%nat ->
  fst (decode_nibbles (length l + j) ((16 ^ Z.of_nat j - 1) * 16 ^ zlen l + nibbles l) (0, false))
  = decimal l.
Proof.
  induction l as [|c l IH] using rev_ind; intros Hl Hj.
  - cbn [length Nat.add]. change (zlen []) with 0. change (nibbles []) with 0.
    rewrite Z.mul_1_r, Z.add_0_r. by rewrite decode_unused.
  - apply Forall_app in Hl as [Hl Hc]. apply Forall_singleton, is_number_range in Hc.
    rewrite length_app in *. cbn [length] in *. rewrite nibbles_snoc, decimal_snoc, zlen_app.
    replace (length l + 1 + j)%nat with (S (length l + j)) by lia.
    change (zlen [c]) with 1. pose proof (zlen_nonneg l). rewrite Z.pow_add_r by lia.
    replace ((16 ^ Z.of_nat j - 1) * (16 ^ zlen l * 16 ^ 1) + (nibbles l * 16 + (c - 48)))
      with ((c - 48) + 16 * ((16 ^ Z.of_nat j - 1) * 16 ^ zlen l + nibbles l)) by ring.
    rewrite decode_step by lia. specialize (IH Hl ltac:(lia)).
    destruct (nibbles_range l Hl) as [_ Hd]. unfold zlen in Hd.
    assert (10 ^ Z.of_nat (length l) <= 10 ^ 5) by (apply Z.pow_le_mono_r; lia).
    destruct (decode_nibbles _ _ _) as [a zero]. cbn [fst] in IH. subst a.
    unfold query_digit. rewrite query_nibble_div, Z.div_1_r, Z.mod_small by lia.
    unfold is_digit_nibble. destruct (Z.leb_spec 0 (c - 48)), (Z.leb_spec (c - 48) 9); try lia.
    cbn [andb fst]. rewrite (u32_small (decimal l * 10)) by (unfold is_uint32; lia).
    apply u32_small. unfold is_uint32. lia.
Qed.

Lemma address_digits_overflow k fuel event s a :
  s + 4 * Z.of_nat k = 32 -> 10 ^ Z.of_nat k <= a -> address_digits fuel event s a = None.
Proof.
  revert fuel event s a. induction k as [|k IH]; intros fuel event s a Hs Ha;
    (destruct fuel as [|fuel]; [done|]); cbn [address_digits].
  - simpl in Ha. destruct (Z.eqb_spec a 0); [lia|]. by destruct (Z.leb_spec 32 s); [|lia].
  - rewrite Nat2Z.inj_succ, Z.pow_succ_r in Ha by lia.
    destruct (Z.eqb_spec a 0); [lia|]. destruct (Z.leb_spec 32 s); [done|].
    apply IH; [lia|]. apply Z.div_le_lower_bound; lia.
Qed.

(** Seven digits or more leave the query part of the event: the
    digit loop shifts an [unsigned] by 32 bits, which is undefined. *)
Lemma address_to_query_defined address exact mode :
  0 <= address -> (is_Some (address_to_query address exact mode) <-> address < 10 ^ 6).
Proof.
  intros Ha. split.
  - intros [q E]. destruct (Z.lt_ge_cases address (10 ^ 6)) as [|Hlarge]; [done|].
    unfold address_to_query in E.
    rewrite (address_digits_overflow 6) in E; [done..|exact Hlarge].
  - intros Hlt. rewrite address_to_query_value by lia. by eexists.
Qed.

(** ** Theorems *)

(** C38: A throttle's query for an address and a drive mode below 32 reads back as
    that address and drive mode, and is a search event, if the address has at most
    six digits; for a longer one the code has no defined result (it shifts by 32
    bits). *)
Theorem address_query_roundtrip df address exact mode :
  0 <= address -> 0 <= mode < 32 ->
  match address_to_query address exact mode with
  | Some query =>
      address < 10 ^ 6 /\ is_find_event query = true /\ query_to_address df query = (address, mode)
  | None => 10 ^ 6 <= address
  end.
Proof.
  intros Ha Hm. pose proof (address_to_query_defined address exact mode Ha) as Hd.
  destruct (Z.lt_ge_cases address (10 ^ 6)) as [Hlt|Hge].
  - rewrite address_to_query_find by lia.
    destruct (query_flags_facts exact mode Hm) as (Hr & _).
    pose proof (address_nibbles_range 6 address ltac:(lia)). split; [done|]. split.
    + apply find_event_is_find; [simpl in *; lia|done].
    + by apply query_to_address_query.
  - destruct (address_to_query address exact mode); [|done]. exfalso.
    assert (address < 10 ^ 6) by (by apply Hd). lia.
Qed.

Section Theorems.
Variables (IS_TRAIN_EVENT : Z) (df : Defaults).

Lemma match_result_cases event train :
  let m := match_query_to_node IS_TRAIN_EVENT df event train in
  m = 0 \/ m = MATCH_ANY \/ m = Z.lor MATCH_ANY ADDRESS_ONLY \/
  m = Z.lor EXACT MATCH_ANY \/ m = Z.lor (Z.lor MATCH_ANY ADDRESS_ONLY) EXACT.
Proof.
  unfold match_query_to_node. cbv zeta.
  pose proof (best_name_match_result event (bytes_of_string (get_train_name train))) as Hn.
  revert Hn. generalize (best_name_match event (bytes_of_string (get_train_name train))).
  destruct (query_to_address df event) as [a md]. intros m Hn.
  repeat case_match; auto. destruct Hn as [?|[?|?]]; auto.
Qed.

(** A search with the EXACT flag only reports exact matches. *)
Theorem exact_requests_match_exactly event train :
  has_bits event EXACT = true ->
  let m := match_query_to_node IS_TRAIN_EVENT df event train in
  m <> 0 -> has_bits m EXACT = true /\ has_bits m MATCH_ANY = true.
Proof.
  intros He. unfold match_query_to_node. cbv zeta.
  pose proof (best_name_match_result event (bytes_of_string (get_train_name train))) as Hn.
  revert Hn. generalize (best_name_match event (bytes_of_string (get_train_name train))).
  destruct (query_to_address df event) as [a md]. intros m Hn. rewrite He.
  destruct (event =? IS_TRAIN_EVENT); [done|].
  destruct (negb (match_event_to_drive_mode _ _)); [done|].
  destruct ((_ =? _) && _); [done|]. cbn [negb andb orb].
  destruct (_ && negb (bool_decide _)); [done|].
  destruct (has_bits event ADDRESS_ONLY); [done|].
  destruct (negb (has_query event)); [done|].
  rewrite andb_false_r. destruct (has_bits m EXACT) eqn:Em; [|done].
  by rewrite (name_result_exact m Hn Em).
Qed.

(** Apart from the search for all trains, a train that is found has a drive
    mode the request allows, and every find reports MATCH_ANY. *)
Theorem matches_respect_drive_mode event train :
  event <> IS_TRAIN_EVENT ->
  let m := match_query_to_node IS_TRAIN_EVENT df event train in
  m <> 0 ->
  match_event_to_drive_mode event (get_legacy_drive_mode train) = true /\
  has_bits m MATCH_ANY = true.
Proof.
  intros Hev m Hm. split.
  - revert Hm. unfold m, match_query_to_node. apply Z.eqb_neq in Hev. rewrite Hev.
    destruct (query_to_address df event) as [a md].
    by destruct (match_event_to_drive_mode _ _).
  - destruct (match_result_cases event train) as [E|[E|[E|[E|E]]]]; fold m in E; by rewrite E in *.
Qed.

(** The query for a train's own address, with its own drive mode or no
    restriction, is an exact address match. *)
Theorem own_address_matches address exact mode name :
  0 <= address < 10 ^ 6 -> 0 <= mode < 32 ->
  exists query, address_to_query address exact mode = Some query /\
    forall train_mode, mode = DCCMODE_DEFAULT \/ mode = train_mode ->
    match_query_to_train IS_TRAIN_EVENT df query name address train_mode
    = Z.lor (Z.lor MATCH_ANY ADDRESS_ONLY) EXACT.
Proof.
  intros Ha Hm. exists (find_event (address_nibbles 6 address) (query_flags exact mode)).
  split; [by apply address_to_query_find|]. intros train_mode Hmode.
  destruct (query_flags_facts exact mode Hm) as (Hr & Hl & _).
  unfold match_query_to_train, match_query_to_node, ExternalTrainDbEntry.
  destruct (_ =? IS_TRAIN_EVENT); [done|].
  rewrite query_to_address_query by done. cbn [get_legacy_address get_legacy_drive_mode].
  rewrite (s32_small address) by (unfold is_int32, INT_MIN, INT_MAX; lia).
  rewrite (u32_small address) by (unfold is_uint32; lia).
  assert (Hok : match_event_to_drive_mode
    (find_event (address_nibbles 6 address) (query_flags exact mode)) train_mode = true).
  { unfold match_event_to_drive_mode.
    rewrite find_event_land, Hl by (done || (vm_compute; split; congruence)).
    destruct Hmode as [->| ->]; [done|]. destruct (train_mode =? DCCMODE_DEFAULT); [done|].
    apply Z.eqb_refl. }
  rewrite Hok, Z.eqb_refl. cbn [negb andb].
  destruct Hmode as [->| ->].
  - rewrite (bool_decide_true (dcc_mode_to_address_type DCCMODE_DEFAULT address = UNSPECIFIED)) by done.
    by rewrite orb_true_r.
  - rewrite (bool_decide_true (dcc_mode_to_address_type train_mode address =
                               dcc_mode_to_address_type train_mode address)) by done.
    by rewrite !orb_true_r.
Qed.

(** An address-only search without restrictions finds exactly the trains
    whose address is the digits, or starts with them. *)
Theorem address_search_finds_prefixes event train :
  event <> IS_TRAIN_EVENT -> has_bits event EXACT = false ->
  has_bits event ADDRESS_ONLY = true -> Z.land event DCCMODE_PROTOCOL_MASK = DCCMODE_DEFAULT ->
  snd (query_to_address df event) = DCCMODE_DEFAULT ->
  let digits := fst (query_to_address df event) in
  let address := u32 (get_legacy_address train) in
  match_query_to_node IS_TRAIN_EVENT df event train <> 0 <->
  digits = address \/ digits <> 0 /\ exists k, 1 <= k /\ address / 10 ^ k = digits.
Proof.
  intros Hev Hex Hao Hreq Hmode digits address. unfold match_query_to_node.
  apply Z.eqb_neq in Hev. rewrite Hev. fold address. unfold digits. clear digits.
  destruct (query_to_address df event) as [a md]. cbn [fst snd] in *. subst md.
  assert (Hok : match_event_to_drive_mode event (get_legacy_drive_mode train) = true).
  { unfold match_event_to_drive_mode. by rewrite Hreq. }
  rewrite Hok, Hex, Hao. cbn [negb].
  rewrite (bool_decide_true (dcc_mode_to_address_type DCCMODE_DEFAULT a = UNSPECIFIED)) by done.
  rewrite orb_true_r. cbn [orb andb]. rewrite andb_true_r.
  pose proof (u32_range (get_legacy_address train)) as Hr. fold address in Hr.
  unfold is_uint32 in Hr.
  assert (Hp := has_address_prefix_spec address_fuel (address / 10) a).
  destruct (Z.eqb_spec a address) as [->|Hne]; [split; [by left|done]|].
  rewrite Z.eqb_refl. cbn [negb andb].
  assert (Hspec : has_address_prefix address_fuel (address / 10) a = true <->
                  a <> 0 /\ exists k, 1 <= k /\ address / 10 ^ k = a).
  { rewrite Hp.
    - split; intros (Ha & k & Hk & E); (split; [done|]).
      + exists (k + 1). split; [lia|]. rewrite Z.div_div in E by lia.
        by rewrite Z.pow_add_r, (Z.mul_comm (10 ^ k)) by lia.
      + exists (k - 1). split; [lia|]. rewrite Z.div_div by lia.
        rewrite <- Z.pow_succ_r by lia. by replace (Z.succ (k - 1)) with k by lia.
    - split; [apply Z.div_pos; lia|].
      assert (address / 10 <= address) by (apply Z.div_le_upper_bound; lia).
      unfold address_fuel. lia. }
  destruct (has_address_prefix _ _ _); cbn [negb].
  - split; [|done]. intros _. right. by apply Hspec.
  - split; [done|]. intros [?|Hk]; [done|]. by apply Hspec in Hk.
Qed.

Lemma input_to_search_nonempty input :
  1 <= zlen (bytes_of_string input) ->
  input_to_search IS_TRAIN_EVENT input = input_to_event (bytes_of_string input).
Proof.
  intros Hn. unfold input_to_search. destruct (bytes_of_string input); [|done].
  by change (zlen []) with 0 in Hn.
Qed.

(** Digits typed by the user read back as the number they write. *)
Theorem typed_digits_roundtrip input :
  let l := bytes_of_string input in
  Forall (fun c => is_number c = true) l -> 1 <= zlen l <= 6 ->
  let event := input_to_search IS_TRAIN_EVENT input in
  is_find_event event = true /\ fst (query_to_address df event) = decimal l.
Proof.
  intros l Hl Hn event. unfold event. rewrite input_to_search_nonempty by (fold l; lia).
  fold l. clearbody l. clear event.
  unfold input_to_event. change (TRAIN_FIND_MASK - 4) with 28.
  rewrite query_part_digits by (done || lia).
  destruct (nibbles_range l Hl) as [Hr _].
  assert (Hp : 16 ^ zlen l <= 16 ^ 6) by (apply Z.pow_le_mono_r; lia).
  set (v := 2 ^ 24 - 16 ^ zlen l + nibbles l).
  assert (Hv : 0 <= v < 2 ^ 24) by (unfold v; lia).
  set (f := Z.land (input_flags l) 0xff).
  assert (Hf : 0 <= f < 2 ^ 8).
  { unfold f. change 0xff with (Z.ones 8). rewrite Z.land_ones by lia.
    apply Z.mod_pos_bound. lia. }
  assert (E : Z.lor (Z.ldiff (Z.lor TRAIN_FIND_BASE (Z.shiftl v TRAIN_FIND_MASK_LOW)) 0xff) f
              = find_event v f).
  { unfold find_event. rewrite <- lor_flags by done. f_equal.
    assert (E1 : Z.lor TRAIN_FIND_BASE (Z.shiftl v TRAIN_FIND_MASK_LOW)
                 = (0x090099FF * 2 ^ 24 + v) * 2 ^ 8).
    { rewrite <- Z.shiftl_mul_pow2 by lia.
      change TRAIN_FIND_BASE with (Z.shiftl (0x090099FF * 2 ^ 24) 8).
      unfold TRAIN_FIND_MASK_LOW. rewrite <- Z.shiftl_lor. f_equal.
      assert (Hz : Z.land (0x090099FF * 2 ^ 24) v = 0).
      { apply Z.bits_inj'. intros i Hi. rewrite Z.land_spec, Z.bits_0.
        destruct (Z.lt_ge_cases i 24).
        - by rewrite Z.mul_pow2_bits_low by lia.
        - rewrite (testbit_nonneg_high v 24) by lia. apply andb_false_r. }
      by rewrite <- Z.lxor_lor, <- Z.add_nocarry_lxor by done. }
    rewrite E1, (Z.mul_comm _ (2 ^ 8)), Z.mul_comm. apply Z.bits_inj'. intros i Hi.
    rewrite Z.ldiff_spec. change 0xff with (Z.ones 8). rewrite Z.testbit_ones by lia.
    destruct (Z.lt_ge_cases i 8).
    - by rewrite Z.mul_pow2_bits_low by lia.
    - destruct (Z.ltb_spec i 8); [lia|]. by rewrite andb_false_r, andb_true_r. }
  rewrite E. split; [by apply find_event_is_find|].
  destruct (decode_nibbles 6 v (0, false)) as [a zero] eqn:Ed.
  rewrite (query_to_address_find _ _ _ a zero) by done. cbn [fst].
  pose proof (decode_digits l (6 - length l) Hl) as Hd. unfold zlen in *.
  replace (length l + (6 - length l))%nat with 6%nat in Hd by lia.
  rewrite <- Hd by lia. clear Hd.
  assert (Hv' : (16 ^ Z.of_nat (6 - length l) - 1) * 16 ^ Z.of_nat (length l) + nibbles l = v).
  { assert (Hpow : 16 ^ Z.of_nat (6 - length l) * 16 ^ Z.of_nat (length l) = 2 ^ 24).
    { rewrite <- Z.pow_add_r by lia. by replace (_ + _) with 6 by lia. }
    rewrite Z.mul_sub_distr_r, Hpow. unfold v. lia. }
  by rewrite Hv', Ed.
Qed.

End Theorems.
