(* ===== verification/Olcb.v ===== *)
(** Variables that are bound to OpenLCB events (src/cs/logic/OlcbBindings.cxx,
    OlcbBindings.hxx, OlcbBindingsImpl.hxx, OlcbBindingsConfig.hxx): the boolean
    and the integer variable, and the variable factory that keeps their names
    and events in the configuration file.

    The node and its event handlers are code of another repository.  What the
    variables need of them is the class [EventBus] over a type [B] of bus
    states: sending a message and waiting until it was processed locally, which
    reports back what arrived meanwhile. *)

From stdpp Require Import pretty.
From S2P Require Import Prelude Bytecode Variables VMState VM Safety.

(** ** Messages *)

(** What an event handler is told. *)
Inductive Incoming :=
| EventReport (event : Z)
| IdentifyConsumer (event : Z)
| IdentifyProducer (event : Z)
| ConsumerIdentified (event : Z) (state : EventState)
| ProducerIdentified (event : Z) (state : EventState)
| IdentifyGlobal (for_other_node : bool).

(** What a variable sends; ranges are encoded by the node. *)
Inductive Outgoing :=
| SendEventReport (event : Z)
| SendConsumerIdentify (event : Z)
| SendConsumerIdentified (event : Z) (state : EventState)
| SendProducerIdentified (event : Z) (state : EventState)
| SendConsumerRange (event_base num_states : Z)
| SendProducerRange (event_base num_states : Z).

(** [bit_query] and [bit_report] are the messages of a [BitEventPC] with the
    given events; the answer is the sequence of values passed to [set_state].
    [exchange] sends a message and answers with the messages received until
    the loopback arrived. *)
Class EventBus (B : Type) := {
  bit_query_producer : Z -> Z -> B -> list bool * B;
  bit_query_consumer : Z -> Z -> B -> list bool * B;
  bit_report : Z -> Z -> EventState -> B -> list bool * B;
  register_range : Z -> Z -> B -> B;
  exchange : Outgoing -> B -> list Incoming * B
}.

(** ** Boolean variables *)

Record OlcbBoolVariable := mkBool {
  event_on_ : Z;
  event_off_ : Z;
  bool_state_ : bool;
  bool_state_known_ : bool
}.

Definition OlcbBoolVariable_max_state (v : OlcbBoolVariable) : Z := 1.

Definition OlcbBoolVariable_read (v : OlcbBoolVariable) (arg : Z) : Z :=
  if bool_state_ v then 1 else 0.

Definition get_current_state (v : OlcbBoolVariable) : EventState :=
  if negb (bool_state_known_ v) then UNKNOWN
  else if bool_state_ v then VALID else INVALID.

Definition set_state (v : OlcbBoolVariable) (new_value : bool) : OlcbBoolVariable :=
  mkBool (event_on_ v) (event_off_ v) new_value true.

(** The calls of [set_state] while the machine waits. *)
Definition set_states (l : list bool) (v : OlcbBoolVariable) : OlcbBoolVariable :=
  fold_left set_state l v.

(** ** Integer variables *)

Record OlcbIntVariable := mkInt {
  event_base_ : Z;
  int_state_known_ : bool;
  int_state_ : Z;
  num_states_ : Z
}.

Definition OlcbIntVariable_max_state (v : OlcbIntVariable) : Z := num_states_ v - 1.
Definition OlcbIntVariable_read (v : OlcbIntVariable) (arg : Z) : Z := int_state_ v.

Definition is_known (v : OlcbIntVariable) : bool := int_state_known_ v.

(** The state an event means, if it is for us. *)
Definition decode_event (v : OlcbIntVariable) (event_id : Z) : option Z :=
  if event_id <? event_base_ v then None
  else if u64 (event_base_ v + num_states_ v) <=? event_id then None
  else Some (u8 (event_id - event_base_ v)).

Definition learn (v : OlcbIntVariable) (event : Z) : OlcbIntVariable :=
  match decode_event v event with
  | Some st => mkInt (event_base_ v) true st (num_states_ v)
  | None => v
  end.

Definition current_event (v : OlcbIntVariable) : Z := u64 (event_base_ v + int_state_ v).

(** The state of an event that was asked for. *)
Definition event_state (v : OlcbIntVariable) (st : Z) : EventState :=
  if int_state_known_ v then (if st =? int_state_ v then VALID else INVALID) else UNKNOWN.

Definition handle_event_report (v : OlcbIntVariable) (event : Z) : OlcbIntVariable :=
  learn v event.

Definition handle_identify_consumer (v : OlcbIntVariable) (event : Z) : list Outgoing :=
  match decode_event v event with
  | None => []
  | Some st =>
      SendConsumerIdentified event (event_state v st)
      :: (if int_state_known_ v && negb (st =? int_state_ v)
          then [SendConsumerIdentified (current_event v) VALID] else [])
  end.

Definition handle_identify_producer (v : OlcbIntVariable) (event : Z) : list Outgoing :=
  match decode_event v event with
  | None => []
  | Some st =>
      SendProducerIdentified event (event_state v st)
      :: (if int_state_known_ v && negb (st =? int_state_ v)
          then [SendProducerIdentified (current_event v) VALID] else [])
  end.

Definition handle_consumer_identified (v : OlcbIntVariable) (event : Z) (state : EventState)
    : OlcbIntVariable :=
  if int_state_known_ v then v
  else if negb (bool_decide (state = VALID)) then v
  else learn v event.

Definition handle_producer_identified (v : OlcbIntVariable) (event : Z) (state : EventState)
    : OlcbIntVariable :=
  if int_state_known_ v then v
  else if negb (bool_decide (state = VALID)) then v
  else learn v event.

Definition handle_identify_global (v : OlcbIntVariable) (for_other_node : bool)
    : list Outgoing :=
  if for_other_node then []
  else
    [ SendConsumerRange (event_base_ v) (num_states_ v);
      SendProducerRange (event_base_ v) (num_states_ v) ]
    ++ (if int_state_known_ v
        then [ SendProducerIdentified (current_event v) VALID;
               SendConsumerIdentified (current_event v) VALID ]
        else []).

(** The dispatch of the event service. *)
Definition handle_message (v : OlcbIntVariable) (m : Incoming)
    : OlcbIntVariable * list Outgoing :=
  match m with
  | EventReport e => (handle_event_report v e, [])
  | IdentifyConsumer e => (v, handle_identify_consumer v e)
  | IdentifyProducer e => (v, handle_identify_producer v e)
  | ConsumerIdentified e st => (handle_consumer_identified v e st, [])
  | ProducerIdentified e st => (handle_producer_identified v e st, [])
  | IdentifyGlobal other => (v, handle_identify_global v other)
  end.

Definition handle_messages (l : list Incoming) (v : OlcbIntVariable) : OlcbIntVariable :=
  fold_left (fun v m => fst (handle_message v m)) l v.

(** ** Configuration *)

Record ImportEntry := mkImport {
  imp_name : string;
  imp_event_on : Z;
  imp_event_off : Z
}.

Record LogicBlock := mkBlock {
  blk_filename : string;
  blk_enabled : Z;
  blk_imports : list ImportEntry;
  blk_text : string;
  blk_status : string
}.

(** [cfg_.blocks()]: the configuration file, as far as it belongs to the
    logic engine. *)
Abbreviation LogicConfig := (list LogicBlock).

Definition set_imports (l : list ImportEntry) (b : LogicBlock) : LogicBlock :=
  mkBlock (blk_filename b) (blk_enabled b) l (blk_text b) (blk_status b).
Definition set_status (st : string) (b : LogicBlock) : LogicBlock :=
  mkBlock (blk_filename b) (blk_enabled b) (blk_imports b) (blk_text b) st.
Definition set_imp_name (name : string) (e : ImportEntry) : ImportEntry :=
  mkImport name (imp_event_on e) (imp_event_off e).

(** The scan of [create_variable] over the imports of a block: the entry with
    the requested name, or the first unused one. *)
Fixpoint find_import (l : list ImportEntry) (idx : Z) (name : string) (freeidx : Z)
    : (Z * ImportEntry) + Z :=
  match l with
  | [] => inr freeidx
  | e :: l =>
      if bool_decide (imp_name e = name) then inl (idx, e)
      else if bool_decide (imp_name e = "") && (freeidx <? 0)
      then find_import l (idx + 1) name idx
      else find_import l (idx + 1) name freeidx
  end.

Section Factory.
Context {B : Type} `{EB : !EventBus B}.

(** [clip] is what a name entry holds after a string was written to it:
    entries have 32 bytes.  [enabled_default] is the reset value of the "enabled"
    entry. *)
Context (clip : string -> string) (enabled_default : Z).

(** *** Operations of the variables *)

Definition OlcbBoolVariable_new (event_on event_off : Z) (bus : B) : OlcbBoolVariable * B :=
  let v := mkBool event_on event_off false false in
  let '(l, bus) := bit_query_producer event_on event_off bus in
  let v := set_states l v in
  let '(l, bus) := bit_query_consumer event_on event_off bus in
  (set_states l v, bus).

Definition OlcbBoolVariable_write (v : OlcbBoolVariable) (arg value : Z) (bus : B)
    : OlcbBoolVariable * B :=
  let need_update := negb (bool_state_known_ v) in
  let need_update := if bool_state_ v && (value =? 0) then true else need_update in
  let need_update := if negb (bool_state_ v) && negb (value =? 0) then true else need_update in
  let v := mkBool (event_on_ v) (event_off_ v) (negb (value =? 0)) true in
  if need_update then
    let '(l, bus) := bit_report (event_on_ v) (event_off_ v) (get_current_state v) bus in
    (set_states l v, bus)
  else (v, bus).

(** The loop of the constructor that asks for the current state. *)
Fixpoint query_states (fuel : nat) (ofs : Z) (v : OlcbIntVariable) (bus : B)
    : OlcbIntVariable * B :=
  match fuel with
  | O => (v, bus)
  | S fuel =>
      if negb (int_state_known_ v) && (ofs <? num_states_ v) then
        let '(l, bus) := exchange (SendConsumerIdentify (u64 (event_base_ v + ofs))) bus in
        query_states fuel (ofs + 1) (handle_messages l v) bus
      else (v, bus)
  end.

(** [num_states] is a [uint8_t]. *)
Definition OlcbIntVariable_new (event_base num_states : Z) (bus : B) : OlcbIntVariable * B :=
  let v := mkInt event_base false 0 num_states in
  query_states (Z.to_nat num_states) 0 v (register_range event_base num_states bus).

(** True is an access error. *)
Definition OlcbIntVariable_write (v : OlcbIntVariable) (arg value : Z) (bus : B)
    : bool * OlcbIntVariable * B :=
  if (value <? 0) || (num_states_ v <=? value) then (true, v, bus)
  else
    let need_update := negb (int_state_known_ v) in
    let need_update := if negb (int_state_ v =? value) then true else need_update in
    let v := mkInt (event_base_ v) true (u8 value) (num_states_ v) in
    if need_update then
      let '(l, bus) := exchange (SendEventReport (current_event v)) bus in
      (false, handle_messages l v, bus)
    else (false, v, bus).

(** *** The factory *)

(** The world of the machine: the configuration file, the bus, and the
    variables created so far. *)
Record OlcbWorld := mkWorld {
  cfg_ : LogicConfig;
  bus_ : B;
  objects_ : gmap nat OlcbBoolVariable;
  next_object_ : nat
}.

Definition set_cfg (c : LogicConfig) (w : OlcbWorld) : OlcbWorld :=
  mkWorld c (bus_ w) (objects_ w) (next_object_ w).

Definition make_variable (e : ImportEntry) (w : OlcbWorld) : option nat * OlcbWorld :=
  let '(v, bus) := OlcbBoolVariable_new (imp_event_on e) (imp_event_off e) (bus_ w) in
  (Some (next_object_ w),
   mkWorld (cfg_ w) bus (<[next_object_ w := v]> (objects_ w)) (S (next_object_ w))).

Definition OlcbVariableFactory_create_variable (request : VariableCreationRequest)
    (w : OlcbWorld) : option nat * OlcbWorld + crash :=
  match cfg_ w !! Z.to_nat (req_block_num request) with
  | None => inr AssertFailed
  | Some block =>
      if negb (bool_decide (req_type request = TYPE_BOOL)) then inl (None, w)
      else
        match find_import (blk_imports block) 0 (req_name request) (-1) with
        | inl (_, e) => inl (make_variable e w)
        | inr freeidx =>
            if freeidx <? 0 then inl (None, w)
            else
              let imports :=
                alter (set_imp_name (clip (req_name request))) (Z.to_nat freeidx)
                  (blk_imports block) in
              let w := set_cfg (<[Z.to_nat (req_block_num request) := set_imports imports block]>
                                  (cfg_ w)) w in
              match blk_imports block !! Z.to_nat freeidx with
              | Some e => inl (make_variable e w)
              | None => inr AssertFailed
              end
        end
  end.

(** Events that the bus delivers to a variable at other times. *)
Definition deliver (l : nat) (new_value : bool) (w : OlcbWorld) : OlcbWorld :=
  mkWorld (cfg_ w) (bus_ w) (alter (fun v => set_state v new_value) l (objects_ w))
    (next_object_ w).

Definition object_read (l : nat) (arg : Z) (w : OlcbWorld) : Z * bool * OlcbWorld :=
  match objects_ w !! l with
  | Some v => (OlcbBoolVariable_read v arg, false, w)
  | None => (0, false, w)
  end.

Definition object_write (l : nat) (arg value : Z) (w : OlcbWorld) : bool * OlcbWorld :=
  match objects_ w !! l with
  | Some v =>
      let '(v, bus) := OlcbBoolVariable_write v arg value (bus_ w) in
      (false, mkWorld (cfg_ w) bus (<[l := v]> (objects_ w)) (next_object_ w))
  | None => (false, w)
  end.

#[export] Instance OlcbVariableFactory : VariableFactory OlcbWorld nat := {
  create_variable := OlcbVariableFactory_create_variable;
  var_read := object_read;
  var_write := object_write;
  var_max_state := fun l w => 1
}.

(** [factory_reset]; the events are reset by the configuration system. *)
Definition reset_block (b : LogicBlock) : LogicBlock :=
  mkBlock "" enabled_default (List.map (set_imp_name "") (blk_imports b)) "" "Disabled".

Definition factory_reset (c : LogicConfig) : LogicConfig := List.map reset_block c.

End Factory.

(** ** Lemmas *)

Section Lemmas.
Context {B : Type} `{EB : !EventBus B} (clip : string -> string).

Lemma set_states_events l v :
  event_on_ (set_states l v) = event_on_ v /\ event_off_ (set_states l v) = event_off_ v.
Proof.
  revert v. induction l as [|b l IH]; intros v; [done|]. apply (IH (set_state v b)).
Qed.

Lemma set_states_last l v :
  bool_state_ (set_states l v) = default (bool_state_ v) (last l).
Proof.
  revert v. induction l as [|b l IH]; intros v; [done|].
  change (set_states (b :: l) v) with (set_states l (set_state v b)). rewrite IH.
  rewrite last_cons. by destruct (last l).
Qed.

(** The variables answer with an [int]. *)
#[export] Instance OlcbVariableFactoryOk :
  VariableFactoryOk (OlcbWorld (B := B)) nat (OlcbVariableFactory clip).
Proof.
  split.
  - intros l arg w. simpl. unfold object_read.
    destruct (objects_ w !! l) as [v|]; simpl; unfold is_int32, INT_MIN, INT_MAX; [|lia].
    unfold OlcbBoolVariable_read. destruct (bool_state_ v); lia.
  - intros r w c. simpl. unfold OlcbVariableFactory_create_variable.
    repeat case_match; intros ?; by simplify_eq.
Qed.

Lemma find_import_found l idx name freeidx i e :
  find_import l idx name freeidx = inl (i, e) ->
  imp_name e = name /\ exists k, i = idx + Z.of_nat k /\ l !! k = Some e.
Proof.
  revert idx freeidx. induction l as [|e' l IH]; intros idx freeidx; [done|]. cbn [find_import].
  destruct (bool_decide_reflect (imp_name e' = name)) as [E|E].
  - intros [= <- <-]. split; [done|]. exists 0%nat. split; [lia|done].
  - destruct (_ && _); intros Hf; apply IH in Hf as (? & k & -> & Hk);
      (split; [done|]); exists (S k); (split; [lia|done]).
Qed.

Lemma find_import_free l idx name freeidx f :
  find_import l idx name freeidx = inr f ->
  Forall (fun e => imp_name e <> name) l /\
  (0 <= freeidx -> f = freeidx) /\
  (freeidx < 0 -> 0 <= idx ->
    (f = freeidx /\ Forall (fun e => imp_name e <> "") l) \/
    exists k e, f = idx + Z.of_nat k /\ l !! k = Some e /\ imp_name e = "").
Proof.
  revert idx freeidx. induction l as [|e l IH]; intros idx freeidx.
  - intros [= <-]. split; [constructor|]. split; [done|]. intros. left. split; [done|constructor].
  - cbn [find_import]. destruct (bool_decide_reflect (imp_name e = name)) as [E|E]; [done|].
    destruct (bool_decide_reflect (imp_name e = "")) as [E'|E'], (Z.ltb_spec freeidx 0);
      cbn [andb]; intros Hf; apply IH in Hf as (Hall & Hge & Hlt).
    + split; [by constructor|]. split; [lia|]. intros _ Hi. right. exists 0%nat, e.
      split; [rewrite Hge; lia|done].
    + split; [by constructor|]. split; [exact Hge|]. lia.
    + split; [by constructor|]. split; [lia|]. intros Hn Hi.
      destruct (Hlt Hn ltac:(lia)) as [[? ?]|(k & e' & ? & ? & ?)].
      * left. split; [done|]. by constructor.
      * right. exists (S k), e'. split; [lia|done].
    + split; [by constructor|]. split; [exact Hge|]. lia.
Qed.

Lemma make_variable_object e w h w1 :
  make_variable e w = (Some h, w1) ->
  cfg_ w1 = cfg_ w /\ exists v, objects_ w1 !! h = Some v /\
    event_on_ v = imp_event_on e /\ event_off_ v = imp_event_off e.
Proof.
  unfold make_variable, OlcbBoolVariable_new.
  destruct (bit_query_producer _ _ _) as [l1 b1]. destruct (bit_query_consumer _ _ _) as [l2 b2].
  intros [= <- <-]. split; [done|]. eexists. split; [apply lookup_insert_eq|].
  destruct (set_states_events l2 (set_states l1 (mkBool (imp_event_on e) (imp_event_off e) false false)))
    as [-> ->].
  by destruct (set_states_events l1 (mkBool (imp_event_on e) (imp_event_off e) false false)) as [-> ->].
Qed.

Lemma make_variable_Some e w : exists h w1, make_variable e w = (Some h, w1).
Proof.
  unfold make_variable. destruct (OlcbBoolVariable_new _ _ _) as [v b]. eauto.
Qed.

Lemma find_import_present l idx name freeidx k e :
  l !! k = Some e -> imp_name e = name ->
  exists i e', find_import l idx name freeidx = inl (i, e').
Proof.
  revert idx freeidx k. induction l as [|e' l IH]; intros idx freeidx k Hk He; [done|].
  cbn [find_import]. destruct (bool_decide_reflect (imp_name e' = name)); [eauto|].
  destruct k as [|k]; [simpl in Hk; by simplify_eq|]. simpl in Hk.
  destruct (_ && _); eauto.
Qed.

(** How a request that succeeds was served: from an entry with its name, or
    from the first unused one. *)
Lemma create_variable_cases request w h w1 :
  OlcbVariableFactory_create_variable clip request w = inl (Some h, w1) ->
  exists block, cfg_ w !! Z.to_nat (req_block_num request) = Some block /\
    req_type request = TYPE_BOOL /\
    ((exists i e, find_import (blk_imports block) 0 (req_name request) (-1) = inl (i, e) /\
        make_variable e w = (Some h, w1)) \/
     (exists k e, find_import (blk_imports block) 0 (req_name request) (-1) = inr (Z.of_nat k) /\
        blk_imports block !! k = Some e /\ imp_name e = "" /\
        make_variable e
          (set_cfg (<[Z.to_nat (req_block_num request) :=
             set_imports (alter (set_imp_name (clip (req_name request))) k (blk_imports block)) block]>
             (cfg_ w)) w) = (Some h, w1))).
Proof.
  unfold OlcbVariableFactory_create_variable.
  destruct (cfg_ w !! _) as [block|]; [|done]. intros E. exists block. split; [done|].
  destruct (bool_decide_reflect (req_type request = TYPE_BOOL)) as [Ht|]; [|done]. split; [done|].
  cbn [negb] in E. destruct (find_import _ _ _ _) as [[i e]|f] eqn:Ef.
  - left. exists i, e. by injection E as E.
  - right. apply find_import_free in Ef as Hf. destruct Hf as (_ & _ & Hf).
    destruct (Hf ltac:(lia) ltac:(lia)) as [[-> _]|(k & e & -> & Hk & He)]; [done|].
    rewrite Z.add_0_l in *. destruct (Z.ltb_spec (Z.of_nat k) 0); [lia|].
    rewrite Nat2Z.id, Hk in E. injection E as E. exists k, e. done.
Qed.

(** A variable keeps its events: once a boolean variable was created for
    a name that fits into the configuration, creating it again, in any later
    state with the same configuration file, binds it to the same two events and
    leaves the file as it is. *)
Theorem create_variable_persistent request w h w1 :
  OlcbVariableFactory_create_variable clip request w = inl (Some h, w1) -> clip (req_name request) = req_name request ->
  exists v, objects_ w1 !! h = Some v /\
    forall w2, cfg_ w2 = cfg_ w1 ->
    exists h2 w3 v2, OlcbVariableFactory_create_variable clip request w2 = inl (Some h2, w3) /\ cfg_ w3 = cfg_ w2 /\
      objects_ w3 !! h2 = Some v2 /\
      event_on_ v2 = event_on_ v /\ event_off_ v2 = event_off_ v.
Proof.
  intros E Hclip.
  apply create_variable_cases in E as (block & Hb & Ht & [(i & e & Hf & Hm)|(k & e & Hf & Hk & He & Hm)]);
    apply make_variable_object in Hm as (Hcfg & v & Hv & Hon & Hoff); exists v; (split; [done|]);
    intros w2 Hw2; unfold OlcbVariableFactory_create_variable.
  - rewrite Hw2, Hcfg, Hb, (bool_decide_true _ Ht). cbn [negb]. rewrite Hf.
    destruct (make_variable_Some e w2) as (h2 & w3 & Hm2). rewrite Hm2.
    apply make_variable_object in Hm2 as (Hcfg2 & v2 & Hv2 & Hon2 & Hoff2).
    exists h2, w3, v2. split; [done|]. split; [congruence|]. split; [done|]. split; congruence.
  - rewrite Hw2, Hcfg. simpl cfg_.
    rewrite list_lookup_insert_eq by (by eapply lookup_lt_Some).
    rewrite (bool_decide_true _ Ht). cbn [negb set_imports blk_imports].
    rewrite Hclip.
    set (imports := alter _ k _).
    assert (Hk' : imports !! k = Some (set_imp_name (req_name request) e)).
    { unfold imports. by rewrite list_lookup_alter_eq, Hk. }
    destruct (find_import_present imports 0 (req_name request) (-1) k _ Hk' eq_refl) as (i & e' & Hf').
    rewrite Hf'.
    assert (e' = set_imp_name (req_name request) e) as ->.
    { apply find_import_found in Hf' as (He' & k' & -> & Hk'').
      destruct (decide (k' = k)) as [->|Hne]; [congruence|].
      unfold imports in Hk''. rewrite list_lookup_alter_ne in Hk'' by done.
      apply find_import_free in Hf as (Hall & _).
      rewrite Forall_lookup in Hall. by destruct (Hall _ _ Hk''). }
    destruct (make_variable_Some (set_imp_name (req_name request) e) w2) as (h2 & w3 & Hm2).
    rewrite Hm2. apply make_variable_object in Hm2 as (Hcfg2 & v2 & Hv2 & Hon2 & Hoff2).
    exists h2, w3, v2. simpl in Hon2, Hoff2.
    split; [done|]. split; [rewrite Hcfg2, Hw2, Hcfg, Hclip; done|]. split; [done|]. split; congruence.
Qed.

(** Creating a variable never takes the entry of another one away: every
    used entry of the configuration file stays as it is. *)
Theorem create_variable_keeps_entries request w var w1 i block k e :
  OlcbVariableFactory_create_variable clip request w = inl (var, w1) ->
  cfg_ w !! i = Some block -> blk_imports block !! k = Some e -> imp_name e <> "" ->
  exists block1, cfg_ w1 !! i = Some block1 /\ blk_imports block1 !! k = Some e.
Proof.
  intros E Hi Hk He. destruct var as [h|].
  - apply create_variable_cases in E as (bl & Hb & _ & [(j & e' & _ & Hm)|(k' & e' & _ & Hk' & He' & Hm)]);
      apply make_variable_object in Hm as (Hcfg & _); rewrite Hcfg.
    + by exists block.
    + simpl. destruct (decide (i = Z.to_nat (req_block_num request))) as [->|Hne].
      * rewrite Hb in Hi. injection Hi as <-.
        rewrite list_lookup_insert_eq by (by eapply lookup_lt_Some).
        eexists. split; [done|]. simpl. destruct (decide (k = k')) as [->|Hne].
        { rewrite Hk in Hk'. by simplify_eq. }
        by rewrite list_lookup_alter_ne.
      * rewrite list_lookup_insert_ne by done. by exists block.
  - unfold OlcbVariableFactory_create_variable in E.
    destruct (cfg_ w !! Z.to_nat _) as [bl|]; [|done].
    destruct (negb _); [simplify_eq; eauto|].
    destruct (find_import _ _ _ _) as [[j e']|f].
    + destruct (make_variable_Some e' w) as (? & ? & Em). rewrite Em in E. by simplify_eq.
    + destruct (f <? 0); [simplify_eq; eauto|]. destruct (blk_imports bl !! _) as [e'|]; [|done].
      match type of E with context [make_variable ?e ?w] =>
        destruct (make_variable_Some e w) as (? & ? & Em) end.
      rewrite Em in E. by simplify_eq.
Qed.

(** ** Integer variables *)

(** The state is one of the states, and the events do not wrap around. *)
Definition int_ok (v : OlcbIntVariable) : Prop :=
  0 <= int_state_ v < num_states_ v /\ num_states_ v < 2 ^ 8 /\
  0 <= event_base_ v /\ event_base_ v + num_states_ v < 2 ^ 64.

Lemma decode_event_spec v e st :
  int_ok v -> decode_event v e = Some st ->
  e = event_base_ v + st /\ 0 <= st < num_states_ v.
Proof.
  intros (Hs & Hn & Hb & Hw). unfold decode_event, u64, u8.
  rewrite (Z.mod_small (event_base_ v + num_states_ v)) by lia.
  destruct (Z.ltb_spec e (event_base_ v)); [done|].
  destruct (Z.leb_spec (event_base_ v + num_states_ v) e); [done|].
  intros [= <-]. rewrite Z.mod_small by lia. lia.
Qed.

Lemma decode_event_state v st :
  int_ok v -> 0 <= st < num_states_ v -> decode_event v (u64 (event_base_ v + st)) = Some st.
Proof.
  intros (Hs & Hn & Hb & Hw) Hst. unfold decode_event, u64, u8.
  rewrite !Z.mod_small by lia.
  destruct (Z.ltb_spec (event_base_ v + st) (event_base_ v)); [lia|].
  destruct (Z.leb_spec (event_base_ v + num_states_ v) (event_base_ v + st)); [lia|].
  f_equal. lia.
Qed.

Lemma learn_ok v e : int_ok v -> int_ok (learn v e).
Proof.
  intros Hv. unfold learn. destruct (decode_event v e) as [st|] eqn:E; [|done].
  apply (decode_event_spec v e st Hv) in E as [_ Hst]. destruct Hv as (? & ? & ? & ?).
  repeat split; simpl; lia.
Qed.

Lemma handle_message_ok v m : int_ok v -> int_ok (fst (handle_message v m)).
Proof.
  intros Hv. destruct m as [e|e|e|e st|e st|o]; simpl; try done; try by apply learn_ok.
  - unfold handle_consumer_identified.
    destruct (int_state_known_ v), (negb (bool_decide (st = VALID))); try done.
    by apply learn_ok.
  - unfold handle_producer_identified.
    destruct (int_state_known_ v), (negb (bool_decide (st = VALID))); try done.
    by apply learn_ok.
Qed.

Lemma handle_messages_ok l v : int_ok v -> int_ok (handle_messages l v).
Proof.
  revert v. induction l as [|m l IH]; intros v Hv; [done|].
  simpl. apply IH. by apply handle_message_ok.
Qed.

Lemma query_states_ok fuel ofs v bus :
  int_ok v -> int_ok (fst (query_states fuel ofs v bus)).
Proof.
  revert ofs v bus. induction fuel as [|fuel IH]; intros ofs v bus Hv; [done|].
  cbn [query_states]. destruct (_ && _); [|done].
  destruct (exchange _ _) as [l bus']. apply IH. by apply handle_messages_ok.
Qed.

(** The state of an integer variable is always one of its states, from
    its construction on, whatever arrives from the bus and whatever is written
    to it. *)
Theorem int_variable_state_in_range event_base num_states bus
    (ops : list (Incoming + Z)) (buses : Z -> B) :
  0 < num_states < 2 ^ 8 -> 0 <= event_base -> event_base + num_states < 2 ^ 64 ->
  let run v op := match op with
                  | inl m => fst (handle_message v m)
                  | inr value => snd (fst (OlcbIntVariable_write v 0 value (buses value)))
                  end in
  let v := fold_left run ops (fst (OlcbIntVariable_new event_base num_states bus)) in
  0 <= OlcbIntVariable_read v 0 <= OlcbIntVariable_max_state v.
Proof.
  intros Hn Hb Hw run v.
  assert (Hok : int_ok v).
  { assert (H0 : int_ok (fst (OlcbIntVariable_new event_base num_states bus))).
    { unfold OlcbIntVariable_new. apply query_states_ok. repeat split; simpl; lia. }
    unfold v. clear v. revert H0. generalize (fst (OlcbIntVariable_new event_base num_states bus)).
    induction ops as [|op ops IH]; intros v Hv; [done|]. cbn [fold_left]. apply IH.
    destruct op as [m|value]; unfold run; [by apply handle_message_ok|].
    unfold OlcbIntVariable_write. destruct Hv as (Hs & Hn' & Hb' & Hw').
    destruct (Z.ltb_spec value 0), (Z.leb_spec (num_states_ v) value); try done. cbn [orb].
    set (v' := mkInt _ _ _ _).
    assert (Hv' : int_ok v').
    { repeat split; simpl; try done; rewrite u8_small; unfold is_uint8; lia. }
    destruct (if negb _ then _ else _); [|done].
    destruct (exchange _ _) as [l bus']. by apply handle_messages_ok. }
  destruct Hok as (Hs & _). unfold OlcbIntVariable_read, OlcbIntVariable_max_state. lia.
Qed.

(** What one integer variable writes another one reads: after a write
    inside the range, the event on the bus makes every variable with the same
    events take the written value. *)
Theorem int_variable_write_propagates v v' value bus :
  int_ok v -> int_ok v' -> event_base_ v' = event_base_ v -> num_states_ v' = num_states_ v ->
  0 <= value < num_states_ v ->
  let sent := mkInt (event_base_ v) true value (num_states_ v) in
  let v1 := handle_message v' (EventReport (current_event sent)) in
  OlcbIntVariable_read (fst v1) 0 = value /\ is_known (fst v1) = true /\
  (int_state_known_ v = false \/ int_state_ v <> value ->
   OlcbIntVariable_write v 0 value bus =
   let '(l, bus) := exchange (SendEventReport (current_event sent)) bus in
   (false, handle_messages l sent, bus)).
Proof.
  intros Hv Hv' Eb En Hval sent v1.
  assert (Hd : decode_event v' (current_event sent) = Some value).
  { unfold current_event, sent. cbn [event_base_ int_state_]. rewrite <- Eb.
    apply decode_event_state; [done|by rewrite En]. }
  unfold v1. cbn [handle_message fst]. unfold handle_event_report, learn. rewrite Hd.
  split; [done|]. split; [done|]. intros Hupd.
  unfold OlcbIntVariable_write.
  destruct (Z.ltb_spec value 0), (Z.leb_spec (num_states_ v) value); try lia. cbn [orb].
  destruct Hv as (_ & Hn & _). rewrite u8_small by (unfold is_uint8; lia). fold sent.
  destruct (Z.eqb_spec (int_state_ v) value) as [Ev|_]; cbn [negb]; [|done].
  destruct Hupd as [->|]; [done|lia].
Qed.

(** A write to a boolean variable is kept, unless the bus reports
    another state; the variable is known from then on, and the bus is only used
    when something changes. *)
Theorem bool_variable_write v arg value bus :
  let '(v1, bus1) := OlcbBoolVariable_write v arg value bus in
  let written := mkBool (event_on_ v) (event_off_ v) (negb (value =? 0)) true in
  bool_state_known_ v1 = true /\
  (if bool_state_known_ v && Bool.eqb (bool_state_ v) (negb (value =? 0))
   then bus1 = bus /\ v1 = v
   else let '(l, bus') := bit_report (event_on_ v) (event_off_ v)
                            (if value =? 0 then INVALID else VALID) bus in
        bus1 = bus' /\
        OlcbBoolVariable_read v1 arg = b2z (default (negb (value =? 0)) (last l))).
Proof.
  unfold OlcbBoolVariable_write, get_current_state. cbn [bool_state_known_ bool_state_ negb].
  assert (Hk : forall l v, bool_state_known_ v = true -> bool_state_known_ (set_states l v) = true).
  { induction l as [|b l IH]; intros x Hx; [done|]. by apply (IH (set_state x b)). }
  destruct v as [on off st known]. cbn [event_on_ event_off_ bool_state_ bool_state_known_].
  destruct (value =? 0), st, known; cbn [negb andb Bool.eqb]; try done;
    destruct (bit_report _ _ _ _) as [l bus']; (split; [by apply Hk|]); (split; [done|]);
    unfold OlcbBoolVariable_read; rewrite set_states_last; cbn [bool_state_];
    by destruct (default _ (last l)).
Qed.

End Lemmas.

(** ** What running a program may change in the configuration file *)

Section Frame.
Context {B : Type} `{EB : !EventBus B} (clip : string -> string).

(** A block without the names of its imports. *)
Definition settings (b : LogicBlock) : LogicBlock := set_imports [] b.

Definition same_settings (w w' : OlcbWorld (B := B)) : Prop :=
  settings <$> cfg_ w' = settings <$> cfg_ w.

Lemma OlcbBoolVariable_new_cfg e (w : OlcbWorld (B := B)) h w' :
  make_variable e w = (h, w') -> cfg_ w' = cfg_ w.
Proof. unfold make_variable. destruct (OlcbBoolVariable_new _ _ _). by intros [= _ <-]. Qed.

(** The variables and their factory leave the settings as they are. *)
#[export] Instance OlcbVariableFactory_frame :
  WorldFrame (OlcbVariableFactory clip) same_settings.
Proof.
  split.
  - split; [by intros w|]. unfold same_settings. intros w1 w2 w3 H1 H2. by rewrite H2.
  - intros r w h w' E. unfold same_settings. simpl in E.
    unfold OlcbVariableFactory_create_variable in E.
    destruct (cfg_ w !! _) as [block|] eqn:Eb; [|done].
    destruct (negb _); [by simplify_eq|].
    destruct (find_import _ _ _ _) as [[i e]|f].
    { injection E as E. by rewrite (OlcbBoolVariable_new_cfg _ _ _ _ E). }
    destruct (f <? 0); [by simplify_eq|]. destruct (blk_imports block !! _) as [e|]; [|done].
    injection E as E. rewrite (OlcbBoolVariable_new_cfg _ _ _ _ E). simpl.
    rewrite list_fmap_insert. apply list_insert_id. rewrite list_lookup_fmap, Eb. done.
  - intros h arg w. simpl. unfold object_read. by destruct (_ !! _).
  - intros h arg v w. simpl. unfold object_write. destruct (_ !! _) as [x|]; [|done].
    by destruct (OlcbBoolVariable_write _ _ _ _).
Qed.

End Frame.
