(* ===== verification/Runner.v ===== *)
(** The runner of the logic engine (src/cs/logic/Runner.cxx, Runner.hxx, and
    apply_configuration of OlcbBindings.cxx): compiles the program of each
    block of the configuration, creates its variables, and runs the enabled
    blocks from a timer.

    The generated parser, the entries of the configuration file and the
    executor are code of other places; here they are the function [parse] from
    the text of a program and a driver to the result of the parse, the
    functions [clip], [clip_status] and [read_trimmed] of the entries, and the
    order of [event]s. *)

From stdpp Require Import pretty.
From S2P Require Import Prelude Bytecode Variables VMState VM Safety AST Driver CmdSim Semantics Program Olcb.

Section Runner.
Context {B : Type} `{EB : !EventBus B}.
Context (clip clip_status : string -> string) (read_trimmed : Z -> Z).
Context (parse : string -> Driver -> Z * Driver).
Context (fuel : nat).

#[local] Existing Instance OlcbVariableFactory.
Abbreviation World := (OlcbWorld (B := B)).
Abbreviation VM := (@VM World nat).
#[local] Instance factory : VariableFactory World nat := OlcbVariableFactory clip.

(** ** State *)

(** [RunnerImpl].  [timer_] is the timer object that [start_running] created,
    [timers] are the timer objects of the executor with whether their
    [parent_] is set. *)
Record Runner := mkRunner {
  compile_driver_ : Driver;
  vm_ : VM;
  logic_blocks_ : list bool;
  timer_ : option nat;
  timers_ : gmap nat bool
}.

Definition set_compile_driver (d : Driver) (s : Runner) : Runner :=
  mkRunner d (vm_ s) (logic_blocks_ s) (timer_ s) (timers_ s).
Definition set_vm (vm : VM) (s : Runner) : Runner :=
  mkRunner (compile_driver_ s) vm (logic_blocks_ s) (timer_ s) (timers_ s).
Definition set_logic_blocks (l : list bool) (s : Runner) : Runner :=
  mkRunner (compile_driver_ s) (vm_ s) l (timer_ s) (timers_ s).
Definition set_timers (t : option nat) (l : gmap nat bool) (s : Runner) : Runner :=
  mkRunner (compile_driver_ s) (vm_ s) (logic_blocks_ s) t l.

(** The configuration file is part of the world of the machine. *)
Definition config (s : Runner) : LogicConfig := cfg_ (world_ (data (vm_ s))).

Definition num_repeats (s : Runner) : nat := length (config s).

Definition set_config (c : LogicConfig) (s : Runner) : Runner :=
  let d := data (vm_ s) in
  set_vm (set_data (set_world (set_cfg c (world_ d)) d) (vm_ s)) s.

Definition status_of (i : nat) (s : Runner) : string :=
  from_option blk_status "" (config s !! i).

Definition set_enabled (i : nat) (b : bool) (s : Runner) : Runner :=
  set_logic_blocks (<[i := b]> (logic_blocks_ s)) s.

(** Writes the status entry of a block if it changed. *)
Definition write_status (i : nat) (status : string) (s : Runner) : Runner :=
  if bool_decide (status = status_of i s) then s
  else set_config (alter (set_status (clip_status status)) i (config s)) s.

(** A call of a member function of [vm_]. *)
Definition call_vm {A} (m : prog VM A) : fprog Runner A :=
  fun s =>
    match m (vm_ s) with
    | Done a vm => Some (Done a (set_vm vm s))
    | Failed vm => Some (Failed (set_vm vm s))
    | Crashed c => Some (Crashed c)
    end.

Definition vm_data (m : prog VMData unit) : prog VM unit := on_data (fun _ => m).

(** [vm_.execute_block(i)] with its return value. *)
Definition run_block (i : nat) : fprog Runner bool :=
  fun s =>
    match execute_block fuel (Z.of_nat i) (vm_ s) with
    | Some (Done _ vm) => Some (Done true (set_vm vm s))
    | Some (Failed vm) => Some (Done false (set_vm vm s))
    | Some (Crashed c) => Some (Crashed c)
    | None => None
    end.

Definition get_error (s : Runner) : string := error_ (data (vm_ s)).

(** ** Running *)

(** The body of the loop of [single_step]. *)
Definition step_block (i : nat) : fprog Runner unit :=
  fun s =>
    match logic_blocks_ s !! i with
    | None => Some (Crashed DanglingPointer)
    | Some false => Some (Done tt s)
    | Some true =>
        (fmodify (fun s => set_vm (set_vm_block_num (Z.of_nat i)
                             (set_preamble false (VM_clear (vm_ s)))) s);;
         ok ← run_block i;
         if (ok : bool) then mret tt
         else fun s =>
           let status := "Error in running: " +:+ get_error s in
           Some (Done tt (write_status i status (set_enabled i false s)))) s
    end.

(** The loop over the blocks. *)
Fixpoint for_blocks (body : nat -> fprog Runner unit) (i n : nat) : fprog Runner unit :=
  match n with
  | O => mret tt
  | S n => body i;; for_blocks body (S i) n
  end.

Definition single_step : fprog Runner unit :=
  fun s => for_blocks step_block 0 (num_repeats s) s.

(** ** Compiling *)

(** What is written to the temporary file. *)
Definition source_file (text : string) : string := text +:+ String "000"%char "".

(** [save_variables(i << 16, (i + 1) << 16)]. *)
Definition save_block_variables (i : nat) : fprog Runner unit :=
  call_vm (vm_data (save_variables (Z.shiftl (Z.of_nat i) 16) (Z.shiftl (Z.of_nat i + 1) 16))).

(** Compiles the text; the answer is the status. *)
Definition compile_source (i : nat) (bl : LogicBlock) : fprog Runner string :=
  fun s =>
    let d := set_guid_start (Z.shiftl (Z.of_nat i) 16) (clear (compile_driver_ s)) in
    let '(res, d) := parse_file (parse (source_file (blk_text bl))) d in
    let s := set_compile_driver d s in
    if negb (res =? 0) then
      Some (Done ("Compile failed." +:+ newline +:+ error_output_ d) (set_enabled i false s))
    else if read_trimmed (blk_enabled bl) =? 0 then
      (save_block_variables i;;
       call_vm (vm_data destroy_saved_variables);;
       mret "Compile OK. Disabled.") (set_enabled i false s)
    else Some (Done "Compile OK. " (set_enabled i true s)).

(** Loads the code of an enabled block and creates its variables. *)
Definition load_block (i : nat) (status : string) : fprog Runner string :=
  fun s =>
    let '(bc, d) := Driver_serialize [] (compile_driver_ s) in
    (fmodify (fun s => set_vm (VM_clear (vm_ s)) s);;
     call_vm (set_block_code (Z.of_nat i) bc);;
     fmodify (fun s => set_vm (set_preamble true (vm_ s)) s);;
     save_block_variables i;;
     ok ← run_block i;
     status ← (if (ok : bool) then mret status
               else fun s =>
                 Some (Done ("Error in preamble: " +:+ get_error s) (set_enabled i false s)));
     call_vm (vm_data destroy_saved_variables);;
     mret status) (set_compile_driver d s).

(** The body of the loop of [compile_impl]. *)
Definition compile_block (i : nat) : fprog Runner unit :=
  fun s =>
    match config s !! i, logic_blocks_ s !! i with
    | Some bl, Some _ =>
        (status ← compile_source i bl;
         status ← (fun s =>
           if bool_decide (logic_blocks_ s !! i = Some true) then load_block i status s
           else (call_vm (clear_block_code (Z.of_nat i));; mret status) s);
         fmodify (write_status i status)) s
    | _, _ => Some (Crashed DanglingPointer)
    end.

(** Once the node is initialized. *)
Definition compile_impl : fprog Runner unit :=
  fun s => for_blocks compile_block 0 (num_repeats s) s.

(** ** The timer *)

(** [start_running], which creates a timer object. *)
Definition start_running : prog Runner unit :=
  fun s =>
    match timer_ s with
    | Some _ => Crashed AssertFailed
    | None =>
        let t := fresh (dom (timers_ s)) in
        Done tt (set_timers (Some t) (<[t := true]> (timers_ s)) s)
    end.

(** [stop_running] clears [parent_] of the timer. *)
Definition stop_running (s : Runner) : Runner :=
  match timer_ s with
  | None => s
  | Some t => set_timers None (<[t := false]> (timers_ s)) s
  end.

(** [RunnerTimer::timeout] of the timer object [t]. *)
Definition timeout (t : nat) : fprog Runner unit :=
  fun s =>
    match timers_ s !! t with
    | None => Some (Crashed DanglingPointer)
    | Some false => Some (Done tt (set_timers (timer_ s) (delete t (timers_ s)) s))
    | Some true => single_step s
    end.

(** ** Interleavings *)

Inductive UpdateAction := UPDATED | REINIT_NEEDED.

(** [OlcbVariableFactory::apply_configuration]: the compilation is queued on
    the executor of the runner, before the first timeout. *)
Inductive event :=
| CompileRequested
| StartRunning
| StopRunning
| Timeout (t : nat).

Definition apply_configuration (initial_load : bool) : list event * UpdateAction :=
  if initial_load then ([CompileRequested; StartRunning], UPDATED)
  else ([CompileRequested], REINIT_NEEDED).

(** A timer object that is not there has no timeout. *)
Definition handle_event (e : event) : fprog Runner unit :=
  match e with
  | CompileRequested => compile_impl
  | StartRunning => fun s => Some (start_running s)
  | StopRunning => fmodify stop_running
  | Timeout t => timeout t
  end.

Fixpoint run_events (l : list event) : fprog Runner unit :=
  match l with
  | [] => mret tt
  | e :: l => handle_event e;; run_events l
  end.

End Runner.

(** ** Lemmas *)

Section Lemmas.
Context {B : Type} `{EB : !EventBus B}.
Context (clip clip_status : string -> string) (read_trimmed : Z -> Z).
Context (parse : string -> Driver -> Z * Driver).
Context (fuel : nat).

Implicit Types (s : Runner (B := B)).

(** Invariants of the loops over the blocks. *)
Lemma for_blocks_inv body (P : nat -> Runner -> Prop) i n s s' :
  (forall j s s1, (i <= j < i + n)%nat -> P j s -> body j s = Some (Done tt s1) -> P (S j) s1) ->
  P i s -> for_blocks (B := B) body i n s = Some (Done tt s') -> P (i + n)%nat s'.
Proof.
  revert i s. induction n as [|n IH]; intros i s Hb Hi E.
  - injection E as <-. by rewrite Nat.add_0_r.
  - apply fbind_Done in E as ([] & s1 & E1 & E). rewrite Nat.add_succ_r.
    apply (IH (S i) s1); [|by apply (Hb i s); [lia|..]|done].
    intros j s2 s3 Hj. apply Hb. lia.
Qed.

(** What the rest of the system sees of a block. *)
Definition view (i : nat) s : option bool * option LogicBlock :=
  (logic_blocks_ s !! i, settings <$> config s !! i).

Lemma status_view i s : status_of i s = from_option blk_status "" (view i s).2.
Proof. unfold status_of, view. simpl. by destruct (config s !! i). Qed.

Lemma write_status_logic i st s :
  logic_blocks_ (write_status clip_status i st s) = logic_blocks_ s.
Proof. unfold write_status. by destruct (bool_decide _). Qed.

Lemma write_status_view_ne i j st s :
  i <> j -> view i (write_status clip_status j st s) = view i s.
Proof.
  intros Hne. unfold view. rewrite write_status_logic. f_equal. unfold write_status.
  destruct (bool_decide _); [done|]. unfold set_config, config. simpl.
  by rewrite list_lookup_alter_ne.
Qed.

(** The status entry holds the text, or what is left of it. *)
Definition shows (i : nat) (st : string) s : Prop :=
  status_of i s = st \/ status_of i s = clip_status st.

Lemma write_status_shows i st s :
  (i < num_repeats s)%nat -> shows i st (write_status clip_status i st s).
Proof.
  intros Hi. unfold write_status, shows. destruct (bool_decide_reflect (st = status_of i s)) as [E|_].
  - by left.
  - right. unfold status_of, set_config, config. simpl. rewrite list_lookup_alter_eq.
    unfold num_repeats in Hi. apply lookup_lt_is_Some in Hi as [b Hb].
    unfold config in Hb. by rewrite Hb.
Qed.

Lemma num_repeats_write i st s : num_repeats (write_status clip_status i st s) = num_repeats s.
Proof.
  unfold write_status. destruct (bool_decide _); [done|].
  unfold num_repeats, set_config, config. simpl. by rewrite length_alter.
Qed.

(** Running a block only changes the machine, not what is seen of the blocks. *)
Lemma run_block_spec i s b s' :
  run_block clip fuel i s = Some (Done b s') ->
  (forall j, view j s' = view j s) /\ num_repeats s' = num_repeats s /\
  blocks_ (data (vm_ s')) = blocks_ (data (vm_ s)) /\
  compile_driver_ s' = compile_driver_ s /\ logic_blocks_ s' = logic_blocks_ s /\
  timer_ s' = timer_ s /\ timers_ s' = timers_ s.
Proof.
  unfold run_block. destruct (execute_block _ _ _) as [o|] eqn:E; [|done].
  apply (execute_block_world (R := same_settings)) in E.
  assert (Hv : forall vm, same_settings (world_ (data (vm_ s))) (world_ (data vm)) ->
            blocks_ (data vm) = blocks_ (data (vm_ s)) ->
            (forall j, view j (set_vm vm s) = view j s) /\ num_repeats (set_vm vm s) = num_repeats s).
  { intros vm Hs _. unfold same_settings in Hs. split.
    - intros j. unfold view, config. simpl. rewrite <- !list_lookup_fmap. by rewrite Hs.
    - unfold num_repeats, config. simpl. rewrite <- (length_fmap settings (cfg_ _)), Hs.
      by rewrite length_fmap. }
  destruct o as [[] vm|vm|c]; [intros [= <- <-]|intros [= <- <-]|done];
    destruct E as [Hs Hb]; destruct (Hv vm Hs Hb) as [? ?]; done.
Qed.

(** The machine as [single_step] prepares it for block [i]. *)
Definition prepared (i : nat) s : @VM (OlcbWorld (B := B)) nat :=
  set_vm_block_num (Z.of_nat i) (set_preamble false (VM_clear (vm_ s))).

(** What the turn of block [i] in the state [s] does: a block that is enabled is
    executed, and if it fails it is disabled and its status tells the error. *)
Definition turn_ends (i : nat) s s' : Prop :=
  match logic_blocks_ s !! i with
  | Some true =>
      match execute_block (F := OlcbVariableFactory clip) fuel (Z.of_nat i) (prepared i s) with
      | Some (Done _ _) => view i s' = view i s
      | Some (Failed vm) =>
          logic_blocks_ s' !! i = Some false /\ shows i ("Error in running: " +:+ error_ (data vm)) s'
      | _ => False
      end
  | _ => view i s' = view i s
  end.

Lemma turn_ends_view i s1 s2 s : view i s1 = view i s2 -> turn_ends i s s2 -> turn_ends i s s1.
Proof.
  intros E. assert (El : logic_blocks_ s1 !! i = logic_blocks_ s2 !! i) by (unfold view in E; congruence).
  assert (Es : forall e, shows i e s2 -> shows i e s1) by (intros e; unfold shows; by rewrite !status_view, E).
  unfold turn_ends. rewrite E, El. destruct (logic_blocks_ s !! i) as [[]|]; [|trivial..].
  destruct (execute_block _ _ _) as [[]|]; [trivial| |trivial..]. intros [H1 H2]. split; [exact H1|auto].
Qed.

Lemma step_block_spec i s s' :
  (i < num_repeats s)%nat -> step_block clip clip_status fuel i s = Some (Done tt s') ->
  (forall j, j <> i -> view j s' = view j s) /\ num_repeats s' = num_repeats s /\
  blocks_ (data (vm_ s')) = blocks_ (data (vm_ s)) /\ turn_ends i s s'.
Proof.
  intros Hi. unfold step_block, turn_ends.
  destruct (logic_blocks_ s !! i) as [[]|] eqn:Eb; [|by intros [= <-]|done].
  intros E. apply fbind_Done in E as ([] & s1 & E1 & E). injection E1 as <-. fold (prepared i s) in E.
  set (s1 := set_vm _ s) in E.
  assert (Hv1 : forall j, view j s1 = view j s) by done.
  apply fbind_Done in E as (ok & s2 & E2 & E).
  pose proof (run_block_spec _ _ _ _ E2) as (Hv2 & Hn2 & Hb2 & _ & Hl2 & _).
  unfold run_block in E2. change (vm_ s1) with (prepared i s) in E2.
  destruct (execute_block _ _ _) as [[[] vm|vm|c]|]; [| |done..]; injection E2 as <- <-; injection E as <-.
  - split; [|split; [by rewrite Hn2|split; [done|by rewrite Hv2, Hv1]]]. intros j _. by rewrite Hv2, Hv1.
  - change (get_error (set_vm vm s1)) with (error_ (data vm)).
    set (s2 := set_vm vm s1) in *. set (st := "Error in running: " +:+ error_ (data vm)).
    split; [|split; [rewrite num_repeats_write; exact Hn2|split]].
    + intros j Hj. rewrite write_status_view_ne by done.
      rewrite <- (Hv1 j), <- (Hv2 j). unfold view. simpl. by rewrite list_lookup_insert_ne by done.
    + unfold write_status. by destruct (bool_decide _).
    + rewrite write_status_logic. simpl. split.
      * apply list_lookup_insert_eq. by eapply lookup_lt_Some.
      * apply write_status_shows. change (i < num_repeats s2)%nat. by rewrite Hn2.
Qed.

(** The turn of one block in a loop over the blocks. *)
Lemma for_blocks_split body k i n s s' :
  for_blocks (B := B) body k (i + S n) s = Some (Done tt s') ->
  exists s1 s2, for_blocks body k i s = Some (Done tt s1) /\ body (k + i)%nat s1 = Some (Done tt s2) /\
    for_blocks body (S (k + i)) n s2 = Some (Done tt s').
Proof.
  revert k s. induction i as [|i IH]; intros k s E.
  - apply fbind_Done in E as ([] & s1 & E1 & E). rewrite Nat.add_0_r. by exists s, s1.
  - apply fbind_Done in E as ([] & s0 & E1 & E). apply IH in E as (s1 & s2 & H1 & H2 & H3).
    rewrite Nat.add_succ_r. exists s1, s2. split; [|done]. cbn [for_blocks]. unfold mbind, fprog_bind. by rewrite E1.
Qed.

(** Blocks keep out of each other's way. *)
Lemma for_blocks_others i k n s s' :
  (k + n <= num_repeats s)%nat -> (forall j, (k <= j < k + n)%nat -> j <> i) ->
  for_blocks (step_block clip clip_status fuel) k n s = Some (Done tt s') ->
  view i s' = view i s /\ num_repeats s' = num_repeats s /\ blocks_ (data (vm_ s')) = blocks_ (data (vm_ s)).
Proof.
  intros Hn Hne E.
  eapply (for_blocks_inv _ (fun _ s1 => view i s1 = view i s /\ num_repeats s1 = num_repeats s /\
    blocks_ (data (vm_ s1)) = blocks_ (data (vm_ s)))) in E; [done| |done].
  intros j s1 s2 Hj (H1 & H2 & H3) Es. apply step_block_spec in Es as (Ho & Hn2 & Hb & _); [|lia].
  rewrite Hn2, Hb, Ho by (specialize (Hne j Hj); congruence). done.
Qed.

(** *** Compilation *)

(** The program text [bl] was compiled from a fresh driver. *)
Definition parsed (i : nat) (bl : LogicBlock) (res : Z) (d : Driver) : Prop :=
  exists d0, error_output_ d0 = "" /\ commands_ d0 = [] /\ in_function_ d0 = false /\
    next_guid_ d0 = s32 (Z.shiftl (Z.of_nat i) 16) /\
    parse_file (parse (source_file (blk_text bl))) d0 = (res, d).

Definition loaded (i : nat) (d : Driver) s : Prop :=
  blocks_ (data (vm_ s)) !! i = Some (fst (Driver_serialize [] d)) /\
  zlen (fst (Driver_serialize [] d)) < 2 ^ 16.

(** What became of block [i] with settings [bl] in a compilation. *)
Inductive compiled (i : nat) (bl : LogicBlock) s : Prop :=
| compile_failed res d :
    parsed i bl res d -> res <> 0 -> logic_blocks_ s !! i = Some false ->
    shows i ("Compile failed." +:+ newline +:+ error_output_ d) s -> compiled i bl s
| compile_disabled d :
    parsed i bl 0 d -> read_trimmed (blk_enabled bl) = 0 -> logic_blocks_ s !! i = Some false ->
    shows i "Compile OK. Disabled." s -> compiled i bl s
| preamble_failed d e :
    parsed i bl 0 d -> read_trimmed (blk_enabled bl) <> 0 -> loaded i d s ->
    logic_blocks_ s !! i = Some false ->
    shows i ("Error in preamble: " +:+ e) s -> compiled i bl s
| compile_enabled d :
    parsed i bl 0 d -> read_trimmed (blk_enabled bl) <> 0 -> loaded i d s ->
    logic_blocks_ s !! i = Some true ->
    shows i "Compile OK. " s -> compiled i bl s.

(** The settings a compilation reads. *)
Definition program_of (b : LogicBlock) : string * Z := (blk_text b, blk_enabled b).

(** A change that only concerns block [i]. *)
Record only_block (i : nat) s s' : Prop := {
  only_view j : j <> i -> view j s' = view j s;
  only_program : program_of <$> config s' !! i = program_of <$> config s !! i;
  only_repeats : num_repeats s' = num_repeats s;
  only_code j C : j <> i -> blocks_ (data (vm_ s)) !! j = Some C ->
                  blocks_ (data (vm_ s')) !! j = Some C
}.

Lemma only_refl i s : only_block i s s.
Proof. by split. Qed.

Lemma only_trans i s1 s2 s3 : only_block i s1 s2 -> only_block i s2 s3 -> only_block i s1 s3.
Proof.
  intros [] []. split; [|congruence..|auto].
  intros j Hj. rewrite <- only_view0 by done. auto.
Qed.

Lemma only_set_enabled i b s : only_block i s (set_enabled i b s).
Proof.
  split; try done. intros j Hj. unfold view. simpl. by rewrite list_lookup_insert_ne.
Qed.

Lemma only_run_block i s b s' : run_block clip fuel i s = Some (Done b s') -> only_block i s s'.
Proof.
  intros (Hv & Hn & Hb & _ & _ & _)%run_block_spec. split; [by intros j _; apply Hv| |done|by rewrite Hb].
  specialize (Hv i). unfold view in Hv. injection Hv as _ Hv. revert Hv.
  destruct (config s' !! i) as [[]|], (config s !! i) as [[]|]; simpl; try done.
  unfold settings, program_of. simpl. by intros [= -> -> -> ->].
Qed.

(** Calls that leave the world and the code alone. *)
Lemma call_vm_data {A} (m : prog VM A) (i : nat) s a s' :
  (forall vm, match m vm with
              | Done _ vm' => world_ (data vm') = world_ (data vm) /\
                  forall j C, j <> i -> blocks_ (data vm) !! j = Some C -> blocks_ (data vm') !! j = Some C
              | _ => True end) ->
  call_vm m s = Some (Done a s') ->
  only_block i s s' /\ logic_blocks_ s' = logic_blocks_ s /\ compile_driver_ s' = compile_driver_ s.
Proof.
  intros Hm. unfold call_vm. specialize (Hm (vm_ s)). destruct (m (vm_ s)) as [a' vm| |]; [|done..].
  intros [= -> <-]. destruct Hm as [Hw Hc]. split; [|done].
  split; unfold num_repeats, view, config; simpl; rewrite ?Hw; try done.
Qed.

Lemma save_block_spec i s a s' :
  save_block_variables i s = Some (Done a s') ->
  only_block i s s' /\ logic_blocks_ s' = logic_blocks_ s /\ compile_driver_ s' = compile_driver_ s /\
  blocks_ (data (vm_ s')) = blocks_ (data (vm_ s)).
Proof.
  intros E.
  assert (Hd : forall vm, match vm_data (B := B) (save_variables (Z.shiftl (Z.of_nat i) 16)
                 (Z.shiftl (Z.of_nat i + 1) 16)) vm with
              | Done _ vm' => world_ (data vm') = world_ (data vm) /\
                  blocks_ (data vm') = blocks_ (data vm)
              | _ => True end).
  { intros vm. unfold vm_data, on_data, save_variables.
    destruct (_ && _); [done|]. done. }
  pose proof E as E2. apply (call_vm_data _ i) in E as (Ho & Hl & Hc).
  - split; [done|]. split; [done|]. split; [done|].
    unfold save_block_variables, call_vm in E2. specialize (Hd (vm_ s)).
    destruct (vm_data _ _); [|done..]. injection E2 as _ <-. by destruct Hd.
  - intros vm. specialize (Hd vm). destruct (vm_data _ vm); [|done..]. destruct Hd as [? Hb].
    by rewrite Hb.
Qed.

Lemma destroy_spec i s a s' :
  call_vm (vm_data destroy_saved_variables) s = Some (Done a s') ->
  only_block i s s' /\ logic_blocks_ s' = logic_blocks_ s /\ compile_driver_ s' = compile_driver_ s /\
  blocks_ (data (vm_ s')) = blocks_ (data (vm_ s)).
Proof. intros [= <- <-]. done. Qed.

Lemma set_block_code_spec i code s a s' :
  call_vm (set_block_code (Z.of_nat i) code) s = Some (Done a s') ->
  only_block i s s' /\ logic_blocks_ s' = logic_blocks_ s /\ compile_driver_ s' = compile_driver_ s /\
  blocks_ (data (vm_ s')) !! i = Some code /\ zlen code < 2 ^ 16.
Proof.
  intros E. pose proof E as E2. apply (call_vm_data _ i) in E as (Ho & Hl & Hc).
  - split; [done|]. split; [done|]. split; [done|]. clear -E2.
    unfold call_vm, set_block_code in E2. destruct (Z.ltb_spec (zlen code) (Z.shiftl 1 BLOCK_CODE_IP_SHIFT));
      [|done]. cbn [negb] in E2. injection E2 as _ <-. simpl. split.
    + unfold zset. rewrite Nat2Z.id. apply list_lookup_insert_eq.
      destruct (Z.leb_spec (zlen (blocks_ (data (vm_ s)))) (Z.of_nat i)).
      * rewrite length_resize. lia.
      * unfold zlen in *. lia.
    + exact H.
  - intros vm. unfold set_block_code. destruct (negb _); [done|]. simpl. split; [done|].
    intros j C Hj HC. unfold zset. rewrite Nat2Z.id, list_lookup_insert_ne by done.
    destruct (_ <=? _) eqn:Eg; [|done]. apply lookup_lt_Some in HC as Hlt.
    apply Z.leb_le in Eg. unfold zlen in Eg. by rewrite lookup_resize by lia.
Qed.

Lemma clear_block_code_spec i s a s' :
  call_vm (clear_block_code (Z.of_nat i)) s = Some (Done a s') ->
  only_block i s s' /\ logic_blocks_ s' = logic_blocks_ s /\ compile_driver_ s' = compile_driver_ s.
Proof.
  apply call_vm_data. intros vm. unfold clear_block_code. destruct (_ <? _); [|done]. simpl.
  split; [done|]. intros j C Hj HC. unfold zset. by rewrite Nat2Z.id, list_lookup_insert_ne.
Qed.

(** The first half of the compilation of a block. *)
Lemma compile_source_spec i bl s st s' :
  compile_source read_trimmed parse i bl s = Some (Done st s') -> is_Some (logic_blocks_ s !! i) ->
  only_block i s s' /\
  exists res d, parsed i bl res d /\ compile_driver_ s' = d /\
    ((res <> 0 /\ logic_blocks_ s' !! i = Some false /\
      st = "Compile failed." +:+ newline +:+ error_output_ d) \/
     (res = 0 /\ read_trimmed (blk_enabled bl) = 0 /\ logic_blocks_ s' !! i = Some false /\
      st = "Compile OK. Disabled.") \/
     (res = 0 /\ read_trimmed (blk_enabled bl) <> 0 /\ logic_blocks_ s' !! i = Some true /\
      st = "Compile OK. ")).
Proof.
  intros E [b Hb]. apply lookup_lt_Some in Hb. unfold compile_source in E.
  set (d0 := set_guid_start _ _) in E.
  destruct (parse_file (parse (source_file (blk_text bl))) d0) as [res d] eqn:Ep.
  assert (Hp : parsed i bl res d) by (by exists d0).
  assert (Hset : forall x, set_enabled i x (set_compile_driver d s) = set_enabled i x (set_compile_driver d s)
            /\ logic_blocks_ (set_enabled i x (set_compile_driver d s)) !! i = Some x).
  { intros x. split; [done|]. simpl. by apply list_lookup_insert_eq. }
  assert (Hon : forall x, only_block i s (set_enabled i x (set_compile_driver d s))).
  { intros x. eapply only_trans; [|apply only_set_enabled]. done. }
  destruct (Z.eqb_spec res 0) as [->|Hres]; cbn [negb] in E.
  - destruct (Z.eqb_spec (read_trimmed (blk_enabled bl)) 0) as [Hr|Hr].
    + apply fbind_Done in E as ([] & s1 & E1 & E). apply fbind_Done in E as ([] & s2 & E2 & E).
      injection E as <- <-.
      apply save_block_spec in E1 as (H1 & Hl1 & Hc1 & _).
      apply (destroy_spec i) in E2 as (H2 & Hl2 & Hc2 & _).
      split; [by eapply only_trans; [apply (Hon false)|eapply only_trans]|].
      exists 0, d. split; [done|]. rewrite Hc2, Hc1, Hl2, Hl1. split; [done|]. right. left.
      split; [done|]. split; [done|]. split; [apply Hset|done].
    + injection E as <- <-. split; [apply Hon|]. exists 0, d. split; [done|]. split; [done|].
      right. right. split; [done|]. split; [done|]. split; [apply Hset|done].
  - injection E as <- <-. split; [apply Hon|]. exists res, d. split; [done|]. split; [done|].
    left. split; [done|]. split; [apply Hset|done].
Qed.

(** The second half, for an enabled block. *)
Lemma load_block_spec i status s st s' :
  load_block clip fuel i status s = Some (Done st s') -> is_Some (logic_blocks_ s !! i) ->
  only_block i s s' /\ loaded i (compile_driver_ s) s' /\
  ((logic_blocks_ s' = logic_blocks_ s /\ st = status) \/
   (logic_blocks_ s' !! i = Some false /\ exists e, st = "Error in preamble: " +:+ e)).
Proof.
  intros E [b Hb]. unfold load_block in E. unfold loaded.
  destruct (Driver_serialize [] (compile_driver_ s)) as [bc d]. simpl fst.
  apply fbind_Done in E as ([] & s1 & E1 & E). injection E1 as <-.
  apply fbind_Done in E as ([] & s2 & E2 & E).
  apply set_block_code_spec in E2 as (H2 & Hl2 & _ & Hc2 & Hz).
  assert (H02 : only_block i s s2) by (eapply only_trans; [|exact H2]; done).
  apply fbind_Done in E as ([] & s3 & E3 & E). injection E3 as <-.
  set (s3 := set_vm _ s2) in E. assert (H03 : only_block i s s3) by (eapply only_trans; done).
  apply fbind_Done in E as ([] & s4 & E4 & E).
  apply save_block_spec in E4 as (H4 & Hl4 & _ & Hc4).
  apply fbind_Done in E as (ok & s5 & E5 & E).
  pose proof (only_run_block _ _ _ _ E5) as H5.
  apply run_block_spec in E5 as (_ & _ & Hc5 & _ & Hl5 & _).
  assert (H05 : only_block i s s5) by (do 2 (eapply only_trans; [|done]); done).
  assert (Hl : logic_blocks_ s5 = logic_blocks_ s) by (by rewrite Hl5, Hl4; unfold s3; simpl; rewrite Hl2).
  assert (Hc : blocks_ (data (vm_ s5)) !! i = Some bc) by (by rewrite Hc5, Hc4).
  apply fbind_Done in E as (st' & s6 & E6 & E).
  apply fbind_Done in E as ([] & s7 & E7 & E). injection E as -> <-.
  apply (destroy_spec i) in E7 as (H7 & Hl7 & _ & Hc7). rewrite Hc7, Hl7.
  destruct ok; injection E6 as <- <-.
  - split; [by eapply only_trans|]. split; [done|]. left. done.
  - split; [eapply only_trans; [exact H05|]; eapply only_trans; [apply only_set_enabled|done]|].
    split; [done|]. right. split; [|by eexists]. simpl. apply list_lookup_insert_eq.
    rewrite Hl. by eapply lookup_lt_Some.
Qed.

Lemma only_write_status i st s : only_block i s (write_status clip_status i st s).
Proof.
  split.
  - intros j Hj. by apply write_status_view_ne.
  - unfold write_status. destruct (bool_decide _); [done|]. unfold set_config, config. simpl.
    rewrite list_lookup_alter_eq. by destruct (cfg_ _ !! i).
  - apply num_repeats_write.
  - intros j C _. unfold write_status. by destruct (bool_decide _).
Qed.

Lemma write_status_code i st s :
  blocks_ (data (vm_ (write_status clip_status i st s))) = blocks_ (data (vm_ s)).
Proof. unfold write_status. by destruct (bool_decide _). Qed.

Lemma compile_block_spec i bl s s' :
  config s !! i = Some bl ->
  compile_block clip clip_status read_trimmed parse fuel i s = Some (Done tt s') ->
  only_block i s s' /\ compiled i bl s'.
Proof.
  intros Hbl E. unfold compile_block in E. rewrite Hbl in E.
  destruct (logic_blocks_ s !! i) as [b|] eqn:Eb; [|done].
  apply fbind_Done in E as (st & s1 & E1 & E).
  apply compile_source_spec in E1 as (H1 & res & d & Hp & Hd & Hres); [|done].
  apply fbind_Done in E as (st2 & s2 & E2 & E). injection E as <-.
  set (s3 := write_status _ _ _ _).
  assert (Hlen : (i < num_repeats s1)%nat).
  { rewrite (only_repeats _ _ _ H1). by eapply lookup_lt_Some. }
  assert (Hfin : only_block i s1 s2 -> only_block i s s3 /\ shows i st2 s3).
  { intros H2. split.
    - eapply only_trans; [exact H1|]. eapply only_trans; [exact H2|]. apply only_write_status.
    - apply write_status_shows. by rewrite (only_repeats _ _ _ H2). }
  assert (Hl3 : logic_blocks_ s3 = logic_blocks_ s2) by apply write_status_logic.
  assert (Hc3 : forall d, loaded i d s2 -> loaded i d s3).
  { intros d' [? ?]. by split; [unfold s3; rewrite write_status_code|]. }
  assert (Hoff : logic_blocks_ s1 !! i = Some false ->
            only_block i s1 s2 /\ logic_blocks_ s2 = logic_blocks_ s1 /\ st2 = st).
  { intros Hf. rewrite bool_decide_false in E2 by (by rewrite Hf).
    apply fbind_Done in E2 as ([] & s4 & E4 & E2). injection E2 as -> ->.
    by apply clear_block_code_spec in E4 as (? & ? & _). }
  destruct Hres as [(Hr & Hb & ->)|[(-> & Hr & Hb & ->)|(-> & Hr & Hb & ->)]].
  - destruct (Hoff Hb) as (H2 & Hl & ->). destruct (Hfin H2) as [Ho Hs]. split; [done|].
    eapply compile_failed; [done..|by rewrite Hl3, Hl|done].
  - destruct (Hoff Hb) as (H2 & Hl & ->). destruct (Hfin H2) as [Ho Hs]. split; [done|].
    eapply compile_disabled; [done..|by rewrite Hl3, Hl|done].
  - rewrite bool_decide_true in E2 by done.
    apply load_block_spec in E2 as (H2 & Hload & Hend); [|by rewrite Hb].
    rewrite Hd in Hload. apply Hc3 in Hload. destruct (Hfin H2) as [Ho Hs]. split; [done|].
    destruct Hend as [[Hl ->]|[Hl [e ->]]].
    + eapply compile_enabled; [done..|by rewrite Hl3, Hl|done].
    + eapply preamble_failed; [done..|by rewrite Hl3|done].
Qed.

(** The result of a block survives the compilation of the others. *)
Lemma compiled_only i j bl s s' :
  i <> j -> only_block j s s' -> compiled i bl s -> compiled i bl s'.
Proof.
  intros Hij [Hv _ _ Hc] H.
  assert (Hl : logic_blocks_ s' !! i = logic_blocks_ s !! i) by (by injection (Hv i Hij)).
  assert (Hs : forall st, shows i st s -> shows i st s').
  { intros st. unfold shows. by rewrite !status_view, Hv. }
  assert (Hld : forall d, loaded i d s -> loaded i d s') by (intros d [? ?]; split; auto).
  destruct H as [res d|d|d e|d].
  - eapply compile_failed; [done..|by rewrite Hl|auto].
  - eapply compile_disabled; [done..|by rewrite Hl|auto].
  - apply (preamble_failed _ _ _ d e); [done..|auto|by rewrite Hl|auto].
  - eapply compile_enabled; [done..|auto|by rewrite Hl|auto].
Qed.

(** The compilation only depends on the settings it reads. *)
Lemma compiled_program i bl bl' s :
  program_of bl' = program_of bl -> compiled i bl' s -> compiled i bl s.
Proof.
  unfold program_of. intros [= Ht He] H.
  assert (Hp : forall res d, parsed i bl' res d -> parsed i bl res d).
  { unfold parsed. by rewrite Ht. }
  destruct H; try rewrite He in *.
  - eapply compile_failed; eauto.
  - eapply compile_disabled; eauto.
  - eapply preamble_failed; eauto.
  - eapply compile_enabled; eauto.
Qed.

(** All blocks are compiled. *)
Lemma compile_impl_compiled s s' i bl :
  compile_impl clip clip_status read_trimmed parse fuel s = Some (Done tt s') ->
  config s !! i = Some bl -> compiled i bl s'.
Proof.
  unfold compile_impl. intros E Hbl.
  set (P := fun k s1 => num_repeats s1 = num_repeats s /\
              (forall j b, (j < k)%nat -> config s !! j = Some b ->
                 compiled j b s1) /\
              (forall j, (k <= j)%nat ->
                 program_of <$> config s1 !! j = program_of <$> config s !! j)).
  eapply (for_blocks_inv _ P) in E as (_ & Hd & _).
  - apply Hd; [|done]. by eapply lookup_lt_Some.
  - intros k s1 s2 Hk (Hn & Hd & Hr) Es.
    assert (is_Some (config s1 !! k)) as [b Hb].
    { apply lookup_lt_is_Some. fold (num_repeats s1). lia. }
    destruct (compile_block_spec k b s1 s2 Hb Es)
      as [Ho Hcomp].
    split; [by rewrite (only_repeats _ _ _ Ho)|]. split.
    + intros j b' Hj Hb'. destruct (decide (j = k)) as [->|Hjk].
      * specialize (Hr k (le_n _)). rewrite Hb, Hb' in Hr. injection Hr as Ht He.
        eapply compiled_program; [|exact Hcomp]. unfold program_of. congruence.
      * eapply compiled_only; [exact Hjk|exact Ho|]. apply Hd; [lia|done].
    + intros j Hj. rewrite <- (Hr j) by lia.
      pose proof (only_view _ _ _ Ho j ltac:(lia)) as Hv. unfold view in Hv. injection Hv as _ Hv.
      revert Hv. destruct (config s2 !! j) as [[]|], (config s1 !! j) as [[]|]; simpl; try done.
      unfold settings, program_of. simpl. by intros [= -> -> -> ->].
  - split; [done|]. split; [lia|done].
Qed.

(** *** Timers *)

(** The only timer object that runs blocks is [timer_]. *)
Definition timer_ok s : Prop := forall t, timers_ s !! t = Some true <-> timer_ s = Some t.

Lemma for_blocks_timers body i n s s' :
  (forall j s s1, body j s = Some (Done tt s1) -> timer_ s1 = timer_ s /\ timers_ s1 = timers_ s) ->
  for_blocks (B := B) body i n s = Some (Done tt s') ->
  timer_ s' = timer_ s /\ timers_ s' = timers_ s.
Proof.
  intros Hb E.
  eapply (for_blocks_inv _ (fun _ s1 => timer_ s1 = timer_ s /\ timers_ s1 = timers_ s)) in E;
    [done| |done].
  intros j s1 s2 _ [E1 E2] Es. apply Hb in Es as [-> ->]. done.
Qed.

Definition same_timers s s' : Prop := timer_ s' = timer_ s /\ timers_ s' = timers_ s.

Lemma write_status_timers i st s : same_timers s (write_status clip_status i st s).
Proof. unfold write_status, same_timers. by destruct (bool_decide _). Qed.

Lemma call_vm_timers {A} (m : prog VM A) s a s' :
  call_vm m s = Some (Done a s') -> same_timers s s'.
Proof. unfold call_vm. destruct (m (vm_ s)); [|done..]. by intros [= _ <-]. Qed.

Lemma run_block_timers i s b s' :
  run_block clip fuel i s = Some (Done b s') -> same_timers s s'.
Proof. intros (_ & _ & _ & _ & _ & H)%run_block_spec. exact H. Qed.

Lemma step_block_timers i s s' :
  step_block clip clip_status fuel i s = Some (Done tt s') -> same_timers s s'.
Proof.
  unfold step_block. destruct (logic_blocks_ s !! i) as [[]|]; [|by intros [= <-]|done].
  intros E. apply fbind_Done in E as ([] & s1 & E1 & E). injection E1 as <-.
  apply fbind_Done in E as (ok & s2 & E2 & E). apply run_block_timers in E2 as [H1 H2].
  destruct ok; injection E as <-; [done|].
  pose proof (write_status_timers i ("Error in running: " +:+ get_error s2) (set_enabled i false s2))
    as [H3 H4]. split; [by rewrite H3|by rewrite H4].
Qed.

Ltac timers_chain :=
  repeat match goal with
  | H : (_ ≫= _) _ = Some (Done _ _) |- _ => apply fbind_Done in H as (? & ? & ? & H)
  | H : call_vm _ _ = Some (Done _ _) |- _ => apply call_vm_timers in H as [? ?]
  | H : save_block_variables _ _ = Some (Done _ _) |- _ => apply call_vm_timers in H as [? ?]
  | H : run_block _ _ _ _ = Some (Done _ _) |- _ => apply run_block_timers in H as [? ?]
  | H : (if ?b then _ else _) _ = Some (Done _ _) |- _ => destruct b
  | H : fmodify _ _ = Some (Done _ _) |- _ => injection H as <- <-
  | H : mret _ _ = Some (Done _ _) |- _ => injection H as <- <-
  | H : Some (Done _ _) = Some (Done _ _) |- _ => injection H as <- <-
  end; try (split; simpl in *; congruence).

Lemma compile_source_timers i bl s st s' :
  compile_source read_trimmed parse i bl s = Some (Done st s') -> same_timers s s'.
Proof.
  unfold compile_source. destruct (parse_file _ _) as [res d].
  destruct (negb _); [intros E; timers_chain|]. destruct (_ =? 0); intros E; timers_chain.
Qed.

Lemma load_block_timers i st s st' s' :
  load_block clip fuel i st s = Some (Done st' s') -> same_timers s s'.
Proof.
  unfold load_block. destruct (Driver_serialize _ _) as [bc d]. intros E. timers_chain.
Qed.

Lemma compile_block_timers i s s' :
  compile_block clip clip_status read_trimmed parse fuel i s = Some (Done tt s') ->
  same_timers s s'.
Proof.
  unfold compile_block. destruct (config s !! i), (logic_blocks_ s !! i); try done. intros E.
  apply fbind_Done in E as (st & s1 & E1 & E). apply compile_source_timers in E1 as [H1 H2].
  apply fbind_Done in E as (st2 & s2 & E2 & E). injection E as <-.
  assert (H : same_timers s1 s2).
  { destruct (bool_decide _); [by apply load_block_timers in E2|].
    apply fbind_Done in E2 as ([] & s4 & E4 & E2). injection E2 as <- <-.
    by apply call_vm_timers in E4. }
  destruct H as [H3 H4], (write_status_timers i st2 s2) as [H5 H6].
  split; [by rewrite H5, H3|by rewrite H6, H4].
Qed.

Lemma same_timers_ok s s' : same_timers s s' -> timer_ok s -> timer_ok s'.
Proof. intros [H1 H2] H t. by rewrite H1, H2. Qed.

(** One timer object at most runs the blocks, whatever happens. *)
Lemma handle_event_timer_ok e s s' :
  handle_event clip clip_status read_trimmed parse fuel e s = Some (Done tt s') ->
  timer_ok s -> timer_ok s'.
Proof.
  intros E Hs. destruct e as [| | |t]; simpl in E.
  - apply for_blocks_timers in E; [|intros j; apply compile_block_timers].
    by eapply same_timers_ok.
  - unfold start_running in E. destruct (timer_ s) eqn:Et; [done|]. injection E as <-.
    intros t. simpl. rewrite lookup_insert_Some. split.
    + intros [[<- _]|[_ H]]; [done|]. apply Hs in H. congruence.
    + intros [= <-]. by left.
  - injection E as <-. unfold stop_running. destruct (timer_ s) as [t0|] eqn:Et; [|done].
    intros t. simpl. rewrite lookup_insert_Some. split; [|done].
    intros [[_ ?]|[Hne H]]; [done|]. apply Hs in H. congruence.
  - unfold timeout in E. destruct (timers_ s !! t) as [[]|] eqn:Et; [| |done].
    + apply for_blocks_timers in E; [|intros j; apply step_block_timers]. by eapply same_timers_ok.
    + injection E as <-. intros t'. simpl. rewrite lookup_delete_Some.
      rewrite (Hs t'). split; [by intros [_ ?]|]. intros H. split; [|done].
      intros <-. apply Hs in H. congruence.
Qed.

(** Control events that a stopped runner still receives. *)
Definition stopped_event (e : event) : Prop :=
  match e with
  | StopRunning | Timeout _ => True
  | _ => False
  end.

End Lemmas.

(** ** Termination *)

Section Termination.
Context {B : Type} `{EB : !EventBus B}.
Context (clip clip_status : string -> string) (read_trimmed : Z -> Z).
Context (parse : string -> Driver -> Z * Driver).

#[local] Instance factory' : VariableFactory (OlcbWorld (B := B)) nat := OlcbVariableFactory clip.

(** With enough fuel a run ends, and more fuel does not change how. *)
Definition settles {A} (run : nat -> option A) : Prop :=
  exists n o, forall fuel, (n <= fuel)%nat -> run fuel = Some o.

Lemma settles_now {A} (o : A) : settles (fun _ => Some o).
Proof. by exists 0%nat, o. Qed.

Lemma settles_ext {A} (run run' : nat -> option A) :
  (forall n, run n = run' n) -> settles run' -> settles run.
Proof. intros E (n & o & Hr). exists n, o. intros. rewrite E. auto. Qed.

Lemma settles_bind {S A C} (m : nat -> fprog S A) (k : nat -> A -> fprog S C) s :
  settles (fun n => m n s) ->
  (forall a s', (exists n, m n s = Some (Done a s')) -> settles (fun n => k n a s')) ->
  settles (fun n => (m n ≫= k n) s).
Proof.
  intros (n & o & Hm) Hk. destruct o as [a s'|s'|c].
  - destruct (Hk a s') as (n' & o & Hk'); [by eexists; apply Hm|].
    exists (n `max` n')%nat, o. intros fuel Hf. unfold mbind, fprog_bind.
    rewrite Hm by lia. apply Hk'. lia.
  - exists n, (Failed s'). intros fuel Hf. unfold mbind, fprog_bind. by rewrite Hm.
  - exists n, (Crashed c). intros fuel Hf. unfold mbind, fprog_bind. by rewrite Hm.
Qed.

(** A first part without fuel. *)
Lemma settles_then {S A C} (m : fprog S A) (k : nat -> A -> fprog S C) s :
  m s <> None -> (forall a s', m s = Some (Done a s') -> settles (fun n => k n a s')) ->
  settles (fun n => (m ≫= k n) s).
Proof.
  intros Hm Hk. apply (settles_bind (fun _ => m)).
  - destruct (m s) as [o|] eqn:E; [|done]. exists 0%nat, o. auto.
  - intros a s' [_ E]. auto.
Qed.

Lemma runs_as_settles {W H A} `{F : !VariableFactory W H} run (r : sem_result (@VMData W H) A) :
  r <> Stuck -> runs_as run r -> settles run.
Proof.
  destruct r; [..|done]; intros _; simpl.
  - intros (n & s & _ & E). by exists n, (Done tt s).
  - intros (n & s & _ & E). by exists n, (Done tt s).
  - intros (n & s & E). by exists n, (Failed s).
  - intros (n & E). by exists n, (Crashed c).
Qed.

Lemma lift_not_stuck {D A} (m : prog D A) d : lift m d <> Stuck.
Proof. unfold lift, of_outcome. by destruct (m d). Qed.

Lemma run_preamble_not_stuck {W H} `{F : !VariableFactory W H} l (d : @VMData W H) :
  run_preamble l d <> Stuck.
Proof.
  revert d. induction l as [|c l IH]; intros d; [done|]. simpl. unfold mbind, sem_bind.
  assert (Hc : create_exported c d <> Stuck).
  { destruct c; try done. simpl. unfold mbind, sem_bind.
    destruct (lift _ d) eqn:E; [|done..|by apply lift_not_stuck in E]. apply lift_not_stuck. }
  destruct (create_exported c d); [apply IH|done..].
Qed.

Lemma call_vm_total {A} (m : prog (@VM (OlcbWorld (B := B)) nat) A) (s : Runner (B := B)) : call_vm m s <> None.
Proof. unfold call_vm. by destruct (m (vm_ s)). Qed.

(** The preamble of a block that was just loaded. *)
Lemma run_preamble_settles i d (s : Runner (B := B)) :
  (i < 256)%nat -> Forall wf_preamble (commands_ d) -> loaded i d s ->
  is_preamble_ (data (vm_ s)) = true ->
  (exists env, back (call_stack_ (ctl (vm_ s))) = Some env /\ env_fp env = fp_ (data (vm_ s))) ->
  settles (fun fuel => run_block clip fuel i s).
Proof.
  intros Hi Hwf [Hb Hz] Hm Hframe.
  assert (Hr : runs_as (fun fuel => execute_block fuel (Z.of_nat i) (vm_ s))
            (run_preamble (commands_ d) (set_block_num (Z.of_nat i) (data (vm_ s))))).
  { eapply run_program_preamble; [done..| |done]. split; [lia|done| |done].
    unfold znth. destruct (Z.leb_spec 0 (Z.of_nat i)); [|lia]. by rewrite Nat2Z.id. }
  apply runs_as_settles in Hr as (n & o & Hr); [|apply run_preamble_not_stuck].
  unfold run_block.
  destruct o as [[] vm|vm|c]; eexists n, _; intros fuel Hf; by rewrite Hr.
Qed.

Lemma load_block_settles i st (s : Runner (B := B)) :
  (i < 256)%nat -> Forall wf_preamble (commands_ (compile_driver_ s)) ->
  settles (fun fuel => load_block clip fuel i st s).
Proof.
  intros Hi Hwf. unfold load_block.
  destruct (Driver_serialize [] (compile_driver_ s)) as [bc d'] eqn:Ed.
  apply settles_then; [done|]. intros [] s1 [= <-].
  apply settles_then; [apply call_vm_total|]. intros [] s2 E2.
  assert (Hf2 : back (call_stack_ (ctl (vm_ s2))) = Some (mkEnv 0 0 0) /\ fp_ (data (vm_ s2)) = 0).
  { clear -E2. unfold call_vm, set_block_code in E2. destruct (negb _); [done|].
    injection E2 as <-. simpl. by destruct (_ || _). }
  apply set_block_code_spec in E2 as (_ & _ & _ & Hc2 & Hz2).
  apply settles_then; [done|]. intros [] s3 [= <-].
  apply settles_then; [apply call_vm_total|]. intros [] s4 E4.
  pose proof E4 as H4. apply save_block_spec in H4 as (_ & _ & _ & Hc4).
  assert (Hd : is_preamble_ (data (vm_ s4)) = true /\ ctl (vm_ s4) = ctl (vm_ s2) /\
               fp_ (data (vm_ s4)) = fp_ (data (vm_ s2))).
  { clear -E4. unfold save_block_variables, call_vm, vm_data, on_data, save_variables in E4.
    destruct (_ && _); [done|]. by injection E4 as <-. }
  destruct Hd as (Hm & Hct & Hfp), Hf2 as [Hback Hfp0].
  apply (settles_bind (fun n => run_block clip n i)).
  - apply (run_preamble_settles i (compile_driver_ s)); [done..| |done|].
    + unfold loaded. rewrite Ed. simpl. by rewrite Hc4.
    + exists (mkEnv 0 0 0). rewrite Hct, Hback, Hfp, Hfp0. done.
  - intros ok s5 _. apply settles_then; [by destruct ok|]. intros st' s6 _.
    apply settles_then; [done|]. intros [] s7 _. apply settles_now.
Qed.

Lemma compile_block_settles i (s : Runner (B := B)) :
  (i < 256)%nat ->
  (forall bl d, parsed parse i bl 0 d -> Forall wf_preamble (commands_ d)) ->
  settles (fun fuel => compile_block clip clip_status read_trimmed parse fuel i s).
Proof.
  intros Hi Hp. unfold compile_block.
  destruct (config s !! i) as [bl|], (logic_blocks_ s !! i) as [b|] eqn:Eb; try apply settles_now.
  apply settles_then.
  { unfold compile_source. destruct (parse_file _ _). destruct (negb _); [done|].
    destruct (_ =? 0); [|done]. unfold mbind, fprog_bind, save_block_variables.
    destruct (call_vm _ _) as [[]|] eqn:E; [done..|by apply call_vm_total in E]. }
  intros st s1 E1. apply compile_source_spec in E1 as (_ & res & d & Hd & <- & Hres); [|done].
  apply (settles_bind (fun fuel s =>
    if bool_decide (logic_blocks_ s !! i = Some true) then load_block clip fuel i st s
    else (call_vm (clear_block_code (Z.of_nat i));; mret st) s)).
  - destruct (bool_decide_reflect (logic_blocks_ s1 !! i = Some true)) as [Ht|].
    + apply load_block_settles; [done|].
      destruct Hres as [(_ & Hf & _)|[(_ & _ & Hf & _)|(-> & _)]]; [congruence..|eauto].
    + apply settles_then; [apply call_vm_total|]. intros. apply settles_now.
  - intros st2 s2 _. apply settles_now.
Qed.

Lemma for_blocks_settles (body : nat -> nat -> fprog (Runner (B := B)) unit) i n s :
  (forall j s, (i <= j < i + n)%nat -> settles (fun fuel => body fuel j s)) ->
  settles (fun fuel => for_blocks (body fuel) i n s).
Proof.
  revert i s. induction n as [|n IH]; intros i s Hb; [apply settles_now|].
  simpl. apply (settles_bind (fun fuel => body fuel i)); [apply Hb; lia|].
  intros [] s' _. apply IH. intros j s1 Hj. apply Hb. lia.
Qed.

End Termination.

(** ** Theorems *)

Section Theorems.
Context {B : Type} `{EB : !EventBus B}.
Context (clip clip_status : string -> string) (read_trimmed : Z -> Z).
Context (parse : string -> Driver -> Z * Driver).
Context (fuel : nat).

Implicit Types (s : Runner (B := B)).

(** C30: Blocks are isolated: when a round of the runner comes to block [i], the
    blocks before it have changed neither its settings nor any code; if it is
    enabled its code is run on a cleared machine, and in the end of the round its
    settings are as before if this run succeeded, whatever other blocks did; if
    it failed, the block is disabled and its status tells the error of this run.
    A block that is disabled stays as it is. *)
Theorem single_step_isolates s s' i :
  single_step clip clip_status fuel s = Some (Done tt s') -> (i < num_repeats s)%nat ->
  exists si, for_blocks (step_block clip clip_status fuel) 0 i s = Some (Done tt si) /\
    view i si = view i s /\ blocks_ (data (vm_ si)) = blocks_ (data (vm_ s)) /\
    turn_ends clip clip_status fuel i si s'.
Proof.
  unfold single_step. intros E Hi. replace (num_repeats s) with (i + S (num_repeats s - i - 1))%nat in E by lia.
  apply for_blocks_split in E as (s1 & s2 & H1 & H2 & H3). exists s1. split; [done|].
  apply (for_blocks_others clip clip_status fuel i) in H1 as H1'; [|lia..]. destruct H1' as (Hv1 & Hn1 & Hb1).
  split; [done|]. split; [done|]. apply step_block_spec in H2 as (_ & Hn2 & _ & Ht); [|lia].
  apply (for_blocks_others clip clip_status fuel i) in H3 as (Hv3 & _ & _); [|lia..].
  by apply (turn_ends_view _ _ _ _ _ s2).
Qed.

(** After a compilation every block of the configuration is in the state
    its program and its settings ask for, its status says so, and the code of a
    block that was not rejected is in the machine. *)
Theorem compile_impl_result s s' i bl :
  compile_impl clip clip_status read_trimmed parse fuel s = Some (Done tt s') ->
  config s !! i = Some bl -> compiled clip_status read_trimmed parse i bl s'.
Proof. apply compile_impl_compiled. Qed.

(** A compilation always ends: whatever the programs of the blocks are,
    there is a bound on the steps of the machine after which [compile_impl] has
    its result, as long as the parser numbers variables with [int]s. *)
Theorem compile_impl_terminates s :
  (num_repeats s <= 256)%nat ->
  (forall i bl d, (i < num_repeats s)%nat -> parsed parse i bl 0 d ->
     Forall wf_preamble (commands_ d)) ->
  settles (fun fuel => compile_impl clip clip_status read_trimmed parse fuel s).
Proof.
  intros Hn Hp. unfold compile_impl. apply for_blocks_settles. intros j s1 Hj.
  apply compile_block_settles; [lia|]. intros bl d. apply Hp. lia.
Qed.

(** Stopping works: after [stop_running], the timer objects that are
    still queued expire without running a block, until the runner is started
    again; whatever was started, stopped and compiled before. *)
Theorem stopped_runner_is_quiet l1 l2 s0 s s' :
  timer_ s0 = None -> timers_ s0 = ∅ ->
  run_events clip clip_status read_trimmed parse fuel l1 s0 = Some (Done tt s) ->
  Forall stopped_event l2 ->
  run_events clip clip_status read_trimmed parse fuel l2 (stop_running s) = Some (Done tt s') ->
  vm_ s' = vm_ s /\ logic_blocks_ s' = logic_blocks_ s.
Proof.
  intros Ht0 Hts0 E1 Hl2 E2.
  assert (Hok : timer_ok s).
  { assert (H0 : timer_ok s0) by (intros t; by rewrite Ht0, Hts0).
    clear Ht0 Hts0 E2. revert s0 E1 H0. induction l1 as [|e l1 IH]; intros s0 E1 H0.
    - by injection E1 as <-.
    - apply fbind_Done in E1 as ([] & s1 & E & E1). eapply IH; [exact E1|].
      by eapply handle_event_timer_ok. }
  assert (Hstop : forall t, timers_ (stop_running s) !! t <> Some true).
  { intros t. unfold stop_running. destruct (timer_ s) as [t0|] eqn:Et; simpl.
    - rewrite lookup_insert_Some. intros [[_ ?]|[Hne H]]; [done|]. apply Hok in H. congruence.
    - rewrite (Hok t). congruence. }
  assert (Hnone : timer_ (stop_running s) = None).
  { unfold stop_running. by destruct (timer_ s) eqn:Et. }
  assert (Hs : vm_ (stop_running s) = vm_ s /\ logic_blocks_ (stop_running s) = logic_blocks_ s).
  { unfold stop_running. by destruct (timer_ s). }
  revert Hs Hstop Hnone E2. generalize (stop_running s). clear E1 Hok.
  induction Hl2 as [|e l2 He _ IH]; intros x Hs Hstop Hnone E2.
  { by injection E2 as <-. }
  apply fbind_Done in E2 as ([] & s1 & E & E2). destruct e as [| | |t]; try done; simpl in E.
  - injection E as <-.
    assert (stop_running x = x) as Ex by (unfold stop_running; by rewrite Hnone).
    rewrite Ex in E2. by apply (IH x).
  - unfold timeout in E. destruct (timers_ x !! t) as [[]|] eqn:Et; [by apply Hstop in Et| |done].
    injection E as <-. eapply IH; [..|exact E2]; [done| |done].
    intros t'. simpl. rewrite lookup_delete_Some. intros [_ H]. by apply Hstop in H.
Qed.

(** C3: End to end: once a compilation has enabled a block, each of its
    executions, as [single_step] prepares them, runs the program that was
    parsed from the text in the configuration, as the reference semantics of
    the language says; a program that makes no function call has a meaning there.
    Nothing is said of runs that reach a call of a function that was not compiled
    before, or, in a block other than the first, any function call: [CALL] takes
    the offset of the function for one in the first block. *)
Theorem enabled_block_runs s s' i bl vm :
  compile_impl clip clip_status read_trimmed parse fuel s = Some (Done tt s') ->
  config s !! i = Some bl -> logic_blocks_ s' !! i = Some true -> (i < 256)%nat ->
  blocks_ (data vm) = blocks_ (data (vm_ s')) ->
  (forall d, parsed parse i bl 0 d -> in_function_ d = false /\ Forall wf_cmd (commands_ d)) ->
  let prepared := set_vm_block_num (Z.of_nat i) (set_preamble false (VM_clear vm)) in
  exists d, parsed parse i bl 0 d /\
    let meaning := run_commands (F := OlcbVariableFactory clip) (symbol_table_ (global_context_ d)) (Z.of_nat i)
                     (commands_ d) (data prepared) in
    runs_as (fun fuel => execute_block (F := OlcbVariableFactory clip) fuel (Z.of_nat i) prepared) meaning /\
    (forallb call_free (commands_ d) = true -> meaning <> Stuck).
Proof.
  intros E Hbl Hen Hi Hblocks Hparse prepared.
  eapply compile_impl_compiled in E; [|exact Hbl].
  destruct E as [res d ? ? Hoff|d ? ? Hoff|d e ? ? ? Hoff|d Hp _ [Hcode Hsize] _ _]; [congruence..|].
  destruct (Hparse d Hp) as [Hg Hwf]. exists d. split; [done|]. split; [|by apply run_commands_meaningful].
  assert (Hb : data prepared = set_block_num (Z.of_nat i) (data prepared)).
  { unfold prepared, set_vm_block_num. simpl. by rewrite u8_small by (unfold is_uint8; lia). }
  rewrite Hb. eapply (run_program d (Z.of_nat i) prepared); [done..| |done].
  split; [unfold is_uint8; lia|done| |by exists (mkEnv 0 0 0)].
  simpl. rewrite Hblocks. unfold znth. destruct (Z.leb_spec 0 (Z.of_nat i)); [|lia].
  by rewrite Nat2Z.id.
Qed.

End Theorems.
