(* ===== verification/AutomataDefs.v ===== *)
(** The instruction set of the automata (src/cs/src/automata_defs.h) and the
    codes the runner dies with (src/cs/src/cs_config.h). *)

From S2P Require Import Prelude.

Definition MAX_IMPORT_VAR : Z := 32.

(** ** Conditions *)

Definition _IF_REG : Z := 0x00.
Definition _IF_REG_MASK : Z := 0x80.
Definition _REG_1 : Z := 0x40.
Definition _IF_REG_BITNUM_MASK : Z := 0x3f.

Definition _IF_STATE : Z := 0xA0.
Definition _IF_STATE_MASK : Z := 0xE0.

Definition _GET_LOCK : Z := 0xE0.
Definition _GET_LOCK_MASK : Z := 0xE0.
Definition _REL_LOCK : Z := 0xC0.
Definition _REL_LOCK_MASK : Z := 0xE0.

Definition _IF_MISC_BASE : Z := 0x80.
Definition _IF_MISC_MASK : Z := 0xF0.
Definition _IF_EMERGENCY_STOP : Z := Z.lor _IF_MISC_BASE 0.
Definition _IF_EMERGENCY_START : Z := Z.lor _IF_MISC_BASE 1.
Definition _GET_TRAIN_SPEED : Z := Z.lor _IF_MISC_BASE 2.
Definition _SET_TRAIN_SPEED : Z := Z.lor _IF_MISC_BASE 5.
Definition _IF_FORWARD : Z := Z.lor _IF_MISC_BASE 3.
Definition _IF_REVERSE : Z := Z.lor _IF_MISC_BASE 4.

Definition _IF_MISCA_BASE : Z := 0x90.
Definition _IF_MISCA_MASK : Z := 0xF0.
Definition _IF_ASPECT : Z := Z.lor _IF_MISCA_BASE 9.

(** ** Actions *)

Definition _ACT_REG : Z := 0x80.
Definition _ACT_REG_MASK : Z := 0x80.

Definition _ACT_TIMER : Z := 0x00.
Definition _ACT_TIMER_MASK : Z := 0xE0.

Definition _ACT_MISC_BASE : Z := 0x20.
Definition _ACT_MISC_MASK : Z := 0xF0.
Definition _ACT_UP_ASPECT : Z := Z.lor _ACT_MISC_BASE 0.
Definition _ACT_IMPORT_VAR : Z := Z.lor _ACT_MISC_BASE 1.
Definition _ACT_DEF_VAR : Z := Z.lor _ACT_MISC_BASE 2.
Definition _ACT_SET_VAR_VALUE : Z := Z.lor _ACT_MISC_BASE 3.
Definition _ACT_SPEED_FORWARD : Z := Z.lor _ACT_MISC_BASE 4.
Definition _ACT_SPEED_REVERSE : Z := Z.lor _ACT_MISC_BASE 5.
Definition _ACT_SPEED_FLIP : Z := Z.lor _ACT_MISC_BASE 6.

Definition _ACT_MISCA_BASE : Z := 0x30.
Definition _ACT_MISCA_MASK : Z := 0xF0.
Definition _ACT_SET_SRCPLACE : Z := Z.lor _ACT_MISCA_BASE 0.
Definition _ACT_SET_TRAINID : Z := Z.lor _ACT_MISCA_BASE 1.
Definition _ACT_SET_SIGNAL : Z := Z.lor _ACT_MISCA_BASE 2.
Definition _ACT_SET_ASPECT : Z := Z.lor _ACT_MISCA_BASE 3.
Definition _ACT_READ_GLOBAL_ASPECT : Z := Z.lor _ACT_MISCA_BASE 4.
Definition _ACT_SET_EVENTID : Z := Z.lor _ACT_MISCA_BASE 5.
Definition _ACT_SET_VAR_VALUE_ASPECT : Z := Z.lor _ACT_MISCA_BASE 6.
Definition _ACT_GET_VAR_VALUE_ASPECT : Z := Z.lor _ACT_MISCA_BASE 7.
Definition _ACT_GET_VAR_VALUE_SPEED : Z := Z.lor _ACT_MISCA_BASE 8.
Definition _ACT_IMM_SPEED : Z := Z.lor _ACT_MISCA_BASE 9.
Definition _ACT_SCALE_SPEED : Z := Z.lor _ACT_MISCA_BASE 0xA.

Definition _ACT_STATE : Z := 0x40.
Definition _ACT_STATE_MASK : Z := 0xC0.

(** ** Signal aspects *)

Definition A_DARK : Z := 0.
Definition A_STOP : Z := 1.
Definition A_40 : Z := 2.
Definition A_GO : Z := 3.
Definition A_SHUNT : Z := 4.
Definition A_60 : Z := 5.
Definition A_90 : Z := 6.
Definition A_S40 : Z := 7.

(** ** Configuration *)

Definition CS_DIE_ASSERT : Z := 0x80002C2A.
Definition CS_DIE_UNSUPPORTED : Z := 0x8000AC2A.
Definition CS_DIE_AUT_IMPORTERROR : Z := 0x8002AC2A.
Definition CS_DIE_AUT_HALT : Z := 0x800AAC2A.
Definition CS_DIE_AUT_WRITETIMERBIT : Z := 0x802AAC2A.
Definition CS_DIE_AUT_TWOBYTEFAIL : Z := 0x80AAAC2A.

Definition MAX_SIGNALS : Z := 64.
Definition MAX_LOCK_ID : Z := 8.

(** [diewith] does not return. *)
Definition diewith {S A} (pattern : Z) : prog S A := crashing (Died pattern).

(** [(insn & mask) == base], a case of the instruction decoder. *)
Definition is_insn (base mask insn : Z) : bool := Z.land insn mask =? base.

(** [insn & ~mask] on a byte. *)
Definition insn_arg (mask insn : Z) : Z := Z.land insn (Z.land (Z.lnot mask) 0xff).
