(* ===== verification/Automata.v ===== *)
(** The interpreter of the automata (src/cs/src/automata_runner.cpp,
    automata_runner.h, automata_control.cpp, automata_control.h).

    An automata program is a sequence of operations: a header byte with the
    number of condition and action bytes, the conditions, the actions.  The
    runner executes the program of every automata from its start to a zero
    header; the preamble of the program declares the variables.

    OpenMRN's event handlers, memory bits and velocities are code of another
    repository: classes [Velocity] and [Node].  Handlers share memory with the
    bits, so every message may change it. *)

From stdpp Require Import sorting.
From S2P Require Import Prelude AutomataDefs.

(** ** The node *)

(** [openlcb::Velocity]; [velocity_scale z v] is [v *= z / 32.0f]. *)
Class Velocity (V : Type) := {
  velocity_FORWARD : Z;
  velocity_REVERSE : Z;
  velocity_zero : V;
  velocity_nan : V;
  velocity_isnan : V -> bool;
  velocity_direction : V -> Z;
  velocity_set_direction : Z -> V -> V;
  velocity_forward : V -> V;
  velocity_reverse : V -> V;
  velocity_set_mph : Z -> V -> V;
  velocity_scale : Z -> V -> V
}.

(** [openlcb::MemoryBit<uint8_t>] over a byte of [clients]. *)
Record MemoryBit := mkMemoryBit {
  bit_event_on : Z;
  bit_event_off : Z;
  bit_ptr : Z;
  bit_mask : Z
}.

(** The subclasses of [ReadWriteBit] with their members; a handler's
    [storage_] is in [Memory]. *)
Inductive ReadWriteBit :=
| EventBit (bit : MemoryBit) (defined : bool)
| EventBlockBit (event_base size : Z)
| EventByteBlock (event_base size : Z)
| EventByteBlockConsumer (event_base size : Z)
| LockBit (lock_id : Z).

(** What event handlers can write to: the array [clients] and the [storage_]
    arrays of the bits. *)
Record Memory := mkMemory {
  clients : list Z;
  storage : gmap nat (list Z)
}.

(** Messages to the node about the bit at an address.  All but the last three
    wait until they are processed. *)
Inductive Request (V : Type) :=
| HandlerNew (address : nat) (b : ReadWriteBit)
| HandlerDelete (address : nat)
| SendQuery (b : MemoryBit)
| SendEventReport (b : MemoryBit)
| RangeSet (address : nat) (arg : Z) (value : bool)
| BytesUpdate (address : nat) (arg : Z)
| SendIdentified (address : nat)
| EmergencyOff
| ClearEmergencyOff
| SpeedSet (train : Z) (v : V).

Arguments HandlerNew {V}. Arguments HandlerDelete {V}. Arguments SendQuery {V}.
Arguments SendEventReport {V}. Arguments RangeSet {V}. Arguments BytesUpdate {V}.
Arguments SendIdentified {V}. Arguments EmergencyOff {V}. Arguments ClearEmergencyOff {V}.
Arguments SpeedSet {V}.

(** [memory_bit_state] and [memory_bit_set] take a mask and a byte;
    [speed_query] answers [None] after a timeout or a malformed response;
    [last_payload] is that of the write helper of the automata. *)
Class Node (V W : Type) := {
  memory_bit_state : Z -> Z -> EventState;
  memory_bit_set : Z -> Z -> bool -> Z;
  bit_range_get : list Z -> Z -> bool;
  bus : Request V -> Memory -> W -> Memory * W;
  speed_query : Z -> Memory -> W -> option V * Memory * W;
  last_payload : W -> list Z;
  clear_last_payload : W -> W
}.

(** ** State *)

(** [Automata] with its [TimerBit]. *)
Record Automata := mkAutomata {
  id_ : Z;
  state_ : Z;
  timer_ : Z;
  starting_offset_ : Z
}.

(** A [ReadWriteBit*]: the timer bit of the automata at an address, or a
    declared bit. *)
Inductive BitPtr :=
| TimerBit (aut : nat)
| DeclaredBit (bit : nat).

Section Runner.
Context {V W : Type} `{VV : !Velocity V} `{NN : !Node V W}.

(** The members of [AutomataRunner] but the instruction pointer, the objects
    the runner owns by their address, and the globals of
    automata_control.cpp. *)
Record Core := mkCore {
  aut_srcplace_ : Z;
  aut_trainid_ : Z;
  aut_signal_aspect_ : Z;
  aut_speed_ : V;
  aut_eventids_ : list Z;
  all_automata_ : list nat;
  declared_bits_ : gmap Z nat;
  imported_bits_ : list (option BitPtr);
  imported_bit_args_ : list Z;
  current_automata_ : option nat;
  pending_ticks_ : Z;
  automatas : gmap nat Automata;
  bits : gmap nat ReadWriteBit;
  next_address : nat;
  memory_ : Memory;
  locks : list Z;
  signal_aspects : list Z;
  node_ : W
}.

Definition set_srcplace (x : Z) (c : Core) : Core :=
  mkCore x (aut_trainid_ c) (aut_signal_aspect_ c) (aut_speed_ c) (aut_eventids_ c)
    (all_automata_ c) (declared_bits_ c) (imported_bits_ c) (imported_bit_args_ c)
    (current_automata_ c) (pending_ticks_ c) (automatas c) (bits c) (next_address c) (memory_ c)
    (locks c) (signal_aspects c) (node_ c).
Definition set_trainid (x : Z) (c : Core) : Core :=
  mkCore (aut_srcplace_ c) x (aut_signal_aspect_ c) (aut_speed_ c) (aut_eventids_ c)
    (all_automata_ c) (declared_bits_ c) (imported_bits_ c) (imported_bit_args_ c)
    (current_automata_ c) (pending_ticks_ c) (automatas c) (bits c) (next_address c) (memory_ c)
    (locks c) (signal_aspects c) (node_ c).
Definition set_aspect (x : Z) (c : Core) : Core :=
  mkCore (aut_srcplace_ c) (aut_trainid_ c) x (aut_speed_ c) (aut_eventids_ c) (all_automata_ c)
    (declared_bits_ c) (imported_bits_ c) (imported_bit_args_ c) (current_automata_ c)
    (pending_ticks_ c) (automatas c) (bits c) (next_address c) (memory_ c) (locks c)
    (signal_aspects c) (node_ c).
Definition set_aut_speed (x : V) (c : Core) : Core :=
  mkCore (aut_srcplace_ c) (aut_trainid_ c) (aut_signal_aspect_ c) x (aut_eventids_ c)
    (all_automata_ c) (declared_bits_ c) (imported_bits_ c) (imported_bit_args_ c)
    (current_automata_ c) (pending_ticks_ c) (automatas c) (bits c) (next_address c) (memory_ c)
    (locks c) (signal_aspects c) (node_ c).
Definition set_eventids (x : list Z) (c : Core) : Core :=
  mkCore (aut_srcplace_ c) (aut_trainid_ c) (aut_signal_aspect_ c) (aut_speed_ c) x
    (all_automata_ c) (declared_bits_ c) (imported_bits_ c) (imported_bit_args_ c)
    (current_automata_ c) (pending_ticks_ c) (automatas c) (bits c) (next_address c) (memory_ c)
    (locks c) (signal_aspects c) (node_ c).
Definition set_all_automata (x : list nat) (c : Core) : Core :=
  mkCore (aut_srcplace_ c) (aut_trainid_ c) (aut_signal_aspect_ c) (aut_speed_ c)
    (aut_eventids_ c) x (declared_bits_ c) (imported_bits_ c) (imported_bit_args_ c)
    (current_automata_ c) (pending_ticks_ c) (automatas c) (bits c) (next_address c) (memory_ c)
    (locks c) (signal_aspects c) (node_ c).
Definition set_declared_bits (x : gmap Z nat) (c : Core) : Core :=
  mkCore (aut_srcplace_ c) (aut_trainid_ c) (aut_signal_aspect_ c) (aut_speed_ c)
    (aut_eventids_ c) (all_automata_ c) x (imported_bits_ c) (imported_bit_args_ c)
    (current_automata_ c) (pending_ticks_ c) (automatas c) (bits c) (next_address c) (memory_ c)
    (locks c) (signal_aspects c) (node_ c).
Definition set_pending_ticks (x : Z) (c : Core) : Core :=
  mkCore (aut_srcplace_ c) (aut_trainid_ c) (aut_signal_aspect_ c) (aut_speed_ c)
    (aut_eventids_ c) (all_automata_ c) (declared_bits_ c) (imported_bits_ c)
    (imported_bit_args_ c) (current_automata_ c) x (automatas c) (bits c) (next_address c)
    (memory_ c) (locks c) (signal_aspects c) (node_ c).
Definition set_automatas (x : gmap nat Automata) (c : Core) : Core :=
  mkCore (aut_srcplace_ c) (aut_trainid_ c) (aut_signal_aspect_ c) (aut_speed_ c)
    (aut_eventids_ c) (all_automata_ c) (declared_bits_ c) (imported_bits_ c)
    (imported_bit_args_ c) (current_automata_ c) (pending_ticks_ c) x (bits c) (next_address c)
    (memory_ c) (locks c) (signal_aspects c) (node_ c).
Definition set_bits (x : gmap nat ReadWriteBit) (c : Core) : Core :=
  mkCore (aut_srcplace_ c) (aut_trainid_ c) (aut_signal_aspect_ c) (aut_speed_ c)
    (aut_eventids_ c) (all_automata_ c) (declared_bits_ c) (imported_bits_ c)
    (imported_bit_args_ c) (current_automata_ c) (pending_ticks_ c) (automatas c) x
    (next_address c) (memory_ c) (locks c) (signal_aspects c) (node_ c).
Definition set_next_address (x : nat) (c : Core) : Core :=
  mkCore (aut_srcplace_ c) (aut_trainid_ c) (aut_signal_aspect_ c) (aut_speed_ c)
    (aut_eventids_ c) (all_automata_ c) (declared_bits_ c) (imported_bits_ c)
    (imported_bit_args_ c) (current_automata_ c) (pending_ticks_ c) (automatas c) (bits c) x
    (memory_ c) (locks c) (signal_aspects c) (node_ c).
Definition set_locks (x : list Z) (c : Core) : Core :=
  mkCore (aut_srcplace_ c) (aut_trainid_ c) (aut_signal_aspect_ c) (aut_speed_ c)
    (aut_eventids_ c) (all_automata_ c) (declared_bits_ c) (imported_bits_ c)
    (imported_bit_args_ c) (current_automata_ c) (pending_ticks_ c) (automatas c) (bits c)
    (next_address c) (memory_ c) x (signal_aspects c) (node_ c).
Definition set_signal_aspects (x : list Z) (c : Core) : Core :=
  mkCore (aut_srcplace_ c) (aut_trainid_ c) (aut_signal_aspect_ c) (aut_speed_ c)
    (aut_eventids_ c) (all_automata_ c) (declared_bits_ c) (imported_bits_ c)
    (imported_bit_args_ c) (current_automata_ c) (pending_ticks_ c) (automatas c) (bits c)
    (next_address c) (memory_ c) (locks c) x (node_ c).
Definition set_imported (l : list (option BitPtr)) (args : list Z) (c : Core) : Core :=
  mkCore (aut_srcplace_ c) (aut_trainid_ c) (aut_signal_aspect_ c) (aut_speed_ c)
    (aut_eventids_ c) (all_automata_ c) (declared_bits_ c) l args (current_automata_ c)
    (pending_ticks_ c) (automatas c) (bits c) (next_address c) (memory_ c) (locks c)
    (signal_aspects c) (node_ c).
Definition set_current_automata (a : option nat) (c : Core) : Core :=
  mkCore (aut_srcplace_ c) (aut_trainid_ c) (aut_signal_aspect_ c) (aut_speed_ c)
    (aut_eventids_ c) (all_automata_ c) (declared_bits_ c) (imported_bits_ c)
    (imported_bit_args_ c) a (pending_ticks_ c) (automatas c) (bits c) (next_address c)
    (memory_ c) (locks c) (signal_aspects c) (node_ c).
Definition set_memory (m : Memory) (w : W) (c : Core) : Core :=
  mkCore (aut_srcplace_ c) (aut_trainid_ c) (aut_signal_aspect_ c) (aut_speed_ c)
    (aut_eventids_ c) (all_automata_ c) (declared_bits_ c) (imported_bits_ c)
    (imported_bit_args_ c) (current_automata_ c) (pending_ticks_ c) (automatas c) (bits c)
    (next_address c) m (locks c) (signal_aspects c) w.

(** [AutomataDebugSpace]. *)
Record AutomataDebugSpace := mkDebug {
  logEventId_ : Z;
  debug_ip_ : Z
}.

Record AutomataRunner := mkRunner {
  ip_ : Z;
  last_ip_ : Z;
  g_aut_debug_space : AutomataDebugSpace;
  core : Core
}.

Definition set_ip (ip : Z) (s : AutomataRunner) : AutomataRunner :=
  mkRunner ip (last_ip_ s) (g_aut_debug_space s) (core s).
Definition set_core (c : Core) (s : AutomataRunner) : AutomataRunner :=
  mkRunner (ip_ s) (last_ip_ s) (g_aut_debug_space s) c.

(** ** Memory *)

(** [a[i]] of an array. *)
Definition array_get {S A} (a : list A) (i : Z) : prog S A :=
  match znth a i with
  | Some x => mret x
  | None => crashing OutOfBounds
  end.

(** Reading members in the middle of an expression. *)
Definition reading {S A} (m : S -> prog S A) : prog S A := fun s => m s s.

(** A message to the node. *)
Definition send (r : Request V) : prog Core unit :=
  modify_state (fun c => let '(m, w) := bus r (memory_ c) (node_ c) in set_memory m w c).

Definition new_address : prog Core nat :=
  fun c => Done (next_address c) (set_next_address (S (next_address c)) c).

Definition the_automata (a : nat) : prog Core Automata :=
  fun c =>
    match automatas c !! a with
    | Some x => Done x c
    | None => Crashed DanglingPointer
    end.

Definition put_automata (a : nat) (x : Automata) : prog Core unit :=
  modify_state (fun c => set_automatas (<[a := x]> (automatas c)) c).

(** [*current_automata_] *)
Definition current : prog Core nat :=
  fun c =>
    match current_automata_ c with
    | Some a => Done a c
    | None => Crashed DanglingPointer
    end.

Definition the_bit (l : nat) : prog Core ReadWriteBit :=
  fun c =>
    match bits c !! l with
    | Some b => Done b c
    | None => Crashed DanglingPointer
    end.

Definition the_storage (l : nat) : prog Core (list Z) :=
  fun c => Done (default [] (storage (memory_ c) !! l)) c.

(** ** Automata *)

Definition GetState (a : nat) : prog Core Z := x ← the_automata a; mret (state_ x).

Definition SetState (a : nat) (state : Z) : prog Core unit :=
  x ← the_automata a;
  put_automata a (mkAutomata (id_ x) state (timer_ x) (starting_offset_ x)).

Definition timer_value (id value : Z) : Z :=
  if value =? insn_arg _ACT_TIMER_MASK 0xff then Z.shiftr id 3 else value.

Definition SetTimer (a : nat) (value : Z) : prog Core unit :=
  x ← the_automata a;
  put_automata a (mkAutomata (id_ x) (state_ x) (timer_value (id_ x) value) (starting_offset_ x)).

Definition Tick (a : nat) : prog Core unit :=
  x ← the_automata a;
  put_automata a
    (mkAutomata (id_ x) (state_ x) (if timer_ x =? 0 then 0 else timer_ x - 1) (starting_offset_ x)).

Definition GetId (a : nat) : prog Core Z := x ← the_automata a; mret (id_ x).

(** [new Automata(id, starting_offset)], which checks the range of the id. *)
Definition new_automata (id starting_offset : Z) : prog Core nat :=
  if (0 <=? id) && (id <=? 255) then
    a ← new_address;
    put_automata a (mkAutomata (u8 id) 0 0 starting_offset);;
    mret a
  else crashing AssertFailed.

(** ** Bits *)

(** [bit_.get_current_state()]: the byte it points to and its state. *)
Definition memory_bit (bit : MemoryBit) : prog Core (Z * EventState) :=
  fun c =>
    (byte ← array_get (clients (memory_ c)) (bit_ptr bit);
     mret (byte, memory_bit_state (bit_mask bit) byte)) c.

Definition write_client (ptr byte : Z) : prog Core unit :=
  modify_state (fun c =>
    set_memory (mkMemory (zset (clients (memory_ c)) ptr byte) (storage (memory_ c))) (node_ c) c).

Definition write_storage (l : nat) (data : list Z) : prog Core unit :=
  modify_state (fun c =>
    set_memory (mkMemory (clients (memory_ c)) (<[l := data]> (storage (memory_ c)))) (node_ c) c).

Definition put_bit (l : nat) (b : ReadWriteBit) : prog Core unit :=
  modify_state (fun c => set_bits (<[l := b]> (bits c)) c).

Definition EventBit_Read (bit : MemoryBit) : prog Core bool :=
  '(_, state) ← memory_bit bit; mret (bool_decide (state = VALID)).

Definition EventBit_Write (l : nat) (bit : MemoryBit) (defined value : bool) : prog Core unit :=
  '(byte, state) ← memory_bit bit;
  if bool_decide (state = VALID) && defined && value then mret tt
  else if bool_decide (state = INVALID) && defined && negb value then mret tt
  else
    write_client (bit_ptr bit) (memory_bit_set (bit_mask bit) byte value);;
    send (SendEventReport bit);;
    put_bit l (EventBit bit true).

Definition EventByteBlock_SetState (l : nat) (arg state : Z) : prog Core unit :=
  data ← the_storage l;
  old ← array_get data arg;
  if negb (old =? state) then
    write_storage l (zset data arg state);;
    send (BytesUpdate l arg)
  else mret tt.

Definition EventByteBlockConsumer_SetState (l : nat) (arg state : Z) : prog Core unit :=
  data ← the_storage l;
  _ ← array_get data arg;
  write_storage l (zset data arg state).

(** [locks[lock_id_]] and the id of the automata. *)
Definition LockBit_Read (lock_id : Z) : prog Core bool :=
  fun c =>
    (existing_id ← array_get (locks c) lock_id;
     if existing_id =? 0 then mret false
     else
       a ← current; id ← GetId a;
       mret (negb (existing_id =? id))) c.

Definition LockBit_Write (lock_id : Z) (value : bool) : prog Core unit :=
  fun c =>
    (owner ← array_get (locks c) lock_id;
     a ← current; id ← GetId a;
     if (owner =? 0) && value then
       modify_state (fun c => set_locks (zset (locks c) lock_id id) c)
     else if (owner =? id) && negb value then
       modify_state (fun c => set_locks (zset (locks c) lock_id 0) c)
     else mret tt) c.

(** [bit->Read(arg, ...)] for the current automata. *)
Definition Read (p : BitPtr) (arg : Z) : prog Core bool :=
  match p with
  | TimerBit a => x ← the_automata a; mret (negb (timer_ x =? 0))
  | DeclaredBit l =>
      b ← the_bit l;
      match b with
      | EventBit bit _ => EventBit_Read bit
      | EventBlockBit _ _ => data ← the_storage l; mret (bit_range_get data arg)
      | EventByteBlock _ _ | EventByteBlockConsumer _ _ => crashing AssertFailed
      | LockBit id => LockBit_Read id
      end
  end.

Definition Write (p : BitPtr) (arg : Z) (value : bool) : prog Core unit :=
  match p with
  | TimerBit a => the_automata a;; diewith CS_DIE_AUT_WRITETIMERBIT
  | DeclaredBit l =>
      b ← the_bit l;
      match b with
      | EventBit bit defined => EventBit_Write l bit defined value
      | EventBlockBit _ _ => send (RangeSet l arg value)
      | EventByteBlock _ _ | EventByteBlockConsumer _ _ => crashing AssertFailed
      | LockBit id => LockBit_Write id value
      end
  end.

Definition bit_GetState (p : BitPtr) (arg : Z) : prog Core Z :=
  match p with
  | TimerBit a => the_automata a;; crashing AssertFailed
  | DeclaredBit l =>
      b ← the_bit l;
      match b with
      | EventByteBlock _ _ | EventByteBlockConsumer _ _ =>
          data ← the_storage l; array_get data arg
      | _ => crashing AssertFailed
      end
  end.

Definition bit_SetState (p : BitPtr) (arg state : Z) : prog Core unit :=
  match p with
  | TimerBit a => the_automata a;; crashing AssertFailed
  | DeclaredBit l =>
      b ← the_bit l;
      match b with
      | EventByteBlock _ _ => EventByteBlock_SetState l arg state
      | EventByteBlockConsumer _ _ => EventByteBlockConsumer_SetState l arg state
      | _ => crashing AssertFailed
      end
  end.

Definition Initialize (l : nat) : prog Core unit :=
  b ← the_bit l;
  match b with
  | EventBit bit _ => send (SendQuery bit)
  | EventBlockBit _ _ | EventByteBlock _ _ | EventByteBlockConsumer _ _ =>
      send (SendIdentified l)
  | LockBit _ => mret tt
  end.

(** [&clients[client][offset]] *)
Definition get_state_byte (client offset : Z) : Z := client * 32 + offset.

Definition new_bit (b : ReadWriteBit) (data : option (list Z)) : prog Core nat :=
  l ← new_address;
  put_bit l b;;
  match data with
  | Some data => write_storage l data
  | None => mret tt
  end;;
  send (HandlerNew l b);;
  mret l.

Definition delete_bit (l : nat) : prog Core unit :=
  modify_state (fun c =>
    set_memory (mkMemory (clients (memory_ c)) (delete l (storage (memory_ c)))) (node_ c)
      (set_bits (delete l (bits c)) c));;
  send (HandlerDelete l).

(** ** Conditions and actions *)

Definition GetBit (offset : Z) : prog Core BitPtr :=
  fun c =>
    (p ← array_get (imported_bits_ c) offset;
     match p with
     | Some p => mret p
     | None => diewith CS_DIE_AUT_IMPORTERROR
     end) c.

Definition imported_arg (offset : Z) : prog Core Z :=
  fun c => array_get (imported_bit_args_ c) offset c.

Definition eventid (i : Z) : prog Core Z := fun c => array_get (aut_eventids_ c) i c.

Definition set_speed (v : V) : prog Core unit :=
  modify_state (set_aut_speed v).

Definition set_train_speed (v : V) : prog Core bool :=
  train ← eventid 0; send (SpeedSet train v);; mret true.

Definition get_train_speed : prog Core V :=
  train ← eventid 0;
  (fun c =>
     let '(r, m, w) := speed_query train (memory_ c) (node_ c) in
     Done (default velocity_nan r) (set_memory m w c)) : prog Core V.

Definition speed_direction : prog Core Z :=
  fun c => Done (velocity_direction (aut_speed_ c)) c.

(** The switch over conditions without an argument. *)
Definition eval_misc (insn : Z) : prog Core bool :=
  if insn =? _IF_EMERGENCY_STOP then send EmergencyOff;; mret true
  else if insn =? _IF_EMERGENCY_START then send ClearEmergencyOff;; mret true
  else if insn =? _GET_TRAIN_SPEED then
    v ← get_train_speed; set_speed v;; mret (negb (velocity_isnan v))
  else if insn =? _IF_FORWARD then d ← speed_direction; mret (d =? velocity_FORWARD)
  else if insn =? _IF_REVERSE then d ← speed_direction; mret (d =? velocity_REVERSE)
  else if insn =? _SET_TRAIN_SPEED then reading (fun c => set_train_speed (aut_speed_ c))
  else diewith CS_DIE_AUT_HALT.

Definition eval_condition (insn : Z) : prog Core bool :=
  if is_insn _IF_STATE _IF_STATE_MASK insn then
    a ← current; st ← GetState a;
    mret (st =? insn_arg _IF_STATE_MASK insn)
  else if is_insn _IF_REG _IF_REG_MASK insn then
    let cnt := Z.land insn _IF_REG_BITNUM_MASK in
    arg ← imported_arg cnt;
    bit ← GetBit cnt;
    value ← Read bit arg;
    mret (Bool.eqb value (has_bits insn _REG_1))
  else if is_insn _GET_LOCK _GET_LOCK_MASK insn then
    let cnt := insn_arg _GET_LOCK_MASK insn in
    arg ← imported_arg cnt;
    bit ← GetBit cnt;
    taken ← Read bit arg;
    if (taken : bool) then mret false
    else Write bit arg true;; mret true
  else if is_insn _REL_LOCK _REL_LOCK_MASK insn then
    let cnt := insn_arg _REL_LOCK_MASK insn in
    arg ← imported_arg cnt;
    bit ← GetBit cnt;
    Write bit arg false;; mret true
  else if is_insn _IF_MISC_BASE _IF_MISC_MASK insn then eval_misc insn
  else diewith CS_DIE_AUT_HALT.

Definition eval_condition2 (insn arg2 : Z) : prog Core bool :=
  if insn =? _IF_ASPECT then reading (fun c => mret (aut_signal_aspect_ c =? arg2))
  else diewith CS_DIE_AUT_HALT.

Definition up_aspect (u : Z) : Z :=
  if (u =? A_DARK) || (u =? A_STOP) || (u =? A_SHUNT) then A_40
  else if (u =? A_40) || (u =? A_S40) then A_60
  else if u =? A_60 then A_90
  else if u =? A_90 then A_GO
  else if u =? A_GO then u
  else A_DARK.

Definition change_speed (f : V -> V) : prog Core unit :=
  reading (fun c => set_speed (f (aut_speed_ c))).

Definition flip_direction (v : V) : V :=
  velocity_set_direction (1 - velocity_direction v) v.

Definition eval_action (insn : Z) : prog Core unit :=
  if is_insn _ACT_STATE _ACT_STATE_MASK insn then
    a ← current; SetState a (insn_arg _ACT_STATE_MASK insn)
  else if is_insn _ACT_TIMER _ACT_TIMER_MASK insn then
    a ← current; SetTimer a (insn_arg _ACT_TIMER_MASK insn)
  else if is_insn _ACT_REG _ACT_REG_MASK insn then
    let cnt := Z.land insn _IF_REG_BITNUM_MASK in
    arg ← imported_arg cnt;
    bit ← GetBit cnt;
    Write bit arg (has_bits insn _REG_1)
  else if is_insn _ACT_MISC_BASE _ACT_MISC_MASK insn then
    if insn =? _ACT_UP_ASPECT then
      modify_state (fun c => set_aspect (up_aspect (aut_signal_aspect_ c)) c)
    else if insn =? _ACT_SPEED_FORWARD then change_speed velocity_forward
    else if insn =? _ACT_SPEED_REVERSE then change_speed velocity_reverse
    else if insn =? _ACT_SPEED_FLIP then change_speed flip_direction
    else diewith CS_DIE_AUT_HALT
  else diewith CS_DIE_AUT_HALT.

Definition set_signal_aspect (offset aspect : Z) : prog Core unit :=
  fun c =>
    (_ ← array_get (signal_aspects c) offset;
     modify_state (fun c => set_signal_aspects (zset (signal_aspects c) offset aspect) c)) c.

Definition get_signal_aspect (offset : Z) : prog Core Z :=
  fun c => array_get (signal_aspects c) offset c.

(** What [_ACT_IMM_SPEED] sets: a signed number of mph. *)
Definition imm_speed (value : Z) : V :=
  let v := velocity_set_mph (Z.land value 0x7f) velocity_zero in
  if has_bits value 0x80 then velocity_reverse v else velocity_forward v.

Definition scale_speed (arg : Z) (v : V) : V :=
  let v := if has_bits arg 0x80 then flip_direction v else v in
  velocity_scale (Z.land arg 0x7f) v.

Definition eval_action2 (insn arg : Z) : prog Core unit :=
  let offset := Z.shiftr arg 5 in
  let var := Z.land arg 31 in
  if insn =? _ACT_SET_TRAINID then modify_state (set_trainid arg)
  else if insn =? _ACT_SET_SRCPLACE then modify_state (set_srcplace arg)
  else if insn =? _ACT_SET_SIGNAL then reading (fun c => set_signal_aspect arg (aut_signal_aspect_ c))
  else if insn =? _ACT_SET_ASPECT then modify_state (set_aspect arg)
  else if insn =? _ACT_READ_GLOBAL_ASPECT then
    v ← get_signal_aspect arg; modify_state (set_aspect v)
  else if insn =? _ACT_SET_VAR_VALUE_ASPECT then
    bit ← GetBit var; reading (fun c => bit_SetState bit offset (aut_signal_aspect_ c))
  else if insn =? _ACT_GET_VAR_VALUE_ASPECT then
    bit ← GetBit var; v ← bit_GetState bit offset; modify_state (set_aspect v)
  else if insn =? _ACT_GET_VAR_VALUE_SPEED then
    bit ← GetBit var; v ← bit_GetState bit offset; set_speed (imm_speed v)
  else if insn =? _ACT_IMM_SPEED then set_speed (imm_speed arg)
  else if insn =? _ACT_SCALE_SPEED then change_speed (scale_speed arg)
  else diewith CS_DIE_AUT_HALT.

Definition create_bit (type client arg2 : Z) : prog Core nat :=
  on ← eventid 1;
  off ← eventid 0;
  let ptr := get_state_byte client (Z.shiftr arg2 3) in
  if type =? 0 then
    new_bit (EventBit (mkMemoryBit on off ptr (Z.shiftl 1 (Z.land arg2 7))) false) None
  else if type =? 1 then
    let size := Z.lor (Z.shiftl (Z.land client 7) 8) arg2 in
    new_bit (EventBlockBit off size)
      (Some (replicate (Z.to_nat (Z.shiftr (size + 31) 5)) 0))
  else if type =? 2 then
    new_bit (EventByteBlock off arg2) (Some (replicate (Z.to_nat arg2) 0))
  else if type =? 3 then
    new_bit (EventByteBlockConsumer off arg2) (Some (replicate (Z.to_nat arg2) 0))
  else diewith CS_DIE_UNSUPPORTED.

(** [delete declared_bits_[offset]; declared_bits_[offset] = newbit;] *)
Definition declare_bit (offset : Z) (newbit : nat) : prog Core unit :=
  fun c =>
    (match declared_bits_ c !! offset with
     | Some old => delete_bit old
     | None => mret tt
     end;;
     modify_state (fun c => set_declared_bits (<[offset := newbit]> (declared_bits_ c)) c)) c.

(** [InjectBit], with a new bit. *)
Definition InjectBit (offset : Z) (b : ReadWriteBit) (data : option (list Z)) : prog Core unit :=
  l ← new_bit b data; declare_bit offset l.

Definition import_bit (local_idx arg global_ofs : Z) : prog Core unit :=
  fun c =>
    match declared_bits_ c !! global_ofs with
    | None => diewith CS_DIE_AUT_HALT c
    | Some l =>
        Done tt
          (set_imported (zset (imported_bits_ c) local_idx (Some (DeclaredBit l)))
             (zset (imported_bit_args_ c) local_idx arg) c)
    end.

(** ** The interpreter *)

(** [base_pointer_]. *)
Context (code : list Z).

Definition on_core {A} (m : prog Core A) : prog AutomataRunner A :=
  fun s =>
    match m (core s) with
    | Done a c => Done a (set_core c s)
    | Failed c => Failed (set_core c s)
    | Crashed k => Crashed k
    end.

Definition load_insn : prog AutomataRunner Z :=
  fun s =>
    (insn ← array_get code (ip_ s);
     modify_state (fun s => set_ip (u32 (ip_ s + 1)) s);;
     mret insn) s.

Definition ip : prog AutomataRunner Z := fun s => Done (ip_ s) s.
Definition jump_to (i : Z) : prog AutomataRunner unit := modify_state (set_ip i).

(** [uint64_t] of the payload bytes on a little-endian machine, and
    [htobe16]. *)
Definition bytes_le (l : list Z) : Z := foldr (fun b acc => Z.lor b (Z.shiftl acc 8)) 0 l.

Definition htobe16 (x : Z) : Z :=
  let x := u16 x in Z.lor (Z.shiftl (Z.land x 0xff) 8) (Z.shiftr x 8).

Definition debug_hook : prog AutomataRunner unit :=
  fun s =>
    let print_ip := last_ip_ s in
    let d := g_aut_debug_space s in
    let s := mkRunner (ip_ s) (ip_ s) d (core s) in
    if logEventId_ d =? 0 then Done tt s
    else
      let payload := last_payload (node_ (core s)) in
      if negb (zlen payload =? 8) then Done tt s
      else
        let d := if bytes_le payload =? logEventId_ d
                 then mkDebug (logEventId_ d) (htobe16 print_ip) else d in
        let c := core s in
        Done tt (mkRunner (ip_ s) (last_ip_ s) d
                   (set_memory (memory_ c) (clear_last_payload (node_ c)) c)).

(** [if (ip_ > endcond) diewith(...)] *)
Definition check_end (endcond : Z) : prog AutomataRunner unit :=
  i ← ip; if endcond <? i then diewith CS_DIE_AUT_TWOBYTEFAIL else mret tt.

(** [if (ip_ >= endcond) diewith(...)], before an argument is loaded. *)
Definition check_argument (endcond : Z) : prog AutomataRunner unit :=
  i ← ip; if endcond <=? i then diewith CS_DIE_AUT_TWOBYTEFAIL else mret tt.

Definition import_variable : prog AutomataRunner unit :=
  b ← load_insn;
  lo ← load_insn;
  let arg := Z.lor (Z.shiftl (Z.shiftr b 5) 8) lo in
  o1 ← load_insn;
  o2 ← load_insn;
  on_core (import_bit (Z.land b 31) arg (Z.lor o1 (Z.shiftl o2 8))).

Definition create_variable : prog AutomataRunner nat :=
  arg1 ← load_insn;
  arg2 ← load_insn;
  on_core (create_bit (Z.shiftr arg1 5) (Z.land arg1 31) arg2).

(** The byte at bit offset [ofs] of an event ID, a [uint64_t], replaced. *)
Definition replace_byte (event ofs byte : Z) : Z :=
  Z.lor (u64 (Z.land event (Z.lnot (Z.shiftl 0xff ofs)))) (Z.shiftl byte ofs).

(** The loop of [insn_load_event_id] over the bytes up to [ofs]. *)
Fixpoint load_event_bytes (n : nat) (dest : Z) : prog AutomataRunner unit :=
  event ← on_core (eventid dest);
  byte ← load_insn;
  on_core (modify_state (fun c =>
    set_eventids (zset (aut_eventids_ c) dest (replace_byte event (8 * Z.of_nat n) byte)) c));;
  match n with
  | O => mret tt
  | S n => load_event_bytes n dest
  end.

Definition insn_load_event_id : prog AutomataRunner unit :=
  type ← load_insn;
  let dest := Z.land (Z.shiftr type 6) 1 in
  let src := Z.land (Z.shiftr type 4) 1 in
  event ← on_core (eventid src);
  on_core (modify_state (fun c => set_eventids (zset (aut_eventids_ c) dest event) c));;
  load_event_bytes (Z.to_nat (Z.land type 7)) dest.

(** One round of the loop over the conditions. *)
Definition run_condition (endif : Z) : prog AutomataRunner bool :=
  debug_hook;;
  insn ← load_insn;
  if is_insn _IF_MISCA_BASE _IF_MISCA_MASK insn then
    check_argument endif;;
    arg ← load_insn;
    on_core (eval_condition2 insn arg)
  else on_core (eval_condition insn).

(** Whether all conditions hold; [None] does not happen with enough fuel. *)
Fixpoint run_conditions (fuel : nat) (endif : Z) : fprog AutomataRunner bool :=
  fun s =>
    if ip_ s <? endif then
      match fuel with
      | O => None
      | S fuel =>
          ((holds ← total (run_condition endif);
            if (holds : bool) then run_conditions fuel endif else mret false)
           : fprog AutomataRunner bool) s
      end
    else Some (Done true s).

Definition run_action (endcond : Z) : prog AutomataRunner unit :=
  debug_hook;;
  insn ← load_insn;
  if insn =? _ACT_IMPORT_VAR then import_variable;; check_end endcond
  else if insn =? _ACT_SET_EVENTID then insn_load_event_id;; check_end endcond
  else if insn =? _ACT_DEF_VAR then
    offset ← ip;
    newbit ← create_variable;
    check_end endcond;;
    on_core (declare_bit offset newbit)
  else if insn =? _ACT_SET_VAR_VALUE then
    arg ← load_insn;
    value ← load_insn;
    check_end endcond;;
    on_core (bit ← GetBit (Z.land arg 31); bit_SetState bit (Z.shiftr arg 5) value)
  else if is_insn _ACT_MISCA_BASE _ACT_MISCA_MASK insn then
    check_argument endcond;;
    arg ← load_insn;
    on_core (eval_action2 insn arg)
  else on_core (eval_action insn).

Fixpoint run_actions (fuel : nat) (endcond : Z) : fprog AutomataRunner unit :=
  fun s =>
    if ip_ s <? endcond then
      match fuel with
      | O => None
      | S fuel => (total (run_action endcond);; run_actions fuel endcond) s
      end
    else Some (Done tt s).

(** A header leaves at most 15 bytes to each of the inner loops. *)
Definition operation_fuel : nat := 16.

Definition run_operation (hdr : Z) : fprog AutomataRunner unit :=
  i ← total ip;
  let endif := u32 (i + Z.land hdr 0x0f) in
  let endcond := u32 (endif + Z.shiftr hdr 4) in
  keep ← run_conditions operation_fuel endif;
  if (keep : bool) then
    run_actions operation_fuel endcond;; total debug_hook
  else fmodify (set_ip endcond).

Fixpoint Run (fuel : nat) : fprog AutomataRunner unit :=
  match fuel with
  | O => fun _ => None
  | S fuel =>
      hdr ← total load_insn;
      if hdr =? 0 then mret tt
      else run_operation hdr;; Run fuel
  end.

(** Every operation takes at least a byte of the program. *)
Definition run_fuel : nat := S (length code).

(** ** Automata programs *)

(** What [ResetForAutomata] does but for the instruction pointer. *)
Definition reset_imports (a : nat) (c : Core) : Core :=
  set_imported (Some (TimerBit a) :: replicate (Z.to_nat (MAX_IMPORT_VAR - 1)) None)
    (replicate (Z.to_nat MAX_IMPORT_VAR) 0) (set_current_automata (Some a) c).

Definition ResetForAutomata (a : nat) : prog AutomataRunner unit :=
  x ← on_core (the_automata a);
  modify_state (fun s => set_ip (starting_offset_ x) (set_core (reset_imports a (core s)) s)).

(** The offset that a table entry stands for after the last one. *)
Definition final_offset (last_ofs last_raw_ofs ofs : Z) : Z :=
  let high := Z.land last_ofs (Z.lnot 0xffff) in
  Z.lor (if ofs <? last_raw_ofs then u32 (high + 0x10000) else high) ofs.

(** The loop over the table of automata. *)
Fixpoint read_automatas (fuel : nat) (id last_ofs last_raw_ofs : Z) : fprog AutomataRunner unit :=
  match fuel with
  | O => fun _ => None
  | S fuel =>
      lo ← total load_insn;
      hi ← total load_insn;
      let ofs := Z.lor lo (Z.shiftl hi 8) in
      if ofs =? 0 then mret tt
      else
        let final_ofs := final_offset last_ofs last_raw_ofs ofs in
        a ← total (on_core (new_automata id final_ofs));
        fmodify (fun s => set_core (set_all_automata (push_back (all_automata_ (core s)) a) (core s)) s);;
        read_automatas fuel (id + 1) final_ofs ofs
  end.

Definition CreateVarzAndAutomatas : fprog AutomataRunner unit :=
  fmodify (set_ip 0);;
  read_automatas run_fuel 0 0 0;;
  Run run_fuel.

Fixpoint for_automata (body : nat -> fprog AutomataRunner unit) (l : list nat)
    : fprog AutomataRunner unit :=
  match l with
  | [] => mret tt
  | a :: l => body a;; for_automata body l
  end.

Definition run_automata (a : nat) : fprog AutomataRunner unit :=
  total (ResetForAutomata a);; Run run_fuel.

Definition AddPendingTick (automata_on : bool) (c : Core) : Core :=
  if automata_on then set_pending_ticks (pending_ticks_ c + 1) c else c.

Definition apply_pending_tick : fprog AutomataRunner unit :=
  fun s =>
    if negb (pending_ticks_ (core s) =? 0) then
      (for_automata (fun a => total (on_core (Tick a))) (all_automata_ (core s));;
       fmodify (fun s => set_core (set_pending_ticks (pending_ticks_ (core s) - 1) (core s)) s)) s
    else Some (Done tt s).

Definition RunAllAutomata : fprog AutomataRunner unit :=
  apply_pending_tick;;
  (fun s => for_automata run_automata (all_automata_ (core s)) s) : fprog AutomataRunner unit.

(** The bits in the order of [declared_bits_], a map by offset. *)
Definition declared_in_order (c : Core) : list nat :=
  omap (fun k => declared_bits_ c !! k)
    (merge_sort Z.le (elements (dom (declared_bits_ c)))).

Definition InitializeState : fprog AutomataRunner unit :=
  CreateVarzAndAutomatas;;
  (fun s => for_automata (fun l => total (on_core (Initialize l)))
              (declared_in_order (core s)) s);;
  fmodify (fun s => set_core (set_pending_ticks 0 (core s)) s).

(** The notification of [Stop] deletes the automata and the bits. *)
Definition delete_all : fprog AutomataRunner unit :=
  fun s =>
    let c := core s in
    let c := set_automatas (foldr delete (automatas c) (all_automata_ c)) c in
    (for_automata (fun l => total (on_core (delete_bit l))) (declared_in_order c);;
     fmodify (fun s => set_core (set_declared_bits ∅ (core s)) s))
      (set_core (set_all_automata [] c) s).

End Runner.
