(* ===== verification/AutomataTermination.v ===== *)
(** The interpreter of the automata never hangs: every operation moves the
    instruction pointer forward and no instruction moves it back, so a run ends
    within the bytes of the program, whatever they are. *)

From S2P Require Import Prelude AutomataDefs Automata.

(** ** Progress *)

Section Termination.
Context {V W : Type} `{VV : !Velocity V} `{NN : !Node V W}.
Context (code : list Z) (Hcode : zlen code < 2 ^ 31).

Implicit Types (s : AutomataRunner (V := V) (W := W)).

(** [m] takes at least [n] bytes of the program. *)
Definition moves {A} (n : Z) (m : prog AutomataRunner A) : Prop :=
  forall s a s', m s = Done a s' -> ip_ s + n <= ip_ s'.

Lemma moves_ret {A} (a : A) : moves 0 (mret a).
Proof. intros s a' s' [= _ <-]. lia. Qed.

Lemma moves_bind {A B} n1 n2 (m : prog AutomataRunner A) (k : A -> prog AutomataRunner B) :
  moves n1 m -> (forall a, moves n2 (k a)) -> moves (n1 + n2) (m ≫= k).
Proof.
  intros Hm Hk s b s' E. apply bind_Done in E as (a & s1 & E1 & E).
  apply Hm in E1. apply Hk in E. lia.
Qed.

Lemma moves_weaken {A} n n' (m : prog AutomataRunner A) : moves n m -> n' <= n -> moves n' m.
Proof. intros Hm Hn s a s' E. apply Hm in E. lia. Qed.

(** The continuation may also just not go back. *)
Lemma moves_then {A B} n (m : prog AutomataRunner A) (k : A -> prog AutomataRunner B) :
  moves n m -> (forall a, moves 0 (k a)) -> moves n (m ≫= k).
Proof.
  intros Hm Hk. eapply moves_weaken; [by eapply moves_bind|lia].
Qed.

Lemma moves_skip {A B} n (m : prog AutomataRunner A) (k : A -> prog AutomataRunner B) :
  moves 0 m -> (forall a, moves n (k a)) -> moves n (m ≫= k).
Proof. intros Hm Hk. eapply moves_weaken; [by eapply moves_bind|lia]. Qed.

Lemma moves_on_core {A} (m : prog Core A) : moves 0 (on_core m).
Proof. intros s a s'. unfold on_core. destruct (m (core s)); [|done..]. intros [= _ <-]. simpl. lia. Qed.

Lemma moves_crashing {A} c : moves 0 (crashing (A := A) c).
Proof. by intros s a s'. Qed.

Lemma load_insn_Done s insn s' :
  load_insn code s = Done insn s' ->
  znth code (ip_ s) = Some insn /\ s' = set_ip (ip_ s + 1) s /\ 0 <= ip_ s < zlen code.
Proof.
  unfold load_insn, array_get, mbind, prog_bind.
  destruct (znth code (ip_ s)) as [b|] eqn:E; [|done]. intros [= <- <-].
  pose proof (znth_is_Some code (ip_ s)) as Hr. rewrite E in Hr.
  destruct Hr as [Hr _]. specialize (Hr (ex_intro _ b eq_refl)).
  split; [done|]. rewrite u32_small by (unfold is_uint32; lia). done.
Qed.

Lemma moves_load : moves 1 (load_insn code).
Proof. intros s a s' (_ & -> & _)%load_insn_Done. simpl. lia. Qed.

Lemma moves_ip : moves 0 ip.
Proof. intros s a s' [= _ <-]. lia. Qed.

Lemma moves_debug_hook : moves 0 debug_hook.
Proof.
  intros s a s'. unfold debug_hook. destruct (_ =? 0); [intros [= _ <-]; simpl; lia|].
  destruct (negb _); intros [= _ <-]; simpl; lia.
Qed.

End Termination.

Create HintDb moves.
#[export] Hint Resolve moves_ret moves_on_core moves_crashing moves_ip moves_debug_hook : moves.
#[export] Hint Extern 1 (moves 1 (load_insn _)) => (apply moves_load; assumption) : moves.
#[export] Hint Extern 2 (moves 0 (load_insn _)) =>
  (eapply moves_weaken; [apply moves_load; assumption|lia]) : moves.
#[export] Hint Extern 3 (moves 0 (_ ≫= _)) => (apply moves_then; [|intros ?]) : moves.
#[export] Hint Extern 3 (moves 0 (if ?b then _ else _)) => destruct b : moves.
#[export] Hint Extern 1 (moves 0 (diewith _)) => apply moves_crashing : moves.

Section Rounds.
Context {V W : Type} `{VV : !Velocity V} `{NN : !Node V W}.
Context (code : list Z) (Hcode : zlen code < 2 ^ 31) (Hbytes : Forall is_uint8 code).

Implicit Types (s : AutomataRunner (V := V) (W := W)).

Lemma moves_load_event n dest : moves (V := V) (W := W) 0 (load_event_bytes code n dest).
Proof. induction n as [|n IH]; simpl; auto 20 with moves. Qed.

Lemma moves_condition endif : moves (V := V) (W := W) 1 (run_condition code endif).
Proof.
  unfold run_condition, check_argument. apply moves_skip; [auto with moves|]. intros _.
  apply moves_then; auto 20 with moves.
Qed.

Lemma moves_action endcond : moves (V := V) (W := W) 1 (run_action code endcond).
Proof.
  unfold run_action, check_argument, check_end, import_variable, insn_load_event_id, create_variable.
  apply moves_skip; [auto with moves|]. intros _.
  apply moves_then; [auto with moves|]. intros insn.
  pose proof moves_load_event. auto 30 with moves.
Qed.

(** A loop over the bytes up to [end_] of one operation. *)
Lemma run_conditions_total fuel end_ s :
  end_ - ip_ s <= Z.of_nat fuel ->
  exists o, run_conditions code fuel end_ s = Some o /\
    match o with
    | Done b s' => ip_ s <= ip_ s' /\ (b = true -> end_ <= ip_ s')
    | _ => True
    end.
Proof.
  revert s. induction fuel as [|fuel IH]; intros s Hf; cbn [run_conditions];
    (destruct (Z.ltb_spec (ip_ s) end_); [|eexists; split; [done|simpl; lia]]); [lia|].
  unfold mbind, fprog_bind, total.
  destruct (run_condition code end_ s) as [b s1|s1|k] eqn:E; [|by eexists..].
  apply moves_condition in E. destruct b; [|eexists; split; [done|simpl; split; [lia|done]]].
  destruct (IH s1) as (o & -> & Ho); [lia|]. exists o. split; [done|].
  destruct o; [split; [lia|apply Ho]|done..].
Qed.

Lemma run_actions_total fuel end_ s :
  end_ - ip_ s <= Z.of_nat fuel ->
  exists o, run_actions code fuel end_ s = Some o /\
    match o with Done _ s' => ip_ s <= ip_ s' | _ => True end.
Proof.
  revert s. induction fuel as [|fuel IH]; intros s Hf; cbn [run_actions];
    (destruct (Z.ltb_spec (ip_ s) end_); [|eexists; split; [done|simpl; lia]]); [lia|].
  unfold mbind, fprog_bind, total.
  destruct (run_action code end_ s) as [b s1|s1|k] eqn:E; [|by eexists..].
  apply moves_action in E.
  destruct (IH s1) as (o & -> & Ho); [lia|]. exists o. split; [done|].
  destruct o; [lia|done..].
Qed.

(** [m] ends, and does not go back. *)
Definition ends {A} (m : fprog AutomataRunner A) s : Prop :=
  exists o, m s = Some o /\ match o with Done _ s' => ip_ s <= ip_ s' | _ => True end.

Lemma ends_bind {A B} (m : fprog AutomataRunner A) (k : A -> fprog AutomataRunner B) s :
  ends m s -> (forall a s', m s = Some (Done a s') -> ip_ s <= ip_ s' -> ends (k a) s') ->
  ends (m ≫= k) s.
Proof.
  intros (o & E & Ho) Hk. unfold ends, mbind, fprog_bind. rewrite E.
  destruct o as [a s'|s'|c]; [|by eexists..].
  destruct (Hk a s' E Ho) as (o & -> & Ho'). exists o. split; [done|]. destruct o; [lia|done..].
Qed.

Lemma ends_total {A} (m : prog AutomataRunner A) s : moves 0 m -> ends (total m) s.
Proof.
  intros Hm. unfold ends, total. exists (m s). split; [done|].
  destruct (m s) eqn:E; [|done..]. apply Hm in E. lia.
Qed.

Lemma header_range hdr : is_uint8 hdr -> 0 <= Z.land hdr 0x0f <= 15 /\ 0 <= Z.shiftr hdr 4 <= 15.
Proof.
  unfold is_uint8. intros Hh. replace (Z.land hdr 0x0f) with (Z.land hdr (Z.ones 4)) by done.
  rewrite Z.land_ones, Z.shiftr_div_pow2 by lia.
  pose proof (Z.mod_pos_bound hdr (2 ^ 4)). split; [lia|]. split.
  - apply Z.div_pos; lia.
  - assert (hdr / 2 ^ 4 < 16); [|lia]. apply Z.div_lt_upper_bound; lia.
Qed.

Lemma operation_ends hdr s :
  is_uint8 hdr -> 0 <= ip_ s <= zlen code -> ends (run_operation code hdr) s.
Proof.
  intros Hh Hs. apply header_range in Hh as [Hif Hact]. unfold run_operation.
  apply ends_bind; [apply ends_total; auto with moves|]. intros i s0 [= <- <-] _.
  revert Hif Hact. generalize (Z.land hdr 0x0f) (Z.shiftr hdr 4). intros n1 n2 Hif Hact.
  rewrite (u32_small (ip_ s + n1)), (u32_small (ip_ s + n1 + n2)) by (unfold is_uint32; lia).
  destruct (run_conditions_total operation_fuel (ip_ s + n1) s) as (o & Eo & Ho).
  { unfold operation_fuel. lia. }
  unfold ends, mbind, fprog_bind at 1. rewrite Eo.
  destruct o as [keep s1|s1|c]; [|by eexists..]. destruct Ho as [Hs1 Hend], keep.
  - specialize (Hend eq_refl). assert (He : ends (run_actions code operation_fuel (ip_ s + n1 + n2);; total debug_hook) s1).
    { apply ends_bind.
      - apply run_actions_total. unfold operation_fuel. lia.
      - intros [] s2 _ _. apply ends_total. auto with moves. }
    destruct He as (o & E & Hle). exists o. split; [exact E|]. destruct o; [lia|done..].
  - eexists. split; [done|]. simpl. lia.
Qed.

(** Loading moves on by one byte and stays within the program. *)
Lemma ends_load {A} (k : Z -> fprog AutomataRunner A) s :
  (forall insn, is_uint8 insn -> 0 <= ip_ s < zlen code -> ends (k insn) (set_ip (ip_ s + 1) s)) ->
  exists o, (total (load_insn code) ≫= k) s = Some o /\
    match o with Done _ s' => ip_ s <= ip_ s' | _ => True end.
Proof.
  intros Hk. apply ends_bind; [apply ends_total; auto with moves|].
  intros insn s1 E _. injection E as E. apply load_insn_Done in E as (Hi & -> & Hr); [|done].
  apply Hk; [|done]. unfold znth in Hi. destruct (0 <=? ip_ s); [|done].
  by eapply Forall_lookup_1 in Hi.
Qed.

(** The fuel covers the rest of the program. *)
Lemma Run_ends fuel s :
  (1 <= fuel)%nat -> zlen code - ip_ s < Z.of_nat fuel -> ends (Run code fuel) s.
Proof.
  revert s. induction fuel as [|fuel IH]; intros s Hf1 Hf; [lia|]. simpl.
  apply ends_load. intros hdr Hh Hr. destruct (hdr =? 0).
  - eexists. split; [done|]. simpl. lia.
  - apply ends_bind; [apply operation_ends; [done|simpl; lia]|].
    intros [] s' _ Hs'. simpl in Hs'. apply IH; lia.
Qed.

Lemma Run_total s : 0 <= ip_ s -> ends (Run code (run_fuel code)) s.
Proof. intros Hs. apply Run_ends; unfold run_fuel, zlen; lia. Qed.

Lemma read_automatas_ends fuel id last_ofs last_raw_ofs s :
  (1 <= fuel)%nat -> zlen code - ip_ s < Z.of_nat fuel ->
  ends (read_automatas code fuel id last_ofs last_raw_ofs) s.
Proof.
  revert id last_ofs last_raw_ofs s. induction fuel as [|fuel IH]; intros id lo lro s Hf1 Hf; [lia|].
  simpl. apply ends_load. intros b1 _ Hr. apply ends_load. intros b2 _ Hr2.
  simpl in Hr2. destruct (_ =? 0); [eexists; split; [done|simpl; lia]|].
  apply ends_bind; [apply ends_total; auto with moves|]. intros a s1 _ Hs1. simpl in Hs1.
  apply ends_bind; [eexists; split; [done|simpl; lia]|]. intros [] s2 [= <-] _.
  apply IH; simpl; lia.
Qed.

(** A pointer before the program stops at once. *)
Lemma Run_defined s : exists o, Run code (run_fuel code) s = Some o.
Proof.
  destruct (Z.le_gt_cases 0 (ip_ s)) as [Hs|Hs].
  - destruct (Run_total s Hs) as (o & E & _). by exists o.
  - exists (Crashed OutOfBounds). unfold run_fuel. simpl. unfold mbind, fprog_bind, total, load_insn.
    unfold mbind, prog_bind, array_get, znth. by destruct (Z.leb_spec 0 (ip_ s)); [lia|].
Qed.

End Rounds.

(** ** Everything terminates *)

Section Total.
Context {V W : Type} `{VV : !Velocity V} `{NN : !Node V W}.
Context (code : list Z) (Hcode : zlen code < 2 ^ 31) (Hbytes : Forall is_uint8 code).

Implicit Types (s : AutomataRunner (V := V) (W := W)).

Lemma defined_bind {A B} (m : fprog AutomataRunner A) (k : A -> fprog AutomataRunner B) s :
  (exists o, m s = Some o) -> (forall a s', exists o, k a s' = Some o) ->
  exists o, (m ≫= k) s = Some o.
Proof.
  intros [o E] Hk. unfold mbind, fprog_bind. rewrite E. destruct o; [apply Hk|by eexists..].
Qed.

Lemma for_automata_defined body l s :
  (forall a s, exists o, body a s = Some o) -> exists o, for_automata body l s = Some o.
Proof.
  intros Hb. revert s. induction l as [|a l IH]; intros s; [by eexists|].
  simpl. apply defined_bind; [apply Hb|]. intros [] s'. apply IH.
Qed.

Lemma RunAllAutomata_defined s : exists o, RunAllAutomata code s = Some o.
Proof.
  apply defined_bind.
  - unfold apply_pending_tick. destruct (negb _); [|by eexists].
    apply defined_bind; [|by eexists]. apply for_automata_defined. by eexists.
  - intros [] s1. apply for_automata_defined. intros a s2. apply defined_bind; [by eexists|].
    intros [] s3. by apply Run_defined.
Qed.

Lemma CreateVarzAndAutomatas_defined s : exists o, CreateVarzAndAutomatas code s = Some o.
Proof.
  unfold CreateVarzAndAutomatas, mbind, fprog_bind, fmodify.
  assert (He : ends (read_automatas code (run_fuel code) 0 0 0) (set_ip 0 s)).
  { apply read_automatas_ends; [done|done|unfold run_fuel; lia|unfold run_fuel, zlen; simpl; lia]. }
  destruct He as (o & -> & Ho). destruct o; [|by eexists..]. by apply Run_defined.
Qed.

(** C34: Nothing the automata are given hangs the runner: whatever the bytes
    of the program are, creating its variables, initializing them and each round
    of all automata ends. *)
Theorem automata_terminate s :
  (exists o, InitializeState code s = Some o) /\ (exists o, RunAllAutomata code s = Some o).
Proof.
  split; [|apply RunAllAutomata_defined].
  unfold InitializeState. apply defined_bind; [apply CreateVarzAndAutomatas_defined|].
  intros [] s1. apply defined_bind; [|by eexists]. apply for_automata_defined. by eexists.
Qed.

End Total.
