(* ===== verification/AutomataOps.v ===== *)
(** The builder of automata programs: operations (src/automata/operations.hxx),
    the automata and boards they belong to (src/automata/system.hxx,
    system.cpp) and global variables (src/automata/variables.hxx).

    An [Op] collects conditions and actions and writes them as one operation
    when it is destroyed.  A board renders a table of automata, the
    declarations of its variables, and the automata. *)

From S2P Require Import Prelude AutomataDefs.

(** ** Operations *)

(** [Automata::Op]; [output_] tells whether there is an output, since bodies
    are also run without one. *)
Record Op := mkOp {
  output_ : bool;
  ifs_ : list Z;
  acts_ : list Z
}.

Definition push_if (byte : Z) : prog Op unit :=
  modify_state (fun o => mkOp (output_ o) (push_back (ifs_ o) byte) (acts_ o)).

Definition push_act (byte : Z) : prog Op unit :=
  modify_state (fun o => mkOp (output_ o) (ifs_ o) (push_back (acts_ o) byte)).

Definition hassert {S} (b : bool) : prog S unit :=
  if b then mret tt else crashing AssertFailed.

(** [LocalVariable::GetId]; an [id] that was not assigned is -1. *)
Definition LocalVariable_GetId {S} (id : Z) : prog S Z :=
  hassert ((0 <=? id) && (id <? 32));; mret id.

(** [if (output_) v |= var.GetId()] *)
Definition with_id (v id : Z) : prog Op Z :=
  fun o =>
    if output_ o then (i ← LocalVariable_GetId id; mret (Z.lor v i)) o else Done v o.

Definition GET_INVERSE_MASK (x : Z) : Z := Z.land (Z.lnot x) (x - 1).

Definition state_fits (state : Z) : bool :=
  Z.land state (GET_INVERSE_MASK _IF_STATE_MASK) =? state.

Definition IfState (state : Z) : prog Op unit :=
  hassert (state_fits state);; push_if (Z.lor _IF_STATE state).

Definition IfReg (var : Z) (value : bool) : prog Op unit :=
  v ← with_id (if value then Z.lor _IF_REG _REG_1 else _IF_REG) var; push_if v.

Definition IfReg0 (var : Z) : prog Op unit := v ← with_id _IF_REG var; push_if v.
Definition IfReg1 (var : Z) : prog Op unit := v ← with_id (Z.lor _IF_REG _REG_1) var; push_if v.

Definition MaybeIfReg (enabled : bool) (var : Z) (value : bool) : prog Op unit :=
  if negb enabled then mret tt else IfReg var value.

Definition ActReg (var : Z) (value : bool) : prog Op unit :=
  v ← with_id (if value then Z.lor _ACT_REG _REG_1 else _ACT_REG) var; push_act v.

Definition ActReg0 (var : Z) : prog Op unit := v ← with_id _ACT_REG var; push_act v.
Definition ActReg1 (var : Z) : prog Op unit := v ← with_id (Z.lor _ACT_REG _REG_1) var; push_act v.

Definition MaybeActReg (enabled : bool) (var : Z) (value : bool) : prog Op unit :=
  if negb enabled then mret tt else ActReg var value.

Definition ActState (state : Z) : prog Op unit :=
  hassert (state_fits state);; push_act (Z.lor _ACT_STATE state).

(** The timer bit of the automata is its local variable 0. *)
Definition timer_bit_ : Z := 0.

Definition IfTimerNotDone : prog Op unit := IfReg1 timer_bit_.
Definition IfTimerDone : prog Op unit := IfReg0 timer_bit_.

Definition ActTimer (seconds : Z) : prog Op unit :=
  hassert (Z.land seconds _ACT_TIMER_MASK =? 0);; push_act (u8 (Z.lor _ACT_TIMER seconds)).

Definition ActSetAspect (value : Z) : prog Op unit := push_act _ACT_SET_ASPECT;; push_act value.
Definition ActUpAspect : prog Op unit := push_act _ACT_UP_ASPECT.
Definition IfAspect (value : Z) : prog Op unit := push_if _IF_ASPECT;; push_if value.

(** The argument byte of the operations on byte variables. *)
Definition value_argument (var offset : Z) : prog Op unit :=
  hassert ((0 <=? offset) && (offset <? 8));;
  v ← with_id (u8 (Z.shiftl offset 5)) var;
  push_act v.

Definition ActSetValue (var offset value : Z) : prog Op unit :=
  push_act _ACT_SET_VAR_VALUE;; value_argument var offset;; push_act value.

Definition ActSetValueFromAspect (var offset : Z) : prog Op unit :=
  push_act _ACT_SET_VAR_VALUE_ASPECT;; value_argument var offset.

Definition ActGetValueToAspect (var offset : Z) : prog Op unit :=
  push_act _ACT_GET_VAR_VALUE_ASPECT;; value_argument var offset.

Definition ActGetValueToSpeed (var offset : Z) : prog Op unit :=
  push_act _ACT_GET_VAR_VALUE_SPEED;; value_argument var offset.

(** The bytes of an event ID, the highest first. *)
Definition event_bytes (id : Z) : list Z :=
  List.map (fun b => Z.land (Z.shiftr id b) 0xff) [56; 48; 40; 32; 24; 16; 8; 0].

Fixpoint push_acts (l : list Z) : prog Op unit :=
  match l with
  | [] => mret tt
  | b :: l => push_act b;; push_acts l
  end.

Definition ActSetId (id : Z) : prog Op unit :=
  push_act _ACT_SET_EVENTID;; push_act 0x07;; push_acts (event_bytes id).

Definition ActLoadSpeed (is_forward : bool) (mph : Z) : prog Op unit :=
  let mph := if 127 <? mph then 127 else mph in
  push_act _ACT_IMM_SPEED;;
  push_act (if is_forward then mph else Z.lor mph 0x80).

Definition IfGetSpeed : prog Op unit := push_if _GET_TRAIN_SPEED.
Definition IfSetSpeed : prog Op unit := push_if _SET_TRAIN_SPEED.
Definition IfSpeedIsForward : prog Op unit := push_if _IF_FORWARD.
Definition IfSpeedIsReverse : prog Op unit := push_if _IF_REVERSE.
Definition ActSpeedForward : prog Op unit := push_act _ACT_SPEED_FORWARD.
Definition ActSpeedReverse : prog Op unit := push_act _ACT_SPEED_REVERSE.
Definition ActDirectionFlip : prog Op unit := push_act _ACT_SPEED_FLIP.
Definition IfSetEStop : prog Op unit := push_if _IF_EMERGENCY_STOP.
Definition IfClearEStop : prog Op unit := push_if _IF_EMERGENCY_START.

(** A callback is a program on the operation; there may be none. *)
Definition RunCallback (cb : option (prog Op unit)) : prog Op unit :=
  match cb with
  | Some cb => cb
  | None => mret tt
  end.

(** [GlobalVariableId]. *)
Record GlobalVariableId := mkGlobalId {
  gid_id : Z;
  gid_arg : Z
}.

(** [var.GetId()] asserts that the id was assigned ([None]). *)
Definition GetId {S} (var : option GlobalVariableId) : prog S GlobalVariableId :=
  match var with
  | Some i => mret i
  | None => crashing AssertFailed
  end.

Definition ActImportVariable (var : option GlobalVariableId) (local_id : Z) : prog Op unit :=
  hassert (0 <=? local_id);;
  push_act _ACT_IMPORT_VAR;;
  i ← (fun o : Op => if output_ o then GetId var o else Done (mkGlobalId 0 0) o);
  let arg := u16 (gid_arg i) in
  hassert (arg <? Z.shiftl 8 8);;
  let b1 := Z.shiftl (Z.shiftr arg 8) 5 in
  hassert (local_id <? 32);;
  push_act (Z.lor b1 (Z.land local_id 31));;
  push_act (Z.land arg 0xff);;
  push_act (Z.land (gid_id i) 0xff);;
  push_act (Z.land (Z.shiftr (gid_id i) 8) 0xff).

(** What the destructor of [Op] does with the output. *)
Definition CreateOperation (ifs acts : list Z) : prog (option (list Z)) unit :=
  hassert (zlen ifs <? 16);;
  hassert (zlen acts <? 16);;
  modify_state (fun output =>
    match output with
    | None => None
    | Some out =>
        let hdr := Z.lor (u8 (Z.shiftl (Z.land (zlen acts) 0xf) 4)) (Z.land (zlen ifs) 0xf) in
        Some (push_back out hdr ++ ifs ++ acts)
    end).

(** [Op(parent, output)...;] for a program on the operation. *)
Definition make_op (m : prog Op unit) : prog (option (list Z)) unit :=
  fun output =>
    match m (mkOp (bool_decide (is_Some output)) [] []) with
    | Done _ o => CreateOperation (ifs_ o) (acts_ o) output
    | Failed _ => Failed output
    | Crashed c => Crashed c
    end.

(** ** Automata *)

(** [automata::Automata].  Global variables are numbered; the key [None] of
    [used_variables_] is the [NULL] under which the timer bit is kept. *)
Record AutomataDef := mkDef {
  aut_output_ : option (list Z);
  used_variables_ : gmap (option nat) Z;
  reserved_variables_ : gset Z;
  next_variable_id_ : Z;
  next_user_state_ : Z
}.

Definition set_output (o : option (list Z)) (a : AutomataDef) : AutomataDef :=
  mkDef o (used_variables_ a) (reserved_variables_ a) (next_variable_id_ a) (next_user_state_ a).
Definition set_used (m : gmap (option nat) Z) (a : AutomataDef) : AutomataDef :=
  mkDef (aut_output_ a) m (reserved_variables_ a) (next_variable_id_ a) (next_user_state_ a).
Definition set_next_variable_id (n : Z) (a : AutomataDef) : AutomataDef :=
  mkDef (aut_output_ a) (used_variables_ a) (reserved_variables_ a) n (next_user_state_ a).

Definition ClearUsedVariables (a : AutomataDef) : AutomataDef :=
  mkDef (aut_output_ a) {[None := timer_bit_]} (reserved_variables_ a) 1 (next_user_state_ a).

Definition FIRST_USER_STATE_ID : Z := 10.

Definition AutomataDef_new : AutomataDef :=
  ClearUsedVariables (mkDef None ∅ ∅ 1 FIRST_USER_STATE_ID).

(** [Def()] followed by calls on the operation. *)
Definition Def (m : prog Op unit) : prog AutomataDef unit :=
  fun a =>
    match make_op m (aut_output_ a) with
    | Done _ out => Done tt (set_output out a)
    | Failed _ => Failed a
    | Crashed c => Crashed c
    end.

(** The loop that skips reserved ids: at most 32 of them are below
    [MAX_IMPORT_VAR]. *)
Fixpoint skip_reserved (fuel : nat) (reserved : gset Z) (n : Z) : Z :=
  match fuel with
  | O => n
  | S fuel => if bool_decide (n ∈ reserved) then skip_reserved fuel reserved (n + 1) else n
  end.

Definition GetNextVariableId : prog AutomataDef Z :=
  fun a =>
    let n := skip_reserved 32 (reserved_variables_ a) (next_variable_id_ a) in
    (hassert (n <? MAX_IMPORT_VAR);; mret n) (set_next_variable_id (n + 1) a).

Definition RenderImportVariable (var : option GlobalVariableId) (local_id : Z)
    : prog AutomataDef unit :=
  Def (ActImportVariable var local_id).

(** [ImportVariable] of the global variable with number [key]. *)
Definition ImportVariable (key : nat) (var : option GlobalVariableId) : prog AutomataDef Z :=
  fun a =>
    match used_variables_ a !! Some key with
    | Some id => Done id a
    | None =>
        (next_id ← GetNextVariableId;
         modify_state (fun a => set_used (<[Some key := next_id]> (used_variables_ a)) a);;
         hassert (next_id <? MAX_IMPORT_VAR);;
         RenderImportVariable var next_id;;
         mret next_id) a
    end.

Definition ReserveVariable : prog AutomataDef Z :=
  id ← GetNextVariableId;
  modify_state (fun a =>
    mkDef (aut_output_ a) (used_variables_ a) ({[id]} ∪ reserved_variables_ a)
      (next_variable_id_ a) (next_user_state_ a));;
  mret id.

Definition NewUserState : prog AutomataDef Z :=
  fun a =>
    let id := next_user_state_ a in
    (hassert (Z.land id _IF_STATE_MASK =? 0);; mret id)
      (mkDef (aut_output_ a) (used_variables_ a) (reserved_variables_ a) (next_variable_id_ a)
         (id + 1)).

Definition DefCopy (src dst : Z) (condition : option (prog Op unit)) : prog AutomataDef unit :=
  Def (RunCallback condition;; IfReg0 src;; IfReg1 dst;; ActReg0 dst);;
  Def (RunCallback condition;; IfReg1 src;; IfReg0 dst;; ActReg1 dst).

Definition DefNCopy (src dst : Z) (condition : option (prog Op unit)) : prog AutomataDef unit :=
  Def (RunCallback condition;; IfReg0 src;; IfReg0 dst;; ActReg1 dst);;
  Def (RunCallback condition;; IfReg1 src;; IfReg1 dst;; ActReg0 dst).

(** [Automata::Render] of an automata with the given [Body]. *)
Definition Render (body : prog AutomataDef unit) (output : option (list Z))
    : prog AutomataDef (option (list Z)) :=
  modify_state (set_output output);;
  modify_state ClearUsedVariables;;
  body;;
  a ← get_state;
  modify_state (set_output None);;
  mret (match aut_output_ a with Some out => Some (push_back out 0) | None => None end).

(** ** Global variables *)

(** The constants of src/cs/src/base.h. *)
Definition LEN_AUTOMATA : Z := 3.
Definition OFS_BITS : Z := 2.

(** The client, offset and bit of the variable with a number. *)
Definition DecodeOffset (counter : Z) : option (Z * Z * Z) :=
  let bit := Z.land counter 7 in
  let autid := Z.shiftr counter 3 in
  let client := Z.shiftr autid 3 in
  let autofs := Z.land autid 7 in
  let offset := autofs * LEN_AUTOMATA + OFS_BITS in
  if client <? 8 then Some (client, offset, bit) else None.

Inductive GlobalVariable :=
| EventBasedVariable (event_on event_off arg1 arg2 : Z)
| EventBlock (event_base size : Z)
| SignalVariable (event_base signal_id : Z)
| ByteImportVariable (event_base default_value : Z).

(** The constructors of [EventBasedVariable]; the first one asserts that the
    number fits. *)
Definition EventBasedVariable_args (event_on event_off client offset bit : Z) : GlobalVariable :=
  EventBasedVariable event_on event_off (Z.lor (Z.shiftl 0 5) (Z.land client 0x1f))
    (u8 (Z.lor (Z.shiftl offset 3) (Z.land bit 7))).

Definition EventBasedVariable_new (event_on event_off counter : Z) : option GlobalVariable :=
  '(client, offset, bit) ← DecodeOffset counter;
  mret (EventBasedVariable_args event_on event_off client offset bit).

(** [EventBlock::SetMinSize] on the size, a [uint16_t]. *)
Definition SetMinSize (size_ size : Z) : Z := if size_ <=? size then u16 (size + 1) else size_.

Definition append_op (ifs acts : list Z) : prog (list Z) unit :=
  fun out => match CreateOperation ifs acts (Some out) with
  | Done _ (Some out) => Done tt out
  | Done _ None | Failed _ => Failed out
  | Crashed c => Crashed c
  end.

(** [CreateEventId]. *)
Definition CreateEventId (dst eventid : Z) : prog (list Z) unit :=
  append_op []
    (_ACT_SET_EVENTID :: (if dst =? 0 then 0x07 else 0x57) :: event_bytes eventid).

(** [RenderHelper]; the answer is the id of the variable: the offset behind
    the header of the operation and its first byte. *)
Definition RenderHelper (arg1 arg2 : Z) : prog (list Z) Z :=
  out ← get_state;
  append_op [] [_ACT_DEF_VAR; arg1; arg2];;
  mret (zlen out + 2).

(** [Op(nullptr, output)...;] in the preamble. *)
Definition preamble_op (m : prog Op unit) : prog (list Z) unit :=
  fun out =>
    match make_op m (Some out) with
    | Done _ (Some out) => Done tt out
    | Done _ None | Failed _ => Failed out
    | Crashed c => Crashed c
    end.

(** The local id under which the preamble imports a byte variable. *)
Definition fixed_var : Z := 30.

(** [Render] of a variable, which appends its declaration and sets its id. *)
Definition Render_variable (v : GlobalVariable) : prog (list Z) Z :=
  match v with
  | EventBasedVariable event_on event_off arg1 arg2 =>
      CreateEventId 1 event_on;;
      CreateEventId 0 event_off;;
      RenderHelper arg1 arg2
  | EventBlock event_base size =>
      CreateEventId 0 event_base;;
      hassert (size <? Z.shiftl 8 8);;
      RenderHelper (Z.lor (Z.shiftl 1 5) (Z.land (Z.shiftr size 8) 7)) (Z.land size 0xff)
  | SignalVariable event_base signal_id =>
      CreateEventId 0 event_base;;
      id ← RenderHelper (Z.shiftl 2 5) 2;
      preamble_op (ActImportVariable (Some (mkGlobalId id 0)) fixed_var);;
      preamble_op (ActSetValue fixed_var 0 signal_id);;
      mret id
  | ByteImportVariable event_base default_value =>
      CreateEventId 0 event_base;;
      id ← RenderHelper (Z.shiftl 3 5) 1;
      preamble_op (ActImportVariable (Some (mkGlobalId id 0)) fixed_var);;
      preamble_op (ActSetValue fixed_var 0 default_value);;
      mret id
  end.

(** ** Boards *)

(** [Body] of an automata may ask for the ids of the variables. *)
Definition Body : Type := (nat -> option Z) -> prog AutomataDef unit.

(** [Board::AutomataInfo]. *)
Record AutomataInfo := mkInfo {
  automata : AutomataDef;
  automata_body : Body;
  ptr_offset : Z;
  offset : Z
}.

(** [ids] are the ids of [global_variables_], as far as they are assigned. *)
Record Board := mkBoard {
  automatas_ : list AutomataInfo;
  global_variables_ : list GlobalVariable;
  ids : list Z
}.

Definition no_ids : nat -> option Z := fun _ => None.

(** The first loop of [RenderPreamble]: pointers to be filled in later. *)
Fixpoint render_table (l : list AutomataInfo) (out : list Z) : list AutomataInfo * list Z :=
  match l with
  | [] => ([], out ++ [0; 0])
  | i :: l =>
      let '(l, out') := render_table l (out ++ [0; 0]) in
      (mkInfo (automata i) (automata_body i) (zlen out) (offset i) :: l, out')
  end.

(** All bodies are run once without output. *)
Fixpoint render_dry (l : list AutomataInfo) : outcome unit (list AutomataInfo) :=
  match l with
  | [] => Done [] tt
  | i :: l =>
      match Render (automata_body i no_ids) None (automata i) with
      | Done _ a =>
          match render_dry l with
          | Done l _ => Done (mkInfo a (automata_body i) (ptr_offset i) (offset i) :: l) tt
          | Failed _ => Failed tt
          | Crashed c => Crashed c
          end
      | Failed _ => Failed tt
      | Crashed c => Crashed c
      end
  end.

Fixpoint render_variables (l : list GlobalVariable) : prog (list Z) (list Z) :=
  match l with
  | [] => mret []
  | v :: l => id ← Render_variable v; ids ← render_variables l; mret (id :: ids)
  end.

(** [RenderPreamble], after the automata were validated. *)
Definition RenderPreamble (b : Board) : prog (list Z) Board :=
  fun out =>
    let '(l, out) := render_table (automatas_ b) out in
    match render_dry l with
    | Done l _ =>
        ((ids ← render_variables (global_variables_ b);
          modify_state (fun out => push_back out 0);;
          mret (mkBoard l (global_variables_ b) ids)) : prog (list Z) Board) out
    | Failed _ => Failed out
    | Crashed c => Crashed c
    end.

(** The pointer of an automata in the table, little-endian. *)
Definition patch_pointer (ptr ofs : Z) (out : list Z) : list Z :=
  zset (zset out ptr (Z.land ofs 0xff)) (ptr + 1) (Z.land (Z.shiftr ofs 8) 0xff).

Definition render_automata (ids : list Z) (i : AutomataInfo) : prog (list Z) AutomataInfo :=
  fun out =>
    match Render (automata_body i (fun n => ids !! n)) (Some out) (automata i) with
    | Done (Some out') a =>
        Done (mkInfo a (automata_body i) (ptr_offset i) (zlen out))
          (patch_pointer (ptr_offset i) (zlen out) out')
    | Done None _ | Failed _ => Failed out
    | Crashed c => Crashed c
    end.

Fixpoint RenderAutomatas (ids : list Z) (l : list AutomataInfo) : prog (list Z) (list AutomataInfo) :=
  match l with
  | [] => mret []
  | i :: l => i ← render_automata ids i; l ← RenderAutomatas ids l; mret (i :: l)
  end.

Definition Board_Render (b : Board) : prog (list Z) Board :=
  b ← RenderPreamble b;
  l ← RenderAutomatas (ids b) (automatas_ b);
  mret (mkBoard l (global_variables_ b) (ids b)).
