(* ===== verification/AutomataSim.v ===== *)
(** What an automata program means: conditions and actions as data, their
    effect on the members of the runner, and the theorem that the interpreter of
    [Automata.v] runs their bytes as that. *)

From S2P Require Import Prelude AutomataDefs Automata AutomataTermination AutomataOps.

(** ** Instructions *)

Inductive Condition :=
| TestState (state : Z)
| TestReg (var : Z) (value : bool)
| TestAspect (value : Z)
| QuerySpeed
| CommandSpeed
| TestForward
| TestReverse
| StopEmergency
| StartEmergency.

Inductive Action :=
| ChangeState (state : Z)
| ChangeTimer (value : Z)
| WriteReg (var : Z) (value : bool)
| ChangeAspect (value : Z)
| RaiseAspect
| SetValue (var ofs value : Z)
| SetValueFromAspect (var ofs : Z)
| GetValueToAspect (var ofs : Z)
| GetValueToSpeed (var ofs : Z)
| LoadEvent (dst : Z) (id : Z)
| LoadSpeed (value : Z)
| SpeedForward
| SpeedReverse
| SpeedFlip
| Import (var arg gofs : Z)
| DefineVar (gofs type client arg2 : Z).

(** The argument byte that packs a variable and an offset. *)
Definition var_byte (var ofs : Z) : Z := Z.lor (Z.shiftl ofs 5) var.

Definition encode_condition (c : Condition) : list Z :=
  match c with
  | TestState st => [Z.lor _IF_STATE st]
  | TestReg var v => [Z.lor (if v then Z.lor _IF_REG _REG_1 else _IF_REG) var]
  | TestAspect v => [_IF_ASPECT; v]
  | QuerySpeed => [_GET_TRAIN_SPEED]
  | CommandSpeed => [_SET_TRAIN_SPEED]
  | TestForward => [_IF_FORWARD]
  | TestReverse => [_IF_REVERSE]
  | StopEmergency => [_IF_EMERGENCY_STOP]
  | StartEmergency => [_IF_EMERGENCY_START]
  end.

Definition encode_action (a : Action) : list Z :=
  match a with
  | ChangeState st => [Z.lor _ACT_STATE st]
  | ChangeTimer v => [Z.lor _ACT_TIMER v]
  | WriteReg var v => [Z.lor (if v then Z.lor _ACT_REG _REG_1 else _ACT_REG) var]
  | ChangeAspect v => [_ACT_SET_ASPECT; v]
  | RaiseAspect => [_ACT_UP_ASPECT]
  | SetValue var ofs v => [_ACT_SET_VAR_VALUE; var_byte var ofs; v]
  | SetValueFromAspect var ofs => [_ACT_SET_VAR_VALUE_ASPECT; var_byte var ofs]
  | GetValueToAspect var ofs => [_ACT_GET_VAR_VALUE_ASPECT; var_byte var ofs]
  | GetValueToSpeed var ofs => [_ACT_GET_VAR_VALUE_SPEED; var_byte var ofs]
  | LoadEvent dst id => _ACT_SET_EVENTID :: (if dst =? 0 then 0x07 else 0x57) :: event_bytes id
  | LoadSpeed v => [_ACT_IMM_SPEED; v]
  | SpeedForward => [_ACT_SPEED_FORWARD]
  | SpeedReverse => [_ACT_SPEED_REVERSE]
  | SpeedFlip => [_ACT_SPEED_FLIP]
  | Import var arg gofs =>
      [ _ACT_IMPORT_VAR; Z.lor (Z.shiftl (Z.shiftr arg 8) 5) var; Z.land arg 0xff;
        Z.land gofs 0xff; Z.land (Z.shiftr gofs 8) 0xff ]
  | DefineVar _ type client arg2 => [_ACT_DEF_VAR; Z.lor (Z.shiftl type 5) client; arg2]
  end.

Definition encode_conditions (l : list Condition) : list Z := l ≫= encode_condition.
Definition encode_actions (l : list Action) : list Z := l ≫= encode_action.

(** Arguments in their ranges. *)
Definition wf_condition (c : Condition) : Prop :=
  match c with
  | TestState st => 0 <= st < 32
  | TestReg var _ => 0 <= var < 32
  | TestAspect v => 0 <= v < 256
  | _ => True
  end.

Definition wf_action (a : Action) : Prop :=
  match a with
  | ChangeState st | ChangeTimer st => 0 <= st < 32
  | WriteReg var _ => 0 <= var < 32
  | ChangeAspect v | LoadSpeed v => 0 <= v < 256
  | SetValue var ofs v => 0 <= var < 32 /\ 0 <= ofs < 8 /\ 0 <= v < 256
  | SetValueFromAspect var ofs | GetValueToAspect var ofs | GetValueToSpeed var ofs =>
      0 <= var < 32 /\ 0 <= ofs < 8
  | LoadEvent dst id => 0 <= dst < 2 /\ 0 <= id < 2 ^ 64
  | Import var arg gofs => 0 <= var < 32 /\ 0 <= arg < 2 ^ 11 /\ 0 <= gofs < 2 ^ 16
  | DefineVar _ type client arg2 => 0 <= type < 8 /\ 0 <= client < 32 /\ 0 <= arg2 < 256
  | _ => True
  end.

(** A variable is known by the offset of its declaration. *)
Definition placed (p : Z) (a : Action) : Prop :=
  match a with
  | DefineVar gofs _ _ _ => gofs = p + 1
  | _ => True
  end.

(** An operation: all the actions, if all the conditions hold. *)
Record Operation := mkOperation {
  conditions : list Condition;
  actions : list Action
}.

Definition header (cs acts : list Z) : Z := Z.lor (Z.shiftl (zlen acts) 4) (zlen cs).

Definition encode_operation (o : Operation) : list Z :=
  let cs := encode_conditions (conditions o) in
  let acts := encode_actions (actions o) in
  header cs acts :: cs ++ acts.

Definition encode_program (l : list Operation) : list Z := l ≫= encode_operation.

Fixpoint placed_actions (p : Z) (l : list Action) : Prop :=
  match l with
  | [] => True
  | a :: l => placed p a /\ placed_actions (p + zlen (encode_action a)) l
  end.

Record wf_operation (p : Z) (o : Operation) : Prop := {
  wf_conditions : Forall wf_condition (conditions o);
  wf_actions : Forall wf_action (actions o);
  wf_placed : placed_actions (p + 1 + zlen (encode_conditions (conditions o))) (actions o);
  wf_num_conditions : zlen (encode_conditions (conditions o)) < 16;
  wf_num_actions : zlen (encode_actions (actions o)) < 16;
  wf_nonempty : encode_conditions (conditions o) ++ encode_actions (actions o) <> []
}.

Fixpoint wf_program (p : Z) (l : list Operation) : Prop :=
  match l with
  | [] => True
  | o :: l => wf_operation p o /\ wf_program (p + zlen (encode_operation o)) l
  end.

(** ** Semantics *)

Section Semantics.
Context {V W : Type} `{VV : !Velocity V} `{NN : !Node V W}.

Abbreviation Core := (Core (V := V) (W := W)).

Definition write_var (var : Z) (value : bool) : prog Core unit :=
  arg ← imported_arg var; bit ← GetBit var; Write bit arg value.

Definition sem_condition (c : Condition) : prog Core bool :=
  match c with
  | TestState st => a ← current; x ← GetState a; mret (x =? st)
  | TestReg var v =>
      arg ← imported_arg var; bit ← GetBit var; x ← Read bit arg; mret (Bool.eqb x v)
  | TestAspect v => reading (fun c => mret (aut_signal_aspect_ c =? v))
  | QuerySpeed => v ← get_train_speed; set_speed v;; mret (negb (velocity_isnan v))
  | CommandSpeed => reading (fun c => set_train_speed (aut_speed_ c))
  | TestForward => d ← speed_direction; mret (d =? velocity_FORWARD)
  | TestReverse => d ← speed_direction; mret (d =? velocity_REVERSE)
  | StopEmergency => send EmergencyOff;; mret true
  | StartEmergency => send ClearEmergencyOff;; mret true
  end.

Definition sem_action (a : Action) : prog Core unit :=
  match a with
  | ChangeState st => a ← current; SetState a st
  | ChangeTimer v => a ← current; SetTimer a v
  | WriteReg var v => write_var var v
  | ChangeAspect v => modify_state (set_aspect v)
  | RaiseAspect => modify_state (fun c => set_aspect (up_aspect (aut_signal_aspect_ c)) c)
  | SetValue var ofs v => bit ← GetBit var; bit_SetState bit ofs v
  | SetValueFromAspect var ofs =>
      bit ← GetBit var; reading (fun c => bit_SetState bit ofs (aut_signal_aspect_ c))
  | GetValueToAspect var ofs =>
      bit ← GetBit var; v ← bit_GetState bit ofs; modify_state (set_aspect v)
  | GetValueToSpeed var ofs =>
      bit ← GetBit var; v ← bit_GetState bit ofs; set_speed (imm_speed v)
  | LoadEvent dst id =>
      eventid dst;; modify_state (fun c => set_eventids (zset (aut_eventids_ c) dst id) c)
  | LoadSpeed v => set_speed (imm_speed v)
  | SpeedForward => change_speed velocity_forward
  | SpeedReverse => change_speed velocity_reverse
  | SpeedFlip => change_speed flip_direction
  | Import var arg gofs => import_bit var arg gofs
  | DefineVar gofs type client arg2 => l ← create_bit type client arg2; declare_bit gofs l
  end.

Fixpoint sem_conditions (l : list Condition) : prog Core bool :=
  match l with
  | [] => mret true
  | c :: l => x ← sem_condition c; if (x : bool) then sem_conditions l else mret false
  end.

Fixpoint sem_actions (l : list Action) : prog Core unit :=
  match l with
  | [] => mret tt
  | a :: l => sem_action a;; sem_actions l
  end.

Definition sem_operation (o : Operation) : prog Core unit :=
  keep ← sem_conditions (conditions o);
  if (keep : bool) then sem_actions (actions o) else mret tt.

Fixpoint sem_program (l : list Operation) : prog Core unit :=
  match l with
  | [] => mret tt
  | o :: l => sem_operation o;; sem_program l
  end.

End Semantics.

(** ** Decoding single instructions *)

(** The numbers below [n]. *)
Lemma below_In (n : nat) x : 0 <= x < Z.of_nat n -> In x (List.map Z.of_nat (seq 0 n)).
Proof.
  intros Hx. apply in_map_iff. exists (Z.to_nat x). split; [lia|]. apply in_seq. lia.
Qed.

(** A case for each value of a variable in a hypothesis [0 <= x < n]. *)
Ltac each_value H n :=
  apply (below_In n) in H; vm_compute in H;
  repeat (destruct H as [<-|H]; [|]); [..|destruct H].

Section Decode.
Context {V W : Type} `{VV : !Velocity V} `{NN : !Node V W}.

Lemma eval_single c :
  wf_condition c ->
  match encode_condition c with
  | [b] => is_insn _IF_MISCA_BASE _IF_MISCA_MASK b = false /\
           eval_condition (V := V) (W := W) b = sem_condition c
  | _ => exists v, c = TestAspect v
  end.
Proof.
  destruct c as [st|var v|v| | | | | | ]; simpl; intros Hwf.
  - each_value Hwf 32%nat; split; reflexivity.
  - destruct v; each_value Hwf 32%nat; split; reflexivity.
  - by exists v.
  - split; reflexivity.
  - split; reflexivity.
  - split; reflexivity.
  - split; reflexivity.
  - split; reflexivity.
  - split; reflexivity.
Qed.

(** The tests before the plain actions. *)
Definition plain (b : Z) : bool :=
  negb (b =? _ACT_IMPORT_VAR) && negb (b =? _ACT_SET_EVENTID) && negb (b =? _ACT_DEF_VAR)
  && negb (b =? _ACT_SET_VAR_VALUE) && negb (is_insn _ACT_MISCA_BASE _ACT_MISCA_MASK b).

Lemma eval_single_action a :
  wf_action a ->
  match encode_action a with
  | [b] => plain b = true /\ eval_action (V := V) (W := W) b = sem_action a
  | _ => True
  end.
Proof.
  destruct a; simpl; intros Hwf; try done.
  - each_value Hwf 32%nat; split; reflexivity.
  - each_value Hwf 32%nat; split; reflexivity.
  - destruct value; each_value Hwf 32%nat; split; reflexivity.
Qed.

End Decode.

(** ** Event IDs *)

(** What [load_event_bytes] makes of an event when it reads the bytes of
    [id]. *)
Fixpoint load_bytes (n : nat) (id e : Z) : Z :=
  let e := replace_byte e (8 * Z.of_nat n) (Z.land (Z.shiftr id (8 * Z.of_nat n)) 0xff) in
  match n with
  | O => e
  | S n => load_bytes n id e
  end.

Lemma byte_range x : 0 <= Z.land x 0xff < 2 ^ 8.
Proof. apply (land_ones_range x 8). lia. Qed.

Lemma replace_byte_bits e n byte i :
  0 <= n -> 0 <= byte < 2 ^ 8 -> 0 <= i ->
  Z.testbit (replace_byte e n byte) i =
  if (n <=? i) && (i <? n + 8) then Z.testbit byte (i - n) else (i <? 64) && Z.testbit e i.
Proof.
  intros Hn Hb Hi. unfold replace_byte, u64.
  rewrite Z.lor_spec, Z.shiftl_spec by lia. change 0xff with (Z.ones 8).
  assert (Hm : Z.testbit (Z.land e (Z.lnot (Z.shiftl (Z.ones 8) n)) mod 2 ^ 64) i =
               (i <? 64) && negb ((n <=? i) && (i <? n + 8)) && Z.testbit e i).
  { destruct (Z.ltb_spec i 64); [|by rewrite Z.mod_pow2_bits_high by lia].
    rewrite Z.mod_pow2_bits_low, Z.land_spec, Z.lnot_spec, Z.shiftl_spec by lia.
    rewrite andb_true_l, andb_comm. f_equal. f_equal. destruct (Z.leb_spec n i); simpl.
    - destruct (Z.ltb_spec i (n + 8)); [apply Z.ones_spec_low|apply Z.ones_spec_high]; lia.
    - apply Z.testbit_neg_r. lia. }
  rewrite Hm. destruct (Z.leb_spec n i); simpl.
  - destruct (Z.ltb_spec i (n + 8)); simpl.
    + by rewrite andb_false_r.
    + rewrite (testbit_field_low 8 byte) by lia. by rewrite andb_true_r, orb_false_r.
  - rewrite (Z.testbit_neg_r byte) by lia. by rewrite andb_true_r, orb_false_r.
Qed.

(** The byte [k] of an event ID. *)
Lemma event_byte_bit id n i :
  0 <= n -> n <= i < n + 8 -> Z.testbit (Z.land (Z.shiftr id n) 0xff) (i - n) = Z.testbit id i.
Proof.
  intros Hn Hi. replace (Z.land (Z.shiftr id n) 0xff) with (Z.land (Z.shiftr id n) (Z.ones 8)) by done.
  rewrite Z.land_spec, Z.shiftr_spec, Z.ones_spec_low by lia. rewrite andb_true_r. f_equal. lia.
Qed.

Lemma load_bytes_bits n id e i :
  (n <= 7)%nat -> 0 <= i ->
  Z.testbit (load_bytes n id e) i =
  if i <? 8 * (Z.of_nat n + 1) then Z.testbit id i else (i <? 64) && Z.testbit e i.
Proof.
  revert e. induction n as [|n IH]; intros e Hn Hi; cbn [load_bytes].
  - rewrite replace_byte_bits by (first [lia|apply byte_range]).
    destruct (Z.leb_spec (8 * Z.of_nat 0) i); [|lia].
    destruct (Z.ltb_spec i (8 * Z.of_nat 0 + 8)), (Z.ltb_spec i (8 * (Z.of_nat 0 + 1)));
      try lia; [|done].
    apply event_byte_bit; lia.
  - rewrite IH by lia. rewrite replace_byte_bits by (first [lia|apply byte_range]).
    destruct (Z.ltb_spec i (8 * (Z.of_nat n + 1))), (Z.ltb_spec i (8 * (Z.of_nat (S n) + 1)));
      try lia; [done| |].
    + destruct (Z.leb_spec (8 * Z.of_nat (S n)) i), (Z.ltb_spec i (8 * Z.of_nat (S n) + 8)); try lia.
      cbn [andb]. rewrite event_byte_bit by lia. by destruct (Z.ltb_spec i 64); [|lia].
    + destruct (Z.leb_spec (8 * Z.of_nat (S n)) i), (Z.ltb_spec i (8 * Z.of_nat (S n) + 8)); try lia.
      cbn [andb]. by destruct (i <? 64).
Qed.

Lemma load_bytes_all id e : 0 <= id < 2 ^ 64 -> load_bytes 7 id e = id.
Proof.
  intros Hid. apply Z.bits_inj'. intros i Hi. rewrite load_bytes_bits by lia.
  destruct (Z.ltb_spec i (8 * (Z.of_nat 7 + 1))); [done|].
  rewrite (testbit_field_low 64 id) by lia. by destruct (Z.ltb_spec i 64); [lia|].
Qed.

(** ** Running the bytes *)

(** [bs] is at offset [i] of the program. *)
Definition bytes_at (code : list Z) (i : Z) (bs : list Z) : Prop :=
  exists pre post, code = pre ++ bs ++ post /\ zlen pre = i.

Lemma bytes_at_app_l code i l1 l2 : bytes_at code i (l1 ++ l2) -> bytes_at code i l1.
Proof. intros (pre & post & -> & Hi). exists pre, (l2 ++ post). by rewrite <- app_assoc. Qed.

Lemma bytes_at_app_r code i l1 l2 : bytes_at code i (l1 ++ l2) -> bytes_at code (i + zlen l1) l2.
Proof.
  intros (pre & post & -> & <-). exists (pre ++ l1), post.
  rewrite zlen_app, <- !app_assoc. done.
Qed.

Lemma bytes_at_tail code i b bs : bytes_at code i (b :: bs) -> bytes_at code (i + 1) bs.
Proof. apply (bytes_at_app_r code i [b]). Qed.

Lemma bytes_at_lookup code i b bs : bytes_at code i (b :: bs) -> znth code i = Some b.
Proof. intros (pre & post & -> & <-). apply znth_middle. Qed.

Lemma bytes_at_bounds code i bs : bytes_at code i bs -> 0 <= i /\ i + zlen bs <= zlen code.
Proof.
  intros (pre & post & -> & <-). rewrite !zlen_app.
  pose proof (zlen_nonneg pre). pose proof (zlen_nonneg post). lia.
Qed.

Section Runs.
Context {V W : Type} `{VV : !Velocity V} `{NN : !Node V W}.
Context (code : list Z) (Hcode : zlen code < 2 ^ 31).
(** The debug space does not ask for an event. *)
Context (d : AutomataDebugSpace) (Hdebug : logEventId_ d = 0).

Abbreviation Core := (Core (V := V) (W := W)).
Implicit Types (c : Core).

Lemma load_mk i l c b bs :
  bytes_at code i (b :: bs) -> load_insn code (mkRunner i l d c) = Done b (mkRunner (i + 1) l d c).
Proof.
  intros Hb. pose proof (bytes_at_bounds _ _ _ Hb) as [H0 H1]. rewrite zlen_cons in H1.
  pose proof (zlen_nonneg bs).
  unfold load_insn, mbind, prog_bind, array_get. simpl. rewrite (bytes_at_lookup _ _ _ _ Hb). simpl.
  unfold set_ip. simpl. by rewrite u32_small by (unfold is_uint32; lia).
Qed.

Lemma hook_mk i l c : debug_hook (mkRunner i l d c) = Done tt (mkRunner i i d c).
Proof. unfold debug_hook. simpl. by rewrite Hdebug. Qed.

(** [on_core] is a morphism. *)
Lemma on_core_bind {A B} (m : prog Core A) (k : A -> prog Core B) i l c :
  (a ← on_core m; on_core (k a)) (mkRunner i l d c) = on_core (m ≫= k) (mkRunner i l d c).
Proof. unfold on_core, mbind, prog_bind. simpl. by destruct (m c). Qed.

Lemma bind_load {A} (k : Z -> prog AutomataRunner A) i l c b bs :
  bytes_at code i (b :: bs) ->
  (load_insn code ≫= k) (mkRunner i l d c) = k b (mkRunner (i + 1) l d c).
Proof. intros Hb. unfold mbind, prog_bind. by rewrite (load_mk _ _ _ _ _ Hb). Qed.

Lemma bind_hook {A} (k : unit -> prog (AutomataRunner (V := V) (W := W)) A) i l c :
  (debug_hook ≫= k) (mkRunner i l d c) = k tt (mkRunner i i d c).
Proof. unfold mbind, prog_bind. by rewrite hook_mk. Qed.

Lemma bind_check_argument {A} (k : unit -> prog (AutomataRunner (V := V) (W := W)) A) e i l c :
  i < e -> (check_argument e ≫= k) (mkRunner i l d c) = k tt (mkRunner i l d c).
Proof.
  intros Hi. unfold check_argument, mbind, prog_bind, ip. cbn [ip_].
  by destruct (Z.leb_spec e i); [lia|].
Qed.

Lemma bind_check_end {A} (k : unit -> prog (AutomataRunner (V := V) (W := W)) A) e i l c :
  i <= e -> (check_end e ≫= k) (mkRunner i l d c) = k tt (mkRunner i l d c).
Proof.
  intros Hi. unfold check_end, mbind, prog_bind, ip. cbn [ip_].
  by destruct (Z.ltb_spec e i); [lia|].
Qed.

Lemma bind_ip {A} (k : Z -> prog (AutomataRunner (V := V) (W := W)) A) i l c :
  (ip ≫= k) (mkRunner i l d c) = k i (mkRunner i l d c).
Proof. done. Qed.

Lemma run_condition_at x i l c endif :
  wf_condition x -> bytes_at code i (encode_condition x) ->
  i + zlen (encode_condition x) <= endif ->
  run_condition code endif (mkRunner i l d c) =
  on_core (sem_condition x) (mkRunner (i + zlen (encode_condition x)) i d c).
Proof.
  intros Hwf Hb Hend. pose proof (eval_single (V := V) (W := W) x Hwf) as He.
  unfold run_condition. rewrite bind_hook.
  assert (Hv : forall v, x = TestAspect v \/ x <> TestAspect v).
  { intros v. destruct x; try (by right). destruct (decide (value = v)) as [->|]; [by left|].
    right. congruence. }
  destruct (encode_condition x) as [|b [|b2 bs]] eqn:Ex.
  - destruct He as [v ->]. done.
  - destruct He as [Hm <-]. rewrite (bind_load _ _ _ _ _ _ Hb), Hm. done.
  - destruct He as [v ->]. injection Ex as <- <- <-.
    rewrite (bind_load _ _ _ _ _ _ Hb). apply bytes_at_tail in Hb.
    change (is_insn _IF_MISCA_BASE _IF_MISCA_MASK _IF_ASPECT) with true. cbv iota.
    rewrite !zlen_cons, zlen_nil in *. rewrite bind_check_argument by lia.
    rewrite (bind_load _ _ _ _ _ _ Hb).
    replace (i + 1 + 1) with (i + (1 + (1 + 0))) by lia. done.
Qed.

Lemma then_check_end (m : prog (AutomataRunner (V := V) (W := W)) unit) (x : prog Core unit) e s i l c :
  m s = on_core x (mkRunner i l d c) -> i <= e ->
  (m;; check_end e) s = on_core x (mkRunner i l d c).
Proof.
  intros E Hi. unfold mbind, prog_bind. rewrite E. unfold on_core. simpl.
  destruct (x c) as [[] c'|c'|k]; [|done..].
  unfold check_end, mbind, prog_bind, ip, set_core. cbn [ip_].
  by destruct (Z.ltb_spec e i); [lia|].
Qed.

(** The fields of the argument bytes. *)
Lemma var_byte_fields var ofs :
  0 <= var < 32 -> Z.land (var_byte var ofs) 31 = var /\ Z.shiftr (var_byte var ofs) 5 = ofs.
Proof. intros Hv. split; [apply (field_low ofs 5 var)|apply (field_high ofs 5 var)]; lia. Qed.

Lemma import_variable_at var arg gofs bs i l c :
  wf_action (Import var arg gofs) ->
  bytes_at code i (tail (encode_action (Import var arg gofs)) ++ bs) ->
  import_variable code (mkRunner i l d c) = on_core (import_bit var arg gofs) (mkRunner (i + 4) l d c).
Proof.
  intros (Hv & Ha & Hg) Hb. simpl in Hb. unfold import_variable.
  rewrite (bind_load _ _ _ _ _ _ Hb). apply bytes_at_tail in Hb.
  rewrite (bind_load _ _ _ _ _ _ Hb). apply bytes_at_tail in Hb.
  rewrite (bind_load _ _ _ _ _ _ Hb). apply bytes_at_tail in Hb.
  rewrite (bind_load _ _ _ _ _ _ Hb).
  rewrite (field_high (Z.shiftr arg 8) 5 var) by lia.
  replace (Z.land (Z.lor (Z.shiftl (Z.shiftr arg 8) 5) var) 31) with var
    by (symmetry; apply (field_low _ 5); lia).
  replace (Z.lor (Z.shiftl (Z.shiftr arg 8) 8) (Z.land arg 255)) with arg
    by (symmetry; apply (field_split arg 8); lia).
  pose proof (shiftr_range gofs 8 8 ltac:(lia) ltac:(lia) Hg) as Hs.
  replace (Z.land (Z.shiftr gofs 8) 255) with (Z.shiftr gofs 8)
    by (symmetry; apply (land_ones_small _ 8); lia).
  rewrite Z.lor_comm.
  replace (Z.lor (Z.shiftl (Z.shiftr gofs 8) 8) (Z.land gofs 255)) with gofs
    by (symmetry; apply (field_split gofs 8); lia).
  by replace (i + 1 + 1 + 1 + 1) with (i + 4) by lia.
Qed.

Lemma zset_zset {A} (l : list A) i x y : zset (zset l i x) i y = zset l i y.
Proof. apply list_insert_insert_eq. Qed.

Lemma znth_zset {A} (l : list A) i x e : znth l i = Some e -> znth (zset l i x) i = Some x.
Proof.
  unfold znth, zset. destruct (0 <=? i); [|done]. intros Hl. apply list_lookup_insert_eq.
  by eapply lookup_lt_Some.
Qed.

Lemma bind_eventid {A} (k : Z -> prog (AutomataRunner (V := V) (W := W)) A) dst e i l c :
  znth (aut_eventids_ c) dst = Some e ->
  (on_core (eventid dst) ≫= k) (mkRunner i l d c) = k e (mkRunner i l d c).
Proof.
  intros He. unfold mbind, prog_bind, on_core, eventid, array_get. cbn [core]. by rewrite He.
Qed.

Lemma bind_modify {A} (k : unit -> prog (AutomataRunner (V := V) (W := W)) A) f i l c :
  (on_core (modify_state f) ≫= k) (mkRunner i l d c) = k tt (mkRunner i l d (f c)).
Proof. done. Qed.

(** The loop over the bytes of an event ID. *)
Lemma load_event_bytes_at n dst id e bs i l c :
  znth (aut_eventids_ c) dst = Some e ->
  bytes_at code i (List.map (fun k => Z.land (Z.shiftr id (8 * Z.of_nat k)) 0xff) (rev (seq 0 (S n))) ++ bs) ->
  load_event_bytes code n dst (mkRunner i l d c) =
  Done tt (mkRunner (i + Z.of_nat n + 1) l d
             (set_eventids (zset (aut_eventids_ c) dst (load_bytes n id e)) c)).
Proof.
  revert e i c. induction n as [|n IH]; intros e i c He Hb; cbn [load_event_bytes].
  - rewrite (bind_eventid _ _ _ _ _ _ He), (bind_load _ _ _ _ _ _ Hb), bind_modify.
    by replace (i + Z.of_nat 0 + 1) with (i + 1) by lia.
  - rewrite seq_S, rev_app_distr in Hb. cbn [rev app List.map Nat.add] in Hb.
    rewrite (bind_eventid _ _ _ _ _ _ He), (bind_load _ _ _ _ _ _ Hb), bind_modify.
    apply bytes_at_tail in Hb.
    set (e1 := replace_byte e _ _).
    rewrite (IH e1); [|by eapply znth_zset|exact Hb].
    cbn [aut_eventids_ set_eventids]. rewrite zset_zset.
    replace (i + 1 + Z.of_nat n + 1) with (i + Z.of_nat (S n) + 1) by lia. done.
Qed.

Lemma event_bytes_rev id :
  event_bytes id =
  List.map (fun k => Z.land (Z.shiftr id (8 * Z.of_nat k)) 0xff) (rev (seq 0 8)).
Proof. done. Qed.

Lemma insn_load_event_id_at dst id bs i l c :
  wf_action (LoadEvent dst id) ->
  bytes_at code i (tail (encode_action (LoadEvent dst id)) ++ bs) ->
  insn_load_event_id code (mkRunner i l d c) =
  on_core (sem_action (LoadEvent dst id)) (mkRunner (i + 9) l d c).
Proof.
  intros [Hd Hid] Hb. simpl tail in Hb. unfold insn_load_event_id.
  rewrite <- app_comm_cons in Hb. rewrite (bind_load _ _ _ _ _ _ Hb). apply bytes_at_tail in Hb.
  set (ty := if dst =? 0 then 7 else 87) in *.
  assert (Hty : Z.land (Z.shiftr ty 6) 1 = dst /\ Z.land (Z.shiftr ty 4) 1 = dst /\
                Z.to_nat (Z.land ty 7) = 7%nat).
  { assert (dst = 0 \/ dst = 1) as [->| ->] by lia; done. }
  destruct Hty as (-> & -> & ->).
  destruct (znth (aut_eventids_ c) dst) as [e|] eqn:He.
  - rewrite (bind_eventid _ _ _ _ _ _ He), bind_modify. rewrite event_bytes_rev in Hb.
    rewrite (load_event_bytes_at 7 dst id e bs) by (first [exact Hb|by eapply znth_zset]).
    cbn [aut_eventids_ set_eventids]. rewrite zset_zset, load_bytes_all by done.
    unfold on_core, sem_action, mbind, prog_bind, eventid, array_get. cbn [core]. rewrite He.
    by replace (i + 1 + Z.of_nat 7 + 1) with (i + 9) by lia.
  - unfold on_core, sem_action, mbind, prog_bind, eventid, array_get. cbn [core]. by rewrite He.
Qed.

(** Plain actions are a byte. *)
Lemma run_plain_action b i l c endcond :
  plain b = true -> bytes_at code i [b] ->
  run_action code endcond (mkRunner i l d c) = on_core (eval_action b) (mkRunner (i + 1) i d c).
Proof.
  unfold plain. intros Hp Hb. apply andb_prop in Hp as [Hp H5]. apply andb_prop in Hp as [Hp H4].
  apply andb_prop in Hp as [Hp H3]. apply andb_prop in Hp as [H1 H2].
  apply negb_true_iff in H1, H2, H3, H4, H5.
  unfold run_action. rewrite bind_hook, (bind_load _ _ _ _ _ _ Hb), H1, H2, H3, H4, H5. done.
Qed.

(** Actions of a byte and an argument. *)
Lemma run_argument_action b v i l c endcond :
  is_insn _ACT_MISCA_BASE _ACT_MISCA_MASK b = true -> b <> _ACT_SET_EVENTID ->
  bytes_at code i [b; v] -> i + 2 <= endcond ->
  run_action code endcond (mkRunner i l d c) = on_core (eval_action2 b v) (mkRunner (i + 2) i d c).
Proof.
  intros Hm Hne Hb Hend. unfold run_action. rewrite bind_hook, (bind_load _ _ _ _ _ _ Hb).
  apply bytes_at_tail in Hb.
  assert (Ht : (b =? _ACT_IMPORT_VAR) = false /\ (b =? _ACT_DEF_VAR) = false /\
               (b =? _ACT_SET_VAR_VALUE) = false).
  { repeat split; apply Z.eqb_neq; intros ->; discriminate Hm. }
  destruct Ht as (-> & -> & ->). apply Z.eqb_neq in Hne. rewrite Hne, Hm.
  rewrite bind_check_argument by lia. rewrite (bind_load _ _ _ _ _ _ Hb).
  by replace (i + 1 + 1) with (i + 2) by lia.
Qed.

Lemma run_action_at a i l c endcond :
  wf_action a -> placed i a -> bytes_at code i (encode_action a) ->
  i + zlen (encode_action a) <= endcond ->
  run_action code endcond (mkRunner i l d c) =
  on_core (sem_action a) (mkRunner (i + zlen (encode_action a)) i d c).
Proof.
  intros Hwf Hp Hb Hend. pose proof (eval_single_action (V := V) (W := W) a Hwf) as Hs.
  destruct a; simpl encode_action in *;
    try (rewrite <- (proj2 Hs), (run_plain_action _ _ _ _ _ (proj1 Hs) Hb); done);
    try match type of Hb with
    | bytes_at _ _ [?b; ?v] =>
        rewrite (run_argument_action b v i l c endcond) by (first [exact Hb|exact Hend|done]);
        unfold eval_action2; simpl in Hwf;
        try match goal with
        | |- context [var_byte ?var ?ofs] => destruct (var_byte_fields var ofs) as [E1 E2];
                                             [lia|rewrite E1, E2]
        end; reflexivity
    end.
  - (* SetValue *)
    unfold run_action. rewrite bind_hook, (bind_load _ _ _ _ _ _ Hb). apply bytes_at_tail in Hb.
    change (_ACT_SET_VAR_VALUE =? _ACT_IMPORT_VAR) with false.
    change (_ACT_SET_VAR_VALUE =? _ACT_SET_EVENTID) with false.
    change (_ACT_SET_VAR_VALUE =? _ACT_DEF_VAR) with false.
    change (_ACT_SET_VAR_VALUE =? _ACT_SET_VAR_VALUE) with true. cbv iota.
    rewrite (bind_load _ _ _ _ _ _ Hb). apply bytes_at_tail in Hb.
    rewrite (bind_load _ _ _ _ _ _ Hb). rewrite !zlen_cons, zlen_nil in *.
    rewrite bind_check_end by lia.
    destruct (var_byte_fields var ofs) as [-> ->]; [apply Hwf|].
    by replace (i + 1 + 1 + 1) with (i + (1 + (1 + (1 + 0)))) by lia.
  - (* LoadEvent *)
    unfold run_action. rewrite bind_hook, (bind_load _ _ _ _ _ _ Hb). apply bytes_at_tail in Hb.
    change (_ACT_SET_EVENTID =? _ACT_IMPORT_VAR) with false.
    change (_ACT_SET_EVENTID =? _ACT_SET_EVENTID) with true. cbv iota.
    change (zlen (_ACT_SET_EVENTID :: _)) with 10 in *.
    change (sem_action (LoadEvent dst id)) with (sem_action (V := V) (W := W) (LoadEvent dst id)).
    replace (i + 10) with (i + 1 + 9) by lia.
    apply then_check_end; [|lia]. apply (insn_load_event_id_at dst id []); [done|].
    by rewrite app_nil_r.
  - (* Import *)
    unfold run_action. rewrite bind_hook, (bind_load _ _ _ _ _ _ Hb). apply bytes_at_tail in Hb.
    change (_ACT_IMPORT_VAR =? _ACT_IMPORT_VAR) with true. cbv iota.
    change (zlen (_ACT_IMPORT_VAR :: _)) with 5 in *.
    replace (i + 5) with (i + 1 + 4) by lia.
    apply then_check_end; [|lia]. by apply (import_variable_at var arg gofs []).
  - (* DefineVar *)
    destruct Hwf as (Ht & Hcl & Ha). simpl in Hp. subst gofs.
    unfold run_action. rewrite bind_hook, (bind_load _ _ _ _ _ _ Hb). apply bytes_at_tail in Hb.
    change (_ACT_DEF_VAR =? _ACT_IMPORT_VAR) with false.
    change (_ACT_DEF_VAR =? _ACT_SET_EVENTID) with false.
    change (_ACT_DEF_VAR =? _ACT_DEF_VAR) with true. cbv iota. rewrite bind_ip.
    rewrite !zlen_cons, zlen_nil in *.
    assert (Ec : create_variable code (mkRunner (i + 1) i d c) =
                 on_core (create_bit type client arg2) (mkRunner (i + (1 + (1 + (1 + 0)))) i d c)).
    { unfold create_variable. rewrite (bind_load _ _ _ _ _ _ Hb). apply bytes_at_tail in Hb.
      rewrite (bind_load _ _ _ _ _ _ Hb).
      rewrite (field_high type 5 client) by lia.
      replace (Z.land (Z.lor (Z.shiftl type 5) client) 31) with client
        by (symmetry; apply (field_low type 5); lia).
      by replace (i + 1 + 1 + 1) with (i + (1 + (1 + (1 + 0)))) by lia. }
    unfold sem_action. rewrite <- on_core_bind. unfold mbind at 1, prog_bind at 1. rewrite Ec.
    unfold on_core at 1, mbind at 2, prog_bind at 2, on_core at 2. cbn [core].
    destruct (create_bit type client arg2 c) as [nb c'|c'|k]; [|done..].
    unfold set_core. cbn [ip_ last_ip_ g_aut_debug_space core].
    rewrite bind_check_end by lia. done.
Qed.

(** The run [r] of bytes ends as the meaning [o] of an instruction, with the
    instruction pointer where [post] says. *)
Definition ends_as {A} (o : outcome Core A) (r : option (outcome AutomataRunner A))
    (post : A -> Z -> Prop) : Prop :=
  match o with
  | Done a c => exists i l, r = Some (Done a (mkRunner i l d c)) /\ post a i
  | Failed c => exists i l, r = Some (Failed (mkRunner i l d c))
  | Crashed k => r = Some (Crashed k)
  end.

Lemma ends_as_bind_eq {A B} (m : prog Core A) (k : A -> prog Core B) (f : fprog AutomataRunner A)
    (g : A -> fprog AutomataRunner B) c s post post' :
  ends_as (m c) (f s) post ->
  (forall a c' i l, m c = Done a c' -> post a i ->
     ends_as (k a c') (g a (mkRunner i l d c')) post') ->
  ends_as ((m ≫= k) c) ((f ≫= g) s) post'.
Proof.
  intros Hm Hk. unfold mbind, prog_bind, fprog_bind, ends_as in *.
  destruct (m c) as [a c'|c'|e] eqn:E.
  - destruct Hm as (i & l & -> & Hp). by apply Hk.
  - destruct Hm as (i & l & ->). eauto.
  - by rewrite Hm.
Qed.

Lemma ends_as_bind {A B} (m : prog Core A) (k : A -> prog Core B) (f : fprog AutomataRunner A)
    (g : A -> fprog AutomataRunner B) c s post post' :
  ends_as (m c) (f s) post ->
  (forall a c' i l, post a i -> ends_as (k a c') (g a (mkRunner i l d c')) post') ->
  ends_as ((m ≫= k) c) ((f ≫= g) s) post'.
Proof. intros Hm Hk. eapply ends_as_bind_eq; [done|]. intros a c' i l _. apply Hk. Qed.

(** The continuation in the meaning may do nothing. *)
Lemma ends_as_after {A B} (m : prog Core A) (h : A -> B) (f : fprog AutomataRunner A)
    (g : A -> fprog AutomataRunner B) c s post post' :
  ends_as (m c) (f s) post ->
  (forall a c' i l, post a i -> ends_as (Done (h a) c') (g a (mkRunner i l d c')) post') ->
  ends_as ((a ← m; mret (h a)) c) ((f ≫= g) s) post'.
Proof. intros Hm Hk. eapply ends_as_bind; [exact Hm|]. intros a c' i l Hp. by apply Hk. Qed.

Lemma ends_as_on_core {A} (m : prog Core A) i l c :
  ends_as (m c) (Some (on_core m (mkRunner i l d c))) (fun _ j => j = i).
Proof. unfold ends_as, on_core. simpl. destruct (m c); simpl; eauto. Qed.

Lemma ends_as_weaken {A} (o : outcome Core A) r (post post' : A -> Z -> Prop) :
  ends_as o r post -> (forall a i, post a i -> post' a i) -> ends_as o r post'.
Proof. unfold ends_as. destruct o; [|done..]. intros (i & l & E & Hp) H. eauto 6. Qed.

Lemma encode_condition_nonempty x : 1 <= zlen (encode_condition x).
Proof. destruct x; simpl; try destruct value; unfold zlen; simpl; lia. Qed.

Lemma encode_action_nonempty a : 1 <= zlen (encode_action a).
Proof. destruct a; simpl; unfold zlen; simpl; lia. Qed.

Lemma run_conditions_at l fuel i li c :
  Forall wf_condition l -> bytes_at code i (encode_conditions l) ->
  zlen (encode_conditions l) < Z.of_nat fuel ->
  ends_as (sem_conditions l c)
    (run_conditions code fuel (i + zlen (encode_conditions l)) (mkRunner i li d c))
    (fun b j => b = true -> j = i + zlen (encode_conditions l)).
Proof.
  revert fuel i li c. induction l as [|x l IH]; intros fuel i li c Hwf Hb Hf.
  - exists i, li. change (zlen (encode_conditions [])) with 0. rewrite Z.add_0_r. split; [|done].
    destruct fuel; cbn [run_conditions ip_]; by rewrite Z.ltb_irrefl.
  - apply Forall_cons in Hwf as [Hx Hwf].
    change (encode_conditions (x :: l)) with (encode_condition x ++ encode_conditions l) in *.
    rewrite zlen_app in *. pose proof (encode_condition_nonempty x).
    pose proof (zlen_nonneg (encode_conditions l)).
    destruct fuel as [|fuel]; [lia|]. cbn [run_conditions sem_conditions ip_].
    destruct (Z.ltb_spec i (i + (zlen (encode_condition x) + zlen (encode_conditions l)))); [|lia].
    eapply ends_as_bind.
    + unfold total. rewrite (run_condition_at x) by (first [done|lia|by eapply bytes_at_app_l]).
      apply ends_as_on_core.
    + intros b c' j l' ->. destruct b.
      * rewrite Z.add_assoc. apply IH; [done|by apply bytes_at_app_r|lia].
      * exists (i + zlen (encode_condition x)), l'. by split.
Qed.

Lemma run_actions_at l fuel i li c :
  Forall wf_action l -> placed_actions i l -> bytes_at code i (encode_actions l) ->
  zlen (encode_actions l) < Z.of_nat fuel ->
  ends_as (sem_actions l c)
    (run_actions code fuel (i + zlen (encode_actions l)) (mkRunner i li d c))
    (fun _ j => j = i + zlen (encode_actions l)).
Proof.
  revert fuel i li c. induction l as [|x l IH]; intros fuel i li c Hwf Hp Hb Hf.
  - exists i, li. change (zlen (encode_actions [])) with 0. rewrite Z.add_0_r. split; [|done].
    destruct fuel; cbn [run_actions ip_]; by rewrite Z.ltb_irrefl.
  - apply Forall_cons in Hwf as [Hx Hwf]. destruct Hp as [Hpx Hp].
    change (encode_actions (x :: l)) with (encode_action x ++ encode_actions l) in *.
    rewrite zlen_app in *. pose proof (encode_action_nonempty x).
    pose proof (zlen_nonneg (encode_actions l)).
    destruct fuel as [|fuel]; [lia|]. cbn [run_actions sem_actions ip_].
    destruct (Z.ltb_spec i (i + (zlen (encode_action x) + zlen (encode_actions l)))); [|lia].
    eapply ends_as_bind.
    + unfold total. rewrite (run_action_at x) by (first [done|lia|by eapply bytes_at_app_l]).
      apply ends_as_on_core.
    + intros [] c' j l' ->. rewrite Z.add_assoc. apply IH; [done..|by apply bytes_at_app_r|lia].
Qed.

Lemma header_fields cs acts :
  zlen cs < 16 -> zlen acts < 16 ->
  Z.land (header cs acts) 0x0f = zlen cs /\ Z.shiftr (header cs acts) 4 = zlen acts.
Proof.
  intros Hc Ha. pose proof (zlen_nonneg cs). unfold header.
  split; [apply (field_low (zlen acts) 4)|apply (field_high (zlen acts) 4)]; lia.
Qed.

Lemma run_operation_at o i li c :
  let cs := encode_conditions (conditions o) in
  let acts := encode_actions (actions o) in
  wf_operation (i - 1) o -> bytes_at code i (cs ++ acts) ->
  ends_as (sem_operation o c) (run_operation code (header cs acts) (mkRunner i li d c))
    (fun _ j => j = i + zlen cs + zlen acts).
Proof.
  intros cs acts [Hwc Hwa Hp Hnc Hna _] Hb. fold cs in Hnc, Hp. fold acts in Hna.
  replace (i - 1 + 1) with i in Hp by lia.
  pose proof (bytes_at_bounds _ _ _ Hb) as [H0 H1]. rewrite zlen_app in H1.
  pose proof (zlen_nonneg cs). pose proof (zlen_nonneg acts).
  unfold run_operation. unfold mbind at 1, fprog_bind at 1, total, ip. cbn [ip_].
  destruct (header_fields cs acts Hnc Hna) as [-> ->].
  rewrite (u32_small (i + zlen cs)) by (unfold is_uint32; lia).
  rewrite (u32_small (i + zlen cs + zlen acts)) by (unfold is_uint32; lia).
  unfold sem_operation. eapply ends_as_bind.
  - apply run_conditions_at; [done|by eapply bytes_at_app_l|unfold operation_fuel; fold cs; lia].
  - intros b c' j l' Hj. destruct b.
    + rewrite (Hj eq_refl).
      assert (Hr : ends_as (sem_actions (actions o) c')
                (run_actions code operation_fuel (i + zlen cs + zlen acts) (mkRunner (i + zlen cs) l' d c'))
                (fun _ j => j = i + zlen cs + zlen acts)).
      { apply run_actions_at; [done..|by apply bytes_at_app_r|unfold operation_fuel; fold acts; lia]. }
      fold cs. unfold ends_as in Hr. unfold ends_as, mbind, fprog_bind.
      destruct (sem_actions (actions o) c') as [[] c2|c2|k].
      * destruct Hr as (i2 & l2 & -> & ->). unfold total. rewrite hook_mk. eauto.
      * destruct Hr as (i2 & l2 & ->). eauto.
      * by rewrite Hr.
    + unfold ends_as, fmodify, set_ip. simpl. eauto.
Qed.

Lemma header_nonzero o p :
  wf_operation p o ->
  (header (encode_conditions (conditions o)) (encode_actions (actions o)) =? 0) = false.
Proof.
  intros [_ _ _ Hc Ha Hne]. apply Z.eqb_neq. intros E.
  destruct (header_fields _ _ Hc Ha) as [Hc0 Ha0]. rewrite E in Hc0, Ha0.
  rewrite Z.land_0_l in Hc0. rewrite Z.shiftr_0_l in Ha0. apply Hne.
  destruct (encode_conditions _), (encode_actions _); [done|unfold zlen in *; simpl in *; lia..].
Qed.

Lemma Run_at l fuel i li c :
  wf_program i l -> bytes_at code i (encode_program l ++ [0]) -> (length l < fuel)%nat ->
  ends_as (sem_program l c) (Run code fuel (mkRunner i li d c))
    (fun _ j => j = i + zlen (encode_program l) + 1).
Proof.
  revert fuel i li c. induction l as [|o l IH]; intros fuel i li c Hwf Hb Hf;
    (destruct fuel as [|fuel]; [lia|]); cbn [Run]; unfold mbind at 1, fprog_bind at 1, total at 1.
  - rewrite (load_mk _ _ _ _ _ Hb). exists (i + 1), li. split; [done|].
    change (zlen (encode_program [])) with 0. lia.
  - destruct Hwf as [Ho Hwf].
    change (encode_program (o :: l)) with (encode_operation o ++ encode_program l) in *.
    rewrite <- app_assoc in Hb. pose proof (bytes_at_app_r _ _ _ _ Hb) as Hb2.
    apply bytes_at_app_l in Hb. unfold encode_operation in Hb at 1.
    rewrite (load_mk _ _ _ _ _ Hb), (header_nonzero o i) by done. apply bytes_at_tail in Hb.
    cbn [sem_program]. eapply ends_as_bind.
    + apply run_operation_at; [|done]. by replace (i + 1 - 1) with i by lia.
    + intros [] c' j l' ->. rewrite zlen_app.
      replace (i + 1 + zlen (encode_conditions (conditions o)) + zlen (encode_actions (actions o)))
        with (i + zlen (encode_operation o)).
      * rewrite Z.add_assoc. apply IH; [done..|simpl in Hf; lia].
      * unfold encode_operation. rewrite zlen_cons, zlen_app. lia.
Qed.

End Runs.

(** ** Theorems *)

Section Theorems.
Context {V W : Type} `{VV : !Velocity V} `{NN : !Node V W}.
Context (code : list Z).

Abbreviation Core := (Core (V := V) (W := W)).
Implicit Types (s : AutomataRunner (V := V) (W := W)).

(** The run [r] ends with the members that [o] says. *)
Definition runs_as_core {A} (o : outcome Core A) (r : option (outcome AutomataRunner A)) : Prop :=
  match o with
  | Done a c => exists s', r = Some (Done a s') /\ core s' = c
  | Failed c => exists s', r = Some (Failed s') /\ core s' = c
  | Crashed k => r = Some (Crashed k)
  end.

Lemma ends_as_core {A} d (o : outcome Core A) r post : ends_as d o r post -> runs_as_core o r.
Proof.
  unfold ends_as, runs_as_core. destruct o; [| |done].
  - intros (i & l & -> & _). by eexists.
  - intros (i & l & ->). by eexists.
Qed.

(** An operation takes at least a byte. *)
Lemma length_encode_program l : (length l <= length (encode_program l))%nat.
Proof.
  induction l as [|o l IH]; [done|].
  change (encode_program (o :: l)) with (encode_operation o ++ encode_program l).
  rewrite length_app. unfold encode_operation. simpl. lia.
Qed.

Lemma Run_program l s :
  zlen code < 2 ^ 31 -> logEventId_ (g_aut_debug_space s) = 0 ->
  wf_program (ip_ s) l -> bytes_at code (ip_ s) (encode_program l ++ [0]) ->
  runs_as_core (sem_program l (core s)) (Run code (run_fuel code) s).
Proof.
  intros Hc Hd Hwf Hb. destruct s as [i li d c].
  eapply ends_as_core. apply (Run_at code Hc d Hd l); [done..|].
  apply bytes_at_bounds in Hb as [H0 Hb]. rewrite zlen_app in Hb.
  pose proof (length_encode_program l). unfold run_fuel, zlen in *. simpl in *. lia.
Qed.

Lemma run_automata_program a x l s :
  zlen code < 2 ^ 31 -> logEventId_ (g_aut_debug_space s) = 0 ->
  automatas (core s) !! a = Some x ->
  wf_program (starting_offset_ x) l ->
  bytes_at code (starting_offset_ x) (encode_program l ++ [0]) ->
  runs_as_core (sem_program l (reset_imports a (core s))) (run_automata code a s).
Proof.
  intros Hc Hd Ha Hwf Hb. unfold run_automata, mbind, fprog_bind, total, ResetForAutomata.
  unfold mbind, prog_bind, on_core, the_automata. rewrite Ha. cbn [modify_state].
  by apply (Run_program l (set_ip (starting_offset_ x) (set_core (reset_imports a (core s)) s))).
Qed.

(** C29: An automata does what its operations say: running its bytes has the
    effect of its operations in their order, each with all its actions if all
    its conditions hold and none of them otherwise, on the state in which only
    its timer bit is imported. *)
Theorem run_automata_refines a x l s :
  zlen code < 2 ^ 31 -> logEventId_ (g_aut_debug_space s) = 0 ->
  automatas (core s) !! a = Some x ->
  wf_program (starting_offset_ x) l ->
  bytes_at code (starting_offset_ x) (encode_program l ++ [0]) ->
  runs_as_core (sem_program l (reset_imports a (core s))) (run_automata code a s).
Proof. apply run_automata_program. Qed.

End Theorems.
