(* ===== verification/AutomataBuild.v ===== *)
(** The builder writes what the interpreter runs: every method of [Op] appends
    the bytes of the instruction it names, [Def()] appends one operation, local
    variables get ids of their own, and the code of a board has its automata
    and variables where the runner looks for them. *)

From S2P Require Import Prelude AutomataDefs Automata AutomataTermination AutomataOps AutomataSim.

(** ** Calls on an operation *)

Inductive OpCall :=
| CallIfState (state : Z)
| CallIfReg (var : Z) (value : bool)
| CallIfReg0 (var : Z)
| CallIfReg1 (var : Z)
| CallIfTimerDone
| CallIfTimerNotDone
| CallIfAspect (value : Z)
| CallIfGetSpeed
| CallIfSetSpeed
| CallIfSpeedIsForward
| CallIfSpeedIsReverse
| CallIfSetEStop
| CallIfClearEStop
| CallActState (state : Z)
| CallActReg (var : Z) (value : bool)
| CallActReg0 (var : Z)
| CallActReg1 (var : Z)
| CallActTimer (seconds : Z)
| CallActSetAspect (value : Z)
| CallActUpAspect
| CallActSetValue (var ofs value : Z)
| CallActSetValueFromAspect (var ofs : Z)
| CallActGetValueToAspect (var ofs : Z)
| CallActGetValueToSpeed (var ofs : Z)
| CallActSetId (id : Z)
| CallActLoadSpeed (is_forward : bool) (mph : Z)
| CallActSpeedForward
| CallActSpeedReverse
| CallActDirectionFlip
| CallActImportVariable (var : GlobalVariableId) (local_id : Z).

Definition call (c : OpCall) : prog Op unit :=
  match c with
  | CallIfState st => IfState st
  | CallIfReg var v => IfReg var v
  | CallIfReg0 var => IfReg0 var
  | CallIfReg1 var => IfReg1 var
  | CallIfTimerDone => IfTimerDone
  | CallIfTimerNotDone => IfTimerNotDone
  | CallIfAspect v => IfAspect v
  | CallIfGetSpeed => IfGetSpeed
  | CallIfSetSpeed => IfSetSpeed
  | CallIfSpeedIsForward => IfSpeedIsForward
  | CallIfSpeedIsReverse => IfSpeedIsReverse
  | CallIfSetEStop => IfSetEStop
  | CallIfClearEStop => IfClearEStop
  | CallActState st => ActState st
  | CallActReg var v => ActReg var v
  | CallActReg0 var => ActReg0 var
  | CallActReg1 var => ActReg1 var
  | CallActTimer sec => ActTimer sec
  | CallActSetAspect v => ActSetAspect v
  | CallActUpAspect => ActUpAspect
  | CallActSetValue var ofs v => ActSetValue var ofs v
  | CallActSetValueFromAspect var ofs => ActSetValueFromAspect var ofs
  | CallActGetValueToAspect var ofs => ActGetValueToAspect var ofs
  | CallActGetValueToSpeed var ofs => ActGetValueToSpeed var ofs
  | CallActSetId id => ActSetId id
  | CallActLoadSpeed fwd mph => ActLoadSpeed fwd mph
  | CallActSpeedForward => ActSpeedForward
  | CallActSpeedReverse => ActSpeedReverse
  | CallActDirectionFlip => ActDirectionFlip
  | CallActImportVariable var local_id => ActImportVariable (Some var) local_id
  end.

(** The instruction a call stands for. *)
Definition meaning (c : OpCall) : Condition + Action :=
  match c with
  | CallIfState st => inl (TestState st)
  | CallIfReg var v => inl (TestReg var v)
  | CallIfReg0 var => inl (TestReg var false)
  | CallIfReg1 var => inl (TestReg var true)
  | CallIfTimerDone => inl (TestReg 0 false)
  | CallIfTimerNotDone => inl (TestReg 0 true)
  | CallIfAspect v => inl (TestAspect v)
  | CallIfGetSpeed => inl QuerySpeed
  | CallIfSetSpeed => inl CommandSpeed
  | CallIfSpeedIsForward => inl TestForward
  | CallIfSpeedIsReverse => inl TestReverse
  | CallIfSetEStop => inl StopEmergency
  | CallIfClearEStop => inl StartEmergency
  | CallActState st => inr (ChangeState st)
  | CallActReg var v => inr (WriteReg var v)
  | CallActReg0 var => inr (WriteReg var false)
  | CallActReg1 var => inr (WriteReg var true)
  | CallActTimer sec => inr (ChangeTimer sec)
  | CallActSetAspect v => inr (ChangeAspect v)
  | CallActUpAspect => inr RaiseAspect
  | CallActSetValue var ofs v => inr (SetValue var ofs v)
  | CallActSetValueFromAspect var ofs => inr (SetValueFromAspect var ofs)
  | CallActGetValueToAspect var ofs => inr (GetValueToAspect var ofs)
  | CallActGetValueToSpeed var ofs => inr (GetValueToSpeed var ofs)
  | CallActSetId id => inr (LoadEvent 0 id)
  | CallActLoadSpeed fwd mph =>
      let mph := Z.min mph 127 in inr (LoadSpeed (if fwd then mph else mph + 128))
  | CallActSpeedForward => inr SpeedForward
  | CallActSpeedReverse => inr SpeedReverse
  | CallActDirectionFlip => inr SpeedFlip
  | CallActImportVariable var local_id =>
      inr (Import local_id (gid_arg var) (gid_id var mod 2 ^ 16))
  end.

(** The ranges of the C++ types and of the assertions. *)
Definition call_ok (c : OpCall) : Prop :=
  match c with
  | CallIfState st | CallActState st => 0 <= st < 32
  | CallIfReg var _ | CallIfReg0 var | CallIfReg1 var
  | CallActReg var _ | CallActReg0 var | CallActReg1 var => 0 <= var < 32
  | CallIfAspect v | CallActSetAspect v | CallActLoadSpeed _ v => 0 <= v < 256
  | CallActTimer sec => 0 <= sec < 32
  | CallActSetValue var ofs v => 0 <= var < 32 /\ 0 <= ofs < 8 /\ 0 <= v < 256
  | CallActSetValueFromAspect var ofs | CallActGetValueToAspect var ofs
  | CallActGetValueToSpeed var ofs => 0 <= var < 32 /\ 0 <= ofs < 8
  | CallActSetId id => 0 <= id < 2 ^ 64
  | CallActImportVariable var local_id => 0 <= local_id < 32 /\ 0 <= gid_arg var < 2 ^ 11
  | _ => True
  end.

Definition add_meaning (m : Condition + Action) (o : Operation) : Operation :=
  match m with
  | inl c => mkOperation (c :: conditions o) (actions o)
  | inr a => mkOperation (conditions o) (a :: actions o)
  end.

Fixpoint run_calls (l : list OpCall) : prog Op unit :=
  match l with
  | [] => mret tt
  | c :: l => call c;; run_calls l
  end.

(** The operation that [Def()] followed by the calls stands for. *)
Definition operation_of (l : list OpCall) : Operation :=
  foldr (fun c => add_meaning (meaning c)) (mkOperation [] []) l.

(** ** Lemmas *)

Definition appended (m : Condition + Action) (o : Op) : Op :=
  match m with
  | inl c => mkOp (output_ o) (ifs_ o ++ encode_condition c) (acts_ o)
  | inr a => mkOp (output_ o) (ifs_ o) (acts_ o ++ encode_action a)
  end.

Lemma state_fits_small st : 0 <= st < 32 -> state_fits st = true.
Proof. intros H. by each_value H 32%nat. Qed.

Lemma with_id_small v var ifs acts :
  0 <= var < 32 -> with_id v var (mkOp true ifs acts) = Done (Z.lor v var) (mkOp true ifs acts).
Proof.
  intros Hv. unfold with_id, LocalVariable_GetId, hassert. simpl.
  destruct (Z.leb_spec 0 var), (Z.ltb_spec var 32); try lia. done.
Qed.

Lemma bind_with_id {A} (k : Z -> prog Op A) v var ifs acts :
  0 <= var < 32 -> (with_id v var ≫= k) (mkOp true ifs acts) = k (Z.lor v var) (mkOp true ifs acts).
Proof. intros Hv. unfold mbind, prog_bind. by rewrite with_id_small. Qed.

Lemma bind_hassert {S A} (b : bool) (k : unit -> prog S A) s :
  b = true -> (hassert b ≫= k) s = k tt s.
Proof. by intros ->. Qed.

Lemma bind_push_act {A} (k : unit -> prog Op A) b o :
  (push_act b ≫= k) o = k tt (mkOp (output_ o) (ifs_ o) (push_back (acts_ o) b)).
Proof. done. Qed.

Lemma push_back_app {A} (l : list A) l' x : push_back (l ++ l') x = l ++ push_back l' x.
Proof. unfold push_back. by rewrite app_assoc. Qed.

Lemma value_argument_at var ofs ifs acts :
  0 <= var < 32 -> 0 <= ofs < 8 ->
  value_argument var ofs (mkOp true ifs acts) =
  Done tt (mkOp true ifs (push_back acts (var_byte var ofs))).
Proof.
  intros Hv Ho. unfold value_argument.
  rewrite bind_hassert by (destruct (Z.leb_spec 0 ofs), (Z.ltb_spec ofs 8); lia || done).
  rewrite bind_with_id by done. unfold var_byte.
  rewrite u8_small; [done|]. each_value Ho 8%nat; by vm_compute.
Qed.

Lemma push_acts_at l o : push_acts l o = Done tt (mkOp (output_ o) (ifs_ o) (acts_ o ++ l)).
Proof.
  revert o. induction l as [|b l IH]; intros o.
  - simpl. rewrite app_nil_r. by destruct o.
  - cbn [push_acts]. rewrite bind_push_act, IH. simpl. unfold push_back. by rewrite <- app_assoc.
Qed.

Lemma speed_byte mph : 0 <= mph < 128 -> Z.lor mph 0x80 = mph + 128.
Proof. intros H. by each_value H 128%nat. Qed.

(** The id of a global variable is cut to two bytes. *)
Lemma import_bytes_id x :
  Z.land x 0xff = Z.land (x mod 2 ^ 16) 0xff /\
  Z.land (Z.shiftr x 8) 0xff = Z.land (Z.shiftr (x mod 2 ^ 16) 8) 0xff.
Proof.
  split; apply Z.bits_inj'; intros i Hi; rewrite !Z.land_spec;
    (destruct (Z.ltb_spec i 8);
      [|change 0xff with (Z.ones 8); rewrite (Z.ones_spec_high 8 i) by lia; by rewrite !andb_false_r]);
    f_equal; rewrite ?Z.shiftr_spec, Z.mod_pow2_bits_low by lia; done.
Qed.

Lemma call_appends c ifs acts :
  call_ok c -> call c (mkOp true ifs acts) = Done tt (appended (meaning c) (mkOp true ifs acts)).
Proof.
  destruct c; simpl; intros Hok; try done;
    try (unfold IfState, ActState; rewrite bind_hassert by (by apply state_fits_small); done);
    try (unfold IfReg, ActReg, IfReg0, IfReg1, ActReg0, ActReg1; rewrite bind_with_id by done; done).
  - (* IfAspect *) unfold IfAspect, push_if, modify_state, mbind, prog_bind, push_back. simpl.
    by rewrite <- app_assoc.
  - (* ActTimer *) unfold ActTimer. rewrite bind_hassert by (by each_value Hok 32%nat).
    rewrite u8_small by (each_value Hok 32%nat; by vm_compute). done.
  - unfold ActSetAspect. rewrite bind_push_act. unfold push_act, modify_state, push_back. simpl.
    by rewrite <- app_assoc.
  - destruct Hok as (? & ? & ?). unfold ActSetValue. rewrite bind_push_act.
    unfold mbind, prog_bind. cbn [output_ ifs_ acts_]. rewrite value_argument_at by done.
    unfold push_act, modify_state, push_back. simpl. by rewrite <- !app_assoc.
  - destruct Hok. unfold ActSetValueFromAspect. rewrite bind_push_act. cbn [output_ ifs_ acts_].
    rewrite value_argument_at by done. unfold push_back. by rewrite <- app_assoc.
  - destruct Hok. unfold ActGetValueToAspect. rewrite bind_push_act. cbn [output_ ifs_ acts_].
    rewrite value_argument_at by done. unfold push_back. by rewrite <- app_assoc.
  - destruct Hok. unfold ActGetValueToSpeed. rewrite bind_push_act. cbn [output_ ifs_ acts_].
    rewrite value_argument_at by done. unfold push_back. by rewrite <- app_assoc.
  - unfold ActSetId. rewrite !bind_push_act, push_acts_at. unfold push_back. simpl.
    by rewrite <- !app_assoc.
  - unfold ActLoadSpeed. rewrite bind_push_act. unfold push_act, modify_state, push_back. simpl.
    rewrite <- app_assoc. simpl. do 5 f_equal. destruct (Z.ltb_spec 127 mph).
    + rewrite Z.min_r by lia. by destruct is_forward.
    + rewrite Z.min_l by lia. destruct is_forward; [done|]. f_equal. apply speed_byte. lia.
  - destruct Hok as [Hl Ha]. unfold ActImportVariable.
    rewrite bind_hassert by (apply Z.leb_le; lia). rewrite bind_push_act.
    unfold mbind at 1, prog_bind at 1. cbn [output_ ifs_ acts_ GetId mret prog_ret].
    unfold u16. rewrite (Z.mod_small (gid_arg var)) by lia.
    rewrite bind_hassert by (apply Z.ltb_lt; change (Z.shiftl 8 8) with 2048; lia).
    rewrite bind_hassert by (apply Z.ltb_lt; lia).
    replace (Z.land local_id 31) with local_id by (symmetry; apply (land_ones_small _ 5); lia).
    destruct (import_bytes_id (gid_id var)) as [-> ->].
    rewrite !bind_push_act. unfold push_act, modify_state, push_back. simpl.
    by rewrite <- !app_assoc.
Qed.

Lemma run_calls_append l ifs acts :
  Forall call_ok l ->
  run_calls l (mkOp true ifs acts) =
  Done tt (mkOp true (ifs ++ encode_conditions (conditions (operation_of l)))
             (acts ++ encode_actions (actions (operation_of l)))).
Proof.
  intros Hl. revert ifs acts. induction Hl as [|c l Hc Hl IH]; intros ifs acts.
  - simpl. by rewrite !app_nil_r.
  - cbn [run_calls]. unfold mbind, prog_bind. rewrite call_appends by done.
    cbn [operation_of foldr]. fold (operation_of l).
    destruct (meaning c) as [x|x]; simpl appended; rewrite IH; simpl; by rewrite <- !app_assoc.
Qed.

Lemma meaning_wf c :
  call_ok c ->
  match meaning c with
  | inl x => wf_condition x
  | inr x => wf_action x /\ forall p, placed p x
  end.
Proof.
  destruct c; simpl; intros Hok; try done; try (split; [lia|done]).
  - split; [|by destruct is_forward]. destruct is_forward; simpl; lia.
  - destruct Hok. pose proof (Z.mod_pos_bound (gid_id var) (2 ^ 16)). split; [lia|done].
Qed.

Lemma operation_of_wf p l :
  Forall call_ok l ->
  zlen (encode_conditions (conditions (operation_of l))) < 16 ->
  zlen (encode_actions (actions (operation_of l))) < 16 -> l <> [] ->
  wf_operation p (operation_of l).
Proof.
  intros Hl Hc Ha Hne.
  assert (Hwf : Forall wf_condition (conditions (operation_of l)) /\
                Forall wf_action (actions (operation_of l)) /\
                forall q, placed_actions q (actions (operation_of l))).
  { clear -Hl. induction Hl as [|c l Hc _ (H1 & H2 & H3)]; [done|].
    cbn [operation_of foldr]. fold (operation_of l).
    pose proof (meaning_wf c Hc) as Hm. destruct (meaning c) as [x|x]; simpl.
    - split; [by constructor|done].
    - destruct Hm as [Hm Hp]. split; [done|]. split; [by constructor|].
      intros q. split; [apply Hp|apply H3]. }
  destruct Hwf as (H1 & H2 & H3). split; try done.
  destruct l as [|c l]; [done|]. cbn [operation_of foldr]. fold (operation_of l).
  destruct (meaning c) as [x|x]; cbn -[encode_condition encode_action];
    intros [E1 E2]%app_eq_nil.
  - apply app_eq_nil in E1 as [E1 _]. pose proof (encode_condition_nonempty x) as H; by rewrite E1 in H.
  - apply app_eq_nil in E2 as [E2 _]. pose proof (encode_action_nonempty x) as H; by rewrite E2 in H.
Qed.

Lemma CreateOperation_encodes o out :
  zlen (encode_conditions (conditions o)) < 16 -> zlen (encode_actions (actions o)) < 16 ->
  CreateOperation (encode_conditions (conditions o)) (encode_actions (actions o)) (Some out) =
  Done tt (Some (out ++ encode_operation o)).
Proof.
  intros Hc Ha. unfold CreateOperation. rewrite !bind_hassert by (by apply Z.ltb_lt).
  unfold modify_state. do 2 f_equal. unfold encode_operation, header, push_back.
  rewrite <- app_assoc. do 2 f_equal.
  pose proof (zlen_nonneg (encode_conditions (conditions o))).
  pose proof (zlen_nonneg (encode_actions (actions o))).
  replace (Z.land (zlen (encode_actions (actions o))) 15) with (zlen (encode_actions (actions o)))
    by (symmetry; apply (land_ones_small _ 4); lia).
  replace (Z.land (zlen (encode_conditions (conditions o))) 15)
    with (zlen (encode_conditions (conditions o))) by (symmetry; apply (land_ones_small _ 4); lia).
  rewrite u8_small; [done|]. unfold is_uint8. rewrite Z.shiftl_mul_pow2 by lia. lia.
Qed.

(** ** Bodies *)

(** Calls that [Def()] accepts. *)
Record def_ok (l : list OpCall) : Prop := {
  def_calls : Forall call_ok l;
  def_conditions : zlen (encode_conditions (conditions (operation_of l))) < 16;
  def_actions : zlen (encode_actions (actions (operation_of l))) < 16;
  def_nonempty : l <> []
}.

(** [Def] looks at what the calls do, and does not read the state but for its
    output. *)
Lemma Def_ext m m' a : (forall o, m o = m' o) -> Def m a = Def m' a.
Proof. intros H. unfold Def, make_op. by rewrite H. Qed.

Lemma Def_appends l a out :
  def_ok l -> aut_output_ a = Some out ->
  Def (run_calls l) a = Done tt (set_output (Some (out ++ encode_operation (operation_of l))) a).
Proof.
  intros [Hl Hc Ha _] Ho. unfold Def, make_op. rewrite Ho, bool_decide_true by done.
  rewrite run_calls_append by done. simpl. by rewrite CreateOperation_encodes.
Qed.

(** Programs without declarations, which are well-formed at every offset. *)
Definition wf_body (l : list Operation) : Prop := forall p, wf_program p l.

Lemma wf_body_app l1 l2 : wf_body l1 -> wf_body l2 -> wf_body (l1 ++ l2).
Proof.
  intros H1 H2 p. specialize (H1 p). revert p H1. induction l1 as [|o l IH]; intros p H1; [apply H2|].
  destruct H1 as [Ho H1]. split; [done|]. by apply IH.
Qed.

Lemma encode_program_app l1 l2 : encode_program (l1 ++ l2) = encode_program l1 ++ encode_program l2.
Proof. apply bind_app. Qed.

(** [m] answers [x] and appends the operations [l] to the output. *)
Definition emits {A} (m : prog AutomataDef A) (a : AutomataDef) (x : A) (a' : AutomataDef)
    (l : list Operation) : Prop :=
  wf_body l /\
  forall out, m (set_output (Some out) a) =
              Done x (set_output (Some (out ++ encode_program l)) a').

Lemma emits_quiet {A} (m : prog AutomataDef A) a x a' :
  (forall out, m (set_output (Some out) a) = Done x (set_output (Some out) a')) ->
  emits m a x a' [].
Proof. intros H. split; [by intros p|]. intros out. by rewrite H, app_nil_r. Qed.

Lemma emits_ret {A} (x : A) a : emits (mret x) a x a [].
Proof. by apply emits_quiet. Qed.

Lemma emits_bind {A B} (m : prog AutomataDef A) (k : A -> prog AutomataDef B) a x a1 y a2 l1 l2 :
  emits m a x a1 l1 -> emits (k x) a1 y a2 l2 -> emits (m ≫= k) a y a2 (l1 ++ l2).
Proof.
  intros [H1 Hm] [H2 Hk]. split; [by apply wf_body_app|]. intros out.
  unfold mbind, prog_bind. rewrite Hm, Hk. by rewrite encode_program_app, app_assoc.
Qed.

Lemma emits_Def l a : def_ok l -> emits (Def (run_calls l)) a tt a [operation_of l].
Proof.
  intros Hok. split.
  - intros p. split; [|done]. by destruct Hok; apply operation_of_wf.
  - intros out. rewrite (Def_appends l _ out) by done. cbn. by rewrite app_nil_r.
Qed.

Lemma emits_Def_ext m l a :
  def_ok l -> (forall o, m o = run_calls l o) -> emits (Def m) a tt a [operation_of l].
Proof.
  intros Hok Hm. destruct (emits_Def l a Hok) as [H1 H2]. split; [done|]. intros out.
  by rewrite <- H2, (Def_ext m (run_calls l)).
Qed.

Lemma emits_Render body a a' l out :
  emits body (ClearUsedVariables a) tt a' l ->
  Render body (Some out) a = Done (Some (out ++ encode_program l ++ [0])) (set_output None a').
Proof.
  intros [_ H]. unfold Render, mbind, prog_bind, modify_state, get_state.
  change (ClearUsedVariables (set_output (Some out) a))
    with (set_output (Some out) (ClearUsedVariables a)).
  rewrite H. simpl. unfold push_back. by rewrite <- app_assoc.
Qed.

(** ** Local variables *)

(** What a body may do to its automata. *)
Inductive BuildStep :=
| StepImport (key : nat) (var : option GlobalVariableId)
| StepReserve
| StepNewState
| StepClear
| StepDef (m : prog Op unit).

Definition build_step (s : BuildStep) : prog AutomataDef unit :=
  match s with
  | StepImport key var => ImportVariable key var;; mret tt
  | StepReserve => ReserveVariable;; mret tt
  | StepNewState => NewUserState;; mret tt
  | StepClear => modify_state ClearUsedVariables
  | StepDef m => Def m
  end.

Fixpoint build_steps (l : list BuildStep) : prog AutomataDef unit :=
  match l with
  | [] => mret tt
  | s :: l => build_step s;; build_steps l
  end.

(** Every local variable has an id of its own that the interpreter can import,
    the timer has 0, and no reserved id is among them. *)
Record ids_ok (a : AutomataDef) : Prop := {
  ids_timer : used_variables_ a !! None = Some timer_bit_;
  ids_range key id : used_variables_ a !! Some key = Some id -> 1 <= id < next_variable_id_ a;
  ids_import k id : used_variables_ a !! k = Some id -> 0 <= id < MAX_IMPORT_VAR;
  ids_distinct k1 k2 id :
    used_variables_ a !! k1 = Some id -> used_variables_ a !! k2 = Some id -> k1 = k2;
  ids_unreserved k id : used_variables_ a !! k = Some id -> id ∉ reserved_variables_ a;
  ids_reserved id : id ∈ reserved_variables_ a -> 1 <= id < MAX_IMPORT_VAR;
  ids_next : 1 <= next_variable_id_ a
}.

Lemma skip_reserved_spec fuel (reserved : gset Z) n :
  (forall id, id ∈ reserved -> 1 <= id < MAX_IMPORT_VAR) -> 1 <= n ->
  MAX_IMPORT_VAR - n <= Z.of_nat fuel ->
  n <= skip_reserved fuel reserved n /\ skip_reserved fuel reserved n ∉ reserved.
Proof.
  unfold MAX_IMPORT_VAR. intros Hr. revert n. induction fuel as [|fuel IH]; intros n Hn Hf; simpl.
  - split; [lia|]. intros H. specialize (Hr n H). lia.
  - case_bool_decide as Hin; [|by split; [lia|]].
    specialize (Hr n Hin). destruct (IH (n + 1)) as [H1 H2]; [lia..|]. split; [lia|done].
Qed.

Lemma GetNextVariableId_spec a n a' :
  ids_ok a -> GetNextVariableId a = Done n a' ->
  a' = set_next_variable_id (n + 1) a /\ next_variable_id_ a <= n < MAX_IMPORT_VAR /\
  n ∉ reserved_variables_ a.
Proof.
  intros Hok. unfold GetNextVariableId, hassert.
  pose proof (ids_next _ Hok).
  destruct (skip_reserved_spec 32 (reserved_variables_ a) (next_variable_id_ a)) as [H1 H2];
    [apply Hok|done|unfold MAX_IMPORT_VAR; lia|].
  destruct (Z.ltb_spec (skip_reserved 32 (reserved_variables_ a) (next_variable_id_ a)) MAX_IMPORT_VAR);
    [|done].
  by intros [= <- <-].
Qed.

(** A new id may be given to a new variable. *)
Lemma ids_ok_insert a key n :
  ids_ok a -> next_variable_id_ a <= n < MAX_IMPORT_VAR -> n ∉ reserved_variables_ a ->
  used_variables_ a !! Some key = None ->
  ids_ok (set_used (<[Some key := n]> (used_variables_ a)) (set_next_variable_id (n + 1) a)).
Proof.
  intros [Ht Hr Hi Hd Hu Hv Hn] Hrange Hres Hnew.
  assert (Hfresh : forall k id, used_variables_ a !! k = Some id -> id <> n).
  { intros [k|] id Hk; [apply Hr in Hk; lia|]. rewrite Ht in Hk. injection Hk as <-.
    unfold timer_bit_. lia. }
  split; cbn.
  - by rewrite lookup_insert_ne.
  - intros k id [[[= <-] <-]|[_ Hk]]%lookup_insert_Some; [lia|]. apply Hr in Hk. lia.
  - intros k id [[<- <-]|[_ Hk]]%lookup_insert_Some; [lia|by eapply Hi].
  - intros k1 k2 id [[<- <-]|[_ H1]]%lookup_insert_Some [[<- ?]|[_ H2]]%lookup_insert_Some;
      subst; try done.
    + by apply Hfresh in H2.
    + by apply Hfresh in H1.
    + by eapply Hd.
  - intros k id [[<- <-]|[_ Hk]]%lookup_insert_Some; [done|by eapply Hu].
  - done.
  - lia.
Qed.

Lemma ids_ok_set_output o a : ids_ok a -> ids_ok (set_output o a).
Proof. by intros []. Qed.

Lemma ids_ok_clear a :
  (forall id, id ∈ reserved_variables_ a -> 1 <= id < MAX_IMPORT_VAR) ->
  ids_ok (ClearUsedVariables a).
Proof.
  intros Hv. split; cbn; try done; try lia.
  - intros key id [[=] _]%lookup_singleton_Some.
  - intros k id [<- <-]%lookup_singleton_Some. unfold timer_bit_, MAX_IMPORT_VAR. lia.
  - by intros k1 k2 id [<- _]%lookup_singleton_Some [<- _]%lookup_singleton_Some.
  - intros k id [<- <-]%lookup_singleton_Some H. apply Hv in H. unfold timer_bit_ in H. lia.
Qed.

Lemma build_step_ids s a a' : ids_ok a -> build_step s a = Done tt a' -> ids_ok a'.
Proof.
  intros Hok. destruct s as [key var| | | |m]; simpl.
  - unfold ImportVariable, mbind, prog_bind, mret, prog_ret.
    destruct (used_variables_ a !! Some key) as [id|] eqn:Hk; [by intros [= <-]|].
    destruct (GetNextVariableId a) as [n a1|a1|c] eqn:E; [|done..].
    apply GetNextVariableId_spec in E as (-> & Hn & Hr); [|done]. unfold modify_state.
    unfold hassert. destruct (n <? MAX_IMPORT_VAR); [|done]. cbn.
    unfold RenderImportVariable, Def. destruct (make_op _ _) as [[] o|o|c]; [|done..].
    intros [= <-]. apply ids_ok_set_output. by apply ids_ok_insert.
  - unfold ReserveVariable, mbind, prog_bind, mret, prog_ret, modify_state.
    destruct (GetNextVariableId a) as [n a1|a1|c] eqn:E; [|done..].
    apply GetNextVariableId_spec in E as (-> & Hn & Hr); [|done]. intros [= <-].
    destruct Hok as [Ht Hrg Hi Hd Hu Hv Hnx]. split; cbn; try done; try lia.
    + intros key id Hk. specialize (Hrg key id Hk). lia.
    + intros k id Hk. apply not_elem_of_union. split; [|by eapply Hu]. apply not_elem_of_singleton.
      destruct k as [k|]; [apply Hrg in Hk; lia|]. rewrite Ht in Hk. injection Hk as <-.
      unfold timer_bit_. lia.
    + intros id [->%elem_of_singleton|H]%elem_of_union; [lia|by apply Hv].
  - unfold NewUserState, hassert, mbind, prog_bind, mret, prog_ret.
    destruct (_ =? 0); [|done]. intros [= <-]. by destruct Hok.
  - intros [= <-]. apply ids_ok_clear, Hok.
  - unfold Def. destruct (make_op _ _) as [[] o|o|c]; [|done..]. intros [= <-].
    by apply ids_ok_set_output.
Qed.

Lemma ids_ok_new : ids_ok AutomataDef_new.
Proof. apply ids_ok_clear. set_solver. Qed.

Lemma build_steps_ids l a a' : ids_ok a -> build_steps l a = Done tt a' -> ids_ok a'.
Proof.
  revert a. induction l as [|s l IH]; intros a Hok; simpl; [by intros [= <-]|].
  unfold mbind, prog_bind. destruct (build_step s a) as [[] a1|a1|c] eqn:E; [|done..].
  apply IH. by eapply build_step_ids.
Qed.

(** The body that writes the given operations. *)
Fixpoint def_body (ds : list (list OpCall)) : prog AutomataDef unit :=
  match ds with
  | [] => mret tt
  | d :: ds => Def (run_calls d);; def_body ds
  end.

Lemma emits_def_body ds a : Forall def_ok ds -> emits (def_body ds) a tt a (List.map operation_of ds).
Proof.
  induction 1 as [|d ds Hd Hds IH]; [apply emits_ret|].
  change (List.map operation_of (d :: ds)) with ([operation_of d] ++ List.map operation_of ds).
  eapply emits_bind; [by apply emits_Def|done].
Qed.

(** ** Theorems *)

(** The interpreter does what the builder was told: when a body makes
    operations with calls whose arguments are in their ranges and that fit an
    operation, the automata that is rendered from it runs, wherever its bytes
    are put, as those operations in their order, each with the conditions and
    actions that were called. *)
Theorem rendered_body_runs {V W : Type} `{VV : !Velocity V} `{NN : !Node V W}
    (ds : list (list OpCall)) (def def' : AutomataDef) (out out' code : list Z) (a : nat)
    (x : Automata) (s : AutomataRunner (V := V) (W := W)) :
  Forall def_ok ds ->
  Render (def_body ds) (Some out) def = Done (Some (out ++ out')) def' ->
  zlen code < 2 ^ 31 -> logEventId_ (g_aut_debug_space s) = 0 ->
  automatas (core s) !! a = Some x -> bytes_at code (starting_offset_ x) out' ->
  runs_as_core (sem_program (List.map operation_of ds) (reset_imports a (core s)))
    (run_automata code a s).
Proof.
  intros Hds Hr Hc Hd Ha Hb. pose proof (emits_def_body ds (ClearUsedVariables def) Hds) as He.
  rewrite (emits_Render _ _ _ _ _ He) in Hr. injection Hr as Ho _. apply app_inv_head in Ho. subst out'.
  apply (run_automata_program code a x); [done..|apply He|done].
Qed.

(** Local variables never share an id: whatever a body imports, reserves
    and defines, also after its variables were cleared, every variable in use
    has an id of its own between 0 and 31, the id 0 belongs to the timer, and no
    id that was reserved is given to a variable again. *)
Theorem import_ids_distinct l a : build_steps l AutomataDef_new = Done tt a -> ids_ok a.
Proof. apply build_steps_ids, ids_ok_new. Qed.
