(* ===== verification/AutomataBoard.v ===== *)
(** What a rendered board looks like to the runner: the table at its start has
    the offset of every automata, the preamble behind it declares the
    variables under their ids, and the programs follow. *)

From S2P Require Import Prelude AutomataDefs Automata AutomataTermination AutomataOps AutomataSim AutomataBuild.

(** ** The table *)

Definition table_entry (o : Z) : list Z := [Z.land o 0xff; Z.land (Z.shiftr o 8) 0xff].

Definition table (os : list Z) : list Z := (os ≫= table_entry) ++ [0; 0].

Lemma zlen_table os : zlen (table os) = 2 * zlen os + 2.
Proof.
  unfold table. rewrite zlen_app. change (zlen [0; 0]) with 2. induction os as [|o os IH]; [done|].
  change ((o :: os) ≫= table_entry) with (table_entry o ++ (os ≫= table_entry)).
  rewrite zlen_app, zlen_cons. change (zlen (table_entry o)) with 2. lia.
Qed.

Definition blank_table (n : nat) : list Z := replicate (2 * n) 0 ++ [0; 0].

Fixpoint with_pointers (ptr : Z) (l : list AutomataInfo) : list AutomataInfo :=
  match l with
  | [] => []
  | i :: l => mkInfo (automata i) (automata_body i) ptr (offset i) :: with_pointers (ptr + 2) l
  end.

Lemma render_table_blank l out :
  render_table l out = (with_pointers (zlen out) l, out ++ blank_table (length l)).
Proof.
  revert out. induction l as [|i l IH]; intros out; [done|].
  cbn [render_table with_pointers]. rewrite IH. rewrite zlen_app.
  change (zlen [0; 0]) with 2. f_equal. unfold blank_table.
  replace (2 * length (i :: l))%nat with (S (S (2 * length l))) by (simpl; lia).
  by rewrite <- app_assoc.
Qed.

(** The programs behind each other, and where they start. *)
Definition programs (ps : list (list Operation)) : list Z :=
  ps ≫= fun p => encode_program p ++ [0].

Fixpoint offsets (start : Z) (ps : list (list Operation)) : list Z :=
  match ps with
  | [] => []
  | p :: ps => start :: offsets (start + zlen (encode_program p) + 1) ps
  end.

Lemma length_offsets start ps : length (offsets start ps) = length ps.
Proof. revert start. induction ps as [|p ps IH]; intros start; simpl; [done|]. by rewrite IH. Qed.

(** [i] renders the program [p] when variables have the ids [ids]. *)
Definition info_renders (ids : nat -> option Z) (i : AutomataInfo) (p : list Operation) : Prop :=
  wf_body p /\
  forall out, exists a',
    Render (automata_body i ids) (Some out) (automata i) =
    Done (Some (out ++ encode_program p ++ [0])) a'.

Lemma patch_pointer_middle pre post o :
  patch_pointer (zlen pre) o (pre ++ 0 :: 0 :: post) = pre ++ table_entry o ++ post.
Proof.
  unfold patch_pointer, zset, zlen, table_entry. rewrite !Nat2Z.id.
  replace (Z.to_nat (Z.of_nat (length pre) + 1)) with (length pre + 1)%nat by lia.
  rewrite insert_app_r_alt by lia. rewrite Nat.sub_diag. simpl.
  rewrite insert_app_r_alt by lia. replace (length pre + 1 - length pre)%nat with 1%nat by lia. done.
Qed.

Lemma RenderAutomatas_layout ids infos ps pre rest :
  Forall2 (info_renders (fun n => ids !! n)) infos ps ->
  let out := pre ++ blank_table (length infos) ++ rest in
  exists infos',
    RenderAutomatas ids (with_pointers (zlen pre) infos) out =
    Done infos' (pre ++ table (offsets (zlen out) ps) ++ rest ++ programs ps) /\
    List.map offset infos' = offsets (zlen out) ps.
Proof.
  intros H. revert pre rest. induction H as [|i p infos ps [_ Hp] _ IH]; intros pre rest out.
  - exists []. by rewrite app_nil_r.
  - cbn [with_pointers RenderAutomatas]. unfold mbind, prog_bind, render_automata.
    cbn [automata_body automata ptr_offset]. destruct (Hp out) as [a' ->].
    set (bs := encode_program p ++ [0]).
    assert (E : patch_pointer (zlen pre) (zlen out) (out ++ bs) =
                (pre ++ table_entry (zlen out)) ++ blank_table (length infos) ++ rest ++ bs).
    { unfold out, blank_table.
      replace (2 * length (i :: infos))%nat with (S (S (2 * length infos))) by (simpl; lia).
      cbn [replicate]. rewrite <- !app_assoc. rewrite <- !app_comm_cons.
      by rewrite patch_pointer_middle. }
    rewrite E. destruct (IH (pre ++ table_entry (zlen out)) (rest ++ bs)) as (infos' & Hr & Ho).
    replace (zlen pre + 2) with (zlen (pre ++ table_entry (zlen out)))
      by (rewrite zlen_app; done).
    rewrite Hr.
    assert (Hz : zlen ((pre ++ table_entry (zlen out)) ++ blank_table (length infos) ++ rest ++ bs) =
                 zlen out + zlen (encode_program p) + 1).
    { rewrite <- E. unfold patch_pointer. rewrite !zlen_zset, zlen_app. unfold bs.
      rewrite zlen_app, zlen_cons, zlen_nil. lia. }
    rewrite Hz in Ho |- *. eexists. split; cycle 1.
    { cbn [offsets]. rewrite <- Ho. instantiate (1 := mkInfo a' (automata_body i) (zlen pre) (zlen out) :: infos').
      done. }
    unfold mret, prog_ret. f_equal. cbn [offsets]. unfold table, programs. cbn [mbind list_bind].
    fold bs. by rewrite <- !app_assoc.
Qed.

(** ** The preamble *)

Definition event_op (dst id : Z) : Operation := mkOperation [] [LoadEvent dst id].

Definition define_op (gofs type client arg2 : Z) : Operation :=
  mkOperation [] [DefineVar gofs type client arg2].

(** A byte variable gets its value in the preamble. *)
Definition initial_value (gofs value : Z) : list Operation :=
  [ mkOperation [] [Import fixed_var 0 (gofs mod 2 ^ 16)];
    mkOperation [] [SetValue fixed_var 0 value] ].

(** The id of a variable that is rendered at offset [p], and its operations. *)
Definition variable_id (p : Z) (v : GlobalVariable) : Z :=
  match v with
  | EventBasedVariable _ _ _ _ => p + 24
  | _ => p + 13
  end.

Definition variable_ops (p : Z) (v : GlobalVariable) : list Operation :=
  match v with
  | EventBasedVariable event_on event_off arg1 arg2 =>
      [ event_op 1 event_on; event_op 0 event_off;
        define_op (p + 24) (Z.shiftr arg1 5) (Z.land arg1 31) arg2 ]
  | EventBlock event_base size =>
      [ event_op 0 event_base; define_op (p + 13) 1 (Z.shiftr size 8) (Z.land size 0xff) ]
  | SignalVariable event_base signal_id =>
      [event_op 0 event_base; define_op (p + 13) 2 0 2] ++ initial_value (p + 13) signal_id
  | ByteImportVariable event_base default_value =>
      [event_op 0 event_base; define_op (p + 13) 3 0 1] ++ initial_value (p + 13) default_value
  end.

(** The ranges of the C++ types and of the assertion on the size of a block. *)
Definition wf_variable (v : GlobalVariable) : Prop :=
  match v with
  | EventBasedVariable event_on event_off arg1 arg2 =>
      0 <= event_on < 2 ^ 64 /\ 0 <= event_off < 2 ^ 64 /\ 0 <= arg1 < 2 ^ 8 /\ 0 <= arg2 < 2 ^ 8
  | EventBlock event_base size => 0 <= event_base < 2 ^ 64 /\ 0 <= size < 2 ^ 11
  | SignalVariable event_base value | ByteImportVariable event_base value =>
      0 <= event_base < 2 ^ 64 /\ 0 <= value < 2 ^ 8
  end.

Fixpoint preamble_ops (p : Z) (l : list GlobalVariable) : list Operation :=
  match l with
  | [] => []
  | v :: l =>
      variable_ops p v ++ preamble_ops (p + zlen (encode_program (variable_ops p v))) l
  end.

Fixpoint preamble_ids (p : Z) (l : list GlobalVariable) : list Z :=
  match l with
  | [] => []
  | v :: l => variable_id p v :: preamble_ids (p + zlen (encode_program (variable_ops p v))) l
  end.

Lemma append_op_encodes acts out :
  zlen (encode_actions acts) < 16 ->
  append_op [] (encode_actions acts) out =
  Done tt (out ++ encode_operation (mkOperation [] acts)).
Proof.
  intros H. unfold append_op. pose proof (CreateOperation_encodes (mkOperation [] acts) out) as E.
  simpl conditions in E. simpl actions in E. change (encode_conditions []) with (@nil Z) in E.
  by rewrite E.
Qed.

Lemma preamble_op_encodes c a out :
  call_ok c -> meaning c = inr a -> zlen (encode_action a) < 16 ->
  preamble_op (call c) out = Done tt (out ++ encode_operation (mkOperation [] [a])).
Proof.
  intros Hc Hm Hl. unfold preamble_op, make_op. rewrite bool_decide_true by done.
  rewrite call_appends, Hm by done. cbn [appended output_ ifs_ acts_ app].
  pose proof (CreateOperation_encodes (mkOperation [] [a]) out) as E.
  simpl conditions in E. simpl actions in E. change (encode_conditions []) with (@nil Z) in E.
  change (encode_actions [a]) with (encode_action a ++ []) in E. rewrite app_nil_r in E. by rewrite E.
Qed.

Lemma CreateEventId_encodes dst id out :
  CreateEventId dst id out = Done tt (out ++ encode_operation (event_op dst id)).
Proof. apply (append_op_encodes [LoadEvent dst id]). done. Qed.

Lemma RenderHelper_encodes gofs type client arg2 arg1 out :
  arg1 = Z.lor (Z.shiftl type 5) client ->
  RenderHelper arg1 arg2 out =
  Done (zlen out + 2) (out ++ encode_operation (define_op gofs type client arg2)).
Proof.
  intros ->. unfold RenderHelper, get_state, mbind, prog_bind.
  change [_ACT_DEF_VAR; Z.lor (type ≪ 5) client; arg2]
    with (encode_actions [DefineVar gofs type client arg2]).
  by rewrite append_op_encodes.
Qed.

Lemma bind_done {S A B} (m : prog S A) (k : A -> prog S B) s a s' :
  m s = Done a s' -> (m ≫= k) s = k a s'.
Proof. intros E. unfold mbind, prog_bind. by rewrite E. Qed.

Lemma initial_value_encodes id value out :
  0 <= value < 256 ->
  (preamble_op (ActImportVariable (Some (mkGlobalId id 0)) fixed_var);;
   preamble_op (ActSetValue fixed_var 0 value);; mret id) out =
  Done id (out ++ encode_program (initial_value id value)).
Proof.
  intros Hv.
  erewrite bind_done by (by apply (preamble_op_encodes
    (CallActImportVariable (mkGlobalId id 0) fixed_var) (Import fixed_var 0 (id mod 2 ^ 16)))).
  erewrite bind_done by (apply (preamble_op_encodes (CallActSetValue fixed_var 0 value)
    (SetValue fixed_var 0 value)); [unfold fixed_var; simpl; lia|done..]).
  unfold mret, prog_ret, initial_value, encode_program. cbn [mbind list_bind].
  by rewrite app_nil_r, <- app_assoc.
Qed.

(** The lengths of the operations of the preamble. *)
Lemma event_op_length dst id : zlen (encode_operation (event_op dst id)) = 11.
Proof. done. Qed.

Lemma Render_variable_encodes v out :
  wf_variable v ->
  Render_variable v out =
  Done (variable_id (zlen out) v) (out ++ encode_program (variable_ops (zlen out) v)).
Proof.
  destruct v as [on off a1 a2|base size|base sid|base dv]; cbn [wf_variable Render_variable]; intros Hwf.
  - rewrite (bind_done _ _ _ _ _ (CreateEventId_encodes 1 on out)).
    rewrite (bind_done _ _ _ _ _ (CreateEventId_encodes 0 off _)).
    rewrite (RenderHelper_encodes (zlen out + 24) (Z.shiftr a1 5) (Z.land a1 31))
      by (symmetry; apply (field_split a1 5); lia).
    rewrite !zlen_app, !event_op_length. f_equal; [simpl; lia|].
    unfold encode_program. cbn [variable_ops mbind list_bind]. by rewrite app_nil_r, <- !app_assoc.
  - rewrite (bind_done _ _ _ _ _ (CreateEventId_encodes 0 base out)).
    rewrite bind_hassert by (apply Z.ltb_lt; change (Z.shiftl 8 8) with 2048; lia).
    rewrite (RenderHelper_encodes (zlen out + 13) 1 (Z.shiftr size 8)).
    + rewrite !zlen_app, !event_op_length. f_equal; [simpl; lia|].
      unfold encode_program. cbn [variable_ops mbind list_bind]. by rewrite app_nil_r, <- !app_assoc.
    + f_equal. apply (land_ones_small _ 3); [lia|]. apply (shiftr_range size 8 3); lia.
  - rewrite (bind_done _ _ _ _ _ (CreateEventId_encodes 0 base out)).
    erewrite bind_done by (by apply (RenderHelper_encodes (zlen out + 13) 2 0)).
    rewrite zlen_app, event_op_length. replace (zlen out + 11 + 2) with (zlen out + 13) by lia.
    rewrite initial_value_encodes by (simpl; lia).
    cbn [variable_ops variable_id]. rewrite encode_program_app. f_equal.
    by rewrite <- !app_assoc.
  - rewrite (bind_done _ _ _ _ _ (CreateEventId_encodes 0 base out)).
    erewrite bind_done by (by apply (RenderHelper_encodes (zlen out + 13) 3 0)).
    rewrite zlen_app, event_op_length. replace (zlen out + 11 + 2) with (zlen out + 13) by lia.
    rewrite initial_value_encodes by (simpl; lia).
    cbn [variable_ops variable_id]. rewrite encode_program_app. f_equal.
    by rewrite <- !app_assoc.
Qed.

Lemma render_variables_encodes l out :
  Forall wf_variable l ->
  render_variables l out =
  Done (preamble_ids (zlen out) l) (out ++ encode_program (preamble_ops (zlen out) l)).
Proof.
  intros H. revert out. induction H as [|v l Hv _ IH]; intros out.
  - simpl. by rewrite app_nil_r.
  - cbn [render_variables preamble_ids preamble_ops].
    rewrite (bind_done _ _ _ _ _ (Render_variable_encodes v out Hv)).
    rewrite (bind_done _ _ _ _ _ (IH _)), zlen_app, encode_program_app. by rewrite <- app_assoc.
Qed.

Lemma wf_program_app p l1 l2 :
  wf_program p l1 -> wf_program (p + zlen (encode_program l1)) l2 -> wf_program p (l1 ++ l2).
Proof.
  revert p. induction l1 as [|o l1 IH]; intros p H1 H2.
  - change (zlen (encode_program [])) with 0 in H2. by rewrite Z.add_0_r in H2.
  - destruct H1 as [Ho H1]. split; [done|]. apply IH; [done|].
    change (encode_program (o :: l1)) with (encode_operation o ++ encode_program l1) in H2.
    by rewrite zlen_app, Z.add_assoc in H2.
Qed.

Lemma wf_single p a :
  wf_action a -> placed (p + 1) a -> zlen (encode_action a) < 16 -> wf_operation p (mkOperation [] [a]).
Proof.
  intros Ha Hp Hl. split; try done.
  - by repeat constructor.
  - cbn. change (zlen []) with 0. by rewrite Z.add_0_r.
  - cbn [actions encode_actions mbind list_bind]. by rewrite app_nil_r.
  - cbn [actions conditions encode_actions encode_conditions mbind list_bind]. rewrite app_nil_r.
    intros E. pose proof (encode_action_nonempty a) as H. simpl in E. by rewrite E in H.
Qed.

Lemma wf_event_op p dst id : 0 <= dst < 2 -> 0 <= id < 2 ^ 64 -> wf_operation p (event_op dst id).
Proof. intros Hd Hid. by apply wf_single. Qed.

Lemma wf_initial_value p gofs value : 0 <= value < 256 -> wf_program p (initial_value gofs value).
Proof.
  intros Hv. unfold initial_value, fixed_var. pose proof (Z.mod_pos_bound gofs (2 ^ 16) ltac:(lia)).
  split; [apply wf_single; [simpl; lia|done..]|].
  split; [apply wf_single; [simpl; lia|done..]|done].
Qed.

Lemma wf_variable_ops p v : wf_variable v -> wf_program p (variable_ops p v).
Proof.
  destruct v as [on off a1 a2|base size|base sid|base dv]; cbn [wf_variable variable_ops]; intros Hwf.
  - destruct Hwf as (Hon & Hoff & H1 & H2).
    pose proof (shiftr_range a1 5 3 ltac:(lia) ltac:(lia) H1).
    pose proof (land_ones_range a1 5 ltac:(lia)). change (Z.ones 5) with 31 in *.
    cbn [wf_program]. rewrite !event_op_length.
    split; [apply wf_event_op; lia|]. split; [apply wf_event_op; lia|]. split; [|done].
    apply wf_single; [cbn [wf_action]; lia|cbn [placed]; lia|done].
  - destruct Hwf as (Hb & Hs).
    pose proof (shiftr_range size 8 3 ltac:(lia) ltac:(lia) Hs).
    pose proof (land_ones_range size 8 ltac:(lia)). change (Z.ones 8) with 255 in *.
    cbn [wf_program]. rewrite !event_op_length.
    split; [apply wf_event_op; lia|]. split; [|done].
    apply wf_single; [cbn [wf_action]; lia|cbn [placed]; lia|done].
  - destruct Hwf as (Hb & Hs). apply wf_program_app; [|apply wf_initial_value; lia].
    cbn [wf_program]. rewrite !event_op_length. split; [apply wf_event_op; lia|]. split; [|done].
    apply wf_single; [cbn [wf_action]; lia|cbn [placed]; lia|done].
  - destruct Hwf as (Hb & Hs). apply wf_program_app; [|apply wf_initial_value; lia].
    cbn [wf_program]. rewrite !event_op_length. split; [apply wf_event_op; lia|]. split; [|done].
    apply wf_single; [cbn [wf_action]; lia|cbn [placed]; lia|done].
Qed.

Lemma wf_preamble_ops p l : Forall wf_variable l -> wf_program p (preamble_ops p l).
Proof.
  intros H. revert p. induction H as [|v l Hv _ IH]; intros p; [done|].
  apply wf_program_app; [by apply wf_variable_ops|apply IH].
Qed.

(** ** Layout *)

(** The bodies of the automata can be run without output. *)
Definition dry_ok (i : AutomataInfo) : Prop :=
  exists a', Render (automata_body i no_ids) None (automata i) = Done None a'.

(** The programs of the automata after their bodies were run without output. *)
Definition renders (ids : nat -> option Z) (i : AutomataInfo) (p : list Operation) : Prop :=
  exists a', Render (automata_body i no_ids) None (automata i) = Done None a' /\
             info_renders ids (mkInfo a' (automata_body i) (ptr_offset i) (offset i)) p.

Lemma render_dry_renders ids k infos ps :
  Forall2 (renders ids) infos ps ->
  exists infos', render_dry (with_pointers k infos) = Done (with_pointers k infos') tt /\
                 Forall2 (info_renders ids) infos' ps.
Proof.
  intros H. revert k. induction H as [|i p infos ps (a' & Hd & Hr) _ IH]; intros k.
  - by exists [].
  - destruct (IH (k + 2)) as (infos' & E & Hf). cbn [with_pointers render_dry automata_body automata].
    rewrite Hd, E. eexists (mkInfo a' (automata_body i) _ (offset i) :: infos'). split; [done|].
    by constructor.
Qed.

(** A board is a table, the preamble, and the programs. *)
Lemma Board_Render_layout b ps :
  let start := 2 * zlen (automatas_ b) + 2 in
  let vars := preamble_ops start (global_variables_ b) in
  let first := start + zlen (encode_program vars) + 1 in
  Forall wf_variable (global_variables_ b) ->
  Forall2 (renders (fun n => preamble_ids start (global_variables_ b) !! n)) (automatas_ b) ps ->
  exists b', Board_Render b [] =
    Done b' (table (offsets first ps) ++ encode_program vars ++ [0] ++ programs ps) /\
    List.map offset (automatas_ b') = offsets first ps.
Proof.
  intros start vars first Hv Hr. destruct (render_dry_renders _ 0 _ _ Hr) as (infos & Hd & Hi).
  assert (Hlen : length infos = length (automatas_ b)).
  { apply Forall2_length in Hr, Hi. congruence. }
  unfold Board_Render, RenderPreamble. unfold mbind at 1, prog_bind at 1.
  rewrite render_table_blank. change (zlen (@nil Z)) with 0. rewrite Hd. cbn [app].
  assert (Hz : zlen (blank_table (length (automatas_ b))) = start).
  { unfold blank_table, start, zlen. rewrite length_app, length_replicate. simpl length. lia. }
  rewrite (bind_done _ _ _ _ _ (render_variables_encodes _ _ Hv)), Hz. fold vars.
  unfold mbind at 1, prog_bind at 1, modify_state, mret at 1, prog_ret at 1.
  cbn [ids automatas_]. unfold push_back. rewrite <- Hlen, <- !app_assoc.
  destruct (RenderAutomatas_layout (preamble_ids start (global_variables_ b)) infos ps []
              (encode_program vars ++ [0]) Hi) as (infos' & E & Ho).
  cbn [app] in E, Ho. change (zlen (@nil Z)) with 0 in E.
  assert (Hf : zlen (blank_table (length infos) ++ encode_program vars ++ [0]) = first).
  { rewrite zlen_app, Hlen, Hz, zlen_app. unfold first. by rewrite Z.add_assoc. }
  rewrite Hf in E, Ho. rewrite (bind_done _ _ _ _ _ E).
  exists (mkBoard infos' (global_variables_ b) (preamble_ids start (global_variables_ b))).
  split; [|exact Ho].
  unfold mret, prog_ret. f_equal. by rewrite <- !app_assoc.
Qed.

(** ** Reading the table *)

Lemma entry_value o :
  Z.lor (Z.land o 0xff) (Z.shiftl (Z.land (Z.shiftr o 8) 0xff) 8) = o mod 65536.
Proof.
  change 0xff with (Z.ones 8). apply Z.bits_inj'. intros i Hi. change 65536 with (2 ^ 16).
  rewrite Z.lor_spec, Z.shiftl_spec, !Z.land_spec by lia.
  destruct (Z.ltb_spec i 8).
  - rewrite (Z.ones_spec_low 8 i), Z.mod_pow2_bits_low by lia.
    rewrite (Z.testbit_neg_r _ (i - 8)) by lia. by rewrite andb_true_r, orb_false_r.
  - rewrite (Z.ones_spec_high 8 i), andb_false_r by lia. cbn [orb].
    rewrite Z.shiftr_spec by lia. replace (i - 8 + 8) with i by lia.
    destruct (Z.ltb_spec i 16).
    + rewrite Z.ones_spec_low, Z.mod_pow2_bits_low by lia. by rewrite andb_true_r.
    + rewrite Z.ones_spec_high, Z.mod_pow2_bits_high by lia. by rewrite andb_false_r.
Qed.

Lemma high_part o : Z.land o (Z.lnot 0xffff) = o - o mod 65536.
Proof.
  change 0xffff with (Z.ones 16). rewrite <- Z.ldiff_land, Z.ldiff_ones_r by lia.
  rewrite Z.shiftl_mul_pow2, Z.shiftr_div_pow2 by lia. change (2 ^ 16) with 65536.
  pose proof (Z.div_mod o 65536). lia.
Qed.

Lemma lor_high h x : 0 <= x < 65536 -> h mod 65536 = 0 -> Z.lor h x = h + x.
Proof.
  intros Hx Hh. pose proof (Z.div_mod h 65536 ltac:(lia)) as Eh.
  rewrite <- Z.lxor_lor, Z.add_nocarry_lxor; [done| |].
  all: apply Z.bits_inj'; intros i Hi; rewrite Z.land_spec, Z.bits_0.
  all: destruct (Z.ltb_spec i 16);
    [replace h with (h / 65536 * 2 ^ 16) by (change (2 ^ 16) with 65536; lia);
     rewrite Z.mul_pow2_bits_low by lia; done
    |replace x with (x mod 2 ^ 16) by (apply Z.mod_small; change (2 ^ 16) with 65536; lia);
     rewrite Z.mod_pow2_bits_high by lia; apply andb_false_r].
Qed.

(** The high half of an offset follows from the one before. *)
Lemma final_offset_next last o :
  0 <= last < o -> o < last + 65536 -> o < 2 ^ 31 ->
  final_offset last (last mod 65536) (o mod 65536) = o.
Proof.
  intros H1 H2 H3. unfold final_offset. rewrite high_part.
  pose proof (Z.mod_pos_bound last 65536). pose proof (Z.mod_pos_bound o 65536).
  pose proof (Z.div_mod last 65536). pose proof (Z.div_mod o 65536).
  assert (Hm : forall q, (last - last mod 65536 + q * 65536) mod 65536 = 0).
  { intros q. replace (last - last mod 65536 + q * 65536) with ((last / 65536 + q) * 65536) by lia.
    apply Z.mod_mul. lia. }
  destruct (Z.ltb_spec (o mod 65536) (last mod 65536)).
  - rewrite u32_small by (unfold is_uint32; lia).
    rewrite lor_high; [nia|lia|]. by rewrite <- (Hm 1), Z.mul_1_l.
  - rewrite lor_high; [nia|lia|]. by rewrite <- (Hm 0), Z.mul_0_l, Z.add_0_r.
Qed.

(** Offsets that the table can tell apart: they grow by less than 64K, and none
    looks like the end of the table. *)
Fixpoint offsets_ok (last : Z) (os : list Z) : Prop :=
  match os with
  | [] => True
  | o :: os => last < o < last + 65536 /\ o mod 65536 <> 0 /\ o < 2 ^ 31 /\ offsets_ok o os
  end.

Section Boot.
Context {V W : Type} `{VV : !Velocity V} `{NN : !Node V W}.
Context (code : list Z) (Hcode : zlen code < 2 ^ 31).
Context (d : AutomataDebugSpace) (Hdebug : logEventId_ d = 0).

Abbreviation Core := (Core (V := V) (W := W)).
Implicit Types (c : Core).

(** [new Automata(id, offset)] at the end of [all_automata_]. *)
Definition install (id o : Z) (c : Core) : Core :=
  set_all_automata (push_back (all_automata_ c) (next_address c))
    (set_automatas (<[next_address c := mkAutomata id 0 0 o]> (automatas c))
       (set_next_address (S (next_address c)) c)).

Fixpoint installed (id : Z) (os : list Z) (c : Core) : Core :=
  match os with
  | [] => c
  | o :: os => installed (id + 1) os (install id o c)
  end.

Lemma new_automata_at id o c :
  0 <= id < 256 ->
  new_automata id o c =
  Done (next_address c)
    (set_automatas (<[next_address c := mkAutomata id 0 0 o]> (automatas c))
       (set_next_address (S (next_address c)) c)).
Proof.
  intros Hid. unfold new_automata.
  destruct (Z.leb_spec 0 id); [|lia]. destruct (Z.leb_spec id 255); [|lia].
  cbn [andb]. by rewrite u8_small by (unfold is_uint8; lia).
Qed.

Lemma read_automatas_at os fuel id last i l c :
  0 <= last -> offsets_ok last os -> 0 <= id -> id + zlen os <= 256 ->
  (length os < fuel)%nat -> bytes_at code i (table os) ->
  read_automatas code fuel id last (last mod 65536) (mkRunner i l d c) =
  Some (Done tt (mkRunner (i + 2 * zlen os + 2) l d (installed id os c))).
Proof.
  revert fuel id last i c. induction os as [|o os IH]; intros fuel id last i c Hl Ho Hid Hn Hf Hb;
    (destruct fuel as [|fuel]; [simpl in Hf; lia|]); cbn [read_automatas];
    unfold mbind, fprog_bind, total.
  - change (table []) with [0; 0] in Hb. rewrite (load_mk code Hcode d i _ _ _ _ Hb).
    apply bytes_at_tail in Hb. rewrite (load_mk code Hcode d _ _ _ _ _ Hb). simpl.
    change (zlen (@nil Z)) with 0. by replace (i + 1 + 1) with (i + 2 * 0 + 2) by lia.
  - destruct Ho as (Hlo & Hz & Hmax & Ho). rewrite zlen_cons in *.
    pose proof (zlen_nonneg os).
    change (table (o :: os)) with (table_entry o ++ table os) in Hb.
    pose proof (bytes_at_app_r _ _ _ _ Hb) as Hb2. apply bytes_at_app_l in Hb.
    change (i + zlen (table_entry o)) with (i + 2) in Hb2. unfold table_entry in Hb.
    rewrite (load_mk code Hcode d i _ _ _ _ Hb). apply bytes_at_tail in Hb.
    rewrite (load_mk code Hcode d _ _ _ _ _ Hb). rewrite entry_value.
    apply Z.eqb_neq in Hz. rewrite Hz, final_offset_next by lia.
    unfold on_core. cbn [core]. rewrite new_automata_at by lia. unfold fmodify, set_core.
    cbn [ip_ last_ip_ g_aut_debug_space core]. replace (i + 1 + 1) with (i + 2) by lia.
    change (set_all_automata _ _) with (install id o c).
    rewrite IH; [|simpl in Hf; lia || done..].
    cbn [installed]. by replace (i + 2 * (1 + zlen os) + 2) with (i + 2 + 2 * zlen os + 2) by lia.
Qed.

End Boot.

(** ** Declared variables *)

Lemma DecodeOffset_some n client ofs bit :
  0 <= n -> DecodeOffset n = Some (client, ofs, bit) ->
  0 <= client < 8 /\ 0 <= ofs < 24 /\ 0 <= bit < 8 /\
  n = client * 64 + (ofs - OFS_BITS) / LEN_AUTOMATA * 8 + bit.
Proof.
  intros Hn. unfold DecodeOffset, LEN_AUTOMATA, OFS_BITS.
  destruct (Z.ltb_spec (Z.shiftr (Z.shiftr n 3) 3) 8) as [Hc|]; [|done]. intros [= <- <- <-].
  change (Z.land n 7) with (Z.land n (Z.ones 3)).
  change (Z.land (Z.shiftr n 3) 7) with (Z.land (Z.shiftr n 3) (Z.ones 3)).
  rewrite !Z.land_ones in * by lia. rewrite !Z.shiftr_div_pow2 in * by lia.
  change (2 ^ 3) with 8 in *.
  rewrite Z.add_simpl_r, Z.div_mul by lia.
  pose proof (Z.mod_pos_bound n 8). pose proof (Z.mod_pos_bound (n / 8) 8).
  pose proof (Z.div_mod n 8). pose proof (Z.div_mod (n / 8) 8).
  assert (0 <= n / 8 / 8) by (apply Z.div_pos; [apply Z.div_pos|]; lia). lia.
Qed.

Lemma znth_zset_0 (l : list Z) x y z :
  znth l 0 = Some x -> znth l 1 = Some y -> znth (zset (zset l 1 z) 0 x) 1 = Some z.
Proof.
  destruct l as [|a [|b l]]; try done.
Qed.

(** The byte and the mask of the variable with a number. *)
Definition bit_place (n : Z) : option (Z * Z) :=
  '(client, ofs, bit) ← DecodeOffset n; mret (get_state_byte client ofs, Z.shiftl 1 bit).

Lemma bit_place_inj n1 n2 q :
  0 <= n1 -> 0 <= n2 -> bit_place n1 = Some q -> bit_place n2 = Some q -> n1 = n2.
Proof.
  intros H1 H2. unfold bit_place, get_state_byte.
  destruct (DecodeOffset n1) as [[[c1 o1] b1]|] eqn:E1; [|done].
  destruct (DecodeOffset n2) as [[[c2 o2] b2]|] eqn:E2; [|done]. simpl.
  apply DecodeOffset_some in E1 as (? & ? & ? & ->); [|done].
  apply DecodeOffset_some in E2 as (? & ? & ? & ->); [|done].
  intros [= <-] [= Hp Hm]. rewrite !Z.shiftl_1_l in Hm. apply Z.pow_inj_r in Hm; [|lia..]. subst b2.
  assert (c1 = c2) by lia. assert (o1 = o2) by lia. by subst.
Qed.

Lemma EventBasedVariable_new_fields on off n v :
  0 <= n -> EventBasedVariable_new on off n = Some v ->
  exists client ofs bit a2, DecodeOffset n = Some (client, ofs, bit) /\
    v = EventBasedVariable on off client a2 /\ 0 <= client < 8 /\ 0 <= a2 < 256 /\
    Z.shiftr a2 3 = ofs /\ Z.land a2 7 = bit.
Proof.
  intros Hn. unfold EventBasedVariable_new. destruct (DecodeOffset n) as [[[client ofs] bit]|] eqn:E; [|done].
  intros [= <-]. exists client, ofs, bit, (Z.lor (Z.shiftl ofs 3) bit).
  destruct (DecodeOffset_some _ _ _ _ Hn E) as (Hc & Ho & Hb & _).
  assert (Hr : 0 <= Z.lor (Z.shiftl ofs 3) bit < 256).
  { clear -Ho Hb. each_value Ho 24%nat; each_value Hb 8%nat; vm_compute; split; congruence. }
  unfold EventBasedVariable_args. split; [done|]. split; [|split; [done|split; [done|]]].
  - change (Z.shiftl 0 5) with 0. rewrite Z.lor_0_l.
    replace (Z.land client 31) with client by (symmetry; apply (land_ones_small _ 5); lia).
    replace (Z.land bit 7) with bit by (symmetry; apply (land_ones_small _ 3); lia).
    by rewrite u8_small.
  - split; [apply field_high|apply (field_low ofs 3 bit)]; lia.
Qed.

Section Declared.
Context {V W : Type} `{VV : !Velocity V} `{NN : !Node V W}.

Abbreviation Core := (Core (V := V) (W := W)).
Implicit Types (c : Core).

Lemma sem_single (a : Action) c :
  sem_operation (mkOperation [] [a]) c = sem_action a c.
Proof.
  unfold sem_operation, mbind, prog_bind. cbn [conditions actions sem_conditions sem_actions mret prog_ret].
  unfold mbind, prog_bind, mret, prog_ret. by destruct (sem_action a c) as [[] ?| |].
Qed.

Lemma eventid_at i e c : znth (aut_eventids_ c) i = Some e -> eventid i c = Done e c.
Proof. intros He. unfold eventid, array_get. by rewrite He. Qed.

Lemma sem_LoadEvent dst id e c :
  znth (aut_eventids_ c) dst = Some e ->
  sem_operation (event_op dst id) c = Done tt (set_eventids (zset (aut_eventids_ c) dst id) c).
Proof.
  intros He. unfold event_op. rewrite sem_single. cbn [sem_action].
  unfold mbind, prog_bind, eventid, array_get. by rewrite He.
Qed.

Lemma new_bit_done b c :
  exists m w, new_bit b None c =
    Done (next_address c) (set_memory m w
      (set_bits (<[next_address c := b]> (bits c)) (set_next_address (S (next_address c)) c))).
Proof.
  unfold new_bit, mbind, prog_bind, new_address, put_bit, modify_state, mret, prog_ret, send.
  destruct (bus (HandlerNew (next_address c) b)
    (memory_ (set_bits (<[next_address c := b]> (bits c)) (set_next_address (S (next_address c)) c)))
    (node_ (set_bits (<[next_address c := b]> (bits c)) (set_next_address (S (next_address c)) c))))
    as [m w] eqn:E.
  exists m, w. cbn in E |- *. by rewrite E.
Qed.

(** A variable with the number [n] is a bit of its own: the operations
    that declare it put at its id an event bit with its two events, in the byte
    and the bit that the number says, and no other number has the same byte and
    bit. *)
Theorem variable_declared p on off n v c :
  0 <= n -> EventBasedVariable_new on off n = Some v ->
  zlen (aut_eventids_ c) = 2 -> declared_bits_ c !! variable_id p v = None ->
  (exists c' l ptr mask, sem_program (variable_ops p v) c = Done tt c' /\
     bit_place n = Some (ptr, mask) /\ declared_bits_ c' !! variable_id p v = Some l /\
     bits c' !! l = Some (EventBit (mkMemoryBit on off ptr mask) false)) /\
  (forall n', 0 <= n' -> bit_place n' = bit_place n -> n' = n).
Proof.
  intros Hn Hv Hev Hnew.
  destruct (EventBasedVariable_new_fields _ _ _ _ Hn Hv) as (cl & ofs & bit & a2 & E & -> & Hc & Ha & Ho & Hb).
  assert (Hp : bit_place n = Some (get_state_byte cl ofs, Z.shiftl 1 bit)).
  { unfold bit_place. by rewrite E. }
  split; [|intros n' Hn' E'; rewrite Hp in E'; by eapply bit_place_inj].
  destruct (aut_eventids_ c) as [|e0 [|e1 [|]]] eqn:Ee; try (unfold zlen in Hev; simpl in Hev; lia).
  cbn [variable_ops sem_program variable_id].
  erewrite bind_done by (by apply (sem_LoadEvent 1 on e1); rewrite Ee).
  erewrite bind_done by (apply (sem_LoadEvent 0 off e0); cbn; by rewrite Ee).
  unfold define_op, mbind at 1, prog_bind at 1. rewrite sem_single. cbn [sem_action].
  replace (Z.shiftr cl 5) with 0 by (symmetry; clear -Hc; by each_value Hc 8%nat).
  replace (Z.land cl 31) with cl by (symmetry; apply (land_ones_small _ 5); lia).
  set (c2 := set_eventids _ _).
  assert (E2 : aut_eventids_ c2 = [off; on]) by (subst c2; cbn; by rewrite Ee).
  assert (Hcr : create_bit 0 cl a2 c2 =
                new_bit (EventBit (mkMemoryBit on off (get_state_byte cl ofs) (Z.shiftl 1 bit)) false) None c2).
  { unfold create_bit. rewrite (bind_done _ _ _ _ _ (eventid_at 1 on c2 ltac:(by rewrite E2))).
    rewrite (bind_done _ _ _ _ _ (eventid_at 0 off c2 ltac:(by rewrite E2))). cbv zeta.
    by rewrite Ho, Hb. }
  destruct (new_bit_done (EventBit (mkMemoryBit on off (get_state_byte cl ofs) (Z.shiftl 1 bit)) false) c2)
    as (m & w & Enb).
  unfold mbind, prog_bind. rewrite Hcr, Enb. unfold declare_bit. cbn in Hnew |- *. rewrite Hnew.
  eexists _, (next_address c), _, _. split; [reflexivity|]. split; [done|]. cbn.
  split; by simplify_map_eq.
Qed.

End Declared.
