(* ===== verification/AutomataRun.v ===== *)
(** Running all the automata of a board: what the runner does from its start,
    as the operations of the board and its automata. *)

From S2P Require Import Prelude AutomataDefs Automata AutomataTermination AutomataOps AutomataSim AutomataBuild AutomataBoard.

(** ** Programs that keep a part of the state *)

Section Keeps.
Context {V W : Type} `{VV : !Velocity V} `{NN : !Node V W}.

Abbreviation Core := (Core (V := V) (W := W)).
Implicit Types (c : Core).

Definition keeps {X A} (f : Core -> X) (m : prog Core A) : Prop :=
  forall c, match m c with Done _ c' | Failed c' => f c' = f c | Crashed _ => True end.

Section Rules.
Context {X : Type} (f : Core -> X).

Lemma keeps_Done {A} (m : prog Core A) c a c' : keeps f m -> m c = Done a c' -> f c' = f c.
Proof. intros Hm E. specialize (Hm c). by rewrite E in Hm. Qed.

Lemma keeps_ret {A} (a : A) : keeps f (mret a).
Proof. by intros c. Qed.

Lemma keeps_crashing {A} k : keeps f (crashing (A := A) k).
Proof. by intros c. Qed.

Lemma keeps_bind {A B} (m : prog Core A) (k : A -> prog Core B) :
  keeps f m -> (forall a, keeps f (k a)) -> keeps f (m ≫= k).
Proof.
  intros Hm Hk c. specialize (Hm c). unfold mbind, prog_bind. destruct (m c) as [a c'|c'|e]; [|done..].
  specialize (Hk a c'). destruct (k a c'); congruence.
Qed.

Lemma keeps_modify g : (forall c, f (g c) = f c) -> keeps f (modify_state g).
Proof. intros H c. apply H. Qed.

Lemma keeps_reading {A} (m : Core -> prog Core A) : (forall c, keeps f (m c)) -> keeps f (reading m).
Proof. intros H c. apply H. Qed.

Lemma keeps_fun {A} (m : Core -> prog Core A) : (forall c, keeps f (m c)) -> keeps f (fun c => m c c).
Proof. intros H c. apply H. Qed.

Lemma keeps_array_get {A} (l : list A) i : keeps f (array_get l i).
Proof. intros c. unfold array_get. by destruct (znth l i). Qed.

End Rules.

(** The automata of the runner and where their programs start. *)
Definition loaded (c : Core) : list nat * gmap nat Z :=
  (all_automata_ c, starting_offset_ <$> automatas c).

Lemma keeps_send r : keeps loaded (send r).
Proof. intros c. unfold send, modify_state. by destruct (bus r (memory_ c) (node_ c)). Qed.

Lemma keeps_the_automata a : keeps loaded (the_automata a).
Proof. intros c. unfold the_automata. by destruct (automatas c !! a). Qed.

Lemma keeps_current : keeps loaded current.
Proof. intros c. unfold current. by destruct (current_automata_ c). Qed.

Lemma keeps_the_bit l : keeps loaded (the_bit l).
Proof. intros c. unfold the_bit. by destruct (bits c !! l). Qed.

(** An automata is only replaced by one with the same program. *)
Lemma keeps_update_automata a (g : Automata -> Automata) :
  (forall x, starting_offset_ (g x) = starting_offset_ x) ->
  keeps loaded (x ← the_automata a; put_automata a (g x)).
Proof.
  intros Hg c. unfold mbind, prog_bind, the_automata.
  destruct (automatas c !! a) as [x|] eqn:E; [|done]. unfold put_automata, modify_state, loaded.
  cbn. f_equal. rewrite fmap_insert, Hg. apply insert_id. by rewrite lookup_fmap, E.
Qed.

Lemma keeps_SetState a st : keeps loaded (SetState a st).
Proof. by apply (keeps_update_automata a (fun x => mkAutomata (id_ x) st (timer_ x) (starting_offset_ x))). Qed.

Lemma keeps_SetTimer a v : keeps loaded (SetTimer a v).
Proof.
  by apply (keeps_update_automata a
    (fun x => mkAutomata (id_ x) (state_ x) (timer_value (id_ x) v) (starting_offset_ x))).
Qed.

Lemma keeps_Tick a : keeps loaded (Tick a).
Proof.
  by apply (keeps_update_automata a
    (fun x => mkAutomata (id_ x) (state_ x) (if timer_ x =? 0 then 0 else timer_ x - 1)
                (starting_offset_ x))).
Qed.

Lemma keeps_new_address : keeps loaded new_address.
Proof. by intros c. Qed.

Lemma keeps_storage l : keeps loaded (the_storage l).
Proof. by intros c. Qed.

End Keeps.

Create HintDb keeps.
#[export] Hint Resolve keeps_ret keeps_crashing keeps_array_get keeps_send keeps_the_automata
  keeps_current keeps_the_bit keeps_SetState keeps_SetTimer keeps_Tick keeps_new_address
  keeps_storage : keeps.
#[export] Hint Extern 1 (keeps _ (modify_state _)) => (apply keeps_modify; intros ?; reflexivity) : keeps.
#[export] Hint Extern 1 (keeps _ (diewith _)) => apply keeps_crashing : keeps.
#[export] Hint Extern 2 (keeps _ (_ ≫= _)) => (apply keeps_bind; [|intros ?]) : keeps.
#[export] Hint Extern 2 (keeps _ (reading _)) => (apply keeps_reading; intros ?) : keeps.
#[export] Hint Extern 3 (keeps _ (if ?b then _ else _)) => destruct b : keeps.
#[export] Hint Extern 3 (keeps _ (match ?b with _ => _ end)) => destruct b : keeps.

Section KeepsLoaded.
Context {V W : Type} `{VV : !Velocity V} `{NN : !Node V W}.

Abbreviation Core := (Core (V := V) (W := W)).

Lemma keeps_GetBit i : keeps (V := V) (W := W) loaded (GetBit i).
Proof.
  apply (keeps_fun loaded (fun c => p ← array_get (imported_bits_ c) i;
    match p with Some p => mret p | None => diewith CS_DIE_AUT_IMPORTERROR end)).
  intros c. auto with keeps.
Qed.

Lemma keeps_imported_arg i : keeps (V := V) (W := W) loaded (imported_arg i).
Proof. apply (keeps_fun loaded (fun c => array_get (imported_bit_args_ c) i)). auto with keeps. Qed.

Lemma keeps_eventid i : keeps (V := V) (W := W) loaded (eventid i).
Proof. apply (keeps_fun loaded (fun c => array_get (aut_eventids_ c) i)). auto with keeps. Qed.

Lemma keeps_memory_bit b : keeps (V := V) (W := W) loaded (memory_bit b).
Proof.
  apply (keeps_fun loaded (fun c => byte ← array_get (clients (memory_ c)) (bit_ptr b);
     mret (byte, memory_bit_state (bit_mask b) byte))). auto with keeps.
Qed.

Lemma keeps_get_train_speed : keeps (V := V) (W := W) loaded get_train_speed.
Proof.
  unfold get_train_speed. apply keeps_bind; [apply keeps_eventid|]. intros t c.
  by destruct (speed_query t (memory_ c) (node_ c)) as [[r m] w].
Qed.

Lemma keeps_speed_direction : keeps (V := V) (W := W) loaded speed_direction.
Proof. by intros c. Qed.

Lemma keeps_GetState a : keeps (V := V) (W := W) loaded (GetState a).
Proof. unfold GetState. auto with keeps. Qed.

Lemma keeps_GetId a : keeps (V := V) (W := W) loaded (Automata.GetId a).
Proof. unfold Automata.GetId. auto with keeps. Qed.

End KeepsLoaded.

#[export] Hint Resolve keeps_GetBit keeps_imported_arg keeps_eventid keeps_memory_bit
  keeps_get_train_speed keeps_speed_direction keeps_GetState keeps_GetId : keeps.

Section KeepsBits.
Context {V W : Type} `{VV : !Velocity V} `{NN : !Node V W}.

Abbreviation Core := (Core (V := V) (W := W)).

Lemma keeps_lock_read id : keeps (V := V) (W := W) loaded (LockBit_Read id).
Proof.
  intros c. unfold LockBit_Read. generalize (locks c). intros l. revert c.
  refine (_ : keeps loaded (mbind _ _)). auto 20 with keeps.
Qed.

Lemma keeps_lock_write id value : keeps (V := V) (W := W) loaded (LockBit_Write id value).
Proof.
  intros c. unfold LockBit_Write. generalize (locks c) at 1. intros l. revert c.
  refine (_ : keeps loaded (mbind _ _)). auto 20 with keeps.
Qed.

Lemma keeps_Read p arg : keeps (V := V) (W := W) loaded (Read p arg).
Proof.
  pose proof keeps_lock_read. unfold Read, EventBit_Read. auto 20 with keeps.
Qed.

Lemma keeps_write_client p b : keeps (V := V) (W := W) loaded (write_client p b).
Proof. unfold write_client. auto with keeps. Qed.

Lemma keeps_write_storage p b : keeps (V := V) (W := W) loaded (write_storage p b).
Proof. unfold write_storage. auto with keeps. Qed.

Lemma keeps_put_bit l b : keeps (V := V) (W := W) loaded (put_bit l b).
Proof. unfold put_bit. auto with keeps. Qed.

End KeepsBits.

#[export] Hint Resolve keeps_lock_read keeps_lock_write keeps_Read keeps_write_client
  keeps_write_storage keeps_put_bit : keeps.

Section KeepsActions.
Context {V W : Type} `{VV : !Velocity V} `{NN : !Node V W}.

Abbreviation Core := (Core (V := V) (W := W)).

Lemma keeps_Write p arg value : keeps (V := V) (W := W) loaded (Write p arg value).
Proof. unfold Write, EventBit_Write. auto 30 with keeps. Qed.

Lemma keeps_bit_GetState p arg : keeps (V := V) (W := W) loaded (bit_GetState p arg).
Proof. unfold bit_GetState. auto 20 with keeps. Qed.

Lemma keeps_bit_SetState p arg st : keeps (V := V) (W := W) loaded (bit_SetState p arg st).
Proof.
  unfold bit_SetState, EventByteBlock_SetState, EventByteBlockConsumer_SetState.
  auto 30 with keeps.
Qed.

Lemma keeps_new_bit b data : keeps (V := V) (W := W) loaded (new_bit b data).
Proof. unfold new_bit. auto 20 with keeps. Qed.

Lemma keeps_delete_bit l : keeps (V := V) (W := W) loaded (delete_bit l).
Proof. unfold delete_bit. auto 20 with keeps. Qed.

Lemma keeps_create_bit ty cl a2 : keeps (V := V) (W := W) loaded (create_bit ty cl a2).
Proof. pose proof keeps_new_bit. unfold create_bit. auto 20 with keeps. Qed.

Lemma keeps_declare_bit gofs l : keeps (V := V) (W := W) loaded (declare_bit gofs l).
Proof.
  pose proof keeps_delete_bit.
  apply (keeps_fun loaded (fun c : Core =>
    (match declared_bits_ c !! gofs with Some old => delete_bit old | None => mret tt end;;
     modify_state (fun c => set_declared_bits (<[gofs := l]> (declared_bits_ c)) c))
    : prog Core unit)).
  auto 20 with keeps.
Qed.

Lemma keeps_import_bit var arg gofs : keeps (V := V) (W := W) loaded (import_bit var arg gofs).
Proof. intros c. unfold import_bit. by destruct (declared_bits_ c !! gofs). Qed.

Lemma keeps_Initialize l : keeps (V := V) (W := W) loaded (Initialize l).
Proof. unfold Initialize. auto 20 with keeps. Qed.

End KeepsActions.

#[export] Hint Resolve keeps_Write keeps_bit_GetState keeps_bit_SetState keeps_create_bit
  keeps_declare_bit keeps_import_bit keeps_Initialize : keeps.

Section KeepsPrograms.
Context {V W : Type} `{VV : !Velocity V} `{NN : !Node V W}.

Abbreviation Core := (Core (V := V) (W := W)).

Lemma keeps_sem_condition x : keeps (V := V) (W := W) loaded (sem_condition x).
Proof.
  destruct x; unfold sem_condition, set_speed, set_train_speed; auto 20 with keeps.
Qed.

Lemma keeps_sem_action x : keeps (V := V) (W := W) loaded (sem_action x).
Proof.
  destruct x; unfold sem_action, write_var, set_speed, change_speed; auto 20 with keeps.
  all: unfold set_speed; auto 20 with keeps.
Qed.

Lemma keeps_sem_program l : keeps (V := V) (W := W) loaded (sem_program l).
Proof.
  induction l as [|[cs acts] l IH]; cbn [sem_program]; [apply keeps_ret|].
  apply keeps_bind; [|done]. unfold sem_operation. apply keeps_bind.
  - simpl. induction cs as [|x cs IHc]; cbn [sem_conditions]; [apply keeps_ret|].
    pose proof (keeps_sem_condition x). auto with keeps.
  - intros []; [|apply keeps_ret]. simpl. clear IH.
    induction acts as [|x acts IHa]; cbn [sem_actions]; [apply keeps_ret|].
    pose proof (keeps_sem_action x). auto with keeps.
Qed.

End KeepsPrograms.

(** ** What the runner does *)

Section Runs.
Context {V W : Type} `{VV : !Velocity V} `{NN : !Node V W}.

Abbreviation Core := (Core (V := V) (W := W)).
Implicit Types (c : Core).

Fixpoint each (m : nat -> prog Core unit) (l : list nat) : prog Core unit :=
  match l with
  | [] => mret tt
  | a :: l => m a;; each m l
  end.

(** A pending tick reaches the timers of all automata. *)
Definition sem_tick : prog Core unit :=
  fun c =>
    if negb (pending_ticks_ c =? 0) then
      (each Tick (all_automata_ c);;
       modify_state (fun c => set_pending_ticks (pending_ticks_ c - 1) c)) c
    else Done tt c.

(** The automata one after the other, each with its own imports. *)
Fixpoint sem_automatas (l : list (nat * list Operation)) : prog Core unit :=
  match l with
  | [] => mret tt
  | (a, p) :: l => ((fun c => sem_program p (reset_imports a c)) : prog Core unit);; sem_automatas l
  end.

Definition sem_run (ps : list (list Operation)) : prog Core unit :=
  sem_tick;; ((fun c => sem_automatas (zip (all_automata_ c) ps) c) : prog Core unit).

(** The start of the runner. *)
Definition sem_initialize (os : list Z) (preamble : list Operation) : prog Core unit :=
  ((fun c => sem_program preamble (installed 0 os c)) : prog Core unit);;
  ((fun c => each Initialize (declared_in_order c) c) : prog Core unit);;
  modify_state (set_pending_ticks 0).

Context (code : list Z) (Hcode : zlen code < 2 ^ 31).
Context (d : AutomataDebugSpace) (Hdebug : logEventId_ d = 0).

(** The program [p] starts at offset [o]. *)
Definition program_at (o : Z) (p : list Operation) : Prop :=
  wf_program o p /\ bytes_at code o (encode_program p ++ [0]).

(** The automata of the runner have the programs [ps]. *)
Definition has_programs (ps : list (list Operation)) (x : list nat * gmap nat Z) : Prop :=
  Forall2 (fun a p => exists o, x.2 !! a = Some o /\ program_at o p) x.1 ps.

Abbreviation anyhow := (fun _ _ => True).

Lemma run_automata_ends a p o i li c :
  snd (loaded c) !! a = Some o -> program_at o p ->
  ends_as d (sem_program p (reset_imports a c)) (run_automata code a (mkRunner i li d c)) anyhow.
Proof.
  unfold loaded. cbn [snd]. rewrite lookup_fmap. intros (x & Hx & ->)%fmap_Some [Hwf Hb].
  unfold run_automata, mbind, fprog_bind, total, ResetForAutomata.
  unfold mbind, prog_bind, on_core, the_automata. cbn [core]. rewrite Hx. cbn [modify_state].
  eapply ends_as_weaken; [|by intros ? ?]. apply (Run_at code Hcode d Hdebug p); [done..|].
  apply bytes_at_bounds in Hb as [H0 Hb]. rewrite zlen_app in Hb.
  pose proof (length_encode_program p). unfold run_fuel, zlen in *. simpl in *. lia.
Qed.

Lemma each_ends (m : nat -> prog Core unit) l i li c :
  ends_as d (each m l c) (for_automata (fun a => total (on_core (m a))) l (mkRunner i li d c)) anyhow.
Proof.
  revert i li c. induction l as [|a l IH]; intros i li c; cbn [each for_automata].
  - by exists i, li.
  - eapply ends_as_bind; [|intros [] c' j lj _; apply IH].
    eapply ends_as_weaken; [apply ends_as_on_core|done].
Qed.

Lemma automatas_end l ps i li c :
  Forall2 (fun a p => exists o, snd (loaded c) !! a = Some o /\ program_at o p) l ps ->
  ends_as d (sem_automatas (zip l ps) c) (for_automata (run_automata code) l (mkRunner i li d c)) anyhow.
Proof.
  intros H. revert ps i li c H. induction l as [|a l IH]; intros ps i li c H.
  - apply Forall2_nil_inv_l in H as ->. by exists i, li.
  - apply Forall2_cons_inv_l in H as (p & ps' & (o & Ho & Hp) & H & ->).
    cbn [zip zip_with sem_automatas for_automata].
    eapply ends_as_bind_eq; [by apply (run_automata_ends a p o)|].
    intros [] c' j lj E _. apply IH.
    by rewrite (keeps_Done _ _ _ _ _ (keeps_sem_program p) E).
Qed.

Lemma ticks_end i li c :
  ends_as d (sem_tick c) (apply_pending_tick (mkRunner i li d c)) anyhow.
Proof.
  unfold sem_tick, apply_pending_tick. cbn [core]. destruct (negb _); [|by exists i, li].
  eapply ends_as_bind; [apply each_ends|]. intros [] c' j lj _. by exists j, lj.
Qed.

Lemma keeps_each (m : nat -> prog Core unit) l : (forall a, keeps loaded (m a)) -> keeps loaded (each m l).
Proof. intros Hm. induction l; cbn [each]; auto with keeps. Qed.

Lemma keeps_tick : keeps loaded sem_tick.
Proof.
  intros c. unfold sem_tick. destruct (negb _); [|done]. revert c.
  generalize (all_automata_ (V := V) (W := W)). intros f c. generalize (f c). intros l. revert c.
  refine (_ : keeps loaded (mbind _ _)). pose proof (keeps_each Tick l keeps_Tick). auto with keeps.
Qed.

Lemma keeps_sem_automatas l : keeps loaded (sem_automatas l).
Proof.
  induction l as [|[a p] l IH]; cbn [sem_automatas]; [apply keeps_ret|].
  apply keeps_bind; [|done]. intros c. apply (keeps_sem_program p (reset_imports a c)).
Qed.

Lemma keeps_sem_run ps : keeps loaded (sem_run ps).
Proof.
  apply keeps_bind; [apply keeps_tick|]. intros _ c. apply keeps_sem_automatas.
Qed.

Lemma RunAllAutomata_ends ps i li c :
  has_programs ps (loaded c) ->
  ends_as d (sem_run ps c) (RunAllAutomata code (mkRunner i li d c)) anyhow.
Proof.
  intros H. eapply ends_as_bind_eq; [apply ticks_end|]. intros [] c' j lj E _. cbn [core].
  apply automatas_end. by rewrite <- (keeps_Done _ _ _ _ _ keeps_tick E) in H.
Qed.

(** Rounds of [RunAllAutomata]. *)
Fixpoint rounds (n : nat) : fprog AutomataRunner unit :=
  match n with
  | O => mret tt
  | S n => RunAllAutomata code;; rounds n
  end.

Fixpoint sem_rounds (n : nat) (ps : list (list Operation)) : prog Core unit :=
  match n with
  | O => mret tt
  | S n => sem_run ps;; sem_rounds n ps
  end.

Lemma rounds_end n ps i li c :
  has_programs ps (loaded c) -> ends_as d (sem_rounds n ps c) (rounds n (mkRunner i li d c)) anyhow.
Proof.
  revert i li c. induction n as [|n IH]; intros i li c H; [by exists i, li|].
  cbn [sem_rounds rounds]. eapply ends_as_bind_eq; [by apply RunAllAutomata_ends|].
  intros [] c' j lj E _. apply IH. by rewrite (keeps_Done _ _ _ _ _ (keeps_sem_run ps) E).
Qed.

(** ** From the board to the runner *)

Lemma installed_next id os c : next_address (installed id os c) = (next_address c + length os)%nat.
Proof.
  revert id c. induction os as [|o os IH]; intros id c; cbn [installed]; [simpl; lia|].
  rewrite IH. simpl. lia.
Qed.

Lemma installed_all id os c :
  all_automata_ (installed id os c) = all_automata_ c ++ seq (next_address c) (length os).
Proof.
  revert id c. induction os as [|o os IH]; intros id c; cbn [installed]; [by rewrite app_nil_r|].
  rewrite IH. cbn. unfold push_back. by rewrite <- app_assoc.
Qed.

Lemma installed_old id os c a :
  (a < next_address c)%nat -> automatas (installed id os c) !! a = automatas c !! a.
Proof.
  revert id c. induction os as [|o os IH]; intros id c Ha; cbn [installed]; [done|].
  rewrite IH by (cbn; lia). cbn. apply lookup_insert_ne. lia.
Qed.

Lemma installed_new id os c :
  Forall2 (fun a o => snd (loaded (installed id os c)) !! a = Some o)
    (seq (next_address c) (length os)) os.
Proof.
  revert id c. induction os as [|o os IH]; intros id c; [constructor|]. cbn [installed seq length].
  constructor.
  - unfold loaded. cbn [snd]. rewrite lookup_fmap, installed_old by (cbn; lia). cbn.
    by simplify_map_eq.
  - apply (IH (id + 1) (install id o c)).
Qed.

Lemma installed_has_programs id os ps c :
  all_automata_ c = [] -> Forall2 program_at os ps ->
  has_programs ps (loaded (installed id os c)).
Proof.
  intros Hall Hps. unfold has_programs, loaded at 2. cbn [fst]. rewrite installed_all, Hall. cbn [app].
  pose proof (installed_new id os c) as Hn. revert Hn Hps.
  generalize (snd (loaded (installed id os c))). generalize (seq (next_address c) (length os)).
  intros l m Hn. revert ps. induction Hn; intros ps Hps; inversion Hps; subst; constructor; eauto.
Qed.

Lemma CreateVarzAndAutomatas_ends os pre i li c :
  bytes_at code 0 (table os) -> program_at (2 * zlen os + 2) pre ->
  offsets_ok 0 os -> zlen os <= 256 ->
  ends_as d (sem_program pre (installed 0 os c))
    (CreateVarzAndAutomatas code (mkRunner i li d c)) anyhow.
Proof.
  intros Ht [Hwf Hb] Ho Hn. unfold CreateVarzAndAutomatas, mbind, fprog_bind, fmodify, set_ip.
  cbn [ip_ last_ip_ g_aut_debug_space core].
  pose proof (bytes_at_bounds _ _ _ Ht) as [_ Hlen].
  pose proof (zlen_table os) as Htab.
  pose proof (read_automatas_at code Hcode d os (run_fuel code) 0 0 0 li c) as Hr.
  rewrite Z.mod_0_l in Hr by lia. rewrite Hr; [|first [done|lia|unfold run_fuel, zlen in *; lia]..].
  cbn [Z.add]. eapply ends_as_weaken; [|by intros ? ?]. apply (Run_at code Hcode d Hdebug pre); [done..|].
  apply bytes_at_bounds in Hb as [H0 Hb]. rewrite zlen_app in Hb.
  pose proof (length_encode_program pre). unfold run_fuel, zlen in *. simpl in *. lia.
Qed.

Lemma InitializeState_ends os pre i li c :
  bytes_at code 0 (table os) -> program_at (2 * zlen os + 2) pre ->
  offsets_ok 0 os -> zlen os <= 256 ->
  ends_as d (sem_initialize os pre c) (InitializeState code (mkRunner i li d c)) anyhow.
Proof.
  intros Ht Hp Ho Hn. unfold sem_initialize, InitializeState.
  eapply ends_as_bind; [by apply CreateVarzAndAutomatas_ends|]. intros [] c' j lj _.
  eapply ends_as_bind; [apply each_ends|]. intros [] c2 j2 l2 _. by exists j2, l2.
Qed.

Lemma sem_initialize_loaded os pre c c' :
  sem_initialize os pre c = Done tt c' -> loaded c' = loaded (installed 0 os c).
Proof.
  unfold sem_initialize. intros ([] & c1 & E1 & ([] & c2 & E2 & [= <-])%bind_Done)%bind_Done.
  rewrite <- (keeps_Done _ _ _ _ _ (keeps_sem_program pre) E1).
  by rewrite <- (keeps_Done _ _ _ _ _ (keeps_each Initialize _ keeps_Initialize) E2).
Qed.

End Runs.

Lemma programs_at first ps pre code :
  zlen pre = first -> Forall wf_body ps -> code = pre ++ programs ps ->
  Forall2 (program_at code) (offsets first ps) ps.
Proof.
  intros <- Hwf ->. revert pre. induction Hwf as [|p ps Hp _ IH]; intros pre; [constructor|].
  cbn [offsets]. constructor.
  - split; [apply Hp|]. exists pre, (programs ps). unfold programs. cbn [mbind list_bind].
    by rewrite <- !app_assoc.
  - specialize (IH (pre ++ encode_program p ++ [0])). rewrite zlen_app, zlen_app in IH.
    change (zlen [0]) with 1 in IH. rewrite Z.add_assoc in IH.
    replace (pre ++ programs (p :: ps)) with ((pre ++ encode_program p ++ [0]) ++ programs ps); [done|].
    unfold programs. cbn [mbind list_bind]. by rewrite <- !app_assoc.
Qed.

(** [code] is the board [b], whose automata are the operations [ps]. *)
Record board_code (b b' : Board) (ps : list (list Operation)) (code : list Z) : Prop := {
  board_renders : Board_Render b [] = Done b' code;
  board_variables : Forall wf_variable (global_variables_ b);
  board_bodies :
    Forall2 (renders (fun n => preamble_ids (2 * zlen (automatas_ b) + 2) (global_variables_ b) !! n))
      (automatas_ b) ps;
  board_count : zlen (automatas_ b) <= 256;
  board_offsets : offsets_ok 0 (List.map offset (automatas_ b'));
  board_size : zlen code < 2 ^ 31
}.

(** The operations that declare the variables of a board. *)
Definition board_preamble (b : Board) : list Operation :=
  preamble_ops (2 * zlen (automatas_ b) + 2) (global_variables_ b).

Lemma board_code_layout b b' ps code :
  board_code b b' ps code ->
  let os := List.map offset (automatas_ b') in
  zlen os = zlen (automatas_ b) /\ bytes_at code 0 (table os) /\
  program_at code (2 * zlen os + 2) (board_preamble b) /\ Forall2 (program_at code) os ps.
Proof.
  intros [Hr Hv Hb Hn Ho Hs] os. destruct (Board_Render_layout b ps Hv Hb) as (b2 & E & Eo).
  rewrite Hr in E. injection E as -> Ecode. fold os in Eo. rewrite <- Eo in Ecode.
  fold (board_preamble b) in Eo, Ecode.
  assert (Hlen : zlen os = zlen (automatas_ b)).
  { rewrite Eo. unfold zlen. rewrite length_offsets. apply Forall2_length in Hb. lia. }
  pose proof (zlen_table os) as Htab.
  split; [done|]. split; [|split].
  - exists [], (encode_program (board_preamble b) ++ [0] ++ programs ps). by rewrite Ecode.
  - split; [rewrite Hlen; by apply wf_preamble_ops|].
    exists (table os), (programs ps). rewrite Ecode, <- !app_assoc. done.
  - rewrite Eo at 1.
    apply (programs_at _ _ (table os ++ encode_program (board_preamble b) ++ [0])).
    + rewrite zlen_app, zlen_app, Htab, Hlen. change (zlen [0]) with 1. lia.
    + clear -Hb. induction Hb as [|i p infos ps (a' & _ & Hw & _) _ IH]; by constructor.
    + by rewrite Ecode, <- !app_assoc.
Qed.

(** ** Theorems *)

(** A board starts as it was built: the runner reads from the rendered code
    one automata for every automata of the board, in their order, with the
    offset where its program was put, also beyond the 64K that a table entry
    can say, and declares the variables of the board with the operations of
    their kinds; then it initializes the declared bits and drops the ticks that
    were pending. *)
Theorem board_starts {V W : Type} `{VV : !Velocity V} `{NN : !Node V W} b b' ps code
    (s : AutomataRunner (V := V) (W := W)) :
  board_code b b' ps code -> logEventId_ (g_aut_debug_space s) = 0 ->
  runs_as_core
    (sem_initialize (List.map offset (automatas_ b')) (board_preamble b) (core s))
    (InitializeState code s).
Proof.
  intros Hb Hd. destruct (board_code_layout _ _ _ _ Hb) as (Hn & Ht & Hp & _).
  destruct s as [i li d c]. eapply ends_as_core. cbn [core].
  apply InitializeState_ends; [apply Hb|done..|apply Hb|rewrite Hn; apply Hb].
Qed.

(** C2: A board runs as it was built: after the start of a runner that had no
    automata, every number of rounds has the effect of that many rounds of the
    operations of the automata of the board, one automata after the other, each
    with only its timer imported, after a pending tick reached all timers. *)
Theorem board_runs {V W : Type} `{VV : !Velocity V} `{NN : !Node V W} b b' ps code n
    (s s1 : AutomataRunner (V := V) (W := W)) :
  board_code b b' ps code -> logEventId_ (g_aut_debug_space s) = 0 ->
  all_automata_ (core s) = [] -> InitializeState code s = Some (Done tt s1) ->
  runs_as_core (sem_rounds n ps (core s1)) (rounds code n s1).
Proof.
  intros Hb Hd Hall Hi. destruct (board_code_layout _ _ _ _ Hb) as (Hn & Ht & Hp & Hps).
  set (os := List.map offset (automatas_ b')) in *. destruct s as [i li d c]. cbn in Hd, Hall.
  pose proof (InitializeState_ends code (board_size _ _ _ _ Hb) d Hd os _ i li c Ht Hp) as He.
  rewrite Hi in He.
  specialize (He (board_offsets _ _ _ _ Hb) ltac:(rewrite Hn; apply Hb)). unfold ends_as in He.
  destruct (sem_initialize os (board_preamble b) c) as [[] c1|c1|k] eqn:E; [|by destruct He as (? & ? & ?)|done].
  destruct He as (j & lj & [= ->] & _). cbn [core].
  apply (ends_as_core d _ _ (fun _ _ => True)), rounds_end; [apply Hb|done|].
  rewrite (sem_initialize_loaded _ _ _ _ E). by apply installed_has_programs.
Qed.
