(* ===== verification/AutomataThread.v ===== *)
(** The thread of the runner (src/cs/src/automata_runner.cpp) with the timer
    that wakes it, and the commands that start and stop it from other threads. *)

From S2P Require Import Prelude AutomataDefs Automata AutomataTermination.

(** ** The timer *)

Record AutomataTick := mkTick {
  count_ : Z;
  exit_ : bool
}.

Inductive TimerAction := DELETE | RESTART.

(** What [timeout] does: the action, whether it calls [AddPendingTick], and
    whether it calls [TriggerRun]. *)
Definition timeout (t : AutomataTick) : AutomataTick * (TimerAction * bool * bool) :=
  if exit_ t then (t, (DELETE, false, false))
  else
    let fires := 10 <? count_ t in
    let count := count_ t + 1 in
    (mkTick (if fires then count - 10 else count) false, (RESTART, fires, true)).

Definition new_AutomataTick : AutomataTick := mkTick 0 false.

Definition request_exit (t : AutomataTick) : AutomataTick := mkTick (count_ t) true.

(** ** Ticks *)

Section Ticks.
Context {V W : Type} `{VV : !Velocity V} `{NN : !Node V W}.
Implicit Types (c : Core (V := V) (W := W)) (s : AutomataRunner (V := V) (W := W)).

(** A call of [timeout], while [automata_running()] is [on]. *)
Definition timer_call (on : bool) (x : AutomataTick * Core (V := V) (W := W)) : AutomataTick * Core :=
  let '(t, (_, adds, _)) := timeout x.1 in
  (t, if (adds : bool) then AddPendingTick on x.2 else x.2).

Definition timer_calls (on : list bool) (x : AutomataTick * Core) : AutomataTick * Core :=
  fold_left (fun x b => timer_call b x) on x.

(** The twelfth call and every tenth after it. *)
Definition due (i : Z) : bool := (12 <=? i) && (i mod 10 =? 2).

(** The calls that are due while the automata run, from the [i]-th on. *)
Fixpoint due_ticks (i : Z) (on : list bool) : Z :=
  match on with
  | [] => 0
  | b :: on => (if b && due i then 1 else 0) + due_ticks (i + 1) on
  end.

(** The counter before the [i]-th call. *)
Definition count_before (i : Z) : Z := if i <=? 12 then i - 1 else 2 + (i - 13) mod 10.

Lemma due_count i : 1 <= i -> due i = (10 <? count_before i).
Proof.
  intros Hi. unfold due, count_before. destruct (Z.leb_spec i 12).
  - destruct (Z.leb_spec 12 i), (Z.ltb_spec 10 (i - 1)); [|lia..|done]. by replace i with 12 by lia.
  - destruct (Z.leb_spec 12 i), (Z.eqb_spec (i mod 10) 2), (Z.ltb_spec 10 (2 + (i - 13) mod 10)); cbn [andb]; Z.to_euclidean_division_equations; lia.
Qed.

Lemma count_next i :
  1 <= i -> count_before (i + 1) = if due i then count_before i + 1 - 10 else count_before i + 1.
Proof.
  intros Hi. unfold due, count_before. destruct (Z.leb_spec i 12), (Z.leb_spec (i + 1) 12), (Z.leb_spec 12 i),
    (Z.eqb_spec (i mod 10) 2); cbn [andb]; Z.to_euclidean_division_equations; lia.
Qed.

Lemma timer_calls_due on i c :
  1 <= i ->
  timer_calls on (mkTick (count_before i) false, c) =
  (mkTick (count_before (i + zlen on)) false, set_pending_ticks (pending_ticks_ c + due_ticks i on) c).
Proof.
  revert i c. induction on as [|b on IH]; intros i c Hi.
  - cbn. rewrite !Z.add_0_r. by destruct c.
  - change (timer_calls (b :: on) (mkTick (count_before i) false, c))
      with (timer_calls on (timer_call b (mkTick (count_before i) false, c))).
    unfold timer_call, timeout. cbn [fst snd exit_ count_]. rewrite <- due_count by done.
    rewrite <- (count_next i) by done. rewrite IH by lia. rewrite zlen_cons. cbn [due_ticks].
    rewrite <- Z.add_assoc. f_equal. unfold AddPendingTick, set_pending_ticks.
    destruct (due i), b; cbn [andb]; destruct c; cbn; f_equal; lia.
Qed.

Lemma due_ticks_running i n :
  1 <= i -> due_ticks i (replicate n true) = Z.max 0 ((i + Z.of_nat n - 3) / 10) - Z.max 0 ((i - 3) / 10).
Proof.
  revert i. induction n as [|n IH]; intros i Hi; [cbn; rewrite Z.add_0_r; lia|].
  cbn [replicate due_ticks andb]. rewrite IH by lia. unfold due.
  destruct (Z.leb_spec 12 i), (Z.eqb_spec (i mod 10) 2); cbn [andb]; Z.to_euclidean_division_equations; lia.
Qed.

Lemma timer_calls_exit on t c : timer_calls on (request_exit t, c) = (request_exit t, c).
Proof. induction on as [|b on IH]; [done|exact IH]. Qed.

(** What a tick does to the timer of an automata. *)
Definition ticked (x : Automata) : Automata :=
  mkAutomata (id_ x) (state_ x) (Z.max 0 (timer_ x - 1)) (starting_offset_ x).

Definition ticked_in (l : list nat) (m : gmap nat Automata) (a : nat) : option Automata :=
  if decide (a ∈ l) then ticked <$> m !! a else m !! a.

Lemma Tick_all l s :
  NoDup l -> Forall (fun a => exists x, automatas (core s) !! a = Some x /\ 0 <= timer_ x) l ->
  exists s', for_automata (fun a => total (on_core (Tick a))) l s = Some (Done tt s') /\
    pending_ticks_ (core s') = pending_ticks_ (core s) /\ all_automata_ (core s') = all_automata_ (core s) /\
    forall a, automatas (core s') !! a = ticked_in l (automatas (core s)) a.
Proof.
  revert s. induction l as [|b l IH]; intros s Hn Hl.
  - exists s. split; [done|]. split; [done|]. split; [done|]. intros a. unfold ticked_in. by rewrite decide_False by (by apply not_elem_of_nil).
  - apply NoDup_cons in Hn as [Hb Hn]. apply Forall_cons in Hl as [(x & Hx & Hpos) Hl].
    set (s1 := set_core (set_automatas (<[b := ticked x]> (automatas (core s))) (core s)) s).
    assert (E1 : total (on_core (Tick b)) s = Some (Done tt s1)).
    { unfold total, on_core, Tick, the_automata, put_automata, modify_state, mbind, prog_bind. rewrite Hx.
      unfold s1, ticked. do 7 f_equal. destruct (Z.eqb_spec (timer_ x) 0); lia. }
    destruct (IH s1) as (s' & E & Hp & Ha & Hm); [done| |].
    { eapply Forall_impl; [exact Hl|]. intros a (y & Hy & Hy0). destruct (decide (a = b)) as [->|Hab].
      - exists (ticked x). cbn. split; [by rewrite lookup_insert_eq|lia].
      - exists y. cbn. by rewrite lookup_insert_ne by done. }
    exists s'. split; [|split; [done|split; [done|]]].
    + cbn [for_automata]. unfold mbind, fprog_bind. by rewrite E1.
    + intros a. rewrite Hm. unfold ticked_in. cbn [core s1 automatas set_core set_automatas].
      destruct (decide (a = b)) as [->|Hab].
      * rewrite decide_False by done. rewrite decide_True by (by left). cbn. by rewrite lookup_insert_eq, Hx.
      * cbn. rewrite lookup_insert_ne by done. destruct (decide (a ∈ l)) as [Hin|Hin].
        -- by rewrite decide_True by (by right).
        -- rewrite decide_False; [done|]. by intros [->|?]%elem_of_cons.
Qed.

(** C39: The timers of the automata get one tick a second.  Of the calls of
    [timeout], ten a second, the twelfth and every tenth after it add a pending
    tick, if the automata run at that time, and the calls change nothing else: of
    [n] calls while the automata run, [(n - 2) / 10] add a tick, none for less
    than twelve; after the exit was requested no call adds any.  A round of the
    automata takes one pending tick, if there is one, and with it counts each
    timer that has not run out down by one. *)
Theorem ticks_every_second on c s :
  timer_calls on (new_AutomataTick, c) =
    (mkTick (count_before (1 + zlen on)) false, set_pending_ticks (pending_ticks_ c + due_ticks 1 on) c) /\
  (forall n, due_ticks 1 (replicate n true) = Z.max 0 ((Z.of_nat n - 2) / 10)) /\
  (forall after t, timer_calls after (request_exit t, c) = (request_exit t, c)) /\
  (NoDup (all_automata_ (core s)) ->
   Forall (fun a => exists x, automatas (core s) !! a = Some x /\ 0 <= timer_ x) (all_automata_ (core s)) ->
   0 < pending_ticks_ (core s) ->
   exists s', apply_pending_tick s = Some (Done tt s') /\
     pending_ticks_ (core s') = pending_ticks_ (core s) - 1 /\
     forall a, automatas (core s') !! a = ticked_in (all_automata_ (core s)) (automatas (core s)) a).
Proof.
  split; [exact (timer_calls_due on 1 c ltac:(lia))|]. split; [|split].
  - intros n. rewrite due_ticks_running by lia. change ((1 - 3) / 10) with (-1).
    replace (1 + Z.of_nat n - 3) with (Z.of_nat n - 2) by lia. lia.
  - intros after t. apply timer_calls_exit.
  - intros Hn Hl Hp. unfold apply_pending_tick. destruct (Z.eqb_spec (pending_ticks_ (core s)) 0); [lia|]. cbn [negb].
    destruct (Tick_all _ s Hn Hl) as (s' & E & Hp' & _ & Hm). unfold mbind, fprog_bind. rewrite E.
    eexists. split; [reflexivity|]. cbn. split; [by rewrite Hp'|exact Hm].
Qed.

End Ticks.

(** ** The thread *)

Inductive RunState := INIT | RUN | STOP | EXIT | NO_THREAD.

#[export] Instance RunState_eq_dec : EqDecision RunState.
Proof. solve_decision. Defined.

(** Where the thread is between two points at which another thread can come in:
    before it reads the state, before it acts on [INIT], before it sets the
    state to [RUN], before the notification, before it acts on the state it has
    read, waiting for a wakeup, and finished.  [Notifiable]s are numbered. *)
Inductive ThreadPc :=
| AtTop
| HasRead (state : RunState) (n : option nat)
| Initialized (n : option nat)
| Notifying (state : RunState) (n : option nat)
| Acting (state : RunState)
| Waiting
| Exited.

Section Thread.
Context {V W : Type} `{VV : !Velocity V} `{NN : !Node V W}.
Context (code : list Z).

Record Control := mkControl {
  run_state_ : RunState;
  stop_notification_ : option nat;
  automata_timer_ : AutomataTick;
  thread : ThreadPc;
  notified : list nat;
  runner : AutomataRunner (V := V) (W := W)
}.

Definition goes (pc : ThreadPc) (k : Control) : Control :=
  mkControl (run_state_ k) (stop_notification_ k) (automata_timer_ k) pc (notified k) (runner k).
Definition set_run_state (st : RunState) (k : Control) : Control :=
  mkControl st (stop_notification_ k) (automata_timer_ k) (thread k) (notified k) (runner k).
Definition set_stop (n : option nat) (k : Control) : Control :=
  mkControl (run_state_ k) n (automata_timer_ k) (thread k) (notified k) (runner k).
Definition set_timer (t : AutomataTick) (k : Control) : Control :=
  mkControl (run_state_ k) (stop_notification_ k) t (thread k) (notified k) (runner k).

(** A part of the thread that uses the runner. *)
Definition on_runner (m : fprog AutomataRunner unit) (k : Control) : option Control :=
  match m (runner k) with
  | Some (Done _ s) =>
      Some (mkControl (run_state_ k) (stop_notification_ k) (automata_timer_ k) (thread k)
              (notified k) s)
  | _ => None
  end.

(** The notification of [Stop] for [n]: everything is deleted, then [n] is
    told. *)
Definition notify (n : nat) (k : Control) : option Control :=
  k ← on_runner delete_all k;
  Some (mkControl (run_state_ k) (stop_notification_ k) (automata_timer_ k) (thread k)
          (notified k ++ [n]) (runner k)).

(** One step of [automata_thread]; no answer when it waits, has ended or the
    program has died. *)
Definition thread_step (k : Control) : option Control :=
  match thread k with
  | AtTop => Some (set_stop None (goes (HasRead (run_state_ k) (stop_notification_ k)) k))
  | HasRead INIT n => on_runner (InitializeState code) (goes (Initialized n) k)
  | HasRead state n => Some (goes (Notifying state n) k)
  | Initialized n => Some (set_run_state RUN (goes (Notifying INIT n) k))
  | Notifying state n =>
      match n with
      | Some n => notify n (goes (Acting state) k)
      | None => Some (goes (Acting state) k)
      end
  | Acting EXIT => Some (set_timer (request_exit (automata_timer_ k)) (goes Exited k))
  | Acting RUN => on_runner (RunAllAutomata code) (goes Waiting k)
  | Acting _ => Some (goes Waiting k)
  | Waiting | Exited => None
  end.

(** [Start()] and [Stop()] of another thread. *)
Definition Start (k : Control) : Control := set_run_state INIT k.

Definition Stop (n : nat) (request_exit : bool) (k : Control) : option Control :=
  let st := if request_exit then EXIT else STOP in
  match run_state_ k with
  | NO_THREAD => notify n (set_run_state st (set_stop None k))
  | _ => Some (set_run_state st (set_stop (Some n) k))
  end.

(** What can happen: a step of the thread, its wakeup by the timer or a
    command, and the commands. *)
Inductive control_step : Control -> Control -> Prop :=
| step_thread k k' : thread_step k = Some k' -> control_step k k'
| step_wakeup k : thread k = Waiting -> control_step k (goes AtTop k)
| step_start k : control_step k (Start k)
| step_stop n e k k' : Stop n e k = Some k' -> control_step k k'.

Definition reaches : Control -> Control -> Prop := rtc control_step.

(** The thread alone: its steps, and a wakeup when it waits. *)
Definition thread_round (k : Control) : option Control :=
  match thread k with
  | Waiting => Some (goes AtTop k)
  | _ => thread_step k
  end.

Fixpoint thread_rounds (n : nat) (k : Control) : option Control :=
  match n with
  | O => Some k
  | S n => k ← thread_round k; thread_rounds n k
  end.

Lemma thread_rounds_S n k k1 : thread_round k = Some k1 -> thread_rounds (S n) k = thread_rounds n k1.
Proof. intros E. cbn [thread_rounds]. by rewrite E. Qed.

Lemma thread_rounds_add m n k k1 k2 :
  thread_rounds m k = Some k1 -> thread_rounds n k1 = Some k2 -> thread_rounds (m + n) k = Some k2.
Proof.
  revert k. induction m as [|m IH]; intros k; cbn [thread_rounds Nat.add]; [by intros [= ->]|].
  destruct (thread_round k) as [k3|]; [apply IH|done].
Qed.

Lemma thread_rounds_reach n k k' : thread_rounds n k = Some k' -> reaches k k'.
Proof.
  revert k. induction n as [|n IH]; intros k; cbn [thread_rounds]; [by intros [= ->]|].
  destruct (thread_round k) as [k1|] eqn:E; [|done]. intros Hr. apply rtc_l with k1; [|by apply IH].
  unfold thread_round in E. destruct (thread k) eqn:Et; try (by constructor).
  injection E as <-. by constructor.
Qed.

(** Nothing is left to run. *)
Definition deleted (s : AutomataRunner (V := V) (W := W)) : Prop :=
  all_automata_ (core s) = [] /\ declared_bits_ (core s) = ∅.

Lemma delete_bits_done l (s : AutomataRunner (V := V) (W := W)) :
  exists s', for_automata (fun l => total (on_core (delete_bit l))) l s = Some (Done tt s') /\
             all_automata_ (core s') = all_automata_ (core s).
Proof.
  revert s. induction l as [|b l IH]; intros s; [by exists s|]. cbn [for_automata].
  unfold mbind at 1, fprog_bind, total, on_core, delete_bit.
  unfold mbind, prog_bind, modify_state, send. cbn.
  destruct (bus _ _ _) as [m w]. cbn.
  match goal with |- context [for_automata _ l ?s1] => destruct (IH s1) as (s' & E & Ha) end.
  exists s'. split; [exact E|]. by rewrite Ha.
Qed.

Lemma delete_all_done (s : AutomataRunner (V := V) (W := W)) :
  exists s', delete_all s = Some (Done tt s') /\ deleted s'.
Proof.
  unfold delete_all. set (s0 := set_core (set_all_automata [] _) s).
  destruct (delete_bits_done (declared_in_order (set_automatas
    (foldr delete (automatas (core s)) (all_automata_ (core s))) (core s))) s0) as (s1 & E & Ha).
  unfold mbind, fprog_bind. rewrite E. eexists. split; [reflexivity|]. split; [|done]. exact Ha.
Qed.

Lemma notify_done n k :
  exists s, notify n k = Some (mkControl (run_state_ k) (stop_notification_ k) (automata_timer_ k)
                                 (thread k) (notified k ++ [n]) s) /\ deleted s.
Proof.
  unfold notify, on_runner. destruct (delete_all_done (runner k)) as (s & -> & Hs). by exists s.
Qed.

(** Automata that were deleted do nothing. *)
Lemma RunAllAutomata_deleted (s : AutomataRunner (V := V) (W := W)) :
  deleted s -> exists s', RunAllAutomata code s = Some (Done tt s') /\ deleted s'.
Proof.
  intros [Ha Hb]. unfold RunAllAutomata, apply_pending_tick, mbind, fprog_bind. rewrite Ha.
  cbn [for_automata]. destruct (negb _).
  - cbn. rewrite Ha. eexists. split; [reflexivity|]. by split.
  - cbn. rewrite Ha. eexists. split; [reflexivity|]. by split.
Qed.

(** A thread that has stopped, or runs nothing. *)
Definition idle (st : RunState) (k : Control) : Prop :=
  run_state_ k = st /\ stop_notification_ k = None /\ deleted (runner k) /\
  match thread k with
  | AtTop | Waiting => True
  | HasRead st' None | Notifying st' None | Acting st' => st' = st
  | _ => False
  end.

Lemma idle_STOP k : idle STOP k -> exists k', thread_round k = Some k' /\ idle STOP k' /\ runner k' = runner k.
Proof.
  intros (Hst & Hn & Hd & Hpc). unfold thread_round, thread_step.
  destruct (thread k) as [|st [n|]|n|st [n|]|st| |] eqn:Et; try done; subst;
    (eexists; split; [reflexivity|]; split; [|done]; split; [done|]; split; [done|]; split; [done|]; cbn).
  - by rewrite Hn.
  - done.
  - done.
  - done.
  - done.
Qed.

Lemma idle_RUN k : idle RUN k -> exists k', thread_round k = Some k' /\ idle RUN k'.
Proof.
  intros (Hst & Hn & Hd & Hpc). unfold thread_round, thread_step.
  destruct (thread k) as [|st [n|]|n|st [n|]|st| |] eqn:Et; try done; subst.
  - eexists. split; [reflexivity|]. split; [done|]. split; [done|]. split; [done|]. cbn. by rewrite Hn.
  - eexists. split; [reflexivity|]. by split.
  - eexists. split; [reflexivity|]. by split.
  - unfold on_runner. cbn [runner goes].
    destruct (RunAllAutomata_deleted (runner k) Hd) as (s & -> & Hs).
    eexists. split; [reflexivity|]. by split.
  - eexists. split; [reflexivity|]. by split.
Qed.

Lemma idle_rounds st n k :
  (forall k, idle st k -> exists k', thread_round k = Some k' /\ idle st k') ->
  idle st k -> exists k', thread_rounds n k = Some k' /\ idle st k'.
Proof.
  intros Hstep. revert k. induction n as [|n IH]; intros k Hi; [by exists k|].
  destruct (Hstep k Hi) as (k1 & E & H1). rewrite (thread_rounds_S n k k1 E). by apply IH.
Qed.

Lemma round_read k :
  thread k = AtTop ->
  thread_round k = Some (set_stop None (goes (HasRead (run_state_ k) (stop_notification_ k)) k)).
Proof. intros E. unfold thread_round, thread_step. by rewrite E. Qed.

Lemma round_seen k st n :
  thread k = HasRead st n -> st <> INIT -> thread_round k = Some (goes (Notifying st n) k).
Proof. intros E Hst. unfold thread_round, thread_step. rewrite E. by destruct st. Qed.

Lemma round_notify k st n :
  thread k = Notifying st (Some n) -> thread_round k = notify n (goes (Acting st) k).
Proof. intros E. unfold thread_round, thread_step. by rewrite E. Qed.

(** The round after a command, from its start. *)
Lemma stop_round n e k :
  thread k = AtTop -> run_state_ k <> NO_THREAD ->
  exists k1 k', Stop n e k = Some k1 /\ thread_rounds 4 k1 = Some k' /\
    notified k' = notified k ++ [n] /\ deleted (runner k') /\
    stop_notification_ k' = None /\ run_state_ k' = (if e then EXIT else STOP) /\
    thread k' = (if e then Exited else Waiting) /\
    exit_ (automata_timer_ k') = (e || exit_ (automata_timer_ k)).
Proof.
  intros Ht Hst. set (k1 := set_run_state (if e then EXIT else STOP) (set_stop (Some n) k)).
  exists k1.
  assert (E : Stop n e k = Some k1) by (unfold Stop; destruct (run_state_ k); done).
  set (k2 := goes (Acting (if e then EXIT else STOP)) (set_stop None k1)).
  destruct (notify_done n k2) as (s & En & Hs).
  assert (E3 : thread_rounds 3 k1 = notify n k2).
  { rewrite (thread_rounds_S 2 _ _ (round_read k1 Ht)).
    set (r := set_stop None _). set (st := if e then EXIT else STOP) in *.
    rewrite (thread_rounds_S 1 _ _ (round_seen r st (Some n) eq_refl ltac:(by destruct e))).
    cbn [thread_rounds]. rewrite (round_notify (goes (Notifying st (Some n)) r) st n eq_refl).
    change (goes _ _) with k2. by destruct (notify n k2). }
  rewrite En in E3. set (k3 := mkControl _ _ _ _ _ _) in E3.
  destruct e.
  - exists (set_timer (request_exit (automata_timer_ k3)) (goes Exited k3)). split; [done|].
    split; [by apply (thread_rounds_add 3 1 _ _ _ E3)|done].
  - exists (goes Waiting k3). split; [done|].
    split; [by apply (thread_rounds_add 3 1 _ _ _ E3)|done].
Qed.

(** ** Theorems *)

(** Stopping works when the thread waits: after [Stop] the next round of the
    thread deletes all automata and bits, then tells the caller, and runs no
    automata; if the exit was requested it ends and the timer will not call
    again, and otherwise every later round leaves the runner as it is until the
    next command. *)
Theorem stop_takes_effect n e k :
  thread k = AtTop -> run_state_ k <> NO_THREAD ->
  exists k1 k', Stop n e k = Some k1 /\ thread_rounds 4 k1 = Some k' /\
    notified k' = notified k ++ [n] /\ deleted (runner k') /\
    if e then thread k' = Exited /\ exit_ (automata_timer_ k') = true
    else thread k' = Waiting /\
         forall m, exists k2, thread_rounds m k' = Some k2 /\ runner k2 = runner k'.
Proof.
  intros Ht Hst. destruct (stop_round n e k Ht Hst) as (k1 & k' & E1 & E2 & Hn & Hd & Hs & Hr & Hp & Hx).
  exists k1, k'. do 4 (split; [done|]). destruct e; [done|]. split; [done|].
  assert (Hi : idle STOP k') by (split; [done|]; split; [done|]; split; [done|]; by rewrite Hp).
  clear -Hi. intros m. revert k' Hi. induction m as [|m IH]; intros k' Hi; [by exists k'|].
  destruct (idle_STOP k' Hi) as (k1 & E & H1 & Hr). rewrite (thread_rounds_S m k' k1 E), <- Hr. by apply IH.
Qed.

(** The request to exit is lost when it comes while the thread initializes the
    automata: the thread overwrites it with [RUN], tells the caller that it has
    stopped, and then goes on for ever. *)
Theorem exit_lost_during_initialization n k s :
  thread k = HasRead INIT None -> run_state_ k = INIT ->
  InitializeState code (runner k) = Some (Done tt s) ->
  exists k1 k', Stop n true k = Some k1 /\ reaches k1 k' /\ In n (notified k') /\
    forall m, exists k2, thread_rounds m k' = Some k2 /\ thread k2 <> Exited /\ run_state_ k2 = RUN.
Proof.
  intros Ht Hst Hi. unfold Stop. rewrite Hst. set (k1 := set_run_state EXIT (set_stop (Some n) k)).
  exists k1.
  set (k2 := mkControl RUN (Some n) (automata_timer_ k) AtTop (notified k) s).
  assert (E1 : thread_rounds 5 k1 = Some k2).
  { assert (Er : thread_round k1 = Some (mkControl EXIT (Some n) (automata_timer_ k) (Initialized None)
                                           (notified k) s)).
    { unfold thread_round, thread_step. change (thread k1) with (thread k). rewrite Ht.
      unfold on_runner. change (runner (goes _ k1)) with (runner k). by rewrite Hi. }
    by rewrite (thread_rounds_S 4 _ _ Er). }
  destruct (notify_done n (goes (Acting RUN) (set_stop None k2))) as (s2 & En & Hs2).
  set (k3 := mkControl RUN None (automata_timer_ k) (Acting RUN) (notified k ++ [n]) s2).
  assert (E2 : thread_rounds 3 k2 = Some k3).
  { rewrite (thread_rounds_S 2 _ _ (round_read k2 eq_refl)).
    set (r := set_stop None _).
    rewrite (thread_rounds_S 1 _ _ (round_seen r RUN (Some n) eq_refl ltac:(done))).
    cbn [thread_rounds]. rewrite (round_notify (goes (Notifying RUN (Some n)) r) RUN n eq_refl).
    change (goes _ _) with (goes (Acting RUN) (set_stop None k2)). by rewrite En. }
  exists k3. split; [done|]. split.
  - by apply (thread_rounds_reach 8), (thread_rounds_add 5 3 _ _ _ E1).
  - split; [cbn; apply in_or_app; right; by left|]. intros m.
    destruct (idle_rounds RUN m k3 idle_RUN) as (k4 & E4 & Hr & _ & _ & Hpc); [by split|].
    exists k4. split; [done|]. split; [|done]. intros Hx. by rewrite Hx in Hpc.
Qed.

End Thread.
