(* ===== verification/ControlRules.v ===== *)
(** Automata as guarded commands: an operation that only looks at the state, the
    timer and variables of the layout, and only changes those, is a rule over
    the variables.  The first part gives rules their meaning, the second shows
    that the interpreter runs rendered rules with that meaning, the third
    describes the rules that a body builds. *)

From S2P Require Import Prelude AutomataDefs Automata AutomataTermination AutomataOps AutomataSim AutomataBuild AutomataBoard AutomataRun.

(** ** Rules *)

(** Global variables of a layout are numbered; [None] is the timer bit. *)
Inductive Guard :=
| GReg (v : option nat) (b : bool)
| GState (s : Z).

Inductive Effect :=
| EReg (k : nat) (b : bool)
| EState (s : Z)
| ETimer (t : Z).

Record Rule := mkRule {
  guards : list Guard;
  effects : list Effect
}.

(** The variables of the layout, and the state and the timer of the automata
    with the id [eid]. *)
Record Env := mkEnv {
  evar : nat -> bool;
  estate : Z;
  etimer : Z;
  eid : Z
}.

Definition put_var (k : nat) (b : bool) (e : Env) : Env :=
  mkEnv (fun j => if decide (j = k) then b else evar e j) (estate e) (etimer e) (eid e).

Definition holds (e : Env) (g : Guard) : bool :=
  match g with
  | GReg (Some k) b => Bool.eqb (evar e k) b
  | GReg None b => Bool.eqb (negb (etimer e =? 0)) b
  | GState s => estate e =? s
  end.

Definition apply_effect (e : Env) (x : Effect) : Env :=
  match x with
  | EReg k b => put_var k b e
  | EState s => mkEnv (evar e) s (etimer e) (eid e)
  | ETimer t => mkEnv (evar e) (estate e) (timer_value (eid e) t) (eid e)
  end.

Definition enabled (r : Rule) (e : Env) : bool := forallb (holds e) (guards r).

Definition exec_rule (r : Rule) (e : Env) : Env :=
  if enabled r e then fold_left apply_effect (effects r) e else e.

Definition exec_rules (l : list Rule) (e : Env) : Env := fold_left (fun e r => exec_rule r e) l e.

(** What a body writes: imports of variables, and rules; and where it forgets
    its local variables. *)
Inductive Item :=
| Imported (k : nat)
| Cleared
| Ruled (r : Rule).

Definition rules_of (l : list Item) : list Rule :=
  omap (fun i => match i with Ruled r => Some r | _ => None end) l.

Lemma rules_of_app l1 l2 : rules_of (l1 ++ l2) = rules_of l1 ++ rules_of l2.
Proof. apply omap_app. Qed.

Lemma exec_rules_app l1 l2 e : exec_rules (l1 ++ l2) e = exec_rules l2 (exec_rules l1 e).
Proof. apply fold_left_app. Qed.

Lemma exec_rules_cons r l e : exec_rules (r :: l) e = exec_rules l (exec_rule r e).
Proof. done. Qed.

(** ** Rules on the bits of the runner *)

(** The local variables of an automata. *)
Abbreviation Locals := (gmap (option nat) Z).

Inductive guard_encoded (u : Locals) : Guard -> Condition -> Prop :=
| encoded_reg v b i : u !! v = Some i -> guard_encoded u (GReg v b) (TestReg i b)
| encoded_state s : guard_encoded u (GState s) (TestState s).

Inductive effect_encoded (u : Locals) : Effect -> Action -> Prop :=
| encoded_write k b i : u !! Some k = Some i -> effect_encoded u (EReg k b) (WriteReg i b)
| encoded_goto s : effect_encoded u (EState s) (ChangeState s)
| encoded_timer t : effect_encoded u (ETimer t) (ChangeTimer t).

Definition rule_encoded (u : Locals) (r : Rule) (o : Operation) : Prop :=
  Forall2 (guard_encoded u) (guards r) (conditions o) /\
  Forall2 (effect_encoded u) (effects r) (actions o).

(** Event bits over single bits of a byte behave as bits, a node that has no
    other listener keeps its memory when it reports an event, and a range of
    events keeps 32 bits in a word. *)
Class QuietNode (V W : Type) `{NN : !Node V W} : Prop := {
  bit_set_same i byte v :
    0 <= i < 8 ->
    memory_bit_state (Node := NN) (Z.shiftl 1 i) (memory_bit_set (Z.shiftl 1 i) byte v) =
    if (v : bool) then VALID else INVALID;
  bit_set_other i j byte v :
    0 <= i < 8 -> 0 <= j < 8 -> i <> j ->
    memory_bit_state (Node := NN) (Z.shiftl 1 i) (memory_bit_set (Z.shiftl 1 j) byte v) =
    memory_bit_state (Z.shiftl 1 i) byte;
  report_quiet b m w : fst (bus (SendEventReport b) m w) = m;
  range_set l arg v m w data :
    storage m !! l = Some data -> 0 <= arg < 32 * zlen data ->
    exists data', fst (bus (RangeSet l arg v) m w) = mkMemory (clients m) (<[l := data']> (storage m)) /\
      zlen data' = zlen data /\
      forall i, 0 <= i -> bit_range_get data' i = if decide (i = arg) then v else bit_range_get data i
}.

(** Where a variable is: an event bit at an address, with its byte and mask, or
    an entry of a block of events at an address. *)
Inductive Place :=
| AtBit (l : nat) (bit : MemoryBit)
| InBlock (l : nat) (arg : Z).

Definition place_address (p : Place) : nat :=
  match p with AtBit l _ | InBlock l _ => l end.

Definition apart (p1 p2 : Place) : Prop :=
  match p1, p2 with
  | AtBit l1 bit1, AtBit l2 bit2 =>
      l1 <> l2 /\ (bit_ptr bit1 <> bit_ptr bit2 \/ bit_mask bit1 <> bit_mask bit2)
  | InBlock l1 arg1, InBlock l2 arg2 => l1 <> l2 \/ arg1 <> arg2
  | _, _ => place_address p1 <> place_address p2
  end.

Section Rules.
Context {V W : Type} `{VV : !Velocity V} `{NN : !Node V W} `{QN : !QuietNode V W}.

Abbreviation Core := (Core (V := V) (W := W)).
Implicit Types (c : Core).

(** Where the variables of the layout are: the id of a variable, and its
    place. *)
Context (gid : nat -> option GlobalVariableId) (place : nat -> option Place).

Record well_placed : Prop := {
  placed_mask k l bit :
    place k = Some (AtBit l bit) -> exists i, 0 <= i < 8 /\ bit_mask bit = Z.shiftl 1 i;
  placed_arg k l arg g : place k = Some (InBlock l arg) -> gid k = Some g -> gid_arg g = arg;
  placed_apart k1 k2 p1 p2 : place k1 = Some p1 -> place k2 = Some p2 -> k1 <> k2 -> apart p1 p2
}.

(** Every variable, other than those in [byte], has a place. *)
Definition all_placed (byte : nat -> Prop) : Prop :=
  forall k, ~ byte k -> is_Some (gid k) -> is_Some (place k).

Context (WP : well_placed).

Definition truth (b : bool) : EventState := if b then VALID else INVALID.

(** The variable at [p] of the runner [c] is [b]. *)
Definition holds_at (c : Core) (p : Place) (b : bool) : Prop :=
  match p with
  | AtBit l bit =>
      (exists d, bits c !! l = Some (EventBit bit d)) /\
      exists byte, znth (clients (memory_ c)) (bit_ptr bit) = Some byte /\
                   memory_bit_state (bit_mask bit) byte = truth b
  | InBlock l arg =>
      (exists base size, bits c !! l = Some (EventBlockBit base size)) /\
      exists data, storage (memory_ c) !! l = Some data /\ 0 <= arg < 32 * zlen data /\
                   bit_range_get data arg = b
  end.

Lemma holds_at_unique c p b b' : holds_at c p b -> holds_at c p b' -> b = b'.
Proof.
  destruct p as [l bit|l arg]; cbn.
  - intros (_ & byte & Hb & Hs) (_ & byte' & Hb' & Hs'). rewrite Hb in Hb'. injection Hb' as <-.
    rewrite Hs in Hs'. by destruct b, b'.
  - intros (_ & data & Hd & _ & <-) (_ & data' & Hd' & _ & <-). congruence.
Qed.

(** The local variable [i] of [c] stands for the variable at [p]. *)
Definition imported_at (c : Core) (i : Z) (p : Place) : Prop :=
  znth (imported_bits_ c) i = Some (Some (DeclaredBit (place_address p))) /\
  match p with
  | AtBit _ _ => True
  | InBlock _ arg => znth (imported_bit_args_ c) i = Some arg
  end.

(** The runner [c], in which the variables [u] are imported, is in the state
    [e]. *)
Record represents (u : Locals) (c : Core) (e : Env) : Prop := {
  rep_automata : exists a x, current_automata_ c = Some a /\ automatas c !! a = Some x /\
    state_ x = estate e /\ timer_ x = etimer e /\ id_ x = eid e /\
    forall i, u !! None = Some i -> znth (imported_bits_ c) i = Some (Some (TimerBit a));
  rep_import k i : u !! Some k = Some i -> exists p, place k = Some p /\ imported_at c i p;
  rep_local v i : u !! v = Some i -> 0 <= i < MAX_IMPORT_VAR;
  rep_bits : zlen (imported_bits_ c) = MAX_IMPORT_VAR;
  rep_args : zlen (imported_bit_args_ c) = MAX_IMPORT_VAR;
  rep_value k p : place k = Some p -> holds_at c p (evar e k);
  rep_declared k p g : place k = Some p -> gid k = Some g ->
    declared_bits_ c !! (gid_id g mod 2 ^ 16) = Some (place_address p)
}.

(** What operations other than imports leave alone. *)
Record keeps_locals (c c' : Core) : Prop := {
  kl_bits : imported_bits_ c' = imported_bits_ c;
  kl_args : imported_bit_args_ c' = imported_bit_args_ c;
  kl_eventids : aut_eventids_ c' = aut_eventids_ c;
  kl_declared : declared_bits_ c' = declared_bits_ c;
  kl_bytes l base size : bits c !! l = Some (EventByteBlockConsumer base size) ->
    bits c' !! l = bits c !! l /\ storage (memory_ c') !! l = storage (memory_ c) !! l
}.

Lemma reading_arg {A} (k : Z -> prog Core A) u c e v i :
  represents u c e -> u !! v = Some i ->
  exists x, (imported_arg i ≫= k) c = k x c.
Proof.
  intros R Hi. destruct (znth_is_Some (imported_bit_args_ c) i) as [_ Hx].
  rewrite (rep_args _ _ _ R) in Hx. specialize (Hx (rep_local _ _ _ R _ _ Hi)) as [x Hx].
  exists x. unfold mbind, prog_bind, imported_arg, array_get. by rewrite Hx.
Qed.

Lemma reading_bit {A} (k : BitPtr -> prog Core A) c i p :
  znth (imported_bits_ c) i = Some (Some p) -> (GetBit i ≫= k) c = k p c.
Proof. intros Hp. unfold mbind, prog_bind, GetBit, array_get. by rewrite Hp. Qed.

(** Reading the variable at a place. *)
Lemma read_at c p b arg :
  holds_at c p b -> match p with AtBit _ _ => True | InBlock _ a => arg = a end ->
  Read (DeclaredBit (place_address p)) arg c = Done b c.
Proof.
  intros Hp Ha. destruct p as [l bit|l a]; cbn [place_address];
    unfold Read, the_bit, the_storage, mbind, prog_bind, mret, prog_ret.
  - destruct Hp as ((d & Hd) & byte & Hb & Hs). rewrite Hd.
    unfold EventBit_Read, memory_bit, mbind, prog_bind, array_get. rewrite Hb. unfold mret, prog_ret.
    rewrite Hs. by destruct b.
  - destruct Hp as ((base & size & Hd) & data & Hs & _ & <-). rewrite Hd. cbn. by rewrite Hs, Ha.
Qed.

(** Reading a local variable that stands for the variable at a place. *)
Lemma read_local_at {A} (k : bool -> prog Core A) c i p b :
  imported_at c i p -> holds_at c p b -> zlen (imported_bit_args_ c) = MAX_IMPORT_VAR ->
  0 <= i < MAX_IMPORT_VAR ->
  (arg ← imported_arg i; bit ← GetBit i; x ← Read bit arg; k x) c = k b c.
Proof.
  intros [Hi Ha] Hp Hl Hr. destruct (znth_is_Some (imported_bit_args_ c) i) as [_ Hx].
  rewrite Hl in Hx. destruct (Hx Hr) as [arg Harg].
  unfold mbind at 1, prog_bind at 1, imported_arg, array_get. rewrite Harg. cbn -[Read GetBit].
  rewrite (reading_bit _ _ _ _ Hi).
  rewrite (bind_done _ _ _ _ _ (read_at c p b arg Hp ltac:(destruct p; [done|congruence]))). done.
Qed.

Lemma guard_runs u c e g x :
  represents u c e -> guard_encoded u g x -> sem_condition x c = Done (holds e g) c.
Proof.
  intros R H. destruct H as [v b i Hv|s]; cbn [sem_condition].
  - destruct v as [k|].
    + destruct (rep_import _ _ _ R _ _ Hv) as (p & Hk & Hi).
      by rewrite (read_local_at (fun x => mret (Bool.eqb x b)) c i p (evar e k) Hi
                    (rep_value _ _ _ R _ _ Hk) (rep_args _ _ _ R) (rep_local _ _ _ R _ _ Hv)).
    + destruct (reading_arg (fun arg => bit ← GetBit i; x ← Read bit arg; mret (Bool.eqb x b)) u c e None i R Hv)
        as [arg ->].
      destruct (rep_automata _ _ _ R) as (a & x & Ha & Hx & _ & Ht & _ & Hi).
      rewrite (reading_bit _ _ _ _ (Hi i Hv)).
      unfold Read, the_automata, mbind, prog_bind. rewrite Hx. cbn. by rewrite Ht.
  - destruct (rep_automata _ _ _ R) as (a & x & Ha & Hx & Hs & _).
    unfold current, GetState, the_automata, mbind, prog_bind. rewrite Ha, Hx. cbn. by rewrite Hs.
Qed.

Lemma guards_run u c e gs xs :
  represents u c e -> Forall2 (guard_encoded u) gs xs ->
  sem_conditions xs c = Done (forallb (holds e) gs) c.
Proof.
  intros R H. induction H as [|g x gs xs Hg _ IH]; [done|]. cbn [sem_conditions forallb].
  rewrite (bind_done _ _ _ _ _ (guard_runs _ _ _ _ _ R Hg)). by destruct (holds e g).
Qed.

Lemma represents_ext u c e e' :
  represents u c e -> (forall k, evar e' k = evar e k) -> estate e' = estate e ->
  etimer e' = etimer e -> eid e' = eid e -> represents u c e'.
Proof.
  intros [Ha Hi Hl Hb Hg Hv Hd] He Hs Ht Hid. split; try done.
  - destruct Ha as (a & x & ? & ? & ? & ? & ? & ?). exists a, x. by rewrite Hs, Ht, Hid.
  - intros k p Hk. rewrite He. by apply Hv.
Qed.

Lemma znth_zset_ne {A} (l : list A) i j x : 0 <= i -> 0 <= j -> i <> j -> znth (zset l i x) j = znth l j.
Proof.
  intros Hi Hj Hne. unfold znth, zset. destruct (0 <=? j); [|done]. apply list_lookup_insert_ne. lia.
Qed.

Lemma zset_znth {A} (l : list A) i x y : znth l i = Some y -> znth (zset l i x) i = Some x.
Proof. apply AutomataSim.znth_zset. Qed.

(** A value of a place stays when other places are written. *)
Lemma bit_written_other c l bit byte d value w p b :
  (exists i, 0 <= i < 8 /\ bit_mask bit = Z.shiftl 1 i) ->
  match p with
  | AtBit _ bit' => exists i, 0 <= i < 8 /\ bit_mask bit' = Z.shiftl 1 i
  | InBlock _ _ => True
  end ->
  apart p (AtBit l bit) -> znth (clients (memory_ c)) (bit_ptr bit) = Some byte -> holds_at c p b ->
  holds_at (set_bits (<[l := EventBit bit d]> (bits c))
       (set_memory (mkMemory (zset (clients (memory_ c)) (bit_ptr bit)
                                (memory_bit_set (bit_mask bit) byte value)) (storage (memory_ c))) w c)) p b.
Proof.
  intros (i & Hi & Em) Hm Hap Hbyte Hp. destruct p as [l' bit'|l' arg']; cbn in *.
  - destruct Hap as [Hne Hap]. destruct Hp as ((d' & Hd') & byte' & Hb' & Hs').
    split; [exists d'; by simplify_map_eq|].
    destruct (decide (bit_ptr bit' = bit_ptr bit)) as [Ep|Ep].
    + destruct Hap as [?|Hne']; [done|]. destruct Hm as (j & Hj & Em').
      rewrite Ep in Hb' |- *. rewrite Hbyte in Hb'. injection Hb' as <-.
      eexists. split; [by eapply zset_znth|]. rewrite Em, Em' in *. rewrite bit_set_other; [done|done|done|].
      intros ->. by apply Hne'.
    + exists byte'. split; [|done]. rewrite znth_zset_ne; [done| | |done].
      * apply znth_Some in Hbyte. lia.
      * apply znth_Some in Hb'. lia.
  - destruct Hp as ((base & size & Hd') & Hp). split; [|done]. exists base, size. by simplify_map_eq.
Qed.

Lemma block_written_other c l arg data data' w p b :
  (forall i, 0 <= i -> i <> arg -> bit_range_get data' i = bit_range_get data i) ->
  zlen data' = zlen data -> storage (memory_ c) !! l = Some data ->
  apart p (InBlock l arg) -> holds_at c p b ->
  holds_at (set_memory (mkMemory (clients (memory_ c)) (<[l := data']> (storage (memory_ c)))) w c) p b.
Proof.
  intros Hother Hlen Hdata Hap Hp. destruct p as [l' bit'|l' arg']; cbn in *; [done|].
  destruct Hp as (Hd & data1 & H1 & Hr & Hb). split; [done|].
  destruct (decide (l' = l)) as [->|Hne].
  - rewrite Hdata in H1. injection H1 as <-. exists data'. split; [by simplify_map_eq|].
    split; [lia|]. destruct Hap as [Hap|Hap]; [done|]. rewrite Hother; [done|lia|done].
  - exists data1. split; [by simplify_map_eq|done].
Qed.

(** Memory and bits changed so that the places say what [e'] says. *)
Lemma represents_values u c e c' e' :
  represents u c e ->
  automatas c' = automatas c -> current_automata_ c' = current_automata_ c ->
  imported_bits_ c' = imported_bits_ c -> imported_bit_args_ c' = imported_bit_args_ c ->
  declared_bits_ c' = declared_bits_ c ->
  estate e' = estate e -> etimer e' = etimer e -> eid e' = eid e ->
  (forall k p, place k = Some p -> holds_at c' p (evar e' k)) ->
  represents u c' e'.
Proof.
  intros [Ha Hi Hl Hb Hg Hv Hd] E1 E2 E3 E4 E5 E6 E7 E8 Hnew.
  split; unfold imported_at; rewrite ?E3, ?E4, ?E5; try done.
  destruct Ha as (a & x & ? & ? & ? & ? & ? & ?). exists a, x. by rewrite E1, E2, E6, E7, E8.
Qed.

Lemma write_bit_runs u c e k l bit d value :
  represents u c e -> place k = Some (AtBit l bit) -> bits c !! l = Some (EventBit bit d) ->
  exists c', EventBit_Write l bit d value c = Done tt c' /\ represents u c' (put_var k value e) /\
    keeps_locals c c'.
Proof.
  intros R Hk Hd. destruct (rep_value _ _ _ R k _ Hk) as (_ & byte & Hb & Hs).
  unfold EventBit_Write, memory_bit. unfold mbind, prog_bind, array_get. rewrite Hb. unfold mret at 1 2, prog_ret.
  rewrite Hs.
  assert (Hsame : evar e k = value -> represents u c (put_var k value e)).
  { intros E. apply (represents_ext u c e); try done. intros j. cbn. case_decide; congruence. }
  assert (Hrest : exists c',
    (write_client (bit_ptr bit) (memory_bit_set (bit_mask bit) byte value);;
     send (SendEventReport bit);; put_bit l (EventBit bit true)) c = Done tt c' /\
    represents u c' (put_var k value e) /\ keeps_locals c c').
  { unfold write_client, modify_state, send, put_bit, mbind, prog_bind. cbn.
    pose proof (report_quiet (W := W) bit (mkMemory (zset (clients (memory_ c)) (bit_ptr bit)
        (memory_bit_set (bit_mask bit) byte value)) (storage (memory_ c))) (node_ c)) as Hq.
    unfold modify_state. cbn. destruct (bus _ _ _) as [m w]. cbn in Hq. subst m.
    eexists. split; [reflexivity|]. split.
    2: { split; try done. cbn. intros l' base size Hl'. by destruct (decide (l' = l)) as [->|]; simplify_map_eq. }
    apply (represents_values u c e); try done.
    intros k' p' Hk'. cbn [put_var evar]. case_decide as Ek.
    - subst k'. rewrite Hk in Hk'. injection Hk' as <-. destruct (placed_mask WP _ _ _ Hk) as (i & Hi8 & Em).
      split; [exists true; cbn; by simplify_map_eq|].
      eexists. split; [by eapply zset_znth|]. rewrite Em. by rewrite bit_set_same.
    - apply (bit_written_other c l bit byte true value w p' (evar e k')); [by eapply placed_mask| | |done|].
      + destruct p' as [l' bit'|]; [by eapply (placed_mask WP)|done].
      + by eapply (placed_apart WP).
      + by apply (rep_value _ _ _ R). }
  unfold mbind, prog_bind in Hrest.
  destruct (evar e k) eqn:E, d, value; cbn; try exact Hrest; exists c; split; try done; split; try done; by apply Hsame.
Qed.

(** Writing a local variable that stands for [k]. *)
Lemma write_runs u c e k i p value :
  represents u c e -> place k = Some p -> imported_at c i p -> 0 <= i < MAX_IMPORT_VAR ->
  exists c', write_var i value c = Done tt c' /\ represents u c' (put_var k value e) /\ keeps_locals c c'.
Proof.
  intros R Hk [Hi Ha] Hr. unfold write_var.
  destruct (znth_is_Some (imported_bit_args_ c) i) as [_ Hx]. rewrite (rep_args _ _ _ R) in Hx.
  destruct (Hx Hr) as [arg Harg].
  unfold mbind at 1, prog_bind at 1, imported_arg, array_get. rewrite Harg. cbn -[Write GetBit].
  rewrite (reading_bit _ _ _ _ Hi). pose proof (rep_value _ _ _ R k p Hk) as Hp.
  destruct p as [l bit|l a]; cbn [place_address]; unfold Write, the_bit, mbind, prog_bind.
  - destruct Hp as ((d & Hd) & _). rewrite Hd. by apply (write_bit_runs u c e k l bit d value).
  - rewrite Ha in Harg. injection Harg as ->.
    destruct Hp as ((base & size & Hd) & data & Hs & Hb & Hv). rewrite Hd. unfold send, modify_state.
    destruct (range_set l arg value (memory_ c) (node_ c) data Hs Hb) as (data' & E & Hlen & Hget).
    destruct (bus _ _ _) as [m w]. cbn in E. subst m. eexists. split; [reflexivity|]. split.
    2: { split; try done. cbn. intros l' b' s' Hl'. by destruct (decide (l' = l)) as [->|]; simplify_map_eq. }
    apply (represents_values u c e); try done. intros k' p' Hk'. cbn [put_var evar]. case_decide as Ek.
    + subst k'. rewrite Hk in Hk'. injection Hk' as <-. split; [by exists base, size|]. exists data'.
      split; [cbn; by simplify_map_eq|]. split; [lia|]. rewrite Hget by lia. by rewrite decide_True.
    + apply (block_written_other c l arg data); [|done|done|by eapply (placed_apart WP)|by apply (rep_value _ _ _ R)].
      intros j Hj Hne. rewrite Hget by done. by rewrite decide_False.
Qed.

Lemma effect_runs u c e x act :
  represents u c e -> effect_encoded u x act ->
  exists c', sem_action act c = Done tt c' /\ represents u c' (apply_effect e x) /\ keeps_locals c c'.
Proof.
  intros R H. destruct H as [k b i Hi|s|t]; cbn [sem_action].
  - destruct (rep_import _ _ _ R _ _ Hi) as (p & Hk & Hl).
    by apply (write_runs u c e k i p b R Hk Hl), (rep_local _ _ _ R _ _ Hi).
  - destruct (rep_automata _ _ _ R) as (a & x & Ha & Hx & Hs & Ht & Hid & Hi).
    unfold current, SetState, the_automata, mbind, prog_bind. rewrite Ha, Hx.
    eexists. split; [reflexivity|]. split; [|done]. destruct R as [_ ? ? ? ? ? ?]. split; try done.
    eexists a, _. split; [done|]. split; [cbn; by simplify_map_eq|]. done.
  - destruct (rep_automata _ _ _ R) as (a & x & Ha & Hx & Hs & Ht & Hid & Hi).
    unfold current, SetTimer, the_automata, mbind, prog_bind. rewrite Ha, Hx.
    eexists. split; [reflexivity|]. split; [|done]. destruct R as [_ ? ? ? ? ? ?]. split; try done.
    eexists a, _. split; [done|]. split; [cbn; by simplify_map_eq|]. cbn. by rewrite Hid.
Qed.

Lemma effects_run u c e xs acts :
  represents u c e -> Forall2 (effect_encoded u) xs acts ->
  exists c', sem_actions acts c = Done tt c' /\ represents u c' (fold_left apply_effect xs e).
Proof.
  intros R H. revert c e R. induction H as [|x act xs acts Hx _ IH]; intros c e R; [by exists c|].
  destruct (effect_runs _ _ _ _ _ R Hx) as (c1 & E1 & R1 & _).
  destruct (IH _ _ R1) as (c2 & E2 & R2). exists c2. split; [|done].
  cbn [sem_actions]. by rewrite (bind_done _ _ _ _ _ E1).
Qed.

Lemma rule_runs u c e r o :
  represents u c e -> rule_encoded u r o ->
  exists c', sem_operation o c = Done tt c' /\ represents u c' (exec_rule r e).
Proof.
  intros R [Hg Hx]. unfold sem_operation. rewrite (bind_done _ _ _ _ _ (guards_run _ _ _ _ _ R Hg)).
  unfold exec_rule. change (forallb (holds e) (guards r)) with (enabled r e).
  destruct (enabled r e); [by apply (effects_run u)|by exists c].
Qed.

(** The import of a variable under a new local id. *)
Definition import_op (i : Z) (g : GlobalVariableId) : Operation :=
  mkOperation [] [Import i (gid_arg g) (gid_id g mod 2 ^ 16)].

Lemma zset_lookup {A} (l : list A) i x : 0 <= i < zlen l -> znth (zset l i x) i = Some x.
Proof.
  intros Hi. unfold znth, zset, zlen in *. destruct (Z.leb_spec 0 i); [|lia]. apply list_lookup_insert_eq. lia.
Qed.

(** The effect of an import on the runner. *)
Definition import_at (i arg : Z) (l : nat) (c : Core) : Core :=
  set_imported (zset (imported_bits_ c) i (Some (DeclaredBit l))) (zset (imported_bit_args_ c) i arg) c.

Lemma import_op_runs u c e k i g p :
  represents u c e -> gid k = Some g -> place k = Some p ->
  sem_operation (import_op i g) c = Done tt (import_at i (gid_arg g) (place_address p) c).
Proof.
  intros R Hg Hk. unfold import_op. rewrite sem_single. cbn [sem_action]. unfold import_bit.
  by rewrite (rep_declared _ _ _ R k p g Hk Hg).
Qed.

Lemma imported_at_other c i arg l j p :
  0 <= i -> 0 <= j -> i <> j -> imported_at c j p -> imported_at (import_at i arg l c) j p.
Proof. intros Hi Hj Hne. destruct p; unfold imported_at; cbn; by rewrite !znth_zset_ne by done. Qed.

Lemma imported_at_new c i k g p :
  gid k = Some g -> place k = Some p -> 0 <= i < MAX_IMPORT_VAR ->
  zlen (imported_bits_ c) = MAX_IMPORT_VAR -> zlen (imported_bit_args_ c) = MAX_IMPORT_VAR ->
  imported_at (import_at i (gid_arg g) (place_address p) c) i p.
Proof.
  intros Hg Hk Hi H1 H2. unfold imported_at, import_at. cbn. rewrite !zset_lookup by lia.
  split; [done|]. destruct p as [|l arg]; [done|]. by rewrite (placed_arg WP k l arg g Hk Hg).
Qed.

(** An import over an id that stands for no variable in [u]. *)
Lemma represents_import_at u c e i arg l :
  represents u c e -> 0 <= i -> (forall v, u !! v <> Some i) -> represents u (import_at i arg l c) e.
Proof.
  intros [Ha Him Hl Hb Hgs Hv Hd] Hi Hnew.
  assert (Hne : forall v j, u !! v = Some j -> i <> j /\ 0 <= j).
  { intros v j Hj. split; [intros ->; by apply (Hnew v)|]. by apply Hl in Hj as [? _]. }
  split; cbn; try done.
  - destruct Ha as (a & x & ? & ? & ? & ? & ? & Ht). exists a, x. do 5 (split; [done|]).
    intros j Hj. destruct (Hne _ _ Hj). rewrite znth_zset_ne by done. by apply Ht.
  - intros k j Hj. destruct (Hne _ _ Hj). destruct (Him k j Hj) as (p & Hp & Hj'). exists p. split; [done|].
    by apply imported_at_other.
  - by rewrite zlen_zset.
  - by rewrite zlen_zset.
Qed.

Lemma represents_insert u c e k i p :
  represents u c e -> place k = Some p -> imported_at c i p -> 0 <= i < MAX_IMPORT_VAR ->
  represents (<[Some k := i]> u) c e.
Proof.
  intros [Ha Him Hl Hb Hgs Hv Hd] Hp Hi Hr. split; try done.
  - destruct Ha as (a & x & ? & ? & ? & ? & ? & Ht). exists a, x. do 5 (split; [done|]).
    intros j Hj. rewrite lookup_insert_ne in Hj by done. by apply Ht.
  - intros k' j [[[= <-] <-]|[_ Hj]]%lookup_insert_Some; [by exists p|by apply Him].
  - intros v j [[<- <-]|[_ Hj]]%lookup_insert_Some; [done|by apply (Hl v)].
Qed.

Lemma import_runs u c e k i g p :
  represents u c e -> gid k = Some g -> place k = Some p ->
  0 <= i < MAX_IMPORT_VAR -> (forall v, u !! v <> Some i) ->
  exists c', sem_operation (import_op i g) c = Done tt c' /\ represents (<[Some k := i]> u) c' e.
Proof.
  intros R Hg Hk Hi Hnew. rewrite (import_op_runs u c e k i g p R Hg Hk).
  eexists. split; [done|]. apply represents_insert with p; [|done| |done].
  - apply represents_import_at; [done|lia|done].
  - eapply imported_at_new; [done..|apply R|apply R].
Qed.

(** ** Items on the bits of the runner *)

(** Operations that write items, starting with the local variables [u]; an
    import of a variable that is already local writes nothing. *)
Inductive items_encoded : Locals -> list Item -> list Operation -> Locals -> Prop :=
| encoded_nil u : items_encoded u [] [] u
| encoded_known u k i l ops u' :
    u !! Some k = Some i -> items_encoded u l ops u' -> items_encoded u (Imported k :: l) ops u'
| encoded_new u k i g l ops u' :
    u !! Some k = None -> gid k = Some g -> 0 <= i < MAX_IMPORT_VAR -> (forall v, u !! v <> Some i) ->
    items_encoded (<[Some k := i]> u) l ops u' ->
    items_encoded u (Imported k :: l) (import_op i g :: ops) u'
| encoded_clear u l ops u' :
    u !! None = Some timer_bit_ -> items_encoded {[None := timer_bit_]} l ops u' ->
    items_encoded u (Cleared :: l) ops u'
| encoded_rule u r o l ops u' :
    rule_encoded u r o -> items_encoded u l ops u' ->
    items_encoded u (Ruled r :: l) (o :: ops) u'.

Lemma items_encoded_app u l1 ops1 u1 l2 ops2 u2 :
  items_encoded u l1 ops1 u1 -> items_encoded u1 l2 ops2 u2 ->
  items_encoded u (l1 ++ l2) (ops1 ++ ops2) u2.
Proof.
  induction 1; intros Hl2; [done|..]; cbn.
  - eapply encoded_known; eauto.
  - eapply encoded_new; eauto.
  - eapply encoded_clear; eauto.
  - eapply encoded_rule; eauto.
Qed.

Lemma represents_weaken u u' c e : represents u c e -> u' ⊆ u -> represents u' c e.
Proof.
  intros [Ha Hi Hl Hb Hg Hv Hd] Hu. split; try done.
  - destruct Ha as (a & x & ? & ? & ? & ? & ? & Ht). exists a, x. do 5 (split; [done|]).
    intros i Hti. by apply Ht, (lookup_weaken u').
  - intros k i Hk. by apply Hi, (lookup_weaken u').
  - intros v i Hk. by apply (Hl v), (lookup_weaken u').
Qed.

Lemma items_run u c e l ops u' :
  all_placed (fun _ => False) -> represents u c e -> items_encoded u l ops u' ->
  exists c', sem_program ops c = Done tt c' /\ represents u' c' (exec_rules (rules_of l) e).
Proof.
  intros Hall R H. revert c e R.
  induction H as [u|u k i l ops u' Hk _ IH|u k i g l ops u' Hk Hg Hi Hnew _ IH|u l ops u' Ht _ IH
    |u r o l ops u' Hr _ IH]; intros c e R.
  - by exists c.
  - by apply IH.
  - destruct (Hall k ltac:(tauto) ltac:(by eexists)) as [p Hpk].
    destruct (import_runs u c e k i g p R Hg Hpk Hi Hnew) as (c1 & E1 & R1).
    destruct (IH c1 e R1) as (c2 & E2 & R2).
    exists c2. split; [|done]. cbn [sem_program]. by rewrite (bind_done _ _ _ _ _ E1).
  - apply IH. apply (represents_weaken u); [done|]. by apply map_singleton_subseteq_l.
  - destruct (rule_runs u c e r o R Hr) as (c1 & E1 & R1).
    destruct (IH c1 (exec_rule r e) R1) as (c2 & E2 & R2).
    exists c2. split; [|done]. cbn [sem_program]. by rewrite (bind_done _ _ _ _ _ E1).
Qed.

End Rules.

(** ** The rules that a body builds *)

(** [Def()] followed by calls. *)
Definition def (cs : list OpCall) : prog AutomataDef unit := Def (run_calls cs).

(** Local variables that are known to stand for a variable. *)
Abbreviation Facts := (list (option nat * Z)).

Definition known (G : Facts) (u : Locals) : Prop := Forall (fun '(v, i) => u !! v = Some i) G.

(** The guards and effects that calls stand for. *)
Inductive calls_rule (G : Facts) : list OpCall -> list Guard -> list Effect -> Prop :=
| rule_nil : calls_rule G [] [] []
| rule_if v i b cs gs xs :
    In (v, i) G -> calls_rule G cs gs xs -> calls_rule G (CallIfReg i b :: cs) (GReg v b :: gs) xs
| rule_if0 v i cs gs xs :
    In (v, i) G -> calls_rule G cs gs xs -> calls_rule G (CallIfReg0 i :: cs) (GReg v false :: gs) xs
| rule_if1 v i cs gs xs :
    In (v, i) G -> calls_rule G cs gs xs -> calls_rule G (CallIfReg1 i :: cs) (GReg v true :: gs) xs
| rule_done cs gs xs :
    calls_rule G cs gs xs -> calls_rule G (CallIfTimerDone :: cs) (GReg None false :: gs) xs
| rule_not_done cs gs xs :
    calls_rule G cs gs xs -> calls_rule G (CallIfTimerNotDone :: cs) (GReg None true :: gs) xs
| rule_state s cs gs xs :
    0 <= s < 32 -> calls_rule G cs gs xs -> calls_rule G (CallIfState s :: cs) (GState s :: gs) xs
| rule_act k i b cs gs xs :
    In (Some k, i) G -> calls_rule G cs gs xs -> calls_rule G (CallActReg i b :: cs) gs (EReg k b :: xs)
| rule_act0 k i cs gs xs :
    In (Some k, i) G -> calls_rule G cs gs xs ->
    calls_rule G (CallActReg0 i :: cs) gs (EReg k false :: xs)
| rule_act1 k i cs gs xs :
    In (Some k, i) G -> calls_rule G cs gs xs ->
    calls_rule G (CallActReg1 i :: cs) gs (EReg k true :: xs)
| rule_goto s cs gs xs :
    0 <= s < 32 -> calls_rule G cs gs xs -> calls_rule G (CallActState s :: cs) gs (EState s :: xs)
| rule_timer t cs gs xs :
    0 <= t < 32 -> calls_rule G cs gs xs -> calls_rule G (CallActTimer t :: cs) gs (ETimer t :: xs).

Lemma calls_rule_app G cs1 gs1 xs1 cs2 gs2 xs2 :
  calls_rule G cs1 gs1 xs1 -> calls_rule G cs2 gs2 xs2 ->
  calls_rule G (cs1 ++ cs2) (gs1 ++ gs2) (xs1 ++ xs2).
Proof. intros H1 H2. induction H1; cbn; [done|constructor; assumption..]. Qed.

Lemma calls_rule_weaken G G' cs gs xs :
  (forall v i, In (v, i) G -> In (v, i) G') -> calls_rule G cs gs xs -> calls_rule G' cs gs xs.
Proof. intros Hi H. induction H; constructor; auto. Qed.

Lemma known_In G u v i : known G u -> In (v, i) G -> u !! v = Some i.
Proof. intros Hk Hi. unfold known in Hk. rewrite List.Forall_forall in Hk. by apply (Hk (v, i)). Qed.

Lemma calls_rule_sound G a cs gs xs :
  ids_ok a -> known G (used_variables_ a) -> calls_rule G cs gs xs ->
  Forall call_ok cs /\ rule_encoded (used_variables_ a) (mkRule gs xs) (operation_of cs).
Proof.
  intros Hok Hk H. unfold rule_encoded. cbn [guards effects].
  assert (Hl : forall v i, In (v, i) G -> used_variables_ a !! v = Some i /\ 0 <= i < 32).
  { intros v i Hi. pose proof (known_In _ _ _ _ Hk Hi) as Hu. split; [done|].
    by apply (ids_import _ Hok v). }
  induction H; [by repeat split|..]; destruct IHcalls_rule as (H1 & H2 & H3);
    cbn [operation_of foldr meaning add_meaning conditions actions];
    try match goal with Hin : In _ G |- _ => destruct (Hl _ _ Hin) end;
    (split; [constructor; [done|done]|]);
    (split; [first [exact H2|constructor; [|exact H2]]|first [exact H3|constructor; [|exact H3]]]);
    constructor; first [done|apply Hok].
Qed.

Lemma run_calls_ok cs out :
  Forall call_ok cs ->
  make_op (run_calls cs) (Some out) =
  CreateOperation (encode_conditions (conditions (operation_of cs)))
    (encode_actions (actions (operation_of cs))) (Some out).
Proof.
  intros Hc. unfold make_op. rewrite bool_decide_true by done. by rewrite run_calls_append.
Qed.

(** A [Def()] that fits an operation. *)
Lemma Def_Done cs a a' out :
  Forall call_ok cs -> cs <> [] -> aut_output_ a = Some out -> def cs a = Done tt a' ->
  def_ok cs /\ a' = set_output (Some (out ++ encode_operation (operation_of cs))) a.
Proof.
  intros Hc Hne Ho H. assert (Hok : def_ok cs).
  { unfold def, Def in H. rewrite Ho, run_calls_ok in H by done. unfold CreateOperation, hassert in H.
    destruct (Z.ltb_spec (zlen (encode_conditions (conditions (operation_of cs)))) 16); [|done].
    destruct (Z.ltb_spec (zlen (encode_actions (actions (operation_of cs)))) 16); [|done]. by split. }
  split; [done|]. unfold def in H. rewrite (Def_appends cs a out) in H by done. by injection H as <-.
Qed.

Section Builds.
Context (gid : nat -> option GlobalVariableId).

(** [aut->ImportVariable(...)] of the variable with number [k]. *)
Definition import (k : nat) : prog AutomataDef Z := ImportVariable k (gid k).

(** The arguments of the variables fit an import. *)
Definition args_ok : Prop := forall k g, gid k = Some g -> 0 <= gid_arg g < 2 ^ 11.

(** When [m] comes through, where the facts [G] hold, it has written the rules
    [rs] and imports, and the facts [G'] hold. *)
Definition builds (G : Facts) (m : prog AutomataDef unit) (rs : list Rule) (G' : Facts) : Prop :=
  forall a out a', ids_ok a -> known G (used_variables_ a) -> aut_output_ a = Some out ->
    m a = Done tt a' ->
    exists l ops, rules_of l = rs /\ wf_body ops /\ aut_output_ a' = Some (out ++ encode_program ops) /\
      items_encoded gid (used_variables_ a) l ops (used_variables_ a') /\
      ids_ok a' /\ known G' (used_variables_ a').

Context (Hargs : args_ok).

Lemma builds_ret G : builds G (mret tt) [] G.
Proof.
  intros a out a' Hok Hk Ho [= <-]. exists [], []. split; [done|]. split; [by intros p|].
  split; [by rewrite app_nil_r|]. split; [constructor|done].
Qed.

Lemma builds_bind G m rs1 G1 k rs2 G2 :
  builds G m rs1 G1 -> builds G1 k rs2 G2 -> builds G (m;; k) (rs1 ++ rs2) G2.
Proof.
  intros Hm Hk a out a' Hok Hkn Ho ([] & a1 & E1 & E2)%bind_Done.
  destruct (Hm a out a1 Hok Hkn Ho E1) as (l1 & ops1 & <- & W1 & O1 & I1 & K1 & F1).
  destruct (Hk a1 _ a' K1 F1 O1 E2) as (l2 & ops2 & <- & W2 & O2 & I2 & K2 & F2).
  exists (l1 ++ l2), (ops1 ++ ops2). split; [apply rules_of_app|]. split; [by apply wf_body_app|].
  split; [by rewrite O2, encode_program_app, app_assoc|].
  split; [by eapply items_encoded_app|done].
Qed.

Lemma builds_def G cs gs xs :
  cs <> [] -> calls_rule G cs gs xs -> builds G (def cs) [mkRule gs xs] G.
Proof.
  intros Hne Hr a out a' Hok Hkn Ho E.
  destruct (calls_rule_sound G a cs gs xs Hok Hkn Hr) as [Hc He].
  destruct (Def_Done cs a a' out Hc Hne Ho E) as [Hd ->].
  exists [Ruled (mkRule gs xs)], [operation_of cs]. split; [done|].
  destruct (emits_Def cs a Hd) as [Hw _]. split; [done|].
  change (encode_program [operation_of cs]) with (encode_operation (operation_of cs) ++ []).
  split; [by rewrite app_nil_r|]. split; [|by split; [apply ids_ok_set_output|]].
  eapply encoded_rule; [done|constructor].
Qed.

Lemma builds_def_then G cs gs xs k rs G' :
  cs <> [] -> calls_rule G cs gs xs -> builds G k rs G' ->
  builds G (def cs;; k) (mkRule gs xs :: rs) G'.
Proof. intros Hne Hr Hk. by apply (builds_bind G _ [_] G), Hk; apply builds_def. Qed.

(** The import of a variable, before a body that uses it. *)
Lemma import_Done k a i a' out :
  ids_ok a -> aut_output_ a = Some out -> import k a = Done i a' ->
  exists ops, wf_body ops /\ aut_output_ a' = Some (out ++ encode_program ops) /\
    items_encoded gid (used_variables_ a) [Imported k] ops (used_variables_ a') /\
    ids_ok a' /\ used_variables_ a' !! Some k = Some i /\ used_variables_ a ⊆ used_variables_ a'.
Proof.
  intros Hok Ho. unfold import, ImportVariable.
  destruct (used_variables_ a !! Some k) as [j|] eqn:Hk.
  - intros [= <- <-]. exists []. split; [by intros p|]. split; [by rewrite app_nil_r|].
    split; [by eapply encoded_known; [|constructor]|done].
  - intros (n & a1 & E & ([] & a2 & [= <-] & ([] & a3 & Ha & ([] & a4 & E4 & [= <- <-])%bind_Done)%bind_Done)%bind_Done)%bind_Done.
    apply GetNextVariableId_spec in E as (-> & Hn & Hres); [|done].
    unfold hassert in Ha. destruct (n <? MAX_IMPORT_VAR); [|done]. injection Ha as <-.
    pose proof (ids_ok_insert a k n Hok Hn Hres Hk) as Hok'. pose proof (ids_next _ Hok) as Hnx.
    set (a2 := set_used _ _) in *. unfold MAX_IMPORT_VAR in Hn.
    unfold RenderImportVariable in E4. destruct (gid k) as [g|] eqn:Eg.
    + assert (Hc : Forall call_ok [CallActImportVariable g n]).
      { constructor; [|constructor]. split; [lia|by apply (Hargs k)]. }
      assert (E5 : def [CallActImportVariable g n] a2 = Done tt a4).
      { rewrite <- E4. unfold def. apply Def_ext. intros o. cbn [run_calls call].
        unfold mbind, prog_bind. by destruct (ActImportVariable (Some g) n o) as [[] ?| |]. }
      destruct (Def_Done _ a2 a4 out Hc ltac:(done) Ho E5) as [Hd ->].
      exists [import_op n g]. destruct (emits_Def _ a Hd) as [Hw _]. split; [done|].
      change (encode_program [import_op n g]) with (encode_operation (import_op n g) ++ []).
      split; [by rewrite app_nil_r|]. split; [|split; [by apply ids_ok_set_output|]].
      * eapply encoded_new; [done|done|unfold MAX_IMPORT_VAR; lia| |constructor]. intros v Hv.
        destruct v as [v|]; [apply (ids_range _ Hok) in Hv; lia|].
        rewrite (ids_timer _ Hok) in Hv. injection Hv as <-. unfold timer_bit_ in Hn. lia.
      * cbn. split; [by simplify_map_eq|]. by apply insert_subseteq.
    + exfalso. unfold Def, make_op in E4. cbn [aut_output_ set_used set_next_variable_id a2] in E4.
      rewrite Ho in E4. rewrite bool_decide_true in E4 by done. unfold ActImportVariable, hassert in E4.
      destruct (Z.leb_spec 0 n); [|lia]. done.
Qed.

Lemma builds_import G k f rs G' :
  (forall i, builds ((Some k, i) :: G) (f i) rs G') -> builds G (i ← import k; f i) rs G'.
Proof.
  intros Hf a out a' Hok Hkn Ho (i & a1 & E1 & E2)%bind_Done.
  destruct (import_Done k a i a1 out Hok Ho E1) as (ops1 & W1 & O1 & I1 & K1 & Hi & Hsub).
  assert (F1 : known ((Some k, i) :: G) (used_variables_ a1)).
  { constructor; [done|]. apply (Forall_impl _ _ _ Hkn). intros [v j] Hv. by eapply lookup_weaken. }
  destruct (Hf i a1 _ a' K1 F1 O1 E2) as (l & ops2 & <- & W2 & O2 & I2 & K2 & F2).
  exists (Imported k :: l), (ops1 ++ ops2). split; [done|]. split; [by apply wf_body_app|].
  split; [by rewrite O2, encode_program_app, app_assoc|].
  split; [by apply (items_encoded_app _ _ [Imported k] _ (used_variables_ a1) l)|done].
Qed.

Lemma builds_clear_then G k rs G' :
  builds [] k rs G' -> builds G (modify_state ClearUsedVariables;; k) rs G'.
Proof.
  intros Hk. apply (builds_bind G _ [] []); [|done]. intros a out a' Hok Hkn Ho [= <-].
  exists [Cleared], []. split; [done|]. split; [by intros p|].
  split; [change (encode_program []) with (@nil Z); by rewrite app_nil_r|]. split.
  - apply encoded_clear; [apply Hok|constructor].
  - split; [|constructor]. apply ids_ok_clear, Hok.
Qed.

Lemma builds_weaken G1 G2 m rs G' G2' :
  builds G1 m rs G' -> (forall v i, In (v, i) G1 -> In (v, i) G2) ->
  (forall v i, In (v, i) G2' -> In (v, i) G') -> builds G2 m rs G2'.
Proof.
  intros Hm H1 H2 a out a' Hok Hkn Ho E.
  assert (Hk1 : known G1 (used_variables_ a)).
  { unfold known. rewrite List.Forall_forall. intros [v i] Hi. by eapply known_In, H1. }
  destruct (Hm a out a' Hok Hk1 Ho E) as (l & ops & Hl & W & O & I & K & F). exists l, ops.
  do 5 (split; [done|]). unfold known. rewrite List.Forall_forall. intros [v i] Hi. by eapply known_In, H2.
Qed.

End Builds.

(** ** Theorems *)

Section Theorems.
Context {V W : Type} `{VV : !Velocity V} `{NN : !Node V W} `{QN : !QuietNode V W}.
Context (gid : nat -> option GlobalVariableId) (place : nat -> option Place).

(** An automata that starts has imported its timer. *)
Lemma represents_reset u a c e :
  represents gid place u c e -> current_automata_ c = Some a ->
  represents gid place {[None := timer_bit_]} (reset_imports a c) e.
Proof.
  intros [Ha _ _ _ _ Hv Hd] Hc. destruct Ha as (a' & x & Ha & Hx & ? & ? & ? & _).
  rewrite Hc in Ha. injection Ha as <-. split; try done.
  - exists a, x. do 5 (split; [done|]). intros i [_ <-]%lookup_singleton_Some. done.
  - intros k i [[=] _]%lookup_singleton_Some.
  - intros v i [_ <-]%lookup_singleton_Some. unfold timer_bit_, MAX_IMPORT_VAR. lia.
Qed.

(** The bytes of a body, rendered somewhere, are the code of the automata [a] of
    the runner [s], whose layout is as [gid] and [place] say. *)
Record runnable (body : prog AutomataDef unit) (code : list Z) (a : nat)
    (s : AutomataRunner (V := V) (W := W)) : Prop := {
  run_placed : well_placed gid place;
  run_all : all_placed gid place (fun _ => False);
  run_args : args_ok gid;
  run_rendered : exists def def' out bytes x,
    (forall id, id ∈ reserved_variables_ def -> 1 <= id < MAX_IMPORT_VAR) /\
    Render body (Some out) def = Done (Some (out ++ bytes)) def' /\
    automatas (core s) !! a = Some x /\ bytes_at code (starting_offset_ x) bytes;
  run_code : zlen code < 2 ^ 31;
  run_debug : logEventId_ (g_aut_debug_space s) = 0
}.

Lemma body_runs body rs G code a e s :
  runnable body code a s -> builds gid [] body rs G ->
  represents gid place {[None := timer_bit_]} (reset_imports a (core s)) e ->
  exists s' u, run_automata code a s = Some (Done tt s') /\
    represents gid place u (core s') (exec_rules rs e).
Proof.
  intros [WP Hall Hargs (def & def' & out & bytes & x & Hres & Hr & Ha & Hat) Hc Hd] Hb R. unfold Render in Hr.
  apply bind_Done in Hr as ([] & d1 & [= <-] & Hr). apply bind_Done in Hr as ([] & d2 & [= <-] & Hr).
  apply bind_Done in Hr as ([] & d3 & E3 & Hr).
  apply bind_Done in Hr as (d4 & ? & [= <- <-] & Hr). apply bind_Done in Hr as ([] & d5 & [= <-] & Hr).
  destruct (Hb _ out d3 (ids_ok_clear (set_output (Some out) def) Hres) ltac:(constructor) eq_refl E3)
    as (l & ops & <- & Hw & Ho & Hi & _).
  rewrite Ho in Hr. injection Hr as Hout _. unfold push_back in Hout. rewrite <- app_assoc in Hout.
  apply app_inv_head in Hout. subst bytes.
  destruct (items_run gid place WP _ (reset_imports a (core s)) e l ops _ Hall R Hi) as (c' & Ec & R').
  pose proof (run_automata_program code a x ops s Hc Hd Ha (Hw _) Hat) as Hrun. rewrite Ec in Hrun.
  destruct Hrun as (s' & Es & <-). by exists s', (used_variables_ d3).
Qed.

(** C6: A rendered body runs as its rules: when a body builds rules and imports,
    and its rendering succeeds, then the interpreter, run on the bytes wherever
    they were put, goes from any state of the layout to the state in which the
    rules were executed in their order, on variables that are bits of their
    own, for a node that nobody else listens to. *)
Theorem body_runs_rules body rs G code a e s :
  runnable body code a s -> builds gid [] body rs G ->
  represents gid place {[None := timer_bit_]} (reset_imports a (core s)) e ->
  exists s' u, run_automata code a s = Some (Done tt s') /\
    represents gid place u (core s') (exec_rules rs e).
Proof. apply body_runs. Qed.

End Theorems.
