(* ===== verification/ControlLogic.v ===== *)
(** The logic of control points (src/automata/control-logic.hxx,
    control-logic.cc): the bodies of the automata of tracks, signals, turnouts
    and magnets.

    A body is a program that imports variables and writes operations.  Global
    variables are numbered; a pointer to a local variable is its id.  The
    automata of a track is built by plugins, in the order of their numbers.

    C++ leaves the order of the imports in the arguments of one call open; here
    they are made from left to right.  The order only decides which local ids the
    variables get. *)

From S2P Require Import Prelude AutomataDefs Automata AutomataOps AutomataBuild ControlRules.

(** ** Plugins *)

Definition StInit : Z := 0.
Definition StBase : Z := 1.

Definition AutomataCallback : Type := prog AutomataDef unit.

(** [AutomataPlugin]: a multimap from numbers to callbacks, in increasing
    order; equal numbers in the order in which they were added. *)
Definition PluginsOf (S : Type) : Type := list (Z * prog S unit).

Definition AutomataPlugin : Type := PluginsOf AutomataDef.

Fixpoint AddAutomataPlugin {S} (n : Z) (cb : prog S unit) (l : PluginsOf S) : PluginsOf S :=
  match l with
  | [] => [(n, cb)]
  | (m, cb') :: l' => if n <? m then (n, cb) :: l else (m, cb') :: AddAutomataPlugin n cb l'
  end.

Definition RemoveAutomataPlugins (n : Z) (l : AutomataPlugin) : AutomataPlugin :=
  List.filter (fun '(m, _) => negb (m =? n)) l.

Fixpoint RunAll {S} (l : PluginsOf S) : prog S unit :=
  match l with
  | [] => mret tt
  | (_, cb) :: l => cb;; RunAll l
  end.

Definition HandleInitState : AutomataCallback := def [CallIfState StInit; CallActState StBase].

Definition ClearAutomataVariables : AutomataCallback := modify_state ClearUsedVariables.

Definition new_AutomataPlugin : AutomataPlugin := AddAutomataPlugin 10000 HandleInitState [].

(** [OpCallback]: what a callback imports, and the calls that it makes on the
    operation. *)
Definition OpCallback : Type := option (prog AutomataDef (list OpCall)).

Definition RunCallback (cb : OpCallback) : prog AutomataDef (list OpCall) :=
  match cb with
  | Some m => m
  | None => mret []
  end.

(** ** Tracks *)

(** The variables of [CtrlTrackInterface]. *)
Record CtrlTrackInterface := mkInterface {
  out_try_set_route : nat;
  in_route_set_success : nat;
  in_route_set_failure : nat;
  out_route_released : nat;
  in_next_signal_1 : nat;
  in_next_signal_2 : nat
}.

(** An interface, what it is bound to, and what the lookups on that answer. *)
Record BoundInterface := mkBound {
  iface : CtrlTrackInterface;
  binding : CtrlTrackInterface;
  binding_next : option nat;
  binding_far : option nat
}.

(** The variables of [StraightTrack]. *)
Record StraightTrack := mkStraight {
  side_a : BoundInterface;
  side_b : BoundInterface;
  external_occupancy_ : option nat;
  simulated_occupancy_ : nat;
  route_set_ab_ : nat;
  route_set_ba_ : nat;
  route_pending_ab_ : nat;
  route_pending_ba_ : nat;
  tmp_seen_train_in_next_ : nat;
  tmp_route_setting_in_progress_ : nat;
  tmp_shadow_train_in_far_ : nat
}.

(** ** Detectors *)

(** Track pieces, as far as they answer lookups.  The sides of a straight track
    are 0 and 1; those of a turnout are the points 0, closed 1 and thrown 2. *)
Inductive Piece :=
| StraightTrackShort
| StraightTrackLong
| StraightTrackWithDetector (detector : nat)
| SignalPiece
| TurnoutBase (detector_next detector_far : nat)
| DKW (detector_next detector_far : nat -> nat).

Section Lookup.
Context (pieces : nat -> Piece) (bound : nat * nat -> option (nat * nat)).

(** [LookupFarDetector] if [far], else [LookupNextDetector]; the outer [None] is
    for a lookup that does not return, or that meets an unbound turnout. *)
Fixpoint LookupDetector (fuel : nat) (far : bool) (from : nat * nat) : option (option nat) :=
  match fuel with
  | O => None
  | S fuel =>
      let neighbor (far : bool) :=
        match bound (from.1, (1 - from.2)%nat) with
        | None => Some None
        | Some other => LookupDetector fuel far other
        end in
      match pieces from.1 with
      | StraightTrackShort => neighbor far
      | StraightTrackLong => neighbor false
      | StraightTrackWithDetector d => if far then neighbor true else Some (Some d)
      | SignalPiece =>
          if far then if bool_decide (from.2 = 0%nat) then Some None else neighbor true
          else neighbor false
      | TurnoutBase next far_ =>
          if bool_decide (from.2 = 0%nat) then Some (Some (if far then far_ else next))
          else other ← bound (from.1, 0%nat); LookupDetector fuel far other
      | DKW next far_ => Some (Some ((if far then far_ else next) from.2))
      end
  end.

End Lookup.

Section Control.
Context (gid : nat -> option GlobalVariableId).

(** The global [reset_routes], which may be null. *)
Context (reset_routes : option nat).

Abbreviation import := (import gid).

(** [ImportVariable] of several variables in order. *)
Fixpoint imports (l : list nat) : prog AutomataDef (list Z) :=
  match l with
  | [] => mret []
  | k :: l => i ← import k; ids ← imports l; mret (i :: ids)
  end.

(** *** Occupancy *)

Definition ReleaseRouteCallback (side_out : BoundInterface) (route_set : Z) : OpCallback :=
  Some (released ← import (out_route_released (iface side_out));
        mret [CallActReg1 released; CallActReg0 route_set]).

(** The part of [SimulateOccupancy] for the detector far away. *)
Definition occupancy_far (sim_occ tmpfar route_set previous_occ : Z) (far : nat)
    : prog AutomataDef unit :=
  occ ← import far;
  def [CallIfReg1 route_set; CallIfReg1 previous_occ; CallIfReg0 sim_occ; CallIfReg0 occ;
       CallActReg0 tmpfar];;
  def [CallIfReg1 route_set; CallIfReg1 previous_occ; CallIfReg0 sim_occ; CallIfReg1 occ;
       CallActReg1 tmpfar].

Definition occupancy_seen_far (sim_occ tmpfar route_set : Z) (release_cb : OpCallback) (far : nat)
    : prog AutomataDef unit :=
  occ ← import far;
  cs ← RunCallback release_cb;
  def ([CallIfReg1 route_set; CallIfReg1 occ; CallIfReg0 tmpfar; CallActReg1 tmpfar;
        CallActReg0 sim_occ] ++ cs).

Definition occupancy_near (sim_occ tmp route_set : Z) (release_cb : OpCallback) (next : nat)
    : prog AutomataDef unit :=
  occ ← import next;
  def [CallIfReg1 route_set; CallIfReg1 sim_occ; CallIfReg1 occ; CallActReg1 tmp];;
  cs ← RunCallback release_cb;
  def ([CallIfReg1 route_set; CallIfReg1 sim_occ; CallIfReg1 tmp; CallIfReg0 occ;
        CallActReg0 sim_occ] ++ cs).

Definition when {A} (x : option A) (f : A -> prog AutomataDef unit) : prog AutomataDef unit :=
  match x with
  | Some x => f x
  | None => mret tt
  end.

Definition SimulateOccupancy (sim_occ tmp tmpfar route_set : Z) (past_if next_if : BoundInterface)
    (release_cb : OpCallback) : prog AutomataDef unit :=
  match binding_next past_if with
  | None => crashing DanglingPointer
  | Some previous =>
      previous_occ ← import previous;
      when (binding_far next_if) (occupancy_far sim_occ tmpfar route_set previous_occ);;
      def [CallIfReg1 route_set; CallIfReg1 previous_occ; CallIfReg0 sim_occ; CallActReg1 sim_occ;
           CallActReg0 tmp];;
      when reset_routes (fun r =>
        reset ← import r; def [CallIfReg1 reset; CallActReg0 tmp; CallActReg0 tmpfar]);;
      when (binding_far next_if) (occupancy_seen_far sim_occ tmpfar route_set release_cb);;
      when (binding_next next_if) (fun next =>
        if bool_decide (binding_far next_if = Some next) then mret tt
        else occupancy_near sim_occ tmp route_set release_cb next)
  end.

Definition CopyOccupancy (t : StraightTrack) (external : nat) : prog AutomataDef unit :=
  sim_occ ← import (simulated_occupancy_ t);
  src ← import external;
  route_set_ab ← import (route_set_ab_ t);
  route_set_ba ← import (route_set_ba_ t);
  def [CallIfReg1 src; CallIfReg0 sim_occ; CallActReg1 sim_occ];;
  cs ← RunCallback (ReleaseRouteCallback (side_b t) route_set_ab);
  def ([CallIfReg0 src; CallIfReg1 sim_occ; CallIfReg1 route_set_ab] ++ cs);;
  cs ← RunCallback (ReleaseRouteCallback (side_a t) route_set_ba);
  def ([CallIfReg0 src; CallIfReg1 sim_occ; CallIfReg1 route_set_ba] ++ cs);;
  def [CallIfReg0 src; CallIfReg1 sim_occ; CallActReg0 sim_occ].

Definition SimulateAllOccupancy (t : StraightTrack) : AutomataCallback :=
  match external_occupancy_ t with
  | Some external => CopyOccupancy t external
  | None =>
      sim_occ ← import (simulated_occupancy_ t);
      tmp ← import (tmp_seen_train_in_next_ t);
      tmpfar ← import (tmp_shadow_train_in_far_ t);
      route_set_ab ← import (route_set_ab_ t);
      route_set_ba ← import (route_set_ba_ t);
      SimulateOccupancy sim_occ tmp tmpfar route_set_ab (side_a t) (side_b t)
        (ReleaseRouteCallback (side_b t) route_set_ab);;
      SimulateOccupancy sim_occ tmp tmpfar route_set_ba (side_b t) (side_a t)
        (ReleaseRouteCallback (side_a t) route_set_ba)
  end.

Definition DetectorOccupancy (t : StraightTrack) (detector : nat) : AutomataCallback :=
  occ ← import (simulated_occupancy_ t);
  det ← import detector;
  route1 ← import (route_set_ab_ t);
  route2 ← import (route_set_ba_ t);
  def [CallIfReg1 det; CallActReg1 occ];;
  def [CallIfReg0 det; CallIfReg1 occ; CallActReg0 route1; CallActReg0 route2; CallActReg0 occ].

(** *** Signal states *)

Definition DefCopyIf (src dst : Z) (condition : OpCallback) : prog AutomataDef unit :=
  cs ← RunCallback condition;
  def (cs ++ [CallIfReg0 src; CallIfReg1 dst; CallActReg0 dst]);;
  cs ← RunCallback condition;
  def (cs ++ [CallIfReg1 src; CallIfReg0 dst; CallActReg1 dst]).

Definition CopySignals (from to : CtrlTrackInterface) (condition : OpCallback) : prog AutomataDef unit :=
  src ← import (in_next_signal_1 from);
  dst ← import (in_next_signal_1 to);
  DefCopyIf src dst condition;;
  src ← import (in_next_signal_2 from);
  dst ← import (in_next_signal_2 to);
  DefCopyIf src dst condition.

Definition CopySignalState (t : StraightTrack) : AutomataCallback :=
  CopySignals (iface (side_a t)) (binding (side_b t)) None;;
  CopySignals (iface (side_b t)) (binding (side_a t)) None.

(** [SignalPiece::SetSignalState] *)
Definition SetSignalState (t : StraightTrack) : AutomataCallback :=
  CopySignals (iface (side_a t)) (binding (side_b t)) None;;
  inst1 ← import (in_next_signal_1 (iface (side_b t)));
  inst2 ← import (in_next_signal_2 (iface (side_b t)));
  green ← import (route_set_ab_ t);
  outst1 ← import (in_next_signal_1 (binding (side_a t)));
  outst2 ← import (in_next_signal_2 (binding (side_a t)));
  def [CallIfReg0 green; CallActReg0 outst1; CallActReg0 outst2];;
  def [CallIfReg1 green; CallIfReg0 inst2; CallIfReg0 inst1; CallActReg0 outst2; CallActReg1 outst1];;
  def [CallIfReg1 green; CallIfReg0 inst2; CallIfReg1 inst1; CallActReg1 outst2; CallActReg0 outst1];;
  def [CallIfReg1 green; CallIfReg1 inst2; CallActReg1 outst2; CallActReg1 outst1].

(** *** Routes *)

Definition SimulateRoute (condition_cb : OpCallback) (before after : BoundInterface)
    (any_route_setting_in_progress current_route_setting_in_progress : Z)
    (current_route conflicting_routes : list nat) : prog AutomataDef unit :=
  in_try_set_route ← import (out_try_set_route (binding before));
  in_success ← import (in_route_set_success (iface before));
  in_failure ← import (in_route_set_failure (iface before));
  out_success ← import (in_route_set_success (binding after));
  out_failure ← import (in_route_set_failure (binding after));
  out_try ← import (out_try_set_route (iface after));
  def [CallIfState StInit; CallActReg0 out_try; CallActReg0 any_route_setting_in_progress;
       CallActReg0 in_success; CallActReg0 in_failure];;
  when reset_routes (fun r =>
    reset ← import r;
    route ← imports current_route;
    def ([CallIfReg1 reset; CallActReg0 out_try; CallActReg0 any_route_setting_in_progress;
          CallActReg0 in_success; CallActReg0 in_failure] ++ List.map CallActReg0 route));;
  cs ← RunCallback condition_cb;
  def (cs ++ [CallIfReg1 in_try_set_route; CallIfReg1 any_route_setting_in_progress;
              CallActReg1 in_failure; CallActReg0 in_success; CallActReg0 in_try_set_route]);;
  cs ← RunCallback condition_cb;
  def (cs ++ [CallIfReg1 in_try_set_route; CallIfReg1 out_try;
              CallActReg1 in_failure; CallActReg0 in_success; CallActReg0 in_try_set_route]);;
  cs ← RunCallback condition_cb;
  route ← imports current_route;
  conflicting ← imports conflicting_routes;
  def (cs ++ [CallIfReg1 in_try_set_route; CallIfReg0 any_route_setting_in_progress]
          ++ List.map CallIfReg0 route ++ List.map CallIfReg0 conflicting
          ++ [CallActReg1 any_route_setting_in_progress;
              CallActReg1 current_route_setting_in_progress; CallActReg0 in_try_set_route;
              CallActReg0 out_success; CallActReg0 out_failure; CallActReg1 out_try]);;
  cs ← RunCallback condition_cb;
  def (cs ++ [CallIfReg1 in_try_set_route; CallIfReg0 any_route_setting_in_progress;
              CallActReg1 in_failure; CallActReg0 in_success; CallActReg0 in_try_set_route]);;
  def [CallIfReg1 current_route_setting_in_progress; CallIfReg1 out_failure;
       CallActReg0 current_route_setting_in_progress; CallActReg0 out_failure;
       CallActReg0 out_success; CallActReg0 any_route_setting_in_progress;
       CallActReg0 in_success; CallActReg1 in_failure];;
  route ← imports current_route;
  def ([CallIfReg1 current_route_setting_in_progress; CallIfReg1 out_success;
        CallActReg0 current_route_setting_in_progress; CallActReg0 out_failure;
        CallActReg0 out_success; CallActReg0 any_route_setting_in_progress;
        CallActReg0 in_failure; CallActReg1 in_success] ++ List.map CallActReg1 route).

(** The routes of a straight track in both directions; [conflict] is another
    variable that must be off. *)
Definition straight_routes (t : StraightTrack) (any : Z) (conflict : list nat) : prog AutomataDef unit :=
  pending ← import (route_pending_ab_ t);
  SimulateRoute None (side_a t) (side_b t) any pending [route_set_ab_ t] (route_set_ba_ t :: conflict);;
  pending ← import (route_pending_ba_ t);
  SimulateRoute None (side_b t) (side_a t) any pending [route_set_ba_ t] (route_set_ab_ t :: conflict).

Definition SimulateAllRoutes (t : StraightTrack) : AutomataCallback :=
  ClearAutomataVariables;;
  any ← import (tmp_route_setting_in_progress_ t);
  ab ← import (route_set_ab_ t);
  ab' ← import (route_set_ab_ t);
  ba ← import (route_set_ba_ t);
  pending_ab ← import (route_pending_ab_ t);
  pending_ba ← import (route_pending_ba_ t);
  def [CallIfState StInit; CallActReg1 ab; CallActReg0 ab'; CallActReg0 ba;
       CallActReg0 pending_ab; CallActReg0 pending_ba];;
  straight_routes t any [].

Definition DetectorRoute (t : StraightTrack) (detector : nat) : AutomataCallback :=
  any ← import (tmp_route_setting_in_progress_ t);
  ab ← import (route_set_ab_ t);
  ba ← import (route_set_ba_ t);
  pending_ab ← import (route_pending_ab_ t);
  pending_ba ← import (route_pending_ba_ t);
  def [CallIfState StInit; CallActReg0 ab; CallActReg0 ba; CallActReg0 pending_ab;
       CallActReg0 pending_ba];;
  straight_routes t any [detector].

(** *** Signals *)

(** The members of [SignalPiece] besides those of [StraightTrack]. *)
Record SignalVars := mkSignal {
  request_green_ : nat;
  signal_ : option nat;
  route_no_stop_ : nat
}.

(** [MaybeActReg(go_signal, signal, value)] *)
Definition maybe_act (signal : option Z) (value : bool) : list OpCall :=
  match signal with
  | Some i => [CallActReg i value]
  | None => []
  end.

Definition RouteShortcutCb (shortcut : Z) : OpCallback := Some (mret [CallIfReg1 shortcut]).

Definition import_maybe (x : option nat) : prog AutomataDef (option Z) :=
  match x with
  | Some k => i ← import k; mret (Some i)
  | None => mret None
  end.

Definition SimulateSignalFwdRoute (before after : BoundInterface)
    (any_route_setting_in_progress current_route_setting_in_progress : Z)
    (current_route conflicting_routes : list nat) (go_signal : option nat)
    (in_request_green in_route_no_stop : nat) : prog AutomataDef unit :=
  in_try_set_route ← import (out_try_set_route (binding before));
  in_success ← import (in_route_set_success (iface before));
  in_failure ← import (in_route_set_failure (iface before));
  out_success ← import (in_route_set_success (binding after));
  out_failure ← import (in_route_set_failure (binding after));
  out_try ← import (out_try_set_route (iface after));
  signal ← import_maybe go_signal;
  route_no_stop ← import in_route_no_stop;
  def [CallIfState StInit; CallActReg0 out_try; CallActReg0 any_route_setting_in_progress;
       CallActReg0 in_success; CallActReg0 in_failure];;
  when reset_routes (fun r =>
    reset ← import r;
    route ← imports current_route;
    def ([CallIfReg1 reset; CallActReg0 out_try; CallActReg0 any_route_setting_in_progress;
          CallActReg0 in_success; CallActReg0 in_failure] ++ List.map CallActReg0 route));;
  def [CallIfReg1 in_try_set_route; CallIfReg1 any_route_setting_in_progress;
       CallActReg1 in_failure; CallActReg0 in_success; CallActReg0 in_try_set_route];;
  route ← imports current_route;
  conflicting ← imports conflicting_routes;
  def ([CallIfReg1 in_try_set_route; CallIfReg0 route_no_stop;
        CallIfReg0 any_route_setting_in_progress]
         ++ List.map CallIfReg0 route ++ List.map CallIfReg0 conflicting ++ maybe_act signal false
         ++ [CallActReg0 in_try_set_route; CallActReg0 in_failure; CallActReg1 in_success]);;
  def [CallIfReg1 in_try_set_route; CallIfReg0 route_no_stop; CallActReg1 in_failure;
       CallActReg0 in_success; CallActReg0 in_try_set_route];;
  request_green ← import in_request_green;
  def [CallIfReg1 request_green; CallIfReg0 out_try; CallIfReg0 out_success; CallIfReg0 out_failure;
       CallIfReg0 any_route_setting_in_progress; CallActReg1 out_try;
       CallActReg1 any_route_setting_in_progress];;
  route ← imports current_route;
  def ([CallIfReg1 request_green; CallIfReg1 out_success; CallActReg0 out_success;
        CallActReg0 any_route_setting_in_progress; CallActReg0 request_green]
         ++ List.map CallActReg1 route ++ maybe_act signal true);;
  def ([CallIfReg1 request_green; CallIfReg1 out_failure; CallActReg0 out_failure;
        CallActReg0 any_route_setting_in_progress; CallActReg0 request_green]
         ++ maybe_act signal false);;
  SimulateRoute (RouteShortcutCb route_no_stop) before after any_route_setting_in_progress
    current_route_setting_in_progress current_route conflicting_routes.

Definition SignalRoute (t : StraightTrack) (g : SignalVars) : AutomataCallback :=
  any ← import (tmp_route_setting_in_progress_ t);
  ab ← import (route_set_ab_ t);
  ab' ← import (route_set_ab_ t);
  ba ← import (route_set_ba_ t);
  pending_ab ← import (route_pending_ab_ t);
  pending_ba ← import (route_pending_ba_ t);
  def [CallIfState StInit; CallActReg1 ab; CallActReg0 ab'; CallActReg0 ba;
       CallActReg0 pending_ab; CallActReg0 pending_ba];;
  when (signal_ g) (fun s =>
    signal ← import s;
    signal' ← import s;
    def [CallIfState StInit; CallActReg1 signal; CallActReg0 signal']);;
  pending ← import (route_pending_ba_ t);
  SimulateRoute None (side_b t) (side_a t) any pending [route_set_ba_ t] [route_set_ab_ t];;
  pending ← import (route_pending_ab_ t);
  SimulateSignalFwdRoute (side_a t) (side_b t) any pending [route_set_ab_ t] [route_set_ba_ t]
    (signal_ g) (request_green_ g) (route_no_stop_ g);;
  route_set_ab ← import (route_set_ab_ t);
  route_set_ba ← import (route_set_ba_ t);
  when (signal_ g) (fun s =>
    signal ← import s;
    def [CallIfReg0 route_set_ab; CallIfReg0 route_set_ba; CallActReg0 signal];;
    def [CallIfReg1 route_set_ab; CallActReg1 signal];;
    def [CallIfReg1 route_set_ba; CallActReg1 signal]).

Definition SignalOccupancy (t : StraightTrack) (g : SignalVars) : AutomataCallback :=
  if bool_decide (binding_next (side_a t) = binding_far (side_a t)) then
    ClearAutomataVariables;; SimulateAllOccupancy t;; ClearAutomataVariables
  else
    match binding_next (side_a t) with
    | None => crashing DanglingPointer
    | Some detector =>
        prev_detector ← import detector;
        occ ← import (simulated_occupancy_ t);
        route ← import (route_set_ab_ t);
        route2 ← import (route_set_ba_ t);
        signal ← import_maybe (signal_ g);
        def [CallIfReg1 prev_detector; CallActReg1 occ];;
        def ([CallIfReg0 prev_detector; CallIfReg1 occ] ++ maybe_act signal false
               ++ [CallActReg0 route; CallActReg0 route2; CallActReg0 occ])
    end.

(** *** Raw detectors *)

(** The members of [StraightTrackWithRawDetector]. *)
Record RawDetector := mkRaw {
  raw_detector_ : nat;
  output_routes_ : list nat;
  debounce_temp_var_ : nat;
  output_route_temp_var_ : nat
}.

Fixpoint copy_any (routes : list nat) (dst : Z) : prog AutomataDef unit :=
  match routes with
  | [] => mret tt
  | v :: l => i ← import v; def [CallIfReg1 i; CallActReg1 dst];; copy_any l dst
  end.

Definition VirtualRouteOut (r : RawDetector) : AutomataCallback :=
  ortmp ← import (output_route_temp_var_ r);
  match output_routes_ r with
  | [] => def [CallActReg1 ortmp]
  | routes =>
      ids ← imports routes;
      def (List.map CallIfReg0 ids ++ [CallActReg0 ortmp]);;
      copy_any routes ortmp
  end.

Definition kTimeTakenToGoBusy : Z := 2.
Definition kTimeTakenToGoFree : Z := 3.

Definition RawDetectorOccupancy (t : StraightTrack) (r : RawDetector) (min_occupied_time : Z)
    : AutomataCallback :=
  occ ← import (simulated_occupancy_ t);
  raw ← import (raw_detector_ r);
  last ← import (debounce_temp_var_ r);
  route_ab ← import (route_set_ab_ t);
  route2 ← import (route_set_ba_ t);
  raw1 ← import (raw_detector_ r);
  raw2 ← import (raw_detector_ r);
  def [CallIfState StInit; CallActReg1 raw1; CallActReg0 raw2; CallActReg1 last];;
  (if negb (min_occupied_time =? 0) then
     def [CallIfReg0 raw; CallIfReg1 last; CallIfReg1 route_ab; CallActTimer min_occupied_time;
          CallActReg0 last; CallActReg1 occ];;
     def [CallIfReg0 raw; CallIfReg1 last; CallIfReg1 route2; CallActTimer min_occupied_time;
          CallActReg0 last; CallActReg1 occ];;
     def [CallIfReg0 raw; CallIfReg1 last; CallActTimer kTimeTakenToGoBusy; CallActReg0 last];;
     def [CallIfReg1 raw; CallIfReg0 last; CallIfTimerDone; CallActTimer kTimeTakenToGoFree;
          CallActReg1 last];;
     def [CallIfTimerDone; CallIfReg0 last; CallIfReg0 occ; CallActReg1 occ;
          CallActTimer min_occupied_time]
   else
     def [CallIfReg0 raw; CallIfReg1 last; CallIfReg1 route_ab; CallActTimer 0; CallActReg0 last];;
     def [CallIfReg0 raw; CallIfReg1 last; CallIfReg1 route2; CallActTimer 0; CallActReg0 last];;
     def [CallIfReg0 raw; CallIfReg1 last; CallActTimer kTimeTakenToGoBusy; CallActReg0 last];;
     def [CallIfReg1 raw; CallIfReg0 last; CallIfReg0 route_ab; CallActTimer kTimeTakenToGoFree;
          CallActReg1 last];;
     out ← import (output_route_temp_var_ r);
     def [CallIfReg1 raw; CallIfReg0 last; CallIfReg1 route_ab; CallIfReg1 out;
          CallActTimer kTimeTakenToGoFree; CallActReg1 last]);;
  def [CallIfTimerDone; CallIfReg0 last; CallActReg1 occ];;
  def [CallIfTimerDone; CallIfReg1 last; CallIfReg1 occ; CallActReg0 route_ab; CallActReg0 route2;
       CallActReg0 occ].

(** *** The plugins of tracks *)

(** [StandardPluginAutomata::Body] is [RunAll]. *)
Definition StraightTrack_plugins (t : StraightTrack) : AutomataPlugin :=
  AddAutomataPlugin 23 (CopySignalState t)
    (AddAutomataPlugin 20 (SimulateAllOccupancy t) new_AutomataPlugin).

Definition StraightTrackShort_plugins (t : StraightTrack) : AutomataPlugin :=
  AddAutomataPlugin 30 (SimulateAllRoutes t) (StraightTrack_plugins t).

Definition StraightTrackLong_plugins (t : StraightTrack) : AutomataPlugin :=
  AddAutomataPlugin 30 (SimulateAllRoutes t) (StraightTrack_plugins t).

Definition StraightTrackWithDetector_plugins (t : StraightTrack) (detector : nat) : AutomataPlugin :=
  AddAutomataPlugin 30 (DetectorRoute t detector)
    (AddAutomataPlugin 20 (DetectorOccupancy t detector)
       (RemoveAutomataPlugins 20 (StraightTrack_plugins t))).

(** The detector of a [StraightTrackWithRawDetector] is its own occupancy. *)
Definition StraightTrackWithRawDetector_plugins (t : StraightTrack) (r : RawDetector)
    (min_occupied_time : Z) : AutomataPlugin :=
  AddAutomataPlugin 20 (RawDetectorOccupancy t r min_occupied_time)
    (AddAutomataPlugin 19 ClearAutomataVariables
       (AddAutomataPlugin 18 (VirtualRouteOut r)
          (RemoveAutomataPlugins 20 (StraightTrackWithDetector_plugins t (simulated_occupancy_ t))))).

Definition SignalPiece_plugins (t : StraightTrack) (g : SignalVars) : AutomataPlugin :=
  let l := RemoveAutomataPlugins 20 (StraightTrackShort_plugins t) in
  let l := RemoveAutomataPlugins 23 (AddAutomataPlugin 20 (SignalOccupancy t g) l) in
  let l := RemoveAutomataPlugins 30 (AddAutomataPlugin 23 (SetSignalState t) l) in
  AddAutomataPlugin 30 (SignalRoute t g) l.

(** *** Magnets *)

(** [MagnetDef] with the variables of [MagnetBase]. *)
Record MagnetDef := mkMagnet {
  command : nat;
  current_state : nat;
  locked : nat;
  set_0 : nat;
  set_1 : nat;
  aut_state : Z;
  default_state : bool
}.

Definition MagnetAutomataEntry (m : MagnetDef) : AutomataCallback :=
  if aut_state m =? 0 then crashing AssertFailed
  else
    ClearAutomataVariables;;
    state ← import (current_state m);
    cmd ← import (command m);
    set0 ← import (set_0 m);
    set1 ← import (set_1 m);
    cmd' ← import (command m);
    def [CallIfState StInit; CallActReg1 set0; CallActReg0 set0; CallActReg1 set1; CallActReg0 set1;
         CallActReg cmd' (default_state m)];;
    def [CallIfState StInit; CallIfReg0 cmd; CallActReg1 state];;
    def [CallIfState StInit; CallIfReg1 cmd; CallActReg0 state];;
    def [CallIfState StBase; CallIfTimerDone; CallIfReg1 cmd; CallIfReg0 state;
         CallActState (aut_state m); CallActTimer 1; CallActReg1 set1];;
    def [CallIfState StBase; CallIfTimerDone; CallIfReg0 cmd; CallIfReg1 state;
         CallActState (aut_state m); CallActTimer 1; CallActReg1 set0];;
    def [CallIfState (aut_state m); CallIfTimerDone; CallIfReg1 set1; CallActReg0 set1;
         CallActReg1 state; CallActState StBase];;
    def [CallIfState (aut_state m); CallIfTimerDone; CallIfReg1 set0; CallActReg0 state;
         CallActReg0 set0; CallActState StBase];;
    def [CallIfState StBase; CallActReg0 set0; CallActReg0 set1].

(** [CoupledMagnetDef] *)
Record CoupledMagnetDef := mkCoupled {
  coupled_command : nat;
  coupled_state : nat;
  remote_command : nat;
  original : MagnetDef;
  invert : bool
}.

Definition MagnetAutomataCouple (m : CoupledMagnetDef) : AutomataCallback :=
  ClearAutomataVariables;;
  state ← import (coupled_state m);
  remote_state ← import (current_state (original m));
  cmd ← import (coupled_command m);
  remote ← import (remote_command m);
  real ← import (command (original m));
  let remote_1 := negb (invert m) in
  let remote_0 := invert m in
  def [CallIfReg real remote_1; CallIfReg0 remote; CallActReg1 remote; CallActReg1 cmd];;
  def [CallIfReg real remote_0; CallIfReg1 remote; CallActReg0 remote; CallActReg0 cmd];;
  def [CallIfReg1 cmd; CallIfReg0 remote; CallActReg1 remote; CallActReg real remote_1];;
  def [CallIfReg0 cmd; CallIfReg1 remote; CallActReg0 remote; CallActReg real remote_0];;
  def [CallIfReg remote_state remote_1; CallIfReg0 state; CallActReg1 state];;
  def [CallIfReg remote_state remote_0; CallIfReg1 state; CallActReg0 state].

Definition MagnetAutomataFinal : AutomataCallback :=
  def [CallIfState StBase; CallIfTimerDone; CallActTimer 1].

(** [MagnetCommandAutomata], with what was added to it in order. *)
Definition AddMagnet (m : MagnetDef) (l : AutomataPlugin) : AutomataPlugin :=
  AddAutomataPlugin (aut_state m) (MagnetAutomataEntry m) l.

Definition AddCoupledMagnet (m : CoupledMagnetDef) (l : AutomataPlugin) : AutomataPlugin :=
  AddAutomataPlugin 2 (MagnetAutomataCouple m) l.

Definition MagnetCommandAutomata : AutomataPlugin :=
  AddAutomataPlugin 100 MagnetAutomataFinal new_AutomataPlugin.

End Control.
