(* ===== verification/ControlTurnouts.v ===== *)
(** Turnouts and double slip switches, and the automata that hands out permits
    in turns (src/automata/control-logic.hxx, control-logic.cc). *)

From S2P Require Import Prelude AutomataDefs Automata AutomataOps AutomataBuild ControlRules ControlLogic.

Inductive TurnoutState := TURNOUT_CLOSED | TURNOUT_THROWN | TURNOUT_DONTCARE.

(** [TurnoutBase::Direction] *)
Record Direction := mkDirection {
  from : BoundInterface;
  to : BoundInterface;
  route : nat;
  route_pending : nat;
  state_condition : TurnoutState
}.

(** The variables of [TurnoutBase]. *)
Record Turnout := mkTurnout {
  side_points_ : BoundInterface;
  side_closed_ : BoundInterface;
  side_thrown_ : BoundInterface;
  turnout_occupancy_ : nat;
  route_set_PC_ : nat;
  route_set_CP_ : nat;
  route_set_PT_ : nat;
  route_set_TP_ : nat;
  route_pending_PC_ : nat;
  route_pending_CP_ : nat;
  route_pending_PT_ : nat;
  route_pending_TP_ : nat;
  any_route_set_ : nat;
  turnout_state_ : nat;
  turnout_seen_train_in_next_ : nat;
  turnout_route_setting_in_progress_ : nat;
  detector_next_ : nat;
  detector_far_ : nat;
  turnout_shadow_train_in_far_ : nat
}.

(** The directions of a turnout that can move. *)
Definition directions_ (t : Turnout) : list Direction :=
  [ mkDirection (side_points_ t) (side_closed_ t) (route_set_PC_ t) (route_pending_PC_ t) TURNOUT_CLOSED;
    mkDirection (side_points_ t) (side_thrown_ t) (route_set_PT_ t) (route_pending_PT_ t) TURNOUT_THROWN;
    mkDirection (side_closed_ t) (side_points_ t) (route_set_CP_ t) (route_pending_CP_ t) TURNOUT_DONTCARE;
    mkDirection (side_thrown_ t) (side_points_ t) (route_set_TP_ t) (route_pending_TP_ t) TURNOUT_DONTCARE ].

(** The directions of a [FixedTurnout] in a state. *)
Definition fixed_directions (t : Turnout) (state : TurnoutState) : option (list Direction) :=
  let both :=
    [ mkDirection (side_closed_ t) (side_points_ t) (route_set_CP_ t) (route_pending_CP_ t) TURNOUT_DONTCARE;
      mkDirection (side_thrown_ t) (side_points_ t) (route_set_TP_ t) (route_pending_TP_ t) TURNOUT_DONTCARE ] in
  match state with
  | TURNOUT_CLOSED =>
      Some (both ++ [mkDirection (side_points_ t) (side_closed_ t) (route_set_PC_ t) (route_pending_PC_ t)
                       TURNOUT_CLOSED])
  | TURNOUT_THROWN =>
      Some (both ++ [mkDirection (side_points_ t) (side_thrown_ t) (route_set_PT_ t) (route_pending_PT_ t)
                       TURNOUT_THROWN])
  | TURNOUT_DONTCARE => None
  end.

Section Turnouts.
Context (gid : nat -> option GlobalVariableId) (reset_routes : option nat).

Abbreviation import := (import gid).

Fixpoint for_each {A} (f : A -> prog AutomataDef unit) (l : list A) : prog AutomataDef unit :=
  match l with
  | [] => mret tt
  | x :: l => f x;; for_each f l
  end.

Definition TurnoutDirectionCheck (state : Z) (set : bool) : OpCallback :=
  Some (mret [if set then CallIfReg1 state else CallIfReg0 state]).

Definition TurnoutOccupancy (t : Turnout) (directions : list Direction) : AutomataCallback :=
  sim_occ ← import (turnout_occupancy_ t);
  tmp ← import (turnout_seen_train_in_next_ t);
  tmpfar ← import (turnout_shadow_train_in_far_ t);
  for_each (fun d =>
    route_set ← import (route d);
    SimulateOccupancy gid reset_routes sim_occ tmp tmpfar route_set (from d) (to d)
      (ReleaseRouteCallback gid (to d) route_set)) directions.

(** The variable that tells whether any of the routes is set. *)
Definition PopulateAnyRouteSet (any_route_set : nat) (routes : list nat) : AutomataCallback :=
  any ← import any_route_set;
  ids ← imports gid routes;
  def (List.map CallIfReg0 ids ++ [CallActReg0 any]);;
  for_each (fun v => i ← import v; def [CallIfReg1 i; CallActReg1 any]) routes.

Definition ProxyOneDetector (condition : OpCallback) (next : option nat) (g_proxy : nat)
    : prog AutomataDef unit :=
  proxy ← import g_proxy;
  match next with
  | Some next =>
      det ← import next;
      cs ← RunCallback condition;
      def (cs ++ [CallIfReg0 det; CallActReg0 proxy]);;
      cs ← RunCallback condition;
      def (cs ++ [CallIfReg1 det; CallActReg1 proxy])
  | None => cs ← RunCallback condition; def (cs ++ [CallActReg0 proxy])
  end.

Definition ProxyDetector (condition : OpCallback) (detector_next detector_far : nat)
    (b : BoundInterface) : prog AutomataDef unit :=
  ProxyOneDetector condition (binding_next b) detector_next;;
  ProxyOneDetector condition (binding_far b) detector_far.

Definition ProxyDetectors (t : Turnout) : AutomataCallback :=
  state ← import (turnout_state_ t);
  ProxyDetector (TurnoutDirectionCheck state false) (detector_next_ t) (detector_far_ t) (side_closed_ t);;
  ProxyDetector (TurnoutDirectionCheck state true) (detector_next_ t) (detector_far_ t) (side_thrown_ t).

Definition ProxySignals (t : Turnout) : AutomataCallback :=
  CopySignals gid (iface (side_points_ t)) (binding (side_closed_ t)) None;;
  CopySignals gid (iface (side_points_ t)) (binding (side_thrown_ t)) None;;
  state ← import (turnout_state_ t);
  CopySignals gid (iface (side_closed_ t)) (binding (side_points_ t)) (TurnoutDirectionCheck state false);;
  CopySignals gid (iface (side_thrown_ t)) (binding (side_points_ t)) (TurnoutDirectionCheck state true).

Definition direction_callback (state : Z) (s : TurnoutState) : OpCallback :=
  match s with
  | TURNOUT_CLOSED => TurnoutDirectionCheck state false
  | TURNOUT_THROWN => TurnoutDirectionCheck state true
  | TURNOUT_DONTCARE => None
  end.

Definition TurnoutRoute (t : Turnout) (directions : list Direction) : AutomataCallback :=
  any ← import (turnout_route_setting_in_progress_ t);
  for_each (fun d =>
    r ← import (route d);
    pending ← import (route_pending d);
    def [CallIfState StInit; CallActReg0 r; CallActReg0 pending]) directions;;
  state ← import (turnout_state_ t);
  for_each (fun d =>
    pending ← import (route_pending d);
    SimulateRoute gid reset_routes (direction_callback state (state_condition d)) (from d) (to d) any
      pending [route d; any_route_set_ t] []) directions.

(** [FixedTurnout::FixTurnoutState] *)
Definition FixTurnoutState (t : Turnout) (state : TurnoutState) : AutomataCallback :=
  turnoutstate ← import (turnout_state_ t);
  match state with
  | TURNOUT_CLOSED =>
      r ← import (route_set_TP_ t); def [CallIfReg1 r; CallActReg1 turnoutstate];;
      r ← import (route_set_TP_ t); def [CallIfReg0 r; CallActReg0 turnoutstate]
  | TURNOUT_THROWN =>
      r ← import (route_set_CP_ t); def [CallIfReg1 r; CallActReg0 turnoutstate];;
      r ← import (route_set_CP_ t); def [CallIfReg0 r; CallActReg1 turnoutstate]
  | TURNOUT_DONTCARE => crashing AssertFailed
  end.

(** [MovableTurnout::CopyState] and [CopyLocked]. *)
Definition CopyState (t : Turnout) (m : MagnetDef) : AutomataCallback :=
  turnoutstate ← import (turnout_state_ t);
  physical_state ← import (current_state m);
  route_thrown ← import (route_set_TP_ t);
  route_closed ← import (route_set_CP_ t);
  def [CallIfReg1 route_thrown; CallActReg1 turnoutstate];;
  def [CallIfReg1 route_closed; CallActReg0 turnoutstate];;
  def [CallIfReg0 route_thrown; CallIfReg0 route_closed; CallIfReg1 physical_state;
       CallActReg1 turnoutstate];;
  def [CallIfReg0 route_thrown; CallIfReg0 route_closed; CallIfReg0 physical_state;
       CallActReg0 turnoutstate].

Definition CopyLocked (any_route_set : nat) (m : MagnetDef) : AutomataCallback :=
  ClearAutomataVariables;;
  l ← import (locked m);
  route_any ← import any_route_set;
  DefCopyIf route_any l None.

Definition TurnoutBase_plugins (t : Turnout) (directions : list Direction) : AutomataPlugin :=
  let l := AddAutomataPlugin 20 (TurnoutOccupancy t directions) new_AutomataPlugin in
  let l := AddAutomataPlugin 23 (ProxySignals t) l in
  let l := AddAutomataPlugin 24 ClearAutomataVariables l in
  let l := AddAutomataPlugin 25 (ProxyDetectors t) l in
  let l := AddAutomataPlugin 29 ClearAutomataVariables l in
  let l := AddAutomataPlugin 30 (TurnoutRoute t directions) l in
  AddAutomataPlugin 35 (PopulateAnyRouteSet (any_route_set_ t) (List.map route directions)) l.

Definition MovableTurnout_plugins (t : Turnout) (m : MagnetDef) : AutomataPlugin :=
  AddAutomataPlugin 120 (CopyLocked (any_route_set_ t) m)
    (AddAutomataPlugin 110 (CopyState t m) (TurnoutBase_plugins t (directions_ t))).

Definition FixedTurnout_plugins (t : Turnout) (state : TurnoutState) : option AutomataPlugin :=
  directions ← fixed_directions t state;
  Some (AddAutomataPlugin 9 (FixTurnoutState t state) (TurnoutBase_plugins t directions)).

(** ** Double slip switches *)

Inductive DKWState := DKW_STRAIGHT | DKW_CURVED.

(** [DKW::RouteInfo]; points are numbered A1, A2, B1, B2. *)
Record RouteInfo := mkRoute {
  r_from : nat;
  r_to : nat;
  r_state : DKWState;
  r_route_set : nat;
  r_route_pending : nat
}.

(** The eight routes with their variables. *)
Definition DKW_routes (set pending : nat -> nat) : list RouteInfo :=
  [ mkRoute 0 2 DKW_STRAIGHT (set 0%nat) (pending 0%nat);
    mkRoute 0 3 DKW_CURVED (set 1%nat) (pending 1%nat);
    mkRoute 1 3 DKW_STRAIGHT (set 2%nat) (pending 2%nat);
    mkRoute 1 2 DKW_CURVED (set 3%nat) (pending 3%nat);
    mkRoute 2 0 DKW_STRAIGHT (set 4%nat) (pending 4%nat);
    mkRoute 2 1 DKW_CURVED (set 5%nat) (pending 5%nat);
    mkRoute 3 1 DKW_STRAIGHT (set 6%nat) (pending 6%nat);
    mkRoute 3 0 DKW_CURVED (set 7%nat) (pending 7%nat) ].

Record DKWVars := mkDKW {
  point : nat -> BoundInterface;
  point_detector_next : nat -> nat;
  point_detector_far : nat -> nat;
  dkw_routes : list RouteInfo;
  dkw_any_route_set_ : nat;
  dkw_occupancy_ : nat;
  dkw_state_ : nat;
  dkw_seen_train_in_next_ : nat;
  dkw_route_setting_in_progress_ : nat;
  dkw_shadow_train_in_far_ : nat
}.

Definition kDKWStateCross : bool := false.
Definition kDKWStateCurved : bool := true.

Definition dkw_callback (state : Z) (s : DKWState) : OpCallback :=
  match s with
  | DKW_STRAIGHT => TurnoutDirectionCheck state kDKWStateCross
  | DKW_CURVED => TurnoutDirectionCheck state kDKWStateCurved
  end.

Definition DKWOccupancy (d : DKWVars) : AutomataCallback :=
  sim_occ ← import (dkw_occupancy_ d);
  tmp ← import (dkw_seen_train_in_next_ d);
  tmpfar ← import (dkw_shadow_train_in_far_ d);
  for_each (fun r =>
    route_set ← import (r_route_set r);
    SimulateOccupancy gid reset_routes sim_occ tmp tmpfar route_set (point d (r_from r)) (point d (r_to r))
      (ReleaseRouteCallback gid (point d (r_to r)) route_set)) (dkw_routes d).

Definition DKW_PopulateAnyRouteSet (d : DKWVars) : AutomataCallback :=
  PopulateAnyRouteSet (dkw_any_route_set_ d) (List.map r_route_set (dkw_routes d)).

Definition DKW_ProxyDetectors (d : DKWVars) : AutomataCallback :=
  state ← import (dkw_state_ d);
  for_each (fun r =>
    ProxyDetector (dkw_callback state (r_state r)) (point_detector_next d (r_from r))
      (point_detector_far d (r_from r)) (point d (r_to r))) (dkw_routes d).

Definition DKW_ProxySignals (d : DKWVars) : AutomataCallback :=
  for_each (fun r =>
    ClearAutomataVariables;;
    state ← import (dkw_state_ d);
    CopySignals gid (iface (point d (r_to r))) (binding (point d (r_from r)))
      (dkw_callback state (r_state r))) (dkw_routes d).

Definition DKWRoute (d : DKWVars) : AutomataCallback :=
  for_each (fun r =>
    i ← import (r_route_set r);
    pending ← import (r_route_pending r);
    def [CallIfState StInit; CallActReg0 i; CallActReg0 pending]) (dkw_routes d);;
  for_each (fun r =>
    ClearAutomataVariables;;
    any ← import (dkw_route_setting_in_progress_ d);
    state ← import (dkw_state_ d);
    pending ← import (r_route_pending r);
    SimulateRoute gid reset_routes (dkw_callback state (r_state r)) (point d (r_from r))
      (point d (r_to r)) any pending [r_route_set r; dkw_any_route_set_ d] []) (dkw_routes d).

(** [FixedDKW::FixDKWState] and [MovableDKW::CopyState]. *)
Definition FixDKWState (d : DKWVars) (fixed_state : DKWState) : AutomataCallback :=
  turnoutstate ← import (dkw_state_ d);
  match fixed_state with
  | DKW_STRAIGHT => def [CallActReg turnoutstate kDKWStateCross]
  | DKW_CURVED => def [CallActReg turnoutstate kDKWStateCurved]
  end.

Definition DKW_CopyState (d : DKWVars) (m : MagnetDef) : AutomataCallback :=
  turnoutstate ← import (dkw_state_ d);
  any ← import (dkw_any_route_set_ d);
  physical_state ← import (current_state m);
  def [CallIfReg0 any; CallIfReg1 physical_state; CallActReg1 turnoutstate];;
  def [CallIfReg0 any; CallIfReg0 physical_state; CallActReg0 turnoutstate].

Definition DKW_plugins (d : DKWVars) : AutomataPlugin :=
  let l := AddAutomataPlugin 20 (DKWOccupancy d) new_AutomataPlugin in
  let l := AddAutomataPlugin 23 (DKW_ProxySignals d) l in
  let l := AddAutomataPlugin 25 (DKW_ProxyDetectors d) l in
  let l := AddAutomataPlugin 29 ClearAutomataVariables l in
  let l := AddAutomataPlugin 30 (DKWRoute d) l in
  AddAutomataPlugin 35 (DKW_PopulateAnyRouteSet d) l.

Definition FixedDKW_plugins (d : DKWVars) (state : DKWState) : AutomataPlugin :=
  AddAutomataPlugin 9 (FixDKWState d state) (DKW_plugins d).

Definition MovableDKW_plugins (d : DKWVars) (m : MagnetDef) : AutomataPlugin :=
  AddAutomataPlugin 120 (CopyLocked (dkw_any_route_set_ d) m)
    (AddAutomataPlugin 110 (DKW_CopyState d m) (DKW_plugins d)).

(** ** Permits *)

Definition StFree : Z := 2.
Definition StLocked : Z := 3.
Definition StGranted : Z := 4.
Definition StGrantWait : Z := 5.
Definition StStolen : Z := 6.
Definition StStolenWait : Z := 7.
Definition StStealOnHold : Z := 8.
Definition kWaitTimeout : Z := 3.

(** [FlipFlopClient] *)
Record FlipFlopClient := mkClient {
  request : nat;
  granted : nat;
  taken : nat;
  next : nat
}.

Definition client_logic (steal_request steal_granted : Z) (c : FlipFlopClient) : prog AutomataDef unit :=
  request ← import (request c);
  granted ← import (granted c);
  taken ← import (taken c);
  next ← import (next c);
  def [CallIfState StFree; CallActState StLocked; CallActReg1 next];;
  def [CallIfState StLocked; CallIfReg1 next; CallIfReg1 request; CallActState StGranted;
       CallActReg1 granted];;
  def [CallIfState StGranted; CallIfReg1 next; CallIfReg1 granted; CallIfReg0 request;
       CallActState StLocked; CallActReg0 granted];;
  def [CallIfState StGranted; CallIfReg1 next; CallIfReg1 taken; CallActReg0 taken;
       CallActState StGrantWait; CallActTimer kWaitTimeout];;
  def [CallIfState StGrantWait; CallIfReg1 next; CallIfTimerDone; CallActReg0 next;
       CallActState StFree];;
  def [CallIfState StLocked; CallIfReg0 next; CallIfReg1 request; CallActReg1 steal_request];;
  def [CallIfState StGrantWait; CallActReg0 steal_request; CallActReg0 steal_granted];;
  def [CallIfState StLocked; CallIfReg0 next; CallIfReg1 request; CallIfReg1 steal_granted;
       CallActReg0 steal_request; CallActReg0 steal_granted; CallActReg1 granted;
       CallActState StStolen];;
  def [CallIfState StStolen; CallIfReg1 granted; CallIfReg0 request; CallActReg0 granted;
       CallActState StLocked];;
  def [CallIfState StStolen; CallIfReg1 taken; CallActReg0 taken; CallActTimer kWaitTimeout;
       CallActState StStolenWait];;
  def [CallIfState StLocked; CallIfReg1 next; CallIfReg0 request; CallIfReg1 steal_request;
       CallActTimer 2; CallActState StStealOnHold];;
  def [CallIfState StStealOnHold; CallIfReg1 next; CallIfReg0 request; CallIfTimerDone;
       CallActState StLocked; CallActReg1 steal_granted];;
  def [CallIfState StStealOnHold; CallIfReg1 next; CallIfReg1 request; CallActTimer 0;
       CallActState StLocked];;
  def [CallIfState StStolenWait; CallIfReg1 next; CallIfTimerDone; CallActState StLocked;
       CallActReg0 steal_request; CallActReg0 steal_granted].

Definition FlipFlopLogic (steal_request_ steal_granted_ : nat) (clients_ : list FlipFlopClient)
    : AutomataCallback :=
  hassert (2 <=? zlen clients_);;
  def [CallIfState StInit; CallActState StFree];;
  steal_request ← import steal_request_;
  steal_granted ← import steal_granted_;
  for_each (client_logic steal_request steal_granted) clients_.

Definition FlipFlopAutomata (steal_request_ steal_granted_ : nat) (clients_ : list FlipFlopClient)
    : AutomataPlugin :=
  AddAutomataPlugin 100 (FlipFlopLogic steal_request_ steal_granted_ clients_) new_AutomataPlugin.

End Turnouts.
