(* ===== verification/ControlBuild.v ===== *)
(** The rules that the bodies of [ControlLogic.v] build. *)

From S2P Require Import Prelude AutomataDefs Automata AutomataTermination AutomataOps AutomataSim AutomataBuild ControlRules ControlLogic ControlTurnouts.

(** ** Building with several imports and callbacks *)

Section Builds.
Context (gid : nat -> option GlobalVariableId) (Hargs : args_ok gid).

Abbreviation builds := (builds gid).

Lemma builds_ext G m m' rs G' : (forall a, m a = m' a) -> builds G m' rs G' -> builds G m rs G'.
Proof. intros E H a out a' Hok Hk Ho. rewrite E. by apply H. Qed.

(** Local variables that are known, in the order of a list of variables. *)
Definition locals (G : Facts) (ks : list nat) (ids : list Z) : Prop :=
  Forall2 (fun k i => In (Some k, i) G) ks ids.

Lemma locals_weaken G G' ks ids :
  (forall v i, In (v, i) G -> In (v, i) G') -> locals G ks ids -> locals G' ks ids.
Proof. intros H Hl. eapply Forall2_impl; [done|]. auto. Qed.

Lemma builds_imports G ks f rs G' :
  (forall ids G1, (forall v i, In (v, i) G -> In (v, i) G1) -> locals G1 ks ids ->
     builds G1 (f ids) rs G') ->
  builds G (ids ← imports gid ks; f ids) rs G'.
Proof.
  revert G f. induction ks as [|k ks IH]; intros G f Hf.
  - apply (builds_ext _ _ (f [])); [done|]. apply Hf; [done|constructor].
  - apply (builds_ext _ _ (i ← import gid k; ids ← imports gid ks; f (i :: ids))).
    { intros a. cbn [imports]. unfold mbind, prog_bind, mret, prog_ret.
      destruct (import gid k a) as [i a1| |]; [|done..]. by destruct (imports gid ks a1). }
    apply builds_import; [done|]. intros i. apply IH. intros ids G1 HG Hl.
    apply Hf; [intros v j Hj; apply HG; by right|]. constructor; [apply HG; by left|done].
Qed.

Lemma calls_if0 G ks ids cs gs xs :
  locals G ks ids -> calls_rule G cs gs xs ->
  calls_rule G (List.map CallIfReg0 ids ++ cs) (List.map (fun k => GReg (Some k) false) ks ++ gs) xs.
Proof. intros Hl Hc. induction Hl; cbn; [done|by apply rule_if0]. Qed.

Lemma calls_act0 G ks ids :
  locals G ks ids ->
  calls_rule G (List.map CallActReg0 ids) [] (List.map (fun k => EReg k false) ks).
Proof. intros Hl. induction Hl; cbn; [constructor|by apply rule_act0]. Qed.

Lemma calls_act1 G ks ids :
  locals G ks ids ->
  calls_rule G (List.map CallActReg1 ids) [] (List.map (fun k => EReg k true) ks).
Proof. intros Hl. induction Hl; cbn; [constructor|by apply rule_act1]. Qed.

(** A callback that makes no imports and only adds the conditions [gs]. *)
Definition conditions_only (G : Facts) (cb : OpCallback) (gs : list Guard) : Prop :=
  match cb with
  | None => gs = []
  | Some m => exists cs, m = mret cs /\ calls_rule G cs gs []
  end.

Lemma conditions_weaken G G' cb gs :
  (forall v i, In (v, i) G -> In (v, i) G') -> conditions_only G cb gs -> conditions_only G' cb gs.
Proof.
  intros HG. destruct cb as [m|]; [|done]. intros (cs & -> & Hc). exists cs. split; [done|].
  by eapply calls_rule_weaken.
Qed.

Lemma builds_condition G cb gs f rs G' :
  conditions_only G cb gs -> (forall cs, calls_rule G cs gs [] -> builds G (f cs) rs G') ->
  builds G (cs ← RunCallback cb; f cs) rs G'.
Proof.
  intros Hcb Hf. destruct cb as [m|].
  - destruct Hcb as (cs & -> & Hc). apply (builds_ext _ _ (f cs)); [done|by apply Hf].
  - cbn in Hcb. subst gs. apply (builds_ext _ _ (f [])); [done|]. apply Hf. constructor.
Qed.

Lemma calls_after G cs gs xs cs' gs' :
  calls_rule G cs gs [] -> calls_rule G cs' gs' xs -> calls_rule G (cs ++ cs') (gs ++ gs') xs.
Proof. intros H1 H2. by apply (calls_rule_app G cs gs [] cs' gs' xs). Qed.

Lemma builds_forget G m rs G' : builds G m rs G' -> builds G m rs [].
Proof. intros H. by apply (builds_weaken gid G G _ _ G'). Qed.

(** The facts that a body started with still hold when it ends. *)
Lemma builds_same G G1 m rs :
  builds (G1 ++ G) m rs (G1 ++ G) -> builds (G1 ++ G) m rs G.
Proof. intros H. apply (builds_weaken gid _ _ _ _ _ _ H); [done|]. intros v i Hi. apply in_or_app. by right. Qed.

Lemma builds_def_end G cs gs xs G' :
  cs <> [] -> calls_rule G cs gs xs -> (forall v i, In (v, i) G' -> In (v, i) G) ->
  builds G (def cs) [mkRule gs xs] G'.
Proof. intros Hne Hr HG. apply (builds_weaken gid G G _ _ G); [by apply builds_def|done..]. Qed.

End Builds.

(** A local variable in the facts. *)
Ltac fact :=
  match goal with
  | H : In ?x ?G |- In ?x ?G => exact H
  | |- In ?x (?x :: _) => left; reflexivity
  | |- In _ (_ :: _) => right; fact
  | H : forall v i, In (v, i) ?G -> In (v, i) ?G1 |- In _ ?G1 => apply H; fact
  end.

(** Calls, one by one. *)
Ltac calls :=
  repeat first
    [ apply rule_nil
    | eapply rule_if; [fact|]
    | eapply rule_if0; [fact|]
    | eapply rule_if1; [fact|]
    | eapply rule_done
    | eapply rule_not_done
    | eapply rule_state; [unfold StInit, StBase; lia|]
    | eapply rule_act; [fact|]
    | eapply rule_act0; [fact|]
    | eapply rule_act1; [fact|]
    | eapply rule_goto; [unfold StInit, StBase; lia|]
    | eapply rule_timer; [lia|] ].

(** A body that imports and makes operations. *)
Ltac body :=
  repeat match goal with
  | |- builds _ _ (mbind _ (import _ _)) _ _ => apply builds_import; [assumption|intros ?]
  | |- builds _ _ (mbind _ (def _)) _ _ => apply builds_def_then; [done|solve [calls]|]
  | |- builds _ _ (mbind _ (modify_state ClearUsedVariables)) _ _ => apply builds_clear_then
  end.

(** ** Routes *)

Section Routes.
Context (gid : nat -> option GlobalVariableId) (Hargs : args_ok gid).
Context (reset_routes : option nat).

Definition test0 (k : nat) : Guard := GReg (Some k) false.
Definition test1 (k : nat) : Guard := GReg (Some k) true.
Definition set0 (k : nat) : Effect := EReg k false.
Definition set1 (k : nat) : Effect := EReg k true.

(** The rules of [SimulateRoute]. *)
Definition route_rules (cond : list Guard) (before after : BoundInterface) (any cur : nat)
    (route conflicting : list nat) : list Rule :=
  let in_try := out_try_set_route (binding before) in
  let in_success := in_route_set_success (iface before) in
  let in_failure := in_route_set_failure (iface before) in
  let out_success := in_route_set_success (binding after) in
  let out_failure := in_route_set_failure (binding after) in
  let out_try := out_try_set_route (iface after) in
  [mkRule [GState StInit] [set0 out_try; set0 any; set0 in_success; set0 in_failure]] ++
  match reset_routes with
  | Some r =>
      [mkRule [test1 r] ([set0 out_try; set0 any; set0 in_success; set0 in_failure] ++
                         List.map set0 route)]
  | None => []
  end ++
  [ mkRule (cond ++ [test1 in_try; test1 any]) [set1 in_failure; set0 in_success; set0 in_try];
    mkRule (cond ++ [test1 in_try; test1 out_try]) [set1 in_failure; set0 in_success; set0 in_try];
    mkRule (cond ++ [test1 in_try; test0 any] ++ List.map test0 route ++ List.map test0 conflicting ++ [])
      [set1 any; set1 cur; set0 in_try; set0 out_success; set0 out_failure; set1 out_try];
    mkRule (cond ++ [test1 in_try; test0 any]) [set1 in_failure; set0 in_success; set0 in_try];
    mkRule [test1 cur; test1 out_failure]
      [set0 cur; set0 out_failure; set0 out_success; set0 any; set0 in_success; set1 in_failure];
    mkRule [test1 cur; test1 out_success]
      ([set0 cur; set0 out_failure; set0 out_success; set0 any; set0 in_failure; set1 in_success]
         ++ List.map set1 route) ].

Lemma calls_tail G cs gs xs cs' xs' :
  calls_rule G cs gs xs -> calls_rule G cs' [] xs' -> calls_rule G (cs ++ cs') gs (xs ++ xs').
Proof. intros H1 H2. rewrite <- (app_nil_r gs). by apply calls_rule_app. Qed.

(** The request to reset all routes. *)
Lemma builds_reset G out_try any in_success in_failure (it ia is' if' : Z) route k rs G' :
  In (Some out_try, it) G -> In (Some any, ia) G -> In (Some in_success, is') G ->
  In (Some in_failure, if') G -> builds gid G k rs G' ->
  builds gid G
    (when reset_routes (fun r =>
       reset ← import gid r;
       route ← imports gid route;
       def ([CallIfReg1 reset; CallActReg0 it; CallActReg0 ia; CallActReg0 is'; CallActReg0 if']
              ++ List.map CallActReg0 route));; k)
    (match reset_routes with
     | Some r =>
         [mkRule [test1 r] ([set0 out_try; set0 any; set0 in_success; set0 in_failure] ++
                            List.map set0 route)]
     | None => []
     end ++ rs) G'.
Proof.
  intros H1 H2 H3 H4 Hk. destruct reset_routes as [r|]; cbn [when].
  - apply (builds_bind gid G _ _ G); [|done]. apply builds_import; [done|]. intros ri.
    apply builds_imports; [done|]. intros ids G1 HG Hl.
    apply builds_def_end; [done| |intros v i Hi; apply HG; by right].
    apply calls_tail; [calls|by apply calls_act0].
  - apply (builds_bind gid G _ [] G); [apply builds_ret|done].
Qed.

Lemma builds_SimulateRoute G cb cond before after any cur (ia ic : Z) route conflicting :
  In (Some any, ia) G -> In (Some cur, ic) G -> conditions_only G cb cond ->
  builds gid G (SimulateRoute gid reset_routes cb before after ia ic route conflicting)
    (route_rules cond before after any cur route conflicting) G.
Proof.
  intros Ha Hc Hcb. unfold SimulateRoute, route_rules.
  do 6 (apply builds_import; [done|intros ?]).
  set (G1 := _ :: _).
  assert (HG1 : forall v j, In (v, j) G -> In (v, j) G1) by (intros v j Hj; unfold G1; do 6 right; done).
  apply (conditions_weaken _ _ _ _ HG1) in Hcb. apply HG1 in Ha, Hc.
  apply builds_def_then; [done|unfold G1 in *; calls|].
  apply builds_reset; [unfold G1; fact|done|unfold G1; fact|unfold G1; fact|].
  apply (builds_condition gid G1 cb cond); [done|intros cs1 Hcs1].
  apply builds_def_then; [by destruct cs1|apply calls_after; [done|unfold G1 in *; calls]|].
  apply (builds_condition gid G1 cb cond); [done|intros cs2 Hcs2].
  apply builds_def_then; [by destruct cs2|apply calls_after; [done|unfold G1 in *; calls]|].
  apply (builds_condition gid G1 cb cond); [done|intros cs3 Hcs3].
  apply builds_imports; [done|]. intros ids1 G2 HG2 Hl1.
  apply builds_imports; [done|]. intros ids2 G3 HG3 Hl2.
  assert (HG13 : forall v j, In (v, j) G1 -> In (v, j) G3) by (intros v j Hj; by apply HG3, HG2).
  apply (locals_weaken G2 G3) in Hl1; [|done].
  apply (calls_rule_weaken G1 G3) in Hcs3; [|done]. apply (conditions_weaken G1 G3) in Hcb; [|done].
  clear HG2 HG3 Hcs1 Hcs2 cs1 cs2. unfold G1 in *.
  apply builds_def_then.
  { by destruct cs3. }
  { apply calls_after; [done|]. eapply rule_if1; [fact|]. eapply rule_if0; [fact|].
    apply calls_if0; [done|]. apply calls_if0; [done|]. calls. }
  apply (builds_condition gid G3 cb cond); [done|intros cs4 Hcs4].
  apply builds_def_then; [by destruct cs4|apply calls_after; [done|calls]|].
  apply builds_def_then; [done|calls|].
  apply builds_imports; [done|]. intros ids3 G4 HG4 Hl3.
  apply builds_def_end; [done| |intros v j Hj; by apply HG4, HG13, HG1].
  apply calls_tail; [calls|by apply calls_act1].
Qed.

(** The rules of both directions of a straight track. *)
Definition straight_rules (t : StraightTrack) (conflict : list nat) : list Rule :=
  route_rules [] (side_a t) (side_b t) (tmp_route_setting_in_progress_ t) (route_pending_ab_ t)
    [route_set_ab_ t] (route_set_ba_ t :: conflict) ++
  route_rules [] (side_b t) (side_a t) (tmp_route_setting_in_progress_ t) (route_pending_ba_ t)
    [route_set_ba_ t] (route_set_ab_ t :: conflict).

Lemma builds_straight_routes G t any conflict :
  In (Some (tmp_route_setting_in_progress_ t), any) G ->
  builds gid G (straight_routes gid reset_routes t any conflict) (straight_rules t conflict) G.
Proof.
  intros Ha. unfold straight_routes, straight_rules. apply builds_import; [done|]. intros pab.
  apply (builds_bind gid _ _ _ ((Some (route_pending_ab_ t), pab) :: G)).
  - apply builds_SimulateRoute; [by right|by left|done].
  - apply builds_import; [done|]. intros pba.
    apply (builds_weaken gid ((Some (route_pending_ba_ t), pba) :: G) _ _ _
             ((Some (route_pending_ba_ t), pba) :: G)).
    + apply builds_SimulateRoute; [by right|by left|done].
    + intros v i [[= <- <-]|Hi]; [by left|by do 2 right].
    + intros v i Hi. by right.
Qed.

(** [StraightTrack::SimulateAllRoutes] and
    [StraightTrackWithDetector::DetectorRoute]. *)
Definition all_routes_rules (t : StraightTrack) : list Rule :=
  mkRule [GState StInit]
    [set1 (route_set_ab_ t); set0 (route_set_ab_ t); set0 (route_set_ba_ t);
     set0 (route_pending_ab_ t); set0 (route_pending_ba_ t)]
  :: straight_rules t [].

Definition detector_route_rules (t : StraightTrack) (detector : nat) : list Rule :=
  mkRule [GState StInit]
    [set0 (route_set_ab_ t); set0 (route_set_ba_ t); set0 (route_pending_ab_ t);
     set0 (route_pending_ba_ t)]
  :: straight_rules t [detector].

Lemma builds_SimulateAllRoutes G t :
  builds gid G (SimulateAllRoutes gid reset_routes t) (all_routes_rules t) [].
Proof.
  unfold SimulateAllRoutes, ClearAutomataVariables, all_routes_rules. body.
  eapply builds_forget, builds_straight_routes. fact.
Qed.

Lemma builds_DetectorRoute G t detector :
  builds gid G (DetectorRoute gid reset_routes t detector) (detector_route_rules t detector) [].
Proof.
  unfold DetectorRoute, detector_route_rules. body.
  eapply builds_forget, builds_straight_routes. fact.
Qed.

(** The automata of a [StraightTrackWithDetector]. *)
Definition detector_occupancy_rules (t : StraightTrack) (detector : nat) : list Rule :=
  [ mkRule [test1 detector] [set1 (simulated_occupancy_ t)];
    mkRule [test0 detector; test1 (simulated_occupancy_ t)]
      [set0 (route_set_ab_ t); set0 (route_set_ba_ t); set0 (simulated_occupancy_ t)] ].

Lemma builds_DetectorOccupancy G t detector :
  builds gid G (DetectorOccupancy gid t detector) (detector_occupancy_rules t detector) [].
Proof. unfold DetectorOccupancy, detector_occupancy_rules. body. apply builds_def_end; [done|calls|done]. Qed.

Definition init_rule : Rule := mkRule [GState StInit] [EState StBase].

Lemma builds_HandleInitState G : builds gid G HandleInitState [init_rule] [].
Proof. apply builds_def_end; [done|calls|done]. Qed.

Definition copy_rules (src dst : nat) : list Rule :=
  [ mkRule [test0 src; test1 dst] [set0 dst]; mkRule [test1 src; test0 dst] [set1 dst] ].

Definition copy_signals_rules (from to : CtrlTrackInterface) : list Rule :=
  copy_rules (in_next_signal_1 from) (in_next_signal_1 to) ++
  copy_rules (in_next_signal_2 from) (in_next_signal_2 to).

Definition copy_state_rules (t : StraightTrack) : list Rule :=
  copy_signals_rules (iface (side_a t)) (binding (side_b t)) ++
  copy_signals_rules (iface (side_b t)) (binding (side_a t)).

Lemma builds_DefCopy G src dst (is' id : Z) :
  In (Some src, is') G -> In (Some dst, id) G ->
  builds gid G (DefCopyIf is' id None) (copy_rules src dst) G.
Proof.
  intros Hs Hd. unfold DefCopyIf. apply (builds_condition gid G None []); [done|intros cs1 H1].
  apply builds_def_then; [by destruct cs1|apply (calls_after G cs1 []); [done|calls]|].
  apply (builds_condition gid G None []); [done|intros cs2 H2].
  apply builds_def; [by destruct cs2|apply (calls_after G cs2 []); [done|calls]].
Qed.

Lemma builds_CopySignals G from to :
  builds gid G (CopySignals gid from to None) (copy_signals_rules from to) G.
Proof.
  unfold CopySignals, copy_signals_rules. do 2 (apply builds_import; [done|intros ?]).
  set (G1 := _ :: _). apply (builds_bind gid G1 _ _ G1).
  - apply builds_DefCopy; unfold G1; fact.
  - do 2 (apply builds_import; [done|intros ?]).
    apply (builds_same gid _ [_; _; _; _]). cbn [app]. apply builds_DefCopy; fact.
Qed.

Lemma builds_CopySignalState G t : builds gid G (CopySignalState gid t) (copy_state_rules t) [].
Proof.
  apply (builds_bind gid G _ _ G); [apply builds_CopySignals|].
  apply (builds_forget gid G _ _ G), builds_CopySignals.
Qed.

(** Plugins, in their order. *)
Lemma builds_RunAll G l rss :
  Forall2 (fun p rs => forall G, builds gid G (snd p) rs []) l rss ->
  builds gid G (RunAll l) (concat rss) [].
Proof.
  intros H. revert G. induction H as [|[n cb] rs l rss Hcb _ IH]; intros G; cbn [RunAll concat].
  - apply (builds_forget gid G _ _ G), builds_ret.
  - by apply (builds_bind gid G _ _ []).
Qed.

Definition detector_track_rules (t : StraightTrack) (detector : nat) : list Rule :=
  detector_occupancy_rules t detector ++ copy_state_rules t ++ detector_route_rules t detector ++ [init_rule].

Lemma builds_detector_track G t detector :
  builds gid G (RunAll (StraightTrackWithDetector_plugins gid reset_routes t detector))
    (detector_track_rules t detector) [].
Proof.
  apply (builds_RunAll G _ [_; _; _; [_]]). repeat constructor; intros; cbn [snd].
  - apply builds_DetectorOccupancy.
  - apply builds_CopySignalState.
  - apply builds_DetectorRoute.
  - apply builds_HandleInitState.
Qed.

(** ** Turnouts *)

Definition direction_guards (state : nat) (s : TurnoutState) : list Guard :=
  match s with
  | TURNOUT_CLOSED => [test0 state]
  | TURNOUT_THROWN => [test1 state]
  | TURNOUT_DONTCARE => []
  end.

Definition turnout_rules (t : Turnout) (directions : list Direction) : list Rule :=
  List.map (fun d => mkRule [GState StInit] [set0 (route d); set0 (route_pending d)]) directions ++
  (directions ≫= fun d =>
     route_rules (direction_guards (turnout_state_ t) (state_condition d)) (from d) (to d)
       (turnout_route_setting_in_progress_ t) (route_pending d) [route d; any_route_set_ t] []).

Lemma builds_for_each {A} G (f : A -> prog AutomataDef unit) (rs : A -> list Rule) l :
  (forall x, builds gid G (f x) (rs x) G) -> builds gid G (for_each f l) (l ≫= rs) G.
Proof.
  intros Hf. induction l as [|x l IH]; [apply builds_ret|]. cbn [for_each].
  by apply (builds_bind gid G _ _ G).
Qed.

Lemma map_bind {A B} (f : A -> B) l : List.map f l = l ≫= fun x => [f x].
Proof. induction l as [|x l IH]; [done|]. cbn. by f_equal. Qed.

Lemma builds_TurnoutRoute G t directions :
  builds gid G (TurnoutRoute gid reset_routes t directions) (turnout_rules t directions) [].
Proof.
  unfold TurnoutRoute, turnout_rules. apply builds_import; [done|]. intros any. rewrite map_bind.
  set (G1 := _ :: G). apply (builds_bind gid G1 _ _ G1).
  - apply builds_for_each. intros d.
    eapply (builds_weaken gid G1 G1 _ _ _ G1).
    + apply builds_import; [done|]. intros r. apply builds_import; [done|]. intros p.
      apply builds_def_end; [done|calls|]. intros v i Hi. right. right. exact Hi.
    + done.
    + done.
  - apply builds_import; [done|]. intros st.
    apply (builds_weaken gid ((Some (turnout_state_ t), st) :: G1) _ _ _
             ((Some (turnout_state_ t), st) :: G1)); [|done|done].
    apply builds_for_each. intros d. apply builds_import; [done|]. intros p.
    apply (builds_same gid _ [_]). cbn [app]. apply builds_SimulateRoute; [unfold G1; fact|fact|].
    destruct (state_condition d); cbn; [| |done]; eexists; (split; [done|]); calls.
Qed.

End Routes.

(** ** Signals *)

Section Signals.
Context (gid : nat -> option GlobalVariableId) (Hargs : args_ok gid).

(** A signal tells the track before it: stop, or one better than what is ahead. *)
Definition aspect_rules (green inst1 inst2 outst1 outst2 : nat) : list Rule :=
  [ mkRule [test0 green] [set0 outst1; set0 outst2];
    mkRule [test1 green; test0 inst2; test0 inst1] [set0 outst2; set1 outst1];
    mkRule [test1 green; test0 inst2; test1 inst1] [set1 outst2; set0 outst1];
    mkRule [test1 green; test1 inst2] [set1 outst2; set1 outst1] ].

Definition signal_state_rules (t : StraightTrack) : list Rule :=
  copy_signals_rules (iface (side_a t)) (binding (side_b t)) ++
  aspect_rules (route_set_ab_ t) (in_next_signal_1 (iface (side_b t)))
    (in_next_signal_2 (iface (side_b t))) (in_next_signal_1 (binding (side_a t)))
    (in_next_signal_2 (binding (side_a t))).

Lemma builds_SetSignalState G t : builds gid G (SetSignalState gid t) (signal_state_rules t) [].
Proof.
  unfold SetSignalState, signal_state_rules. apply (builds_bind gid G _ _ G); [by apply builds_CopySignals|].
  body. apply builds_def_end; [done|calls|done].
Qed.

End Signals.

(** ** Magnets *)

Section Magnets.
Context (gid : nat -> option GlobalVariableId) (Hargs : args_ok gid).

Definition magnet_rules (m : MagnetDef) : list Rule :=
  [ mkRule [GState StInit]
      [set1 (set_0 m); set0 (set_0 m); set1 (set_1 m); set0 (set_1 m);
       EReg (command m) (default_state m)];
    mkRule [GState StInit; test0 (command m)] [set1 (current_state m)];
    mkRule [GState StInit; test1 (command m)] [set0 (current_state m)];
    mkRule [GState StBase; GReg None false; test1 (command m); test0 (current_state m)]
      [EState (aut_state m); ETimer 1; set1 (set_1 m)];
    mkRule [GState StBase; GReg None false; test0 (command m); test1 (current_state m)]
      [EState (aut_state m); ETimer 1; set1 (set_0 m)];
    mkRule [GState (aut_state m); GReg None false; test1 (set_1 m)]
      [set0 (set_1 m); set1 (current_state m); EState StBase];
    mkRule [GState (aut_state m); GReg None false; test1 (set_0 m)]
      [set0 (current_state m); set0 (set_0 m); EState StBase];
    mkRule [GState StBase] [set0 (set_0 m); set0 (set_1 m)] ].

Lemma builds_MagnetAutomataEntry G m :
  0 < aut_state m < 32 ->
  builds gid G (MagnetAutomataEntry gid m) (magnet_rules m) [].
Proof.
  intros Hs. unfold MagnetAutomataEntry, ClearAutomataVariables, magnet_rules.
  destruct (Z.eqb_spec (aut_state m) 0); [lia|]. body.
  apply builds_def_end; [done|calls|done].
Qed.

Definition couple_rules (m : CoupledMagnetDef) : list Rule :=
  let real := Some (command (original m)) in
  let remote_state := Some (current_state (original m)) in
  [ mkRule [GReg real (negb (invert m)); test0 (remote_command m)]
      [set1 (remote_command m); set1 (coupled_command m)];
    mkRule [GReg real (invert m); test1 (remote_command m)]
      [set0 (remote_command m); set0 (coupled_command m)];
    mkRule [test1 (coupled_command m); test0 (remote_command m)]
      [set1 (remote_command m); EReg (command (original m)) (negb (invert m))];
    mkRule [test0 (coupled_command m); test1 (remote_command m)]
      [set0 (remote_command m); EReg (command (original m)) (invert m)];
    mkRule [GReg remote_state (negb (invert m)); test0 (coupled_state m)] [set1 (coupled_state m)];
    mkRule [GReg remote_state (invert m); test1 (coupled_state m)] [set0 (coupled_state m)] ].

Lemma builds_MagnetAutomataCouple G m :
  builds gid G (MagnetAutomataCouple gid m) (couple_rules m) [].
Proof.
  unfold MagnetAutomataCouple, ClearAutomataVariables, couple_rules. body.
  apply builds_def_end; [done|calls|done].
Qed.

Definition final_rule : Rule := mkRule [GState StBase; GReg None false] [ETimer 1].

Lemma builds_MagnetAutomataFinal G : builds gid G MagnetAutomataFinal [final_rule] [].
Proof. apply builds_def_end; [done|calls|done]. Qed.

(** Plugins whose rules are of a kind. *)
Definition builds_only (P : Rule -> Prop) (p : Z * AutomataCallback) : Prop :=
  exists rs, (forall G, builds gid G (snd p) rs []) /\ Forall P rs.

Lemma Forall_AddAutomataPlugin (P : Z * AutomataCallback -> Prop) n cb l :
  P (n, cb) -> Forall P l -> Forall P (AddAutomataPlugin n cb l).
Proof.
  intros Hp Hl. induction Hl as [|[m cb'] l H Hl IH]; cbn; [by constructor|].
  destruct (n <? m); by repeat constructor.
Qed.

Lemma builds_only_RunAll P l :
  Forall (builds_only P) l -> exists rs, (forall G, builds gid G (RunAll l) rs []) /\ Forall P rs.
Proof.
  intros H. induction H as [|[n cb] l (rs1 & H1 & P1) _ (rs2 & H2 & P2)].
  - exists []. split; [|done]. intros G. apply (builds_forget gid G _ _ G), builds_ret.
  - exists (rs1 ++ rs2). split; [|by apply Forall_app]. intros G. by apply (builds_bind gid G _ _ []).
Qed.

(** The automata of magnets; what was added last comes first. *)
Definition magnet_plugins (ms : list MagnetDef) (cs : list CoupledMagnetDef) : AutomataPlugin :=
  fold_right (AddCoupledMagnet gid) (fold_right (AddMagnet gid) MagnetCommandAutomata ms) cs.

(** Its rules. *)
Definition magnets_rule (ms : list MagnetDef) (cs : list CoupledMagnetDef) (r : Rule) : Prop :=
  (exists m, In m ms /\ In r (magnet_rules m)) \/ (exists m, In m cs /\ In r (couple_rules m)) \/
  r = final_rule \/ r = init_rule.

Lemma builds_magnets ms cs :
  (forall m, In m ms -> 0 < aut_state m < 32) ->
  exists rs, (forall G, builds gid G (RunAll (magnet_plugins ms cs)) rs []) /\ Forall (magnets_rule ms cs) rs.
Proof.
  intros Hs. apply builds_only_RunAll. unfold magnet_plugins.
  assert (H : forall cs', (forall m, In m cs' -> In m cs) -> Forall (builds_only (magnets_rule ms cs))
    (fold_right (AddCoupledMagnet gid) (fold_right (AddMagnet gid) MagnetCommandAutomata ms) cs')); [|auto].
  intros cs' Hcs. induction cs' as [|c cs' IH]; cbn [fold_right].
  - assert (H : forall ms', (forall m, In m ms' -> In m ms) -> Forall (builds_only (magnets_rule ms cs))
      (fold_right (AddMagnet gid) MagnetCommandAutomata ms')); [|auto].
    intros ms' Hms. induction ms' as [|m ms' IH]; cbn [fold_right].
    + repeat constructor; cbn [snd].
      * exists [final_rule]. split; [apply builds_MagnetAutomataFinal|]. constructor; [|done]. right; right; by left.
      * exists [init_rule]. split; [intros G; by apply builds_HandleInitState|].
        constructor; [|done]. right; right; by right.
    + apply Forall_AddAutomataPlugin; [|apply IH; intros ? ?; apply Hms; by right].
      exists (magnet_rules m). split; [intros G; by apply builds_MagnetAutomataEntry, Hs, Hms; left|].
      apply List.Forall_forall. intros r Hr. left. exists m. split; [apply Hms; by left|done].
  - apply Forall_AddAutomataPlugin; [|apply IH; intros ? ?; apply Hcs; by right].
    exists (couple_rules c). split; [intros G; apply builds_MagnetAutomataCouple|].
    apply List.Forall_forall. intros r Hr. right; left. exists c. split; [apply Hcs; by left|done].
Qed.

End Magnets.
