(* ===== verification/ControlSafety.v ===== *)
(** What the automata of control points guarantee on the layout: conflicting
    routes are never set together, magnets are never pulled together, and the
    signals show what is ahead. *)

From S2P Require Import Prelude AutomataDefs Automata AutomataTermination AutomataOps AutomataSim AutomataBuild ControlRules ControlLogic ControlTurnouts ControlBuild.

(** ** Effects *)

(** The value of a variable after effects. *)
Fixpoint written (k : nat) (xs : list Effect) (b : bool) : bool :=
  match xs with
  | [] => b
  | EReg j v :: xs => written k xs (if decide (k = j) then v else b)
  | _ :: xs => written k xs b
  end.

Lemma evar_effects xs e k : evar (fold_left apply_effect xs e) k = written k xs (evar e k).
Proof. revert e. induction xs as [|[j v|s|t] xs IH]; intros e; cbn; [done|by rewrite IH..]. Qed.

(** The state after effects. *)
Fixpoint state_after (xs : list Effect) (s : Z) : Z :=
  match xs with
  | [] => s
  | EState s :: xs => state_after xs s
  | _ :: xs => state_after xs s
  end.

Lemma estate_effects xs e : estate (fold_left apply_effect xs e) = state_after xs (estate e).
Proof. revert e. induction xs as [|[j v|s|t] xs IH]; intros e; cbn; [done|by rewrite IH..]. Qed.

(** A rule does what it does only if it is enabled. *)
Lemma exec_rule_cases (P : Env -> Prop) r e :
  P e -> (enabled r e = true -> P (fold_left apply_effect (effects r) e)) -> P (exec_rule r e).
Proof. intros H1 H2. unfold exec_rule. destruct (enabled r e); auto. Qed.

Lemma enabled_cons g gs xs e :
  enabled (mkRule (g :: gs) xs) e = true -> holds e g = true /\ enabled (mkRule gs xs) e = true.
Proof. intros H. by apply andb_prop. Qed.

Lemma enabled_app gs1 gs2 xs e :
  enabled (mkRule (gs1 ++ gs2) xs) e = true ->
  enabled (mkRule gs1 xs) e = true /\ enabled (mkRule gs2 xs) e = true.
Proof. unfold enabled. cbn. rewrite forallb_app. intros H. by apply andb_prop. Qed.

Lemma holds_test0 e k : holds e (test0 k) = true -> evar e k = false.
Proof. cbn. by destruct (evar e k). Qed.

Lemma holds_test1 e k : holds e (test1 k) = true -> evar e k = true.
Proof. cbn. by destruct (evar e k). Qed.

(** ** Routes *)

Section Exclusion.

(** No conflicting routes: [p1] and [p2] say that setting the routes [r1] and
    [r2] is pending, and [any] that one of them is. *)
Record exclusive (any p1 p2 r1 r2 : nat) (e : Env) : Prop := {
  ex_state : estate e <> StInit;
  ex_any1 : evar e p1 = true -> evar e any = true;
  ex_any2 : evar e p2 = true -> evar e any = true;
  ex_one : evar e p1 = true -> evar e p2 = false;
  ex_free1 : evar e p1 = true -> evar e r1 = false /\ evar e r2 = false;
  ex_free2 : evar e p2 = true -> evar e r1 = false /\ evar e r2 = false;
  ex_routes : evar e r1 = true -> evar e r2 = false
}.

Lemma exclusive_swap any p1 p2 r1 r2 e :
  exclusive any p1 p2 r1 r2 e -> exclusive any p2 p1 r2 r1 e.
Proof.
  intros [H0 H1 H2 H3 H4 H5 H6]. split; try done.
  - intros E. destruct (evar e p1) eqn:E1; [|done]. by rewrite H3 in E.
  - intros E. by destruct (H5 E).
  - intros E. by destruct (H4 E).
  - intros E. destruct (evar e r1) eqn:E1; [|done]. by rewrite H6 in E.
Qed.

(** Only the values of the five variables matter. *)
Lemma exclusive_ext any p1 p2 r1 r2 e e' :
  exclusive any p1 p2 r1 r2 e -> estate e' <> StInit ->
  (forall k, In k [any; p1; p2; r1; r2] -> evar e' k = evar e k) ->
  exclusive any p1 p2 r1 r2 e'.
Proof.
  intros [H0 H1 H2 H3 H4 H5 H6] Hs He.
  assert (Ea : evar e' any = evar e any) by (apply He; simpl; tauto).
  assert (E1 : evar e' p1 = evar e p1) by (apply He; simpl; tauto).
  assert (E2 : evar e' p2 = evar e p2) by (apply He; simpl; tauto).
  assert (E3 : evar e' r1 = evar e r1) by (apply He; simpl; tauto).
  assert (E4 : evar e' r2 = evar e r2) by (apply He; simpl; tauto).
  split; rewrite ?Ea, ?E1, ?E2, ?E3, ?E4; done.
Qed.

(** The variables through which a track talks with its neighbors. *)
Definition interface_vars (b : BoundInterface) : list nat :=
  [ out_try_set_route (iface b); in_route_set_success (iface b); in_route_set_failure (iface b);
    out_try_set_route (binding b); in_route_set_success (binding b); in_route_set_failure (binding b) ].

Lemma written_other k xs b :
  Forall (fun x => match x with EReg j _ => k <> j | _ => True end) xs -> written k xs b = b.
Proof.
  intros H. revert b. induction H as [|[j v|s|t] xs Hx _ IH]; intros b; cbn; try done.
  by rewrite decide_False.
Qed.

Context (any p1 p2 r1 r2 : nat) (before after : BoundInterface) (conflict : list nat).
Context (Hnd : NoDup [any; p1; p2; r1; r2]).
Context (Hshared : forall k, In k [any; p1; p2; r1; r2] ->
                             ~ In k (interface_vars before) /\ ~ In k (interface_vars after)).

Lemma interface_apart k j :
  In k [any; p1; p2; r1; r2] -> In j (interface_vars before) \/ In j (interface_vars after) -> k <> j.
Proof. intros Hk. destruct (Hshared k Hk) as [H1 H2]. intros [H|H] ->; [by apply H1|by apply H2]. Qed.

(** Effects on the variables of the neighbors only. *)
Definition on_interface (x : Effect) : Prop :=
  match x with
  | EReg j _ => In j (interface_vars before) \/ In j (interface_vars after)
  | _ => False
  end.

Lemma exclusive_interface xs e :
  Forall on_interface xs -> exclusive any p1 p2 r1 r2 e ->
  exclusive any p1 p2 r1 r2 (fold_left apply_effect xs e).
Proof.
  intros Hx H. apply (exclusive_ext _ _ _ _ _ e); [done| |].
  - rewrite estate_effects. replace (state_after xs (estate e)) with (estate e); [apply H|].
    clear -Hx. generalize (estate e). induction Hx as [|[j v|s|t] xs Hx _ IH]; intros s0; done.
  - intros k Hk. rewrite evar_effects. apply written_other. apply (Forall_impl _ _ _ Hx).
    intros [j v|s|t] Hj; [|done..]. by apply interface_apart.
Qed.


(** The variables of the record are distinct. *)
Lemma apart_keys : any <> p1 /\ any <> p2 /\ any <> r1 /\ any <> r2 /\ p1 <> p2 /\ p1 <> r1 /\ p1 <> r2 /\
  p2 <> r1 /\ p2 <> r2 /\ r1 <> r2.
Proof. rewrite !NoDup_cons, !elem_of_cons in Hnd. naive_solver. Qed.

(** A variable of the interface, and effects on it. *)
Ltac in_interface :=
  unfold interface_vars; cbn [In iface binding];
  first [left; solve [auto 7] | right; solve [auto 7]].

Ltac on_interface :=
  repeat first [apply Forall_nil_2 | apply Forall_cons_2; [cbn [on_interface set0 set1]; in_interface|]].

(** A value of a variable of the record after the effects of a rule. *)
Ltac value :=
  rewrite ?evar_effects; cbn [written set0 set1];
  repeat first
    [ rewrite decide_True by done
    | rewrite decide_False by
        (first [congruence | apply interface_apart; [cbn [In]; auto 7|in_interface]]) ].

(** Each rule of one direction keeps the record. *)
Lemma route_rules_exclusive e r :
  In r (route_rules None [] before after any p1 [r1] (r2 :: conflict)) ->
  exclusive any p1 p2 r1 r2 e -> exclusive any p1 p2 r1 r2 (exec_rule r e).
Proof.
  intros Hr H. destruct apart_keys as (K1 & K2 & K3 & K4 & K5 & K6 & K7 & K8 & K9 & K10).
  assert (Hother : forall gs xs, Forall on_interface xs -> exclusive any p1 p2 r1 r2 (exec_rule (mkRule gs xs) e)).
  { intros gs xs Hx. apply exec_rule_cases; [done|]. intros _. by apply exclusive_interface. }
  unfold route_rules in Hr. cbn [app List.map In] in Hr.
  destruct Hr as [<-|[<-|[<-|[<-|[<-|[<-|[<-|[]]]]]]]]; try (apply Hother; solve [on_interface]);
    (apply exec_rule_cases; [done|]).
  - intros [Hs%Z.eqb_eq _]%enabled_cons. by destruct (ex_state _ _ _ _ _ _ H).
  - intros (_ & (Ha%holds_test0 & (H1%holds_test0 & (H2%holds_test0 & _)%enabled_cons)%enabled_cons)%enabled_cons)%enabled_cons.
    destruct H as [H0 Ha1 Ha2 _ _ _ _]. assert (Hp2 : evar e p2 = false).
    { destruct (evar e p2); [|done]. by rewrite (Ha2 eq_refl) in Ha. }
    cbn [effects]. split; [done|..]; value; rewrite ?H1, ?H2, ?Hp2; done.
  - intros (Hp%holds_test1 & _)%enabled_cons.
    destruct H as [H0 Ha1 Ha2 Ho Hf1 Hf2 Hr]. destruct (Hf1 Hp) as [E1 E2].
    cbn [effects]. split; [done|..]; value; rewrite ?E1, ?E2, ?(Ho Hp); done.
  - intros (Hp%holds_test1 & _)%enabled_cons.
    destruct H as [H0 Ha1 Ha2 Ho Hf1 Hf2 Hr]. destruct (Hf1 Hp) as [E1 E2].
    cbn [effects]. split; [done|..]; value; rewrite ?E1, ?E2, ?(Ho Hp); done.
Qed.

(** Effects that clear routes or are on other variables. *)
Definition harmless (x : Effect) : Prop :=
  match x with
  | EReg j v => ~ In j [any; p1; p2; r1; r2] \/ v = false /\ In j [r1; r2]
  | EState s => s <> StInit
  | ETimer _ => True
  end.

Lemma exclusive_harmless xs e :
  Forall harmless xs -> exclusive any p1 p2 r1 r2 e ->
  exclusive any p1 p2 r1 r2 (fold_left apply_effect xs e).
Proof.
  destruct apart_keys as (K1 & K2 & K3 & K4 & K5 & K6 & K7 & K8 & K9 & K10).
  intros Hx. revert e. induction Hx as [|x xs Hx _ IH]; intros e H; [done|]. apply IH.
  destruct x as [j v|s|t]; [|by destruct H; split|by destruct H; split].
  destruct Hx as [Hj|[-> Hj]].
  - apply (exclusive_ext _ _ _ _ _ e); [done|apply H|]. intros k Hk. cbn.
    by rewrite decide_False by (intros ->; done).
  - destruct H as [H0 Ha1 Ha2 Ho Hf1 Hf2 Hr].
    destruct Hj as [<-|[<-|[]]]; split; cbn -[decide]; try done; value; naive_solver.
Qed.

End Exclusion.

(** Variables that are off while a track starts. *)
Definition quiet (W : list nat) (e : Env) : Prop :=
  estate e = StInit /\ forall k, In k W -> evar e k = false.

(** Effects that keep variables off. *)
Definition calm (W : list nat) (x : Effect) : Prop :=
  match x with
  | EReg j v => v = false \/ ~ In j W
  | EState _ => False
  | ETimer _ => True
  end.

Lemma quiet_calm W xs e : Forall (calm W) xs -> quiet W e -> quiet W (fold_left apply_effect xs e).
Proof.
  intros Hx. revert e. induction Hx as [|x xs Hx _ IH]; intros e H; [done|]. apply IH.
  destruct x as [j v|s|t]; [|done..]. destruct H as [Hs H]. split; [done|]. intros k Hk. cbn.
  case_decide; [|auto]. subst j. destruct Hx as [->|Hx]; done.
Qed.

Lemma quiet_rule W r e :
  Forall (calm W) (effects r) \/ (exists k, In (test1 k) (guards r) /\ In k W) ->
  quiet W e -> quiet W (exec_rule r e).
Proof.
  intros Hr H. apply exec_rule_cases; [done|]. intros He. destruct Hr as [Hr|(k & Hk & HW)].
  - by apply quiet_calm.
  - unfold enabled in He. rewrite forallb_forall in He. pose proof (He _ Hk) as Ht%holds_test1.
    by rewrite (proj2 H k HW) in Ht.
Qed.

Lemma quiet_rules W rs e :
  Forall (fun r => Forall (calm W) (effects r) \/ (exists k, In (test1 k) (guards r) /\ In k W)) rs ->
  quiet W e -> quiet W (exec_rules rs e).
Proof.
  intros Hr. revert e. induction Hr as [|r rs Hr _ IH]; intros e Hq; [done|]. by apply IH, quiet_rule.
Qed.

Lemma exec_rules_keep (P : Env -> Prop) rs e :
  (forall r e, In r rs -> P e -> P (exec_rule r e)) -> P e -> P (exec_rules rs e).
Proof.
  revert e. induction rs as [|r rs IH]; intros e Hr H; [done|]. apply IH.
  - intros r' e' Hr'. apply Hr. by right.
  - apply Hr; [by left|done].
Qed.

(** ** A track with a detector *)

Section Track.
Context (t : StraightTrack) (detector : nat).

Definition track_keys : list nat :=
  [ tmp_route_setting_in_progress_ t; route_pending_ab_ t; route_pending_ba_ t; route_set_ab_ t;
    route_set_ba_ t ].

(** The requests of the neighbors. *)
Definition track_requests : list nat :=
  [ out_try_set_route (binding (side_a t)); out_try_set_route (binding (side_b t)) ].

(** What the automata writes besides. *)
Definition track_outputs : list nat :=
  [ simulated_occupancy_ t;
    in_next_signal_1 (binding (side_a t)); in_next_signal_2 (binding (side_a t));
    in_next_signal_1 (binding (side_b t)); in_next_signal_2 (binding (side_b t)) ].

(** The variables of the track are its own. *)
Record separate : Prop := {
  separate_keys : NoDup track_keys;
  separate_interfaces k : In k track_keys ->
    ~ In k (interface_vars (side_a t)) /\ ~ In k (interface_vars (side_b t));
  separate_outputs k : In k track_outputs -> ~ In k track_keys /\ ~ In k track_requests
}.

Context (Hsep : separate).

(** No two routes, nor the setting of two routes. *)
Definition track_exclusive : Env -> Prop :=
  exclusive (tmp_route_setting_in_progress_ t) (route_pending_ab_ t) (route_pending_ba_ t)
    (route_set_ab_ t) (route_set_ba_ t).

(** The rules, but for those of the routes. *)
Definition other_rules : list Rule :=
  detector_occupancy_rules t detector ++ copy_state_rules t.

Lemma straight_rules_exclusive conflict e r :
  In r (straight_rules None t conflict) -> track_exclusive e -> track_exclusive (exec_rule r e).
Proof.
  intros Hr H. destruct Hsep as [Hnd Hif _]. unfold straight_rules in Hr. apply in_app_or in Hr as [Hr|Hr].
  - by apply (route_rules_exclusive _ _ _ _ _ (side_a t) (side_b t) conflict).
  - apply exclusive_swap. apply exclusive_swap in H.
    apply (route_rules_exclusive _ _ _ _ _ (side_b t) (side_a t) conflict); try done.
    + refine (proj1 (NoDup_Permutation_proper _ _ _) Hnd). unfold track_keys.
      apply perm_skip. etrans; [apply perm_swap|]. do 2 apply perm_skip. apply perm_swap.
    + intros k Hk. destruct (Hif k) as [? ?]; [|done]. clear -Hk. unfold track_keys. cbn [In] in *. tauto.
Qed.

Lemma other_rules_harmless r :
  In r other_rules ->
  Forall (harmless (tmp_route_setting_in_progress_ t) (route_pending_ab_ t) (route_pending_ba_ t)
            (route_set_ab_ t) (route_set_ba_ t)) (effects r).
Proof.
  intros Hr. assert (Ho : forall k, In k track_outputs -> ~ In k track_keys) by apply Hsep.
  unfold track_keys, track_outputs in Ho.
  unfold other_rules, detector_occupancy_rules, copy_state_rules, copy_signals_rules, copy_rules in Hr.
  cbn [app In] in Hr. repeat destruct Hr as [<-|Hr]; try done; cbn [effects];
    repeat first [apply Forall_nil_2 | apply Forall_cons_2]; cbn [harmless set0 set1];
    first [right; split; [done|]; cbn [In]; solve [auto 3] | left; apply Ho; cbn [In]; solve [auto 6]].
Qed.

Lemma detector_track_exclusive e :
  track_exclusive e -> track_exclusive (exec_rules (detector_track_rules None t detector) e).
Proof.
  apply exec_rules_keep. intros r e' Hr H. unfold detector_track_rules, detector_route_rules in Hr.
  rewrite app_assoc in Hr. apply in_app_or in Hr as [Hr|Hr]; [|apply in_app_or in Hr as [[<-|Hr]|[<-|[]]]].
  - apply exec_rule_cases; [done|]. intros _.
    apply (exclusive_harmless _ _ _ _ _ (side_a t) (side_b t)); try apply Hsep; try done.
    by apply other_rules_harmless.
  - apply exec_rule_cases; [done|]. intros [Hs%Z.eqb_eq _]%enabled_cons. by destruct (ex_state _ _ _ _ _ _ H).
  - by eapply straight_rules_exclusive.
  - apply exec_rule_cases; [done|]. intros [Hs%Z.eqb_eq _]%enabled_cons. by destruct (ex_state _ _ _ _ _ _ H).
Qed.

(** Variables that are off once the routes were initialized. *)
Definition track_quiet : list nat :=
  track_requests ++ [route_pending_ab_ t; route_pending_ba_ t; route_set_ab_ t; route_set_ba_ t].

Lemma other_rules_calm r : In r other_rules -> Forall (calm track_requests) (effects r).
Proof.
  intros Hr. assert (Ho : forall k, In k track_outputs -> ~ In k track_requests) by apply Hsep.
  unfold track_outputs in Ho.
  unfold other_rules, detector_occupancy_rules, copy_state_rules, copy_signals_rules, copy_rules in Hr.
  cbn [app In] in Hr. repeat destruct Hr as [<-|Hr]; try done; cbn [effects];
    repeat first [apply Forall_nil_2 | apply Forall_cons_2]; cbn [calm set0 set1];
    first [left; reflexivity | right; apply Ho; cbn [In]; solve [auto 6]].
Qed.

Lemma straight_rules_quiet e : quiet track_quiet e -> quiet track_quiet (exec_rules (straight_rules None t [detector]) e).
Proof.
  apply quiet_rules. unfold straight_rules, route_rules. cbn [app List.map].
  repeat first [apply Forall_nil_2 | apply Forall_cons_2]; cbn [effects guards];
    first [ left; repeat first [apply Forall_nil_2 | apply Forall_cons_2]; left; reflexivity
          | right; eexists; split; [left; reflexivity|]; unfold track_quiet, track_requests; cbn [app In]; auto 8 ].
Qed.

Lemma routes_cleared e :
  quiet track_requests e ->
  quiet track_quiet (exec_rule (mkRule [GState StInit]
    [set0 (route_set_ab_ t); set0 (route_set_ba_ t); set0 (route_pending_ab_ t);
     set0 (route_pending_ba_ t)]) e).
Proof.
  intros [Hs Hq]. unfold exec_rule. cbn [enabled guards forallb holds]. rewrite Hs. cbn [andb Z.eqb StInit].
  split; [done|]. intros k Hk. cbn. repeat case_decide; try done.
  unfold track_quiet in Hk. apply in_app_or in Hk as [Hk|Hk]; [auto|]. cbn [In] in Hk.
  destruct Hk as [<-|[<-|[<-|[<-|[]]]]]; done.
Qed.

(** The first pass. *)
Lemma detector_track_starts e :
  estate e = StInit -> (forall k, In k track_requests -> evar e k = false) ->
  track_exclusive (exec_rules (detector_track_rules None t detector) e).
Proof.
  intros Hs Hq. unfold detector_track_rules, detector_route_rules.
  rewrite app_assoc, exec_rules_app. cbn [app]. rewrite exec_rules_cons, exec_rules_app. set (e1 := exec_rules _ e). assert (H1 : quiet track_requests e1).
  { apply quiet_rules; [|done]. apply List.Forall_forall. intros r Hr. left. by apply other_rules_calm. }
  clearbody e1. apply routes_cleared in H1. set (e2 := exec_rule _ e1) in *. rename H1 into H2. clearbody e2.
  apply straight_rules_quiet in H2. set (e3 := exec_rules _ e2) in *. destruct H2 as [Hs3 Hq3].
  rewrite exec_rules_cons. cbn [exec_rules fold_left]. unfold exec_rule, init_rule.
  cbn [enabled guards forallb holds]. rewrite Hs3. cbn [andb Z.eqb StInit effects fold_left apply_effect].
  split; cbn [evar estate]; [done|..]; intros Hk;
    (rewrite Hq3 in Hk; [done|apply in_or_app; right; cbn [In]; auto 6]).
Qed.

End Track.

(** ** Passes of an automata *)

Section Passes.
Context {V W : Type} `{VV : !Velocity V} `{NN : !Node V W} `{QN : !QuietNode V W}.
Context (gid : nat -> option GlobalVariableId) (place : nat -> option Place).

(** What the runner stores determines the variables that have a place, and the
    state. *)
Lemma represents_var u u' c e e' k :
  represents gid place (V := V) (W := W) u c e -> represents gid place u' c e' ->
  is_Some (place k) -> evar e k = evar e' k.
Proof.
  intros R R' [p Hk]. eapply holds_at_unique; [by apply (rep_value _ _ _ _ _ R)|by apply (rep_value _ _ _ _ _ R')].
Qed.

Lemma represents_state u u' c e e' :
  represents gid place (V := V) (W := W) u c e -> represents gid place u' c e' -> estate e = estate e'.
Proof.
  intros R R'. destruct (rep_automata _ _ _ _ _ R) as (a & x & Ha & Hx & Hs & _).
  destruct (rep_automata _ _ _ _ _ R') as (a' & x' & Ha' & Hx' & Hs' & _). congruence.
Qed.

(** The automata [a], which has the code of [body], runs once. *)
Definition pass (body : AutomataCallback) (code : list Z) (a : nat) (e e' : Env) : Prop :=
  exists (s s' : AutomataRunner (V := V) (W := W)) u,
    runnable gid place body code a s /\
    represents gid place {[None := timer_bit_]} (reset_imports a (core s)) e /\
    run_automata code a s = Some (Done tt s') /\ represents gid place u (core s') e'.

(** A pass does what the rules of the body do. *)
Lemma pass_rules body rs G code a e e' :
  builds gid [] body rs G -> pass body code a e e' ->
  estate e' = estate (exec_rules rs e) /\
  forall k, is_Some (gid k) -> evar e' k = evar (exec_rules rs e) k.
Proof.
  intros Hb (s & s' & u & Hrun & R & E & R').
  destruct (body_runs gid place body rs G code a e s Hrun Hb R) as (s1 & u1 & E1 & R1).
  rewrite E in E1. injection E1 as <-. split; [by eapply represents_state|].
  intros k Hk. eapply represents_var; [done..|]. by apply (run_all _ _ _ _ _ _ Hrun); [tauto|].
Qed.

Context (t : StraightTrack) (detector : nat) (code : list Z) (a : nat).

Abbreviation track_body := (RunAll (StraightTrackWithDetector_plugins gid None t detector)).

(** The automata of the track runs; or between two runs something else happens
    on the layout, which may do anything but set routes of the track or touch
    the variables with which it sets them. *)
Inductive track_step : Env -> Env -> Prop :=
| step_pass e e' : pass track_body code a e e' -> track_step e e'
| step_layout e e' :
    estate e' = estate e ->
    (forall k, In k [tmp_route_setting_in_progress_ t; route_pending_ab_ t; route_pending_ba_ t] ->
       evar e' k = evar e k) ->
    (forall k, In k [route_set_ab_ t; route_set_ba_ t] -> evar e' k = true -> evar e k = true) ->
    track_step e e'.

Lemma track_exclusive_ext e e' :
  track_exclusive t e -> estate e' = estate e -> (forall k, In k (track_keys t) -> evar e' k = evar e k) ->
  track_exclusive t e'.
Proof. intros H Hs Hk. apply (exclusive_ext _ _ _ _ _ e); [done| |done]. rewrite Hs. apply H. Qed.

Lemma track_step_exclusive e e' :
  args_ok gid -> separate t -> (forall k, In k (track_keys t) -> is_Some (gid k)) ->
  track_step e e' -> track_exclusive t e -> track_exclusive t e'.
Proof.
  intros Hargs Hsep Hgid [e1 e2 Hp|e1 e2 Hs Hk Hr] H.
  - destruct (pass_rules _ _ _ _ _ _ _ (builds_detector_track gid Hargs None [] t detector) Hp) as [Hst Hv].
    apply (track_exclusive_ext (exec_rules (detector_track_rules None t detector) e1)); [|done|auto].
    by apply detector_track_exclusive.
  - destruct H as [H0 H1 H2 H3 H4 H5 H6].
    pose proof (Hk _ ltac:(by left)) as Ka. pose proof (Hk _ ltac:(by right; left)) as K1.
    pose proof (Hk _ ltac:(by do 2 right; left)) as K2.
    pose proof (Hr _ ltac:(by left)) as R1.
    assert (off_stays : forall k, In k [route_set_ab_ t; route_set_ba_ t] -> evar e1 k = false -> evar e2 k = false).
    { intros k Hin. specialize (Hr k Hin). destruct (evar e2 k); [|done]. by rewrite Hr. }
    split; rewrite ?Hs, ?Ka, ?K1, ?K2; try done.
    + intros E. destruct (H4 E). split; apply off_stays; cbn [In]; auto.
    + intros E. destruct (H5 E). split; apply off_stays; cbn [In]; auto.
    + intros E. apply off_stays; cbn [In]; auto.
Qed.

(** C4: Routes exclude each other: on a track with a detector whose automata
    started while no neighbor requested a route, the routes in the two directions
    are never set together, whatever the neighbors, the detector and the rest
    of the layout do between its runs, when there is no variable to reset
    routes; and each of its runs comes to its end. *)
Theorem routes_never_conflict e0 e1 e :
  args_ok gid -> separate t -> (forall k, In k (track_keys t) -> is_Some (gid k)) ->
  estate e0 = StInit -> (forall k, In k (track_requests t) -> evar e0 k = false) ->
  pass track_body code a e0 e1 -> rtc track_step e1 e ->
  ~ (evar e (route_set_ab_ t) = true /\ evar e (route_set_ba_ t) = true) /\
  forall s : AutomataRunner (V := V) (W := W), runnable gid place track_body code a s ->
    represents gid place {[None := timer_bit_]} (reset_imports a (core s)) e ->
    exists s' u e', run_automata code a s = Some (Done tt s') /\ represents gid place u (core s') e'.
Proof.
  intros Hargs Hsep Hgid Hs Hq H0 Hsteps.
  pose proof (builds_detector_track gid Hargs None [] t detector) as Hb. split.
  - assert (H1 : track_exclusive t e1).
    { destruct (pass_rules _ _ _ _ _ _ _ Hb H0) as [Hst Hv].
      apply (track_exclusive_ext (exec_rules (detector_track_rules None t detector) e0)); [|done|auto].
      by apply detector_track_starts. }
    assert (H : track_exclusive t e).
    { clear -Hsteps H1 Hargs Hsep Hgid QN. induction Hsteps; [done|]. apply IHHsteps.
      by eapply track_step_exclusive. }
    intros [E1 E2]. by rewrite (ex_routes _ _ _ _ _ _ H E1) in E2.
  - intros s Hrun R. destruct (body_runs gid place _ _ _ code a e s Hrun Hb R) as (s' & u & E & R').
    by exists s', u, (exec_rules (detector_track_rules None t detector) e).
Qed.

End Passes.

(** ** With a variable to reset routes *)

Section Reset.

Definition example_interface (n : nat) : CtrlTrackInterface :=
  mkInterface n (n + 1) (n + 2) (n + 3) (n + 4) (n + 5).

(** A track with its own variables from 0 and with interfaces from 10 to 39. *)
Definition example_track : StraightTrack :=
  mkStraight (mkBound (example_interface 10) (example_interface 20) None None)
    (mkBound (example_interface 30) (example_interface 40) None None)
    None 0 1 2 3 4 5 6 7.

Lemma example_separate : separate example_track.
Proof.
  split; [apply (bool_decide_unpack _); vm_compute; exact I|..]; intros k Hk; cbn in Hk;
    repeat destruct Hk as [<-|Hk]; try done; cbn; lia.
Qed.

Definition network (l : list (nat * bool)) (e : Env) : Env :=
  fold_left (fun e '(k, b) => put_var k b e) l e.

Definition reset_pass (e : Env) : Env := exec_rules (detector_track_rules (Some 50%nat) example_track 51) e.

(** With a variable that resets routes, here 50, routes do not exclude each
    other: the reset forgets that a route is being set, but not which, so that
    a second request is let through before the answer to the first arrives. *)
Theorem reset_lets_routes_conflict :
  let e0 := mkEnv (fun _ => false) StBase 0 0 in
  let e1 := reset_pass (network [(20%nat, true)] e0) in
  let e2 := reset_pass (network [(50%nat, true)] e1) in
  let e3 := reset_pass (network [(50%nat, false); (40%nat, true)] e2) in
  let e4 := reset_pass (network [(21%nat, true); (41%nat, true)] e3) in
  track_exclusive example_track e0 /\
  evar e4 (route_set_ab_ example_track) = true /\ evar e4 (route_set_ba_ example_track) = true.
Proof. cbn zeta. split; [by split|]. split; vm_compute; reflexivity. Qed.

End Reset.

(** ** Magnets *)

Section Magnets.
Context (ms : list MagnetDef) (cs : list CoupledMagnetDef).

Definition coils (m : MagnetDef) : list nat := [set_0 m; set_1 m].

(** The coils are outputs of their own. *)
Record wired : Prop := {
  wired_state m : In m ms -> StBase < aut_state m < 32;
  wired_coils m m' k : In m ms -> In m' ms -> In k (coils m) -> In k (coils m') -> m = m';
  wired_magnets m m' : In m ms -> In m' ms -> ~ In (command m) (coils m') /\ ~ In (current_state m) (coils m');
  wired_coupled c m : In c cs -> In m ms ->
    Forall (fun k => ~ In k (coils m))
      [coupled_command c; coupled_state c; remote_command c; command (original c)]
}.

Context (Hw : wired).

(** A powered coil is the only one, and the automata is in the state of its
    magnet. *)
Definition one_coil (e : Env) : Prop :=
  forall m k, In m ms -> In k (coils m) -> evar e k = true ->
    estate e = aut_state m /\
    forall m' k', In m' ms -> In k' (coils m') -> evar e k' = true -> k' = k.

Definition all_off (e : Env) : Prop := forall m k, In m ms -> In k (coils m) -> evar e k = false.

Lemma all_off_one e : all_off e -> one_coil e.
Proof. intros H m k Hm Hk E. by rewrite (H m k) in E. Qed.

Lemma one_coil_off e : one_coil e -> (forall m, In m ms -> estate e <> aut_state m) -> all_off e.
Proof.
  intros H Hs m k Hm Hk. destruct (evar e k) eqn:E; [|done].
  destruct (H m k Hm Hk E) as [Hst _]. by destruct (Hs m Hm).
Qed.

(** Coils only go off. *)
Lemma one_coil_less e e' :
  one_coil e -> estate e' = estate e ->
  (forall m k, In m ms -> In k (coils m) -> evar e' k = true -> evar e k = true) -> one_coil e'.
Proof.
  intros H Hs Hv m k Hm Hk E. destruct (H m k Hm Hk) as [H1 H2]; [by eapply Hv|].
  split; [by rewrite Hs|]. intros m' k' Hm' Hk' E'. eapply H2; [done..|]. by eapply Hv.
Qed.

Definition no_pull (x : Effect) : Prop :=
  match x with
  | EReg j v => v = false \/ forall m, In m ms -> ~ In j (coils m)
  | EState _ => False
  | ETimer _ => True
  end.

Lemma no_pull_effects xs e :
  Forall no_pull xs ->
  estate (fold_left apply_effect xs e) = estate e /\
  forall m k, In m ms -> In k (coils m) -> evar (fold_left apply_effect xs e) k = true -> evar e k = true.
Proof.
  intros Hx. revert e. induction Hx as [|x xs Hx _ IH]; intros e; [done|]. cbn [fold_left].
  destruct (IH (apply_effect e x)) as [Hs Hv]. split; [rewrite Hs; by destruct x|].
  intros m k Hm Hk E. specialize (Hv m k Hm Hk E). destruct x as [j v|s|t]; [|done..]. cbn in Hv.
  case_decide; [|done]. subst j. destruct Hx as [->|Hx]; [done|]. by destruct (Hx m Hm).
Qed.

Lemma one_coil_effects xs e : Forall no_pull xs -> one_coil e -> one_coil (fold_left apply_effect xs e).
Proof. intros Hx H. destruct (no_pull_effects xs e Hx). by eapply one_coil_less. Qed.

Lemma magnet_state m s : In m ms -> s = StInit \/ s = StBase -> s <> aut_state m.
Proof. intros Hm Hs. pose proof (wired_state Hw m Hm). unfold StInit, StBase in *. lia. Qed.

(** Pulling a coil of a magnet. *)
Lemma pull_coil m k s e :
  In m ms -> In k (coils m) -> all_off e ->
  one_coil (fold_left apply_effect [EState (aut_state m); ETimer s; set1 k] e).
Proof.
  intros Hm Hk Hoff m' k' Hm' Hk' E. cbn in E |- *. case_decide as Ek.
  - subst k'. rewrite (wired_coils Hw m' m k) by done. split; [done|]. intros m2 k2 Hm2 Hk2 E2.
    case_decide; [done|]. by rewrite (Hoff m2 k2) in E2.
  - by rewrite (Hoff m' k') in E.
Qed.

(** Releasing the coil that is powered. *)
Lemma release_coil m k xs e :
  In m ms -> In k (coils m) -> one_coil e -> evar e k = true ->
  Forall no_pull xs -> In (set0 k) xs ->
  all_off (fold_left apply_effect xs e).
Proof.
  intros Hm Hk H E Hx Hin m' k' Hm' Hk'. destruct (evar (fold_left apply_effect xs e) k') eqn:E'; [|done].
  destruct (no_pull_effects xs e Hx) as [_ Hv]. pose proof (Hv m' k' Hm' Hk' E') as Eb.
  destruct (H m k Hm Hk E) as [_ Hu]. rewrite (Hu m' k' Hm' Hk' Eb) in E'.
  apply in_split in Hin as (xs1 & xs2 & ->). rewrite fold_left_app in E'. cbn [fold_left] in E'.
  apply Forall_app in Hx as [_ Hx]. apply Forall_cons_1 in Hx as [_ Hx].
  destruct (no_pull_effects xs2 (apply_effect (fold_left apply_effect xs1 e) (set0 k)) Hx) as [_ Hv2].
  specialize (Hv2 m k Hm Hk E'). cbn in Hv2. by rewrite decide_True in Hv2.
Qed.

Lemma all_off_state xs s e : all_off (fold_left apply_effect xs e) -> all_off (fold_left apply_effect (xs ++ [EState s]) e).
Proof. intros H m k Hm Hk. rewrite fold_left_app. by apply (H m). Qed.

(** Coils are pulsed at the start. *)
Lemma pulse_coils m b e :
  In m ms -> all_off e ->
  all_off (fold_left apply_effect
             [set1 (set_0 m); set0 (set_0 m); set1 (set_1 m); set0 (set_1 m); EReg (command m) b] e).
Proof.
  intros Hm H m' k Hm' Hk. cbn. destruct (wired_magnets Hw m m' Hm Hm') as [Hc _].
  rewrite decide_False by (intros ->; done). repeat case_decide; try done. by apply (H m').
Qed.

Ltac no_pulls :=
  repeat first [apply Forall_nil_2 | apply Forall_cons_2]; cbn [no_pull set0 set1];
  first [exact I | left; reflexivity | right; assumption].

Lemma magnet_rule_one_coil m r e :
  In m ms -> In r (magnet_rules m) -> one_coil e -> one_coil (exec_rule r e).
Proof.
  intros Hm Hr H.
  assert (H0 : In (set_0 m) (coils m)) by (cbn; auto). assert (H1 : In (set_1 m) (coils m)) by (cbn; auto).
  assert (Hoff : forall s, estate e = s -> s = StInit \/ s = StBase -> all_off e).
  { intros s <- Hs. apply one_coil_off; [done|]. intros m' Hm'. by apply magnet_state. }
  assert (Hc : forall m', In m' ms -> ~ In (current_state m) (coils m')) by (intros; by apply wired_magnets).
  unfold magnet_rules in Hr. cbn [In] in Hr.
  destruct Hr as [<-|[<-|[<-|[<-|[<-|[<-|[<-|[<-|[]]]]]]]]]; (apply exec_rule_cases; [done|]);
    intros [Hs%Z.eqb_eq He]%enabled_cons.
  - apply all_off_one, pulse_coils; [done|]. by apply (Hoff StInit); [|left].
  - apply one_coil_effects; [|done]. no_pulls.
  - apply one_coil_effects; [|done]. no_pulls.
  - apply pull_coil; try done. by apply (Hoff StBase); [|right].
  - apply pull_coil; try done. by apply (Hoff StBase); [|right].
  - apply all_off_one. apply (all_off_state [set0 (set_1 m); set1 (current_state m)]).
    apply enabled_cons in He as [_ [E%holds_test1 _]%enabled_cons].
    apply (release_coil m (set_1 m)); try done; [|by left]. no_pulls.
  - apply all_off_one. apply (all_off_state [set0 (current_state m); set0 (set_0 m)]).
    apply enabled_cons in He as [_ [E%holds_test1 _]%enabled_cons].
    apply (release_coil m (set_0 m)); try done; [|by right; left]. no_pulls.
  - apply one_coil_effects; [|done]. no_pulls.
Qed.

Lemma couple_rule_one_coil c r e : In c cs -> In r (couple_rules c) -> one_coil e -> one_coil (exec_rule r e).
Proof.
  intros Hc Hr H. apply exec_rule_cases; [done|]. intros _. apply one_coil_effects; [|done].
  assert (Ho : forall k, In k [coupled_command c; coupled_state c; remote_command c; command (original c)] ->
            forall m, In m ms -> ~ In k (coils m)).
  { intros k Hk m Hm. pose proof (wired_coupled Hw c m Hc Hm) as Hf. rewrite List.Forall_forall in Hf. auto. }
  unfold couple_rules in Hr. cbn [In] in Hr. repeat destruct Hr as [<-|Hr]; try done;
    repeat first [apply Forall_nil_2 | apply Forall_cons_2]; cbn [no_pull set0 set1];
    first [left; reflexivity | right; apply Ho; cbn [In]; auto 6].
Qed.

Lemma magnets_one_coil rs e :
  Forall (magnets_rule ms cs) rs -> one_coil e -> one_coil (exec_rules rs e).
Proof.
  intros Hr. apply exec_rules_keep. intros r e' Hin H. rewrite List.Forall_forall in Hr.
  destruct (Hr r Hin) as [(m & Hm & Hrm)|[(c & Hc & Hrc)|[ -> | -> ]]].
  - by eapply magnet_rule_one_coil.
  - by eapply couple_rule_one_coil.
  - apply exec_rule_cases; [done|]. intros _. apply one_coil_effects; [no_pulls|done].
  - apply exec_rule_cases; [done|]. intros [Hs%Z.eqb_eq _]%enabled_cons.
    apply all_off_one. apply (all_off_state []), one_coil_off; [done|].
    intros m Hm. apply magnet_state; [done|]. left. exact Hs.
Qed.

End Magnets.

Section MagnetRuns.
Context {V W : Type} `{VV : !Velocity V} `{NN : !Node V W} `{QN : !QuietNode V W}.
Context (gid : nat -> option GlobalVariableId) (place : nat -> option Place).
Context (ms : list MagnetDef) (cs : list CoupledMagnetDef) (code : list Z) (a : nat).

Abbreviation magnets_body := (RunAll (magnet_plugins gid ms cs)).

(** The automata runs, or something else happens that leaves its state alone
    and powers no coil. *)
Inductive magnet_step : Env -> Env -> Prop :=
| magnet_pass e e' : pass (V := V) (W := W) gid place magnets_body code a e e' -> magnet_step e e'
| magnet_layout e e' :
    estate e' = estate e ->
    (forall m k, In m ms -> In k (coils m) -> evar e' k = true -> evar e k = true) ->
    magnet_step e e'.

Lemma magnet_step_one_coil rs e e' :
  wired ms cs -> (forall m k, In m ms -> In k (coils m) -> is_Some (gid k)) ->
  builds gid [] magnets_body rs [] -> Forall (magnets_rule ms cs) rs ->
  magnet_step e e' -> one_coil ms e -> one_coil ms e'.
Proof.
  intros Hw Hgid Hb Hrs [e1 e2 Hp|e1 e2 Hs Hv] H; [|by eapply one_coil_less].
  destruct (pass_rules _ _ _ _ _ _ _ _ _ Hb Hp) as [Hst Hv].
  apply (one_coil_less ms (exec_rules rs e1)); [by apply (magnets_one_coil ms cs)|done|].
  intros m k Hm Hk. by rewrite Hv by (by eapply Hgid).
Qed.

(** C9: Magnets are pulled one at a time: in an automata of magnets and coupled
    magnets that started with all coils off, whatever commands arrive between
    its runs, at most one coil of one magnet is powered, and only while the
    automata is in the state of that magnet; and each of its runs comes to its
    end. *)
Theorem one_magnet_at_a_time e0 e :
  args_ok gid -> wired ms cs ->
  (forall m k, In m ms -> In k (coils m) -> is_Some (gid k) /\ evar e0 k = false) ->
  rtc magnet_step e0 e ->
  (forall m k, In m ms -> In k (coils m) -> evar e k = true ->
     estate e = aut_state m /\
     forall m' k', In m' ms -> In k' (coils m') -> evar e k' = true -> k' = k) /\
  forall s : AutomataRunner (V := V) (W := W), runnable gid place magnets_body code a s ->
    represents gid place {[None := timer_bit_]} (reset_imports a (core s)) e ->
    exists s' u e', run_automata code a s = Some (Done tt s') /\ represents gid place u (core s') e'.
Proof.
  intros Hargs Hw Hg Hsteps.
  destruct (builds_magnets gid Hargs ms cs) as (rs & Hb & Hrs).
  { intros m Hm. pose proof (wired_state _ _ Hw m Hm). unfold StBase in *. lia. }
  split.
  - change (one_coil ms e). assert (H0 : one_coil ms e0).
    { apply all_off_one. intros m k Hm Hk. by apply (Hg m). }
    assert (Hgid : forall m k, In m ms -> In k (coils m) -> is_Some (gid k)) by (intros; by eapply Hg).
    clear Hg. induction Hsteps as [|e1 e2 e3 Hstep _ IH]; [done|]. by eapply IH, magnet_step_one_coil.
  - intros s Hrun R. destruct (body_runs gid place _ _ _ code a e s Hrun (Hb []) R) as (s' & u & E & R').
    by exists s', u, (exec_rules rs e).
Qed.

End MagnetRuns.

(** ** Signals *)

Lemma copy_rules_run src dst e k :
  evar (exec_rules (copy_rules src dst) e) k = if decide (k = dst) then evar e src else evar e k.
Proof.
  unfold copy_rules, exec_rules. cbn [fold_left]. unfold exec_rule. cbn.
  destruct (decide (src = dst)) as [->|Hne].
  - destruct (evar e dst) eqn:E; cbn; rewrite E; cbn; by case_decide; subst.
  - destruct (evar e src) eqn:E1, (evar e dst) eqn:E2; cbn; rewrite ?E1, ?E2; cbn; rewrite ?E1, ?E2;
      repeat case_decide; subst; cbn; repeat case_decide; try congruence.
Qed.

(** Rules that look at none of the variables [ks] and write only those are
    enabled or not from the start. *)
Definition looks_elsewhere (ks : list nat) (r : Rule) : Prop :=
  Forall (fun g => match g with GReg (Some k) _ => ~ In k ks | _ => False end) (guards r) /\
  Forall (fun x => match x with EReg k _ => In k ks | _ => False end) (effects r).

Lemma independent_rules ks rs e k :
  Forall (looks_elsewhere ks) rs ->
  evar (exec_rules rs e) k =
  fold_left (fun b r => if enabled r e then written k (effects r) b else b) rs (evar e k).
Proof.
  intros H.
  assert (Hgen : forall e', (forall j, ~ In j ks -> evar e' j = evar e j) ->
    evar (exec_rules rs e') k =
    fold_left (fun b r => if enabled r e then written k (effects r) b else b) rs (evar e' k)); [|auto].
  induction H as [|r rs [Hg Hx] _ IH]; intros e' He; [done|]. rewrite exec_rules_cons. cbn [fold_left].
  assert (Hen : enabled r e' = enabled r e).
  { unfold enabled. induction Hg as [|[[j|] b|s] gs Hj _ IHg]; [done| |done..]. cbn [forallb]. rewrite IHg.
    cbn [holds]. by rewrite He. }
  rewrite IH; unfold exec_rule; rewrite Hen; destruct (enabled r e); [by rewrite evar_effects|done| |done].
  intros j Hj. rewrite evar_effects, written_other; [auto|]. apply (Forall_impl _ _ _ Hx).
  intros [j' v|s|t] Hj'; [|done..]. by intros ->.
Qed.

Section AspectRules.
Context (green inst1 inst2 outst1 outst2 : nat) (e : Env).
Context (H12 : outst1 <> outst2).
Context (Hg : ~ In green [outst1; outst2]) (H1 : ~ In inst1 [outst1; outst2]) (H2 : ~ In inst2 [outst1; outst2]).

Lemma aspect_rules_run k :
  evar (exec_rules (aspect_rules green inst1 inst2 outst1 outst2) e) k =
  if decide (k = outst1) then evar e green && (evar e inst2 || negb (evar e inst1))
  else if decide (k = outst2) then evar e green && (evar e inst2 || evar e inst1)
  else evar e k.
Proof.
  rewrite (independent_rules [outst1; outst2]).
  - unfold aspect_rules. cbn [fold_left effects written set0 set1].
    cbn [enabled guards forallb holds test0 test1].
    destruct (evar e green), (evar e inst1), (evar e inst2); cbn;
      destruct (decide (k = outst1)) as [->|]; rewrite ?(decide_False H12); repeat case_decide; done.
  - unfold aspect_rules.
    repeat first [apply Forall_nil_2 | apply Forall_cons_2; [|]]; split; cbn [guards effects test0 test1 set0 set1];
      repeat first [apply Forall_nil_2 | apply Forall_cons_2; [first [assumption|simpl; solve [auto 3]]|]].
Qed.

End AspectRules.

Section SignalRuns.
Context {V W : Type} `{VV : !Velocity V} `{NN : !Node V W} `{QN : !QuietNode V W}.
Context (gid : nat -> option GlobalVariableId) (place : nat -> option Place).
Context (t : StraightTrack).

(** The number that a track is told about the signal ahead: 0 is stop. *)
Definition aspect (i : CtrlTrackInterface) (e : Env) : Z :=
  2 * Z.b2z (evar e (in_next_signal_2 i)) + Z.b2z (evar e (in_next_signal_1 i)).

Lemma aspect_ext i e e' :
  evar e (in_next_signal_1 i) = evar e' (in_next_signal_1 i) ->
  evar e (in_next_signal_2 i) = evar e' (in_next_signal_2 i) -> aspect i e = aspect i e'.
Proof. unfold aspect. by intros -> ->. Qed.

Definition signal_vars : list nat :=
  [ in_next_signal_1 (binding (side_a t)); in_next_signal_2 (binding (side_a t));
    in_next_signal_1 (binding (side_b t)); in_next_signal_2 (binding (side_b t));
    in_next_signal_1 (iface (side_a t)); in_next_signal_2 (iface (side_a t));
    in_next_signal_1 (iface (side_b t)); in_next_signal_2 (iface (side_b t));
    route_set_ab_ t ].

(** Decisions that the hypotheses settle. *)
Ltac decides :=
  repeat match goal with
  | |- context [decide ?P] =>
      first [rewrite (decide_True (P := P)) by congruence | rewrite (decide_False (P := P)) by congruence]
  end.

Lemma signal_state_aspects e :
  NoDup signal_vars ->
  let e' := exec_rules (signal_state_rules t) e in
  aspect (binding (side_a t)) e' =
    (if evar e (route_set_ab_ t) then Z.min (aspect (iface (side_b t)) e + 1) 3 else 0) /\
  aspect (binding (side_b t)) e' = aspect (iface (side_a t)) e.
Proof.
  intros Hnd. cbn zeta. unfold signal_vars in Hnd. rewrite !NoDup_cons in Hnd.
  rewrite !not_elem_of_cons in Hnd. destruct_and! Hnd.
  unfold signal_state_rules, copy_signals_rules. rewrite !exec_rules_app.
  set (e1 := exec_rules (copy_rules (in_next_signal_2 _) _) _).
  assert (He : forall k, evar e1 k =
    if decide (k = in_next_signal_2 (binding (side_b t))) then evar e (in_next_signal_2 (iface (side_a t)))
    else if decide (k = in_next_signal_1 (binding (side_b t))) then evar e (in_next_signal_1 (iface (side_a t)))
    else evar e k).
  { intros k. unfold e1. rewrite !copy_rules_run. by rewrite (decide_False (P := in_next_signal_2 (iface _) = _)). }
  clearbody e1. unfold aspect.
  rewrite !aspect_rules_run by (done || by cbn [In]; intros [E|[E|[]]]).
  rewrite !He. decides. split; [|done]. by repeat destruct (evar _ _).
Qed.

(** A signal shows what is ahead: a run of the automata of a signal tells
    the track before it zero while no route is set through it, else one more
    than what it is told by the track behind it, but at most three; and it
    passes on unchanged what it is told in the other direction. *)
Theorem signal_shows_next code a e (s : AutomataRunner (V := V) (W := W)) :
  NoDup signal_vars -> (forall k, In k signal_vars -> is_Some (gid k)) ->
  runnable gid place (SetSignalState gid t) code a s ->
  represents gid place {[None := timer_bit_]} (reset_imports a (core s)) e ->
  exists s', run_automata code a s = Some (Done tt s') /\
    forall u e', represents gid place u (core s') e' ->
      aspect (binding (side_a t)) e' =
        (if evar e (route_set_ab_ t) then Z.min (aspect (iface (side_b t)) e + 1) 3 else 0) /\
      aspect (binding (side_b t)) e' = aspect (iface (side_a t)) e.
Proof.
  intros Hnd Hgid Hrun R. pose proof (run_args _ _ _ _ _ _ Hrun) as Hargs.
  destruct (body_runs gid place _ _ _ code a e s Hrun (builds_SetSignalState gid Hargs [] t) R)
    as (s' & u' & E & R'). exists s'. split; [done|]. intros u e' Re.
  assert (Hv : forall k, In k signal_vars -> evar e' k = evar (exec_rules (signal_state_rules t) e) k).
  { intros k Hk. eapply represents_var; [done..|]. apply (run_all _ _ _ _ _ _ Hrun); [tauto|auto]. }
  clear Re R R'. set (e2 := exec_rules _ e) in *.
  rewrite (aspect_ext (binding (side_a t)) e' e2), (aspect_ext (binding (side_b t)) e' e2)
    by (apply Hv; unfold signal_vars; cbn [In]; auto 12).
  exact (signal_state_aspects e Hnd).
Qed.

End SignalRuns.
