(* ===== verification/ControlPermits.v ===== *)
(** Permits of the flip-flop automata (control-logic.cc, [FlipFlopLogic]): trains
    that want to enter the same place are let through one at a time. *)

From S2P Require Import Prelude AutomataDefs Automata AutomataTermination AutomataOps AutomataSim AutomataBuild ControlRules ControlLogic ControlTurnouts ControlBuild ControlSafety.

#[export] Instance FlipFlopClient_eq_dec : EqDecision FlipFlopClient.
Proof. solve_decision. Defined.

(** ** Rules *)

Section Rules.
Context (gid : nat -> option GlobalVariableId) (Hargs : args_ok gid).

Definition client_rules (steal_request steal_granted : nat) (c : FlipFlopClient) : list Rule :=
  [ mkRule [GState StFree] [EState StLocked; set1 (next c)];
    mkRule [GState StLocked; test1 (next c); test1 (request c)] [EState StGranted; set1 (granted c)];
    mkRule [GState StGranted; test1 (next c); test1 (granted c); test0 (request c)]
      [EState StLocked; set0 (granted c)];
    mkRule [GState StGranted; test1 (next c); test1 (taken c)]
      [set0 (taken c); EState StGrantWait; ETimer kWaitTimeout];
    mkRule [GState StGrantWait; test1 (next c); GReg None false] [set0 (next c); EState StFree];
    mkRule [GState StLocked; test0 (next c); test1 (request c)] [set1 steal_request];
    mkRule [GState StGrantWait] [set0 steal_request; set0 steal_granted];
    mkRule [GState StLocked; test0 (next c); test1 (request c); test1 steal_granted]
      [set0 steal_request; set0 steal_granted; set1 (granted c); EState StStolen];
    mkRule [GState StStolen; test1 (granted c); test0 (request c)] [set0 (granted c); EState StLocked];
    mkRule [GState StStolen; test1 (taken c)] [set0 (taken c); ETimer kWaitTimeout; EState StStolenWait];
    mkRule [GState StLocked; test1 (next c); test0 (request c); test1 steal_request]
      [ETimer 2; EState StStealOnHold];
    mkRule [GState StStealOnHold; test1 (next c); test0 (request c); GReg None false]
      [EState StLocked; set1 steal_granted];
    mkRule [GState StStealOnHold; test1 (next c); test1 (request c)] [ETimer 0; EState StLocked];
    mkRule [GState StStolenWait; test1 (next c); GReg None false]
      [EState StLocked; set0 steal_request; set0 steal_granted] ].

Definition permit_rules (steal_request steal_granted : nat) (clients : list FlipFlopClient) : list Rule :=
  mkRule [GState StInit] [EState StFree] :: (clients ≫= client_rules steal_request steal_granted).

Lemma builds_client G sr sg i j c :
  In (Some sr, i) G -> In (Some sg, j) G ->
  builds gid G (client_logic gid i j c) (client_rules sr sg c) G.
Proof.
  intros Hi Hj. unfold client_logic, client_rules.
  apply builds_import; [done|]. intros r. apply builds_import; [done|]. intros g.
  apply builds_import; [done|]. intros t. apply builds_import; [done|]. intros n.
  set (G1 := _ :: _).
  assert (HG : forall v k, In (v, k) G -> In (v, k) G1) by (intros v k H; do 4 right; exact H).
  assert (Hi1 : In (Some sr, i) G1) by auto. assert (Hj1 : In (Some sg, j) G1) by auto.
  assert (Hr1 : In (Some (request c), r) G1) by (unfold G1; cbn; auto).
  assert (Hg1 : In (Some (granted c), g) G1) by (unfold G1; cbn; auto).
  assert (Ht1 : In (Some (taken c), t) G1) by (unfold G1; cbn; auto).
  assert (Hn1 : In (Some (next c), n) G1) by (unfold G1; cbn; auto).
  clearbody G1. do 13 (apply builds_def_then; [done|unfold StFree, StLocked, StGranted, StGrantWait,
    StStolen, StStolenWait, StStealOnHold, kWaitTimeout; solve [calls]|]).
  apply builds_def_end; [done|unfold StStolenWait, StLocked; solve [calls]|done].
Qed.

Lemma builds_hassert_then G b k rs G' :
  builds gid G k rs G' -> builds gid G (hassert b;; k) rs G'.
Proof.
  intros H. destruct b; [by apply (builds_ext gid _ _ k)|]. intros a out a' _ _ _. done.
Qed.

Lemma builds_permits G sr sg clients :
  builds gid G (FlipFlopLogic gid sr sg clients) (permit_rules sr sg clients) [].
Proof.
  unfold FlipFlopLogic, permit_rules. apply builds_hassert_then.
  apply builds_def_then; [done|unfold StFree; solve [calls]|].
  apply builds_import; [done|]. intros i. apply builds_import; [done|]. intros j. set (G1 := _ :: _).
  apply (builds_weaken gid G1 G1 _ _ G1); [|done|done].
  apply builds_for_each. intros c. apply builds_client; unfold G1; cbn; auto.
Qed.

Lemma builds_flipflop sr sg clients :
  builds gid [] (RunAll (FlipFlopAutomata gid sr sg clients)) (permit_rules sr sg clients ++ [init_rule]) [].
Proof.
  unfold FlipFlopAutomata, new_AutomataPlugin. cbn [AddAutomataPlugin RunAll].
  change (100 <? 10000) with true. cbn iota. cbn [RunAll].
  apply (builds_bind gid [] _ _ []); [apply builds_permits|].
  rewrite <- (app_nil_r [init_rule]). apply (builds_bind gid [] _ _ []); [by apply builds_HandleInitState|].
  apply builds_ret.
Qed.

End Rules.

(** ** One permit at a time *)

Section Permits.
Context (sr sg : nat) (clients : list FlipFlopClient).

Definition client_vars (c : FlipFlopClient) : list nat := [request c; granted c; taken c; next c].

(** All variables are different. *)
Record permits_wired : Prop := {
  pw_apart c c' k : In c clients -> In c' clients -> In k (client_vars c) -> In k (client_vars c') -> c = c';
  pw_own c : In c clients -> NoDup (client_vars c);
  pw_steal c : In c clients -> ~ In sr (client_vars c) /\ ~ In sg (client_vars c)
}.

Context (Hw : permits_wired).

(** A client has a permit from when it is granted until the flip-flop sees that
    it was taken. *)
Definition has_permit (c : FlipFlopClient) (e : Env) : bool := evar e (granted c) || evar e (taken c).

Definition permit_states : list Z :=
  [StFree; StLocked; StGranted; StGrantWait; StStolen; StStolenWait; StStealOnHold].

Record permits_ok (e : Env) : Prop := {
  po_state : In (estate e) permit_states;
  po_free c : In c clients -> evar e (next c) = true -> estate e <> StFree;
  po_next c c' : In c clients -> In c' clients ->
    evar e (next c) = true -> evar e (next c') = true -> c = c';
  po_permit c : In c clients -> has_permit c e = true -> estate e = StGranted \/ estate e = StStolen;
  po_one c c' : In c clients -> In c' clients -> has_permit c e = true -> has_permit c' e = true -> c = c';
  po_both c : In c clients -> evar e (granted c) = true -> evar e (taken c) = false
}.

(** Only the variables of one client were written. *)
Definition writes_only (c : FlipFlopClient) (xs : list Effect) : Prop :=
  Forall (fun x => match x with EReg k _ => In k (client_vars c) \/ k = sr \/ k = sg | _ => True end) xs.

Lemma others_unchanged c c' xs e k :
  In c clients -> In c' clients -> c <> c' -> writes_only c xs -> In k (client_vars c') ->
  evar (fold_left apply_effect xs e) k = evar e k.
Proof.
  intros Hc Hc' Hne Hx Hk. rewrite evar_effects. apply written_other. apply (Forall_impl _ _ _ Hx).
  intros [j v|s|t]; [|done..]. intros Hj ->. destruct (pw_steal Hw c' Hc') as [H1 H2].
  destruct Hj as [Hj|[->| ->]]; [|done..]. apply Hne. by apply (pw_apart Hw c c' j).
Qed.

(** How a rule of a client changes what [permits_ok] is about: [n], [g] and [t]
    are the new values of its variables. *)
Lemma permits_change c xs e n g t :
  In c clients -> writes_only c xs -> permits_ok e ->
  let e' := fold_left apply_effect xs e in
  evar e' (next c) = n -> evar e' (granted c) = g -> evar e' (taken c) = t ->
  In (estate e') permit_states ->
  (n = true -> estate e' <> StFree) ->
  (estate e' = StFree -> estate e = StFree \/ evar e (next c) = true) ->
  (n = true -> evar e (next c) = true \/ estate e = StFree) ->
  (g || t = true -> estate e' = StGranted \/ estate e' = StStolen) ->
  (estate e = StGranted \/ estate e = StStolen ->
   estate e' = estate e \/ has_permit c e = true) ->
  (g || t = true -> has_permit c e = true \/ ~ (estate e = StGranted \/ estate e = StStolen)) ->
  (g = true -> t = false) ->
  permits_ok e'.
Proof.
  intros Hc Hx P e' En Eg Et Hs Hn Hfree Hnn Hp Hpp Hone Hb. destruct P as [P1 P2 P3 P4 P5 P6].
  assert (Ho : forall c' k, In c' clients -> c <> c' -> In k (client_vars c') -> evar e' k = evar e k).
  { intros c' k Hc' Hne Hk. by apply (others_unchanged c c'). }
  assert (Hon : forall c', In c' clients -> c <> c' -> evar e' (next c') = evar e (next c')).
  { intros c' Hc' Hne. apply (Ho c'); [done|done|]. cbn; auto. }
  assert (Hop : forall c', In c' clients -> c <> c' -> has_permit c' e' = has_permit c' e).
  { intros c' Hc' Hne. unfold has_permit. rewrite !(Ho c') by (try done; cbn; auto). done. }
  assert (Ep : has_permit c e' = g || t) by (unfold has_permit; by rewrite Eg, Et).
  assert (Hnc : forall c', In c' clients -> c <> c' -> evar e' (next c') = true -> n = true -> False).
  { intros c' Hc' Hne H1 H2. rewrite Hon in H1 by done.
    destruct (Hnn H2) as [H3|H3]; [by apply Hne, (P3 c c')|by apply (P2 c')]. }
  assert (Hpc : forall c', In c' clients -> c <> c' -> has_permit c' e' = true -> g || t = true -> False).
  { intros c' Hc' Hne H1 H2. rewrite Hop in H1 by done.
    destruct (Hone H2) as [H3|H3]; [by apply Hne, (P5 c c')|by apply H3, (P4 c')]. }
  split; [done|..].
  - intros c' Hc' H. destruct (decide (c = c')) as [<-|Hne]; [apply Hn; congruence|].
    intros Hf. rewrite Hon in H by done. destruct (Hfree Hf) as [H1|H1]; [by apply (P2 c')|].
    by apply Hne, (P3 c c').
  - intros c1 c2 H1 H2 E1 E2. destruct (decide (c = c1)) as [<-|N1], (decide (c = c2)) as [<-|N2]; try done.
    + destruct (Hnc c2 H2 N2 E2); congruence.
    + destruct (Hnc c1 H1 N1 E1); congruence.
    + rewrite Hon in E1, E2 by done. by apply P3.
  - intros c' Hc' H. destruct (decide (c = c')) as [<-|Hne]; [apply Hp; congruence|].
    pose proof H as H'. rewrite Hop in H' by done. destruct (Hpp (P4 c' Hc' H')) as [->|H1]; [by apply (P4 c')|].
    by destruct Hne; apply (P5 c c').
  - intros c1 c2 H1 H2 E1 E2. destruct (decide (c = c1)) as [<-|N1], (decide (c = c2)) as [<-|N2]; try done.
    + destruct (Hpc c2 H2 N2 E2); congruence.
    + destruct (Hpc c1 H1 N1 E1); congruence.
    + rewrite Hop in E1, E2 by done. by apply P5.
  - intros c' Hc' H. destruct (decide (c = c')) as [<-|Hne]; [rewrite Et; apply Hb; congruence|].
    rewrite (Ho c') in H |- * by (try done; cbn; auto). by apply P6.
Qed.

(** What a guard of a rule says. *)
Ltac guard_facts :=
  repeat match goal with
  | H : enabled (mkRule (_ :: _) _) _ = true |- _ => apply enabled_cons in H as [? H]
  | H : holds _ (GState _) = true |- _ => apply Z.eqb_eq in H
  | H : holds _ (test0 _) = true |- _ => apply holds_test0 in H
  | H : holds _ (test1 _) = true |- _ => apply holds_test1 in H
  end.

Lemma client_rule_ok c r e :
  In c clients -> In r (client_rules sr sg c) -> permits_ok e -> permits_ok (exec_rule r e).
Proof.
  intros Hc Hr P. apply exec_rule_cases; [done|]. intros He.
  pose proof (pw_own Hw c Hc) as Hnd. pose proof (pw_steal Hw c Hc) as [Hsr Hsg].
  unfold client_vars in Hnd, Hsr, Hsg. rewrite <- !list_elem_of_In, !not_elem_of_cons in Hsr, Hsg.
  rewrite !NoDup_cons, !not_elem_of_cons in Hnd. destruct_and!.
  assert (Hp : evar e (granted c) = true \/ evar e (taken c) = true -> estate e = StGranted \/ estate e = StStolen).
  { intros H'. apply (po_permit e P c Hc). unfold has_permit. by destruct H' as [->| ->]; rewrite ?orb_true_r. }
  pose proof (po_both e P c Hc) as Hb. pose proof (po_free e P c Hc) as Hf.
  unfold client_rules in Hr. cbn [In] in Hr.
  repeat destruct Hr as [<-|Hr]; try done; guard_facts; cbn [effects];
    (eapply (permits_change c _ e _ _ _ Hc); [|done|reflexivity|reflexivity|reflexivity|..]);
    unfold has_permit; rewrite ?evar_effects, ?estate_effects; unfold set0, set1;
    cbn [written state_after]; rewrite ?decide_True by done; rewrite ?decide_False by congruence.
  all: try (unfold writes_only; repeat first [apply Forall_nil_2 | apply Forall_cons_2]; cbn; tauto).
  all: try apply (po_state e P).
  all: unfold StFree, StLocked, StGranted, StGrantWait, StStolen, StStolenWait, StStealOnHold in *.
  all: repeat case_decide; try done.
  all: repeat match goal with H : _ <> _ |- _ => clear H | H : _ ∉ _ |- _ => clear H end; clear P Hc.
  all: destruct (evar e (granted c)), (evar e (taken c)), (evar e (next c)); cbn in *; try done.
  all: intuition congruence.
Qed.

(** Before the first run, no permit is out and nobody is in line. *)
Definition permits_start (e : Env) : Prop :=
  estate e = StInit /\
  forall c, In c clients -> evar e (next c) = false /\ evar e (granted c) = false /\ evar e (taken c) = false.

(** Only the bits of the clients matter. *)
Lemma permits_ok_ext e e' :
  permits_ok e -> estate e' = estate e ->
  (forall c, In c clients -> evar e' (next c) = evar e (next c) /\
     evar e' (granted c) = evar e (granted c) /\ evar e' (taken c) = evar e (taken c)) ->
  permits_ok e'.
Proof.
  intros [P1 P2 P3 P4 P5 P6] Hs Hv.
  assert (Hp : forall c, In c clients -> has_permit c e' = has_permit c e).
  { intros c Hc. unfold has_permit. by destruct (Hv c Hc) as (_ & -> & ->). }
  split; rewrite ?Hs; try done.
  - intros c Hc. destruct (Hv c Hc) as (-> & _). by apply P2.
  - intros c c' Hc Hc'. destruct (Hv c Hc) as (-> & _), (Hv c' Hc') as (-> & _). by apply P3.
  - intros c Hc. rewrite Hp by done. by apply P4.
  - intros c c' Hc Hc'. rewrite !Hp by done. by apply P5.
  - intros c Hc. destruct (Hv c Hc) as (_ & -> & ->). by apply P6.
Qed.

Lemma client_rules_ok rs e :
  Forall (fun r => exists c, In c clients /\ In r (client_rules sr sg c)) rs ->
  permits_ok e -> permits_ok (exec_rules rs e).
Proof.
  intros Hr. revert e. induction Hr as [|r rs (c & Hc & Hrc) _ IH]; intros e P; [done|].
  rewrite exec_rules_cons. by apply IH, (client_rule_ok c).
Qed.

Lemma flipflop_run_ok e :
  permits_ok e \/ permits_start e -> permits_ok (exec_rules (permit_rules sr sg clients ++ [init_rule]) e).
Proof.
  intros H. rewrite exec_rules_app. unfold permit_rules. rewrite exec_rules_cons.
  assert (P1 : permits_ok (exec_rule (mkRule [GState StInit] [EState StFree]) e)).
  { destruct H as [P|[Hs Hv]].
    - apply exec_rule_cases; [done|]. intros [He%Z.eqb_eq _]%enabled_cons.
      pose proof (po_state e P) as Hp. rewrite He in Hp. cbn in Hp. unfold StInit in Hp.
      repeat destruct Hp as [Hp|Hp]; try done.
    - unfold exec_rule, enabled. cbn. rewrite Hs. cbn.
      assert (Hp : forall c, In c clients -> has_permit c (mkEnv (evar e) StFree (etimer e) (eid e)) = false).
      { intros c Hc. unfold has_permit. cbn. by destruct (Hv c Hc) as (_ & -> & ->). }
      split; cbn; auto.
      + intros c Hc. by destruct (Hv c Hc) as (-> & _).
      + intros c c' Hc _. by destruct (Hv c Hc) as (-> & _).
      + intros c Hc. by rewrite Hp.
      + intros c c' Hc _. by rewrite Hp.
      + intros c Hc. by destruct (Hv c Hc) as (_ & -> & _). }
  assert (P2 : permits_ok (exec_rules (clients ≫= client_rules sr sg)
    (exec_rule (mkRule [GState StInit] [EState StFree]) e))).
  { apply client_rules_ok; [|done]. apply List.Forall_forall. intros r Hr.
    apply list_elem_of_In, list_elem_of_bind in Hr as (c & Hr & Hc). exists c. by rewrite <- !list_elem_of_In. }
  set (e2 := exec_rules (clients ≫= _) _) in *.
  change (permits_ok (exec_rule init_rule e2)). apply exec_rule_cases; [done|].
  intros [He%Z.eqb_eq _]%enabled_cons. pose proof (po_state _ P2) as Hp.
  rewrite He in Hp. cbn in Hp. unfold StInit in Hp.
  repeat destruct Hp as [Hp|Hp]; try done.
Qed.

End Permits.

Section PermitRuns.
Context {V W : Type} `{VV : !Velocity V} `{NN : !Node V W} `{QN : !QuietNode V W}.
Context (gid : nat -> option GlobalVariableId) (place : nat -> option Place).
Context (sr sg : nat) (clients : list FlipFlopClient) (code : list Z) (a : nat).

Abbreviation flipflop_body := (RunAll (FlipFlopAutomata gid sr sg clients)).

(** The automata runs, or the layout changes: clients ask and withdraw their
    requests, and a client that was granted a permit takes it. *)
Inductive permit_step : Env -> Env -> Prop :=
| permit_pass e e' : pass (V := V) (W := W) gid place flipflop_body code a e e' -> permit_step e e'
| permit_layout e e' :
    estate e' = estate e ->
    (forall c, In c clients ->
       evar e' (next c) = evar e (next c) /\
       (evar e' (granted c) = evar e (granted c) /\ evar e' (taken c) = evar e (taken c) \/
        evar e (granted c) = true /\ evar e' (granted c) = false /\ evar e' (taken c) = true)) ->
    permit_step e e'.

Definition permits_inv (e : Env) : Prop := permits_ok clients e \/ permits_start clients e.

Lemma layout_permits e e' :
  estate e' = estate e ->
  (forall c, In c clients ->
     evar e' (next c) = evar e (next c) /\
     (evar e' (granted c) = evar e (granted c) /\ evar e' (taken c) = evar e (taken c) \/
      evar e (granted c) = true /\ evar e' (granted c) = false /\ evar e' (taken c) = true)) ->
  permits_inv e -> permits_inv e'.
Proof.
  intros Hs Hv [[P1 P2 P3 P4 P5 P6]|[Hi Ho]].
  - left. assert (Hp : forall c, In c clients -> has_permit c e' = true -> has_permit c e = true).
    { intros c Hc. unfold has_permit. by destruct (Hv c Hc) as (_ & [[-> ->]|(-> & _ & _)]). }
    split; rewrite ?Hs; try done.
    + intros c Hc. destruct (Hv c Hc) as (-> & _). by apply P2.
    + intros c c' Hc Hc'. destruct (Hv c Hc) as (-> & _), (Hv c' Hc') as (-> & _). by apply P3.
    + intros c Hc H. by apply (P4 c Hc), Hp.
    + intros c c' Hc Hc' H H'. by apply P5; try done; apply Hp.
    + intros c Hc. destruct (Hv c Hc) as (_ & [[-> ->]|(_ & -> & _)]); [by apply P6|done].
  - right. split; [congruence|]. intros c Hc. destruct (Ho c Hc) as (H1 & H2 & H3).
    destruct (Hv c Hc) as (-> & [[-> ->]|(H4 & _)]); [done|congruence].
Qed.

Lemma permit_step_inv e e' :
  args_ok gid -> permits_wired sr sg clients ->
  (forall c k, In c clients -> In k (client_vars c) -> is_Some (gid k)) ->
  permit_step e e' -> permits_inv e -> permits_inv e'.
Proof.
  intros Hargs Hw Hg [e1 e2 Hp|e1 e2 Hs Hv] H; [|by apply (layout_permits e1)].
  destruct (pass_rules _ _ _ _ _ _ _ _ _ (builds_flipflop gid Hargs sr sg clients) Hp) as [Hst Hv].
  left. eapply permits_ok_ext; [by apply (flipflop_run_ok sr sg clients Hw e1)|done|].
  intros c Hc. rewrite !Hv by (apply (Hg c); [done|cbn; auto]). done.
Qed.

(** C10: Permits are exclusive: in a flip-flop automata that was started with no
    permit out, whatever its clients request and withdraw between its runs, at
    most one client has a permit (granted, or taken and not yet noticed), and
    only while the automata is in the state of a granted or a stolen permit;
    at most one client is in line; and each run comes to its end. *)
Theorem permits_are_exclusive e0 e :
  args_ok gid -> permits_wired sr sg clients ->
  (forall c k, In c clients -> In k (client_vars c) -> is_Some (gid k)) ->
  permits_start clients e0 -> rtc permit_step e0 e ->
  (forall c c', In c clients -> In c' clients -> has_permit c e = true -> has_permit c' e = true -> c = c') /\
  (forall c, In c clients -> has_permit c e = true -> estate e = StGranted \/ estate e = StStolen) /\
  (forall c c', In c clients -> In c' clients -> evar e (next c) = true -> evar e (next c') = true -> c = c') /\
  forall s : AutomataRunner (V := V) (W := W), runnable gid place flipflop_body code a s ->
    represents gid place {[None := timer_bit_]} (reset_imports a (core s)) e ->
    exists s' u e', run_automata code a s = Some (Done tt s') /\ represents gid place u (core s') e'.
Proof.
  intros Hargs Hw Hg H0 Hsteps.
  assert (H : permits_inv e).
  { assert (Hi : permits_inv e0) by by right. clear H0.
    induction Hsteps as [|e1 e2 e3 Hstep _ IH]; [done|]. by eapply IH, permit_step_inv. }
  split; [|split; [|split]].
  - intros c c' Hc Hc' E E'. destruct H as [P|[_ Ho]]; [by apply (po_one _ _ P)|].
    unfold has_permit in E. by destruct (Ho c Hc) as (_ & H1 & H2); rewrite H1, H2 in E.
  - intros c Hc E. destruct H as [P|[_ Ho]]; [by apply (po_permit _ _ P c)|].
    unfold has_permit in E. by destruct (Ho c Hc) as (_ & H1 & H2); rewrite H1, H2 in E.
  - intros c c' Hc Hc' E E'. destruct H as [P|[_ Ho]]; [by apply (po_next _ _ P)|].
    by destruct (Ho c Hc) as (H1 & _); rewrite H1 in E.
  - intros s Hrun R.
    destruct (body_runs gid place _ _ _ code a e s Hrun (builds_flipflop gid Hargs sr sg clients) R)
      as (s' & u & E & R').
    by exists s', u, (exec_rules (permit_rules sr sg clients ++ [init_rule]) e).
Qed.

End PermitRuns.
