(* ===== verification/ScheduleRules.v ===== *)
(** Automata whose local variables are bound while they run: guarded commands as
    in [ControlRules], in which a guard or an effect may also name a reserved
    local variable, and an effect may bind one to a variable of the layout.  A
    reserved local variable that was not bound cannot be used: the interpreter
    dies on it, and the commands have no result. *)

From S2P Require Import Prelude AutomataDefs Automata AutomataTermination AutomataOps AutomataSim AutomataBuild AutomataBoard AutomataRun ControlRules.

(** ** Rules *)

(** A variable of the layout, or the reserved local variable with an id. *)
Inductive Term :=
| Var (k : nat)
| Alias (r : Z).

(** [XSent] sends the speed to the train, which always succeeds; [XTrain] is for
    what only concerns the train, the event id and the speed to be sent. *)
Inductive XGuard :=
| XReg (t : Term) (b : bool)
| XTimer (b : bool)
| XState (s : Z)
| XSent.

Inductive XEffect :=
| XWrite (t : Term) (b : bool)
| XGoto (s : Z)
| XWait (t : Z)
| XBind (r : Z) (k : nat)
| XTrain.

Record XRule := mkXRule {
  xguards : list XGuard;
  xeffects : list XEffect
}.

(** The layout, and what the reserved local variables are bound to. *)
Record XEnv := mkXEnv {
  layout : Env;
  bound : Z -> option nat
}.

Definition variable (x : XEnv) (t : Term) : option nat :=
  match t with
  | Var k => Some k
  | Alias r => bound x r
  end.

Definition xholds (x : XEnv) (g : XGuard) : option bool :=
  match g with
  | XReg t b => k ← variable x t; Some (Bool.eqb (evar (layout x) k) b)
  | XTimer b => Some (holds (layout x) (GReg None b))
  | XState s => Some (estate (layout x) =? s)
  | XSent => Some true
  end.

Fixpoint xenabled (gs : list XGuard) (x : XEnv) : option bool :=
  match gs with
  | [] => Some true
  | g :: gs => b ← xholds x g; if (b : bool) then xenabled gs x else Some false
  end.

Definition bind_alias (r : Z) (k : nat) (x : XEnv) : XEnv :=
  mkXEnv (layout x) (fun r' => if r' =? r then Some k else bound x r').

Definition on_layout (f : Env -> Env) (x : XEnv) : XEnv := mkXEnv (f (layout x)) (bound x).

Definition xapply (x : XEnv) (e : XEffect) : option XEnv :=
  match e with
  | XWrite t b => k ← variable x t; Some (on_layout (put_var k b) x)
  | XGoto s => Some (on_layout (fun e => apply_effect e (EState s)) x)
  | XWait t => Some (on_layout (fun e => apply_effect e (ETimer t)) x)
  | XBind r k => Some (bind_alias r k x)
  | XTrain => Some x
  end.

Fixpoint xapplies (es : list XEffect) (x : XEnv) : option XEnv :=
  match es with
  | [] => Some x
  | e :: es => x ← xapply x e; xapplies es x
  end.

Definition xexec_rule (r : XRule) (x : XEnv) : option XEnv :=
  b ← xenabled (xguards r) x; if (b : bool) then xapplies (xeffects r) x else Some x.

Fixpoint xexec_rules (l : list XRule) (x : XEnv) : option XEnv :=
  match l with
  | [] => Some x
  | r :: l => x ← xexec_rule r x; xexec_rules l x
  end.

Lemma xexec_rules_app l1 l2 x : xexec_rules (l1 ++ l2) x = xexec_rules l1 x ≫= xexec_rules l2.
Proof. revert x. induction l1 as [|r l1 IH]; intros x; cbn; [done|]. destruct (xexec_rule r x); cbn; auto. Qed.

(** What a body writes. *)
Inductive XItem :=
| XImported (k : nat)
| XCleared
| XRuled (r : XRule).

Definition xrules_of (l : list XItem) : list XRule :=
  omap (fun i => match i with XRuled r => Some r | _ => None end) l.

Lemma xrules_of_app l1 l2 : xrules_of (l1 ++ l2) = xrules_of l1 ++ xrules_of l2.
Proof. apply omap_app. Qed.

(** A train that is told its speed does not write to the memory of the node. *)
Class QuietTrain (V W : Type) `{NN : !Node V W} : Prop :=
  speed_quiet t v m w : fst (bus (SpeedSet t v) m w) = m.

(** ** Rules on the bits of the runner *)

(** [R] are the reserved ids; [speed] is the variable of a byte that an automata
    may import to load a speed from it. *)
Section Encoding.
Context (gid : nat -> option GlobalVariableId) (R : gset Z) (speed : option nat).

Inductive term_encoded (u : Locals) : Term -> Z -> Prop :=
| encoded_var k i : speed <> Some k -> u !! Some k = Some i -> term_encoded u (Var k) i
| encoded_alias r : r ∈ R -> term_encoded u (Alias r) r.

Inductive xguard_encoded (u : Locals) : XGuard -> Condition -> Prop :=
| xencoded_reg t b i : term_encoded u t i -> xguard_encoded u (XReg t b) (TestReg i b)
| xencoded_timer b i : u !! None = Some i -> xguard_encoded u (XTimer b) (TestReg i b)
| xencoded_state s : xguard_encoded u (XState s) (TestState s)
| xencoded_sent : xguard_encoded u XSent CommandSpeed.

Inductive xeffect_encoded (u : Locals) : XEffect -> Action -> Prop :=
| xencoded_write t b i : term_encoded u t i -> xeffect_encoded u (XWrite t b) (WriteReg i b)
| xencoded_goto s : xeffect_encoded u (XGoto s) (ChangeState s)
| xencoded_wait t : xeffect_encoded u (XWait t) (ChangeTimer t)
| xencoded_bind r k g :
    r ∈ R -> speed <> Some k -> gid k = Some g ->
    xeffect_encoded u (XBind r k) (Import r (gid_arg g) (gid_id g mod 2 ^ 16))
| xencoded_id id : xeffect_encoded u XTrain (LoadEvent 0 id)
| xencoded_load v : xeffect_encoded u XTrain (LoadSpeed v)
| xencoded_reverse : xeffect_encoded u XTrain SpeedReverse
| xencoded_value k i : speed = Some k -> u !! Some k = Some i -> xeffect_encoded u XTrain (GetValueToSpeed i 0).

Record xrule_encoded (u : Locals) (r : XRule) (o : Operation) : Prop := {
  xe_guards : Forall2 (xguard_encoded u) (xguards r) (conditions o);
  xe_effects : Forall2 (xeffect_encoded u) (xeffects r) (actions o)
}.

Inductive xitems_encoded : Locals -> list XItem -> list Operation -> Locals -> Prop :=
| xencoded_nil u : xitems_encoded u [] [] u
| xencoded_known u k i l ops u' :
    u !! Some k = Some i -> xitems_encoded u l ops u' -> xitems_encoded u (XImported k :: l) ops u'
| xencoded_new u k i g l ops u' :
    u !! Some k = None -> gid k = Some g -> 0 <= i < MAX_IMPORT_VAR -> (forall v, u !! v <> Some i) ->
    i ∉ R -> xitems_encoded (<[Some k := i]> u) l ops u' ->
    xitems_encoded u (XImported k :: l) (import_op i g :: ops) u'
| xencoded_clear u l ops u' :
    u !! None = Some timer_bit_ -> xitems_encoded {[None := timer_bit_]} l ops u' ->
    xitems_encoded u (XCleared :: l) ops u'
| xencoded_rule u r o l ops u' :
    xrule_encoded u r o -> xitems_encoded u l ops u' ->
    xitems_encoded u (XRuled r :: l) (o :: ops) u'.

Lemma xitems_encoded_app u l1 ops1 u1 l2 ops2 u2 :
  xitems_encoded u l1 ops1 u1 -> xitems_encoded u1 l2 ops2 u2 ->
  xitems_encoded u (l1 ++ l2) (ops1 ++ ops2) u2.
Proof.
  induction 1; intros Hl2; [done|..]; cbn.
  - eapply xencoded_known; eauto.
  - eapply xencoded_new; eauto.
  - eapply xencoded_clear; eauto.
  - eapply xencoded_rule; eauto.
Qed.

End Encoding.

Section Simulation.
Context {V W : Type} `{VV : !Velocity V} `{NN : !Node V W} `{QN : !QuietNode V W} `{QT : !QuietTrain V W}.

Abbreviation Core := (Core (V := V) (W := W)).
Implicit Types (c : Core).

Context (gid : nat -> option GlobalVariableId) (place : nat -> option Place).
Context (R : gset Z) (speed : option nat).
Context (WP : well_placed gid place) (Hall : all_placed gid place (fun k => speed = Some k)).
Context (HR : forall r, r ∈ R -> 1 <= r < MAX_IMPORT_VAR).

(** The variables that stand for single bits. *)
Definition hide (u : Locals) : Locals :=
  match speed with
  | Some k => delete (Some k) u
  | None => u
  end.

(** A byte variable is at an address. *)
Definition byte_at (c : Core) (l : nat) : Prop :=
  exists base size x data, bits c !! l = Some (EventByteBlockConsumer base size) /\
    storage (memory_ c) !! l = Some (x :: data).

Record xrepresents (u : Locals) (c : Core) (x : XEnv) : Prop := {
  xrep_layout : represents gid place (hide u) c (layout x);
  xrep_reserved r v : r ∈ R -> u !! v <> Some r;
  xrep_bound r : r ∈ R ->
    match bound x r with
    | Some k => exists p, place k = Some p /\ imported_at c r p
    | None => znth (imported_bits_ c) r = Some None
    end;
  xrep_speed k i : speed = Some k -> u !! Some k = Some i ->
    0 <= i < MAX_IMPORT_VAR /\ exists l, znth (imported_bits_ c) i = Some (Some (DeclaredBit l)) /\ byte_at c l;
  xrep_byte k g : speed = Some k -> gid k = Some g ->
    exists l, declared_bits_ c !! (gid_id g mod 2 ^ 16) = Some l /\ byte_at c l;
  xrep_eventids : zlen (aut_eventids_ c) = 2
}.

Lemma hide_lookup u v : (forall k, v = Some k -> speed <> Some k) -> hide u !! v = u !! v.
Proof.
  intros H. unfold hide. destruct speed as [k|]; [|done]. rewrite lookup_delete_ne; [done|].
  intros <-. by apply (H k).
Qed.

Lemma hide_Some u v i : hide u !! v = Some i -> u !! v = Some i.
Proof. unfold hide. destruct speed as [k|]; [|done]. by intros [_ H]%lookup_delete_Some. Qed.

Lemma byte_at_keeps c c' l : keeps_locals c c' -> byte_at c l -> byte_at c' l.
Proof.
  intros K (base & size & x & data & Hb & Hs). destruct (kl_bytes _ _ K l base size Hb) as [E1 E2].
  exists base, size, x, data. by rewrite E1, E2.
Qed.

(** Operations other than imports keep what the local variables stand for. *)
Lemma xrepresents_keeps u c c' x e' :
  xrepresents u c x -> keeps_locals c c' -> represents gid place (hide u) c' e' ->
  xrepresents u c' (mkXEnv e' (bound x)).
Proof.
  intros [Hl Hr Hb Hs Hd He] K R'. split; cbn; try done.
  - intros r H. specialize (Hb r H). unfold imported_at in *. by rewrite (kl_bits _ _ K), (kl_args _ _ K).
  - intros k i Hk Hi. destruct (Hs k i Hk Hi) as (Hi' & l & Hl' & Hby). split; [done|]. exists l.
    rewrite (kl_bits _ _ K). by split; [|eapply byte_at_keeps].
  - intros k g Hk Hg. destruct (Hd k g Hk Hg) as (l & Hl' & Hby). exists l.
    rewrite (kl_declared _ _ K). by split; [|eapply byte_at_keeps].
  - by rewrite (kl_eventids _ _ K).
Qed.

(** The local variable that a term stands for. *)
Lemma term_local u c x t i :
  xrepresents u c x -> term_encoded R speed u t i ->
  0 <= i < MAX_IMPORT_VAR /\
  match variable x t with
  | Some k => exists p, place k = Some p /\ imported_at c i p
  | None => znth (imported_bits_ c) i = Some None
  end.
Proof.
  intros X H. destruct H as [k i Hne Hi|r Hr]; cbn [variable].
  - rewrite <- (hide_lookup u (Some k)) in Hi by congruence.
    split; [by apply (rep_local _ _ _ _ _ (xrep_layout _ _ _ X) (Some k))|].
    by apply (rep_import _ _ _ _ _ (xrep_layout _ _ _ X)).
  - split; [specialize (HR r Hr); lia|by apply (xrep_bound _ _ _ X)].
Qed.

(** A local variable that was not imported is an error. *)
Lemma unbound_crashes {A} (k : BitPtr -> prog Core A) c i arg :
  znth (imported_bits_ c) i = Some None -> znth (imported_bit_args_ c) i = Some arg ->
  exists e, (arg ← imported_arg i; bit ← GetBit i; k bit) c = Crashed e.
Proof.
  intros Hn Ha. unfold imported_arg, GetBit, mbind, prog_bind, array_get. rewrite Ha. unfold mret at 1, prog_ret at 1.
  rewrite Hn. cbn. by eexists.
Qed.

Lemma has_arg u c e i : represents gid place u c e -> 0 <= i < MAX_IMPORT_VAR ->
  exists arg, znth (imported_bit_args_ c) i = Some arg.
Proof.
  intros Re Hi. destruct (znth_is_Some (imported_bit_args_ c) i) as [_ Hx].
  rewrite (rep_args _ _ _ _ _ Re) in Hx. destruct (Hx Hi) as [arg Ha]. by exists arg.
Qed.

Lemma eventid_done c (i : Z) : zlen (aut_eventids_ c) = 2 -> 0 <= i < 2 -> exists e, eventid i c = Done e c.
Proof.
  intros Hl Hi. destruct (znth_is_Some (aut_eventids_ c) i) as [_ Hx]. rewrite Hl in Hx.
  destruct (Hx Hi) as [e He]. exists e. unfold eventid, array_get. by rewrite He.
Qed.

(** The members that the train's operations change. *)
Lemma xrepresents_train u c c' x :
  xrepresents u c x -> represents gid place (hide u) c' (layout x) ->
  imported_bits_ c' = imported_bits_ c -> imported_bit_args_ c' = imported_bit_args_ c ->
  declared_bits_ c' = declared_bits_ c -> bits c' = bits c -> memory_ c' = memory_ c ->
  zlen (aut_eventids_ c') = 2 -> xrepresents u c' x.
Proof.
  intros [Hl Hr Hb Hs Hd He] R' E1 E2 E3 E4 E5 E6. split; try done; unfold imported_at, byte_at in *;
    rewrite ?E1, ?E2, ?E3, ?E4, ?E5; done.
Qed.

Lemma represents_train u c c' e :
  represents gid place u c e ->
  imported_bits_ c' = imported_bits_ c -> imported_bit_args_ c' = imported_bit_args_ c ->
  declared_bits_ c' = declared_bits_ c -> bits c' = bits c -> memory_ c' = memory_ c ->
  automatas c' = automatas c -> current_automata_ c' = current_automata_ c ->
  represents gid place u c' e.
Proof.
  intros Re E1 E2 E3 E4 E5 E6 E7. apply (represents_values gid place u c e); try done.
  intros k p Hk. pose proof (rep_value _ _ _ _ _ Re k p Hk) as H. destruct p; unfold holds_at in *; by rewrite ?E4, ?E5.
Qed.

Lemma xguard_runs u c x g d :
  xrepresents u c x -> xguard_encoded R speed u g d ->
  match xholds x g with
  | Some b => exists c', sem_condition d c = Done b c' /\ xrepresents u c' x
  | None => exists e, sem_condition d c = Crashed e
  end.
Proof.
  intros X H. pose proof (xrep_layout _ _ _ X) as Re. destruct H as [t b i Ht|b i Hi|s|]; cbn [xholds sem_condition].
  - destruct (term_local u c x t i X Ht) as [Hr Hl]. destruct (variable x t) as [k|]; cbn -[variable].
    + destruct Hl as (p & Hk & Hp). exists c. split; [|done].
      by rewrite (read_local_at (fun x => mret (Bool.eqb x b)) c i p (evar (layout x) k) Hp
                    (rep_value _ _ _ _ _ Re k p Hk) (rep_args _ _ _ _ _ Re) Hr).
    + destruct (has_arg _ _ _ i Re Hr) as [arg Ha].
      destruct (unbound_crashes (fun bit => x ← Read bit arg; mret (Bool.eqb x b)) c i arg Hl Ha) as [e He].
      exists e. unfold imported_arg, array_get in *. unfold mbind, prog_bind in *. by rewrite Ha in *.
  - exists c. split; [|done]. rewrite <- (hide_lookup u None) in Hi by done.
    exact (guard_runs gid place (hide u) c (layout x) (GReg None b) (TestReg i b) Re (encoded_reg _ None b i Hi)).
  - exists c. split; [|done].
    exact (guard_runs gid place (hide u) c (layout x) (GState s) (TestState s) Re (encoded_state _ s)).
  - unfold reading, set_train_speed. destruct (eventid_done c 0 (xrep_eventids _ _ _ X) ltac:(lia)) as [t Et].
    rewrite (bind_done _ _ _ _ _ Et). unfold send, modify_state, mbind, prog_bind.
    pose proof (speed_quiet t (aut_speed_ c) (memory_ c) (node_ c)) as Hq.
    destruct (bus _ _ _) as [m w]. cbn in Hq. subst m. eexists. split; [reflexivity|].
    apply (xrepresents_train u c); try done; [|apply X]. by apply (represents_train (hide u) c).
Qed.

Lemma xguards_run u c x gs ds :
  xrepresents u c x -> Forall2 (xguard_encoded R speed u) gs ds ->
  match xenabled gs x with
  | Some b => exists c', sem_conditions ds c = Done b c' /\ xrepresents u c' x
  | None => exists e, sem_conditions ds c = Crashed e
  end.
Proof.
  intros X H. revert c X. induction H as [|g d gs ds Hg _ IH]; intros c X; [by exists c|].
  cbn [xenabled sem_conditions]. pose proof (xguard_runs u c x g d X Hg) as H1.
  destruct (xholds x g) as [b|]; cbn.
  - destruct H1 as (c1 & E1 & X1). destruct b.
    + specialize (IH c1 X1). destruct (xenabled gs x) as [b|].
      * destruct IH as (c2 & E2 & X2). exists c2. split; [|done]. by rewrite (bind_done _ _ _ _ _ E1).
      * destruct IH as [e E2]. exists e. by rewrite (bind_done _ _ _ _ _ E1).
    + exists c1. split; [|done]. by rewrite (bind_done _ _ _ _ _ E1).
  - destruct H1 as [e E1]. exists e. unfold mbind, prog_bind. by rewrite E1.
Qed.

Lemma xbind_runs u c x r k g :
  xrepresents u c x -> r ∈ R -> speed <> Some k -> gid k = Some g ->
  exists c', sem_action (Import r (gid_arg g) (gid_id g mod 2 ^ 16)) c = Done tt c' /\
    xrepresents u c' (bind_alias r k x).
Proof.
  intros X Hr Hs Hg. pose proof (xrep_layout _ _ _ X) as Re. pose proof (HR r Hr) as Hrange.
  destruct (Hall k ltac:(done) ltac:(by eexists)) as [p Hk].
  pose proof (import_op_runs gid place (hide u) c (layout x) k r g p Re Hg Hk) as E.
  unfold import_op in E. rewrite sem_single in E. eexists. split; [exact E|].
  destruct X as [_ Hres Hb Hsp Hby He]. split; try done.
  - apply represents_import_at; [done|lia|]. intros v Hv%hide_Some. by apply (Hres r v).
  - intros r' Hr'. cbn [bind_alias bound]. destruct (Z.eqb_spec r' r) as [->|Hne].
    + exists p. split; [done|]. eapply imported_at_new; [done..|lia|apply Re|apply Re].
    + specialize (Hb r' Hr'). pose proof (HR r' Hr'). destruct (bound x r') as [k'|].
      * destruct Hb as (p' & Hk' & Hp'). exists p'. split; [done|]. apply imported_at_other; [lia..|congruence|done].
      * cbn. rewrite znth_zset_ne by (first [lia | congruence]). done.
  - intros k' i Hk' Hi. destruct (Hsp k' i Hk' Hi) as (Hi' & l & Hl & Hbl). split; [done|]. exists l.
    split; [|done]. cbn. rewrite znth_zset_ne; [done|lia|lia|]. intros ->. by apply (Hres i (Some k')).
Qed.

Lemma xeffect_runs u c x e a :
  xrepresents u c x -> xeffect_encoded gid R speed u e a ->
  match xapply x e with
  | Some x' => exists c', sem_action a c = Done tt c' /\ xrepresents u c' x'
  | None => exists k, sem_action a c = Crashed k
  end.
Proof.
  intros X H. pose proof (xrep_layout _ _ _ X) as Re.
  destruct H as [t b i Ht|s|t|r k g Hr Hk Hg|id|v| |k i Hk Hi]; cbn [xapply sem_action].
  - destruct (term_local u c x t i X Ht) as [Hr Hl]. destruct (variable x t) as [k|]; cbn -[variable].
    + destruct Hl as (p & Hk & Hp).
      destruct (write_runs gid place WP (hide u) c (layout x) k i p b Re Hk Hp Hr) as (c' & E & R' & K).
      exists c'. split; [done|]. by apply (xrepresents_keeps u c).
    + destruct (has_arg _ _ _ i Re Hr) as [arg Ha].
      destruct (unbound_crashes (fun bit => Write bit arg b) c i arg Hl Ha) as [e He].
      exists e. unfold write_var, imported_arg, array_get in *. unfold mbind, prog_bind in *. by rewrite Ha in *.
  - destruct (effect_runs gid place WP (hide u) c (layout x) (EState s) _ Re (encoded_goto _ s)) as (c' & E & R' & K).
    exists c'. split; [done|]. by apply (xrepresents_keeps u c).
  - destruct (effect_runs gid place WP (hide u) c (layout x) (ETimer t) _ Re (encoded_timer _ t)) as (c' & E & R' & K).
    exists c'. split; [done|]. by apply (xrepresents_keeps u c).
  - destruct (xbind_runs u c x r k g X Hr Hk Hg) as (c' & E & X'). by exists c'.
  - destruct (eventid_done c 0 (xrep_eventids _ _ _ X) ltac:(lia)) as [t Et].
    rewrite (bind_done _ _ _ _ _ Et). eexists. split; [reflexivity|].
    apply (xrepresents_train u c); try done; [by apply (represents_train (hide u) c)|].
    cbn. rewrite zlen_zset. apply X.
  - eexists. split; [reflexivity|]. apply (xrepresents_train u c); try done; [by apply (represents_train (hide u) c)|apply X].
  - eexists. split; [reflexivity|]. apply (xrepresents_train u c); try done; [by apply (represents_train (hide u) c)|apply X].
  - destruct (xrep_speed _ _ _ X k i Hk Hi) as (Hr & l & Hl & base & size & y & data & Hb & Hs).
    rewrite (reading_bit _ _ _ _ Hl). unfold bit_GetState, the_bit, the_storage, mbind, prog_bind, mret, prog_ret.
    rewrite Hb, Hs. cbn. eexists. split; [reflexivity|].
    apply (xrepresents_train u c); try done; [by apply (represents_train (hide u) c)|apply X].
Qed.

Lemma xeffects_run u c x es acts :
  xrepresents u c x -> Forall2 (xeffect_encoded gid R speed u) es acts ->
  match xapplies es x with
  | Some x' => exists c', sem_actions acts c = Done tt c' /\ xrepresents u c' x'
  | None => exists k, sem_actions acts c = Crashed k
  end.
Proof.
  intros X H. revert c x X. induction H as [|e a es acts He _ IH]; intros c x X; [by exists c|].
  cbn [xapplies sem_actions]. pose proof (xeffect_runs u c x e a X He) as H1.
  destruct (xapply x e) as [x1|]; cbn.
  - destruct H1 as (c1 & E1 & X1). specialize (IH c1 x1 X1). by rewrite (bind_done _ _ _ _ _ E1).
  - destruct H1 as [k E1]. exists k. unfold mbind, prog_bind. by rewrite E1.
Qed.

Lemma xrule_runs u c x r o :
  xrepresents u c x -> xrule_encoded gid R speed u r o ->
  match xexec_rule r x with
  | Some x' => exists c', sem_operation o c = Done tt c' /\ xrepresents u c' x'
  | None => exists k, sem_operation o c = Crashed k
  end.
Proof.
  intros X [Hg He]. unfold xexec_rule, sem_operation. pose proof (xguards_run u c x _ _ X Hg) as H1.
  destruct (xenabled (xguards r) x) as [b|]; cbn.
  - destruct H1 as (c1 & E1 & X1). rewrite (bind_done _ _ _ _ _ E1). destruct b; [|by exists c1].
    by apply xeffects_run.
  - destruct H1 as [k E1]. exists k. unfold mbind, prog_bind. by rewrite E1.
Qed.

Lemma ximport_runs u c x k i g :
  xrepresents u c x -> gid k = Some g -> 0 <= i < MAX_IMPORT_VAR -> (forall v, u !! v <> Some i) -> i ∉ R ->
  exists c', sem_operation (import_op i g) c = Done tt c' /\ xrepresents (<[Some k := i]> u) c' x.
Proof.
  intros X Hg Hi Hnew Hr. pose proof (xrep_layout _ _ _ X) as Re.
  assert (Hother : forall l, xrepresents u (import_at i (gid_arg g) l c) x).
  { intros l. destruct X as [_ Hres Hb Hsp Hby He]. split; try done.
    - apply represents_import_at; [done|lia|]. intros v Hv%hide_Some. by apply (Hnew v).
    - intros r H. specialize (Hb r H). pose proof (HR r H). assert (r <> i) by (by intros ->).
      destruct (bound x r) as [k'|].
      + destruct Hb as (p' & Hk' & Hp'). exists p'. split; [done|]. apply imported_at_other; [lia..|congruence|done].
      + cbn. rewrite znth_zset_ne by (first [lia | congruence]). done.
    - intros k' j Hk' Hj. destruct (Hsp k' j Hk' Hj) as (Hj' & l' & Hl & Hbl). split; [done|]. exists l'.
      split; [|done]. cbn. rewrite znth_zset_ne; [done|lia|lia|]. intros ->. by apply (Hnew (Some k')). }
  destruct (decide (speed = Some k)) as [Hs|Hs].
  - destruct (xrep_byte _ _ _ X k g Hs Hg) as (l & Hd & Hby). exists (import_at i (gid_arg g) l c). split.
    { unfold import_op. rewrite sem_single. cbn [sem_action]. unfold import_bit. by rewrite Hd. }
    destruct (Hother l) as [Hl' Hres Hb Hsp Hby' He]. split; try done.
    + unfold hide in *. rewrite Hs in *. by rewrite delete_insert_eq.
    + intros r v H [[<- ->]|[_ Hv]]%lookup_insert_Some; [done|by apply (Hres r v)].
    + intros k' j Hk' [[_ <-]|[Hne _]]%lookup_insert_Some.
      * split; [done|]. exists l. split; [|done]. cbn. rewrite zset_lookup; [done|]. rewrite (rep_bits _ _ _ _ _ Re). lia.
      * rewrite Hs in Hk'. injection Hk' as <-. done.
  - destruct (Hall k ltac:(done) ltac:(by eexists)) as [p Hk].
    exists (import_at i (gid_arg g) (place_address p) c).
    split; [by apply (import_op_runs gid place (hide u) c (layout x) k)|].
    destruct (Hother (place_address p)) as [Hl' Hres Hb Hsp Hby' He]. split; try done.
    + replace (hide (<[Some k := i]> u)) with (<[Some k := i]> (hide u)).
      * apply represents_insert with p; [done|done| |done].
        eapply imported_at_new; [done..|apply Re|apply Re].
      * unfold hide. destruct speed as [k'|]; [|done]. rewrite delete_insert_ne; [done|congruence].
    + intros r v H [[<- ->]|[_ Hv]]%lookup_insert_Some; [done|by apply (Hres r v)].
    + intros k' j Hk' [[[= <-] _]|[_ Hj]]%lookup_insert_Some; [done|by apply Hsp with k'].
Qed.

Lemma xrepresents_clear u c x :
  u !! None = Some timer_bit_ -> xrepresents u c x -> xrepresents {[None := timer_bit_]} c x.
Proof.
  intros Ht [Hl Hres Hb Hsp Hby He].
  assert (Eh : hide {[None := timer_bit_]} = {[None := timer_bit_]}).
  { unfold hide. destruct speed as [k|]; [|done]. apply delete_id. by rewrite lookup_singleton_ne. }
  split; try done.
  - rewrite Eh. apply (represents_weaken gid place (hide u)); [done|].
    apply map_singleton_subseteq_l. by rewrite hide_lookup.
  - intros r v H [_ <-]%lookup_singleton_Some. specialize (HR _ H). unfold timer_bit_ in HR. lia.
  - by intros k i _ [[=] _]%lookup_singleton_Some.
Qed.

Lemma xitems_run u c x l ops u' :
  xrepresents u c x -> xitems_encoded gid R speed u l ops u' ->
  match xexec_rules (xrules_of l) x with
  | Some x' => exists c', sem_program ops c = Done tt c' /\ xrepresents u' c' x'
  | None => exists k, sem_program ops c = Crashed k
  end.
Proof.
  intros X H. revert c x X.
  induction H as [u|u k i l ops u' Hk _ IH|u k i g l ops u' Hk Hg Hi Hnew Hr _ IH|u l ops u' Ht _ IH
    |u r o l ops u' Hr _ IH]; intros c x X.
  - by exists c.
  - by apply IH.
  - destruct (ximport_runs u c x k i g X Hg Hi Hnew Hr) as (c1 & E1 & X1). cbn [sem_program].
    rewrite (bind_done _ _ _ _ _ E1). by apply IH.
  - apply IH. by apply (xrepresents_clear u).
  - cbn [xrules_of omap list_omap xexec_rules sem_program]. pose proof (xrule_runs u c x r o X Hr) as H1.
    destruct (xexec_rule r x) as [x1|]; cbn.
    + destruct H1 as (c1 & E1 & X1). rewrite (bind_done _ _ _ _ _ E1). by apply IH.
    + destruct H1 as [k E1]. exists k. unfold mbind, prog_bind. by rewrite E1.
Qed.

End Simulation.

(** ** The rules that a body builds *)

(** An automata while it is built, and the members of its class. *)
Record Building (T : Type) := mkBuilding {
  automata_of : AutomataDef;
  members : T
}.

Arguments mkBuilding {T}. Arguments automata_of {T}. Arguments members {T}.

Definition on_automata {T A} (m : prog AutomataDef A) : prog (Building T) A :=
  fun s =>
    match m (automata_of s) with
    | Done a x => Done a (mkBuilding x (members s))
    | Failed x => Failed (mkBuilding x (members s))
    | Crashed k => Crashed k
    end.

Definition on_members {T A} (f : T -> A * T) : prog (Building T) A :=
  fun s => let (a, t) := f (members s) in Done a (mkBuilding (automata_of s) t).

(** The body of an automata whose members are [t] when it is rendered. *)
Definition body_with {T} (m : prog (Building T) unit) (t : T) : prog AutomataDef unit :=
  fun a =>
    match m (mkBuilding a t) with
    | Done _ s => Done tt (automata_of s)
    | Failed s => Failed (automata_of s)
    | Crashed k => Crashed k
    end.

(** [Def()] with calls. *)
Definition xdef {T} (cs : list OpCall) : prog (Building T) unit := on_automata (def cs).

Section XBuilds.
Context (gid : nat -> option GlobalVariableId) (R : gset Z) (speed : option nat).
Context (Hargs : args_ok gid) (HR : forall r, r ∈ R -> 1 <= r < MAX_IMPORT_VAR).

(** [ActImportVariable(var, local)] of the variable [k]; the id is asserted only
    if there is an output. *)
Definition import_to (k : nat) (r : Z) : prog AutomataDef (list OpCall) :=
  fun a =>
    match gid k, aut_output_ a with
    | Some g, _ => Done [CallActImportVariable g r] a
    | None, None => Done [CallActImportVariable (mkGlobalId 0 0) r] a
    | None, Some _ => Crashed AssertFailed
    end.

(** Only [XTrain] may use the variable of the speed. *)
Definition term_owned (t : Term) : Prop := match t with Var k => speed <> Some k | Alias _ => True end.
Definition guard_owned (g : XGuard) : Prop := match g with XReg t _ => term_owned t | _ => True end.
Definition effect_owned (e : XEffect) : Prop :=
  match e with
  | XWrite t _ => term_owned t
  | XBind _ k => speed <> Some k
  | _ => True
  end.
Definition rule_owned (r : XRule) : Prop :=
  Forall guard_owned (xguards r) /\ Forall effect_owned (xeffects r).

Inductive term_named (G : Facts) : Term -> Z -> Prop :=
| named_var k i : In (Some k, i) G -> term_named G (Var k) i
| named_alias r : r ∈ R -> term_named G (Alias r) r.

Inductive calls_xrule (G : Facts) : list OpCall -> list XGuard -> list XEffect -> Prop :=
| xrule_nil : calls_xrule G [] [] []
| xrule_if t i b cs gs xs :
    term_named G t i -> calls_xrule G cs gs xs -> calls_xrule G (CallIfReg i b :: cs) (XReg t b :: gs) xs
| xrule_if0 t i cs gs xs :
    term_named G t i -> calls_xrule G cs gs xs -> calls_xrule G (CallIfReg0 i :: cs) (XReg t false :: gs) xs
| xrule_if1 t i cs gs xs :
    term_named G t i -> calls_xrule G cs gs xs -> calls_xrule G (CallIfReg1 i :: cs) (XReg t true :: gs) xs
| xrule_done cs gs xs :
    In (None, 0) G -> calls_xrule G cs gs xs -> calls_xrule G (CallIfTimerDone :: cs) (XTimer false :: gs) xs
| xrule_state s cs gs xs :
    0 <= s < 32 -> calls_xrule G cs gs xs -> calls_xrule G (CallIfState s :: cs) (XState s :: gs) xs
| xrule_sent cs gs xs : calls_xrule G cs gs xs -> calls_xrule G (CallIfSetSpeed :: cs) (XSent :: gs) xs
| xrule_act t i b cs gs xs :
    term_named G t i -> calls_xrule G cs gs xs -> calls_xrule G (CallActReg i b :: cs) gs (XWrite t b :: xs)
| xrule_act0 t i cs gs xs :
    term_named G t i -> calls_xrule G cs gs xs -> calls_xrule G (CallActReg0 i :: cs) gs (XWrite t false :: xs)
| xrule_act1 t i cs gs xs :
    term_named G t i -> calls_xrule G cs gs xs -> calls_xrule G (CallActReg1 i :: cs) gs (XWrite t true :: xs)
| xrule_goto s cs gs xs :
    0 <= s < 32 -> calls_xrule G cs gs xs -> calls_xrule G (CallActState s :: cs) gs (XGoto s :: xs)
| xrule_timer t cs gs xs :
    0 <= t < 32 -> calls_xrule G cs gs xs -> calls_xrule G (CallActTimer t :: cs) gs (XWait t :: xs)
| xrule_bind r k g cs gs xs :
    r ∈ R -> gid k = Some g -> calls_xrule G cs gs xs ->
    calls_xrule G (CallActImportVariable g r :: cs) gs (XBind r k :: xs)
| xrule_id id cs gs xs :
    0 <= id < 2 ^ 64 -> calls_xrule G cs gs xs -> calls_xrule G (CallActSetId id :: cs) gs (XTrain :: xs)
| xrule_load f v cs gs xs :
    0 <= v < 256 -> calls_xrule G cs gs xs -> calls_xrule G (CallActLoadSpeed f v :: cs) gs (XTrain :: xs)
| xrule_reverse cs gs xs : calls_xrule G cs gs xs -> calls_xrule G (CallActSpeedReverse :: cs) gs (XTrain :: xs)
| xrule_value k i cs gs xs :
    In (Some k, i) G -> speed = Some k -> calls_xrule G cs gs xs ->
    calls_xrule G (CallActGetValueToSpeed i 0 :: cs) gs (XTrain :: xs).

Lemma calls_xrule_app G cs1 gs1 xs1 cs2 gs2 xs2 :
  calls_xrule G cs1 gs1 xs1 -> calls_xrule G cs2 gs2 xs2 ->
  calls_xrule G (cs1 ++ cs2) (gs1 ++ gs2) (xs1 ++ xs2).
Proof. intros H1 H2. induction H1; cbn; [done|econstructor; eassumption..]. Qed.

Lemma term_named_sound G a t i :
  ids_ok a -> known G (used_variables_ a) -> term_owned t -> term_named G t i ->
  term_encoded R speed (used_variables_ a) t i /\ 0 <= i < 32.
Proof.
  intros Hok Hk Hs H. destruct H as [k j Hi|r Hr].
  - pose proof (known_In _ _ _ _ Hk Hi) as Hu. cbn in Hs. split; [by constructor|]. by apply (ids_import _ Hok (Some k)).
  - specialize (HR r Hr). unfold MAX_IMPORT_VAR in HR. split; [by constructor|lia].
Qed.

Lemma calls_xrule_sound G a cs gs xs :
  ids_ok a -> known G (used_variables_ a) -> Forall guard_owned gs -> Forall effect_owned xs ->
  calls_xrule G cs gs xs ->
  Forall call_ok cs /\ xrule_encoded gid R speed (used_variables_ a) (mkXRule gs xs) (operation_of cs).
Proof.
  intros Hok Hk Hgs Hxs H.
  enough (Forall call_ok cs /\
          Forall2 (xguard_encoded R speed (used_variables_ a)) gs (conditions (operation_of cs)) /\
          Forall2 (xeffect_encoded gid R speed (used_variables_ a)) xs (actions (operation_of cs)))
    as (H1 & H2 & H3) by (split; [done|by split]).
  assert (Ht : forall t i, term_owned t -> term_named G t i ->
                term_encoded R speed (used_variables_ a) t i /\ 0 <= i < 32).
  { intros t i. by apply term_named_sound. }
  induction H; [by repeat split|..];
    try (apply Forall_cons in Hgs as [Hown Hgs]); try (apply Forall_cons in Hxs as [Hown Hxs]);
    destruct (IHcalls_xrule Hgs Hxs) as (I1 & I2 & I3);
    cbn [operation_of foldr meaning add_meaning conditions actions];
    try match goal with Hn : term_named _ _ _ |- _ => destruct (Ht _ _ Hown Hn) end;
    (split; [constructor; [|exact I1]|split; [first [exact I2|constructor; [|exact I2]]|first [exact I3|constructor; [|exact I3]]]]);
    try done; try (by constructor).
  - constructor. by apply (known_In _ _ _ _ Hk).
  - specialize (HR r H). unfold MAX_IMPORT_VAR in HR. split; [lia|by apply (Hargs k)].
  - apply (known_In _ _ _ _ Hk) in H. apply (ids_import _ Hok) in H. unfold MAX_IMPORT_VAR in H. split; lia.
  - eapply xencoded_value; [done|]. by apply (known_In _ _ _ _ Hk).
Qed.

(** When [m] may use these variables and, run with the members [t], comes through where the facts [G] hold,
    it has written the rules [rs] and imports, the facts [G'] hold, and the
    members are [t']. *)
Definition xbuilds {T} (G : Facts) (t : T) (m : prog (Building T) unit) (rs : list XRule) (G' : Facts) (t' : T) : Prop :=
  Forall rule_owned rs ->
  forall a out s, ids_ok a -> reserved_variables_ a = R -> known G (used_variables_ a) ->
    aut_output_ a = Some out -> m (mkBuilding a t) = Done tt s ->
    members s = t' /\
    exists l ops, xrules_of l = rs /\ wf_body ops /\
      aut_output_ (automata_of s) = Some (out ++ encode_program ops) /\
      xitems_encoded gid R speed (used_variables_ a) l ops (used_variables_ (automata_of s)) /\
      ids_ok (automata_of s) /\ reserved_variables_ (automata_of s) = R /\
      known G' (used_variables_ (automata_of s)).

Section Members.
Context {T : Type}.
Implicit Types (t : T) (m : prog (Building T) unit).

Lemma xbuilds_ret G t : xbuilds G t (mret tt) [] G t.
Proof.
  intros _ a out s Hok Hres Hk Ho [= <-]. split; [done|]. exists [], []. split; [done|]. split; [by intros p|].
  split; [by rewrite app_nil_r|]. by split; [constructor|].
Qed.

Lemma xbuilds_bind G t m rs1 G1 t1 k rs2 G2 t2 :
  xbuilds G t m rs1 G1 t1 -> xbuilds G1 t1 k rs2 G2 t2 -> xbuilds G t (m;; k) (rs1 ++ rs2) G2 t2.
Proof.
  intros Hm Hk [Hown1 Hown2]%Forall_app a out s Hok Hres Hkn Ho ([] & [a1 t1'] & E1 & E2)%bind_Done.
  specialize (Hm Hown1). specialize (Hk Hown2). destruct (Hm a out _ Hok Hres Hkn Ho E1) as (<- & l1 & ops1 & <- & W1 & O1 & I1 & K1 & R1 & F1).
  destruct (Hk a1 _ s K1 R1 F1 O1 E2) as (<- & l2 & ops2 & <- & W2 & O2 & I2 & K2 & R2 & F2).
  split; [done|]. exists (l1 ++ l2), (ops1 ++ ops2). split; [apply xrules_of_app|]. split; [by apply wf_body_app|].
  split; [by rewrite O2, encode_program_app, app_assoc|].
  split; [by eapply xitems_encoded_app|done].
Qed.

Lemma xbuilds_def G t cs gs xs :
  cs <> [] -> calls_xrule G cs gs xs -> xbuilds G t (xdef cs) [mkXRule gs xs] G t.
Proof.
  intros Hne Hr [[Hgs Hxs] _]%Forall_cons a out s Hok Hres Hkn Ho E.
  destruct (calls_xrule_sound G a cs gs xs Hok Hkn Hgs Hxs Hr) as [Hc He].
  unfold xdef, on_automata in E. cbn [automata_of members] in E.
  destruct (def cs a) as [[] a'| |] eqn:Ed; [|done..]. injection E as <-.
  destruct (Def_Done cs a a' out Hc Hne Ho Ed) as [Hd ->]. cbn [automata_of members]. split; [done|].
  exists [XRuled (mkXRule gs xs)], [operation_of cs]. split; [done|].
  destruct (emits_Def cs a Hd) as [Hw _]. split; [done|].
  change (encode_program [operation_of cs]) with (encode_operation (operation_of cs) ++ []).
  split; [by rewrite app_nil_r|]. split; [|by split; [apply ids_ok_set_output|]].
  eapply xencoded_rule; [done|constructor].
Qed.

Lemma xbuilds_def_then G t cs gs xs k rs G' t' :
  cs <> [] -> calls_xrule G cs gs xs -> xbuilds G t k rs G' t' ->
  xbuilds G t (xdef cs;; k) (mkXRule gs xs :: rs) G' t'.
Proof. intros Hne Hr Hk. by apply (xbuilds_bind G t _ [_] G t), Hk; apply xbuilds_def. Qed.

(** Items of the other files that only import. *)
Lemma xitems_of_import u k ops u' :
  (forall i, i ∈ R -> forall v, u' !! v <> Some i) ->
  items_encoded gid u [Imported k] ops u' -> xitems_encoded gid R speed u [XImported k] ops u'.
Proof.
  intros Hr H. inversion H as [|? ? i ? ? ? Hi Hrest|? ? i g ? ops' ? Hn Hg Hi Hnew Hrest| |]; subst.
  - inversion Hrest; subst. eapply xencoded_known; [done|constructor].
  - inversion Hrest; subst. eapply xencoded_new; [done..| |constructor].
    intros Hin. apply (Hr i Hin (Some k)). by simplify_map_eq.
Qed.

Lemma import_reserved k a i a' : import gid k a = Done i a' -> reserved_variables_ a' = reserved_variables_ a.
Proof.
  unfold import, ImportVariable. destruct (used_variables_ a !! Some k); [by intros [= _ <-]|].
  intros (n & a1 & E & ([] & a2 & [= <-] & ([] & a3 & Ha & ([] & a4 & E4 & [= _ <-])%bind_Done)%bind_Done)%bind_Done)%bind_Done.
  unfold hassert in Ha. destruct (n <? MAX_IMPORT_VAR); [|done]. injection Ha as <-.
  unfold GetNextVariableId, hassert in E. destruct (_ <? MAX_IMPORT_VAR) in E; [|done]. injection E as _ <-.
  unfold RenderImportVariable, Def in E4. destruct (make_op _ _); [|done..]. by injection E4 as <-.
Qed.

Lemma xbuilds_import G t k f rs G' t' :
  (forall i, xbuilds ((Some k, i) :: G) t (f i) rs G' t') ->
  xbuilds G t (i ← on_automata (import gid k); f i) rs G' t'.
Proof.
  intros Hf Hown a out s Hok Hres Hkn Ho (i & s1 & E1 & E2)%bind_Done.
  unfold on_automata in E1. cbn [automata_of members] in E1.
  destruct (import gid k a) as [j a1| |] eqn:Ei; [|done..]. injection E1 as <- <-.
  destruct (import_Done gid Hargs k a j a1 out Hok Ho Ei) as (ops1 & W1 & O1 & I1 & K1 & Hi & Hsub).
  pose proof (import_reserved k a j a1 Ei) as Hr1. rewrite Hres in Hr1.
  assert (F1 : known ((Some k, j) :: G) (used_variables_ a1)).
  { constructor; [done|]. apply (Forall_impl _ _ _ Hkn). intros [v j'] Hv. by eapply lookup_weaken. }
  destruct (Hf j Hown a1 _ s K1 Hr1 F1 O1 E2) as (<- & l & ops2 & <- & W2 & O2 & I2 & K2 & R2 & F2).
  split; [done|]. exists (XImported k :: l), (ops1 ++ ops2). split; [done|]. split; [by apply wf_body_app|].
  split; [by rewrite O2, encode_program_app, app_assoc|]. split; [|done].
  apply (xitems_encoded_app gid R speed _ [XImported k] _ (used_variables_ a1) l); [|done].
  apply xitems_of_import; [|done]. intros r Hr v Hv. apply (ids_unreserved _ K1 v r Hv). by rewrite Hr1.
Qed.

Lemma xbuilds_clear_then G t k rs G' t' :
  xbuilds [(None, 0)] t k rs G' t' -> xbuilds G t (on_automata (modify_state ClearUsedVariables);; k) rs G' t'.
Proof.
  intros Hk. apply (xbuilds_bind G t _ [] [(None, 0)] t); [|done]. intros _ a out s Hok Hres Hkn Ho [= <-].
  split; [done|]. exists [XCleared], []. split; [done|]. split; [by intros p|].
  split; [change (encode_program []) with (@nil Z); by rewrite app_nil_r|]. split.
  - apply xencoded_clear; [apply Hok|constructor].
  - split; [apply ids_ok_clear, Hok|]. split; [done|]. constructor; [done|constructor].
Qed.

Lemma xbuilds_weaken G1 G2 t m rs G' G2' t' :
  xbuilds G1 t m rs G' t' -> (forall v i, In (v, i) G1 -> In (v, i) G2) ->
  (forall v i, In (v, i) G2' -> In (v, i) G') -> xbuilds G2 t m rs G2' t'.
Proof.
  intros Hm H1 H2 Hown a out s Hok Hres Hkn Ho E.
  assert (Hk1 : known G1 (used_variables_ a)).
  { unfold known. rewrite List.Forall_forall. intros [v i] Hi. by eapply known_In, H1. }
  destruct (Hm Hown a out s Hok Hres Hk1 Ho E) as (Ht & l & ops & Hl & W & O & I & K & Rr & F). split; [done|].
  exists l, ops. do 6 (split; [done|]). unfold known. rewrite List.Forall_forall. intros [v i] Hi. by eapply known_In, H2.
Qed.

Lemma xbuilds_ext G t m m' rs G' t' : (forall s, m s = m' s) -> xbuilds G t m' rs G' t' -> xbuilds G t m rs G' t'.
Proof. intros E H Hown a out s Hok Hres Hk Ho. rewrite E. by apply H. Qed.

(** A change of the members. *)
Lemma xbuilds_members {A} G t (f : T -> A * T) x t1 k rs G' t' :
  f t = (x, t1) -> xbuilds G t1 (k x) rs G' t' -> xbuilds G t (y ← on_members f; k y) rs G' t'.
Proof.
  intros E Hk Hown a out s Hok Hres Hkn Ho. unfold mbind, prog_bind, on_members. cbn [members automata_of].
  rewrite E. by apply Hk.
Qed.

(** A binding of a reserved local variable. *)
Lemma xbuilds_import_to G t k r f rs G' t' :
  r ∈ R -> (forall cs, calls_xrule G cs [] [XBind r k] -> xbuilds G t (f cs) rs G' t') ->
  xbuilds G t (cs ← on_automata (import_to k r); f cs) rs G' t'.
Proof.
  intros Hr Hf Hown a out s Hok Hres Hkn Ho. unfold mbind, prog_bind, on_automata, import_to.
  cbn [automata_of members]. rewrite Ho. destruct (gid k) as [g|] eqn:Hg; [|done].
  apply Hf; [|done..]. apply xrule_bind; [done..|constructor].
Qed.

End Members.

End XBuilds.

(** ** Bodies *)

Section Bodies.
Context {V W : Type} `{VV : !Velocity V} `{NN : !Node V W} `{QN : !QuietNode V W} `{QT : !QuietTrain V W}.
Context (gid : nat -> option GlobalVariableId) (place : nat -> option Place).
Context (R : gset Z) (speed : option nat).

(** The bytes of a body, rendered somewhere, are the code of the automata [a] of
    the runner [s]; the local variables [R] are reserved. *)
Record xrunnable (body : prog AutomataDef unit) (code : list Z) (a : nat)
    (s : AutomataRunner (V := V) (W := W)) : Prop := {
  xrun_placed : well_placed gid place;
  xrun_all : all_placed gid place (fun k => speed = Some k);
  xrun_args : args_ok gid;
  xrun_reserved r : r ∈ R -> 1 <= r < MAX_IMPORT_VAR;
  xrun_rendered : exists def def' out bytes x,
    reserved_variables_ def = R /\
    Render body (Some out) def = Done (Some (out ++ bytes)) def' /\
    automatas (core s) !! a = Some x /\ bytes_at code (starting_offset_ x) bytes;
  xrun_code : zlen code < 2 ^ 31;
  xrun_debug : logEventId_ (g_aut_debug_space s) = 0
}.

(** The runner [s] and its variables are ready to run the automata [a] in the
    state [e]. *)
Record ready (a : nat) (s : AutomataRunner (V := V) (W := W)) (e : Env) : Prop := {
  ready_layout : represents gid place {[None := timer_bit_]} (reset_imports a (core s)) e;
  ready_byte k g : speed = Some k -> gid k = Some g ->
    exists l, declared_bits_ (core s) !! (gid_id g mod 2 ^ 16) = Some l /\ byte_at (core s) l;
  ready_eventids : zlen (aut_eventids_ (core s)) = 2
}.

Lemma ready_represents a s e :
  (forall r, r ∈ R -> 1 <= r < MAX_IMPORT_VAR) -> ready a s e ->
  xrepresents gid place R speed {[None := timer_bit_]} (reset_imports a (core s)) (mkXEnv e (fun _ => None)).
Proof.
  intros HR [Hl Hb He].
  assert (Eh : hide speed {[None := timer_bit_]} = {[None := timer_bit_]}).
  { unfold hide. destruct speed as [k|]; [|done]. apply delete_id. by rewrite lookup_singleton_ne. }
  split; cbn [layout bound]; try done.
  - by rewrite Eh.
  - intros r v H [_ <-]%lookup_singleton_Some. specialize (HR _ H). unfold timer_bit_ in HR. lia.
  - intros r H. specialize (HR r H). unfold MAX_IMPORT_VAR in HR.
    change (znth (Some (TimerBit a) :: replicate 31 None) r = Some None). unfold znth.
    destruct (Z.leb_spec 0 r); [|lia]. destruct (Z.to_nat r) as [|n] eqn:E; [lia|]. cbn [lookup list_lookup].
    apply lookup_replicate_2. lia.
  - by intros k i _ [[=] _]%lookup_singleton_Some.
Qed.

(** A rendered body runs as its rules, or dies where they have no result. *)
Lemma xbody_runs {T} (m : prog (Building T) unit) t rs G t' code a s e :
  xrunnable (body_with m t) code a s -> xbuilds gid R speed [(None, 0)] t m rs G t' ->
  Forall (rule_owned speed) rs -> ready a s e ->
  match xexec_rules rs (mkXEnv e (fun _ => None)) with
  | Some x => exists s' u, run_automata code a s = Some (Done tt s') /\
      xrepresents gid place R speed u (core s') x
  | None => exists k, run_automata code a s = Some (Crashed k)
  end.
Proof.
  intros [WP Hall Hargs HR (def & def' & out & bytes & x & Hres & Hr & Ha & Hat) Hc Hd] Hb Hown Hready. unfold Render in Hr.
  apply bind_Done in Hr as ([] & d1 & [= <-] & Hr). apply bind_Done in Hr as ([] & d2 & [= <-] & Hr).
  apply bind_Done in Hr as ([] & d3 & E3 & Hr).
  apply bind_Done in Hr as (d4 & ? & [= <- <-] & Hr). apply bind_Done in Hr as ([] & d5 & [= <-] & Hr).
  unfold body_with in E3. set (d0 := ClearUsedVariables (set_output (Some out) def)) in *.
  destruct (m (mkBuilding d0 t)) as [[] s3| |] eqn:Em; [|done..]. injection E3 as <-.
  destruct (Hb Hown d0 out s3) as (_ & l & ops & <- & Hw & Ho & Hi & _); [| |by repeat constructor|done|done|].
  { apply ids_ok_clear. cbn. by rewrite Hres. }
  { by cbn. }
  rewrite Ho in Hr. injection Hr as Hout _. unfold push_back in Hout. rewrite <- app_assoc in Hout.
  apply app_inv_head in Hout. subst bytes.
  pose proof (xitems_run gid place R speed WP Hall HR _ _ _ l ops _ (ready_represents a s e HR Hready) Hi) as Hx.
  pose proof (run_automata_program code a x ops s Hc Hd Ha (Hw _) Hat) as Hrun.
  destruct (xexec_rules (xrules_of l) _) as [x'|].
  - destruct Hx as (c' & Ec & X'). rewrite Ec in Hrun. destruct Hrun as (s' & Es & <-).
    by exists s', (used_variables_ (automata_of s3)).
  - destruct Hx as [k Ec]. rewrite Ec in Hrun. by exists k.
Qed.

End Bodies.
