(* ===== verification/TrainSchedule.v ===== *)
(** Blocks and train schedules (src/automata/control-logic.hxx, control-logic.cc):
    the automata that drives a train from block to block.

    A schedule knows its train's place by two bits for each block: the permanent
    one is where the train is, the routing one how far its route is set.  The
    subclass lists the transitions between blocks in [RunTransition], with the
    turnouts to be set for each.  One set of reserved local variables serves all
    transitions: operations before those of a transition bind them to its
    blocks. *)

From stdpp Require Import strings.
From S2P Require Import Prelude AutomataDefs Automata AutomataOps AutomataBuild ControlRules ControlLogic ControlTurnouts ScheduleRules.

(** ** Blocks *)

(** [SignalBlock]: where a train may have to stop. *)
Record SignalBlock := mkSignalBlock {
  block_name : string;
  dst_detector : nat;
  src_detector : nat;
  route_out : nat;
  route_in : nat;
  request_green : nat;
  auto_blocked : nat
}.

(** [StandardBlock]: the variables that it allocates itself, its four pieces of
    track and the physical signal. *)
Record StandardBlock := mkBlock {
  base_name : string;
  block_request_green_ : nat;
  signal_no_stop_ : nat;
  rrequest_green_ : nat;
  rsignal_no_stop_ : nat;
  auto_blocked_ : nat;
  body_ : StraightTrack;
  body_det_ : StraightTrack;
  block_signal_ : StraightTrack;
  rsignal_ : StraightTrack;
  sensor_raw : nat;
  signal_raw : option nat;
  debounce_ : nat;
  output_route_ : nat
}.

(** [FwdSignal] and [RevSignal] *)
Definition fwd_signal (b : StandardBlock) : SignalBlock :=
  mkSignalBlock (base_name b) (simulated_occupancy_ (body_det_ b)) (simulated_occupancy_ (body_det_ b))
    (route_set_ab_ (block_signal_ b)) (route_set_ab_ (body_det_ b)) (block_request_green_ b) (auto_blocked_ b).

Definition rev_signal (b : StandardBlock) : SignalBlock :=
  mkSignalBlock (base_name b) (simulated_occupancy_ (body_det_ b)) (simulated_occupancy_ (body_det_ b))
    (route_set_ab_ (rsignal_ b)) (route_set_ab_ (body_det_ b)) (rrequest_green_ b) (auto_blocked_ b).

(** The detector of the body, with the routes out of the block. *)
Definition block_detector (b : StandardBlock) : RawDetector :=
  mkRaw (sensor_raw b) [route_set_ab_ (block_signal_ b); route_set_ab_ (rsignal_ b)] (debounce_ b) (output_route_ b).

Section Blocks.
Context (gid : nat -> option GlobalVariableId) (reset_routes : option nat).

(** The automata of a block. *)
Definition StandardBlock_plugins (b : StandardBlock) : list AutomataPlugin :=
  [ StraightTrackLong_plugins gid reset_routes (body_ b);
    StraightTrackWithRawDetector_plugins gid reset_routes (body_det_ b) (block_detector b) 0;
    SignalPiece_plugins gid reset_routes (block_signal_ b)
      (mkSignal (block_request_green_ b) (signal_raw b) (signal_no_stop_ b));
    SignalPiece_plugins gid reset_routes (rsignal_ b)
      (mkSignal (rrequest_green_ b) None (rsignal_no_stop_ b)) ].

(** [StandardMiddleSignal]: a signal that never stops a train. *)
Definition InitSignalNoStop (no_stop_ : nat) : AutomataCallback :=
  no_stop ← import gid no_stop_; def [CallActReg1 no_stop].

Definition StandardMiddleSignal_plugins (t : StraightTrack) (g : SignalVars) : AutomataPlugin :=
  AddAutomataPlugin 131 (InitSignalNoStop (route_no_stop_ g)) (SignalPiece_plugins gid reset_routes t g).

End Blocks.

(** ** Schedules *)

Definition StWaiting : Z := 2.
Definition StReadyToGo : Z := 3.
Definition StRequestGreen : Z := 4.
Definition StGreenRequested : Z := 13.
Definition StGreenWait : Z := 5.
Definition StGreenFailed : Z := 6.
Definition StRequestTransition : Z := 9.
Definition StTransitionDone : Z := 10.
Definition StTurnout : Z := 11.
Definition StTurnoutFailed : Z := 7.
Definition StTestCondition : Z := 12.
Definition StTestCondition2 : Z := 8.
Definition StBeforeReverseWait : Z := 14.
Definition StReverseSendCommand : Z := 15.
Definition StReverseDoneWait : Z := 16.
Definition StFrozen : Z := 17.

(** The reserved local variables, in the order in which they are reserved. *)
Definition current_block_detector_ : Z := 1.
Definition routing_block_request_green_ : Z := 2.
Definition perma_block_route_out_ : Z := 3.
Definition routing_block_route_out_ : Z := 4.
Definition current_block_permaloc_ : Z := 5.
Definition current_block_routingloc_ : Z := 6.
Definition current_direction_ : Z := 7.
Definition next_block_permaloc_ : Z := 8.
Definition next_block_routingloc_ : Z := 9.
Definition next_block_route_in_ : Z := 10.
Definition next_block_detector_ : Z := 11.
Definition next_block_blocked_ : Z := 12.
Definition magnet_command_ : Z := 13.
Definition magnet_state_ : Z := 14.
Definition magnet_locked_ : Z := 15.
Definition permit_request_ : Z := 16.
Definition permit_granted_ : Z := 17.
Definition permit_taken_ : Z := 18.

Fixpoint reserve (n : nat) : prog AutomataDef (list Z) :=
  match n with
  | O => mret []
  | S n => r ← ReserveVariable; rs ← reserve n; mret (r :: rs)
  end.

(** What the constructor of a schedule does to its automata. *)
Definition reserve_locals : prog AutomataDef (list Z) := reserve 18.

(** The variables that the constructor allocates, the train, and the variable of
    its speed. *)
Record ScheduleVars := mkSchedule {
  train_node_id_ : Z;
  is_reversed_ : nat;
  last_set_reversed_ : nat;
  is_frozen_ : nat;
  need_reverse_ : nat;
  req_stop_ : nat;
  req_go_ : nat;
  is_moving_ : nat;
  speed_var_ : option nat
}.

(** [ScheduleLocation] *)
Record ScheduleLocation := mkLocation {
  permaloc : nat;
  routingloc : nat;
  num_directions_ : Z;
  respect_direction_ : bool
}.

(** The keys of [helper_bits_]: an address, or a name. *)
Inductive HelperKey :=
| KeyPtr (k : nat)
| KeyName (name : string).

#[export] Instance HelperKey_eq_dec : EqDecision HelperKey.
Proof. solve_decision. Defined.

#[export] Instance HelperKey_countable : Countable HelperKey :=
  inj_countable' (fun k => match k with KeyPtr k => inl k | KeyName n => inr n end)
    (fun k => match k with inl k => KeyPtr k | inr n => KeyName n end)
    ltac:(by intros []).

(** The members that change while the body runs.  [next_variable] is the number
    that the allocators give out next; [current_location_] is a key of the
    map. *)
Record Members := mkMembers {
  location_map_ : gmap string ScheduleLocation;
  helper_bits_ : gmap HelperKey nat;
  current_location_ : option string;
  route_set_lock_var_ : option nat;
  next_variable : nat
}.

Definition set_locations (m : gmap string ScheduleLocation) (t : Members) : Members :=
  mkMembers m (helper_bits_ t) (current_location_ t) (route_set_lock_var_ t) (next_variable t).
Definition set_current_location (l : option string) (t : Members) : Members :=
  mkMembers (location_map_ t) (helper_bits_ t) l (route_set_lock_var_ t) (next_variable t).
Definition set_route_lock (l : option nat) (t : Members) : Members :=
  mkMembers (location_map_ t) (helper_bits_ t) (current_location_ t) l (next_variable t).

Definition AllocateOrGetLocation (name : string) (t : Members) : ScheduleLocation * Members :=
  match location_map_ t !! name with
  | Some loc => (loc, t)
  | None =>
      let loc := mkLocation (next_variable t) (S (next_variable t)) 0 false in
      (loc, mkMembers (<[name := loc]> (location_map_ t)) (helper_bits_ t) (current_location_ t)
              (route_set_lock_var_ t) (S (S (next_variable t))))
  end.

Definition GetHelperBit (ptr : option nat) (name : string) (t : Members) : nat * Members :=
  let key := match ptr with Some k => KeyPtr k | None => KeyName name end in
  match helper_bits_ t !! key with
  | Some k => (k, t)
  | None =>
      (next_variable t, mkMembers (location_map_ t) (<[key := next_variable t]> (helper_bits_ t))
                          (current_location_ t) (route_set_lock_var_ t) (S (next_variable t)))
  end.

Definition AllocateOrGetLocationByBlock (b : SignalBlock) (t : Members) : ScheduleLocation * Members :=
  AllocateOrGetLocation (block_name b) t.

(** What the operations are made of that a subclass adds itself, on variables by
    name or by number: [IfHere] tests the bit of the current block. *)
Inductive OwnCall (A : Type) :=
| IfHere (b : bool)
| IfStateIs (state : Z)
| IfVariable (k : A) (b : bool)
| SetVariable (k : A) (b : bool).

Arguments IfHere {A} b.
Arguments IfStateIs {A} state.
Arguments IfVariable {A} k b.
Arguments SetVariable {A} k b.

Definition map_own {A B} (f : A -> B) (c : OwnCall A) : OwnCall B :=
  match c with
  | IfHere b => IfHere b
  | IfStateIs s => IfStateIs s
  | IfVariable k b => IfVariable (f k) b
  | SetVariable k b => SetVariable (f k) b
  end.

Section Schedule.
Context (gid : nat -> option GlobalVariableId) (reset_routes : option nat) (v : ScheduleVars).

Abbreviation Schedule := (Building Members).
Abbreviation ScheduleProg := (prog Schedule unit).

Definition ximport (k : nat) : prog Schedule Z := on_automata (import gid k).
Definition bind_to (k : nat) (r : Z) : prog Schedule (list OpCall) := on_automata (import_to gid k r).
Definition callback (cb : OpCallback) : prog Schedule (list OpCall) := on_automata (RunCallback cb).

Definition xClearAutomataVariables : ScheduleProg := on_automata ClearAutomataVariables.

(** [MaybeIfReg], [MaybeActReg] *)
Definition MaybeIf (b : bool) (cs : list OpCall) : list OpCall := if b then cs else [].

(** Calls on one operation, some of which import. *)
Fixpoint sequence (l : list (prog Schedule (list OpCall))) : prog Schedule (list OpCall) :=
  match l with
  | [] => mret []
  | m :: l => cs ← m; cs' ← sequence l; mret (cs ++ cs')
  end.

Definition plain_calls (cs : list OpCall) : prog Schedule (list OpCall) := mret cs.

Definition if_var (b : bool) (k : nat) : prog Schedule (list OpCall) :=
  i ← ximport k; mret [if b then CallIfReg1 i else CallIfReg0 i].
Definition act_var (b : bool) (k : nat) : prog Schedule (list OpCall) :=
  i ← ximport k; mret [if b then CallActReg1 i else CallActReg0 i].

(** [Def()] with such calls. *)
Definition op (l : list (prog Schedule (list OpCall))) : ScheduleProg := cs ← sequence l; xdef cs.

Definition HandleInit : ScheduleProg :=
  op [plain_calls [CallIfState StBase]; act_var false (last_set_reversed_ v); plain_calls [CallActState StWaiting]].

Definition ClearCurrentLocation : ScheduleProg := on_members (fun t => (tt, set_current_location None t)).

(** The route lock: its callbacks, and the constructor and destructor of
    [WithRouteLock]. *)
Definition get_route_lock : prog Schedule (option nat) := on_members (fun t => (route_set_lock_var_ t, t)).

Definition RouteLockAcquire : prog Schedule (list OpCall) :=
  l ← get_route_lock;
  match l with
  | None => mret []
  | Some k => i ← ximport k; j ← ximport k; mret [CallIfReg0 i; CallActReg1 j]
  end.

Definition RouteLockRelease : prog Schedule (list OpCall) :=
  l ← get_route_lock;
  match l with
  | None => mret []
  | Some k => i ← ximport k; mret [CallActReg0 i]
  end.

Definition WithRouteLock (lock : nat) : ScheduleProg :=
  l ← get_route_lock;
  hassert (negb (bool_decide (is_Some l)));;
  on_members (fun t => (tt, set_route_lock (Some lock) t)).

Definition WithRouteLock_delete : ScheduleProg := on_members (fun t => (tt, set_route_lock None t)).

Definition get_location (b : SignalBlock) : prog Schedule ScheduleLocation :=
  on_members (AllocateOrGetLocationByBlock b).

Definition MapCurrentBlockPermaloc (source : SignalBlock) : ScheduleProg :=
  loc ← get_location source;
  op [bind_to (permaloc loc) current_block_permaloc_];;
  op [bind_to (routingloc loc) current_block_routingloc_];;
  on_members (fun t => (tt, set_current_location (Some (block_name source)) t)).

(** [*current_location_], and changes of it. *)
Definition current_location : prog Schedule ScheduleLocation :=
  fun s =>
    match current_location_ (members s) with
    | None => Crashed AssertFailed
    | Some name =>
        match location_map_ (members s) !! name with
        | None => Crashed DanglingPointer
        | Some loc => Done loc s
        end
    end.

Definition alter_location (f : ScheduleLocation -> ScheduleLocation) (t : Members) : Members :=
  match current_location_ t with
  | None => t
  | Some name => set_locations (alter f name (location_map_ t)) t
  end.

Definition change_location (f : ScheduleLocation -> ScheduleLocation) : ScheduleProg :=
  on_members (fun t => (tt, alter_location f t)).

Definition one_more_direction (l : ScheduleLocation) : ScheduleLocation :=
  mkLocation (permaloc l) (routingloc l) (num_directions_ l + 1) (respect_direction_ l).
Definition respecting (l : ScheduleLocation) : ScheduleLocation :=
  mkLocation (permaloc l) (routingloc l) (num_directions_ l) true.

Definition is_preamble : prog Schedule bool :=
  fun s => Done (bool_decide (aut_output_ (automata_of s) = None)) s.

Definition when_ (b : bool) (m : ScheduleProg) : ScheduleProg := if b then m else mret tt.

Definition transition_name (source dest : SignalBlock) : string :=
  ("transition_" +:+ block_name source +:+ "_" +:+ block_name dest)%string.

(** The first part of a transition: which variables it is about. *)
Definition bind_direction (source dest : SignalBlock) (client : option FlipFlopClient) : ScheduleProg :=
  MapCurrentBlockPermaloc source;;
  p ← is_preamble;
  when_ p (change_location one_more_direction);;
  loc ← current_location;
  when_ (bool_decide (is_Some client) || (1 <? num_directions_ loc))
    (k ← on_members (GetHelperBit (request <$> client) (transition_name source dest));
     op [bind_to k current_direction_];;
     change_location respecting);;
  op [bind_to (auto_blocked dest) next_block_blocked_].

Definition eager_rules (source : SignalBlock) : ScheduleProg :=
  op [plain_calls [CallIfReg1 current_block_permaloc_; CallIfReg0 current_block_routingloc_;
                   CallIfReg0 perma_block_route_out_; CallActReg1 current_block_routingloc_]];;
  op [plain_calls [CallIfReg1 current_block_routingloc_]; bind_to (route_in source) next_block_route_in_];;
  op [plain_calls [CallIfState StWaiting; CallIfReg1 current_block_routingloc_; CallIfReg0 current_block_permaloc_;
                   CallIfReg0 next_block_route_in_; CallActReg0 current_block_routingloc_]].

Definition move_permaloc (dest : SignalBlock) (has_direction : bool) : ScheduleProg :=
  op [if_var true (is_moving_ v);
      plain_calls ([CallIfReg1 current_block_permaloc_; CallIfReg1 current_block_detector_;
                    CallIfReg1 perma_block_route_out_] ++
                   MaybeIf has_direction [CallIfReg current_direction_ true] ++
                   [CallIfReg0 current_block_routingloc_; CallActReg0 current_block_permaloc_] ++
                   MaybeIf has_direction [CallActReg current_direction_ false] ++
                   [CallActReg1 next_block_permaloc_]);
      bind_to (dst_detector dest) current_block_detector_].

Definition bind_blocks (source dest : SignalBlock) (eager has_direction : bool) : ScheduleProg :=
  op [plain_calls [CallIfReg1 current_block_permaloc_]; bind_to (route_out source) perma_block_route_out_;
      bind_to (src_detector source) current_block_detector_];;
  (if eager then eager_rules source
   else on_automata (DefCopyIf current_block_permaloc_ current_block_routingloc_ None));;
  dest_loc ← get_location dest;
  op [plain_calls [CallIfReg1 current_block_permaloc_]; bind_to (permaloc dest_loc) next_block_permaloc_];;
  when_ eager (move_permaloc dest has_direction);;
  op [plain_calls [CallIfReg1 current_block_routingloc_];
      bind_to (request_green source) routing_block_request_green_;
      bind_to (route_out source) routing_block_route_out_];;
  dest_loc ← get_location dest;
  op [plain_calls [CallIfReg1 current_block_routingloc_]; bind_to (dst_detector dest) next_block_detector_;
      bind_to (routingloc dest_loc) next_block_routingloc_; bind_to (route_in dest) next_block_route_in_].

Definition bind_permit (client : option FlipFlopClient) : ScheduleProg :=
  match client with
  | None => mret tt
  | Some c => op [bind_to (request c) permit_request_; bind_to (granted c) permit_granted_;
                  bind_to (taken c) permit_taken_]
  end.

(** The tests, and the decision to go. *)
Definition test_transition (has_permit has_direction : bool) (condition : OpCallback) (eager : bool) : ScheduleProg :=
  op [plain_calls [CallIfState StTestCondition; CallActState StWaiting]];;
  op [plain_calls [CallIfState StTestCondition2; CallActState StWaiting]];;
  op [plain_calls [CallIfState StWaiting; CallIfReg1 current_block_routingloc_; CallActState StTestCondition]];;
  op [plain_calls ([CallIfState StTestCondition] ++ MaybeIf (negb eager) [CallIfReg current_block_detector_ true] ++
                   [CallIfReg0 next_block_detector_; CallIfReg0 routing_block_route_out_;
                    CallIfReg0 next_block_route_in_; CallIfReg0 next_block_blocked_]);
      if_var false (is_frozen_ v); callback condition; plain_calls [CallActState StTestCondition2]];;
  when_ has_permit
    (op [plain_calls [CallIfState StTestCondition2; CallActReg1 permit_request_]];;
     op [plain_calls [CallIfState StTestCondition; CallActReg0 permit_request_]];;
     op [plain_calls [CallIfReg1 current_block_routingloc_; CallIfReg1 routing_block_route_out_;
                      CallActReg0 permit_request_]]);;
  op [plain_calls [CallIfState StTestCondition; CallActState StWaiting]];;
  op [plain_calls ([CallIfState StTestCondition2] ++ MaybeIf has_permit [CallIfReg permit_request_ true] ++
                   MaybeIf has_permit [CallIfReg permit_granted_ true]);
      RouteLockAcquire;
      plain_calls (MaybeIf has_permit [CallActReg permit_request_ false] ++
                   MaybeIf has_permit [CallActReg permit_granted_ false] ++
                   MaybeIf has_permit [CallActReg permit_taken_ true] ++
                   MaybeIf has_direction [CallActReg current_direction_ true] ++ [CallActState StReadyToGo])];;
  op [plain_calls [CallIfState StTestCondition2; CallActState StWaiting]];;
  when_ has_direction
    (op [plain_calls [CallIfState StWaiting; CallIfReg1 current_block_routingloc_; CallIfReg1 current_direction_;
                      CallActReg0 current_direction_]]).

(** The end of a transition: the bits move, or the route failed. *)
Definition finish_transition (has_direction eager : bool) : ScheduleProg :=
  let here := if eager then current_block_routingloc_ else current_block_permaloc_ in
  op [plain_calls ([CallIfState StRequestTransition; CallIfReg1 here] ++
                   MaybeIf has_direction [CallIfReg current_direction_ true]);
      RouteLockRelease;
      plain_calls (MaybeIf (negb eager) [CallActReg0 current_block_permaloc_] ++
                   [CallActReg0 current_block_routingloc_] ++
                   MaybeIf (negb eager) [CallActReg1 next_block_permaloc_] ++
                   [CallActReg1 next_block_routingloc_] ++
                   MaybeIf (negb eager && has_direction) [CallActReg current_direction_ false] ++
                   [CallActState StTransitionDone])];;
  op [plain_calls ([CallIfState StGreenFailed; CallIfReg1 here] ++
                   MaybeIf has_direction [CallIfReg current_direction_ true]);
      RouteLockRelease; plain_calls [CallActState StWaiting]].

Definition AddBlockTransitionOnPermit (source dest : SignalBlock) (client : option FlipFlopClient)
    (condition : OpCallback) (eager : bool) : ScheduleProg :=
  let has_permit := bool_decide (is_Some client) in
  bind_direction source dest client;;
  loc ← current_location;
  let has_direction := respect_direction_ loc in
  bind_blocks source dest eager has_direction;;
  bind_permit client;;
  test_transition has_permit has_direction condition eager;;
  finish_transition has_direction eager.

Definition AddDirectBlockTransition (source dest : SignalBlock) (condition : OpCallback) (eager : bool)
    : ScheduleProg :=
  AddBlockTransitionOnPermit source dest None condition eager.

(** [g_not_paused_condition] is defined by the layout. *)
Definition AddEagerBlockTransition (g_not_paused_condition : OpCallback) (source dest : SignalBlock) : ScheduleProg :=
  AddDirectBlockTransition source dest g_not_paused_condition true.

Fixpoint AddEagerBlockSequence (blocks : list StandardBlock) (condition : OpCallback) (is_eager : bool) : ScheduleProg :=
  match blocks with
  | a :: (b :: _) as l =>
      AddDirectBlockTransition (fwd_signal a) (fwd_signal b) condition is_eager;;
      AddEagerBlockSequence l condition is_eager
  | _ => mret tt
  end.

Definition StopTrainAt (dest : SignalBlock) : ScheduleProg :=
  MapCurrentBlockPermaloc dest;;
  op [plain_calls [CallIfReg1 current_block_permaloc_]; bind_to (dst_detector dest) current_block_detector_].

Definition StopAndReverseAtStub (in_signal : SignalBlock) : ScheduleProg :=
  need_reverse ← ximport (need_reverse_ v);
  MapCurrentBlockPermaloc in_signal;;
  op [plain_calls [CallIfReg1 current_block_permaloc_]; bind_to (dst_detector in_signal) current_block_detector_];;
  op [if_var true (is_moving_ v); plain_calls [CallIfReg1 current_block_permaloc_; CallActReg1 need_reverse]];;
  is_reversed ← ximport (is_reversed_ v);
  op [plain_calls [CallIfState StWaiting; CallIfReg1 current_block_permaloc_; CallIfReg1 current_block_detector_;
                   CallIfReg1 need_reverse; CallActReg0 need_reverse; CallActState StBeforeReverseWait;
                   CallActTimer 3]];;
  op [plain_calls [CallIfState StBeforeReverseWait; CallIfReg1 current_block_permaloc_; CallIfTimerDone;
                   CallIfReg0 is_reversed; CallActReg1 is_reversed; CallActState StReverseSendCommand]];;
  op [plain_calls [CallIfState StBeforeReverseWait; CallIfReg1 current_block_permaloc_; CallIfTimerDone;
                   CallIfReg1 is_reversed; CallActReg0 is_reversed; CallActState StReverseSendCommand]];;
  op [plain_calls [CallIfState StReverseSendCommand; CallIfReg1 current_block_permaloc_;
                   CallActSetId (train_node_id_ v); CallActLoadSpeed true 0]];;
  op [plain_calls [CallIfState StReverseSendCommand; CallIfReg1 current_block_permaloc_; CallIfReg1 is_reversed;
                   CallActSpeedReverse]];;
  op [plain_calls [CallIfState StReverseSendCommand; CallIfReg1 current_block_permaloc_; CallIfReg1 is_reversed];
      act_var true (last_set_reversed_ v)];;
  op [plain_calls [CallIfState StReverseSendCommand; CallIfReg1 current_block_permaloc_; CallIfReg0 is_reversed];
      act_var false (last_set_reversed_ v)];;
  op [plain_calls [CallIfState StReverseSendCommand; CallIfReg1 current_block_permaloc_; CallIfSetSpeed;
                   CallActState StReverseDoneWait; CallActTimer 3]];;
  op [plain_calls [CallIfState StReverseDoneWait; CallIfReg1 current_block_permaloc_; CallIfTimerDone;
                   CallActState StWaiting]].

Definition AddCurrentOutgoingConditions : prog Schedule (list OpCall) :=
  loc ← current_location;
  mret (CallIfReg1 current_block_routingloc_ ::
        (if respect_direction_ loc then [CallIfReg1 current_direction_] else [])).

(** The variables of a [MagnetBase]. *)
Definition SwitchTurnout (magnet : MagnetDef) (desired_state : bool) : ScheduleProg :=
  op [plain_calls [CallIfState StTurnout]; AddCurrentOutgoingConditions;
      bind_to (command magnet) magnet_command_; bind_to (current_state magnet) magnet_state_;
      bind_to (locked magnet) magnet_locked_];;
  op [plain_calls [CallIfState StTurnout]; AddCurrentOutgoingConditions;
      plain_calls [CallIfReg0 magnet_locked_; CallActReg magnet_command_ desired_state]];;
  op [plain_calls [CallIfState StTurnout]; AddCurrentOutgoingConditions;
      plain_calls [CallIfReg magnet_state_ (negb desired_state); CallActState StTurnoutFailed]].

Definition HandleBaseStates : ScheduleProg :=
  op [plain_calls [CallIfState StRequestGreen; CallIfReg0 routing_block_request_green_;
                   CallActReg1 routing_block_request_green_; CallActState StGreenRequested]];;
  op [plain_calls [CallIfState StGreenRequested; CallIfReg0 routing_block_request_green_;
                   CallIfReg0 routing_block_route_out_; CallActState StGreenFailed]];;
  op [plain_calls [CallIfState StGreenRequested; CallIfReg1 routing_block_route_out_];
      if_var true (is_moving_ v); plain_calls [CallActState StRequestTransition]];;
  op [plain_calls [CallIfState StGreenRequested; CallIfReg1 routing_block_route_out_; CallActTimer 2;
                   CallActState StGreenWait]];;
  op [plain_calls [CallIfState StGreenWait; CallIfTimerDone; CallActState StRequestTransition]];;
  op [plain_calls [CallIfState StTransitionDone]; if_var false (is_moving_ v); act_var true (req_go_ v)];;
  op [plain_calls [CallIfState StTransitionDone; CallActState StWaiting]];;
  op [if_var true (is_moving_ v); plain_calls [CallIfReg1 current_block_detector_]; act_var true (req_stop_ v)];;
  op [plain_calls [CallIfState StTurnout; CallActState StRequestGreen]];;
  op [plain_calls [CallIfState StReadyToGo; CallActState StTurnout]];;
  match reset_routes with
  | Some r => op [plain_calls [CallIfState StTurnoutFailed]; if_var true r; plain_calls [CallActState StWaiting]]
  | None => mret tt
  end;;
  op [plain_calls [CallIfState StTurnoutFailed; CallActState StTurnout]];;
  op [plain_calls [CallIfState StWaiting]; if_var true (is_frozen_ v); plain_calls [CallActState StFrozen]];;
  op [plain_calls [CallIfState StFrozen]; if_var false (is_frozen_ v); plain_calls [CallActState StWaiting]].

Definition SendTrainCommands : ScheduleProg :=
  is_reversed ← ximport (is_reversed_ v);
  last_set_reversed ← ximport (last_set_reversed_ v);
  req_start_train ← ximport (req_go_ v);
  req_stop_train ← ximport (req_stop_ v);
  is_moving ← ximport (is_moving_ v);
  op [plain_calls [CallActSetId (train_node_id_ v)]];;
  match speed_var_ v with
  | Some s =>
      op [plain_calls [CallIfReg1 req_start_train]; i ← ximport s; mret [CallActGetValueToSpeed i 0]]
  | None => op [plain_calls [CallIfReg1 req_start_train; CallActLoadSpeed true 40]]
  end;;
  op [plain_calls [CallIfReg1 req_start_train; CallIfReg1 is_reversed; CallActSpeedReverse]];;
  op [plain_calls [CallIfReg1 req_start_train; CallIfReg1 is_reversed; CallActReg1 last_set_reversed]];;
  op [plain_calls [CallIfReg1 req_start_train; CallIfReg0 is_reversed; CallActReg0 last_set_reversed]];;
  op [plain_calls [CallIfReg1 req_start_train; CallIfSetSpeed; CallActReg0 req_start_train; CallActReg1 is_moving]];;
  op [plain_calls [CallIfState StWaiting; CallIfReg1 is_reversed; CallIfReg0 last_set_reversed;
                   CallActReg1 req_stop_train]];;
  op [plain_calls [CallIfState StWaiting; CallIfReg0 is_reversed; CallIfReg1 last_set_reversed;
                   CallActReg1 req_stop_train]];;
  op [plain_calls [CallIfReg1 req_stop_train; CallActLoadSpeed true 0]];;
  op [plain_calls [CallIfReg1 req_stop_train; CallIfReg1 is_reversed; CallActSpeedReverse]];;
  op [plain_calls [CallIfReg1 req_stop_train; CallIfReg1 is_reversed; CallActReg1 last_set_reversed]];;
  op [plain_calls [CallIfReg1 req_stop_train; CallIfReg0 is_reversed; CallActReg0 last_set_reversed]];;
  op [plain_calls [CallIfReg1 req_stop_train; CallIfSetSpeed; CallActReg0 req_stop_train; CallActReg0 is_moving]].

(** The plugins of a schedule, around the [RunTransition] of its class. *)
Definition TrainSchedule (RunTransition : ScheduleProg) : PluginsOf Schedule :=
  let l := AddAutomataPlugin 10000 (on_automata HandleInitState) [] in
  let l := AddAutomataPlugin 9900 HandleInit l in
  let l := AddAutomataPlugin 99 ClearCurrentLocation l in
  let l := AddAutomataPlugin 100 RunTransition l in
  let l := AddAutomataPlugin 199 xClearAutomataVariables l in
  let l := AddAutomataPlugin 200 HandleBaseStates l in
  AddAutomataPlugin 210 SendTrainCommands l.

Definition schedule_body (RunTransition : ScheduleProg) : ScheduleProg := RunAll (TrainSchedule RunTransition).

(** A condition that tests variables, as the layouts write them. *)
Fixpoint tests (l : list (nat * bool)) : prog AutomataDef (list OpCall) :=
  match l with
  | [] => mret []
  | (k, b) :: l => i ← import gid k; cs ← tests l; mret (CallIfReg i b :: cs)
  end.

Definition own_call (c : OwnCall nat) : prog Schedule (list OpCall) :=
  match c with
  | IfHere b => plain_calls [CallIfReg current_block_permaloc_ b]
  | IfStateIs s => plain_calls [CallIfState s]
  | IfVariable k b => if_var b k
  | SetVariable k b => act_var b k
  end.

Fixpoint import_all (l : list nat) : ScheduleProg :=
  match l with
  | [] => mret tt
  | k :: l => ximport k;; import_all l
  end.

Fixpoint own_operations (l : list (list (OwnCall nat))) : ScheduleProg :=
  match l with
  | [] => mret tt
  | cs :: l => op (List.map own_call cs);; own_operations l
  end.

(** The calls that subclasses make in [RunTransition]; the lock is acquired and
    released by the life of an object.  [Operations] are variables that the
    subclass imports, and operations of its own. *)
Inductive ScheduleCall :=
| Transition (source dest : SignalBlock) (client : option FlipFlopClient) (condition : list (nat * bool)) (eager : bool)
| Turnout (magnet : MagnetDef) (desired_state : bool)
| ReverseAtStub (in_signal : SignalBlock)
| StopAt (dest : SignalBlock)
| ClearVariables
| BeginLock (lock : nat)
| EndLock
| Operations (imports : list nat) (ops : list (list (OwnCall nat))).

Definition schedule_call (c : ScheduleCall) : ScheduleProg :=
  match c with
  | Transition source dest client condition eager =>
      AddBlockTransitionOnPermit source dest client (Some (tests condition)) eager
  | Turnout magnet desired_state => SwitchTurnout magnet desired_state
  | ReverseAtStub in_signal => StopAndReverseAtStub in_signal
  | StopAt dest => StopTrainAt dest
  | ClearVariables => xClearAutomataVariables
  | BeginLock lock => WithRouteLock lock
  | EndLock => WithRouteLock_delete
  | Operations imports ops => import_all imports;; own_operations ops
  end.

Fixpoint schedule_calls (l : list ScheduleCall) : ScheduleProg :=
  match l with
  | [] => mret tt
  | c :: l => schedule_call c;; schedule_calls l
  end.

End Schedule.

(** What the preamble pass of the board leaves in the members: the body was run
    once without an output. *)
Definition preamble {T} (body : prog (Building T) unit) (a : AutomataDef) (t : T) : option T :=
  match body (mkBuilding (ClearUsedVariables (set_output None a)) t) with
  | Done _ s => Some (members s)
  | _ => None
  end.

Definition new_Members (next : nat) : Members := mkMembers ∅ ∅ None None next.
