(* ===== verification/ScheduleBuild.v ===== *)
(** The rules that the body of a train schedule builds. *)

From stdpp Require Import strings.
From S2P Require Import Prelude AutomataDefs Automata AutomataTermination AutomataOps AutomataSim AutomataBuild ControlRules ControlLogic ControlTurnouts ScheduleRules TrainSchedule.

(** ** Rules *)

Definition xtest (t : Term) (b : bool) : XGuard := XReg t b.
Definition here_permaloc : Term := Alias current_block_permaloc_.
Definition here_routingloc : Term := Alias current_block_routingloc_.
Definition here_detector : Term := Alias current_block_detector_.
Definition direction : Term := Alias current_direction_.

Definition opt {A} (b : bool) (l : list A) : list A := if b then l else [].

(** A transition with its variables: the locations of its blocks, the bit of its
    direction if there is one, whether the direction is respected, and the lock
    that it needs. *)
Record Leg := mkLeg {
  leg_source : SignalBlock;
  leg_dest : SignalBlock;
  leg_from : ScheduleLocation;
  leg_to : ScheduleLocation;
  leg_direction : option nat;
  leg_respects : bool;
  leg_client : option FlipFlopClient;
  leg_condition : list (nat * bool);
  leg_eager : bool;
  leg_lock : option nat
}.

Section Rules.
Context (reset_routes : option nat) (v : ScheduleVars).

Definition bind_rules (l : Leg) : list XRule :=
  [ mkXRule [] [XBind current_block_permaloc_ (permaloc (leg_from l))];
    mkXRule [] [XBind current_block_routingloc_ (routingloc (leg_from l))] ] ++
  match leg_direction l with
  | Some k => [mkXRule [] [XBind current_direction_ k]]
  | None => []
  end ++
  [ mkXRule [] [XBind next_block_blocked_ (auto_blocked (leg_dest l))];
    mkXRule [XReg here_permaloc true]
      [XBind perma_block_route_out_ (route_out (leg_source l));
       XBind current_block_detector_ (src_detector (leg_source l))] ].

Definition head_rules (l : Leg) : list XRule :=
  if leg_eager l then
    [ mkXRule [XReg here_permaloc true; XReg here_routingloc false; XReg (Alias perma_block_route_out_) false]
        [XWrite here_routingloc true];
      mkXRule [XReg here_routingloc true] [XBind next_block_route_in_ (route_in (leg_source l))];
      mkXRule [XState StWaiting; XReg here_routingloc true; XReg here_permaloc false;
               XReg (Alias next_block_route_in_) false] [XWrite here_routingloc false] ]
  else
    [ mkXRule [XReg here_permaloc false; XReg here_routingloc true] [XWrite here_routingloc false];
      mkXRule [XReg here_permaloc true; XReg here_routingloc false] [XWrite here_routingloc true] ].

Definition move_rules (l : Leg) : list XRule :=
  mkXRule [XReg here_permaloc true] [XBind next_block_permaloc_ (permaloc (leg_to l))] ::
  opt (leg_eager l)
    [ mkXRule ([XReg (Var (is_moving_ v)) true; XReg here_permaloc true; XReg here_detector true;
                XReg (Alias perma_block_route_out_) true] ++
               opt (leg_respects l) [XReg direction true] ++ [XReg here_routingloc false])
              ([XWrite here_permaloc false] ++ opt (leg_respects l) [XWrite direction false] ++
               [XWrite (Alias next_block_permaloc_) true;
                XBind current_block_detector_ (dst_detector (leg_dest l))]) ].

Definition route_bind_rules (l : Leg) : list XRule :=
  [ mkXRule [XReg here_routingloc true]
      [XBind routing_block_request_green_ (request_green (leg_source l));
       XBind routing_block_route_out_ (route_out (leg_source l))];
    mkXRule [XReg here_routingloc true]
      [XBind next_block_detector_ (dst_detector (leg_dest l));
       XBind next_block_routingloc_ (routingloc (leg_to l));
       XBind next_block_route_in_ (route_in (leg_dest l))] ] ++
  match leg_client l with
  | Some c => [mkXRule [] [XBind permit_request_ (request c); XBind permit_granted_ (granted c);
                           XBind permit_taken_ (taken c)]]
  | None => []
  end.

Definition has_permit (l : Leg) : bool := bool_decide (is_Some (leg_client l)).

Definition lock_guard (l : Leg) : list XGuard :=
  match leg_lock l with Some k => [XReg (Var k) false] | None => [] end.
Definition lock_effect (l : Leg) (b : bool) : list XEffect :=
  match leg_lock l with Some k => [XWrite (Var k) b] | None => [] end.

(** What is tested of the destination and the rest of the layout. *)
Definition clear_guards (l : Leg) : list XGuard :=
  opt (negb (leg_eager l)) [XReg here_detector true] ++
  [ XReg (Alias next_block_detector_) false; XReg (Alias routing_block_route_out_) false;
    XReg (Alias next_block_route_in_) false; XReg (Alias next_block_blocked_) false;
    XReg (Var (is_frozen_ v)) false ] ++
  List.map (fun '(k, b) => XReg (Var k) b) (leg_condition l).

Definition test_rules (l : Leg) : list XRule :=
  [ mkXRule [XState StTestCondition] [XGoto StWaiting];
    mkXRule [XState StTestCondition2] [XGoto StWaiting];
    mkXRule [XState StWaiting; XReg here_routingloc true] [XGoto StTestCondition];
    mkXRule (XState StTestCondition :: clear_guards l) [XGoto StTestCondition2] ] ++
  opt (has_permit l)
    [ mkXRule [XState StTestCondition2] [XWrite (Alias permit_request_) true];
      mkXRule [XState StTestCondition] [XWrite (Alias permit_request_) false];
      mkXRule [XReg here_routingloc true; XReg (Alias routing_block_route_out_) true]
        [XWrite (Alias permit_request_) false] ] ++
  [ mkXRule [XState StTestCondition] [XGoto StWaiting] ].

Definition go_rules (l : Leg) : list XRule :=
  [ mkXRule (XState StTestCondition2 :: opt (has_permit l) [XReg (Alias permit_request_) true] ++
             opt (has_permit l) [XReg (Alias permit_granted_) true] ++ lock_guard l)
      (lock_effect l true ++ opt (has_permit l) [XWrite (Alias permit_request_) false] ++
       opt (has_permit l) [XWrite (Alias permit_granted_) false] ++
       opt (has_permit l) [XWrite (Alias permit_taken_) true] ++
       opt (leg_respects l) [XWrite direction true] ++ [XGoto StReadyToGo]);
    mkXRule [XState StTestCondition2] [XGoto StWaiting] ] ++
  opt (leg_respects l)
    [mkXRule [XState StWaiting; XReg here_routingloc true; XReg direction true] [XWrite direction false]].

Definition here (l : Leg) : Term := if leg_eager l then here_routingloc else here_permaloc.

Definition finish_rules (l : Leg) : list XRule :=
  [ mkXRule ([XState StRequestTransition; XReg (here l) true] ++ opt (leg_respects l) [XReg direction true])
      (lock_effect l false ++ opt (negb (leg_eager l)) [XWrite here_permaloc false] ++
       [XWrite here_routingloc false] ++ opt (negb (leg_eager l)) [XWrite (Alias next_block_permaloc_) true] ++
       [XWrite (Alias next_block_routingloc_) true] ++
       opt (negb (leg_eager l) && leg_respects l) [XWrite direction false] ++ [XGoto StTransitionDone]);
    mkXRule ([XState StGreenFailed; XReg (here l) true] ++ opt (leg_respects l) [XReg direction true])
      (lock_effect l false ++ [XGoto StWaiting]) ].

Definition leg_rules (l : Leg) : list XRule :=
  bind_rules l ++ head_rules l ++ move_rules l ++ route_bind_rules l ++ test_rules l ++ go_rules l ++ finish_rules l.

(** The other calls. *)
Definition map_rules (loc : ScheduleLocation) : list XRule :=
  [ mkXRule [] [XBind current_block_permaloc_ (permaloc loc)];
    mkXRule [] [XBind current_block_routingloc_ (routingloc loc)] ].

Definition stop_rules (loc : ScheduleLocation) (b : SignalBlock) : list XRule :=
  map_rules loc ++ [mkXRule [XReg here_permaloc true] [XBind current_block_detector_ (dst_detector b)]].

Definition reverse_rules (loc : ScheduleLocation) (b : SignalBlock) : list XRule :=
  let need := Var (need_reverse_ v) in
  let rev := Var (is_reversed_ v) in
  let last := Var (last_set_reversed_ v) in
  stop_rules loc b ++
  [ mkXRule [XReg (Var (is_moving_ v)) true; XReg here_permaloc true] [XWrite need true];
    mkXRule [XState StWaiting; XReg here_permaloc true; XReg here_detector true; XReg need true]
      [XWrite need false; XGoto StBeforeReverseWait; XWait 3];
    mkXRule [XState StBeforeReverseWait; XReg here_permaloc true; XTimer false; XReg rev false]
      [XWrite rev true; XGoto StReverseSendCommand];
    mkXRule [XState StBeforeReverseWait; XReg here_permaloc true; XTimer false; XReg rev true]
      [XWrite rev false; XGoto StReverseSendCommand];
    mkXRule [XState StReverseSendCommand; XReg here_permaloc true] [XTrain; XTrain];
    mkXRule [XState StReverseSendCommand; XReg here_permaloc true; XReg rev true] [XTrain];
    mkXRule [XState StReverseSendCommand; XReg here_permaloc true; XReg rev true] [XWrite last true];
    mkXRule [XState StReverseSendCommand; XReg here_permaloc true; XReg rev false] [XWrite last false];
    mkXRule [XState StReverseSendCommand; XReg here_permaloc true; XSent] [XGoto StReverseDoneWait; XWait 3];
    mkXRule [XState StReverseDoneWait; XReg here_permaloc true; XTimer false] [XGoto StWaiting] ].

Definition outgoing_guards (respects : bool) : list XGuard :=
  XReg here_routingloc true :: opt respects [XReg direction true].

Definition turnout_rules (respects : bool) (m : MagnetDef) (desired : bool) : list XRule :=
  [ mkXRule (XState StTurnout :: outgoing_guards respects)
      [XBind magnet_command_ (command m); XBind magnet_state_ (current_state m); XBind magnet_locked_ (locked m)];
    mkXRule (XState StTurnout :: outgoing_guards respects ++ [XReg (Alias magnet_locked_) false])
      [XWrite (Alias magnet_command_) desired];
    mkXRule (XState StTurnout :: outgoing_guards respects ++ [XReg (Alias magnet_state_) (negb desired)])
      [XGoto StTurnoutFailed] ].

Definition base_rules : list XRule :=
  let moving := Var (is_moving_ v) in
  let green := Alias routing_block_request_green_ in
  let out := Alias routing_block_route_out_ in
  [ mkXRule [XState StRequestGreen; XReg green false] [XWrite green true; XGoto StGreenRequested];
    mkXRule [XState StGreenRequested; XReg green false; XReg out false] [XGoto StGreenFailed];
    mkXRule [XState StGreenRequested; XReg out true; XReg moving true] [XGoto StRequestTransition];
    mkXRule [XState StGreenRequested; XReg out true] [XWait 2; XGoto StGreenWait];
    mkXRule [XState StGreenWait; XTimer false] [XGoto StRequestTransition];
    mkXRule [XState StTransitionDone; XReg moving false] [XWrite (Var (req_go_ v)) true];
    mkXRule [XState StTransitionDone] [XGoto StWaiting];
    mkXRule [XReg moving true; XReg here_detector true] [XWrite (Var (req_stop_ v)) true];
    mkXRule [XState StTurnout] [XGoto StRequestGreen];
    mkXRule [XState StReadyToGo] [XGoto StTurnout] ] ++
  match reset_routes with
  | Some r => [mkXRule [XState StTurnoutFailed; XReg (Var r) true] [XGoto StWaiting]]
  | None => []
  end ++
  [ mkXRule [XState StTurnoutFailed] [XGoto StTurnout];
    mkXRule [XState StWaiting; XReg (Var (is_frozen_ v)) true] [XGoto StFrozen];
    mkXRule [XState StFrozen; XReg (Var (is_frozen_ v)) false] [XGoto StWaiting] ].

Definition train_rules : list XRule :=
  let rev := Var (is_reversed_ v) in
  let last := Var (last_set_reversed_ v) in
  let start := Var (req_go_ v) in
  let stop := Var (req_stop_ v) in
  let moving := Var (is_moving_ v) in
  [ mkXRule [] [XTrain];
    mkXRule [XReg start true] [XTrain];
    mkXRule [XReg start true; XReg rev true] [XTrain];
    mkXRule [XReg start true; XReg rev true] [XWrite last true];
    mkXRule [XReg start true; XReg rev false] [XWrite last false];
    mkXRule [XReg start true; XSent] [XWrite start false; XWrite moving true];
    mkXRule [XState StWaiting; XReg rev true; XReg last false] [XWrite stop true];
    mkXRule [XState StWaiting; XReg rev false; XReg last true] [XWrite stop true];
    mkXRule [XReg stop true] [XTrain];
    mkXRule [XReg stop true; XReg rev true] [XTrain];
    mkXRule [XReg stop true; XReg rev true] [XWrite last true];
    mkXRule [XReg stop true; XReg rev false] [XWrite last false];
    mkXRule [XReg stop true; XSent] [XWrite stop false; XWrite moving false] ].

Definition init_rules : list XRule :=
  [ mkXRule [XState StBase] [XWrite (Var (last_set_reversed_ v)) false; XGoto StWaiting];
    mkXRule [XState StInit] [XGoto StBase] ].

(** ** The parts of a schedule *)

Inductive Part :=
| PLeg (l : Leg)
| PTurnout (respects : bool) (m : MagnetDef) (desired : bool)
| PReverse (loc : ScheduleLocation) (b : SignalBlock)
| PStop (loc : ScheduleLocation) (b : SignalBlock).

Definition part_rules (p : Part) : list XRule :=
  match p with
  | PLeg l => leg_rules l
  | PTurnout respects m desired => turnout_rules respects m desired
  | PReverse loc b => reverse_rules loc b
  | PStop loc b => stop_rules loc b
  end.

Definition schedule_rules (parts : list Part) : list XRule :=
  (parts ≫= part_rules) ++ base_rules ++ train_rules ++ init_rules.

(** The leg that a transition is when the members are [t], without a preamble,
    and the members after it. *)
Definition resolve_leg (source dest : SignalBlock) (client : option FlipFlopClient) (condition : list (nat * bool))
    (eager : bool) (t : Members) : Leg * Members :=
  let (loc, t1) := AllocateOrGetLocationByBlock source t in
  let t2 := set_current_location (Some (block_name source)) t1 in
  let directed := bool_decide (is_Some client) || (1 <? num_directions_ loc) in
  let (dir, t3) :=
    if directed then
      let (k, t3) := GetHelperBit (request <$> client) (transition_name source dest) t2 in
      (Some k, alter_location respecting t3)
    else (None, t2) in
  let (dest_loc, t4) := AllocateOrGetLocationByBlock dest t3 in
  (mkLeg source dest loc dest_loc dir (directed || respect_direction_ loc) client condition eager
     (route_set_lock_var_ t), t4).

(** Whether the direction is respected at the current location. *)
Definition current_respects (t : Members) : option bool :=
  name ← current_location_ t; loc ← location_map_ t !! name; Some (respect_direction_ loc).

(** [None]: an assertion fails, or a class adds operations of its own, of which
    these rules say nothing. *)
Definition resolve_call (c : ScheduleCall) (t : Members) : option (list Part * Members) :=
  match c with
  | Transition source dest client condition eager =>
      let (l, t') := resolve_leg source dest client condition eager t in Some ([PLeg l], t')
  | Turnout m desired => r ← current_respects t; Some ([PTurnout r m desired], t)
  | ReverseAtStub b =>
      let (loc, t1) := AllocateOrGetLocationByBlock b t in
      Some ([PReverse loc b], set_current_location (Some (block_name b)) t1)
  | StopAt b =>
      let (loc, t1) := AllocateOrGetLocationByBlock b t in
      Some ([PStop loc b], set_current_location (Some (block_name b)) t1)
  | ClearVariables => Some ([], t)
  | BeginLock k => if bool_decide (is_Some (route_set_lock_var_ t)) then None else Some ([], set_route_lock (Some k) t)
  | EndLock => Some ([], set_route_lock None t)
  | Operations _ _ => None
  end.

Fixpoint resolve (l : list ScheduleCall) (t : Members) : option (list Part * Members) :=
  match l with
  | [] => Some ([], t)
  | c :: l =>
      '(ps, t1) ← resolve_call c t;
      '(qs, t2) ← resolve l t1;
      Some (ps ++ qs, t2)
  end.

End Rules.

(** ** Operations with imports *)

(** The reserved local variables. *)
Definition local_ids : gset Z := list_to_set (List.map Z.of_nat (seq 1 18)).

Lemma reserve_locals_ids :
  exists a, reserve_locals AutomataDef_new = Done (List.map Z.of_nat (seq 1 18)) a /\
    reserved_variables_ a = local_ids.
Proof. eexists. split; [vm_compute; reflexivity|]. apply set_eq. intros x. unfold local_ids. set_solver. Qed.

Lemma local_ids_range r : r ∈ local_ids -> 1 <= r < MAX_IMPORT_VAR.
Proof.
  unfold local_ids. rewrite elem_of_list_to_set, list_elem_of_In, in_map_iff. intros (n & <- & [H1 H2]%in_seq).
  unfold MAX_IMPORT_VAR. lia.
Qed.

(** A decidable fact, by computing. *)
Ltac decided := apply (bool_decide_unpack _); vm_compute; exact I.

Section Makes.
Context (gid : nat -> option GlobalVariableId) (v : ScheduleVars).
Context (Hargs : args_ok gid).

Abbreviation speed := (speed_var_ v).
Abbreviation xbuilds := (xbuilds gid local_ids speed).
Abbreviation calls_xrule := (calls_xrule gid local_ids speed).
Abbreviation Schedule := (Building Members).

Definition more (G G1 : Facts) : Prop := forall f i, In (f, i) G -> In (f, i) G1.

Lemma calls_xrule_more G G1 cs gs xs : more G G1 -> calls_xrule G cs gs xs -> calls_xrule G1 cs gs xs.
Proof.
  intros HG H.
  assert (Ht : forall t i, term_named local_ids G t i -> term_named local_ids G1 t i).
  { intros t i [k j Hi|r Hr]; constructor; auto. }
  induction H; econstructor; eauto.
Qed.

(** [m] makes calls that add the guards [gs] and the effects [xs]. *)
Definition makes (G : Facts) (t : Members) (m : prog Schedule (list OpCall)) (gs : list XGuard) (xs : list XEffect) : Prop :=
  forall G0 f rs G' t', more G G0 ->
    (forall G1 cs, more G0 G1 -> calls_xrule G1 cs gs xs -> xbuilds G1 t (f cs) rs G' t') ->
    xbuilds G0 t (cs ← m; f cs) rs G' t'.

Inductive makes_all (G : Facts) (t : Members) : list (prog Schedule (list OpCall)) -> list XGuard -> list XEffect -> Prop :=
| makes_nil : makes_all G t [] [] []
| makes_cons m l gs xs gs' xs' :
    makes G t m gs xs -> makes_all G t l gs' xs' -> makes_all G t (m :: l) (gs ++ gs') (xs ++ xs').

Lemma makes_plain G t cs gs xs : calls_xrule G cs gs xs -> makes G t (plain_calls cs) gs xs.
Proof.
  intros H G0 f rs G' t' HG Hf. apply (xbuilds_ext gid local_ids speed G0 t _ (f cs)); [done|].
  apply Hf; [by intros ? ?|]. by apply (calls_xrule_more G).
Qed.

Lemma makes_import G t k (g : Z -> list OpCall) gs xs :
  (forall G0 i, more G G0 -> In (Some k, i) G0 -> calls_xrule G0 (g i) gs xs) ->
  makes G t (i ← ximport gid k; mret (g i)) gs xs.
Proof.
  intros Hg G0 f rs G' t' HG Hf.
  apply (xbuilds_ext gid local_ids speed G0 t _ (i ← on_automata (import gid k); f (g i))).
  { intros s. unfold ximport, mbind, prog_bind, mret, prog_ret. by destruct (on_automata _ s). }
  apply xbuilds_import; [done|]. intros i. apply Hf.
  - intros f' j H. by right.
  - apply Hg; [intros f' j H; right; by apply HG|by left].
Qed.

Lemma makes_if_var G t b k : makes G t (if_var gid b k) [XReg (Var k) b] [].
Proof.
  apply makes_import. intros G0 i _ Hi. destruct b; constructor; by constructor.
Qed.

Lemma makes_act_var G t b k : makes G t (act_var gid b k) [] [XWrite (Var k) b].
Proof.
  apply makes_import. intros G0 i _ Hi. destruct b; constructor; by constructor.
Qed.

Lemma makes_bind_to G t k r : r ∈ local_ids -> makes G t (bind_to gid k r) [] [XBind r k].
Proof.
  intros Hr G0 f rs G' t' HG Hf. unfold bind_to. apply xbuilds_import_to; [done..|].
  intros cs Hcs. apply Hf; [by intros ? ?|done].
Qed.

Lemma makes_bind G t m (k : list OpCall -> prog Schedule (list OpCall)) gs xs gs' xs' :
  makes G t m gs xs -> (forall G0 cs, more G G0 -> calls_xrule G0 cs gs xs -> makes G0 t (k cs) gs' xs') ->
  makes G t (cs ← m; k cs) gs' xs'.
Proof.
  intros Hm Hk G0 f rs G' t' HG Hf.
  apply (xbuilds_ext gid local_ids speed G0 t _ (cs ← m; cs' ← k cs; f cs')).
  { intros s. unfold mbind, prog_bind. by destruct (m s). }
  apply Hm; [done|]. intros G1 cs HG1 Hcs.
  assert (H1 : more G G1) by (intros ? ? ?; auto).
  apply (Hk G1 cs H1 Hcs G1 f rs G' t'); [by intros ? ?|]. intros G2 cs' HG2 Hcs'. apply Hf; [|done].
  intros ? ? ?. by apply HG2, HG1.
Qed.

Lemma makes_more G G0 t m gs xs : more G G0 -> makes G t m gs xs -> makes G0 t m gs xs.
Proof. intros HG Hm G1 f rs G' t' H1 Hf. apply Hm; [intros ? ? ?; auto|done]. Qed.

Lemma makes_sequence G t l gs xs : makes_all G t l gs xs -> makes G t (sequence l) gs xs.
Proof.
  intros H. induction H as [|m l gs xs gs' xs' Hm Hl IH].
  - intros G0 f rs G' t' HG Hf. apply (xbuilds_ext gid local_ids speed G0 t _ (f [])); [done|].
    apply Hf; [by intros ? ?|constructor].
  - cbn [sequence]. apply (makes_bind G t m _ gs xs); [done|]. intros G0 cs HG Hcs.
    apply (makes_bind G0 t _ _ gs' xs'); [by apply (makes_more G)|]. intros G1 cs' HG1 Hcs'.
    apply makes_plain. apply calls_xrule_app; [by apply (calls_xrule_more G0)|done].
Qed.

Lemma makes_get_lock G t (k : option nat -> prog Schedule (list OpCall)) gs xs :
  makes G t (k (route_set_lock_var_ t)) gs xs -> makes G t (l ← get_route_lock; k l) gs xs.
Proof.
  intros Hk G0 f rs G' t' HG Hf.
  apply (xbuilds_ext gid local_ids speed G0 t _ (l ← get_route_lock; cs ← k l; f cs)); [done|].
  unfold get_route_lock. eapply xbuilds_members; [done|]. by apply Hk.
Qed.

Lemma makes_acquire G t :
  makes G t (RouteLockAcquire gid)
    (match route_set_lock_var_ t with Some k => [XReg (Var k) false] | None => [] end)
    (match route_set_lock_var_ t with Some k => [XWrite (Var k) true] | None => [] end).
Proof.
  unfold RouteLockAcquire. apply makes_get_lock. destruct (route_set_lock_var_ t) as [k|].
  - intros G0 f rs G' t' HG Hf.
    apply (xbuilds_ext gid local_ids speed G0 t _
             (i ← on_automata (import gid k); j ← on_automata (import gid k); f [CallIfReg0 i; CallActReg1 j])).
    { intros s. unfold ximport, mbind, prog_bind, mret, prog_ret. destruct (on_automata _ s) as [i s1| |]; [|done..].
      by destruct (on_automata _ s1). }
    apply xbuilds_import; [done|]. intros i. apply xbuilds_import; [done|]. intros j.
    apply Hf; [intros f' n H; right; by right|].
    constructor; [constructor; right; by left|]. constructor; [constructor; by left|]. constructor.
  - apply makes_plain. constructor.
Qed.

Lemma makes_release G t :
  makes G t (RouteLockRelease gid) []
    (match route_set_lock_var_ t with Some k => [XWrite (Var k) false] | None => [] end).
Proof.
  unfold RouteLockRelease. apply makes_get_lock. destruct (route_set_lock_var_ t) as [k|].
  - by apply (makes_act_var G t false k).
  - apply makes_plain. constructor.
Qed.

Lemma makes_tests G t l :
  makes G t (callback (Some (tests gid l))) (List.map (fun '(k, b) => XReg (Var k) b) l) [].
Proof.
  unfold callback. cbn [RunCallback]. revert G. induction l as [|[k b] l IH]; intros G.
  - apply makes_plain. constructor.
  - intros G0 f rs G' t' HG Hf.
    apply (xbuilds_ext gid local_ids speed G0 t _
      (i ← on_automata (import gid k); cs ← on_automata (tests gid l); f (CallIfReg i b :: cs))).
    { intros s. cbn [tests]. unfold on_automata, mbind, prog_bind, mret, prog_ret. cbn [automata_of members].
      destruct (import gid k (automata_of s)) as [i a1| |]; [|done..]. cbn [automata_of members].
      by destruct (tests gid l a1). }
    apply xbuilds_import; [done|]. intros i.
    apply (IH ((Some k, i) :: G0)); [by intros ? ?|]. intros G1 cs HG1 Hcs. apply Hf.
    + intros f' j H. apply HG1. by right.
    + constructor; [|done]. constructor. apply HG1. by left.
Qed.

(** The conditions that a turnout adds, at a location. *)
Lemma makes_outgoing G t r :
  current_respects t = Some r -> makes G t AddCurrentOutgoingConditions (outgoing_guards r) [].
Proof.
  unfold current_respects. destruct (current_location_ t) as [name|] eqn:En; [|done]. cbn.
  destruct (location_map_ t !! name) as [loc|] eqn:El; [|done]. intros [= <-].
  intros G0 f rs G' t' HG Hf.
  apply (xbuilds_ext gid local_ids speed G0 t _ (fun s =>
     match current_location s with
     | Done loc s => f (CallIfReg1 current_block_routingloc_ ::
                          (if respect_direction_ loc then [CallIfReg1 current_direction_] else [])) s
     | Failed s => Failed s
     | Crashed k => Crashed k
     end)).
  { intros s. unfold AddCurrentOutgoingConditions, mbind, prog_bind, mret, prog_ret. by destruct (current_location s). }
  intros Hown a out s Hok Hres Hk Ho Hs. unfold current_location in Hs. cbn [members] in Hs. rewrite En, El in Hs.
  refine (Hf G0 _ ltac:(by intros ? ?) _ Hown a out s Hok Hres Hk Ho Hs). unfold outgoing_guards.
  constructor; [constructor; decided|]. destruct (respect_direction_ loc); cbn [opt]; [|constructor].
  constructor; [constructor; decided|constructor].
Qed.

Lemma calls_nonempty G cs gs xs : calls_xrule G cs gs xs -> gs ++ List.map (fun _ => XSent) xs <> [] -> cs <> [].
Proof. by intros [] ?. Qed.

Lemma xbuilds_op_then G t l gs xs gs' xs' k rs G' t' :
  makes_all G t l gs xs -> gs = gs' -> xs = xs' -> gs' ++ List.map (fun _ => XSent) xs' <> [] ->
  xbuilds G t k rs G' t' -> xbuilds G t (op l;; k) (mkXRule gs' xs' :: rs) G' t'.
Proof.
  intros Hl -> -> Hne Hk. apply (xbuilds_bind gid local_ids speed G t _ [_] G t); [|done].
  apply (makes_sequence G t l _ _ Hl G _ _ _ _ ltac:(by intros ? ?)). intros G1 cs HG Hcs.
  apply (xbuilds_weaken gid local_ids speed G1 G1 t _ _ G1); [|done|done].
  apply xbuilds_def; [done|apply local_ids_range| |done]. by eapply calls_nonempty.
Qed.

Lemma xbuilds_op G t l gs xs gs' xs' :
  makes_all G t l gs xs -> gs = gs' -> xs = xs' -> gs' ++ List.map (fun _ => XSent) xs' <> [] ->
  xbuilds G t (op l) [mkXRule gs' xs'] G t.
Proof.
  intros Hl -> -> Hne.
  apply (makes_sequence G t l _ _ Hl G _ _ _ _ ltac:(by intros ? ?)). intros G1 cs HG Hcs.
  apply (xbuilds_weaken gid local_ids speed G1 G1 t _ _ G1); [|done|done].
  apply xbuilds_def; [done|apply local_ids_range| |done]. by eapply calls_nonempty.
Qed.

Lemma calls_opt G (b : bool) cs gs xs :
  calls_xrule G cs gs xs -> calls_xrule G (MaybeIf b cs) (opt b gs) (opt b xs).
Proof. destruct b; [done|]. intros _. constructor. Qed.

Lemma xbuilds_same G (t : Members) m rs t' G1 : xbuilds G t m rs G1 t' -> more G G1 -> xbuilds G t m rs G t'.
Proof. intros H HG. by apply (xbuilds_weaken gid local_ids speed G G t _ _ G1). Qed.

End Makes.
