(* ===== verification/ScheduleOps.v ===== *)
(** The operations of a train schedule build the rules of [ScheduleBuild]. *)

From stdpp Require Import strings.
From S2P Require Import Prelude AutomataDefs Automata AutomataTermination AutomataOps AutomataSim AutomataBuild ControlRules ControlLogic ControlTurnouts ScheduleRules TrainSchedule ScheduleBuild.

(** ** Automation *)

Ltac fact_in := repeat first [left; reflexivity | eassumption | right].

(** A local variable is the one that a term names. *)
Ltac named := first [apply named_alias; decided | apply named_var; fact_in].

(** Calls on an operation, without imports. *)
Ltac calls :=
  cbn [MaybeIf app];
  repeat first
    [ apply xrule_nil
    | apply xrule_if0; [named|] | apply xrule_if1; [named|] | apply xrule_if; [named|]
    | apply xrule_done; [fact_in|] | apply xrule_state; [by split|] | apply xrule_sent
    | apply xrule_act0; [named|] | apply xrule_act1; [named|] | apply xrule_act; [named|]
    | apply xrule_goto; [by split|] | apply xrule_timer; [by split|]
    | apply xrule_id; [assumption|] | apply xrule_load; [by split|] | apply xrule_reverse ].

Ltac made := first
  [ apply makes_plain; calls | apply makes_if_var; assumption | apply makes_act_var; assumption
  | apply makes_bind_to; decided | apply makes_acquire; assumption | apply makes_release; assumption
  | apply makes_tests; assumption | eapply makes_outgoing; eassumption ].

(** An operation and its rule. *)
Ltac rule :=
  first [ eapply xbuilds_op_then; [assumption|repeat (apply makes_cons; [made|]); apply makes_nil | | |done|]
        | eapply xbuilds_op; [assumption|repeat (apply makes_cons; [made|]); apply makes_nil | | |done] ];
  [by cbn; rewrite ?app_nil_r|by cbn; rewrite ?app_nil_r|..].

Section Operations.
Context (gid : nat -> option GlobalVariableId) (reset_routes : option nat) (v : ScheduleVars).
Context (Hargs : args_ok gid) (Hid : 0 <= train_node_id_ v < 2 ^ 64).

Abbreviation speed := (speed_var_ v).
Abbreviation xbuilds := (xbuilds gid local_ids speed).
Abbreviation calls_xrule := (calls_xrule gid local_ids).
Abbreviation Schedule := (Building Members).
Abbreviation start := [(@None nat, 0)].

Lemma import_then G t k f rs t' :
  (forall i, xbuilds ((Some k, i) :: G) t (f i) rs ((Some k, i) :: G) t') ->
  xbuilds G t (i ← ximport gid k; f i) rs G t'.
Proof.
  intros H. apply xbuilds_import; [done|]. intros i. eapply xbuilds_weaken; [apply H|done|]. intros f' j Hj. by right.
Qed.

Lemma not_preamble G t k rs G' t' : xbuilds G t (k false) rs G' t' -> xbuilds G t (p ← is_preamble; k p) rs G' t'.
Proof.
  intros H Hown a out s Hok Hres Hk Ho Hs. unfold is_preamble, mbind, prog_bind in Hs. cbn [automata_of] in Hs.
  rewrite Ho in Hs. by apply (H Hown a out s).
Qed.

Lemma located G t name loc k rs G' t' :
  current_location_ t = Some name -> location_map_ t !! name = Some loc ->
  xbuilds G t (k loc) rs G' t' -> xbuilds G t (l ← current_location; k l) rs G' t'.
Proof.
  intros En El H Hown a out s Hok Hres Hk Ho Hs. unfold current_location, mbind, prog_bind in Hs. cbn [members] in Hs.
  rewrite En, El in Hs. by apply (H Hown a out s).
Qed.

Lemma change_members G t (f : Members -> Members) : xbuilds G t (on_members (fun t => (tt, f t))) [] G (f t).
Proof. intros Hown a out s Hok Hres Hkn Ho [= <-]. by apply (xbuilds_ret gid local_ids speed G _ Hown a out). Qed.

(** ** The base states and the commands to the train *)

Lemma HandleInit_builds t :
  xbuilds start t (HandleInit gid v)
    [mkXRule [XState StBase] [XWrite (Var (last_set_reversed_ v)) false; XGoto StWaiting]] start t.
Proof. unfold HandleInit. rule. Qed.

Lemma HandleBaseStates_builds t :
  xbuilds start t (HandleBaseStates gid reset_routes v) (base_rules reset_routes v) start t.
Proof.
  unfold HandleBaseStates, base_rules. do 10 rule. destruct reset_routes as [r|]; cbn [app].
  - do 4 rule.
  - apply (xbuilds_bind gid local_ids speed start t _ [] start t); [apply xbuilds_ret|]. do 3 rule.
Qed.

Lemma load_speed_builds G t (o : option nat) (req : Z) k :
  speed = o -> In (Some k, req) G ->
  xbuilds G t
    match o with
    | Some s => op [plain_calls [CallIfReg1 req]; i ← ximport gid s; mret [CallActGetValueToSpeed i 0]]
    | None => op [plain_calls [CallIfReg1 req; CallActLoadSpeed true 40]]
    end [mkXRule [XReg (Var k) true] [XTrain]] G t.
Proof.
  intros Es Hk. destruct o as [s|]; [|rule].
  assert (Hm : makes gid v G t (i ← ximport gid s; mret [CallActGetValueToSpeed i 0]) [] [XTrain]).
  { apply makes_import; [done|]. intros G0 i _ Hi. eapply xrule_value; [exact Hi|done|apply xrule_nil]. }
  eapply xbuilds_op; [assumption|apply makes_cons; [made|apply makes_cons; [exact Hm|apply makes_nil]]|done..].
Qed.

Lemma SendTrainCommands_builds t :
  xbuilds start t (SendTrainCommands gid v) (train_rules v) start t.
Proof.
  unfold SendTrainCommands, train_rules. do 5 (apply import_then; intros ?). rule.
  eapply (xbuilds_bind gid local_ids speed _ t _ [_]); [apply load_speed_builds; [done|fact_in]|].
  do 11 rule.
Qed.

(** ** Locations *)

Lemma map_current_builds G t b loc t1 k rs G' t' :
  AllocateOrGetLocationByBlock b t = (loc, t1) ->
  xbuilds G (set_current_location (Some (block_name b)) t1) k rs G' t' ->
  xbuilds G t (MapCurrentBlockPermaloc gid b;; k) (map_rules loc ++ rs) G' t'.
Proof.
  intros E Hk. apply (xbuilds_bind gid local_ids speed G t _ _ G (set_current_location (Some (block_name b)) t1)); [|done].
  unfold MapCurrentBlockPermaloc, map_rules. eapply xbuilds_members; [exact E|]. do 2 rule.
  apply change_members.
Qed.

Lemma StopTrainAt_builds t b loc t1 :
  AllocateOrGetLocationByBlock b t = (loc, t1) ->
  xbuilds start t (StopTrainAt gid b) (stop_rules loc b) start (set_current_location (Some (block_name b)) t1).
Proof. intros E. unfold StopTrainAt, stop_rules. eapply map_current_builds; [exact E|]. rule. Qed.

Lemma StopAndReverseAtStub_builds t b loc t1 :
  AllocateOrGetLocationByBlock b t = (loc, t1) ->
  xbuilds start t (StopAndReverseAtStub gid v b) (reverse_rules v loc b) start
    (set_current_location (Some (block_name b)) t1).
Proof.
  intros E. unfold StopAndReverseAtStub, reverse_rules, stop_rules.
  apply import_then. intros need. rewrite <- app_assoc. eapply map_current_builds; [exact E|].
  do 2 rule. apply import_then. intros rev. do 9 rule.
Qed.

Lemma SwitchTurnout_builds t m desired r :
  current_respects t = Some r ->
  xbuilds start t (SwitchTurnout gid m desired) (turnout_rules r m desired) start t.
Proof. intros Hr. unfold SwitchTurnout, turnout_rules. do 3 rule. Qed.

(** ** Transitions *)

Lemma GetHelperBit_keeps ptr name t k t1 :
  GetHelperBit ptr name t = (k, t1) ->
  location_map_ t1 = location_map_ t /\ current_location_ t1 = current_location_ t /\
  route_set_lock_var_ t1 = route_set_lock_var_ t.
Proof. unfold GetHelperBit. destruct (helper_bits_ t !! _); by intros [= _ <-]. Qed.

Lemma AllocateOrGetLocation_finds name t loc t1 :
  AllocateOrGetLocation name t = (loc, t1) ->
  location_map_ t1 !! name = Some loc /\ current_location_ t1 = current_location_ t /\
  route_set_lock_var_ t1 = route_set_lock_var_ t /\ location_map_ t ⊆ location_map_ t1.
Proof.
  unfold AllocateOrGetLocation. destruct (location_map_ t !! name) eqn:E; intros [= <- <-]; [done|]. cbn.
  repeat split; [by simplify_map_eq|by apply insert_subseteq].
Qed.

Lemma AllocateOrGetLocation_again name t loc :
  location_map_ t !! name = Some loc -> AllocateOrGetLocation name t = (loc, t).
Proof. unfold AllocateOrGetLocation. by intros ->. Qed.

Definition directed (client : option FlipFlopClient) (loc : ScheduleLocation) : bool :=
  bool_decide (is_Some client) || (1 <? num_directions_ loc).

(** The bit of a direction, and the members after it was taken. *)
Definition direct (source dest : SignalBlock) (client : option FlipFlopClient) (loc : ScheduleLocation) (t : Members)
    : option nat * Members :=
  if directed client loc then
    let (k, t') := GetHelperBit (request <$> client) (transition_name source dest) t in
    (Some k, alter_location respecting t')
  else (None, t).

Definition direction_rules (dir : option nat) : list XRule :=
  match dir with Some k => [mkXRule [] [XBind current_direction_ k]] | None => [] end.

Lemma direct_keeps source dest client loc t dir t' name :
  direct source dest client loc t = (dir, t') -> current_location_ t = Some name ->
  location_map_ t !! name = Some loc ->
  current_location_ t' = Some name /\ route_set_lock_var_ t' = route_set_lock_var_ t /\
  exists loc', location_map_ t' !! name = Some loc' /\
    respect_direction_ loc' = directed client loc || respect_direction_ loc.
Proof.
  intros E Hn Hl. unfold direct in E. destruct (directed client loc) eqn:Ed.
  - destruct (GetHelperBit _ _ t) as [k t1] eqn:Eg. injection E as _ <-.
    destruct (GetHelperBit_keeps _ _ _ _ _ Eg) as (E1 & E2 & E3). unfold alter_location. rewrite E2, Hn. cbn.
    rewrite E1. repeat split; [congruence..|]. exists (respecting loc). by rewrite lookup_alter_eq, Hl.
  - injection E as _ <-. split; [done|]. split; [done|]. by exists loc.
Qed.

Lemma bind_direction_builds t source dest client loc t1 dir t3 :
  AllocateOrGetLocationByBlock source t = (loc, t1) ->
  direct source dest client loc (set_current_location (Some (block_name source)) t1) = (dir, t3) ->
  xbuilds start t (bind_direction gid source dest client)
    (map_rules loc ++ direction_rules dir ++ [mkXRule [] [XBind next_block_blocked_ (auto_blocked dest)]]) start t3.
Proof.
  intros El Ed. destruct (AllocateOrGetLocation_finds _ _ _ _ El) as (Hf & _). unfold bind_direction.
  eapply map_current_builds; [exact El|]. apply not_preamble. cbn [when_].
  apply (xbuilds_ext gid local_ids speed start _ _
    (loc ← current_location;
     when_ (bool_decide (is_Some client) || (1 <? num_directions_ loc))
       (k ← on_members (GetHelperBit (request <$> client) (transition_name source dest));
        op [bind_to gid k current_direction_];;
        change_location respecting);;
     op [bind_to gid (auto_blocked dest) next_block_blocked_])); [done|].
  eapply located; [done|exact Hf|]. fold (directed client loc). unfold direct in Ed.
  destruct (directed client loc); cbn [when_].
  - destruct (GetHelperBit _ _ _) as [k t2] eqn:Eg. injection Ed as <- <-.
    eapply xbuilds_bind; [eapply xbuilds_members; [exact Eg|]; rule|rule].
    apply change_members.
  - injection Ed as <- <-. eapply xbuilds_bind; [apply xbuilds_ret|rule].
Qed.

(** [l] is the leg between the blocks at their locations. *)
Definition source_rules (l : Leg) : list XRule :=
  [ mkXRule [XReg here_permaloc true]
      [XBind perma_block_route_out_ (route_out (leg_source l));
       XBind current_block_detector_ (src_detector (leg_source l))] ].

Lemma DefCopyIf_builds (t : Members) :
  xbuilds start t (on_automata (DefCopyIf current_block_permaloc_ current_block_routingloc_ None))
    [ mkXRule [XReg here_permaloc false; XReg here_routingloc true] [XWrite here_routingloc false];
      mkXRule [XReg here_permaloc true; XReg here_routingloc false] [XWrite here_routingloc true] ] start t.
Proof.
  apply (xbuilds_ext gid local_ids speed start t _
    (op [plain_calls [CallIfReg0 current_block_permaloc_; CallIfReg1 current_block_routingloc_;
                      CallActReg0 current_block_routingloc_]];;
     op [plain_calls [CallIfReg1 current_block_permaloc_; CallIfReg0 current_block_routingloc_;
                      CallActReg1 current_block_routingloc_]])); [|do 2 rule].
  intros s. unfold DefCopyIf, op, plain_calls, xdef, on_automata, sequence, mbind, prog_bind, mret, prog_ret. cbn.
  by destruct (def _ (automata_of s)) as [[] a'| |].
Qed.

Lemma eager_rules_builds t source :
  xbuilds start t (eager_rules gid source)
    [ mkXRule [XReg here_permaloc true; XReg here_routingloc false; XReg (Alias perma_block_route_out_) false]
        [XWrite here_routingloc true];
      mkXRule [XReg here_routingloc true] [XBind next_block_route_in_ (route_in source)];
      mkXRule [XState StWaiting; XReg here_routingloc true; XReg here_permaloc false;
               XReg (Alias next_block_route_in_) false] [XWrite here_routingloc false] ] start t.
Proof. unfold eager_rules. do 3 rule. Qed.

Lemma bind_blocks_builds t l t4 :
  AllocateOrGetLocationByBlock (leg_dest l) t = (leg_to l, t4) ->
  xbuilds start t (bind_blocks gid v (leg_source l) (leg_dest l) (leg_eager l) (leg_respects l))
    (source_rules l ++ head_rules l ++ move_rules v l ++
     [ mkXRule [XReg here_routingloc true]
         [XBind routing_block_request_green_ (request_green (leg_source l));
          XBind routing_block_route_out_ (route_out (leg_source l))];
       mkXRule [XReg here_routingloc true]
         [XBind next_block_detector_ (dst_detector (leg_dest l));
          XBind next_block_routingloc_ (routingloc (leg_to l));
          XBind next_block_route_in_ (route_in (leg_dest l))] ]) start t4.
Proof.
  intros El. destruct (AllocateOrGetLocation_finds _ _ _ _ El) as (Hf & _).
  unfold bind_blocks, source_rules, head_rules, move_rules. rule.
  eapply xbuilds_bind; [destruct (leg_eager l); [apply eager_rules_builds|apply DefCopyIf_builds]|].
  eapply xbuilds_members; [exact El|]. rule.
  eapply (xbuilds_bind gid local_ids speed start t4 _ _ start t4).
  - destruct (leg_eager l); [cbn [when_ opt]|apply xbuilds_ret]. unfold move_permaloc.
    destruct (leg_respects l); rule.
  - rule. eapply xbuilds_members; [by apply AllocateOrGetLocation_again|]. rule.
Qed.

Lemma bind_permit_builds t client :
  xbuilds start t (bind_permit gid client)
    match client with
    | Some c => [mkXRule [] [XBind permit_request_ (request c); XBind permit_granted_ (granted c);
                             XBind permit_taken_ (taken c)]]
    | None => []
    end start t.
Proof. destruct client as [c|]; cbn [bind_permit]; [rule|apply xbuilds_ret]. Qed.

Lemma when_builds G t b m rs1 : xbuilds G t m rs1 G t -> xbuilds G t (when_ b m) (opt b rs1) G t.
Proof. destruct b; [done|]. intros _. apply xbuilds_ret. Qed.

Lemma when_then G t b m rs1 k rs G' t' :
  xbuilds G t m rs1 G t -> xbuilds G t k rs G' t' -> xbuilds G t (when_ b m;; k) (opt b rs1 ++ rs) G' t'.
Proof. intros Hm Hk. eapply xbuilds_bind; [by apply when_builds|done]. Qed.

(** The tests, when the lock is known. *)
Lemma test_transition_builds t l :
  leg_lock l = route_set_lock_var_ t ->
  xbuilds start t
    (test_transition gid v (has_permit l) (leg_respects l) (Some (tests gid (leg_condition l))) (leg_eager l))
    (test_rules v l ++ go_rules l) start t.
Proof.
  intros El. unfold test_transition, test_rules, go_rules, clear_guards, lock_guard, lock_effect. rewrite El.
  generalize (has_permit l) as permit. intros permit. rewrite <- !app_assoc. do 3 rule.
  cbn [app]. destruct (leg_eager l); cbn [negb opt app]; (rule; apply when_then; [do 3 rule|]; rule);
    (destruct permit, (leg_respects l); cbn [opt when_ app]; do 2 rule; try rule; apply xbuilds_ret).
Qed.

Lemma finish_transition_builds t l :
  leg_lock l = route_set_lock_var_ t ->
  xbuilds start t (finish_transition gid (leg_respects l) (leg_eager l)) (finish_rules l) start t.
Proof.
  intros El. unfold finish_transition, finish_rules, lock_effect, here. rewrite El.
  destruct (leg_eager l), (leg_respects l); cbn [opt negb andb app]; do 2 rule.
Qed.

Lemma transition_builds t source dest client condition eager l t' :
  resolve_leg source dest client condition eager t = (l, t') ->
  xbuilds start t (AddBlockTransitionOnPermit gid v source dest client (Some (tests gid condition)) eager)
    (leg_rules v l) start t'.
Proof.
  unfold resolve_leg. destruct (AllocateOrGetLocationByBlock source t) as [loc t1] eqn:E1.
  fold (directed client loc).
  fold (direct source dest client loc (set_current_location (Some (block_name source)) t1)).
  destruct (direct source dest client loc _) as [dir t3] eqn:E3.
  destruct (AllocateOrGetLocationByBlock dest t3) as [dest_loc t4] eqn:E4. intros [= <- <-].
  destruct (AllocateOrGetLocation_finds _ _ _ _ E1) as (Hf1 & _ & HL1 & _).
  destruct (direct_keeps source dest client loc _ dir t3 (block_name source) E3 eq_refl Hf1)
    as (Hn3 & HL3 & loc' & Hl' & Hr').
  destruct (AllocateOrGetLocation_finds _ _ _ _ E4) as (_ & _ & HL4 & _).
  set (l := mkLeg source dest loc dest_loc dir _ client condition eager _).
  assert (HL : leg_lock l = route_set_lock_var_ t4) by (cbn; by rewrite HL4, HL3, <- HL1).
  unfold AddBlockTransitionOnPermit.
  replace (leg_rules v l) with
    ((map_rules loc ++ direction_rules dir ++ [mkXRule [] [XBind next_block_blocked_ (auto_blocked dest)]]) ++
     (source_rules l ++ head_rules l ++ move_rules v l ++
      [ mkXRule [XReg here_routingloc true]
          [XBind routing_block_request_green_ (request_green source);
           XBind routing_block_route_out_ (route_out source)];
        mkXRule [XReg here_routingloc true]
          [XBind next_block_detector_ (dst_detector dest);
           XBind next_block_routingloc_ (routingloc dest_loc);
           XBind next_block_route_in_ (route_in dest)] ]) ++
     match client with
     | Some c => [mkXRule [] [XBind permit_request_ (request c); XBind permit_granted_ (granted c);
                              XBind permit_taken_ (taken c)]]
     | None => []
     end ++ (test_rules v l ++ go_rules l) ++ finish_rules l).
  2: { unfold leg_rules, bind_rules, route_bind_rules, map_rules, direction_rules, source_rules.
       destruct dir, client; cbn [leg_direction leg_client l]; by rewrite <- ?app_assoc. }
  eapply xbuilds_bind; [by eapply bind_direction_builds|].
  eapply located; [exact Hn3|exact Hl'|]. rewrite Hr'.
  eapply xbuilds_bind; [by apply (bind_blocks_builds t3 l)|].
  eapply xbuilds_bind; [apply bind_permit_builds|].
  eapply xbuilds_bind; [by apply (test_transition_builds t4 l)|].
  by apply (finish_transition_builds t4 l).
Qed.

(** ** Schedules *)

Lemma list_bind_singleton {A B} (f : A -> list B) x : [x] ≫= f = f x.
Proof. apply app_nil_r. Qed.

Lemma call_builds t c ps t' :
  resolve_call c t = Some (ps, t') ->
  xbuilds start t (schedule_call gid v c) (ps ≫= part_rules v) start t'.
Proof.
  destruct c as [source dest client condition eager|m desired|b|b| |lock| |]; cbn [resolve_call schedule_call]; [..|done].
  - destruct (resolve_leg _ _ _ _ _ t) as [l t1] eqn:E. intros [= <- <-]. rewrite list_bind_singleton.
    by apply transition_builds with (t := t) (t' := t1).
  - destruct (current_respects t) as [r|] eqn:Er; [|done]. intros [= <- <-]. by apply SwitchTurnout_builds.
  - destruct (AllocateOrGetLocationByBlock b t) as [loc t1] eqn:E. intros [= <- <-]. rewrite list_bind_singleton.
    by apply StopAndReverseAtStub_builds.
  - destruct (AllocateOrGetLocationByBlock b t) as [loc t1] eqn:E. intros [= <- <-]. rewrite list_bind_singleton.
    by apply StopTrainAt_builds.
  - intros [= <- <-]. unfold xClearAutomataVariables. apply (xbuilds_ext gid local_ids speed start t _
      (on_automata (modify_state ClearUsedVariables);; mret tt)); [done|].
    apply xbuilds_clear_then, xbuilds_ret.
  - case_bool_decide as Hl; [done|]. intros [= <- <-]. unfold WithRouteLock.
    eapply xbuilds_members; [done|]. rewrite bool_decide_false by done.
    apply (xbuilds_bind gid local_ids speed start t _ [] start t); [apply xbuilds_ret|].
    apply change_members.
  - intros [= <- <-]. apply change_members.
Qed.

Lemma calls_build calls t ps t' :
  resolve calls t = Some (ps, t') ->
  xbuilds start t (schedule_calls gid v calls) (ps ≫= part_rules v) start t'.
Proof.
  revert t ps. induction calls as [|c calls IH]; intros t ps; cbn [resolve schedule_calls].
  - intros [= <- <-]. apply xbuilds_ret.
  - destruct (resolve_call c t) as [[ps1 t1]|] eqn:E1; [|done]. cbn.
    destruct (resolve calls t1) as [[qs t2]|] eqn:E2; [|done]. cbn. intros [= <- <-]. rewrite bind_app.
    eapply xbuilds_bind; [by apply call_builds|by apply IH].
Qed.

(** The body of a schedule builds its rules. *)
Lemma schedule_builds calls t ps t' :
  resolve calls (set_current_location None t) = Some (ps, t') ->
  xbuilds start t (schedule_body gid reset_routes v (schedule_calls gid v calls)) (schedule_rules reset_routes v ps)
    start t'.
Proof.
  intros E. unfold schedule_body, TrainSchedule, schedule_rules. cbn [AddAutomataPlugin Z.ltb Z.compare RunAll].
  eapply (xbuilds_bind gid local_ids speed start t _ []); [apply change_members|].
  change (xbuilds start (set_current_location None t)
    (schedule_calls gid v calls;; xClearAutomataVariables;; HandleBaseStates gid reset_routes v;;
     SendTrainCommands gid v;; HandleInit gid v;; on_automata HandleInitState;; mret tt)
    ((ps ≫= part_rules v) ++ base_rules reset_routes v ++ train_rules v ++ init_rules v) start t').
  eapply xbuilds_bind; [by apply calls_build|].
  apply xbuilds_clear_then.
  eapply xbuilds_bind; [apply HandleBaseStates_builds|].
  eapply xbuilds_bind; [apply SendTrainCommands_builds|].
  eapply (xbuilds_bind gid local_ids speed start t' _ [_]); [apply HandleInit_builds|].
  change (on_automata HandleInitState) with (@xdef Members [CallIfState StInit; CallActState StBase]).
  apply xbuilds_def_then; [exact Hargs|exact local_ids_range|done|calls|apply xbuilds_ret].
Qed.

End Operations.
