(* ===== verification/ScheduleSpec.v ===== *)
(** Train schedules as rules on the variables of the layout: the rules of
    [ScheduleBuild] with the reserved local variables replaced by what they are
    bound to. *)

From stdpp Require Import strings.
From S2P Require Import Prelude AutomataDefs Automata AutomataTermination AutomataOps AutomataSim AutomataBuild ControlRules ControlLogic ControlTurnouts ControlBuild ScheduleRules TrainSchedule ScheduleBuild.

Definition with_opt {A B} (o : option A) (f : A -> list B) : list B :=
  match o with Some a => f a | None => [] end.

Section Plain.
Context (v : ScheduleVars).

(** ** Transitions *)

Section Leg.
Context (l : Leg).

Abbreviation perma := (permaloc (leg_from l)).
Abbreviation routing := (routingloc (leg_from l)).

Definition directed_guard (b : bool) : list Guard := with_opt (leg_direction l) (fun k => [GReg (Some k) b]).
Definition directed_effect (b : bool) : list Effect := with_opt (leg_direction l) (fun k => [EReg k b]).
Definition locked_guard : list Guard := with_opt (leg_lock l) (fun k => [test0 k]).
Definition locked_effect (b : bool) : list Effect := with_opt (leg_lock l) (fun k => [EReg k b]).

Definition head_plain : list Rule :=
  if leg_eager l then
    [ mkRule [test1 perma; test0 routing; test0 (route_out (leg_source l))] [set1 routing];
      mkRule [GState StWaiting; test1 routing; test0 perma; test0 (route_in (leg_source l))] [set0 routing] ]
  else
    [ mkRule [test0 perma; test1 routing] [set0 routing];
      mkRule [test1 perma; test0 routing] [set1 routing] ].

(** The train has left the block. *)
Definition move_plain : Rule :=
  mkRule ([test1 (is_moving_ v); test1 perma; test1 (src_detector (leg_source l)); test1 (route_out (leg_source l))] ++
          directed_guard true ++ [test0 routing])
    ([set0 perma] ++ directed_effect false ++ [set1 (permaloc (leg_to l))]).

Definition clear_plain : list Guard :=
  opt (negb (leg_eager l)) [test1 (src_detector (leg_source l))] ++
  [ test0 (dst_detector (leg_dest l)); test0 (route_out (leg_source l)); test0 (route_in (leg_dest l));
    test0 (auto_blocked (leg_dest l)); test0 (is_frozen_ v) ] ++
  List.map (fun '(k, b) => GReg (Some k) b) (leg_condition l).

Definition test_plain : list Rule :=
  [ mkRule [GState StTestCondition] [EState StWaiting];
    mkRule [GState StTestCondition2] [EState StWaiting];
    mkRule [GState StWaiting; test1 routing] [EState StTestCondition];
    mkRule (GState StTestCondition :: clear_plain) [EState StTestCondition2] ] ++
  with_opt (leg_client l) (fun c =>
    [ mkRule [GState StTestCondition2] [set1 (request c)];
      mkRule [GState StTestCondition] [set0 (request c)];
      mkRule [test1 routing; test1 (route_out (leg_source l))] [set0 (request c)] ]) ++
  [ mkRule [GState StTestCondition] [EState StWaiting] ].

(** The train may go. *)
Definition go_plain : Rule :=
  mkRule (GState StTestCondition2 ::
          with_opt (leg_client l) (fun c => [test1 (request c); test1 (granted c)]) ++ locked_guard)
    (locked_effect true ++
     with_opt (leg_client l) (fun c => [set0 (request c); set0 (granted c); set1 (taken c)]) ++
     directed_effect true ++ [EState StReadyToGo]).

Definition wait_plain : list Rule :=
  mkRule [GState StTestCondition2] [EState StWaiting] ::
  with_opt (leg_direction l) (fun k => [mkRule [GState StWaiting; test1 routing; test1 k] [set0 k]]).

Definition here_plain : nat := if leg_eager l then routing else perma.

(** The route is set, or failed. *)
Definition done_plain : Rule :=
  mkRule ([GState StRequestTransition; test1 here_plain] ++ directed_guard true)
    (locked_effect false ++ opt (negb (leg_eager l)) [set0 perma] ++ [set0 routing] ++
     opt (negb (leg_eager l)) [set1 (permaloc (leg_to l))] ++ [set1 (routingloc (leg_to l))] ++
     opt (negb (leg_eager l)) (directed_effect false) ++ [EState StTransitionDone]).

Definition failed_plain : Rule :=
  mkRule ([GState StGreenFailed; test1 here_plain] ++ directed_guard true) (locked_effect false ++ [EState StWaiting]).

Definition decide_plain : list Rule := test_plain ++ [go_plain] ++ wait_plain ++ [done_plain; failed_plain].

Definition leg_plain : list Rule := head_plain ++ opt (leg_eager l) [move_plain] ++ decide_plain.

End Leg.

(** ** Turnouts, stubs *)

(** What the local variables of the current location are bound to: the routing
    bit and the direction. *)
Definition Cursor : Type := option ScheduleLocation * option nat.

Definition outgoing_plain (c : Cursor) (respects : bool) : list Guard :=
  with_opt (fst c) (fun loc => [test1 (routingloc loc)]) ++
  opt respects (with_opt (snd c) (fun k => [test1 k])).

Definition turnout_plain (c : Cursor) (respects : bool) (m : MagnetDef) (desired : bool) : list Rule :=
  [ mkRule (GState StTurnout :: outgoing_plain c respects ++ [test0 (locked m)]) [EReg (command m) desired];
    mkRule (GState StTurnout :: outgoing_plain c respects ++ [GReg (Some (current_state m)) (negb desired)])
      [EState StTurnoutFailed] ].

Definition reverse_plain (loc : ScheduleLocation) (b : SignalBlock) : list Rule :=
  let perma := permaloc loc in
  let need := need_reverse_ v in
  let rev := is_reversed_ v in
  let last := last_set_reversed_ v in
  [ mkRule [test1 (is_moving_ v); test1 perma] [set1 need];
    mkRule [GState StWaiting; test1 perma; test1 (dst_detector b); test1 need]
      [set0 need; EState StBeforeReverseWait; ETimer 3];
    mkRule [GState StBeforeReverseWait; test1 perma; GReg None false; test0 rev] [set1 rev; EState StReverseSendCommand];
    mkRule [GState StBeforeReverseWait; test1 perma; GReg None false; test1 rev] [set0 rev; EState StReverseSendCommand];
    mkRule [GState StReverseSendCommand; test1 perma] [];
    mkRule [GState StReverseSendCommand; test1 perma; test1 rev] [];
    mkRule [GState StReverseSendCommand; test1 perma; test1 rev] [set1 last];
    mkRule [GState StReverseSendCommand; test1 perma; test0 rev] [set0 last];
    mkRule [GState StReverseSendCommand; test1 perma] [EState StReverseDoneWait; ETimer 3];
    mkRule [GState StReverseDoneWait; test1 perma; GReg None false] [EState StWaiting] ].

Definition part_plain (c : Cursor) (p : Part) : list Rule :=
  match p with
  | PLeg l => leg_plain l
  | PTurnout respects m desired => turnout_plain c respects m desired
  | PReverse loc b => reverse_plain loc b
  | PStop loc b => []
  end.

Definition cursor_after (p : Part) (c : Cursor) : Cursor :=
  match p with
  | PLeg l => (Some (leg_from l), match leg_direction l with Some k => Some k | None => snd c end)
  | PTurnout _ _ _ => c
  | PReverse loc _ | PStop loc _ => (Some loc, snd c)
  end.

Fixpoint parts_plain (c : Cursor) (parts : list Part) : list Rule :=
  match parts with
  | [] => []
  | p :: parts => part_plain c p ++ parts_plain (cursor_after p c) parts
  end.

(** ** The base states, the train *)

(** [detector], [green] and [out] are what the local variables are bound to at
    the end of the parts. *)
Record Bound := mkBound {
  bound_detector : option nat;
  bound_green : option nat;
  bound_out : option nat
}.

Section Base.
Context (reset_routes : option nat) (d : Bound).

Abbreviation detector := (bound_detector d).
Abbreviation green := (bound_green d).
Abbreviation out := (bound_out d).

Definition opt_guard (o : option nat) (b : bool) : list Guard := with_opt o (fun k => [GReg (Some k) b]).

Definition base_plain : list Rule :=
  let moving := is_moving_ v in
  [ mkRule (GState StRequestGreen :: opt_guard green false)
      (with_opt green (fun k => [set1 k]) ++ [EState StGreenRequested]);
    mkRule (GState StGreenRequested :: opt_guard green false ++ opt_guard out false) [EState StGreenFailed];
    mkRule (GState StGreenRequested :: opt_guard out true ++ [test1 moving]) [EState StRequestTransition];
    mkRule (GState StGreenRequested :: opt_guard out true) [ETimer 2; EState StGreenWait];
    mkRule [GState StGreenWait; GReg None false] [EState StRequestTransition];
    mkRule [GState StTransitionDone; test0 moving] [set1 (req_go_ v)];
    mkRule [GState StTransitionDone] [EState StWaiting];
    mkRule (test1 moving :: opt_guard detector true) [set1 (req_stop_ v)];
    mkRule [GState StTurnout] [EState StRequestGreen];
    mkRule [GState StReadyToGo] [EState StTurnout] ] ++
  with_opt reset_routes (fun r => [mkRule [GState StTurnoutFailed; test1 r] [EState StWaiting]]) ++
  [ mkRule [GState StTurnoutFailed] [EState StTurnout];
    mkRule [GState StWaiting; test1 (is_frozen_ v)] [EState StFrozen];
    mkRule [GState StFrozen; test0 (is_frozen_ v)] [EState StWaiting] ].

End Base.

Definition train_plain : list Rule :=
  let rev := is_reversed_ v in
  let last := last_set_reversed_ v in
  let start := req_go_ v in
  let stop := req_stop_ v in
  let moving := is_moving_ v in
  [ mkRule [test1 start; test1 rev] [set1 last];
    mkRule [test1 start; test0 rev] [set0 last];
    mkRule [test1 start] [set0 start; set1 moving];
    mkRule [GState StWaiting; test1 rev; test0 last] [set1 stop];
    mkRule [GState StWaiting; test0 rev; test1 last] [set1 stop];
    mkRule [test1 stop; test1 rev] [set1 last];
    mkRule [test1 stop; test0 rev] [set0 last];
    mkRule [test1 stop] [set0 stop; set0 moving] ].

Definition init_plain : list Rule :=
  [ mkRule [GState StBase] [set0 (last_set_reversed_ v); EState StWaiting];
    mkRule [GState StInit] [EState StBase] ].

Definition schedule_plain (reset_routes : option nat) (parts : list Part) (d : Bound) : list Rule :=
  parts_plain (None, None) parts ++ base_plain reset_routes d ++ train_plain ++ init_plain.

End Plain.
