(* ===== verification/ScheduleRuns.v ===== *)
(** The rules of a train schedule run as the rules of [ScheduleSpec]: each
    reserved local variable is bound before it is used. *)

From stdpp Require Import strings.
From S2P Require Import Prelude AutomataDefs Automata AutomataTermination AutomataOps AutomataSim AutomataBuild ControlRules ControlLogic ControlTurnouts ControlBuild ControlSafety ScheduleRules TrainSchedule ScheduleBuild ScheduleSpec.

(** ** Runs of rules *)

Definition xrun (rs : list XRule) (Q : XEnv -> Prop) (x : XEnv) : Prop :=
  match xexec_rules rs x with Some x' => Q x' | None => False end.

Lemma xrun_app rs1 rs2 Q x : xrun rs1 (xrun rs2 Q) x -> xrun (rs1 ++ rs2) Q x.
Proof. unfold xrun. rewrite xexec_rules_app. by destruct (xexec_rules rs1 x). Qed.

Lemma xrun_weaken rs (Q Q' : XEnv -> Prop) x : xrun rs Q x -> (forall y, Q y -> Q' y) -> xrun rs Q' x.
Proof. unfold xrun. destruct (xexec_rules rs x); auto. Qed.

Section Resolve.
Context (e : Env) (b : Z -> option nat).

(** Guards with their local variables resolved; a local variable need only be
    bound where the guards before it hold. *)
Inductive guards_are : list XGuard -> list Guard -> Prop :=
| ga_nil : guards_are [] []
| ga_var k c gs gs' :
    (evar e k = c -> guards_are gs gs') -> guards_are (XReg (Var k) c :: gs) (GReg (Some k) c :: gs')
| ga_alias r k c gs gs' :
    b r = Some k -> (evar e k = c -> guards_are gs gs') ->
    guards_are (XReg (Alias r) c :: gs) (GReg (Some k) c :: gs')
| ga_state s gs gs' : (estate e = s -> guards_are gs gs') -> guards_are (XState s :: gs) (GState s :: gs')
| ga_timer c gs gs' :
    (holds e (GReg None c) = true -> guards_are gs gs') -> guards_are (XTimer c :: gs) (GReg None c :: gs')
| ga_sent gs gs' : guards_are gs gs' -> guards_are (XSent :: gs) gs'.

Inductive effects_are : list XEffect -> list Effect -> Prop :=
| ea_nil : effects_are [] []
| ea_var k c es es' : effects_are es es' -> effects_are (XWrite (Var k) c :: es) (EReg k c :: es')
| ea_alias r k c es es' :
    b r = Some k -> effects_are es es' -> effects_are (XWrite (Alias r) c :: es) (EReg k c :: es')
| ea_goto s es es' : effects_are es es' -> effects_are (XGoto s :: es) (EState s :: es')
| ea_wait t es es' : effects_are es es' -> effects_are (XWait t :: es) (ETimer t :: es')
| ea_train es es' : effects_are es es' -> effects_are (XTrain :: es) es'.

Lemma guards_enabled gs gs' xs : guards_are gs gs' -> xenabled gs (mkXEnv e b) = Some (enabled (mkRule gs' xs) e).
Proof.
  unfold enabled. cbn [guards]. revert gs'. induction gs as [|g gs IH]; intros gs' H; inversion H; subst; cbn; [done|..].
  - destruct (Bool.eqb_spec (evar e k) c); cbn; auto.
  - match goal with Hr : b _ = Some _ |- _ => rewrite Hr end. cbn. destruct (Bool.eqb_spec (evar e k) c); cbn; auto.
  - destruct (Z.eqb_spec (estate e) s); cbn; auto.
  - cbn [holds] in *. destruct (Bool.eqb _ _); cbn; auto.
  - auto.
Qed.

End Resolve.

Lemma effects_apply e b es es' :
  effects_are b es es' -> xapplies es (mkXEnv e b) = Some (mkXEnv (fold_left apply_effect es' e) b).
Proof.
  intros H. revert e. induction H as [|k c es es' _ IH|r k c es es' Hr _ IH|s es es' _ IH|t es es' _ IH|es es' _ IH];
    intros e; cbn; [done| |rewrite Hr| | |]; apply IH.
Qed.

(** A rule that binds nothing. *)
Lemma xrun_rule gs gs' es es' rs Q e b :
  guards_are e b gs gs' -> (enabled (mkRule gs' es') e = true -> effects_are b es es') ->
  xrun rs Q (mkXEnv (exec_rule (mkRule gs' es') e) b) -> xrun (mkXRule gs es :: rs) Q (mkXEnv e b).
Proof.
  intros Hg He Hr. unfold xrun. cbn [xexec_rules]. unfold xexec_rule. cbn [xguards xeffects].
  rewrite (guards_enabled e b gs gs' es' Hg). cbn -[enabled]. unfold exec_rule in Hr.
  destruct (enabled _ e) eqn:E; cbn; [|done]. by rewrite (effects_apply e b es es' (He eq_refl)).
Qed.

(** A rule that only concerns the train. *)
Lemma xrun_train gs gs' es rs Q e b :
  guards_are e b gs gs' -> effects_are b es [] -> xrun rs Q (mkXEnv e b) -> xrun (mkXRule gs es :: rs) Q (mkXEnv e b).
Proof.
  intros Hg He Hr. apply (xrun_rule gs gs' es []); [done|done|]. unfold exec_rule. by destruct (enabled _ _).
Qed.

(** A rule that only binds. *)
Definition binds (l : list (Z * nat)) (b : Z -> option nat) : Z -> option nat :=
  fold_left (fun b '(r, k) r' => if r' =? r then Some k else b r') l b.

Lemma binds_apply l e b :
  xapplies (List.map (fun '(r, k) => XBind r k) l) (mkXEnv e b) = Some (mkXEnv e (binds l b)).
Proof. revert b. induction l as [|[r k] l IH]; intros b; cbn; [done|]. apply IH. Qed.

Lemma xrun_bind gs gs' l rs Q e b :
  guards_are e b gs gs' ->
  (enabled (mkRule gs' []) e = true -> xrun rs Q (mkXEnv e (binds l b))) ->
  (enabled (mkRule gs' []) e = false -> xrun rs Q (mkXEnv e b)) ->
  xrun (mkXRule gs (List.map (fun '(r, k) => XBind r k) l) :: rs) Q (mkXEnv e b).
Proof.
  intros Hg H1 H2. unfold xrun. cbn [xexec_rules]. unfold xexec_rule. cbn [xguards xeffects].
  rewrite (guards_enabled e b gs gs' [] Hg). cbn -[enabled].
  destruct (enabled _ e) eqn:E; cbn; [|by apply H2]. rewrite binds_apply. by apply H1.
Qed.

(** A rule that writes, and then binds. *)
Lemma xrun_rule_bind gs gs' es es' l rs Q e b :
  guards_are e b gs gs' -> effects_are b es es' ->
  (forall b', b' = b \/ b' = binds l b -> xrun rs Q (mkXEnv (exec_rule (mkRule gs' es') e) b')) ->
  xrun (mkXRule gs (es ++ List.map (fun '(r, k) => XBind r k) l) :: rs) Q (mkXEnv e b).
Proof.
  intros Hg He Hr. unfold xrun. cbn [xexec_rules]. unfold xexec_rule. cbn [xguards xeffects].
  rewrite (guards_enabled e b gs gs' es' Hg). cbn -[enabled]. unfold exec_rule in Hr.
  destruct (enabled _ e) eqn:E; cbn; [|by apply Hr; left].
  assert (Ha : forall e' l2, xapplies (es ++ l2) e' = xapplies es e' ≫= xapplies l2).
  { clear. intros e' l2. revert e'. induction es as [|x es IH]; intros e'; cbn; [done|]. destruct (xapply e' x); cbn; auto. }
  rewrite Ha, (effects_apply e b es es' He). cbn. rewrite binds_apply. apply Hr. by right.
Qed.

Lemma binds_one r k b r' : r' <> r -> binds [(r, k)] b r' = b r'.
Proof. cbn. by destruct (Z.eqb_spec r' r). Qed.

(** ** Automation *)

(** A local variable is bound, by a hypothesis or by computing. *)
Ltac bound_is := first [reflexivity | eassumption | solve [eauto]].

Ltac resolve_guards :=
  repeat first
    [ apply ga_nil | apply ga_state; intros ? | apply ga_var; intros ? | apply ga_timer; intros ? | apply ga_sent
    | eapply ga_alias; [bound_is|intros ?] ].

Ltac resolve_effects :=
  repeat first
    [ apply ea_nil | apply ea_var | apply ea_goto | apply ea_wait | apply ea_train | eapply ea_alias; [bound_is|] ].

(** The next rule. *)
Ltac run_rule := eapply xrun_rule; [resolve_guards|intros _; resolve_effects|].

Lemma enabled_test1 k e : enabled (mkRule [test1 k] []) e = evar e k.
Proof. unfold enabled. cbn. by destruct (evar e k). Qed.

(** Variables that a rule does not write. *)
Definition unwritten (k : nat) (xs : list Effect) : Prop :=
  Forall (fun x => match x with EReg j _ => k <> j | _ => True end) xs.

Lemma exec_rule_unwritten k r e : unwritten k (effects r) -> evar (exec_rule r e) k = evar e k.
Proof. intros H. unfold exec_rule. destruct (enabled r e); [|done]. rewrite evar_effects. by apply written_other. Qed.

Lemma exec_rules_unwritten k rs e :
  Forall (fun r => unwritten k (effects r)) rs -> evar (exec_rules rs e) k = evar e k.
Proof.
  intros H. revert e. induction H as [|r rs Hr _ IH]; intros e; [done|].
  change (exec_rules (r :: rs) e) with (exec_rules rs (exec_rule r e)). rewrite IH. by apply exec_rule_unwritten.
Qed.

(** ** A transition *)

Section Leg.
Context (v : ScheduleVars) (l : Leg).

Abbreviation perma := (permaloc (leg_from l)).
Abbreviation routing := (routingloc (leg_from l)).

(** The variables of a transition, other than those of its locations. *)
Definition leg_vars : list nat :=
  with_opt (leg_direction l) (fun k => [k]) ++ with_opt (leg_lock l) (fun k => [k]) ++
  with_opt (leg_client l) (fun c => [request c; granted c; taken c]).

Definition leg_locations : list nat :=
  [perma; routing; permaloc (leg_to l); routingloc (leg_to l)].

Record leg_ok : Prop := {
  lo_direction : leg_respects l = bool_decide (is_Some (leg_direction l));
  lo_locations : NoDup leg_locations;
  lo_apart k : In k leg_locations -> ~ In k leg_vars
}.

Context (OK : leg_ok).

(** What is bound while the rules of the transition run; [here] and [ahead] say
    whether the train is in the block, and whether its route leads to it. *)
Record leg_bound (here ahead : bool) (b : Z -> option nat) : Prop := {
  lb_perma : b current_block_permaloc_ = Some perma;
  lb_routing : b current_block_routingloc_ = Some routing;
  lb_direction k : leg_direction l = Some k -> b current_direction_ = Some k;
  lb_blocked : b next_block_blocked_ = Some (auto_blocked (leg_dest l));
  lb_detector : leg_eager l = false -> here = true -> b current_block_detector_ = Some (src_detector (leg_source l));
  lb_next_perma : here = true -> b next_block_permaloc_ = Some (permaloc (leg_to l));
  lb_green : ahead = true -> b routing_block_request_green_ = Some (request_green (leg_source l));
  lb_out : ahead = true -> b routing_block_route_out_ = Some (route_out (leg_source l));
  lb_next_detector : ahead = true -> b next_block_detector_ = Some (dst_detector (leg_dest l));
  lb_next_routing : ahead = true -> b next_block_routingloc_ = Some (routingloc (leg_to l));
  lb_next_in : ahead = true -> b next_block_route_in_ = Some (route_in (leg_dest l));
  lb_permit c : leg_client l = Some c ->
    b permit_request_ = Some (request c) /\ b permit_granted_ = Some (granted c) /\ b permit_taken_ = Some (taken c)
}.

(** What the local variables that outlive a transition are bound to. *)
Record leg_frame (here ahead : bool) (b b' : Z -> option nat) : Prop := {
  lf_perma : b' current_block_permaloc_ = Some perma;
  lf_routing : b' current_block_routingloc_ = Some routing;
  lf_direction : b' current_direction_ = match leg_direction l with Some k => Some k | None => b current_direction_ end;
  lf_detector : is_Some (b current_block_detector_) \/ here = true -> is_Some (b' current_block_detector_);
  lf_green : b' routing_block_request_green_ =
    if ahead then Some (request_green (leg_source l)) else b routing_block_request_green_;
  lf_out : b' routing_block_route_out_ = if ahead then Some (route_out (leg_source l)) else b routing_block_route_out_
}.

Lemma bind_rules_run rs Q e b :
  (forall b',
     b' current_block_permaloc_ = Some perma -> b' current_block_routingloc_ = Some routing ->
     b' current_direction_ = match leg_direction l with Some k => Some k | None => b current_direction_ end ->
     b' next_block_blocked_ = Some (auto_blocked (leg_dest l)) ->
     (evar e perma = true -> b' perma_block_route_out_ = Some (route_out (leg_source l)) /\
                             b' current_block_detector_ = Some (src_detector (leg_source l))) ->
     (evar e perma = false -> b' current_block_detector_ = b current_block_detector_) ->
     b' routing_block_request_green_ = b routing_block_request_green_ ->
     b' routing_block_route_out_ = b routing_block_route_out_ ->
     xrun rs Q (mkXEnv e b')) ->
  xrun (bind_rules l ++ rs) Q (mkXEnv e b).
Proof.
  intros H. unfold bind_rules. rewrite <- !app_assoc. cbn [app].
  apply (xrun_bind [] [] [(_, _)]); [resolve_guards|intros _|done].
  apply (xrun_bind [] [] [(_, _)]); [resolve_guards|intros _|done].
  destruct (leg_direction l) as [k|]; cbn [app];
    [apply (xrun_bind [] [] [(_, _)]); [resolve_guards|intros _|done]|];
    (apply (xrun_bind [] [] [(_, _)]); [resolve_guards|intros _|done]);
    (apply (xrun_bind _ [test1 perma] [(_, _); (_, _)]); [resolve_guards|rewrite enabled_test1; intros E..]);
    by (apply H; rewrite ?E).
Qed.

Lemma head_rules_run rs Q e b :
  b current_block_permaloc_ = Some perma -> b current_block_routingloc_ = Some routing ->
  (evar e perma = true -> b perma_block_route_out_ = Some (route_out (leg_source l))) ->
  (forall b', (forall r, r <> next_block_route_in_ -> b' r = b r) ->
     xrun rs Q (mkXEnv (exec_rules (head_plain l) e) b')) ->
  xrun (head_rules l ++ rs) Q (mkXEnv e b).
Proof.
  intros Hp Hr Ho H. unfold head_rules, head_plain in *. destruct (leg_eager l); cbn [app].
  - run_rule.
    apply (xrun_bind _ [test1 routing] [(_, _)]); [resolve_guards|rewrite enabled_test1; intros E..].
    + run_rule. apply H. intros r Hne. cbn. by destruct (Z.eqb_spec r next_block_route_in_).
    + apply xrun_rule with (gs' := [GState StWaiting; test1 routing; test0 perma; test0 (route_in (leg_source l))])
        (es' := [set0 routing]); [|intros _; resolve_effects|by apply H].
      apply ga_state. intros ?. apply ga_alias; [done|]. by rewrite E.
  - run_rule. run_rule. by apply H.
Qed.

Lemma respects_direction : leg_respects l = match leg_direction l with Some _ => true | None => false end.
Proof. rewrite (lo_direction OK). by destruct (leg_direction l). Qed.

(** The rule of [move_rules] that moves the train. *)
Lemma move_rule_run rs Q e b :
  b current_block_permaloc_ = Some perma -> b current_block_routingloc_ = Some routing ->
  (forall k, leg_direction l = Some k -> b current_direction_ = Some k) ->
  b perma_block_route_out_ = Some (route_out (leg_source l)) ->
  b current_block_detector_ = Some (src_detector (leg_source l)) ->
  b next_block_permaloc_ = Some (permaloc (leg_to l)) ->
  (forall b', b' = b \/ b' = binds [(current_block_detector_, dst_detector (leg_dest l))] b ->
     xrun rs Q (mkXEnv (exec_rule (move_plain v l) e) b')) ->
  xrun (mkXRule ([XReg (Var (is_moving_ v)) true; XReg here_permaloc true; XReg here_detector true;
                  XReg (Alias perma_block_route_out_) true] ++
                 opt (leg_respects l) [XReg direction true] ++ [XReg here_routingloc false])
                ([XWrite here_permaloc false] ++ opt (leg_respects l) [XWrite direction false] ++
                 [XWrite (Alias next_block_permaloc_) true;
                  XBind current_block_detector_ (dst_detector (leg_dest l))]) :: rs) Q (mkXEnv e b).
Proof.
  intros Hp Hr Hd Ho Hdet Hn H. rewrite respects_direction.
  unfold move_plain, directed_guard, directed_effect in H. destruct (leg_direction l) as [k|] eqn:Ed; cbn [opt app] in *.
  - specialize (Hd k eq_refl).
    apply (xrun_rule_bind _ _ [XWrite here_permaloc false; XWrite direction false; XWrite (Alias next_block_permaloc_) true]
      _ [(_, _)]) with (3 := H); [resolve_guards|resolve_effects].
  - apply (xrun_rule_bind _ _ [XWrite here_permaloc false; XWrite (Alias next_block_permaloc_) true]
      _ [(_, _)]) with (3 := H); [resolve_guards|resolve_effects].
Qed.

Lemma move_rules_run rs Q e b :
  b current_block_permaloc_ = Some perma -> b current_block_routingloc_ = Some routing ->
  (forall k, leg_direction l = Some k -> b current_direction_ = Some k) ->
  (evar e perma = true -> b perma_block_route_out_ = Some (route_out (leg_source l)) /\
                          b current_block_detector_ = Some (src_detector (leg_source l))) ->
  (forall b', (forall r, r <> next_block_permaloc_ -> r <> current_block_detector_ -> b' r = b r) ->
     (evar e perma = true -> b' next_block_permaloc_ = Some (permaloc (leg_to l))) ->
     (leg_eager l = false -> b' current_block_detector_ = b current_block_detector_) ->
     (is_Some (b current_block_detector_) -> is_Some (b' current_block_detector_)) ->
     xrun rs Q (mkXEnv (exec_rules (opt (leg_eager l) [move_plain v l]) e) b')) ->
  xrun (move_rules v l ++ rs) Q (mkXEnv e b).
Proof.
  intros Hp Hr Hd Ho H. unfold move_rules. cbn [app].
  apply (xrun_bind _ [test1 perma] [(_, _)]); [resolve_guards|rewrite enabled_test1; intros E..].
  - destruct (Ho E) as [Ho1 Ho2]. set (b1 := binds _ b).
    assert (Hb1 : forall r, r <> next_block_permaloc_ -> b1 r = b r) by (intros r; apply binds_one).
    destruct (leg_eager l); cbn [opt app] in *.
    + apply move_rule_run; try done. intros b' Hb'. apply H.
      * intros r H1 H2. destruct Hb' as [->| ->]; [by apply Hb1|]. rewrite binds_one by done. by apply Hb1.
      * intros _. by destruct Hb' as [->| ->].
      * done.
      * intros _. destruct Hb' as [->| ->]; [by exists (src_detector (leg_source l))|by eexists].
    + by apply H; [intros r H1 _; apply Hb1| | |].
  - destruct (leg_eager l); cbn [opt app] in *; [|by apply H; [| rewrite E | |]].
    apply xrun_rule with (gs' := guards (move_plain v l)) (es' := effects (move_plain v l)).
    + apply ga_var. intros _. apply ga_alias; [done|]. by rewrite E.
    + intros [_ H1]%enabled_cons. exfalso. apply enabled_cons in H1 as [H1%holds_test1 _]. congruence.
    + by apply H; [|rewrite E| |].
Qed.

Lemma route_bind_rules_run rs Q e b :
  b current_block_routingloc_ = Some routing ->
  (forall b',
     Forall (fun r => b' r = b r)
       [current_block_permaloc_; current_block_routingloc_; current_direction_; current_block_detector_;
        next_block_permaloc_; next_block_blocked_] ->
     (evar e routing = true ->
        b' routing_block_request_green_ = Some (request_green (leg_source l)) /\
        b' routing_block_route_out_ = Some (route_out (leg_source l)) /\
        b' next_block_detector_ = Some (dst_detector (leg_dest l)) /\
        b' next_block_routingloc_ = Some (routingloc (leg_to l)) /\
        b' next_block_route_in_ = Some (route_in (leg_dest l))) ->
     (evar e routing = false ->
        b' routing_block_request_green_ = b routing_block_request_green_ /\
        b' routing_block_route_out_ = b routing_block_route_out_) ->
     (forall c, leg_client l = Some c ->
        b' permit_request_ = Some (request c) /\ b' permit_granted_ = Some (granted c) /\
        b' permit_taken_ = Some (taken c)) ->
     xrun rs Q (mkXEnv e b')) ->
  xrun (route_bind_rules l ++ rs) Q (mkXEnv e b).
Proof.
  intros Hr H. unfold route_bind_rules. cbn [app].
  apply (xrun_bind _ [test1 routing] [(_, _); (_, _)]); [resolve_guards|rewrite enabled_test1; intros E..];
  (apply (xrun_bind _ [test1 routing] [(_, _); (_, _); (_, _)]); [resolve_guards|rewrite enabled_test1, E; intros E'; try done..]);
  (destruct (leg_client l) as [c|] eqn:Ec; cbn [app];
   [apply (xrun_bind [] [] [(_, _); (_, _); (_, _)]); [resolve_guards|intros _|done]|]);
  apply H; try (by rewrite E); try (by intros c' [= <-]); by repeat constructor.
Qed.

(** The location bits are different variables, and no others. *)
Lemma locations_apart :
  perma <> routing /\ perma <> permaloc (leg_to l) /\ perma <> routingloc (leg_to l) /\
  routing <> permaloc (leg_to l) /\ routing <> routingloc (leg_to l) /\ permaloc (leg_to l) <> routingloc (leg_to l).
Proof.
  pose proof (lo_locations OK) as H. unfold leg_locations in H. inversion H as [|? ? H1 H']; subst.
  inversion H' as [|? ? H2 H'']; subst. inversion H'' as [|? ? H3 _]; subst.
  rewrite !list_elem_of_In in H1, H2, H3. simpl in H1, H2, H3.
  repeat split; intros E%eq_sym; tauto.
Qed.

Lemma location_unwritten k xs :
  In k leg_locations ->
  Forall (fun x => match x with EReg j _ => In j leg_vars | _ => True end) xs -> unwritten k xs.
Proof.
  intros Hk H. apply (Forall_impl _ _ _ H). intros [j b|s|t]; [|done..]. intros Hj ->. by apply (lo_apart OK j).
Qed.

Lemma in_direction k : leg_direction l = Some k -> In k leg_vars.
Proof. unfold leg_vars. intros ->. by left. Qed.

Lemma in_lock k : leg_lock l = Some k -> In k leg_vars.
Proof. unfold leg_vars. intros ->. rewrite in_app_iff. right. by left. Qed.

Lemma in_client c k : leg_client l = Some c -> In k [request c; granted c; taken c] -> In k leg_vars.
Proof. unfold leg_vars. intros -> H. rewrite !in_app_iff. right. by right. Qed.

Lemma directed_effect_vars b :
  Forall (fun x => match x with EReg j _ => In j leg_vars | _ => True end) (directed_effect l b).
Proof.
  unfold directed_effect. destruct (leg_direction l) as [k|] eqn:E; repeat constructor. by apply in_direction.
Qed.

Lemma locked_effect_vars b :
  Forall (fun x => match x with EReg j _ => In j leg_vars | _ => True end) (locked_effect l b).
Proof. unfold locked_effect. destruct (leg_lock l) as [k|] eqn:E; repeat constructor. by apply in_lock. Qed.

Lemma perma_after_head e : evar (exec_rules (head_plain l) e) perma = evar e perma.
Proof.
  destruct locations_apart as [Hne _]. apply exec_rules_unwritten. unfold head_plain.
  destruct (leg_eager l); repeat constructor; done.
Qed.

Lemma perma_after_move e :
  evar (exec_rules (opt (leg_eager l) [move_plain v l]) e) perma = true -> evar e perma = true.
Proof.
  destruct (leg_eager l); [|done]. cbn [opt]. change (exec_rules [?r] e) with (exec_rule r e).
  destruct locations_apart as (_ & Hne & _). apply (exec_rule_cases (fun e' => evar e' perma = true -> evar e perma = true)); [done|].
  unfold enabled. cbn. destruct (Bool.eqb_spec (evar e (is_moving_ v)) true); [|done]. cbn.
  by destruct (Bool.eqb_spec (evar e perma) true).
Qed.

Lemma leg_binds_run rs Q e b :
  let e' := exec_rules (opt (leg_eager l) [move_plain v l]) (exec_rules (head_plain l) e) in
  (forall b', leg_bound (evar e' perma) (evar e' routing) b' ->
     leg_frame (evar e perma) (evar e' routing) b b' -> xrun rs Q (mkXEnv e' b')) ->
  xrun (bind_rules l ++ head_rules l ++ move_rules v l ++ route_bind_rules l ++ rs) Q (mkXEnv e b).
Proof.
  intros e' H. apply bind_rules_run. intros b1 Hp Hr Hd Hb Hhere Haway Hg Ho.
  apply head_rules_run; [done|done|by intros E; apply Hhere|]. intros b2 H2.
  assert (Hd2 : forall k, leg_direction l = Some k -> b2 current_direction_ = Some k).
  { intros k E. rewrite H2 by done. by rewrite Hd, E. }
  apply move_rules_run; [by rewrite H2|by rewrite H2|done| |].
  { rewrite perma_after_head. intros E. rewrite !H2 by done. by apply Hhere. }
  rewrite perma_after_head. intros b3 H3 Hn3 He3 Hs3.
  apply route_bind_rules_run; [by rewrite H3, H2|]. fold e'. intros b4 H4 Hahead Hbehind Hpermit.
  rewrite !Forall_cons in H4. destruct H4 as (Ep & Er & Ed & Edet & Enp & Ebl & _).
  assert (Hback : evar e' perma = true -> evar e perma = true).
  { intros E. apply perma_after_move in E. by rewrite perma_after_head in E. }
  apply H.
  - split; try (intros E; by apply Hahead); try done.
    + by rewrite Ep, H3, H2.
    + by rewrite Er, H3, H2.
    + intros k E. rewrite Ed, H3 by done. by apply Hd2.
    + by rewrite Ebl, H3, H2.
    + intros Hne E. rewrite Edet, He3, H2 by done. by apply Hhere, Hback.
    + intros E. rewrite Enp. by apply Hn3, Hback.
  - split.
    + by rewrite Ep, H3, H2.
    + by rewrite Er, H3, H2.
    + rewrite Ed, H3, H2 by done. apply Hd.
    + intros Hs. rewrite Edet. apply Hs3. rewrite H2 by done. destruct (evar e perma) eqn:E.
      * destruct (Hhere eq_refl) as [_ ->]. by eexists.
      * rewrite Haway by done. by destruct Hs.
    + destruct (evar e' routing); [by apply Hahead|]. destruct (Hbehind eq_refl) as [-> _].
      rewrite H3, H2 by done. done.
    + destruct (evar e' routing); [by apply Hahead|]. destruct (Hbehind eq_refl) as [_ ->].
      rewrite H3, H2 by done. done.
Qed.

(** ** The decision *)

(** Of [e], where the decision began, [e1] keeps the location bits; the tests
    are only under way if the route leads to the block. *)
Record deciding (e e1 : Env) : Prop := {
  dc_perma : evar e1 perma = true -> evar e perma = true;
  dc_routing : evar e1 routing = true -> evar e routing = true;
  dc_tested : estate e1 = StTestCondition \/ estate e1 = StTestCondition2 -> evar e routing = true
}.

(** Rules that write no location bit keep it, if they begin no tests or are
    enabled only by the routing bit. *)
Lemma deciding_rule e e1 r :
  deciding e e1 -> unwritten perma (effects r) -> unwritten routing (effects r) ->
  (enabled r e1 = true -> state_after (effects r) (estate e1) = StTestCondition \/
                          state_after (effects r) (estate e1) = StTestCondition2 ->
   evar e1 routing = true \/ estate e1 = StTestCondition \/ estate e1 = StTestCondition2) ->
  deciding e (exec_rule r e1).
Proof.
  intros [Hp Hr Ht] H1 H2 H3. split; [by rewrite exec_rule_unwritten..|].
  unfold exec_rule. destruct (enabled r e1) eqn:E; [|done]. rewrite estate_effects. intros Hs.
  destruct (H3 eq_refl Hs) as [H|H]; auto.
Qed.

Lemma deciding_start e : estate e <> StTestCondition -> estate e <> StTestCondition2 -> deciding e e.
Proof. intros H1 H2. split; [done|done|by intros [H|H]]. Qed.

Lemma unwritten_location k xs :
  k = perma \/ k = routing -> Forall (fun x => match x with EReg j _ => In j leg_vars | _ => True end) xs ->
  unwritten k xs.
Proof. intros Hk. apply location_unwritten. unfold leg_locations. destruct Hk as [->| ->]; simpl; auto. Qed.

Lemma conditions_are e b c :
  guards_are e b (List.map (fun '(k, x) => XReg (Var k) x) c) (List.map (fun '(k, x) => GReg (Some k) x) c).
Proof. induction c as [|[k x] c IH]; cbn; [apply ga_nil|by apply ga_var]. Qed.

(** A rule of the decision. *)
Lemma decide_step e e1 b gs gs' es es' rs Q :
  deciding e e1 -> guards_are e1 b gs gs' -> effects_are b es es' ->
  unwritten perma es' -> unwritten routing es' ->
  (enabled (mkRule gs' es') e1 = true ->
   state_after es' (estate e1) = StTestCondition \/ state_after es' (estate e1) = StTestCondition2 ->
   evar e1 routing = true \/ estate e1 = StTestCondition \/ estate e1 = StTestCondition2) ->
  (deciding e (exec_rule (mkRule gs' es') e1) -> xrun rs Q (mkXEnv (exec_rule (mkRule gs' es') e1) b)) ->
  xrun (mkXRule gs es :: rs) Q (mkXEnv e1 b).
Proof.
  intros D Hg He H1 H2 H3 H. eapply xrun_rule; [exact Hg|done|]. apply H. by apply deciding_rule.
Qed.

(** It stays in the tests, or leaves them. *)
Ltac in_tests := intros _; cbn; first [by intros [|] | intros ?; right; assumption].

Lemma test_rules_run rs Q e b :
  leg_bound (evar e perma) (evar e routing) b ->
  (leg_eager l = false -> evar e routing = true -> evar e perma = true) ->
  estate e <> StTestCondition -> estate e <> StTestCondition2 ->
  (deciding e (exec_rules (test_plain v l) e) -> xrun rs Q (mkXEnv (exec_rules (test_plain v l) e) b)) ->
  xrun (test_rules v l ++ rs) Q (mkXEnv e b).
Proof.
  intros B Hn H1 H2 H. pose proof (deciding_start e H1 H2) as D.
  unfold test_rules, test_plain, clear_guards, clear_plain in *. rewrite <- !app_assoc. cbn [app] in *.
  pose proof (lb_routing _ _ _ B) as Br.
  apply decide_step with (1 := D) (gs' := [GState StTestCondition]) (es' := [EState StWaiting]);
    [resolve_guards|resolve_effects|by constructor|by constructor|in_tests|intros D1].
  apply decide_step with (1 := D1) (gs' := [GState StTestCondition2]) (es' := [EState StWaiting]);
    [resolve_guards|resolve_effects|by constructor|by constructor|in_tests|intros D2].
  apply decide_step with (1 := D2) (gs' := [GState StWaiting; test1 routing]) (es' := [EState StTestCondition]);
    [resolve_guards|resolve_effects|by constructor|by constructor| |intros D3].
  { intros [_ [E%holds_test1 _]%enabled_cons]%enabled_cons _. by left. }
  eapply decide_step with (1 := D3) (gs' := GState StTestCondition :: clear_plain v l) (es' := [EState StTestCondition2]);
    [|resolve_effects|by constructor|by constructor| |intros D4].
  { apply ga_state. intros Es. pose proof (dc_tested _ _ D3 (or_introl Es)) as E.
    pose proof (lb_next_detector _ _ _ B E). pose proof (lb_out _ _ _ B E). pose proof (lb_next_in _ _ _ B E).
    pose proof (lb_blocked _ _ _ B). unfold clear_plain.
    destruct (leg_eager l) eqn:El; cbn [opt negb app].
    - resolve_guards. apply conditions_are.
    - pose proof (lb_detector _ _ _ B El (Hn eq_refl E)). resolve_guards. apply conditions_are. }
  { intros [E%Z.eqb_eq _]%enabled_cons _. right. by left. }
  unfold has_permit. destruct (leg_client l) as [c|] eqn:Ec; cbn [with_opt opt app] in *.
  - rewrite bool_decide_true by (by eexists). cbn [opt app].
    destruct (lb_permit _ _ _ B c Ec) as (Bp & Bg & Bt).
    assert (Hu : forall k x, k = perma \/ k = routing -> unwritten k [EReg (request c) x]).
    { intros k x Hk. apply unwritten_location; [done|]. repeat constructor. apply (in_client c); [done|by left]. }
    apply decide_step with (1 := D4) (gs' := [GState StTestCondition2]) (es' := [set1 (request c)]);
      [resolve_guards|resolve_effects|apply Hu; by left|apply Hu; by right|in_tests|intros D5].
    apply decide_step with (1 := D5) (gs' := [GState StTestCondition]) (es' := [set0 (request c)]);
      [resolve_guards|resolve_effects|apply Hu; by left|apply Hu; by right|in_tests|intros D6].
    apply decide_step with (1 := D6) (gs' := [test1 routing; test1 (route_out (leg_source l))]) (es' := [set0 (request c)]);
      [|resolve_effects|apply Hu; by left|apply Hu; by right|in_tests|intros D7].
    { apply ga_alias; [done|]. intros E. pose proof (lb_out _ _ _ B (dc_routing _ _ D6 E)). resolve_guards. }
    apply decide_step with (1 := D7) (gs' := [GState StTestCondition]) (es' := [EState StWaiting]);
      [resolve_guards|resolve_effects|by constructor|by constructor|in_tests|exact H].
  - rewrite bool_decide_false by (by intros []). cbn [opt app].
    apply decide_step with (1 := D4) (gs' := [GState StTestCondition]) (es' := [EState StWaiting]);
      [resolve_guards|resolve_effects|by constructor|by constructor|in_tests|exact H].
Qed.

Definition writes_vars (xs : list Effect) : Prop :=
  Forall (fun x => match x with EReg j _ => In j leg_vars | _ => True end) xs.

Lemma go_effects_vars : writes_vars (effects (go_plain l)).
Proof.
  unfold writes_vars, go_plain. cbn [effects]. rewrite !Forall_app.
  split; [apply locked_effect_vars|]. split; [|split; [apply directed_effect_vars|by repeat constructor]].
  destruct (leg_client l) as [c|] eqn:E; cbn; repeat constructor; eapply in_client; try done; simpl; auto.
Qed.

Lemma go_rules_run rs Q e e1 b :
  leg_bound (evar e perma) (evar e routing) b -> deciding e e1 ->
  (deciding e (exec_rules (go_plain l :: wait_plain l) e1) ->
   xrun rs Q (mkXEnv (exec_rules (go_plain l :: wait_plain l) e1) b)) ->
  xrun (go_rules l ++ rs) Q (mkXEnv e1 b).
Proof.
  intros B D H. unfold go_rules, go_plain, wait_plain, lock_guard, lock_effect, has_permit in *. rewrite <- !app_assoc.
  rewrite respects_direction. cbn [app].
  pose proof (lb_routing _ _ _ B) as Br. pose proof (lb_direction _ _ _ B) as Bd.
  apply decide_step with (1 := D) (gs' := guards (go_plain l)) (es' := effects (go_plain l)).
  { unfold go_plain, locked_guard. apply ga_state. intros _. destruct (leg_client l) as [c|] eqn:Ec.
    - rewrite bool_decide_true by (by eexists). destruct (lb_permit _ _ _ B c Ec) as (Bp & Bg & Bt).
      cbn [opt with_opt app]. destruct (leg_lock l); cbn; resolve_guards.
    - rewrite bool_decide_false by (by intros []). cbn [opt with_opt app]. destruct (leg_lock l); cbn; resolve_guards. }
  { unfold go_plain, locked_effect, directed_effect.
    destruct (leg_client l) as [c|] eqn:Ec.
    - rewrite bool_decide_true by (by eexists). destruct (lb_permit _ _ _ B c Ec) as (Bp & Bg & Bt).
      destruct (leg_lock l), (leg_direction l); cbn; resolve_effects.
    - rewrite bool_decide_false by (by intros []). destruct (leg_lock l), (leg_direction l); cbn; resolve_effects. }
  { apply unwritten_location; [by left|apply go_effects_vars]. }
  { apply unwritten_location; [by right|apply go_effects_vars]. }
  { intros [E%Z.eqb_eq _]%enabled_cons _. right. by right. }
  intros D1.
  apply decide_step with (1 := D1) (gs' := [GState StTestCondition2]) (es' := [EState StWaiting]);
    [resolve_guards|resolve_effects|by constructor|by constructor|in_tests|intros D2].
  destruct (leg_direction l) as [k|] eqn:Ed; cbn [opt app with_opt] in *; [|by apply H].
  specialize (Bd k eq_refl). apply in_direction in Ed.
  apply decide_step with (1 := D2) (gs' := [GState StWaiting; test1 routing; test1 k]) (es' := [set0 k]);
    [resolve_guards|resolve_effects| | |in_tests|exact H].
  - apply unwritten_location; [by left|by repeat constructor].
  - apply unwritten_location; [by right|by repeat constructor].
Qed.

(** The rules that end a transition. *)
Lemma finish_rules_run rs Q e e1 b :
  leg_bound (evar e perma) (evar e routing) b -> deciding e e1 ->
  (leg_eager l = false -> evar e perma = true -> evar e routing = true) ->
  xrun rs Q (mkXEnv (exec_rules [done_plain l; failed_plain l] e1) b) ->
  xrun (finish_rules l ++ rs) Q (mkXEnv e1 b).
Proof.
  intros B D Hn H. unfold finish_rules, done_plain, failed_plain, lock_effect, here, here_plain in *.
  rewrite respects_direction. cbn [app].
  pose proof (lb_perma _ _ _ B) as Bp. pose proof (lb_routing _ _ _ B) as Br. pose proof (lb_direction _ _ _ B) as Bd.
  apply xrun_rule with (gs' := guards (done_plain l)) (es' := effects (done_plain l)).
  { unfold done_plain, here_plain, directed_guard.
    destruct (leg_eager l), (leg_direction l); cbn; resolve_guards. }
  { unfold done_plain, here_plain, directed_guard.
    intros [_ [E%holds_test1 _]%enabled_cons]%enabled_cons.
    assert (Ehere : evar e routing = true /\ (leg_eager l = false -> evar e perma = true)).
    { destruct (leg_eager l) eqn:El; [split; [by apply (dc_routing _ _ D)|done]|].
      apply (dc_perma _ _ D) in E. auto. }
    destruct Ehere as [Er Ep]. pose proof (lb_next_routing _ _ _ B Er) as Bnr.
    unfold locked_effect, directed_effect. destruct (leg_eager l) eqn:El.
    - destruct (leg_direction l), (leg_lock l); cbn; resolve_effects.
    - pose proof (lb_next_perma _ _ _ B (Ep eq_refl)) as Bnp.
      destruct (leg_direction l), (leg_lock l); cbn; resolve_effects. }
  apply xrun_rule with (gs' := guards (failed_plain l)) (es' := effects (failed_plain l)).
  { unfold failed_plain, here_plain, directed_guard.
    destruct (leg_eager l), (leg_direction l); cbn; resolve_guards. }
  { intros _. unfold failed_plain, locked_effect. destruct (leg_lock l); cbn; resolve_effects. }
  exact H.
Qed.

(** ** The whole transition *)

Lemma routing_after_head e :
  leg_eager l = false -> evar (exec_rules (head_plain l) e) routing = evar e perma.
Proof.
  intros El. destruct locations_apart as [Hne _]. unfold head_plain. rewrite El.
  change (exec_rules [?r1; ?r2] e) with (exec_rule r2 (exec_rule r1 e)).
  unfold exec_rule, enabled. cbn. destruct (evar e perma) eqn:Ep, (evar e routing) eqn:Er; cbn; rewrite ?Ep, ?Er; cbn;
    repeat (case_decide; cbn; rewrite ?Ep, ?Er; cbn); congruence.
Qed.

Lemma state_after_head e : estate (exec_rules (opt (leg_eager l) [move_plain v l]) (exec_rules (head_plain l) e)) = estate e.
Proof.
  assert (H : forall rs e, Forall (fun r => state_after (effects r) 0 = 0 /\ forall s, state_after (effects r) s = s) rs ->
                estate (exec_rules rs e) = estate e).
  { clear. intros rs e H. revert e. induction H as [|r rs [_ Hr] _ IH]; intros e; [done|].
    change (exec_rules (r :: rs) e) with (exec_rules rs (exec_rule r e)). rewrite IH. unfold exec_rule.
    destruct (enabled r e); [|done]. by rewrite estate_effects. }
  rewrite !H; [done| |].
  - unfold head_plain. destruct (leg_eager l); by repeat constructor.
  - destruct (leg_eager l); cbn [opt]; repeat constructor; cbn; unfold directed_effect; by destruct (leg_direction l).
Qed.

Lemma leg_runs rs Q e b :
  estate e <> StTestCondition -> estate e <> StTestCondition2 ->
  let e1 := exec_rules (opt (leg_eager l) [move_plain v l]) (exec_rules (head_plain l) e) in
  (forall b', leg_frame (evar e perma) (evar e1 routing) b b' -> xrun rs Q (mkXEnv (exec_rules (leg_plain v l) e) b')) ->
  xrun (leg_rules v l ++ rs) Q (mkXEnv e b).
Proof.
  intros H1 H2 e1 H. unfold leg_rules. rewrite <- !app_assoc. apply leg_binds_run. fold e1. intros b' B F.
  assert (Hne : leg_eager l = false -> evar e1 routing = evar e1 perma).
  { intros El. unfold e1. rewrite El. cbn [opt]. change (exec_rules [] ?x) with x.
    by rewrite routing_after_head, perma_after_head. }
  assert (Es : estate e1 = estate e) by apply state_after_head.
  apply (test_rules_run _ _ e1 b' B); [intros El; by rewrite Hne|congruence|congruence|intros D1].
  apply (go_rules_run _ _ e1 _ b' B D1). intros D2.
  apply (finish_rules_run _ _ e1 _ b' B D2); [intros El; by rewrite Hne|].
  specialize (H b' F). unfold leg_plain, decide_plain in H. by rewrite !exec_rules_app in H.
Qed.

End Leg.
