(* ===== verification/ScheduleRounds.v ===== *)
(** A round of a train schedule runs as the rules of [ScheduleSpec]. *)

From stdpp Require Import strings.
From S2P Require Import Prelude AutomataDefs Automata AutomataTermination AutomataOps AutomataSim AutomataBuild ControlRules ControlLogic ControlTurnouts ControlBuild ControlSafety ScheduleRules TrainSchedule ScheduleBuild ScheduleSpec ScheduleRuns.

(** ** States *)

(** Effects that set only states of a set. *)
Definition sets_state (P : Z -> Prop) (xs : list Effect) : Prop :=
  Forall (fun x => match x with EState s => P s | _ => True end) xs.

Lemma state_after_in (P : Z -> Prop) xs s : P s -> sets_state P xs -> P (state_after xs s).
Proof. intros Hs H. revert s Hs. induction H as [|[k x|s'|t] xs Hx _ IH]; intros s Hs; cbn; auto. Qed.

Lemma exec_rule_state (P : Z -> Prop) r e :
  P (estate e) -> sets_state P (effects r) -> P (estate (exec_rule r e)).
Proof.
  intros H1 H2. apply (exec_rule_cases (fun e' => P (estate e'))); [done|]. intros _. rewrite estate_effects.
  by apply state_after_in.
Qed.

Lemma exec_rules_state (P : Z -> Prop) rs e :
  P (estate e) -> Forall (fun r => sets_state P (effects r)) rs -> P (estate (exec_rules rs e)).
Proof.
  intros H1 H. revert e H1. induction H as [|r rs Hr _ IH]; intros e H1; [done|].
  change (exec_rules (r :: rs) e) with (exec_rules rs (exec_rule r e)). by apply IH, exec_rule_state.
Qed.

(** A rule that is not enabled. *)
Lemma exec_rule_off r e : enabled r e = false -> exec_rule r e = e.
Proof. unfold exec_rule. by intros ->. Qed.

Lemma enabled_state s gs xs e : estate e <> s -> enabled (mkRule (GState s :: gs) xs) e = false.
Proof. intros H. unfold enabled. cbn. by rewrite (proj2 (Z.eqb_neq _ _) H). Qed.

Lemma enabled_prefix gs gs' xs xs' e :
  enabled (mkRule gs xs) e = false -> enabled (mkRule (gs ++ gs') xs') e = false.
Proof. unfold enabled. cbn. rewrite forallb_app. by intros ->. Qed.

(** The tests are over when the rules of a part are. *)
Definition untested (s : Z) : Prop := s <> StTestCondition /\ s <> StTestCondition2.

Section Parts.
Context (v : ScheduleVars).

Ltac sets := repeat constructor; first [done | by split].

Lemma directed_sets P l b : sets_state P (directed_effect l b).
Proof. unfold directed_effect. destruct (leg_direction l); by repeat constructor. Qed.

Lemma locked_sets P l b : sets_state P (locked_effect l b).
Proof. unfold locked_effect. destruct (leg_lock l); by repeat constructor. Qed.

Lemma leg_untested l e : untested (estate e) -> untested (estate (exec_rules (leg_plain v l) e)).
Proof.
  intros [H1 H2]. unfold leg_plain, decide_plain. rewrite !exec_rules_app.
  set (e1 := exec_rules (opt _ _) _).
  assert (Es : estate e1 = estate e) by apply state_after_head.
  set (e2 := exec_rules (test_plain v l) e1).
  assert (E2 : estate e2 <> StTestCondition).
  { unfold e2, test_plain. rewrite !exec_rules_app. set (e3 := exec_rules (with_opt _ _) _).
    change (estate (exec_rule (mkRule [GState StTestCondition] [EState StWaiting]) e3) <> StTestCondition).
    unfold exec_rule, enabled. cbn. by destruct (Z.eqb_spec (estate e3) StTestCondition). }
  set (e4 := exec_rules [go_plain l] e2).
  assert (E4 : estate e4 <> StTestCondition).
  { apply (exec_rules_state (fun s => s <> StTestCondition)); [done|]. repeat constructor. unfold go_plain. cbn [effects].
    unfold sets_state. rewrite !Forall_app. split; [apply locked_sets|].
    split; [destruct (leg_client l); by repeat constructor|]. split; [apply directed_sets|by repeat constructor]. }
  unfold wait_plain. set (e5 := exec_rule (mkRule [GState StTestCondition2] [EState StWaiting]) e4).
  change (exec_rules (mkRule [GState StTestCondition2] [EState StWaiting] :: ?w) e4) with (exec_rules w e5).
  assert (E5 : untested (estate e5)).
  { unfold e5. clearbody e4. unfold exec_rule, enabled. cbn. destruct (Z.eqb_spec (estate e4) StTestCondition2); by split. }
  apply exec_rules_state; [apply exec_rules_state; [done|]|].
  - destruct (leg_direction l); sets.
  - repeat constructor; unfold done_plain, failed_plain; cbn [effects]; unfold sets_state; rewrite ?Forall_app.
    + split; [apply locked_sets|]. split; [destruct (leg_eager l); by repeat constructor|].
      split; [by repeat constructor|]. split; [destruct (leg_eager l); by repeat constructor|].
      split; [by repeat constructor|]. split; [destruct (leg_eager l); [by constructor|apply directed_sets]|sets].
    + split; [apply locked_sets|sets].
Qed.

Lemma part_untested c p e : untested (estate e) -> untested (estate (exec_rules (part_plain v c p) e)).
Proof.
  intros H. destruct p as [l|r m desired|loc b|loc b]; cbn [part_plain]; [by apply leg_untested| | |done].
  - apply exec_rules_state; [done|]. unfold turnout_plain. sets.
  - apply exec_rules_state; [done|]. unfold reverse_plain. sets.
Qed.

(** ** Parts *)

(** Guards and then more, which count only where the first hold. *)
Lemma guards_are_app e b gs1 gs1' gs2 gs2' :
  guards_are e b gs1 gs1' -> (forallb (holds e) gs1' = true -> guards_are e b gs2 gs2') ->
  guards_are e b (gs1 ++ gs2) (gs1' ++ gs2').
Proof.
  revert gs1'. induction gs1 as [|g gs1 IH]; intros gs1' H H2; inversion H; subst; cbn in *; [by apply H2|..].
  - apply ga_var. intros E. apply IH; [auto|]. intros E'. apply H2. by rewrite E, Bool.eqb_reflx, E'.
  - eapply ga_alias; [done|]. intros E. apply IH; [auto|]. intros E'. apply H2. by rewrite E, Bool.eqb_reflx, E'.
  - apply ga_state. intros E. apply IH; [auto|]. intros E'. apply H2. by rewrite E, Z.eqb_refl, E'.
  - apply ga_timer. intros E. apply IH; [auto|]. intros E'. apply H2. cbn [holds] in E. by rewrite E, E'.
  - apply ga_sent. by apply IH.
Qed.

Definition cursor_bound (c : Cursor) (b : Z -> option nat) : Prop :=
  (forall loc, fst c = Some loc -> b current_block_routingloc_ = Some (routingloc loc)) /\
  (forall k, snd c = Some k -> b current_direction_ = Some k).

Lemma outgoing_are c r loc e b :
  cursor_bound c b -> fst c = Some loc -> (r = true -> is_Some (snd c)) ->
  guards_are e b (XState StTurnout :: outgoing_guards r) (GState StTurnout :: outgoing_plain c r).
Proof.
  intros [H1 H2] Hl Hr. unfold outgoing_guards, outgoing_plain. specialize (H1 loc Hl). rewrite Hl. cbn [with_opt app].
  destruct r; cbn [opt]; [|resolve_guards]. destruct (Hr eq_refl) as [k Hk]. specialize (H2 k Hk). rewrite Hk.
  cbn [with_opt]. resolve_guards.
Qed.

Lemma turnout_runs c r m desired rs Q e b loc :
  cursor_bound c b -> fst c = Some loc -> (r = true -> is_Some (snd c)) ->
  (forall b', Forall (fun k => b' k = b k)
     [current_block_routingloc_; current_direction_; current_block_detector_; routing_block_request_green_;
      routing_block_route_out_] ->
     xrun rs Q (mkXEnv (exec_rules (turnout_plain c r m desired) e) b')) ->
  xrun (turnout_rules r m desired ++ rs) Q (mkXEnv e b).
Proof.
  intros Hc Hl Hr H. unfold turnout_rules. cbn [app]. pose proof (outgoing_are c r loc e b Hc Hl Hr) as Hg.
  apply (xrun_bind _ _ [(_, _); (_, _); (_, _)] _ _ _ _ Hg); intros E.
  - set (b' := binds _ b).
    assert (Hc' : cursor_bound c b') by exact Hc.
    apply xrun_rule with (gs' := (GState StTurnout :: outgoing_plain c r) ++ [test0 (locked m)])
      (es' := [EReg (command m) desired]); [|intros _; resolve_effects|].
    { change (guards_are e b' ((XState StTurnout :: outgoing_guards r) ++ [XReg (Alias magnet_locked_) false])
        ((GState StTurnout :: outgoing_plain c r) ++ [test0 (locked m)])).
      apply guards_are_app; [by apply (outgoing_are c r loc)|intros _; resolve_guards]. }
    apply xrun_rule with (gs' := (GState StTurnout :: outgoing_plain c r) ++ [GReg (Some (current_state m)) (negb desired)])
      (es' := [EState StTurnoutFailed]); [|intros _; resolve_effects|].
    { match goal with |- guards_are ?e1 _ _ _ => change (guards_are e1 b'
        ((XState StTurnout :: outgoing_guards r) ++ [XReg (Alias magnet_state_) (negb desired)])
        ((GState StTurnout :: outgoing_plain c r) ++ [GReg (Some (current_state m)) (negb desired)])) end.
      apply guards_are_app; [by apply (outgoing_are c r loc)|intros _; resolve_guards]. }
    apply H. by repeat constructor.
  - assert (Hoff : forall gs xs, exec_rule (mkRule ((GState StTurnout :: outgoing_plain c r) ++ gs) xs) e = e).
    { intros gs xs. apply exec_rule_off. exact (enabled_prefix _ _ _ _ _ E). }
    assert (Hoffs : exec_rules (turnout_plain c r m desired) e = e).
    { unfold turnout_plain. rewrite !exec_rules_cons, !app_comm_cons. by rewrite !Hoff. }
    rewrite Hoffs in H.
    assert (Hvac : forall e' gs gs', e' = e ->
      guards_are e' b ((XState StTurnout :: outgoing_guards r) ++ gs) ((GState StTurnout :: outgoing_plain c r) ++ gs')).
    { intros e' gs gs' ->. apply guards_are_app; [done|]. intros E'. unfold enabled in E. cbn [guards] in E. congruence. }
    apply xrun_rule with (gs' := (GState StTurnout :: outgoing_plain c r) ++ [test0 (locked m)])
      (es' := [EReg (command m) desired]); [by apply Hvac|by intros Ht; rewrite (enabled_prefix _ _ _ _ _ E) in Ht|].
    rewrite Hoff.
    apply xrun_rule with (gs' := (GState StTurnout :: outgoing_plain c r) ++ [GReg (Some (current_state m)) (negb desired)])
      (es' := [EState StTurnoutFailed]); [by apply Hvac|intros _; resolve_effects|].
    rewrite Hoff. apply H. by repeat constructor.
Qed.

Lemma map_rules_run loc rs Q e b :
  (forall b', b' current_block_permaloc_ = Some (permaloc loc) -> b' current_block_routingloc_ = Some (routingloc loc) ->
     Forall (fun k => b' k = b k)
       [current_direction_; current_block_detector_; routing_block_request_green_; routing_block_route_out_] ->
     xrun rs Q (mkXEnv e b')) ->
  xrun (map_rules loc ++ rs) Q (mkXEnv e b).
Proof.
  intros H. unfold map_rules. cbn [app].
  apply (xrun_bind [] [] [(_, _)]); [resolve_guards|intros _|done].
  apply (xrun_bind [] [] [(_, _)]); [resolve_guards|intros _|done].
  apply H; by repeat constructor.
Qed.

(** What the local variables are bound to where a location is mapped. *)
Definition stop_frame (here : bool) (loc : ScheduleLocation) (b b' : Z -> option nat) : Prop :=
  b' current_block_permaloc_ = Some (permaloc loc) /\ b' current_block_routingloc_ = Some (routingloc loc) /\
  b' current_direction_ = b current_direction_ /\
  (is_Some (b current_block_detector_) \/ here = true -> is_Some (b' current_block_detector_)) /\
  b' routing_block_request_green_ = b routing_block_request_green_ /\
  b' routing_block_route_out_ = b routing_block_route_out_.

Lemma stop_runs loc blk rs Q e b :
  (forall b', stop_frame (evar e (permaloc loc)) loc b b' ->
     (evar e (permaloc loc) = true -> b' current_block_detector_ = Some (dst_detector blk)) -> xrun rs Q (mkXEnv e b')) ->
  xrun (stop_rules loc blk ++ rs) Q (mkXEnv e b).
Proof.
  intros H. unfold stop_rules. rewrite <- app_assoc. apply map_rules_run. intros b1 Hp Hr H1.
  rewrite !Forall_cons in H1. destruct H1 as (E1 & E2 & E3 & E4 & _). cbn [app].
  apply (xrun_bind _ [test1 (permaloc loc)] [(_, _)]); [resolve_guards|rewrite enabled_test1; intros E..].
  - apply H; [|done]. do 5 (split; [done|]). done.
  - apply H; [|by rewrite E]. do 3 (split; [done|]). split; [|done]. intros [Hs|E']; [by rewrite E2|congruence].
Qed.

Lemma reverse_runs loc blk rs Q e b :
  ~ In (permaloc loc) [need_reverse_ v; is_reversed_ v; last_set_reversed_ v] ->
  (forall b', stop_frame (evar e (permaloc loc)) loc b b' -> xrun rs Q (mkXEnv (exec_rules (reverse_plain v loc blk) e) b')) ->
  xrun (reverse_rules v loc blk ++ rs) Q (mkXEnv e b).
Proof.
  intros Hne H. unfold reverse_rules. rewrite <- app_assoc. apply stop_runs. intros b' F Hd. cbn [app].
  specialize (H b' F). destruct F as (Hp & Hr & _).
  assert (Hd1 : evar (exec_rule (mkRule [test1 (is_moving_ v); test1 (permaloc loc)] [set1 (need_reverse_ v)]) e)
                  (permaloc loc) = true -> b' current_block_detector_ = Some (dst_detector blk)).
  { rewrite exec_rule_unwritten; [done|]. repeat constructor. intros E. apply Hne. rewrite E. by left. }
  run_rule.
  eapply xrun_rule; [|intros _; resolve_effects|].
  { apply ga_state; intros ?. eapply ga_alias; [done|]. intros E. specialize (Hd1 E). resolve_guards. }
  do 8 run_rule. exact H.
Qed.

Definition part_ok (c : Cursor) (p : Part) : Prop :=
  match p with
  | PLeg l => leg_ok l
  | PTurnout r _ _ => is_Some (fst c) /\ (r = true -> is_Some (snd c))
  | PReverse loc _ => ~ In (permaloc loc) [need_reverse_ v; is_reversed_ v; last_set_reversed_ v]
  | PStop _ _ => True
  end.

Fixpoint parts_ok (c : Cursor) (parts : list Part) : Prop :=
  match parts with
  | [] => True
  | p :: parts => part_ok c p /\ parts_ok (cursor_after p c) parts
  end.

(** Whether the train is in the block of the part when its rules begin. *)
Definition here_at (p : Part) (e : Env) : bool :=
  match p with
  | PLeg l => evar e (permaloc (leg_from l))
  | PTurnout _ _ _ => false
  | PReverse loc _ | PStop loc _ => evar e (permaloc loc)
  end.

(** Whether the route of the train leads to the block when the transition is
    decided. *)
Definition ahead_at (p : Part) (e : Env) : bool :=
  match p with
  | PLeg l => evar (exec_rules (opt (leg_eager l) [move_plain v l]) (exec_rules (head_plain l) e)) (routingloc (leg_from l))
  | _ => false
  end.

Fixpoint some_part (f : Part -> Env -> bool) (c : Cursor) (parts : list Part) (e : Env) : bool :=
  match parts with
  | [] => false
  | p :: parts => f p e || some_part f (cursor_after p c) parts (exec_rules (part_plain v c p) e)
  end.

Definition greens (parts : list Part) : list nat :=
  omap (fun p => match p with PLeg l => Some (request_green (leg_source l)) | _ => None end) parts.

(** What is bound after parts. *)
Record parts_frame (here ahead : bool) (gs : list nat) (b b' : Z -> option nat) : Prop := {
  pf_detector : is_Some (b current_block_detector_) \/ here = true -> is_Some (b' current_block_detector_);
  pf_green : is_Some (b routing_block_request_green_) \/ ahead = true -> is_Some (b' routing_block_request_green_);
  pf_out : is_Some (b routing_block_route_out_) \/ ahead = true -> is_Some (b' routing_block_route_out_);
  pf_greens : b' routing_block_request_green_ = b routing_block_request_green_ \/
              exists k, b' routing_block_request_green_ = Some k /\ In k gs
}.

Lemma parts_frame_refl b : parts_frame false false [] b b.
Proof. split; try (by intros [|]); by left. Qed.

Lemma parts_frame_trans here1 ahead1 gs1 here2 ahead2 gs2 b b1 b2 :
  parts_frame here1 ahead1 gs1 b b1 -> parts_frame here2 ahead2 gs2 b1 b2 ->
  parts_frame (here1 || here2) (ahead1 || ahead2) (gs1 ++ gs2) b b2.
Proof.
  intros [D1 G1 O1 M1] [D2 G2 O2 M2]. split.
  - intros [H|[H|H]%orb_prop]; auto.
  - intros [H|[H|H]%orb_prop]; auto.
  - intros [H|[H|H]%orb_prop]; auto.
  - destruct M2 as [->|(k & -> & Hk)]; [|right; exists k; split; [done|apply in_app_iff; by right]].
    destruct M1 as [->|(k & -> & Hk)]; [by left|right; exists k; split; [done|apply in_app_iff; by left]].
Qed.

Lemma leg_parts_frame l here ahead b b' :
  leg_frame l here ahead b b' -> parts_frame here ahead [request_green (leg_source l)] b b'.
Proof.
  intros [_ _ _ Hd Hg Ho]. split; [done|..].
  - rewrite Hg. destruct ahead; [by eexists|by intros [|]].
  - rewrite Ho. destruct ahead; [by eexists|by intros [|]].
  - rewrite Hg. destruct ahead; [right; eexists; split; [done|by left]|by left].
Qed.

Lemma stop_parts_frame here loc b b' : stop_frame here loc b b' -> parts_frame here false [] b b'.
Proof. intros (_ & _ & _ & Hd & Hg & Ho). split; [done|rewrite Hg|rewrite Ho|by left]; by intros [|]. Qed.

Lemma part_runs c p rs Q e b :
  part_ok c p -> cursor_bound c b -> untested (estate e) ->
  (forall b', cursor_bound (cursor_after p c) b' -> parts_frame (here_at p e) (ahead_at p e) (greens [p]) b b' ->
     xrun rs Q (mkXEnv (exec_rules (part_plain v c p) e) b')) ->
  xrun (part_rules v p ++ rs) Q (mkXEnv e b).
Proof.
  intros Hok [Hc1 Hc2] [Hs1 Hs2] H. destruct p as [l|r m desired|loc blk|loc blk];
    cbn [part_rules part_ok cursor_after here_at ahead_at part_plain] in *.
  - apply leg_runs; [done..|]. intros b' F. apply H; [|by apply leg_parts_frame]. destruct F as [_ Hr Hd _ _ _]. split.
    + by intros loc [= <-].
    + cbn. rewrite Hd. destruct (leg_direction l); [done|]. apply Hc2.
  - destruct Hok as [[loc Hl] Hr]. apply (turnout_runs c r m desired _ _ _ _ loc); [by split|done..|].
    intros b' Hb'. rewrite !Forall_cons in Hb'. destruct Hb' as (E1 & E2 & E3 & E4 & E5 & _). apply H.
    + split; [intros loc' Hl'; rewrite E1; by apply Hc1|intros k Hk; rewrite E2; by apply Hc2].
    + split; [rewrite E3|rewrite E4|rewrite E5|by left]; by intros [|].
  - apply reverse_runs; [done|]. intros b' F. apply H; [|by eapply stop_parts_frame].
    destruct F as (_ & Hr & Hd & _). split; [by intros loc' [= <-]|]. cbn. rewrite Hd. apply Hc2.
  - apply stop_runs. intros b' F _. apply H; [|by eapply stop_parts_frame].
    destruct F as (_ & Hr & Hd & _). split; [by intros loc' [= <-]|]. cbn. rewrite Hd. apply Hc2.
Qed.

Lemma parts_run parts c rs Q e b :
  parts_ok c parts -> cursor_bound c b -> untested (estate e) ->
  (forall b', parts_frame (some_part here_at c parts e) (some_part ahead_at c parts e) (greens parts) b b' ->
     xrun rs Q (mkXEnv (exec_rules (parts_plain v c parts) e) b')) ->
  xrun ((parts ≫= part_rules v) ++ rs) Q (mkXEnv e b).
Proof.
  revert c e b. induction parts as [|p parts IH]; intros c e b Hok Hc Hs H.
  - apply H, parts_frame_refl.
  - destruct Hok as [Hp Hok]. rewrite bind_cons, <- app_assoc. apply (part_runs c); [done..|]. intros b1 Hc1 F1.
    apply (IH (cursor_after p c)); [done|done|by apply part_untested|]. intros b2 F2.
    cbn [parts_plain] in H. rewrite exec_rules_app in H. apply H.
    assert (Eg : greens (p :: parts) = greens [p] ++ greens parts) by (apply (omap_app _ [p])).
    rewrite Eg. by apply (parts_frame_trans _ _ _ _ _ _ _ b1).
Qed.

Lemma parts_untested parts c e : untested (estate e) -> untested (estate (exec_rules (parts_plain v c parts) e)).
Proof.
  revert c e. induction parts as [|p parts IH]; intros c e H; [done|]. cbn [parts_plain]. rewrite exec_rules_app.
  by apply IH, part_untested.
Qed.

(** ** Base states *)

Definition bound_of (b : Z -> option nat) : Bound :=
  mkBound (b current_block_detector_) (b routing_block_request_green_) (b routing_block_route_out_).

Definition asking (s : Z) : Prop := s = StRequestGreen \/ s = StGreenRequested.

(** A rule of another state. *)
Lemma xrun_off s gs es rs Q e b :
  estate e <> s -> xrun rs Q (mkXEnv e b) -> xrun (mkXRule (XState s :: gs) es :: rs) Q (mkXEnv e b).
Proof.
  intros Hs H. apply xrun_rule with (gs' := [GState s]) (es' := []).
  - apply ga_state. by intros ?.
  - by rewrite enabled_state.
  - by rewrite exec_rule_off by (by apply enabled_state).
Qed.

Lemma base_runs reset_routes rs Q e b :
  is_Some (b current_block_detector_) ->
  (asking (estate e) -> is_Some (b routing_block_request_green_) /\ is_Some (b routing_block_route_out_)) ->
  xrun rs Q (mkXEnv (exec_rules (base_plain v reset_routes (bound_of b)) e) b) ->
  xrun (base_rules reset_routes v ++ rs) Q (mkXEnv e b).
Proof.
  intros [d Hd] Ha H. set (B := bound_of b) in *.
  assert (Hasked : exists e4,
    exec_rules (base_plain v reset_routes B) e =
      exec_rules (drop 4 (base_plain v reset_routes B)) e4 /\
    forall rs', xrun rs' Q (mkXEnv e4 b) ->
      xrun (take 4 (base_rules reset_routes v) ++ rs') Q (mkXEnv e b)).
  { exists (exec_rules (take 4 (base_plain v reset_routes B)) e). split.
    { by rewrite <- exec_rules_app, take_drop. }
    intros rs' Hrs'. cbn [base_plain base_rules app take] in *.
    destruct (b routing_block_request_green_) as [g|] eqn:Eg, (b routing_block_route_out_) as [o|] eqn:Eo.
    all: unfold opt_guard, B, bound_of in Hrs'; cbn [bound_green bound_out] in Hrs'; rewrite ?Eg, ?Eo in Hrs'.
    { cbn [with_opt app] in Hrs'. do 4 run_rule. exact Hrs'. }
    all: assert (Hno : ~ asking (estate e)) by (intros Hs; destruct (Ha Hs) as [[? ?] [? ?]]; congruence).
    all: assert (Hn1 : estate e <> StRequestGreen) by (intros E; apply Hno; by left).
    all: assert (Hn2 : estate e <> StGreenRequested) by (intros E; apply Hno; by right).
    all: rewrite !exec_rules_cons in Hrs'.
    all: rewrite (exec_rule_off (mkRule (GState StRequestGreen :: _) _) e) in Hrs' by (by apply enabled_state).
    all: rewrite !(exec_rule_off (mkRule (GState StGreenRequested :: _) _) e) in Hrs' by (by apply enabled_state).
    all: change (exec_rules [] e) with e in Hrs'.
    all: do 4 (apply xrun_off; [done|]); exact Hrs'. }
  destruct Hasked as (e4 & E4 & H4). rewrite E4 in H. rewrite <- (take_drop 4 (base_rules reset_routes v)), <- app_assoc.
  apply H4. clear H4 E4 Ha e. unfold base_rules, base_plain, opt_guard, B, bound_of in *. cbn [bound_detector] in *.
  rewrite Hd in H. cbn [app drop with_opt] in *. do 6 run_rule.
  destruct reset_routes as [r|]; cbn [with_opt app] in *; [run_rule|]; do 3 run_rule; exact H.
Qed.

Lemma train_runs rs Q e b :
  xrun rs Q (mkXEnv (exec_rules (train_plain v) e) b) -> xrun (train_rules v ++ rs) Q (mkXEnv e b).
Proof.
  intros H. unfold train_rules. cbn [app].
  do 3 (eapply xrun_train; [resolve_guards|resolve_effects|]). do 5 run_rule.
  do 2 (eapply xrun_train; [resolve_guards|resolve_effects|]). do 3 run_rule. exact H.
Qed.

Lemma init_runs rs Q e b :
  xrun rs Q (mkXEnv (exec_rules (init_plain v) e) b) -> xrun (init_rules v ++ rs) Q (mkXEnv e b).
Proof. intros H. unfold init_rules. cbn [app]. do 2 run_rule. exact H. Qed.

(** A round: nothing is bound when it begins. *)
Definition round (reset_routes : option nat) (parts : list Part) (d : Bound) (e : Env) : Env :=
  exec_rules (schedule_plain v reset_routes parts d) e.

(** The train must be in a block of the schedule and, where a route is being
    asked for, one of its routes must lead on. *)
Lemma schedule_runs_plain reset_routes parts e :
  parts_ok (None, None) parts -> untested (estate e) ->
  some_part here_at (None, None) parts e = true ->
  (asking (estate (exec_rules (parts_plain v (None, None) parts) e)) ->
   some_part ahead_at (None, None) parts e = true) ->
  exists d x, xexec_rules (schedule_rules reset_routes v parts) (mkXEnv e (fun _ => None)) = Some x /\
    layout x = round reset_routes parts d e /\
    is_Some (bound_detector d) /\ (forall k, bound_green d = Some k -> In k (greens parts)).
Proof.
  intros Hok Hs Hhere Hahead.
  enough (H : xrun (schedule_rules reset_routes v parts)
    (fun x => exists d, layout x = round reset_routes parts d e /\ is_Some (bound_detector d) /\
                        (forall k, bound_green d = Some k -> In k (greens parts))) (mkXEnv e (fun _ => None))).
  { unfold xrun in H. destruct (xexec_rules _ _) as [x|]; [|done]. destruct H as (d & H). by exists d, x. }
  unfold schedule_rules. apply (parts_run parts (None, None)); [done|by split|done|].
  intros b [Fd Fg Fo Fm]. specialize (Fd (or_intror Hhere)).
  apply base_runs; [done|intros Ha; split; auto|]. apply train_runs.
  rewrite <- (app_nil_r (init_rules v)). apply init_runs. exists (bound_of b).
  split; [unfold round, schedule_plain; by rewrite !exec_rules_app|]. split; [done|].
  intros k Hk. cbn in Hk. destruct Fm as [E|(k' & E & Hin)]; congruence.
Qed.

End Parts.
