(* ===== verification/ScheduleSafety.v ===== *)
(** Where a train schedule takes its train: from block to block along the
    transitions of the schedule, and nowhere else. *)

From stdpp Require Import strings.
From S2P Require Import Prelude AutomataDefs Automata AutomataTermination AutomataOps AutomataSim AutomataBuild ControlRules ControlLogic ControlTurnouts ControlBuild ControlSafety ScheduleRules TrainSchedule ScheduleBuild ScheduleOps ScheduleSpec ScheduleRuns ScheduleRounds.

(** ** Wiring *)

Definition legs (parts : list Part) : list Leg :=
  omap (fun p => match p with PLeg l => Some l | _ => None end) parts.

(** The bit of the block that a part is about. *)
Definition place_of (p : Part) : option nat :=
  match p with
  | PLeg l => Some (permaloc (leg_from l))
  | PTurnout _ _ _ => None
  | PReverse loc _ | PStop loc _ => Some (permaloc loc)
  end.

Definition places (parts : list Part) : list nat := omap place_of parts.

Definition routings (parts : list Part) : list nat :=
  legs parts ≫= fun l => [routingloc (leg_from l); routingloc (leg_to l)].

Definition locations (parts : list Part) : list nat := places parts ++ routings parts.

(** What the rules of a part write, other than the bits of locations. *)
Definition part_vars (v : ScheduleVars) (p : Part) : list nat :=
  match p with
  | PLeg l => leg_vars l
  | PTurnout _ m _ => [command m]
  | PReverse _ _ => [need_reverse_ v; is_reversed_ v; last_set_reversed_ v]
  | PStop _ _ => []
  end.

Definition parts_vars (v : ScheduleVars) (parts : list Part) : list nat := parts ≫= part_vars v.

(** The bits that hold the directions chosen, and what else the rules of a part
    set. *)
Definition directions (parts : list Part) : list nat := omap leg_direction (legs parts).

Definition raised (v : ScheduleVars) (p : Part) : list nat :=
  match p with
  | PLeg l => with_opt (leg_lock l) (fun k => [k]) ++ with_opt (leg_client l) (fun c => [request c; taken c])
  | PTurnout _ m _ => [command m]
  | PReverse _ _ => [need_reverse_ v; is_reversed_ v; last_set_reversed_ v]
  | PStop _ _ => []
  end.

(** What the other rules write. *)
Definition base_vars (v : ScheduleVars) (parts : list Part) : list nat :=
  greens parts ++ [req_go_ v; req_stop_ v; is_moving_ v; last_set_reversed_ v].

(** What decides whether the train has left a block. *)
Definition leaving_vars (v : ScheduleVars) (parts : list Part) : list nat :=
  is_moving_ v :: (legs parts ≫= fun l => [src_detector (leg_source l); route_out (leg_source l)]).

(** Every transition leads to a block of the schedule, the transitions from a
    block are all eager or none is, and the bits of locations have no other
    use; each direction has a bit of its own. *)
Record wired (v : ScheduleVars) (parts : list Part) : Prop := {
  w_covered l : In l (legs parts) -> In (permaloc (leg_to l)) (places parts);
  w_locations k : In k (places parts) -> ~ In k (routings parts);
  w_eager l l' : In l (legs parts) -> In l' (legs parts) ->
    permaloc (leg_from l) = permaloc (leg_from l') \/ routingloc (leg_from l) = routingloc (leg_from l') ->
    leg_eager l = leg_eager l';
  w_apart k : In k (locations parts) -> ~ In k (parts_vars v parts) /\ ~ In k (base_vars v parts);
  w_leaving k : In k (leaving_vars v parts) -> ~ In k (locations parts) /\ ~ In k (parts_vars v parts);
  w_directions : NoDup (directions parts);
  w_raised k : In k (directions parts) -> ~ In k (parts ≫= raised v)
}.

(** ** Rules *)

(** Effects on some variables only. *)
Definition vars_in (V : list nat) (xs : list Effect) : Prop :=
  Forall (fun x => match x with EReg j _ => In j V | _ => True end) xs.

Lemma vars_in_unwritten V k xs : vars_in V xs -> ~ In k V -> unwritten k xs.
Proof. intros H Hk. apply (Forall_impl _ _ _ H). intros [j b|s|t]; [|done..]. by intros Hj ->. Qed.

Lemma vars_in_mono V V' xs : vars_in V xs -> (forall k, In k V -> In k V') -> vars_in V' xs.
Proof. intros H HV. apply (Forall_impl _ _ _ H). intros [j b|s|t]; auto. Qed.

(** The states between the decision to go and the end of the transition, and
    those of the tests. *)
Definition busy_states : list Z :=
  [StTestCondition; StTestCondition2; StReadyToGo; StTurnout; StTurnoutFailed; StRequestGreen; StGreenRequested;
   StGreenWait; StGreenFailed; StRequestTransition].

Definition busy (s : Z) : Prop := In s busy_states.

(** The states that the rules of parts do not set. *)
Definition later (s : Z) : Prop := s = StRequestTransition \/ asking s.

(** Each element of a list of effects. *)
Ltac each := unfold vars_in, sets_state; repeat (apply Forall_cons; split); try apply Forall_nil; cbn beta iota delta [set0 set1]; try done.

(** A state is none of these. *)
Ltac not_busy := let H := fresh in intros H; repeat (destruct H as [H|H]; [done|]); done.
Ltac not_later := let H := fresh in intros [H|[H|H]]; done.

Section Safety.
Context (v : ScheduleVars) (parts : list Part) (W : wired v parts).
Context (OK : forall l, In l (legs parts) -> leg_ok l).

Abbreviation perma_from l := (permaloc (leg_from l)).
Abbreviation perma_to l := (permaloc (leg_to l)).
Abbreviation routing_from l := (routingloc (leg_from l)).
Abbreviation routing_to l := (routingloc (leg_to l)).

(** A transition that the schedule may be about to make. *)
Definition active (l : Leg) (e : Env) : Prop := evar e (here_plain l) = true.

(** A rule of a part that moves nothing. *)
Record calm (r : Rule) : Prop := {
  cm_writes : vars_in (locations parts ++ parts_vars v parts) (effects r);
  cm_places k : In k (places parts) -> unwritten k (effects r);
  cm_later : sets_state (fun s => ~ later s) (effects r);
  cm_active l e : In l (legs parts) -> active l e -> busy (estate (exec_rule r e)) -> active l (exec_rule r e);
  cm_busy e : busy (estate (exec_rule r e)) -> busy (estate e)
}.

Lemma here_location l : In l (legs parts) -> In (here_plain l) (locations parts).
Proof.
  intros Hl. unfold here_plain, locations. apply in_app_iff. destruct (leg_eager l).
  - right. unfold routings. apply list_elem_of_In, list_elem_of_bind. exists l.
    split; [apply list_elem_of_In; by left|by apply list_elem_of_In].
  - left. unfold places, legs in *. apply list_elem_of_In, list_elem_of_omap in Hl as (p & Hp & E).
    apply list_elem_of_In, list_elem_of_omap. exists p. destruct p; by simplify_eq.
Qed.

Lemma calm_quiet gs xs :
  vars_in (parts_vars v parts) xs -> sets_state (fun s => ~ later s) xs ->
  sets_state (fun s => ~ busy s) xs \/ (exists s, busy s /\ In (GState s) gs) ->
  calm (mkRule gs xs).
Proof.
  intros Hv Hl Hb.
  assert (Hun : forall k, In k (locations parts) -> unwritten k xs).
  { intros k Hk. apply (vars_in_unwritten _ _ _ Hv). by apply (w_apart _ _ W). }
  split; cbn [effects].
  - apply (vars_in_mono _ _ _ Hv). intros k Hk. apply in_app_iff. by right.
  - intros k Hk. apply Hun. apply in_app_iff. by left.
  - done.
  - intros l e Hin Ha _. unfold active in *. rewrite exec_rule_unwritten; [done|]. by apply Hun, here_location.
  - intros e. unfold exec_rule. destruct (enabled _ e) eqn:E; [|done]. cbn [effects]. rewrite estate_effects. intros Hs.
    destruct Hb as [Hb|(s & Hs' & Hg)].
    + destruct (decide (busy (estate e))) as [|Hn]; [done|]. exfalso.
      by apply (state_after_in (fun s => ~ busy s) xs (estate e)).
    + unfold enabled in E. cbn [guards] in E. rewrite forallb_forall in E. specialize (E _ Hg). cbn in E.
      apply Z.eqb_eq in E. by rewrite E.
Qed.

(** ** The rules of parts *)

Lemma in_legs l : In l (legs parts) <-> In (PLeg l) parts.
Proof.
  unfold legs. rewrite <- !list_elem_of_In, list_elem_of_omap. split.
  - intros (p & Hp & E). destruct p; by simplify_eq.
  - intros H. by exists (PLeg l).
Qed.

Lemma in_parts_vars p k : In p parts -> In k (part_vars v p) -> In k (parts_vars v parts).
Proof. unfold parts_vars. rewrite <- !list_elem_of_In, list_elem_of_bind. by exists p. Qed.

Lemma in_places p k : In p parts -> place_of p = Some k -> In k (places parts).
Proof. unfold places. rewrite <- !list_elem_of_In, list_elem_of_omap. by exists p. Qed.

Lemma in_routings l k : In l (legs parts) -> k = routing_from l \/ k = routing_to l -> In k (routings parts).
Proof.
  intros Hl Hk. unfold routings. apply list_elem_of_In, list_elem_of_bind. exists l.
  split; [apply list_elem_of_In; destruct Hk as [->| ->]; simpl; auto|by apply list_elem_of_In].
Qed.

Lemma leg_place l : In l (legs parts) -> In (perma_from l) (places parts).
Proof. intros Hl%in_legs. by apply (in_places (PLeg l)). Qed.

Lemma place_location k : In k (places parts) -> In k (locations parts).
Proof. intros H. apply in_app_iff. by left. Qed.

Lemma routing_location k : In k (routings parts) -> In k (locations parts).
Proof. intros H. apply in_app_iff. by right. Qed.

Lemma leg_vars_in l xs : In l (legs parts) -> vars_in (leg_vars l) xs -> vars_in (parts_vars v parts) xs.
Proof. intros Hl%in_legs H. apply (vars_in_mono _ _ _ H). intros k. by apply (in_parts_vars (PLeg l)). Qed.

(** Rules that set a routing bit. *)
Lemma calm_set_routing gs k : In k (routings parts) -> calm (mkRule gs [set1 k]).
Proof.
  intros Hk. split; cbn [effects].
  - repeat constructor. apply in_app_iff. left. by apply routing_location.
  - intros j Hj. repeat constructor. intros ->. by apply (w_locations _ _ W k).
  - by repeat constructor.
  - intros l e _ Ha _. unfold active, exec_rule in *. destruct (enabled _ e); [|done]. cbn. by case_decide.
  - intros e. unfold exec_rule. by destruct (enabled _ e).
Qed.

(** Rules that clear it do so while nothing is under way, or while no eager
    transition starts there. *)
Lemma calm_clear_routing gs k :
  In k (routings parts) ->
  (exists s, In (GState s) gs /\ ~ busy s) \/
  (forall l, In l (legs parts) -> routing_from l = k -> leg_eager l = false) ->
  calm (mkRule gs [set0 k]).
Proof.
  intros Hk Hc. split; cbn [effects].
  - repeat constructor. apply in_app_iff. left. by apply routing_location.
  - intros j Hj. repeat constructor. intros ->. by apply (w_locations _ _ W k).
  - by repeat constructor.
  - intros l e Hl Ha Hb. unfold active, exec_rule in *. destruct (enabled _ e) eqn:E; [|done]. cbn in *.
    case_decide as Ek; [|done]. exfalso. destruct Hc as [(s & Hg & Hs)|Hc].
    + unfold enabled in E. cbn [guards] in E. rewrite forallb_forall in E. specialize (E _ Hg). cbn in E.
      apply Z.eqb_eq in E. by rewrite E in Hb.
    + unfold here_plain in Ek. destruct (leg_eager l) eqn:El; [by rewrite (Hc l Hl Ek) in El|].
      apply (w_locations _ _ W k); [|done]. rewrite <- Ek. by apply leg_place.
  - intros e. unfold exec_rule. by destruct (enabled _ e).
Qed.

Lemma head_calm l : In l (legs parts) -> Forall calm (head_plain l).
Proof.
  intros Hl. assert (Hk : In (routing_from l) (routings parts)) by (apply (in_routings l); auto).
  unfold head_plain. destruct (leg_eager l) eqn:El; constructor; [by apply calm_set_routing| | |].
  - constructor; [|done]. apply calm_clear_routing; [done|]. left. exists StWaiting. split; [by left|].
    intros H. repeat (destruct H as [H|H]; [done|]). done.
  - apply calm_clear_routing; [done|]. right. intros l' Hl' E. rewrite <- El. apply (w_eager _ _ W); auto.
  - constructor; [by apply calm_set_routing|done].
Qed.


Lemma client_vars_in l c : leg_client l = Some c -> forall k, In k [request c; granted c; taken c] -> In k (leg_vars l).
Proof. intros Hc k. by apply in_client. Qed.

(** The rule that begins the tests. *)
Definition begin_rule (l : Leg) : Rule := mkRule [GState StWaiting; test1 (routing_from l)] [EState StTestCondition].

(** The rules before it, which end tests that are none of the transition. *)
Definition reset_rule (s : Z) : Rule := mkRule [GState s] [EState StWaiting].

Lemma test_calm l :
  In l (legs parts) ->
  exists rest, test_plain v l = reset_rule StTestCondition :: reset_rule StTestCondition2 :: begin_rule l :: rest /\
    calm (reset_rule StTestCondition) /\ calm (reset_rule StTestCondition2) /\ Forall calm rest.
Proof.
  intros Hl. eexists. split; [reflexivity|].
  assert (Hstate : forall s gs, ~ later s -> (~ busy s \/ exists s', busy s' /\ In (GState s') gs) ->
                     calm (mkRule gs [EState s])).
  { intros s gs H1 H2. apply calm_quiet; [by constructor|by repeat constructor|].
    destruct H2 as [H2|H2]; [left; by repeat constructor|by right]. }
  assert (Hreq : forall c gs b, leg_client l = Some c -> calm (mkRule gs [EReg (request c) b])).
  { intros c gs b Hc. apply calm_quiet; [|by repeat constructor|left; by repeat constructor].
    apply (leg_vars_in l); [done|]. repeat constructor. apply (client_vars_in l c Hc). by left. }
  split; [apply Hstate; [not_later|left; not_busy]|]. split; [apply Hstate; [not_later|left; not_busy]|].
  constructor; [|apply Forall_app; split].
  - apply Hstate; [not_later|]. right. exists StTestCondition. split; [by left|by left].
  - destruct (leg_client l) as [c|] eqn:Ec; cbn [with_opt]; [|done].
    constructor; [by apply Hreq|]. constructor; [by apply Hreq|]. constructor; [by apply Hreq|done].
  - constructor; [|done]. apply Hstate; [not_later|left; not_busy].
Qed.

Lemma go_calm l : In l (legs parts) -> calm (go_plain l).
Proof.
  intros Hl. apply calm_quiet.
  - apply (leg_vars_in l); [done|]. apply (go_effects_vars l).
  - unfold sets_state. rewrite !Forall_app. split; [apply locked_sets|].
    split; [destruct (leg_client l); by repeat constructor|]. split; [apply directed_sets|].
    repeat constructor. not_later.
  - right. exists StTestCondition2. split; [right; by left|by left].
Qed.

Lemma wait_calm l : In l (legs parts) -> Forall calm (wait_plain l).
Proof.
  intros Hl. unfold wait_plain. constructor.
  - apply calm_quiet; [by constructor|repeat constructor; not_later|left; repeat constructor; not_busy].
  - destruct (leg_direction l) as [k|] eqn:Ed; cbn [with_opt]; constructor; [|done].
    apply calm_quiet; [|by repeat constructor|left; by repeat constructor].
    apply (leg_vars_in l); [done|]. repeat constructor. by apply in_direction.
Qed.

Lemma failed_calm l : In l (legs parts) -> calm (failed_plain l).
Proof.
  intros Hl. apply calm_quiet.
  - apply (leg_vars_in l); [done|]. unfold vars_in. rewrite Forall_app. split; [apply (locked_effect_vars l)|by repeat constructor].
  - unfold sets_state. rewrite Forall_app. split; [apply locked_sets|]. repeat constructor; not_later.
  - left. unfold sets_state. rewrite Forall_app. split; [apply locked_sets|]. repeat constructor; not_busy.
Qed.

Lemma turnout_calm c r m desired : In (PTurnout r m desired) parts -> Forall calm (turnout_plain c r m desired).
Proof.
  intros Hp. unfold turnout_plain. constructor; [|constructor; [|done]].
  - apply calm_quiet; [|by repeat constructor|left; by repeat constructor].
    repeat constructor. apply (in_parts_vars _ _ Hp). by left.
  - apply calm_quiet; [by repeat constructor|repeat constructor; not_later|].
    right. exists StTurnout. split; [do 3 right; by left|by left].
Qed.

Lemma reverse_calm loc b : In (PReverse loc b) parts -> Forall calm (reverse_plain v loc b).
Proof.
  intros Hp.
  assert (H : forall gs xs, vars_in (part_vars v (PReverse loc b)) xs -> sets_state (fun s => ~ later s) xs ->
                sets_state (fun s => ~ busy s) xs -> calm (mkRule gs xs)).
  { intros gs xs H1 H2 H3. apply calm_quiet; [|done|by left]. apply (vars_in_mono _ _ _ H1). intros k. by apply in_parts_vars. }
  unfold reverse_plain.
  repeat (constructor; [apply H; each; first [done | not_later | not_busy | simpl; auto]|]). done.
Qed.

(** ** The rules that move the train *)

(** What holds of every rule of a part. *)
Record tame (r : Rule) : Prop := {
  tm_writes : vars_in (locations parts ++ parts_vars v parts) (effects r);
  tm_later : sets_state (fun s => ~ later s) (effects r);
  tm_active l e : In l (legs parts) -> active l e -> busy (estate (exec_rule r e)) -> active l (exec_rule r e)
}.

Lemma calm_tame r : calm r -> tame r.
Proof. by intros [H1 H2 H3 H4 H5]. Qed.

Lemma begin_tame l : tame (begin_rule l).
Proof.
  split; cbn [begin_rule effects]; [each|each; not_later|]. intros l' e _ Ha _. unfold active in *.
  rewrite exec_rule_unwritten; [done|by repeat constructor].
Qed.

Lemma directed_in l b : In l (legs parts) -> vars_in (parts_vars v parts) (directed_effect l b).
Proof. intros Hl. apply (leg_vars_in l); [done|]. apply (directed_effect_vars l). Qed.

Lemma written_in_vars xs k b : vars_in (parts_vars v parts) xs -> In k (locations parts) -> written k xs b = b.
Proof. intros Hx Hk. apply written_other. apply (vars_in_unwritten _ _ _ Hx). by apply (w_apart _ _ W). Qed.

Lemma written_app k xs1 xs2 b : written k (xs1 ++ xs2) b = written k xs2 (written k xs1 b).
Proof. revert b. induction xs1 as [|[j x|s|t] xs1 IH]; intros b; cbn; [done|apply IH..]. Qed.

(** What [move_plain] writes to the bits of locations. *)
Lemma move_writes l k b :
  In l (legs parts) -> In k (locations parts) ->
  written k (effects (move_plain v l)) b =
    if decide (k = perma_to l) then true else if decide (k = perma_from l) then false else b.
Proof.
  intros Hl Hk. unfold move_plain. cbn [effects]. rewrite !written_app. cbn [written set0 set1].
  rewrite (written_in_vars (directed_effect l false)) by (done || by apply directed_in). done.
Qed.

Lemma move_tame l : In l (legs parts) -> leg_eager l = true -> tame (move_plain v l).
Proof.
  intros Hl El. split.
  - unfold move_plain. cbn [effects]. unfold vars_in. rewrite !Forall_app. split.
    { each. apply in_app_iff. left. apply place_location. by apply leg_place. }
    split; [apply (vars_in_mono _ _ _ (directed_in l false Hl)); intros k Hk; apply in_app_iff; by right|].
    each. apply in_app_iff. left. apply place_location. by apply (w_covered _ _ W).
  - unfold move_plain, sets_state. cbn [effects]. rewrite !Forall_app. split; [each|]. split; [apply directed_sets|each].
  - intros l' e Hl' Ha _. unfold active, exec_rule in *. destruct (enabled _ e); [|done].
    rewrite evar_effects, move_writes by (done || by apply here_location). case_decide; [done|]. case_decide as E; [|done].
    exfalso. unfold here_plain in E. destruct (leg_eager l') eqn:El'.
    + apply (w_locations _ _ W (perma_from l)); [by apply leg_place|]. rewrite <- E. apply (in_routings l'); auto.
    + rewrite (w_eager _ _ W l' l) in El' by auto. congruence.
Qed.

(** What [done_plain] writes to them. *)
Lemma done_writes l k b :
  In l (legs parts) -> In k (places parts) ->
  written k (effects (done_plain l)) b =
    if leg_eager l then b
    else if decide (k = perma_to l) then true else if decide (k = perma_from l) then false else b.
Proof.
  intros Hl Hk. unfold done_plain. cbn [effects]. rewrite !written_app. cbn [written set0 set1].
  assert (Hlock : vars_in (parts_vars v parts) (locked_effect l false)).
  { apply (leg_vars_in l); [done|]. apply (locked_effect_vars l). }
  assert (Hr : k <> routing_from l /\ k <> routing_to l).
  { split; intros ->; eapply (w_locations _ _ W); try done; eapply (in_routings l); auto. }
  destruct Hr as [Hr1 Hr2]. rewrite (written_in_vars (locked_effect l false)) by (done || by apply place_location).
  destruct (leg_eager l); cbn [negb opt written set0 set1].
  - by rewrite (decide_False (P := k = routing_to l)), (decide_False (P := k = routing_from l)).
  - rewrite (written_in_vars (directed_effect l false)) by (by apply place_location || by apply directed_in).
    rewrite (decide_False (P := k = routing_to l)), (decide_False (P := k = routing_from l)) by done. done.
Qed.

Lemma done_tame l : In l (legs parts) -> tame (done_plain l).
Proof.
  intros Hl.
  assert (Hin : forall j, j = perma_from l \/ j = perma_to l \/ j = routing_from l \/ j = routing_to l ->
                  In j (locations parts ++ parts_vars v parts)).
  { intros j Hj. apply in_app_iff. left. destruct Hj as [->|[->|Hj]].
    - by apply place_location, leg_place.
    - by apply place_location, (w_covered _ _ W).
    - apply routing_location. by apply (in_routings l). }
  assert (Hvars : forall xs, vars_in (leg_vars l) xs -> vars_in (locations parts ++ parts_vars v parts) xs).
  { intros xs Hx. apply (vars_in_mono _ _ _ (leg_vars_in l xs Hl Hx)). intros k Hk. apply in_app_iff. by right. }
  split.
  - unfold done_plain. cbn [effects]. unfold vars_in. rewrite !Forall_app.
    split; [apply Hvars, (locked_effect_vars l)|].
    split; [destruct (leg_eager l); cbn [negb opt]; each; auto|]. split; [each; auto|].
    split; [destruct (leg_eager l); cbn [negb opt]; each; auto|]. split; [each; auto|].
    split; [destruct (leg_eager l); cbn [negb opt]; [each|apply Hvars, (directed_effect_vars l)]|each].
  - unfold done_plain. cbn [effects]. unfold sets_state. rewrite !Forall_app.
    split; [apply locked_sets|].
    split; [destruct (leg_eager l); each|]. split; [each|].
    split; [destruct (leg_eager l); each|]. split; [each|].
    split; [destruct (leg_eager l); [each|apply directed_sets]|each; not_later].
  - intros l' e Hl' Ha Hb. unfold active, exec_rule in *. destruct (enabled _ e); [|done]. exfalso. revert Hb.
    rewrite estate_effects. unfold done_plain. cbn [effects].
    replace (state_after _ _) with StTransitionDone; [not_busy|].
    enough (H : forall xs s, state_after (xs ++ [EState StTransitionDone]) s = StTransitionDone).
    { by rewrite !app_assoc, H. }
    clear. intros xs. induction xs as [|[j x|s'|t] xs IH]; intros s; cbn; auto.
Qed.

(** A rule of a part leaves the train where it is, or is one of those that move
    it along a transition. *)
Definition still (r : Rule) : Prop := forall k, In k (places parts) -> unwritten k (effects r).

Definition moves_by (l : Leg) (r : Rule) : Prop := leg_eager l = true /\ r = move_plain v l \/ r = done_plain l.

Definition part_rule (r : Rule) : Prop := tame r /\ (still r \/ exists l, In l (legs parts) /\ moves_by l r).

Lemma calm_part_rule r : calm r -> part_rule r.
Proof. intros H. split; [by apply calm_tame|]. left. exact (cm_places _ H). Qed.

Lemma decide_rules_by l :
  In l (legs parts) -> Forall (fun r => tame r /\ (still r \/ r = done_plain l)) (decide_plain v l).
Proof.
  intros Hl. unfold decide_plain. rewrite !Forall_app.
  assert (Hcalm : forall r, calm r -> tame r /\ (still r \/ r = done_plain l)).
  { intros r Hr. split; [by apply calm_tame|]. left. exact (cm_places _ Hr). }
  assert (Hc : forall rs, Forall calm rs -> Forall (fun r => tame r /\ (still r \/ r = done_plain l)) rs).
  { intros rs H. apply (Forall_impl _ _ _ H). apply Hcalm. }
  split.
  { destruct (test_calm l Hl) as (rest & -> & C1 & C2 & C3). constructor; [by apply Hcalm|].
    constructor; [by apply Hcalm|]. constructor; [|by apply Hc]. split; [apply begin_tame|].
    left. intros k _. by repeat constructor. }
  split; [constructor; [by apply Hcalm, go_calm|done]|]. split; [by apply Hc, wait_calm|].
  constructor; [|constructor; [by apply Hcalm, failed_calm|done]].
  split; [by apply done_tame|]. by right.
Qed.

Lemma leg_rules_by l : In l (legs parts) -> Forall (fun r => tame r /\ (still r \/ moves_by l r)) (leg_plain v l).
Proof.
  intros Hl. unfold leg_plain. rewrite !Forall_app. split; [|split].
  - apply (Forall_impl _ _ _ (head_calm l Hl)). intros r Hr. split; [by apply calm_tame|]. left. exact (cm_places _ Hr).
  - destruct (leg_eager l) eqn:El; cbn [opt]; [|done]. constructor; [|done].
    split; [by apply move_tame|]. right. by left.
  - apply (Forall_impl _ _ _ (decide_rules_by l Hl)). intros r [H1 [H2|H2]]; (split; [done|]); [by left|]. right. by right.
Qed.

Lemma part_part_rules c p : In p parts -> Forall part_rule (part_plain v c p).
Proof.
  intros Hp. assert (Hc : forall rs, Forall calm rs -> Forall part_rule rs).
  { intros rs H. apply (Forall_impl _ _ _ H). apply calm_part_rule. }
  destruct p as [l|r m desired|loc b|loc b]; cbn [part_plain]; [|by apply Hc, turnout_calm|by apply Hc, reverse_calm|done].
  apply in_legs in Hp. apply (Forall_impl _ _ _ (leg_rules_by l Hp)). intros r [H1 [H2|H2]]; (split; [done|]); [by left|].
  right. by exists l.
Qed.

Lemma parts_part_rules c ps : (forall p, In p ps -> In p parts) -> Forall part_rule (parts_plain v c ps).
Proof.
  revert c. induction ps as [|p ps IH]; intros c H; [done|]. cbn [parts_plain]. apply Forall_app. split.
  - apply part_part_rules, H. by left.
  - apply IH. intros p' Hp'. apply H. by right.
Qed.

(** ** Directions *)

(** Effects that set, of all variables, only some. *)
Definition raises_in (V : list nat) (xs : list Effect) : Prop :=
  Forall (fun x => match x with EReg j true => In j V | _ => True end) xs.

Lemma raises_false V j xs b : raises_in V xs -> ~ In j V -> written j xs b = true -> b = true.
Proof.
  intros H Hj. revert b. induction H as [|[i x|s|t] xs Hx _ IH]; intros b E; [done| |by apply IH..]. cbn in E.
  apply IH in E. case_decide as Ei; [|done]. subst i. by destruct x.
Qed.

Lemma raises_app V xs1 xs2 : raises_in V xs1 -> raises_in V xs2 -> raises_in V (xs1 ++ xs2).
Proof. intros H1 H2. by apply Forall_app. Qed.

Lemma lowered_in (o : option nat) V : raises_in V (with_opt o (fun k => [EReg k false])).
Proof. destruct o; by repeat constructor. Qed.

Lemma raises_mono V V' xs : raises_in V xs -> (forall k, In k V -> In k V') -> raises_in V' xs.
Proof. intros H HV. apply (Forall_impl _ _ _ H). intros [j []|s|t]; auto. Qed.

(** What the parts set, other than directions. *)
Definition others : list nat := locations parts ++ (parts ≫= raised v).

Lemma directions_vars k : In k (directions parts) -> In k (parts_vars v parts).
Proof.
  unfold directions. rewrite <- list_elem_of_In, list_elem_of_omap. intros (l & Hl%list_elem_of_In & E).
  apply (in_parts_vars (PLeg l)); [by apply in_legs|]. by apply in_direction.
Qed.

Lemma directions_others k : In k (directions parts) -> ~ In k others.
Proof.
  intros Hk. unfold others. rewrite in_app_iff. intros [Hl|Hr].
  - apply (w_apart _ _ W) in Hl as [Hl _]. by apply Hl, directions_vars.
  - by apply (w_raised _ _ W) in Hr.
Qed.

Lemma in_others p k : In p parts -> In k (raised v p) -> In k others.
Proof. intros Hp Hk. apply in_app_iff. right. rewrite <- list_elem_of_In, list_elem_of_bind. exists p. by rewrite !list_elem_of_In. Qed.

Lemma location_others k : In k (locations parts) -> In k others.
Proof. intros H. apply in_app_iff. by left. Qed.

(** A rule that, while the directions [D] are still to be looked at, does not set
    them, and sets none after a route was asked for. *)
Record fits (D : list nat) (r : Rule) : Prop := {
  ft_tame : tame r;
  ft_moves : still r \/ exists l, In l (legs parts) /\
    (leg_eager l = true /\ r = move_plain v l /\ (forall j, leg_direction l = Some j -> In j D) \/ r = done_plain l);
  ft_keeps j : In j D -> exists V, raises_in V (effects r) /\ ~ In j V;
  ft_asked : (exists s, In (GState s) (guards r) /\ s <> StRequestTransition) \/ raises_in others (effects r)
}.

Lemma quiet_fits D r :
  (forall j, In j D -> In j (directions parts)) -> raises_in others (effects r) -> tame r ->
  still r \/ (exists l, In l (legs parts) /\
    (leg_eager l = true /\ r = move_plain v l /\ (forall j, leg_direction l = Some j -> In j D) \/ r = done_plain l)) ->
  fits D r.
Proof.
  intros HD Hr Ht Hm. split; [done..| |by right]. intros j Hj. exists others. split; [done|]. by apply directions_others, HD.
Qed.

Lemma head_raises l : In l (legs parts) -> Forall (fun r => raises_in others (effects r)) (head_plain l).
Proof.
  intros Hl. assert (Hk : In (routing_from l) others) by (apply location_others, routing_location, (in_routings l); auto).
  unfold head_plain, raises_in. destruct (leg_eager l); repeat constructor; done.
Qed.

Lemma move_raises l : In l (legs parts) -> raises_in others (effects (move_plain v l)).
Proof.
  intros Hl. unfold move_plain. cbn [effects]. apply raises_app; [by repeat constructor|].
  apply raises_app; [apply lowered_in|]. repeat constructor. by apply location_others, place_location, (w_covered _ _ W).
Qed.

Lemma done_raises l : In l (legs parts) -> raises_in others (effects (done_plain l)).
Proof.
  intros Hl. unfold done_plain. cbn [effects].
  assert (H1 : In (perma_to l) others) by (by apply location_others, place_location, (w_covered _ _ W)).
  assert (H2 : In (routing_to l) others) by (apply location_others, routing_location, (in_routings l); auto).
  apply raises_app; [apply lowered_in|]. destruct (leg_eager l); cbn [negb opt]; repeat apply raises_app;
    try apply lowered_in; by repeat constructor.
Qed.

Lemma request_other l c k : In l (legs parts) -> leg_client l = Some c -> k = request c \/ k = taken c -> In k others.
Proof.
  intros Hl%in_legs E Hk. apply (in_others (PLeg l)); [done|]. cbn [raised]. rewrite E. cbn [with_opt]. apply in_app_iff.
  right. destruct Hk as [->| ->]; simpl; auto.
Qed.

Lemma test_raises l : In l (legs parts) -> Forall (fun r => raises_in others (effects r)) (test_plain v l).
Proof.
  intros Hl. unfold test_plain. rewrite !Forall_app. split; [by repeat constructor|]. split; [|by repeat constructor].
  destruct (leg_client l) as [c|] eqn:E; cbn [with_opt]; [|done].
  assert (Hc : In (request c) others) by (apply (request_other l c); auto). by repeat constructor.
Qed.

(** What it sets, when the train may go, is its own direction and others. *)
Lemma go_raises l :
  In l (legs parts) -> raises_in (with_opt (leg_direction l) (fun k => [k]) ++ others) (effects (go_plain l)).
Proof.
  intros Hl. set (V := with_opt _ _ ++ others). unfold go_plain. cbn [effects].
  assert (HV : forall k, In k others -> In k V) by (intros k Hk; apply in_app_iff; by right).
  repeat apply raises_app.
  - unfold locked_effect. destruct (leg_lock l) as [k|] eqn:E; cbn [with_opt]; repeat constructor. apply HV.
    apply (in_others (PLeg l)); [by apply in_legs|]. cbn [raised]. rewrite E. by left.
  - destruct (leg_client l) as [c|] eqn:E; cbn [with_opt]; [|constructor].
    assert (Hc : In (taken c) V) by (apply HV, (request_other l c); auto). by repeat constructor.
  - unfold directed_effect, V. by destruct (leg_direction l) as [k|]; repeat constructor.
  - by repeat constructor.
Qed.

Lemma head_fits D l : (forall j, In j D -> In j (directions parts)) -> In l (legs parts) -> Forall (fits D) (head_plain l).
Proof.
  intros HD Hl. apply List.Forall_forall. intros r Hr. pose proof (head_raises l Hl) as H1. pose proof (head_calm l Hl) as H2.
  rewrite List.Forall_forall in H1, H2. apply quiet_fits; [done|by apply H1|by apply calm_tame, H2|left; exact (cm_places _ (H2 r Hr))].
Qed.

Lemma decide_fits D l :
  (forall j, In j D -> In j (directions parts) /\ leg_direction l <> Some j) -> In l (legs parts) ->
  Forall (fits D) (decide_plain v l).
Proof.
  intros HD Hl. apply List.Forall_forall. intros r Hr.
  pose proof (decide_rules_by l Hl) as Hb. rewrite List.Forall_forall in Hb. destruct (Hb r Hr) as [Ht Hm].
  assert (Hm' : still r \/ exists l, In l (legs parts) /\
    (leg_eager l = true /\ r = move_plain v l /\ (forall j, leg_direction l = Some j -> In j D) \/ r = done_plain l)).
  { destruct Hm as [Hm|Hm]; [by left|right]. exists l. split; [done|by right]. }
  assert (Hq : raises_in others (effects r) \/ r = go_plain l).
  { unfold decide_plain in Hr. rewrite !in_app_iff in Hr. destruct Hr as [Hr|[[<-|[]]|[Hr|[<-|[<-|[]]]]]]; [|by right| |left..].
    - left. pose proof (test_raises l Hl) as H. rewrite List.Forall_forall in H. by apply H.
    - left. unfold wait_plain in Hr. destruct Hr as [<-|Hr]; [by repeat constructor|].
      destruct (leg_direction l) as [k|]; [|done]. destruct Hr as [<-|[]]. by repeat constructor.
    - by apply done_raises.
    - unfold failed_plain. cbn [effects]. apply raises_app; [apply lowered_in|by repeat constructor]. }
  destruct Hq as [Hq| ->]; [apply quiet_fits; [|done..]; intros j Hj; by apply HD|].
  split; [done..| |left; exists StTestCondition2; split; [by left|done]].
  intros j Hj. eexists. split; [by apply go_raises|]. destruct (HD j Hj) as [H1 H2]. rewrite in_app_iff. intros [H|H].
  - destruct (leg_direction l) as [k|]; [|done]. destruct H as [->|[]]. by apply H2.
  - by apply directions_others in H.
Qed.

(** The other parts. *)
Lemma part_fits D c p :
  (forall j, In j D -> In j (directions parts)) -> In p parts -> (forall l, p <> PLeg l) -> Forall (fits D) (part_plain v c p).
Proof.
  intros HD Hp Hn.
  assert (Hc : forall rs, Forall calm rs -> Forall (fun r => raises_in others (effects r)) rs -> Forall (fits D) rs).
  { intros rs. rewrite !List.Forall_forall. intros H1 H2 r Hr.
    apply quiet_fits; [done|by apply H2|by apply calm_tame, H1|left; exact (cm_places _ (H1 r Hr))]. }
  destruct p as [l|r m desired|loc b|loc b]; cbn [part_plain]; [by destruct (Hn l)| | |constructor].
  - apply Hc; [by apply turnout_calm|]. assert (In (command m) others) by (apply (in_others _ _ Hp); by left).
    unfold turnout_plain, raises_in. destruct desired; by repeat constructor.
  - apply Hc; [by apply reverse_calm|]. assert (H : forall k, In k (raised v (PReverse loc b)) -> In k others) by (intros k; by apply in_others).
    assert (H1 : In (need_reverse_ v) others) by (apply H; simpl; auto).
    assert (H2 : In (is_reversed_ v) others) by (apply H; simpl; auto).
    assert (H3 : In (last_set_reversed_ v) others) by (apply H; simpl; auto).
    unfold reverse_plain, raises_in. by repeat constructor.
Qed.

(** ** Where the train is *)

Definition at_place (k : nat) (e : Env) : Prop :=
  In k (places parts) /\ forall j, In j (places parts) -> evar e j = bool_decide (j = k).

(** A transition from block to block. *)
Definition hop (k k' : nat) : Prop := exists l, In l (legs parts) /\ perma_from l = k /\ perma_to l = k'.

(** What must hold when a round begins for the train to leave by a transition:
    the automata is in the state that follows a granted route or, if the
    transition is eager, the train is moving, was seen by the detector at the
    end of the block and the route out of the block is set; and where the block
    has several ways out, the bit of this one was chosen. *)
Definition leaves (l : Leg) (e : Env) : Prop :=
  (forall k, leg_direction l = Some k -> evar e k = true) /\
  if leg_eager l then
    evar e (is_moving_ v) = true /\ evar e (src_detector (leg_source l)) = true /\
    evar e (route_out (leg_source l)) = true
  else estate e = StRequestTransition.

(** The train, which was at [k] in [e0], is at [k'] in [e]. *)
Definition journey (e0 : Env) (k k' : nat) : Prop :=
  k' = k \/ exists l, In l (legs parts) /\ perma_from l = k /\ leaves l e0 /\ rtc hop (perma_to l) k'.

(** On the way, with the directions [D] still to be looked at. *)
Record travelling (D : list nat) (e0 : Env) (k : nat) (e : Env) : Prop := {
  tv_place : exists k', at_place k' e /\ journey e0 k k';
  tv_vars j : In j (leaving_vars v parts) -> evar e j = evar e0 j;
  tv_state : estate e = StRequestTransition ->
    estate e0 = StRequestTransition /\ forall j, In j (directions parts) -> evar e j = true -> evar e0 j = true;
  tv_directions j : In j D -> evar e j = true -> evar e0 j = true
}.

Lemma travelling_start D e k : at_place k e -> travelling D e k e.
Proof. intros H. split; [|done..]. exists k. split; [done|by left]. Qed.

Lemma travelling_less D D' e0 k e : travelling D e0 k e -> (forall j, In j D' -> In j D) -> travelling D' e0 k e.
Proof. intros [T1 T2 T3 T4] H. split; auto. Qed.

Lemma leaving_in l k :
  In l (legs parts) -> k = src_detector (leg_source l) \/ k = route_out (leg_source l) -> In k (leaving_vars v parts).
Proof.
  intros Hl Hk. right. apply list_elem_of_In, list_elem_of_bind. exists l.
  split; [apply list_elem_of_In; destruct Hk as [->| ->]; simpl; auto|by apply list_elem_of_In].
Qed.

Lemma enabled_In gs xs e g : enabled (mkRule gs xs) e = true -> In g gs -> holds e g = true.
Proof. unfold enabled. cbn [guards]. rewrite forallb_forall. auto. Qed.

(** One of the rules that move the train. *)
Lemma journey_hop e0 k k1 l :
  In l (legs parts) -> journey e0 k k1 -> perma_from l = k1 -> leaves l e0 -> journey e0 k (perma_to l).
Proof.
  intros Hl [->|(l0 & Hl0 & E0 & L0 & Hr)] E L; right.
  - exists l. repeat split; auto; try apply L. apply rtc_refl.
  - exists l0. do 3 (split; [done|]). eapply rtc_r; [exact Hr|]. by exists l.
Qed.

Lemma in_directions l k : In l (legs parts) -> leg_direction l = Some k -> In k (directions parts).
Proof. intros Hl E. unfold directions. rewrite <- list_elem_of_In, list_elem_of_omap. exists l. by rewrite list_elem_of_In. Qed.

Lemma at_place_from e k l : In l (legs parts) -> at_place k e -> evar e (perma_from l) = true -> perma_from l = k.
Proof. intros Hl [_ H] E. rewrite (H _ (leg_place l Hl)) in E. by apply bool_decide_eq_true in E. Qed.

Lemma at_place_move e e' k l :
  In l (legs parts) -> at_place k e -> perma_from l = k ->
  (forall j, In j (places parts) ->
     evar e' j = if decide (j = perma_to l) then true else if decide (j = perma_from l) then false else evar e j) ->
  at_place (perma_to l) e'.
Proof.
  intros Hl [Hk H] E He. split; [by apply (w_covered _ _ W)|]. intros j Hj. rewrite (He j Hj).
  case_decide as E1; [by rewrite bool_decide_true|]. rewrite (bool_decide_false (j = perma_to l)) by done.
  case_decide as E2; [done|]. rewrite (H j Hj). apply bool_decide_false. congruence.
Qed.

(** A transition that ends is one that may be left by. *)
Lemma holds_directed l e k : (forall g, In g (directed_guard l true) -> holds e g = true) -> leg_direction l = Some k -> evar e k = true.
Proof. unfold directed_guard. intros H E. rewrite E in H. apply (holds_test1 e k), H. by left. Qed.

Lemma leaves_move D e0 k e l :
  travelling D e0 k e -> In l (legs parts) -> leg_eager l = true -> (forall j, leg_direction l = Some j -> In j D) ->
  enabled (move_plain v l) e = true -> leaves l e0.
Proof.
  intros T Hl El HD E. unfold leaves. rewrite El.
  assert (Hg : forall g, In g (guards (move_plain v l)) -> holds e g = true) by (intros g; by apply enabled_In with (1 := E)).
  split.
  - intros j Ej. apply (tv_directions _ _ _ _ T); [by apply HD|]. apply (holds_directed l); [|done].
    intros g Hg'. apply Hg. cbn [move_plain guards]. rewrite !in_app_iff. auto.
  - rewrite <- !(tv_vars _ _ _ _ T) by (first [by left | by apply (leaving_in l); auto]).
    split; [|split]; apply holds_test1, Hg; simpl; auto.
Qed.

Lemma leaves_done D e0 k e l :
  travelling D e0 k e -> In l (legs parts) -> leg_eager l = false -> enabled (done_plain l) e = true -> leaves l e0.
Proof.
  intros T Hl El E. unfold leaves. rewrite El.
  assert (Hg : forall g, In g (guards (done_plain l)) -> holds e g = true) by (intros g; by apply enabled_In with (1 := E)).
  assert (Es : estate e = StRequestTransition).
  { apply Z.eqb_eq. change (holds e (GState StRequestTransition) = true). apply Hg. by left. }
  destruct (tv_state _ _ _ _ T Es) as [H1 H2]. split; [|done].
  intros j Ej. apply H2; [by apply (in_directions l)|]. apply (holds_directed l); [|done].
  intros g Hg'. apply Hg. cbn [done_plain guards]. rewrite !in_app_iff. auto.
Qed.

Lemma place_rule D e0 k e r :
  fits D r -> travelling D e0 k e -> exists k', at_place k' (exec_rule r e) /\ journey e0 k k'.
Proof.
  intros Hf T. destruct (tv_place _ _ _ _ T) as (k1 & Hk1 & J).
  destruct (ft_moves _ _ Hf) as [Hq|(l & Hl & Hr)].
  { exists k1. split; [|done]. destruct Hk1 as [H1 H2]. split; [done|]. intros j Hj.
    rewrite exec_rule_unwritten by auto. auto. }
  unfold exec_rule. destruct (enabled r e) eqn:E; [|by exists k1].
  destruct Hr as [(El & -> & HD)| ->].
  - pose proof (leaves_move _ _ _ _ l T Hl El HD E) as L.
    assert (Ep : evar e (perma_from l) = true) by (apply holds_test1, (enabled_In _ _ _ _ E); simpl; auto).
    pose proof (at_place_from _ _ _ Hl Hk1 Ep) as E1. exists (perma_to l). split; [|by apply (journey_hop e0 k k1 l)].
    apply (at_place_move e _ k1 l); [done..|]. intros j Hj.
    rewrite evar_effects. apply move_writes; [done|by apply place_location].
  - destruct (leg_eager l) eqn:El.
    { exists k1. split; [|done]. destruct Hk1 as [H1 H2]. split; [done|]. intros j Hj.
      rewrite evar_effects, done_writes by done. rewrite El. auto. }
    pose proof (leaves_done _ _ _ _ l T Hl El E) as L.
    assert (Ep : evar e (perma_from l) = true).
    { apply holds_test1, (enabled_In _ _ _ _ E). unfold here_plain. rewrite El. simpl. auto. }
    pose proof (at_place_from _ _ _ Hl Hk1 Ep) as E1. exists (perma_to l). split; [|by apply (journey_hop e0 k k1 l)].
    apply (at_place_move e _ k1 l); [done..|]. intros j Hj. rewrite evar_effects, done_writes by done. by rewrite El.
Qed.

Lemma raises_rule V r e j :
  raises_in V (effects r) -> ~ In j V -> evar (exec_rule r e) j = true -> evar e j = true.
Proof.
  intros H Hj. unfold exec_rule. destruct (enabled r e); [|done]. rewrite evar_effects. by apply (raises_false V).
Qed.

Lemma travelling_rule D e0 k e r : fits D r -> travelling D e0 k e -> travelling D e0 k (exec_rule r e).
Proof.
  intros Hf T. pose proof (ft_tame _ _ Hf) as Ht. split; [by apply (place_rule D)| | |].
  - intros j Hj. rewrite <- (tv_vars _ _ _ _ T j Hj). apply exec_rule_unwritten.
    apply (vars_in_unwritten _ _ _ (tm_writes _ Ht)). rewrite in_app_iff. destruct (w_leaving _ _ W j Hj) as [H1 H2].
    by intros [|].
  - intros E. assert (Es : estate e = StRequestTransition).
    { destruct (decide (estate e = StRequestTransition)) as [|Hn]; [done|]. exfalso.
      revert E. apply (exec_rule_state (fun s => s <> StRequestTransition)); [done|].
      apply (Forall_impl _ _ _ (tm_later _ Ht)). intros [j x|s|t]; [done| |done]. intros Hs ->. apply Hs. by left. }
    destruct (tv_state _ _ _ _ T Es) as [H1 H2]. split; [done|]. intros j Hj Ej. apply H2; [done|].
    destruct (ft_asked _ _ Hf) as [(s & Hs & Hn)|Hr].
    + rewrite exec_rule_off in Ej; [done|]. destruct (enabled r e) eqn:Er; [|done]. exfalso. apply Hn.
      unfold enabled in Er. rewrite forallb_forall in Er. specialize (Er _ Hs). cbn in Er. apply Z.eqb_eq in Er. congruence.
    + exact (raises_rule others r e j Hr (directions_others j Hj) Ej).
  - intros j Hj Ej. apply (tv_directions _ _ _ _ T j Hj). destruct (ft_keeps _ _ Hf j Hj) as (V & HV & Hn).
    by apply (raises_rule V r).
Qed.

Lemma travelling_rules D e0 k e rs : Forall (fits D) rs -> travelling D e0 k e -> travelling D e0 k (exec_rules rs e).
Proof.
  intros H. revert e. induction H as [|r rs Hr _ IH]; intros e T; [done|].
  rewrite exec_rules_cons. by apply IH, travelling_rule.
Qed.

(** The rules of a transition: those that move the train, then those that choose. *)
Lemma travelling_leg D e0 k e l :
  In l (legs parts) -> (forall j, In j D -> In j (directions parts) /\ leg_direction l <> Some j) ->
  travelling (with_opt (leg_direction l) (fun k => [k]) ++ D) e0 k e -> travelling D e0 k (exec_rules (leg_plain v l) e).
Proof.
  intros Hl HD T. unfold leg_plain. rewrite !exec_rules_app. apply travelling_rules; [by apply decide_fits|].
  set (D' := with_opt _ _ ++ D) in *. apply (travelling_less D'); [|intros j Hj; apply in_app_iff; by right].
  assert (HD' : forall j, In j D' -> In j (directions parts)).
  { intros j. unfold D'. rewrite in_app_iff. intros [Hj|Hj]; [|by apply HD].
    apply (in_directions l); [done|]. destruct (leg_direction l); [|done]. by destruct Hj as [->|[]]. }
  apply travelling_rules; [|apply travelling_rules; [by apply head_fits|done]].
  destruct (leg_eager l) eqn:El; cbn [opt]; [|constructor]. constructor; [|constructor].
  apply quiet_fits; [done|by apply move_raises|by apply move_tame|]. right. exists l. split; [done|]. left.
  split; [done|]. split; [done|]. intros j Ej. unfold D'. rewrite Ej. by left.
Qed.

Lemma travelling_parts e0 k ps c e :
  (forall p, In p ps -> In p parts) -> NoDup (directions ps) -> travelling (directions ps) e0 k e ->
  travelling [] e0 k (exec_rules (parts_plain v c ps) e).
Proof.
  revert c e. induction ps as [|p ps IH]; intros c e Hps Hn T; [done|]. cbn [parts_plain]. rewrite exec_rules_app.
  assert (Hps' : forall p, In p ps -> In p parts) by (intros p' Hp'; apply Hps; by right).
  assert (Hsub : forall j, In j (directions ps) -> In j (directions parts)).
  { intros j Hj. unfold directions in *. rewrite <- list_elem_of_In, list_elem_of_omap in *. destruct Hj as (l & Hl & E).
    exists l. split; [|done]. unfold legs in *. rewrite list_elem_of_omap in *. destruct Hl as (p' & Hp' & E').
    exists p'. split; [|done]. rewrite list_elem_of_In in *. auto. }
  assert (Hc : (exists l, p = PLeg l) \/ ~ exists l, p = PLeg l).
  { destruct p as [l| | |]; [left; by exists l|right; by intros [? ?]..]. }
  destruct Hc as [[l ->]|Hp].
  - unfold directions in T, Hn. cbn [legs omap list_omap] in T, Hn. fold (legs ps) in T, Hn.
    apply IH; [done| |].
    + destruct (leg_direction l); [by apply NoDup_cons in Hn as [_ Hn]|done].
    + cbn [part_plain]. apply travelling_leg; [by apply in_legs, Hps; left| |by destruct (leg_direction l)].
      intros j Hj. split; [by apply Hsub|]. intros E. rewrite E in Hn. apply NoDup_cons in Hn as [Hn _].
      by apply Hn, list_elem_of_In.
  - assert (Hl : legs (p :: ps) = legs ps) by (destruct p as [l| | |]; [by destruct Hp; exists l|done..]).
    unfold directions in T, Hn. rewrite Hl in T, Hn. apply IH; [done..|].
    apply travelling_rules; [|done]. apply part_fits; [done|by apply Hps; left|]. intros l ->. apply Hp. by exists l.
Qed.

(** ** A block of the schedule, and a route that leads on *)

Lemma still_place k e r : still r -> at_place k e -> at_place k (exec_rule r e).
Proof. intros Hr [Hk H]. split; [done|]. intros j Hj. rewrite exec_rule_unwritten by (by apply Hr). auto. Qed.

Lemma leg_stays l k e r :
  In l (legs parts) -> still r \/ moves_by l r -> perma_from l <> k -> at_place k e -> at_place k (exec_rule r e).
Proof.
  intros Hl [Hr|Hr] Hne Hk; [by apply still_place|]. unfold exec_rule. destruct (enabled r e) eqn:E; [|done].
  destruct Hr as [[El ->]| ->].
  - exfalso. apply Hne. apply (at_place_from e); [done..|]. apply holds_test1, (enabled_In _ _ _ _ E). simpl. auto.
  - destruct (leg_eager l) eqn:El.
    { destruct Hk as [H1 H2]. split; [done|]. intros j Hj. rewrite evar_effects, done_writes by done. rewrite El. auto. }
    exfalso. apply Hne. apply (at_place_from e); [done..|]. apply holds_test1, (enabled_In _ _ _ _ E).
    unfold here_plain. rewrite El. simpl. auto.
Qed.

(** A part of another block leaves the train where it is. *)
Lemma part_stays c p k e :
  In p parts -> here_at p e = false -> at_place k e -> at_place k (exec_rules (part_plain v c p) e).
Proof.
  intros Hp Hh Hk.
  assert (Hrules : forall (P : Rule -> Prop) rs e, (forall r e, P r -> at_place k e -> at_place k (exec_rule r e)) ->
            Forall P rs -> at_place k e -> at_place k (exec_rules rs e)).
  { clear. intros P rs e HP H. revert e. induction H as [|r rs Hr _ IH]; intros e Hk; [done|].
    rewrite exec_rules_cons. by apply IH, HP. }
  destruct p as [l|r m desired|loc b|loc b]; cbn [part_plain here_at] in *.
  - apply in_legs in Hp.
    apply (Hrules (fun r => tame r /\ (still r \/ moves_by l r))); [|by apply leg_rules_by|done].
    intros r e' [_ Hr] He'. apply (leg_stays l); try done. intros <-. destruct Hk as [H1 H2].
    rewrite (H2 _ H1) in Hh. by rewrite bool_decide_true in Hh.
  - apply (Hrules calm); [|by apply turnout_calm|done]. intros r' e' Hr'. apply still_place. exact (cm_places _ Hr').
  - apply (Hrules calm); [|by apply reverse_calm|done]. intros r' e' Hr'. apply still_place. exact (cm_places _ Hr').
  - done.
Qed.

Lemma train_here ps c k e :
  (forall p, In p ps -> In p parts) -> at_place k e -> (exists p, In p ps /\ place_of p = Some k) ->
  some_part v here_at c ps e = true.
Proof.
  revert c e. induction ps as [|p ps IH]; intros c e Hps Hk (p0 & Hp0 & Epl); [done|]. cbn [some_part].
  destruct (here_at p e) eqn:Eh; [done|]. cbn.
  apply IH; [intros p' Hp'; apply Hps; by right|apply part_stays; [apply Hps; by left|done..]|].
  destruct Hp0 as [->|Hp0]; [|by exists p0]. exfalso. destruct Hk as [H1 H2].
  assert (Eh' : here_at p0 e = evar e k) by (destruct p0; cbn in *; by simplify_eq).
  rewrite (H2 _ H1), bool_decide_true in Eh' by done. congruence.
Qed.

(** While a route is asked for, nothing else is decided. *)
Lemma asking_rule r e : tame r -> asking (estate (exec_rule r e)) -> asking (estate e).
Proof.
  intros Ht. destruct (decide (asking (estate e))) as [|Hn]; [done|]. intros Ha. exfalso. revert Ha.
  apply (exec_rule_state (fun s => ~ asking s)); [done|]. apply (Forall_impl _ _ _ (tm_later _ Ht)).
  intros [j x|s|t]; [done| |done]. intros Hs Ha. apply Hs. by right.
Qed.

Lemma asking_rules rs e : Forall tame rs -> asking (estate (exec_rules rs e)) -> asking (estate e).
Proof.
  intros H. revert e. induction H as [|r rs Hr _ IH]; intros e Ha; [done|].
  rewrite exec_rules_cons in Ha. by apply (asking_rule r), IH.
Qed.

Lemma asking_busy s : asking s -> busy s.
Proof. intros [->| ->]; unfold busy, busy_states; simpl; auto 12. Qed.

Lemma active_rules rs l e :
  Forall tame rs -> In l (legs parts) -> active l e -> asking (estate (exec_rules rs e)) -> active l (exec_rules rs e).
Proof.
  intros H Hl. revert e. induction H as [|r rs Hr Hrs IH]; intros e Ha Has; [done|].
  rewrite exec_rules_cons in *. apply IH; [|done]. apply (tm_active _ Hr); [done..|].
  apply asking_busy. by apply (asking_rules rs).
Qed.

Lemma part_rules_tame rs : Forall part_rule rs -> Forall tame rs.
Proof. intros H. apply (Forall_impl _ _ _ H). by intros r [Hr _]. Qed.

Lemma active_ahead l e : In l (legs parts) -> active l e -> asking (estate e) -> ahead_at v (PLeg l) e = true.
Proof.
  intros Hl Ha Has. cbn [ahead_at]. destruct (leg_eager l) eqn:El.
  - assert (E : active l (exec_rules (head_plain l ++ opt (leg_eager l) [move_plain v l]) e)).
    { apply active_rules; [|done..|].
      - apply Forall_app. split; [apply (Forall_impl _ _ _ (head_calm l Hl)), calm_tame|].
        rewrite El. constructor; [by apply move_tame|done].
      - by rewrite exec_rules_app, state_after_head. }
    unfold active, here_plain in E. by rewrite exec_rules_app, El in E.
  - cbn [opt]. change (exec_rules [] ?x) with x. rewrite routing_after_head; [|by apply OK|done].
    unfold active, here_plain in Ha. by rewrite El in Ha.
Qed.

Lemma route_ahead ps c l e :
  (forall p, In p ps -> In p parts) -> In (PLeg l) ps -> active l e ->
  asking (estate (exec_rules (parts_plain v c ps) e)) -> some_part v (ahead_at v) c ps e = true.
Proof.
  revert c e. induction ps as [|p ps IH]; intros c e Hps Hin Ha Has; [done|]. cbn [some_part].
  cbn [parts_plain] in Has. rewrite exec_rules_app in Has.
  assert (Hl : In l (legs parts)) by (by apply in_legs, Hps).
  assert (Hp : Forall tame (part_plain v c p)) by (apply part_rules_tame, part_part_rules, Hps; by left).
  assert (Has1 : asking (estate (exec_rules (part_plain v c p) e))).
  { revert Has. apply asking_rules. apply part_rules_tame, parts_part_rules. intros p' Hp'. apply Hps. by right. }
  destruct Hin as [->|Hin].
  - apply orb_true_iff. left. apply active_ahead; [done..|]. by apply (asking_rules (part_plain v c (PLeg l))).
  - apply orb_true_iff. right. apply IH; [intros p' Hp'; apply Hps; by right|done| |done]. by apply active_rules.
Qed.

(** ** What is under way *)

(** If something is under way, it is a transition from where the train is, or
    to where its route leads. *)
Definition busy_ok (e : Env) : Prop := busy (estate e) -> exists l, In l (legs parts) /\ active l e.

Lemma busy_calm r e : calm r -> busy_ok e -> busy_ok (exec_rule r e).
Proof.
  intros Hr H Hb. destruct (H (cm_busy _ Hr e Hb)) as (l & Hl & Ha). exists l. split; [done|]. by apply (cm_active _ Hr).
Qed.

Lemma busy_calms rs e : Forall calm rs -> busy_ok e -> busy_ok (exec_rules rs e).
Proof.
  intros H. revert e. induction H as [|r rs Hr _ IH]; intros e Hb; [done|]. rewrite exec_rules_cons.
  by apply IH, busy_calm.
Qed.

Lemma busy_move l e : In l (legs parts) -> leg_eager l = true -> busy_ok e -> busy_ok (exec_rule (move_plain v l) e).
Proof.
  intros Hl El H Hb. assert (Es : estate (exec_rule (move_plain v l) e) = estate e).
  { unfold exec_rule. destruct (enabled _ e); [|done]. rewrite estate_effects. unfold move_plain, directed_effect.
    by destruct (leg_direction l). }
  rewrite Es in Hb. destruct (H Hb) as (l' & Hl' & Ha). exists l'. split; [done|].
  apply (tm_active _ (move_tame l Hl El)); [done..|]. by rewrite Es.
Qed.

Lemma busy_done l e : In l (legs parts) -> busy_ok e -> busy_ok (exec_rule (done_plain l) e).
Proof.
  intros Hl H Hb. destruct (enabled (done_plain l) e) eqn:E.
  - exfalso. revert Hb. unfold exec_rule. rewrite E, estate_effects. unfold done_plain. cbn [effects].
    enough (Hs : forall xs s, state_after (xs ++ [EState StTransitionDone]) s = StTransitionDone).
    { rewrite !app_assoc, Hs. not_busy. }
    clear. intros xs. induction xs as [|[j x|s'|t] xs IH]; intros s; cbn; auto.
  - rewrite exec_rule_off in * by done. auto.
Qed.

(** The tests begin only where a route leads to. *)
Lemma busy_begin l e :
  In l (legs parts) -> (evar e (routing_from l) = true -> active l e) -> busy_ok e -> busy_ok (exec_rule (begin_rule l) e).
Proof.
  intros Hl Hr H. unfold exec_rule. destruct (enabled (begin_rule l) e) eqn:E; [|done]. intros _. exists l. split; [done|].
  apply Hr. apply holds_test1, (enabled_In _ _ _ _ E). simpl. auto.
Qed.

(** Where a route leads to the block of a transition, that may be made. *)
Lemma routing_active l e :
  In l (legs parts) ->
  let e1 := exec_rules (opt (leg_eager l) [move_plain v l]) (exec_rules (head_plain l) e) in
  evar e1 (routing_from l) = true -> active l e1.
Proof.
  intros Hl e1. unfold active, here_plain. destruct (leg_eager l) eqn:El; [done|]. unfold e1. cbn [opt].
  change (exec_rules [] ?x) with x. rewrite routing_after_head; [|by apply OK|done].
  by rewrite perma_after_head by (by apply OK).
Qed.

Lemma busy_leg l e : In l (legs parts) -> busy_ok e -> busy_ok (exec_rules (leg_plain v l) e).
Proof.
  intros Hl H. unfold leg_plain, decide_plain. rewrite !exec_rules_app.
  set (e1 := exec_rules (opt _ _) _).
  assert (H1 : busy_ok e1).
  { unfold e1. destruct (leg_eager l) eqn:El; cbn [opt].
    - change (exec_rules [?r] ?x) with (exec_rule r x). apply busy_move; [done..|]. by apply busy_calms; [apply head_calm|].
    - change (exec_rules [] ?x) with x. by apply busy_calms; [apply head_calm|]. }
  pose proof (routing_active l e Hl) as J1. fold e1 in J1.
  clearbody e1. destruct (test_calm l Hl) as (rest & -> & C1 & C2 & C3). rewrite !exec_rules_cons.
  change (exec_rules [] ?x) with x. apply busy_calm; [by apply failed_calm|]. apply busy_done; [done|].
  apply busy_calms; [by apply wait_calm|]. apply busy_calm; [by apply go_calm|]. apply busy_calms; [done|].
  apply busy_begin; [done| |by repeat apply busy_calm].
  unfold active. by rewrite !exec_rule_unwritten by (by repeat constructor).
Qed.

Lemma busy_parts ps c e : (forall p, In p ps -> In p parts) -> busy_ok e -> busy_ok (exec_rules (parts_plain v c ps) e).
Proof.
  revert c e. induction ps as [|p ps IH]; intros c e Hps H; [done|]. cbn [parts_plain]. rewrite exec_rules_app.
  apply IH; [intros p' Hp'; apply Hps; by right|]. specialize (Hps p (or_introl eq_refl)).
  destruct p as [l|r m desired|loc b|loc b]; cbn [part_plain]; [| | |done].
  - apply busy_leg; [by apply in_legs|done].
  - apply busy_calms; [by apply turnout_calm|done].
  - apply busy_calms; [by apply reverse_calm|done].
Qed.

(** ** The other rules *)

(** Rules that write no bit of a location, begin no test, and let nothing be
    under way that was not. *)
Lemma base_rule gs xs e k :
  vars_in (base_vars v parts) xs -> sets_state untested xs ->
  sets_state (fun s => ~ busy s) xs \/ (exists s, busy s /\ In (GState s) gs) ->
  untested (estate e) /\ busy_ok e /\ at_place k e ->
  let e' := exec_rule (mkRule gs xs) e in untested (estate e') /\ busy_ok e' /\ at_place k e'.
Proof.
  intros Hv Hu Hb (U & B & P) e'.
  assert (Hun : forall j, In j (locations parts) -> evar e' j = evar e j).
  { intros j Hj. apply exec_rule_unwritten. apply (vars_in_unwritten _ _ _ Hv). by apply (w_apart _ _ W). }
  split; [by apply exec_rule_state|]. split.
  - intros Hb'. assert (Hbusy : busy (estate e)).
    { unfold e', exec_rule in Hb'. destruct (enabled _ e) eqn:E; [|done]. rewrite estate_effects in Hb'. cbn in Hb'.
      destruct Hb as [Hb|(s & Hs & Hg)].
      - destruct (decide (busy (estate e))) as [|Hn]; [done|]. exfalso. revert Hb'.
        by apply (state_after_in (fun s => ~ busy s)).
      - apply (enabled_In _ _ _ _ E) in Hg. cbn in Hg. apply Z.eqb_eq in Hg. by rewrite Hg. }
    destruct (B Hbusy) as (l & Hl & Ha). exists l. split; [done|]. unfold active in *.
    by rewrite Hun by (by apply here_location).
  - destruct P as [P1 P2]. split; [done|]. intros j Hj. rewrite Hun by (by apply place_location). auto.
Qed.

Definition base_like (r : Rule) : Prop :=
  vars_in (base_vars v parts) (effects r) /\ sets_state untested (effects r) /\
  (sets_state (fun s => ~ busy s) (effects r) \/ (exists s, busy s /\ In (GState s) (guards r))).

Lemma base_likes rs e k :
  Forall base_like rs -> untested (estate e) /\ busy_ok e /\ at_place k e ->
  let e' := exec_rules rs e in untested (estate e') /\ busy_ok e' /\ at_place k e'.
Proof.
  intros H. revert e. induction H as [|[gs xs] rs (H1 & H2 & H3) _ IH]; intros e He; [done|].
  rewrite exec_rules_cons. by apply IH, base_rule.
Qed.

Lemma in_base k : k = req_go_ v \/ k = req_stop_ v \/ k = is_moving_ v \/ k = last_set_reversed_ v -> In k (base_vars v parts).
Proof. intros H. apply in_app_iff. right. simpl. intuition. Qed.

Ltac is_busy := unfold busy, busy_states; simpl; tauto.
Ltac base_rule_tac s :=
  split; [each; auto using in_base|split; [each; by split|first [left; each; not_busy | right; exists s; split; [is_busy|by left]]]].

Lemma base_plain_like reset_routes d :
  (forall k, bound_green d = Some k -> In k (greens parts)) ->
  Forall base_like (base_plain v reset_routes d).
Proof.
  intros Hg. unfold base_plain. rewrite !Forall_app. split; [|split].
  - constructor.
    { split; cbn [effects]; [|split].
      - unfold vars_in. rewrite Forall_app. split; [|each]. destruct (bound_green d) as [g|]; each.
        apply in_app_iff. left. by apply Hg.
      - unfold sets_state. rewrite Forall_app. split; [destruct (bound_green d); each|each; by split].
      - right. exists StRequestGreen. split; [is_busy|by left]. }
    constructor; [base_rule_tac StGreenRequested|]. constructor; [base_rule_tac StGreenRequested|].
    constructor; [base_rule_tac StGreenRequested|]. constructor; [base_rule_tac StGreenWait|].
    constructor; [base_rule_tac StGreenWait|]. constructor; [base_rule_tac StGreenWait|].
    constructor; [base_rule_tac StGreenWait|]. constructor; [base_rule_tac StTurnout|].
    constructor; [base_rule_tac StReadyToGo|done].
  - destruct reset_routes as [r|]; cbn [with_opt]; [|done]. constructor; [base_rule_tac StTurnoutFailed|done].
  - constructor; [base_rule_tac StTurnoutFailed|]. constructor; [base_rule_tac StTurnoutFailed|].
    constructor; [base_rule_tac StTurnoutFailed|done].
Qed.

Lemma train_plain_like : Forall base_like (train_plain v).
Proof. unfold train_plain. do 8 (constructor; [base_rule_tac StTurnout|]). done. Qed.

Lemma init_plain_like : Forall base_like (init_plain v).
Proof. unfold init_plain. do 2 (constructor; [base_rule_tac StTurnout|]). done. Qed.

(** ** Rounds *)

(** The train is in the block [k]. *)
Record on_schedule (k : nat) (e : Env) : Prop := {
  os_place : at_place k e;
  os_busy : busy_ok e;
  os_tests : untested (estate e)
}.

Lemma round_travels reset_routes d e k :
  (forall g, bound_green d = Some g -> In g (greens parts)) -> on_schedule k e ->
  exists k', on_schedule k' (round v reset_routes parts d e) /\ journey e k k'.
Proof.
  intros Hg [P B U]. unfold round, schedule_plain. rewrite exec_rules_app.
  set (e1 := exec_rules (parts_plain v (None, None) parts) e).
  assert (T : travelling [] e k e1).
  { apply travelling_parts; [done|apply (w_directions _ _ W)|by apply travelling_start]. }
  destruct (tv_place _ _ _ _ T) as (k' & P' & J). exists k'. split; [|done].
  destruct (base_likes (base_plain v reset_routes d ++ train_plain v ++ init_plain v) e1 k') as (U2 & B2 & P2).
  - apply Forall_app. split; [by apply base_plain_like|]. apply Forall_app. split; [apply train_plain_like|apply init_plain_like].
  - split; [by apply parts_untested|]. split; [by apply busy_parts|done].
  - by split.
Qed.

(** A round comes through. *)
Lemma round_plain reset_routes e k :
  parts_ok v (None, None) parts -> on_schedule k e ->
  exists d x, xexec_rules (schedule_rules reset_routes v parts) (mkXEnv e (fun _ => None)) = Some x /\
    layout x = round v reset_routes parts d e /\ (forall g, bound_green d = Some g -> In g (greens parts)).
Proof.
  intros Hok [P B U].
  destruct (schedule_runs_plain v reset_routes parts e Hok U) as (d & x & Ex & El & _ & Hg); [| |by exists d, x].
  - apply train_here with (k := k); [done|done|]. destruct P as [P1 _]. unfold places in P1.
    apply list_elem_of_In, list_elem_of_omap in P1 as (p & Hp & Epl). exists p. by rewrite <- list_elem_of_In.
  - intros Ha. assert (Has : asking (estate e)).
    { revert Ha. apply asking_rules. by apply part_rules_tame, parts_part_rules. }
    destruct (B (asking_busy _ Has)) as (l & Hl & Hac). apply (route_ahead parts (None, None) l); [done| |done..].
    by apply in_legs.
Qed.

End Safety.

Lemma parts_ok_legs v c ps : parts_ok v c ps -> forall l, In l (legs ps) -> leg_ok l.
Proof.
  intros H l Hl%in_legs. revert c H Hl. induction ps as [|p ps IH]; intros c H Hl; [done|].
  destruct H as [H1 H2], Hl as [->|Hl]; [done|by apply (IH (cursor_after p c))].
Qed.

(** ** The automata *)

Section Automata.
Context {V W : Type} `{VV : !Velocity V} `{NN : !Node V W} `{QN : !QuietNode V W} `{QT : !QuietTrain V W}.
Context (gid : nat -> option GlobalVariableId) (place : nat -> option Place).
Context (reset_routes : option nat) (v : ScheduleVars).

(** A rendered schedule: its calls, and its parts with their variables. *)
Record schedule_rendered (calls : list ScheduleCall) (ps : list Part) (code : list Z) (a : nat)
    (s : AutomataRunner (V := V) (W := W)) : Prop := {
  sr_id : 0 <= train_node_id_ v < 2 ^ 64;
  sr_owned : Forall (rule_owned (speed_var_ v)) (schedule_rules reset_routes v ps);
  sr_body : exists t t', resolve calls (set_current_location None t) = Some (ps, t') /\
    xrunnable gid place local_ids (speed_var_ v) (body_with (schedule_body gid reset_routes v (schedule_calls gid v calls)) t) code a s
}.

Lemma rendered_schedule_runs calls ps code a s e :
  schedule_rendered calls ps code a s -> ready gid place (speed_var_ v) a s e ->
  match xexec_rules (schedule_rules reset_routes v ps) (mkXEnv e (fun _ => None)) with
  | Some x => exists s' u, run_automata code a s = Some (Done tt s') /\
      xrepresents gid place local_ids (speed_var_ v) u (core s') x
  | None => exists k, run_automata code a s = Some (Crashed k)
  end.
Proof.
  intros [Hid Hown (t & t' & Er & Hrun)] Hready.
  eapply xbody_runs; [exact Hrun|apply (schedule_builds gid reset_routes v (xrun_args _ _ _ _ _ _ _ _ Hrun) Hid _ _ _ _ Er)|done|done].
Qed.

(** C13: A train schedule runs as the rules of its parts: a run of its automata does
    to the layout what the guarded commands of its transitions, turnouts and
    stubs do one after the other, with the reserved local variables bound as
    they bind them, and dies exactly where they use one that is not bound. *)
Theorem schedule_runs_as_rules calls ps code a s e :
  schedule_rendered calls ps code a s -> ready gid place (speed_var_ v) a s e ->
  match xexec_rules (schedule_rules reset_routes v ps) (mkXEnv e (fun _ => None)) with
  | Some x => exists s' u, run_automata code a s = Some (Done tt s') /\
      xrepresents gid place local_ids (speed_var_ v) u (core s') x
  | None => exists k, run_automata code a s = Some (Crashed k)
  end.
Proof. apply rendered_schedule_runs. Qed.

(** C11: A train schedule never loses its train: if the train is in one block of the
    schedule, each run of the automata comes through, and after it the train is
    in one block of the schedule, which it can only have reached along the
    transitions of the schedule; it has left its block only by a transition
    for which the automata was in the state that follows a granted route or, if
    the transition is eager, while it was moving, was seen by the detector and
    had a route out; and where the block has several ways out, only by one that
    the automata had chosen (its direction bit). *)
Theorem train_follows_schedule calls ps code a s e k :
  schedule_rendered calls ps code a s -> parts_ok v (None, None) ps -> wired v ps ->
  ready gid place (speed_var_ v) a s e -> on_schedule ps k e ->
  exists s' u x k', run_automata code a s = Some (Done tt s') /\
    xrepresents gid place local_ids (speed_var_ v) u (core s') x /\
    on_schedule ps k' (layout x) /\ journey v ps e k k'.
Proof.
  intros Hr Hok Hw Hready Hon.
  destruct (round_plain v ps Hw (parts_ok_legs v _ ps Hok) reset_routes e k Hok Hon) as (d & x & Ex & El & Hg).
  destruct (round_travels v ps Hw (parts_ok_legs v _ ps Hok) reset_routes d e k Hg Hon) as (k' & S' & J).
  rewrite <- El in S'. pose proof (rendered_schedule_runs calls ps code a s e Hr Hready) as H. rewrite Ex in H.
  destruct H as (s' & u & Es & X). by exists s', u, x, k'.
Qed.

End Automata.
