(* ===== verification/ScheduleDeparture.v ===== *)
(** When a train schedule lets its train go: only when the way to the next block
    is clear. *)

From stdpp Require Import strings.
From S2P Require Import Prelude AutomataDefs Automata AutomataTermination AutomataOps AutomataSim AutomataBuild ControlRules ControlLogic ControlTurnouts ControlBuild ControlSafety ScheduleRules TrainSchedule ScheduleBuild ScheduleSpec ScheduleRuns ScheduleRounds ScheduleSafety.

(** ** What is tested *)

(** The way of a transition is clear: the block behind it is free, no route is
    set out of this block or into that one, the block is not closed, the train is
    not frozen, what the layout demands holds, the permit was granted, and
    nobody else is setting a route; and the train is at the end of the block,
    unless the transition is eager. *)
Record cleared (v : ScheduleVars) (l : Leg) (e : Env) : Prop := {
  cl_arrived : leg_eager l = false -> evar e (src_detector (leg_source l)) = true;
  cl_free : evar e (dst_detector (leg_dest l)) = false;
  cl_out : evar e (route_out (leg_source l)) = false;
  cl_in : evar e (route_in (leg_dest l)) = false;
  cl_open : evar e (auto_blocked (leg_dest l)) = false;
  cl_moving : evar e (is_frozen_ v) = false;
  cl_condition k b : In (k, b) (leg_condition l) -> evar e k = b;
  cl_permit c : leg_client l = Some c -> evar e (granted c) = true;
  cl_lock k : leg_lock l = Some k -> evar e k = false
}.

(** The variables that tell this. *)
Definition cleared_vars (v : ScheduleVars) (l : Leg) : list nat :=
  [src_detector (leg_source l); dst_detector (leg_dest l); route_out (leg_source l); route_in (leg_dest l);
   auto_blocked (leg_dest l); is_frozen_ v] ++ List.map fst (leg_condition l) ++
  with_opt (leg_client l) (fun c => [granted c]) ++ with_opt (leg_lock l) (fun k => [k]).

Definition tested_vars (v : ScheduleVars) (parts : list Part) : list nat := legs parts ≫= cleared_vars v.

(** What a part writes before a train is let go. *)
Definition early_vars (v : ScheduleVars) (p : Part) : list nat :=
  match p with
  | PLeg l => with_opt (leg_direction l) (fun k => [k]) ++ with_opt (leg_client l) (fun c => [request c])
  | PReverse _ _ => [need_reverse_ v; is_reversed_ v; last_set_reversed_ v]
  | PTurnout _ _ _ | PStop _ _ => []
  end.

(** The schedule does not write what it tests, before it lets a train go. *)
Definition tests_apart (v : ScheduleVars) (parts : list Part) : Prop :=
  forall k, In k (tested_vars v parts) -> ~ In k (locations parts) /\ ~ In k (parts ≫= early_vars v).

(** The states in which no transition is under way. *)
Definition idle_states : list Z :=
  [StWaiting; StTestCondition; StTestCondition2; StBeforeReverseWait; StReverseSendCommand; StReverseDoneWait].

Section Departure.
Context (v : ScheduleVars) (parts : list Part) (W : wired v parts) (A : tests_apart v parts).
Context (OK : forall l, In l (legs parts) -> leg_ok l).

Definition idle (e0 e : Env) : Prop :=
  In (estate e) idle_states /\ forall j, In j (tested_vars v parts) -> evar e j = evar e0 j.

Definition departed (e0 e : Env) : Prop :=
  estate e = StReadyToGo /\ exists l, In l (legs parts) /\ cleared v l e0 /\ active l e.

(** The transition [l] is tested. *)
Definition testing (l : option Leg) (e0 e : Env) : Prop :=
  estate e = StTestCondition \/ estate e = StTestCondition2 ->
  exists l', l = Some l' /\ In l' (legs parts) /\ active l' e /\
    (estate e = StTestCondition2 -> forallb (holds e0) (clear_plain v l') = true).

(** The run so far, from [e0] to [e]. *)
Definition deciding_on (l : option Leg) (e0 e : Env) : Prop := idle e0 e /\ testing l e0 e \/ departed e0 e.

(** Rules of which no transition comes. *)
Record aside (r : Rule) : Prop := {
  as_tame : tame v parts r;
  as_tested k : In k (tested_vars v parts) -> unwritten k (effects r);
  as_idle : sets_state (fun s => In s idle_states /\ untested s) (effects r);
  as_ready : sets_state (fun _ => False) (effects r) \/ exists s, s <> StReadyToGo /\ In (GState s) (guards r)
}.

(** Rules of states that come later. *)
Definition later_rule (r : Rule) : Prop :=
  exists s, ~ In s idle_states /\ s <> StReadyToGo /\ In (GState s) (guards r).

Lemma enabled_guard r e g : enabled r e = true -> In g (guards r) -> holds e g = true.
Proof. destruct r as [gs xs]. apply enabled_In. Qed.

Lemma deciding_later l e0 e r : later_rule r -> deciding_on l e0 e -> deciding_on l e0 (exec_rule r e).
Proof.
  intros (s & Hs1 & Hs2 & Hg) D. rewrite exec_rule_off; [done|]. apply not_true_is_false. intros E.
  apply (enabled_guard _ _ _ E) in Hg. apply Z.eqb_eq in Hg. subst s.
  destruct D as [[[H _] _]|[H _]]; [by apply Hs1|by apply Hs2].
Qed.

Lemma no_states xs s : sets_state (fun _ => False) xs -> state_after xs s = s.
Proof. intros H. revert s. induction H as [|[k x|s'|t] xs Hx _ IH]; intros s; cbn; auto. done. Qed.

(** The state after effects is the old one or one that is set. *)
Lemma state_after_cases xs s : state_after xs s = s \/ In (EState (state_after xs s)) xs.
Proof.
  revert s. induction xs as [|[k x|s'|t] xs IH]; intros s; cbn; [by left|..].
  - destruct (IH s); auto.
  - destruct (IH s') as [E|E]; right; [left; by rewrite E|by right].
  - destruct (IH s); auto.
Qed.

Lemma ready_busy : busy StReadyToGo.
Proof. unfold busy, busy_states. simpl. auto. Qed.

Lemma deciding_aside l e0 e r : aside r -> deciding_on l e0 e -> deciding_on l e0 (exec_rule r e).
Proof.
  intros [Ht Hw Hi Hr] [[[Hs Hv] Hc]|[Hs (l' & Hl' & Hcl & Ha)]].
  - left. split; [split|].
    + apply (exec_rule_state (fun s => In s idle_states)); [done|]. apply (Forall_impl _ _ _ Hi).
      intros [j x|s|t]; [done| |done]. by intros [H _].
    + intros j Hj. rewrite exec_rule_unwritten by auto. auto.
    + intros E. assert (Es : estate (exec_rule r e) = estate e).
      { unfold exec_rule in *. destruct (enabled r e); [|done]. rewrite estate_effects in *.
        destruct (state_after_cases (effects r) (estate e)) as [->|H]; [done|]. exfalso.
        apply (proj1 (List.Forall_forall _ _) Hi) in H. destruct H as [_ [H1 H2]]. by destruct E. }
      rewrite Es in E. destruct (Hc E) as (l' & -> & Hl' & Ha & Hcl). exists l'. split; [done|]. split; [done|].
      split; [|by rewrite Es]. apply (tm_active _ _ _ Ht); [done..|]. rewrite Es. unfold busy, busy_states.
      destruct E as [->| ->]; simpl; auto.
  - right. assert (Es : estate (exec_rule r e) = StReadyToGo).
    { unfold exec_rule. destruct (enabled r e) eqn:E; [|done]. rewrite estate_effects.
      destruct Hr as [Hr|(s & Hne & Hg)]; [by rewrite no_states|]. exfalso. apply Hne.
      apply (enabled_guard _ _ _ E) in Hg. apply Z.eqb_eq in Hg. congruence. }
    split; [done|]. exists l'. split; [done|]. split; [done|]. apply (tm_active _ _ _ Ht); [done..|].
    rewrite Es. apply ready_busy.
Qed.

Lemma deciding_asides l e0 e rs : Forall aside rs -> deciding_on l e0 e -> deciding_on l e0 (exec_rules rs e).
Proof.
  intros H. revert e. induction H as [|r rs Hr _ IH]; intros e D; [done|]. rewrite exec_rules_cons.
  by apply IH, deciding_aside.
Qed.

(** ** The rules of parts *)

Lemma aside_intro r :
  tame v parts r -> vars_in (locations parts ++ (parts ≫= early_vars v)) (effects r) ->
  sets_state (fun s => In s idle_states /\ untested s) (effects r) ->
  sets_state (fun _ => False) (effects r) \/ (exists s, s <> StReadyToGo /\ In (GState s) (guards r)) -> aside r.
Proof.
  intros Ht Hv Hs Hr. split; [done| |done..]. intros k Hk. apply (vars_in_unwritten _ _ _ Hv).
  rewrite in_app_iff. destruct (A k Hk). tauto.
Qed.

Lemma in_early p k : In p parts -> In k (early_vars v p) -> In k (parts ≫= early_vars v).
Proof. rewrite <- !list_elem_of_In, list_elem_of_bind. by exists p. Qed.

Ltac is_idle := unfold idle_states; simpl; auto 10.

Lemma no_state_aside r :
  tame v parts r -> vars_in (locations parts ++ (parts ≫= early_vars v)) (effects r) ->
  sets_state (fun _ => False) (effects r) -> aside r.
Proof.
  intros Ht Hv Hs. apply aside_intro; [done|done| |by left]. apply (Forall_impl _ _ _ Hs). by intros [j x|s|t].
Qed.

Lemma waiting_aside s gs :
  tame v parts (mkRule (GState s :: gs) [EState StWaiting]) -> s <> StReadyToGo ->
  aside (mkRule (GState s :: gs) [EState StWaiting]).
Proof.
  intros Ht Hs. apply aside_intro; [done|each|each; split; [is_idle|by split]|]. right. exists s. split; [done|by left].
Qed.

Lemma head_aside l : In l (legs parts) -> Forall aside (head_plain l).
Proof.
  intros Hl. pose proof (head_calm v parts W l Hl) as Hc.
  assert (Hr : In (routingloc (leg_from l)) (locations parts)).
  { apply routing_location. apply (in_routings parts l); auto. }
  unfold head_plain in *. destruct (leg_eager l); rewrite !Forall_cons in Hc; destruct Hc as (C1 & C2 & _);
    (constructor; [|constructor; [|done]]); apply no_state_aside; try (by apply calm_tame);
    each; apply in_app_iff; by left.
Qed.

Lemma move_aside l : In l (legs parts) -> leg_eager l = true -> aside (move_plain v l).
Proof.
  intros Hl El. apply no_state_aside; [by apply move_tame| |].
  - unfold move_plain. cbn [effects]. unfold vars_in. rewrite !Forall_app. split.
    { each. apply in_app_iff. left. by apply place_location, leg_place. }
    split; [|each; apply in_app_iff; left; by apply place_location, (w_covered _ _ W)].
    unfold directed_effect. destruct (leg_direction l) as [k|] eqn:Ed; each. apply in_app_iff. right.
    apply (in_early (PLeg l)); [by apply in_legs|]. cbn. rewrite Ed. by left.
  - unfold move_plain. cbn [effects]. unfold sets_state. rewrite !Forall_app. split; [each|]. split; [apply directed_sets|each].
Qed.

(** The rules that ask for the permit. *)
Definition permit_plain (l : Leg) : list Rule :=
  with_opt (leg_client l) (fun c =>
    [ mkRule [GState StTestCondition2] [set1 (request c)];
      mkRule [GState StTestCondition] [set0 (request c)];
      mkRule [test1 (routingloc (leg_from l)); test1 (route_out (leg_source l))] [set0 (request c)] ]).

Lemma test_plain_split l :
  test_plain v l =
    [reset_rule StTestCondition; reset_rule StTestCondition2; begin_rule l;
     mkRule (GState StTestCondition :: clear_plain v l) [EState StTestCondition2]] ++
    permit_plain l ++ [reset_rule StTestCondition].
Proof. done. Qed.

Lemma permit_aside l : In l (legs parts) -> Forall aside (permit_plain l).
Proof.
  intros Hl. destruct (test_calm v parts W l Hl) as (rest & E & _ & _ & Hc). rewrite test_plain_split in E.
  injection E as <-. apply Forall_cons in Hc as [_ Hc]. apply Forall_app in Hc as [Hc _].
  unfold permit_plain in *. destruct (leg_client l) as [c|] eqn:Ec; cbn [with_opt] in *; [|done].
  assert (Hq : In (request c) (locations parts ++ (parts ≫= early_vars v))).
  { apply in_app_iff. right. apply (in_early (PLeg l)); [by apply in_legs|]. cbn. rewrite Ec, in_app_iff. right. by left. }
  apply Forall_cons in Hc as [C1 Hc]. apply Forall_cons in Hc as [C2 Hc]. apply Forall_cons in Hc as [C3 _].
  repeat (constructor; [apply no_state_aside; [by apply calm_tame|each|each]|]). done.
Qed.

Lemma wait_aside l : In l (legs parts) -> Forall aside (wait_plain l).
Proof.
  intros Hl. pose proof (wait_calm v parts W l Hl) as Hc. unfold wait_plain in *. apply Forall_cons in Hc as [C1 Hc].
  constructor; [by apply waiting_aside; [apply calm_tame|]|].
  destruct (leg_direction l) as [k|] eqn:Ed; cbn [with_opt] in *; [|done]. apply Forall_cons in Hc as [C2 _].
  constructor; [|done]. apply no_state_aside; [by apply calm_tame|each|each]. apply in_app_iff. right.
  apply (in_early (PLeg l)); [by apply in_legs|]. cbn. rewrite Ed. by left.
Qed.

Lemma reverse_aside loc b : In (PReverse loc b) parts -> Forall aside (reverse_plain v loc b).
Proof.
  intros Hp. pose proof (reverse_calm v parts W loc b Hp) as Hc.
  assert (Hv : forall k, In k (early_vars v (PReverse loc b)) -> In k (locations parts ++ (parts ≫= early_vars v))).
  { intros k Hk. apply in_app_iff. right. by apply (in_early (PReverse loc b)). }
  unfold reverse_plain in *.
  repeat (apply Forall_cons in Hc as [? Hc]; constructor;
    [apply aside_intro;
       [apply calm_tame; assumption|each; apply Hv; simpl; auto|each; (split; [is_idle|by split])|
        first [right; eexists; split; [|by left]; done | left; each]]|]).
  done.
Qed.

(** ** The decision *)

Lemma deciding_untested l l' e0 e : untested (estate e) -> deciding_on l e0 e -> deciding_on l' e0 e.
Proof. intros [H1 H2] [[Hi _]|Hd]; [left|by right]. split; [done|]. by intros [H|H]. Qed.

Lemma deciding_begin l e0 e :
  In l (legs parts) -> (evar e (routingloc (leg_from l)) = true -> active l e) ->
  deciding_on (Some l) e0 e -> deciding_on (Some l) e0 (exec_rule (begin_rule l) e).
Proof.
  intros Hl HJ D. unfold exec_rule. destruct (enabled (begin_rule l) e) eqn:E; [|done].
  pose proof (enabled_guard _ _ _ E (or_introl eq_refl)) as Es. apply Z.eqb_eq in Es.
  destruct D as [[[Hs Hv] _]|[Hs _]]; [|by rewrite Hs in Es]. left. split; [split; [is_idle|done]|]. intros _. exists l.
  split; [done|]. split; [done|]. split; [|done]. apply HJ, holds_test1, (enabled_guard _ _ _ E). simpl. auto.
Qed.

Lemma cleared_tested l k : In l (legs parts) -> In k (cleared_vars v l) -> In k (tested_vars v parts).
Proof. intros Hl Hk. apply list_elem_of_In, list_elem_of_bind. exists l. by rewrite !list_elem_of_In. Qed.

(** What the tests find is what held when the run began. *)
Lemma clear_holds l e0 e :
  In l (legs parts) -> (forall j, In j (tested_vars v parts) -> evar e j = evar e0 j) ->
  forallb (holds e) (clear_plain v l) = true -> forallb (holds e0) (clear_plain v l) = true.
Proof.
  intros Hl Hv. rewrite !forallb_forall. intros H g Hg. rewrite <- (H g Hg).
  assert (Hk : exists k b, g = GReg (Some k) b /\ In k (cleared_vars v l)).
  { unfold clear_plain, cleared_vars in *. rewrite !in_app_iff in Hg. destruct Hg as [Hg|[Hg|Hg]].
    - destruct (leg_eager l); [done|]. destruct Hg as [<-|[]]. eexists _, _. split; [done|]. simpl. auto.
    - cbn in Hg. destruct Hg as [<-|[<-|[<-|[<-|[<-|[]]]]]]; eexists _, _; (split; [done|]); simpl; auto 10.
    - apply in_map_iff in Hg as ([k b] & <- & Hg). eexists _, _. split; [done|]. rewrite !in_app_iff. right. left.
      apply in_map_iff. by exists (k, b). }
  destruct Hk as (k & b & -> & Hk). cbn. by rewrite Hv by (by apply (cleared_tested l)).
Qed.

Lemma deciding_clear l e0 e :
  In l (legs parts) -> deciding_on (Some l) e0 e ->
  deciding_on (Some l) e0 (exec_rule (mkRule (GState StTestCondition :: clear_plain v l) [EState StTestCondition2]) e).
Proof.
  intros Hl D. set (r := mkRule _ _). unfold exec_rule. destruct (enabled r e) eqn:E; [|done].
  pose proof (enabled_guard _ _ _ E (or_introl eq_refl)) as Es. apply Z.eqb_eq in Es.
  destruct D as [[[Hs Hv] Ht]|[Hs _]]; [|by rewrite Hs in Es]. left. split; [split; [is_idle|done]|]. intros _.
  destruct (Ht (or_introl Es)) as (l' & [= <-] & _ & Ha & _). exists l. split; [done|]. split; [done|]. split; [done|].
  intros _. apply (clear_holds l e0 e Hl Hv). unfold enabled in E. by apply andb_prop in E as [_ E].
Qed.

Lemma cleared_holds l e0 :
  forallb (holds e0) (clear_plain v l) = true ->
  (forall c, leg_client l = Some c -> evar e0 (granted c) = true) ->
  (forall k, leg_lock l = Some k -> evar e0 k = false) -> cleared v l e0.
Proof.
  intros H Hc Hk. rewrite forallb_forall in H.
  assert (H0 : forall k, In (test0 k) (clear_plain v l) -> evar e0 k = false) by (intros k Hin; by apply holds_test0, H).
  unfold clear_plain in *. split; try done; try (apply H0; rewrite !in_app_iff; right; left; simpl; auto 10).
  - intros El. apply holds_test1, H. rewrite El. simpl. auto.
  - intros k b Hin. assert (Hh : holds e0 (GReg (Some k) b) = true).
    { apply H. rewrite !in_app_iff. right. right. apply in_map_iff. by exists (k, b). }
    cbn in Hh. by apply Bool.eqb_prop in Hh.
Qed.

Lemma deciding_go l e0 e :
  In l (legs parts) -> deciding_on (Some l) e0 e -> deciding_on (Some l) e0 (exec_rule (go_plain l) e).
Proof.
  intros Hl D. destruct (enabled (go_plain l) e) eqn:E; [|by rewrite exec_rule_off].
  pose proof (enabled_guard _ _ _ E (or_introl eq_refl)) as Es. apply Z.eqb_eq in Es.
  destruct D as [[[Hs Hv] Ht]|[Hs _]]; [|by rewrite Hs in Es]. right.
  destruct (Ht (or_intror Es)) as (l' & [= <-] & _ & Ha & Hclear). specialize (Hclear Es).
  assert (Hst : estate (exec_rule (go_plain l) e) = StReadyToGo).
  { unfold exec_rule. rewrite E, estate_effects. unfold go_plain. cbn [effects].
    enough (H : forall xs s, state_after (xs ++ [EState StReadyToGo]) s = StReadyToGo) by (by rewrite !app_assoc, H).
    clear. intros xs. induction xs as [|[j x|s'|t] xs IH]; intros s; cbn; auto. }
  split; [done|]. exists l. split; [done|]. split.
  - apply cleared_holds; [done|..].
    + intros c Ec. rewrite <- Hv by (apply (cleared_tested l); [done|]; unfold cleared_vars; rewrite Ec, !in_app_iff; simpl; auto).
      apply holds_test1, (enabled_guard _ _ _ E). unfold go_plain. cbn [guards]. rewrite Ec. simpl. auto.
    + intros k Ek. rewrite <- Hv by (apply (cleared_tested l); [done|]; unfold cleared_vars; rewrite Ek, !in_app_iff; simpl; auto 10).
      apply holds_test0, (enabled_guard _ _ _ E). unfold go_plain, locked_guard. cbn [guards]. rewrite Ek. right.
      apply in_app_iff. right. by left.
  - apply (cm_active _ _ _ (go_calm v parts W l Hl)); [done..|]. rewrite Hst. apply ready_busy.
Qed.

Ltac is_later s := exists s; split; [intros H; unfold idle_states in H; simpl in H; intuition discriminate|split; [done|by left]].

Lemma deciding_leg l0 l e0 e :
  In l (legs parts) -> untested (estate e) -> deciding_on l0 e0 e -> deciding_on (Some l) e0 (exec_rules (leg_plain v l) e).
Proof.
  intros Hl Hu D. apply (deciding_untested _ (Some l)) in D; [|done]. unfold leg_plain, decide_plain. rewrite !exec_rules_app.
  set (e1 := exec_rules (opt _ _) _).
  assert (D1 : deciding_on (Some l) e0 e1).
  { apply deciding_asides; [|by apply deciding_asides; [apply head_aside|]].
    destruct (leg_eager l) eqn:El; cbn [opt]; [|done]. constructor; [by apply move_aside|done]. }
  pose proof (routing_active v parts OK l e Hl) as J. fold e1 in J. clearbody e1.
  rewrite test_plain_split, !exec_rules_app, !exec_rules_cons. change (exec_rules [] ?x) with x.
  destruct (test_calm v parts W l Hl) as (rest & _ & C1 & C2 & _).
  assert (R1 : aside (reset_rule StTestCondition)) by (by apply waiting_aside; [apply calm_tame|]).
  assert (R2 : aside (reset_rule StTestCondition2)) by (by apply waiting_aside; [apply calm_tame|]).
  apply deciding_later; [is_later StGreenFailed|]. apply deciding_later; [is_later StRequestTransition|].
  apply deciding_asides; [by apply wait_aside|]. apply deciding_go; [done|]. apply deciding_aside; [done|].
  apply deciding_asides; [by apply permit_aside|]. apply deciding_clear; [done|].
  apply deciding_begin; [done| |by repeat apply deciding_aside].
  unfold active in *. by rewrite !exec_rule_unwritten by (by repeat constructor).
Qed.

Lemma deciding_parts ps c l0 e0 e :
  (forall p, In p ps -> In p parts) -> untested (estate e) -> deciding_on l0 e0 e ->
  exists l, deciding_on l e0 (exec_rules (parts_plain v c ps) e).
Proof.
  revert c l0 e. induction ps as [|p ps IH]; intros c l0 e Hps Hu D; [by exists l0|]. cbn [parts_plain].
  rewrite exec_rules_app. pose proof (Hps p (or_introl eq_refl)) as Hp.
  assert (D1 : exists l, deciding_on l e0 (exec_rules (part_plain v c p) e)).
  { destruct p as [l|r m desired|loc b|loc b]; cbn [part_plain].
    - exists (Some l). by apply (deciding_leg l0); [apply in_legs| |].
    - exists l0. unfold turnout_plain. rewrite !exec_rules_cons. change (exec_rules [] ?x) with x.
      apply deciding_later; [is_later StTurnout|]. by apply deciding_later; [is_later StTurnout|].
    - exists l0. by apply deciding_asides; [apply reverse_aside|].
    - by exists l0. }
  destruct D1 as [l D1]. apply (IH _ l); [intros p' Hp'; apply Hps; by right|by apply part_untested|done].
Qed.

(** The base states begin no transition. *)
Definition resting (s : Z) : Prop := In s (StFrozen :: idle_states).

Definition rests (r : Rule) : Prop :=
  sets_state resting (effects r) \/ exists s, ~ resting s /\ In (GState s) (guards r).

Lemma rests_state rs e : Forall rests rs -> resting (estate e) -> resting (estate (exec_rules rs e)).
Proof.
  intros H. revert e. induction H as [|r rs Hr _ IH]; intros e He; [done|]. rewrite exec_rules_cons. apply IH.
  destruct Hr as [Hr|(s & Hs & Hg)]; [by apply exec_rule_state|]. rewrite exec_rule_off; [done|].
  apply not_true_is_false. intros E. apply (enabled_guard _ _ _ E) in Hg. apply Z.eqb_eq in Hg. by subst.
Qed.

Ltac rest_guard s :=
  right; exists s; split; [intros H; unfold resting, idle_states in H; simpl in H; intuition discriminate|by left].
Ltac rest_set := left; each; unfold resting, idle_states; simpl; auto 10.

Lemma base_rests reset_routes d : Forall rests (base_plain v reset_routes d).
Proof.
  unfold base_plain. rewrite !Forall_app. split; [|split].
  - constructor; [rest_guard StRequestGreen|]. do 3 (constructor; [rest_guard StGreenRequested|]).
    constructor; [rest_guard StGreenWait|]. do 2 (constructor; [rest_guard StTransitionDone|]).
    constructor; [rest_set|]. constructor; [rest_guard StTurnout|]. constructor; [rest_guard StReadyToGo|done].
  - destruct reset_routes; cbn [with_opt]; [|done]. constructor; [rest_guard StTurnoutFailed|done].
  - constructor; [rest_guard StTurnoutFailed|]. do 2 (constructor; [rest_set|]). done.
Qed.

Lemma train_rests : Forall rests (train_plain v).
Proof. unfold train_plain. do 8 (constructor; [rest_set|]). done. Qed.

Lemma init_rests : Forall rests (init_plain v).
Proof. unfold init_plain. constructor; [rest_set|]. constructor; [rest_guard StInit|done]. Qed.

(** A train that goes: the base states pass from ready to go to the turnouts. *)
Lemma round_departs reset_routes d e :
  (forall g, bound_green d = Some g -> In g (greens parts)) -> untested (estate e) -> In (estate e) idle_states ->
  let e' := round v reset_routes parts d e in
  estate e' = StTurnout -> exists l, In l (legs parts) /\ cleared v l e /\ active l e'.
Proof.
  intros Hg U Hidle e' He'. unfold e', round, schedule_plain in *. rewrite exec_rules_app in *.
  set (rest := base_plain _ _ _ ++ _) in *.
  destruct (deciding_parts parts (None, None) None e e) as [l D]; [done|done| |].
  { left. split; [done|]. destruct U as [U1 U2]. by intros [H|H]. }
  set (e1 := exec_rules (parts_plain v (None, None) parts) e) in *.
  destruct D as [[[Hs _] _]|[Hs (l' & Hl' & Hc & Ha)]].
  - exfalso. assert (Hr : resting (estate (exec_rules rest e1))).
    { apply rests_state; [|by right]. apply Forall_app. split; [apply base_rests|]. apply Forall_app.
      split; [apply train_rests|apply init_rests]. }
    rewrite He' in Hr. unfold resting, idle_states in Hr. simpl in Hr. intuition discriminate.
  - exists l'. split; [done|]. split; [done|]. unfold active in *. rewrite <- Ha. apply exec_rules_unwritten.
    assert (Hb : Forall (base_like v parts) rest).
    { apply Forall_app. split; [by apply base_plain_like|]. apply Forall_app.
      split; [apply train_plain_like|apply init_plain_like]. }
    apply (Forall_impl _ _ _ Hb). intros r (Hv & _). apply (vars_in_unwritten _ _ _ Hv).
    by apply (w_apart _ _ W), here_location.
Qed.

End Departure.

(** ** The automata *)

Section Automata.
Context {V W : Type} `{VV : !Velocity V} `{NN : !Node V W} `{QN : !QuietNode V W} `{QT : !QuietTrain V W}.
Context (gid : nat -> option GlobalVariableId) (place : nat -> option Place).
Context (reset_routes : option nat) (v : ScheduleVars).

(** C12: A train is only let go when its way is clear: if a run of the automata of a
    schedule, begun while no transition was under way, decides to go, then for
    some transition that leads on from where the train is, or from where its
    route ends, the train had arrived at the end of the block, unless the
    transition is eager, the next block was free and open with no route set
    into it nor out of this one, the train was not frozen, the condition of the
    transition held, its permit had been granted and the route lock was free. *)
Theorem train_goes_when_clear calls ps code a s e k :
  schedule_rendered gid place reset_routes v calls ps code a s -> parts_ok v (None, None) ps -> wired v ps ->
  tests_apart v ps -> ready gid place (speed_var_ v) a s e -> on_schedule ps k e -> In (estate e) idle_states ->
  exists s' u x, run_automata code a s = Some (Done tt s') /\
    xrepresents gid place local_ids (speed_var_ v) u (core s') x /\
    (estate (layout x) = StTurnout -> exists l, In l (legs ps) /\ cleared v l e /\ active l (layout x)).
Proof.
  intros Hr Hok Hw HA Hready Hon Hidle. pose proof (parts_ok_legs v _ ps Hok) as OK.
  destruct (round_plain v ps Hw OK reset_routes e k Hok Hon) as (d & x & Ex & El & Hg).
  pose proof (rendered_schedule_runs gid place reset_routes v calls ps code a s e Hr Hready) as H. rewrite Ex in H.
  destruct H as (s' & u & Es & X). exists s', u, x. split; [done|]. split; [done|]. rewrite El.
  by apply round_departs; [..|apply (os_tests _ _ _ Hon)|].
Qed.

End Automata.
