(* ===== verification/ScheduleCheck.v ===== *)
(** Checks of a concrete train schedule: computable versions of what the theorems
    of [ScheduleSafety] and [ScheduleDeparture] ask of it. *)

From stdpp Require Import strings.
From S2P Require Import Prelude AutomataDefs Automata AutomataOps AutomataBuild ControlRules ControlLogic ControlTurnouts ScheduleRules TrainSchedule ScheduleBuild ScheduleSpec ScheduleRuns ScheduleRounds ScheduleSafety ScheduleDeparture.

Definition mem (k : nat) (l : list nat) : bool := existsb (Nat.eqb k) l.

Lemma mem_In k l : mem k l = true <-> In k l.
Proof.
  unfold mem. rewrite existsb_exists. split.
  - intros (x & Hx & E). apply Nat.eqb_eq in E. by subst.
  - intros H. exists k. split; [done|]. apply Nat.eqb_refl.
Qed.

Definition apart_from (l l' : list nat) : bool := forallb (fun k => negb (mem k l')) l.

Lemma apart_from_sound l l' k : apart_from l l' = true -> In k l -> ~ In k l'.
Proof.
  unfold apart_from. rewrite forallb_forall. intros H Hk Hk'. specialize (H k Hk).
  by rewrite (proj2 (mem_In k l') Hk') in H.
Qed.

Fixpoint distinct (l : list nat) : bool :=
  match l with
  | [] => true
  | k :: l => negb (mem k l) && distinct l
  end.

Lemma distinct_sound l : distinct l = true -> NoDup l.
Proof.
  induction l as [|k l IH]; cbn; [constructor|]. intros [H1 H2]%andb_prop. constructor; [|auto].
  rewrite list_elem_of_In. intros Hk. by rewrite (proj2 (mem_In k l) Hk) in H1.
Qed.

Definition check_leg (l : Leg) : bool :=
  Bool.eqb (leg_respects l) (bool_decide (is_Some (leg_direction l))) &&
  distinct (leg_locations l) && apart_from (leg_locations l) (leg_vars l).

Lemma check_leg_sound l : check_leg l = true -> leg_ok l.
Proof.
  unfold check_leg. intros [[H1 H2]%andb_prop H3]%andb_prop. split.
  - by apply Bool.eqb_prop in H1.
  - by apply distinct_sound.
  - intros k Hk. by apply (apart_from_sound _ _ k H3).
Qed.

Definition is_some {A} (o : option A) : bool := match o with Some _ => true | None => false end.

Lemma is_some_sound {A} (o : option A) : is_some o = true -> is_Some o.
Proof. by destruct o. Qed.

Section Check.
Context (v : ScheduleVars).

Definition check_part (c : Cursor) (p : Part) : bool :=
  match p with
  | PLeg l => check_leg l
  | PTurnout r _ _ => is_some (fst c) && implb r (is_some (snd c))
  | PReverse loc _ => negb (mem (permaloc loc) [need_reverse_ v; is_reversed_ v; last_set_reversed_ v])
  | PStop _ _ => true
  end.

Fixpoint check_parts (c : Cursor) (ps : list Part) : bool :=
  match ps with
  | [] => true
  | p :: ps => check_part c p && check_parts (cursor_after p c) ps
  end.

Lemma check_parts_sound c ps : check_parts c ps = true -> parts_ok v c ps.
Proof.
  revert c. induction ps as [|p ps IH]; intros c; [done|]. cbn [check_parts parts_ok]. intros [H1 H2]%andb_prop. split; [|auto].
  destruct p as [l|r m b|loc b|loc b]; cbn [check_part part_ok] in *; [by apply check_leg_sound| | |done].
  - apply andb_prop in H1 as [H1 H3]. split; [by apply is_some_sound|]. intros ->. by apply is_some_sound.
  - intros Hk. by rewrite (proj2 (mem_In _ _) Hk) in H1.
Qed.

Definition same_eager (l l' : Leg) : bool :=
  implb ((permaloc (leg_from l) =? permaloc (leg_from l'))%nat || (routingloc (leg_from l) =? routingloc (leg_from l'))%nat)
    (Bool.eqb (leg_eager l) (leg_eager l')).

Definition check_wired (ps : list Part) : bool :=
  forallb (fun l => mem (permaloc (leg_to l)) (places ps)) (legs ps) &&
  apart_from (places ps) (routings ps) &&
  forallb (fun l => forallb (same_eager l) (legs ps)) (legs ps) &&
  apart_from (locations ps) (parts_vars v ps) && apart_from (locations ps) (base_vars v ps) &&
  apart_from (leaving_vars v ps) (locations ps) && apart_from (leaving_vars v ps) (parts_vars v ps) &&
  distinct (directions ps) && apart_from (directions ps) (ps ≫= raised v).

Lemma check_wired_sound ps : check_wired ps = true -> wired v ps.
Proof.
  unfold check_wired.
  intros [[[[[[[[H1 H2]%andb_prop H3]%andb_prop H4]%andb_prop H5]%andb_prop H6]%andb_prop H7]%andb_prop H8]%andb_prop H9]%andb_prop.
  rewrite forallb_forall in H1, H3. split.
  - intros l Hl. by apply mem_In, H1.
  - intros k Hk. by apply (apart_from_sound _ _ k H2).
  - intros l l' Hl Hl' E. specialize (H3 l Hl). rewrite forallb_forall in H3. specialize (H3 l' Hl').
    unfold same_eager in H3. apply Bool.eqb_prop. destruct (_ || _) eqn:Eb; [done|]. exfalso.
    apply orb_false_iff in Eb as [E1%Nat.eqb_neq E2%Nat.eqb_neq]. by destruct E.
  - intros k Hk. split; [by apply (apart_from_sound _ _ k H4)|by apply (apart_from_sound _ _ k H5)].
  - intros k Hk. split; [by apply (apart_from_sound _ _ k H6)|by apply (apart_from_sound _ _ k H7)].
  - by apply distinct_sound.
  - intros k. by apply (apart_from_sound _ _ k H9).
Qed.

Definition check_tests (ps : list Part) : bool :=
  apart_from (tested_vars v ps) (locations ps) && apart_from (tested_vars v ps) (ps ≫= early_vars v).

Lemma check_tests_sound ps : check_tests ps = true -> tests_apart v ps.
Proof.
  unfold check_tests. intros [H1 H2]%andb_prop k Hk.
  split; [by apply (apart_from_sound _ _ k H1)|by apply (apart_from_sound _ _ k H2)].
Qed.

(** The variable of the speed is used for the speed only. *)
Definition check_term (t : Term) : bool :=
  match speed_var_ v, t with
  | Some s, Var k => negb (s =? k)%nat
  | _, _ => true
  end.

Definition check_owned (r : XRule) : bool :=
  forallb (fun g => match g with XReg t _ => check_term t | _ => true end) (xguards r) &&
  forallb (fun x => match x with XWrite t _ => check_term t | XBind _ k => check_term (Var k) | _ => true end) (xeffects r).

Lemma check_term_sound t : check_term t = true -> term_owned (speed_var_ v) t.
Proof.
  unfold check_term, term_owned. destruct t as [k|r]; [|done]. destruct (speed_var_ v) as [s|]; [|done].
  intros H. apply negb_true_iff, Nat.eqb_neq in H. congruence.
Qed.

Lemma check_owned_sound rs : forallb check_owned rs = true -> Forall (rule_owned (speed_var_ v)) rs.
Proof.
  rewrite forallb_forall, List.Forall_forall. intros H r Hr. specialize (H r Hr). unfold check_owned in H.
  apply andb_prop in H as [H1 H2]. rewrite forallb_forall in H1, H2. split; apply List.Forall_forall.
  - intros g Hg. specialize (H1 g Hg). destruct g; try done. by apply check_term_sound.
  - intros x Hx. specialize (H2 x Hx). destruct x; try done; [by apply check_term_sound|by apply (check_term_sound (Var k))].
Qed.

(** The train is in the block [k], and no transition is under way. *)
Definition check_place (k : nat) (ps : list Part) (e : Env) : bool :=
  mem k (places ps) && forallb (fun j => Bool.eqb (evar e j) (j =? k)%nat) (places ps) &&
  existsb (Z.eqb (estate e)) [StWaiting; StFrozen; StTransitionDone].

Lemma check_place_sound k ps e : check_place k ps e = true -> on_schedule ps k e.
Proof.
  unfold check_place. intros [[H1 H2]%andb_prop H3]%andb_prop. apply mem_In in H1.
  assert (Hs : ~ busy (estate e) /\ untested (estate e)).
  { apply existsb_exists in H3 as (s & Hs & E). apply Z.eqb_eq in E. rewrite E.
    destruct Hs as [<-|[<-|[<-|[]]]]; (split; [not_busy|by split]). }
  destruct Hs as [Hb Hu]. split; [|by intros H|done]. split; [done|]. intros j Hj.
  rewrite forallb_forall in H2. specialize (H2 j Hj). apply Bool.eqb_prop in H2. rewrite H2.
  destruct (Nat.eqb_spec j k) as [E|E]; [by rewrite bool_decide_true|by rewrite bool_decide_false].
Qed.

End Check.
