(* ===== verification/TrackPlan.v ===== *)
(** Track plans (src/automata/control-logic.hxx, control-logic.cc): pieces of
    track, how they are bound to each other, and where a route that is requested
    at a signal leads.

    [CtrlTrackInterface::Bind] connects two ends of track.  A layout is the list of
    its objects, which bind their own pieces when they are constructed, and of
    the bindings between them. *)

From stdpp Require Import strings.
From S2P Require Import Prelude AutomataDefs Automata AutomataOps AutomataBuild ControlRules ControlLogic ControlTurnouts.

(** ** Ends of track *)

Inductive Side :=
| side_a | side_b
| side_points | side_closed | side_thrown
| point_a1 | point_a2 | point_b1 | point_b2.

#[export] Instance Side_eq_dec : EqDecision Side.
Proof. solve_decision. Defined.

Definition side_number (s : Side) : nat :=
  match s with
  | side_a => 0 | side_b => 1
  | side_points => 2 | side_closed => 3 | side_thrown => 4
  | point_a1 => 5 | point_a2 => 6 | point_b1 => 7 | point_b2 => 8
  end.

Definition all_sides : list Side :=
  [side_a; side_b; side_points; side_closed; side_thrown; point_a1; point_a2; point_b1; point_b2].

#[export] Instance Side_countable : Countable Side :=
  inj_countable side_number (fun n => all_sides !! n) ltac:(by intros []).

#[export] Instance TurnoutState_eq_dec : EqDecision TurnoutState.
Proof. solve_decision. Defined.

(** A [CtrlTrackInterface], by the name of its piece, and the members
    [binding_] of all interfaces. *)
Definition End : Type := (string * Side)%type.
Definition Bindings : Type := gmap End End.

(** [Bind] does not unbind what was bound before. *)
Definition Bind (e other : End) (b : Bindings) : Bindings := <[other := e]> (<[e := other]> b).

(** [Unbind] follows the binding, which is not there otherwise. *)
Definition Unbind (e : End) (b : Bindings) : option Bindings :=
  other ← b !! e; Some (delete e (delete other b)).

(** A [StraightTrackInterface] is its two ends. *)
Fixpoint BindSequence (before : option End) (pieces : list (End * End)) (after : option End) (b : Bindings)
    : option Bindings :=
  match pieces with
  | (a, z) :: pieces =>
      BindSequence (Some z) pieces after (match before with Some e => Bind e a b | None => b end)
  | [] =>
      match after, before with
      | None, _ => Some b
      | Some after, Some before => Some (Bind before after b)
      | Some _, None => None
      end
  end.

Definition BindPairs (pairs : list (End * End)) (b : Bindings) : Bindings :=
  fold_left (fun b p => Bind (fst p) (snd p) b) pairs b.

(** ** Pieces *)

(** A magnet by its name and state at the start, or one that follows another. *)
Inductive LayoutMagnet :=
| Magnet (name : string) (def_state : bool)
| CoupledMagnet (name : string) (original : LayoutMagnet) (invert : bool).

Definition magnet_name (m : LayoutMagnet) : string :=
  match m with Magnet name _ => name | CoupledMagnet name _ _ => name end.

(** Tracks without a choice, signals, turnouts and double slip switches. *)
Inductive TrackPiece :=
| PlainTrack
| SignalTrack
| FixedTurnout (state : TurnoutState)
| MovableTurnout (magnet : LayoutMagnet)
| MovableDKW (magnet : LayoutMagnet).

(** [pieces] has the members of the layout that are drawn, [no_stop] the signals
    whose variable [route_no_stop_] is set. *)
Record Plan := mkPlan {
  pieces : gmap string TrackPiece;
  bindings : Bindings;
  no_stop : list string
}.

Definition empty_plan : Plan := mkPlan ∅ ∅ [].

Definition add_piece (name : string) (p : TrackPiece) (l : Plan) : Plan :=
  mkPlan (<[name := p]> (pieces l)) (bindings l) (no_stop l).
Definition set_bindings (b : Bindings) (l : Plan) : Plan := mkPlan (pieces l) b (no_stop l).
Definition set_no_stop (signal : string) (l : Plan) : Plan :=
  mkPlan (pieces l) (bindings l) (signal :: no_stop l).

Definition track (name : string) : End * End := ((name, side_a), (name, side_b)).

(** ** Objects of a layout *)

(** The objects by the names that are given to their constructors; a stub may
    have a sensor at its entry. *)
Inductive Object :=
| StandardBlockObject (base_name : string)
| StandardBidirBlockObject (base_name : string)
| StubBlockObject (base_name : string) (entry_sensor : bool)
| StandardMiddleDetector (name : string)
| StandardMiddleSignal (name : string)
| StandardMiddleLongTrack (name : string)
| StandardMovableTurnout (name : string) (magnet : LayoutMagnet)
| StandardFixedTurnout (name : string) (state : TurnoutState)
| StandardMovableDKW (name : string) (magnet : LayoutMagnet).

Definition object_name (o : Object) : string :=
  match o with
  | StandardBlockObject name | StandardBidirBlockObject name | StubBlockObject name _
  | StandardMiddleDetector name | StandardMiddleSignal name | StandardMiddleLongTrack name
  | StandardMovableTurnout name _ | StandardFixedTurnout name _ | StandardMovableDKW name _ => name
  end.

Definition body (name : string) : string := (name +:+ ".body")%string.
Definition body_det (name : string) : string := (name +:+ ".body_det")%string.
Definition signal (name : string) : string := (name +:+ ".signal")%string.
Definition rsignal (name : string) : string := (name +:+ ".rsignal")%string.
Definition rbody_det (name : string) : string := (name +:+ ".rbody_det")%string.
Definition fake_turnout (name : string) : string := (name +:+ ".fake_turnout")%string.
Definition entry_det (name : string) : string := (name +:+ ".entry_det")%string.

(** The sides of a block. *)
Definition block_side_a (name : string) : End := (rsignal name, side_b).
Definition block_side_b (name : string) : End := (signal name, side_b).

Definition bind_sequence (before : option End) (l : list (End * End)) (after : option End) (p : Plan) : option Plan :=
  b ← BindSequence before l after (bindings p); Some (set_bindings b p).

(** The constructors. *)
Definition new_StandardBlock (name : string) (p : Plan) : option Plan :=
  let p := add_piece (body name) PlainTrack p in
  let p := add_piece (body_det name) PlainTrack p in
  let p := add_piece (signal name) SignalTrack p in
  let p := add_piece (rsignal name) SignalTrack p in
  bind_sequence (Some (rsignal name, side_a)) [track (body name); track (body_det name); track (signal name)] None p.

Definition new_StandardBidirBlock (name : string) (p : Plan) : option Plan :=
  p ← new_StandardBlock name p;
  let p := add_piece (rbody_det name) PlainTrack p in
  b ← Unbind (rsignal name, side_a) (bindings p);
  bind_sequence (Some (body name, side_a)) [track (rbody_det name); track (rsignal name)] None (set_bindings b p).

Definition new_StubBlock (name : string) (entry_sensor : bool) (p : Plan) : option Plan :=
  p ← new_StandardBlock name p;
  let p := add_piece (fake_turnout name) (FixedTurnout TURNOUT_THROWN) p in
  let block := (block_side_a name, block_side_b name) in
  if entry_sensor then
    bind_sequence (Some (fake_turnout name, side_thrown)) [track (entry_det name); block]
      (Some (fake_turnout name, side_closed)) (add_piece (entry_det name) PlainTrack p)
  else
    bind_sequence (Some (fake_turnout name, side_thrown)) [block] (Some (fake_turnout name, side_closed)) p.

Definition new_Object (o : Object) (p : Plan) : option Plan :=
  match o with
  | StandardBlockObject name => new_StandardBlock name p
  | StandardBidirBlockObject name => new_StandardBidirBlock name p
  | StubBlockObject name entry_sensor => new_StubBlock name entry_sensor p
  | StandardMiddleDetector name => Some (add_piece (body_det name) PlainTrack p)
  | StandardMiddleLongTrack name => Some (add_piece (body name) PlainTrack p)
  | StandardMiddleSignal name => Some (set_no_stop (signal name) (add_piece (signal name) SignalTrack p))
  | StandardMovableTurnout name magnet => Some (add_piece name (MovableTurnout magnet) p)
  | StandardFixedTurnout name state => Some (add_piece name (FixedTurnout state) p)
  | StandardMovableDKW name magnet => Some (add_piece name (MovableDKW magnet) p)
  end.

(** The sides of objects as the layouts name them; [entry] is a side of a stub.
    An object that has no such side is not asked for it. *)
Definition object_side (o : Object) (s : Side) : End :=
  match o, s with
  | (StandardBlockObject name | StandardBidirBlockObject name), side_a => block_side_a name
  | (StandardBlockObject name | StandardBidirBlockObject name), _ => block_side_b name
  | StandardMiddleDetector name, _ => (body_det name, s)
  | StandardMiddleLongTrack name, _ => (body name, s)
  | StandardMiddleSignal name, _ => (signal name, s)
  | _, _ => (object_name o, s)
  end.

Definition entry (o : Object) : End := (fake_turnout (object_name o), side_points).

(** An object in a sequence, from its side a to its side b. *)
Definition straight (o : Object) : End * End := (object_side o side_a, object_side o side_b).

(** [FakeStraightTrack], and what [TurnoutWrap] and [DKWWrap] make of a turnout. *)
Definition FakeStraightTrack (o : Object) (a b : Side) : End * End := (object_side o a, object_side o b).
Definition kPointToClosed (o : Object) : End * End := FakeStraightTrack o side_points side_closed.
Definition kClosedToPoint (o : Object) : End * End := FakeStraightTrack o side_closed side_points.
Definition kThrownToPoint (o : Object) : End * End := FakeStraightTrack o side_thrown side_points.
Definition kPointToThrown (o : Object) : End * End := FakeStraightTrack o side_points side_thrown.
Definition kA1toB1 (o : Object) : End * End := FakeStraightTrack o point_a1 point_b1.
Definition kB1toA1 (o : Object) : End * End := FakeStraightTrack o point_b1 point_a1.
Definition kA2toB2 (o : Object) : End * End := FakeStraightTrack o point_a2 point_b2.
Definition kB2toA2 (o : Object) : End * End := FakeStraightTrack o point_b2 point_a2.
Definition kA2toB1 (o : Object) : End * End := FakeStraightTrack o point_a2 point_b1.

(** The bindings that a layout makes. *)
Inductive Binding :=
| Sequence (before : option End) (l : list (End * End)) (after : option End)
| Pairs (l : list (End * End)).

Definition make_binding (c : Binding) (p : Plan) : option Plan :=
  match c with
  | Sequence before l after => bind_sequence before l after p
  | Pairs l => Some (set_bindings (BindPairs l (bindings p)) p)
  end.

Fixpoint steps {A} (f : A -> Plan -> option Plan) (l : list A) (p : Plan) : option Plan :=
  match l with
  | [] => Some p
  | x :: l => p ← f x p; steps f l p
  end.

(** [open_signals] are set by automata of the layout. *)
Definition build_plan (objects : list Object) (bs : list Binding) (open_signals : list string) : option Plan :=
  p ← steps new_Object objects empty_plan;
  p ← steps make_binding bs p;
  Some (fold_right set_no_stop p open_signals).

(** ** Validation *)

Definition piece_sides (t : TrackPiece) : list Side :=
  match t with
  | PlainTrack | SignalTrack => [side_a; side_b]
  | FixedTurnout _ | MovableTurnout _ => [side_points; side_closed; side_thrown]
  | MovableDKW _ => [point_a1; point_a2; point_b1; point_b2]
  end.

(** [Validate] of all pieces: each interface is bound. *)
Definition Validate (p : Plan) : bool :=
  forallb (fun '(name, t) => forallb (fun s => bool_decide (is_Some (bindings p !! (name, s)))) (piece_sides t))
    (map_to_list (pieces p)).

(** ** Routes *)

(** The directions of turnouts and the routes of slips by the sides that they
    connect. *)
Definition turnout_ways : list (Side * Side * TurnoutState) :=
  [ (side_points, side_closed, TURNOUT_CLOSED); (side_points, side_thrown, TURNOUT_THROWN);
    (side_closed, side_points, TURNOUT_DONTCARE); (side_thrown, side_points, TURNOUT_DONTCARE) ].

Definition fixed_ways (state : TurnoutState) : list (Side * Side * TurnoutState) :=
  [ (side_closed, side_points, TURNOUT_DONTCARE); (side_thrown, side_points, TURNOUT_DONTCARE) ] ++
  match state with
  | TURNOUT_CLOSED => [ (side_points, side_closed, TURNOUT_CLOSED) ]
  | TURNOUT_THROWN => [ (side_points, side_thrown, TURNOUT_THROWN) ]
  | TURNOUT_DONTCARE => []
  end.

Definition dkw_point (n : nat) : Side :=
  match n with 0%nat => point_a1 | 1%nat => point_a2 | 2%nat => point_b1 | _ => point_b2 end.

Definition dkw_ways : list (Side * Side * DKWState) :=
  List.map (fun r => (dkw_point (r_from r), dkw_point (r_to r), r_state r)) (DKW_routes (fun _ => 0%nat) (fun _ => 0%nat)).

(** What the state of a turnout allows: [TurnoutDirectionCheck]. *)
Definition state_allows (thrown : bool) (s : TurnoutState) : bool :=
  match s with TURNOUT_CLOSED => negb thrown | TURNOUT_THROWN => thrown | TURNOUT_DONTCARE => true end.

Definition dkw_allows (curved : bool) (s : DKWState) : bool :=
  match s with
  | DKW_STRAIGHT => Bool.eqb curved kDKWStateCross
  | DKW_CURVED => Bool.eqb curved kDKWStateCurved
  end.

Definition find_way {S} (allows : S -> bool) (from : Side) (ways : list (Side * Side * S)) : option Side :=
  match List.find (fun '(f, _, s) => bool_decide (f = from) && allows s) ways with
  | Some (_, to, _) => Some to
  | None => None
  end.

(** The states of the magnets. *)
Fixpoint magnet_state (st : string -> bool) (m : LayoutMagnet) : bool :=
  match m with
  | Magnet name _ => st name
  | CoupledMagnet _ original invert => xorb (magnet_state st original) invert
  end.

(** The other end of a piece, for a route that comes in at a side. *)
Definition leaves_at (st : string -> bool) (t : TrackPiece) (from : Side) : option Side :=
  match t with
  | PlainTrack | SignalTrack =>
      match from with side_a => Some side_b | side_b => Some side_a | _ => None end
  | FixedTurnout state => find_way (state_allows (bool_decide (state = TURNOUT_THROWN))) from (fixed_ways state)
  | MovableTurnout m => find_way (state_allows (magnet_state st m)) from turnout_ways
  | MovableDKW m => find_way (dkw_allows (magnet_state st m)) from dkw_ways
  end.

(** A route ends at a signal that it comes to from side a, unless that one lets
    routes pass. *)
Definition stops_at (p : Plan) (name : string) (t : TrackPiece) (from : Side) : bool :=
  match t, from with
  | SignalTrack, side_a => negb (bool_decide (name ∈ no_stop p))
  | _, _ => false
  end.

(** The signal at which a route ends that leaves a piece at an end. *)
Fixpoint route_end (fuel : nat) (p : Plan) (st : string -> bool) (e : End) : option string :=
  match fuel with
  | O => None
  | S fuel =>
      '(name, from) ← bindings p !! e;
      t ← pieces p !! name;
      if stops_at p name t from then Some name
      else (to ← leaves_at st t from; route_end fuel p st (name, to))
  end.

(** A route passes each side of a piece at most once. *)
Definition route_fuel (p : Plan) : nat := 4 * size (pieces p).
