(* ===== verification/Layouts.v ===== *)
(** Layouts and their trains, by name: what the bracz-layout files of
    src/automata are made of.

    A layout file declares the objects of a layout, binds them, and has a class
    of trains for each way around it.  The variables of the layout are the names
    that the allocators give them; a numbering of the names turns the calls of a
    train into calls of [TrainSchedule]. *)

From stdpp Require Import strings.
From S2P Require Import Prelude AutomataDefs Automata AutomataOps AutomataBuild ControlRules ControlLogic ControlTurnouts ScheduleRules TrainSchedule ScheduleBuild TrackPlan.

(** ** Variables *)

(** [any_route()] of a turnout, [detector()], [route_in()], [route_out()] of a
    block, and what a train needs of its signals. *)
Definition any_route (o : Object) : string := (object_name o +:+ ".any_route_set")%string.
Definition detector (o : Object) : string := (body_det (object_name o) +:+ ".simulated_occ")%string.
Definition rev_detector (o : Object) : string := (rbody_det (object_name o) +:+ ".simulated_occ")%string.
Definition block_route_in (o : Object) : string := (body_det (object_name o) +:+ ".route_set_ab")%string.
Definition block_route_out (o : Object) : string := (signal (object_name o) +:+ ".route_set_ab")%string.
Definition rev_route_out (o : Object) : string := (rsignal (object_name o) +:+ ".route_set_ab")%string.
Definition block_request_green (o : Object) : string := (object_name o +:+ ".request_green")%string.
Definition rrequest_green (o : Object) : string := (object_name o +:+ ".rev_request_green")%string.
Definition block_auto_blocked (o : Object) : string := (object_name o +:+ ".auto_blocked")%string.

(** A signal of a block; the conversion of a block to [SignalBlock] is [Fwd]. *)
Inductive Signal :=
| Fwd (block : Object)
| Rev (block : Object).

Definition block_of (s : Signal) : Object := match s with Fwd o | Rev o => o end.

(** The piece of track of a signal. *)
Definition signal_piece (s : Signal) : string :=
  match s with Fwd o => signal (object_name o) | Rev o => rsignal (object_name o) end.

(** Conditions of the layout: variables and the value that they must have. *)
Definition Condition_ : Type := list (string * bool).

(** ** Calls *)

Inductive LayoutCall :=
| LTransition (source dest : Signal) (client : option string) (condition : Condition_) (eager : bool)
| LTurnout (turnout : Object) (desired_state : bool)
| LReverseAtStub (in_signal : Signal)
| LClearVariables
| LBeginLock (lock : string)
| LEndLock
| LOperations (imports : list string) (ops : list (list (OwnCall string))).

(** The calls as the layouts make them; [not_paused] is the condition of the
    layout for eager transitions. *)
Definition AddDirect (source dest : Signal) (condition : Condition_) (eager : bool) : list LayoutCall :=
  [LTransition source dest None condition eager].
Definition AddOnPermit (source dest : Signal) (client : string) (condition : Condition_) (eager : bool)
    : list LayoutCall :=
  [LTransition source dest (Some client) condition eager].
Definition AddEager (not_paused : Condition_) (source dest : Signal) : list LayoutCall :=
  AddDirect source dest not_paused true.
Fixpoint AddEagerSequence (blocks : list Object) (condition : Condition_) (is_eager : bool) : list LayoutCall :=
  match blocks with
  | a :: (b :: _) as l => AddDirect (Fwd a) (Fwd b) condition is_eager ++ AddEagerSequence l condition is_eager
  | _ => []
  end.
Definition Switch (turnout : Object) (desired_state : bool) : list LayoutCall := [LTurnout turnout desired_state].
Definition StopAndReverse (in_signal : Signal) : list LayoutCall := [LReverseAtStub in_signal].
Definition Own (imports : list string) (ops : list (list (OwnCall string))) : list LayoutCall := [LOperations imports ops].
Definition ClearVars : list LayoutCall := [LClearVariables].

(** The scope of a [WithRouteLock]. *)
Definition with_lock (lock : string) (l : list LayoutCall) : list LayoutCall :=
  LBeginLock lock :: l ++ [LEndLock].

(** The magnet of a turnout that can move. *)
Definition magnet (o : Object) : option LayoutMagnet :=
  match o with
  | StandardMovableTurnout _ m | StandardMovableDKW _ m => Some m
  | _ => None
  end.

(** ** From names to numbers *)

Definition signal_variables (s : Signal) : list string :=
  let o := block_of s in
  [ match o, s with StandardBidirBlockObject _, Rev _ => rev_detector o | _, _ => detector o end;
    match s with Fwd _ => block_route_out o | Rev _ => rev_route_out o end;
    block_route_in o;
    match s with Fwd _ => block_request_green o | Rev _ => rrequest_green o end;
    block_auto_blocked o ].

Definition magnet_variables (m : LayoutMagnet) : list string :=
  [ (magnet_name m +:+ ".command")%string; (magnet_name m +:+ ".state")%string; (magnet_name m +:+ ".locked")%string ].

Definition client_variables (client : string) : list string :=
  [ (client +:+ ".request")%string; (client +:+ ".granted")%string; (client +:+ ".taken")%string; (client +:+ ".next")%string ].

Definition own_variables (c : OwnCall string) : list string :=
  match c with IfVariable name _ | SetVariable name _ => [name] | _ => [] end.

Definition call_variables (c : LayoutCall) : list string :=
  match c with
  | LTransition source dest client condition _ =>
      signal_variables source ++ signal_variables dest ++ default [] (client_variables <$> client) ++ List.map fst condition
  | LTurnout turnout _ => default [] (magnet_variables <$> magnet turnout)
  | LReverseAtStub s => signal_variables s
  | LClearVariables | LEndLock => []
  | LBeginLock lock => [lock]
  | LOperations imports ops => imports ++ (ops ≫= fun cs => cs ≫= own_variables)
  end.

Fixpoint index_of (name : string) (l : list string) : nat :=
  match l with
  | [] => 0
  | x :: l => if bool_decide (name = x) then 0 else S (index_of name l)
  end.

Section Numbers.
Context (number : string -> nat).

Definition signal_block (s : Signal) : SignalBlock :=
  let k i := number (default ""%string (signal_variables s !! i)) in
  mkSignalBlock (object_name (block_of s)) (k 0%nat) (k 0%nat) (k 1%nat) (k 2%nat) (k 3%nat) (k 4%nat).

(** A schedule uses the command, the state and the lock of a magnet. *)
Definition magnet_def (m : LayoutMagnet) : MagnetDef :=
  let k i := number (default ""%string (magnet_variables m !! i)) in
  mkMagnet (k 0%nat) (k 1%nat) (k 2%nat) (number "") (number "") 0 false.

Definition client_def (client : string) : FlipFlopClient :=
  let k i := number (default ""%string (client_variables client !! i)) in
  mkClient (k 0%nat) (k 1%nat) (k 2%nat) (k 3%nat).

(** A turnout without a magnet cannot be switched. *)
Definition to_call (c : LayoutCall) : option ScheduleCall :=
  match c with
  | LTransition source dest client condition eager =>
      Some (Transition (signal_block source) (signal_block dest) (client_def <$> client)
              (List.map (fun p => (number (fst p), snd p)) condition) eager)
  | LTurnout turnout desired_state => m ← magnet turnout; Some (Turnout (magnet_def m) desired_state)
  | LReverseAtStub s => Some (ReverseAtStub (signal_block s))
  | LClearVariables => Some ClearVariables
  | LBeginLock lock => Some (BeginLock (number lock))
  | LEndLock => Some EndLock
  | LOperations imports ops => Some (Operations (List.map number imports) (List.map (List.map (map_own number)) ops))
  end.

End Numbers.

(** ** Trains *)

(** A train, with the calls that its class makes. *)
Record Train := mkTrain {
  train_name : string;
  train_id : Z;
  run_transition : list LayoutCall
}.

Definition DccShortAddress (addr : Z) : Z := Z.lor 0x060100000000 addr.
Definition MMAddress (addr : Z) : Z := Z.lor 0x060300000000 addr.
Definition DccLongAddress (addr : Z) : Z :=
  if addr <? 128 then Z.lor 0x06010000C000 addr else Z.lor 0x060100000000 addr.

(** The event that sets the speed of a train: [BRACZ_SPEEDS] with the low byte of
    its address. *)
Definition BRACZ_LAYOUT : Z := 0x0501010114FF0000.
Definition BRACZ_SPEEDS : Z := BRACZ_LAYOUT - 0x10000.
Definition speed_event (t : Train) : Z := Z.lor BRACZ_SPEEDS (Z.shiftl (Z.land (train_id t) 0xff) 8).

(** A layout: objects in the order of their declaration, bindings, the signals
    that its automata let routes pass, and its trains. *)
Record Layout := mkLayout {
  objects : list Object;
  layout_bindings : list Binding;
  open_signals : list string;
  trains : list Train
}.

Definition classes (l : Layout) : list (list LayoutCall) := List.map run_transition (trains l).

Definition plan_of (l : Layout) : option Plan := build_plan (objects l) (layout_bindings l) (open_signals l).

(** The variables of a train: eight of its own, which its constructor allocates,
    and those of the layout that its calls use. *)
Definition vars_of (train_id : Z) : ScheduleVars := mkSchedule train_id 0 1 2 3 4 5 6 (Some 7%nat).

Definition used_variables (c : list LayoutCall) : list string :=
  remove_dups ("reset_routes"%string :: (c ≫= call_variables)).

Definition number_in (names : list string) (name : string) : nat := 8 + index_of name names.

Definition calls_of (c : list LayoutCall) : list ScheduleCall :=
  let names := used_variables c in omap (to_call (number_in names)) c.

(** [main] sets [automata::reset_routes]. *)
Definition reset_routes_of (c : list LayoutCall) : option nat := Some (number_in (used_variables c) "reset_routes").

(** ** Where transitions lead *)

(** A transition of a train, with the turnouts that are switched for it. *)
Record Way := mkWay {
  way_from : Signal;
  way_to : Signal;
  switched : list (LayoutMagnet * bool)
}.

(** A call of [SwitchTurnout] belongs to the transition before it. *)
Definition add_call (c : LayoutCall) (l : list Way) : list Way :=
  match c with
  | LTransition source dest _ _ _ => mkWay source dest [] :: l
  | LTurnout turnout desired_state =>
      match l, magnet turnout with
      | w :: l, Some m => mkWay (way_from w) (way_to w) ((m, desired_state) :: switched w) :: l
      | _, _ => l
      end
  | _ => l
  end.

Definition ways (c : list LayoutCall) : list Way := rev (fold_left (fun l c => add_call c l) c []).

(** The magnet that moves when a magnet is switched. *)
Fixpoint root_name (m : LayoutMagnet) : string :=
  match m with Magnet name _ => name | CoupledMagnet _ original _ => root_name original end.

Fixpoint root_default (m : LayoutMagnet) : string * bool :=
  match m with Magnet name b => (name, b) | CoupledMagnet _ original _ => root_default original end.

Definition object_magnets (l : Layout) : list LayoutMagnet := omap magnet (objects l).

(** The magnets that a class of the layout switches. *)
Definition switched_roots (l : Layout) : list string :=
  classes l ≫= fun c => ways c ≫= fun w => List.map (fun p => root_name (fst p)) (switched w).

(** The magnets are as the transition wants them, and those that no train
    switches are as they were at the start. *)
Record settled (l : Layout) (w : Way) (st : string -> bool) : Prop := {
  settled_switched : forall m b, In (m, b) (switched w) -> magnet_state st m = b;
  settled_rest : forall m name b, In m (object_magnets l) -> root_default m = (name, b) ->
    ~ In name (switched_roots l) -> st name = b
}.

(** A green signal at the start of the way gives a route that ends at the signal
    at its other end. *)
Definition leads (l : Layout) (w : Way) : Prop :=
  exists p, plan_of l = Some p /\ (exists st, settled l w st) /\
    forall st, settled l w st ->
      route_end (route_fuel p) p st (signal_piece (way_from w), side_b) = Some (signal_piece (way_to w)).
