(* ===== verification/LayoutPlans.v ===== *)
(** The layouts of the bracz-layout files (src/automata), a module for each: its
    objects, how they are bound, and its trains, with the names of the source. *)

From stdpp Require Import strings.
From S2P Require Import Prelude ControlTurnouts TrainSchedule TrackPlan Layouts.

(** ** The layout of bracz-layout1i-logic.cc *)

Module Layout1i.

(** *** Objects and bindings *)

Definition IfNotPaused : Condition_ := [("is_paused"%string, false); ("reset_routes"%string, false)].
Definition Magnet_XXW1 : LayoutMagnet := Magnet "XX.W1" false.
Definition Turnout_XXW1 : Object := StandardMovableTurnout "XX.W1" Magnet_XXW1.
Definition TXXW1 : End * End := kClosedToPoint Turnout_XXW1.
Definition Magnet_XXW2 : LayoutMagnet := Magnet "XX.W2" kDKWStateCross.
Definition DKW_XXW2 : Object := StandardMovableDKW "XX.W2" Magnet_XXW2.
Definition Magnet_XXW3 : LayoutMagnet := Magnet "XX.W3" true.
Definition Turnout_XXW3 : Object := StandardMovableTurnout "XX.W3" Magnet_XXW3.
Definition TXXW3 : End * End := kThrownToPoint Turnout_XXW3.
Definition Magnet_XXW4 : LayoutMagnet := Magnet "XX.W4" false.
Definition Turnout_XXW4 : Object := StandardMovableTurnout "XX.W4" Magnet_XXW4.
Definition TXXW4 : End * End := kPointToClosed Turnout_XXW4.
Definition Magnet_W109 : LayoutMagnet := Magnet "W109" false.
Definition Turnout_W109 : Object := StandardMovableTurnout "W109" Magnet_W109.
Definition TW109 : End * End := kClosedToPoint Turnout_W109.
Definition Magnet_W209 : LayoutMagnet := Magnet "W209" kDKWStateCurved.
Definition DKW_W209 : Object := StandardMovableDKW "W209" Magnet_W209.
Definition Magnet_W116 : LayoutMagnet := Magnet "W116" false.
Definition Turnout_W116 : Object := StandardMovableTurnout "W116" Magnet_W116.
Definition TW116 : End * End := kPointToClosed Turnout_W116.
Definition Magnet_W216 : LayoutMagnet := Magnet "W216" kDKWStateCross.
Definition DKW_W216 : Object := StandardMovableDKW "W216" Magnet_W216.
Definition Magnet_W130 : LayoutMagnet := Magnet "W130" false.
Definition Turnout_W130 : Object := StandardMovableTurnout "W130" Magnet_W130.
Definition TW130 : End * End := kClosedToPoint Turnout_W130.
Definition Magnet_W230 : LayoutMagnet := CoupledMagnet "W230" Magnet_W130 false.
Definition Turnout_W230 : Object := StandardMovableTurnout "W230" Magnet_W230.
Definition TW230 : End * End := kClosedToPoint Turnout_W230.
Definition Magnet_W231 : LayoutMagnet := Magnet "W231" false.
Definition Turnout_W231 : Object := StandardMovableTurnout "W231" Magnet_W231.
Definition TW231 : End * End := kPointToClosed Turnout_W231.
Definition Block_B108 : Object := StandardBlockObject "B108".
Definition Block_B129 : Object := StandardBlockObject "B129".
Definition Block_A240 : Object := StandardBlockObject "A240".
Definition Block_A217 : Object := StandardBlockObject "A217".
Definition Block_A317 : Object := StandardBlockObject "A317".
Definition Block_A200 : Object := StandardBidirBlockObject "A200".
Definition Block_A406 : Object := StandardBidirBlockObject "A406".
Definition Block_XXB1 : Object := StandardBlockObject "XX.B1".
Definition Block_XXA2 : Object := StandardBlockObject "XX.A2".
Definition Block_XXA3 : Object := StandardBlockObject "XX.A3".
Definition ignored1 : Binding :=
  Sequence (Some (object_side Turnout_W109 side_thrown))
    [ kA2toB2 DKW_W209;
      straight Block_A406;
      TXXW4;
      straight Block_XXB1;
      TXXW1;
      straight Block_B108;
      TW109;
      TW116;
      straight Block_B129;
      TW130;
      straight Block_A240;
      TW231;
      TW230;
      straight Block_A217;
      kA1toB1 DKW_W216;
      kA1toB1 DKW_W209;
      straight Block_A200;
      kA1toB1 DKW_XXW2;
      straight Block_XXA2;
      TXXW3 ]
    (Some (object_side Turnout_XXW4 side_thrown)).

Definition ignored2 : Binding :=
  Sequence (Some (object_side Turnout_W231 side_thrown))
    [ straight Block_A317;
      kA2toB2 DKW_W216 ]
    (Some (object_side Turnout_W116 side_thrown)).

Definition ignored3 : Binding :=
  Sequence (Some (object_side Turnout_XXW1 side_thrown))
    [ kA2toB2 DKW_XXW2;
      straight Block_XXA3 ]
    (Some (object_side Turnout_XXW3 side_closed)).

Definition ignored4 : Binding :=
  Pairs
    [ (object_side Turnout_W230 side_thrown, object_side Turnout_W130 side_thrown) ].

Definition l240_to217 : string := "l240_flipflop.client.to_217".
Definition l240_to317 : string := "l240_flipflop.client.to_317".
Definition w217_from217 : string := "w217_flipflop.client.from_217".
Definition w217_from317 : string := "w217_flipflop.client.from_317".
Definition IfDKW209Free : Condition_ := IfNotPaused ++ [(any_route DKW_W209, false)].
Definition IfXXW2Free : Condition_ := IfNotPaused ++ [(any_route DKW_XXW2, false)].

(** *** Trains *)

Definition RunB108_to_A240 : list LayoutCall :=
  AddEager IfNotPaused (Fwd Block_B108) (Fwd Block_B129) ++
  AddEager IfNotPaused (Fwd Block_B129) (Fwd Block_A240).

Definition RunCycle : list LayoutCall :=
  RunB108_to_A240 ++
  AddOnPermit (Fwd Block_A240) (Fwd Block_A217) l240_to217 IfNotPaused true ++
  Switch Turnout_W231 false ++
  AddOnPermit (Fwd Block_A240) (Fwd Block_A317) l240_to317 IfNotPaused true ++
  Switch Turnout_W231 true ++
  with_lock "route_lock_WW"
    (AddOnPermit (Fwd Block_A217) (Fwd Block_A406) w217_from217 IfDKW209Free false ++
     Switch DKW_W216 kDKWStateCross ++
     Switch DKW_W209 kDKWStateCurved ++
     AddOnPermit (Fwd Block_A317) (Fwd Block_A406) w217_from317 IfDKW209Free false ++
     Switch DKW_W216 kDKWStateCurved ++
     Switch DKW_W209 kDKWStateCurved) ++
  AddEager IfNotPaused (Fwd Block_A406) (Fwd Block_XXB1) ++
  AddDirect (Fwd Block_XXB1) (Fwd Block_B108) IfNotPaused false.

Definition RunAltCycle : list LayoutCall :=
  [].

Definition CircleTrain : list LayoutCall :=
  RunCycle.

Definition IC2000Train : list LayoutCall :=
  RunB108_to_A240 ++
  AddOnPermit (Fwd Block_A240) (Fwd Block_A217) l240_to217 IfNotPaused true ++
  Switch Turnout_W231 false ++
  AddOnPermit (Fwd Block_A240) (Fwd Block_A317) l240_to317 IfNotPaused true ++
  Switch Turnout_W231 true ++
  with_lock "route_lock_WW"
    (AddOnPermit (Fwd Block_A217) (Fwd Block_A200) w217_from217 IfDKW209Free false ++
     Switch DKW_W216 kDKWStateCross ++
     Switch DKW_W209 kDKWStateCross ++
     AddOnPermit (Fwd Block_A317) (Fwd Block_A200) w217_from317 IfDKW209Free false ++
     Switch DKW_W216 kDKWStateCurved ++
     Switch DKW_W209 kDKWStateCross) ++
  AddDirect (Fwd Block_A200) (Fwd Block_XXA2) IfXXW2Free true ++
  Switch DKW_XXW2 kDKWStateCross ++
  StopAndReverse (Fwd Block_XXA2) ++
  AddDirect (Rev Block_XXA2) (Fwd Block_B108) [] false ++
  Switch DKW_XXW2 kDKWStateCurved.

Definition layout_1i_objects : list Object :=
  [ Turnout_XXW1; DKW_XXW2; Turnout_XXW3; Turnout_XXW4; Turnout_W109;
    DKW_W209; Turnout_W116; DKW_W216; Turnout_W130; Turnout_W230;
    Turnout_W231; Block_B108; Block_B129; Block_A240; Block_A217;
    Block_A317; Block_A200; Block_A406; Block_XXB1; Block_XXA2;
    Block_XXA3 ].

Definition layout_1i_trains : list Train :=
  [ mkTrain "rts_railtraction" (MMAddress 32) CircleTrain;
    mkTrain "wle_er20" (MMAddress 27) CircleTrain;
    mkTrain "Re474" (MMAddress 12) CircleTrain;
    mkTrain "Krokodil" (MMAddress 68) CircleTrain;
    mkTrain "Rheingold" (MMAddress 19) CircleTrain;
    mkTrain "Re_10_10" (DccShortAddress 4) CircleTrain;
    mkTrain "Re460_HAG" (DccShortAddress 26) CircleTrain;
    mkTrain "Re465" (DccShortAddress 47) IC2000Train;
    mkTrain "ICN" (DccShortAddress 50) IC2000Train;
    mkTrain "ICE" (MMAddress 2) IC2000Train ].

Definition layout_1i : Layout :=
  mkLayout layout_1i_objects [ignored1; ignored2; ignored3; ignored4]
    [] layout_1i_trains.

End Layout1i.

(** ** The layout of bracz-layout2a-logic.cc *)

Module Layout2a.

(** *** Objects and bindings *)

Definition IfNotPaused : Condition_ := [("is_paused"%string, false); ("reset_routes"%string, false)].
Definition IfNotShutdown : Condition_ := [("is_shutdown"%string, false)].
Definition hb_fromb1 : string := "hb_outflipflop.client.from_B1".
Definition hb_fromb2 : string := "hb_outflipflop.client.from_B2".
Definition hb_fromb3 : string := "hb_outflipflop.client.from_B3".
Definition hb_fromb4 : string := "hb_outflipflop.client.from_B4".
Definition Magnet_W230 : LayoutMagnet := Magnet "W230" true.
Definition Turnout_W230 : Object := StandardMovableTurnout "W230" Magnet_W230.
Definition TW230 : End * End := kPointToThrown Turnout_W230.
Definition Magnet_BBW1 : LayoutMagnet := Magnet "BB.W1" false.
Definition Turnout_BBW1 : Object := StandardMovableTurnout "BB.W1" Magnet_BBW1.
Definition Magnet_BBW2 : LayoutMagnet := Magnet "BB.W2" false.
Definition Turnout_BBW2 : Object := StandardMovableTurnout "BB.W2" Magnet_BBW2.
Definition Magnet_HBW1 : LayoutMagnet := Magnet "HB.W1" false.
Definition Turnout_HBW1 : Object := StandardMovableTurnout "HB.W1" Magnet_HBW1.
Definition THBW1 : End * End := kPointToClosed Turnout_HBW1.
Definition Magnet_HBW2 : LayoutMagnet := Magnet "HB.W2" false.
Definition DKW_HBW2 : Object := StandardMovableDKW "HB.W2" Magnet_HBW2.
Definition THBW2Main : End * End := kB1toA1 DKW_HBW2.
Definition THBW2Cross : End * End := kA2toB2 DKW_HBW2.
Definition Magnet_HBW3 : LayoutMagnet := Magnet "HB.W3" false.
Definition Turnout_HBW3 : Object := StandardMovableTurnout "HB.W3" Magnet_HBW3.
Definition THBW3 : End * End := kPointToClosed Turnout_HBW3.
Definition Magnet_HBW4 : LayoutMagnet := Magnet "HB.W4" false.
Definition DKW_HBW4 : Object := StandardMovableDKW "HB.W4" Magnet_HBW4.
Definition THBW4Main : End * End := kB1toA1 DKW_HBW4.
Definition THBW4Cross : End * End := kA2toB2 DKW_HBW4.
Definition Magnet_HBW5 : LayoutMagnet := Magnet "HB.W5" false.
Definition Turnout_HBW5 : Object := StandardMovableTurnout "HB.W5" Magnet_HBW5.
Definition THBW5 : End * End := kPointToClosed Turnout_HBW5.
Definition Magnet_HBW6 : LayoutMagnet := Magnet "HB.W6" false.
Definition Turnout_HBW6 : Object := StandardMovableTurnout "HB.W6" Magnet_HBW6.
Definition THBW6 : End * End := kClosedToPoint Turnout_HBW6.
Definition Magnet_HBW7 : LayoutMagnet := Magnet "HB.W7" false.
Definition Turnout_HBW7 : Object := StandardMovableTurnout "HB.W7" Magnet_HBW7.
Definition THBW7 : End * End := kClosedToPoint Turnout_HBW7.
Definition Magnet_HBW8 : LayoutMagnet := CoupledMagnet "HB.W8" Magnet_HBW7 false.
Definition Turnout_HBW8 : Object := StandardMovableTurnout "HB.W8" Magnet_HBW8.
Definition THBW8 : End * End := kClosedToPoint Turnout_HBW8.
Definition Det_239 : Object := StandardMiddleDetector "Det239".
Definition Stub_HBB1 : Object := StubBlockObject "HB.B1" false.
Definition Stub_HBB2 : Object := StubBlockObject "HB.B2" false.
Definition Stub_HBB3 : Object := StubBlockObject "HB.B3" false.
Definition Stub_HBB4 : Object := StubBlockObject "HB.B4" false.
Definition Stub_BBB1 : Object := StubBlockObject "BB.B1" false.
Definition Stub_BBB2 : Object := StubBlockObject "BB.B2" false.
Definition Stub_BBB3 : Object := StubBlockObject "BB.B3" false.
Definition Block_A139 : Object := StandardBlockObject "A139".
Definition Block_A149 : Object := StandardBlockObject "A149".
Definition Block_A159 : Object := StandardBlockObject "A159".
Definition Block_A167 : Object := StandardBlockObject "A167".
Definition Block_A179 : Object := StandardBlockObject "A179".
Definition Block_B271 : Object := StandardBlockObject "B271".
Definition Block_B261 : Object := StandardBlockObject "B261".
Definition Block_B251 : Object := StandardBlockObject "B251".
Definition Block_B241 : Object := StandardBlockObject "B241".
Definition Block_B231 : Object := StandardBlockObject "B231".
Definition Magnet_W250 : LayoutMagnet := Magnet "W250" false.
Definition Turnout_W250 : Object := StandardMovableTurnout "W250" Magnet_W250.
Definition TW250 : End * End := kClosedToPoint Turnout_W250.
Definition Magnet_W150 : LayoutMagnet := CoupledMagnet "W150" Magnet_W250 false.
Definition Turnout_W150 : Object := StandardMovableTurnout "W150" Magnet_W150.
Definition TW150 : End * End := kClosedToPoint Turnout_W150.
Definition Magnet_W159 : LayoutMagnet := Magnet "W159" false.
Definition Turnout_W159 : Object := StandardMovableTurnout "W159" Magnet_W159.
Definition TW159 : End * End := kPointToClosed Turnout_W159.
Definition Magnet_W161 : LayoutMagnet := CoupledMagnet "W161" Magnet_W159 false.
Definition Turnout_W161 : Object := StandardMovableTurnout "W161" Magnet_W161.
Definition TW161 : End * End := kClosedToPoint Turnout_W161.
Definition Magnet_DKW260 : LayoutMagnet := CoupledMagnet "DKW260" Magnet_W159 true.
Definition DKW_260 : Object := StandardMovableDKW "DKW260" Magnet_DKW260.
Definition TDKW260Main : End * End := kA2toB1 DKW_260.
Definition Magnet_W270 : LayoutMagnet := Magnet "W270" false.
Definition Turnout_W270 : Object := StandardMovableTurnout "W270" Magnet_W270.
Definition TW270 : End * End := kPointToClosed Turnout_W270.
Definition Magnet_W170 : LayoutMagnet := CoupledMagnet "W170" Magnet_W270 false.
Definition Turnout_W170 : Object := StandardMovableTurnout "W170" Magnet_W170.
Definition TW170 : End * End := kPointToClosed Turnout_W170.
Definition Magnet_W180 : LayoutMagnet := Magnet "W180" true.
Definition Turnout_W180 : Object := StandardMovableTurnout "W180" Magnet_W180.
Definition TW180 : End * End := kPointToThrown Turnout_W180.
Definition Magnet_W280 : LayoutMagnet := Magnet "W280" true.
Definition Turnout_W280 : Object := StandardMovableTurnout "W280" Magnet_W280.
Definition TW280 : End * End := kThrownToPoint Turnout_W280.
Definition Magnet_YDW1 : LayoutMagnet := Magnet "YD.W1" false.
Definition Turnout_YDW1 : Object := StandardMovableTurnout "YD.W1" Magnet_YDW1.
Definition Stub_Yex : Object := StubBlockObject "YD.Ex" false.
Definition ignored1 : Binding :=
  Sequence (Some (object_side Turnout_HBW1 side_thrown))
    [ THBW2Cross;
      THBW6 ]
    (Some (entry Stub_HBB1)).

Definition ignored1a : Binding :=
  Sequence (Some (object_side Turnout_HBW3 side_thrown))
    [ THBW4Cross;
      THBW5 ]
    (Some (entry Stub_HBB3)).

Definition ignored2 : Binding :=
  Sequence (Some (object_side Block_B241 side_b))
    [ THBW1;
      THBW3;
      straight Det_239;
      THBW8;
      straight Block_B231;
      TW230;
      straight Block_A139;
      THBW7;
      THBW4Main;
      THBW2Main;
      straight Block_A149;
      TW150;
      straight Block_A159;
      TW159;
      TW161;
      straight Block_A167;
      TW170;
      straight Block_A179;
      TW180;
      TW280;
      straight Block_B271;
      TW270;
      straight Block_B261;
      TDKW260Main;
      straight Block_B251;
      TW250 ]
    (Some (object_side Block_B241 side_a)).

Definition ignored3 : Binding :=
  Pairs
    [ (entry Stub_HBB4, object_side Turnout_HBW5 side_thrown);
      (entry Stub_HBB2, object_side Turnout_HBW6 side_thrown);
      (object_side Turnout_W250 side_thrown, object_side Turnout_W150 side_thrown);
      (object_side Turnout_W159 side_thrown, object_side DKW_260 point_b2);
      (object_side Turnout_W161 side_thrown, object_side DKW_260 point_a1);
      (object_side Turnout_W270 side_thrown, object_side Turnout_W170 side_thrown);
      (object_side Turnout_W280 side_closed, object_side Turnout_YDW1 side_thrown);
      (object_side Turnout_YDW1 side_closed, object_side Turnout_W180 side_closed);
      (object_side Turnout_YDW1 side_points, entry Stub_Yex);
      (object_side Turnout_W230 side_closed, object_side Turnout_BBW1 side_points);
      (object_side Turnout_BBW1 side_closed, object_side Turnout_BBW2 side_points);
      (object_side Turnout_BBW2 side_closed, entry Stub_BBB1);
      (object_side Turnout_BBW2 side_thrown, entry Stub_BBB2);
      (object_side Turnout_BBW1 side_thrown, entry Stub_BBB3);
      (object_side Turnout_HBW7 side_thrown, object_side Turnout_HBW8 side_thrown) ].

Definition IfHBBothDKWFreeOut : Condition_ := IfNotPaused ++ IfNotShutdown ++ [(any_route DKW_HBW4, false); (any_route DKW_HBW2, false)].
Definition IfHBDKW2FreeIn : Condition_ := IfNotPaused ++ [(any_route DKW_HBW2, false)].
Definition IfHBDKW2FreeOut : Condition_ := IfNotPaused ++ IfNotShutdown ++ [(any_route DKW_HBW2, false)].
Definition IfHBDKW4FreeIn : Condition_ := IfNotPaused ++ [(any_route DKW_HBW4, false)].

(** *** Trains *)

Definition RunLoopHB : list LayoutCall :=
  AddEager IfNotPaused (Fwd Block_B231) (Fwd Block_A139).

Definition RunDown : list LayoutCall :=
  AddEager IfNotPaused (Fwd Block_A149) (Fwd Block_A159) ++
  AddEager IfNotPaused (Fwd Block_A159) (Fwd Block_A167) ++
  Switch Turnout_W159 false ++
  AddEager IfNotPaused (Fwd Block_A167) (Fwd Block_A179) ++
  Switch Turnout_W170 false.

Definition RunUp : list LayoutCall :=
  AddEager IfNotPaused (Fwd Block_B271) (Fwd Block_B261) ++
  Switch Turnout_W170 false ++
  AddEager IfNotPaused (Fwd Block_B261) (Fwd Block_B251) ++
  Switch Turnout_W159 false ++
  AddEager IfNotPaused (Fwd Block_B251) (Fwd Block_B241).

Definition RunLoopLayout : list LayoutCall :=
  RunDown ++
  AddDirect (Fwd Block_A179) (Fwd Block_B271) IfNotPaused false ++
  Switch Turnout_W180 true ++
  RunUp.

Definition RunCycle : list LayoutCall :=
  RunLoopLayout ++
  with_lock "route_lock_HB"
    (AddDirect (Fwd Block_B241) (Fwd Block_B231) IfNotPaused false ++
     Switch Turnout_HBW1 false ++
     Switch Turnout_HBW3 false) ++
  RunLoopHB ++
  with_lock "route_lock_HB"
    (AddDirect (Fwd Block_A139) (Fwd Block_A149) IfHBBothDKWFreeOut false ++
     Switch DKW_HBW4 kDKWStateCross ++
     Switch DKW_HBW2 kDKWStateCross).

Definition RunAltCycle : list LayoutCall :=
  [].

Definition CircleTrain : list LayoutCall :=
  RunCycle.

Definition IC2000Train : list LayoutCall :=
  RunLoopLayout ++
  with_lock "route_lock_HB"
    (AddDirect (Fwd Block_B241) (Fwd Stub_HBB1) IfHBDKW2FreeIn false ++
     Switch Turnout_HBW1 true ++
     Switch DKW_HBW2 kDKWStateCross ++
     Switch Turnout_HBW6 false ++
     StopAndReverse (Fwd Stub_HBB1) ++
     AddOnPermit (Rev Stub_HBB1) (Fwd Block_A149) hb_fromb1 IfHBDKW2FreeOut false ++
     Switch Turnout_HBW6 false ++
     Switch DKW_HBW2 kDKWStateCurved).

Definition PassengerTrainTrack2 : list LayoutCall :=
  RunLoopLayout ++
  with_lock "route_lock_HB"
    (AddDirect (Fwd Block_B241) (Fwd Stub_HBB2) IfHBDKW2FreeIn false ++
     Switch Turnout_HBW1 true ++
     Switch DKW_HBW2 kDKWStateCross ++
     Switch Turnout_HBW6 true ++
     StopAndReverse (Fwd Stub_HBB2) ++
     AddOnPermit (Rev Stub_HBB2) (Fwd Block_A149) hb_fromb2 IfHBDKW2FreeOut false ++
     Switch Turnout_HBW6 true ++
     Switch DKW_HBW2 kDKWStateCurved).

Definition PassengerTrainTrack4 : list LayoutCall :=
  RunLoopLayout ++
  with_lock "route_lock_HB"
    (AddDirect (Fwd Block_B241) (Fwd Stub_HBB4) IfHBDKW4FreeIn false ++
     Switch Turnout_HBW1 false ++
     Switch Turnout_HBW3 true ++
     Switch DKW_HBW4 kDKWStateCross ++
     Switch Turnout_HBW5 true ++
     StopAndReverse (Fwd Stub_HBB4) ++
     AddOnPermit (Rev Stub_HBB4) (Fwd Block_A149) hb_fromb4 IfHBBothDKWFreeOut false ++
     Switch Turnout_HBW5 true ++
     Switch DKW_HBW4 kDKWStateCurved ++
     Switch DKW_HBW2 kDKWStateCross).

Definition IC2000TrainB : list LayoutCall :=
  [].

Definition FreightTrain : list LayoutCall :=
  RunCycle.

Definition layout_2a_objects : list Object :=
  [ Turnout_W230; Turnout_BBW1; Turnout_BBW2; Turnout_HBW1; DKW_HBW2;
    Turnout_HBW3; DKW_HBW4; Turnout_HBW5; Turnout_HBW6; Turnout_HBW7;
    Turnout_HBW8; Det_239; Stub_HBB1; Stub_HBB2; Stub_HBB3;
    Stub_HBB4; Stub_BBB1; Stub_BBB2; Stub_BBB3; Block_A139;
    Block_A149; Block_A159; Block_A167; Block_A179; Block_B271;
    Block_B261; Block_B251; Block_B241; Block_B231; Turnout_W250;
    Turnout_W150; Turnout_W159; Turnout_W161; DKW_260; Turnout_W270;
    Turnout_W170; Turnout_W180; Turnout_W280; Turnout_YDW1; Stub_Yex ].

Definition layout_2a_trains : list Train :=
  [ mkTrain "Re460-TSR" (DccShortAddress 22) IC2000Train;
    mkTrain "ICE2" (DccShortAddress 40) PassengerTrainTrack2;
    mkTrain "Re465" (DccShortAddress 47) PassengerTrainTrack4;
    mkTrain "ICN" (DccShortAddress 50) IC2000TrainB;
    mkTrain "BDe-4/4" (DccShortAddress 38) IC2000TrainB;
    mkTrain "Re620" (DccShortAddress 5) FreightTrain;
    mkTrain "Re420" (DccShortAddress 4) FreightTrain;
    mkTrain "Rheingold" (MMAddress 19) FreightTrain;
    mkTrain "rts_railtraction" (DccShortAddress 32) FreightTrain;
    mkTrain "wle_er20" (DccShortAddress 27) FreightTrain;
    mkTrain "Re474" (MMAddress 12) FreightTrain;
    mkTrain "Re460_HAG" (DccShortAddress 26) FreightTrain;
    mkTrain "BR290" (MMAddress 29) FreightTrain;
    mkTrain "Krokodil" (MMAddress 68) FreightTrain ].

Definition layout_2a : Layout :=
  mkLayout layout_2a_objects [ignored1; ignored1a; ignored2; ignored3]
    [] layout_2a_trains.

End Layout2a.

(** ** The layout of bracz-layout2b-logic.cc *)

Module Layout2b.

(** *** Objects and bindings *)

Definition IfNotPaused : Condition_ := [("is_paused"%string, false); ("reset_routes"%string, false)].
Definition IfNotShutdown : Condition_ := [("is_shutdown"%string, false)].
Definition xx_tob1 : string := "xx_flipflop.client.to_B1".
Definition xx_tob2 : string := "xx_flipflop.client.to_B2".
Definition xx_tob3 : string := "xx_flipflop.client.to_B3".
Definition xx_tob4 : string := "xx_flipflop.client.to_B4".
Definition xe_fromb1 : string := "xe_flipflop.client.from_B1".
Definition xe_fromb2 : string := "xe_flipflop.client.from_B2".
Definition xe_fromb3 : string := "xe_flipflop.client.from_B3".
Definition xe_fromb4 : string := "xe_flipflop.client.from_B4".
Definition yy_toa1 : string := "yy_flipflop.client.to_A1".
Definition yy_toa2 : string := "yy_flipflop.client.to_A2".
Definition yy_toa3 : string := "yy_flipflop.client.to_A3".
Definition yy_toa4 : string := "yy_flipflop.client.to_A4".
Definition ye_froma1 : string := "ye_flipflop.client.from_A1".
Definition ye_froma2 : string := "ye_flipflop.client.from_A2".
Definition ye_froma3 : string := "ye_flipflop.client.from_A3".
Definition ye_froma4 : string := "ye_flipflop.client.from_A4".
Definition Magnet_XXW1 : LayoutMagnet := Magnet "XX.W1" true.
Definition Turnout_XXW1 : Object := StandardMovableTurnout "XX.W1" Magnet_XXW1.
Definition TXXW1 : End * End := kThrownToPoint Turnout_XXW1.
Definition Magnet_XXW2 : LayoutMagnet := CoupledMagnet "XX.W2" Magnet_XXW1 true.
Definition Turnout_XXW2 : Object := StandardMovableTurnout "XX.W2" Magnet_XXW2.
Definition TXXW2 : End * End := kClosedToPoint Turnout_XXW2.
Definition Magnet_XXW3 : LayoutMagnet := Magnet "XX.W3" false.
Definition Turnout_XXW3 : Object := StandardMovableTurnout "XX.W3" Magnet_XXW3.
Definition TXXW3 : End * End := kPointToClosed Turnout_XXW3.
Definition Magnet_XXW4 : LayoutMagnet := Magnet "XX.W4" true.
Definition Turnout_XXW4 : Object := StandardMovableTurnout "XX.W4" Magnet_XXW4.
Definition TXXW4 : End * End := kPointToThrown Turnout_XXW4.
Definition Magnet_XXW5 : LayoutMagnet := CoupledMagnet "XX.W5" Magnet_XXW3 false.
Definition Turnout_XXW5 : Object := StandardMovableTurnout "XX.W5" Magnet_XXW5.
Definition TXXW5 : End * End := kPointToClosed Turnout_XXW5.
Definition Magnet_XXW6 : LayoutMagnet := Magnet "XX.W6" false.
Definition Turnout_XXW6 : Object := StandardMovableTurnout "XX.W6" Magnet_XXW6.
Definition TXXW6 : End * End := kClosedToPoint Turnout_XXW6.
Definition Stub_XXB1 : Object := StubBlockObject "XX.B1" false.
Definition Stub_XXB2 : Object := StubBlockObject "XX.B2" false.
Definition Stub_XXB3 : Object := StubBlockObject "XX.B3" false.
Definition Block_XXB4 : Object := StandardBlockObject "XX.B4".
Definition xxb4_nostop : list string := [signal (object_name Block_XXB4); rsignal (object_name Block_XXB4)].
Definition Turnout_ZZW1 : Object := StandardFixedTurnout "ZZ.W1" TURNOUT_THROWN.
Definition Block_ZZB2 : Object := StandardBlockObject "ZZ.B2".
Definition Block_ZZA1 : Object := StandardBlockObject "ZZ.A1".
Definition TZZW1 : End * End := kPointToThrown Turnout_ZZW1.
Definition Block_A461 : Object := StandardBlockObject "A461".
Definition Block_B369 : Object := StandardBlockObject "B369".
Definition Magnet_W360 : LayoutMagnet := Magnet "W360" true.
Definition Turnout_W360 : Object := StandardMovableTurnout "W360" Magnet_W360.
Definition TW360 : End * End := kClosedToPoint Turnout_W360.
Definition Magnet_W349 : LayoutMagnet := Magnet "W349" false.
Definition Turnout_W349 : Object := StandardMovableTurnout "W349" Magnet_W349.
Definition TW349 : End * End := kPointToClosed Turnout_W349.
Definition Mdl450 : Object := StandardMiddleLongTrack "Mdl450".
Definition Block_A441 : Object := StandardBlockObject "A441".
Definition Block_A431 : Object := StandardBlockObject "A431".
Definition Magnet_W440 : LayoutMagnet := Magnet "W440" true.
Definition Turnout_W440 : Object := StandardMovableTurnout "W440" Magnet_W440.
Definition TW440 : End * End := kThrownToPoint Turnout_W440.
Definition Magnet_W340 : LayoutMagnet := CoupledMagnet "W340" Magnet_W440 true.
Definition Turnout_W340 : Object := StandardMovableTurnout "W340" Magnet_W340.
Definition TW340 : End * End := kClosedToPoint Turnout_W340.
Definition Block_B349 : Object := StandardBlockObject "B349".
Definition Block_B339 : Object := StandardBlockObject "B339".
Definition Magnet_YYW2 : LayoutMagnet := Magnet "YY.W2" false.
Definition Turnout_YYW2 : Object := StandardMovableTurnout "YY.W2" Magnet_YYW2.
Definition TYYW2 : End * End := kPointToClosed Turnout_YYW2.
Definition Magnet_YYW1 : LayoutMagnet := CoupledMagnet "YY.W1" Magnet_YYW2 true.
Definition Turnout_YYW1 : Object := StandardMovableTurnout "YY.W1" Magnet_YYW1.
Definition TYYW1 : End * End := kPointToThrown Turnout_YYW1.
Definition Block_YYA13 : Object := StandardBlockObject "YY.A13".
Definition Block_YYB22 : Object := StandardBlockObject "YY.B22".
Definition Turnout_YYW3 : Object := StandardFixedTurnout "YY.W3" TURNOUT_CLOSED.
Definition TYYW3 : End * End := kClosedToPoint Turnout_YYW3.
Definition Turnout_YYW9 : Object := StandardFixedTurnout "YY.W9" TURNOUT_CLOSED.
Definition TYYW9 : End * End := kThrownToPoint Turnout_YYW9.
Definition Magnet_YYW4 : LayoutMagnet := Magnet "YY.W4" true.
Definition Turnout_YYW4 : Object := StandardMovableTurnout "YY.W4" Magnet_YYW4.
Definition TYYW4 : End * End := kClosedToPoint Turnout_YYW4.
Definition Turnout_YYW5 : Object := StandardFixedTurnout "YY.W5" TURNOUT_THROWN.
Definition TYYW5 : End * End := kThrownToPoint Turnout_YYW5.
Definition Magnet_YYW6 : LayoutMagnet := Magnet "YY.W6" false.
Definition Turnout_YYW6 : Object := StandardMovableTurnout "YY.W6" Magnet_YYW6.
Definition TYYW6 : End * End := kPointToClosed Turnout_YYW6.
Definition Magnet_YYW7 : LayoutMagnet := Magnet "YY.W7" true.
Definition Turnout_YYW7 : Object := StandardMovableTurnout "YY.W7" Magnet_YYW7.
Definition TYYW7 : End * End := kPointToClosed Turnout_YYW7.
Definition Magnet_YYW8 : LayoutMagnet := Magnet "YY.W8" false.
Definition Turnout_YYW8 : Object := StandardMovableTurnout "YY.W8" Magnet_YYW8.
Definition TYYW8 : End * End := kPointToClosed Turnout_YYW8.
Definition Stub_YYA1 : Object := StubBlockObject "YY.A1" false.
Definition Stub_YYA2 : Object := StubBlockObject "YY.A2" false.
Definition Stub_YYA3 : Object := StubBlockObject "YY.A3" false.
Definition Block_YYA4 : Object := StandardBlockObject "YY.A4".
Definition yya4_nostop : list string := [signal (object_name Block_YYA4); rsignal (object_name Block_YYA4)].
Definition Stub_YYA33 : Object := StubBlockObject "YY.A33" false.
Definition Block_YYB42 : Object := StandardBlockObject "YY.B42".
Definition Turnout_QQW1 : Object := StandardFixedTurnout "QQ.W1" TURNOUT_CLOSED.
Definition TQQW1 : End * End := kPointToClosed Turnout_QQW1.
Definition Turnout_QQW2 : Object := StandardFixedTurnout "QQ.W2" TURNOUT_THROWN.
Definition TQQW2 : End * End := kPointToThrown Turnout_QQW2.
Definition Stub_QQA1 : Object := StubBlockObject "QQ.A1" false.
Definition Block_QQA2 : Object := StandardBlockObject "QQ.A2".
Definition Block_QQB3 : Object := StandardBlockObject "QQ.B3".
Definition ignored1 : Binding :=
  Pairs
    [ (entry Stub_XXB1, object_side Turnout_XXW6 side_thrown);
      (entry Stub_XXB3, object_side Turnout_XXW4 side_closed);
      (object_side Turnout_XXW5 side_thrown, object_side Turnout_XXW3 side_thrown);
      (object_side Turnout_XXW1 side_closed, object_side Turnout_XXW2 side_thrown);
      (object_side Turnout_YYW7 side_thrown, entry Stub_YYA3);
      (object_side Turnout_YYW8 side_thrown, entry Stub_YYA2);
      (object_side Turnout_YYW1 side_closed, object_side Turnout_YYW2 side_thrown);
      (object_side Turnout_YYW9 side_closed, entry Stub_YYA33);
      (object_side Turnout_QQW2 side_closed, entry Stub_QQA1);
      (object_side Turnout_W340 side_thrown, object_side Turnout_W440 side_closed) ].

Definition ignored2 : Binding :=
  Sequence (Some (entry Stub_XXB2))
    [ TXXW6;
      TXXW5;
      TXXW1;
      straight Block_A461;
      TW360;
      straight Mdl450;
      TW349;
      straight Block_A441;
      TW440;
      straight Block_A431;
      TYYW1;
      straight Block_YYA13;
      TYYW4;
      TYYW5;
      TYYW6;
      TYYW7;
      TYYW8 ]
    (Some (entry Stub_YYA1)).

Definition ignored4 : Binding :=
  Sequence (Some (object_side Turnout_YYW4 side_thrown))
    [ straight Block_YYB22;
      TYYW3;
      TYYW2;
      straight Block_B339;
      TW340;
      straight Block_B349 ]
    (Some (object_side Turnout_W349 side_thrown)).

Definition ignored3 : Binding :=
  Sequence (Some (object_side Turnout_W360 side_thrown))
    [ straight Block_B369;
      TXXW2;
      TXXW3;
      TXXW4;
      straight Block_XXB4;
      TZZW1;
      straight Block_ZZB2;
      straight Block_ZZA1 ]
    (Some (object_side Turnout_ZZW1 side_closed)).

Definition ignored5 : Binding :=
  Sequence (Some (object_side Turnout_YYW5 side_closed))
    [ straight Block_YYB42;
      TYYW9 ]
    (Some (object_side Turnout_YYW3 side_thrown)).

Definition ignored6 : Binding :=
  Sequence (Some (object_side Turnout_YYW6 side_thrown))
    [ straight Block_YYA4;
      TQQW1;
      TQQW2;
      straight Block_QQA2;
      straight Block_QQB3 ]
    (Some (object_side Turnout_QQW1 side_thrown)).

Definition Block_EntryToXX : Object := Block_B369.
Definition Block_ExitFromXX : Object := Block_A461.
Definition Block_EntryToYY : Object := Block_YYA13.
Definition Block_ExitFromYY : Object := Block_YYB22.
Definition IfXX12EntryFree : Condition_ := IfNotPaused ++ [(any_route Turnout_XXW2, false); (any_route Turnout_XXW4, false)].
Definition IfXX34EntryFree : Condition_ := IfNotPaused ++ [(any_route Turnout_XXW2, false); (any_route Turnout_XXW6, false)].
Definition IfXX12ExitFree : Condition_ := IfNotPaused ++ IfNotShutdown ++ [(any_route Turnout_XXW1, false); (any_route Turnout_XXW2, false); (any_route Turnout_XXW4, false)].
Definition IfZZExitFree : Condition_ := IfNotPaused ++ IfNotShutdown ++ [(any_route Turnout_XXW1, false); (any_route Turnout_XXW2, false); (any_route Turnout_XXW4, false); (any_route Turnout_ZZW1, false)].
Definition IfXX34ExitFree : Condition_ := IfNotPaused ++ IfNotShutdown ++ [(any_route Turnout_XXW1, false); (any_route Turnout_XXW6, false)].
Definition IfYYEntryFree : Condition_ := IfNotPaused ++ [(any_route Turnout_YYW6, false)].
Definition IfQQEntryFree : Condition_ := IfNotPaused ++ [(any_route Turnout_YYW6, false); (any_route Turnout_QQW1, false)].
Definition IfYYExitFree : Condition_ := IfNotPaused ++ IfNotShutdown ++ [(any_route Turnout_YYW6, false)].
Definition IfQQExitFree : Condition_ := IfNotPaused ++ IfNotShutdown ++ [(any_route Turnout_YYW6, false); (any_route Turnout_QQW1, false)].
Definition If355Free : Condition_ := IfNotPaused ++ [(any_route Turnout_W360, false)].

(** *** Trains *)

Definition RunXtoY : list LayoutCall :=
  AddDirect (Fwd Block_A461) (Fwd Block_A441) If355Free false ++
  AddEager IfNotPaused (Fwd Block_A441) (Fwd Block_A431) ++
  AddEager IfNotPaused (Fwd Block_A431) (Fwd Block_YYA13).

Definition RunYtoX : list LayoutCall :=
  AddEager IfNotPaused (Fwd Block_YYB22) (Fwd Block_B339) ++
  AddEager IfNotPaused (Fwd Block_B339) (Fwd Block_B349) ++
  AddDirect (Fwd Block_B349) (Fwd Block_B369) If355Free false.

Definition RunStubXX : list LayoutCall :=
  with_lock "route_lock_XX"
    (AddOnPermit (Fwd Block_EntryToXX) (Fwd Stub_XXB3) xx_tob3 IfXX12EntryFree false ++
     Switch Turnout_XXW3 false ++
     Switch Turnout_XXW4 false ++
     StopAndReverse (Fwd Stub_XXB3) ++
     AddOnPermit (Fwd Block_EntryToXX) (Fwd Stub_XXB2) xx_tob2 IfXX34EntryFree false ++
     Switch Turnout_XXW3 true ++
     Switch Turnout_XXW6 false ++
     StopAndReverse (Fwd Stub_XXB2) ++
     AddOnPermit (Fwd Block_EntryToXX) (Fwd Stub_XXB1) xx_tob1 IfXX34EntryFree false ++
     Switch Turnout_XXW3 true ++
     Switch Turnout_XXW6 true ++
     StopAndReverse (Fwd Stub_XXB1) ++
     AddOnPermit (Rev Stub_XXB3) (Fwd Block_ExitFromXX) xe_fromb3 IfXX12ExitFree false ++
     Switch Turnout_XXW2 true ++
     AddOnPermit (Rev Stub_XXB2) (Fwd Block_ExitFromXX) xe_fromb2 IfXX34ExitFree false ++
     Switch Turnout_XXW5 false ++
     AddOnPermit (Rev Stub_XXB1) (Fwd Block_ExitFromXX) xe_fromb1 IfXX34ExitFree false ++
     Switch Turnout_XXW5 false).

Definition RunLoopXX : list LayoutCall :=
  with_lock "route_lock_XX"
    (AddDirect (Fwd Block_EntryToXX) (Fwd Block_ZZB2) IfXX12EntryFree false ++
     Switch Turnout_XXW3 false ++
     Switch Turnout_XXW4 true) ++
  AddEager IfNotPaused (Fwd Block_ZZB2) (Fwd Block_ZZA1) ++
  with_lock "route_lock_XX"
    (AddOnPermit (Fwd Block_ZZA1) (Fwd Block_ExitFromXX) xe_fromb4 IfZZExitFree false ++
     Switch Turnout_XXW2 true).

Definition RunStubYY : list LayoutCall :=
  with_lock "route_lock_YY"
    (AddOnPermit (Fwd Block_EntryToYY) (Fwd Stub_YYA3) yy_toa3 IfYYEntryFree false ++
     Switch Turnout_YYW6 false ++
     Switch Turnout_YYW7 true ++
     StopAndReverse (Fwd Stub_YYA3) ++
     AddOnPermit (Fwd Block_EntryToYY) (Fwd Stub_YYA2) yy_toa2 IfYYEntryFree false ++
     Switch Turnout_YYW6 false ++
     Switch Turnout_YYW7 false ++
     Switch Turnout_YYW8 true ++
     StopAndReverse (Fwd Stub_YYA2) ++
     AddOnPermit (Fwd Block_EntryToYY) (Fwd Stub_YYA1) yy_toa1 IfYYEntryFree false ++
     Switch Turnout_YYW6 false ++
     Switch Turnout_YYW7 false ++
     Switch Turnout_YYW8 false ++
     StopAndReverse (Fwd Stub_YYA1) ++
     AddOnPermit (Rev Stub_YYA3) (Fwd Block_ExitFromYY) ye_froma3 IfYYExitFree false ++
     Switch Turnout_YYW4 true ++
     AddOnPermit (Rev Stub_YYA2) (Fwd Block_ExitFromYY) ye_froma2 IfYYExitFree false ++
     Switch Turnout_YYW4 true ++
     AddOnPermit (Rev Stub_YYA1) (Fwd Block_ExitFromYY) ye_froma1 IfYYExitFree false ++
     Switch Turnout_YYW4 true ++
     ClearVars).

Definition RunLoopYY : list LayoutCall :=
  with_lock "route_lock_YY"
    (AddDirect (Fwd Block_EntryToYY) (Fwd Block_QQA2) IfQQEntryFree false ++
     Switch Turnout_YYW6 true) ++
  AddEager IfNotPaused (Fwd Block_QQA2) (Fwd Block_QQB3) ++
  with_lock "route_lock_YY"
    (AddOnPermit (Fwd Block_QQB3) (Fwd Block_ExitFromYY) ye_froma4 IfQQExitFree false ++
     Switch Turnout_YYW4 true).

Definition RunCycle : list LayoutCall :=
  [].

Definition RunAltCycle : list LayoutCall :=
  [].

Definition CircleTrain : list LayoutCall :=
  RunCycle.

Definition IC2000Train : list LayoutCall :=
  RunXtoY ++
  RunStubYY ++
  RunYtoX ++
  RunStubXX.

Definition IC2000TrainB : list LayoutCall :=
  RunXtoY ++
  RunStubYY ++
  RunYtoX ++
  RunStubXX.

Definition FreightTrain : list LayoutCall :=
  RunXtoY ++
  RunLoopYY ++
  RunYtoX ++
  RunLoopXX.

Definition layout_2b_objects : list Object :=
  [ Turnout_XXW1; Turnout_XXW2; Turnout_XXW3; Turnout_XXW4; Turnout_XXW5;
    Turnout_XXW6; Stub_XXB1; Stub_XXB2; Stub_XXB3; Block_XXB4;
    Turnout_ZZW1; Block_ZZB2; Block_ZZA1; Block_A461; Block_B369;
    Turnout_W360; Turnout_W349; Mdl450; Block_A441; Block_A431;
    Turnout_W440; Turnout_W340; Block_B349; Block_B339; Turnout_YYW2;
    Turnout_YYW1; Block_YYA13; Block_YYB22; Turnout_YYW3; Turnout_YYW9;
    Turnout_YYW4; Turnout_YYW5; Turnout_YYW6; Turnout_YYW7; Turnout_YYW8;
    Stub_YYA1; Stub_YYA2; Stub_YYA3; Block_YYA4; Stub_YYA33;
    Block_YYB42; Turnout_QQW1; Turnout_QQW2; Stub_QQA1; Block_QQA2;
    Block_QQB3 ].

Definition layout_2b_trains : list Train :=
  [ mkTrain "Re460-TSR" (DccShortAddress 22) IC2000TrainB;
    mkTrain "ICE2" (DccShortAddress 40) IC2000Train;
    mkTrain "Re465" (DccShortAddress 47) IC2000Train;
    mkTrain "ICN" (DccShortAddress 50) IC2000Train;
    mkTrain "BDe-4/4" (DccShortAddress 38) IC2000Train;
    mkTrain "Re620" (DccShortAddress 5) FreightTrain;
    mkTrain "Re420" (DccShortAddress 4) FreightTrain;
    mkTrain "Rheingold" (MMAddress 19) FreightTrain;
    mkTrain "rts_railtraction" (DccShortAddress 32) FreightTrain;
    mkTrain "wle_er20" (DccShortAddress 27) FreightTrain;
    mkTrain "Re474" (MMAddress 12) FreightTrain;
    mkTrain "Re460_HAG" (DccShortAddress 26) FreightTrain ].

Definition layout_2b : Layout :=
  mkLayout layout_2b_objects [ignored1; ignored2; ignored4; ignored3; ignored5; ignored6]
    (xxb4_nostop ++ yya4_nostop) layout_2b_trains.

End Layout2b.

(** ** The layout of bracz-layout3h-logic.cc *)

Module Layout3h.

(** *** Objects and bindings *)

Definition IfNotPaused : Condition_ := [("is_paused"%string, false); ("reset_routes"%string, false)].
Definition Magnet_WWW1 : LayoutMagnet := Magnet "WW.W1" true.
Definition Turnout_WWW1 : Object := StandardMovableTurnout "WW.W1" Magnet_WWW1.
Definition Magnet_WWW3 : LayoutMagnet := Magnet "WW.W3" kDKWStateCurved.
Definition DKW_WWW3 : Object := StandardMovableDKW "WW.W3" Magnet_WWW3.
Definition Magnet_WWW4 : LayoutMagnet := Magnet "WW.W4" kDKWStateCurved.
Definition DKW_WWW4 : Object := StandardMovableDKW "WW.W4" Magnet_WWW4.
Definition Turnout_WWW5 : Object := StandardFixedTurnout "WW.W5" TURNOUT_CLOSED.
Definition Block_WWA11 : Object := StandardBlockObject "WW.A11".
Definition Block_WWB2 : Object := StubBlockObject "WW.B2" true.
Definition Block_WWB3 : Object := StubBlockObject "WW.B3" true.
Definition Block_WWB14 : Object := StandardBlockObject "WW.B14".
Definition Block_A301 : Object := StandardBlockObject "A301".
Definition Block_A321 : Object := StandardBlockObject "A321".
Definition Block_A347 : Object := StandardBlockObject "A347".
Definition Block_A360 : Object := StandardBlockObject "A360".
Definition Magnet_W447 : LayoutMagnet := Magnet "W447" false.
Definition Turnout_W447 : Object := StandardMovableTurnout "W447" Magnet_W447.
Definition Magnet_W347 : LayoutMagnet := CoupledMagnet "W347" Magnet_W447 false.
Definition Turnout_W347 : Object := StandardMovableTurnout "W347" Magnet_W347.
Definition TW447 : End * End := kPointToClosed Turnout_W447.
Definition TW347 : End * End := kPointToClosed Turnout_W347.
Definition Block_B421 : Object := StandardBlockObject "B421".
Definition Block_B447 : Object := StandardBlockObject "B447".
Definition Block_B460 : Object := StandardBlockObject "B460".
Definition Block_B475 : Object := StandardBlockObject "B475".
Definition Magnet_W359 : LayoutMagnet := Magnet "W359" true.
Definition Turnout_W359 : Object := StandardMovableTurnout "W359" Magnet_W359.
Definition Magnet_W459 : LayoutMagnet := CoupledMagnet "W459" Magnet_W359 false.
Definition Turnout_W459 : Object := StandardMovableTurnout "W459" Magnet_W459.
Definition Magnet_ZZW1 : LayoutMagnet := Magnet "ZZ.W1" true.
Definition Turnout_ZZW1 : Object := StandardMovableTurnout "ZZ.W1" Magnet_ZZW1.
Definition Magnet_ZZW2 : LayoutMagnet := Magnet "ZZ.W2" true.
Definition Turnout_ZZW2 : Object := StandardMovableTurnout "ZZ.W2" Magnet_ZZW2.
Definition Magnet_ZZW3 : LayoutMagnet := Magnet "ZZ.W3" kDKWStateCross.
Definition DKW_ZZW3 : Object := StandardMovableDKW "ZZ.W3" Magnet_ZZW3.
Definition Magnet_ZZW6 : LayoutMagnet := Magnet "ZZ.W6" false.
Definition Magnet_ZZW5 : LayoutMagnet := CoupledMagnet "ZZ.W5" Magnet_ZZW6 true.
Definition Turnout_ZZW5 : Object := StandardMovableTurnout "ZZ.W5" Magnet_ZZW5.
Definition Turnout_ZZW6 : Object := StandardMovableTurnout "ZZ.W6" Magnet_ZZW6.
Definition Block_ZZA2 : Object := StubBlockObject "ZZ.A2" true.
Definition Block_ZZA3 : Object := StubBlockObject "ZZ.A3" true.
Definition Det_380 : Object := StandardMiddleDetector "Det380".
Definition Det_480 : Object := StandardMiddleDetector "Det480".
Definition Sig_380 : Object := StandardMiddleSignal "Sig380".
Definition Sig_480 : Object := StandardMiddleSignal "Sig480".
Definition Magnet_W481 : LayoutMagnet := Magnet "W481" false.
Definition Magnet_W381 : LayoutMagnet := CoupledMagnet "W381" Magnet_W481 true.
Definition Magnet_W380 : LayoutMagnet := Magnet "W380" true.
Definition Turnout_W381 : Object := StandardMovableTurnout "W381" Magnet_W381.
Definition Turnout_W380 : Object := StandardMovableTurnout "W380" Magnet_W380.
Definition Det_500 : Object := StandardMiddleDetector "Det500".
Definition Turnout_W481 : Object := StandardMovableTurnout "W481" Magnet_W481.
Definition Block_YYB2 : Object := StandardBlockObject "YY.B2".
Definition Block_YYA3 : Object := StandardBlockObject "YY.A3".
Definition Block_YYC23 : Object := StandardBlockObject "YY.C23".
Definition Det_YYC22 : Object := StandardMiddleDetector "YY.C22".
Definition Magnet_YYW6 : LayoutMagnet := Magnet "YY.W6" true.
Definition Turnout_YYW6 : Object := StandardMovableTurnout "YY.W6" Magnet_YYW6.
Definition Magnet_XXW1 : LayoutMagnet := Magnet "XX.W1" true.
Definition Turnout_XXW1 : Object := StandardMovableTurnout "XX.W1" Magnet_XXW1.
Definition Magnet_XXW2 : LayoutMagnet := Magnet "XX.W2" true.
Definition Turnout_XXW2 : Object := StandardMovableTurnout "XX.W2" Magnet_XXW2.
Definition Magnet_XXW7 : LayoutMagnet := Magnet "XX.W7" false.
Definition Turnout_XXW7 : Object := StandardMovableTurnout "XX.W7" Magnet_XXW7.
Definition Magnet_XXW8 : LayoutMagnet := Magnet "XX.W8" false.
Definition Turnout_XXW8 : Object := StandardMovableTurnout "XX.W8" Magnet_XXW8.
Definition Block_XXB1 : Object := StandardBlockObject "XX.B1".
Definition Block_XXB2 : Object := StandardBlockObject "XX.B2".
Definition Block_XXB3 : Object := StandardBlockObject "XX.B3".
Definition ignored1 : Binding :=
  Sequence None
    [ straight Block_A347;
      TW347;
      straight Block_A321;
      straight Block_A301 ]
    None.

Definition ignored2 : Binding :=
  Sequence None
    [ straight Block_B421;
      straight Block_B447;
      TW447;
      straight Block_B460 ]
    None.

Definition ign : Binding :=
  Pairs
    [ (object_side Turnout_W347 side_thrown, object_side Turnout_W447 side_thrown);
      (object_side Block_YYC23 side_b, object_side Turnout_YYW6 side_closed);
      (object_side Det_YYC22 side_b, object_side Turnout_YYW6 side_thrown);
      (object_side Block_YYB2 side_a, object_side Det_YYC22 side_a);
      (object_side Turnout_YYW6 side_points, object_side Turnout_XXW8 side_points);
      (object_side Block_XXB1 side_a, object_side Turnout_XXW8 side_closed);
      (object_side Turnout_XXW7 side_points, object_side Turnout_XXW8 side_thrown);
      (object_side Block_XXB2 side_b, object_side Turnout_XXW7 side_thrown);
      (object_side Block_XXB3 side_a, object_side Turnout_XXW7 side_closed);
      (object_side Block_XXB1 side_b, object_side Turnout_XXW1 side_closed);
      (object_side Block_XXB2 side_a, object_side Turnout_XXW2 side_thrown);
      (object_side Block_XXB3 side_b, object_side Turnout_XXW2 side_closed);
      (object_side Turnout_XXW1 side_thrown, object_side Turnout_XXW2 side_points);
      (object_side Turnout_XXW1 side_points, object_side Det_500 side_a);
      (object_side Det_500 side_b, object_side Turnout_W380 side_thrown);
      (object_side Turnout_W381 side_points, object_side Block_YYB2 side_b);
      (object_side Turnout_W381 side_thrown, object_side Turnout_W380 side_closed);
      (object_side Turnout_W380 side_points, object_side Det_380 side_a);
      (object_side Det_380 side_b, object_side Sig_380 side_a);
      (object_side Sig_380 side_b, object_side Turnout_ZZW6 side_points);
      (object_side Turnout_ZZW6 side_closed, object_side Turnout_ZZW2 side_thrown);
      (object_side Turnout_ZZW2 side_points, object_side Block_A360 side_a);
      (object_side Turnout_ZZW2 side_closed, object_side DKW_ZZW3 point_a2);
      (object_side DKW_ZZW3 point_b2, entry Block_ZZA2);
      (object_side Turnout_W381 side_closed, object_side Turnout_W481 side_thrown);
      (object_side Block_YYC23 side_a, object_side Block_YYA3 side_b);
      (object_side Block_YYA3 side_a, object_side Turnout_W481 side_closed);
      (object_side Block_B460 side_b, object_side Turnout_W459 side_closed);
      (object_side Turnout_W459 side_points, object_side Block_B475 side_a);
      (object_side Turnout_W459 side_thrown, object_side Turnout_W359 side_closed);
      (object_side Turnout_W359 side_thrown, object_side Block_A360 side_b);
      (object_side Turnout_W359 side_points, object_side Block_A347 side_a);
      (object_side Block_B475 side_b, object_side Turnout_ZZW1 side_points);
      (object_side Turnout_ZZW1 side_thrown, object_side DKW_ZZW3 point_a1);
      (object_side Turnout_ZZW1 side_closed, entry Block_ZZA3);
      (object_side DKW_ZZW3 point_b1, object_side Turnout_ZZW5 side_points);
      (object_side Turnout_ZZW5 side_thrown, object_side Sig_480 side_b);
      (object_side Sig_480 side_a, object_side Det_480 side_b);
      (object_side Det_480 side_a, object_side Turnout_W481 side_points);
      (object_side Turnout_ZZW5 side_closed, object_side Turnout_ZZW6 side_thrown);
      (object_side Block_A301 side_b, object_side Turnout_WWW1 side_points);
      (object_side Block_WWB14 side_a, object_side Block_WWA11 side_b);
      (object_side Block_WWA11 side_a, object_side DKW_WWW4 point_b1);
      (object_side DKW_WWW4 point_b2, entry Block_WWB2);
      (object_side DKW_WWW4 point_a2, object_side Turnout_WWW1 side_thrown);
      (object_side DKW_WWW3 point_b1, object_side DKW_WWW4 point_a1);
      (object_side DKW_WWW3 point_a2, object_side Turnout_WWW1 side_closed);
      (object_side DKW_WWW3 point_a1, object_side Block_B421 side_a);
      (object_side DKW_WWW3 point_b2, object_side Turnout_WWW5 side_points);
      (object_side Turnout_WWW5 side_closed, entry Block_WWB3);
      (object_side Turnout_WWW5 side_thrown, object_side Block_WWB14 side_b) ].

Definition signalaut3_nostop : list string := [rsignal (object_name Block_B475)].
Definition lpc_tofront1 : string := "loop_flipflop.client.to_front_1".
Definition lpc_toback1 : string := "loop_flipflop.client.to_back_1".
Definition lpc_tofront3 : string := "loop_flipflop.client.to_front_3".
Definition lpc_toback1x : string := "loop_flipflop.client.to_back_1x".
Definition frc_tofront : string := "front_flipflop.client.to_front".
Definition frc_fromfront1 : string := "front_flipflop.client.from_front1".
Definition frc_toback : string := "front_flipflop.client.to_back".
Definition frc_fromback : string := "front_flipflop.client.from_back".
Definition frc_fromfront3 : string := "front_flipflop.client.from_front3".
Definition ww_to2 : string := "ww_in_flipflop.client.to_2".
Definition ww_to3 : string := "ww_in_flipflop.client.to_3".
Definition ww_from2 : string := "ww_out_flipflop.client.from_2".
Definition ww_from3 : string := "ww_out_flipflop.client.from_3".
Definition ww_from14 : string := "ww_out_flipflop.client.from_14".
Definition IfLoopOkay : Condition_ := IfNotPaused ++ [(any_route Turnout_XXW8, false)].
Definition IfFrontFrontInOkay : Condition_ := IfNotPaused ++ [(any_route Turnout_W380, false); (any_route Turnout_XXW1, false); (any_route DKW_ZZW3, false)].
Definition IfFrontFrontOutOkay : Condition_ := IfNotPaused ++ [(any_route Turnout_W380, false); (any_route Turnout_XXW1, false)].
Definition IfFrontBackOutOkay : Condition_ := IfNotPaused ++ [(any_route Turnout_W380, false)].
Definition IfZZW3Free : Condition_ := IfNotPaused ++ [(any_route DKW_ZZW3, false)].
Definition IfZZW1Free : Condition_ := IfNotPaused ++ [(any_route Turnout_ZZW1, false)].
Definition IfZZ2OutFree : Condition_ := IfNotPaused ++ [(any_route Turnout_ZZW1, false); (detector Block_B475, false); (block_route_in Block_B475, false); (any_route Turnout_W359, false)].
Definition IfWWB3EntryFree : Condition_ := IfNotPaused ++ [(any_route DKW_WWW3, false)].
Definition IfWWB2EntryFree : Condition_ := IfNotPaused ++ [(any_route DKW_WWW4, false)].
Definition IfWWB2ExitFree : Condition_ := IfNotPaused ++ [(any_route DKW_WWW4, false); (any_route DKW_WWW3, false)].
Definition IfB460OutNotBlocked : Condition_ := IfNotPaused ++ [("block_b460"%string, false); (any_route Turnout_W459, false)].
Definition IfB360OutNotBlocked : Condition_ := IfNotPaused ++ [("block_b360"%string, false)].

(** *** Trains *)

Definition Run360_to_301 : list LayoutCall :=
  AddDirect (Fwd Block_A360) (Fwd Block_A347) IfB360OutNotBlocked true ++
  AddEager IfNotPaused (Fwd Block_A347) (Fwd Block_A321) ++
  Switch Turnout_W347 false ++
  AddEagerSequence [Block_A321; Block_A301] [] true.

Definition RunLoopWW : list LayoutCall :=
  with_lock "route_lock_WW"
    (AddDirect (Fwd Block_A301) (Fwd Block_WWA11) IfWWB2EntryFree false ++
     Switch Turnout_WWW1 true ++
     Switch DKW_WWW4 kDKWStateCurved ++
     AddEager IfNotPaused (Fwd Block_WWA11) (Fwd Block_WWB14) ++
     AddOnPermit (Fwd Block_WWB14) (Fwd Block_B421) ww_from14 IfWWB3EntryFree false ++
     Switch DKW_WWW3 kDKWStateCurved).

Definition RunStubWW : list LayoutCall :=
  with_lock "route_lock_WW"
    (AddOnPermit (Fwd Block_A301) (Fwd Block_WWB3) ww_to3 IfWWB3EntryFree false ++
     Switch Turnout_WWW1 false ++
     Switch DKW_WWW3 kDKWStateCross ++
     StopAndReverse (Fwd Block_WWB3) ++
     AddOnPermit (Fwd Block_A301) (Fwd Block_WWB2) ww_to2 IfWWB2EntryFree false ++
     Switch Turnout_WWW1 true ++
     Switch DKW_WWW4 kDKWStateCross ++
     StopAndReverse (Fwd Block_WWB2) ++
     AddOnPermit (Fwd Block_WWB3) (Fwd Block_B421) ww_from3 IfWWB3EntryFree false ++
     Switch DKW_WWW3 kDKWStateCurved ++
     AddOnPermit (Fwd Block_WWB2) (Fwd Block_B421) ww_from2 IfWWB2ExitFree false ++
     Switch DKW_WWW4 kDKWStateCurved ++
     Switch DKW_WWW3 kDKWStateCross).

Definition RunStubWWB3 : list LayoutCall :=
  with_lock "route_lock_WW"
    (AddOnPermit (Fwd Block_A301) (Fwd Block_WWB3) ww_to3 IfWWB3EntryFree false ++
     Switch Turnout_WWW1 false ++
     Switch DKW_WWW3 kDKWStateCross ++
     StopAndReverse (Fwd Block_WWB3) ++
     AddOnPermit (Fwd Block_WWB3) (Fwd Block_B421) ww_from3 IfWWB3EntryFree false ++
     Switch DKW_WWW3 kDKWStateCurved).

Definition RunStubWWB2 : list LayoutCall :=
  with_lock "route_lock_WW"
    (AddOnPermit (Fwd Block_A301) (Fwd Block_WWB2) ww_to2 IfWWB2EntryFree false ++
     Switch Turnout_WWW1 true ++
     Switch DKW_WWW4 kDKWStateCross ++
     StopAndReverse (Fwd Block_WWB2) ++
     AddOnPermit (Fwd Block_WWB2) (Fwd Block_B421) ww_from2 IfWWB2ExitFree false ++
     Switch DKW_WWW4 kDKWStateCurved ++
     Switch DKW_WWW3 kDKWStateCross ++
     AddOnPermit (Fwd Block_WWB3) (Fwd Block_B421) ww_from3 IfWWB3EntryFree false ++
     Switch DKW_WWW3 kDKWStateCurved).

Definition Run421_to_475 : list LayoutCall :=
  ClearVars ++
  AddEager IfNotPaused (Fwd Block_B421) (Fwd Block_B447) ++
  AddEager IfNotPaused (Fwd Block_B447) (Fwd Block_B460) ++
  Switch Turnout_W447 false ++
  AddDirect (Fwd Block_B460) (Fwd Block_B475) IfB460OutNotBlocked true ++
  ClearVars.

Definition RunStubZZ : list LayoutCall :=
  with_lock "route_lock_ZZ"
    (AddDirect (Fwd Block_B475) (Fwd Block_ZZA2) IfZZW3Free true ++
     Switch DKW_ZZW3 false ++
     Switch Turnout_ZZW1 true ++
     StopAndReverse (Fwd Block_ZZA2) ++
     AddDirect (Fwd Block_ZZA2) (Fwd Block_A360) IfZZW3Free false ++
     Switch DKW_ZZW3 true).

Definition RunStub2ZZ : list LayoutCall :=
  with_lock "route_lock_ZZ"
    (AddDirect (Fwd Block_B475) (Fwd Block_ZZA3) IfZZW1Free true ++
     Switch Turnout_ZZW1 false ++
     StopAndReverse (Fwd Block_ZZA3) ++
     AddDirect (Fwd Block_ZZA3) (Fwd Block_A347) IfZZ2OutFree false ++
     Switch Turnout_W459 true ++
     Own ["block_b460"; "block_b360"]%string
       [ [IfHere false; SetVariable "block_b460" false; SetVariable "block_b360" false];
         [IfHere true; IfStateIs StWaiting; SetVariable "block_b460" true];
         [IfHere true; IfStateIs StWaiting; IfVariable (detector Block_B475) true; SetVariable "block_b360" false];
         [IfHere true; IfStateIs StWaiting; IfVariable (block_route_in Block_B475) true; SetVariable "block_b360" false];
         [IfHere true; IfStateIs StWaiting; IfVariable (block_route_in Block_B475) false;
          IfVariable (detector Block_B475) false; SetVariable "block_b360" true] ]%string).

Definition RunLoopXXYY : list LayoutCall :=
  with_lock "route_lock_ZZ"
    (AddOnPermit (Fwd Block_B475) (Fwd Block_YYA3) frc_toback IfZZW3Free false ++
     Switch Turnout_ZZW1 true ++
     Switch DKW_ZZW3 true ++
     Switch Turnout_ZZW5 true ++
     Switch Turnout_W481 false ++
     AddOnPermit (Fwd Block_B475) (Fwd Block_XXB2) frc_tofront IfFrontFrontInOkay false ++
     Switch Turnout_ZZW1 true ++
     Switch DKW_ZZW3 true ++
     Switch Turnout_ZZW5 false ++
     Switch Turnout_W380 true ++
     Switch Turnout_XXW1 true ++
     Switch Turnout_XXW2 true) ++
  AddEager IfNotPaused (Fwd Block_YYA3) (Fwd Block_YYC23) ++
  AddOnPermit (Fwd Block_YYC23) (Fwd Block_XXB3) lpc_tofront3 IfLoopOkay false ++
  Switch Turnout_XXW8 true ++
  Switch Turnout_XXW7 false ++
  AddOnPermit (Fwd Block_YYC23) (Fwd Block_XXB1) lpc_tofront1 IfLoopOkay false ++
  Switch Turnout_XXW8 false ++
  AddOnPermit (Fwd Block_XXB2) (Fwd Block_YYB2) lpc_toback1 IfLoopOkay false ++
  Switch Turnout_YYW6 true ++
  AddOnPermit (Fwd Block_XXB2) (Fwd Block_YYB2) lpc_toback1x IfLoopOkay false ++
  Switch Turnout_YYW6 true ++
  with_lock "route_lock_ZZ"
    (AddOnPermit (Fwd Block_XXB1) (Fwd Block_A360) frc_fromfront1 IfFrontFrontOutOkay false ++
     Switch Turnout_W380 true ++
     Switch Turnout_ZZW6 false ++
     AddOnPermit (Fwd Block_XXB3) (Fwd Block_A360) frc_fromfront3 IfFrontFrontOutOkay false ++
     Switch Turnout_W380 true ++
     Switch Turnout_ZZW6 false ++
     AddOnPermit (Fwd Block_YYB2) (Fwd Block_A360) frc_fromback IfFrontBackOutOkay false ++
     Switch Turnout_W381 true ++
     Switch Turnout_ZZW6 false).

Definition RunLoopXXYYLong : list LayoutCall :=
  with_lock "route_lock_ZZ"
    (AddOnPermit (Fwd Block_B475) (Fwd Block_YYA3) frc_toback IfZZW3Free false ++
     Switch Turnout_ZZW1 true ++
     Switch DKW_ZZW3 true ++
     Switch Turnout_ZZW5 true ++
     Switch Turnout_W481 false) ++
  AddEager IfNotPaused (Fwd Block_YYA3) (Fwd Block_YYC23) ++
  AddOnPermit (Fwd Block_YYC23) (Fwd Block_XXB1) lpc_tofront1 IfLoopOkay false ++
  Switch Turnout_XXW8 false ++
  with_lock "route_lock_ZZ"
    (AddOnPermit (Fwd Block_XXB1) (Fwd Block_A360) frc_fromfront1 IfFrontFrontOutOkay false ++
     Switch Turnout_W380 true ++
     Switch Turnout_ZZW6 false).

Definition CircleTrain : list LayoutCall :=
  Run360_to_301 ++
  RunLoopWW ++
  Run421_to_475 ++
  RunLoopXXYY.

Definition LongCircleTrain : list LayoutCall :=
  Run360_to_301 ++
  RunLoopWW ++
  Run421_to_475 ++
  RunLoopXXYYLong.

Definition EWIVPendelzug : list LayoutCall :=
  Run360_to_301 ++
  RunStubWW ++
  Run421_to_475 ++
  RunLoopXXYY.

Definition StraightOnlyPushPull : list LayoutCall :=
  Run360_to_301 ++
  RunStubWW ++
  Run421_to_475 ++
  RunStubZZ.

Definition M61PushPull : list LayoutCall :=
  Run360_to_301 ++
  RunStubWWB2 ++
  Run421_to_475 ++
  RunStubZZ.

Definition ICEPushPull : list LayoutCall :=
  Run360_to_301 ++
  RunStubWW ++
  Run421_to_475 ++
  RunStub2ZZ.

Definition layout_3h_objects : list Object :=
  [ Turnout_WWW1; DKW_WWW3; DKW_WWW4; Turnout_WWW5; Block_WWA11;
    Block_WWB2; Block_WWB3; Block_WWB14; Block_A301; Block_A321;
    Block_A347; Block_A360; Turnout_W447; Turnout_W347; Block_B421;
    Block_B447; Block_B460; Block_B475; Turnout_W359; Turnout_W459;
    Turnout_ZZW1; Turnout_ZZW2; DKW_ZZW3; Turnout_ZZW5; Turnout_ZZW6;
    Block_ZZA2; Block_ZZA3; Det_380; Det_480; Sig_380;
    Sig_480; Turnout_W381; Turnout_W380; Det_500; Turnout_W481;
    Block_YYB2; Block_YYA3; Block_YYC23; Det_YYC22; Turnout_YYW6;
    Turnout_XXW1; Turnout_XXW2; Turnout_XXW7; Turnout_XXW8; Block_XXB1;
    Block_XXB2; Block_XXB3 ].

Definition layout_3h_trains : list Train :=
  [ mkTrain "icn" (DccShortAddress 50) StraightOnlyPushPull;
    mkTrain "re_6_6" (DccShortAddress 66) CircleTrain;
    mkTrain "rts_railtraction" (MMAddress 32) CircleTrain;
    mkTrain "Re460_HAG" (DccShortAddress 26) EWIVPendelzug;
    mkTrain "Re465" (DccShortAddress 47) CircleTrain;
    mkTrain "Re460TSR" (DccShortAddress 22) LongCircleTrain;
    mkTrain "RBe4_4_ZVV" (DccShortAddress 52) CircleTrain;
    mkTrain "m61" (DccShortAddress 61) M61PushPull;
    mkTrain "Re44_11239" (MMAddress 48) CircleTrain;
    mkTrain "ICE" (MMAddress 2) ICEPushPull;
    mkTrain "wle_er20" (MMAddress 27) CircleTrain;
    mkTrain "Re474" (MMAddress 12) CircleTrain;
    mkTrain "Krokodil" (MMAddress 68) CircleTrain;
    mkTrain "Rheingold" (MMAddress 19) CircleTrain;
    mkTrain "Re_10_10" (DccShortAddress 4) CircleTrain ].

Definition layout_3h : Layout :=
  mkLayout layout_3h_objects [ignored1; ignored2; ign]
    (signalaut3_nostop) layout_3h_trains.

End Layout3h.

(** ** The layout of bracz-layout5a-logic.cc *)

Module Layout5a.

(** *** Objects and bindings *)

Definition IfNotPaused : Condition_ := [("is_paused"%string, false); ("reset_routes"%string, false)].
Definition IfNotShutdown : Condition_ := [("is_shutdown"%string, false)].
Definition Stub_ZHA1 : Object := StubBlockObject "ZH.A1" false.
Definition Stub_ZHA2 : Object := StubBlockObject "ZH.A2" false.
Definition Turnout_ZHW1 : Object := StandardFixedTurnout "ZH.W1" TURNOUT_THROWN.
Definition TZHW1 : End * End := kPointToThrown Turnout_ZHW1.
Definition Turnout_LBW1 : Object := StandardFixedTurnout "LB.W1" TURNOUT_THROWN.
Definition TLBW1 : End * End := kClosedToPoint Turnout_LBW1.
Definition Block_LBB1 : Object := StandardBlockObject "LB.B1".
Definition Block_LBA2 : Object := StandardBlockObject "LB.A2".
Definition Turnout_LBW2 : Object := StandardFixedTurnout "LB.W2" TURNOUT_CLOSED.
Definition TLBW2 : End * End := kPointToClosed Turnout_LBW2.
Definition Stub_BSB1 : Object := StubBlockObject "BS.B1" false.
Definition Stub_BSB2 : Object := StubBlockObject "BS.B2" false.
Definition Turnout_BSW1 : Object := StandardFixedTurnout "BS.W1" TURNOUT_CLOSED.
Definition TBSW1 : End * End := kThrownToPoint Turnout_BSW1.
Definition ignored1 : Binding :=
  Pairs
    [ (entry Stub_ZHA2, object_side Turnout_ZHW1 side_closed);
      (entry Stub_BSB2, object_side Turnout_BSW1 side_closed) ].

Definition ignored2 : Binding :=
  Sequence (Some (entry Stub_BSB1))
    [ TBSW1;
      TLBW2;
      straight Block_LBA2;
      TLBW1;
      TZHW1 ]
    (Some (entry Stub_ZHA1)).

Definition ignored3 : Binding :=
  Sequence (Some (object_side Turnout_LBW1 side_thrown))
    [ straight Block_LBB1 ]
    (Some (object_side Turnout_LBW2 side_thrown)).

Definition IfZHEntry : Condition_ := IfNotPaused ++ [(any_route Turnout_ZHW1, false)].
Definition IfZHExit : Condition_ := IfNotPaused ++ IfNotShutdown ++ [(any_route Turnout_ZHW1, false)].
Definition IfBSW1Free : Condition_ := IfNotPaused ++ [(any_route Turnout_BSW1, false)].
Definition Block_EntryToZH : Object := Block_LBA2.
Definition Block_EntryToBS : Object := Block_LBB1.

(** *** Trains *)

Definition RunStubZH1 : list LayoutCall :=
  with_lock "route_lock_ZH"
    (AddDirect (Fwd Block_EntryToZH) (Fwd Stub_ZHA1) IfZHEntry false ++
     StopAndReverse (Fwd Stub_ZHA1)).

Definition RunStubBS2 : list LayoutCall :=
  with_lock "route_lock_BS"
    (AddDirect (Fwd Block_EntryToBS) (Fwd Stub_BSB2) IfBSW1Free false ++
     StopAndReverse (Fwd Stub_BSB2)).

Definition RunCycle : list LayoutCall :=
  [].

Definition RunAltCycle : list LayoutCall :=
  [].

Definition CircleTrain : list LayoutCall :=
  RunStubZH1 ++
  AddDirect (Rev Stub_ZHA1) (Fwd Block_LBB1) IfZHExit false ++
  RunStubBS2 ++
  AddDirect (Rev Stub_BSB2) (Fwd Block_LBA2) IfBSW1Free false.

Definition layout_5a_objects : list Object :=
  [ Stub_ZHA1; Stub_ZHA2; Turnout_ZHW1; Turnout_LBW1; Block_LBB1;
    Block_LBA2; Turnout_LBW2; Stub_BSB1; Stub_BSB2; Turnout_BSW1 ].

Definition layout_5a_trains : list Train :=
  [ mkTrain "Re465" (DccShortAddress 47) CircleTrain;
    mkTrain "Re460_HAG" (DccShortAddress 26) CircleTrain ].

Definition layout_5a : Layout :=
  mkLayout layout_5a_objects [ignored1; ignored2; ignored3]
    [] layout_5a_trains.

End Layout5a.

(** ** The layout of bracz-layout6a-logic.cc *)

Module Layout6a.

(** *** Objects and bindings *)

Definition IfNotPaused : Condition_ := [("is_paused"%string, false); ("reset_routes"%string, false)].
Definition Turnout_YYW1 : Object := StandardFixedTurnout "YY.W1" TURNOUT_THROWN.
Definition TYYW1 : End * End := kClosedToPoint Turnout_YYW1.
Definition Block_YYB1 : Object := StandardBlockObject "YY.B1".
Definition Block_YYA2 : Object := StandardBlockObject "YY.A2".
Definition Turnout_YYW2 : Object := StandardFixedTurnout "YY.W2" TURNOUT_CLOSED.
Definition TYYW2 : End * End := kPointToClosed Turnout_YYW2.
Definition Turnout_XXW1 : Object := StandardFixedTurnout "XX.W1" TURNOUT_THROWN.
Definition TXXW1 : End * End := kClosedToPoint Turnout_XXW1.
Definition Block_XXB1 : Object := StandardBlockObject "XX.B1".
Definition Block_XXA2 : Object := StandardBlockObject "XX.A2".
Definition Turnout_XXW2 : Object := StandardFixedTurnout "XX.W2" TURNOUT_CLOSED.
Definition TXXW2 : End * End := kPointToClosed Turnout_XXW2.
Definition ignored2 : Binding :=
  Sequence (Some (object_side Turnout_YYW1 side_points))
    [ TXXW2;
      straight Block_XXA2;
      TXXW1;
      TYYW2;
      straight Block_YYA2 ]
    (Some (object_side Turnout_YYW1 side_closed)).

Definition ignored1 : Binding :=
  Sequence (Some (object_side Turnout_YYW1 side_thrown))
    [ straight Block_YYB1 ]
    (Some (object_side Turnout_YYW2 side_thrown)).

Definition ignored3 : Binding :=
  Sequence (Some (object_side Turnout_XXW1 side_thrown))
    [ straight Block_XXB1 ]
    (Some (object_side Turnout_XXW2 side_thrown)).

Definition IfAisleLoopFree : Condition_ := IfNotPaused ++ [(any_route Turnout_XXW2, false)].
Definition IfWinLoopFree : Condition_ := IfNotPaused ++ [(any_route Turnout_YYW2, false)].
Definition Block_EntryToZH : Object := Block_YYA2.

(** *** Trains *)

Definition RunLoopCCW : list LayoutCall :=
  AddDirect (Fwd Block_XXB1) (Fwd Block_YYB1) IfAisleLoopFree false ++
  AddDirect (Fwd Block_YYB1) (Fwd Block_XXB1) IfWinLoopFree false.

Definition RunLoopCW : list LayoutCall :=
  AddDirect (Fwd Block_XXA2) (Fwd Block_YYA2) IfWinLoopFree false ++
  AddDirect (Fwd Block_YYA2) (Fwd Block_XXA2) IfAisleLoopFree false.

Definition RunCycle : list LayoutCall :=
  RunLoopCW ++
  RunLoopCCW.

Definition CircleTrain : list LayoutCall :=
  RunCycle.

Definition layout_6a_objects : list Object :=
  [ Turnout_YYW1; Block_YYB1; Block_YYA2; Turnout_YYW2; Turnout_XXW1;
    Block_XXB1; Block_XXA2; Turnout_XXW2 ].

Definition layout_6a_trains : list Train :=
  [ mkTrain "Re465" (DccShortAddress 47) CircleTrain;
    mkTrain "Re460_HAG" (DccShortAddress 26) CircleTrain;
    mkTrain "rts_railtraction" (MMAddress 32) CircleTrain;
    mkTrain "wle_er20" (MMAddress 27) CircleTrain;
    mkTrain "Re474" (MMAddress 12) CircleTrain;
    mkTrain "Krokodil" (MMAddress 68) CircleTrain;
    mkTrain "Rheingold" (MMAddress 19) CircleTrain;
    mkTrain "BDe-4/4" (DccShortAddress 38) CircleTrain;
    mkTrain "Re620" (DccShortAddress 5) CircleTrain;
    mkTrain "Re420" (DccShortAddress 4) CircleTrain ].

Definition layout_6a : Layout :=
  mkLayout layout_6a_objects [ignored2; ignored1; ignored3]
    [] layout_6a_trains.

End Layout6a.
