(* ===== verification/LayoutChecks.v ===== *)
(** What is computed on layouts: where the routes of a layout lead, followed with
    the states of only some magnets known, and the trains of a layout, with a check
    of what the theorems on schedules ask of them. *)

From stdpp Require Import strings.
From S2P Require Import Prelude AutomataDefs Automata AutomataOps AutomataBuild ControlRules ControlLogic ControlTurnouts ScheduleRules TrainSchedule ScheduleBuild ScheduleOps ScheduleSpec ScheduleRuns ScheduleRounds ScheduleSafety ScheduleDeparture ScheduleCheck TrackPlan Layouts.

(** ** The tables of ways are those of the turnouts *)

Lemma turnout_ways_directions t :
  List.map (fun d => (from d, to d, state_condition d)) (directions_ t) =
  List.map (fun '(f, g, s) => let side x := match x with side_points => side_points_ t | side_closed => side_closed_ t | _ => side_thrown_ t end in
                              (side f, side g, s)) turnout_ways.
Proof. reflexivity. Qed.

Lemma fixed_ways_directions t state ds :
  fixed_directions t state = Some ds ->
  List.map (fun d => (from d, to d, state_condition d)) ds =
  List.map (fun '(f, g, s) => let side x := match x with side_points => side_points_ t | side_closed => side_closed_ t | _ => side_thrown_ t end in
                              (side f, side g, s)) (fixed_ways state).
Proof. destruct state; by intros [= <-]. Qed.

(** ** Known magnets *)

Definition Known : Type := list (string * bool).

Fixpoint known_state (k : Known) (name : string) : option bool :=
  match k with
  | [] => None
  | (n, b) :: k => if bool_decide (name = n) then Some b else known_state k name
  end.

Definition agrees (k : Known) (st : string -> bool) : Prop := forall name b, In (name, b) k -> st name = b.

Lemma agrees_known k st name b : agrees k st -> known_state k name = Some b -> st name = b.
Proof.
  induction k as [|[n b'] k IH]; intros H; cbn; [done|]. case_bool_decide as E; intros Hk.
  - injection Hk as <-. subst n. apply H. by left.
  - apply IH; [|done]. intros name' b'' Hin. apply H. by right.
Qed.

Fixpoint known_magnet (k : Known) (m : LayoutMagnet) : option bool :=
  match m with
  | Magnet name _ => known_state k name
  | CoupledMagnet _ original invert => b ← known_magnet k original; Some (xorb b invert)
  end.

Lemma known_magnet_sound k st m b : agrees k st -> known_magnet k m = Some b -> magnet_state st m = b.
Proof.
  intros H. revert b. induction m as [name d|name m IH inv]; intros b; cbn; [by apply agrees_known|].
  destruct (known_magnet k m) as [b'|]; [|done]. cbn. intros [= <-]. by rewrite (IH b').
Qed.

(** A state that is not known must not matter. *)
Definition either (f : bool -> option Side) (b : option bool) : option Side :=
  match b with
  | Some b => f b
  | None => if bool_decide (f false = f true) then f false else None
  end.

Lemma either_sound f b (v : bool) s :
  (forall b', b = Some b' -> v = b') -> either f b = Some s -> f v = Some s.
Proof.
  intros Hv. destruct b as [b'|]; cbn; [by rewrite (Hv b')|]. case_bool_decide as E; [|done]. destruct v; congruence.
Qed.

Definition known_leaves (k : Known) (t : TrackPiece) (from : Side) : option Side :=
  match t with
  | MovableTurnout m => either (fun b => find_way (state_allows b) from turnout_ways) (known_magnet k m)
  | MovableDKW m => either (fun b => find_way (dkw_allows b) from dkw_ways) (known_magnet k m)
  | _ => leaves_at (fun _ => false) t from
  end.

Lemma known_leaves_sound k st t from s :
  agrees k st -> known_leaves k t from = Some s -> leaves_at st t from = Some s.
Proof.
  intros H. destruct t as [| |state|m|m]; cbn [known_leaves leaves_at]; try done.
  - apply (either_sound (fun b => find_way (state_allows b) from turnout_ways)). intros b'. by apply known_magnet_sound.
  - apply (either_sound (fun b => find_way (dkw_allows b) from dkw_ways)). intros b'. by apply known_magnet_sound.
Qed.

Fixpoint known_route_end (fuel : nat) (p : Plan) (k : Known) (e : End) : option string :=
  match fuel with
  | O => None
  | S fuel =>
      '(name, from) ← bindings p !! e;
      t ← pieces p !! name;
      if stops_at p name t from then Some name
      else (to ← known_leaves k t from; known_route_end fuel p k (name, to))
  end.

Lemma known_route_end_sound fuel p k st e name :
  agrees k st -> known_route_end fuel p k e = Some name -> route_end fuel p st e = Some name.
Proof.
  intros H. revert e. induction fuel as [|fuel IH]; intros e; cbn; [done|].
  destruct (bindings p !! e) as [[n from]|]; cbn; [|done]. destruct (pieces p !! n) as [t|]; cbn; [|done].
  destruct (stops_at p n t from); [done|]. destruct (known_leaves k t from) as [s|] eqn:E; cbn; [|done].
  rewrite (known_leaves_sound _ _ _ _ _ H E). cbn. apply IH.
Qed.

(** ** Ways *)

Section Ways.
Context (l : Layout).

Fixpoint root_value (m : LayoutMagnet) (b : bool) : bool :=
  match m with
  | Magnet _ _ => b
  | CoupledMagnet _ original invert => root_value original (xorb b invert)
  end.

Lemma root_value_state st m b : magnet_state st m = b <-> st (root_name m) = root_value m b.
Proof.
  revert b. induction m as [name d|name m IH inv]; intros b; cbn; [done|]. rewrite <- IH.
  destruct (magnet_state st m), inv, b; by split.
Qed.

(** What is known on a way. *)
Definition rest_known (roots : list string) : Known :=
  List.filter (fun p => negb (bool_decide (fst p ∈ roots))) (List.map root_default (object_magnets l)).

Definition way_known (roots : list string) (w : Way) : Known :=
  List.map (fun p => (root_name (fst p), root_value (fst p) (snd p))) (switched w) ++ rest_known roots.

Lemma settled_known w st : settled l w st <-> agrees (way_known (switched_roots l) w) st.
Proof.
  split.
  - intros [H1 H2] name b Hin. unfold way_known, rest_known in Hin. apply in_app_iff in Hin as [Hin|Hin].
    + apply in_map_iff in Hin as ([m b'] & [= <- <-] & Hm). by apply root_value_state, H1.
    + apply filter_In in Hin as [Hin Hr]. apply in_map_iff in Hin as (m & E & Hm).
      apply (H2 m); [done..|]. cbn in Hr. apply negb_true_iff, bool_decide_eq_false in Hr.
      by rewrite <- list_elem_of_In.
  - intros H. split.
    + intros m b Hm. apply root_value_state, H, in_app_iff. left. apply in_map_iff. by exists (m, b).
    + intros m name b Hm E Hr. apply H, in_app_iff. right. unfold rest_known. apply filter_In. split.
      * apply in_map_iff. by exists m.
      * cbn. apply negb_true_iff, bool_decide_eq_false. by rewrite list_elem_of_In.
Qed.

Definition assumed (k : Known) (name : string) : bool := default false (known_state k name).

(** No magnet is wanted in both states. *)
Definition consistent (k : Known) : bool := forallb (fun p => Bool.eqb (assumed k (fst p)) (snd p)) k.

Lemma consistent_agrees k : consistent k = true -> agrees k (assumed k).
Proof.
  unfold consistent. rewrite forallb_forall. intros H name b Hin. specialize (H _ Hin). by apply Bool.eqb_prop in H.
Qed.

Definition check_leads (p : Plan) (roots : list string) (w : Way) : bool :=
  let k := way_known roots w in
  consistent k &&
  bool_decide (known_route_end (route_fuel p) p k (signal_piece (way_from w), side_b) = Some (signal_piece (way_to w))).

Lemma check_leads_sound p w :
  plan_of l = Some p -> check_leads p (switched_roots l) w = true -> leads l w.
Proof.
  intros Hp [H1 H2]%andb_prop. apply bool_decide_eq_true in H2. exists p. split; [done|]. split.
  - exists (assumed (way_known (switched_roots l) w)). by apply settled_known, consistent_agrees.
  - intros st Hst%settled_known. by apply (known_route_end_sound _ _ _ _ _ _ Hst).
Qed.

(** A way on which a route ends elsewhere. *)
Definition check_misleads (p : Plan) (roots : list string) (w : Way) : bool :=
  let k := way_known roots w in
  consistent k &&
  negb (bool_decide (route_end (route_fuel p) p (assumed k) (signal_piece (way_from w), side_b) = Some (signal_piece (way_to w)))).

Lemma check_misleads_sound p w :
  plan_of l = Some p -> check_misleads p (switched_roots l) w = true -> ~ leads l w.
Proof.
  intros Hp [H1 H2]%andb_prop (p' & Hp' & _ & H). apply negb_true_iff, bool_decide_eq_false in H2. apply H2.
  rewrite Hp in Hp'. injection Hp' as <-. by apply H, settled_known, consistent_agrees.
Qed.

(** The ways of all classes, and those that are exceptions. *)
Definition way_name (w : Way) : string * string := (signal_piece (way_from w), signal_piece (way_to w)).

Definition check_ways (misled : list (string * string)) : bool :=
  match plan_of l with
  | Some p =>
      let roots := switched_roots l in
      forallb (fun c => forallb (fun w =>
        if bool_decide (way_name w ∈ misled) then check_misleads p roots w else check_leads p roots w) (ways c))
        (classes l)
  | None => false
  end.

Lemma check_ways_sound misled c w :
  check_ways misled = true -> In c (classes l) -> In w (ways c) -> leads l w <-> ~ In (way_name w) misled.
Proof.
  unfold check_ways. destruct (plan_of l) as [p|] eqn:Hp; [|done]. rewrite forallb_forall. intros H Hc Hw.
  specialize (H c Hc). rewrite forallb_forall in H. specialize (H w Hw). rewrite <- list_elem_of_In.
  case_bool_decide as E.
  - split; [|done]. by intros HL%(check_misleads_sound p w Hp H).
  - split; [done|]. intros _. by apply (check_leads_sound p).
Qed.

End Ways.

(** ** Trains *)

(** The body of the automata of a train with an id, and its class. *)
Definition train_body (gid : nat -> option GlobalVariableId) (id : Z) (c : list LayoutCall)
    : prog (Building Members) unit :=
  schedule_body gid (reset_routes_of c) (vars_of id) (schedule_calls gid (vars_of id) (calls_of c)).

(** The automata after its constructor. *)
Definition constructed : AutomataDef :=
  match reserve_locals AutomataDef_new with Done _ a => a | _ => AutomataDef_new end.

(** Every variable is declared as a single event. *)
Definition declared (k : nat) : option GlobalVariableId := Some (mkGlobalId (Z.of_nat k) 0).

(** The members after the body was run for the preamble of the board. *)
Definition members_of (id : Z) (c : list LayoutCall) : option Members :=
  preamble (train_body declared id c) constructed (new_Members (8 + length (used_variables c))).

(** A train renders if neither pass of the board over it dies. *)
Definition renders (t : Train) : Prop :=
  exists m code a, members_of (train_id t) (run_transition t) = Some m /\
    Render (body_with (train_body declared (train_id t) (run_transition t)) m) (Some []) constructed = Done (Some code) a /\
    zlen code < 2 ^ 31.

Definition check_renders (id : Z) (c : list LayoutCall) : bool :=
  match members_of id c with
  | None => false
  | Some m =>
      match Render (body_with (train_body declared id c) m) (Some []) constructed with
      | Done (Some code) _ => zlen code <? 2 ^ 31
      | _ => false
      end
  end.

Lemma check_renders_sound t : renders t <-> check_renders (train_id t) (run_transition t) = true.
Proof.
  unfold renders, check_renders. destruct (members_of _ _) as [m|].
  - split.
    + intros (m' & code & a & [= <-] & -> & H). by apply Z.ltb_lt.
    + destruct (Render _ _ _) as [[code|] a| |] eqn:E; try done. intros H%Z.ltb_lt. by exists m, code, a.
  - split; [|done]. by intros (m' & code & a & E & _).
Qed.

(** The parts of its schedule. *)
Definition parts_of (id : Z) (c : list LayoutCall) : option (list Part) :=
  m ← members_of id c; fst <$> resolve (calls_of c) (set_current_location None m).

Definition check_class (id : Z) (c : list LayoutCall) : bool :=
  match parts_of id c with
  | None => false
  | Some ps =>
      let v := vars_of id in
      check_parts v (None, None) ps && check_wired v ps && check_tests v ps &&
      forallb (check_owned v) (schedule_rules (reset_routes_of c) v ps)
  end.

(** What the theorems ask for. *)
Record well_wired (id : Z) (c : list LayoutCall) (ps : list Part) : Prop := {
  ww_parts : parts_of id c = Some ps;
  ww_ok : parts_ok (vars_of id) (None, None) ps;
  ww_wired : wired (vars_of id) ps;
  ww_tests : tests_apart (vars_of id) ps;
  ww_owned : Forall (rule_owned (speed_var_ (vars_of id))) (schedule_rules (reset_routes_of c) (vars_of id) ps)
}.

Lemma check_class_sound id c : check_class id c = true -> exists ps, well_wired id c ps.
Proof.
  unfold check_class. destruct (parts_of id c) as [ps|] eqn:E; [|done].
  intros [[[H1 H2]%andb_prop H3]%andb_prop H4]%andb_prop. exists ps. split; [done| | | |].
  - by apply check_parts_sound.
  - by apply check_wired_sound.
  - by apply check_tests_sound.
  - by apply check_owned_sound.
Qed.
