(* ===== verification/LayoutSafety.v ===== *)
(** The layouts of src/automata: their wiring, that their boards render, and that
    their trains follow their schedules. *)

From stdpp Require Import strings.
From S2P Require Import Prelude AutomataDefs Automata AutomataOps AutomataBuild ControlRules ControlLogic ScheduleRules TrainSchedule ScheduleBuild ScheduleOps ScheduleSpec ScheduleRuns ScheduleRounds ScheduleSafety ScheduleDeparture TrackPlan Layouts LayoutChecks LayoutPlans.
Import Layout1i Layout2a Layout2b Layout3h Layout5a Layout6a.

Definition all_layouts : list Layout := [layout_1i; layout_2a; layout_2b; layout_3h; layout_5a; layout_6a].

(** The layouts whose trains all render, and their classes. *)
Definition running_layouts : list Layout := [layout_1i; layout_2a; layout_5a; layout_6a].

Definition running_classes : list (list LayoutCall) :=
  [ Layout1i.CircleTrain; Layout1i.IC2000Train;
    Layout2a.CircleTrain; Layout2a.IC2000Train; Layout2a.PassengerTrainTrack2; Layout2a.PassengerTrainTrack4;
    Layout2a.IC2000TrainB; Layout2a.FreightTrain;
    Layout5a.CircleTrain; Layout6a.CircleTrain ].

(** The layouts with the transitions that do not lead where the schedule takes
    them to lead. *)
Definition wiring : list (Layout * list (string * string)) :=
  [ (layout_1i, []);
    (layout_2a, [("B241.signal", "HB.B2.signal"); ("HB.B2.rsignal", "A149.signal")]%string);
    (layout_2b, []);
    (layout_3h, [("B475.signal", "ZZ.A2.signal"); ("ZZ.A2.signal", "A360.signal");
                 ("B475.signal", "YY.A3.signal"); ("B475.signal", "XX.B2.signal")]%string);
    (layout_5a, []);
    (layout_6a, []) ].

(** ** Computed *)

Lemma wiring_checked : forallb (fun p => check_ways (fst p) (snd p)) wiring = true.
Proof. vm_compute. reflexivity. Qed.

Lemma running_checked id : forallb (fun c => check_class id c && check_renders id c) running_classes = true.
Proof. vm_compute. reflexivity. Qed.

Lemma layout_2b_checked id :
  forallb (fun c => negb (check_renders id c)) [Layout2b.IC2000Train; Layout2b.IC2000TrainB; Layout2b.FreightTrain] = true.
Proof. vm_compute. reflexivity. Qed.

Lemma layout_3h_checked :
  forallb (fun t => Bool.eqb (check_renders (train_id t) (run_transition t)) (negb (bool_decide (train_name t = "ICE"%string))))
    (trains layout_3h) = true.
Proof. vm_compute. reflexivity. Qed.

(** Trains of these layouts are of these classes, and have addresses. *)
Lemma running_class l t : In l running_layouts -> In t (trains l) -> In (run_transition t) running_classes.
Proof.
  assert (H : Forall (fun l => Forall (fun t => In (run_transition t) running_classes) (trains l)) running_layouts).
  { repeat (apply List.Forall_cons || apply List.Forall_nil); cbn [run_transition]; unfold running_classes; auto 20 using in_eq, in_cons. }
  intros Hl Ht. rewrite List.Forall_forall in H. specialize (H l Hl). rewrite List.Forall_forall in H. auto.
Qed.

Lemma train_ids l t : In l all_layouts -> In t (trains l) -> 0 <= train_id t < 2 ^ 64.
Proof.
  assert (H : forallb (fun l => forallb (fun t => (0 <=? train_id t) && (train_id t <? 2 ^ 64)) (trains l)) all_layouts = true)
    by (vm_compute; reflexivity).
  intros Hl Ht. rewrite forallb_forall in H. specialize (H l Hl). rewrite forallb_forall in H. specialize (H t Ht).
  apply andb_prop in H as [H1%Z.leb_le H2%Z.ltb_lt]. by split.
Qed.

Lemma running_all l : In l running_layouts -> In l all_layouts.
Proof. unfold running_layouts, all_layouts. simpl. tauto. Qed.

Lemma layout_2b_class t : In t (trains layout_2b) ->
  In (run_transition t) [Layout2b.IC2000Train; Layout2b.IC2000TrainB; Layout2b.FreightTrain].
Proof.
  revert t. apply List.Forall_forall. repeat (apply List.Forall_cons || apply List.Forall_nil); cbn [run_transition]; auto using in_eq, in_cons.
Qed.

(** ** Boards *)

(** Every end of track is bound, and to the end that is bound to it. *)
Definition check_bound (l : Layout) : bool :=
  match plan_of l with
  | None => false
  | Some p =>
      Validate p &&
      forallb (fun '(e, other) => bool_decide (bindings p !! other = Some e)) (map_to_list (bindings p))
  end.

Lemma layouts_bound : forallb check_bound all_layouts = true.
Proof. vm_compute. reflexivity. Qed.

Definition distinct_speeds (l : Layout) : bool := bool_decide (NoDup (List.map speed_event (trains l))).

Lemma layouts_speeds : forallb distinct_speeds all_layouts = true.
Proof. vm_compute. reflexivity. Qed.

Lemma check_bound_sound l : check_bound l = true ->
  exists p, plan_of l = Some p /\ Validate p = true /\
    forall e other, bindings p !! e = Some other -> bindings p !! other = Some e.
Proof.
  unfold check_bound. destruct (plan_of l) as [p|]; [|done]. intros [H1 H2]%andb_prop. exists p. split; [done|].
  split; [done|]. intros e other He. rewrite forallb_forall in H2.
  specialize (H2 (e, other)). apply bool_decide_eq_true in H2; [done|]. by apply list_elem_of_In, elem_of_map_to_list.
Qed.

(** C16: The trains of the layouts 1i, 2a, 5a and 6a render: the automata of every
    train is built in both passes of the board without running out of local
    variables.  The boards of 2b and 3h never render: on 2b every train runs out
    of local variables, on 3h exactly the train ICE does, whose class imports
    variables for operations of its own.  On all six layouts the pieces of track
    pass the validation, bindings are mutual, and trains set their speeds by
    different events. *)
Theorem layouts_render l :
  In l all_layouts ->
  (exists p, plan_of l = Some p /\ Validate p = true /\
     forall e other, bindings p !! e = Some other -> bindings p !! other = Some e) /\
  NoDup (List.map speed_event (trains l)) /\
  (In l running_layouts -> forall t, In t (trains l) -> renders t) /\
  (l = layout_2b -> forall t, In t (trains l) -> ~ renders t) /\
  (l = layout_3h -> In (mkTrain "ICE" (MMAddress 2) ICEPushPull) (trains l) /\
     forall t, In t (trains l) -> renders t <-> train_name t <> "ICE"%string).
Proof.
  intros Hl. split; [|split; [|split; [|split]]].
  - apply check_bound_sound. pose proof layouts_bound as H. rewrite forallb_forall in H. auto.
  - pose proof layouts_speeds as H. rewrite forallb_forall in H. specialize (H l Hl). by apply bool_decide_eq_true in H.
  - intros Hr t Ht. apply check_renders_sound. pose proof (running_checked (train_id t)) as H.
    rewrite forallb_forall in H. specialize (H _ (running_class l t Hr Ht)). by apply andb_prop in H as [_ H].
  - intros -> t Ht Hr%check_renders_sound. pose proof (layout_2b_checked (train_id t)) as H.
    rewrite forallb_forall in H. specialize (H _ (layout_2b_class t Ht)). by rewrite Hr in H.
  - intros ->. split; [do 9 right; by left|]. intros t Ht. rewrite check_renders_sound. pose proof layout_3h_checked as H.
    rewrite forallb_forall in H. specialize (H t Ht). apply Bool.eqb_prop in H. rewrite H. by case_bool_decide.
Qed.

(** ** Wiring *)

(** C15: On the layouts, a transition of a train leads to its destination: with the
    turnouts as the transition switches them, those that no train switches as at
    the start, and all others in any state, the route that the green signal of
    its source asks for passes over bound pieces of track and ends at the signal
    of its destination, and at no signal before.  This fails exactly for two
    transitions of the layout 2a, where a stub is bound to the wrong side of its
    turnout, and four of the layout 3h, which switch a slip the wrong way. *)
Theorem transitions_lead l misled c w :
  In (l, misled) wiring -> In c (classes l) -> In w (ways c) ->
  leads l w <-> ~ In (way_name w) misled.
Proof.
  intros Hl Hc Hw. apply (check_ways_sound l misled c w); [|done..].
  pose proof wiring_checked as H. rewrite forallb_forall in H. exact (H (l, misled) Hl).
Qed.

(** ** Trains *)

Section Automata.
Context {V W : Type} `{VV : !Velocity V} `{NN : !Node V W} `{QN : !QuietNode V W} `{QT : !QuietTrain V W}.

(** The automata of a train, rendered with the members after the preamble. *)
Definition train_rendered (gid : nat -> option GlobalVariableId) (place : nat -> option Place) (t : Train)
    (code : list Z) (a : nat) (s : AutomataRunner (V := V) (W := W)) : Prop :=
  exists m, members_of (train_id t) (run_transition t) = Some m /\
    xrunnable gid place local_ids (speed_var_ (vars_of (train_id t))) (body_with (train_body gid (train_id t) (run_transition t)) m) code a s.

Lemma train_schedule_rendered gid place t ps code a s :
  0 <= train_id t < 2 ^ 64 -> well_wired (train_id t) (run_transition t) ps -> train_rendered gid place t code a s ->
  schedule_rendered gid place (reset_routes_of (run_transition t)) (vars_of (train_id t)) (calls_of (run_transition t)) ps code a s.
Proof.
  intros Hid [Hps _ _ _ Ho] (m & Hm & Hr). split; [done|done|]. unfold parts_of in Hps. rewrite Hm in Hps. cbn in Hps.
  destruct (resolve _ _) as [[ps' t']|] eqn:E; [|done]. cbn in Hps. injection Hps as <-. by exists m, t'.
Qed.

(** C14: The trains of the layouts 1i, 2a, 5a and 6a, which all render, follow their
    schedules, whatever the rest of the layout does between two runs of their
    automata: a train that is in a block of its schedule is after a run in one
    block of its schedule, where it came along its transitions and, where a block
    has several ways out, by the one chosen; and if the run decides to go, some
    transition that leads on was clear. *)
Theorem layout_trains_follow l t :
  In l running_layouts -> In t (trains l) ->
  exists ps, parts_of (train_id t) (run_transition t) = Some ps /\
    let v := vars_of (train_id t) in
    forall gid place code a (s : AutomataRunner (V := V) (W := W)) e k,
      train_rendered gid place t code a s -> ready gid place (speed_var_ v) a s e -> on_schedule ps k e ->
      exists s' u x k', run_automata code a s = Some (Done tt s') /\
        xrepresents gid place local_ids (speed_var_ v) u (core s') x /\
        on_schedule ps k' (layout x) /\ journey v ps e k k' /\
        (In (estate e) idle_states -> estate (layout x) = StTurnout ->
         exists leg, In leg (legs ps) /\ cleared v leg e /\ active leg (layout x)).
Proof.
  intros Hl Ht. pose proof (running_checked (train_id t)) as H. rewrite forallb_forall in H.
  specialize (H _ (running_class l t Hl Ht)). apply andb_prop in H as [H _].
  destruct (check_class_sound _ _ H) as [ps Hps]. exists ps. split; [apply Hps|]. intros v gid place code a s e k Hr Hready Hon.
  pose proof (train_schedule_rendered gid place t ps code a s (train_ids l t (running_all l Hl) Ht) Hps Hr) as Hs.
  destruct Hps as [_ Hok Hw HA _]. pose proof (parts_ok_legs v _ ps Hok) as OK.
  destruct (round_plain v ps Hw OK (reset_routes_of (run_transition t)) e k Hok Hon) as (d & x & Ex & El & Hg).
  destruct (round_travels v ps Hw OK (reset_routes_of (run_transition t)) d e k Hg Hon) as (k' & S' & J).
  pose proof (rendered_schedule_runs gid place (reset_routes_of (run_transition t)) v _ ps code a s e Hs Hready) as HR.
  rewrite Ex in HR. destruct HR as (s' & u & Es & X). exists s', u, x, k'. rewrite El in *.
  do 4 (split; [done|]). intros Hidle. by apply round_departs; [..|apply (os_tests _ _ _ Hon)|].
Qed.

End Automata.
