(* ===== verification/Queues.v ===== *)
(** The queues of OpenMRN, as far as this repository uses them: [QList<1>]
    (messages of state flows, urgent updates) and [TypedQueue].  Their code is
    in the submodule; the classes say what users rely on. *)

From S2P Require Import Prelude.

(** [QList<1>]: [insert] and [next]. *)
Class QList (Q A : Type) := {
  q_empty : Q;
  q_insert : A -> Q -> Q;
  q_next : Q -> option (A * Q)
}.

(** Elements of one priority leave in the order in which they came. *)
Class QListOk (Q A : Type) `{!QList Q A} := {
  q_list : Q -> list A;
  q_list_empty : q_list q_empty = [];
  q_list_insert a q : q_list (q_insert a q) = q_list q ++ [a];
  q_list_next q :
    match q_next q with
    | None => q_list q = []
    | Some (a, q') => q_list q = a :: q_list q'
    end
}.

(** [TypedQueue]: [empty], [push_front], [front] and [pop_front]. *)
Class TypedQueue (T A : Type) := {
  tq_new : T;
  tq_push_front : A -> T -> T;
  tq_front : T -> option A;
  tq_pop_front : T -> T
}.

Class TypedQueueOk (T A : Type) `{!TypedQueue T A} := {
  tq_list : T -> list A;
  tq_list_new : tq_list tq_new = [];
  tq_list_push_front a t : tq_list (tq_push_front a t) = a :: tq_list t;
  tq_front_list t : tq_front t = head (tq_list t);
  tq_list_pop_front t : tq_list (tq_pop_front t) = tail (tq_list t)
}.

Create Rewrite HintDb queues.
#[export] Hint Rewrite @q_list_empty @q_list_insert @tq_list_new @tq_list_push_front @tq_front_list
  @tq_list_pop_front : queues.

Section Laws.
Context {Q A : Type} `{QListOk Q A}.

Lemma q_next_cons q a l :
  q_list q = a :: l -> exists q', q_next q = Some (a, q') /\ q_list q' = l.
Proof.
  intros E. pose proof (q_list_next q) as Hn. destruct (q_next q) as [[b q']|]; [|congruence].
  rewrite E in Hn. injection Hn as -> ->. eauto.
Qed.

Lemma q_next_nil q : q_list q = [] -> q_next q = None.
Proof.
  intros E. pose proof (q_list_next q) as Hn. destruct (q_next q) as [[b q']|]; [|done]. congruence.
Qed.

Lemma q_next_Some q a q' : q_next q = Some (a, q') -> q_list q = a :: q_list q'.
Proof. intros E. pose proof (q_list_next q) as Hn. by rewrite E in Hn. Qed.

End Laws.

(** Lists have these operations. *)
#[export] Instance list_QList A : QList (list A) A := {
  q_empty := [];
  q_insert a q := q ++ [a];
  q_next q := match q with [] => None | a :: q => Some (a, q) end
}.

#[export, refine] Instance list_QListOk A : QListOk (list A) A := { q_list := id }.
Proof. all: try done. by intros [|a q]. Defined.

#[export] Instance list_TypedQueue A : TypedQueue (list A) A := {
  tq_new := [];
  tq_push_front := cons;
  tq_front := head;
  tq_pop_front := tail
}.

#[export, refine] Instance list_TypedQueueOk A : TypedQueueOk (list A) A := { tq_list := id }.
Proof. all: done. Defined.
