(* ===== verification/UpdateProcessor.v ===== *)
(** The DCC update loop (src/cs/commandstation/UpdateProcessor.cxx,
    UpdateProcessor.hxx): which packet source fills the next packet.

    Packet sources are numbered objects of OpenMRN.  [entry] is one step: it is
    called with the time that [os_get_time_monotonic] returns, and answers with
    the source that fills the packet.  What a source does in [get_next_packet],
    such as reporting an update again, is an operation after the step. *)

From S2P Require Import Prelude Queues.

Section UpdateProcessor.

(** [dcc::UpdateLoopBase::EXCLUSIVE_MIN_PRIORITY], and the configured
    [dcc_packet_min_refresh_delay_ms] in nanoseconds. *)
Context (EXCLUSIVE_MIN_PRIORITY min_refresh_delay : Z).

Definition PacketSource := positive.

(** [PriorityUpdate] *)
Definition PriorityUpdate : Type := PacketSource * Z.

Context {Q : Type} `{QO : QListOk Q PriorityUpdate}.

Record SourceState := mkSourceState {
  lastPacketTime_ : Z;
  priority_ : Z
}.

Record UpdateProcessor := mkUpdateProcessor {
  priorityUpdates_ : Q;
  refreshSources_ : list PacketSource;
  packetSourceStates_ : gmap PacketSource SourceState;
  nextRefreshIndex_ : Z;
  exclusiveIndex_ : Z;
  hasRefreshSource_ : bool
}.

Definition set_updates (q : Q) (u : UpdateProcessor) : UpdateProcessor :=
  mkUpdateProcessor q (refreshSources_ u) (packetSourceStates_ u) (nextRefreshIndex_ u)
    (exclusiveIndex_ u) (hasRefreshSource_ u).
Definition set_sources (l : list PacketSource) (has : bool) (u : UpdateProcessor) : UpdateProcessor :=
  mkUpdateProcessor (priorityUpdates_ u) l (packetSourceStates_ u) (nextRefreshIndex_ u)
    (exclusiveIndex_ u) has.
Definition set_states (m : gmap PacketSource SourceState) (u : UpdateProcessor) : UpdateProcessor :=
  mkUpdateProcessor (priorityUpdates_ u) (refreshSources_ u) m (nextRefreshIndex_ u)
    (exclusiveIndex_ u) (hasRefreshSource_ u).
Definition set_next (i : Z) (u : UpdateProcessor) : UpdateProcessor :=
  mkUpdateProcessor (priorityUpdates_ u) (refreshSources_ u) (packetSourceStates_ u) i
    (exclusiveIndex_ u) (hasRefreshSource_ u).
Definition set_exclusive (i : Z) (u : UpdateProcessor) : UpdateProcessor :=
  mkUpdateProcessor (priorityUpdates_ u) (refreshSources_ u) (packetSourceStates_ u)
    (nextRefreshIndex_ u) i (hasRefreshSource_ u).

(** The bit fields have 15 bits. *)
Definition u15 (z : Z) : Z := z mod 2 ^ 15.

Definition NO_EXCLUSIVE : Z := 0x7FF.

Definition new_UpdateProcessor : UpdateProcessor :=
  mkUpdateProcessor q_empty [] ∅ 0 NO_EXCLUSIVE false.

Definition has_exclusive (u : UpdateProcessor) : bool := negb (exclusiveIndex_ u =? NO_EXCLUSIVE).

(** [refreshSources_[i]]; no element there is undefined behaviour. *)
Definition source_at (i : Z) : prog UpdateProcessor PacketSource := fun u =>
  match znth (refreshSources_ u) i with
  | Some s => Done s u
  | None => Crashed OutOfBounds
  end.

(** [packetSourceStates_[s]], which inserts an element if there is none. *)
Definition state_at (s : PacketSource) : prog UpdateProcessor SourceState := fun u =>
  match packetSourceStates_ u !! s with
  | Some st => Done st u
  | None =>
      let st := mkSourceState 0 0 in
      Done st (set_states (<[s := st]> (packetSourceStates_ u)) u)
  end.

Definition set_state (s : PacketSource) (st : SourceState) : prog UpdateProcessor unit := fun u =>
  Done tt (set_states (<[s := st]> (packetSourceStates_ u)) u).

Definition add_refresh_source (source : PacketSource) (priority : Z) : prog UpdateProcessor bool :=
  u ← get_state;
  put_state (set_sources (push_back (refreshSources_ u) source) true u);;
  state_at source;;
  set_state source (mkSourceState 0 priority);;
  if EXCLUSIVE_MIN_PRIORITY <=? priority then
    last_priority ←
      (if has_exclusive u then
         s ← source_at (exclusiveIndex_ u); st ← state_at s; mret (priority_ st)
       else mret 0);
    if last_priority <? priority then
      modify_state (fun u => set_exclusive (u15 (zlen (refreshSources_ u) - 1)) u);; mret true
    else mret false
  else mret (negb (has_exclusive u)).

(** The loop of [remove_refresh_source] over the sources from index [i] on. *)
Fixpoint max_exclusive (l : list PacketSource) (i max_priority max_index : Z) :
    prog UpdateProcessor Z :=
  match l with
  | [] => mret max_index
  | s :: l =>
      st ← state_at s;
      if max_priority <=? priority_ st then max_exclusive l (i + 1) (priority_ st) i
      else max_exclusive l (i + 1) max_priority max_index
  end.

Definition remove_refresh_source (source : PacketSource) : prog UpdateProcessor unit :=
  u ← get_state;
  let l := filter (fun s => s ≠ source) (refreshSources_ u) in
  put_state (set_sources l (hasRefreshSource_ u && negb (bool_decide (l = []))) u);;
  modify_state (fun u => set_states (delete source (packetSourceStates_ u)) u);;
  max_index ← max_exclusive l 0 EXCLUSIVE_MIN_PRIORITY NO_EXCLUSIVE;
  modify_state (set_exclusive (u15 max_index)).

Definition notify_update (source : PacketSource) (code : Z) : prog UpdateProcessor unit :=
  modify_state (fun u => set_updates (q_insert (source, code) (priorityUpdates_ u)) u).

(** *** The state flow *)

(** What is in the packet that goes to the track: what a source fills in for a
    code, or an idle packet. *)
Inductive Packet :=
| FromSource (s : PacketSource) (code : Z)
| DccIdle.

(** The priority entry [b] of [entry]: the source that may have its packet, if
    any, and the code. *)
Definition take_update (now : Z) (b : PriorityUpdate) :
    prog UpdateProcessor (option PacketSource * Z) := fun u =>
  let '(s, code) := b in
  match packetSourceStates_ u !! s with
  | None => Done (None, code) u
  | Some st =>
      if now - min_refresh_delay <? lastPacketTime_ st then
        Done (None, code) (set_updates (q_insert b (priorityUpdates_ u)) u)
      else Done (Some s, code) u
  end.

(** [s = refreshSources_[nextRefreshIndex_++]] *)
Definition next_source : prog UpdateProcessor PacketSource :=
  modify_state (fun u =>
    if zlen (refreshSources_ u) <=? nextRefreshIndex_ u then set_next 0 u else u);;
  u ← get_state;
  modify_state (set_next (u15 (nextRefreshIndex_ u + 1)));;
  source_at (nextRefreshIndex_ u).

(** The search for a background source, [tries] times. *)
Fixpoint find_background (tries : nat) (now : Z) (code : Z) :
    prog UpdateProcessor (option PacketSource * Z) :=
  match tries with
  | O => mret (None, code)
  | S tries =>
      s ← next_source;
      st ← state_at s;
      if lastPacketTime_ st <? now - min_refresh_delay then mret (Some s, 0)
      else find_background tries now 0
  end.

(** The first atomic section: the exclusive source, or else an update. *)
Definition choose (now : Z) : prog UpdateProcessor (option PacketSource * Z) :=
  u ← get_state;
  if has_exclusive u then s ← source_at (exclusiveIndex_ u); mret (Some s, 0)
  else
    match q_next (priorityUpdates_ u) with
    | None => mret (None, 0)
    | Some (b, q) => put_state (set_updates q u);; take_update now b
    end.

Definition fill_packet (now : Z) (s : option PacketSource) (code : Z) : prog UpdateProcessor Packet :=
  match s with
  | Some s =>
      st ← state_at s;
      set_state s (mkSourceState now (priority_ st));;
      mret (FromSource s code)
  | None => mret DccIdle
  end.

Definition entry (now : Z) : prog UpdateProcessor Packet :=
  '(s, code) ← choose now;
  u ← get_state;
  '(s, code) ←
    (match s with
    | None =>
        if hasRefreshSource_ u then find_background (length (refreshSources_ u)) now code
        else mret (s, code)
    | Some _ => mret (s, code)
    end);
  fill_packet now s code.

(** ** Operations *)

Inductive op :=
| Add (s : PacketSource) (priority : Z)
| Remove (s : PacketSource)
| Notify (s : PacketSource) (code : Z)
| Entry (now : Z).

(** An operation, and the packet that it sends, if any. *)
Definition exec (o : op) : prog UpdateProcessor (option (Z * Packet)) :=
  match o with
  | Add s priority => add_refresh_source s priority;; mret None
  | Remove s => remove_refresh_source s;; mret None
  | Notify s code => notify_update s code;; mret None
  | Entry now => p ← entry now; mret (Some (now, p))
  end.

(** Sources are added once, and there are at most 2047, so that no index of a
    source is [NO_EXCLUSIVE]. *)
Definition allowed (o : op) (u : UpdateProcessor) : Prop :=
  match o with
  | Add s priority => (s ∉ refreshSources_ u) /\ zlen (refreshSources_ u) < NO_EXCLUSIVE
  | _ => True
  end.

Inductive reachable : UpdateProcessor -> Prop :=
| reachable_new : reachable new_UpdateProcessor
| reachable_step o u p u' : reachable u -> allowed o u -> exec o u = Done p u' -> reachable u'.

(** A run of operations with the packets that were sent, and when. *)
Inductive steps : UpdateProcessor -> list op -> list (Z * Packet) -> UpdateProcessor -> Prop :=
| steps_nil u : steps u [] [] u
| steps_cons o u p u1 l ps u2 :
    allowed o u -> exec o u = Done p u1 -> steps u1 l ps u2 ->
    steps u (o :: l) (option_list p ++ ps) u2.

(** ** The invariant *)

Definition priority_of (u : UpdateProcessor) (s : PacketSource) : Z :=
  from_option priority_ 0 (packetSourceStates_ u !! s).
Definition last_packet (u : UpdateProcessor) (s : PacketSource) : Z :=
  from_option lastPacketTime_ 0 (packetSourceStates_ u !! s).

(** The exclusive source is one with the highest priority. *)
Definition exclusive_ok (u : UpdateProcessor) : Prop :=
  if has_exclusive u then
    exists s, znth (refreshSources_ u) (exclusiveIndex_ u) = Some s /\
      EXCLUSIVE_MIN_PRIORITY <= priority_of u s /\
      forall s', s' ∈ refreshSources_ u -> priority_of u s' <= priority_of u s
  else forall s, s ∈ refreshSources_ u -> priority_of u s < EXCLUSIVE_MIN_PRIORITY.

Record up_ok (u : UpdateProcessor) : Prop := {
  ok_has : hasRefreshSource_ u = negb (bool_decide (refreshSources_ u = []));
  ok_dom : forall s, is_Some (packetSourceStates_ u !! s) <-> s ∈ refreshSources_ u;
  ok_nodup : NoDup (refreshSources_ u);
  ok_size : zlen (refreshSources_ u) <= NO_EXCLUSIVE;
  ok_next : 0 <= nextRefreshIndex_ u < 2 ^ 15;
  ok_exclusive : exclusive_ok u
}.

Lemma u15_small z : 0 <= z < 2 ^ 15 -> u15 z = z.
Proof. apply Z.mod_small. Qed.

Lemma u15_range z : 0 <= u15 z < 2 ^ 15.
Proof. apply Z.mod_pos_bound. lia. Qed.

Lemma state_at_Some s st u : packetSourceStates_ u !! s = Some st -> state_at s u = Done st u.
Proof. intros E. unfold state_at. by rewrite E. Qed.

Lemma source_at_Some i s u : znth (refreshSources_ u) i = Some s -> source_at i u = Done s u.
Proof. intros E. unfold source_at. by rewrite E. Qed.

Lemma znth_elem {A} (l : list A) i x : znth l i = Some x -> x ∈ l.
Proof. unfold znth. destruct (0 <=? i); [|done]. apply list_elem_of_lookup_2. Qed.

Lemma ok_state u s :
  up_ok u -> s ∈ refreshSources_ u ->
  exists st, packetSourceStates_ u !! s = Some st /\ state_at s u = Done st u.
Proof.
  intros Ok Hs. apply (ok_dom u Ok) in Hs as [st E]. eauto using state_at_Some.
Qed.

(** *** Adding a source *)

(** Whether a new source of a priority becomes the exclusive one. *)
Definition takes_over (priority : Z) (u : UpdateProcessor) : bool :=
  (EXCLUSIVE_MIN_PRIORITY <=? priority) &&
  (match znth (refreshSources_ u) (exclusiveIndex_ u) with
   | Some s => if has_exclusive u then priority_of u s else 0
   | None => 0
   end <? priority).

Lemma add_result s p u :
  up_ok u -> s ∉ refreshSources_ u -> zlen (refreshSources_ u) < NO_EXCLUSIVE ->
  exists b,
  add_refresh_source s p u = Done b
    (mkUpdateProcessor (priorityUpdates_ u) (refreshSources_ u ++ [s])
       (<[s := mkSourceState 0 p]> (packetSourceStates_ u)) (nextRefreshIndex_ u)
       (if takes_over p u then zlen (refreshSources_ u) else exclusiveIndex_ u) true).
Proof.
  intros Ok Hs Hl.
  assert (E : packetSourceStates_ u !! s = None)
    by (apply eq_None_not_Some; by rewrite (ok_dom u Ok)).
  pose proof (zlen_nonneg (refreshSources_ u)) as Hz. unfold NO_EXCLUSIVE in Hl.
  assert (Hu : u15 (zlen (refreshSources_ u ++ [s]) - 1) = zlen (refreshSources_ u))
    by (rewrite zlen_app, zlen_cons, zlen_nil, u15_small; lia).
  unfold add_refresh_source, takes_over, state_at, set_state, get_state, put_state, modify_state, mbind,
    prog_bind, push_back. cbn. rewrite E. cbn. rewrite insert_insert_eq.
  destruct (Z.leb_spec EXCLUSIVE_MIN_PRIORITY p); cbn; [|eauto].
  pose proof (ok_exclusive u Ok) as He. unfold exclusive_ok in He.
  destruct (has_exclusive u) eqn:Ex.
  - destruct He as (s0 & Hi & Hp & _). rewrite Hi.
    assert (s0 <> s) by (intros ->; apply Hs; by eapply znth_elem).
    unfold source_at, state_at, mret, prog_ret. cbn.
    rewrite (znth_app_l _ _ _) by (apply znth_Some in Hi; lia). rewrite Hi. cbn.
    rewrite lookup_insert_ne by done. unfold priority_of.
    assert (Hs0 : is_Some (packetSourceStates_ u !! s0))
      by (apply (ok_dom u Ok); by eapply znth_elem).
    destruct Hs0 as [st Est]. rewrite Est. cbn.
    destruct (priority_ st <? p); cbn; [rewrite Hu|]; eauto.
  - assert (Em : match znth (refreshSources_ u) (exclusiveIndex_ u) with
                 | Some s0 => 0 | None => 0 end = 0) by (by destruct (znth _ _)).
    rewrite Em. cbn. destruct (0 <? p); cbn; [rewrite Hu|]; eauto.
Qed.

Lemma priority_of_insert u s st l i e s' :
  priority_of (mkUpdateProcessor (priorityUpdates_ u) l (<[s := st]> (packetSourceStates_ u)) i e true) s'
  = if decide (s = s') then priority_ st else priority_of u s'.
Proof. unfold priority_of. cbn. rewrite lookup_insert. by case_decide. Qed.

Context (EXCLUSIVE_pos : 0 < EXCLUSIVE_MIN_PRIORITY).

Lemma takes_over_spec p u s :
  up_ok u -> znth (refreshSources_ u) (exclusiveIndex_ u) = Some s -> has_exclusive u = true ->
  takes_over p u = true <-> EXCLUSIVE_MIN_PRIORITY <= p /\ priority_of u s < p.
Proof.
  intros Ok E Ex. unfold takes_over. rewrite E, Ex, andb_true_iff, Z.leb_le, Z.ltb_lt. done.
Qed.

Lemma takes_over_fresh p u :
  has_exclusive u = false -> takes_over p u = true <-> EXCLUSIVE_MIN_PRIORITY <= p.
Proof.
  intros Ex. unfold takes_over. rewrite Ex, andb_true_iff, Z.leb_le, Z.ltb_lt.
  destruct (znth _ _); intuition lia.
Qed.

Lemma has_exclusive_index u i :
  0 <= i < NO_EXCLUSIVE -> exclusiveIndex_ u = i -> has_exclusive u = true.
Proof. intros Hi E. unfold has_exclusive. apply negb_true_iff, Z.eqb_neq. lia. Qed.

Lemma add_exclusive_ok s p u :
  up_ok u -> s ∉ refreshSources_ u -> zlen (refreshSources_ u) < NO_EXCLUSIVE ->
  exclusive_ok
    (mkUpdateProcessor (priorityUpdates_ u) (refreshSources_ u ++ [s])
       (<[s := mkSourceState 0 p]> (packetSourceStates_ u)) (nextRefreshIndex_ u)
       (if takes_over p u then zlen (refreshSources_ u) else exclusiveIndex_ u) true).
Proof.
  intros Ok Hs Hl. pose proof (ok_exclusive u Ok) as He. unfold exclusive_ok in *.
  assert (Hne : forall s', s' ∈ refreshSources_ u -> s <> s') by (intros s' H ->; done).
  pose proof (zlen_nonneg (refreshSources_ u)) as Hz.
  destruct (takes_over p u) eqn:Et.
  - rewrite (has_exclusive_index _ (zlen (refreshSources_ u))) by done. cbn [refreshSources_ exclusiveIndex_].
    exists s. split; [apply znth_middle|]. rewrite priority_of_insert, decide_True by done. cbn.
    split; [unfold takes_over in Et; lia|]. intros s' Hs'. rewrite priority_of_insert.
    case_decide; [done|]. apply elem_of_app in Hs' as [Hs'|Hs'%list_elem_of_singleton]; [|congruence].
    destruct (has_exclusive u) eqn:Ex.
    + destruct He as (s0 & Hi & Hp & Hmax). apply (takes_over_spec p u s0 Ok Hi Ex) in Et.
      specialize (Hmax s' Hs'). lia.
    + apply (takes_over_fresh p u Ex) in Et. specialize (He s' Hs'). lia.
  - unfold has_exclusive in *. cbn [refreshSources_ exclusiveIndex_].
    destruct (negb (exclusiveIndex_ u =? NO_EXCLUSIVE)) eqn:Ex.
    + destruct He as (s0 & Hi & Hp & Hmax).
      assert (Hp' : ~ (EXCLUSIVE_MIN_PRIORITY <= p /\ priority_of u s0 < p))
        by (rewrite <- (takes_over_spec p u s0 Ok Hi Ex); congruence).
      pose proof (znth_elem _ _ _ Hi) as Hin. exists s0.
      rewrite znth_app_l by (apply znth_Some in Hi; lia). split; [done|].
      rewrite priority_of_insert, decide_False by auto. split; [done|].
      intros s' Hs'. rewrite priority_of_insert.
      apply elem_of_app in Hs' as [Hs'|Hs'%list_elem_of_singleton].
      * rewrite decide_False by auto. auto.
      * subst s'. rewrite decide_True by done. cbn. lia.
    + assert (Hp' : ~ EXCLUSIVE_MIN_PRIORITY <= p)
        by (rewrite <- (takes_over_fresh p u Ex); congruence).
      intros s' Hs'. rewrite priority_of_insert.
      apply elem_of_app in Hs' as [Hs'|Hs'%list_elem_of_singleton].
      * rewrite decide_False by auto. auto.
      * subst s'. rewrite decide_True by done. cbn. lia.
Qed.

Lemma add_ok s p u :
  up_ok u -> s ∉ refreshSources_ u -> zlen (refreshSources_ u) < NO_EXCLUSIVE ->
  exists b u', add_refresh_source s p u = Done b u' /\ up_ok u'.
Proof.
  intros Ok Hs Hl. destruct (add_result s p u Ok Hs Hl) as [b E]. rewrite E.
  do 2 eexists. split; [done|]. pose proof (add_exclusive_ok s p u Ok Hs Hl) as He.
  destruct Ok. split; cbn; try done.
  - by destruct (refreshSources_ u).
  - intros s'. rewrite lookup_insert_is_Some, elem_of_app, list_elem_of_singleton, ok_dom0.
    by destruct (decide (s = s')) as [<-|]; intuition.
  - apply NoDup_app. split; [done|]. split; [|apply NoDup_singleton].
    intros s' H ->%list_elem_of_singleton. done.
  - rewrite zlen_app, zlen_cons, zlen_nil. lia.
Qed.

(** *** Removing a source *)

Lemma max_exclusive_spec l i mp mi u :
  (forall s, s ∈ l -> is_Some (packetSourceStates_ u !! s)) ->
  exists r, max_exclusive l i mp mi u = Done r u /\
  (r = mi /\ (forall s, s ∈ l -> priority_of u s < mp) \/
   exists j s, znth l j = Some s /\ r = i + j /\ mp <= priority_of u s /\
     forall s', s' ∈ l -> priority_of u s' <= priority_of u s).
Proof.
  revert i mp mi. induction l as [|s l IH]; intros i mp mi H; cbn [max_exclusive].
  { exists mi. split; [done|]. left. split; [done|]. intros s []%not_elem_of_nil. }
  destruct (H s) as [st Es]; [left|]. unfold mbind, prog_bind. rewrite (state_at_Some s st u Es).
  assert (Ep : priority_of u s = priority_ st) by (unfold priority_of; by rewrite Es).
  assert (Ht : forall s', s' ∈ l -> is_Some (packetSourceStates_ u !! s')) by (intros s' ?; apply H; by right).
  assert (Hshift : forall j s', znth l j = Some s' -> znth (s :: l) (1 + j) = Some s').
  { intros j s' Hj. pose proof (znth_Some _ _ _ Hj). rewrite (znth_app_r [s] l) by zlen_lia.
    rewrite <- Hj. f_equal. zlen_lia. }
  destruct (Z.leb_spec mp (priority_ st)) as [Hc|Hc].
  - destruct (IH (i + 1) (priority_ st) i Ht) as (r & -> & [[-> Hr]|(j & s' & Hj & -> & Hp & Hr)]);
      eexists; (split; [done|]); right.
    + exists 0, s. split; [apply (znth_middle [] l s)|]. split; [lia|]. split; [lia|].
      intros s' [->|Hs']%elem_of_cons; [lia|]. specialize (Hr s' Hs'). lia.
    + exists (1 + j), s'. split; [by apply Hshift|]. split; [lia|]. split; [lia|].
      intros s'' [->|Hs']%elem_of_cons; [lia|]. auto.
  - destruct (IH (i + 1) mp mi Ht) as (r & -> & [[-> Hr]|(j & s' & Hj & -> & Hp & Hr)]);
      eexists; (split; [done|]).
    + left. split; [done|]. intros s' [->|Hs']%elem_of_cons; [lia|]. auto.
    + right. exists (1 + j), s'. split; [by apply Hshift|]. split; [lia|]. split; [lia|].
      intros s'' [->|Hs']%elem_of_cons; [lia|]. auto.
Qed.

Definition removed (s : PacketSource) (e : Z) (u : UpdateProcessor) : UpdateProcessor :=
  let l := filter (fun s' => s' ≠ s) (refreshSources_ u) in
  mkUpdateProcessor (priorityUpdates_ u) l (delete s (packetSourceStates_ u)) (nextRefreshIndex_ u) e
    (hasRefreshSource_ u && negb (bool_decide (l = []))).

Lemma removed_dom s e u s' :
  up_ok u -> is_Some (packetSourceStates_ (removed s e u) !! s') <-> s' ∈ refreshSources_ (removed s e u).
Proof.
  intros Ok. cbn. rewrite lookup_delete_is_Some, list_elem_of_filter, (ok_dom u Ok). intuition.
Qed.

Lemma zlen_filter {A} (P : A -> Prop) `{!forall x, Decision (P x)} (l : list A) : zlen (filter P l) <= zlen l.
Proof. unfold zlen. pose proof (length_filter P l). lia. Qed.

Lemma remove_ok s u :
  up_ok u -> exists e, remove_refresh_source s u = Done tt (removed s e u) /\ up_ok (removed s e u).
Proof.
  intros Ok. unfold remove_refresh_source, get_state, put_state, modify_state, mbind, prog_bind. cbn.
  match goal with |- context [max_exclusive ?l ?i ?mp ?mi ?x] =>
    destruct (max_exclusive_spec l i mp mi x) as (r & -> & Hr) end.
  { intros s' Hs'. by apply (removed_dom s 0 u s' Ok). }
  exists (u15 r). split; [done|].
  pose proof (ok_size u Ok) as Hsz.
  pose proof (zlen_filter (fun s' => s' ≠ s) (refreshSources_ u)) as Hle. unfold NO_EXCLUSIVE in Hsz.
  split; cbn.
  - rewrite (ok_has u Ok). destruct (refreshSources_ u) as [|s' l]; [done|]. cbn. by destruct (filter _ _).
  - intros s'. by apply (removed_dom s (u15 r)).
  - apply NoDup_filter, (ok_nodup u Ok).
  - unfold NO_EXCLUSIVE. lia.
  - apply (ok_next u Ok).
  - unfold exclusive_ok. destruct Hr as [[-> Hr]|(j & s0 & Hj & -> & Hp & Hr)].
    + rewrite (u15_small NO_EXCLUSIVE) by done. exact Hr.
    + pose proof (znth_Some _ _ _ Hj) as Hjr.
      rewrite (u15_small (0 + j)) by lia.
      rewrite (has_exclusive_index _ j) by (try done; unfold NO_EXCLUSIVE; lia).
      exists s0. done.
Qed.

(** *** Filling a packet *)

(** What a step may change before the packet is filled: the queue of updates
    and the index of the next background source. *)
Record moved (u u' : UpdateProcessor) : Prop := {
  mv_sources : refreshSources_ u' = refreshSources_ u;
  mv_states : packetSourceStates_ u' = packetSourceStates_ u;
  mv_has : hasRefreshSource_ u' = hasRefreshSource_ u;
  mv_exclusive : exclusiveIndex_ u' = exclusiveIndex_ u;
  mv_next : 0 <= nextRefreshIndex_ u < 2 ^ 15 -> 0 <= nextRefreshIndex_ u' < 2 ^ 15
}.

#[local] Instance moved_preorder : PreOrder moved.
Proof.
  split; [split; done|]. intros u1 u2 u3 [] []. split; try congruence. auto.
Qed.

Lemma moved_has_exclusive u u' : moved u u' -> has_exclusive u' = has_exclusive u.
Proof. intros [_ _ _ E _]. unfold has_exclusive. by rewrite E. Qed.

Lemma moved_priority_of u u' s : moved u u' -> priority_of u' s = priority_of u s.
Proof. intros [_ E _ _ _]. unfold priority_of. by rewrite E. Qed.

Lemma moved_last_packet u u' s : moved u u' -> last_packet u' s = last_packet u s.
Proof. intros [_ E _ _ _]. unfold last_packet. by rewrite E. Qed.

(** Whether a source had a packet too recently for another one. *)
Definition recent (now : Z) (s : PacketSource) (u : UpdateProcessor) : bool :=
  now - min_refresh_delay <? last_packet u s.

(** The updates in the queue, the next one first. *)
Definition updates (u : UpdateProcessor) : list PriorityUpdate := q_list (priorityUpdates_ u).

(** What becomes of the queue of updates. *)
Definition updates_after (now : Z) (u : UpdateProcessor) : list PriorityUpdate :=
  let q := updates u in
  match q with
  | (s, c) :: q' =>
      if has_exclusive u then q
      else if bool_decide (s ∈ refreshSources_ u) && recent now s u then q' ++ [(s, c)]
      else q'
  | [] => []
  end.

(** The source of the first section. *)
Definition chosen (now : Z) (u : UpdateProcessor) : option PriorityUpdate :=
  if has_exclusive u then (fun s => (s, 0)) <$> znth (refreshSources_ u) (exclusiveIndex_ u)
  else
    match updates u with
    | (s, c) :: _ =>
        if bool_decide (s ∈ refreshSources_ u) && negb (recent now s u) then Some (s, c) else None
    | [] => None
    end.

Lemma choose_result now u :
  up_ok u ->
  exists u' c, choose now u = Done (fst <$> chosen now u, c) u' /\ moved u u' /\
    nextRefreshIndex_ u' = nextRefreshIndex_ u /\
    updates u' = updates_after now u /\
    (forall s c', chosen now u = Some (s, c') -> c = c').
Proof.
  intros Ok. unfold choose, chosen, updates_after, mbind, prog_bind, get_state, put_state.
  pose proof (ok_exclusive u Ok) as He. unfold exclusive_ok in He.
  destruct (has_exclusive u) eqn:Ex.
  - destruct He as (s & Hi & _). rewrite (source_at_Some _ _ _ Hi), Hi. exists u, 0.
    refine (conj eq_refl (conj (PreOrder_Reflexive u) (conj eq_refl (conj _ _)))).
    + by destruct (updates u) as [|[]].
    + by intros ?? [= -> ->].
  - pose proof (q_list_next (A := PriorityUpdate) (priorityUpdates_ u)) as Hq. fold (updates u) in Hq.
    destruct (q_next (priorityUpdates_ u)) as [[[s c] q]|] eqn:Eq; rewrite Hq; cbn.
    2: { exists u, 0. refine (conj eq_refl (conj (PreOrder_Reflexive u) (conj eq_refl (conj Hq _)))). done. }
    unfold take_update, recent, last_packet. cbn.
    destruct (packetSourceStates_ u !! s) as [st|] eqn:Es; cbn.
    + rewrite bool_decide_true by (apply (ok_dom u Ok); eauto). cbn.
      destruct (now - min_refresh_delay <? lastPacketTime_ st); cbn; do 2 eexists;
        refine (conj eq_refl (conj _ (conj eq_refl (conj _ _)))); try by split.
      * apply q_list_insert.
      * done.
      * by intros ?? [= -> ->].
    + rewrite bool_decide_false by (rewrite <- (ok_dom u Ok), Es; by intros [? ?]).
      do 2 eexists. refine (conj eq_refl (conj _ (conj eq_refl (conj eq_refl _)))); [by split|done].
Qed.

(** The index that [next_source] uses, if there are [n] sources. *)
Definition wrapped (n i : Z) : Z := if n <=? i then 0 else i.

Lemma wrapped_range n i : 0 < n -> 0 <= i -> 0 <= wrapped n i < n.
Proof. intros. unfold wrapped. destruct (Z.leb_spec n i); lia. Qed.

Lemma next_source_result u :
  refreshSources_ u <> [] -> 0 <= nextRefreshIndex_ u ->
  exists s, let i := wrapped (zlen (refreshSources_ u)) (nextRefreshIndex_ u) in
    znth (refreshSources_ u) i = Some s /\
    next_source u = Done s (set_next (u15 (i + 1)) u).
Proof.
  intros Hne Hi. set (i := wrapped _ _).
  assert (Hr : 0 <= i < zlen (refreshSources_ u)).
  { apply wrapped_range; [|done]. destruct (refreshSources_ u); [done|]. zlen_lia. }
  apply znth_is_Some in Hr as [s Hs]. exists s. split; [done|].
  unfold next_source, modify_state, get_state, mbind, prog_bind, i, wrapped in *.
  destruct (zlen (refreshSources_ u) <=? nextRefreshIndex_ u); by rewrite (source_at_Some _ s).
Qed.

Lemma moved_set_next u i : 0 <= i < 2 ^ 15 -> moved u (set_next i u).
Proof. by split. Qed.

Lemma moved_ok u u' : moved u u' -> up_ok u -> up_ok u'.
Proof.
  intros M [H1 H2 H3 H4 H5 H6]. pose proof M as [E1 E2 E3 E4 E5].
  split; rewrite ?E1, ?E2, ?E3; try done; [by auto|].
  unfold exclusive_ok in *. rewrite (moved_has_exclusive u u' M), E1, E4.
  destruct (has_exclusive u).
  - destruct H6 as (s & Hi & Hp & Hm). exists s. rewrite (moved_priority_of u u' _ M).
    repeat split; try done. intros s' Hs'. rewrite (moved_priority_of u u' _ M). auto.
  - intros s Hs. rewrite (moved_priority_of u u' _ M). auto.
Qed.

(** The background search finds a source that may have a packet, if any. *)
Lemma find_background_result tries now c u :
  up_ok u -> refreshSources_ u <> [] ->
  exists r c' u', find_background tries now c u = Done (r, c') u' /\ moved u u' /\
    priorityUpdates_ u' = priorityUpdates_ u /\
    forall s, r = Some s -> c' = 0 /\ s ∈ refreshSources_ u /\ last_packet u s < now - min_refresh_delay.
Proof.
  intros Ok Hne. revert c u Ok Hne. induction tries as [|tries IH]; intros c u Ok Hne; cbn [find_background].
  { by exists None, c, u. }
  destruct (next_source_result u Hne) as (s & Hs & E); [apply (ok_next u Ok)|].
  unfold mbind, prog_bind. rewrite E. set (u1 := set_next _ u) in *.
  assert (M : moved u u1) by (apply moved_set_next, u15_range).
  pose proof (moved_ok u u1 M Ok) as Ok1. apply znth_elem in Hs.
  destruct (ok_state u1 s Ok1 Hs) as (st & Est & ->).
  assert (El : last_packet u s = lastPacketTime_ st)
    by (rewrite <- (moved_last_packet u u1 s M); unfold last_packet; by rewrite Est).
  destruct (Z.ltb_spec (lastPacketTime_ st) (now - min_refresh_delay)).
  - exists (Some s), 0, u1. split; [done|]. split; [done|]. split; [done|].
    intros ? [= <-]. repeat split; [done|lia].
  - destruct (IH 0 u1 Ok1 Hne) as (r & c' & u' & -> & M' & Hq & Hr). exists r, c', u'.
    split; [done|]. split; [by transitivity u1|]. split; [done|].
    intros s' Hs'. rewrite <- (moved_last_packet u u1 s' M). auto.
Qed.

(** The states after a packet. *)
Definition states_after (now : Z) (p : Packet) (u : UpdateProcessor) : gmap PacketSource SourceState :=
  match p with
  | FromSource s _ => <[s := mkSourceState now (priority_of u s)]> (packetSourceStates_ u)
  | DccIdle => packetSourceStates_ u
  end.

(** Who may fill the packet. *)
Definition may_send (now : Z) (p : Packet) (u : UpdateProcessor) : Prop :=
  match p with
  | FromSource s _ =>
      s ∈ refreshSources_ u /\
      if has_exclusive u then znth (refreshSources_ u) (exclusiveIndex_ u) = Some s
      else recent now s u = false
  | DccIdle => has_exclusive u = false
  end.

Record entry_effect (now : Z) (p : Packet) (u u' : UpdateProcessor) : Prop := {
  ee_sources : refreshSources_ u' = refreshSources_ u;
  ee_states : packetSourceStates_ u' = states_after now p u;
  ee_has : hasRefreshSource_ u' = hasRefreshSource_ u;
  ee_exclusive : exclusiveIndex_ u' = exclusiveIndex_ u;
  ee_next : 0 <= nextRefreshIndex_ u' < 2 ^ 15;
  ee_updates : updates u' = updates_after now u;
  ee_send : may_send now p u;
  ee_chosen s c : chosen now u = Some (s, c) -> p = FromSource s c
}.

Lemma chosen_may_send now u s c :
  up_ok u -> chosen now u = Some (s, c) -> may_send now (FromSource s c) u.
Proof.
  intros Ok. unfold chosen, may_send. destruct (has_exclusive u) eqn:Ex.
  - intros (s0 & Hi & [= -> ->])%fmap_Some. split; [by eapply znth_elem|done].
  - destruct (updates u) as [|[s0 c0] q]; [done|].
    destruct (bool_decide_reflect (s0 ∈ refreshSources_ u)), (recent now s0 u) eqn:Er; cbn; try done.
    intros [= -> ->]. done.
Qed.

Lemma fill_packet_Some now s c u :
  up_ok u -> s ∈ refreshSources_ u ->
  fill_packet now (Some s) c u =
    Done (FromSource s c) (set_states (states_after now (FromSource s c) u) u).
Proof.
  intros Ok Hs. destruct (ok_state u s Ok Hs) as (st & Est & E).
  unfold fill_packet, mbind, prog_bind. rewrite E. cbn. unfold priority_of. by rewrite Est.
Qed.

Lemma filled_effect now p u u' :
  up_ok u -> moved u u' -> updates u' = updates_after now u -> may_send now p u ->
  (forall s c, chosen now u = Some (s, c) -> p = FromSource s c) ->
  entry_effect now p u (set_states (states_after now p u') u').
Proof.
  intros Ok M Hq Hs Hc. pose proof M as [E1 E2 E3 E4 E5]. split; try done.
  - unfold states_after. destruct p; cbn; [|done]. by rewrite E2, (moved_priority_of u u' _ M).
  - apply E5, (ok_next u Ok).
Qed.

Lemma set_states_same u : set_states (packetSourceStates_ u) u = u.
Proof. by destruct u. Qed.

Lemma chosen_None_exclusive now u : up_ok u -> chosen now u = None -> has_exclusive u = false.
Proof.
  intros Ok Hc. pose proof (ok_exclusive u Ok) as He. unfold chosen, exclusive_ok in *.
  destruct (has_exclusive u); [|done]. destruct He as (s & Hi & _). by rewrite Hi in Hc.
Qed.

Lemma entry_result now u :
  up_ok u -> exists p u', entry now u = Done p u' /\ entry_effect now p u u'.
Proof.
  intros Ok. destruct (choose_result now u Ok) as (u1 & c & Ec & M & _ & Hq & Hcode).
  pose proof (moved_ok u u1 M Ok) as Ok1. unfold entry. unfold mbind at 1, prog_bind at 1. rewrite Ec.
  unfold mbind at 1, prog_bind at 1, get_state. cbv beta iota.
  destruct (chosen now u) as [[s c']|] eqn:Hc; cbn [fmap option_fmap option_map fst];
    unfold mbind, prog_bind, mret, prog_ret; cbv beta iota.
  - destruct (chosen_may_send now u s c' Ok Hc) as [Hin _]. rewrite <- (mv_sources _ _ M) in Hin.
    rewrite (Hcode s c' eq_refl), (fill_packet_Some now s c' u1 Ok1 Hin).
    do 2 eexists. split; [done|]. apply filled_effect; try done.
    + by apply chosen_may_send.
    + rewrite Hc. by intros ?? [= -> ->].
  - pose proof (chosen_None_exclusive now u Ok Hc) as Hx.
    assert (Hidle : exists p u', Done DccIdle u1 = Done p u' /\ entry_effect now p u u').
    { exists DccIdle, u1. split; [done|]. rewrite <- (set_states_same u1). by apply filled_effect; rewrite ?Hc. }
    rewrite (ok_has u1 Ok1). destruct (bool_decide_reflect (refreshSources_ u1 = [])) as [|Hne]; [done|].
    cbn [negb].
    destruct (find_background_result (length (refreshSources_ u1)) now c u1 Ok1 Hne)
      as (r & c2 & u2 & -> & M2 & Hq2 & Hr).
    assert (M12 : moved u u2) by (by transitivity u1).
    assert (Hq12 : updates u2 = updates_after now u) by (unfold updates; by rewrite Hq2).
    destruct r as [s|].
    + destruct (Hr s eq_refl) as (-> & Hin & Hl). rewrite (moved_last_packet u u1 s M) in Hl.
      rewrite (fill_packet_Some now s 0 u2 (moved_ok u u2 M12 Ok)) by (by rewrite (mv_sources _ _ M2)).
      do 2 eexists. split; [done|]. apply filled_effect; rewrite ?Hc; try done. cbn.
      rewrite (mv_sources _ _ M) in Hin. split; [done|]. rewrite Hx. apply Z.ltb_ge. lia.
    + exists DccIdle, u2. split; [done|]. rewrite <- (set_states_same u2). by apply filled_effect; rewrite ?Hc.
Qed.

Section Effect.
Context {now : Z} {p : Packet} {u u' : UpdateProcessor}.
Hypothesis (Ok : up_ok u) (E : entry_effect now p u u').

Lemma effect_priority s : priority_of u' s = priority_of u s.
Proof.
  unfold priority_of at 1. rewrite (ee_states _ _ _ _ E). unfold states_after.
  destruct p as [s0 c|]; [|done]. rewrite lookup_insert. case_decide; [by subst|done].
Qed.

Lemma effect_last s : last_packet u' s = last_packet u s \/ exists c, p = FromSource s c /\ last_packet u' s = now.
Proof.
  unfold last_packet at 1 3. rewrite (ee_states _ _ _ _ E). unfold states_after.
  destruct p as [s0 c|]; [|by left]. rewrite lookup_insert. case_decide; [subst|by left]. eauto.
Qed.

Lemma effect_has_exclusive : has_exclusive u' = has_exclusive u.
Proof. unfold has_exclusive. by rewrite (ee_exclusive _ _ _ _ E). Qed.

Lemma effect_ok : up_ok u'.
Proof.
  pose proof (ok_exclusive u Ok) as He. pose proof (ee_send _ _ _ _ E) as Hsend.
  destruct E as [E1 E2 E3 E4 E5 _ _ _]. split; rewrite ?E1, ?E3; try apply Ok; try done.
  - intros s. rewrite E2, <- (ok_dom u Ok). destruct p as [s0 c|]; cbn; [|done].
    rewrite lookup_insert_is_Some. destruct (decide (s0 = s)) as [<-|]; [|tauto].
    apply proj1, (ok_dom u Ok) in Hsend. tauto.
  - unfold exclusive_ok in *. rewrite effect_has_exclusive, E1, E4. destruct (has_exclusive u).
    + destruct He as (s & Hi & Hp & Hm). exists s. rewrite effect_priority. split; [done|].
      split; [done|]. intros s' Hs'. rewrite effect_priority. auto.
    + intros s Hs. rewrite effect_priority. auto.
Qed.

End Effect.

Lemma exec_ok o u :
  up_ok u -> allowed o u -> exists p u', exec o u = Done p u' /\ up_ok u'.
Proof.
  intros Ok Ha. destruct o as [s p|s|s c|now]; unfold exec, mbind, prog_bind.
  - destruct Ha as [Hs Hl]. destruct (add_ok s p u Ok Hs Hl) as (b & u' & -> & Ok'). cbn. eauto.
  - destruct (remove_ok s u Ok) as (e & -> & Ok'). cbn. eauto.
  - do 2 eexists. split; [done|]. by destruct Ok.
  - destruct (entry_result now u Ok) as (p & u' & -> & Hee). cbn.
    do 2 eexists. split; [done|]. by apply (effect_ok Ok Hee).
Qed.

Lemma new_ok : up_ok new_UpdateProcessor.
Proof.
  split; cbn; try done.
  - intros s. rewrite lookup_empty, elem_of_nil. split; [by intros []|done].
  - constructor.
Qed.

Lemma reachable_ok u : reachable u -> up_ok u.
Proof.
  induction 1 as [|o u p u' _ Ok Ha E]; [apply new_ok|].
  destruct (exec_ok o u Ok Ha) as (p' & u'' & E' & Ok'). congruence.
Qed.

Lemma steps_ok u l ps u' : steps u l ps u' -> up_ok u -> up_ok u'.
Proof.
  induction 1 as [|o u p u1 l ps u2 Ha E _ IH]; [done|]. intros Ok.
  destruct (exec_ok o u Ok Ha) as (p' & u'' & E' & Ok'). apply IH. congruence.
Qed.

(** ** Properties *)

(** Whatever was added, removed and reported before, the update loop
    fills a packet without touching anything out of bounds.  If an exclusive
    source is registered the packet comes from one with the highest priority
    of all; otherwise it comes from a registered source, or is idle; sources
    that were removed are never called. *)
Theorem packet_source_choice u now :
  reachable u ->
  exists p u', entry now u = Done p u' /\ reachable u' /\
  ((exists s, s ∈ refreshSources_ u /\ EXCLUSIVE_MIN_PRIORITY <= priority_of u s) ->
   exists s c, p = FromSource s c /\ s ∈ refreshSources_ u /\
     forall s', s' ∈ refreshSources_ u -> priority_of u s' <= priority_of u s) /\
  forall s c, p = FromSource s c -> s ∈ refreshSources_ u.
Proof.
  intros R. pose proof (reachable_ok u R) as Ok.
  destruct (entry_result now u Ok) as (p & u' & E & Ef). exists p, u'. split; [done|].
  pose proof (ee_send _ _ _ _ Ef) as Hs. pose proof (ok_exclusive u Ok) as He. unfold exclusive_ok in He.
  split; [|split].
  - apply (reachable_step (Entry now) u (Some (now, p))); [done|done|].
    unfold exec, mbind, prog_bind. by rewrite E.
  - intros (s & Hin & Hp). destruct (has_exclusive u) eqn:Hx.
    + destruct He as (s0 & Hi & _ & Hm). unfold may_send in Hs. destruct p as [s1 c|]; [|congruence].
      rewrite Hx, Hi in Hs. destruct Hs as [Hs [= ->]]. eauto.
    + specialize (He s Hin). lia.
  - intros s c ->. apply Hs.
Qed.

(** *** The distance between packets to one source *)

Definition later_than (t : Z) (s : PacketSource) (o : op) : Prop :=
  match o with
  | Add s' _ => s' <> s
  | Entry now => t <= now
  | _ => True
  end.

(** A source that is registered had its last packet at [t] or later. *)
Definition served_since (t : Z) (s : PacketSource) (u : UpdateProcessor) : Prop :=
  s ∈ refreshSources_ u -> t <= last_packet u s.

Lemma exec_served_since t s o u p u' :
  up_ok u -> allowed o u -> later_than t s o -> served_since t s u -> exec o u = Done p u' ->
  served_since t s u'.
Proof.
  intros Ok Ha Hl Hs. destruct o as [s' pr|s'|s' c|now]; unfold exec, mbind, prog_bind.
  - destruct Ha as [Hn Hz]. destruct (add_result s' pr u Ok Hn Hz) as (b & ->). intros [= <- <-].
    intros Hin. cbn in Hin, Hl |- *. unfold last_packet. cbn. rewrite lookup_insert_ne by done. apply Hs.
    apply elem_of_app in Hin as [Hin|Hin%list_elem_of_singleton]; congruence.
  - destruct (remove_ok s' u Ok) as (e & -> & _). intros [= <- <-]. unfold served_since.
    intros [Hne Hin]%list_elem_of_filter. unfold last_packet. cbn.
    rewrite lookup_delete_ne by done. by apply Hs.
  - intros [= <- <-]. exact Hs.
  - destruct (entry_result now u Ok) as (q & u1 & -> & Ef). intros [= <- <-]. unfold served_since.
    rewrite (ee_sources _ _ _ _ Ef). intros Hin. cbn in Hl.
    destruct (effect_last Ef s) as [->|(c & _ & ->)]; [by apply Hs|done].
Qed.

Lemma steps_served_since t s u l ps u' :
  steps u l ps u' -> up_ok u -> Forall (later_than t s) l -> served_since t s u -> served_since t s u'.
Proof.
  induction 1 as [|o u p u1 l ps u2 Ha E _ IH]; [done|]. intros Ok [Ho Hl]%Forall_cons Hs.
  destruct (exec_ok o u Ok Ha) as (p' & u'' & E' & Ok'). assert (u'' = u1) as -> by congruence.
  apply IH; [done|done|]. by apply (exec_served_since t s o u p u1).
Qed.

(** C28: Decoders are not flooded: between two packets of a source there is at
    least the configured delay, whatever else happens between, if the clock does
    not go back and the second packet is not sent while an exclusive source is
    there; only a source that was removed and added again starts afresh. *)
Theorem packets_keep_distance u s c t u1 l ps u2 c' t' u3 :
  reachable u ->
  entry t u = Done (FromSource s c) u1 ->
  steps u1 l ps u2 ->
  Forall (later_than t s) l ->
  has_exclusive u2 = false ->
  entry t' u2 = Done (FromSource s c') u3 ->
  t + min_refresh_delay <= t'.
Proof.
  intros R E1 St Hl Hx E2. pose proof (reachable_ok u R) as Ok.
  destruct (entry_result t u Ok) as (p & u1' & E1' & Ef). rewrite E1 in E1'. injection E1' as <- <-.
  assert (Hs : served_since t s u1).
  { intros _. unfold last_packet. rewrite (ee_states _ _ _ _ Ef). cbn. by rewrite lookup_insert_eq. }
  pose proof (effect_ok Ok Ef) as Ok1. pose proof (steps_ok _ _ _ _ St Ok1) as Ok2.
  pose proof (steps_served_since _ _ _ _ _ _ St Ok1 Hl Hs) as Hs2.
  destruct (entry_result t' u2 Ok2) as (p' & u3' & E2' & Ef2). rewrite E2 in E2'. injection E2' as <- <-.
  destruct (ee_send _ _ _ _ Ef2) as [Hin Hr]. rewrite Hx in Hr. unfold recent in Hr.
  apply Z.ltb_ge in Hr. specialize (Hs2 Hin). lia.
Qed.

(** *** Urgent updates *)

Definition waits (t : Z) (o : op) : Prop :=
  match o with
  | Notify _ _ => True
  | Entry now => t <= now
  | _ => False
  end.

Definition is_entry (o : op) : bool := match o with Entry _ => true | _ => false end.

(** The source [s] has an update with [n] others before it, and had no packet
    too recently for one at [t]. *)
Definition update_waiting (t : Z) (s : PacketSource) (n : nat) (u : UpdateProcessor) : Prop :=
  has_exclusive u = false /\ s ∈ refreshSources_ u /\ recent t s u = false /\
  exists pre c post, updates u = pre ++ (s, c) :: post /\ length pre = n.

Lemma notify_waiting t s n u s' c' :
  update_waiting t s n u -> update_waiting t s n (set_updates (q_insert (s', c') (priorityUpdates_ u)) u).
Proof.
  intros (Hx & Hin & Hr & pre & c & post & Hq & Hn). split; [done|]. split; [done|]. split; [done|].
  exists pre, c, (post ++ [(s', c')]). split; [|done]. unfold updates in *. cbn.
  rewrite q_list_insert, Hq, <- app_assoc. done.
Qed.

Lemma recent_mono t t' s u : t <= t' -> recent t s u = false -> recent t' s u = false.
Proof. unfold recent. rewrite !Z.ltb_ge. lia. Qed.

Lemma entry_waiting t s n u now p u' :
  up_ok u -> update_waiting t s n u -> t <= now -> entry_effect now p u u' ->
  (exists c, p = FromSource s c) \/ exists m, n = S m /\ update_waiting t s m u'.
Proof.
  intros Ok (Hx & Hin & Hr & pre & c & post & Hq & Hn) Ht Ef.
  pose proof (ee_chosen _ _ _ _ Ef) as Hc. pose proof (ee_updates _ _ _ _ Ef) as Hu.
  unfold chosen, updates_after in *. rewrite Hx, Hq in Hc, Hu.
  destruct pre as [|[s0 c0] pre]; cbn in Hc, Hu.
  { left. exists c. apply Hc. by rewrite bool_decide_true, (recent_mono t now) by done. }
  destruct (effect_last Ef s) as [El|(c' & -> & _)]; [|by eauto].
  right. exists (length pre). split; [done|]. split; [by rewrite (effect_has_exclusive Ef)|].
  split; [by rewrite (ee_sources _ _ _ _ Ef)|]. split; [by unfold recent; rewrite El|].
  clear Hc. revert Hu; destruct (_ && _); intros ->; [exists pre, c, (post ++ [(s0, c0)])|by exists pre, c, post].
  by rewrite <- app_assoc.
Qed.

(** C32: An urgent update is not starved: when no exclusive source is there and
    the source of the update had no packet too recently, it has its packet by
    the time that as many packets have been sent as there are updates in the
    queue up to its own, also if more updates come in meanwhile. *)
Theorem urgent_update_served t s n u l ps u' :
  reachable u ->
  update_waiting t s n u ->
  steps u l ps u' ->
  Forall (waits t) l ->
  (n < length (List.filter is_entry l))%nat ->
  exists now c, (now, FromSource s c) ∈ ps.
Proof.
  intros R%reachable_ok. intros Hw St. revert n R Hw.
  induction St as [|o u p u1 l ps u2 Ha E _ IH]; intros n Ok Hw Hl Hn; [cbn in Hn; lia|].
  apply Forall_cons in Hl as [Ho Hl]. destruct o as [| |s' c'|now]; cbn in Ho; try done.
  - injection E as <- <-. apply (IH n); [by destruct Ok|by apply notify_waiting|done|exact Hn].
  - unfold exec, mbind, prog_bind in E.
    destruct (entry_result now u Ok) as (q & u' & E' & Ef). rewrite E' in E. injection E as <- <-.
    destruct (entry_waiting t s n u now q u' Ok Hw Ho Ef) as [[c ->]|(m & -> & Hw')].
    + exists now, c. left.
    + destruct (IH m (effect_ok Ok Ef) Hw' Hl) as (now' & c' & Hin); [cbn in Hn; lia|].
      exists now', c'. by right.
Qed.

(** *** Background refresh *)

(** The registered sources, the next one of the background refresh first. *)
Definition rotation (u : UpdateProcessor) : list PacketSource :=
  let l := refreshSources_ u in
  let k := Z.to_nat (wrapped (zlen l) (nextRefreshIndex_ u)) in
  drop k l ++ take k l.

Lemma rotation_cons u s xs :
  rotation u = s :: xs -> 0 <= nextRefreshIndex_ u ->
  znth (refreshSources_ u) (wrapped (zlen (refreshSources_ u)) (nextRefreshIndex_ u)) = Some s.
Proof.
  unfold rotation, znth. intros E Hi. set (l := refreshSources_ u) in *.
  destruct (decide (l = [])) as [->|Hne]; [by rewrite drop_nil, take_nil in E|].
  assert (Hn : 0 < zlen l) by (destruct l; [done|zlen_lia]).
  pose proof (wrapped_range (zlen l) _ Hn Hi) as Hr. set (i := wrapped _ _) in *.
  destruct (Z.leb_spec 0 i); [|lia].
  destruct (lookup_lt_is_Some_2 l (Z.to_nat i)) as [x Hx]; [unfold zlen in Hr; lia|].
  rewrite (drop_S l x _ Hx) in E. by injection E as <- _.
Qed.

Lemma rotation_next u u' s xs :
  rotation u = s :: xs -> 0 <= nextRefreshIndex_ u -> refreshSources_ u' = refreshSources_ u ->
  nextRefreshIndex_ u' = wrapped (zlen (refreshSources_ u)) (nextRefreshIndex_ u) + 1 ->
  rotation u' = xs ++ [s].
Proof.
  intros E Hi Es Ei. pose proof (rotation_cons u s xs E Hi) as Hs.
  pose proof (znth_Some _ _ _ Hs) as Hr. unfold rotation in *. rewrite Es, Ei. clear Es Ei.
  set (l := refreshSources_ u) in *. set (i := wrapped (zlen l) (nextRefreshIndex_ u)) in *.
  unfold znth in Hs. destruct (Z.leb_spec 0 i); [|lia].
  rewrite (drop_S l s _ Hs) in E. injection E as <-. unfold wrapped.
  destruct (Z.leb_spec (zlen l) (i + 1)).
  - cbn. rewrite drop_0, take_0, app_nil_r. rewrite drop_ge by (unfold zlen in *; lia). cbn.
    rewrite <- (take_drop (Z.to_nat i) l) at 1. f_equal. rewrite (drop_S l s _ Hs).
    rewrite drop_ge by (unfold zlen in *; lia). done.
  - replace (Z.to_nat (i + 1)) with (S (Z.to_nat i)) by lia.
    rewrite (take_S_r l _ s Hs), app_assoc. done.
Qed.

Lemma entry_background now u s xs :
  up_ok u -> chosen now u = None -> rotation u = s :: xs -> last_packet u s < now - min_refresh_delay ->
  exists u', entry now u = Done (FromSource s 0) u' /\ rotation u' = xs ++ [s].
Proof.
  intros Ok Hc Er Hl. pose proof (ok_next u Ok) as [Hn _]. pose proof (rotation_cons u s xs Er Hn) as Hs.
  destruct (choose_result now u Ok) as (u1 & c & Ec & M & Hi & _). rewrite Hc in Ec.
  pose proof (moved_ok u u1 M Ok) as Ok1. pose proof (znth_elem _ _ _ Hs) as Hin.
  pose proof (znth_Some _ _ _ Hs) as Hr.
  assert (Hne : refreshSources_ u1 <> [])
    by (rewrite (mv_sources _ _ M); intros E; rewrite E in Hin; by apply not_elem_of_nil in Hin).
  unfold entry, mbind, prog_bind, get_state. rewrite Ec. cbn [fmap option_fmap option_map].
  rewrite (ok_has u1 Ok1), bool_decide_false by done. cbn [negb].
  destruct (length (refreshSources_ u1)) as [|n] eqn:El; [by apply nil_length_inv in El|].
  cbn [find_background]. unfold mbind, prog_bind.
  destruct (next_source_result u1 Hne) as (s1 & Hs1 & ->); [apply (ok_next u1 Ok1)|].
  rewrite (mv_sources _ _ M), Hi in Hs1 |- *. assert (s1 = s) as -> by congruence.
  set (u2 := set_next _ u1).
  assert (M2 : moved u u2) by (transitivity u1; [done|apply moved_set_next, u15_range]).
  pose proof (moved_ok u u2 M2 Ok) as Ok2.
  assert (Hin2 : s ∈ refreshSources_ u2) by (by rewrite (mv_sources _ _ M2)).
  destruct (ok_state u2 s Ok2 Hin2) as (st & Est & ->).
  rewrite <- (moved_last_packet u u2 s M2) in Hl. unfold last_packet in Hl. rewrite Est in Hl. cbn in Hl.
  destruct (Z.ltb_spec (lastPacketTime_ st) (now - min_refresh_delay)); [|lia].
  unfold mret, prog_ret. rewrite (fill_packet_Some now s 0 u2 Ok2 Hin2).
  eexists. split; [done|]. apply (rotation_next u _ s xs Er Hn); [apply (mv_sources _ _ M2)|].
  cbn. apply u15_small. pose proof (ok_size u Ok). unfold NO_EXCLUSIVE in *. lia.
Qed.

Lemma rotation_elem u s : s ∈ rotation u <-> s ∈ refreshSources_ u.
Proof.
  unfold rotation. set (k := Z.to_nat _). rewrite <- (take_drop k (refreshSources_ u)) at 3.
  rewrite !elem_of_app. tauto.
Qed.

Lemma rotation_NoDup u : NoDup (refreshSources_ u) -> NoDup (rotation u).
Proof.
  unfold rotation. set (k := Z.to_nat _). rewrite <- (take_drop k (refreshSources_ u)) at 1.
  intros H. by rewrite (Permutation_app_comm (drop k _)).
Qed.

Lemma round_robin_from t ts todo served u ps u' :
  steps u (Entry <$> ts) ps u' ->
  up_ok u -> has_exclusive u = false -> updates u = [] ->
  rotation u = todo ++ served -> length ts = length todo -> Forall (fun now => t <= now) ts ->
  (forall s, s ∈ todo -> last_packet u s < t - min_refresh_delay) ->
  ps = zip ts ((fun s => FromSource s 0) <$> todo) /\ rotation u' = served ++ todo.
Proof.
  revert todo served u ps. induction ts as [|now ts IH]; intros todo served u ps St Ok Hx Hq Er Hl Ht Hd.
  { destruct todo; [|done]. inversion St; subst. by rewrite app_nil_r. }
  destruct todo as [|s todo]; [done|]. apply Forall_cons in Ht as [Hnow Ht].
  inversion St as [|? ? ? u1 ? ps' ? _ E St']; subst. unfold exec, mbind, prog_bind in E.
  assert (Hc : chosen now u = None) by (unfold chosen; by rewrite Hx, Hq).
  destruct (entry_background now u s (todo ++ served) Ok Hc Er) as (u2 & E2 & Er2).
  { specialize (Hd s ltac:(left)). lia. }
  destruct (entry_result now u Ok) as (q & u3 & E3 & Ef). rewrite E2 in E3, E. injection E3 as <- <-.
  injection E as <- <-.
  pose proof (rotation_NoDup u (ok_nodup u Ok)) as Hnd. rewrite Er in Hnd.
  destruct (IH todo (served ++ [s]) u2 ps' St' (effect_ok Ok Ef)) as [-> ->]; try done.
  - by rewrite (effect_has_exclusive Ef).
  - rewrite (ee_updates _ _ _ _ Ef). unfold updates_after. by rewrite Hq.
  - by rewrite app_assoc.
  - by injection Hl.
  - intros s' Hs'. destruct (effect_last Ef s') as [->|(c & [= <-] & _)]; [apply Hd; by right|].
    exfalso. apply NoDup_cons in Hnd as [Hnd _]. apply Hnd, elem_of_app. by left.
  - split; [done|]. by rewrite <- app_assoc.
Qed.

(** With nothing urgent and no exclusive source the update loop refreshes
    the sources in turn: when every source is due, each of the next packets
    comes from the next source, none is skipped or served twice, and after one
    round the order is the same again. *)
Theorem background_round_robin t ts u ps u' :
  reachable u -> has_exclusive u = false -> updates u = [] ->
  (forall s, s ∈ refreshSources_ u -> last_packet u s < t - min_refresh_delay) ->
  length ts = length (refreshSources_ u) -> Forall (fun now => t <= now) ts ->
  steps u (Entry <$> ts) ps u' ->
  ps = zip ts ((fun s => FromSource s 0) <$> rotation u) /\ rotation u' = rotation u.
Proof.
  intros R%reachable_ok Hx Hq Hd Hl Ht St.
  apply (round_robin_from t ts (rotation u) [] u ps u' St R Hx Hq); [by rewrite app_nil_r| |done|].
  - rewrite Hl. unfold rotation. set (k := Z.to_nat _).
    rewrite length_app, Nat.add_comm, <- length_app, take_drop. done.
  - intros s Hs%rotation_elem. auto.
Qed.

End UpdateProcessor.
