(* ===== verification/UpdateLoop.v ===== *)
(** What the DCC update loop promises to those who add packet sources to it
    (the interface [dcc::UpdateLoopBase], which
    src/cs/commandstation/UpdateProcessor.cxx implements). *)

From S2P Require Import Prelude Queues UpdateProcessor.

(** [add_refresh_source], [remove_refresh_source], [notify_update], and the step
    of the loop that fills the next packet at a time. *)
Class UpdateLoop (U : Type) := {
  loop_add : PacketSource -> Z -> prog U bool;
  loop_remove : PacketSource -> prog U unit;
  loop_notify : PacketSource -> Z -> prog U unit;
  loop_entry : Z -> prog U Packet
}.

(** A source that has a higher priority than all others, and one of those that
    are exclusive. *)
Definition is_exclusive (exclusive_min : Z) (l : list PacketSource) (priority : PacketSource -> Z) (s : PacketSource) : Prop :=
  s ∈ l /\ exclusive_min <= priority s /\ forall s', s' ∈ l -> s' <> s -> priority s' < priority s.

Class UpdateLoopOk (U : Type) (exclusive_min capacity : Z) `{!UpdateLoop U} := {
  loop_ok : U -> Prop;
  loop_sources : U -> list PacketSource;
  loop_priority : U -> PacketSource -> Z;
  loop_add_ok s p u : loop_ok u -> s ∉ loop_sources u -> zlen (loop_sources u) < capacity ->
    exists b u', loop_add s p u = Done b u' /\ loop_ok u' /\ loop_sources u' = loop_sources u ++ [s] /\
      loop_priority u' s = p /\ forall s', s' <> s -> loop_priority u' s' = loop_priority u s';
  loop_remove_ok s u : loop_ok u ->
    exists u', loop_remove s u = Done tt u' /\ loop_ok u' /\
      loop_sources u' = filter (fun s' => s' ≠ s) (loop_sources u) /\
      forall s', s' <> s -> loop_priority u' s' = loop_priority u s';
  loop_notify_ok s c u : loop_ok u ->
    exists u', loop_notify s c u = Done tt u' /\ loop_ok u' /\ loop_sources u' = loop_sources u /\
      forall s', loop_priority u' s' = loop_priority u s';
  loop_entry_ok now u : loop_ok u ->
    exists p u', loop_entry now u = Done p u' /\ loop_ok u' /\ loop_sources u' = loop_sources u /\
      (forall s', loop_priority u' s' = loop_priority u s') /\
      (forall s c, p = FromSource s c -> s ∈ loop_sources u) /\
      (forall s, is_exclusive exclusive_min (loop_sources u) (loop_priority u) s -> p = FromSource s 0)
}.

(** ** The update processor keeps this promise *)

Section Instance_.

Context (EXCLUSIVE_MIN_PRIORITY min_refresh_delay : Z) (EXCLUSIVE_pos : 0 < EXCLUSIVE_MIN_PRIORITY).
Context {Q : Type} `{QO : QListOk Q PriorityUpdate}.

Abbreviation UpdateProcessor := (UpdateProcessor (Q := Q)).

#[export] Instance update_processor_loop : UpdateLoop UpdateProcessor := {
  loop_add := add_refresh_source EXCLUSIVE_MIN_PRIORITY;
  loop_remove := remove_refresh_source EXCLUSIVE_MIN_PRIORITY;
  loop_notify := notify_update;
  loop_entry := entry min_refresh_delay
}.

Lemma priority_of_removed s e (u : UpdateProcessor) s' : s' <> s -> priority_of (removed s e u) s' = priority_of u s'.
Proof. intros Hs. unfold priority_of. cbn. by rewrite lookup_delete_ne. Qed.

Lemma exclusive_is_chosen now (u : UpdateProcessor) s :
  up_ok EXCLUSIVE_MIN_PRIORITY u -> is_exclusive EXCLUSIVE_MIN_PRIORITY (refreshSources_ u) (priority_of u) s ->
  chosen min_refresh_delay now u = Some (s, 0).
Proof.
  intros Ok (Hs & Hp & Hmax). pose proof (ok_exclusive _ u Ok) as He. unfold chosen, exclusive_ok in *.
  destruct (has_exclusive u).
  - destruct He as (s0 & Hi & _ & H0). rewrite Hi. specialize (H0 s Hs). apply znth_elem in Hi.
    destruct (decide (s0 = s)) as [->|Hne]; [done|]. specialize (Hmax s0 Hi Hne). lia.
  - specialize (He s Hs). lia.
Qed.

#[export] Program Instance update_processor_loop_ok : UpdateLoopOk UpdateProcessor EXCLUSIVE_MIN_PRIORITY NO_EXCLUSIVE := {
  loop_ok := up_ok EXCLUSIVE_MIN_PRIORITY;
  loop_sources := refreshSources_;
  loop_priority := priority_of
}.
Next Obligation.
  intros s p u Ok Hs Hl. destruct (add_ok _ EXCLUSIVE_pos s p u Ok Hs Hl) as (b & u' & E & Ok').
  exists b, u'. split; [exact E|]. split; [done|]. destruct (add_result _ s p u Ok Hs Hl) as [b' E'].
  rewrite E in E'. injection E' as -> ->. split; [done|]. split; [by rewrite priority_of_insert, decide_True|].
  intros s' Hne. by rewrite priority_of_insert, decide_False.
Qed.
Next Obligation.
  intros s u Ok. destruct (remove_ok _ s u Ok) as (e & E & Ok'). exists (removed s e u).
  split; [exact E|]. split; [done|]. split; [done|]. intros s' Hne. by apply priority_of_removed.
Qed.
Next Obligation. intros s c u [H1 H2 H3 H4 H5 H6]. eexists. split; [reflexivity|]. split; [by split|]. done. Qed.
Next Obligation.
  intros now u Ok. destruct (entry_result _ min_refresh_delay now u Ok) as (p & u' & E & Eff).
  exists p, u'. split; [exact E|]. split; [by eapply effect_ok|]. split; [by apply (ee_sources _ _ _ _ _ Eff)|].
  split; [intros s'; by eapply effect_priority|]. pose proof (ee_send _ _ _ _ _ Eff) as Hs. split.
  - intros s c ->. apply Hs.
  - intros s Hx. by apply (ee_chosen _ _ _ _ _ Eff), exclusive_is_chosen.
Qed.

End Instance_.
