(* ===== verification/TrackPower.v ===== *)
(** Track power and the global emergency stop
    (src/cs/commandstation/TrackPowerBit.hxx): two event bits, the packet source
    that sends emergency stops, and the outputs that are cut after twenty of
    them.

    The update loop is an [UpdateLoop]; the outputs are OpenMRN code, of which
    [DccOutput] has the functions that are called.  A step is one event at the
    bits, one packet of the loop, or what others do with the loop. *)

From S2P Require Import Prelude UpdateProcessor UpdateLoop.

(** [DccOutput]: a set of reasons to disable an output, as bits. *)
Class DccOutput (O : Type) := {
  disable_output_for_reason : Z -> O -> O;
  clear_disable_output_for_reason : Z -> O -> O;
  get_disable_output_reasons : O -> Z
}.

Class DccOutputOk (O : Type) `{!DccOutput O} := {
  disable_reasons r o : get_disable_output_reasons (disable_output_for_reason r o) = Z.lor (get_disable_output_reasons o) r;
  clear_reasons r o : get_disable_output_reasons (clear_disable_output_for_reason r o) = Z.ldiff (get_disable_output_reasons o) r
}.

Section TrackPower.

Context {U O : Type} `{UL : UpdateLoop U} `{DO : DccOutput O}.
(** The source object, whether there is an update loop, and constants of
    OpenMRN: [dcc::UpdateLoopBase::ESTOP_PRIORITY] and
    [DccOutput::DisableReason::GLOBAL_EOFF]. *)
Context (estop : PacketSource) (loop_exists : bool) (ESTOP_PRIORITY REASON : Z).

(** ** State *)

(** What [done_] holds. *)
Inductive Callback := NoCallback | EstopExpired.

Inductive EventState := VALID | INVALID.

Record TrackPowerState := mkTrackPowerState {
  isRegistered_ : bool;
  isEOff_ : bool;
  isEStop_ : bool;
  nextDcc_ : bool;
  numToNotify_ : Z;
  done_ : Callback;
  track_output : O;
  lcc_output : O;
  loop : U
}.
Definition set_isRegistered (x : bool) (s : TrackPowerState) : TrackPowerState :=
  mkTrackPowerState x (isEOff_ s) (isEStop_ s) (nextDcc_ s) (numToNotify_ s) (done_ s)
    (track_output s) (lcc_output s) (loop s).
Definition set_isEOff (x : bool) (s : TrackPowerState) : TrackPowerState :=
  mkTrackPowerState (isRegistered_ s) x (isEStop_ s) (nextDcc_ s) (numToNotify_ s) (done_ s)
    (track_output s) (lcc_output s) (loop s).
Definition set_isEStop (x : bool) (s : TrackPowerState) : TrackPowerState :=
  mkTrackPowerState (isRegistered_ s) (isEOff_ s) x (nextDcc_ s) (numToNotify_ s) (done_ s)
    (track_output s) (lcc_output s) (loop s).
Definition set_nextDcc (x : bool) (s : TrackPowerState) : TrackPowerState :=
  mkTrackPowerState (isRegistered_ s) (isEOff_ s) (isEStop_ s) x (numToNotify_ s) (done_ s)
    (track_output s) (lcc_output s) (loop s).
Definition set_numToNotify (x : Z) (s : TrackPowerState) : TrackPowerState :=
  mkTrackPowerState (isRegistered_ s) (isEOff_ s) (isEStop_ s) (nextDcc_ s) x (done_ s)
    (track_output s) (lcc_output s) (loop s).
Definition set_done (x : Callback) (s : TrackPowerState) : TrackPowerState :=
  mkTrackPowerState (isRegistered_ s) (isEOff_ s) (isEStop_ s) (nextDcc_ s) (numToNotify_ s) x
    (track_output s) (lcc_output s) (loop s).
Definition set_track_output (x : O) (s : TrackPowerState) : TrackPowerState :=
  mkTrackPowerState (isRegistered_ s) (isEOff_ s) (isEStop_ s) (nextDcc_ s) (numToNotify_ s)
    (done_ s) x (lcc_output s) (loop s).
Definition set_lcc_output (x : O) (s : TrackPowerState) : TrackPowerState :=
  mkTrackPowerState (isRegistered_ s) (isEOff_ s) (isEStop_ s) (nextDcc_ s) (numToNotify_ s)
    (done_ s) (track_output s) x (loop s).
Definition set_loop (x : U) (s : TrackPowerState) : TrackPowerState :=
  mkTrackPowerState (isRegistered_ s) (isEOff_ s) (isEStop_ s) (nextDcc_ s) (numToNotify_ s)
    (done_ s) (track_output s) (lcc_output s) x.

(** The constructor leaves [numToNotify_] as it is in memory. *)
Definition new_TrackPowerState (in_memory : Z) (track lcc : O) (u : U) : TrackPowerState :=
  mkTrackPowerState false false false true in_memory NoCallback track lcc u.

Definition with_loop {A} (m : prog U A) : prog TrackPowerState A := fun s =>
  match m (loop s) with
  | Done a u => Done a (set_loop u s)
  | Failed u => Failed (set_loop u s)
  | Crashed c => Crashed c
  end.

(** ** Outputs *)

Definition estop_expired (s : TrackPowerState) : TrackPowerState :=
  set_lcc_output (disable_output_for_reason REASON (lcc_output s))
    (set_track_output (disable_output_for_reason REASON (track_output s)) s).

Definition enable_outputs (s : TrackPowerState) : TrackPowerState :=
  set_lcc_output (clear_disable_output_for_reason REASON (lcc_output s))
    (set_track_output (clear_disable_output_for_reason REASON (track_output s)) s).

Definition call (done : Callback) (s : TrackPowerState) : TrackPowerState :=
  match done with NoCallback => s | EstopExpired => estop_expired s end.

(** ** The packet source *)

Definition start (done : Callback) (s : TrackPowerState) : TrackPowerState :=
  set_done done (set_numToNotify 20 (set_nextDcc true s)).

Definition counting (s : TrackPowerState) : bool := 0 <? numToNotify_ s.

(** What goes to the track. *)
Inductive TrackPacket :=
| EstopDcc
| EstopMM
| OtherPacket (p : Packet).

Definition get_next_packet (s : TrackPowerState) : TrackPacket * TrackPowerState :=
  let packet := if nextDcc_ s then EstopDcc else EstopMM in
  let s := set_nextDcc (negb (nextDcc_ s)) s in
  if numToNotify_ s =? 0 then (packet, s)
  else
    let s := set_numToNotify (numToNotify_ s - 1) s in
    if numToNotify_ s =? 0 then
      match done_ s with
      | NoCallback => (packet, s)
      | EstopExpired => (packet, set_done NoCallback (call EstopExpired s))
      end
    else (packet, s).

Definition register_source (done : Callback) : prog TrackPowerState unit :=
  if negb loop_exists then modify_state (call done)
  else
    s ← get_state;
    (if isRegistered_ s then mret tt
     else modify_state (set_isRegistered true);; with_loop (loop_add estop ESTOP_PRIORITY);; mret tt);;
    match done with
    | NoCallback => mret tt
    | EstopExpired => modify_state (start done)
    end.

Definition unregister_source : prog TrackPowerState unit :=
  s ← get_state;
  if negb (isRegistered_ s) then mret tt
  else if negb loop_exists then mret tt
  else if negb (isEOff_ s) && negb (isEStop_ s) then
    with_loop (loop_remove estop);; modify_state (set_isRegistered false)
  else mret tt.

(** ** The bits *)

Definition power_get_current_state (s : TrackPowerState) : EventState :=
  if Z.land (get_disable_output_reasons (track_output s)) REASON =? 0 then VALID else INVALID.

Definition power_set_state (new_value : bool) : prog TrackPowerState unit :=
  if new_value then
    modify_state (set_isEOff false);;
    unregister_source;;
    modify_state enable_outputs
  else
    modify_state (set_isEOff true);;
    register_source EstopExpired.

Definition stop_get_current_state (s : TrackPowerState) : EventState :=
  if isEStop_ s then INVALID else VALID.

Definition stop_set_state (new_value : bool) : prog TrackPowerState unit :=
  if new_value then
    modify_state (set_isEStop false);;
    unregister_source
  else
    modify_state (set_isEStop true);;
    register_source NoCallback.

(** ** Steps *)

Inductive event :=
| PowerBit (new_value : bool)
| StopBit (new_value : bool)
| SendPacket (now : Z)
| AddSource (s : PacketSource) (priority : Z)
| RemoveSource (s : PacketSource)
| NotifySource (s : PacketSource) (code : Z).

(** The update loop asks the source that it has chosen for its packet. *)
Definition send_packet (now : Z) : prog TrackPowerState TrackPacket :=
  p ← with_loop (loop_entry now);
  match p with
  | FromSource s code =>
      if bool_decide (s = estop) then
        st ← get_state;
        let '(packet, st) := get_next_packet st in
        put_state st;; mret packet
      else mret (OtherPacket p)
  | DccIdle => mret (OtherPacket p)
  end.

Definition exec (e : event) : prog TrackPowerState (list TrackPacket) :=
  match e with
  | PowerBit b => power_set_state b;; mret []
  | StopBit b => stop_set_state b;; mret []
  | SendPacket now => p ← send_packet now; mret [p]
  | AddSource s p => with_loop (loop_add s p);; mret []
  | RemoveSource s => with_loop (loop_remove s);; mret []
  | NotifySource s c => with_loop (loop_notify s c);; mret []
  end.

End TrackPower.
