(* ===== verification/TrackPowerSafety.v ===== *)
(** What the track power and emergency stop bits do to the track: while one of
    them is off, nothing but emergency stops goes out, and the power is cut after
    twenty of them. *)

From S2P Require Import Prelude UpdateProcessor UpdateLoop TrackPower.

Section Safety.

Context {U O : Type} {exclusive_min capacity : Z} `{UO : UpdateLoopOk U exclusive_min capacity} `{DO : DccOutput O}.
Context (estop : PacketSource) (ESTOP_PRIORITY REASON : Z).
(** The emergency stop excludes all trains. *)
Context (Hpriority : exclusive_min <= ESTOP_PRIORITY).

Abbreviation State := (TrackPowerState (U := U) (O := O)).
Abbreviation exec := (exec (U := U) (O := O) estop true ESTOP_PRIORITY REASON).
Abbreviation register_source := (register_source (U := U) (O := O) estop true ESTOP_PRIORITY REASON).
Abbreviation unregister_source := (unregister_source (U := U) (O := O) estop true).
Abbreviation send_packet := (send_packet (U := U) (O := O) estop REASON).

(** ** The update loop *)

Definition room (registered : bool) : Z := if registered then 0 else 1.

(** The sources of the loop, with or without the one of the emergency stop; there
    is room for it, and its priority is the highest. *)
Record loop_inv (registered : bool) (u : U) : Prop := {
  li_ok : loop_ok u;
  li_estop : estop ∈ loop_sources u <-> registered = true;
  li_priority : registered = true -> loop_priority u estop = ESTOP_PRIORITY;
  li_others s : s ∈ loop_sources u -> s <> estop -> loop_priority u s < ESTOP_PRIORITY;
  li_room : zlen (loop_sources u) + room registered <= capacity
}.

Lemma loop_inv_same r u u' :
  loop_ok u' -> loop_sources u' = loop_sources u -> (forall s, loop_priority u' s = loop_priority u s) ->
  loop_inv r u -> loop_inv r u'.
Proof.
  intros Ok Es Ep [H1 H2 H3 H4 H5]. split; rewrite ?Es; try done.
  - intros H. rewrite Ep. by apply H3.
  - intros s. rewrite Ep. apply H4.
Qed.

Lemma add_estop u : loop_inv false u ->
  exists b u', loop_add estop ESTOP_PRIORITY u = Done b u' /\ loop_inv true u'.
Proof.
  intros [H1 H2 H3 H4 H5]. unfold room in H5.
  destruct (loop_add_ok estop ESTOP_PRIORITY u H1) as (b & u' & E & Ok & Es & Ep & Ho);
    [intros Hi; by apply H2 in Hi | lia|].
  exists b, u'. split; [done|]. split; rewrite ?Es; try done.
  - rewrite elem_of_app, list_elem_of_singleton. tauto.
  - intros s [Hs| ->%list_elem_of_singleton]%elem_of_app Hne; [|done]. rewrite Ho by done. by apply H4.
  - unfold room. rewrite zlen_app, zlen_cons, zlen_nil. lia.
Qed.

Lemma remove_estop u : loop_inv true u -> exists u', loop_remove estop u = Done tt u' /\ loop_inv false u'.
Proof.
  intros [H1 H2 H3 H4 H5]. destruct (loop_remove_ok estop u H1) as (u' & E & Ok & Es & Ho). exists u'. split; [done|].
  split; rewrite ?Es; try done.
  - rewrite list_elem_of_filter. naive_solver.
  - intros s [Hne Hs]%list_elem_of_filter _. rewrite Ho by done. by apply H4.
  - assert (Hin : estop ∈ loop_sources u) by (by apply H2). unfold room in *.
    assert (zlen (filter (fun s' => s' ≠ estop) (loop_sources u)) < zlen (loop_sources u)); [|lia].
    unfold zlen. apply inj_lt. eapply length_filter_lt; [exact Hin | naive_solver].
Qed.

Lemma add_other r u s p :
  loop_inv r u -> s <> estop -> s ∉ loop_sources u -> p < ESTOP_PRIORITY -> zlen (loop_sources u) + room r < capacity ->
  exists b u', loop_add s p u = Done b u' /\ loop_inv r u'.
Proof.
  intros [H1 H2 H3 H4 H5] Hne Hs Hp Hroom. destruct (loop_add_ok s p u H1 Hs) as (b & u' & E & Ok & Es & Ep & Ho).
  { unfold room in Hroom. destruct r; lia. }
  exists b, u'. split; [done|]. split; rewrite ?Es; try done.
  - rewrite elem_of_app, list_elem_of_singleton. naive_solver.
  - intros H. rewrite Ho by done. by apply H3.
  - intros s' [Hs'| ->%list_elem_of_singleton]%elem_of_app Hne'; [|lia].
    rewrite Ho; [by apply H4 | by intros ->].
  - rewrite zlen_app, zlen_cons, zlen_nil. lia.
Qed.

Lemma remove_other r u s : loop_inv r u -> s <> estop -> exists u', loop_remove s u = Done tt u' /\ loop_inv r u'.
Proof.
  intros [H1 H2 H3 H4 H5] Hne. destruct (loop_remove_ok s u H1) as (u' & E & Ok & Es & Ho). exists u'. split; [done|].
  split; rewrite ?Es; try done.
  - rewrite list_elem_of_filter. naive_solver.
  - intros H. rewrite Ho by done. by apply H3.
  - intros s' [Hs Hs']%list_elem_of_filter Hne'. rewrite Ho by done. by apply H4.
  - pose proof (zlen_filter (fun s' => s' ≠ s) (loop_sources u)). lia.
Qed.

Lemma entry_inv r u now : loop_inv r u ->
  exists p u', loop_entry now u = Done p u' /\ loop_inv r u' /\
    if r then p = FromSource estop 0 else forall c, p <> FromSource estop c.
Proof.
  intros Hi. pose proof Hi as [H1 H2 H3 H4 H5].
  destruct (loop_entry_ok now u H1) as (p & u' & E & Ok & Es & Ep & Hs & Hx). exists p, u'. split; [done|].
  split; [by eapply loop_inv_same|]. destruct r.
  - apply Hx. split; [by apply H2|]. rewrite H3 by done. by split.
  - intros c ->. specialize (Hs estop c eq_refl). by apply H2 in Hs.
Qed.

(** ** The bits *)

Record st_ok (s : State) : Prop := {
  st_loop : loop_inv (isRegistered_ s) (loop s);
  st_needed : isRegistered_ s = isEOff_ s || isEStop_ s
}.

Lemma register_result d s : loop_inv (isRegistered_ s) (loop s) ->
  exists u', loop_inv true u' /\ register_source d s =
    Done tt (match d with NoCallback => id | EstopExpired => start d end (set_loop u' (set_isRegistered true s))).
Proof.
  intros Hi. unfold TrackPower.register_source, mbind, prog_bind, get_state, with_loop, modify_state. simpl.
  destruct (isRegistered_ s) eqn:E.
  - exists (loop s). split; [done|]. destruct s; simpl in *; subst. by destruct d.
  - destruct (add_estop _ Hi) as (b & u' & Ea & Hi'). exists u'. split; [done|]. simpl. rewrite Ea. by destruct d.
Qed.

Lemma unregister_result s : loop_inv (isRegistered_ s) (loop s) ->
  let r := isRegistered_ s && (isEOff_ s || isEStop_ s) in
  exists u', loop_inv r u' /\ unregister_source s = Done tt (set_isRegistered r (set_loop u' s)).
Proof.
  intros Hi. unfold TrackPower.unregister_source, mbind, prog_bind, get_state, with_loop, modify_state. simpl.
  destruct (isRegistered_ s) eqn:E; simpl; [|exists (loop s); split; [done|]; destruct s; simpl in *; by subst].
  rewrite <- negb_orb. destruct (isEOff_ s || isEStop_ s); simpl.
  - exists (loop s). split; [done|]. destruct s; simpl in *; by subst.
  - destruct (remove_estop _ Hi) as (u' & Er & Hi'). exists u'. split; [done|]. by rewrite Er.
Qed.

Lemma send_result now s : loop_inv (isRegistered_ s) (loop s) ->
  exists u', loop_inv (isRegistered_ s) u' /\
    if isRegistered_ s then send_packet now s =
      Done (fst (get_next_packet REASON (set_loop u' s))) (snd (get_next_packet REASON (set_loop u' s)))
    else exists p, send_packet now s = Done (OtherPacket p) (set_loop u' s).
Proof.
  intros Hi. destruct (entry_inv _ _ now Hi) as (p & u' & E & Hi' & Hp). exists u'. split; [done|].
  unfold TrackPower.send_packet, mbind, prog_bind, with_loop, get_state, put_state. simpl. rewrite E.
  destruct (isRegistered_ s).
  - rewrite Hp, bool_decide_eq_true_2 by done. by destruct (get_next_packet REASON (set_loop u' s)).
  - destruct p as [s0 c|]; [|by eexists]. rewrite bool_decide_eq_false_2; [by eexists|]. intros ->. by eapply Hp.
Qed.

(** What others do with the loop: they add sources that are not in it yet, of a
    priority below that of the stop, while there is room, and leave the source of
    the stop alone. *)
Definition allowed (e : event) (s : State) : Prop :=
  match e with
  | AddSource s0 p =>
      s0 <> estop /\ s0 ∉ loop_sources (loop s) /\ p < ESTOP_PRIORITY /\
      (zlen (loop_sources (loop s)) + room (isRegistered_ s) < capacity)
  | RemoveSource s0 => s0 <> estop
  | _ => True
  end.

Lemma get_next_packet_frame (s : State) :
  let s' := snd (get_next_packet REASON s) in
  isRegistered_ s' = isRegistered_ s /\ isEOff_ s' = isEOff_ s /\ isEStop_ s' = isEStop_ s /\ loop s' = loop s.
Proof. unfold get_next_packet. simpl. destruct (_ =? 0); [done|]. destruct (_ =? 0); [|done]. by destruct (done_ s). Qed.

Lemma exec_frame (s' : State) u r :
  loop_inv r u -> isRegistered_ s' = r -> loop s' = u -> r = isEOff_ s' || isEStop_ s' -> st_ok s'.
Proof. intros Hi E1 E2 E3. split; [by rewrite E1, E2 | congruence]. Qed.

Definition is_estop (p : TrackPacket) : bool :=
  match p with EstopDcc | EstopMM => true | OtherPacket _ => false end.

Lemma get_next_estop (s : State) : is_estop (fst (get_next_packet REASON s)) = true.
Proof.
  unfold get_next_packet. simpl. destruct (_ =? 0); [by destruct (nextDcc_ s)|].
  destruct (_ =? 0); [destruct (done_ s)|]; by destruct (nextDcc_ s).
Qed.
(** The packets of a step: emergency stops if one of the bits is off. *)
Definition silent (s : State) (ps : list TrackPacket) : Prop :=
  Forall (fun p => is_estop p = isEOff_ s || isEStop_ s) ps.

Lemma station_exec_ok e s : st_ok s -> allowed e s ->
  exists ps s', exec e s = Done ps s' /\ st_ok s' /\ silent s ps.
Proof.
  intros [Hl Hn] Ha. destruct e as [b|b|now|s0 p|s0|s0 c]; simpl in Ha; simpl.
  - assert (Hl' : forall b, loop_inv (isRegistered_ (set_isEOff b s)) (loop (set_isEOff b s))) by done.
    destruct b; unfold power_set_state, mbind, prog_bind at 1; simpl; unfold prog_bind, modify_state.
    + destruct (unregister_result _ (Hl' false)) as (u' & Hi & E). simpl in E. rewrite E. do 2 eexists. split; [done|].
      split; [|constructor]. apply (exec_frame _ _ _ Hi); [done..|]. simpl. rewrite Hn. by destruct (isEOff_ s), (isEStop_ s).
    + destruct (register_result EstopExpired _ (Hl' true)) as (u' & Hi & E). simpl in E. rewrite E. do 2 eexists. split; [done|].
      split; [|constructor]. by apply (exec_frame _ _ _ Hi).
  - assert (Hl' : forall b, loop_inv (isRegistered_ (set_isEStop b s)) (loop (set_isEStop b s))) by done.
    destruct b; unfold stop_set_state, mbind, prog_bind at 1; simpl; unfold prog_bind, modify_state.
    + destruct (unregister_result _ (Hl' false)) as (u' & Hi & E). simpl in E. rewrite E. do 2 eexists. split; [done|].
      split; [|constructor]. apply (exec_frame _ _ _ Hi); [done..|]. simpl. rewrite Hn. by destruct (isEOff_ s), (isEStop_ s).
    + destruct (register_result NoCallback _ (Hl' true)) as (u' & Hi & E). simpl in E. rewrite E. do 2 eexists. split; [done|].
      split; [|constructor]. apply (exec_frame _ _ _ Hi); [done..|]. simpl. by rewrite orb_true_r.
  - destruct (send_result now _ Hl) as (u' & Hi & E). unfold mbind, prog_bind, mret, prog_ret.
    destruct (isRegistered_ s) eqn:Er.
    + rewrite E. do 2 eexists. split; [done|].
      destruct (get_next_packet_frame (set_loop u' s)) as (F1 & F2 & F3 & F4). simpl in F1, F2, F3, F4. split.
      * apply (exec_frame _ _ _ Hi); [congruence | done | congruence].
      * constructor; [|constructor]. by rewrite get_next_estop.
    + destruct E as [p ->]. do 2 eexists. split; [done|]. split; [by apply (exec_frame _ _ _ Hi)|].
      by constructor.
  - destruct Ha as (H1 & H2 & H3 & H4). destruct (add_other _ _ _ _ Hl H1 H2 H3 H4) as (b & u' & E & Hi).
    unfold mbind, prog_bind, with_loop. rewrite E. do 2 eexists. split; [done|]. split; [by apply (exec_frame _ _ _ Hi) | constructor].
  - destruct (remove_other _ _ _ Hl Ha) as (u' & E & Hi).
    unfold mbind, prog_bind, with_loop. rewrite E. do 2 eexists. split; [done|]. split; [by apply (exec_frame _ _ _ Hi) | constructor].
  - destruct (loop_notify_ok s0 c (loop s) (li_ok _ _ Hl)) as (u' & E & Ok & Es & Ep).
    unfold mbind, prog_bind, with_loop. rewrite E. do 2 eexists. split; [done|].
    split; [|constructor]. apply (exec_frame _ u' (isRegistered_ s)); [by eapply loop_inv_same | done..].
Qed.

(** ** Runs *)

Inductive runs : State -> list event -> list TrackPacket -> State -> Prop :=
| runs_nil s : runs s [] [] s
| runs_cons s e ps s1 l ps' s2 :
    allowed e s -> exec e s = Done ps s1 -> runs s1 l ps' s2 -> runs s (e :: l) (ps ++ ps') s2.

Lemma runs_ok s l ps s' : runs s l ps s' -> st_ok s -> st_ok s'.
Proof.
  induction 1 as [|s e ps s1 l ps' s2 Ha E Hr IH]; intros Ok; [done|]. apply IH.
  destruct (station_exec_ok e s Ok Ha) as (ps0 & s0 & E0 & Ok0 & _). congruence.
Qed.

(** C17: From the start on, with an update loop there, whatever comes at the bits and
    whatever sources others add to the loop and remove from it, if these are new
    when they are added, find room and have priorities below [ESTOP_PRIORITY], and
    others do not touch the source of the stop: every operation succeeds; while
    the track power bit or the emergency stop bit is off every packet that goes to
    the track is an emergency stop, and while both are on none is. *)
Theorem stop_silences_trains in_memory track lcc u l ps s e :
  loop_inv false u -> runs (new_TrackPowerState in_memory track lcc u) l ps s -> allowed e s ->
  (isEOff_ s || isEStop_ s = true <-> estop ∈ loop_sources (loop s)) /\
  exists ps' s', exec e s = Done ps' s' /\ Forall (fun p => is_estop p = isEOff_ s || isEStop_ s) ps'.
Proof.
  intros Hu Hr Ha. assert (Ok : st_ok s) by (eapply runs_ok; [done | by split]). split.
  - rewrite <- (st_needed _ Ok). symmetry. apply (st_loop _ Ok).
  - destruct (station_exec_ok e s Ok Ha) as (ps' & s' & E & _ & Hs). eauto.
Qed.

(** ** Cutting the power *)

(** The [i]-th emergency stop after the power bit went off. *)
Definition nth_estop (i : nat) : TrackPacket := if Nat.even i then EstopDcc else EstopMM.

(** The state when [n] packets have been sent since the power bit went off; the
    outputs were [track] and [lcc] then. *)
Record counted (track lcc : O) (n : nat) (s : State) : Prop := {
  ct_off : isEOff_ s = true;
  ct_next : nextDcc_ s = Nat.even n;
  ct_num : numToNotify_ s = Z.of_nat (20 - n);
  ct_done : done_ s = if (n <? 20)%nat then EstopExpired else NoCallback;
  ct_track : track_output s = if (n <? 20)%nat then track else disable_output_for_reason REASON track;
  ct_lcc : lcc_output s = if (n <? 20)%nat then lcc else disable_output_for_reason REASON lcc
}.

Lemma even_succ n : Nat.even (S n) = negb (Nat.even n).
Proof. by rewrite Nat.even_succ, <- Nat.negb_even. Qed.

Lemma counted_next track lcc n s : counted track lcc n s ->
  fst (get_next_packet REASON s) = nth_estop n /\ counted track lcc (S n) (snd (get_next_packet REASON s)).
Proof.
  intros [H1 H2 H3 H4 H5 H6]. unfold get_next_packet, nth_estop. cbn [numToNotify_ set_nextDcc]. rewrite H2, H3.
  pose proof (even_succ n) as He.
  destruct (Nat.ltb_spec n 20) as [Hn|Hn].
  - destruct (Z.eqb_spec (Z.of_nat (20 - n)) 0); [lia|]. cbn [numToNotify_ set_numToNotify set_nextDcc].
    assert (Hs : Z.of_nat (20 - n) - 1 = Z.of_nat (20 - S n)) by lia. rewrite Hs.
    destruct (Z.eqb_spec (Z.of_nat (20 - S n)) 0) as [E|E].
    + cbn [done_ set_numToNotify set_nextDcc]. rewrite H4. split; [done|].
      split; rewrite ?(proj2 (Nat.ltb_ge (S n) 20)) by lia; try done; cbn; by rewrite ?H5, ?H6.
    + split; [done|]. by split; rewrite ?(proj2 (Nat.ltb_lt (S n) 20)) by lia.
  - destruct (Z.eqb_spec (Z.of_nat (20 - n)) 0); [|lia]. split; [done|].
    split; rewrite ?(proj2 (Nat.ltb_ge (S n) 20)) by lia; try done.
    cbn [numToNotify_ set_nextDcc snd]. rewrite H3. lia.
Qed.

Lemma counted_same track lcc n s s' : counted track lcc n s ->
  isEOff_ s' = isEOff_ s -> nextDcc_ s' = nextDcc_ s -> numToNotify_ s' = numToNotify_ s -> done_ s' = done_ s ->
  track_output s' = track_output s -> lcc_output s' = lcc_output s -> counted track lcc n s'.
Proof. intros [] E1 E2 E3 E4 E5 E6. split; congruence. Qed.

Definition keeps_power (e : event) : Prop := match e with PowerBit _ => False | _ => True end.

Lemma counted_exec track lcc n e s ps s' :
  st_ok s -> keeps_power e -> allowed e s -> exec e s = Done ps s' -> counted track lcc n s ->
  counted track lcc (n + length ps) s' /\ ps = nth_estop <$> seq n (length ps).
Proof.
  intros Ok Hk Ha E Hc. pose proof (st_loop _ Ok) as Hl. destruct e as [b|b|now|s0 p|s0|s0 c]; simpl in Hk; [done|..].
  - assert (Hl' : forall b, loop_inv (isRegistered_ (set_isEStop b s)) (loop (set_isEStop b s))) by done.
    simpl in E. unfold stop_set_state, mbind, prog_bind, modify_state in E. destruct b.
    + destruct (unregister_result _ (Hl' false)) as (u' & _ & Eu). simpl in E, Eu. rewrite Eu in E. injection E as <- <-.
      split; [|done]. rewrite Nat.add_0_r. by apply (counted_same track lcc n s).
    + destruct (register_result NoCallback _ (Hl' true)) as (u' & _ & Eu). simpl in E, Eu. rewrite Eu in E. injection E as <- <-.
      split; [|done]. rewrite Nat.add_0_r. by apply (counted_same track lcc n s).
  - destruct (send_result now _ Hl) as (u' & _ & Es). rewrite (st_needed _ Ok), (ct_off _ _ _ _ Hc) in Es. simpl in E, Es.
    unfold mbind, prog_bind, mret, prog_ret in E. rewrite Es in E. injection E as <- <-. simpl.
    assert (Hc' : counted track lcc n (set_loop u' s)) by (by apply (counted_same track lcc n s)).
    destruct (counted_next _ _ _ _ Hc') as [-> Hn]. by rewrite Nat.add_1_r.
  - simpl in E. unfold mbind, prog_bind, with_loop in E. destruct (loop_add s0 p (loop s)); [|done..]. injection E as <- <-.
    split; [|done]. rewrite Nat.add_0_r. by apply (counted_same track lcc n s).
  - simpl in E. unfold mbind, prog_bind, with_loop in E. destruct (loop_remove s0 (loop s)); [|done..]. injection E as <- <-.
    split; [|done]. rewrite Nat.add_0_r. by apply (counted_same track lcc n s).
  - simpl in E. unfold mbind, prog_bind, with_loop in E. destruct (loop_notify s0 c (loop s)); [|done..]. injection E as <- <-.
    split; [|done]. rewrite Nat.add_0_r. by apply (counted_same track lcc n s).
Qed.

Lemma counted_runs track lcc n s l ps s' :
  runs s l ps s' -> st_ok s -> Forall keeps_power l -> counted track lcc n s ->
  counted track lcc (n + length ps) s' /\ ps = nth_estop <$> seq n (length ps).
Proof.
  intros Hr. revert n. induction Hr as [|s e ps s1 l ps' s2 Ha E Hr IH]; intros n Ok Hk Hc; [by rewrite Nat.add_0_r|].
  apply Forall_cons in Hk as [Hk Hk']. destruct (counted_exec _ _ _ _ _ _ _ Ok Hk Ha E Hc) as [Hc1 E1].
  assert (Ok1 : st_ok s1) by (destruct (station_exec_ok e s Ok Ha) as (? & ? & ? & ? & _); congruence).
  destruct (IH _ Ok1 Hk' Hc1) as [Hc2 E2]. rewrite length_app, seq_app, fmap_app, Nat.add_assoc. split; [done|].
  by rewrite <- E1, <- E2.
Qed.

(** When the power bit goes off, emergency stops go out, by turns in the DCC
    and the Marklin format, and nothing else, as long as the power bit is not
    touched again; the outputs stay as they are for the first nineteen packets,
    and both are cut with the twentieth, whatever happens to the emergency stop
    bit and the other packet sources meanwhile. *)
Theorem power_is_cut_after_stops in_memory track lcc u l0 ps0 s l ps s' :
  loop_inv false u -> runs (new_TrackPowerState in_memory track lcc u) l0 ps0 s ->
  runs s (PowerBit false :: l) ps s' -> Forall keeps_power l ->
  ps = nth_estop <$> seq 0 (length ps) /\
  track_output s' = (if (length ps <? 20)%nat then track_output s else disable_output_for_reason REASON (track_output s)) /\
  lcc_output s' = (if (length ps <? 20)%nat then lcc_output s else disable_output_for_reason REASON (lcc_output s)).
Proof.
  intros Hu Hr0 Hr Hk. assert (Ok : st_ok s) by (eapply runs_ok; [done | by split]).
  inversion Hr as [|s_ e_ ps1 s1 l_ ps2 s2_ Ha E Hr']; subst.
  assert (Ok1 : st_ok s1) by (destruct (station_exec_ok _ s Ok Ha) as (? & ? & ? & ? & _); congruence).
  assert (Hc : counted (track_output s) (lcc_output s) 0 s1 /\ ps1 = []).
  { simpl in E. unfold power_set_state, mbind, prog_bind, modify_state in E.
    assert (Hl' : loop_inv (isRegistered_ (set_isEOff true s)) (loop (set_isEOff true s))) by (apply Ok).
    destruct (register_result EstopExpired _ Hl') as (u' & _ & Eu). simpl in E, Eu. rewrite Eu in E. injection E as <- <-.
    split; [|done]. by split. }
  destruct Hc as [Hc ->]. destruct (counted_runs _ _ _ _ _ _ _ Hr' Ok1 Hk Hc) as [[_ _ _ _ H5 H6] Eps].
  simpl in *. done.
Qed.

End Safety.
