(* ===== verification/XmlGenerator.v ===== *)
(** Text that is generated while it is read
    (src/cs/commandstation/XmlGenerator.cxx, XmlGenerator.hxx).

    A generator adds literals and integers to a queue whenever the queue is
    empty; a reader asks for bytes at an offset.  The virtual function
    [generate_more] of the derived class is a parameter; [GeneratesMore] says
    what the base class relies on. *)

From S2P Require Import Prelude Queues.

Inductive GeneratorAction :=
| CONST_LITERAL (pointer : string)
| RENDER_INT (integer : Z).

Section XmlGenerator.

(** [integer_to_buffer] of OpenMRN. *)
Context (integer_to_buffer : Z -> string).
Context {T : Type} `{TO : TypedQueueOk T GeneratorAction}.

(** The members of the derived class. *)
Context {G : Type}.

Record XmlGenerator := mkXmlGenerator {
  pendingActions_ : T;
  fileOffset_ : Z;
  bufferOffset_ : Z;
  buffer_ : string;
  derived : G
}.

Definition set_pending (t : T) (x : XmlGenerator) : XmlGenerator :=
  mkXmlGenerator t (fileOffset_ x) (bufferOffset_ x) (buffer_ x) (derived x).
Definition set_fileOffset (z : Z) (x : XmlGenerator) : XmlGenerator :=
  mkXmlGenerator (pendingActions_ x) z (bufferOffset_ x) (buffer_ x) (derived x).
Definition set_bufferOffset (z : Z) (x : XmlGenerator) : XmlGenerator :=
  mkXmlGenerator (pendingActions_ x) (fileOffset_ x) z (buffer_ x) (derived x).
Definition set_buffer (s : string) (x : XmlGenerator) : XmlGenerator :=
  mkXmlGenerator (pendingActions_ x) (fileOffset_ x) (bufferOffset_ x) s (derived x).
Definition set_derived (g : G) (x : XmlGenerator) : XmlGenerator :=
  mkXmlGenerator (pendingActions_ x) (fileOffset_ x) (bufferOffset_ x) (buffer_ x) g.

Definition add_to_output (a : GeneratorAction) (x : XmlGenerator) : XmlGenerator :=
  set_pending (tq_push_front a (pendingActions_ x)) x.

Context (generate_more : fprog XmlGenerator unit).

(** The characters up to the end of a buffer. *)
Definition text : Type := list ascii.

Definition init_front_action : fprog XmlGenerator unit := fun x =>
  match tq_front (pendingActions_ x) with
  | Some (RENDER_INT z) => Some (Done tt (set_buffer (integer_to_buffer z) (set_bufferOffset 0 x)))
  | Some (CONST_LITERAL _) => Some (Done tt (set_bufferOffset 0 x))
  | None => Some (Crashed DanglingPointer)
  end.

Definition get_front_buffer : fprog XmlGenerator text := fun x =>
  match tq_front (pendingActions_ x) with
  | Some (RENDER_INT _) => Some (Done (list_ascii_of_string (buffer_ x)) x)
  | Some (CONST_LITERAL s) => Some (Done (list_ascii_of_string s) x)
  | None => Some (Crashed DanglingPointer)
  end.

Definition is_empty (t : T) : bool := match tq_front t with None => true | Some _ => false end.

(** Moves all actions to another queue, which reverses them. *)
Fixpoint reverse_actions (fuel : nat) (t reversed : T) : option T :=
  match fuel with
  | O => None
  | S fuel =>
      match tq_front t with
      | None => Some reversed
      | Some a => reverse_actions fuel (tq_pop_front t) (tq_push_front a reversed)
      end
  end.

(** The new actions are put in the order in which they were added; [false] if
    there are none. *)
Definition take_new_actions (fuel : nat) : fprog XmlGenerator bool := fun x =>
  if is_empty (pendingActions_ x) then Some (Done false x)
  else
    match reverse_actions fuel (pendingActions_ x) tq_new with
    | None => None
    | Some t => (init_front_action;; mret true : fprog XmlGenerator bool) (set_pending t x)
    end.

(** The beginning of the loop of [read]: whether there is something to read. *)
Definition refill (fuel : nat) : fprog XmlGenerator bool := fun x =>
  if is_empty (pendingActions_ x) then (generate_more;; take_new_actions fuel : fprog XmlGenerator bool) x
  else Some (Done true x).

(** Skips what is before the offset; counts the characters. *)
Fixpoint skip_data (b : text) (offset n : Z) : text * Z * Z :=
  match b with
  | [] => ([], offset, n)
  | c :: b' => if 0 <? offset then skip_data b' (offset - 1) (n + 1) else (b, offset, n)
  end.

(** Copies at most [len] characters to the end of [output]. *)
Fixpoint copy_data (b : text) (len n : Z) (output : text) : text * Z * Z * text :=
  match b with
  | [] => ([], len, n, output)
  | c :: b' => if 0 <? len then copy_data b' (len - 1) (n + 1) (output ++ [c]) else (b, len, n, output)
  end.

(** Consumes the front of the actions. *)
Definition consume_front : fprog XmlGenerator unit :=
  fmodify (fun x => set_pending (tq_pop_front (pendingActions_ x)) x);;
  fmodify (fun x => set_fileOffset (fileOffset_ x + bufferOffset_ x) x);;
  x ← total get_state;
  if is_empty (pendingActions_ x) then mret tt else init_front_action.

Fixpoint read_loop (fuel : nat) (offset len : Z) (output : text) : fprog XmlGenerator text :=
  match fuel with
  | O => fun _ => None
  | S fuel =>
      if 0 <? len then
        more ← refill fuel;
        if (more : bool) then
          b ← get_front_buffer;
          let '(b, offset, n) := skip_data b offset 0 in
          let '(b, len, n, output) := copy_data b len n output in
          fmodify (set_bufferOffset n);;
          (match b with [] => consume_front | _ :: _ => mret tt end);;
          read_loop fuel offset len output
        else mret output
      else mret output
  end.

(** [None] is the answer -1. *)
Definition read (fuel : nat) (offset len : Z) : fprog XmlGenerator (option text) := fun x =>
  if offset <? fileOffset_ x then Some (Done None x)
  else (out ← read_loop fuel (offset - fileOffset_ x) len []; mret (Some out) : fprog XmlGenerator _) x.

(** The actions that are left are deleted. *)
Fixpoint delete_actions (fuel : nat) (t : T) : option T :=
  match fuel with
  | O => None
  | S fuel => if is_empty t then Some t else delete_actions fuel (tq_pop_front t)
  end.

Definition internal_reset (fuel : nat) : fprog XmlGenerator unit := fun x =>
  match delete_actions fuel (pendingActions_ x) with
  | None => None
  | Some t => Some (Done tt (set_pending t (set_fileOffset 0 x)))
  end.

(** A reader that reads one piece after the other. *)
Fixpoint read_pieces (fuel : nat) (offset : Z) (lens : list Z) : fprog XmlGenerator text :=
  match lens with
  | [] => mret []
  | len :: lens =>
      r ← read fuel offset len;
      match r with
      | Some out => rest ← read_pieces fuel (offset + zlen out) lens; mret (out ++ rest)
      | None => mret []
      end
  end.

(** ** What is read *)

(** The derived class: the actions that a call of [generate_more] adds, in
    order, depend on its own members only. *)
Class GeneratesMore (emits : G -> list GeneratorAction * G) := {
  generate_more_emits x :
    generate_more x =
    Some (Done tt (foldl (fun x a => add_to_output a x) (set_derived (snd (emits (derived x))) x)
                     (fst (emits (derived x)))))
}.

Context (emits : G -> list GeneratorAction * G).

(** All actions to come.  At the end no action is added any more. *)
Inductive script : G -> list GeneratorAction -> Prop :=
| script_end g : emits g = ([], g) -> script g []
| script_more g a acts g' l : emits g = (a :: acts, g') -> script g' l -> script g (a :: acts ++ l).

Definition action_text (a : GeneratorAction) : text :=
  list_ascii_of_string (match a with CONST_LITERAL s => s | RENDER_INT z => integer_to_buffer z end).

Definition actions_text (l : list GeneratorAction) : text := concat (action_text <$> l).

Definition front_ready (x : XmlGenerator) : Prop :=
  forall z, tq_front (pendingActions_ x) = Some (RENDER_INT z) -> buffer_ x = integer_to_buffer z.

(** What can be read from the offset of the file on is the text of [l]. *)
Definition represents (x : XmlGenerator) (l : list GeneratorAction) : Prop :=
  front_ready x /\ exists rest, l = tq_list (pendingActions_ x) ++ rest /\ script (derived x) rest.

(** ** The loops *)

Local Ltac by_parts :=
  repeat match goal with |- (_, _) = (_, _) => f_equal end; try done; try lia.

Lemma skip_data_spec b offset n :
  0 <= offset ->
  let k := Nat.min (Z.to_nat offset) (length b) in
  skip_data b offset n = (drop k b, offset - Z.of_nat k, n + Z.of_nat k).
Proof.
  cbv zeta. revert offset n. induction b as [|c b IH]; intros offset n H; cbn [skip_data length].
  - rewrite Nat.min_0_r, drop_nil. by_parts.
  - destruct (Z.ltb_spec 0 offset) as [Hp|Hp].
    + rewrite IH by lia. replace (Z.to_nat offset) with (S (Z.to_nat (offset - 1))) by lia.
      rewrite <- Nat.succ_min_distr. cbn [drop]. by_parts.
    + replace offset with 0 by lia. cbn. by_parts.
Qed.

Lemma copy_data_spec b len n output :
  0 <= len ->
  let k := Nat.min (Z.to_nat len) (length b) in
  copy_data b len n output = (drop k b, len - Z.of_nat k, n + Z.of_nat k, output ++ take k b).
Proof.
  cbv zeta. revert len n output. induction b as [|c b IH]; intros len n output H; cbn [copy_data length].
  - rewrite Nat.min_0_r, drop_nil, take_nil, app_nil_r. by_parts.
  - destruct (Z.ltb_spec 0 len) as [Hp|Hp].
    + rewrite IH by lia. replace (Z.to_nat len) with (S (Z.to_nat (len - 1))) by lia.
      rewrite <- Nat.succ_min_distr. cbn [drop take]. rewrite <- app_assoc. by_parts.
    + replace len with 0 by lia. cbn. rewrite app_nil_r. by_parts.
Qed.

Lemma tq_front_Some (t : T) a l : tq_list t = a :: l -> tq_front t = Some a.
Proof. intros E. by rewrite tq_front_list, E. Qed.

Lemma is_empty_spec (t : T) : is_empty t = bool_decide (tq_list t = []).
Proof. unfold is_empty. rewrite tq_front_list. by destruct (tq_list t). Qed.

Lemma reverse_actions_spec fuel (t r : T) :
  (length (tq_list t) < fuel)%nat ->
  exists t', reverse_actions fuel t r = Some t' /\ tq_list t' = rev (tq_list t) ++ tq_list r.
Proof.
  revert t r. induction fuel as [|fuel IH]; intros t r H; [lia|]. cbn [reverse_actions].
  rewrite tq_front_list. destruct (tq_list t) as [|a l] eqn:E; cbn [head]; [by exists r|].
  destruct (IH (tq_pop_front t) (tq_push_front a r)) as (t' & -> & Ht).
  { rewrite tq_list_pop_front, E. cbn in *. lia. }
  exists t'. split; [done|]. rewrite Ht, tq_list_pop_front, tq_list_push_front, E. cbn.
  by rewrite <- app_assoc.
Qed.

Lemma delete_actions_spec fuel (t : T) :
  (length (tq_list t) < fuel)%nat -> exists t', delete_actions fuel t = Some t' /\ tq_list t' = [].
Proof.
  revert t. induction fuel as [|fuel IH]; intros t H; [lia|]. cbn [delete_actions].
  rewrite is_empty_spec. case_bool_decide as E; [eauto|]. apply IH.
  rewrite tq_list_pop_front. destruct (tq_list t); [done|]. cbn in *. lia.
Qed.

(** *** New actions *)

Lemma add_all_spec acts x :
  let x' := foldl (fun x a => add_to_output a x) x acts in
  tq_list (pendingActions_ x') = rev acts ++ tq_list (pendingActions_ x) /\
  fileOffset_ x' = fileOffset_ x /\ derived x' = derived x.
Proof.
  cbv zeta. revert x. induction acts as [|a acts IH]; intros x; [done|]. cbn [foldl rev].
  destruct (IH (add_to_output a x)) as (-> & -> & ->). cbn. rewrite tq_list_push_front.
  by rewrite <- app_assoc.
Qed.

Lemma init_front_action_spec x a l :
  tq_list (pendingActions_ x) = a :: l ->
  exists x', init_front_action x = Some (Done tt x') /\ front_ready x' /\
    pendingActions_ x' = pendingActions_ x /\ fileOffset_ x' = fileOffset_ x /\ derived x' = derived x.
Proof.
  intros E%tq_front_Some. unfold init_front_action. rewrite E.
  destruct a as [s|z]; (eexists; split; [done|]; split; [|done]); intros z' Hz; cbn in Hz |- *; congruence.
Qed.

Context `{GM : !GeneratesMore emits}.

(** After [refill] there is a pending action unless everything was read. *)
Lemma refill_spec fuel x l :
  represents x l -> (length l < fuel)%nat ->
  exists x', refill fuel x = Some (Done (negb (bool_decide (l = []))) x') /\ represents x' l /\
    fileOffset_ x' = fileOffset_ x /\ (l <> [] -> tq_list (pendingActions_ x') <> []).
Proof.
  intros (Hf & rest & -> & Hs) Hl. unfold refill. rewrite is_empty_spec.
  destruct (tq_list (pendingActions_ x)) as [|a p] eqn:Ep; cbn [bool_decide].
  2: { exists x. cbn. split; [done|]. split; [|by rewrite Ep]. split; [done|]. exists rest. by rewrite Ep. }
  cbn in Hl |- *. unfold mbind, fprog_bind. rewrite (generate_more_emits (emits := emits)).
  destruct (add_all_spec (fst (emits (derived x))) (set_derived (snd (emits (derived x))) x)) as (Hp & Ho & Hd).
  cbn in Hp, Ho, Hd. rewrite Ep, app_nil_r in Hp.
  unfold take_new_actions. set (x1 := foldl _ _ _) in *. rewrite is_empty_spec, Hp.
  inversion Hs as [g E|g a acts g' l E Hs']; subst; rewrite E in *; cbn [fst snd] in *.
  - exists x1. cbn. split; [done|]. split; [|done]. split.
    + intros z. rewrite tq_front_list, Hp. done.
    + exists []. rewrite Hp, Hd. done.
  - rewrite bool_decide_false by (intros Hn%(f_equal length); by rewrite length_rev in Hn).
    destruct (reverse_actions_spec fuel (pendingActions_ x1) tq_new) as (t & -> & Ht).
    { rewrite Hp, length_rev. cbn in *. rewrite length_app in Hl. lia. }
    rewrite Hp, rev_involutive, tq_list_new, app_nil_r in Ht.
    destruct (init_front_action_spec (set_pending t x1) a acts Ht) as (x2 & Ei & Hf2 & Hp2 & Ho2 & Hd2).
    unfold mbind, fprog_bind. rewrite Ei. exists x2. cbn in *. split; [done|].
    rewrite Ho2, Ho, Hp2, Ht. split; [|done]. split; [done|]. exists l. rewrite Hp2, Ht, Hd2, Hd. done.
Qed.

Lemma get_front_buffer_spec x a l :
  front_ready x -> tq_list (pendingActions_ x) = a :: l ->
  get_front_buffer x = Some (Done (action_text a) x).
Proof.
  intros Hf E%tq_front_Some. unfold get_front_buffer, action_text. rewrite E.
  destruct a as [s|z]; [done|]. by rewrite (Hf z E).
Qed.

Lemma consume_front_spec x a l :
  represents x (a :: l) -> tq_list (pendingActions_ x) <> [] ->
  exists x', consume_front x = Some (Done tt x') /\ represents x' l /\
    fileOffset_ x' = fileOffset_ x + bufferOffset_ x.
Proof.
  intros (_ & rest & El & Hs) Hne. destruct (tq_list (pendingActions_ x)) as [|a' p] eqn:Ep; [done|].
  injection El as <- ->. unfold consume_front, fmodify, total, get_state, mbind, fprog_bind. cbn.
  rewrite is_empty_spec, tq_list_pop_front, Ep. cbn [tail].
  destruct p as [|b p].
  - rewrite bool_decide_true by done. eexists. split; [done|]. split; [|done]. split.
    + intros z. cbn. rewrite tq_front_list, tq_list_pop_front, Ep. done.
    + exists rest. cbn. rewrite tq_list_pop_front, Ep. done.
  - rewrite bool_decide_false by done.
    match goal with |- context [init_front_action ?y] =>
      destruct (init_front_action_spec y b p) as (x' & -> & Hf & Hp & Ho & Hd) end.
    { cbn. by rewrite tq_list_pop_front, Ep. }
    exists x'. split; [done|]. split; [|by rewrite Ho]. split; [done|]. exists rest.
    rewrite Hp, Hd. cbn. rewrite tq_list_pop_front, Ep. done.
Qed.

(** *** Reading *)

Lemma drop_min {A} n (l : list A) : drop (Nat.min n (length l)) l = drop n l.
Proof. destruct (Nat.min_spec n (length l)) as [[_ ->]|[H ->]]; [done|]. by rewrite !drop_ge by lia. Qed.

Lemma take_min {A} n (l : list A) : take (Nat.min n (length l)) l = take n l.
Proof. destruct (Nat.min_spec n (length l)) as [[_ ->]|[H ->]]; [done|]. by rewrite !take_ge by lia. Qed.

(** The characters of [t] from [offset] on, at most [len]. *)
Definition window (offset len : Z) (t : text) : text := take (Z.to_nat len) (drop (Z.to_nat offset) t).

Lemma window_app offset len b t :
  0 <= offset -> 0 <= len ->
  let k1 := Nat.min (Z.to_nat offset) (length b) in
  let k2 := Nat.min (Z.to_nat len) (length (drop k1 b)) in
  window offset len (b ++ t) =
    take k2 (drop k1 b) ++ window (offset - Z.of_nat k1) (len - Z.of_nat k2) t.
Proof.
  intros Ho Hl. cbv zeta. rewrite drop_min, take_min. unfold window.
  rewrite drop_app, take_app. f_equal. f_equal; [lia|]. f_equal. lia.
Qed.

Lemma actions_text_nil : actions_text [] = [].
Proof. done. Qed.

Lemma actions_text_cons a l : actions_text (a :: l) = action_text a ++ actions_text l.
Proof. done. Qed.

Lemma represents_set_bufferOffset n x l : represents x l -> represents (set_bufferOffset n x) l.
Proof. by intros (? & ?). Qed.

(** [x'] is [x] after a prefix of the actions, with the text [got], was read. *)
Definition advanced (x : XmlGenerator) (l : list GeneratorAction) (upto : Z) (x' : XmlGenerator) : Prop :=
  exists pre l', l = pre ++ l' /\ represents x' l' /\
    fileOffset_ x' = fileOffset_ x + zlen (actions_text pre) /\ zlen (actions_text pre) <= upto.

Lemma advanced_refl x x' l upto :
  represents x' l -> fileOffset_ x' = fileOffset_ x -> 0 <= upto -> advanced x l upto x'.
Proof.
  intros R E H. exists [], l. rewrite E. rewrite actions_text_nil, zlen_nil.
  split; [done|]. split; [done|]. lia.
Qed.

Lemma advanced_cons x x1 x' a l upto upto' :
  fileOffset_ x1 = fileOffset_ x + zlen (action_text a) -> advanced x1 l upto' x' ->
  zlen (action_text a) + upto' <= upto -> advanced x (a :: l) upto x'.
Proof.
  intros E (pre & l' & -> & R & Eo & Hle) H. exists (a :: pre), l'.
  rewrite actions_text_cons, zlen_app. split; [done|]. split; [done|]. lia.
Qed.

Lemma window_nil offset len : window offset len [] = [].
Proof. unfold window. by rewrite drop_nil, take_nil. Qed.

Lemma read_loop_spec fuel l x offset len out :
  represents x l -> (length l + 2 <= fuel)%nat -> 0 <= offset -> 0 <= len ->
  let got := window offset len (actions_text l) in
  exists x', read_loop fuel offset len out x = Some (Done (out ++ got) x') /\
    advanced x l (offset + zlen got) x'.
Proof.
  cbv zeta. revert l x offset len out.
  induction fuel as [|fuel IH]; intros l x offset len out R Hf Ho Hl; [lia|]. cbn [read_loop].
  pose proof (zlen_nonneg (window offset len (actions_text l))) as Hz.
  destruct (Z.ltb_spec 0 len) as [Hp|Hp].
  2: { assert (len = 0) as -> by lia. exists x. split; [unfold window; by rewrite app_nil_r|].
       apply advanced_refl; [done|done|lia]. }
  destruct (refill_spec fuel x l R) as (x1 & E & R1 & Eo & Hne); [lia|].
  unfold mbind at 1, fprog_bind at 1. rewrite E. destruct l as [|a l].
  { exists x1. rewrite bool_decide_true by done. rewrite actions_text_nil, window_nil, app_nil_r. split; [done|].
    apply advanced_refl; [done|done|unfold zlen; cbn; lia]. }
  rewrite bool_decide_false by done. cbn [negb].
  specialize (Hne ltac:(done)). pose proof R1 as (Hfr & rest & El & _).
  destruct (tq_list (pendingActions_ x1)) as [|a' p] eqn:Ep; [done|]. injection El as <- _.
  unfold mbind at 1, fprog_bind at 1. rewrite (get_front_buffer_spec x1 a p Hfr Ep).
  set (b := action_text a) in *. rewrite skip_data_spec by done. cbv beta iota.
  set (k1 := Nat.min (Z.to_nat offset) (length b)). rewrite copy_data_spec by done. cbv beta iota.
  set (k2 := Nat.min (Z.to_nat len) (length (drop k1 b))).
  unfold mbind at 1, fprog_bind at 1, fmodify. set (x2 := set_bufferOffset _ x1).
  assert (R2 : represents x2 (a :: l)) by (by apply represents_set_bufferOffset).
  rewrite actions_text_cons. fold b. rewrite window_app by done. fold k1 k2.
  set (got := window (offset - Z.of_nat k1) (len - Z.of_nat k2) (actions_text l)).
  pose proof (length_drop b k1) as Hd1. pose proof (length_drop (drop k1 b) k2) as Hd2.
  destruct (drop k2 (drop k1 b)) as [|c b2] eqn:Eb; cbn [length] in Hd2.
  - destruct (consume_front_spec x2 a l R2) as (x3 & E3 & R3 & Eo3); [cbn; by rewrite Ep|].
    unfold mbind, fprog_bind. rewrite E3.
    destruct (IH l x3 (offset - Z.of_nat k1) (len - Z.of_nat k2) (out ++ take k2 (drop k1 b)) R3)
      as (x' & -> & Ha); [cbn in Hf; lia|lia|lia|].
    exists x'. rewrite <- app_assoc. split; [done|].
    apply (advanced_cons x x3 x' a l _ (offset - Z.of_nat k1 + zlen got)); [|done|].
    + rewrite Eo3. cbn. rewrite Eo. fold b. unfold zlen. lia.
    + fold b. rewrite zlen_app. unfold zlen. rewrite length_take. lia.
  - assert (Elen : len - Z.of_nat k2 = 0) by lia. unfold mbind, fprog_bind, mret, fprog_ret.
    destruct fuel as [|fuel]; [lia|]. cbn [read_loop]. rewrite Elen. cbn [Z.ltb Z.compare].
    exists x2. unfold got, window. rewrite Elen, app_nil_r. split; [done|].
    apply advanced_refl; [done|done|]. pose proof (zlen_nonneg (take k2 (drop k1 b))). lia.
Qed.

Lemma read_spec fuel l x offset len :
  represents x l -> (length l + 2 <= fuel)%nat -> fileOffset_ x <= offset -> 0 <= len ->
  let got := window (offset - fileOffset_ x) len (actions_text l) in
  exists x', read fuel offset len x = Some (Done (Some got) x') /\
    advanced x l (offset - fileOffset_ x + zlen got) x'.
Proof.
  intros R Hf Ho Hl. cbv zeta. unfold read. destruct (Z.ltb_spec offset (fileOffset_ x)); [lia|].
  destruct (read_loop_spec fuel l x (offset - fileOffset_ x) len [] R) as (x' & E & Ha); [lia|lia|lia|].
  unfold mbind, fprog_bind. rewrite E. by exists x'.
Qed.

(** Where a reader goes on after a window. *)
Lemma window_advance o len sum t :
  0 <= o -> 0 <= len -> 0 <= sum ->
  window o (len + sum) t = window o len t ++ window (o + zlen (window o len t)) sum t.
Proof.
  intros Ho Hl Hs. unfold window, zlen. rewrite length_take, length_drop.
  rewrite Z2Nat.inj_add, Z2Nat.inj_add, Nat2Z.id by lia. rewrite <- drop_drop.
  set (d := drop (Z.to_nat o) t). rewrite <- (length_drop t (Z.to_nat o)). fold d.
  rewrite <- (take_drop (Z.to_nat len) d) at 1. rewrite take_app, take_take, length_take.
  rewrite Nat.min_r by lia. f_equal. destruct (Nat.min_spec (Z.to_nat len) (length d)) as [[H ->]|[H ->]].
  - f_equal. lia.
  - rewrite !drop_ge by lia. by rewrite !take_nil.
Qed.

Lemma actions_text_app l l' : actions_text (l ++ l') = actions_text l ++ actions_text l'.
Proof. unfold actions_text. by rewrite fmap_app, concat_app. Qed.

(** What remains to be read, seen from the same offset of the file. *)
Lemma advanced_window x l x' l' pre o len :
  l = pre ++ l' -> fileOffset_ x' = fileOffset_ x + zlen (actions_text pre) ->
  fileOffset_ x' <= o -> 0 <= fileOffset_ x' - fileOffset_ x ->
  window (o - fileOffset_ x') len (actions_text l') = window (o - fileOffset_ x) len (actions_text l).
Proof.
  intros -> E Ho Hp. unfold window. rewrite actions_text_app, drop_app.
  rewrite (drop_ge (actions_text pre)) by (unfold zlen in E; lia). cbn [app]. f_equal. f_equal.
  unfold zlen in E. lia.
Qed.

Lemma read_pieces_spec fuel l x offset lens :
  represents x l -> (length l + 2 <= fuel)%nat -> fileOffset_ x <= offset -> Forall (fun n => 0 <= n) lens ->
  exists x', read_pieces fuel offset lens x =
    Some (Done (window (offset - fileOffset_ x) (foldr Z.add 0 lens) (actions_text l)) x').
Proof.
  intros R Hf Ho Hl. revert x l offset R Hf Ho.
  induction Hl as [|len lens Hlen Hl IH]; intros x l offset R Hf Ho; cbn [read_pieces foldr].
  { exists x. by unfold window. }
  destruct (read_spec fuel l x offset len R Hf Ho Hlen) as (x1 & E & pre & l1 & El & R1 & Eo & Hle).
  unfold mbind at 1, fprog_bind at 1. rewrite E. set (got := window _ len _) in *.
  pose proof (zlen_nonneg got) as Hg. pose proof (zlen_nonneg (actions_text pre)) as Hp.
  destruct (IH x1 l1 (offset + zlen got) R1) as (x' & E'); [rewrite El, length_app in Hf; lia|lia|].
  unfold mbind, fprog_bind. rewrite E'. exists x'. unfold mret, fprog_ret. do 2 f_equal.
  assert (Hs : 0 <= foldr Z.add 0 lens) by (clear -Hl; induction Hl; cbn; lia).
  rewrite (window_advance _ len) by lia. fold got. f_equal.
  rewrite (advanced_window x l x1 l1 pre) by (done || lia). f_equal. lia.
Qed.

(** *** Properties *)

(** A read at an offset that was not passed yet answers with the
    characters of the generated text from this offset on, as many as were asked
    for or as there are, and so do the reads after it; a read before what was
    passed answers -1 and changes nothing.  Reading always comes to an end. *)
Theorem read_returns_text fuel l x offset len :
  represents x l -> (length l + 2 <= fuel)%nat -> 0 <= len ->
  if offset <? fileOffset_ x then read fuel offset len x = Some (Done None x)
  else exists got x' l', got = window (offset - fileOffset_ x) len (actions_text l) /\
    read fuel offset len x = Some (Done (Some got) x') /\
    represents x' l' /\ fileOffset_ x' <= offset + zlen got /\
    forall o n, fileOffset_ x' <= o ->
      window (o - fileOffset_ x') n (actions_text l') = window (o - fileOffset_ x) n (actions_text l).
Proof.
  intros R Hf Hl. destruct (Z.ltb_spec offset (fileOffset_ x)) as [Ho|Ho].
  - unfold read. destruct (Z.ltb_spec offset (fileOffset_ x)); [done|lia].
  - destruct (read_spec fuel l x offset len R Hf Ho Hl) as (x' & E & pre & l' & El & R' & Eo & Hle).
    eexists _, x', l'. split; [reflexivity|]. split; [done|]. split; [done|]. split; [lia|].
    intros o n Hn. pose proof (zlen_nonneg (actions_text pre)).
    apply (advanced_window x l x' l' pre); done || lia.
Qed.

End XmlGenerator.
