(* ===== verification/TrainDb.v ===== *)
(** The train database (src/cs/commandstation/TrainDb.cxx, TrainDb.hxx, with
    the layout of its file in TrainDbCdi.hxx and the symbols of TrainDbDefs.hxx).

    Trains come from a table that is compiled in, from slots of the
    configuration file, or from outside.  Reading and writing of configuration
    entries is OpenMRN code: the file is the list of its slots. *)

From S2P Require Import Prelude FindProtocol.
Import TrainDbDefs.

(** ** Symbols of functions *)

Definition DCC_MAX_FN : Z := 29.
Definition MOMENTARY : Z := 128.
Definition FN_UNINITIALIZED : Z := 255.
Definition FN_NONEXISTANT : Z := 0.
Definition HEADLIGHT : Z := 1.
Definition ENGINE : Z := 4.
Definition ANNOUNCE : Z := Z.lor 6 MOMENTARY.
Definition SHUNTING_MODE : Z := 7.
Definition MOMENTUM : Z := 8.
Definition SMOKE : Z := 10.
Definition PANTOGRAPH : Z := 11.
Definition FAR_LIGHT : Z := 12.
Definition BELL : Z := 13.
Definition HORN : Z := Z.lor 14 MOMENTARY.
Definition WHISTLE : Z := Z.lor 15 MOMENTARY.
Definition LIGHT : Z := 74.
Definition UNCOUPLE : Z := Z.lor 9 MOMENTARY.

(** ** Entries *)

(** [const_traindb_entry_t]; there are [DCC_MAX_FN] labels. *)
Record const_traindb_entry_t := mkConstEntry {
  address : Z;
  function_labels : list Z;
  name : string;
  mode : Z
}.

(** [TrainDbCdiFunctionGroup] and [TrainDbCdiEntry]; there are 28 functions, of
    F1 and up. *)
Record TrainDbCdiFunctionGroup := mkFunctionGroup {
  icon : Z;
  is_momentary : Z
}.

Record TrainDbCdiEntry := mkCdiEntry {
  cdi_address : Z;
  cdi_mode : Z;
  cdi_name : string;
  all_functions : list TrainDbCdiFunctionGroup
}.

Definition TrainFile := list TrainDbCdiEntry.

(** The classes of entries: a compiled-in one by its position, one by its
    address in memory, one of a slot of the file. *)
Inductive TrainDbEntry :=
| ConstTrainDbEntry (offset_ : Z) (maxFn_ : Z)
| ExtPtrTrainDbEntry (pointer : Z) (entry_ : const_traindb_entry_t) (maxFn_ : Z)
| FileTrainDbEntry (slot : nat) (maxFn_ : Z).

Section TrainDb.
Context (integer_to_buffer : Z -> string).
Context (train_node_id_from_legacy : TrainAddressType -> Z -> Z).
Context (const_lokdb : list const_traindb_entry_t).
(** Where a slot starts in the file. *)
Context (slot_offset : nat -> Z).

Definition no_entry : const_traindb_entry_t := mkConstEntry 0 [] "" 0.
Definition no_slot : TrainDbCdiEntry := mkCdiEntry 0 0 "" [].

Definition slot_at (file : TrainFile) (slot : nat) : TrainDbCdiEntry := default no_slot (file !! slot).

(** [const_lokdb + offset_], where [offset_] is a byte. *)
Definition const_entry (offset_ : Z) : const_traindb_entry_t :=
  default no_entry (const_lokdb !! Z.to_nat (u8 offset_)).

Definition label_at (c : const_traindb_entry_t) (fn : Z) : Z :=
  default FN_NONEXISTANT (function_labels c !! Z.to_nat fn).

(** [PtrTrainDbEntry::init]: the highest function that exists, plus one. *)
Definition PtrTrainDbEntry_init (c : const_traindb_entry_t) : Z :=
  fold_left (fun maxFn i => if label_at c i =? FN_NONEXISTANT then maxFn else u8 (i + 1))
    (seqZ 0 DCC_MAX_FN) 0.

(** [FileTrainDbEntry::init]; F0 exists always. *)
Definition FileTrainDbEntry_init (file : TrainFile) (slot : nat) : Z :=
  fst (fold_left (fun '(maxFn, i) f =>
                    (if icon f =? FN_NONEXISTANT then maxFn else u8 (i + 2), i + 1))
         (all_functions (slot_at file slot)) (1, 0)).

Definition new_ConstTrainDbEntry (offset_ : Z) : TrainDbEntry :=
  ConstTrainDbEntry (u8 offset_) (PtrTrainDbEntry_init (const_entry offset_)).
Definition create_lokdb_entry (pointer : Z) (c : const_traindb_entry_t) : TrainDbEntry :=
  ExtPtrTrainDbEntry pointer c (PtrTrainDbEntry_init c).
Definition new_FileTrainDbEntry (file : TrainFile) (slot : nat) : TrainDbEntry :=
  FileTrainDbEntry slot (FileTrainDbEntry_init file slot).

Section Entry.
Context (file : TrainFile).

Definition start_read_functions (e : TrainDbEntry) : TrainDbEntry :=
  match e with
  | ConstTrainDbEntry o _ => ConstTrainDbEntry o (PtrTrainDbEntry_init (const_entry o))
  | ExtPtrTrainDbEntry p c _ => ExtPtrTrainDbEntry p c (PtrTrainDbEntry_init c)
  | FileTrainDbEntry s _ => FileTrainDbEntry s (FileTrainDbEntry_init file s)
  end.

Definition get_max_fn (e : TrainDbEntry) : Z :=
  match e with
  | ConstTrainDbEntry _ m | ExtPtrTrainDbEntry _ _ m | FileTrainDbEntry _ m => m - 1
  end.

Definition PtrTrainDbEntry_get_function_label (c : const_traindb_entry_t) (maxFn_ fn_id : Z) : Z :=
  if DCC_MAX_FN <=? fn_id then FN_NONEXISTANT
  else if maxFn_ <? fn_id then FN_NONEXISTANT
  else label_at c fn_id.

Definition FileTrainDbEntry_get_function_label (slot : nat) (maxFn_ fn_id : Z) : Z :=
  if fn_id =? 0 then HEADLIGHT
  else if maxFn_ <=? fn_id then FN_NONEXISTANT
  else
    match znth (all_functions (slot_at file slot)) (fn_id - 1) with
    | None => FN_NONEXISTANT
    | Some f => if is_momentary f =? 0 then icon f else Z.lor (icon f) 128
    end.

(** [fn_id] is unsigned. *)
Definition get_function_label (e : TrainDbEntry) (fn_id : Z) : Z :=
  match e with
  | ConstTrainDbEntry o m => PtrTrainDbEntry_get_function_label (const_entry o) m fn_id
  | ExtPtrTrainDbEntry _ c m => PtrTrainDbEntry_get_function_label c m fn_id
  | FileTrainDbEntry s m => FileTrainDbEntry_get_function_label s m fn_id
  end.

Definition legacy_address (e : TrainDbEntry) : Z :=
  match e with
  | ConstTrainDbEntry o _ => u16 (address (const_entry o))
  | ExtPtrTrainDbEntry _ c _ => u16 (address c)
  | FileTrainDbEntry s _ => u16 (cdi_address (slot_at file s))
  end.

Definition get_legacy_drive_mode (e : TrainDbEntry) : Z :=
  match e with
  | ConstTrainDbEntry o _ => mode (const_entry o)
  | ExtPtrTrainDbEntry _ c _ => mode c
  | FileTrainDbEntry s _ => cdi_mode (slot_at file s)
  end.

Definition get_train_name (e : TrainDbEntry) : string :=
  match e with
  | ConstTrainDbEntry o _ => name (const_entry o)
  | ExtPtrTrainDbEntry _ c _ => name c
  | FileTrainDbEntry s _ => cdi_name (slot_at file s)
  end.

Definition legacy_node (drive_mode addr : Z) : Z :=
  train_node_id_from_legacy (dcc_mode_to_address_type drive_mode addr) addr.

Definition get_traction_node (e : TrainDbEntry) : Z :=
  let addr := legacy_address e in
  match e with
  | ConstTrainDbEntry _ _ | ExtPtrTrainDbEntry _ _ _ =>
      if get_legacy_drive_mode e =? DCCMODE_OLCBUSER then Z.lor 0x050101010000 addr
      else legacy_node (get_legacy_drive_mode e) addr
  | FileTrainDbEntry _ _ => legacy_node (get_legacy_drive_mode e) addr
  end.

Definition identifier (e : TrainDbEntry) : string :=
  match e with
  | ConstTrainDbEntry o _ => "const/" ++ integer_to_buffer o
  | ExtPtrTrainDbEntry p _ _ => "dyn/" ++ integer_to_buffer (s32 (Z.land p 0xffffffff))
  | FileTrainDbEntry s _ => "file/" ++ integer_to_buffer (s32 (slot_offset s))
  end%string.

Definition file_offset (e : TrainDbEntry) : Z :=
  match e with
  | FileTrainDbEntry s _ => s32 (slot_offset s)
  | _ => -1
  end.

End Entry.

(** ** The database *)

(** [cfg_]: whether there is a file, and how many slots it has. *)
Record TrainDb := mkTrainDb {
  has_cfg : bool;
  entries_ : list TrainDbEntry
}.

Definition set_entries (l : list TrainDbEntry) (d : TrainDb) : TrainDb := mkTrainDb (has_cfg d) l.

Definition init_const_lokdb : list TrainDbEntry :=
  filter (fun e => legacy_address [] e ≠ 0)
    (new_ConstTrainDbEntry <$> seqZ 0 (zlen const_lokdb)).

Definition new_TrainDb (has : bool) : TrainDb := mkTrainDb has init_const_lokdb.

Definition has_file (d : TrainDb) : bool := has_cfg d.

Definition size (d : TrainDb) : Z := zlen (entries_ d).

Definition is_train_id_known (d : TrainDb) (train_id : Z) : bool := train_id <? size d.

Definition get_entry (d : TrainDb) (train_id : Z) : option TrainDbEntry :=
  if train_id <? size d then znth (entries_ d) train_id else None.

Definition has_node (file : TrainFile) (node : Z) (e : TrainDbEntry) : bool :=
  get_traction_node file e =? node.

Definition find_entry (file : TrainFile) (d : TrainDb) (traction_node_id hint : Z) : option TrainDbEntry :=
  match get_entry d hint with
  | Some e =>
      if has_node file traction_node_id e then Some e
      else List.find (has_node file traction_node_id) (entries_ d)
  | None => List.find (has_node file traction_node_id) (entries_ d)
  end.

Definition add_dynamic_entry (e : TrainDbEntry) (d : TrainDb) : Z * TrainDb :=
  (size d, set_entries (push_back (entries_ d) e) d).

(** One slot, when the file is loaded for the first time. *)
Definition load_slot (file : TrainFile) (l : list TrainDbEntry) (slot : nat) : list TrainDbEntry :=
  let address := u16 (cdi_address (slot_at file slot)) in
  let mode := cdi_mode (slot_at file slot) in
  if negb (address =? 0) && negb (address =? 0xffff) && negb (mode =? 0)
  then push_back l (new_FileTrainDbEntry file slot) else l.

(** One slot, when the file has changed. *)
Definition reload_slot (file : TrainFile) (l : list TrainDbEntry) (slot : nat) : list TrainDbEntry :=
  let address := u16 (cdi_address (slot_at file slot)) in
  if negb (address =? 0) && negb (address =? 0xffff) then
    let e := new_FileTrainDbEntry file slot in
    let traction_node := get_traction_node file e in
    if existsb (has_node file traction_node) l
    then (fun e' => if has_node file traction_node e' then e else e') <$> l
    else push_back l e
  else l.

(** The end of the slots in the file is the answer. *)
Definition load_from_file (file : TrainFile) (initial_load : bool) (d : TrainDb) : Z * TrainDb :=
  if has_cfg d then
    (slot_offset (length file),
     set_entries
       (fold_left (if initial_load then load_slot file else reload_slot file)
          (seq 0 (length file)) (entries_ d)) d)
  else (0, d).

(** [TrainDbFactoryResetHelper::factory_reset]: a slot of zero bytes. *)
Definition cleared_slot (s : TrainDbCdiEntry) : TrainDbCdiEntry :=
  mkCdiEntry 0 0 "" ((fun _ => mkFunctionGroup 0 0) <$> all_functions s).

Definition factory_reset (file : TrainFile) : TrainFile := cleared_slot <$> file.

(** ** Reloading *)

Section Reload.
Context (file : TrainFile).
Abbreviation node := (get_traction_node file).
Abbreviation fresh := (new_FileTrainDbEntry file).

(** A slot that holds a train. *)
Definition in_use (slot : nat) : bool :=
  let a := u16 (cdi_address (slot_at file slot)) in negb (a =? 0) && negb (a =? 0xffff).

(** Every entry with the node of a slot is an entry of the file, made anew. *)
Definition loaded (n : Z) (l : list TrainDbEntry) : Prop :=
  (exists e, e ∈ l /\ node e = n) /\
  forall e, e ∈ l -> node e = n -> exists s, e = fresh s.

Lemma has_node_spec n e : has_node file n e = true <-> node e = n.
Proof. apply Z.eqb_eq. Qed.

Lemma existsb_node n (l : list TrainDbEntry) : existsb (has_node file n) l = true <-> n ∈ node <$> l.
Proof.
  rewrite existsb_exists, list_elem_of_fmap. split.
  - intros (e & He & Hn). exists e. rewrite list_elem_of_In. apply has_node_spec in Hn. done.
  - intros (e & -> & He). exists e. rewrite <- list_elem_of_In. split; [done|]. by apply has_node_spec.
Qed.

(** Replacing all entries that have the node of a new one. *)
Lemma replaced_nodes e (l : list TrainDbEntry) :
  node <$> ((fun e' => if has_node file (node e) e' then e else e') <$> l) = node <$> l.
Proof.
  rewrite <- list_fmap_compose. apply list_fmap_ext. intros i e' _. cbn.
  destruct (has_node file (node e) e') eqn:E; [|done]. symmetry. by apply has_node_spec.
Qed.

Lemma reload_slot_nodes l slot :
  node <$> reload_slot file l slot =
  (node <$> l) ++ (if in_use slot && negb (existsb (has_node file (node (fresh slot))) l)
                   then [node (fresh slot)] else []).
Proof.
  unfold reload_slot, in_use. destruct (_ && _); cbn [andb]; [|by rewrite app_nil_r].
  destruct (existsb _ l); cbn [negb].
  - by rewrite app_nil_r, replaced_nodes.
  - unfold push_back. by rewrite fmap_app.
Qed.

(** An entry after the reload of a slot is one from before or the new one. *)
Lemma reload_slot_elem l slot e :
  e ∈ reload_slot file l slot -> e = fresh slot \/ e ∈ l.
Proof.
  unfold reload_slot. destruct (_ && _); [|by right]. destruct (existsb _ l).
  - intros (e' & -> & He)%list_elem_of_fmap. destruct (has_node _ _ e'); auto.
  - intros [He|He%list_elem_of_singleton]%elem_of_app; auto.
Qed.

Lemma node_elem n (l : list TrainDbEntry) : (exists e, e ∈ l /\ node e = n) <-> n ∈ node <$> l.
Proof. rewrite list_elem_of_fmap. split; intros (e & ? & ?); eauto. Qed.

Lemma reload_slot_loaded n l slot : loaded n l -> loaded n (reload_slot file l slot).
Proof.
  intros [Hex Hall]. split.
  - apply node_elem. rewrite reload_slot_nodes, elem_of_app. left. by apply node_elem.
  - intros e [->|He]%reload_slot_elem Hn; eauto.
Qed.

Lemma reload_slot_loads l slot : in_use slot = true -> loaded (node (fresh slot)) (reload_slot file l slot).
Proof.
  intros Hu. split.
  - apply node_elem. rewrite reload_slot_nodes, Hu, elem_of_app. cbn [andb].
    destruct (existsb _ l) eqn:E; cbn [negb]; [left; by apply existsb_node|right; left].
  - intros e. unfold reload_slot. fold (in_use slot). rewrite Hu. destruct (existsb _ l) eqn:E.
    + intros (e' & -> & He)%list_elem_of_fmap Hn. destruct (has_node _ _ e') eqn:E'; [eauto|].
      apply has_node_spec in Hn. congruence.
    + intros [He|He%list_elem_of_singleton]%elem_of_app Hn; [|eauto]. exfalso.
      assert (Hin : node (fresh slot) ∈ node <$> l) by (apply node_elem; eauto).
      apply existsb_node in Hin. congruence.
Qed.

(** The entries that a reload adds have nodes of their own. *)
Lemma reload_slot_adds l slot :
  exists added, node <$> reload_slot file l slot = (node <$> l) ++ added /\
    NoDup added /\ forall n, n ∈ added -> n ∉ node <$> l.
Proof.
  eexists. split; [apply reload_slot_nodes|]. destruct (in_use slot); cbn [andb]; [|split; [constructor|by intros n Hn%not_elem_of_nil]].
  destruct (existsb _ l) eqn:E; cbn [negb]; [split; [constructor|by intros n Hn%not_elem_of_nil]|].
  split; [apply NoDup_singleton|]. intros n ->%list_elem_of_singleton Hn. apply existsb_node in Hn. congruence.
Qed.

Lemma reload_spec slots l :
  let l' := fold_left (reload_slot file) slots l in
  (exists added, node <$> l' = (node <$> l) ++ added /\ NoDup added /\ forall n, n ∈ added -> n ∉ node <$> l) /\
  (forall n, loaded n l -> loaded n l') /\
  (forall s, s ∈ slots -> in_use s = true -> loaded (node (fresh s)) l').
Proof.
  cbv zeta. revert l. induction slots as [|s slots IH]; intros l; cbn [fold_left].
  { split; [exists []; rewrite app_nil_r; split; [done|]; split; [constructor|by intros n Hn%not_elem_of_nil]|].
    split; [done|]. by intros s Hs%not_elem_of_nil. }
  destruct (IH (reload_slot file l s)) as ((add2 & E2 & N2 & D2) & Hl & Hs). split; [|split].
  - destruct (reload_slot_adds l s) as (add1 & E1 & N1 & D1). exists (add1 ++ add2).
    rewrite E2, E1, <- app_assoc. split; [done|]. rewrite E1 in D2. split.
    + apply NoDup_app. split; [done|]. split; [|done]. intros n H1 H2. apply (D2 n H2), elem_of_app. by right.
    + intros n [Hn|Hn]%elem_of_app; [by apply D1|]. intros H. apply (D2 n Hn), elem_of_app. by left.
  - intros n H. by apply Hl, reload_slot_loaded.
  - intros s' [->|Hin]%elem_of_cons Hu; [by apply Hl, reload_slot_loads|by apply Hs].
Qed.

Lemma find_entry_spec d n hint :
  n ∈ node <$> entries_ d ->
  exists e, find_entry file d n hint = Some e /\ e ∈ entries_ d /\ node e = n.
Proof.
  intros Hn. unfold find_entry.
  assert (Hf : exists e, List.find (has_node file n) (entries_ d) = Some e).
  { destruct (List.find _ _) as [e|] eqn:E; [eauto|]. apply node_elem in Hn as (e & He & Hn).
    apply list_elem_of_In in He. pose proof (find_none _ _ E e He) as Hf. cbv beta in Hf.
    apply has_node_spec in Hn. congruence. }
  destruct Hf as [e Ef]. pose proof (find_some _ _ Ef) as [Hin%list_elem_of_In Hne%has_node_spec].
  unfold get_entry. destruct (hint <? size d); [|by exists e].
  destruct (znth (entries_ d) hint) as [e'|] eqn:E; [|by exists e].
  destruct (has_node file n e') eqn:E'; [|by exists e]. exists e'. split; [done|].
  split; [|by apply has_node_spec]. unfold znth in E. destruct (0 <=? hint); [|done].
  by apply list_elem_of_lookup_2 in E.
Qed.

End Reload.

(** The slot of an entry was edited: it describes another train. *)
Definition edited (old new : TrainFile) (e : TrainDbEntry) : Prop :=
  get_traction_node new e <> get_traction_node old e.

(** Where two entries of the longer list have the same node, both are of the
    shorter one. *)
Lemma same_of_old {A B} (f : A -> B) (l l' : list A) added i j x y :
  f <$> l' = (f <$> l) ++ added -> NoDup added -> (forall n, n ∈ added -> n ∉ f <$> l) ->
  l' !! i = Some x -> l' !! j = Some y -> i <> j -> f x = f y ->
  exists x0 y0, l !! i = Some x0 /\ l !! j = Some y0 /\ f x0 = f x /\ f y0 = f y.
Proof.
  intros E N D Hi Hj Hne Hxy.
  assert (Hfi : ((f <$> l) ++ added) !! i = Some (f x)) by (by rewrite <- E, list_lookup_fmap, Hi).
  assert (Hfj : ((f <$> l) ++ added) !! j = Some (f y)) by (by rewrite <- E, list_lookup_fmap, Hj).
  rewrite <- Hxy in *. apply lookup_app_Some in Hfi as [Hfi|[Hli Hfi]], Hfj as [Hfj|[Hlj Hfj]].
  - rewrite list_lookup_fmap in Hfi, Hfj. apply fmap_Some in Hfi as (x0 & Hx0 & E1), Hfj as (y0 & Hy0 & E2). by exists x0, y0.
  - exfalso. apply (D (f x)); by eapply list_elem_of_lookup_2.
  - exfalso. apply (D (f x)); by eapply list_elem_of_lookup_2.
  - exfalso. apply Hne. assert (Heq := NoDup_lookup _ _ _ _ N Hfi Hfj). rewrite length_fmap in *. lia.
Qed.

Lemma znth_lookup {A} (l : list A) i x : znth l i = Some x -> 0 <= i /\ l !! Z.to_nat i = Some x.
Proof. unfold znth. destruct (Z.leb_spec 0 i); [|done]. done. Qed.

Lemma get_entry_lookup d id e : get_entry d id = Some e -> 0 <= id /\ entries_ d !! Z.to_nat id = Some e.
Proof. unfold get_entry. destruct (_ <? _); [|done]. apply znth_lookup. Qed.

Lemma lookup_get_entry d id e : 0 <= id -> entries_ d !! Z.to_nat id = Some e -> get_entry d id = Some e.
Proof.
  intros H0 He. unfold get_entry, size, znth. apply lookup_lt_Some in He as Hl.
  destruct (Z.ltb_spec id (zlen (entries_ d))); [|unfold zlen in *; lia]. by rewrite (proj2 (Z.leb_le 0 id)).
Qed.

(** C37: Reloading the configuration keeps the trains.  After the file was changed
    from [old] to [new], every train id still has an entry: one whose slot was not
    edited means the train that it meant, another one the train that its slot
    describes now.  If different ids meant different trains, two of them come to
    mean the same one only if the slot of one of them was edited.  Every slot in
    use is found by the node of its train, whatever the hint, and the entry found
    was read anew from the file. *)
Theorem reload_keeps_trains old new d end_offset d' :
  load_from_file new false d = (end_offset, d') -> has_file d = true ->
  (forall id e, get_entry d id = Some e ->
     exists e', get_entry d' id = Some e' /\ get_traction_node new e' = get_traction_node new e /\
       (~ edited old new e -> get_traction_node new e' = get_traction_node old e)) /\
  (NoDup (get_traction_node old <$> entries_ d) ->
   forall i j e1 e2, i <> j -> get_entry d' i = Some e1 -> get_entry d' j = Some e2 ->
     get_traction_node new e1 = get_traction_node new e2 ->
     exists id e, (id = i \/ id = j) /\ get_entry d id = Some e /\ edited old new e) /\
  (forall slot hint, (slot < length new)%nat -> in_use new slot = true ->
     let n := get_traction_node new (new_FileTrainDbEntry new slot) in
     exists s, find_entry new d' n hint = Some (new_FileTrainDbEntry new s) /\
       get_traction_node new (new_FileTrainDbEntry new s) = n).
Proof.
  unfold load_from_file, has_file. intros E Hf. rewrite Hf in E. injection E as _ <-.
  destruct (reload_spec new (seq 0 (length new)) (entries_ d)) as ((added & Ea & Na & Da) & _ & Hs).
  set (l' := fold_left _ _ _) in *. split; [|split].
  - intros id e [H0 He]%get_entry_lookup.
    assert (Hne : (get_traction_node new <$> l') !! Z.to_nat id = Some (get_traction_node new e)).
    { rewrite Ea. apply lookup_app_l_Some. by rewrite list_lookup_fmap, He. }
    rewrite list_lookup_fmap in Hne. apply fmap_Some in Hne as (e' & He' & Hne). exists e'.
    split; [by apply lookup_get_entry|]. split; [done|]. intros Hk.
    destruct (decide (get_traction_node new e = get_traction_node old e)) as [Hu|Hu]; [congruence|]. by destruct Hk.
  - intros Hn i j e1 e2 Hij [Hi He1]%get_entry_lookup [Hj He2]%get_entry_lookup Hsame. cbn in He1, He2.
    destruct (same_of_old _ _ _ _ (Z.to_nat i) (Z.to_nat j) e1 e2 Ea Na Da He1 He2 ltac:(lia) Hsame)
      as (x & y & Hx & Hy & Ex & Ey).
    destruct (decide (get_traction_node new x = get_traction_node old x)) as [Ux|Ux];
      [|exists i, x; split; [by left|]; split; [by apply lookup_get_entry|done]].
    destruct (decide (get_traction_node new y = get_traction_node old y)) as [Uy|Uy];
      [|exists j, y; split; [by right|]; split; [by apply lookup_get_entry|done]].
    exfalso. apply Hij. enough (Z.to_nat i = Z.to_nat j) by lia.
    apply (NoDup_lookup _ _ _ (get_traction_node old x) Hn); rewrite list_lookup_fmap; [by rewrite Hx|].
    rewrite Hy. cbn. congruence.
  - intros slot hint Hl Hu. cbv zeta.
    destruct (Hs slot) as [Hex Hall]; [apply list_elem_of_In, in_seq; lia|done|].
    apply node_elem in Hex.
    destruct (find_entry_spec new (set_entries l' d) _ hint Hex) as (e & -> & He & Hne).
    destruct (Hall e He Hne) as [s ->]. eauto.
Qed.

(** ** The highest function *)

Lemma PtrTrainDbEntry_init_spec c :
  let m := PtrTrainDbEntry_init c in
  0 <= m <= DCC_MAX_FN /\
  (forall n, m <= n < DCC_MAX_FN -> label_at c n = FN_NONEXISTANT) /\
  (m = 0 \/ label_at c (m - 1) <> FN_NONEXISTANT).
Proof.
  cbv zeta. unfold PtrTrainDbEntry_init.
  assert (H : forall k : nat, (k <= 29)%nat ->
    let m := fold_left (fun maxFn i => if label_at c i =? FN_NONEXISTANT then maxFn else u8 (i + 1))
               (seqZ 0 (Z.of_nat k)) 0 in
    0 <= m <= Z.of_nat k /\ (forall n, m <= n < Z.of_nat k -> label_at c n = FN_NONEXISTANT) /\
    (m = 0 \/ label_at c (m - 1) <> FN_NONEXISTANT)).
  { cbv zeta. induction k as [|k IH]; intros Hk; [change (seqZ 0 (Z.of_nat 0)) with (@nil Z); cbn; split; [lia|]; split; [lia|by left]|].
    destruct IH as (Hr & Hz & Hl); [lia|]. rewrite Nat2Z.inj_succ, <- Z.add_1_r, seqZ_app by lia.
    rewrite fold_left_app. set (m := fold_left _ (seqZ 0 (Z.of_nat k)) 0) in *.
    change (seqZ (0 + Z.of_nat k) 1) with [0 + 0 + Z.of_nat k]. cbn [fold_left].
    replace (0 + 0 + Z.of_nat k) with (Z.of_nat k) by lia.
    destruct (Z.eqb_spec (label_at c (Z.of_nat k)) FN_NONEXISTANT) as [E|E].
    - split; [lia|]. split; [|done]. intros n Hn. destruct (decide (n = Z.of_nat k)) as [->|]; [done|].
      apply Hz. lia.
    - rewrite u8_small by (unfold is_uint8; lia). split; [lia|]. split; [intros n Hn; lia|].
      right. by rewrite Z.add_simpl_r. }
  apply (H 29%nat). lia.
Qed.

Lemma file_init_spec fs :
  zlen fs < DCC_MAX_FN ->
  let r := fold_left (fun '(maxFn, i) f =>
             (if icon f =? FN_NONEXISTANT then maxFn else u8 (i + 2), i + 1)) fs (1, 0) in
  snd r = zlen fs /\ 1 <= fst r <= zlen fs + 1 /\
  (forall n f, fst r <= n -> znth fs (n - 1) = Some f -> icon f = FN_NONEXISTANT) /\
  (fst r = 1 \/ exists f, znth fs (fst r - 2) = Some f /\ icon f <> FN_NONEXISTANT).
Proof.
  cbv zeta. induction fs as [|f fs IH] using rev_ind; intros H.
  { unfold zlen. cbn. split; [done|]. split; [lia|]. split; [|by left].
    intros n f _ E%znth_Some. unfold zlen in E. cbn in E. lia. }
  rewrite !zlen_snoc in *. pose proof (zlen_nonneg fs). unfold DCC_MAX_FN in *.
  destruct IH as (Hi & Hr & Hz & Hl); [lia|]. rewrite fold_left_app.
  destruct (fold_left _ fs (1, 0)) as [m i]. cbn [fst snd fold_left] in *. subst i.
  split; [lia|]. destruct (Z.eqb_spec (icon f) FN_NONEXISTANT) as [E|E].
  - split; [lia|]. split.
    + intros n f' Hn Hf'. destruct (decide (n - 1 < zlen fs)) as [Hlt|Hge].
      * rewrite znth_app_l in Hf' by done. by apply (Hz n).
      * pose proof (znth_Some _ _ _ Hf') as Hb. rewrite zlen_snoc in Hb.
        replace (n - 1) with (zlen fs) in Hf' by lia. rewrite znth_middle in Hf'. congruence.
    + destruct Hl as [->|(f' & Hf' & Hne)]; [by left|right]. exists f'.
      rewrite znth_app_l by (apply znth_Some in Hf'; lia). done.
  - rewrite u8_small by (unfold is_uint8; lia). split; [lia|]. split.
    + intros n f' Hn Hf'. apply znth_Some in Hf'. rewrite zlen_snoc in Hf'. lia.
    + right. exists f. split; [|done]. replace (zlen fs + 2 - 2) with (zlen fs) by lia. apply znth_middle.
Qed.

(** What a slot or a table says about a function; F0 of a slot exists always. *)
Definition is_assigned (file : TrainFile) (e : TrainDbEntry) (n : Z) : Prop :=
  match e with
  | ConstTrainDbEntry o _ => 0 <= n < DCC_MAX_FN /\ label_at (const_entry o) n <> FN_NONEXISTANT
  | ExtPtrTrainDbEntry _ c _ => 0 <= n < DCC_MAX_FN /\ label_at c n <> FN_NONEXISTANT
  | FileTrainDbEntry s _ =>
      n = 0 \/ exists f, znth (all_functions (slot_at file s)) (n - 1) = Some f /\
                icon f <> FN_NONEXISTANT
  end.

Definition entry_wf (file : TrainFile) (e : TrainDbEntry) : Prop :=
  match e with
  | FileTrainDbEntry s _ => zlen (all_functions (slot_at file s)) < DCC_MAX_FN
  | _ => True
  end.

Lemma ptr_max_fn c n :
  0 <= n < DCC_MAX_FN -> label_at c n <> FN_NONEXISTANT ->
  n <= PtrTrainDbEntry_init c - 1 /\
  PtrTrainDbEntry_get_function_label c (PtrTrainDbEntry_init c) n <> FN_NONEXISTANT.
Proof.
  intros Hn Hl. destruct (PtrTrainDbEntry_init_spec c) as (Hr & Hz & _).
  set (m := PtrTrainDbEntry_init c) in *.
  assert (n < m) by (destruct (Z.lt_ge_cases n m); [done|]; exfalso; apply Hl, Hz; lia).
  split; [lia|]. unfold PtrTrainDbEntry_get_function_label.
  destruct (Z.leb_spec DCC_MAX_FN n); [lia|]. destruct (Z.ltb_spec m n); [lia|done].
Qed.

Lemma ptr_max_fn_assigned c :
  0 <= PtrTrainDbEntry_init c - 1 ->
  PtrTrainDbEntry_init c - 1 < DCC_MAX_FN /\
  label_at c (PtrTrainDbEntry_init c - 1) <> FN_NONEXISTANT.
Proof.
  intros Hm. destruct (PtrTrainDbEntry_init_spec c) as (Hr & _ & Hl).
  destruct Hl as [E|Hl]; [|split; [lia|done]]. lia.
Qed.

(** After the functions of a train were read, [get_max_fn] is the highest
    function that its table or slot assigns, or -1 if there is none; every
    assigned function is at most that, and has a label. *)
Theorem max_fn_is_highest file e0 :
  entry_wf file e0 ->
  let e := start_read_functions file e0 in
  -1 <= get_max_fn e < DCC_MAX_FN /\
  (0 <= get_max_fn e -> is_assigned file e (get_max_fn e)) /\
  forall n, is_assigned file e n -> 0 <= n /\ n <= get_max_fn e /\
    get_function_label file e n <> FN_NONEXISTANT.
Proof.
  intros Hwf. destruct e0 as [o m|p c m|s m]; cbn.
  1, 2: match goal with |- context [PtrTrainDbEntry_init ?c] =>
          pose proof (PtrTrainDbEntry_init_spec c) as (Hr & _ & _);
          (split; [lia|]); (split; [intros Hm; destruct (ptr_max_fn_assigned c Hm); split; [lia|done]|]);
          intros n [Hn Hl]; destruct (ptr_max_fn c n Hn Hl); (split; [lia|done])
        end.
  destruct (file_init_spec _ Hwf) as (_ & Hr & Hz & Hl). unfold FileTrainDbEntry_init.
  set (m' := fst _) in *. cbn in Hwf. split; [lia|]. split.
  - intros _. destruct Hl as [->|(f & Hf & Hne)]; [by left|right]. exists f.
    by replace (m' - 1 - 1) with (m' - 2) by lia.
  - intros n [->|(f & Hf & Hne)]; [split; [lia|]; split; [lia|done]|].
    pose proof (znth_Some _ _ _ Hf) as Hb.
    assert (n < m') by (destruct (Z.lt_ge_cases n m'); [done|]; exfalso; by apply Hne, (Hz n)).
    split; [lia|]. split; [lia|]. unfold FileTrainDbEntry_get_function_label.
    destruct (Z.eqb_spec n 0); [lia|]. destruct (Z.leb_spec m' n); [lia|]. rewrite Hf.
    destruct (is_momentary f =? 0); [done|]. intros [E _]%Z.lor_eq_0_iff. by apply Hne.
Qed.

End TrainDb.
