(* ===== verification/FdiXmlGenerator.v ===== *)
(** The description of the functions of a train for throttles
    (src/cs/commandstation/FdiXmlGenerator.cxx, FdiXmlGenerator.hxx), a text of
    the generator of [XmlGenerator] over the entries of [TrainDb]. *)

From S2P Require Import Prelude Queues FindProtocol TrainDb XmlGenerator.

#[local] Open Scope string_scope.

Definition kFdiXmlHead : string :=
"<?xml version='1.0' encoding='UTF-8'?>
<?xml-stylesheet type='text/xsl' href='xslt/fdi.xsl'?>
<fdi xmlns:xsi='http://www.w3.org/2001/XMLSchema-instance' xsi:noNamespaceSchemaLocation='http://openlcb.org/trunk/prototypes/xml/schema/fdi.xsd'>
<segment space='249'><group><name/>
".

Definition kFdiXmlTail : string := "</group></segment></fdi>".

Definition kFdiXmlBinaryFunction : string :=
"<function size='1' kind='binary'>
".

Definition kFdiXmlMomentaryFunction : string :=
"<function size='1' kind='momentary'>
".

Definition newline : string := "
".

(** The table [labels] up to its end. *)
Definition labels : list (Z * string) :=
  [(HEADLIGHT, "Headlight"); (ENGINE, "Engine"); (ANNOUNCE, "Announce");
   (SHUNTING_MODE, "Shunting Mode"); (MOMENTUM, "Momentum"); (SMOKE, "Smoke");
   (PANTOGRAPH, "Pantograph"); (FAR_LIGHT, "Far Light"); (BELL, "Bell"); (HORN, "Horn");
   (WHISTLE, "Whistle"); (LIGHT, "Light"); (UNCOUPLE, "Uncouple")].

(** The [type] is a byte. *)
Definition label_for_function (type : Z) : option string :=
  snd <$> List.find (fun r => (Z.land (fst r) (Z.lnot MOMENTARY) =? Z.land (u8 type) (Z.lnot MOMENTARY))%Z) labels.

(** What the generator needs of a [TrainDbEntry]. *)
Class FunctionList (E : Type) := {
  max_fn : E -> Z;
  function_label : E -> Z -> Z
}.

(** Entries of the database, for the contents of the file. *)
#[export] Instance TrainDb_FunctionList const_lokdb file : FunctionList TrainDbEntry := {
  max_fn := get_max_fn;
  function_label := get_function_label const_lokdb file
}.

Inductive State :=
| STATE_XMLHEAD
| STATE_START_FN
| STATE_FN_NAME
| STATE_FN_NUMBER
| STATE_FN_END
| STATE_NO_MORE_FN
| STATE_EOF.

Section Fdi.
Context (integer_to_buffer : Z -> string).
Context {T : Type} `{TO : TypedQueueOk T GeneratorAction}.
Context {E : Type} `{FL : !FunctionList E}.

Record Fdi := mkFdi {
  state_ : State;
  entry_ : E;
  nextFunction_ : Z
}.

Abbreviation Generator := (@XmlGenerator T Fdi).

Definition in_state (st : State) (g : Fdi) : Fdi := mkFdi st (entry_ g) (nextFunction_ g).
Definition set_nextFunction (n : Z) (g : Fdi) : Fdi := mkFdi (state_ g) (entry_ g) n.

(** The loop of [STATE_START_FN] over functions that do not exist. *)
Fixpoint skip_functions (fuel : nat) (e : E) (n : Z) : Z :=
  match fuel with
  | O => n
  | S fuel =>
      if ((n <=? max_fn e) && ((function_label e n =? FN_NONEXISTANT) || (function_label e n =? FN_UNINITIALIZED)))%Z
      then skip_functions fuel e (n + 1)%Z else n
  end.

Definition skip_fuel (e : E) (n : Z) : nat := Z.to_nat (max_fn e + 1 - n)%Z.

Definition kind_of (label : Z) : string :=
  if has_bits label 0x80 then kFdiXmlMomentaryFunction else kFdiXmlBinaryFunction.

Definition name_actions (e : E) (n : Z) : list GeneratorAction :=
  match label_for_function (function_label e n) with
  | None => [CONST_LITERAL "F"; RENDER_INT n]
  | Some label => [CONST_LITERAL label]
  end.

(** One pass of the loop of [generate_more]: what is added, the new members,
    and whether it returns. *)
Definition switch_state (g : Fdi) : list GeneratorAction * Fdi * bool :=
  let e := entry_ g in
  let n := nextFunction_ g in
  match state_ g with
  | STATE_XMLHEAD => ([CONST_LITERAL kFdiXmlHead], in_state STATE_START_FN (set_nextFunction 0 g), true)
  | STATE_START_FN =>
      let n := skip_functions (skip_fuel e n) e n in
      let g := set_nextFunction n g in
      if (max_fn e <? n)%Z then ([], in_state STATE_NO_MORE_FN g, false)
      else ([CONST_LITERAL (kind_of (function_label e n))], in_state STATE_FN_NAME g, true)
  | STATE_FN_NAME =>
      (([CONST_LITERAL "<name>"] ++ name_actions e n ++ [CONST_LITERAL ("</name>" ++ newline)%string])%list,
       in_state STATE_FN_NUMBER g, true)
  | STATE_FN_NUMBER =>
      ([CONST_LITERAL "<number>"; RENDER_INT n;
        CONST_LITERAL ("</number>" ++ newline ++ "</function>" ++ newline)],
       in_state STATE_FN_END g, true)
  | STATE_FN_END => ([], in_state STATE_START_FN (set_nextFunction (n + 1)%Z g), false)
  | STATE_NO_MORE_FN => ([CONST_LITERAL kFdiXmlTail], in_state STATE_EOF g, true)
  | STATE_EOF => ([], g, true)
  end.

Fixpoint generate_loop (fuel : nat) : fprog Generator unit := fun x =>
  match fuel with
  | O => None
  | S fuel =>
      let '(acts, g, returns) := switch_state (derived x) in
      let x := foldl (fun x a => add_to_output a x) (set_derived g x) acts in
      if (returns : bool) then Some (Done tt x) else generate_loop fuel x
  end.

(** No state goes on to another one more than twice. *)
Definition generate_fuel : nat := 3.

Definition generate_more : fprog Generator unit := generate_loop generate_fuel.

Definition reset (fuel : nat) (lok : E) : fprog Generator unit :=
  fmodify (fun x => set_derived (in_state STATE_XMLHEAD (derived x)) x);;
  fmodify (fun x => set_derived (mkFdi (state_ (derived x)) lok (nextFunction_ (derived x))) x);;
  internal_reset fuel.

(** ** The document *)

(** A function that throttles are shown. *)
Definition listed (e : E) (n : Z) : Prop :=
  function_label e n <> FN_NONEXISTANT /\ function_label e n <> FN_UNINITIALIZED.

#[local] Instance listed_dec e n : Decision (listed e n).
Proof. unfold listed. apply _. Defined.

Definition fdi_name (e : E) (n : Z) : string :=
  default ("F" ++ integer_to_buffer n) (label_for_function (function_label e n)).

Definition fdi_function (e : E) (n : Z) : string :=
  kind_of (function_label e n) ++ "<name>" ++ fdi_name e n ++ "</name>" ++ newline ++
  "<number>" ++ integer_to_buffer n ++ "</number>" ++ newline ++ "</function>" ++ newline.

Definition fdi_document (e : E) : string :=
  kFdiXmlHead ++
  String.concat "" (fdi_function e <$> filter (listed e) (seqZ 0 (max_fn e + 1)%Z)) ++
  kFdiXmlTail.

(** ** The actions of the generator *)

Fixpoint emit_loop (fuel : nat) (g : Fdi) : list GeneratorAction * Fdi :=
  match fuel with
  | O => ([], g)
  | S fuel =>
      let '(acts, g, returns) := switch_state g in
      if (returns : bool) then (acts, g)
      else let '(acts', g) := emit_loop fuel g in ((acts ++ acts')%list, g)
  end.

Definition emits (g : Fdi) : list GeneratorAction * Fdi := emit_loop generate_fuel g.

Definition fdi_function_actions (e : E) (n : Z) : list GeneratorAction :=
  CONST_LITERAL (kind_of (function_label e n)) ::
  ((CONST_LITERAL "<name>" :: name_actions e n ++ [CONST_LITERAL ("</name>" ++ newline)%string]) ++
   [CONST_LITERAL "<number>"; RENDER_INT n;
    CONST_LITERAL ("</number>" ++ newline ++ "</function>" ++ newline)%string])%list.

Definition fdi_rest (e : E) (n : Z) : list GeneratorAction :=
  (concat (fdi_function_actions e <$> filter (listed e) (seqZ n (max_fn e + 1 - n)%Z)) ++
   [CONST_LITERAL kFdiXmlTail])%list.

Definition fdi_actions (e : E) : list GeneratorAction := CONST_LITERAL kFdiXmlHead :: fdi_rest e 0.

#[local] Close Scope string_scope.

#[local] Instance fdi_GeneratesMore : GeneratesMore generate_more emits.
Proof.
  split. intros x. unfold generate_more, emits, generate_fuel. destruct x as [t o b s [st e n]].
  destruct st; cbn; try done; destruct (max_fn e <? _); done.
Qed.

(** *** The functions in turn *)

Lemma listed_spec e n :
  (function_label e n =? FN_NONEXISTANT) || (function_label e n =? FN_UNINITIALIZED) =
  negb (bool_decide (listed e n)).
Proof.
  unfold listed. destruct (Z.eqb_spec (function_label e n) FN_NONEXISTANT) as [E1|E1],
    (Z.eqb_spec (function_label e n) FN_UNINITIALIZED) as [E2|E2]; cbn; symmetry;
    first [apply negb_true_iff, bool_decide_eq_false|apply negb_false_iff, bool_decide_eq_true]; tauto.
Qed.

Lemma seqZ_cons' n k : 0 < k -> seqZ n k = n :: seqZ (n + 1) (k - 1).
Proof. intros H. rewrite seqZ_cons by done. by rewrite <- Z.add_1_r, Z.sub_1_r. Qed.

Lemma seqZ_nil n k : k <= 0 -> seqZ n k = [].
Proof. unfold seqZ. intros H. by replace (Z.to_nat k) with O by lia. Qed.

(** Where the search for the next function stops. *)
Lemma skip_functions_spec fuel e n :
  fuel = skip_fuel e n ->
  let m := skip_functions fuel e n in
  match filter (listed e) (seqZ n (max_fn e + 1 - n)) with
  | [] => max_fn e < m
  | k :: l => m = k /\ k <= max_fn e /\ l = filter (listed e) (seqZ (k + 1) (max_fn e + 1 - (k + 1)))
  end.
Proof.
  cbv zeta. revert n. induction fuel as [|fuel IH]; intros n Hf; unfold skip_fuel in Hf; cbn [skip_functions].
  { rewrite seqZ_nil by lia. cbn. lia. }
  rewrite seqZ_cons' by lia. rewrite listed_spec. destruct (Z.leb_spec n (max_fn e)) as [Hn|]; [|lia].
  rewrite filter_cons. cbn [andb]. destruct (decide (listed e n)) as [Hl|Hl].
  - rewrite bool_decide_true by done. cbn [negb]. split; [done|]. split; [done|]. do 2 f_equal. lia.
  - rewrite bool_decide_false by done. cbn [negb].
    replace (max_fn e + 1 - n - 1) with (max_fn e + 1 - (n + 1)) by lia. apply IH. unfold skip_fuel. lia.
Qed.

Lemma emits_start e n :
  let m := skip_functions (skip_fuel e n) e n in
  emits (mkFdi STATE_START_FN e n) =
  if max_fn e <? m then ([CONST_LITERAL kFdiXmlTail], mkFdi STATE_EOF e m)
  else ([CONST_LITERAL (kind_of (function_label e m))], mkFdi STATE_FN_NAME e m).
Proof. cbv zeta. unfold emits, generate_fuel. cbn. by destruct (max_fn e <? _). Qed.

Lemma emits_end e n : emits (mkFdi STATE_FN_END e n) = emits (mkFdi STATE_START_FN e (n + 1)).
Proof. rewrite emits_start. unfold emits, generate_fuel. cbn. by destruct (max_fn e <? _). Qed.

Lemma script_end_start e n l :
  script emits (mkFdi STATE_START_FN e (n + 1)) l -> script emits (mkFdi STATE_FN_END e n) l.
Proof.
  intros H. inversion H as [g Hg|g a acts g' l' Hg Hs]; subst.
  - rewrite emits_start in Hg. by destruct (max_fn e <? _).
  - rewrite <- emits_end in Hg. by eapply script_more.
Qed.

Lemma script_rest e l n :
  l = filter (listed e) (seqZ n (max_fn e + 1 - n)) ->
  script emits (mkFdi STATE_START_FN e n) (fdi_rest e n).
Proof.
  unfold fdi_rest. revert n. induction l as [|k l IH]; intros n El;
    pose proof (skip_functions_spec _ e n eq_refl) as Hm; pose proof (emits_start e n) as Hg; cbv zeta in Hm, Hg;
    rewrite <- El in Hm |- *; set (m := skip_functions _ e n) in *.
  - apply Z.ltb_lt in Hm. rewrite Hm in Hg. apply (script_more _ _ _ _ _ [] Hg), script_end. done.
  - destruct Hm as (-> & Hk & ->). apply Z.ltb_ge in Hk. rewrite Hk in Hg.
    cbn [fmap list_fmap concat]. unfold fdi_function_actions at 1. rewrite <- app_assoc.
    apply (script_more _ _ _ _ _ (_ ++ _) Hg). rewrite <- !app_assoc.
    apply (script_more _ _ _ _ (mkFdi STATE_FN_NUMBER e k)); [done|].
    apply (script_more _ _ _ [_; _] (mkFdi STATE_FN_END e k)); [done|].
    apply script_end_start, IH. done.
Qed.

Lemma script_fdi e n : script emits (mkFdi STATE_XMLHEAD e n) (fdi_actions e).
Proof.
  apply (script_more _ _ _ [] (mkFdi STATE_START_FN e 0)); [done|]. by eapply (script_rest e _ 0).
Qed.

(** *** The text of the document *)

Lemma list_ascii_app s1 s2 :
  list_ascii_of_string (s1 ++ s2)%string = list_ascii_of_string s1 ++ list_ascii_of_string s2.
Proof. induction s1 as [|c s1 IH]; [done|]. simpl. by rewrite IH. Qed.

Lemma list_ascii_concat l :
  list_ascii_of_string (String.concat "" l) = concat (list_ascii_of_string <$> l).
Proof.
  induction l as [|s l IH]; [done|]. cbn [fmap list_fmap concat]. rewrite <- IH.
  destruct l as [|s' l]; [by rewrite app_nil_r|]. change (String.concat "" (s :: s' :: l)) with
    (s ++ "" ++ String.concat "" (s' :: l))%string. by rewrite !list_ascii_app.
Qed.

Abbreviation text_of := (actions_text integer_to_buffer).

Lemma fdi_function_text e n :
  text_of (fdi_function_actions e n) = list_ascii_of_string (fdi_function e n).
Proof.
  unfold fdi_function_actions, fdi_function, name_actions, fdi_name, actions_text, action_text.
  destruct (label_for_function _) as [s|]; cbn [fmap list_fmap concat app default from_option];
    rewrite !list_ascii_app; cbn [list_ascii_of_string app]; by rewrite ?app_nil_r, <- ?app_assoc.
Qed.

Lemma concat_function_text e l :
  text_of (concat (fdi_function_actions e <$> l)) = concat (list_ascii_of_string <$> (fdi_function e <$> l)).
Proof.
  induction l as [|n l IH]; [done|]. cbn [fmap list_fmap concat].
  by rewrite actions_text_app, IH, fdi_function_text.
Qed.

Lemma fdi_text e : text_of (fdi_actions e) = list_ascii_of_string (fdi_document e).
Proof.
  unfold fdi_actions, fdi_rest, fdi_document. rewrite actions_text_cons, actions_text_app, concat_function_text.
  rewrite !list_ascii_app, list_ascii_concat. do 2 f_equal.
  by rewrite Z.sub_0_r.
Qed.

(** Enough for 256 functions. *)
Definition fdi_fuel : nat := 2100.

Lemma fdi_function_length e n : (length (fdi_function_actions e n) <= 8)%nat.
Proof.
  unfold fdi_function_actions, name_actions. destruct (label_for_function _); cbn; lia.
Qed.

Lemma concat_length e l :
  (length (concat (fdi_function_actions e <$> l)) <= 8 * length l)%nat.
Proof.
  induction l as [|n l IH]; [done|]. cbn [fmap list_fmap concat length]. rewrite length_app.
  pose proof (fdi_function_length e n). lia.
Qed.

Lemma fdi_actions_length e : -1 <= max_fn e < 2 ^ 8 -> (length (fdi_actions e) + 2 <= fdi_fuel)%nat.
Proof.
  intros Hm. unfold fdi_actions, fdi_rest. cbn [length]. rewrite length_app. cbn [length].
  pose proof (concat_length e (filter (listed e) (seqZ 0 (max_fn e + 1 - 0)))) as Hc.
  pose proof (length_filter (listed e) (seqZ 0 (max_fn e + 1 - 0))) as Hf.
  rewrite length_seqZ in Hf. unfold fdi_fuel. lia.
Qed.

Lemma reset_spec fuel lok (x : Generator) :
  (length (tq_list (pendingActions_ x)) < fuel)%nat ->
  exists x1, reset fuel lok x = Some (Done tt x1) /\ fileOffset_ x1 = 0 /\
    represents integer_to_buffer emits x1 (fdi_actions lok).
Proof.
  intros Hp. unfold reset, internal_reset, mbind, fprog_bind, fmodify. cbn.
  destruct (delete_actions_spec fuel (pendingActions_ x) Hp) as (t & -> & Ht).
  eexists. split; [done|]. split; [done|]. split; [intros z; cbn; by rewrite tq_front_list, Ht|].
  exists (fdi_actions lok). cbn. rewrite Ht. split; [done|]. apply script_fdi.
Qed.

(** C31: A throttle that reads the description of a train piece by piece, with
    pieces of any size, gets the XML document of the train: the head, an element
    for every function up to the highest one that exists, in order, with its
    kind, its label or number, and the tail; and every read ends. *)
Theorem fdi_read_in_pieces fuel lok (x : Generator) lens :
  -1 <= max_fn lok < 2 ^ 8 ->
  (fdi_fuel <= fuel)%nat -> (length (tq_list (pendingActions_ x)) < fuel)%nat ->
  Forall (fun n => 0 <= n) lens ->
  exists x1 x', reset fuel lok x = Some (Done tt x1) /\
    read_pieces integer_to_buffer generate_more fuel 0 lens x1 =
    Some (Done (take (Z.to_nat (foldr Z.add 0 lens)) (list_ascii_of_string (fdi_document lok))) x').
Proof.
  intros Hm Hf Hp Hl. destruct (reset_spec fuel lok x Hp) as (x1 & Ex & Eo & R). exists x1.
  pose proof (fdi_actions_length lok Hm) as Hlen.
  destruct (read_pieces_spec integer_to_buffer generate_more emits fuel (fdi_actions lok) x1 0 lens)
    as (x' & Er); [done|lia|lia|done|].
  exists x'. split; [done|]. rewrite Er, Eo, fdi_text. done.
Qed.

End Fdi.
