(* ===== verification/FindProtocolServer.v ===== *)
(** The server of the train search
    (src/cs/commandstation/FindProtocolServer.hxx over AllTrainNodesInterface.hxx).

    Event handlers put requests into the queue of a state flow, which goes
    through all trains and answers for those that match.  The states of the flow
    are steps; requests may come in between any two of them.  Waiting (for a
    buffer, for the loopback of a message, for an entry of the database, for a
    node that starts up) is a step that may have to be repeated: [ready] says
    whether the wait is over. *)

From S2P Require Import Prelude Queues FindProtocol.

(** [AllTrainNodesInterface] with the parts of the traction service that the
    server uses.  [train_entry] is what [get_traindb_entry] answers when the
    information is available. *)
Class AllTrainNodes (N : Type) := {
  nodes_size : N -> Z;
  train_entry : N -> Z -> option TrainDbEntry;
  get_train_node_id : N -> Z -> Z;
  allocate_node : Z -> Z -> N -> Z * N;
  is_known_train_node : N -> Z -> bool;
  is_local_node : N -> Z -> bool
}.

(** Trains keep their index and node when others come. *)
Record nodes_grow {N : Type} `{!AllTrainNodes N} (n n' : N) : Prop := {
  grow_size : nodes_size n <= nodes_size n';
  grow_ids i : 0 <= i < nodes_size n -> get_train_node_id n' i = get_train_node_id n i;
  grow_local id : is_local_node n id = true -> is_local_node n' id = true
}.

(** What [allocate_node] does; an allocated node is a node of this interface. *)
Class AllTrainNodesOk (N : Type) `{!AllTrainNodes N} := {
  nodes_size_range n : 0 <= nodes_size n < 2 ^ 32;
  allocate_grows mode address n : nodes_grow n (snd (allocate_node mode address n));
  allocate_local mode address n :
    let '(id, n') := allocate_node mode address n in id <> 0 -> is_local_node n' id = true
}.

Definition REQUEST_GLOBAL_IDENTIFY : Z := 0x0001000000000000.
Definition USER_ARG_FIND : Z := 1.
Definition USER_ARG_ISTRAIN : Z := 2.

(** [Request]; the source is the number of a node handle. *)
Record Request := mkRequest {
  event_ : Z;
  src_ : Z
}.

Inductive Mti := PRODUCER_IDENTIFIED_VALID | PRODUCER_IDENTIFIED_UNKNOWN | PRODUCER_IDENTIFIED_RANGE.

(** A message to all nodes, from a node and with an event. *)
Record GenMessage := mkMessage {
  mti : Mti;
  from_node : Z;
  payload : Z
}.

(** The states of [FindProtocolFlow]. *)
Inductive FlowState :=
| WAITING
| ENTRY
| ITERATE
| TRY_TRAINDB_LOOKUP
| SEND_RESPONSE
| NEXT_ITERATE
| ITERATION_DONE
| WAIT_FOR_NEW_NODE
| NEW_NODE_REPLY
| SEND_NEW_NODE_RESPONSE.

#[export] Instance FlowState_eq_dec : EqDecision FlowState.
Proof. solve_decision. Defined.

Section Server.
Context (IS_TRAIN_EVENT : Z) (df : Defaults).
(** [If::matching_node] *)
Context (matching_node : Z -> Z -> bool).
Context {N : Type} `{AN : AllTrainNodesOk N}.
Context {Q : Type} `{QO : QListOk Q Request}.

(** The members of [FindProtocolFlow].  [nextTrainId_] and [newNodeId_] share
    their place; either is written before it is read. *)
Record FindProtocolFlow := mkFlow {
  state : FlowState;
  message : option Request;
  queue : Q;
  eventId_ : Z;
  nextTrainId_ : Z;
  newNodeId_ : Z;
  hasMatches_ : bool;
  isGlobal_ : bool;
  cancelIteration_ : bool
}.

(** [FindProtocolServer], with what was sent to all nodes by the flow and by
    the handler of addressed requests. *)
Record FindProtocolServer := mkServer {
  nodes_ : N;
  pendingGlobalIdentify_ : bool;
  pendingIsTrain_ : bool;
  flow_ : FindProtocolFlow;
  sent : list GenMessage;
  addressed : list GenMessage
}.

Abbreviation Flow := FindProtocolFlow.
Abbreviation Server := FindProtocolServer.

Definition set_state (st : FlowState) (f : Flow) : Flow :=
  mkFlow st (message f) (queue f) (eventId_ f) (nextTrainId_ f) (newNodeId_ f) (hasMatches_ f)
    (isGlobal_ f) (cancelIteration_ f).
Definition set_message (m : option Request) (f : Flow) : Flow :=
  mkFlow (state f) m (queue f) (eventId_ f) (nextTrainId_ f) (newNodeId_ f) (hasMatches_ f)
    (isGlobal_ f) (cancelIteration_ f).
Definition set_queue (q : Q) (f : Flow) : Flow :=
  mkFlow (state f) (message f) q (eventId_ f) (nextTrainId_ f) (newNodeId_ f) (hasMatches_ f)
    (isGlobal_ f) (cancelIteration_ f).
Definition set_eventId (e : Z) (f : Flow) : Flow :=
  mkFlow (state f) (message f) (queue f) e (nextTrainId_ f) (newNodeId_ f) (hasMatches_ f)
    (isGlobal_ f) (cancelIteration_ f).
Definition set_nextTrainId (i : Z) (f : Flow) : Flow :=
  mkFlow (state f) (message f) (queue f) (eventId_ f) i (newNodeId_ f) (hasMatches_ f)
    (isGlobal_ f) (cancelIteration_ f).
Definition set_newNodeId (n : Z) (f : Flow) : Flow :=
  mkFlow (state f) (message f) (queue f) (eventId_ f) (nextTrainId_ f) n (hasMatches_ f)
    (isGlobal_ f) (cancelIteration_ f).
Definition set_hasMatches (b : bool) (f : Flow) : Flow :=
  mkFlow (state f) (message f) (queue f) (eventId_ f) (nextTrainId_ f) (newNodeId_ f) b
    (isGlobal_ f) (cancelIteration_ f).
Definition set_isGlobal (b : bool) (f : Flow) : Flow :=
  mkFlow (state f) (message f) (queue f) (eventId_ f) (nextTrainId_ f) (newNodeId_ f) (hasMatches_ f)
    b (cancelIteration_ f).
Definition set_cancel (b : bool) (f : Flow) : Flow :=
  mkFlow (state f) (message f) (queue f) (eventId_ f) (nextTrainId_ f) (newNodeId_ f) (hasMatches_ f)
    (isGlobal_ f) b.

Definition set_nodes (n : N) (s : Server) : Server :=
  mkServer n (pendingGlobalIdentify_ s) (pendingIsTrain_ s) (flow_ s) (sent s) (addressed s).
Definition set_pendingGlobalIdentify (b : bool) (s : Server) : Server :=
  mkServer (nodes_ s) b (pendingIsTrain_ s) (flow_ s) (sent s) (addressed s).
Definition set_pendingIsTrain (b : bool) (s : Server) : Server :=
  mkServer (nodes_ s) (pendingGlobalIdentify_ s) b (flow_ s) (sent s) (addressed s).
Definition with_flow (g : Flow -> Flow) (s : Server) : Server :=
  mkServer (nodes_ s) (pendingGlobalIdentify_ s) (pendingIsTrain_ s) (g (flow_ s)) (sent s) (addressed s).
Definition send_message (m : GenMessage) (s : Server) : Server :=
  mkServer (nodes_ s) (pendingGlobalIdentify_ s) (pendingIsTrain_ s) (flow_ s) (sent s ++ [m]) (addressed s).
Definition send_addressed (m : GenMessage) (s : Server) : Server :=
  mkServer (nodes_ s) (pendingGlobalIdentify_ s) (pendingIsTrain_ s) (flow_ s) (sent s) (addressed s ++ [m]).

Definition new_FindProtocolServer (n : N) : Server :=
  mkServer n false false (mkFlow WAITING None q_empty 0 0 0 false false false) [] [].

(** ** Requests *)

Definition is_followup_request (current next : Request) : bool :=
  if negb (matching_node (src_ current) (src_ next)) then false
  else if has_bits (event_ current) ALLOCATE then false
  else if event_ current =? event_ next then true
  else if negb (is_find_event (event_ current)) then false
  else if negb (is_find_event (event_ next)) then false
  else
    let q_current := get_query_part (event_ current) in
    let q_next := get_query_part (event_ next) in
    if Z.shiftr q_next 4 =? Z.land q_current QUERY_SHIFTED_MASK then true
    else if Z.shiftr q_current 4 =? Z.land q_next QUERY_SHIFTED_MASK then true
    else false.

(** [FindProtocolFlow::send] *)
Definition send (msg : Request) (f : Flow) : Flow :=
  let f :=
    match message f with
    | Some m => if is_followup_request m msg then set_cancel true f else f
    | None => f
    end in
  set_queue (q_insert msg (queue f)) f.

Definition handle_identify_global (user_arg : Z) (dst_node : option Z) (src_node : Z) (s : Server) : Server :=
  match dst_node with
  | Some dst =>
      if negb (is_known_train_node (nodes_ s) dst) then s
      else if user_arg =? USER_ARG_FIND then
        send_addressed (mkMessage PRODUCER_IDENTIFIED_RANGE dst TRAIN_FIND_BASE) s
      else if user_arg =? USER_ARG_ISTRAIN then
        send_addressed (mkMessage PRODUCER_IDENTIFIED_UNKNOWN dst IS_TRAIN_EVENT) s
      else s
  | None =>
      if pendingGlobalIdentify_ s || (user_arg =? USER_ARG_ISTRAIN) then s
      else
        with_flow (send (mkRequest REQUEST_GLOBAL_IDENTIFY src_node)) (set_pendingGlobalIdentify true s)
  end.

Definition handle_identify_producer (event src_node : Z) (s : Server) : Server :=
  let s := if event =? IS_TRAIN_EVENT then set_pendingIsTrain true s else s in
  with_flow (send (mkRequest event src_node)) s.

(** ** The flow *)

Definition goto (st : FlowState) (s : Server) : Server := with_flow (set_state st) s.

Definition release_and_exit (s : Server) : Server :=
  with_flow (fun f => set_state WAITING (set_message None f)) s.

(** The next message of the queue, if any. *)
Definition take_message (s : Server) : Server :=
  match q_next (queue (flow_ s)) with
  | None => s
  | Some (m, q) => with_flow (fun f => set_state ENTRY (set_message (Some m) (set_queue q f))) s
  end.

Definition start_iteration (s : Server) : Server :=
  goto ITERATE (with_flow (fun f => set_hasMatches false (set_nextTrainId 0 f)) s).

Definition entry (s : Server) : Server :=
  let event := from_option event_ 0 (message (flow_ s)) in
  let s := with_flow (fun f => set_cancel false (set_eventId event f)) s in
  if event =? REQUEST_GLOBAL_IDENTIFY then
    let s := with_flow (set_isGlobal true) s in
    if negb (pendingGlobalIdentify_ s) then release_and_exit s
    else start_iteration (set_pendingGlobalIdentify false s)
  else if event =? IS_TRAIN_EVENT then
    let s := with_flow (set_isGlobal true) s in
    if negb (pendingIsTrain_ s) then release_and_exit s
    else start_iteration (set_pendingIsTrain false s)
  else start_iteration (with_flow (set_isGlobal false) s).

Definition iterate (s : Server) : Server :=
  let f := flow_ s in
  if nodes_size (nodes_ s) <=? nextTrainId_ f then goto ITERATION_DONE s
  else if cancelIteration_ f then goto ITERATION_DONE s
  else if isGlobal_ f then
    if (eventId_ f =? REQUEST_GLOBAL_IDENTIFY) && pendingGlobalIdentify_ s then
      with_flow (set_nextTrainId 0) (set_pendingGlobalIdentify false s)
    else if (eventId_ f =? IS_TRAIN_EVENT) && pendingIsTrain_ s then
      with_flow (set_nextTrainId 0) (set_pendingIsTrain false s)
    else goto SEND_RESPONSE s
  else goto TRY_TRAINDB_LOOKUP s.

Definition try_traindb_lookup (ready : bool) (s : Server) : Server :=
  if negb ready then s
  else
    match train_entry (nodes_ s) (nextTrainId_ (flow_ s)) with
    | None => goto NEXT_ITERATE s
    | Some db_entry =>
        if match_query_to_node IS_TRAIN_EVENT df (eventId_ (flow_ s)) db_entry =? 0 then goto NEXT_ITERATE s
        else goto SEND_RESPONSE (with_flow (set_hasMatches true) s)
    end.

(** With the buffer that was allocated; the next state waits for the loopback. *)
Definition send_response (ready : bool) (s : Server) : Server :=
  if negb ready then s
  else
    let event := eventId_ (flow_ s) in
    let node_id := get_train_node_id (nodes_ s) (nextTrainId_ (flow_ s)) in
    if node_id =? 0 then goto NEXT_ITERATE s
    else
      let s :=
        if event =? REQUEST_GLOBAL_IDENTIFY then
          send_message (mkMessage PRODUCER_IDENTIFIED_RANGE node_id TRAIN_FIND_BASE)
            (send_message (mkMessage PRODUCER_IDENTIFIED_UNKNOWN node_id IS_TRAIN_EVENT) s)
        else if event =? IS_TRAIN_EVENT then
          send_message (mkMessage PRODUCER_IDENTIFIED_UNKNOWN node_id event) s
        else send_message (mkMessage PRODUCER_IDENTIFIED_VALID node_id event) s in
      goto NEXT_ITERATE s.

Definition next_iterate (ready : bool) (s : Server) : Server :=
  if negb ready then s
  else goto ITERATE (with_flow (fun f => set_nextTrainId (u32 (nextTrainId_ f + 1)) f) s).

Definition iteration_done (s : Server) : Server :=
  let f := flow_ s in
  if negb (hasMatches_ f) && negb (isGlobal_ f) && has_bits (eventId_ f) ALLOCATE then
    let '(address, mode) := query_to_address df (eventId_ f) in
    let '(id, n) := allocate_node mode address (nodes_ s) in
    let s := with_flow (set_newNodeId id) (set_nodes n s) in
    if id =? 0 then release_and_exit s else goto WAIT_FOR_NEW_NODE s
  else release_and_exit s.

(** [ready] says whether the node is initialized. *)
Definition wait_for_new_node (ready : bool) : prog Server unit := fun s =>
  if is_local_node (nodes_ s) (newNodeId_ (flow_ s)) then
    Done tt (if ready then goto NEW_NODE_REPLY s else s)
  else Crashed AssertFailed.

Definition new_node_reply (s : Server) : Server := goto SEND_NEW_NODE_RESPONSE s.

Definition send_new_node_response (ready : bool) (s : Server) : Server :=
  if negb ready then s
  else
    release_and_exit
      (send_message (mkMessage PRODUCER_IDENTIFIED_VALID (newNodeId_ (flow_ s)) (eventId_ (flow_ s))) s).

Definition run_flow (ready : bool) : prog Server unit := fun s =>
  match state (flow_ s) with
  | WAITING => Done tt (take_message s)
  | ENTRY => Done tt (entry s)
  | ITERATE => Done tt (iterate s)
  | TRY_TRAINDB_LOOKUP => Done tt (try_traindb_lookup ready s)
  | SEND_RESPONSE => Done tt (send_response ready s)
  | NEXT_ITERATE => Done tt (next_iterate ready s)
  | ITERATION_DONE => Done tt (iteration_done s)
  | WAIT_FOR_NEW_NODE => wait_for_new_node ready s
  | NEW_NODE_REPLY => Done tt (new_node_reply s)
  | SEND_NEW_NODE_RESPONSE => Done tt (send_new_node_response ready s)
  end.

(** ** Steps *)

(** What comes in from the bus: an identify message to all nodes or to one, or a
    query for one of the events for which the server is registered. *)
Inductive request : Server -> Server -> Prop :=
| request_global user_arg dst_node src_node s :
    request s (handle_identify_global user_arg dst_node src_node s)
| request_producer event src_node s :
    is_find_event event = true \/ event = IS_TRAIN_EVENT ->
    request s (handle_identify_producer event src_node s).

Inductive step : Server -> Server -> Prop :=
| step_flow ready s s' : run_flow ready s = Done tt s' -> step s s'
| step_request s s' : request s s' -> step s s'
| step_nodes n s : nodes_grow (nodes_ s) n -> step s (set_nodes n s).

Definition idle (s : Server) : Prop := state (flow_ s) = WAITING /\ q_list (queue (flow_ s)) = [].

(** ** Identify requests for all trains *)

(** The two requests that every train answers. *)
Inductive Kind := GLOBAL | IS_TRAIN.

Definition kind_event (k : Kind) : Z :=
  match k with GLOBAL => REQUEST_GLOBAL_IDENTIFY | IS_TRAIN => IS_TRAIN_EVENT end.

Definition pending (k : Kind) (s : Server) : bool :=
  match k with GLOBAL => pendingGlobalIdentify_ s | IS_TRAIN => pendingIsTrain_ s end.

(** What a train node says in answer. *)
Definition answers (k : Kind) (node_id : Z) : list GenMessage :=
  match k with
  | GLOBAL => [mkMessage PRODUCER_IDENTIFIED_UNKNOWN node_id IS_TRAIN_EVENT;
               mkMessage PRODUCER_IDENTIFIED_RANGE node_id TRAIN_FIND_BASE]
  | IS_TRAIN => [mkMessage PRODUCER_IDENTIFIED_UNKNOWN node_id IS_TRAIN_EVENT]
  end.

(** The event of the message that the flow works on, once it has begun. *)
Definition in_work (e : Z) (s : Server) : Prop :=
  (exists m, message (flow_ s) = Some m /\ event_ m = e) /\
  state (flow_ s) <> WAITING /\ state (flow_ s) <> ENTRY.

Definition waiting_requests (s : Server) : list Request :=
  (if decide (state (flow_ s) = ENTRY) then option_list (message (flow_ s)) else []) ++
  q_list (queue (flow_ s)).

Definition is_global_event (e : Z) : bool := (e =? REQUEST_GLOBAL_IDENTIFY) || (e =? IS_TRAIN_EVENT).

(** Which states belong to which kind of request, and where the iteration is. *)
Definition state_ok (s : Server) : Prop :=
  let f := flow_ s in
  let n := nextTrainId_ f in
  match state f with
  | WAITING => message f = None
  | ENTRY => exists m, message f = Some m
  | st =>
      in_work (eventId_ f) s /\ isGlobal_ f = is_global_event (eventId_ f) /\
      match st with
      | ITERATE => 0 <= n < 2 ^ 32
      | TRY_TRAINDB_LOOKUP => isGlobal_ f = false /\ 0 <= n < nodes_size (nodes_ s)
      | SEND_RESPONSE | NEXT_ITERATE => 0 <= n < nodes_size (nodes_ s)
      | ITERATION_DONE => True
      | _ => isGlobal_ f = false /\ is_local_node (nodes_ s) (newNodeId_ f) = true
      end
  end.

Record server_ok (s : Server) : Prop := {
  ok_state : state_ok s;
  ok_pending k : pending k s = true -> exists m, m ∈ waiting_requests s /\ event_ m = kind_event k;
  ok_cancel k : in_work (kind_event k) s -> cancelIteration_ (flow_ s) = true -> pending k s = true
}.

(** ** The invariant *)

Context (IS_TRAIN_not_global : IS_TRAIN_EVENT <> REQUEST_GLOBAL_IDENTIFY).
Context (IS_TRAIN_not_find : is_find_event IS_TRAIN_EVENT = false).

Lemma kind_not_find k : is_find_event (kind_event k) = false.
Proof. by destruct k. Qed.

Lemma kind_event_inj k k' : kind_event k = kind_event k' -> k = k'.
Proof. destruct k, k'; cbn; congruence. Qed.

Lemma is_global_event_spec e : is_global_event e = true <-> exists k, e = kind_event k.
Proof.
  unfold is_global_event. rewrite orb_true_iff, !Z.eqb_eq. split.
  - intros [->| ->]; [by exists GLOBAL|by exists IS_TRAIN].
  - intros [[|] ->]; auto.
Qed.

Lemma new_server_ok n : server_ok (new_FindProtocolServer n).
Proof. split; [done|by intros []|]. intros k ((m & ? & _) & _). done. Qed.

(** The waiting requests and the flags are what a step may leave alone. *)
Lemma server_ok_same s s' :
  server_ok s -> state_ok s' -> (forall k, pending k s' = true -> pending k s = true) ->
  (forall m, m ∈ waiting_requests s -> m ∈ waiting_requests s') ->
  (forall k, in_work (kind_event k) s' -> cancelIteration_ (flow_ s') = true -> pending k s' = true) ->
  server_ok s'.
Proof.
  intros [_ Hp _] Hs Hp' Hw Hc. split; [done| |done].
  intros k Hk. destruct (Hp k (Hp' k Hk)) as (m & Hm & He). eauto.
Qed.

(** A step of the flow inside the work on one message. *)
Lemma server_ok_inside s s' :
  server_ok s -> state_ok s' -> state (flow_ s) <> WAITING -> state (flow_ s) <> ENTRY ->
  state (flow_ s') <> ENTRY ->
  queue (flow_ s') = queue (flow_ s) -> message (flow_ s') = message (flow_ s) \/ message (flow_ s') = None ->
  cancelIteration_ (flow_ s') = cancelIteration_ (flow_ s) ->
  (forall k, pending k s' = pending k s \/ pending k s' = false /\ cancelIteration_ (flow_ s) = false) ->
  server_ok s'.
Proof.
  intros Ok Hs H1 H2 H3 Hq Hm Hc Hk. apply (server_ok_same s); try done.
  - intros k Hp. destruct (Hk k) as [E|[E _]]; congruence.
  - intros m. unfold waiting_requests. rewrite !decide_False by done. by rewrite Hq.
  - intros k ((m & Em & He) & _) Hcan. rewrite Hc in Hcan.
    destruct (Hk k) as [->|[_ E]]; [|congruence]. apply (ok_cancel s Ok k); [|done].
    destruct Hm as [Hm|Hm]; [|congruence]. rewrite Hm in Em. repeat split; eauto.
Qed.

Lemma take_message_ok s : state (flow_ s) = WAITING -> server_ok s -> server_ok (take_message s).
Proof.
  intros Hst Ok. pose proof (ok_state s Ok) as Hs. unfold state_ok in Hs. rewrite Hst in Hs.
  unfold take_message. destruct (q_next (queue (flow_ s))) as [[m q]|] eqn:Eq; [|done].
  apply (server_ok_same s); try done.
  - cbn. by exists m.
  - intros m'. unfold waiting_requests. rewrite Hst. cbn.
    rewrite (q_next_Some (A := Request) _ _ _ Eq), !decide_False, ?decide_True by done. done.
  - intros k (_ & _ & H). done.
Qed.

Lemma entry_ok s : state (flow_ s) = ENTRY -> server_ok s -> server_ok (entry s).
Proof.
  intros Hst Ok. pose proof (ok_state s Ok) as Hs. unfold state_ok in Hs. rewrite Hst in Hs.
  destruct Hs as [m Hm]. pose proof (ok_pending s Ok) as Hp. unfold waiting_requests in Hp.
  rewrite Hst, Hm, decide_True in Hp by done. cbn in Hp.
  assert (Hq : forall k, kind_event k <> event_ m -> pending k s = true ->
            exists m, m ∈ q_list (queue (flow_ s)) /\ event_ m = kind_event k).
  { intros k Hk (m' & [->|Hin]%elem_of_cons & He)%Hp; [congruence|eauto]. }
  unfold entry. rewrite Hm. cbn [from_option].
  destruct (Z.eqb_spec (event_ m) REQUEST_GLOBAL_IDENTIFY) as [E|E];
    [|destruct (Z.eqb_spec (event_ m) IS_TRAIN_EVENT) as [E'|E']].
  - cbn. destruct (pendingGlobalIdentify_ s) eqn:Ep; cbn.
    + split; [|intros [|] H; [done|]|]; cbn.
      * unfold in_work. cbn. rewrite E. split; [|split; [done|lia]]. eauto.
      * apply (Hq IS_TRAIN); [by rewrite E|done].
      * intros k _ ?. done.
    + split; [done| |intros k ((? & ? & _) & _); done]. intros [|] H; cbn in H |- *; [congruence|].
      apply (Hq IS_TRAIN); [by rewrite E|done].
  - cbn. destruct (pendingIsTrain_ s) eqn:Ep; cbn.
    + split; [|intros [|] H; [|done]|]; cbn.
      * unfold in_work, is_global_event. cbn. rewrite E', Z.eqb_refl, orb_true_r.
        split; [|split; [done|lia]]. eauto.
      * apply (Hq GLOBAL); [cbn; congruence|done].
      * intros k _ ?. done.
    + split; [done| |intros k ((? & ? & _) & _); done]. intros [|] H; cbn in H |- *; [|congruence].
      apply (Hq GLOBAL); [cbn; congruence|done].
  - split; [| |by intros k _ ?].
    + unfold state_ok, in_work, is_global_event. cbn. apply Z.eqb_neq in E, E'. rewrite E, E'.
      split; [|split; [done|lia]]. eauto.
    + intros k H. apply (Hq k); [destruct k; cbn; congruence|]. by destruct k.
Qed.

Lemma in_work_after e s s' :
  in_work e s -> message (flow_ s') = message (flow_ s) -> state (flow_ s') <> WAITING ->
  state (flow_ s') <> ENTRY -> in_work e s'.
Proof. intros (H & _) E H1 H2. unfold in_work. by rewrite E. Qed.

(** A step inside the work that leaves the flags alone. *)
Ltac inside s Hst :=
  apply (server_ok_inside s); cbn; rewrite ?Hst; try done; [|by left|by intros []; left].

Lemma iterate_ok s : state (flow_ s) = ITERATE -> server_ok s -> server_ok (iterate s).
Proof.
  intros Hst Ok. pose proof (ok_state s Ok) as Hs. unfold state_ok in Hs. rewrite Hst in Hs.
  destruct Hs as (Hw & Hg & Hn). unfold iterate.
  destruct (Z.leb_spec (nodes_size (nodes_ s)) (nextTrainId_ (flow_ s))) as [Hle|Hlt].
  { inside s Hst.
    split; [by apply (in_work_after _ s)|done]. }
  destruct (cancelIteration_ (flow_ s)) eqn:Ec.
  { inside s Hst.
    split; [by apply (in_work_after _ s)|done]. }
  destruct (isGlobal_ (flow_ s)) eqn:Eg.
  2: { inside s Hst.
       split; [by apply (in_work_after _ s)|]. cbn. rewrite <- Hg, Eg. split; [done|]. split; [done|lia]. }
  destruct (_ && pendingGlobalIdentify_ s) eqn:E1; [|destruct (_ && pendingIsTrain_ s) eqn:E2].
  - eapply (server_ok_inside s); cbn; rewrite ?Hst; try done; [|by left|].
    + unfold state_ok. cbn. rewrite Hst. split; [by apply (in_work_after _ s); cbn; rewrite ?Hst|].
      split; [by rewrite Eg|lia].
    + intros []; [right|left]; done.
  - eapply (server_ok_inside s); cbn; rewrite ?Hst; try done; [|by left|].
    + unfold state_ok. cbn. rewrite Hst. split; [by apply (in_work_after _ s); cbn; rewrite ?Hst|].
      split; [by rewrite Eg|lia].
    + intros []; [left|right]; done.
  - inside s Hst.
    split; [by apply (in_work_after _ s)|]. cbn. rewrite Eg. split; [done|]. lia.
Qed.

Lemma try_traindb_lookup_ok ready s :
  state (flow_ s) = TRY_TRAINDB_LOOKUP -> server_ok s -> server_ok (try_traindb_lookup ready s).
Proof.
  intros Hst Ok. pose proof (ok_state s Ok) as Hs. unfold state_ok in Hs. rewrite Hst in Hs.
  destruct Hs as (Hw & Hg & Hl & Hn). unfold try_traindb_lookup. destruct ready; [|done]. cbn [negb].
  destruct (train_entry _ _) as [e|]; [destruct (_ =? 0)|]; inside s Hst;
    (split; [by apply (in_work_after _ s)|done]).
Qed.

Lemma send_response_ok ready s :
  state (flow_ s) = SEND_RESPONSE -> server_ok s -> server_ok (send_response ready s).
Proof.
  intros Hst Ok. pose proof (ok_state s Ok) as Hs. unfold state_ok in Hs. rewrite Hst in Hs.
  destruct Hs as (Hw & Hg & Hn). unfold send_response. destruct ready; [|done]. cbn [negb].
  destruct (_ =? 0); [|destruct (_ =? REQUEST_GLOBAL_IDENTIFY); [|destruct (_ =? IS_TRAIN_EVENT)]];
    inside s Hst; (split; [by apply (in_work_after _ s)|done]).
Qed.

Lemma next_iterate_ok ready s :
  state (flow_ s) = NEXT_ITERATE -> server_ok s -> server_ok (next_iterate ready s).
Proof.
  intros Hst Ok. pose proof (ok_state s Ok) as Hs. unfold state_ok in Hs. rewrite Hst in Hs.
  destruct Hs as (Hw & Hg & Hn). unfold next_iterate. destruct ready; [|done]. cbn [negb].
  inside s Hst. split; [by apply (in_work_after _ s)|]. split; [done|]. cbn. apply u32_range.
Qed.

Lemma release_ok s :
  state (flow_ s) <> WAITING -> state (flow_ s) <> ENTRY -> server_ok s -> server_ok (release_and_exit s).
Proof. intros H1 H2 Ok. apply (server_ok_inside s); try done; [by right|by intros []; left]. Qed.

Lemma iteration_done_ok s :
  state (flow_ s) = ITERATION_DONE -> server_ok s -> server_ok (iteration_done s).
Proof.
  intros Hst Ok. pose proof (ok_state s Ok) as Hs. unfold state_ok in Hs. rewrite Hst in Hs.
  destruct Hs as (Hw & Hg & _). unfold iteration_done.
  destruct (_ && has_bits _ _) eqn:E; [|apply release_ok; congruence].
  destruct (query_to_address _ _) as [a m]. pose proof (allocate_local m a (nodes_ s)) as Hl.
  destruct (allocate_node m a (nodes_ s)) as [id n]. destruct (Z.eqb_spec id 0) as [|Hid].
  - apply (server_ok_inside s); cbn; rewrite ?Hst; try done; [by right|by intros []; left].
  - apply andb_true_iff in E as [E _]. apply andb_true_iff in E as [_ E]. apply negb_true_iff in E.
    inside s Hst. split; [by apply (in_work_after _ s)|]. split; [done|]. cbn. auto.
Qed.

(** The flow never dies, and keeps the invariant. *)
Lemma run_flow_ok ready s :
  server_ok s -> exists s', run_flow ready s = Done tt s' /\ server_ok s'.
Proof.
  intros Ok. pose proof (ok_state s Ok) as Hs. unfold run_flow, state_ok in *.
  destruct (state (flow_ s)) eqn:Hst; try (eexists; split; [done|]).
  - by apply take_message_ok.
  - by apply entry_ok.
  - by apply iterate_ok.
  - by apply try_traindb_lookup_ok.
  - by apply send_response_ok.
  - by apply next_iterate_ok.
  - by apply iteration_done_ok.
  - destruct Hs as (Hw & Hg & Hl & Hn). unfold wait_for_new_node. rewrite Hn. eexists. split; [done|].
    destruct ready; [|done]. inside s Hst. split; [by apply (in_work_after _ s)|done].
  - destruct Hs as (Hw & Hg & Hl & Hn). inside s Hst. split; [by apply (in_work_after _ s)|done].
  - unfold send_new_node_response. destruct ready; [|done]. cbn [negb].
    apply (server_ok_inside s); cbn; rewrite ?Hst; try done; [by right|by intros []; left].
Qed.

(** *** Requests *)

Lemma send_followup f msg k m :
  message f = Some m -> event_ m = kind_event k -> cancelIteration_ (send msg f) = true ->
  cancelIteration_ f = true \/ event_ msg = kind_event k.
Proof.
  intros Em He. unfold send. rewrite Em. cbn. unfold is_followup_request. rewrite He, kind_not_find. cbn.
  destruct (matching_node _ _); cbn; [|by left]. destruct (has_bits _ _); [by left|].
  destruct (Z.eqb_spec (kind_event k) (event_ msg)); [by right|by left].
Qed.

Lemma send_fields f msg :
  state (send msg f) = state f /\ message (send msg f) = message f /\
  eventId_ (send msg f) = eventId_ f /\ nextTrainId_ (send msg f) = nextTrainId_ f /\
  newNodeId_ (send msg f) = newNodeId_ f /\ isGlobal_ (send msg f) = isGlobal_ f /\
  hasMatches_ (send msg f) = hasMatches_ f /\
  q_list (queue (send msg f)) = q_list (queue f) ++ [msg].
Proof.
  unfold send. destruct (message f) as [m|] eqn:E; [destruct (is_followup_request m msg)|];
    cbn; rewrite ?E, (q_list_insert (A := Request)); done.
Qed.

(** A request sets the flag of its event. *)
Lemma with_send_ok msg s s' :
  server_ok s -> nodes_ s' = nodes_ s -> flow_ s' = flow_ s ->
  (forall k, pending k s = true -> pending k s' = true) ->
  (forall k, pending k s' = true -> pending k s = true \/ event_ msg = kind_event k) ->
  (forall k, event_ msg = kind_event k -> pending k s' = true) ->
  server_ok (with_flow (send msg) s').
Proof.
  intros Ok Hn Hf Hk1 Hk2 Hk3.
  destruct (send_fields (flow_ s) msg) as (E1 & E2 & E3 & E4 & E5 & E6 & _ & E7). split.
  - pose proof (ok_state s Ok) as Hs. unfold state_ok, in_work in *. cbn [with_flow flow_ nodes_].
    rewrite Hf, Hn, E1, E2, E3, E4, E5, E6. exact Hs.
  - intros k Hp. unfold waiting_requests. cbn [with_flow flow_]. rewrite Hf, E1, E2, E7.
    destruct (Hk2 k Hp) as [Hp'|Hm].
    + destruct (ok_pending s Ok k Hp') as (m & Hin & He). exists m. split; [|done].
      unfold waiting_requests in Hin. rewrite app_assoc. apply elem_of_app. by left.
    + exists msg. split; [|done]. rewrite !elem_of_app. right. right. by left.
  - intros k. unfold in_work. cbn [with_flow flow_]. rewrite Hf, E1, E2. intros ((m & Em & He) & Hst) Hc.
    destruct (send_followup (flow_ s) msg k m Em He Hc) as [Hc'|Hm]; [|by apply Hk3].
    apply Hk1, (ok_cancel s Ok); [|done]. unfold in_work. eauto.
Qed.

Lemma request_ok s s' : request s s' -> server_ok s -> server_ok s'.
Proof.
  intros [arg dst src s0|event src s0 He] Ok.
  - unfold handle_identify_global. destruct dst as [dst|].
    + assert (H : forall m, server_ok (send_addressed m s0)) by (by destruct Ok).
      destruct (negb _); [done|]. destruct (_ =? _); [done|]. by destruct (_ =? _).
    + destruct (pendingGlobalIdentify_ s0 || _); [done|].
      apply (with_send_ok _ s0); try done; intros []; cbn; auto; congruence.
  - unfold handle_identify_producer. destruct (Z.eqb_spec event IS_TRAIN_EVENT) as [->|Hne].
    + apply (with_send_ok _ s0); try done; intros []; cbn; auto; congruence.
    + apply (with_send_ok _ s0); auto; intros k Hk. exfalso. cbn in Hk. subst event.
      rewrite kind_not_find in He. destruct He; congruence.
Qed.

Lemma nodes_ok n s : nodes_grow (nodes_ s) n -> server_ok s -> server_ok (set_nodes n s).
Proof.
  intros [Hsz Hid Hl] Ok. destruct Ok as [Hs Hp Hc]. split; [|exact Hp|exact Hc].
  unfold state_ok, in_work in *. cbn. destruct (state (flow_ s)); try done; intuition (auto; lia).
Qed.

Lemma step_ok s s' : step s s' -> server_ok s -> server_ok s'.
Proof.
  intros [ready s0 s1 E|s0 s1 R|n s0 G] Ok.
  - destruct (run_flow_ok ready s0 Ok) as (s2 & E' & Ok'). congruence.
  - by apply (request_ok s0).
  - by apply nodes_ok.
Qed.

(** ** Every identify request is answered by every train *)

Section Sweep.
(** A request of kind [k] came when [n0] messages were sent and there were the
    trains with the node ids [ids] below [m]. *)
Context (k : Kind) (n0 : nat) (m : Z) (ids : Z -> Z).

Definition answered_upto (j : Z) (s : Server) : Prop :=
  forall i, 0 <= i < j -> i < m -> ids i <> 0 -> forall a, a ∈ answers k (ids i) -> a ∈ drop n0 (sent s).

(** The flow asks all trains for this kind, and has done so for the first ones. *)
Definition sweeping (s : Server) : Prop :=
  let f := flow_ s in
  eventId_ f = kind_event k /\
  match state f with
  | ITERATE | SEND_RESPONSE => answered_upto (nextTrainId_ f) s
  | NEXT_ITERATE => answered_upto (nextTrainId_ f + 1) s
  | _ => False
  end.

Record owed (s : Server) : Prop := {
  owed_ok : server_ok s;
  owed_sent : (n0 <= length (sent s))%nat;
  owed_size : m <= nodes_size (nodes_ s);
  owed_ids i : 0 <= i < m -> get_train_node_id (nodes_ s) i = ids i;
  owed_answers : pending k s = true \/ sweeping s \/ answered_upto m s
}.

Lemma answered_mono j s s' x :
  sent s' = sent s ++ x -> (n0 <= length (sent s))%nat -> answered_upto j s -> answered_upto j s'.
Proof.
  intros E Hl H i Hi Hm Hid a Ha. rewrite E, drop_app_le by done. apply elem_of_app. left. by apply (H i).
Qed.

Lemma answered_0 s : answered_upto 0 s.
Proof. intros i Hi. lia. Qed.

(** What a step must do to keep the debt. *)
Lemma owed_step s s' x :
  owed s -> server_ok s' -> sent s' = sent s ++ x -> nodes_grow (nodes_ s) (nodes_ s') ->
  (pending k s = true -> pending k s' = true \/ sweeping s') ->
  (sweeping s -> pending k s' = true \/ sweeping s' \/ answered_upto m s') ->
  owed s'.
Proof.
  intros [Ok Hl Hm Hid Ha] Ok' Hs [Gs Gi _] Hp Hw. split; [done| |lia| |].
  - rewrite Hs, length_app. lia.
  - intros i Hi. rewrite Gi by lia. auto.
  - destruct Ha as [Ha|[Ha|Ha]]; [destruct (Hp Ha); auto|auto|].
    right. right. by apply (answered_mono m s s' x).
Qed.

#[local] Instance nodes_grow_refl : Reflexive (@nodes_grow N _).
Proof. split; [lia|done|done]. Qed.

Lemma entry_pending s :
  pending k s = true -> pending k (entry s) = true \/ sweeping (entry s).
Proof.
  unfold entry, sweeping. set (e := from_option event_ 0 _). intros Hp.
  destruct (Z.eqb_spec e REQUEST_GLOBAL_IDENTIFY) as [E|E]; [|destruct (Z.eqb_spec e IS_TRAIN_EVENT) as [E'|E']].
  - destruct k; cbn in *; destruct (pendingGlobalIdentify_ s); cbn; try done; auto.
    right. split; [done|]. apply answered_0.
  - destruct k; cbn in *; destruct (pendingIsTrain_ s); cbn; try done; auto.
    right. split; [done|]. apply answered_0.
  - left. by destruct k.
Qed.

Lemma sweeping_event s : sweeping s -> (eventId_ (flow_ s) =? kind_event k) = true.
Proof. intros [E _]. by apply Z.eqb_eq. Qed.

Lemma iterate_owed s : state (flow_ s) = ITERATE -> owed s -> owed (iterate s).
Proof.
  intros Hst O. pose proof O as [Ok Hl Hm Hid _].
  pose proof (ok_state s Ok) as Hs. unfold state_ok in Hs. rewrite Hst in Hs. destruct Hs as (Hw & Hg & Hn).
  assert (Hsw : sweeping s -> answered_upto (nextTrainId_ (flow_ s)) s)
    by (unfold sweeping; rewrite Hst; by intros []).
  pose proof (iterate_ok s Hst Ok) as Ok'. unfold iterate in *.
  destruct (Z.leb_spec (nodes_size (nodes_ s)) (nextTrainId_ (flow_ s))) as [Hle|Hlt].
  { apply (owed_step s _ []); try done; [by rewrite app_nil_r|by left|]. intros S. right. right.
    intros i Hi Him. apply (Hsw S i); lia. }
  destruct (cancelIteration_ (flow_ s)) eqn:Ec.
  { apply (owed_step s _ []); try done; [by rewrite app_nil_r|by left|]. intros [E _]. left.
    apply (ok_cancel s Ok k); [by rewrite <- E|done]. }
  destruct (isGlobal_ (flow_ s)) eqn:Eg.
  2: { apply (owed_step s _ []); try done; [by rewrite app_nil_r|by left|]. intros [E _].
       exfalso. assert (H : is_global_event (eventId_ (flow_ s)) = true)
         by (apply is_global_event_spec; eauto). congruence. }
  destruct (_ && pendingGlobalIdentify_ s) eqn:E1; [|destruct (_ && pendingIsTrain_ s) eqn:E2].
  - apply andb_true_iff in E1 as [E1%Z.eqb_eq Hp].
    apply (owed_step s _ []); try done; [by rewrite app_nil_r| |].
    + destruct k eqn:Ek; cbn; [|by left]. intros _. right. unfold sweeping. cbn. rewrite Hst, Ek.
      split; [done|]. apply answered_0.
    + intros [E _]. right. left. unfold sweeping. cbn. rewrite Hst. split; [done|]. apply answered_0.
  - apply andb_true_iff in E2 as [E2%Z.eqb_eq Hp].
    apply (owed_step s _ []); try done; [by rewrite app_nil_r| |].
    + destruct k eqn:Ek; cbn; [by left|]. intros _. right. unfold sweeping. cbn. rewrite Hst, Ek.
      split; [done|]. apply answered_0.
    + intros [E _]. right. left. unfold sweeping. cbn. rewrite Hst. split; [done|]. apply answered_0.
  - apply (owed_step s _ []); try done; [by rewrite app_nil_r|by left|]. intros S. right. left.
    split; [apply S|]. cbn. by apply Hsw.
Qed.

(** One more train has been asked. *)
Lemma answered_next j s s' x :
  (n0 <= length (sent s))%nat -> answered_upto j s -> sent s' = sent s ++ x ->
  (j < m -> ids j <> 0 -> forall a, a ∈ answers k (ids j) -> a ∈ x) ->
  answered_upto (j + 1) s'.
Proof.
  intros Hl H E Hx i Hi Him Hid a Ha. rewrite E, drop_app_le by done. apply elem_of_app.
  destruct (decide (i = j)) as [->|Hne]; [right; auto|left]. apply (H i); auto. lia.
Qed.

Lemma send_response_owed ready s :
  state (flow_ s) = SEND_RESPONSE -> owed s -> owed (send_response ready s).
Proof.
  intros Hst O. pose proof O as [Ok Hl Hm Hid _]. pose proof (send_response_ok ready s Hst Ok) as Ok'.
  pose proof (ok_state s Ok) as Hs. unfold state_ok in Hs. rewrite Hst in Hs. destruct Hs as (_ & _ & Hn).
  unfold send_response in *. destruct ready; [|done]. cbn [negb] in *.
  assert (Hsw : sweeping s -> answered_upto (nextTrainId_ (flow_ s)) s)
    by (unfold sweeping; rewrite Hst; by intros []).
  set (i := nextTrainId_ (flow_ s)) in *.
  assert (Hi : i < m -> get_train_node_id (nodes_ s) i = ids i) by (intros; apply Hid; lia).
  assert (Hnext : forall s' x, sent s' = sent s ++ x -> nodes_ s' = nodes_ s -> server_ok s' ->
    (forall k, pending k s' = pending k s) ->
    state (flow_ s') = NEXT_ITERATE -> flow_ s' = set_state NEXT_ITERATE (flow_ s) ->
    (eventId_ (flow_ s) = kind_event k -> i < m -> ids i <> 0 -> forall a, a ∈ answers k (ids i) -> a ∈ x) ->
    owed s').
  { intros s' x E En O' Hp Hst' Hf Hx. apply (owed_step s s' x O O' E); [by rewrite En|left; by rewrite Hp|].
    intros S. right. left. unfold sweeping. rewrite Hst', Hf. cbn. split; [apply S|].
    apply (answered_next i s s' x Hl (Hsw S) E). intros H1 H2. apply Hx; try done. apply S. }
  destruct (Z.eqb_spec (get_train_node_id (nodes_ s) i) 0) as [E0|E0].
  { apply (Hnext _ []); try done; [by rewrite app_nil_r|]. intros _ H1 H2. rewrite Hi in E0 by done. done. }
  destruct (Z.eqb_spec (eventId_ (flow_ s)) REQUEST_GLOBAL_IDENTIFY) as [E|E];
    [|destruct (Z.eqb_spec (eventId_ (flow_ s)) IS_TRAIN_EVENT) as [E'|E']].
  - apply (Hnext _ (answers GLOBAL (get_train_node_id (nodes_ s) i))); try done;
      [cbn; by rewrite <- app_assoc|]. intros Ek Him _ a. rewrite Hi by done.
    assert (k = GLOBAL) as -> by (apply kind_event_inj; by rewrite <- Ek). done.
  - apply (Hnext _ (answers IS_TRAIN (get_train_node_id (nodes_ s) i))); try done; [cbn; by rewrite E'|].
    intros Ek Him _ a. rewrite Hi by done.
    assert (k = IS_TRAIN) as -> by (apply kind_event_inj; by rewrite <- Ek). done.
  - apply (Hnext _ [mkMessage PRODUCER_IDENTIFIED_VALID (get_train_node_id (nodes_ s) i) (eventId_ (flow_ s))]);
      try done. intros Ek. destruct k; cbn in Ek; congruence.
Qed.

Lemma next_iterate_owed ready s :
  state (flow_ s) = NEXT_ITERATE -> owed s -> owed (next_iterate ready s).
Proof.
  intros Hst O. pose proof O as [Ok Hl Hm Hid _]. pose proof (next_iterate_ok ready s Hst Ok) as Ok'.
  pose proof (ok_state s Ok) as Hs. unfold state_ok in Hs. rewrite Hst in Hs. destruct Hs as (_ & _ & Hn).
  unfold next_iterate in *. destruct ready; [|done]. cbn [negb] in *.
  apply (owed_step s _ []); try done; [by rewrite app_nil_r|by left|].
  intros [E S]. rewrite Hst in S. right. left. split; [done|]. cbn.
  pose proof (nodes_size_range (nodes_ s)). rewrite u32_small by (unfold is_uint32; lia). done.
Qed.

(** Steps outside of the sweep. *)
Lemma owed_outside s s' x :
  owed s -> server_ok s' -> ~ sweeping s -> sent s' = sent s ++ x -> nodes_grow (nodes_ s) (nodes_ s') ->
  pending k s' = pending k s -> owed s'.
Proof.
  intros O Ok' Hn E G Hp. apply (owed_step s s' x O Ok' E G); [left; by rewrite Hp|done].
Qed.

Lemma run_flow_owed ready s s' : run_flow ready s = Done tt s' -> owed s -> owed s'.
Proof.
  intros E O. destruct (run_flow_ok ready s (owed_ok s O)) as (s1 & E1 & Ok').
  rewrite E in E1. injection E1 as <-. unfold run_flow in E.
  assert (Hout : forall s1 x, run_flow ready s = Done tt s1 -> s1 = s' -> ~ sweeping s ->
    sent s1 = sent s ++ x -> nodes_grow (nodes_ s) (nodes_ s1) -> pending k s1 = pending k s -> owed s').
  { intros s1 x _ -> Hn Hs G Hp. by apply (owed_outside s s' x). }
  destruct (state (flow_ s)) eqn:Hst;
    try (assert (Hns : ~ sweeping s) by (unfold sweeping; rewrite Hst; by intros []));
    try injection E as <-.
  - unfold take_message in *. destruct (q_next _) as [[]|]; [|done].
    apply (owed_outside s _ []); [done|done|done|by rewrite app_nil_r|done|by destruct k].
  - apply (owed_step s _ []); try done.
    + unfold entry. destruct (_ =? _); [|destruct (_ =? _)]; cbn; rewrite ?app_nil_r; try done;
        destruct (pendingGlobalIdentify_ s), (pendingIsTrain_ s); cbn; by rewrite ?app_nil_r.
    + unfold entry. destruct (_ =? _); [|destruct (_ =? _)]; cbn; try done;
        destruct (pendingGlobalIdentify_ s), (pendingIsTrain_ s); done.
    + apply entry_pending.
  - by apply iterate_owed.
  - unfold try_traindb_lookup in *. destruct ready; [|done]. cbn in *.
    destruct (train_entry _ _); [destruct (_ =? 0)|];
      (apply (owed_outside s _ []); [done|done|done|by rewrite app_nil_r|done|by destruct k]).
  - by apply send_response_owed.
  - by apply next_iterate_owed.
  - unfold iteration_done in *. destruct (_ && _).
    2: { apply (owed_outside s _ []); [done|done|done|by rewrite app_nil_r|done|by destruct k]. }
    destruct (query_to_address _ _) as [a md]. pose proof (allocate_grows md a (nodes_ s)) as Hg.
    destruct (allocate_node md a (nodes_ s)) as [id n].
    destruct (id =? 0); (apply (owed_outside s _ []); [done|done|done|by rewrite app_nil_r|done|by destruct k]).
  - unfold wait_for_new_node in E. destruct (is_local_node _ _); [|done]. injection E as <-.
    destruct ready; [|done]. apply (owed_outside s _ []); [done|done|done|by rewrite app_nil_r|done|by destruct k].
  - apply (owed_outside s _ []); [done|done|done|by rewrite app_nil_r|done|by destruct k].
  - unfold send_new_node_response in *. destruct ready; [|done]. cbn [negb] in *.
    eapply (owed_outside s); [done|done|done|done|done|by destruct k].
Qed.

Lemma sweeping_same s s' :
  state (flow_ s') = state (flow_ s) -> eventId_ (flow_ s') = eventId_ (flow_ s) ->
  nextTrainId_ (flow_ s') = nextTrainId_ (flow_ s) -> sent s' = sent s -> sweeping s -> sweeping s'.
Proof. unfold sweeping, answered_upto. by intros -> -> -> ->. Qed.

Lemma request_owed s s' : request s s' -> owed s -> owed s'.
Proof.
  intros R O. pose proof (request_ok s s' R (owed_ok s O)) as Ok'.
  assert (Hs : sent s' = sent s /\ nodes_ s' = nodes_ s /\ (pending k s = true -> pending k s' = true) /\
    (sweeping s -> sweeping s')).
  { destruct R as [arg dst src s0|event src s0 _].
    - unfold handle_identify_global. destruct dst as [dst|].
      + destruct (negb _); [done|]. destruct (_ =? _); [by destruct k|]. destruct (_ =? _); by destruct k.
      + destruct (pendingGlobalIdentify_ s0 || _); [done|].
        destruct (send_fields (flow_ s0) (mkRequest REQUEST_GLOBAL_IDENTIFY src)) as (E1 & _ & E3 & E4 & _).
        split; [done|]. split; [done|]. split; [by destruct k|]. by apply sweeping_same.
    - unfold handle_identify_producer.
      destruct (send_fields (flow_ s0) (mkRequest event src)) as (E1 & _ & E3 & E4 & _).
      destruct (event =? IS_TRAIN_EVENT);
        (split; [done|]; split; [done|]; split; [by destruct k|by apply sweeping_same]). }
  destruct Hs as (Hs & Hn & Hp & Hsw). apply (owed_step s s' [] O Ok'); [by rewrite app_nil_r|by rewrite Hn| |].
  - auto.
  - auto.
Qed.

Lemma steps_owed s s' : rtc step s s' -> owed s -> owed s'.
Proof.
  induction 1 as [|s s1 s' St _ IH]; [done|]. intros O. apply IH. clear IH.
  destruct St as [ready s0 s1 E|s0 s1 R|n s0 G].
  - by apply (run_flow_owed ready s0).
  - by apply (request_owed s0).
  - apply (owed_step s0 _ []); try done; [by apply nodes_ok, O|by rewrite app_nil_r|by destruct k; left|].
    intros S. right. left. exact S.
Qed.

End Sweep.

(** The handler calls for a request of a kind to all trains. *)
Definition identify_all (k : Kind) (src_node : Z) (s : Server) : Server :=
  match k with
  | GLOBAL => handle_identify_global USER_ARG_FIND None src_node s
  | IS_TRAIN => handle_identify_producer IS_TRAIN_EVENT src_node s
  end.

Lemma identify_all_pending k src s :
  let s' := identify_all k src s in
  request s s' /\ pending k s' = true /\ sent s' = sent s /\ nodes_ s' = nodes_ s.
Proof.
  cbv zeta. split; [destruct k; constructor; by right|]. destruct k; cbn.
  - unfold handle_identify_global. destruct (pendingGlobalIdentify_ s) eqn:E; done.
  - unfold handle_identify_producer. by rewrite Z.eqb_refl.
Qed.

(** C27: No identify request is lost, although requests are merged and
    iterations are restarted and cancelled: when a node asks for all trains, and
    the server is idle later on, every train that was there when the request
    came has answered after it, whatever other requests came meanwhile. *)
Theorem identify_requests_answered n k src s s2 :
  rtc step (new_FindProtocolServer n) s ->
  rtc step (identify_all k src s) s2 -> idle s2 ->
  forall i, 0 <= i < nodes_size (nodes_ s) -> get_train_node_id (nodes_ s) i <> 0 ->
  forall a, a ∈ answers k (get_train_node_id (nodes_ s) i) -> a ∈ drop (length (sent s)) (sent s2).
Proof.
  intros R St [Hw Hq] i Hi Hid a Ha.
  assert (Ok : server_ok s) by (clear -R IS_TRAIN_not_global IS_TRAIN_not_find AN QO;
    remember (new_FindProtocolServer n) as s0 eqn:E0; assert (Ok : server_ok s0) by (subst; apply new_server_ok);
    clear E0; induction R as [|? ? ? S _ IH]; [done|]; apply IH; by eapply step_ok).
  destruct (identify_all_pending k src s) as (Hr & Hp & Es & En).
  assert (O : owed k (length (sent s)) (nodes_size (nodes_ s)) (get_train_node_id (nodes_ s))
                (identify_all k src s)).
  { split; rewrite ?Es, ?En; try done; [by apply (request_ok s)|by left]. }
  apply (steps_owed _ _ _ _ _ _ St) in O. destruct (owed_answers _ _ _ _ _ O) as [H|[[_ H]|H]].
  - exfalso. destruct (ok_pending s2 (owed_ok _ _ _ _ _ O) k H) as (msg & Hm & _).
    unfold waiting_requests in Hm. rewrite Hw, Hq, decide_False in Hm by done. by apply not_elem_of_nil in Hm.
  - by rewrite Hw in H.
  - apply (H i); try done; lia.
Qed.

End Server.

