(* ===== verification/TrainSearch.v ===== *)
(** What the server of the train search answers
    (src/cs/commandstation/FindProtocolServer.hxx): the answers to one query,
    and that the server gets done with its requests; and the handlers of a node
    that answers for itself. *)

From S2P Require Import Prelude Queues FindProtocol FindProtocolServer.

Section Search.
Context (IS_TRAIN_EVENT : Z) (df : Defaults).
Context (matching_node : Z -> Z -> bool).
Context {N : Type} `{AN : AllTrainNodesOk N}.
Context {Q : Type} `{QO : QListOk Q Request}.
Context (IS_TRAIN_not_global : IS_TRAIN_EVENT <> REQUEST_GLOBAL_IDENTIFY).
Context (IS_TRAIN_not_find : is_find_event IS_TRAIN_EVENT = false).

Abbreviation Server := (@FindProtocolServer N Q).
Abbreviation run_flow := (run_flow IS_TRAIN_EVENT df).
Abbreviation request := (request IS_TRAIN_EVENT matching_node).
Abbreviation server_ok := (server_ok IS_TRAIN_EVENT).

(** The flow works on one message, while the trains stay the same; [reqs] says
    whether requests may come in meanwhile. *)
Inductive work (reqs : bool) : Server -> Server -> Prop :=
| work_done s : work reqs s s
| work_flow ready s s1 s2 :
    state (flow_ s) <> WAITING -> run_flow ready s = Done tt s1 -> work reqs s1 s2 -> work reqs s s2
| work_request s s1 s2 : reqs = true -> request s s1 -> work reqs s1 s2 -> work reqs s s2.

Section Query.
(** The trains, and the event of the query. *)
Context (n : N) (event : Z).

Definition is_match (i : Z) : bool :=
  match train_entry n i with
  | Some e => negb (match_query_to_node IS_TRAIN_EVENT df event e =? 0)
  | None => false
  end.

Definition reply (i : Z) : list GenMessage :=
  let id := get_train_node_id n i in
  if is_match i && negb (id =? 0) then [mkMessage PRODUCER_IDENTIFIED_VALID id event] else [].

(** The answers of the first trains, and whether one of them matches. *)
Definition replies (j : Z) : list GenMessage := concat (reply <$> seqZ 0 j).
Definition found (j : Z) : bool := existsb is_match (seqZ 0 j).

(** The answer of a new train that is allocated. *)
Definition new_reply : list GenMessage :=
  let '(address, mode) := query_to_address df event in
  let id := fst (allocate_node mode address n) in
  if negb (found (nodes_size n)) && has_bits event ALLOCATE && negb (id =? 0)
  then [mkMessage PRODUCER_IDENTIFIED_VALID id event] else [].

Lemma replies_next j : 0 <= j -> replies (j + 1) = replies j ++ reply j.
Proof.
  intros H. unfold replies. rewrite seqZ_app by lia. rewrite fmap_app, concat_app. f_equal.
  change (seqZ (0 + j) 1) with [0 + 0 + j]. cbn. by rewrite app_nil_r.
Qed.

Lemma found_next j : 0 <= j -> found (j + 1) = found j || is_match j.
Proof.
  intros H. unfold found. rewrite seqZ_app by lia. rewrite existsb_app. f_equal.
  change (seqZ (0 + j) 1) with [0 + 0 + j]. cbn. by rewrite orb_false_r.
Qed.

Context (reqs : bool) (base : list GenMessage).
Context (not_global : is_global_event IS_TRAIN_EVENT event = false).

(** The answer so far, by the state of the flow. *)
Definition answered_so_far (s : Server) : Prop :=
  let f := flow_ s in
  let j := nextTrainId_ f in
  match state f with
  | WAITING => True
  | ENTRY => nodes_ s = n /\ sent s = base
  | ITERATE | TRY_TRAINDB_LOOKUP =>
      nodes_ s = n /\ 0 <= j <= nodes_size n /\ sent s = base ++ replies j /\ hasMatches_ f = found j
  | SEND_RESPONSE =>
      nodes_ s = n /\ 0 <= j < nodes_size n /\ sent s = base ++ replies j /\ hasMatches_ f = true /\
      is_match j = true
  | NEXT_ITERATE =>
      nodes_ s = n /\ 0 <= j < nodes_size n /\ sent s = base ++ replies (j + 1) /\
      hasMatches_ f = found (j + 1)
  | ITERATION_DONE =>
      nodes_ s = n /\
      (cancelIteration_ f = true /\ (exists j, 0 <= j <= nodes_size n /\ sent s = base ++ replies j) \/
       sent s = base ++ replies (nodes_size n) /\ hasMatches_ f = found (nodes_size n))
  | _ => sent s ++ [mkMessage PRODUCER_IDENTIFIED_VALID (newNodeId_ f) event] =
           base ++ replies (nodes_size n) ++ new_reply
  end.

(** The end of the work: everything, or a part when another request replaced
    this one. *)
Definition all_answered (s : Server) : Prop :=
  sent s = base ++ replies (nodes_size n) ++ new_reply \/
  reqs = true /\ has_bits event ALLOCATE = false /\
  exists j, 0 <= j <= nodes_size n /\ sent s = base ++ replies j.

Record answering (s : Server) : Prop := {
  an_ok : server_ok s;
  an_message : state (flow_ s) <> WAITING -> exists m, message (flow_ s) = Some m /\ event_ m = event;
  an_cancel : state (flow_ s) <> WAITING -> state (flow_ s) <> ENTRY -> cancelIteration_ (flow_ s) = true ->
    reqs = true /\ has_bits event ALLOCATE = false;
  an_sent : answered_so_far s;
  an_done : state (flow_ s) = WAITING -> all_answered s
}.

(** The event of the flow, while it works. *)
Lemma answering_event (s : Server) :
  answering s -> state (flow_ s) <> WAITING -> state (flow_ s) <> ENTRY ->
  eventId_ (flow_ s) = event /\ isGlobal_ (flow_ s) = false.
Proof.
  intros [Ok Hm _ _ _] H1 H2. destruct (Hm H1) as (m & Em & <-). pose proof (ok_state _ s Ok) as Hs.
  unfold state_ok in Hs. destruct (state (flow_ s)); try done;
    destruct Hs as (((m' & Em' & He) & _) & Hg & _); rewrite Em in Em'; injection Em' as <-;
    rewrite Hg, <- He; done.
Qed.

(** A step that goes on with the same message and cancel flag. *)
Lemma answering_step (s s' : Server) :
  answering s -> server_ok s' -> state (flow_ s) <> WAITING -> state (flow_ s) <> ENTRY ->
  message (flow_ s') = message (flow_ s) -> cancelIteration_ (flow_ s') = cancelIteration_ (flow_ s) ->
  state (flow_ s') <> WAITING -> answered_so_far s' -> answering s'.
Proof.
  intros [Ok Hm Hc _ _] Ok' H1 H2 E1 E2 H3 Hs. split; try done.
  - intros _. rewrite E1. auto.
  - intros _ _. rewrite E2. auto.
Qed.

Lemma answering_release (s' : Server) :
  server_ok s' -> state (flow_ s') = WAITING -> all_answered s' -> answering s'.
Proof. intros Ok Hst Hd. split; rewrite ?Hst; try done. unfold answered_so_far. by rewrite Hst. Qed.

Ltac an_step s := apply (answering_step s); [done|done|congruence|congruence|done|done|done|].

Lemma replies_0 : replies 0 = [].
Proof. done. Qed.

Lemma entry_answering (s : Server) :
  state (flow_ s) = ENTRY -> server_ok (entry IS_TRAIN_EVENT s) -> answering s ->
  answering (entry IS_TRAIN_EVENT s).
Proof.
  intros Hst Ok' [Ok Hm _ Hs _]. destruct Hm as (m & Em & He); [congruence|].
  unfold answered_so_far in Hs. rewrite Hst in Hs. destruct Hs as [Hn Hb].
  unfold is_global_event in not_global. apply orb_false_iff in not_global as [E1 E2].
  unfold entry in *. rewrite Em in *. cbn [from_option] in *. rewrite He, E1, E2 in *. split; try done.
  - intros _. cbn. eauto.
  - unfold answered_so_far. cbn. rewrite replies_0, app_nil_r.
    pose proof (nodes_size_range n). repeat split; try done; lia.
Qed.

Lemma iterate_answering (s : Server) :
  state (flow_ s) = ITERATE -> server_ok (iterate IS_TRAIN_EVENT s) -> answering s ->
  answering (iterate IS_TRAIN_EVENT s).
Proof.
  intros Hst Ok' A. destruct (answering_event s A) as [Ee Eg]; [congruence|congruence|].
  pose proof (an_sent s A) as Hs. unfold answered_so_far in Hs. rewrite Hst in Hs.
  destruct Hs as (Hn & Hj & Hb & Hf). unfold iterate in *. rewrite Hn, Eg in *.
  destruct (Z.leb_spec (nodes_size n) (nextTrainId_ (flow_ s))) as [Hle|Hlt];
    [|destruct (cancelIteration_ (flow_ s)) eqn:Ec].
  - an_step s. unfold answered_so_far. cbn.
    split; [done|right]. replace (nodes_size n) with (nextTrainId_ (flow_ s)) by lia. done.
  - an_step s. unfold answered_so_far. cbn.
    split; [done|left]. eauto.
  - an_step s. unfold answered_so_far. cbn. done.
Qed.

Lemma lookup_answering ready (s : Server) :
  state (flow_ s) = TRY_TRAINDB_LOOKUP -> server_ok (try_traindb_lookup IS_TRAIN_EVENT df ready s) ->
  answering s -> answering (try_traindb_lookup IS_TRAIN_EVENT df ready s).
Proof.
  intros Hst Ok' A. destruct (answering_event s A) as [Ee Eg]; [congruence|congruence|].
  pose proof (an_sent s A) as Hs. unfold answered_so_far in Hs. rewrite Hst in Hs.
  destruct Hs as (Hn & Hj & Hb & Hf). unfold try_traindb_lookup in *.
  pose proof (ok_state _ s (an_ok s A)) as Hok. unfold state_ok in Hok. rewrite Hst, Hn in Hok.
  destruct Hok as (_ & _ & _ & Hr). destruct ready; [|done]. cbn [negb] in *. rewrite Hn, Ee in *.
  set (j := nextTrainId_ (flow_ s)) in *.
  assert (Hm : is_match j = match train_entry n j with
    | Some e => negb (match_query_to_node IS_TRAIN_EVENT df event e =? 0) | None => false end) by done.
  destruct (train_entry n j) as [e|]; [destruct (_ =? 0)|]; cbn [negb] in Hm;
    (an_step s); unfold answered_so_far; cbn; fold j;
    rewrite ?replies_next, ?found_next, ?Hm, ?orb_false_r by lia; unfold reply; rewrite ?Hm; cbn;
    rewrite ?app_nil_r; done.
Qed.

Lemma send_response_answering ready (s : Server) :
  state (flow_ s) = SEND_RESPONSE -> server_ok (send_response IS_TRAIN_EVENT ready s) ->
  answering s -> answering (send_response IS_TRAIN_EVENT ready s).
Proof.
  intros Hst Ok' A. destruct (answering_event s A) as [Ee Eg]; [congruence|congruence|].
  pose proof (an_sent s A) as Hs. unfold answered_so_far in Hs. rewrite Hst in Hs.
  destruct Hs as (Hn & Hj & Hb & Hf & Hm). unfold send_response in *.
  destruct ready; [|done]. cbn [negb] in *. rewrite Hn, Ee in *.
  set (j := nextTrainId_ (flow_ s)) in *.
  assert (Hr : reply j = if get_train_node_id n j =? 0 then []
                         else [mkMessage PRODUCER_IDENTIFIED_VALID (get_train_node_id n j) event])
    by (unfold reply; rewrite Hm; by destruct (_ =? 0)).
  unfold is_global_event in not_global. apply orb_false_iff in not_global as [E1 E2]. rewrite E1, E2 in *.
  destruct (get_train_node_id n j =? 0);
    (an_step s); unfold answered_so_far; cbn; fold j;
    rewrite replies_next, found_next, Hr, Hm, orb_true_r by lia; rewrite ?app_nil_r, ?Hb, <- ?app_assoc; done.
Qed.

Lemma next_iterate_answering ready (s : Server) :
  state (flow_ s) = NEXT_ITERATE -> server_ok (next_iterate ready s) -> answering s ->
  answering (next_iterate ready s).
Proof.
  intros Hst Ok' A. pose proof (an_sent s A) as Hs. unfold answered_so_far in Hs. rewrite Hst in Hs.
  destruct Hs as (Hn & Hj & Hb & Hf). unfold next_iterate in *. destruct ready; [|done]. cbn [negb] in *.
  an_step s. unfold answered_so_far. cbn.
  pose proof (nodes_size_range n). rewrite u32_small by (unfold is_uint32; lia).
  split; [done|]. split; [lia|done].
Qed.

Lemma iteration_done_answering (s : Server) :
  state (flow_ s) = ITERATION_DONE -> server_ok (iteration_done df s) -> answering s ->
  answering (iteration_done df s).
Proof.
  intros Hst Ok' A. destruct (answering_event s A) as [Ee Eg]; [congruence|congruence|].
  pose proof (an_sent s A) as Hs. unfold answered_so_far in Hs. rewrite Hst in Hs.
  pose proof (an_cancel s A) as Hc. destruct Hs as (Hn & Hs).
  unfold iteration_done in *. rewrite Ee, Eg, Hn in *. cbn [negb] in *. rewrite andb_true_r in *.
  destruct Hs as [(Hcan & Hpart)|(Hall & Hf)].
  { destruct (Hc ltac:(congruence) ltac:(congruence) Hcan) as [Hr Hal]. rewrite Hal, andb_false_r in *.
    apply answering_release; [done|done|]. right. done. }
  rewrite Hf in *. destruct (negb (found (nodes_size n)) && has_bits event ALLOCATE) eqn:E.
  2: { apply answering_release; [done|done|]. left. unfold new_reply. cbn. rewrite Hall.
       destruct (query_to_address df event) as [a md]. by rewrite E, app_nil_r. }
  assert (Hnr : new_reply = let '(address, mode) := query_to_address df event in
    let id := fst (allocate_node mode address n) in
    if negb (id =? 0) then [mkMessage PRODUCER_IDENTIFIED_VALID id event] else [])
    by (unfold new_reply; by rewrite E).
  destruct (query_to_address df event) as [a md]. destruct (allocate_node md a n) as [id n'] eqn:Ea.
  cbn [fst] in Hnr. destruct (id =? 0).
  - apply answering_release; [done|done|]. left. unfold all_answered. cbn. by rewrite Hall, Hnr, app_nil_r.
  - an_step s. unfold answered_so_far. cbn.
    by rewrite Hall, Hnr, <- app_assoc.
Qed.

Lemma run_flow_answering ready (s s' : Server) :
  state (flow_ s) <> WAITING -> run_flow ready s = Done tt s' -> answering s -> answering s'.
Proof.
  intros Hst E A. destruct (run_flow_ok IS_TRAIN_EVENT df IS_TRAIN_not_global ready s (an_ok s A)) as (s1 & E1 & Ok').
  assert (s1 = s') as -> by congruence. clear E1. unfold run_flow in E.
  pose proof (an_sent s A) as Hs. unfold answered_so_far in Hs.
  destruct (state (flow_ s)) eqn:Est; try done; try injection E as <-.
  - by apply entry_answering.
  - by apply iterate_answering.
  - by apply lookup_answering.
  - by apply send_response_answering.
  - by apply next_iterate_answering.
  - by apply iteration_done_answering.
  - unfold wait_for_new_node in E. destruct (is_local_node _ _); [|done]. injection E as <-.
    destruct ready; [|done]. an_step s. exact Hs.
  - an_step s. exact Hs.
  - destruct (answering_event s A) as [Ee _]; [congruence|congruence|].
    unfold send_new_node_response in *. destruct ready; [|done]. cbn [negb] in *.
    apply answering_release; [done|done|]. left. cbn. by rewrite Ee.
Qed.

(** *** Requests that come in meanwhile *)

Lemma send_cancel (f : FindProtocolFlow) msg :
  (cancelIteration_ f = true -> cancelIteration_ (send matching_node msg f) = true) /\
  (cancelIteration_ (send matching_node msg f) = true ->
   cancelIteration_ f = true \/
   exists m, message f = Some m /\ has_bits (event_ m) ALLOCATE = false).
Proof.
  unfold send. destruct (message f) as [m|] eqn:Em; cbn; [|auto].
  destruct (is_followup_request matching_node m msg) eqn:E; cbn; [|auto]. split; [done|]. intros _. right.
  exists m. split; [done|]. unfold is_followup_request in E. destruct (negb _); [done|].
  by destruct (has_bits (event_ m) ALLOCATE).
Qed.

Lemma with_send_answering msg (s s' : Server) :
  answering s -> nodes_ s' = nodes_ s -> flow_ s' = flow_ s -> sent s' = sent s -> reqs = true ->
  server_ok (with_flow (send matching_node msg) s') -> answering (with_flow (send matching_node msg) s').
Proof.
  intros [Ok Hm Hc Hs Hd] Hn Hf Hsent Hr Ok'. split; [done| | | |]; cbn [with_flow flow_]; rewrite ?Hf.
  - destruct (send_fields matching_node (flow_ s) msg) as (E1 & E2 & _). by rewrite E1, E2.
  - destruct (send_fields matching_node (flow_ s) msg) as (E1 & E2 & _). rewrite E1. intros H1 H2 H3.
    destruct (proj2 (send_cancel (flow_ s) msg) H3) as [Hcan|(m & Em & Ha)]; [auto|].
    split; [done|]. destruct (Hm H1) as (m' & Em' & <-). congruence.
  - destruct (send_fields matching_node (flow_ s) msg) as (E1 & E2 & E3 & E4 & E5 & E6 & E7 & _).
    unfold answered_so_far in *. cbn [with_flow flow_ nodes_ sent]. rewrite Hf, Hn, Hsent, E1, E4, E5, E7.
    destruct (state (flow_ s)); try done. destruct Hs as [Hn' [[H1 H2]|H1]]; [|by auto].
    split; [done|left]. split; [by apply send_cancel|done].
  - destruct (send_fields matching_node (flow_ s) msg) as (E1 & _). rewrite E1. intros H.
    unfold all_answered in *. cbn. rewrite Hsent. auto.
Qed.

Lemma request_answering (s s' : Server) : reqs = true -> request s s' -> answering s -> answering s'.
Proof.
  intros Hr R A.
  pose proof (request_ok IS_TRAIN_EVENT matching_node IS_TRAIN_not_global IS_TRAIN_not_find s s' R (an_ok s A)) as Ok'.
  destruct R as [arg dst src s|event' src s _].
  - unfold handle_identify_global in *. destruct dst as [dst|].
    + assert (H : forall m, server_ok (send_addressed m s) -> answering (send_addressed m s)) by (by destruct A).
      destruct (negb _); [done|]. destruct (_ =? _); [by apply H|]. destruct (_ =? _); [by apply H|done].
    + destruct (pendingGlobalIdentify_ s || _); [done|]. by apply (with_send_answering _ s).
  - unfold handle_identify_producer in *. destruct (event' =? IS_TRAIN_EVENT); by apply (with_send_answering _ s).
Qed.

Lemma work_answering (s s' : Server) : work reqs s s' -> answering s -> answering s'.
Proof.
  induction 1 as [s|ready s s1 s2 Hst E _ IH|s s1 s2 Hr R _ IH]; intros A; [done| |].
  - apply IH. by apply (run_flow_answering ready s).
  - apply IH. by apply (request_answering s).
Qed.

End Query.
Abbreviation step := (step IS_TRAIN_EVENT df matching_node).

(** The server reaches only states that keep its invariant. *)
Lemma search_reachable_ok n s : rtc step (new_FindProtocolServer n) s -> server_ok s.
Proof.
  intros R. remember (new_FindProtocolServer n) as s0 eqn:E0.
  assert (Ok : server_ok s0) by (subst; apply new_server_ok). clear E0.
  induction R as [|s0 s1 s2 St _ IH]; [done|]. apply IH.
  by apply (step_ok IS_TRAIN_EVENT df matching_node IS_TRAIN_not_global IS_TRAIN_not_find s0).
Qed.

(** C19: A query is answered by the matching trains, each once and in order, and
    if none matches and the query asks to allocate one, by the node of the new
    train, if there is one.  If other requests come while the server works, this
    remains so, except that a query that does not allocate may be given up after
    some of the answers; a query that allocates never is. *)
Theorem search_answers n s0 msg reqs s1 :
  rtc step (new_FindProtocolServer n) s0 ->
  state (flow_ s0) = ENTRY -> message (flow_ s0) = Some msg ->
  is_global_event IS_TRAIN_EVENT (event_ msg) = false ->
  work reqs s0 s1 -> state (flow_ s1) = WAITING ->
  let n := nodes_ s0 in
  let e := event_ msg in
  sent s1 = sent s0 ++ replies n e (nodes_size n) ++ new_reply n e \/
  reqs = true /\ has_bits e ALLOCATE = false /\
  exists j, 0 <= j <= nodes_size n /\ sent s1 = sent s0 ++ replies n e j.
Proof.
  intros R Hst Hm Hg W Hw. cbv zeta.
  assert (A : answering (nodes_ s0) (event_ msg) reqs (sent s0) s0).
  { split; [by apply (search_reachable_ok n)| | | |]; try congruence.
    - intros _. eauto.
    - unfold answered_so_far. by rewrite Hst. }
  apply (work_answering _ _ _ _ Hg _ _ W) in A. by apply (an_done _ _ _ _ _ A).
Qed.

(** ** The server gets done *)

(** The flow runs and never has to wait. *)
Definition flows (s s' : Server) : Prop := rtc (fun s s' => run_flow true s = Done tt s') s s'.

Definition flag (b : bool) : Z := if b then 1 else 0.

(** A bound of the steps until the iteration ends: every restart takes a flag. *)
Definition remaining (s : Server) : Z :=
  let sz := nodes_size (nodes_ s) in
  let left := 4 * Z.max (sz - nextTrainId_ (flow_ s)) 0 in
  (flag (pendingGlobalIdentify_ s) + flag (pendingIsTrain_ s)) * (4 * sz + 20) +
  match state (flow_ s) with
  | ENTRY => 4 * sz + 10
  | ITERATE => left + 4
  | TRY_TRAINDB_LOOKUP => left + 3
  | SEND_RESPONSE => left + 2
  | NEXT_ITERATE => left + 1
  | _ => 0
  end.

Definition iterating (s : Server) : Prop :=
  match state (flow_ s) with
  | ENTRY | ITERATE | TRY_TRAINDB_LOOKUP | SEND_RESPONSE | NEXT_ITERATE => True
  | _ => False
  end.

Lemma remaining_nonneg s : 0 <= remaining s.
Proof.
  unfold remaining, flag. pose proof (nodes_size_range (nodes_ s)).
  destruct (pendingGlobalIdentify_ s), (pendingIsTrain_ s), (state (flow_ s)); lia.
Qed.

Lemma iterate_queue (s : Server) : queue (flow_ (iterate IS_TRAIN_EVENT s)) = queue (flow_ s).
Proof.
  unfold iterate. destruct (_ <=? _); [done|]. destruct (cancelIteration_ _); [done|].
  destruct (isGlobal_ _); [|done]. destruct (_ && pendingGlobalIdentify_ s); [done|].
  by destruct (_ && pendingIsTrain_ s).
Qed.

Lemma entry_queue (s : Server) : queue (flow_ (entry IS_TRAIN_EVENT s)) = queue (flow_ s).
Proof.
  unfold entry. destruct (_ =? _); [|destruct (_ =? _)]; cbn; [| |done].
  - by destruct (pendingGlobalIdentify_ s).
  - by destruct (pendingIsTrain_ s).
Qed.

Ltac count := unfold remaining, flag; cbn; try lia.

Lemma iterating_step s :
  server_ok s -> iterating s ->
  exists s', run_flow true s = Done tt s' /\ queue (flow_ s') = queue (flow_ s) /\
    (state (flow_ s') = WAITING \/ state (flow_ s') = ITERATION_DONE \/
     iterating s' /\ remaining s' < remaining s).
Proof.
  intros Ok Hi. pose proof (nodes_size_range (nodes_ s)) as Hsz. pose proof (ok_state _ s Ok) as Hs.
  unfold iterating, run_flow, state_ok in *. destruct (state (flow_ s)) eqn:Hst; try done; eexists; (split; [done|]).
  - split; [apply entry_queue|]. unfold entry.
    destruct (_ =? _); [|destruct (_ =? _)]; cbn.
    + destruct (pendingGlobalIdentify_ s) eqn:E; [right; right|by left]. split; [done|].
      count. rewrite Hst, E. destruct (pendingIsTrain_ s); lia.
    + destruct (pendingIsTrain_ s) eqn:E; [right; right|by left]. split; [done|].
      count. rewrite Hst, E. destruct (pendingGlobalIdentify_ s); lia.
    + right; right. split; [done|]. count. rewrite Hst. lia.
  - split; [apply iterate_queue|]. destruct Hs as (_ & _ & Hn). unfold iterate.
    destruct (Z.leb_spec (nodes_size (nodes_ s)) (nextTrainId_ (flow_ s))); [by right; left|].
    destruct (cancelIteration_ _); [by right; left|]. right; right.
    destruct (isGlobal_ _); [|split; [done|count; rewrite Hst; lia]].
    destruct (_ && pendingGlobalIdentify_ s) eqn:E1; [|destruct (_ && pendingIsTrain_ s) eqn:E2].
    + apply andb_true_iff in E1 as [_ E]. cbn. rewrite Hst. split; [done|]. count. rewrite Hst, E.
      destruct (pendingIsTrain_ s); lia.
    + apply andb_true_iff in E2 as [_ E]. cbn. rewrite Hst. split; [done|]. count. rewrite Hst, E.
      destruct (pendingGlobalIdentify_ s); lia.
    + split; [done|]. count. rewrite Hst. lia.
  - unfold try_traindb_lookup. cbn [negb].
    destruct (train_entry _ _); [destruct (_ =? 0)|]; (split; [done|]); right; right;
      (split; [done|]); count; rewrite Hst; lia.
  - unfold send_response. cbn [negb].
    destruct (_ =? 0); [|destruct (_ =? _); [|destruct (_ =? _)]]; (split; [done|]); right; right;
      (split; [done|]); count; rewrite Hst; lia.
  - destruct Hs as (_ & _ & Hn). unfold next_iterate. cbn [negb]. split; [done|]. right; right.
    split; [done|]. count. rewrite Hst, u32_small by (unfold is_uint32; lia). lia.
Qed.

Lemma done_flows s :
  server_ok s -> state (flow_ s) = ITERATION_DONE ->
  exists s', flows s s' /\ state (flow_ s') = WAITING /\ queue (flow_ s') = queue (flow_ s).
Proof.
  intros Ok Hst. destruct (run_flow_ok IS_TRAIN_EVENT df IS_TRAIN_not_global true s Ok) as (s1 & E1 & Ok1).
  pose proof E1 as E. unfold run_flow, FindProtocolServer.run_flow in E. rewrite Hst in E. injection E as E.
  unfold iteration_done in E. destruct (_ && _).
  2: { subst s1. exists (release_and_exit s). split; [|done]. eapply rtc_l; [exact E1|constructor]. }
  destruct (query_to_address _ _) as [a md]. destruct (allocate_node md a _) as [id n].
  destruct (id =? 0).
  { subst s1. eexists. split; [eapply rtc_l; [exact E1|constructor]|done]. }
  pose proof (ok_state _ s1 Ok1) as Hs. unfold state_ok in Hs. subst s1. cbn in Hs.
  destruct Hs as (_ & _ & _ & Hl). eexists. split.
  - eapply rtc_l; [exact E1|]. eapply rtc_l.
    { unfold run_flow, FindProtocolServer.run_flow. cbn. unfold wait_for_new_node. cbn. rewrite Hl. done. }
    eapply rtc_l; [done|]. eapply rtc_l; [done|]. constructor.
  - done.
Qed.

Lemma flows_ok s s' : flows s s' -> server_ok s -> server_ok s'.
Proof.
  induction 1 as [|s s1 s' E _ IH]; [done|]. intros Ok. apply IH.
  destruct (run_flow_ok IS_TRAIN_EVENT df IS_TRAIN_not_global true s Ok) as (s2 & E2 & Ok2).
  assert (s2 = s1) as <- by congruence. done.
Qed.

Lemma iterating_flows s :
  server_ok s -> iterating s ->
  exists s', flows s s' /\ state (flow_ s') = WAITING /\ queue (flow_ s') = queue (flow_ s).
Proof.
  intros Ok Hi. remember (Z.to_nat (remaining s)) as k eqn:Ek. revert s Ek Ok Hi.
  induction k as [k IH] using lt_wf_ind. intros s -> Ok Hi.
  destruct (iterating_step s Ok Hi) as (s1 & E1 & Hq & Hc).
  assert (Ok1 : server_ok s1) by (apply (flows_ok s); [by eapply rtc_once|done]).
  destruct Hc as [Hw|[Hd|[Hi1 Hlt]]].
  - exists s1. split; [by apply rtc_once|done].
  - destruct (done_flows s1 Ok1 Hd) as (s2 & F & Hw & Hq2). exists s2.
    split; [by eapply rtc_l|]. split; [done|congruence].
  - destruct (IH (Z.to_nat (remaining s1))) with (s := s1) as (s2 & F & Hw & Hq2); try done.
    { pose proof (remaining_nonneg s1). lia. }
    exists s2. split; [by eapply rtc_l|]. split; [done|congruence].
Qed.

#[local] Instance flows_preorder : PreOrder flows.
Proof. apply rtc_po. Qed.

(** The work on one message ends. *)
Lemma message_flows s :
  server_ok s ->
  exists s', flows s s' /\ state (flow_ s') = WAITING /\ queue (flow_ s') = queue (flow_ s).
Proof.
  intros Ok. pose proof (ok_state _ s Ok) as Hs. unfold state_ok in Hs.
  assert (Hi : iterating s -> exists s', flows s s' /\ state (flow_ s') = WAITING /\
    queue (flow_ s') = queue (flow_ s)) by (by apply iterating_flows).
  unfold iterating in Hi. destruct (state (flow_ s)) eqn:Hst; try (by apply Hi).
  - exists s. split; [constructor|done].
  - by apply done_flows.
  - destruct Hs as (_ & _ & _ & Hl). eexists. split; [|split].
    + eapply rtc_l.
      { unfold run_flow, FindProtocolServer.run_flow. rewrite Hst. unfold wait_for_new_node. by rewrite Hl. }
      eapply rtc_l; [done|]. eapply rtc_l; [done|]. constructor.
    + done.
    + done.
  - eexists. split; [|split].
    + eapply rtc_l; [by unfold run_flow, FindProtocolServer.run_flow; rewrite Hst|].
      eapply rtc_l; [done|]. constructor.
    + done.
    + done.
  - eexists. split; [|split].
    + eapply rtc_l; [by unfold run_flow, FindProtocolServer.run_flow; rewrite Hst|]. constructor.
    + done.
    + done.
Qed.

(** C35: The server gets done: whatever requests came, when no more come and
    what it waits for arrives, it works off its queue and becomes idle, and it
    never fails an assertion on the way. *)
Theorem server_becomes_idle n s :
  rtc step (new_FindProtocolServer n) s -> exists s', flows s s' /\ idle s'.
Proof.
  intros R%search_reachable_ok. rename R into Ok.
  destruct (message_flows s Ok) as (s1 & F & Hw & _). pose proof (flows_ok s s1 F Ok) as Ok1.
  remember (q_list (queue (flow_ s1))) as l eqn:El. revert s1 F Hw Ok1 El.
  induction l as [|m l IH]; intros s1 F Hw Ok1 El; [by exists s1|].
  destruct (q_next_cons (queue (flow_ s1)) m l) as (q & Eq & Eql); [done|].
  assert (E : run_flow true s1 = Done tt (take_message s1))
    by (unfold run_flow, FindProtocolServer.run_flow; by rewrite Hw).
  assert (F1 : flows s (take_message s1)) by (by eapply rtc_r).
  destruct (message_flows (take_message s1) (flows_ok _ _ F1 Ok)) as (s2 & F2 & Hw2 & Hq2).
  apply (IH s2); [by etrans|done|by apply (flows_ok s); [etrans|]|].
  rewrite Hq2. unfold take_message. rewrite Eq. by rewrite <- Eql.
Qed.

End Search.

(** ** A node that answers for itself *)

(** [SingleNodeFindProtocolServer]: what its handlers write. *)
Section SingleNode.
Context (IS_TRAIN_EVENT : Z) (df : Defaults).
Context (node_ : Z) (dbEntry_ : TrainDbEntry).

(** The node in whose name the answer is written is the one addressed; a null
    pointer for a message to all nodes. *)
Definition single_identify_global (dst_node : option Z) : list (option Z * Mti * Z) :=
  match dst_node with
  | Some dst =>
      if negb (dst =? node_) then [] else [(Some dst, PRODUCER_IDENTIFIED_RANGE, TRAIN_FIND_BASE)]
  | None => [(None, PRODUCER_IDENTIFIED_RANGE, TRAIN_FIND_BASE)]
  end.

Definition single_identify_producer (event : Z) : list (option Z * Mti * Z) :=
  if match_query_to_node IS_TRAIN_EVENT df event dbEntry_ =? 0 then []
  else [(Some node_, PRODUCER_IDENTIFIED_VALID, event)].

End SingleNode.
