(* ===== verification/TrainNodeInfoCache.v ===== *)
(** The cache of search results of a throttle
    (src/cs/commandstation/TrainNodeInfoCache.hxx): a window of limited size on
    the sorted list of trains, with scrolling, and the names of the trains.

    A [std::map] is the list of its entries in the order of their keys, an
    iterator is an index into it, [end()] being the length.  The infos of the
    trains are shared by two maps and by the output, so that they live in a
    store.  The search client, the bus and the decoder of SNIP messages are
    OpenMRN code or other flows: [step] is one event at this flow. *)

From S2P Require Import Prelude.

Abbreviation NodeID := Z.
Definition info_ptr := positive.

Definition kMinNode : NodeID := 0.
Definition kMaxNode : NodeID := 0xFFFFFFFFFFFF.

Definition kCacheMaxSizeDefault : Z := 48.
Definition kNodesToShowDefault : Z := 3.
Definition kScrollPrefetchSizeDefault : Z := 16.

Definition s16 (z : Z) : Z := (z + 2 ^ 15) mod 2 ^ 16 - 2 ^ 15.

(** ** Data *)

Record TrainNodeInfo := mkInfo {
  name_ : string;
  hasNodeName_ : bool
}.

Definition NodeCacheMap : Type := list (NodeID * info_ptr).

(** [find] *)
Fixpoint find_node (m : NodeCacheMap) (id : NodeID) : option info_ptr :=
  match m with
  | [] => None
  | (k, p) :: m => if k =? id then Some p else find_node m id
  end.

(** [lower_bound] *)
Fixpoint lower_bound (m : NodeCacheMap) (id : NodeID) : Z :=
  match m with
  | [] => 0
  | (k, _) :: m => if k <? id then 1 + lower_bound m id else 0
  end.

(** The entry of a new key. *)
Fixpoint insert_node (id : NodeID) (p : info_ptr) (m : NodeCacheMap) : NodeCacheMap :=
  match m with
  | [] => [(id, p)]
  | (k, q) :: m' => if k <? id then (k, q) :: insert_node id p m' else (id, p) :: m
  end.

Record ResultList := mkResultList {
  nodes_ : NodeCacheMap;
  resultsClippedAtTop_ : Z;
  resultsClippedAtBottom_ : Z;
  resultOffset_ : Z;
  newClippedAtTop_ : Z;
  newClippedAtBottom_ : Z;
  previousMinNode_ : NodeID;
  previousMaxNode_ : NodeID
}.
Definition set_nodes (x : NodeCacheMap) (s : ResultList) : ResultList :=
  mkResultList x (resultsClippedAtTop_ s) (resultsClippedAtBottom_ s) (resultOffset_ s)
    (newClippedAtTop_ s) (newClippedAtBottom_ s) (previousMinNode_ s) (previousMaxNode_ s).
Definition set_clippedAtTop (x : Z) (s : ResultList) : ResultList :=
  mkResultList (nodes_ s) x (resultsClippedAtBottom_ s) (resultOffset_ s) (newClippedAtTop_ s)
    (newClippedAtBottom_ s) (previousMinNode_ s) (previousMaxNode_ s).
Definition set_clippedAtBottom (x : Z) (s : ResultList) : ResultList :=
  mkResultList (nodes_ s) (resultsClippedAtTop_ s) x (resultOffset_ s) (newClippedAtTop_ s)
    (newClippedAtBottom_ s) (previousMinNode_ s) (previousMaxNode_ s).
Definition set_resultOffset (x : Z) (s : ResultList) : ResultList :=
  mkResultList (nodes_ s) (resultsClippedAtTop_ s) (resultsClippedAtBottom_ s) x
    (newClippedAtTop_ s) (newClippedAtBottom_ s) (previousMinNode_ s) (previousMaxNode_ s).
Definition set_newClippedAtTop (x : Z) (s : ResultList) : ResultList :=
  mkResultList (nodes_ s) (resultsClippedAtTop_ s) (resultsClippedAtBottom_ s)
    (resultOffset_ s) x (newClippedAtBottom_ s) (previousMinNode_ s) (previousMaxNode_ s).
Definition set_newClippedAtBottom (x : Z) (s : ResultList) : ResultList :=
  mkResultList (nodes_ s) (resultsClippedAtTop_ s) (resultsClippedAtBottom_ s) (resultOffset_ s)
    (newClippedAtTop_ s) x (previousMinNode_ s) (previousMaxNode_ s).
Definition set_previousMinNode (x : NodeID) (s : ResultList) : ResultList :=
  mkResultList (nodes_ s) (resultsClippedAtTop_ s) (resultsClippedAtBottom_ s) (resultOffset_ s)
    (newClippedAtTop_ s) (newClippedAtBottom_ s) x (previousMaxNode_ s).
Definition set_previousMaxNode (x : NodeID) (s : ResultList) : ResultList :=
  mkResultList (nodes_ s) (resultsClippedAtTop_ s) (resultsClippedAtBottom_ s) (resultOffset_ s)
    (newClippedAtTop_ s) (newClippedAtBottom_ s) (previousMinNode_ s) x.

Definition num_results (l : ResultList) : Z :=
  u32 (resultsClippedAtTop_ l + resultsClippedAtBottom_ l + zlen (nodes_ l)).

Definition min_node (l : ResultList) : NodeID :=
  match nodes_ l with [] => kMinNode | (k, _) :: _ => k end.

Definition max_node (l : ResultList) : NodeID :=
  match back (nodes_ l) with None => kMaxNode | Some (k, _) => k end.

Definition reset_results (l : ResultList) : ResultList :=
  mkResultList [] 0 0 (-1) 0 0 kMinNode kMaxNode.

Definition finalize_search (l : ResultList) : ResultList :=
  set_clippedAtTop (newClippedAtTop_ l) (set_clippedAtBottom (newClippedAtBottom_ l) l).

Definition clear_to_paginate (l : ResultList) : ResultList :=
  set_previousMinNode (min_node l) (set_previousMaxNode (max_node l)
    (set_newClippedAtTop 0 (set_newClippedAtBottom 0 l))).

(** What the flow waits for, or that it is terminated.  [start_flow] only
    schedules the flow: it waits for the executor in [WaitStart], which is
    [send_search_request], or in [WaitIter], which is [do_iter]. *)
Inductive Wait :=
| Terminated
| WaitStart
| WaitIter
| WaitSearch
| WaitQueryBuffer
| WaitQuerySent.

(** What goes out: searches with their limits are sent to [findClient_],
    queries to nodes, and notifications to the user interface. *)
Inductive Effect :=
| SendSearch
| SendQuery (id : NodeID)
| NotifyUI.

(** What a SNIP response says. *)
Record SnipDecodedData := mkSnip {
  user_name : string;
  user_description : string;
  model_name : string;
  manufacturer_name : string
}.

(** Members.  [entry_names] is the output: pointers to the names of infos. *)
Record Cache := mkCache {
  minResult_ : NodeID;
  maxResult_ : NodeID;
  topNodeId_ : NodeID;
  targetNodeId_ : NodeID;
  needSearch_ : bool;
  resultSetChanged_ : bool;
  pendingSearch_ : bool;
  enablePartialScroll_ : bool;
  nodesToShow_ : Z;
  cacheMaxSize_ : Z;
  scrollPrefetchSize_ : Z;
  resultsBeforeTarget_ : Z;
  resultsAfterTarget_ : Z;
  lookupIt_ : NodeID;
  trainNodes_ : ResultList;
  previousCache_ : NodeCacheMap;
  entry_names : list info_ptr;
  infos : gmap info_ptr TrainNodeInfo;
  next_info : info_ptr;
  effects : list Effect;
  wait : Wait
}.
Definition set_minResult (x : NodeID) (s : Cache) : Cache :=
  mkCache x (maxResult_ s) (topNodeId_ s) (targetNodeId_ s) (needSearch_ s)
    (resultSetChanged_ s) (pendingSearch_ s) (enablePartialScroll_ s) (nodesToShow_ s)
    (cacheMaxSize_ s) (scrollPrefetchSize_ s) (resultsBeforeTarget_ s) (resultsAfterTarget_ s)
    (lookupIt_ s) (trainNodes_ s) (previousCache_ s) (entry_names s) (infos s) (next_info s)
    (effects s) (wait s).
Definition set_maxResult (x : NodeID) (s : Cache) : Cache :=
  mkCache (minResult_ s) x (topNodeId_ s) (targetNodeId_ s) (needSearch_ s)
    (resultSetChanged_ s) (pendingSearch_ s) (enablePartialScroll_ s) (nodesToShow_ s)
    (cacheMaxSize_ s) (scrollPrefetchSize_ s) (resultsBeforeTarget_ s) (resultsAfterTarget_ s)
    (lookupIt_ s) (trainNodes_ s) (previousCache_ s) (entry_names s) (infos s) (next_info s)
    (effects s) (wait s).
Definition set_topNodeId (x : NodeID) (s : Cache) : Cache :=
  mkCache (minResult_ s) (maxResult_ s) x (targetNodeId_ s) (needSearch_ s)
    (resultSetChanged_ s) (pendingSearch_ s) (enablePartialScroll_ s) (nodesToShow_ s)
    (cacheMaxSize_ s) (scrollPrefetchSize_ s) (resultsBeforeTarget_ s) (resultsAfterTarget_ s)
    (lookupIt_ s) (trainNodes_ s) (previousCache_ s) (entry_names s) (infos s) (next_info s)
    (effects s) (wait s).
Definition set_targetNodeId (x : NodeID) (s : Cache) : Cache :=
  mkCache (minResult_ s) (maxResult_ s) (topNodeId_ s) x (needSearch_ s) (resultSetChanged_ s)
    (pendingSearch_ s) (enablePartialScroll_ s) (nodesToShow_ s) (cacheMaxSize_ s)
    (scrollPrefetchSize_ s) (resultsBeforeTarget_ s) (resultsAfterTarget_ s) (lookupIt_ s)
    (trainNodes_ s) (previousCache_ s) (entry_names s) (infos s) (next_info s) (effects s)
    (wait s).
Definition set_needSearch (x : bool) (s : Cache) : Cache :=
  mkCache (minResult_ s) (maxResult_ s) (topNodeId_ s) (targetNodeId_ s) x (resultSetChanged_ s)
    (pendingSearch_ s) (enablePartialScroll_ s) (nodesToShow_ s) (cacheMaxSize_ s)
    (scrollPrefetchSize_ s) (resultsBeforeTarget_ s) (resultsAfterTarget_ s) (lookupIt_ s)
    (trainNodes_ s) (previousCache_ s) (entry_names s) (infos s) (next_info s) (effects s)
    (wait s).
Definition set_resultSetChanged (x : bool) (s : Cache) : Cache :=
  mkCache (minResult_ s) (maxResult_ s) (topNodeId_ s) (targetNodeId_ s) (needSearch_ s) x
    (pendingSearch_ s) (enablePartialScroll_ s) (nodesToShow_ s) (cacheMaxSize_ s)
    (scrollPrefetchSize_ s) (resultsBeforeTarget_ s) (resultsAfterTarget_ s) (lookupIt_ s)
    (trainNodes_ s) (previousCache_ s) (entry_names s) (infos s) (next_info s) (effects s)
    (wait s).
Definition set_pendingSearch (x : bool) (s : Cache) : Cache :=
  mkCache (minResult_ s) (maxResult_ s) (topNodeId_ s) (targetNodeId_ s) (needSearch_ s)
    (resultSetChanged_ s) x (enablePartialScroll_ s) (nodesToShow_ s) (cacheMaxSize_ s)
    (scrollPrefetchSize_ s) (resultsBeforeTarget_ s) (resultsAfterTarget_ s) (lookupIt_ s)
    (trainNodes_ s) (previousCache_ s) (entry_names s) (infos s) (next_info s) (effects s)
    (wait s).
Definition set_enablePartialScroll (x : bool) (s : Cache) : Cache :=
  mkCache (minResult_ s) (maxResult_ s) (topNodeId_ s) (targetNodeId_ s) (needSearch_ s)
    (resultSetChanged_ s) (pendingSearch_ s) x (nodesToShow_ s) (cacheMaxSize_ s)
    (scrollPrefetchSize_ s) (resultsBeforeTarget_ s) (resultsAfterTarget_ s) (lookupIt_ s)
    (trainNodes_ s) (previousCache_ s) (entry_names s) (infos s) (next_info s) (effects s)
    (wait s).
Definition set_nodesToShow (x : Z) (s : Cache) : Cache :=
  mkCache (minResult_ s) (maxResult_ s) (topNodeId_ s) (targetNodeId_ s) (needSearch_ s)
    (resultSetChanged_ s) (pendingSearch_ s) (enablePartialScroll_ s) x (cacheMaxSize_ s)
    (scrollPrefetchSize_ s) (resultsBeforeTarget_ s) (resultsAfterTarget_ s) (lookupIt_ s)
    (trainNodes_ s) (previousCache_ s) (entry_names s) (infos s) (next_info s) (effects s)
    (wait s).
Definition set_cacheMaxSize (x : Z) (s : Cache) : Cache :=
  mkCache (minResult_ s) (maxResult_ s) (topNodeId_ s) (targetNodeId_ s) (needSearch_ s)
    (resultSetChanged_ s) (pendingSearch_ s) (enablePartialScroll_ s) (nodesToShow_ s) x
    (scrollPrefetchSize_ s) (resultsBeforeTarget_ s) (resultsAfterTarget_ s) (lookupIt_ s)
    (trainNodes_ s) (previousCache_ s) (entry_names s) (infos s) (next_info s) (effects s)
    (wait s).
Definition set_scrollPrefetchSize (x : Z) (s : Cache) : Cache :=
  mkCache (minResult_ s) (maxResult_ s) (topNodeId_ s) (targetNodeId_ s) (needSearch_ s)
    (resultSetChanged_ s) (pendingSearch_ s) (enablePartialScroll_ s) (nodesToShow_ s)
    (cacheMaxSize_ s) x (resultsBeforeTarget_ s) (resultsAfterTarget_ s) (lookupIt_ s)
    (trainNodes_ s) (previousCache_ s) (entry_names s) (infos s) (next_info s) (effects s)
    (wait s).
Definition set_resultsBeforeTarget (x : Z) (s : Cache) : Cache :=
  mkCache (minResult_ s) (maxResult_ s) (topNodeId_ s) (targetNodeId_ s) (needSearch_ s)
    (resultSetChanged_ s) (pendingSearch_ s) (enablePartialScroll_ s) (nodesToShow_ s)
    (cacheMaxSize_ s) (scrollPrefetchSize_ s) x (resultsAfterTarget_ s) (lookupIt_ s)
    (trainNodes_ s) (previousCache_ s) (entry_names s) (infos s) (next_info s) (effects s)
    (wait s).
Definition set_resultsAfterTarget (x : Z) (s : Cache) : Cache :=
  mkCache (minResult_ s) (maxResult_ s) (topNodeId_ s) (targetNodeId_ s) (needSearch_ s)
    (resultSetChanged_ s) (pendingSearch_ s) (enablePartialScroll_ s) (nodesToShow_ s)
    (cacheMaxSize_ s) (scrollPrefetchSize_ s) (resultsBeforeTarget_ s) x (lookupIt_ s)
    (trainNodes_ s) (previousCache_ s) (entry_names s) (infos s) (next_info s) (effects s)
    (wait s).
Definition set_lookupIt (x : NodeID) (s : Cache) : Cache :=
  mkCache (minResult_ s) (maxResult_ s) (topNodeId_ s) (targetNodeId_ s) (needSearch_ s)
    (resultSetChanged_ s) (pendingSearch_ s) (enablePartialScroll_ s) (nodesToShow_ s)
    (cacheMaxSize_ s) (scrollPrefetchSize_ s) (resultsBeforeTarget_ s) (resultsAfterTarget_ s) x
    (trainNodes_ s) (previousCache_ s) (entry_names s) (infos s) (next_info s) (effects s)
    (wait s).
Definition set_trainNodes (x : ResultList) (s : Cache) : Cache :=
  mkCache (minResult_ s) (maxResult_ s) (topNodeId_ s) (targetNodeId_ s) (needSearch_ s)
    (resultSetChanged_ s) (pendingSearch_ s) (enablePartialScroll_ s) (nodesToShow_ s)
    (cacheMaxSize_ s) (scrollPrefetchSize_ s) (resultsBeforeTarget_ s) (resultsAfterTarget_ s)
    (lookupIt_ s) x (previousCache_ s) (entry_names s) (infos s) (next_info s) (effects s)
    (wait s).
Definition set_previousCache (x : NodeCacheMap) (s : Cache) : Cache :=
  mkCache (minResult_ s) (maxResult_ s) (topNodeId_ s) (targetNodeId_ s) (needSearch_ s)
    (resultSetChanged_ s) (pendingSearch_ s) (enablePartialScroll_ s) (nodesToShow_ s)
    (cacheMaxSize_ s) (scrollPrefetchSize_ s) (resultsBeforeTarget_ s) (resultsAfterTarget_ s)
    (lookupIt_ s) (trainNodes_ s) x (entry_names s) (infos s) (next_info s) (effects s) (wait s).
Definition set_entry_names (x : list info_ptr) (s : Cache) : Cache :=
  mkCache (minResult_ s) (maxResult_ s) (topNodeId_ s) (targetNodeId_ s) (needSearch_ s)
    (resultSetChanged_ s) (pendingSearch_ s) (enablePartialScroll_ s) (nodesToShow_ s)
    (cacheMaxSize_ s) (scrollPrefetchSize_ s) (resultsBeforeTarget_ s) (resultsAfterTarget_ s)
    (lookupIt_ s) (trainNodes_ s) (previousCache_ s) x (infos s) (next_info s) (effects s)
    (wait s).
Definition set_infos (x : gmap info_ptr TrainNodeInfo) (s : Cache) : Cache :=
  mkCache (minResult_ s) (maxResult_ s) (topNodeId_ s) (targetNodeId_ s) (needSearch_ s)
    (resultSetChanged_ s) (pendingSearch_ s) (enablePartialScroll_ s) (nodesToShow_ s)
    (cacheMaxSize_ s) (scrollPrefetchSize_ s) (resultsBeforeTarget_ s) (resultsAfterTarget_ s)
    (lookupIt_ s) (trainNodes_ s) (previousCache_ s) (entry_names s) x (next_info s) (effects s)
    (wait s).
Definition set_next_info (x : info_ptr) (s : Cache) : Cache :=
  mkCache (minResult_ s) (maxResult_ s) (topNodeId_ s) (targetNodeId_ s) (needSearch_ s)
    (resultSetChanged_ s) (pendingSearch_ s) (enablePartialScroll_ s) (nodesToShow_ s)
    (cacheMaxSize_ s) (scrollPrefetchSize_ s) (resultsBeforeTarget_ s) (resultsAfterTarget_ s)
    (lookupIt_ s) (trainNodes_ s) (previousCache_ s) (entry_names s) (infos s) x (effects s)
    (wait s).
Definition set_effects (x : list Effect) (s : Cache) : Cache :=
  mkCache (minResult_ s) (maxResult_ s) (topNodeId_ s) (targetNodeId_ s) (needSearch_ s)
    (resultSetChanged_ s) (pendingSearch_ s) (enablePartialScroll_ s) (nodesToShow_ s)
    (cacheMaxSize_ s) (scrollPrefetchSize_ s) (resultsBeforeTarget_ s) (resultsAfterTarget_ s)
    (lookupIt_ s) (trainNodes_ s) (previousCache_ s) (entry_names s) (infos s) (next_info s) x
    (wait s).
Definition set_wait (x : Wait) (s : Cache) : Cache :=
  mkCache (minResult_ s) (maxResult_ s) (topNodeId_ s) (targetNodeId_ s) (needSearch_ s)
    (resultSetChanged_ s) (pendingSearch_ s) (enablePartialScroll_ s) (nodesToShow_ s)
    (cacheMaxSize_ s) (scrollPrefetchSize_ s) (resultsBeforeTarget_ s) (resultsAfterTarget_ s)
    (lookupIt_ s) (trainNodes_ s) (previousCache_ s) (entry_names s) (infos s) (next_info s)
    (effects s) x.

Definition emit (e : Effect) (s : Cache) : Cache := set_effects (effects s ++ [e]) s.

(** The constructor; the other numbers and bits are left as the memory has them. *)
Definition new_Cache (memory : Cache) : Cache :=
  let s := set_enablePartialScroll false (set_nodesToShow kNodesToShowDefault
    (set_cacheMaxSize kCacheMaxSizeDefault (set_scrollPrefetchSize kScrollPrefetchSizeDefault memory))) in
  let s := set_targetNodeId 0 (set_topNodeId 0 s) in
  let s := set_previousCache [] (set_trainNodes (set_nodes [] (trainNodes_ s)) s) in
  set_wait Terminated (set_effects [] (set_next_info 1%positive (set_infos ∅ (set_entry_names [] s)))).

(** *** Settings; the bit fields have 3, 6 and 6 bits. *)

Definition set_cache_max_size (sz prefetch : Z) (s : Cache) : Cache :=
  set_scrollPrefetchSize (prefetch mod 2 ^ 6) (set_cacheMaxSize (sz mod 2 ^ 6) s).
Definition set_nodes_to_show (lines : Z) (s : Cache) : Cache := set_nodesToShow (lines mod 2 ^ 3) s.
Definition set_scroll_to_last_line (line : bool) (s : Cache) : Cache := set_enablePartialScroll line s.

(** ** Results *)

Definition scrolling_down (s : Cache) : bool :=
  if kMaxNode <=? maxResult_ s then true
  else if minResult_ s <=? kMinNode then false
  else true.

(** The loop over the nodes before [topNodeId_]. *)
Definition find_selection_offset (top : NodeID) (l : ResultList) : ResultList :=
  set_resultOffset (s16 (resultsClippedAtTop_ l + lower_bound (nodes_ l) top)) l.

(** One eviction of [add_to_list]. *)
Definition clip_at_end (s : Cache) (l : ResultList) : bool :=
  if min_node l <? minResult_ s then false
  else if maxResult_ s <? max_node l then true
  else scrolling_down s.

Definition evict (s : Cache) (l : ResultList) : ResultList :=
  if clip_at_end s l then
    set_newClippedAtBottom (u16 (newClippedAtBottom_ l + 1))
      (set_clippedAtBottom (u16 (resultsClippedAtBottom_ l + 1)) (set_nodes (pop_back (nodes_ l)) l))
  else
    let l := set_newClippedAtTop (u16 (newClippedAtTop_ l + 1))
      (set_clippedAtTop (u16 (resultsClippedAtTop_ l + 1)) (set_nodes (tail (nodes_ l)) l)) in
    if 0 <=? resultOffset_ l then set_resultOffset (s16 (resultOffset_ l + 1)) l else l.

(** The loop runs at most once per node. *)
Fixpoint evict_loop (fuel : nat) (s : Cache) (l : ResultList) : ResultList :=
  match fuel with
  | O => l
  | S fuel => if cacheMaxSize_ s <? zlen (nodes_ l) then evict_loop fuel s (evict s l) else l
  end.

(** [add_node] of [add_to_list]: within the range of the map, or of the request. *)
Definition is_wanted (s : Cache) (l : ResultList) (node : NodeID) : bool :=
  ((min_node l <=? node) && (node <=? max_node l)) ||
  ((minResult_ s <=? node) && (node <=? maxResult_ s)).

Definition note_added (s : Cache) (node : NodeID) (l : ResultList) : ResultList :=
  let l := if previousMaxNode_ l <? node
    then set_clippedAtBottom (u16 (resultsClippedAtBottom_ l - 1)) l else l in
  if node <? previousMinNode_ l then
    let l := set_clippedAtTop (u16 (resultsClippedAtTop_ l - 1)) l in
    if 0 <? resultOffset_ l then set_resultOffset (resultOffset_ l - 1) l else l
  else if node <? topNodeId_ s then
    if 0 <? resultOffset_ l then set_resultOffset (s16 (resultOffset_ l + 1)) l else l
  else l.

Definition note_clipped (s : Cache) (node : NodeID) (l : ResultList) : ResultList :=
  let l := if (node <? minResult_ s) && (node <? previousMinNode_ l)
    then set_newClippedAtTop (u16 (newClippedAtTop_ l + 1)) l else l in
  if (maxResult_ s <? node) && (previousMaxNode_ l <? node)
  then set_newClippedAtBottom (u16 (newClippedAtBottom_ l + 1)) l else l.

(** The info of a node: from the previous results, or a new one. *)
Definition info_of (node : NodeID) (s : Cache) : info_ptr * Cache :=
  match find_node (previousCache_ s) node with
  | Some p => (p, s)
  | None =>
      let p := next_info s in
      (p, set_next_info (Pos.succ p) (set_infos (<[p := mkInfo "" false]> (infos s)) s))
  end.

Definition add_to_list (node : NodeID) (s : Cache) : Cache :=
  let l := trainNodes_ s in
  match find_node (nodes_ l) node with
  | Some _ => s
  | None =>
      let '(l, s) :=
        if is_wanted s l node then
          let '(p, s) := info_of node s in
          (note_added s node (set_nodes (insert_node node p (nodes_ l)) l), s)
        else (note_clipped s node l, s) in
      set_trainNodes (evict_loop (length (nodes_ l)) s l) s
  end.

(** ** Output *)

(** [try_move_iterator]: where the iterator is afterwards, and the result. *)
Definition try_move_iterator (m : NodeCacheMap) (count it : Z) : Z * bool :=
  let to := it + count in
  if to <? 0 then (0, false) else if zlen m <? to then (zlen m, false) else (to, true).

Definition FLAGS_CLIPPED_AT_TOP : Z := 1.
Definition FLAGS_CLIPPED_AT_BOTTOM : Z := 2.
Definition FLAGS_NEED_REFILL_CACHE : Z := 4.
Definition FLAGS_TARGET_NOT_FOUND : Z := 8.

Definition key_at (m : NodeCacheMap) (it : Z) : option NodeID := fst <$> znth m it.

Section Output.
Context (guess_train_node_name : NodeID -> string).

Definition add_node_to_resultset (e : NodeID * info_ptr) (s : Cache) : Cache :=
  let '(id, p) := e in
  let s := match infos s !! p with
    | Some i =>
        if bool_decide (name_ i = ""%string)
        then set_infos (<[p := mkInfo (guess_train_node_name id) (hasNodeName_ i)]> (infos s)) s
        else s
    | None => s
    end in
  set_entry_names (push_back (entry_names s) p) s.

(** The entries between two iterators. *)
Definition slice (m : NodeCacheMap) (from to : Z) : NodeCacheMap :=
  take (Z.to_nat (to - from)) (drop (Z.to_nat from) m).

(** [update_ui_output]: the flags and the limits of a refill. *)
Definition update_ui_output (s : Cache) : (Z * NodeID * NodeID) * Cache :=
  let l := trainNodes_ s in
  let m := nodes_ l in
  let it := lower_bound m (targetNodeId_ s) in
  let flags0 := if bool_decide (key_at m it = Some (targetNodeId_ s)) then 0 else FLAGS_TARGET_NOT_FOUND in
  let '(itt, enough_top) := try_move_iterator m (- resultsBeforeTarget_ s) it in
  let '(flags1, refill_min) :=
    if negb enough_top then
      (if resultsClippedAtTop_ l =? 0 then 0 else Z.lor FLAGS_CLIPPED_AT_TOP FLAGS_NEED_REFILL_CACHE, kMinNode)
    else
      let '(itp, prefetched) := try_move_iterator m (- scrollPrefetchSize_ s) itt in
      if prefetched then (0, default kMinNode (key_at m itp))
      else (if resultsClippedAtTop_ l =? 0 then 0 else FLAGS_NEED_REFILL_CACHE, kMinNode) in
  let s := set_topNodeId (default 0 (key_at m itt)) s in
  let '(itb, enough_bottom) := try_move_iterator m (resultsAfterTarget_ s + 1) it in
  let '(flags2, refill_max) :=
    if negb enough_bottom then
      (if resultsClippedAtBottom_ l =? 0 then 0 else Z.lor FLAGS_CLIPPED_AT_BOTTOM FLAGS_NEED_REFILL_CACHE, kMaxNode)
    else
      let '(itp, prefetched) := try_move_iterator m (scrollPrefetchSize_ s) itb in
      if prefetched then (0, default kMaxNode (key_at m (itp - 1)))
      else (if resultsClippedAtBottom_ l =? 0 then 0 else FLAGS_NEED_REFILL_CACHE, kMaxNode) in
  let s := set_trainNodes (find_selection_offset (topNodeId_ s) l) s in
  let s := fold_left (fun s e => add_node_to_resultset e s) (slice m itt itb) (set_entry_names [] s) in
  ((Z.lor flags0 (Z.lor flags1 flags2), refill_min, refill_max), s).

Definition notify_ui : Cache -> Cache := emit NotifyUI.

(** ** The flow *)

Definition invoke_search (s : Cache) : Cache :=
  let s := set_pendingSearch true (set_needSearch true s) in
  match wait s with Terminated => set_wait WaitStart s | _ => s end.

Definition invoke_paginate (s : Cache) : Cache :=
  invoke_search (set_trainNodes (clear_to_paginate (finalize_search (trainNodes_ s))) s).

Definition send_search_request (s : Cache) : Cache :=
  set_wait WaitSearch (emit SendSearch (set_resultSetChanged false (set_needSearch false s))).

(** The next node at or after [lookupIt_] that has no name. *)
Definition nameless (s : Cache) (e : NodeID * info_ptr) : bool :=
  match infos s !! e.2 with Some i => negb (hasNodeName_ i) | None => false end.

Definition next_nameless (s : Cache) : option NodeID :=
  let m := nodes_ (trainNodes_ s) in
  fst <$> List.find (nameless s) (drop (Z.to_nat (lower_bound m (lookupIt_ s))) m).

(** [do_iter], [iter_results] and [iter_done] call each other: a pass over the
    results, or the end of one. *)
Definition iter_results (s : Cache) : Cache + Cache :=
  match next_nameless s with
  | Some id => inl (set_wait WaitQueryBuffer (set_lookupIt id s))
  | None => inr s
  end.

Definition refresh (s : Cache) : Cache :=
  let s := set_trainNodes (find_selection_offset (topNodeId_ s) (trainNodes_ s)) s in
  notify_ui (snd (update_ui_output s)).

Definition do_iter (s : Cache) : Cache :=
  match iter_results (set_lookupIt kMinNode (set_resultSetChanged false s)) with
  | inl s => s
  | inr s =>
      let s := refresh s in
      if needSearch_ s then send_search_request s else set_wait Terminated s
  end.

Definition iter_done (s : Cache) : Cache :=
  let s := refresh s in
  if needSearch_ s then send_search_request s
  else if resultSetChanged_ s then do_iter s
  else set_wait Terminated s.

Definition continue_iter (s : Cache) : Cache :=
  match iter_results s with inl s => s | inr s => iter_done s end.

Definition search_done (s : Cache) : Cache :=
  let s := refresh s in
  if needSearch_ s then send_search_request s else do_iter (set_pendingSearch false s).

(** [send_query] and [send_query_done] *)
Definition send_query (s : Cache) : Cache :=
  set_wait WaitQuerySent (emit (SendQuery (lookupIt_ s)) s).

Definition send_query_done (s : Cache) : Cache :=
  continue_iter (set_lookupIt (u64 (lookupIt_ s + 1)) s).

(** *** Requests of the user *)

Definition reset_search (s : Cache) : Cache :=
  let s := set_targetNodeId kMinNode (set_topNodeId kMinNode (set_maxResult kMaxNode (set_minResult kMinNode s))) in
  let s := set_resultsAfterTarget ((nodesToShow_ s - 1) mod 2 ^ 4) (set_resultsBeforeTarget 0 s) in
  let s := set_previousCache (nodes_ (trainNodes_ s)) s in
  invoke_search (set_trainNodes (reset_results (trainNodes_ s)) s).

Definition cancel (s : Cache) : Cache := set_needSearch false s.

Definition first_result_offset (s : Cache) : Z := u32 (resultOffset_ (trainNodes_ s)).

(** [None] when [end()] is dereferenced. *)
Definition get_result_id (offset : Z) (s : Cache) : option NodeID :=
  let m := nodes_ (trainNodes_ s) in
  let '(it, ok) := try_move_iterator m (s32 offset) (lower_bound m (topNodeId_ s)) in
  if negb ok then Some 0
  else match znth (entry_names s) offset with
    | None => Some 0
    | Some p =>
        '(id, q) ← znth m it;
        Some (if (p =? q)%positive then id else 0)
    end.

Definition scroll_to (target_node : NodeID) (num_before num_after : Z) (s : Cache) : Z * Cache :=
  let s := set_resultsAfterTarget (num_after mod 2 ^ 4)
    (set_resultsBeforeTarget (num_before mod 2 ^ 4) (set_targetNodeId target_node s)) in
  let '((flags, refill_min, refill_max), s) := update_ui_output s in
  if has_bits flags FLAGS_NEED_REFILL_CACHE && negb (pendingSearch_ s)
  then (flags, invoke_paginate (set_maxResult refill_max (set_minResult refill_min s)))
  else (flags, s).

Definition scroll_down (s : Cache) : bool * Cache :=
  let m := nodes_ (trainNodes_ s) in
  let '(it, ok) := try_move_iterator m 1 (lower_bound m (topNodeId_ s)) in
  if negb ok then (false, s)
  else
    let '(_, fits) := try_move_iterator m (if enablePartialScroll_ s then 1 else nodesToShow_ s) it in
    if negb fits then (false, s)
    else match key_at m it with
      | Some id => (true, snd (scroll_to id 0 (u16 (nodesToShow_ s - 1)) s))
      | None => (true, s)
      end.

Definition scroll_up (s : Cache) : bool * Cache :=
  let m := nodes_ (trainNodes_ s) in
  let '(it, ok) := try_move_iterator m (-1) (lower_bound m (topNodeId_ s)) in
  if negb ok then (false, s)
  else match key_at m it with
    | Some id => (true, snd (scroll_to id 0 (u16 (nodesToShow_ s - 1)) s))
    | None => (true, s)
    end.

(** *** Messages *)

Definition result_callback (node : NodeID) (s : Cache) : Cache :=
  if node =? 0 then s
  else
    let s := set_resultSetChanged true (add_to_list node s) in
    match wait s with Terminated => set_wait WaitIter s | _ => s end.

Definition snip_name (d : SnipDecodedData) : option string :=
  let nonempty n := negb (bool_decide (n = ""%string)) in
  if nonempty (user_name d) then Some (user_name d)
  else if nonempty (user_description d) then Some (user_description d)
  else if nonempty (model_name d) then Some (model_name d)
  else if nonempty (manufacturer_name d) then Some (manufacturer_name d)
  else None.

Definition handle_snip_response (src : NodeID) (d : SnipDecodedData) (s : Cache) : Cache :=
  if src =? 0 then s
  else match find_node (nodes_ (trainNodes_ s)) src with
    | None => s
    | Some p =>
        match infos s !! p, snip_name d with
        | Some i, Some n =>
            if hasNodeName_ i then s
            else
              let s := set_infos (<[p := mkInfo n true]> (infos s)) s in
              if bool_decide (p ∈ entry_names s) then notify_ui s else s
        | _, _ => s
        end
    end.

Inductive event :=
| UserReset
| UserCancel
| UserScrollTo (target : NodeID) (before after : Z)
| UserDown
| UserUp
| FlowStart
| SearchDone
| QueryBuffer
| QuerySent
| Result (node : NodeID)
| SnipResponse (src : NodeID) (d : SnipDecodedData).

Definition step (e : event) (s : Cache) : option Cache :=
  match e, wait s with
  | UserReset, _ => Some (reset_search s)
  | UserCancel, _ => Some (cancel s)
  | UserScrollTo t b a, _ => Some (snd (scroll_to t b a s))
  | UserDown, _ => Some (snd (scroll_down s))
  | UserUp, _ => Some (snd (scroll_up s))
  | FlowStart, WaitStart => Some (send_search_request s)
  | FlowStart, WaitIter => Some (do_iter s)
  | SearchDone, WaitSearch => Some (search_done s)
  | QueryBuffer, WaitQueryBuffer => Some (send_query s)
  | QuerySent, WaitQuerySent => Some (send_query_done s)
  | Result n, _ => Some (result_callback n s)
  | SnipResponse src d, _ => Some (handle_snip_response src d s)
  | _, _ => None
  end.

End Output.
