(* ===== verification/TrainCacheWindow.v ===== *)
(** The cache of search results is a window on the sorted list of all the
    trains that answer: what a search does to it, answer by answer, and what
    remains true over any sequence of scrolling and searching. *)

From stdpp Require Import sorting.
From S2P Require Import Prelude TrainNodeInfoCache.

Definition keys (l : ResultList) : list NodeID := (nodes_ l).*1.

(** ** Entries of the map *)

Lemma find_node_None m id : find_node m id = None <-> id ∉ m.*1.
Proof.
  induction m as [|[k p] m IH]; simpl; [split; [intros _; apply not_elem_of_nil | done]|].
  rewrite not_elem_of_cons. destruct (Z.eqb_spec k id) as [->|Hne].
  - split; [done|intros [? _]; done].
  - rewrite IH. split; [intros H; split; [congruence | done] | by intros []].
Qed.

Lemma find_node_Some m id p : find_node m id = Some p -> id ∈ m.*1.
Proof.
  intros H. destruct (decide (id ∈ m.*1)) as [|Hn]; [done|].
  apply find_node_None in Hn. congruence.
Qed.

(** A new key splits a sorted map. *)
Lemma insert_node_split id p m :
  ascending m.*1 -> id ∉ m.*1 ->
  exists l1 l2, m.*1 = l1 ++ l2 /\ (insert_node id p m).*1 = l1 ++ id :: l2 /\
    Forall (fun k => k < id) l1 /\ Forall (fun k => id < k) l2.
Proof.
  induction m as [|[k q] m IH]; simpl; intros Hs Hn.
  - exists [], []; repeat split; auto.
  - apply StronglySorted_inv in Hs as [Hs Hk]. rewrite not_elem_of_cons in Hn.
    destruct Hn as [Hk' Hn]. destruct (Z.ltb_spec k id) as [Hlt|Hge].
    + destruct (IH Hs Hn) as (l1 & l2 & E1 & E2 & H1 & H2).
      exists (k :: l1), l2. repeat split; [by apply (f_equal (cons k)) | by apply (f_equal (cons k)) | by constructor | done].
    + exists [], (k :: m.*1). repeat split; auto. constructor; [lia|].
      eapply Forall_impl; [exact Hk | simpl; intros; lia].
Qed.

Lemma insert_node_keys id p m :
  ascending m.*1 -> id ∉ m.*1 ->
  ascending (insert_node id p m).*1 /\ (insert_node id p m).*1 ≡ₚ id :: m.*1.
Proof.
  intros Hs Hn. destruct (insert_node_split id p m Hs Hn) as (l1 & l2 & E1 & E2 & H1 & H2).
  rewrite E2, E1. rewrite E1 in Hs. apply ascending_app in Hs as (S1 & S2 & S3).
  rewrite Forall_forall in H1, H2. split; [|symmetry; apply Permutation_middle].
  apply ascending_app. repeat split; [done | by apply ascending_cons|].
  intros x y Hx [->|Hy]%elem_of_cons; [by apply H1 | by apply S3].
Qed.

Lemma min_node_cons l x ks : keys l = x :: ks -> min_node l = x.
Proof. unfold keys, min_node. destruct (nodes_ l) as [|[k p] m]; simpl; congruence. Qed.

Lemma max_node_snoc l x ks : keys l = ks ++ [x] -> max_node l = x.
Proof.
  unfold keys, max_node, back. intros H.
  assert (Hl : last (nodes_ l).*1 = Some x) by (rewrite H; apply last_snoc).
  rewrite fmap_last in Hl. destruct (last (nodes_ l)) as [[k p]|]; simpl in Hl; congruence.
Qed.

Lemma zlen_keys l : zlen (nodes_ l) = zlen (keys l).
Proof. unfold zlen, keys. by rewrite length_fmap. Qed.

(** ** One answer *)

Lemma add_known n s : n ∈ keys (trainNodes_ s) -> add_to_list n s = s.
Proof.
  intros H. unfold add_to_list. destruct (find_node _ n) as [p|] eqn:E; [done|].
  by apply find_node_None in E.
Qed.

Lemma info_of_frame n s p s' :
  info_of n s = (p, s') ->
  trainNodes_ s' = trainNodes_ s /\ minResult_ s' = minResult_ s /\ maxResult_ s' = maxResult_ s /\
  cacheMaxSize_ s' = cacheMaxSize_ s /\ topNodeId_ s' = topNodeId_ s.
Proof. unfold info_of. destruct (find_node _ n); intros [= <- <-]; auto. Qed.

Lemma evict_loop_done fuel s l : zlen (keys l) <= cacheMaxSize_ s -> evict_loop fuel s l = l.
Proof.
  intros H. rewrite <- zlen_keys in H. destruct fuel; simpl; [done|].
  by destruct (Z.ltb_spec (cacheMaxSize_ s) (zlen (nodes_ l))); [lia|].
Qed.

Lemma evict_frame s s' l :
  minResult_ s' = minResult_ s -> maxResult_ s' = maxResult_ s -> evict s' l = evict s l.
Proof. intros E1 E2. unfold evict, clip_at_end, scrolling_down. by rewrite E1, E2. Qed.

Lemma evict_size s l : keys l <> [] -> zlen (keys (evict s l)) = zlen (keys l) - 1.
Proof.
  intros Hne. rewrite <- !zlen_keys. unfold keys, evict in *.
  destruct l as [m ? ? ? ? ? ? ?]; simpl in *. destruct (clip_at_end s _); cbn -[u16 s16 zlen Z.leb].
  - destruct m as [|e m] using rev_ind; [done|]. unfold pop_back. rewrite removelast_last, zlen_snoc. lia.
  - destruct m as [|e m]; [done|]. destruct (0 <=? _); simpl; rewrite zlen_cons; lia.
Qed.

(** What an answer makes of the lists, ids and counts of a result. *)
Record Outline := mkOutline {
  o_keys : list NodeID;
  o_top : Z; o_bottom : Z; o_newTop : Z; o_newBottom : Z
}.

Definition outline (l : ResultList) : Outline :=
  mkOutline (keys l) (resultsClippedAtTop_ l) (resultsClippedAtBottom_ l)
    (newClippedAtTop_ l) (newClippedAtBottom_ l).

Definition same_limits (l' l : ResultList) : Prop :=
  previousMinNode_ l' = previousMinNode_ l /\ previousMaxNode_ l' = previousMaxNode_ l.

Lemma evict_limits s l : same_limits (evict s l) l.
Proof. unfold evict. destruct (clip_at_end s l); [done|]. destruct l. cbn -[u16 s16 Z.leb]. by destruct (0 <=? _). Qed.

Lemma evict_top s l x ks :
  keys l = x :: ks -> clip_at_end s l = false ->
  same_limits (evict s l) l /\
  outline (evict s l) = mkOutline ks (u16 (resultsClippedAtTop_ l + 1)) (resultsClippedAtBottom_ l)
    (u16 (newClippedAtTop_ l + 1)) (newClippedAtBottom_ l).
Proof.
  intros E Hc. unfold evict. rewrite Hc. unfold keys in E.
  destruct (nodes_ l) as [|[k p] m] eqn:Em; [done|]. injection E as <- E2.
  destruct l; simpl in Em; subst; unfold outline, keys; cbn -[u16 s16 zlen Z.leb]; destruct (0 <=? _); split; done.
Qed.

Lemma pop_back_keys m ks x : m.*1 = ks ++ [x] -> (pop_back m : NodeCacheMap).*1 = ks.
Proof.
  intros E. destruct m as [|[k p] m] using rev_ind; [by destruct ks|].
  unfold pop_back. rewrite removelast_last. rewrite fmap_app in E. simpl in E. by apply app_inj_tail in E as [? _].
Qed.

Lemma evict_end s l x ks :
  keys l = ks ++ [x] -> clip_at_end s l = true ->
  same_limits (evict s l) l /\
  outline (evict s l) = mkOutline ks (resultsClippedAtTop_ l) (u16 (resultsClippedAtBottom_ l + 1))
    (newClippedAtTop_ l) (u16 (newClippedAtBottom_ l + 1)).
Proof.
  intros E Hc. unfold evict. rewrite Hc. unfold keys in E. apply pop_back_keys in E.
  split; [done|]. destruct l; unfold outline, keys; cbn -[u16]; by f_equal.
Qed.

(** An answer outside both ranges is counted, if it was not known. *)
Lemma add_skipped n s (l := trainNodes_ s) :
  n ∉ keys l -> is_wanted s l n = false -> zlen (keys l) <= cacheMaxSize_ s ->
  let l' := trainNodes_ (add_to_list n s) in
  same_limits l' l /\
  outline l' = mkOutline (keys l) (resultsClippedAtTop_ l) (resultsClippedAtBottom_ l)
    (if (n <? minResult_ s) && (n <? previousMinNode_ l) then u16 (newClippedAtTop_ l + 1) else newClippedAtTop_ l)
    (if (maxResult_ s <? n) && (previousMaxNode_ l <? n) then u16 (newClippedAtBottom_ l + 1) else newClippedAtBottom_ l).
Proof.
  intros Hn Hw Hm l'. subst l'. unfold add_to_list. fold l.
  apply find_node_None in Hn. rewrite Hn, Hw. simpl.
  assert (Ek : keys (note_clipped s n l) = keys l).
  { unfold note_clipped. by destruct (_ && _), (_ && _). }
  rewrite evict_loop_done by (rewrite Ek; done).
  unfold note_clipped, same_limits, outline, keys. destruct l.
  by destruct (n <? _), (n <? _); simpl; repeat (destruct (_ <? _); simpl).
Qed.

(** An answer inside is added, and the counts of the earlier results drop. *)
Definition added (n : NodeID) (p : info_ptr) (s : Cache) (l : ResultList) : ResultList :=
  note_added s n (set_nodes (insert_node n p (nodes_ l)) l).

Lemma added_outline n p s l :
  same_limits (added n p s l) l /\
  outline (added n p s l) = mkOutline (insert_node n p (nodes_ l)).*1
    (if n <? previousMinNode_ l then u16 (resultsClippedAtTop_ l - 1) else resultsClippedAtTop_ l)
    (if previousMaxNode_ l <? n then u16 (resultsClippedAtBottom_ l - 1) else resultsClippedAtBottom_ l)
    (newClippedAtTop_ l) (newClippedAtBottom_ l).
Proof.
  unfold added, note_added, same_limits, outline, keys. destruct l. simpl.
  destruct (_ <? n); simpl; destruct (n <? _); simpl; repeat (destruct (_ <? _); simpl); done.
Qed.

Lemma add_wanted n s (l := trainNodes_ s) :
  n ∉ keys l -> ascending (keys l) -> is_wanted s l n = true -> zlen (keys l) <= cacheMaxSize_ s ->
  exists p, trainNodes_ (add_to_list n s) =
    let l' := added n p s l in if zlen (keys l) <? cacheMaxSize_ s then l' else evict s l'.
Proof.
  intros Hn Hs Hw Hm. unfold add_to_list. fold l.
  pose proof Hn as Hf. apply find_node_None in Hf. rewrite Hf, Hw.
  destruct (info_of n s) as [p s'] eqn:Ei. apply info_of_frame in Ei as (El & E1 & E2 & E3 & E4).
  exists p. simpl.
  assert (Ea : note_added s' n (set_nodes (insert_node n p (nodes_ l)) l) = added n p s l).
  { unfold added, note_added. by rewrite E4. }
  rewrite Ea. destruct (added_outline n p s l) as [_ Ho]. injection Ho as Hk _ _ _ _.
  destruct (insert_node_keys n p (nodes_ l) Hs Hn) as [_ Hperm].
  assert (Hz : zlen (keys (added n p s l)) = zlen (keys l) + 1).
  { rewrite Hk. unfold keys, zlen. rewrite Hperm, length_cons. apply Nat2Z.inj_succ. }
  destruct (Z.ltb_spec (zlen (keys l)) (cacheMaxSize_ s)) as [Hlt|Hge].
  - apply evict_loop_done. rewrite E3. lia.
  - destruct (length (nodes_ (added n p s l))) as [|fuel] eqn:Ef.
    { rewrite <- zlen_keys in Hz. unfold zlen in Hz. rewrite Ef in Hz.
      pose proof (zlen_nonneg (keys l)). lia. }
    simpl. rewrite zlen_keys, Hz, E3. destruct (Z.ltb_spec (cacheMaxSize_ s) (zlen (keys l) + 1)); [|lia].
    rewrite (evict_frame s s') by done. apply evict_loop_done.
    rewrite evict_size, Hz, E3 by (intros E; rewrite E in Hz; pose proof (zlen_nonneg (keys l)); rewrite zlen_nil in Hz; lia). lia.
Qed.

Lemma not_wanted_below n s l :
  keys l <> [] -> (forall k, k ∈ keys l -> n < k) -> n < minResult_ s -> is_wanted s l n = false.
Proof.
  intros Hne Hk Hlo. destruct (keys l) as [|x ks] eqn:E; [done|]. unfold is_wanted.
  rewrite (min_node_cons l x ks E). specialize (Hk x ltac:(by left)).
  destruct (Z.leb_spec x n), (Z.leb_spec (minResult_ s) n); [lia.. | done].
Qed.

Lemma not_wanted_above n s l :
  keys l <> [] -> (forall k, k ∈ keys l -> k < n) -> maxResult_ s < n -> is_wanted s l n = false.
Proof.
  intros Hne Hk Hhi. destruct (keys l) as [|x ks _] eqn:E using rev_ind; [done|]. unfold is_wanted.
  rewrite (max_node_snoc l x ks E). specialize (Hk x ltac:(apply elem_of_app; right; by left)).
  destruct (Z.leb_spec n x), (Z.leb_spec n (maxResult_ s)); [lia.. |]. by rewrite !andb_false_r.
Qed.

Lemma wanted_within n s l : minResult_ s <= n <= maxResult_ s -> is_wanted s l n = true.
Proof.
  intros H. unfold is_wanted. destruct (Z.leb_spec (minResult_ s) n), (Z.leb_spec n (maxResult_ s)); try lia.
Qed.

(** ** A search

    [C] are the nodes of the cache when the search begins, [W] all those that
    answer, each once, and [R] those that have still to answer.  [T] and [B]
    are the nodes that are clipped by now. *)

Section Search.

Context (C W : list NodeID) (max lo pm pM : Z).
Context (Hmax : 0 < max) (HW : NoDup W) (HWlen : zlen W < 2 ^ 16).
Context (HC : forall c, c ∈ C -> pm <= c <= pM) (HCd : NoDup C) (Hpm : pm <= pM).

Abbreviation before R := (filter (fun n => n < pm) R).
Abbreviation after R := (filter (fun n => pM < n) R).
Abbreviation unknown R := (filter (fun n => n ∉ C) R).

Record tally (R T B : list NodeID) (o : Outline) : Prop := {
  ta_sorted : ascending (o_keys o);
  ta_known : T ++ o_keys o ++ B ++ unknown R ≡ₚ W;
  ta_old : forall c, c ∈ C -> c ∈ T ++ o_keys o ++ B;
  ta_counts : o = mkOutline (o_keys o) (zlen T + zlen (before R)) (zlen B + zlen (after R)) (zlen T) (zlen B)
}.

Lemma zlen_filter_impl (P Q : NodeID -> Prop) `{!forall x, Decision (P x)} `{!forall x, Decision (Q x)} l :
  (forall x, P x -> Q x) -> zlen (filter P l) <= zlen (filter Q l).
Proof.
  intros Himp. induction l as [|x l IH]; [done|]. rewrite !filter_cons.
  destruct (decide (P x)) as [Hp|Hp], (decide (Q x)) as [Hq|Hq]; rewrite ?zlen_cons; try lia.
  by apply Himp in Hp.
Qed.

Lemma tally_bounds R T B o :
  tally R T B o ->
  zlen T + zlen (before R) + zlen (o_keys o) + zlen B < 2 ^ 16 /\
  zlen T + zlen (after R) + zlen (o_keys o) + zlen B < 2 ^ 16.
Proof.
  intros [_ Hk _ _]. apply Permutation_length in Hk. rewrite !length_app in Hk.
  assert (H1 : zlen (before R) <= zlen (unknown R))
    by (apply zlen_filter_impl; intros x Hx Hi; apply HC in Hi; lia).
  assert (H2 : zlen (after R) <= zlen (unknown R))
    by (apply zlen_filter_impl; intros x Hx Hi; apply HC in Hi; lia).
  unfold zlen in *. lia.
Qed.

Lemma u16_small z : 0 <= z < 2 ^ 16 -> u16 z = z.
Proof. intros H. unfold u16. by apply Z.mod_small. Qed.

Ltac in_app :=
  do 2 rewrite ?elem_of_cons, ?elem_of_app, ?list_elem_of_singleton in *; tauto.

Ltac tally_start :=
  match goal with
  | H : tally _ _ _ _ |- _ =>
      pose proof (tally_bounds _ _ _ _ H) as [Hb1 Hb2];
      destruct H as [Hs Hk Ho Hc]; repeat rewrite filter_cons in Hc;
      rewrite filter_cons in Hb1, Hb2; rewrite filter_cons in Hk
  end.

Lemma tally_old n R T B o : n ∈ C -> tally (n :: R) T B o -> tally R T B o.
Proof.
  intros Hn Ht. tally_start. pose proof (HC n Hn).
  rewrite decide_False in Hk by tauto. rewrite !decide_False in Hc by lia. by split.
Qed.

Lemma tally_skip_top n R T B o :
  n ∉ C -> n < pm -> tally (n :: R) T B o ->
  tally R (n :: T) B (mkOutline (o_keys o) (o_top o) (o_bottom o) (u16 (o_newTop o + 1)) (o_newBottom o)).
Proof.
  intros Hn Hlt Ht. tally_start.
  rewrite decide_True in Hk by done. rewrite decide_True in Hc, Hb1 by done. rewrite decide_False in Hc by lia.
  pose proof (zlen_nonneg T). pose proof (zlen_nonneg B). pose proof (zlen_nonneg (o_keys o)).
  rewrite zlen_cons in Hc, Hb1. pose proof (zlen_nonneg (before R)).
  split; simpl; [done | rewrite <- Hk | intros c Hc'; specialize (Ho c Hc'); in_app|].
  - solve_Permutation.
  - rewrite Hc. simpl. rewrite !zlen_cons, u16_small by lia. f_equal; lia.
Qed.

Lemma tally_skip_bottom n R T B o :
  n ∉ C -> pM < n -> tally (n :: R) T B o ->
  tally R T (n :: B) (mkOutline (o_keys o) (o_top o) (o_bottom o) (o_newTop o) (u16 (o_newBottom o + 1))).
Proof.
  intros Hn Hlt Ht. tally_start.
  rewrite decide_True in Hk by done. rewrite decide_False in Hc by lia.
  rewrite decide_True in Hc, Hb2 by done.
  pose proof (zlen_nonneg T). pose proof (zlen_nonneg B). pose proof (zlen_nonneg (o_keys o)).
  rewrite zlen_cons in Hc, Hb2. pose proof (zlen_nonneg (after R)).
  split; simpl; [done | rewrite <- Hk | intros c Hc'; specialize (Ho c Hc'); in_app|].
  - solve_Permutation.
  - rewrite Hc. simpl. rewrite !zlen_cons, u16_small by lia. f_equal; lia.
Qed.

Lemma tally_add n ks R T B o :
  n ∉ C -> ascending ks -> ks ≡ₚ n :: o_keys o -> tally (n :: R) T B o ->
  tally R T B (mkOutline ks (if n <? pm then u16 (o_top o - 1) else o_top o)
    (if pM <? n then u16 (o_bottom o - 1) else o_bottom o) (o_newTop o) (o_newBottom o)).
Proof.
  intros Hn Hs' Hp Ht. tally_start. rewrite decide_True in Hk by done.
  pose proof (zlen_nonneg T). pose proof (zlen_nonneg B). pose proof (zlen_nonneg (o_keys o)).
  split; simpl; [done | rewrite <- Hk, Hp; solve_Permutation | |].
  - intros c Hc'. specialize (Ho c Hc'). rewrite Hp. in_app.
  - pose proof (zlen_nonneg (before R)). pose proof (zlen_nonneg (after R)). rewrite Hc. simpl.
    destruct (decide (n < pm)), (decide (pM < n)), (Z.ltb_spec n pm), (Z.ltb_spec pM n); try lia;
      rewrite ?zlen_cons in *; f_equal; rewrite ?u16_small; lia.
Qed.

Lemma tally_evict_top x ks R T B o :
  o_keys o = x :: ks -> tally R T B o ->
  tally R (x :: T) B (mkOutline ks (u16 (o_top o + 1)) (o_bottom o) (u16 (o_newTop o + 1)) (o_newBottom o)).
Proof.
  intros E Ht. pose proof (tally_bounds _ _ _ _ Ht) as [Hb1 Hb2]. destruct Ht as [Hs Hk Ho Hc].
  rewrite E in *. apply ascending_cons in Hs as [Hs _].
  pose proof (zlen_nonneg T). pose proof (zlen_nonneg B). pose proof (zlen_nonneg ks).
  pose proof (zlen_nonneg (before R)). rewrite zlen_cons in Hb1.
  split; simpl; [done | rewrite <- Hk; solve_Permutation | intros c Hc'; specialize (Ho c Hc'); in_app|].
  rewrite Hc. simpl. rewrite zlen_cons, !u16_small by lia. f_equal; lia.
Qed.

Lemma tally_evict_bottom x ks R T B o :
  o_keys o = ks ++ [x] -> tally R T B o ->
  tally R T (x :: B) (mkOutline ks (o_top o) (u16 (o_bottom o + 1)) (o_newTop o) (u16 (o_newBottom o + 1))).
Proof.
  intros E Ht. pose proof (tally_bounds _ _ _ _ Ht) as [Hb1 Hb2]. destruct Ht as [Hs Hk Ho Hc].
  rewrite E in *. apply ascending_snoc in Hs as [Hs _].
  pose proof (zlen_nonneg T). pose proof (zlen_nonneg B). pose proof (zlen_nonneg ks).
  pose proof (zlen_nonneg (after R)). rewrite zlen_snoc in Hb2.
  split; simpl; [done | rewrite <- Hk; solve_Permutation | intros c Hc'; specialize (Ho c Hc'); in_app|].
  rewrite Hc. simpl. rewrite zlen_cons, !u16_small by lia. f_equal; lia.
Qed.

Lemma tally_fresh n R T B o : n ∉ C -> tally (n :: R) T B o -> n ∉ T ++ o_keys o ++ B.
Proof.
  intros Hn [_ Hk _ _] Hi. rewrite filter_cons, decide_True in Hk by done.
  assert (Hd : NoDup ((T ++ o_keys o ++ B) ++ n :: unknown R)).
  { rewrite <- !app_assoc. by rewrite Hk. }
  apply NoDup_app in Hd as (_ & Hd & _). apply (Hd n Hi). by left.
Qed.

Lemma tally_perm R R' T B o : R ≡ₚ R' -> tally R T B o -> tally R' T B o.
Proof.
  intros Hp [Hs Hk Ho Hc]. split; [done | by rewrite <- Hp | done|].
  assert (E : forall (P : NodeID -> Prop) `{!forall x, Decision (P x)}, zlen (filter P R') = zlen (filter P R))
    by (intros P ?; unfold zlen; by rewrite Hp).
  by rewrite !E.
Qed.

Record progress (R T B : list NodeID) (o : Outline) : Prop := {
  pr_tally : tally R T B o;
  pr_len : zlen C <= zlen (o_keys o) <= max;
  pr_top : forall t n, t ∈ T -> n ∈ o_keys o -> t < n;
  pr_bottom : forall b n, b ∈ B -> n ∈ o_keys o -> n < b;
  pr_full : T <> [] \/ B <> [] -> zlen (o_keys o) = max
}.

(** *** Downwards: everything from [lo] on is wanted. *)

Record going_down (R T B : list NodeID) (o : Outline) : Prop := {
  gd_progress : progress R T B o;
  gd_expected : forall n, n ∈ R -> n ∈ C \/ (n < pm /\ n < lo /\ zlen C = max) \/
    (lo <= n /\ pm <= n /\ forall c, c ∈ C -> c < n);
  gd_kept : forall x, x ∈ o_keys o -> x ∈ C \/ (forall c, c ∈ C -> c < x);
  gd_T : forall t, t ∈ T -> t < lo;
  gd_B : forall b, b ∈ B -> b ∉ C;
  gd_Blo : B <> [] -> forall n, n ∈ o_keys o -> lo <= n
}.

Lemma keys_outgrow ks : ascending ks -> zlen C < zlen ks -> exists y, y ∈ ks /\ y ∉ C.
Proof.
  intros Hs Hlen. destruct (decide (Forall (fun y => y ∈ C) ks)) as [Ha|He].
  - rewrite Forall_forall in Ha. apply ascending_NoDup in Hs.
    assert (ks ⊆+ C) as Hsub by (by apply NoDup_submseteq).
    apply submseteq_length in Hsub. unfold zlen in Hlen. lia.
  - apply not_Forall_Exists in He; [|apply _]. apply Exists_exists in He as (y & Hy & Hn). by exists y.
Qed.

Lemma added_in n ks o x : ks ≡ₚ n :: o_keys o -> x ∈ ks <-> x = n \/ x ∈ o_keys o.
Proof. intros ->. apply elem_of_cons. Qed.

Lemma added_size n ks o : ks ≡ₚ n :: o_keys o -> zlen ks = zlen (o_keys o) + 1.
Proof. intros Hp. unfold zlen. rewrite Hp, length_cons. lia. Qed.

Section DownAdd.

Context (n : NodeID) (R T B ks : list NodeID) (o o' : Outline).
Context (Hlo : lo <= n) (Hn : forall c, c ∈ C -> c < n).
Context (Hp : ks ≡ₚ n :: o_keys o) (Hk : o_keys o' = ks).
Context (Hg : going_down (n :: R) T B o) (Ht : tally R T B o').

Lemma down_fits : zlen (o_keys o) < max -> going_down R T B o'.
Proof using All.
  intros Hlt. destruct Hg as [[_ Hlen _ _ Hfull] He Hkept HT HB HBlo].
  assert (Hnil : T = [] /\ B = []).
  { destruct T, B; split; try done; exfalso; (rewrite Hfull in Hlt; [lia | first [by left | by right]]). }
  destruct Hnil as [-> ->]. pose proof (added_size n ks o Hp) as Hz.
  split; [split | ..]; rewrite ?Hk; try done.
  - lia.
  - intros ? ? H. by apply elem_of_nil in H.
  - intros ? ? H. by apply elem_of_nil in H.
  - by intros [].
  - intros m Hm. apply He. by right.
  - intros x Hx. apply (added_in n ks o x Hp) in Hx as [->|Hx]; [by right | by apply Hkept].
Qed.

Lemma down_evict_top x ks' :
  ks = x :: ks' -> x < lo -> zlen (o_keys o) = max ->
  going_down R (x :: T) B (mkOutline ks' (u16 (o_top o' + 1)) (o_bottom o') (u16 (o_newTop o' + 1)) (o_newBottom o')).
Proof using All.
  intros E Hx Hz. destruct Hg as [[_ Hlen Htop _ Hfull] He Hkept HT HB HBlo].
  pose proof (added_size n ks o Hp) as Hz'. rewrite E, zlen_cons in Hz'.
  pose proof (ta_sorted _ _ _ _ Ht) as Hs. rewrite Hk, E in Hs. apply ascending_cons in Hs as [Hs Hx'].
  assert (Hin : forall y, y ∈ ks' -> y = n \/ y ∈ o_keys o)
    by (intros y Hy; apply (added_in n ks o y Hp); rewrite E; by right).
  assert (HB0 : B = []).
  { destruct (decide (B = [])) as [|Hb]; [done|]. assert (Hi : x ∈ ks) by (rewrite E; by left).
    apply (added_in n ks o x Hp) in Hi as [->|Hi]; [lia|]. specialize (HBlo Hb x Hi). lia. }
  subst B. split; [split | ..]; simpl.
  - apply tally_evict_top; [by rewrite Hk | done].
  - lia.
  - intros t y [->|Hi]%elem_of_cons Hy; [by apply Hx'|].
    destruct (Hin y Hy) as [->|Hy']; [apply HT in Hi; lia | by apply Htop].
  - intros ? ? H. by apply elem_of_nil in H.
  - intros _. lia.
  - intros m Hm. apply He. by right.
  - intros y Hy. destruct (Hin y Hy) as [->|Hy']; [by right | by apply Hkept].
  - intros t [->|Hi]%elem_of_cons; [done | by apply HT].
  - done.
  - done.
Qed.

Lemma down_evict_bottom x ks' :
  ks = ks' ++ [x] -> (forall y, y ∈ ks -> lo <= y) -> zlen (o_keys o) = max ->
  going_down R T (x :: B) (mkOutline ks' (o_top o') (u16 (o_bottom o' + 1)) (o_newTop o') (u16 (o_newBottom o' + 1))).
Proof using All.
  intros E Hx Hz. destruct Hg as [[_ Hlen _ Hbot Hfull] He Hkept HT HB HBlo].
  pose proof (added_size n ks o Hp) as Hz'.
  pose proof (ta_sorted _ _ _ _ Ht) as Hs. rewrite Hk in Hs. pose proof Hs as Hs'.
  rewrite E in Hs, Hz'. apply ascending_snoc in Hs as [Hs Hx']. rewrite zlen_snoc in Hz'.
  assert (Hks : forall y, y ∈ ks' -> y ∈ ks) by (intros y Hy; rewrite E; apply elem_of_app; by left).
  assert (Hin : forall y, y ∈ ks -> y = n \/ y ∈ o_keys o) by (intros y Hy; by apply (added_in n ks o y Hp)).
  assert (Hxk : x ∈ ks) by (rewrite E; apply elem_of_app; right; by left).
  assert (Hnew : forall y, y ∈ ks -> y ∈ C \/ forall c, c ∈ C -> c < y).
  { intros y Hy. destruct (Hin y Hy) as [->|Hy']; [by right | by apply Hkept]. }
  split; [split | ..]; simpl.
  - apply tally_evict_bottom; [by rewrite Hk | done].
  - lia.
  - intros t y Hi Hy. apply HT in Hi. specialize (Hx y (Hks y Hy)). lia.
  - intros b y [->|Hi]%elem_of_cons Hy; [by apply Hx'|]. specialize (Hx' y Hy).
    destruct (Hin y (Hks y Hy)) as [->|Hy']; [|by apply Hbot].
    destruct (Hin x Hxk) as [->|Hx'']; [lia|]. specialize (Hbot b x Hi Hx''). lia.
  - intros _. lia.
  - intros m Hm. apply He. by right.
  - intros y Hy. by apply Hnew, Hks.
  - done.
  - intros b [->|Hi]%elem_of_cons; [|by apply HB]. intros HxC.
    destruct (keys_outgrow ks Hs') as (y & Hy & Hyn); [rewrite E, zlen_snoc; lia|].
    destruct (Hnew y Hy) as [|Hy']; [done|]. specialize (Hy' x HxC). rewrite E in Hy.
    apply elem_of_app in Hy as [Hy|Hy%list_elem_of_singleton]; [specialize (Hx' y Hy)|]; lia.
  - intros _ y Hy. by apply Hx, Hks.
Qed.

End DownAdd.

(** *** An answer, seen on the outline *)

Definition added_outline_of (n : NodeID) (ks : list NodeID) (o : Outline) : Outline :=
  mkOutline ks (if n <? pm then u16 (o_top o - 1) else o_top o)
    (if pM <? n then u16 (o_bottom o - 1) else o_bottom o) (o_newTop o) (o_newBottom o).

Definition drop_top (ks : list NodeID) (o : Outline) : Outline :=
  mkOutline ks (u16 (o_top o + 1)) (o_bottom o) (u16 (o_newTop o + 1)) (o_newBottom o).

Definition drop_bottom (ks : list NodeID) (o : Outline) : Outline :=
  mkOutline ks (o_top o) (u16 (o_bottom o + 1)) (o_newTop o) (u16 (o_newBottom o + 1)).

Record accepted (n : NodeID) (o : Outline) (ks : list NodeID) : Prop := {
  ac_new : n ∉ o_keys o;
  ac_wanted : lo <= n \/ o_keys o = [] \/ exists x, x ∈ o_keys o /\ x < n;
  ac_sorted : ascending ks;
  ac_perm : ks ≡ₚ n :: o_keys o
}.

Inductive answered (n : NodeID) (o : Outline) : Outline -> Prop :=
| an_known : n ∈ o_keys o -> answered n o o
| an_skipped : n ∉ o_keys o -> n < lo ->
    answered n o (mkOutline (o_keys o) (o_top o) (o_bottom o)
      (if n <? pm then u16 (o_newTop o + 1) else o_newTop o) (o_newBottom o))
| an_fits ks : accepted n o ks -> zlen (o_keys o) < max -> answered n o (added_outline_of n ks o)
| an_top x ks : accepted n o (x :: ks) -> zlen (o_keys o) = max -> x < lo ->
    answered n o (drop_top ks (added_outline_of n (x :: ks) o))
| an_bottom x ks : accepted n o (ks ++ [x]) -> zlen (o_keys o) = max ->
    (forall y, y ∈ ks ++ [x] -> lo <= y) ->
    answered n o (drop_bottom ks (added_outline_of n (ks ++ [x]) o)).

Lemma down_new n R T B o o' :
  n ∉ C -> lo <= n -> pm <= n -> (forall c, c ∈ C -> c < n) ->
  going_down (n :: R) T B o -> answered n o o' -> exists T' B', going_down R T' B' o'.
Proof using All.
  intros Hn Hlo Hpm' Hc Hg Ha. pose proof (pr_tally _ _ _ _ (gd_progress _ _ _ _ Hg)) as Ht.
  assert (Hadd : forall ks, accepted n o ks -> tally R T B (added_outline_of n ks o))
    by (intros ks []; by apply tally_add).
  pose proof (tally_fresh n R T B o Hn Ht) as Hf.
  destruct Ha as [Hk|Hk Hlt|ks Hk Hz|x ks Hk Hz Hx|x ks Hk Hz Hx].
  - destruct Hf. in_app.
  - lia.
  - exists T, B. by apply (down_fits n R T B ks o _ Hlo Hc (ac_perm _ _ _ Hk)); auto.
  - exists (x :: T), B. eapply (down_evict_top n R T B (x :: ks) o); eauto using ac_perm.
  - exists T, (x :: B). eapply (down_evict_bottom n R T B (ks ++ [x]) o); eauto using ac_perm.
Qed.

Lemma tally_same n R T B o o' :
  n ∈ C -> going_down (n :: R) T B o -> o' = o -> going_down R T B o'.
Proof using All.
  intros Hn [[Ht Hl H1 H2 H3] He H5 H6 H7 H8] ->. split; [split | ..]; try done.
  - by apply (tally_old n).
  - intros m Hm. apply He. by right.
Qed.

(** Below everything that is held, and not asked for. *)
Lemma answered_low n o o' :
  o_keys o <> [] -> (forall x, x ∈ o_keys o -> n < x) -> n < lo -> answered n o o' ->
  o' = mkOutline (o_keys o) (o_top o) (o_bottom o)
    (if n <? pm then u16 (o_newTop o + 1) else o_newTop o) (o_newBottom o).
Proof.
  intros Hne Hx Hlo Ha.
  assert (Hno : forall ks, accepted n o ks -> False).
  { intros ks [_ [?|[?|(x & Hi & ?)]] _ _]; [lia | done|]. specialize (Hx x Hi). lia. }
  destruct Ha as [Hi|Hi|ks Hk|x ks Hk|x ks Hk]; try done; [|by destruct (Hno _ Hk)..].
  specialize (Hx n Hi). lia.
Qed.

Lemma down_step n R T B o o' :
  going_down (n :: R) T B o -> answered n o o' -> exists T' B', going_down R T' B' o'.
Proof using All.
  intros Hg Ha. pose proof Hg as [[Ht Hl Htop Hbot Hfull] He Hkept HT HB HBlo].
  destruct (He n ltac:(by left)) as [Hn|[(Hlt & Hlo & Hz)|(Hlo & Hpm' & Hc)]].
  - destruct (decide (n ∈ o_keys o)) as [Hi|Hi].
    { exists T, B. destruct Ha as [_|Hi'|ks [Hi' _ _ _]|x ks [Hi' _ _ _]|x ks [Hi' _ _ _]];
        [by apply (tally_same n R T B o) | by destruct Hi'..]. }
    pose proof (ta_old _ _ _ _ Ht n Hn) as Ho. assert (HnT : n ∈ T) by (pose proof (fun H => HB n H Hn); in_app).
    exists T, B. apply (tally_same n R T B o); [done | done|].
    assert (Hne : o_keys o <> []).
    { intros E. rewrite E in Hl. destruct C as [|c C']; [by apply elem_of_nil in Hn|].
      rewrite zlen_cons, zlen_nil in Hl. pose proof (zlen_nonneg C'). lia. }
    rewrite (answered_low n o o' Hne (fun x Hx => Htop n x HnT Hx) (HT n HnT) Ha).
    destruct (Z.ltb_spec n pm); [apply HC in Hn; lia | by destruct o].
  - assert (Hne : o_keys o <> []) by (intros E; rewrite E, zlen_nil in Hl; lia).
    assert (HnC : n ∉ C) by (intros Hi; apply HC in Hi; lia).
    assert (Hlow : forall x, x ∈ o_keys o -> n < x).
    { intros x Hx. destruct (Hkept x Hx) as [Hi|Hi]; [apply HC in Hi; lia|].
      destruct C as [|c C'] eqn:EC; [rewrite zlen_nil in Hz; lia|].
      specialize (Hi c ltac:(by left)). specialize (HC c ltac:(by left)). lia. }
    rewrite (answered_low n o o' Hne Hlow Hlo Ha). destruct (Z.ltb_spec n pm); [|lia].
    exists (n :: T), B. split; [split | ..]; simpl; try done.
    + by apply tally_skip_top.
    + intros t x [->|Hi]%elem_of_cons Hx; [by apply Hlow | by apply Htop].
    + intros _. lia.
    + intros m Hm. apply He. by right.
    + intros t [->|Hi]%elem_of_cons; [done | by apply HT].
  - apply (down_new n R T B o); try done. intros Hi. apply Hc in Hi. lia.
Qed.

End Search.

(** ** Upwards: a search mirrored *)

Definition neg (l : list Z) : list Z := Z.opp <$> l.

Definition mirror (o : Outline) : Outline :=
  mkOutline (reverse (neg (o_keys o))) (o_bottom o) (o_top o) (o_newBottom o) (o_newTop o).

Lemma elem_of_neg x l : x ∈ neg l <-> - x ∈ l.
Proof.
  unfold neg. rewrite list_elem_of_fmap. split.
  - intros (y & -> & Hy). by rewrite Z.opp_involutive.
  - intros H. exists (- x). by rewrite Z.opp_involutive.
Qed.

Lemma neg_neg l : neg (neg l) = l.
Proof. unfold neg. induction l as [|x l IH]; csimpl; [done|]. by rewrite IH, Z.opp_involutive. Qed.

Lemma mirror_mirror o : mirror (mirror o) = o.
Proof.
  destruct o as [ks ? ? ? ?]. unfold mirror. simpl. f_equal.
  unfold neg. rewrite fmap_reverse, reverse_involutive. apply neg_neg.
Qed.

Lemma elem_of_mirror x o : x ∈ o_keys (mirror o) <-> - x ∈ o_keys o.
Proof. simpl. by rewrite elem_of_reverse, elem_of_neg. Qed.

Lemma ascending_mirror l : ascending l -> ascending (reverse (neg l)).
Proof.
  induction l as [|x l IH]; intros H; [constructor|]. apply ascending_cons in H as [H Hx].
  unfold neg. csimpl. rewrite reverse_cons. apply ascending_snoc. split; [by apply IH|].
  intros y Hy. rewrite elem_of_reverse in Hy. apply elem_of_neg in Hy. specialize (Hx _ Hy). lia.
Qed.

Lemma zlen_mirror o : zlen (o_keys (mirror o)) = zlen (o_keys o).
Proof. unfold zlen. simpl. unfold neg. by rewrite length_reverse, length_fmap. Qed.

Lemma zlen_neg l : zlen (neg l) = zlen l.
Proof. unfold zlen, neg. by rewrite length_fmap. Qed.

(** ** An answer at the cache *)

Lemma is_wanted_cases s l n :
  is_wanted s l n = true ->
  minResult_ s <= n <= maxResult_ s \/ keys l = [] \/
  ((exists x, x ∈ keys l /\ x <= n) /\ (exists y, y ∈ keys l /\ n <= y)).
Proof.
  unfold is_wanted. rewrite orb_true_iff, !andb_true_iff, !Z.leb_le. intros [[H1 H2]|H]; [right | by left].
  destruct (decide (keys l = [])) as [|Hne]; [by left | right]. split.
  - destruct (keys l) as [|x ks] eqn:E; [done|]. rewrite (min_node_cons l x ks E) in H1.
    exists x. split; [by left | done].
  - destruct (keys l) as [|y ks _] eqn:E using rev_ind; [done|]. rewrite (max_node_snoc l y ks E) in H2.
    exists y. split; [apply elem_of_app; right; by left | done].
Qed.

Lemma not_wanted_outside s l n : is_wanted s l n = false -> n < minResult_ s \/ maxResult_ s < n.
Proof. unfold is_wanted. rewrite orb_false_iff, !andb_false_iff, !Z.leb_gt. tauto. Qed.

Lemma clip_down s l x ks :
  kMaxNode <= maxResult_ s -> keys l = x :: ks -> clip_at_end s l = negb (x <? minResult_ s).
Proof.
  intros Hd E. unfold clip_at_end, scrolling_down. rewrite (min_node_cons l x ks E).
  destruct (x <? minResult_ s); [done|]. destruct (Z.leb_spec kMaxNode (maxResult_ s)); [|lia].
  by destruct (_ <? _).
Qed.

Lemma clip_up s l x ks :
  maxResult_ s < kMaxNode -> minResult_ s = kMinNode -> (forall y, y ∈ keys l -> kMinNode <= y) ->
  keys l = ks ++ [x] -> clip_at_end s l = (maxResult_ s <? x).
Proof.
  intros Hd Hm Hy E. unfold clip_at_end, scrolling_down. rewrite (max_node_snoc l x ks E), Hm.
  assert (Hmin : kMinNode <= min_node l).
  { destruct (keys l) as [|y ks'] eqn:E'; [by destruct ks|]. rewrite (min_node_cons l y ks' E'). apply Hy. by left. }
  destruct (Z.ltb_spec (min_node l) kMinNode); [lia|].
  destruct (_ <? x); [done|]. by destruct (Z.leb_spec kMaxNode (maxResult_ s)); [lia|].
Qed.

Section Answer.

Context (s : Cache) (n : NodeID).
Let l := trainNodes_ s.
Let l' := trainNodes_ (add_to_list n s).
Context (Hmax : 0 < cacheMaxSize_ s) (Hs : ascending (keys l)) (Hlen : zlen (keys l) <= cacheMaxSize_ s).

(** The possible outcomes, with the limits of the search still written out. *)
Lemma answer_cases :
  ((n ∈ keys l) /\ l' = l) \/
  (same_limits l' l /\ (n ∉ keys l) /\
   ((is_wanted s l n = false /\
     outline l' = mkOutline (keys l) (resultsClippedAtTop_ l) (resultsClippedAtBottom_ l)
       (if (n <? minResult_ s) && (n <? previousMinNode_ l) then u16 (newClippedAtTop_ l + 1) else newClippedAtTop_ l)
       (if (maxResult_ s <? n) && (previousMaxNode_ l <? n) then u16 (newClippedAtBottom_ l + 1)
        else newClippedAtBottom_ l)) \/
    (is_wanted s l n = true /\
     exists p (la := added n p s l),
       ascending (keys la) /\ keys la ≡ₚ n :: keys l /\
       outline la = added_outline_of (previousMinNode_ l) (previousMaxNode_ l) n (keys la) (outline l) /\
       ((zlen (keys l) < cacheMaxSize_ s /\ l' = la) \/
        (zlen (keys l) = cacheMaxSize_ s /\ l' = evict s la))))).
Proof using Hmax Hs Hlen.
  destruct (decide (n ∈ keys l)) as [Hi|Hn].
  { left. split; [done|]. subst l'. by rewrite (add_known n s Hi). }
  right. destruct (is_wanted s l n) eqn:Hw.
  - destruct (add_wanted n s Hn Hs Hw Hlen) as [p Hp]. cbv zeta in Hp. fold l l' in Hp.
    destruct (added_outline n p s l) as [Hsame Ho]. pose proof Ho as Ho'. injection Ho' as Hk _ _ _ _.
    destruct (insert_node_keys n p (nodes_ l) Hs Hn) as [Hs' Hperm]. rewrite <- Hk in Hs', Hperm.
    assert (Hcase : (zlen (keys l) < cacheMaxSize_ s /\ l' = added n p s l) \/
        (zlen (keys l) = cacheMaxSize_ s /\ l' = evict s (added n p s l))).
    { destruct (Z.ltb_spec (zlen (keys l)) (cacheMaxSize_ s)); [by left | right; split; [lia | done]]. }
    split; [|split; [done|]]; [|right; split; [done|]].
    + destruct Hcase as [[_ ->]|[_ ->]]; [done|]. destruct (evict_limits s (added n p s l)) as [E1 E2].
      destruct Hsame. split; congruence.
    + exists p. cbv zeta. split; [done|]. split; [done|]. split; [by rewrite Hk | done].
  - destruct (add_skipped n s Hn Hw Hlen) as [Hsame Ho]. split; [done|]. split; [done|]. left. by split.
Qed.

End Answer.

Lemma down_answered s n (l := trainNodes_ s) (l' := trainNodes_ (add_to_list n s)) :
  0 < cacheMaxSize_ s -> ascending (keys l) -> zlen (keys l) <= cacheMaxSize_ s ->
  kMaxNode <= maxResult_ s -> n <= kMaxNode ->
  same_limits l' l /\
  answered (cacheMaxSize_ s) (minResult_ s) (previousMinNode_ l) (previousMaxNode_ l) n (outline l) (outline l').
Proof.
  intros Hmax Hs Hlen Hd Hn.
  pose proof (answer_cases s n Hmax Hs Hlen) as Hcase.
  change (trainNodes_ (add_to_list n s)) with l' in Hcase. change (trainNodes_ s) with l in Hcase.
  destruct Hcase as [[Hi E]|(Hsame & Hi & Hc)].
  { rewrite E. split; [done | by constructor]. }
  split; [done|]. destruct Hc as [[Hw Ho]|(Hw & p & Hs' & Hperm & Ho & Hc)].
  - apply not_wanted_outside in Hw as Hw'. destruct Hw' as [Hlt|]; [|lia].
    rewrite Ho. destruct (Z.ltb_spec n (minResult_ s)), (Z.ltb_spec (maxResult_ s) n); try lia.
    by apply an_skipped.
  - set (la := added n p s l) in *.
    assert (Hacc : accepted (minResult_ s) n (outline l) (keys la)).
    { split; [done | | done | done]. apply is_wanted_cases in Hw as [?|[?|[(x & Hx & ?) _]]]; [left; lia | by right; left|].
      right; right. exists x. split; [done|]. destruct (decide (x = n)) as [->|]; [done | lia]. }
    destruct Hc as [[Hlt ->]|[Hz ->]]; [rewrite Ho; by apply an_fits|].
    destruct (keys la) as [|x ks] eqn:E; [by apply Permutation_nil_cons in Hperm|].
    pose proof (clip_down s la x ks Hd E) as Hclip.
    destruct (Z.ltb_spec x (minResult_ s)) as [Hx|Hx].
    + destruct (evict_top s la x ks E Hclip) as [_ ->].
      injection Ho as _ E1 E2 E3 E4. rewrite E1, E2, E3, E4. by apply (an_top _ _ _ _ n (outline l) x ks).
    + destruct (exists_last (l := keys la)) as (ks' & y & Ey); [by rewrite E|].
      destruct (evict_end s la y ks' Ey Hclip) as [_ ->].
      assert (Exy : x :: ks = ks' ++ [y]) by congruence.
      injection Ho as _ E1 E2 E3 E4. rewrite E1, E2, E3, E4. rewrite Exy in Hacc.
      apply (an_bottom _ _ _ _ n (outline l) y ks'); [done | done|].
      intros z Hz'. rewrite <- Exy in Hz'. apply ascending_cons in Hs' as [_ Hs'].
      apply elem_of_cons in Hz' as [->|Hz']; [lia|]. specialize (Hs' z Hz'). lia.
Qed.

Lemma up_answered s n (l := trainNodes_ s) (l' := trainNodes_ (add_to_list n s)) :
  0 < cacheMaxSize_ s -> ascending (keys l) -> zlen (keys l) <= cacheMaxSize_ s ->
  maxResult_ s < kMaxNode -> minResult_ s = kMinNode -> kMinNode <= n ->
  (forall y, y ∈ keys l -> kMinNode <= y) ->
  same_limits l' l /\
  answered (cacheMaxSize_ s) (- maxResult_ s) (- previousMaxNode_ l) (- previousMinNode_ l) (- n)
    (mirror (outline l)) (mirror (outline l')).
Proof.
  intros Hmax Hs Hlen Hu Hm Hn Hpos.
  pose proof (answer_cases s n Hmax Hs Hlen) as Hcase.
  change (trainNodes_ (add_to_list n s)) with l' in Hcase. change (trainNodes_ s) with l in Hcase.
  assert (Hin : forall x, - x ∈ o_keys (mirror (outline l)) <-> x ∈ keys l)
    by (intros x; rewrite elem_of_mirror, Z.opp_involutive; done).
  destruct Hcase as [[Hi E]|(Hsame & Hi & Hc)].
  { rewrite E. split; [done|]. constructor. by apply Hin. }
  assert (Hflip : forall a b, (- a <? - b) = (b <? a)) by (intros a b; destruct (Z.ltb_spec (- a) (- b)), (Z.ltb_spec b a); lia).
  split; [done|]. destruct Hc as [[Hw Ho]|(Hw & p & Hs' & Hperm & Ho & Hc)].
  - apply not_wanted_outside in Hw as Hw'. destruct Hw' as [Hlt|Hlt]; [lia|].
    rewrite Ho. destruct (Z.ltb_spec n (minResult_ s)), (Z.ltb_spec (maxResult_ s) n); try lia. simpl.
    pose proof (an_skipped (cacheMaxSize_ s) (- maxResult_ s) (- previousMaxNode_ l) (- previousMinNode_ l) (- n) (mirror (outline l))) as Ha.
    rewrite Hflip in Ha. apply Ha; [by rewrite Hin | lia].
  - set (la := added n p s l) in *.
    assert (Hadd : forall ks, reverse (neg (keys la)) = ks ->
      mirror (outline la) = added_outline_of (- previousMaxNode_ l) (- previousMinNode_ l) (- n) ks (mirror (outline l))).
    { intros ks <-. rewrite Ho. unfold added_outline_of, mirror. simpl. by rewrite !Hflip. }
    assert (Hacc : accepted (- maxResult_ s) (- n) (mirror (outline l)) (reverse (neg (keys la)))).
    { split; [by rewrite Hin | | by apply ascending_mirror|].
      - apply is_wanted_cases in Hw as [?|[Hw|[_ (y & Hy & ?)]]]; [left; lia | |].
        + right; left. simpl. by rewrite Hw.
        + right; right. exists (- y). split; [by apply Hin|]. destruct (decide (y = n)) as [->|]; [done | lia].
      - simpl. rewrite !reverse_Permutation. unfold neg. by rewrite Hperm. }
    change (keys l) with (o_keys (outline l)) in Hc; rewrite <- zlen_mirror in Hc.
    destruct Hc as [[Hlt ->]|[Hz ->]]; [rewrite (Hadd _ eq_refl); by apply an_fits|].
    destruct (exists_last (l := keys la)) as (ks & x & E); [intros E; rewrite E in Hperm; by apply Permutation_nil_cons in Hperm|].
    assert (Hneg : reverse (neg (keys la)) = - x :: reverse (neg ks))
      by (rewrite E; unfold neg; by rewrite fmap_app, reverse_app).
    assert (Hla : forall y, y ∈ keys la -> kMinNode <= y)
      by (intros y Hy; rewrite Hperm in Hy; apply elem_of_cons in Hy as [->|Hy]; [done | by apply Hpos]).
    pose proof (clip_up s la x ks Hu Hm Hla E) as Hclip. specialize (Hadd _ eq_refl). rewrite Hneg in Hacc, Hadd.
    injection Hadd as _ E1 E2 E3 E4.
    destruct (Z.ltb_spec (maxResult_ s) x) as [Hx|Hx].
    + destruct (evict_end s la x ks E Hclip) as [_ ->].
      unfold mirror at 2; simpl. rewrite E1, E2, E3, E4.
      apply (an_top _ _ _ _ (- n) (mirror (outline l)) (- x) (reverse (neg ks))); [done | done | lia].
    + destruct (keys la) as [|y ks'] eqn:Ey; [by destruct ks|].
      destruct (evict_top s la y ks' Ey Hclip) as [_ ->].
      unfold mirror at 2; simpl. rewrite E1, E2, E3, E4.
      assert (Hsnoc : - x :: reverse (neg ks) = reverse (neg ks') ++ [- y])
        by (rewrite <- Hneg; unfold neg; csimpl; by rewrite reverse_cons).
      rewrite Hsnoc in Hacc.
      apply (an_bottom _ _ _ _ (- n) (mirror (outline l)) (- y) (reverse (neg ks'))); [done | done|].
      intros z Hz'. rewrite <- Hsnoc, <- Hneg, elem_of_reverse, elem_of_neg, E in Hz'.
      rewrite E in Hs'. apply ascending_snoc in Hs' as [_ Hs'].
      apply elem_of_app in Hz' as [Hz'|Hz'%list_elem_of_singleton]; [specialize (Hs' _ Hz')|]; lia.
Qed.
