(* ===== verification/TrainCacheRuns.v ===== *)
(** Runs of the cache of search results: over any sequence of searching and
    scrolling, in which the user, the search and the flow take turns in any
    order, the cache is a window on the trains that answer. *)

From stdpp Require Import sorting.
From S2P Require Import Prelude TrainNodeInfoCache TrainCacheWindow.

(** ** Windows *)

Section Windows.

Context (W : list NodeID) (max : Z).

(** [T] and [B] are the trains above and below. *)
Record is_window (T B : list NodeID) (o : Outline) : Prop := {
  iw_all : T ++ o_keys o ++ B ≡ₚ W;
  iw_sorted : ascending (o_keys o);
  iw_top : forall t n, t ∈ T -> n ∈ o_keys o -> t < n;
  iw_bottom : forall b n, b ∈ B -> n ∈ o_keys o -> n < b;
  iw_len : zlen (o_keys o) <= max;
  iw_full : T <> [] \/ B <> [] -> zlen (o_keys o) = max;
  iw_counts : o = mkOutline (o_keys o) (zlen T) (zlen B) (zlen T) (zlen B)
}.

Lemma progress_window C pm pM T B o :
  progress C W max pm pM [] T B o -> is_window T B o.
Proof.
  intros [[Hs Hk _ Hc] [_ Hl] Ht Hb Hf]. rewrite !filter_nil, app_nil_r in Hk. rewrite !filter_nil, zlen_nil, !Z.add_0_r in Hc.
  by split.
Qed.

End Windows.

Lemma window_mirror W max T B o : is_window (neg W) max T B (mirror o) -> is_window W max (neg B) (neg T) o.
Proof.
  intros [Hk Hs Ht Hb Hl Hf Hc].
  assert (Hp : forall l l' : list Z, l ≡ₚ l' -> neg l ≡ₚ neg l') by (intros l l' H; unfold neg; by rewrite H).
  split.
  - rewrite <- (neg_neg W). etrans; [|apply Hp, Hk]. simpl. unfold neg at 3.
    rewrite !fmap_app, fmap_reverse, reverse_Permutation. fold (neg T) (neg B) (neg (neg (o_keys o))).
    rewrite neg_neg. solve_Permutation.
  - rewrite <- (mirror_mirror o). simpl. by apply ascending_mirror.
  - intros t n Ht' Hn. apply elem_of_neg in Ht'.
    pose proof (Hb (- t) (- n) Ht' ltac:(apply elem_of_mirror; by rewrite Z.opp_involutive)). lia.
  - intros b n Hb' Hn. apply elem_of_neg in Hb'.
    pose proof (Ht (- b) (- n) Hb' ltac:(apply elem_of_mirror; by rewrite Z.opp_involutive)). lia.
  - by rewrite <- zlen_mirror.
  - intros Hne. rewrite <- zlen_mirror. apply Hf. destruct Hne as [Hne|Hne]; [right | left]; intros ->; by apply Hne.
  - injection Hc as E1 E2 E3 E4. destruct o; simpl in *. rewrite !zlen_neg. by f_equal.
Qed.

Lemma window_mirror_back W max T B o : is_window W max T B o -> is_window (neg W) max (neg B) (neg T) (mirror o).
Proof. intros Hw. apply window_mirror. by rewrite neg_neg, mirror_mirror. Qed.

(** ** The search that is under way *)

Section Searching.

Context (W : list NodeID).
Context (HW : NoDup W) (HWlen : zlen W < 2 ^ 15) (HWids : forall n, n ∈ W -> kMinNode < n < kMaxNode).

(** [R] have still to answer. *)
Inductive searching (R : list NodeID) (s : Cache) : Prop :=
| searching_down C T B (l := trainNodes_ s) (pm := previousMinNode_ l) (pM := previousMaxNode_ l) :
    (forall c, c ∈ C -> pm <= c <= pM) -> NoDup C -> pm <= pM -> kMaxNode <= maxResult_ s ->
    going_down C W (cacheMaxSize_ s) (minResult_ s) pm pM R T B (outline l) -> searching R s
| searching_up C T B (l := trainNodes_ s) (pm := - previousMaxNode_ l) (pM := - previousMinNode_ l) :
    (forall c, c ∈ C -> pm <= c <= pM) -> NoDup C -> pm <= pM ->
    maxResult_ s < kMaxNode -> minResult_ s = kMinNode ->
    going_down C (neg W) (cacheMaxSize_ s) (- maxResult_ s) pm pM (neg R) T B (mirror (outline l)) -> searching R s.

(** What a search looks at. *)
Definition search_view (s : Cache) :=
  (outline (trainNodes_ s), previousMinNode_ (trainNodes_ s), previousMaxNode_ (trainNodes_ s),
   minResult_ s, maxResult_ s, cacheMaxSize_ s).

Lemma searching_view R s s' : search_view s' = search_view s -> searching R s -> searching R s'.
Proof.
  intros [= E1 E2 E3 E4 E5 E6 E7 E8 E9 E10] [C T B l pm pM H1 H2 H3 H4 H5|C T B l pm pM H1 H2 H3 H4 H5 H6].
  - eapply (searching_down _ _ C T B); cbv zeta; rewrite ?E6, ?E7, ?E8, ?E9, ?E10; try done.
    unfold outline. by rewrite E1, E2, E3, E4, E5.
  - eapply (searching_up _ _ C T B); cbv zeta; rewrite ?E6, ?E7, ?E8, ?E9, ?E10; try done.
    unfold outline. by rewrite E1, E2, E3, E4, E5.
Qed.

Lemma searching_len R s : searching R s -> ascending (keys (trainNodes_ s)) /\ zlen (keys (trainNodes_ s)) <= cacheMaxSize_ s.
Proof.
  intros [C T B l pm pM _ _ _ _ [[[Hs _ _ _] Hl _ _ _] _ _ _ _ _]|C T B l pm pM _ _ _ _ _ [[[Hs _ _ _] Hl _ _ _] _ _ _ _ _]].
  - split; [done|]. simpl in Hl. unfold l in *. lia.
  - rewrite zlen_mirror in Hl. split; [|simpl in Hl; unfold l in *; lia].
    apply ascending_mirror in Hs. simpl in Hs. unfold neg in Hs.
    rewrite fmap_reverse, reverse_involutive in Hs. fold (neg (keys l)) in Hs. fold (neg (neg (keys l))) in Hs.
    by rewrite neg_neg in Hs.
Qed.

Lemma going_down_perm C W' max lo pm pM R R' T B o :
  R ≡ₚ R' -> going_down C W' max lo pm pM R T B o -> going_down C W' max lo pm pM R' T B o.
Proof.
  intros Hp [[Ht H1 H2 H3 H4] He H5 H6 H7 H8]. split; [split | ..]; try done.
  - by apply (tally_perm C W' pm pM R).
  - intros n. rewrite <- Hp. apply He.
Qed.

Lemma searching_perm R R' s : R ≡ₚ R' -> searching R s -> searching R' s.
Proof.
  intros Hp [C T B l pm pM H1 H2 H3 H4 H5|C T B l pm pM H1 H2 H3 H4 H5 H6].
  - eapply (searching_down _ _ C T B); try done. by apply (going_down_perm _ _ _ _ _ _ R).
  - eapply (searching_up _ _ C T B); try done. apply (going_down_perm _ _ _ _ _ _ (neg R)); [|done].
    unfold neg. by rewrite Hp.
Qed.

Lemma add_to_list_frame n s :
  minResult_ (add_to_list n s) = minResult_ s /\ maxResult_ (add_to_list n s) = maxResult_ s /\
  cacheMaxSize_ (add_to_list n s) = cacheMaxSize_ s.
Proof.
  unfold add_to_list. destruct (find_node _ n); [done|]. destruct (is_wanted _ _ _); [|done].
  destruct (info_of n s) as [p s'] eqn:E. apply info_of_frame in E as (_ & E1 & E2 & E3 & _). done.
Qed.

Lemma add_to_list_rest n s :
  wait (add_to_list n s) = wait s /\ pendingSearch_ (add_to_list n s) = pendingSearch_ s /\
  needSearch_ (add_to_list n s) = needSearch_ s /\ nodesToShow_ (add_to_list n s) = nodesToShow_ s /\
  scrollPrefetchSize_ (add_to_list n s) = scrollPrefetchSize_ s /\ effects (add_to_list n s) = effects s.
Proof.
  unfold add_to_list. destruct (find_node _ n); [done|]. destruct (is_wanted _ _ _); [|done].
  unfold info_of. by destruct (find_node (previousCache_ s) n).
Qed.

Lemma NoDup_neg l : NoDup l -> NoDup (neg l).
Proof. intros H. unfold neg. apply NoDup_fmap_2; [|done]. intros x y E. lia. Qed.

Lemma searching_keys R s n : searching R s -> n ∈ keys (trainNodes_ s) -> kMinNode < n < kMaxNode.
Proof.
  intros [C T B l pm pM _ _ _ _ [[[_ Hk _ _] _ _ _ _] _ _ _ _ _]|C T B l pm pM _ _ _ _ _ [[[_ Hk _ _] _ _ _ _] _ _ _ _ _]] Hn.
  - apply HWids. rewrite <- Hk. simpl. rewrite !elem_of_app. tauto.
  - apply HWids. rewrite <- (Z.opp_involutive n). apply elem_of_neg. rewrite <- Hk. 
    rewrite !elem_of_app, elem_of_mirror, Z.opp_involutive. tauto.
Qed.

(** An answer. *)
Lemma searching_answer n R s :
  0 < cacheMaxSize_ s -> kMinNode < n < kMaxNode -> searching (n :: R) s -> searching R (add_to_list n s).
Proof.
  intros Hmax Hn Hs. pose proof (searching_len _ _ Hs) as [Hasc Hlen].
  pose proof (fun y => searching_keys _ s y Hs) as Hpos.
  pose proof (add_to_list_frame n s) as (E1 & E2 & E3).
  destruct Hs as [C T B l pm pM H1 H2 H3 H4 H5|C T B l pm pM H1 H2 H3 H4 H5 H6].
  - destruct (down_answered s n Hmax Hasc Hlen H4 ltac:(lia)) as [[L1 L2] Ha].
    destruct (down_step C W _ _ _ _ Hmax HW ltac:(lia) H1 H2 H3 n R T B _ _ H5 Ha) as (T' & B' & Hg).
    eapply (searching_down _ _ C T' B'); cbv zeta; rewrite ?E1, ?E2, ?E3, ?L1, ?L2; done.
  - destruct (up_answered s n Hmax Hasc Hlen H4 H5 ltac:(lia) ltac:(intros y Hy; apply Hpos in Hy; lia)) as [[L1 L2] Ha].
    destruct (down_step C (neg W) _ _ _ _ Hmax (NoDup_neg _ HW) ltac:(rewrite zlen_neg; lia) H1 H2 H3 (- n) (neg R) T B _ _ H6 Ha)
      as (T' & B' & Hg).
    eapply (searching_up _ _ C T' B'); cbv zeta; rewrite ?E1, ?E2, ?E3, ?L1, ?L2; done.
Qed.

(** When all have answered. *)
Lemma searching_end s : searching [] s -> exists T B, is_window W (cacheMaxSize_ s) T B (outline (trainNodes_ s)).
Proof.
  intros [C T B l pm pM _ _ _ _ [Hp _ _ _ _ _]|C T B l pm pM _ _ _ _ _ [Hp _ _ _ _ _]].
  - exists T, B. by eapply progress_window.
  - apply progress_window, window_mirror in Hp. eauto.
Qed.

(** *** New searches *)

Lemma filter_none (P : Z -> Prop) `{!forall x, Decision (P x)} (l : list Z) : (forall x, x ∈ l -> ~ P x) -> filter P l = [].
Proof.
  induction l as [|x l IH]; intros Hl; [done|]. rewrite filter_cons, decide_False by (apply Hl; by left).
  apply IH. intros y Hy. apply Hl. by right.
Qed.

Lemma filter_every (P : Z -> Prop) `{!forall x, Decision (P x)} (l : list Z) : (forall x, x ∈ l -> P x) -> filter P l = l.
Proof.
  induction l as [|x l IH]; intros Hl; [done|]. rewrite filter_cons, decide_True by (apply Hl; by left).
  f_equal. apply IH. intros y Hy. apply Hl. by right.
Qed.

Lemma reset_going_down s :
  going_down [] W (cacheMaxSize_ s) kMinNode kMinNode kMaxNode W [] [] (outline (reset_results (trainNodes_ s))) \/
  cacheMaxSize_ s < 0.
Proof using HWids.
  destruct (Z.ltb_spec (cacheMaxSize_ s) 0) as [|Hpos]; [by right | left].
  split; [split; [split | ..] | ..]; simpl; try done; try (by intros ? ? ?%elem_of_nil); try (by intros ? ?%elem_of_nil).
  - constructor.
  - rewrite filter_every; [done|]. intros x _ Hx. by apply elem_of_nil in Hx.
  - unfold outline. simpl. rewrite !filter_none; [done | |]; intros x Hx; apply HWids in Hx; lia.
  - by intros [].
  - intros n Hn. apply HWids in Hn. right; right. repeat split; [lia | lia|]. intros c Hc. by apply elem_of_nil in Hc.
Qed.

Lemma reset_searching s : 0 < cacheMaxSize_ s -> searching W (reset_search s).
Proof using HWids.
  intros Hmax. destruct (reset_going_down s) as [Hg|]; [|lia].
  assert (E1 : trainNodes_ (reset_search s) = reset_results (trainNodes_ s)) by (by unfold reset_search, invoke_search; simpl; destruct (wait s)).
  assert (E2 : minResult_ (reset_search s) = kMinNode) by (by unfold reset_search, invoke_search; simpl; destruct (wait s)).
  assert (E3 : maxResult_ (reset_search s) = kMaxNode) by (by unfold reset_search, invoke_search; simpl; destruct (wait s)).
  assert (E4 : cacheMaxSize_ (reset_search s) = cacheMaxSize_ s) by (by unfold reset_search, invoke_search; simpl; destruct (wait s)).
  eapply (searching_down _ _ [] [] []); cbv zeta; rewrite ?E1, ?E2, ?E3, ?E4; try done.
  - by intros c Hc%elem_of_nil.
  - constructor.
Qed.

(** A search that goes on from a window [T ++ C ++ B]. *)
Lemma page_going_down W' max lo pm pM T C B :
  T ++ C ++ B ≡ₚ W' -> ascending C -> NoDup W' ->
  (forall t c, t ∈ T -> c ∈ C -> t < c) -> (forall b c, b ∈ B -> c ∈ C -> c < b) ->
  zlen C <= max -> (T <> [] -> zlen C = max) ->
  pm ∈ C -> pM ∈ C -> (forall c, c ∈ C -> pm <= c <= pM) ->
  lo <= pM -> T = [] \/ pm <= lo ->
  going_down C W' max lo pm pM W' [] [] (mkOutline C (zlen T) (zlen B) 0 0).
Proof.
  intros Hk Hs Hd Ht Hb Hl Hf Hm HM Hc Hlo HT.
  assert (Hd' : NoDup (T ++ C ++ B)) by (by rewrite Hk).
  apply NoDup_app in Hd' as (_ & HdT & Hd'). apply NoDup_app in Hd' as (_ & HdB & _).
  assert (Hfilter : forall (P : Z -> Prop) `{!forall x, Decision (P x)}, filter P W' ≡ₚ filter P T ++ filter P C ++ filter P B)
    by (intros P ?; rewrite <- Hk, !filter_app; done).
  assert (Hz : forall l l' : list Z, l ≡ₚ l' -> zlen l = zlen l') by (intros l l' H; unfold zlen; by rewrite H).
  split; [split; [split | ..] | ..]; simpl; try done; try (by intros ? ? ?%elem_of_nil); try (by intros ? ?%elem_of_nil).
  - rewrite Hfilter, (filter_none _ C), (filter_every _ T), (filter_every _ B), <- Hk; [solve_Permutation | ..].
    + intros x Hx Hi. by apply (HdB x Hi).
    + intros x Hx Hi. apply (HdT x Hx). apply elem_of_app. by left.
    + by intros x Hx [].
  - intros c Hc'. by rewrite app_nil_r.
  - f_equal; rewrite zlen_nil; simpl; rewrite (Hz _ _ (Hfilter _ _)).
    + rewrite (filter_none _ C), (filter_none _ B), (filter_every _ T), app_nil_r; [done | ..].
      * intros x Hx. by apply Ht.
      * intros x Hx. specialize (Hb x pm Hx Hm). lia.
      * intros x Hx. specialize (Hc x Hx). lia.
    + rewrite (filter_none _ C), (filter_none _ T), (filter_every _ B); [done | ..].
      * intros x Hx. by apply Hb.
      * intros x Hx. specialize (Ht x pM Hx HM). lia.
      * intros x Hx. specialize (Hc x Hx). lia.
  - by intros [].
  - intros n Hn. rewrite <- Hk in Hn. rewrite !elem_of_app in Hn. destruct Hn as [Hn|[Hn|Hn]]; [right; left | by left | right; right].
    + specialize (Ht n pm Hn Hm). destruct HT as [->|HT]; [by apply elem_of_nil in Hn|].
      repeat split; [lia | lia|]. apply Hf. by intros ->; apply elem_of_nil in Hn.
    + pose proof (Hb n pM Hn HM). pose proof (Hb n pm Hn Hm). repeat split; [lia | lia|]. intros c Hc'. by apply Hb.
  - intros x Hx. by left.
Qed.

End Searching.

(** ** What the user interface changes *)

Section Ui.

Context (guess_train_node_name : NodeID -> string).

Abbreviation update_ui_output := (update_ui_output guess_train_node_name).

Lemma add_nodes_frame es s :
  exists i n, fold_left (fun s e => add_node_to_resultset guess_train_node_name e s) es s = set_infos i (set_entry_names n s).
Proof.
  revert s. induction es as [|[id p] es IH]; intros s; simpl; [by exists (infos s), (entry_names s); destruct s|].
  set (s1 := match infos s !! p with Some i => _ | None => s end).
  assert (E1 : exists i, s1 = set_infos i s).
  { subst s1. destruct (infos s !! p) as [i|]; [|exists (infos s); by destruct s].
    destruct (bool_decide _); [by eexists | exists (infos s); by destruct s]. }
  destruct E1 as [i ->]. destruct (IH (set_entry_names (push_back (entry_names (set_infos i s)) p) (set_infos i s))) as (i' & n & ->).
  by exists i', n.
Qed.

Lemma update_ui_frame s :
  exists i n top, snd (update_ui_output s) =
    set_infos i (set_entry_names n (set_trainNodes (find_selection_offset top (trainNodes_ s)) (set_topNodeId top s))).
Proof.
  unfold TrainNodeInfoCache.update_ui_output.
  destruct (try_move_iterator _ (- resultsBeforeTarget_ s) _) as [itt top_ok].
  destruct (if negb top_ok then _ else _) as [flags1 rmin].
  destruct (try_move_iterator _ (resultsAfterTarget_ _ + 1) _) as [itb bottom_ok].
  destruct (if negb bottom_ok then _ else _) as [flags2 rmax]. cbv zeta. simpl snd.
  match goal with |- context [fold_left _ ?es ?x] => destruct (add_nodes_frame es x) as (i & n & E) end.
  rewrite E. exists i, n, (default 0 (key_at (nodes_ (trainNodes_ s)) itt)). by destruct s.
Qed.

Lemma lower_bound_range m id : 0 <= lower_bound m id <= zlen m.
Proof.
  induction m as [|[k p] m IH]; simpl; [by split|]. rewrite zlen_cons.
  destruct (k <? id); lia.
Qed.

Lemma key_at_in m it : 0 <= it < zlen m -> exists k, key_at m it = Some k /\ k ∈ m.*1.
Proof.
  intros H. unfold key_at. destruct (proj2 (znth_is_Some m it) H) as [[k p] E]. exists k. rewrite E. split; [done|].
  apply list_elem_of_fmap. exists (k, p). split; [done|]. unfold znth in E. destruct (0 <=? it); [|done].
  by eapply list_elem_of_lookup_2.
Qed.

Lemma no_refill_bits (c : bool) :
  has_bits (Z.lor (if c then 0 else FLAGS_TARGET_NOT_FOUND) (Z.lor 0 0)) FLAGS_NEED_REFILL_CACHE = false.
Proof. by destruct c. Qed.

(** Which limits a refill gets. *)
Lemma refill_limits s flags rmin rmax (l := trainNodes_ s) :
  0 <= resultsBeforeTarget_ s -> 0 <= resultsAfterTarget_ s -> 1 <= scrollPrefetchSize_ s ->
  (resultsClippedAtTop_ l <> 0 \/ resultsClippedAtBottom_ l <> 0 ->
   resultsBeforeTarget_ s + resultsAfterTarget_ s + 1 + 2 * scrollPrefetchSize_ s <= zlen (nodes_ l)) ->
  fst (update_ui_output s) = (flags, rmin, rmax) -> has_bits flags FLAGS_NEED_REFILL_CACHE = true ->
  (rmin = kMinNode /\ rmax ∈ keys l /\ resultsClippedAtTop_ l <> 0) \/
  (rmax = kMaxNode /\ rmin ∈ keys l /\ resultsClippedAtBottom_ l <> 0).
Proof.
  intros Hb Ha Hp Hlen. unfold TrainNodeInfoCache.update_ui_output. fold l.
  pose proof (lower_bound_range (nodes_ l) (targetNodeId_ s)) as Hit.
  set (it := lower_bound (nodes_ l) (targetNodeId_ s)) in *.
  set (c := bool_decide (key_at (nodes_ l) it = _)).
  set (b := resultsBeforeTarget_ s) in *. set (a := resultsAfterTarget_ s) in *. set (p := scrollPrefetchSize_ s) in *.
  cbn [resultsAfterTarget_ scrollPrefetchSize_ set_topNodeId]. fold a p.
  unfold try_move_iterator.
  destruct (Z.ltb_spec (it + - b) 0); [|destruct (Z.ltb_spec (zlen (nodes_ l)) (it + - b)); [lia|];
    destruct (Z.ltb_spec (it + - b + - p) 0); [|destruct (Z.ltb_spec (zlen (nodes_ l)) (it + - b + - p)); [lia|]]];
  (destruct (Z.ltb_spec (it + (a + 1)) 0); [lia|]);
  (destruct (Z.ltb_spec (zlen (nodes_ l)) (it + (a + 1))); [|destruct (Z.ltb_spec (it + (a + 1) + p) 0); [lia|];
    destruct (Z.ltb_spec (zlen (nodes_ l)) (it + (a + 1) + p))]);
  destruct (Z.eqb_spec (resultsClippedAtTop_ l) 0), (Z.eqb_spec (resultsClippedAtBottom_ l) 0);
  cbn [negb fst]; intros E Hf; apply pair_equal_spec in E as [E <-]; apply pair_equal_spec in E as [<- <-];
  try (rewrite no_refill_bits in Hf; done); try (specialize (Hlen ltac:(tauto)); lia).
  all: try (destruct (key_at_in (nodes_ l) (it + (a + 1) + p - 1) ltac:(lia)) as (k & -> & Hk); left; done).
  all: try (destruct (key_at_in (nodes_ l) (it + - b + - p) ltac:(lia)) as (k & -> & Hk); right; done).
Qed.

End Ui.

(** ** Turns of the user, the search and the flow *)

Section Runs.

Context (guess_train_node_name : NodeID -> string) (W : list NodeID).

Abbreviation step := (step guess_train_node_name).

Definition is_search (e : Effect) : bool := match e with SendSearch => true | _ => false end.

Definition searches (s : Cache) : nat := length (List.filter is_search (effects s)).

(** The pages that are shown and prefetched fit into the cache together. *)
Definition settings_ok (s : Cache) : Prop :=
  0 < cacheMaxSize_ s /\ 1 <= scrollPrefetchSize_ s /\ 1 <= nodesToShow_ s <= 7 /\
  nodesToShow_ s + 2 * scrollPrefetchSize_ s <= cacheMaxSize_ s.

(** What may come in state [s] when the trains [R] have still to answer the
    current search, and those that have to answer afterwards. *)
Definition may_come (e : event) (s : Cache) (R R' : list NodeID) : Prop :=
  match e with
  | UserReset => wait s <> WaitSearch /\ R' = R
  | UserScrollTo _ before after =>
      before mod 2 ^ 4 + after mod 2 ^ 4 + 1 + 2 * scrollPrefetchSize_ s <= cacheMaxSize_ s /\ R' = R
  | Result n => R ≡ₚ n :: R'
  | SearchDone => R = [] /\ R' = R
  | _ => R' = R
  end.

Inductive reachable : Cache -> list NodeID -> Prop :=
| reach_start s : settings_ok s -> wait s = Terminated -> reachable (reset_search s) []
| reach_step e s R R' s' :
    reachable s R -> may_come e s R R' -> step e s = Some s' ->
    reachable s' (if Nat.eqb (searches s') (searches s) then R' else W).

Context (HW : NoDup W) (HWlen : zlen W < 2 ^ 15) (HWids : forall n, n ∈ W -> kMinNode < n < kMaxNode).

Abbreviation searching := (searching W).

Definition synced (s : Cache) : Prop :=
  let l := trainNodes_ s in
  resultOffset_ l = s16 (resultsClippedAtTop_ l + lower_bound (nodes_ l) (topNodeId_ s)).

Definition idle (s : Cache) : Prop :=
  settings_ok s /\ pendingSearch_ s = false /\ needSearch_ s = false /\ synced s /\
  exists T B, is_window W (cacheMaxSize_ s) T B (outline (trainNodes_ s)).

Definition asked (s : Cache) : Prop :=
  settings_ok s /\ pendingSearch_ s = true /\ searching W s.

Definition sent (R : list NodeID) (s : Cache) : Prop :=
  settings_ok s /\ pendingSearch_ s = true /\ needSearch_ s = false /\ wait s = WaitSearch /\ searching R s.

Inductive phase (s : Cache) : list NodeID -> Prop :=
| phase_idle : idle s -> wait s <> WaitSearch -> wait s <> WaitStart -> phase s []
| phase_asked : asked s -> wait s <> WaitSearch -> phase s []
| phase_sent R : sent R s -> phase s R.

(** *** Frames *)

(** Nothing that the search and the window depend on has changed. *)
Definition same (s s' : Cache) : Prop :=
  search_view s' = search_view s /\ nodesToShow_ s' = nodesToShow_ s /\
  scrollPrefetchSize_ s' = scrollPrefetchSize_ s /\ pendingSearch_ s' = pendingSearch_ s /\
  needSearch_ s' = needSearch_ s /\ (synced s -> synced s').

Lemma same_trans s1 s2 s3 : same s1 s2 -> same s2 s3 -> same s1 s3.
Proof. intros (E1 & E2 & E3 & E4 & E5 & E6) (F1 & F2 & F3 & F4 & F5 & F6). repeat split; try congruence. auto. Qed.

Lemma same_max s s' : same s s' -> cacheMaxSize_ s' = cacheMaxSize_ s.
Proof. intros (E & _). unfold search_view in E. congruence. Qed.

Lemma same_settings s s' : same s s' -> settings_ok s -> settings_ok s'.
Proof.
  intros Hs. pose proof (same_max _ _ Hs) as E. destruct Hs as (_ & E1 & E2 & _).
  unfold settings_ok. by rewrite E, E1, E2.
Qed.

Lemma same_idle s s' : same s s' -> idle s -> idle s'.
Proof.
  intros Hs (H1 & H2 & H3 & H4 & T & B & Hw). pose proof (same_max _ _ Hs) as Em.
  pose proof (same_settings _ _ Hs H1). destruct Hs as (E & _ & _ & E2 & E3 & E4).
  split; [done|]. split; [congruence|]. split; [congruence|]. split; [by apply E4|].
  exists T, B. rewrite Em. unfold search_view in E.
  by replace (outline (trainNodes_ s')) with (outline (trainNodes_ s)) by congruence.
Qed.

Lemma same_asked s s' : same s s' -> asked s -> asked s'.
Proof.
  intros Hs (H1 & H2 & H3). pose proof (same_settings _ _ Hs H1). destruct Hs as (E & _ & _ & E2 & _).
  split; [done|]. split; [congruence|]. by apply (searching_view _ _ s).
Qed.

Lemma same_sent R s s' : same s s' -> wait s' = wait s -> sent R s -> sent R s'.
Proof.
  intros Hs Hw (H1 & H2 & H3 & H4 & H5). pose proof (same_settings _ _ Hs H1). destruct Hs as (E & _ & _ & E2 & E3 & _).
  split; [done|]. split; [congruence|]. split; [congruence|]. split; [congruence|]. by apply (searching_view _ _ s).
Qed.

Lemma same_phase R s s' : same s s' -> wait s' = wait s -> phase s R -> phase s' R.
Proof.
  intros Hs Hw [Hi Hw1 Hw2|Ha Hw1|R' Hse].
  - apply phase_idle; [by apply (same_idle s) | congruence | congruence].
  - apply phase_asked; [by apply (same_asked s) | congruence].
  - apply phase_sent. by apply (same_sent R' s).
Qed.

(** The output was computed anew. *)
Definition shown (i : gmap info_ptr TrainNodeInfo) (n : list info_ptr) (top : NodeID) (s : Cache) : Cache :=
  set_infos i (set_entry_names n (set_trainNodes (find_selection_offset top (trainNodes_ s)) (set_topNodeId top s))).

Lemma shown_same i n top s : same s (shown i n top s).
Proof. repeat split. Qed.

Lemma shown_synced i n top s : synced (shown i n top s).
Proof. done. Qed.

Lemma refresh_shown s : exists i n top, refresh guess_train_node_name s = notify_ui (shown i n top s).
Proof.
  unfold refresh. destruct (update_ui_frame guess_train_node_name
    (set_trainNodes (find_selection_offset (topNodeId_ s) (trainNodes_ s)) s)) as (i & n & top & ->).
  exists i, n, top. by destruct s as [? ? ? ? ? ? ? ? ? ? ? ? ? ? [] ? ? ? ? ? ?].
Qed.

Lemma notify_same s : same s (notify_ui s).
Proof. repeat split; done. Qed.

Lemma searches_emit e s : searches (emit e s) = (searches s + if is_search e then 1 else 0)%nat.
Proof. unfold searches, emit. simpl. rewrite List.filter_app, length_app. simpl. by destruct (is_search e). Qed.

Lemma refresh_same s :
  same s (refresh guess_train_node_name s) /\ synced (refresh guess_train_node_name s) /\
  searches (refresh guess_train_node_name s) = searches s /\ wait (refresh guess_train_node_name s) = wait s.
Proof.
  destruct (refresh_shown s) as (i & n & top & ->). split; [|split; [done|split; [|done]]].
  - eapply same_trans; [apply (shown_same i n top) | apply notify_same].
  - unfold notify_ui. rewrite searches_emit. simpl. unfold searches. simpl. lia.
Qed.

(** *** The flow *)

(** The flow is about to go on; [c] searches were sent before this turn. *)
Definition ready (c : nat) (s : Cache) : Prop := searches s = c /\ (idle s \/ asked s).

Definition turned (c : nat) (s : Cache) : Prop := phase s (if Nat.eqb (searches s) c then [] else W).

Lemma ready_same c s s' : same s s' -> searches s' = searches s -> ready c s -> ready c s'.
Proof.
  intros Hs Hc [H1 H2]. split; [congruence|].
  destruct H2; [left; by apply (same_idle s) | right; by apply (same_asked s)].
Qed.

Lemma ready_refresh c s : ready c s -> ready c (refresh guess_train_node_name s).
Proof. destruct (refresh_same s) as (H1 & _ & H2 & _). by apply ready_same. Qed.

Lemma stop_turned c w s : ready c s -> w <> WaitStart -> w <> WaitSearch -> turned c (set_wait w s).
Proof.
  intros [Hc Hr] H1 H2. unfold turned. change (searches (set_wait w s)) with (searches s). rewrite Hc, Nat.eqb_refl.
  destruct Hr as [Hi|Ha].
  - apply phase_idle; [|done..]. by apply (same_idle s).
  - apply phase_asked; [|done]. by apply (same_asked s).
Qed.

Lemma send_turned c s : searches s = c -> asked s -> turned c (send_search_request s).
Proof.
  intros Hc (H1 & H2 & H3). unfold turned, send_search_request.
  change (searches (set_wait WaitSearch ?x)) with (searches x).
  rewrite searches_emit. change (searches (set_resultSetChanged _ _)) with (searches s). simpl.
  rewrite Hc. destruct (Nat.eqb_spec (c + 1) c); [lia|].
  apply phase_sent. do 4 (split; [done|]). by apply (searching_view _ _ s).
Qed.

Lemma end_turned c s s' :
  ready c s -> turned c s' -> turned c (if needSearch_ s then send_search_request s else s').
Proof.
  intros [Hc Hr] Hs'. destruct (needSearch_ s) eqn:En; [|done]. apply send_turned; [done|].
  destruct Hr as [(_ & _ & Hi & _)|]; [congruence | done].
Qed.

Lemma pass_turned c s :
  ready c s ->
  match iter_results s with
  | inl s' => turned c s'
  | inr s' => s' = s
  end.
Proof.
  intros Hr. unfold iter_results. destruct (next_nameless s) as [id|]; [|done].
  by apply stop_turned; [apply (ready_same c s)|..].
Qed.

Lemma do_iter_turned c s : ready c s -> turned c (do_iter guess_train_node_name s).
Proof.
  intros Hr. unfold do_iter. set (s1 := set_lookupIt _ _).
  assert (Hr1 : ready c s1) by (by apply (ready_same c s)).
  pose proof (pass_turned c s1 Hr1) as Hp. destruct (iter_results s1) as [s2|s2]; [done | subst s2].
  apply ready_refresh in Hr1. apply (end_turned c); [done | by apply stop_turned].
Qed.

Lemma iter_done_turned c s : ready c s -> turned c (iter_done guess_train_node_name s).
Proof.
  intros Hr%ready_refresh. unfold iter_done. apply (end_turned c); [done|].
  destruct (resultSetChanged_ _); [by apply do_iter_turned | by apply stop_turned].
Qed.

Lemma continue_turned c s : ready c s -> turned c (continue_iter guess_train_node_name s).
Proof.
  intros Hr. unfold continue_iter. pose proof (pass_turned c s Hr) as Hp.
  destruct (iter_results s) as [s'|s']; [done | subst s'; by apply iter_done_turned].
Qed.

(** All have answered. *)
Lemma search_done_turned s : sent [] s -> turned (searches s) (search_done guess_train_node_name s).
Proof.
  intros (H1 & H2 & H3 & H4 & H5). unfold search_done. destruct (refresh_same s) as (Hs & Hsync & Hc & Hw).
  set (s1 := refresh guess_train_node_name s) in *. clearbody s1. pose proof (same_settings _ _ Hs H1) as Hset.
  pose proof (same_max _ _ Hs) as Em. destruct Hs as (E & _ & _ & E2 & E3 & _). rewrite E3, H3.
  apply do_iter_turned. split; [done | left]. do 2 (split; [done|]). split; [simpl; congruence|]. split; [done|].
  apply searching_end in H5 as (T & B & Hwin). exists T, B. simpl. rewrite Em. unfold search_view in E.
  by replace (outline (trainNodes_ s1)) with (outline (trainNodes_ s)) by congruence.
Qed.

(** *** Scrolling *)

Lemma num_results_small (l : ResultList) T B max :
  zlen W < 2 ^ 16 -> is_window W max T B (outline l) -> num_results l = zlen W.
Proof.
  clear HW HWlen HWids. intros Hlen [Hk _ _ _ _ _ Hc]. injection Hc as Ec Eb _ _. unfold num_results. rewrite Ec, Eb, zlen_keys.
  assert (Hz : zlen T + zlen B + zlen (keys l) = zlen W).
  { unfold zlen. rewrite <- Hk, !length_app. simpl. lia. }
  rewrite Hz. unfold u32. apply Z.mod_small. pose proof (zlen_nonneg W). lia.
Qed.

Lemma keys_head l : keys l <> [] -> ascending (keys l) ->
  min_node l ∈ keys l /\ max_node l ∈ keys l /\ forall k, k ∈ keys l -> min_node l <= k <= max_node l.
Proof.
  intros Hne Hs. destruct (keys l) as [|x ks] eqn:E; [done|]. pose proof (min_node_cons l x ks E) as Em.
  destruct (exists_last (l := keys l)) as (ks' & y & Ey); [by rewrite E|].
  pose proof (max_node_snoc l y ks' Ey) as EM. rewrite <- E in *. rewrite Em, EM.
  split; [rewrite E; by left|]. split; [rewrite Ey; apply elem_of_app; right; by left|].
  intros k Hk. split.
  - rewrite E in Hs, Hk. apply ascending_cons in Hs as [_ Hs]. apply elem_of_cons in Hk as [->|Hk]; [lia|].
    specialize (Hs k Hk). lia.
  - rewrite Ey in Hs, Hk. apply ascending_snoc in Hs as [_ Hs].
    apply elem_of_app in Hk as [Hk|Hk%list_elem_of_singleton]; [specialize (Hs k Hk)|]; lia.
Qed.

(** A new search with the limits of a refill. *)
Lemma paginate_asked s rmin rmax (l := trainNodes_ s) :
  idle s ->
  (rmin = kMinNode /\ rmax ∈ keys l /\ resultsClippedAtTop_ l <> 0) \/
  (rmax = kMaxNode /\ rmin ∈ keys l /\ resultsClippedAtBottom_ l <> 0) ->
  asked (invoke_paginate (set_maxResult rmax (set_minResult rmin s))).
Proof.
  intros (Hset & _ & _ & _ & T & B & Hw) Hr. pose proof (window_mirror_back _ _ _ _ _ Hw) as Hw'.
  destruct Hw as [Hk Hs Ht Hb Hl Hf Hc].
  set (s' := invoke_paginate _).
  assert (E : trainNodes_ s' = clear_to_paginate (finalize_search l) /\ minResult_ s' = rmin /\ maxResult_ s' = rmax /\
    cacheMaxSize_ s' = cacheMaxSize_ s /\ pendingSearch_ s' = true /\ nodesToShow_ s' = nodesToShow_ s /\
    scrollPrefetchSize_ s' = scrollPrefetchSize_ s).
  { subst s'. unfold invoke_paginate, invoke_search. simpl. by destruct (wait s). }
  clearbody s'. destruct E as (E1 & E2 & E3 & E4 & E5 & E6 & E7).
  subst l. remember (trainNodes_ s) as l eqn:El. clear El.
  split; [unfold settings_ok; by rewrite E4, E6, E7|]. split; [done|].
  injection Hc as Ec Eb Ent Enb. change (o_keys (outline l)) with (keys l) in *.
  assert (Hne : keys l <> []) by (destruct Hr as [(_ & Hi & _)|(_ & Hi & _)]; by intros H; rewrite H in Hi; apply elem_of_nil in Hi).
  destruct (keys_head l Hne Hs) as (Hm & HM & Hbd).
  assert (Hd : NoDup (keys l)) by (by apply ascending_NoDup).
  assert (Ho : outline (trainNodes_ s') = mkOutline (keys l) (zlen T) (zlen B) 0 0)
    by (rewrite E1; unfold outline; simpl; by rewrite Ent, Enb).
  assert (Epm : previousMinNode_ (trainNodes_ s') = min_node l) by (by rewrite E1).
  assert (EpM : previousMaxNode_ (trainNodes_ s') = max_node l) by (by rewrite E1).
  destruct Hr as [(-> & Hi & Hz)|(-> & Hi & Hz)].
  - assert (HT : T <> []) by (intros ->; by rewrite Ec in Hz).
    assert (Hhi : rmax < kMaxNode) by (apply HWids; rewrite <- Hk, !elem_of_app; tauto).
    eapply (searching_up W _ _ (reverse (neg (keys l))) [] []); cbv zeta; rewrite ?E2, ?E3, ?E4, ?Epm, ?EpM; try done.
    + intros c Hc'. rewrite elem_of_reverse, elem_of_neg in Hc'. specialize (Hbd _ Hc'). lia.
    + apply ascending_NoDup. by apply ascending_mirror.
    + specialize (Hbd _ HM). lia.
    + rewrite Ho. unfold mirror. simpl. rewrite <- (zlen_neg T), <- (zlen_neg B).
      destruct Hw' as [Hk' Hs' Ht' Hb' Hl' Hf' _].
      apply page_going_down; try done.
      * by apply NoDup_neg.
      * intros Hn. apply Hf'. by left.
      * by rewrite elem_of_reverse, elem_of_neg, Z.opp_involutive.
      * by rewrite elem_of_reverse, elem_of_neg, Z.opp_involutive.
      * intros c Hc'. rewrite elem_of_reverse, elem_of_neg in Hc'. specialize (Hbd _ Hc'). lia.
      * specialize (Hbd _ Hi). lia.
      * right. specialize (Hbd _ Hi). lia.
  - assert (HB : B <> []) by (intros ->; by rewrite Eb in Hz).
    eapply (searching_down W _ _ (keys l) [] []); cbv zeta; rewrite ?E2, ?E3, ?E4, ?Epm, ?EpM; try done.
    + specialize (Hbd _ HM). lia.
    + rewrite Ho. apply page_going_down; try done.
      * intros Hn. apply Hf. by left.
      * specialize (Hbd _ Hi). lia.
      * right. specialize (Hbd _ Hi). lia.
Qed.

Lemma scroll_turned target before after s R :
  before mod 2 ^ 4 + after mod 2 ^ 4 + 1 + 2 * scrollPrefetchSize_ s <= cacheMaxSize_ s ->
  phase s R ->
  phase (snd (scroll_to guess_train_node_name target before after s)) R /\
  searches (snd (scroll_to guess_train_node_name target before after s)) = searches s.
Proof.
  intros Hfit Hp. unfold scroll_to. set (s0 := set_resultsAfterTarget _ _).
  destruct (update_ui_frame guess_train_node_name s0) as (i & n & top & Es).
  pose proof (refill_limits guess_train_node_name s0) as Hlim.
  destruct (update_ui_output guess_train_node_name s0) as [[[flags rmin] rmax] s1]. cbn [snd] in Es. subst s1.
  assert (Hs : same s (shown i n top s0)) by (repeat split).
  fold (shown i n top s0). set (s1 := shown i n top s0) in *.
  assert (Hp1 : phase s1 R) by (by apply (same_phase R s)).
  destruct (has_bits flags FLAGS_NEED_REFILL_CACHE) eqn:Ef; [|by split].
  destruct (pendingSearch_ s1) eqn:Ep; [by split|].
  assert (Hidle : idle s /\ wait s <> WaitSearch /\ R = []).
  { destruct Hp as [Hi Hw1 Hw2|(_ & Hpend & _) Hw1|R (_ & Hpend & _)]; [done | |];
      exfalso; change (pendingSearch_ s = false) in Ep; congruence. }
  destruct Hidle as (Hidle & Hw & ->). cbn [negb andb snd].
  assert (Hask : asked (invoke_paginate (set_maxResult rmax (set_minResult rmin s1)))).
  { apply paginate_asked; [by apply (same_idle s)|].
    destruct Hidle as ((_ & Hp' & _) & _ & _ & _ & T & B & [_ _ _ _ _ Hfull Hc]).
    apply (Hlim flags rmin rmax); try done; try (apply Z.mod_pos_bound; lia).
    intros Hclip. change (zlen (nodes_ (trainNodes_ s0))) with (zlen (nodes_ (trainNodes_ s))). rewrite zlen_keys.
    change (keys (trainNodes_ s)) with (o_keys (outline (trainNodes_ s))). rewrite Hfull; [done|].
    injection Hc as Ec Eb _ _. change (trainNodes_ s0) with (trainNodes_ s) in Hclip. rewrite Ec, Eb in Hclip.
    destruct Hclip as [Hz|Hz]; [left | right]; intros ->; by apply Hz. }
  assert (Hwait : wait (invoke_paginate (set_maxResult rmax (set_minResult rmin s1))) <> WaitSearch /\
    searches (invoke_paginate (set_maxResult rmax (set_minResult rmin s1))) = searches s).
  { unfold invoke_paginate, invoke_search. cbn -[searches]. destruct (wait s) eqn:Ew; (split; [first [change (wait s <> WaitSearch); congruence | by intros H; cbn in H] | done]). }
  destruct Hwait. split; [by apply phase_asked | done].
Qed.

Lemma phase_settings s R : phase s R -> settings_ok s.
Proof. by intros [(H & _) _ _|(H & _) _|R' (H & _)]. Qed.

Lemma phase_ready s R : phase s R -> wait s <> WaitSearch -> ready (searches s) s /\ R = [].
Proof.
  intros [Hi Hw1 Hw2|Ha Hw1|R' (_ & _ & _ & Hw & _)] Hw'; [| |done]; (split; [split; [done|] | done]); [by left | by right].
Qed.

Lemma scroll_line_turned s R id :
  phase s R ->
  phase (snd (scroll_to guess_train_node_name id 0 (u16 (nodesToShow_ s - 1)) s)) R /\
  searches (snd (scroll_to guess_train_node_name id 0 (u16 (nodesToShow_ s - 1)) s)) = searches s.
Proof.
  intros Hp. apply scroll_turned; [|done]. destruct (phase_settings s R Hp) as (H1 & H2 & H3 & H4).
  rewrite u16_small by lia. rewrite !Z.mod_small by lia. lia.
Qed.

Lemma reset_turned s R : phase s R -> wait s <> WaitSearch -> phase (reset_search s) [] /\ searches (reset_search s) = searches s.
Proof.
  intros Hp Hw. pose proof (phase_settings s R Hp) as Hset.
  assert (E : settings_ok (reset_search s) /\ pendingSearch_ (reset_search s) = true /\ wait (reset_search s) <> WaitSearch /\
    searches (reset_search s) = searches s).
  { unfold reset_search, invoke_search. cbn -[searches]. destruct (wait s) eqn:Ew; (split; [done|]); (split; [done|]);
      (split; [cbn; congruence | done]). }
  destruct E as (E1 & E2 & E3 & E4). split; [|done]. apply phase_asked; [|done].
  split; [done|]. split; [done|]. apply reset_searching; [done | apply Hset].
Qed.

Lemma cancel_turned s R : phase s R -> phase (cancel s) R.
Proof.
  intros [Hi Hw1 Hw2|Ha Hw1|R' (H1 & H2 & H3 & H4 & H5)].
  - apply phase_idle; [|done..]. apply (same_idle s); [|done]. repeat split; try done. symmetry. apply Hi.
  - destruct Ha as (H1 & H2 & H3). apply phase_asked; [|done]. split; [done|]. split; [done|]. by apply (searching_view _ _ s).
  - apply phase_sent. do 4 (split; [done|]). by apply (searching_view _ _ s).
Qed.

Lemma answer_turned n s R R' :
  phase s R -> R ≡ₚ n :: R' -> n ∈ W ->
  phase (result_callback n s) R' /\ searches (result_callback n s) = searches s.
Proof.
  intros Hp Hperm Hn.
  assert (Hsent : sent R s) by (destruct Hp as [_ _ _|_ _|]; [by apply Permutation_nil_cons in Hperm..|done]).
  destruct Hsent as (H1 & H2 & H3 & H4 & H5). apply HWids in Hn as Hn'.
  unfold result_callback. destruct (Z.eqb_spec n 0) as [->|_]; [unfold kMinNode in Hn'; lia|].
  destruct (add_to_list_rest n s) as (Ew & Ep & En & Es & Ep' & Ee). destruct (add_to_list_frame n s) as (_ & _ & Em).
  set (s1 := add_to_list n s) in *. assert (Hs1 : searching R' s1).
  { apply searching_answer; [done | done | done | apply H1 | done | by apply (searching_perm _ R)]. }
  clearbody s1. change (wait (set_resultSetChanged true s1)) with (wait s1). rewrite Ew, H4.
  split; [|unfold searches; cbn; by rewrite Ee].
  apply phase_sent. split; [unfold settings_ok; cbn; by rewrite Em, Es, Ep'|]. do 3 (split; [cbn; congruence|]).
  by apply (searching_view _ _ s1).
Qed.

Lemma snip_same src d s :
  same s (handle_snip_response src d s) /\ wait (handle_snip_response src d s) = wait s /\
  searches (handle_snip_response src d s) = searches s.
Proof.
  assert (Hrefl : same s s) by (repeat split; done).
  unfold handle_snip_response. destruct (src =? 0); [done|]. destruct (find_node _ src) as [p|]; [|done].
  destruct (infos s !! p) as [i|], (snip_name d) as [n|]; try done. destruct (hasNodeName_ i); [done|].
  destruct (bool_decide _); [|repeat split; done].
  split; [repeat split; done|]. split; [done|]. unfold notify_ui. rewrite searches_emit. simpl. unfold searches. simpl. lia.
Qed.

Lemma step_turned e s R R' s' :
  phase s R -> may_come e s R R' -> (forall n, n ∈ R -> n ∈ W) -> step e s = Some s' ->
  phase s' (if Nat.eqb (searches s') (searches s) then R' else W).
Proof.
  intros Hp Hc HR Hstep.
  assert (Hstay : forall x, phase x R' /\ searches x = searches s -> phase x (if Nat.eqb (searches x) (searches s) then R' else W))
    by (intros x [H1 ->]; by rewrite Nat.eqb_refl).
  assert (Hturn : R' = [] -> forall x, turned (searches s) x -> phase x (if Nat.eqb (searches x) (searches s) then R' else W))
    by (intros -> x H; apply H).
  assert (Hready : R' = R -> wait s <> WaitSearch -> ready (searches s) s /\ R' = [])
    by (intros -> Hw; by apply phase_ready).
  destruct e as [| | t b a | | | | | | | n | src d]; simpl in Hstep, Hc.
  - injection Hstep as <-. destruct Hc as [Hw ->]. destruct (phase_ready s R Hp Hw) as [_ ->].
    apply Hstay. by apply (reset_turned s []).
  - injection Hstep as <-. subst R'. apply Hstay. split; [by apply cancel_turned | done].
  - injection Hstep as <-. destruct Hc as [Hfit ->]. apply Hstay. by apply scroll_turned.
  - injection Hstep as <-. subst R'. apply Hstay. unfold scroll_down.
    destruct (try_move_iterator _ 1 _) as [it []]; [|by split]. destruct (try_move_iterator _ _ it) as [it' []]; [|by split].
    destruct (key_at _ it); [by apply scroll_line_turned | by split].
  - injection Hstep as <-. subst R'. apply Hstay. unfold scroll_up.
    destruct (try_move_iterator _ (-1) _) as [it []]; [|by split].
    destruct (key_at _ it); [by apply scroll_line_turned | by split].
  - destruct (wait s) eqn:Ew; try done; injection Hstep as <-; destruct (Hready Hc ltac:(done)) as [Hr ->]; apply Hturn; try done.
    + apply send_turned; [done|]. destruct Hp as [_ _ Hw|Ha _|R' (_ & _ & _ & Hw & _)]; [done | done | congruence].
    + by apply do_iter_turned.
  - destruct (wait s) eqn:Ew; try done. injection Hstep as <-. destruct Hc as [-> ->]. apply Hturn; [done|].
    apply search_done_turned. by destruct Hp as [_ Hw _|_ Hw|].
  - destruct (wait s) eqn:Ew; try done. injection Hstep as <-. destruct (Hready Hc ltac:(done)) as [Hr ->].
    apply Hturn; [done|]. apply stop_turned; [|done..]. apply (ready_same _ s); [repeat split; done | | done].
    rewrite searches_emit. simpl. lia.
  - destruct (wait s) eqn:Ew; try done. injection Hstep as <-. destruct (Hready Hc ltac:(done)) as [Hr ->].
    apply Hturn; [done|]. apply continue_turned. apply (ready_same _ s); [repeat split; done | done | done].
  - injection Hstep as <-. apply Hstay. apply (answer_turned n s R); [done | done|]. apply HR. rewrite Hc. by left.
  - injection Hstep as <-. subst R'. apply Hstay. destruct (snip_same src d s) as (H1 & H2 & H3).
    split; [by apply (same_phase R s) | done].
Qed.

Lemma may_come_sub e s R R' : may_come e s R R' -> forall n, n ∈ R' -> n ∈ R.
Proof.
  destruct e; simpl; first [by intros -> | intros Hp n Hn; rewrite Hp; by right | by intros [_ ->]].
Qed.

Lemma reachable_phase s R : reachable s R -> phase s R /\ forall n, n ∈ R -> n ∈ W.
Proof.
  induction 1 as [s Hset Hw|e s R R' s' _ [Hp HR] Hc Hstep].
  - split; [|by intros n Hn%elem_of_nil].
    assert (E : settings_ok (reset_search s) /\ pendingSearch_ (reset_search s) = true /\ wait (reset_search s) <> WaitSearch)
      by (unfold reset_search, invoke_search; cbn; by rewrite Hw).
    destruct E as (E1 & E2 & E3). apply phase_asked; [|done]. split; [done|]. split; [done|].
    apply reset_searching; [done | apply Hset].
  - split; [by apply (step_turned e s R)|]. destruct (Nat.eqb _ _); [|done].
    intros n Hn. by apply HR, (may_come_sub e s R R' Hc).
Qed.

Lemma lower_bound_filter m top : ascending m.*1 -> lower_bound m top = zlen (filter (fun n => n < top) m.*1).
Proof.
  induction m as [|[k p] m IH]; [done|]. intros Hs. csimpl in *. apply ascending_cons in Hs as [Hs Hk].
  rewrite filter_cons. destruct (Z.ltb_spec k top) as [Hlt|Hge].
  - by rewrite decide_True, zlen_cons, IH.
  - rewrite decide_False by lia. rewrite filter_none; [done|]. intros x Hx. specialize (Hk x Hx). lia.
Qed.

(** The trains before the first one shown. *)
Lemma window_offset s T B :
  synced s -> is_window W (cacheMaxSize_ s) T B (outline (trainNodes_ s)) -> topNodeId_ s ∈ keys (trainNodes_ s) ->
  first_result_offset s = zlen (filter (fun n => n < topNodeId_ s) W).
Proof.
  intros Hsync [Hk Hs Ht Hb _ _ Hc] Htop. unfold first_result_offset. rewrite Hsync.
  injection Hc as Ec _ _ _. rewrite Ec, lower_bound_filter by done.
  assert (E : zlen (filter (fun n => n < topNodeId_ s) W) =
    zlen T + zlen (filter (fun n => n < topNodeId_ s) (keys (trainNodes_ s)))).
  { unfold zlen at 1. rewrite <- Hk, !filter_app. rewrite (filter_every _ T), (filter_none _ B), app_nil_r.
    - rewrite length_app, Nat2Z.inj_add. done.
    - intros x Hx. specialize (Hb x _ Hx Htop). lia.
    - intros x Hx. by apply Ht. }
  rewrite E. assert (Hle : zlen (filter (fun n => n < topNodeId_ s) W) <= zlen W)
    by (unfold zlen; pose proof (length_filter (fun n => n < topNodeId_ s) W); lia).
  rewrite E in Hle. unfold keys in *. set (z := zlen T + _) in *.
  assert (0 <= z) by (unfold z; pose proof (zlen_nonneg T); pose proof (zlen_nonneg (filter (fun n => n < topNodeId_ s) (nodes_ (trainNodes_ s)).*1)); lia).
  unfold s16, u32. rewrite (Z.mod_small (z + 2 ^ 15)) by lia. rewrite Z.mod_small by lia. lia.
Qed.

Lemma sorted_version l : NoDup l -> exists l', l' ≡ₚ l /\ ascending l'.
Proof.
  intros Hd. exists (merge_sort Z.le l). pose proof (merge_sort_Permutation Z.le l) as Hp. split; [done|].
  pose proof (StronglySorted_merge_sort Z.le l) as Hs. assert (Hd' : NoDup (merge_sort Z.le l)) by (by rewrite Hp).
  clear Hp. induction Hs as [|x l' Hs IH Hx]; constructor.
  - apply NoDup_cons in Hd' as [_ Hd']. by apply IH.
  - apply NoDup_cons in Hd' as [Hn _]. rewrite Forall_forall in Hx |- *. intros y Hy. specialize (Hx y Hy).
    destruct (decide (x = y)) as [->|]; [done | lia].
Qed.

Lemma window_slice max T B o : is_window W max T B o -> o_keys o <> [] ->
  exists T' B', T' ++ o_keys o ++ B' ≡ₚ W /\ ascending (T' ++ o_keys o ++ B').
Proof.
  intros [Hk Hs Ht Hb _ _ _] Hne.
  assert (Hd : NoDup (T ++ o_keys o ++ B)) by (by rewrite Hk).
  apply NoDup_app in Hd as (HdT & _ & Hd). apply NoDup_app in Hd as (_ & _ & HdB).
  destruct (sorted_version T HdT) as (T' & HT & HsT). destruct (sorted_version B HdB) as (B' & HB & HsB).
  exists T', B'. split; [by rewrite HT, HB|]. rewrite !ascending_app.
  destruct (o_keys o) as [|k ks] eqn:E; [done|].
  split; [done|]. split; [split; [done|split; [done|]]|].
  - intros x y Hx Hy. rewrite HB in Hy. by apply Hb.
  - intros x y Hx Hy. rewrite HT in Hx. apply elem_of_app in Hy as [Hy|Hy]; [by apply Ht|].
    rewrite HB in Hy. pose proof (Ht x k Hx ltac:(by left)). pose proof (Hb y k Hy ltac:(by left)). lia.
Qed.

(** C7: Over every run in which the user searches and scrolls, the flow goes on
    and the trains answer each search once, in any order, if the user begins no
    new search while the answers to one are outstanding and scrolls by no more
    lines than fit the cache: the cache never holds more than its limit, and
    while no search is pending it is a gapless piece of the sorted list of all
    the trains that answer, the number of results is theirs, and the offset of
    the display is the number of those before the first one shown.  A new search
    while answers are outstanding can make the number of results too large
    ([reset_during_search_counts_twice], TrainNodeInfoCache.hxx:80). *)
Theorem cache_is_window s R (l := trainNodes_ s) :
  reachable s R ->
  zlen (nodes_ l) <= cacheMaxSize_ s /\
  (pendingSearch_ s = false ->
   num_results l = zlen W /\
   (topNodeId_ s ∈ keys l -> first_result_offset s = zlen (filter (fun n => n < topNodeId_ s) W)) /\
   exists T B, T ++ keys l ++ B ≡ₚ W /\ ascending (T ++ keys l ++ B)).
Proof.
  intros Hr. apply reachable_phase in Hr as [Hp _]. rewrite zlen_keys.
  destruct Hp as [(Hset & _ & _ & Hsync & T & B & Hw) _ _|(_ & Hpend & Hs) _|R (_ & Hpend & _ & _ & Hs)].
  - split; [apply Hw|]. intros _. split; [by apply (num_results_small l T B (cacheMaxSize_ s)); [lia|]|].
    split; [by apply (window_offset s T B)|].
    destruct (decide (keys l = [])) as [E|Hne]; [|by apply (window_slice (cacheMaxSize_ s) T B (outline l))].
    destruct Hset as [Hmax _]. destruct Hw as [Hk _ _ _ _ Hfull _]. change (o_keys (outline _)) with (keys l) in *.
    rewrite E in *. assert (HTB : T = [] /\ B = []).
    { destruct (decide (T = [])), (decide (B = [])); try done; exfalso; specialize (Hfull ltac:(tauto));
        rewrite <- Hfull in Hmax; done. }
    destruct HTB as [-> ->].
    exists [], []. split; [done | constructor].
  - split; [by eapply searching_len|]. congruence.
  - split; [by eapply searching_len|]. congruence.
Qed.

End Runs.

(** ** A new search *)

Definition reset_going (W : list NodeID) (max : Z) (R : list NodeID) (s : Cache) : Prop :=
  minResult_ s = kMinNode /\ maxResult_ s = kMaxNode /\ cacheMaxSize_ s = max /\
  previousMinNode_ (trainNodes_ s) = kMinNode /\ previousMaxNode_ (trainNodes_ s) = kMaxNode /\
  exists T B, going_down [] W max kMinNode kMinNode kMaxNode R T B (outline (trainNodes_ s)).

Lemma reset_going_start W s :
  (forall n, n ∈ W -> kMinNode < n < kMaxNode) -> 0 < cacheMaxSize_ s -> reset_going W (cacheMaxSize_ s) W (reset_search s).
Proof.
  intros Hids Hmax. destruct (reset_going_down W Hids s) as [Hg|]; [|lia].
  unfold reset_going, reset_search, invoke_search. cbn. destruct (wait s); repeat (split; [done|]); by exists [], [].
Qed.

Lemma reset_going_step W max n R s :
  0 < max -> NoDup W -> zlen W < 2 ^ 16 -> kMinNode < n < kMaxNode ->
  reset_going W max (n :: R) s -> reset_going W max R (add_to_list n s).
Proof.
  intros Hmax HW Hlen Hn (E1 & E2 & E3 & E4 & E5 & T & B & Hg).
  destruct (add_to_list_frame n s) as (F1 & F2 & F3). pose proof (gd_progress _ _ _ _ _ _ _ _ _ _ Hg) as [[Hs _ _ _] Hl _ _ _].
  destruct (down_answered s n ltac:(lia) Hs ltac:(rewrite E3; apply Hl) ltac:(lia) ltac:(lia)) as [[L1 L2] Ha].
  rewrite E1, E3, E4, E5 in Ha.
  destruct (down_step [] W max kMinNode kMinNode kMaxNode Hmax HW Hlen ltac:(by intros c Hc%elem_of_nil) ltac:(constructor) ltac:(done)
    n R T B _ _ Hg Ha) as (T' & B' & Hg').
  unfold reset_going. rewrite F1, F2, F3, L1, L2. repeat (split; [done|]). by exists T', B'.
Qed.

Lemma ascending_le l : ascending l -> StronglySorted Z.le l.
Proof.
  induction l as [|x l IH]; intros H; [constructor|]. apply ascending_cons in H as [H Hx].
  constructor; [by apply IH|]. apply Forall_forall. intros y Hy. specialize (Hx y Hy). lia.
Qed.

(** C33: When the trains [ns] answer a new search, in any order, the cache holds
    the first ones of their sorted list, as many as fit, and the number of
    results counts them all. *)
Theorem fresh_search_is_sorted_prefix s (ns : list NodeID) :
  NoDup ns -> zlen ns < 2 ^ 16 -> (forall n, n ∈ ns -> kMinNode < n < kMaxNode) -> 0 < cacheMaxSize_ s ->
  let l := trainNodes_ (fold_left (fun s n => add_to_list n s) ns (reset_search s)) in
  keys l = take (Z.to_nat (cacheMaxSize_ s)) (merge_sort Z.le ns) /\ num_results l = zlen ns.
Proof.
  intros Hd Hlen Hids Hmax.
  assert (Hfold : forall R s', reset_going ns (cacheMaxSize_ s) R s' ->
    (forall n, n ∈ R -> n ∈ ns) -> reset_going ns (cacheMaxSize_ s) [] (fold_left (fun s n => add_to_list n s) R s')).
  { induction R as [|n R IH]; intros s' Hg HR; [done|]. apply IH; [|intros m Hm; apply HR; by right].
    apply reset_going_step; [done.. | apply Hids, HR; by left | done]. }
  specialize (Hfold ns (reset_search s) (reset_going_start ns s Hids Hmax) ltac:(done)).
  intros l. destruct Hfold as (_ & _ & _ & _ & _ & T & B & [Hp _ _ HT _ _]). fold l in Hp.
  apply progress_window in Hp as Hw.
  split; [|by apply (num_results_small ns l T B (cacheMaxSize_ s))].
  destruct Hw as [Hk Hs Ht Hb Hl Hf Hc]. change (o_keys (outline l)) with (keys l) in *.
  assert (T = []) as ->.
  { destruct T as [|t T]; [done|]. specialize (HT t ltac:(by left)).
    specialize (Hids t ltac:(rewrite <- Hk; by left)). lia. }
  assert (HdB : NoDup B) by (assert (Hd' : NoDup (keys l ++ B)) by (by rewrite Hk); by apply NoDup_app in Hd' as (_ & _ & ?)).
  destruct (sorted_version B HdB) as (B' & HB & HsB).
  assert (E : merge_sort Z.le ns = keys l ++ B').
  { apply (StronglySorted_unique Z.le); [apply StronglySorted_merge_sort; apply _ | |].
    - apply ascending_le, ascending_app. split; [done|]. split; [done|]. intros x y Hx Hy. rewrite HB in Hy. by apply Hb.
    - rewrite merge_sort_Permutation, <- Hk, HB. done. }
  rewrite E. destruct (decide (B = [])) as [->|Hne].
  - apply Permutation_nil_r in HB as ->. rewrite app_nil_r, take_ge; [done|]. unfold zlen in Hl. lia.
  - rewrite <- (Hf ltac:(by right)). unfold zlen. by rewrite Nat2Z.id, take_app_length.
Qed.
