(* ===== verification/TrainCacheDisplay.v ===== *)
(** The display of the cache of search results: which lines are shown, and which
    train each of them stands for. *)

From stdpp Require Import sorting.
From S2P Require Import Prelude TrainNodeInfoCache TrainCacheWindow TrainCacheRuns.

(** The lines of a page: the entries around the target, as far as there are. *)
Definition page (s : Cache) : NodeCacheMap :=
  let m := nodes_ (trainNodes_ s) in
  let it := lower_bound m (targetNodeId_ s) in
  slice m (Z.max 0 (it - resultsBeforeTarget_ s)) (Z.min (zlen m) (it + resultsAfterTarget_ s + 1)).

Lemma try_move_back m count it : 0 <= count -> 0 <= it <= zlen m -> fst (try_move_iterator m (- count) it) = Z.max 0 (it - count).
Proof.
  intros Hc Hit. unfold try_move_iterator. destruct (Z.ltb_spec (it + - count) 0); simpl; [lia|].
  destruct (Z.ltb_spec (zlen m) (it + - count)); simpl; lia.
Qed.

Lemma try_move_on m count it : 0 <= count -> 0 <= it <= zlen m -> fst (try_move_iterator m count it) = Z.min (zlen m) (it + count).
Proof.
  intros Hc Hit. unfold try_move_iterator. destruct (Z.ltb_spec (it + count) 0); simpl; [lia|].
  destruct (Z.ltb_spec (zlen m) (it + count)); simpl; lia.
Qed.

Lemma znth_slice m from to i :
  0 <= from -> 0 <= i -> znth (slice m from to) i = if i <? to - from then znth m (from + i) else None.
Proof.
  intros Hf Hi. unfold slice, znth. destruct (Z.leb_spec 0 i); [|lia]. destruct (Z.leb_spec 0 (from + i)); [|lia].
  destruct (Z.ltb_spec i (to - from)).
  - rewrite lookup_take_lt by lia. rewrite lookup_drop. f_equal. lia.
  - apply lookup_take_ge. lia.
Qed.

Lemma znth_fmap {A B} (f : A -> B) l i : znth (f <$> l) i = f <$> znth l i.
Proof. unfold znth. destruct (0 <=? i); [apply list_lookup_fmap | done]. Qed.

(** The position of a key of a sorted map. *)
Lemma lower_bound_at m i k : ascending m.*1 -> key_at m i = Some k -> lower_bound m k = i.
Proof.
  unfold key_at. revert i. induction m as [|[k' p] m IH]; intros i Hs Hi.
  { destruct (znth [] i) eqn:E; [|done]. apply znth_Some in E as [? H]. change (i < 0) in H. lia. }
  csimpl in Hs. apply ascending_cons in Hs as [Hs Hk']. simpl.
  destruct (znth ((k', p) :: m) i) as [[k0 q]|] eqn:E; [|done]. injection Hi as ->.
  pose proof (znth_Some _ _ _ E) as Hr. rewrite zlen_cons in Hr.
  destruct (decide (i = 0)) as [->|Hne].
  - injection E as -> _. by rewrite Z.ltb_irrefl.
  - assert (E' : znth m (i - 1) = Some (k, q)).
    { unfold znth in *. destruct (Z.leb_spec 0 i), (Z.leb_spec 0 (i - 1)); try lia.
      replace (Z.to_nat i) with (S (Z.to_nat (i - 1))) in E by lia. done. }
    assert (Hin : k ∈ m.*1).
    { unfold znth in E'. destruct (0 <=? i - 1); [|done]. apply list_elem_of_fmap. exists (k, q). split; [done|].
      by eapply list_elem_of_lookup_2. }
    specialize (Hk' k Hin). destruct (Z.ltb_spec k' k); [|lia].
    rewrite (IH (i - 1)); [lia | done | by rewrite E'].
Qed.

Section Display.

Context (guess_train_node_name : NodeID -> string).

Abbreviation update_ui_output := (update_ui_output guess_train_node_name).

Lemma add_nodes_names es s :
  entry_names (fold_left (fun s e => add_node_to_resultset guess_train_node_name e s) es s) = entry_names s ++ es.*2.
Proof.
  revert s. induction es as [|[id p] es IH]; intros s; csimpl; [by rewrite app_nil_r|].
  rewrite IH. simpl. rewrite cons_middle, app_assoc. f_equal. destruct (infos s !! p) as [i|]; [|done].
  by destruct (bool_decide _).
Qed.

(** The output of a page, and its first line. *)
Lemma update_ui_page s (m := nodes_ (trainNodes_ s)) (s' := snd (update_ui_output s)) :
  0 <= resultsBeforeTarget_ s -> 0 <= resultsAfterTarget_ s ->
  entry_names s' = (page s).*2 /\ nodes_ (trainNodes_ s') = m /\
  topNodeId_ s' = default 0 (key_at m (Z.max 0 (lower_bound m (targetNodeId_ s) - resultsBeforeTarget_ s))).
Proof.
  intros Hb Ha. pose proof (lower_bound_range m (targetNodeId_ s)) as Hit. subst s'. unfold TrainNodeInfoCache.update_ui_output.
  pose proof (try_move_back m (resultsBeforeTarget_ s) (lower_bound m (targetNodeId_ s)) Hb Hit) as Et.
  pose proof (try_move_on m (resultsAfterTarget_ s + 1) (lower_bound m (targetNodeId_ s)) ltac:(lia) Hit) as Eb.
  fold m. destruct (try_move_iterator m (- resultsBeforeTarget_ s) _) as [itt top_ok].
  destruct (if negb top_ok then _ else _) as [flags1 rmin]. cbn [resultsAfterTarget_ set_topNodeId].
  destruct (try_move_iterator m (resultsAfterTarget_ s + 1) _) as [itb bottom_ok].
  destruct (if negb bottom_ok then _ else _) as [flags2 rmax]. cbv zeta. cbn [snd]. simpl in Et, Eb. subst itt itb.
  rewrite Z.add_assoc. split; [by rewrite add_nodes_names|].
  match goal with |- context [fold_left _ ?es ?x] => destruct (add_nodes_frame guess_train_node_name es x) as (i & n & ->) end.
  done.
Qed.

(** After an update of the output there is one name per line of the page,
    which has up to the asked number of entries before and after the target, and
    asking for the train of a line gives the id of that line; further lines
    give 0. *)
Theorem lines_have_their_ids s i (s' := snd (update_ui_output s)) :
  ascending (keys (trainNodes_ s)) -> zlen (nodes_ (trainNodes_ s)) < 2 ^ 16 ->
  0 <= resultsBeforeTarget_ s -> 0 <= resultsAfterTarget_ s -> 0 <= i < 2 ^ 16 ->
  entry_names s' = (page s).*2 /\ get_result_id i s' = Some (default 0 (fst <$> znth (page s) i)).
Proof.
  intros Hs Hlen Hb Ha Hi. destruct (update_ui_page s Hb Ha) as (En & Em & Et). fold s' in En, Em, Et.
  split; [done|]. unfold get_result_id. rewrite Em, En, znth_fmap, Et.
  pose proof (lower_bound_range (nodes_ (trainNodes_ s)) (targetNodeId_ s)) as Hit. unfold page.
  set (m := nodes_ (trainNodes_ s)) in *. set (it := lower_bound m (targetNodeId_ s)) in *.
  set (itt := Z.max 0 (it - resultsBeforeTarget_ s)) in *. set (itb := Z.min (zlen m) (it + resultsAfterTarget_ s + 1)).
  rewrite znth_slice by lia. replace (s32 i) with i by (unfold s32; rewrite Z.mod_small; lia).
  destruct (decide (itt = zlen m)) as [Eend|Hne].
  { destruct (Z.ltb_spec i (itb - itt)); [lia|].
    by destruct (try_move_iterator m i (lower_bound m (default 0 (key_at m itt)))) as [it' []]. }
  destruct (key_at_in m itt ltac:(lia)) as (k & Ek & _). rewrite Ek. simpl default.
  rewrite (lower_bound_at m itt k Hs Ek). unfold try_move_iterator.
  destruct (Z.ltb_spec (itt + i) 0); [lia|]. destruct (Z.ltb_spec (zlen m) (itt + i)) as [Hbig|Hfits]; simpl.
  - by destruct (Z.ltb_spec i (itb - itt)); [lia|].
  - destruct (Z.ltb_spec i (itb - itt)) as [Hin|Hout]; simpl; [|done].
    destruct (proj2 (znth_is_Some m (itt + i)) ltac:(lia)) as [[id p] ->]. simpl. by rewrite Pos.eqb_refl.
Qed.

End Display.
