(* ===== verification/RailcomBroadcast.v ===== *)
(** Locomotives that detectors see by RailCom
    (src/cs/commandstation/RailcomBroadcastFlow.hxx): broadcasts on channel 1 and
    answers to packets on channel 2 become events of a locomotive that enters or
    leaves a detector.

    [std::map] is the list of its entries in the order of keys.  The hub, the
    bus, the decoder of channel 1 and the table of the RailCom encoding are
    OpenMRN code: [step] is one event at this flow, and the decoder is the class
    [BroadcastDecoder].  [handle_dcc_packet] is called from another thread; it and
    the states of the flow that use the trackers are steps.  The ring of log
    entries is not modelled. *)

From S2P Require Import Prelude.

(** ** OpenMRN *)

(** [dcc::Feedback], as far as it is used. *)
Record Feedback := mkFeedback {
  channel : Z;
  ch1Data : Z -> Z;
  ch2Size : Z;
  ch2Data : Z -> Z;
  dccAddress : Z
}.

(** Address partitions of [dcc::Defs], and the bytes of the RailCom encoding
    that [railcom_decode] has as [INV]. *)
Class DccDefs := {
  ADR_MOBILE_SHORT : Z;
  ADR_CONSIST_SHORT : Z;
  MAX_MOBILE_LONG : Z;
  DccLongAddress_MAX : Z;
  railcom_invalid : Z -> bool
}.

(** [dcc::RailcomBroadcastDecoder]; its [lastAddress_] is for its owner. *)
Class BroadcastDecoder (D : Type) := {
  new_decoder : D;
  current_address : D -> Z;
  lastAddress_ : D -> Z;
  set_lastAddress : Z -> D -> D;
  process_packet : Feedback -> D -> bool * D;
  set_occupancy : bool -> D -> D
}.

(** ** Addresses and events *)

Section Flow.

Context `{DD : DccDefs} {D : Type} `{BD : BroadcastDecoder D}.
(** The node, the number of channels and which ports were given. *)
Context (node_id size_ : Z) (occupancyPort_ overcurrentPort_ debugPort_ : bool).

Definition FEEDBACK_EVENTID_BASE : Z := Z.shiftl 0x0680 48.

Definition event_base : Z :=
  Z.lor (Z.lor FEEDBACK_EVENTID_BASE (Z.shiftl (Z.land (Z.shiftr node_id 24) 0x0FFF) 40))
    (Z.shiftl (Z.land node_id 0xFFFFF) 20).

Definition address_to_eventid (channel address : Z) (entry : bool) : Z :=
  let val := Z.lor (if entry then 0xC000 else 0) (Z.land address 0x3FFF) in
  Z.lor (Z.lor event_base (Z.shiftl (Z.land channel 0xf) 16)) val.

Definition dcc_to_address (b0 b1 : Z) : Z :=
  if (b0 =? 0) || (b0 =? 0xFF) then 0xFFFF
  else if (0xC0 <=? b0) && (b0 <=? Z.lor 0xC0 MAX_MOBILE_LONG) then
    Z.lor (Z.shiftl (Z.land b0 0x3F) 8) b1
  else if Z.land b0 0x80 =? 0 then Z.lor b0 (Z.shiftl ADR_MOBILE_SHORT 8)
  else 0xFFFF.

Definition railcom_id12_to_address (address : Z) : Z :=
  if Z.land address 0x6000 =? 0x6000 then Z.lor (Z.land address 0x7F) (Z.shiftl ADR_CONSIST_SHORT 8)
  else if (127 <? Z.land address 0x3FFF) || (Z.land address 0xC000 =? 0x8000) then
    Z.min (Z.land address 0x3FFF) DccLongAddress_MAX
  else Z.lor (Z.land address 0x7F) (Z.shiftl ADR_MOBILE_SHORT 8).

(** ** Trackers *)

Definition MAX_COUNT : Z := 10.

(** [LocoTracker] has the member [count] only. *)
Definition report_loco_seen (count : Z) : Z :=
  if count <=? MAX_COUNT - 2 then count + 2 else MAX_COUNT.

(** The new count and the result. *)
Definition report_loco_addressed (count : Z) : Z * bool :=
  if 0 <? count then (count - 1, count - 1 =? 0) else (count, false).

Definition tracker_key (addr ch : Z) : Z := Z.lor (Z.shiftl addr 16) ch.
Definition key_address (key : Z) : Z := Z.shiftr key 16.
Definition key_channel (key : Z) : Z := Z.land key 0xFFFF.

Definition Trackers : Type := list (Z * Z).

Fixpoint find_tracker (m : Trackers) (key : Z) : option Z :=
  match m with
  | [] => None
  | (k, c) :: m => if k =? key then Some c else find_tracker m key
  end.

(** [operator[]] with an assignment. *)
Fixpoint put_tracker (key c : Z) (m : Trackers) : Trackers :=
  match m with
  | [] => [(key, c)]
  | (k, d) :: m' => if k <? key then (k, d) :: put_tracker key c m'
                    else if k =? key then (key, c) :: m' else (key, c) :: m
  end.

Fixpoint erase_tracker (key : Z) (m : Trackers) : Trackers :=
  match m with
  | [] => []
  | (k, d) :: m => if k =? key then m else (k, d) :: erase_tracker key m
  end.

Definition num_loco_in_channel_locked (m : Trackers) (ch : Z) : Z :=
  zlen (filter (fun e => key_channel e.1 = ch) m).

(** The loop of [handle_dcc_packet]: the entries of the address, and whether one
    of them has come to zero. *)
Fixpoint address_trackers (address : Z) (m : Trackers) : Trackers * bool :=
  match m with
  | [] => ([], false)
  | (k, c) :: m' =>
      if k <? Z.shiftl address 16 then
        let '(m', b) := address_trackers address m' in ((k, c) :: m', b)
      else if key_address k =? address then
        let '(c', zero) := report_loco_addressed c in
        let '(m', b) := address_trackers address m' in ((k, c') :: m', zero || b)
      else (m, false)
  end.

(** ** State *)

(** States that send a message, with the buffer that was allocated, and those
    that go on when it was sent. *)
Inductive SendState := send_channel_empty | send_timeout_event | send_ch2_event | send_invalid | send_event.
Inductive NextState := check_timeouts | process_ch1 | prepare_ch1_on | finish.

Inductive Wait :=
| Idle
| WaitBuffer (next : SendState)
| WaitSent (next : NextState).

(** What goes out: event reports, with the state that sends them, answers to
    identify messages, and messages that are passed on. *)
Inductive Effect :=
| EventReport (by_state : SendState) (event : Z)
| ProducerIdentified (valid : bool) (event : Z)
| ProducerIdentifiedRange (base count : Z)
| ToOccupancy (f : Feedback)
| ToOvercurrent (f : Feedback)
| ToDebug (f : Feedback).

Record Flow := mkFlow {
  channels_ : list D;
  trackers_ : Trackers;
  current_timeout_key_ : Z;
  pending_deletions_ : bool;
  channel_pending_empty_ : Z;
  channel_is_empty_ : Z;
  new_channel_is_empty_ : Z;
  message : option Feedback;
  queue : list Feedback;
  effects : list Effect
}.
Definition set_channels (x : list D) (s : Flow) : Flow :=
  mkFlow x (trackers_ s) (current_timeout_key_ s) (pending_deletions_ s)
    (channel_pending_empty_ s) (channel_is_empty_ s) (new_channel_is_empty_ s) (message s)
    (queue s) (effects s).
Definition set_trackers (x : Trackers) (s : Flow) : Flow :=
  mkFlow (channels_ s) x (current_timeout_key_ s) (pending_deletions_ s)
    (channel_pending_empty_ s) (channel_is_empty_ s) (new_channel_is_empty_ s) (message s)
    (queue s) (effects s).
Definition set_current_timeout_key (x : Z) (s : Flow) : Flow :=
  mkFlow (channels_ s) (trackers_ s) x (pending_deletions_ s) (channel_pending_empty_ s)
    (channel_is_empty_ s) (new_channel_is_empty_ s) (message s) (queue s) (effects s).
Definition set_pending_deletions (x : bool) (s : Flow) : Flow :=
  mkFlow (channels_ s) (trackers_ s) (current_timeout_key_ s) x (channel_pending_empty_ s)
    (channel_is_empty_ s) (new_channel_is_empty_ s) (message s) (queue s) (effects s).
Definition set_channel_pending_empty (x : Z) (s : Flow) : Flow :=
  mkFlow (channels_ s) (trackers_ s) (current_timeout_key_ s) (pending_deletions_ s) x
    (channel_is_empty_ s) (new_channel_is_empty_ s) (message s) (queue s) (effects s).
Definition set_channel_is_empty (x : Z) (s : Flow) : Flow :=
  mkFlow (channels_ s) (trackers_ s) (current_timeout_key_ s) (pending_deletions_ s)
    (channel_pending_empty_ s) x (new_channel_is_empty_ s) (message s) (queue s) (effects s).
Definition set_new_channel_is_empty (x : Z) (s : Flow) : Flow :=
  mkFlow (channels_ s) (trackers_ s) (current_timeout_key_ s) (pending_deletions_ s)
    (channel_pending_empty_ s) (channel_is_empty_ s) x (message s) (queue s) (effects s).
Definition set_message (x : option Feedback) (s : Flow) : Flow :=
  mkFlow (channels_ s) (trackers_ s) (current_timeout_key_ s) (pending_deletions_ s)
    (channel_pending_empty_ s) (channel_is_empty_ s) (new_channel_is_empty_ s) x (queue s)
    (effects s).
Definition set_queue (x : list Feedback) (s : Flow) : Flow :=
  mkFlow (channels_ s) (trackers_ s) (current_timeout_key_ s) (pending_deletions_ s)
    (channel_pending_empty_ s) (channel_is_empty_ s) (new_channel_is_empty_ s) (message s) x
    (effects s).
Definition set_effects (x : list Effect) (s : Flow) : Flow :=
  mkFlow (channels_ s) (trackers_ s) (current_timeout_key_ s) (pending_deletions_ s)
    (channel_pending_empty_ s) (channel_is_empty_ s) (new_channel_is_empty_ s) (message s)
    (queue s) x.

Definition emit (e : Effect) (s : Flow) : Flow := set_effects (effects s ++ [e]) s.

Definition new_Flow : Flow :=
  mkFlow (replicate (Z.to_nat size_) new_decoder) [] 0 false 0 0xffff 0 None [] [].

Definition decoder (s : Flow) (ch : Z) : D := default new_decoder (znth (channels_ s) ch).
Definition set_decoder (ch : Z) (d : D) (s : Flow) : Flow := set_channels (zset (channels_ s) ch d) s.

Definition current_address_of (ch : Z) (s : Flow) : Z := current_address (decoder s ch).

Definition has_railcom_entry (ch : Z) (s : Flow) : bool :=
  negb (current_address (decoder s ch) =? 0) || negb (Z.testbit (channel_is_empty_ s) ch).

(** *** Packets to the track *)

Definition handle_dcc_packet (b0 b1 : Z) (s : Flow) : Flow :=
  let address := dcc_to_address b0 b1 in
  if address =? 0xFFFF then s
  else
    let '(m, zero) := address_trackers address (trackers_ s) in
    let s := set_trackers m s in
    if zero then set_pending_deletions true s else s.

(** ** The flow *)

Definition release_and_exit (s : Flow) : Flow * Wait := (set_message None s, Idle).

Definition transfer (port : bool) (e : Feedback -> Effect) (f : Feedback) (s : Flow) : Flow * Wait :=
  release_and_exit (if port then emit (e f) s else s).

(** The message that makes this flow look at a channel again. *)
Definition fake_packet (ch : Z) : Feedback := mkFeedback ch (fun _ => 0) 0 (fun _ => 0) 0xFF00.

(** The loop over the channels of an occupancy message. *)
Fixpoint update_occupancy (chs : list nat) (new_values : Z) (s : Flow) : Flow :=
  match chs with
  | [] => s
  | i :: chs =>
      let ch := Z.of_nat i in
      let d := set_occupancy (Z.testbit new_values ch) (decoder s ch) in
      let s := set_decoder ch d s in
      let s := if current_address d =? lastAddress_ d then s
               else set_queue (queue s ++ [fake_packet ch]) s in
      update_occupancy chs new_values s
  end.

(** [prepare_ch1_on] *)
Definition after_invalid (f : Feedback) (s : Flow) : Flow * Wait :=
  let d := decoder s (channel f) in
  if (current_address d =? 0) && (0 <? num_loco_in_channel_locked (trackers_ s) (channel f)) then
    release_and_exit
      (set_decoder (channel f) (set_lastAddress (current_address d) d)
         (set_channel_pending_empty (Z.lor (channel_pending_empty_ s) (Z.shiftl 1 (channel f))) s))
  else (s, WaitBuffer send_event).

Definition clear_pending_empty (ch : Z) (s : Flow) : Flow :=
  set_channel_pending_empty (Z.land (channel_pending_empty_ s) (Z.lnot (Z.shiftl 1 ch))) s.

(** [process_ch1] *)
Definition after_ch2 (f : Feedback) (s : Flow) : Flow * Wait :=
  if size_ <=? channel f then transfer debugPort_ ToDebug f s
  else
    let '(ok, d) := process_packet f (decoder s (channel f)) in
    let s := set_decoder (channel f) d s in
    if negb ok then transfer debugPort_ ToDebug f s
    else if current_address d =? lastAddress_ d then release_and_exit s
    else
      let addr := railcom_id12_to_address (lastAddress_ d) in
      match find_tracker (trackers_ s) (tracker_key addr (channel f)) with
      | Some c =>
          if 0 <? c then after_invalid f s
          else if (lastAddress_ d =? 0) && Z.testbit (channel_pending_empty_ s) (channel f)
          then after_invalid f (clear_pending_empty (channel f) s)
          else (s, WaitBuffer send_invalid)
      | None =>
          if (lastAddress_ d =? 0) && Z.testbit (channel_pending_empty_ s) (channel f)
          then after_invalid f (clear_pending_empty (channel f) s)
          else (s, WaitBuffer send_invalid)
      end.

Definition ch2_valid (f : Feedback) : bool :=
  forallb (fun i => negb (railcom_invalid (ch2Data f (Z.of_nat i)))) (seq 0 (Z.to_nat (ch2Size f))).

Definition feedback_address (f : Feedback) : Z :=
  dcc_to_address (u8 (Z.shiftr (dccAddress f) 8)) (Z.land (dccAddress f) 0xFF).

Definition process_ch2 (f : Feedback) (s : Flow) : Flow * Wait :=
  if (size_ <=? channel f) || (ch2Size f =? 0) then after_ch2 f s
  else if negb (ch2_valid f) then after_ch2 f s
  else
    let addr := feedback_address f in
    if addr =? 0xFFFF then after_ch2 f s
    else
      let key := tracker_key addr (channel f) in
      match find_tracker (trackers_ s) key with
      | None =>
          let s := set_trackers (put_tracker key (report_loco_seen (report_loco_seen 0)) (trackers_ s)) s in
          (set_current_timeout_key key s, WaitBuffer send_ch2_event)
      | Some c => after_ch2 f (set_trackers (put_tracker key (report_loco_seen c) (trackers_ s)) s)
      end.

(** [entry] when there are no pending deletions. *)
Definition dispatch (f : Feedback) (s : Flow) : Flow * Wait :=
  if channel f =? 0xff then
    transfer occupancyPort_ ToOccupancy f (update_occupancy (seq 0 (Z.to_nat size_)) (ch1Data f 0) s)
  else if channel f =? 0xfe then transfer overcurrentPort_ ToOvercurrent f s
  else process_ch2 f s.

(** The loop of [check_timeouts] over the entries from the saved key: a tracker
    that has come to zero, or the channels that are not empty. *)
Fixpoint find_timeout (from : Z) (m : Trackers) (is_empty : Z) : option Z * Z :=
  match m with
  | [] => (None, is_empty)
  | (k, c) :: m =>
      if k <? from then find_timeout from m is_empty
      else if c =? 0 then (Some k, is_empty)
      else find_timeout from m (Z.land is_empty (Z.lnot (Z.shiftl 1 (key_channel k))))
  end.

Definition check_timeouts_state (f : Feedback) (s : Flow) : Flow * Wait :=
  if negb (pending_deletions_ s) then dispatch f s
  else
    let key := current_timeout_key_ s in
    let s := if key =? 0 then set_new_channel_is_empty (u16 (Z.shiftl 1 size_ - 1)) s else s in
    let last_channel := key_channel key in
    if negb (key =? 0) && Z.testbit (channel_pending_empty_ s) last_channel &&
       (num_loco_in_channel_locked (trackers_ s) last_channel =? 0)
    then (s, WaitBuffer send_channel_empty)
    else
      let '(zero, is_empty) := find_timeout key (trackers_ s) (new_channel_is_empty_ s) in
      let s := set_new_channel_is_empty is_empty s in
      match zero with
      | Some k =>
          (set_trackers (erase_tracker k (trackers_ s)) (set_current_timeout_key k s),
           WaitBuffer send_timeout_event)
      | None =>
          dispatch f (set_channel_is_empty (new_channel_is_empty_ s)
            (set_current_timeout_key 0 (set_pending_deletions false s)))
      end.

Definition entry (f : Feedback) (s : Flow) : Flow * Wait :=
  if pending_deletions_ s then check_timeouts_state f (set_current_timeout_key 0 s) else dispatch f s.

(** *** States that send *)

Definition send (st : SendState) (f : Feedback) (s : Flow) : Flow * Wait :=
  let key := current_timeout_key_ s in
  match st with
  | send_timeout_event =>
      (emit (EventReport st (address_to_eventid (key_channel key) (key_address key) false)) s, WaitSent check_timeouts)
  | send_channel_empty =>
      let ch := key_channel key in
      (clear_pending_empty ch
         (emit (EventReport st (address_to_eventid ch (Z.shiftl ADR_MOBILE_SHORT 8) true)) s), WaitSent check_timeouts)
  | send_ch2_event =>
      (emit (EventReport st (address_to_eventid (key_channel key) (key_address key) true)) s, WaitSent process_ch1)
  | send_invalid =>
      let addr := railcom_id12_to_address (lastAddress_ (decoder s (channel f))) in
      (emit (EventReport st (address_to_eventid (channel f) addr false)) s, WaitSent prepare_ch1_on)
  | send_event =>
      let d := decoder s (channel f) in
      let addr := railcom_id12_to_address (current_address d) in
      let s := emit (EventReport st (address_to_eventid (channel f) addr true)) s in
      (set_message None (set_decoder (channel f) (set_lastAddress (current_address d) d) s), WaitSent finish)
  end.

Definition resume (st : NextState) (f : Feedback) (s : Flow) : Flow * Wait :=
  match st with
  | check_timeouts => check_timeouts_state f s
  | process_ch1 => after_ch2 f s
  | prepare_ch1_on => after_invalid f s
  | finish => release_and_exit s
  end.

(** ** Identify messages *)

Definition identify_producer (event : Z) (s : Flow) : Flow :=
  if event <? event_base then s
  else
    let ch := u32 (Z.shiftr (event - event_base) 16) in
    if size_ <=? ch then s
    else
      let query := Z.land event 0xFFFF in
      let actual := railcom_id12_to_address (lastAddress_ (decoder s ch)) in
      if query =? 0 then
        let s := if negb (actual =? 0) && negb (actual =? 0xFFFF)
          then emit (ProducerIdentified true (address_to_eventid ch actual true)) s else s in
        fold_left (fun s e =>
            if key_channel e.1 =? ch
            then emit (ProducerIdentified true (address_to_eventid ch (key_address e.1) true)) s
            else s)
          (trackers_ s) s
      else
        let found := (actual =? query) ||
          match find_tracker (trackers_ s) (tracker_key query ch) with
          | Some c => 0 <? c
          | None => false
          end in
        emit (ProducerIdentified found (address_to_eventid ch query true)) s.

(** [for_me]: the message is for all nodes or for this one. *)
Definition identify_global (for_me : bool) (s : Flow) : Flow :=
  if for_me then emit (ProducerIdentifiedRange event_base (size_ * 65536)) s else s.

(** ** Events at the flow *)

Inductive event :=
| Receive (f : Feedback)
| Start
| Buffer
| Sent
| DccPacket (b0 b1 : Z)
| IdentifyProducer (e : Z)
| IdentifyGlobal (for_me : bool).

Definition System : Type := Flow * Wait.

(** [None]: the event cannot happen now. *)
Definition step (e : event) (x : System) : option System :=
  let '(s, w) := x in
  match e, w with
  | Receive f, _ => Some (set_queue (queue s ++ [f]) s, w)
  | DccPacket b0 b1, _ => Some (handle_dcc_packet b0 b1 s, w)
  | IdentifyProducer e, _ => Some (identify_producer e s, w)
  | IdentifyGlobal b, _ => Some (identify_global b s, w)
  | Start, Idle =>
      match queue s with
      | f :: q => Some (entry f (set_message (Some f) (set_queue q s)))
      | [] => None
      end
  | Buffer, WaitBuffer st => f ← message s; Some (send st f s)
  | Sent, WaitSent finish => Some (release_and_exit s)
  | Sent, WaitSent st => f ← message s; Some (resume st f s)
  | _, _ => None
  end.

Fixpoint run (l : list event) (x : System) : option System :=
  match l with
  | [] => Some x
  | e :: l => x ← step e x; run l x
  end.

End Flow.
