(* ===== verification/RailcomTracking.v ===== *)
(** What the RailCom detectors report: a locomotive that answers on channel 2
    enters and leaves a detector in turn, it stays while it answers, and it
    leaves when it has not answered for long enough. *)

From stdpp Require Import sorting.
From S2P Require Import Prelude RailcomBroadcast.

(** The partitions of addresses have 14 bits. *)
Class DccDefsOk `{DD : DccDefs} : Prop := {
  mobile_short_range : 0 <= ADR_MOBILE_SHORT < 0x40;
  mobile_long_range : 0 <= MAX_MOBILE_LONG < 0x40
}.

#[export] Instance NextState_eq_dec : EqDecision NextState.
Proof. solve_decision. Defined.

(** ** Keys *)

Definition valid_address (addr : Z) : Prop := 0 <= addr < 2 ^ 14.
Definition valid_channel (ch : Z) : Prop := 0 <= ch < 16.

Lemma lor_shift_low a b n : 0 <= n -> 0 <= b < 2 ^ n -> Z.lor (Z.shiftl a n) b = a * 2 ^ n + b.
Proof.
  intros Hn Hb. pose proof (field_low a n b Hn Hb) as Hl. pose proof (field_high a n b Hn Hb) as Hh.
  rewrite Z.land_ones in Hl by done. rewrite Z.shiftr_div_pow2 in Hh by done.
  rewrite (Z.div_mod (Z.lor (Z.shiftl a n) b) (2 ^ n)) by lia. rewrite Hl, Hh. lia.
Qed.

Lemma key_address_of addr ch : valid_channel ch -> key_address (tracker_key addr ch) = addr.
Proof. intros Hc. apply field_high; [done|]. unfold valid_channel in Hc. lia. Qed.

Lemma key_channel_of addr ch : valid_channel ch -> key_channel (tracker_key addr ch) = ch.
Proof. intros Hc. apply (field_low addr 16 ch); [done|]. unfold valid_channel in Hc. lia. Qed.

Definition valid_key (k : Z) : Prop := exists addr ch, valid_address addr /\ valid_channel ch /\ k = tracker_key addr ch.

Lemma valid_key_spec k : valid_key k ->
  valid_address (key_address k) /\ valid_channel (key_channel k) /\ k = tracker_key (key_address k) (key_channel k).
Proof. intros (addr & ch & Ha & Hc & ->). by rewrite key_address_of, key_channel_of. Qed.

(** ** Event ids *)

Lemma testbit_ones_shifted x a n i : 0 <= a -> 0 <= n -> a <= i < a + n ->
  Z.testbit (Z.shiftl (Z.land x (Z.ones n)) a) i = Z.testbit x (i - a).
Proof.
  intros Ha Hn Hi. rewrite Z.shiftl_spec by lia. rewrite Z.land_spec, Z.ones_spec_low by lia. apply andb_true_r.
Qed.

Section Ids.
Context (node_id : Z).

Lemma event_base_low i : 0 <= i < 20 -> Z.testbit (event_base node_id) i = false.
Proof.
  intros Hi. unfold event_base, FEEDBACK_EVENTID_BASE. rewrite !Z.lor_spec, !Z.shiftl_spec by lia.
  by rewrite !(Z.testbit_neg_r _ (i - _)) by lia.
Qed.

Lemma event_address ch addr b i : 0 <= i < 14 ->
  Z.testbit (address_to_eventid node_id ch addr b) i = Z.testbit addr i.
Proof.
  intros Hi. unfold address_to_eventid. rewrite !Z.lor_spec, event_base_low, Z.shiftl_spec by lia.
  rewrite (Z.testbit_neg_r _ (i - 16)) by lia. change 0x3FFF with (Z.ones 14).
  rewrite Z.land_spec, Z.ones_spec_low, andb_true_r by lia. simpl.
  destruct b; [|by rewrite Z.bits_0]. change 0xC000 with (Z.shiftl 3 14). rewrite Z.shiftl_spec by lia.
  by rewrite (Z.testbit_neg_r _ (i - 14)) by lia.
Qed.

Lemma event_channel ch addr b i : 0 <= i < 4 ->
  Z.testbit (address_to_eventid node_id ch addr b) (i + 16) = Z.testbit ch i.
Proof.
  intros Hi. unfold address_to_eventid. rewrite !Z.lor_spec, event_base_low by lia.
  change 0xf with (Z.ones 4). rewrite testbit_ones_shifted by lia. replace (i + 16 - 16) with i by lia.
  rewrite (testbit_field_low 14 (Z.land addr 0x3FFF)) by (try apply (land_ones_range addr 14); lia). simpl.
  destruct b; [|by rewrite Z.bits_0, orb_false_r]. change 0xC000 with (Z.shiftl 3 14). rewrite Z.shiftl_spec by lia.
  rewrite (testbit_field_low 2 3) by lia. by rewrite orb_false_r.
Qed.

Lemma bits_equal n x y : 0 <= x < 2 ^ n -> 0 <= y < 2 ^ n -> (forall i, 0 <= i < n -> Z.testbit x i = Z.testbit y i) -> x = y.
Proof.
  intros Hx Hy H. apply Z.bits_inj'. intros i Hi. destruct (Z.ltb_spec i n); [by apply H|].
  by rewrite (testbit_field_low n x), (testbit_field_low n y) by done.
Qed.

Lemma event_inj ch addr b ch' addr' b' :
  valid_channel ch -> valid_channel ch' -> valid_address addr -> valid_address addr' ->
  address_to_eventid node_id ch addr b = address_to_eventid node_id ch' addr' b' -> ch = ch' /\ addr = addr'.
Proof.
  intros H1 H2 H3 H4 E. split.
  - apply (bits_equal 4); [done..|]. intros i Hi.
    by rewrite <- (event_channel ch addr b), <- (event_channel ch' addr' b'), E.
  - apply (bits_equal 14); [done..|]. intros i Hi.
    by rewrite <- (event_address ch addr b), <- (event_address ch' addr' b'), E.
Qed.

End Ids.

(** ** Trackers *)

Lemma find_tracker_None m k : find_tracker m k = None <-> k ∉ m.*1.
Proof.
  induction m as [|[j c] m IH]; csimpl; [split; [intros _; apply not_elem_of_nil | done]|].
  rewrite not_elem_of_cons. destruct (Z.eqb_spec j k) as [->|Hne].
  - split; [done | by intros [? _]].
  - rewrite IH. split; [by intros; split | by intros []].
Qed.

Lemma find_tracker_key m k c : find_tracker m k = Some c -> k ∈ m.*1.
Proof.
  intros H. destruct (decide (k ∈ m.*1)) as [|Hn]; [done|]. apply find_tracker_None in Hn. congruence.
Qed.

Lemma find_tracker_in m k : k ∈ m.*1 -> is_Some (find_tracker m k).
Proof. intros H. destruct (find_tracker m k) eqn:E; [done|]. by apply find_tracker_None in E. Qed.

Lemma put_tracker_keys k c m x : x ∈ (put_tracker k c m).*1 <-> x = k \/ x ∈ m.*1.
Proof.
  induction m as [|[j d] m IH]; csimpl; [by rewrite elem_of_cons|].
  destruct (j <? k); csimpl; [rewrite !elem_of_cons, IH; tauto|].
  destruct (Z.eqb_spec j k) as [->|]; csimpl; rewrite !elem_of_cons; tauto.
Qed.

Lemma put_tracker_ascending k c m : ascending m.*1 -> ascending (put_tracker k c m).*1.
Proof.
  induction m as [|[j d] m IH]; csimpl; intros H; [repeat constructor|].
  apply ascending_cons in H as [H Hj]. destruct (Z.ltb_spec j k); csimpl.
  - apply ascending_cons. split; [by apply IH|]. intros y [->|Hy]%put_tracker_keys; [done | by apply Hj].
  - destruct (Z.eqb_spec j k) as [->|]; csimpl; apply ascending_cons; [by split|].
    split; [by apply ascending_cons|]. intros y [->|Hy]%elem_of_cons; [lia|]. specialize (Hj y Hy). lia.
Qed.

Lemma put_tracker_find k c m k' : ascending m.*1 ->
  find_tracker (put_tracker k c m) k' = if k =? k' then Some c else find_tracker m k'.
Proof.
  induction m as [|[j d] m IH]; csimpl; intros H; [done|]. apply ascending_cons in H as [H Hj].
  destruct (Z.ltb_spec j k); csimpl.
  - rewrite IH by done. destruct (Z.eqb_spec j k'), (Z.eqb_spec k k'); [lia | done..].
  - destruct (Z.eqb_spec j k) as [->|]; csimpl; [by destruct (k =? k')|]. done.
Qed.

Lemma erase_tracker_keys k m x : ascending m.*1 -> x ∈ (erase_tracker k m).*1 <-> x <> k /\ x ∈ m.*1.
Proof.
  induction m as [|[j d] m IH]; csimpl; intros H; [rewrite elem_of_nil; tauto|]. apply ascending_cons in H as [H Hj].
  destruct (Z.eqb_spec j k) as [->|]; csimpl; rewrite !elem_of_cons; [|rewrite IH by done; split; [|tauto]].
  - split; [|tauto]. intros Hx. specialize (Hj x Hx). split; [lia | by right].
  - intros [->|[? ?]]; tauto.
Qed.

Lemma erase_tracker_ascending k m : ascending m.*1 -> ascending (erase_tracker k m).*1.
Proof.
  induction m as [|[j d] m IH]; csimpl; intros H; [constructor|]. apply ascending_cons in H as [H Hj].
  destruct (j =? k); csimpl; [done|]. apply ascending_cons. split; [by apply IH|].
  intros y Hy. apply erase_tracker_keys in Hy as [_ Hy]; [by apply Hj | done].
Qed.

Lemma erase_tracker_find k m k' : ascending m.*1 ->
  find_tracker (erase_tracker k m) k' = if k =? k' then None else find_tracker m k'.
Proof.
  induction m as [|[j d] m IH]; csimpl; intros H; [by destruct (k =? k')|]. apply ascending_cons in H as [H Hj].
  destruct (Z.eqb_spec j k) as [->|]; csimpl.
  - destruct (Z.eqb_spec k k') as [->|]; [|done]. apply find_tracker_None. intros Hi. specialize (Hj k' Hi). lia.
  - rewrite IH by done. destruct (Z.eqb_spec j k'), (Z.eqb_spec k k'); [lia | done..].
Qed.

(** The count of a tracker after a packet to an address. *)
Definition addressed (address k c : Z) : Z :=
  if key_address k =? address then fst (report_loco_addressed c) else c.

Lemma address_trackers_keys address m : (fst (address_trackers address m)).*1 = m.*1.
Proof.
  induction m as [|[k c] m IH]; [done|]. simpl. destruct (k <? Z.shiftl address 16).
  - destruct (address_trackers address m). csimpl in *. by f_equal.
  - destruct (key_address k =? address); [|done]. destruct (report_loco_addressed c) as [c' z].
    destruct (address_trackers address m). csimpl in *. by f_equal.
Qed.

Lemma address_trackers_find address m k :
  ascending m.*1 -> 0 <= address ->
  find_tracker (fst (address_trackers address m)) k = addressed address k <$> find_tracker m k.
Proof.
  intros Hs Ha. induction m as [|[j c] m IH]; [done|]. csimpl in Hs. apply ascending_cons in Hs as [Hs Hj]. simpl.
  destruct (Z.ltb_spec j (Z.shiftl address 16)) as [Hlt|Hge].
  - destruct (address_trackers address m) as [m' b] eqn:Em. simpl in IH |- *.
    destruct (Z.eqb_spec j k) as [->|]; [|by apply IH]. simpl. unfold addressed.
    destruct (Z.eqb_spec (key_address k) address) as [E|]; [|done]. exfalso. unfold key_address in E.
    rewrite Z.shiftr_div_pow2 in E by done. rewrite Z.shiftl_mul_pow2 in Hlt by done.
    pose proof (Z.div_mod k (2 ^ 16) ltac:(lia)). pose proof (Z.mod_pos_bound k (2 ^ 16) ltac:(lia)). lia.
  - destruct (Z.eqb_spec (key_address j) address) as [E|Hne].
    + destruct (report_loco_addressed c) as [c' z] eqn:Ec. destruct (address_trackers address m) as [m' b] eqn:Em.
      simpl in IH |- *. destruct (Z.eqb_spec j k) as [->|]; [|by apply IH]. simpl. unfold addressed.
      by rewrite E, Z.eqb_refl, Ec.
    + change (fst ((j, c) :: m, false)) with ((j, c) :: m). 
      assert (Hbig : forall k', k' ∈ j :: m.*1 -> key_address k' <> address).
      { intros k' Hk' E. assert (j <= k') by (apply elem_of_cons in Hk' as [->|Hk']; [lia | specialize (Hj k' Hk'); lia]).
        unfold key_address in E, Hne. rewrite Z.shiftr_div_pow2 in E, Hne by done. rewrite Z.shiftl_mul_pow2 in Hge by done.
        pose proof (Z.div_le_mono j k' (2 ^ 16) ltac:(lia) ltac:(lia)).
        pose proof (Z.div_le_lower_bound j (2 ^ 16) address ltac:(lia) ltac:(lia)). lia. }
      simpl. unfold addressed. destruct (Z.eqb_spec j k) as [->|].
      * simpl. by destruct (Z.eqb_spec (key_address k) address).
      * destruct (find_tracker m k) as [d|] eqn:Ed; [|done]. apply find_tracker_key in Ed. simpl.
        specialize (Hbig k ltac:(by right)). by destruct (Z.eqb_spec (key_address k) address).
Qed.

(** ** Reports *)

Section Flow.

Context `{DO : DccDefsOk} {D : Type} `{BD : BroadcastDecoder D}.
Context (node_id size_ : Z) (occupancyPort_ overcurrentPort_ debugPort_ : bool).
Context (Hsize : 0 <= size_ <= 16).

Abbreviation Flow := (Flow (D := D)).
Abbreviation System := (System (D := D)).
Abbreviation step := (step node_id size_ occupancyPort_ overcurrentPort_ debugPort_).
Abbreviation run := (run node_id size_ occupancyPort_ overcurrentPort_ debugPort_).
Abbreviation after_ch2 := (after_ch2 size_ debugPort_).
Abbreviation process_ch2 := (process_ch2 size_ debugPort_).
Abbreviation dispatch := (dispatch size_ occupancyPort_ overcurrentPort_ debugPort_).
Abbreviation check_timeouts_state := (check_timeouts_state size_ occupancyPort_ overcurrentPort_ debugPort_).
Abbreviation eventid := (address_to_eventid node_id).

(** What an effect says about a locomotive by channel 2: that it enters or
    leaves. *)
Definition ch2_report (ch addr : Z) (e : Effect) : option bool :=
  match e with
  | EventReport send_ch2_event ev => if ev =? eventid ch addr true then Some true else None
  | EventReport send_timeout_event ev => if ev =? eventid ch addr false then Some false else None
  | _ => None
  end.

Definition ch2_reports (ch addr : Z) (t : list Effect) : list bool := omap (ch2_report ch addr) t.

(** Reports in turn; [next] is the one that comes next. *)
Fixpoint alternates (next : bool) (l : list bool) : Prop :=
  match l with
  | [] => True
  | b :: l => b = next /\ alternates (negb next) l
  end.

(** Whether a locomotive is present, by the reports. *)
Definition present (ch addr : Z) (t : list Effect) : bool := default false (last (ch2_reports ch addr t)).

Lemma alternates_snoc n l b :
  alternates n (l ++ [b]) <-> alternates n l /\ b = match last l with Some c => negb c | None => n end.
Proof.
  revert n. induction l as [|c l IH]; intros n; simpl; [tauto|]. rewrite IH.
  destruct l as [|d l].
  - simpl. split; [intros (-> & _ & ->); done | intros ((-> & _) & ->); done].
  - change (last (c :: d :: l)) with (last (d :: l)). destruct (last (d :: l)) eqn:E; [tauto|].
    by apply last_None in E.
Qed.

Definition is_ch2 (e : Effect) : bool :=
  match e with EventReport send_ch2_event _ | EventReport send_timeout_event _ => true | _ => false end.

(** Nothing about channel 2 has changed. *)
Definition quiet (s s' : Flow) : Prop :=
  trackers_ s' = trackers_ s /\ exists es, effects s' = effects s ++ es /\ Forall (fun e => is_ch2 e = false) es.

Lemma quiet_refl s : quiet s s.
Proof. split; [done|]. exists []. by rewrite app_nil_r. Qed.

Lemma quiet_trans s1 s2 s3 : quiet s1 s2 -> quiet s2 s3 -> quiet s1 s3.
Proof.
  intros (E1 & es & F1 & G1) (E2 & es' & F2 & G2). split; [congruence|]. exists (es ++ es').
  rewrite F2, F1, app_assoc. split; [done|]. by apply Forall_app.
Qed.

Lemma quiet_same s s' : trackers_ s' = trackers_ s -> effects s' = effects s -> quiet s s'.
Proof. intros E F. split; [done|]. exists []. by rewrite app_nil_r. Qed.

Lemma quiet_emit e s : is_ch2 e = false -> quiet s (emit e s).
Proof. intros He. split; [done|]. exists [e]. split; [done|]. by constructor. Qed.

Lemma quiet_reports s s' ch addr : quiet s s' -> ch2_reports ch addr (effects s') = ch2_reports ch addr (effects s).
Proof.
  intros (_ & es & -> & Hes). unfold ch2_reports. rewrite omap_app.
  assert (E : omap (ch2_report ch addr) es = []).
  { induction Hes as [|e es He _ IH]; [done|]. csimpl. destruct e as [[] ev| | | | |]; done. }
  by rewrite E, app_nil_r.
Qed.

(** ** Invariant *)

Definition tracked (s : Flow) (k : Z) : bool := bool_decide (k ∈ (trackers_ s).*1).

Definition tracker_ok (e : Z * Z) : Prop := valid_key e.1 /\ key_channel e.1 < size_ /\ 0 <= e.2 <= MAX_COUNT.

Record core (s : Flow) : Prop := {
  co_sorted : ascending (trackers_ s).*1;
  co_trackers : Forall tracker_ok (trackers_ s);
  co_queue : Forall (fun f => 0 <= channel f) (queue s)
}.

(** The reports of a locomotive alternate, and the last one is [inside]. *)
Definition reported (s : Flow) (inside : Z -> bool) : Prop :=
  forall ch addr, valid_channel ch -> valid_address addr ->
    alternates true (ch2_reports ch addr (effects s)) /\ present ch addr (effects s) = inside (tracker_key addr ch).

(** A locomotive whose report waits for a buffer is not yet, or still, present. *)
Definition inside (x : System) (k : Z) : bool :=
  let '(s, w) := x in
  match w with
  | WaitBuffer send_ch2_event => if k =? current_timeout_key_ s then false else tracked s k
  | WaitBuffer send_timeout_event => if k =? current_timeout_key_ s then true else tracked s k
  | _ => tracked s k
  end.

Record flow_ok (x : System) : Prop := {
  fo_core : core (fst x);
  fo_message : match snd x with
    | Idle | WaitSent finish => True
    | _ => exists f, message (fst x) = Some f /\ 0 <= channel f
    end;
  fo_pending : match snd x with
    | WaitBuffer send_ch2_event =>
        valid_key (current_timeout_key_ (fst x)) /\ tracked (fst x) (current_timeout_key_ (fst x)) = true
    | WaitBuffer send_timeout_event =>
        valid_key (current_timeout_key_ (fst x)) /\ tracked (fst x) (current_timeout_key_ (fst x)) = false
    | _ => True
    end;
  fo_reported : reported (fst x) (inside x)
}.

(** Between reports. *)
Definition settled (s : Flow) : Prop := core s /\ reported s (tracked s).

Lemma settled_quiet s s' :
  quiet s s' -> Forall (fun f => 0 <= channel f) (queue s') -> settled s -> settled s'.
Proof.
  intros Hq Hf [[H1 H2 _] Hr]. pose proof Hq as [E _]. split; [split; rewrite ?E; done|].
  intros ch addr Hc Ha. destruct (Hr ch addr Hc Ha) as [Hal Hp]. unfold present.
  rewrite (quiet_reports s s' ch addr Hq). split; [done|]. unfold tracked. by rewrite E.
Qed.

Definition plain (w : Wait) : bool :=
  match w with WaitBuffer send_ch2_event | WaitBuffer send_timeout_event => false | _ => true end.

Lemma settled_ok s w :
  settled s -> plain w = true ->
  match w with Idle | WaitSent finish => True | _ => exists f, message s = Some f /\ 0 <= channel f end ->
  flow_ok (s, w).
Proof. intros [Hc Hr] Hw Hm. split; [done | done | by destruct w as [|[]|] | by destruct w as [|[]|]]. Qed.

Lemma flow_settled s w : flow_ok (s, w) -> plain w = true -> settled s.
Proof. intros [H1 H2 H3 H4] Hw. split; [done|]. by destruct w as [|[]|]. Qed.

(** A step that is quiet and does not lead into a report by channel 2. *)
Definition quiet_step (f : Feedback) (s : Flow) (x : System) : Prop :=
  quiet s (fst x) /\ plain (snd x) = true /\ Forall (fun f => 0 <= channel f) (queue (fst x)) /\
  match snd x with Idle | WaitSent finish => True | _ => message (fst x) = Some f end.

Lemma quiet_step_ok f s x : 0 <= channel f -> settled s -> quiet_step f s x -> flow_ok x.
Proof.
  intros Hf Hs (Hq & Hp & Hqu & Hm). destruct x as [s' w]. apply settled_ok; [by apply (settled_quiet s) | done|].
  destruct w as [| |[]]; simpl in Hm; eauto.
Qed.

Definition queue_ok (s : Flow) : Prop := Forall (fun f => 0 <= channel f) (queue s).

Lemma transfer_quiet port e f s :
  is_ch2 (e f) = false -> queue_ok s -> quiet_step f s (transfer port e f s).
Proof.
  intros He Hq. unfold transfer, release_and_exit. destruct port; [|split; [by apply quiet_same | done]].
  split; [|done]. eapply quiet_trans; [by apply (quiet_emit (e f)) | by apply quiet_same].
Qed.

Lemma after_invalid_quiet f s :
  queue_ok s -> message s = Some f -> quiet_step f s (after_invalid f s).
Proof.
  intros Hq Hm. unfold after_invalid, release_and_exit.
  destruct ((_ =? 0) && (0 <? _)); (split; [by apply quiet_same | done]).
Qed.

Lemma quiet_step_from f s s' x : quiet s s' -> quiet_step f s' x -> quiet_step f s x.
Proof. intros H (H1 & H2). split; [by eapply quiet_trans | done]. Qed.

Lemma after_ch2_quiet f s : queue_ok s -> message s = Some f -> quiet_step f s (after_ch2 f s).
Proof.
  intros Hq Hm. unfold RailcomBroadcast.after_ch2. destruct (size_ <=? channel f); [by apply transfer_quiet|].
  destruct (process_packet f (decoder s (channel f))) as [ok d].
  set (s1 := set_decoder (channel f) d s). assert (Hs1 : quiet s s1) by (by apply quiet_same).
  apply (quiet_step_from f s s1); [done|]. destruct ok; simpl; [|by apply transfer_quiet].
  destruct (current_address d =? lastAddress_ d); [split; [by apply quiet_same | done]|].
  set (s2 := clear_pending_empty (channel f) s1). assert (Hs2 : quiet s1 s2) by (by apply quiet_same).
  assert (Hi : forall s', quiet s1 s' -> queue_ok s' -> message s' = Some f -> quiet_step f s1 (after_invalid f s'))
    by (intros; eapply quiet_step_from; [done | by apply after_invalid_quiet]).
  assert (Hw : quiet_step f s1 (s1, WaitBuffer send_invalid)) by (split; [apply quiet_refl | done]).
  destruct (find_tracker _ _) as [c|]; [destruct (0 <? c); [by apply Hi, Hm; [apply quiet_refl|]|]|];
    destruct ((_ =? 0) && _); done || (by apply Hi).
Qed.

Lemma update_occupancy_quiet chs v s : queue_ok s -> quiet s (update_occupancy chs v s) /\ queue_ok (update_occupancy chs v s) /\
  message (update_occupancy chs v s) = message s.
Proof.
  revert s. induction chs as [|i chs IH]; intros s Hq; simpl; [split; [apply quiet_refl | done]|].
  set (s1 := if current_address _ =? _ then _ else _).
  assert (H1 : quiet s s1 /\ queue_ok s1 /\ message s1 = message s).
  { subst s1. destruct (_ =? _); (split; [by apply quiet_same|]); (split; [|done]); [done|].
    apply Forall_app. split; [done|]. repeat constructor. simpl. lia. }
  destruct H1 as (Q1 & Q2 & Q3). destruct (IH s1 Q2) as (R1 & R2 & R3).
  split; [by eapply quiet_trans | split; [done | congruence]].
Qed.

(** ** Steps *)

Lemma dcc_address_range b0 b1 :
  0 <= b0 < 256 -> 0 <= b1 < 256 -> dcc_to_address b0 b1 <> 0xFFFF -> valid_address (dcc_to_address b0 b1).
Proof.
  intros H0 H1. unfold dcc_to_address. destruct ((b0 =? 0) || (b0 =? 0xFF)); [done|].
  destruct ((0xC0 <=? b0) && _); [|destruct (Z.land b0 0x80 =? 0) eqn:E; [|done]]; intros _.
  - change 0x3F with (Z.ones 6). pose proof (land_ones_range b0 6 ltac:(lia)).
    rewrite lor_shift_low by lia. unfold valid_address. lia.
  - assert (Hb : 0 <= b0 < 128).
    { split; [lia|]. apply Z.eqb_eq in E. destruct (Z.ltb_spec b0 128) as [|Hge]; [done|]. exfalso.
      assert (Ht : Z.testbit (Z.land b0 0x80) 7 = true).
      { rewrite Z.land_spec. change (Z.testbit 0x80 7) with true. rewrite andb_true_r.
        apply Z.testbit_true; [lia|]. change (2 ^ 7) with 128. rewrite <- (Z.div_unique b0 128 1 (b0 - 128)); [done | lia | lia]. }
      rewrite E in Ht. by rewrite Z.bits_0 in Ht. }
    rewrite Z.lor_comm, lor_shift_low by lia. pose proof mobile_short_range. unfold valid_address. lia.
Qed.

Lemma feedback_address_range f : feedback_address f <> 0xFFFF -> valid_address (feedback_address f).
Proof.
  apply dcc_address_range; [apply Z.mod_pos_bound; lia|]. change 0xFF with (Z.ones 8). by apply land_ones_range.
Qed.

Lemma seen_range c : 0 <= c <= MAX_COUNT -> 0 < report_loco_seen c <= MAX_COUNT /\ c <= report_loco_seen c.
Proof. unfold report_loco_seen, MAX_COUNT. destruct (Z.leb_spec c (10 - 2)); lia. Qed.

Lemma trackers_in m k c : find_tracker m k = Some c -> (k, c) ∈ m.
Proof.
  induction m as [|[j d] m IH]; simpl; [done|]. destruct (Z.eqb_spec j k) as [->|]; [intros [= ->]; by left|].
  intros H. right. by apply IH.
Qed.

Lemma put_tracker_in k c m e : e ∈ put_tracker k c m -> e = (k, c) \/ e ∈ m.
Proof.
  induction m as [|[j d] m IH]; simpl; [by intros H%list_elem_of_singleton; left|].
  destruct (j <? k); [intros [->|H]%elem_of_cons; [right; by left|]; destruct (IH H); [by left | right; by right]|].
  destruct (j =? k); intros [->|H]%elem_of_cons; [by left | right; by right | by left | by right].
Qed.

Lemma erase_tracker_in k m e : e ∈ erase_tracker k m -> e ∈ m.
Proof.
  induction m as [|[j d] m IH]; simpl; [done|]. destruct (j =? k); [by right|].
  intros [->|H]%elem_of_cons; [by left | right; by apply IH].
Qed.

Lemma core_put s k c : core s -> tracker_ok (k, c) -> core (set_trackers (put_tracker k c (trackers_ s)) s).
Proof.
  intros [H1 H2 H3] Hk. split; simpl; [by apply put_tracker_ascending | | done].
  apply Forall_forall. intros e [->|He]%put_tracker_in; [done|]. rewrite Forall_forall in H2. by apply H2.
Qed.

Lemma tracked_put s k c k' : tracked (set_trackers (put_tracker k c (trackers_ s)) s) k' = bool_decide (k' = k) || tracked s k'.
Proof.
  unfold tracked. simpl. repeat case_bool_decide; try done; rewrite put_tracker_keys in *; tauto.
Qed.

Lemma tracked_find s k : tracked s k = match find_tracker (trackers_ s) k with Some _ => true | None => false end.
Proof.
  unfold tracked. destruct (find_tracker (trackers_ s) k) as [c|] eqn:E.
  - apply find_tracker_key in E. by rewrite bool_decide_eq_true_2.
  - apply find_tracker_None in E. by rewrite bool_decide_eq_false_2.
Qed.

Lemma process_ch2_ok f s : 0 <= channel f -> message s = Some f -> settled s -> flow_ok (process_ch2 f s).
Proof.
  intros Hf Hm Hs. pose proof Hs as [Hc Hr].
  assert (Hafter : forall s', settled s' -> message s' = Some f -> flow_ok (after_ch2 f s')).
  { intros s' Hs' Hm'. apply (quiet_step_ok f s'); [done | done|]. apply after_ch2_quiet; [apply Hs' | done]. }
  unfold RailcomBroadcast.process_ch2. destruct (Z.leb_spec size_ (channel f)) as [|Hch]; [by apply Hafter|].
  simpl. destruct (ch2Size f =? 0); [by apply Hafter|]. destruct (ch2_valid f); [|by apply Hafter]. simpl.
  destruct (Z.eqb_spec (feedback_address f) 0xFFFF) as [|Ha]; [by apply Hafter|].
  apply feedback_address_range in Ha. set (key := tracker_key (feedback_address f) (channel f)).
  assert (Hv : valid_key key) by (exists (feedback_address f), (channel f); repeat split; unfold valid_channel in *; lia || apply Ha).
  assert (Hk : forall c, 0 <= c <= MAX_COUNT -> tracker_ok (key, c)).
  { intros c Hc'. split; [done|]. split; [|done]. simpl. unfold key. rewrite key_channel_of; [done|]. unfold valid_channel. lia. }
  destruct (find_tracker (trackers_ s) key) as [c|] eqn:Ef.
  - apply Hafter; [|done]. split.
    + apply core_put; [done|]. apply Hk. pose proof (co_trackers _ Hc) as Ht. rewrite Forall_forall in Ht.
      destruct (Ht _ (trackers_in _ _ _ Ef)) as (_ & _ & Hc'). simpl in Hc'. pose proof (seen_range c Hc'). lia.
    + intros ch addr H1 H2. destruct (Hr ch addr H1 H2) as [H3 H4]. split; [done|]. rewrite tracked_put.
      change (present ch addr (effects s) = bool_decide (tracker_key addr ch = key) || tracked s (tracker_key addr ch)).
      rewrite H4. case_bool_decide as E; [|done]. rewrite E, tracked_find, Ef. done.
  - set (s1 := set_trackers _ s). assert (Hc1 : core s1) by (apply core_put; [done | by apply Hk]).
    split; simpl; [by destruct Hc1 | eauto | |].
    + split; [done|]. change (tracked s1 key = true). unfold s1. rewrite tracked_put. by rewrite bool_decide_eq_true_2.
    + intros ch addr H1 H2. destruct (Hr ch addr H1 H2) as [H3 H4]. split; [done|].
      change (present ch addr (effects s) = (if tracker_key addr ch =? key then false else tracked s1 (tracker_key addr ch))).
      rewrite H4. unfold s1. rewrite tracked_put. destruct (Z.eqb_spec (tracker_key addr ch) key) as [E|E].
      * rewrite E, tracked_find, Ef. done.
      * by rewrite bool_decide_eq_false_2.
Qed.

Lemma dispatch_ok f s : 0 <= channel f -> message s = Some f -> settled s -> flow_ok (dispatch f s).
Proof.
  intros Hf Hm Hs. pose proof (co_queue _ (proj1 Hs)) as Hq. unfold RailcomBroadcast.dispatch.
  destruct (channel f =? 0xff); [|destruct (channel f =? 0xfe); [|by apply process_ch2_ok]]; apply (quiet_step_ok f s); try done.
  - destruct (update_occupancy_quiet (seq 0 (Z.to_nat size_)) (ch1Data f 0) s Hq) as (Q1 & Q2 & Q3).
    eapply quiet_step_from; [done | by apply transfer_quiet].
  - by apply transfer_quiet.
Qed.

Lemma find_timeout_spec from m z k b : find_timeout from m z = (Some k, b) -> (k, 0) ∈ m /\ from <= k.
Proof.
  revert z. induction m as [|[j c] m IH]; intros z; simpl; [done|].
  destruct (Z.ltb_spec j from); [intros H'; apply IH in H' as []; split; [by right | done]|].
  destruct (Z.eqb_spec c 0) as [->|]; [intros [= -> _]; split; [by left | done]|].
  intros H'. apply IH in H' as []. split; [by right | done].
Qed.

Lemma core_erase s k : core s -> core (set_trackers (erase_tracker k (trackers_ s)) s).
Proof.
  intros [H1 H2 H3]. split; simpl; [by apply erase_tracker_ascending | | done].
  apply Forall_forall. intros e He%erase_tracker_in. rewrite Forall_forall in H2. by apply H2.
Qed.

Lemma key_in m (k c : Z) : (k, c) ∈ m -> k ∈ m.*1.
Proof. intros H. apply list_elem_of_fmap. by exists (k, c). Qed.

Lemma check_timeouts_ok f s : 0 <= channel f -> message s = Some f -> settled s -> flow_ok (check_timeouts_state f s).
Proof.
  intros Hf Hm Hs. unfold RailcomBroadcast.check_timeouts_state.
  destruct (pending_deletions_ s); simpl; [|by apply dispatch_ok].
  set (s1 := if current_timeout_key_ s =? 0 then _ else s).
  assert (Hs1 : settled s1 /\ message s1 = Some f).
  { subst s1. destruct (_ =? 0); [|done]. split; [|done]. apply (settled_quiet s); [by apply quiet_same | apply Hs | done]. }
  clearbody s1. destruct Hs1 as [Hs1 Hm1]. destruct (negb (_ =? 0) && _ && _); [apply settled_ok; eauto|].
  destruct (find_timeout _ _ _) as [[k|] is_empty] eqn:E.
  - apply find_timeout_spec in E as [Hk _]. destruct Hs1 as [Hc Hr]. pose proof (co_trackers _ Hc) as Ht.
    rewrite Forall_forall in Ht. destruct (Ht _ Hk) as (Hv & _ & _). simpl in Hv. pose proof (co_sorted _ Hc) as Hsort.
    split; simpl; [by destruct (core_erase s1 k Hc) | eauto | |].
    + split; [done|]. apply bool_decide_eq_false_2. simpl. rewrite erase_tracker_keys by done. tauto.
    + intros ch addr H1 H2. destruct (Hr ch addr H1 H2) as [H3 H4]. split; [done|]. simpl.
      change (present ch addr (effects s1) = (if tracker_key addr ch =? k then true else
        bool_decide (tracker_key addr ch ∈ (erase_tracker k (trackers_ s1)).*1))).
      rewrite H4. unfold tracked. destruct (Z.eqb_spec (tracker_key addr ch) k) as [->|Hne].
      * apply bool_decide_eq_true_2. by eapply key_in.
      * apply bool_decide_ext. rewrite erase_tracker_keys by done. tauto.
  - apply dispatch_ok; [done | done|]. apply (settled_quiet s1); [by apply quiet_same | apply Hs1 | done].
Qed.

(** A report of channel 2 that is sent. *)
Lemma present_snoc ch addr t e b : ch2_report ch addr e = Some b -> present ch addr (t ++ [e]) = b.
Proof. intros H. unfold present, ch2_reports. rewrite omap_app. csimpl. by rewrite H, last_snoc. Qed.

Lemma reports_snoc ch addr t e :
  ch2_reports ch addr (t ++ [e]) = ch2_reports ch addr t ++ match ch2_report ch addr e with Some b => [b] | None => [] end.
Proof. unfold ch2_reports. rewrite omap_app. csimpl. by destruct (ch2_report ch addr e). Qed.

Lemma report_send st k ch addr b :
  (st = send_ch2_event /\ b = true) \/ (st = send_timeout_event /\ b = false) -> valid_key k ->
  valid_channel ch -> valid_address addr ->
  ch2_report ch addr (EventReport st (eventid (key_channel k) (key_address k) b)) =
    if tracker_key addr ch =? k then Some b else None.
Proof.
  intros Hst Hk Hc Ha. apply valid_key_spec in Hk as (H1 & H2 & H3).
  assert (E : (eventid (key_channel k) (key_address k) b =? eventid ch addr b) = (tracker_key addr ch =? k)).
  { destruct (Z.eqb_spec (tracker_key addr ch) k) as [<-|Hne].
    - by rewrite key_address_of, key_channel_of, Z.eqb_refl.
    - apply Z.eqb_neq. intros E. apply event_inj in E as [E1 E2]; [|done..]. apply Hne. rewrite H3. congruence. }
  unfold ch2_report. destruct Hst as [[-> ->]|[-> ->]]; rewrite E; by destruct (_ =? k).
Qed.

(** A locomotive that was reported as the opposite of [b] is reported as [b]. *)
Lemma send_reported s k ev b was (now : Z -> bool) :
  (forall ch addr, valid_channel ch -> valid_address addr ->
     ch2_report ch addr ev = if tracker_key addr ch =? k then Some b else None) ->
  was k = negb b -> now k = b -> (forall k', k' <> k -> was k' = now k') ->
  reported s was -> reported (emit ev s) now.
Proof.
  intros Hev Hk Hn Hsame Hr ch addr Hc Ha. destruct (Hr ch addr Hc Ha) as [H3 H4]. specialize (Hev ch addr Hc Ha).
  change (effects (emit ev s)) with (effects s ++ [ev]). unfold present in *. rewrite reports_snoc, Hev. clear Hev Hr.
  destruct (Z.eqb_spec (tracker_key addr ch) k) as [E|Hne].
  - rewrite last_snoc, E, Hn. split; [|done]. apply alternates_snoc. split; [done|].
    rewrite E, Hk in H4. destruct (last _) as [c|]; simpl in H4; rewrite ?H4; by destruct b.
  - rewrite app_nil_r, H4. split; [done | by apply Hsame].
Qed.

Lemma current_same s st b k' :
  (st = send_ch2_event /\ b = true) \/ (st = send_timeout_event /\ b = false) ->
  inside (s, WaitBuffer st) k' = if k' =? current_timeout_key_ s then negb b else tracked s k'.
Proof. by intros [[-> ->]|[-> ->]]. Qed.

Lemma tracking_send_ok st f s : message s = Some f -> 0 <= channel f -> flow_ok (s, WaitBuffer st) -> flow_ok (send node_id st f s).
Proof.
  intros Hm Hf Hok. destruct (plain (WaitBuffer st)) eqn:Ep.
  - pose proof (flow_settled _ _ Hok Ep) as Hs. apply (quiet_step_ok f s); [done | done|]. pose proof (co_queue _ (proj1 Hs)).
    destruct st; try done; simpl; (split; [|done]).
    + eapply quiet_trans; [|by apply quiet_same]. by apply quiet_emit.
    + by apply quiet_emit.
    + eapply quiet_trans; [|by apply quiet_same]. by apply quiet_emit.
  - destruct Hok as [[H1 H2 H3] _ Hpend Hr].
    assert (Hwait : forall st' b next, (st' = send_ch2_event /\ b = true) \/ (st' = send_timeout_event /\ b = false) ->
      st = st' -> (next = process_ch1 \/ next = check_timeouts) -> valid_key (current_timeout_key_ s) ->
      tracked s (current_timeout_key_ s) = b ->
      flow_ok (emit (EventReport st' (eventid (key_channel (current_timeout_key_ s)) (key_address (current_timeout_key_ s)) b)) s,
               WaitSent next)).
    { intros st' b next Hst -> Hnext Hv Ht. split; simpl; [by split | by destruct Hnext as [->| ->]; eauto | by destruct Hnext as [->| ->]|].
      enough (E : reported (emit (EventReport st' (eventid (key_channel (current_timeout_key_ s)) (key_address (current_timeout_key_ s)) b)) s) (tracked s)) by (by destruct Hnext as [->| ->]).
      pose proof (fun k => current_same s st' b k Hst) as Hin. cbn [fst] in Hr. revert Hv Ht Hr Hin. generalize (current_timeout_key_ s) as k.
      generalize (inside (s, WaitBuffer st')) as was.
      intros was k Hv Ht Hr Hin. eapply (send_reported s k _ b was); [intros; by apply report_send | by rewrite Hin, Z.eqb_refl | done | | done].
      intros k' Hne%Z.eqb_neq. by rewrite Hin, Hne. }
    destruct st; try done; simpl in Hpend; destruct Hpend as [Hv Ht]; simpl.
    + apply Hwait; auto.
    + apply Hwait; auto.
Qed.

Lemma tracking_resume_ok st f s :
  st <> finish -> message s = Some f -> 0 <= channel f -> flow_ok (s, WaitSent st) ->
  flow_ok (resume size_ occupancyPort_ overcurrentPort_ debugPort_ st f s).
Proof.
  intros Hst Hm Hf Hok. pose proof (flow_settled _ _ Hok eq_refl) as Hs. destruct st; simpl; [| | |done].
  - by apply check_timeouts_ok.
  - apply (quiet_step_ok f s); [done | done|]. apply after_ch2_quiet; [apply Hs | done].
  - apply (quiet_step_ok f s); [done | done|]. apply after_invalid_quiet; [apply Hs | done].
Qed.

Definition event_ok (e : event) : Prop :=
  match e with
  | Receive f => 0 <= channel f
  | DccPacket b0 b1 => 0 <= b0 < 256 /\ 0 <= b1 < 256
  | _ => True
  end.

Lemma address_trackers_ok address m : Forall tracker_ok m -> Forall tracker_ok (fst (address_trackers address m)).
Proof.
  induction m as [|[k c] m IH]; intros H; [constructor|]. apply Forall_cons in H as [H Hm]. specialize (IH Hm). simpl.
  destruct (k <? Z.shiftl address 16).
  - destruct (address_trackers address m). by constructor.
  - destruct (key_address k =? address); [|by constructor]. unfold report_loco_addressed.
    destruct H as (H1 & H2 & H3). simpl in H3.
    destruct (Z.ltb_spec 0 c); destruct (address_trackers address m); (constructor; [|done]); split; simpl; try done; split; try done; lia.
Qed.

(** Only counts have changed. *)
Lemma counts_ok s m w :
  m.*1 = (trackers_ s).*1 -> Forall tracker_ok m -> flow_ok (s, w) -> flow_ok (set_trackers m s, w).
Proof.
  intros E Hm [[H1 H2 H3] H4 H5 H6]. simpl in *.
  assert (Ht : forall k, tracked (set_trackers m s) k = tracked s k) by (intros k; change (bool_decide (k ∈ m.*1) = bool_decide (k ∈ (trackers_ s).*1)); by rewrite E).
  split; [split; [change (ascending m.*1); by rewrite E | exact Hm | exact H3] | exact H4 | |].
  - destruct w as [|[]|]; simpl; rewrite ?Ht; done.
  - intros ch addr Hc Ha. destruct (H6 ch addr Hc Ha) as [A P]. split; [done|]. etrans; [exact P|]. clear -Ht.
    destruct w as [|[]|]; simpl; rewrite ?Ht; done.
Qed.

Lemma flag_ok s w b : flow_ok (s, w) -> flow_ok (set_pending_deletions b s, w).
Proof. intros [[H1 H2 H3] H4 H5 H6]. by split. Qed.

Lemma packet_ok b0 b1 s w : 0 <= b0 < 256 -> 0 <= b1 < 256 -> flow_ok (s, w) -> flow_ok (handle_dcc_packet b0 b1 s, w).
Proof.
  intros H0 H1 Hok. unfold handle_dcc_packet. destruct (_ =? 0xFFFF); [done|].
  pose proof (address_trackers_keys (dcc_to_address b0 b1) (trackers_ s)) as Hk.
  pose proof (address_trackers_ok (dcc_to_address b0 b1) (trackers_ s) (co_trackers _ (fo_core _ Hok))) as Ht.
  destruct (address_trackers _ _) as [m zero]. simpl in Hk, Ht. pose proof (counts_ok s m w Hk Ht Hok).
  destruct zero; [by apply flag_ok | done].
Qed.

(** Effects that are not reports of channel 2, at any time. *)
Lemma aside_ok s s' w :
  quiet s s' -> queue s' = queue s -> message s' = message s -> current_timeout_key_ s' = current_timeout_key_ s ->
  flow_ok (s, w) -> flow_ok (s', w).
Proof.
  intros Hq Hqu Hm Hkey [[H1 H2 H3] H4 H5 H6]. pose proof Hq as [E _]. simpl in *.
  assert (Ht : forall k, tracked s' k = tracked s k) by (intros k; unfold tracked; by rewrite E).
  split; [split; cbn [fst]; [by rewrite E | by rewrite E | by rewrite Hqu] | cbn [fst snd]; by rewrite Hm | |].
  - destruct w as [|[]|]; simpl; rewrite ?Ht, ?Hkey; try done; by rewrite Ht.
  - intros ch addr Hc Ha. destruct (H6 ch addr Hc Ha) as [A P]. unfold present. cbn [fst].
    rewrite (quiet_reports s s' ch addr Hq). split; [done|]. etrans; [exact P|]. clear -Ht Hkey.
    destruct w as [|[]|]; simpl; rewrite ?Ht, ?Hkey; done.
Qed.

Lemma identify_producer_quiet e s :
  let s' := identify_producer node_id size_ e s in
  quiet s s' /\ queue s' = queue s /\ message s' = message s /\ current_timeout_key_ s' = current_timeout_key_ s.
Proof.
  unfold identify_producer. destruct (_ <? _); [split; [apply quiet_refl | done]|].
  destruct (size_ <=? _); [split; [apply quiet_refl | done]|].
  destruct (_ =? 0); [|split; [by apply quiet_emit | by repeat split]].
  set (s1 := if _ && _ then _ else s).
  assert (H1 : quiet s s1 /\ queue s1 = queue s /\ message s1 = message s /\ current_timeout_key_ s1 = current_timeout_key_ s)
    by (subst s1; destruct (_ && _); (split; [by apply quiet_emit || apply quiet_refl | done])).
  generalize (trackers_ s1). clearbody s1. intros m. revert s1 H1. induction m as [|e1 m IH]; intros s1 H1; [exact H1|]. simpl. apply IH.
  destruct (_ =? _); [|done]. destruct H1 as (Q & E1 & E2 & E3). split; [|done].
  eapply quiet_trans; [done | by apply quiet_emit].
Qed.

Lemma flow_step_ok e x x' : event_ok e -> flow_ok x -> step e x = Some x' -> flow_ok x'.
Proof.
  intros He Hok. destruct x as [s w]. unfold RailcomBroadcast.step.
  destruct e as [f| | | |b0 b1|e|b]; simpl in He.
  - assert (E : flow_ok (set_queue (queue s ++ [f]) s, w)).
    { destruct Hok as [[H1 H2 H3] H4 H5 H6]. split; [split; simpl; [done | done|] | done..].
      apply Forall_app. split; [done|]. by repeat constructor. }
    destruct w; intros [= <-]; done.
  - destruct w; [|done..]. destruct (queue s) as [|f q] eqn:Eq; [done|]. intros [= <-].
    pose proof (flow_settled _ _ Hok eq_refl) as Hs. pose proof (co_queue _ (proj1 Hs)) as Hq. rewrite Eq in Hq.
    apply Forall_cons in Hq as [Hf Hq].
    assert (Hset : forall k, settled (set_current_timeout_key k (set_message (Some f) (set_queue q s))))
      by (intros k; apply (settled_quiet s); [by apply quiet_same | done | done]).
    unfold entry. destruct (pending_deletions_ _); [by apply check_timeouts_ok|].
    apply dispatch_ok; [done | done|]. apply (settled_quiet s); [by apply quiet_same | done | done].
  - destruct w as [|st|]; [done| |done]. pose proof (fo_message _ Hok) as (f & Hm & Hf). simpl in Hm. rewrite Hm. intros [= <-].
    by apply tracking_send_ok.
  - destruct w as [| |st]; [done..|]. destruct (decide (st = finish)) as [->|Hst].
    + intros [= <-]. pose proof (flow_settled _ _ Hok eq_refl) as Hs. apply settled_ok; [|done..].
      apply (settled_quiet s); [by apply quiet_same | apply Hs | done].
    + assert (Hm : exists f, message s = Some f /\ 0 <= channel f) by (destruct Hok as [_ Hm _ _]; by destruct st).
      destruct Hm as (f & Hm & Hf). rewrite Hm.
      pose proof (tracking_resume_ok st f s Hst Hm Hf Hok) as Hr. destruct st; try done; by intros [= <-].
  - assert (E : flow_ok (handle_dcc_packet b0 b1 s, w)) by (apply packet_ok; tauto). destruct w; by intros [= <-].
  - destruct (identify_producer_quiet e s) as (Q & E1 & E2 & E3).
    assert (E : flow_ok (identify_producer node_id size_ e s, w)) by (by apply (aside_ok s)). destruct w; by intros [= <-].
  - assert (E : flow_ok (identify_global node_id size_ b s, w)).
    { unfold identify_global. destruct b; [|done]. apply (aside_ok s); [by apply quiet_emit | done..]. }
    destruct w; by intros [= <-].
Qed.

Lemma flow_run_ok l x x' : Forall event_ok l -> flow_ok x -> run l x = Some x' -> flow_ok x'.
Proof.
  revert x. induction l as [|e l IH]; intros x Hl Hok; simpl; [by intros [= <-]|].
  apply Forall_cons in Hl as [He Hl]. destruct (step e x) as [x1|] eqn:E; [|done]. simpl.
  apply IH; [done|]. by apply (flow_step_ok e x).
Qed.

Lemma tracking_new_flow_ok : flow_ok (new_Flow size_, Idle).
Proof. split; [by repeat constructor | done | done|]. intros ch addr _ _. done. Qed.

(** C18: Whatever comes in, for every detector and locomotive the reports that it
    has entered and that it has left, as seen on channel 2, come in turn and
    begin with the one that it has entered; and the locomotives that have entered
    by their last report are those with a tracker, up to the one whose report
    waits for a buffer. *)
Theorem detectors_report_in_turn l s w ch addr :
  Forall event_ok l -> run l (new_Flow size_, Idle) = Some (s, w) -> valid_channel ch -> valid_address addr ->
  alternates true (ch2_reports ch addr (effects s)) /\
  (plain w = true \/ current_timeout_key_ s <> tracker_key addr ch ->
   present ch addr (effects s) = true <-> is_Some (find_tracker (trackers_ s) (tracker_key addr ch))).
Proof.
  intros Hl Hr Hc Ha. pose proof (flow_run_ok _ _ _ Hl tracking_new_flow_ok Hr) as Hok.
  destruct (fo_reported _ Hok ch addr Hc Ha) as [H1 H2]. cbn [fst] in H1, H2. split; [done|]. intros Hw. rewrite H2.
  assert (E : inside (s, w) (tracker_key addr ch) = tracked s (tracker_key addr ch)).
  { destruct Hw as [Hw|Hw]; [by destruct w as [|[]|]|].
    simpl. destruct w as [|[]|]; try done; by destruct (Z.eqb_spec (tracker_key addr ch) (current_timeout_key_ s)). }
  rewrite E, tracked_find. by destruct (find_tracker _ _); split; intros H.
Qed.

End Flow.
