(* ===== verification/RailcomTimeouts.v ===== *)
(** How long a locomotive stays at a detector: it is not lost before it has left
    as many packets unanswered as its tracker counts, and once it has, the flow
    reports it as gone with the next message. *)

From stdpp Require Import sorting.
From S2P Require Import Prelude RailcomBroadcast RailcomTracking.

Section Timeouts.

Context `{DO : DccDefsOk} {D : Type} `{BD : BroadcastDecoder D}.
Context (node_id size_ : Z) (occupancyPort_ overcurrentPort_ debugPort_ : bool).
Context (Hsize : 0 <= size_ <= 16).

Abbreviation Flow := (Flow (D := D)).
Abbreviation System := (System (D := D)).
Abbreviation step := (step node_id size_ occupancyPort_ overcurrentPort_ debugPort_).
Abbreviation run := (run node_id size_ occupancyPort_ overcurrentPort_ debugPort_).
Abbreviation after_ch2 := (after_ch2 size_ debugPort_).
Abbreviation process_ch2 := (process_ch2 size_ debugPort_).
Abbreviation dispatch := (dispatch size_ occupancyPort_ overcurrentPort_ debugPort_).
Abbreviation check_timeouts_state := (check_timeouts_state size_ occupancyPort_ overcurrentPort_ debugPort_).
Abbreviation flow_ok := (flow_ok node_id size_).

(** ** Packets that a locomotive may leave unanswered *)

Definition at_least (k c : Z) (s : Flow) : Prop := exists d, find_tracker (trackers_ s) k = Some d /\ c <= d.

Lemma at_least_same k c s s' : trackers_ s' = trackers_ s -> at_least k c s -> at_least k c s'.
Proof. unfold at_least. by intros ->. Qed.

Lemma at_least_quiet f k c s x : quiet_step f s x -> at_least k c s -> at_least k c (fst x).
Proof. intros ((E & _) & _). by apply at_least_same. Qed.

Lemma count_range (s : Flow) k c : core size_ s -> find_tracker (trackers_ s) k = Some c -> 0 <= c <= MAX_COUNT.
Proof.
  intros [_ Ht _] H. apply trackers_in in H. rewrite Forall_forall in Ht. by destruct (Ht _ H) as (_ & _ & Hc).
Qed.

Lemma at_least_ch2 f k c (s : Flow) :
  message s = Some f -> core size_ s -> at_least k c s -> at_least k c (fst (process_ch2 f s)).
Proof.
  intros Hm Hc Hk. pose proof (co_queue _ _ Hc) as Hq. unfold RailcomBroadcast.process_ch2.
  assert (Hafter : forall s', queue_ok s' -> message s' = Some f -> at_least k c s' -> at_least k c (fst (after_ch2 f s')))
    by (intros s' Hq' Hm' Hk'; by apply (at_least_quiet f _ _ s'), Hk'; apply after_ch2_quiet).
  destruct (_ || _); [by apply Hafter|]. destruct (negb _); [by apply Hafter|]. destruct (_ =? 0xFFFF); [by apply Hafter|].
  set (key := tracker_key _ _). destruct (find_tracker (trackers_ s) key) as [d|] eqn:E.
  - apply Hafter; [done..|]. destruct Hk as (d' & Ed & Hd). unfold at_least. simpl.
    rewrite put_tracker_find by apply Hc. destruct (Z.eqb_spec key k) as [->|]; [|eauto].
    pose proof (count_range _ _ _ Hc E) as Hr. apply seen_range in Hr as [_ Hr]. eexists. split; [done|].
    rewrite E in Ed. injection Ed as ->. lia.
  - destruct Hk as (d' & Ed & Hd). unfold at_least. simpl. rewrite put_tracker_find by apply Hc.
    destruct (Z.eqb_spec key k) as [->|]; [congruence | eauto].
Qed.

Lemma at_least_dispatch f k c (s : Flow) :
  message s = Some f -> core size_ s -> at_least k c s -> at_least k c (fst (dispatch f s)).
Proof.
  intros Hm Hc Hk. pose proof (co_queue _ _ Hc) as Hq. unfold RailcomBroadcast.dispatch.
  destruct (channel f =? 0xff); [|destruct (channel f =? 0xfe); [|by apply at_least_ch2]].
  - destruct (update_occupancy_quiet (seq 0 (Z.to_nat size_)) (ch1Data f 0) s Hq) as ((Q1 & _) & Q2 & Q3).
    apply (at_least_quiet f _ _ (update_occupancy (seq 0 (Z.to_nat size_)) (ch1Data f 0) s)); [by apply transfer_quiet|].
    by apply (at_least_same k c s).
  - by apply (at_least_quiet f _ _ s); [apply transfer_quiet|].
Qed.

Lemma at_least_erase k c k0 (s : Flow) : core size_ s -> (k0, 0) ∈ trackers_ s -> 0 < c -> at_least k c s ->
  at_least k c (set_trackers (erase_tracker k0 (trackers_ s)) s).
Proof.
  intros Hc Hk0 Hpos (d & Ed & Hd). unfold at_least. simpl. rewrite erase_tracker_find by apply Hc.
  destruct (Z.eqb_spec k0 k) as [->|]; [|eauto]. exfalso. apply trackers_in in Ed.
  assert (d = 0); [|lia]. pose proof (co_sorted _ _ Hc) as Hs%ascending_NoDup.
  clear -Ed Hk0 Hs.
  apply list_elem_of_lookup in Ed as [i Hi], Hk0 as [j Hj].
  assert (i = j) as ->; [|congruence].
  eapply NoDup_lookup; [exact Hs | |]; rewrite list_lookup_fmap; [by rewrite Hi | by rewrite Hj].
Qed.

Lemma at_least_check f k c (s : Flow) :
  message s = Some f -> core size_ s -> 0 < c -> at_least k c s -> at_least k c (fst (check_timeouts_state f s)).
Proof.
  intros Hm Hc Hpos Hk. unfold RailcomBroadcast.check_timeouts_state.
  destruct (pending_deletions_ s); simpl; [|by apply at_least_dispatch].
  set (s1 := if current_timeout_key_ s =? 0 then _ else s).
  assert (E : trackers_ s1 = trackers_ s /\ message s1 = Some f /\ queue s1 = queue s) by (subst s1; by destruct (_ =? 0)).
  clearbody s1. destruct E as (Et & Hm1 & Eq). apply (at_least_same k c s s1) in Hk; [|done].
  assert (Hc1 : core size_ s1) by (destruct Hc; split; congruence). destruct (_ && _ && _); [done|].
  destruct (find_timeout _ _ _) as [[k0|] e] eqn:E; [|by apply at_least_dispatch; [|by destruct Hc1|]].
  apply find_timeout_spec in E as [Hk0 _]. by apply (at_least_erase k c k0 s1).
Qed.

(** The packets of a run to the address of a key. *)
Definition packet_to (k : Z) (e : event) : Z :=
  match e with DccPacket b0 b1 => if dcc_to_address b0 b1 =? key_address k then 1 else 0 | _ => 0 end.
Definition packets_to (k : Z) (l : list event) : Z := foldr (fun e n => packet_to k e + n) 0 l.

Lemma packet_to_range k e : 0 <= packet_to k e.
Proof. unfold packet_to. destruct e; try lia. destruct (_ =? _); lia. Qed.

Lemma packets_to_range k l : 0 <= packets_to k l.
Proof. induction l as [|e l IH]; simpl; [lia|]. pose proof (packet_to_range k e). lia. Qed.

Lemma at_least_packet k c (s : Flow) b0 b1 :
  core size_ s -> 0 <= b0 < 256 -> 0 <= b1 < 256 -> at_least k c s ->
  at_least k (c - packet_to k (DccPacket b0 b1)) (handle_dcc_packet b0 b1 s).
Proof.
  intros Hc H0 H1 (d & Ed & Hd). unfold handle_dcc_packet. simpl.
  destruct (Z.eqb_spec (dcc_to_address b0 b1) 0xFFFF) as [E|E].
  { exists d. split; [done|]. destruct (_ =? _); lia. }
  apply dcc_address_range in E; [|done..]. pose proof (count_range _ _ _ Hc Ed) as Hr.
  pose proof (address_trackers_find (dcc_to_address b0 b1) (trackers_ s) k (co_sorted _ _ Hc) (proj1 E)) as Hf.
  rewrite Ed in Hf. simpl in Hf. unfold addressed in Hf. rewrite (Z.eqb_sym (dcc_to_address b0 b1)).
  destruct (address_trackers _ _) as [m zero]. simpl in Hf.
  assert (Hm : at_least k (c - (if key_address k =? dcc_to_address b0 b1 then 1 else 0)) (set_trackers m s)).
  { eexists. split; [exact Hf|]. destruct (_ =? _); [|lia]. unfold report_loco_addressed.
    destruct (Z.ltb_spec 0 d); simpl; lia. }
  by destruct zero.
Qed.

Lemma at_least_step e k c x x' :
  event_ok e -> flow_ok x -> step e x = Some x' -> 0 < c - packet_to k e ->
  at_least k c (fst x) -> at_least k (c - packet_to k e) (fst x').
Proof.
  intros He Hok. destruct x as [s w]. pose proof (fo_core _ _ _ Hok) as Hc. cbn [fst] in *.
  destruct e as [f| | | |b0 b1|e|b]; cbn [packet_to]; rewrite ?Z.sub_0_r; intros Hstep Hpos Hk; simpl in Hstep.
  - destruct w; by injection Hstep as <-.
  - destruct w; [|done..]. destruct (queue s) as [|f q] eqn:Eq; [done|]. injection Hstep as <-.
    assert (Hc' : forall k, core size_ (set_current_timeout_key k (set_message (Some f) (set_queue q s)))).
    { intros k0. destruct Hc as [H1 H2 H3]. split; [done..|]. simpl. rewrite Eq in H3. by apply Forall_cons in H3 as []. }
    unfold entry. destruct (pending_deletions_ _); [by apply at_least_check|].
    apply at_least_dispatch; [done | by destruct (Hc' 0) | done].
  - destruct w as [|st|]; [done| |done]. destruct (message s); [|done]. injection Hstep as <-. by destruct st.
  - destruct w as [| |st]; [done..|]. pose proof (fo_message _ _ _ Hok) as Hm. cbn [fst snd] in Hm.
    destruct st; [| | |by injection Hstep as <-]; destruct Hm as (f & Hm & Hf); rewrite Hm in Hstep; injection Hstep as <-.
    + by apply at_least_check.
    + apply (at_least_quiet f _ _ s); [|done]. apply after_ch2_quiet; [apply Hc | done].
    + apply (at_least_quiet f _ _ s); [|done]. apply after_invalid_quiet; [apply Hc | done].
  - destruct He as [H0 H1]. assert (Hd : at_least k (c - packet_to k (DccPacket b0 b1)) (handle_dcc_packet b0 b1 s))
      by (by apply at_least_packet). destruct w; by injection Hstep as <-.
  - destruct (identify_producer_quiet node_id size_ e s) as ((E & _) & _). apply (at_least_same k c _ _ E) in Hk.
    destruct w; by injection Hstep as <-.
  - assert (at_least k c (identify_global node_id size_ b s)) by (by destruct b). destruct w; by injection Hstep as <-.
Qed.

(** C26: A locomotive that a detector sees, and whose tracker counts [c], stays
    there as long as fewer than [c] packets go to its address, whatever else
    happens: its tracker is not dropped, and its count has gone down by the
    number of these packets at most. *)
Theorem answers_keep_presence before l x x' k c :
  Forall event_ok before -> Forall event_ok l ->
  run before (new_Flow size_, Idle) = Some x -> run l x = Some x' ->
  find_tracker (trackers_ (fst x)) k = Some c -> packets_to k l < c ->
  exists c', find_tracker (trackers_ (fst x')) k = Some c' /\ c - packets_to k l <= c' <= MAX_COUNT.
Proof.
  intros Hb Hl Hx Hx' Hk Hn.
  pose proof (flow_run_ok node_id size_ occupancyPort_ overcurrentPort_ debugPort_ Hsize _ _ _ Hb (tracking_new_flow_ok node_id size_) Hx) as Hok.
  enough (E : flow_ok x' /\ at_least k (c - packets_to k l) (fst x')).
  { destruct E as [Hok' (c' & E & Hc')]. exists c'. pose proof (count_range _ _ _ (fo_core _ _ _ Hok') E). split; [done|]. lia. }
  assert (Ha : at_least k c (fst x)) by (by exists c). clear Hk Hx Hb. revert c x Hok Hx' Hn Ha.
  induction l as [|e l IH]; intros c x Hok Hx' Hn Ha; simpl in *; [injection Hx' as <-; by rewrite Z.sub_0_r|].
  apply Forall_cons in Hl as [He Hl]. destruct (step e x) as [x1|] eqn:E; [|done]. simpl in Hx'.
  pose proof (packet_to_range k e). pose proof (packets_to_range k l).
  replace (c - (packet_to k e + packets_to k l)) with (c - packet_to k e - packets_to k l) by lia.
  apply (IH Hl _ x1); [by eapply flow_step_ok | done | lia|]. apply (at_least_step e k c x); [done..| lia | done].
Qed.

(** ** Locomotives that do not answer any more *)

(** The only event that lets the flow go on. *)
Definition next_event (w : Wait) : event :=
  match w with Idle => Start | WaitBuffer _ => Buffer | WaitSent _ => Sent end.

Fixpoint drive (n : nat) (x : System) : option System :=
  match n with
  | O => Some x
  | S n => x ← step (next_event (snd x)) x; drive n x
  end.

Definition zero_keys (m : list (Z * Z)) : list Z := (filter (fun e => e.2 = 0) m).*1.

Definition exit_report (k : Z) : Effect :=
  EventReport send_timeout_event (address_to_eventid node_id (key_channel k) (key_address k) false).

(** Within [n] steps from [x] the flow is idle, no tracker is at zero, and after
    the effects [t] there are the exits of [ks]. *)
Definition settles (n : nat) (ks : list Z) (t : list Effect) (x : System) : Prop :=
  exists j s' es, (j <= n)%nat /\ drive j x = Some (s', Idle) /\ zero_keys (trackers_ s') = [] /\
    effects s' = t ++ es /\ Forall (fun k => exit_report k ∈ es) ks.

Lemma settles_done n t s : zero_keys (trackers_ s) = [] -> t `prefix_of` effects s -> settles n [] t (s, Idle).
Proof. intros H [es He]. exists O, s, es. repeat split; [lia | done..]. Qed.

Lemma settles_le n m ks t x : (n <= m)%nat -> settles n ks t x -> settles m ks t x.
Proof. intros Hle (j & s' & es & Hj & H). exists j, s', es. split; [lia | done]. Qed.

Lemma settles_step n ks t x x' : step (next_event (snd x)) x = Some x' -> settles n ks t x' -> settles (S n) ks t x.
Proof.
  intros Hx (j & s' & es & Hj & Hd & H). exists (S j), s', es. split; [lia|]. split; [|done].
  cbn [drive]. rewrite Hx. exact Hd.
Qed.

Lemma settles_later n ks t t' x : t `prefix_of` t' -> settles n ks t' x -> settles n ks t x.
Proof.
  intros [es0 ->] (j & s' & es & Hj & Hd & Hz & He & Hk). exists j, s', (es0 ++ es).
  repeat split; [done | done | done | by rewrite app_assoc|].
  eapply Forall_impl; [exact Hk|]. intros k Hin. apply elem_of_app. by right.
Qed.

Lemma settles_exit n k ks t x : settles n ks (t ++ [exit_report k]) x -> settles n (k :: ks) t x.
Proof.
  intros (j & s' & es & Hj & Hd & Hz & He & Hk). exists j, s', (exit_report k :: es).
  repeat split; [done | done | done | by rewrite He, <- app_assoc|].
  constructor; [by left|]. eapply Forall_impl; [exact Hk|]. intros k' Hin. by right.
Qed.

Lemma settles_buffer n ks t st s f :
  message s = Some f -> settles n ks t (send node_id st f s) -> settles (S n) ks t (s, WaitBuffer st).
Proof. intros Hm H. eapply settles_step; [|exact H]. simpl. by rewrite Hm. Qed.

Lemma settles_sent n ks t st s f :
  st <> finish -> message s = Some f ->
  settles n ks t (resume size_ occupancyPort_ overcurrentPort_ debugPort_ st f s) -> settles (S n) ks t (s, WaitSent st).
Proof. intros Hst Hm H. eapply settles_step; [|exact H]. simpl. by destruct st; try done; rewrite Hm. Qed.

(** *** The message, when no tracker is at zero *)

Lemma after_invalid_settles f s : zero_keys (trackers_ s) = [] -> message s = Some f -> settles 2 [] (effects s) (after_invalid f s).
Proof.
  intros Hz Hm. unfold after_invalid. destruct (_ && _); [by apply settles_done|].
  apply (settles_buffer _ _ _ _ _ f); [done|]. simpl. eapply settles_step; [reflexivity|].
  apply settles_done; [done|]. simpl. by eexists.
Qed.

Lemma after_ch2_settles f s : zero_keys (trackers_ s) = [] -> message s = Some f -> settles 4 [] (effects s) (after_ch2 f s).
Proof.
  intros Hz Hm. unfold RailcomBroadcast.after_ch2, transfer, release_and_exit.
  assert (Hd : forall s', trackers_ s' = trackers_ s -> effects s `prefix_of` effects s' -> settles 4 [] (effects s) (s', Idle))
    by (intros s' E Hp; apply settles_done; [by rewrite E | done]).
  assert (Ht : forall s', trackers_ s' = trackers_ s -> effects s' = effects s ->
    settles 4 [] (effects s) (set_message None (if debugPort_ then emit (ToDebug f) s' else s'), Idle)).
  { intros s' E F. apply Hd; [by destruct debugPort_|]. destruct debugPort_; simpl; rewrite F; [by eexists | done]. }
  destruct (size_ <=? channel f); [by apply Ht|]. destruct (process_packet f (decoder s (channel f))) as [ok d].
  destruct ok; simpl; [|by apply Ht]. destruct (current_address d =? _); [by apply Hd|].
  set (s1 := set_decoder (channel f) d s). set (s2 := clear_pending_empty (channel f) s1).
  assert (Hi : forall s', trackers_ s' = trackers_ s -> effects s' = effects s -> message s' = Some f ->
    settles 4 [] (effects s) (after_invalid f s')).
  { intros s' E F G. apply (settles_le 2); [lia|]. rewrite <- F. apply after_invalid_settles; [by rewrite E | done]. }
  assert (Hw : settles 4 [] (effects s) (s1, WaitBuffer send_invalid)).
  { apply (settles_buffer _ _ _ _ _ f); [done|]. simpl. apply (settles_sent _ _ _ _ _ f); [done | done|]. simpl.
    eapply settles_later; [|by apply after_invalid_settles]. simpl. by eexists. }
  destruct (find_tracker _ _) as [c|]; [destruct (0 <? c); [by apply Hi|]|]; destruct (_ && _); done || (by apply Hi).
Qed.

Lemma zero_keys_nil (m : list (Z * Z)) : zero_keys m = [] <-> Forall (fun e => e.2 <> 0) m.
Proof.
  unfold zero_keys. induction m as [|e m IH]; [done|]. rewrite Forall_cons, filter_cons, <- IH.
  case_decide; csimpl; split; [done | by intros [] | by intros | by intros []].
Qed.

Lemma put_nonzero k c m : c <> 0 -> zero_keys m = [] -> zero_keys (put_tracker k c m) = [].
Proof.
  rewrite !zero_keys_nil, !Forall_forall. intros Hc H e [->|He]%put_tracker_in; [done | by apply H].
Qed.

Lemma process_ch2_settles f s :
  core size_ s -> zero_keys (trackers_ s) = [] -> message s = Some f -> settles 6 [] (effects s) (process_ch2 f s).
Proof.
  intros Hc Hz Hm. unfold RailcomBroadcast.process_ch2.
  assert (Ha : forall s', zero_keys (trackers_ s') = [] -> effects s `prefix_of` effects s' -> message s' = Some f ->
    settles 4 [] (effects s) (after_ch2 f s')).
  { intros s' E Hp G. by apply (settles_later _ _ _ _ _ Hp), after_ch2_settles. }
  assert (H64 : forall x, settles 4 [] (effects s) x -> settles 6 [] (effects s) x) by (intros x; apply settles_le; lia).
  destruct (_ || _); [by apply H64, Ha|]. destruct (negb _); [by apply H64, Ha|]. destruct (_ =? 0xFFFF); [by apply H64, Ha|].
  set (key := tracker_key _ _). destruct (find_tracker (trackers_ s) key) as [c|] eqn:E.
  - pose proof (count_range _ _ _ Hc E) as Hr%seen_range. apply H64, Ha; [|done..]. simpl. apply put_nonzero; [lia | done].
  - apply (settles_buffer _ _ _ _ _ f); [done|]. simpl. apply (settles_sent _ _ _ _ _ f); [done | done|]. simpl.
    apply Ha; simpl; [by apply put_nonzero | by eexists | done].
Qed.

Lemma dispatch_settles f s :
  core size_ s -> zero_keys (trackers_ s) = [] -> message s = Some f -> settles 6 [] (effects s) (dispatch f s).
Proof.
  intros Hc Hz Hm. pose proof (co_queue _ _ Hc) as Hq. unfold RailcomBroadcast.dispatch, transfer, release_and_exit.
  destruct (channel f =? 0xff); [|destruct (channel f =? 0xfe); [|by apply process_ch2_settles]]; apply settles_done.
  - destruct (update_occupancy_quiet (seq 0 (Z.to_nat size_)) (ch1Data f 0) s Hq) as ((Q1 & _) & _).
    destruct occupancyPort_; simpl; rewrite <- Hz; by f_equal.
  - destruct (update_occupancy_quiet (seq 0 (Z.to_nat size_)) (ch1Data f 0) s Hq) as ((_ & es & Q2 & _) & _).
    destruct occupancyPort_; simpl; rewrite Q2; [rewrite <- app_assoc|]; by eexists.
  - by destruct overcurrentPort_.
  - destruct overcurrentPort_; simpl; [by eexists | done].
Qed.

(** *** The sweep *)

Lemma zero_keys_ascending (m : list (Z * Z)) : ascending m.*1 -> ascending (zero_keys m).
Proof.
  induction m as [|[k c] m IH]; csimpl; intros H; [constructor|]. apply ascending_cons in H as [H Hk].
  unfold zero_keys. rewrite filter_cons. case_decide; csimpl; [|by apply IH].
  apply ascending_cons. split; [by apply IH|]. intros y (e & -> & He)%list_elem_of_fmap.
  apply list_elem_of_filter in He as [_ He]. apply Hk. by apply list_elem_of_fmap_2.
Qed.

(** The loop of [check_timeouts] finds the first tracker at zero. *)
Lemma find_timeout_first from m z :
  ascending m.*1 -> Forall (fun k => from <= k) (zero_keys m) ->
  match fst (find_timeout from m z) with
  | Some k => zero_keys m = k :: zero_keys (erase_tracker k m)
  | None => zero_keys m = []
  end.
Proof.
  revert z. induction m as [|[j c] m IH]; intros z Hs Hz; [done|]. csimpl in Hs. apply ascending_cons in Hs as [Hs Hj].
  unfold zero_keys in Hz |- *. rewrite !filter_cons in *. simpl in Hz |- *. specialize (IH z Hs) as IHz.
  destruct (Z.eqb_spec c 0) as [->|Hc].
  - rewrite decide_True in * by done. csimpl in Hz. apply Forall_cons in Hz as [Hjf Hz].
    destruct (Z.ltb_spec j from); [lia|]. simpl. by rewrite Z.eqb_refl.
  - rewrite decide_False in * by done. specialize (IH (if j <? from then z else Z.land z (Z.lnot (Z.shiftl 1 (key_channel j)))) Hs Hz).
    assert (E : (if j <? from then find_timeout from m z else find_timeout from m (Z.land z (Z.lnot (Z.shiftl 1 (key_channel j)))))
      = find_timeout from m (if j <? from then z else Z.land z (Z.lnot (Z.shiftl 1 (key_channel j))))) by (by destruct (j <? from)).
    rewrite E. clear E. destruct (fst _) as [k|]; [|done]. unfold zero_keys in IH. rewrite IH. f_equal.
    destruct (Z.eqb_spec j k) as [->|]; [|by rewrite filter_cons, decide_False].
    exfalso. assert (Hk : k ∈ (filter (fun e => e.2 = 0) m).*1) by (rewrite IH; by left).
    apply list_elem_of_fmap in Hk as ([k' c'] & -> & Hk). apply list_elem_of_filter in Hk as [_ Hk].
    apply (list_elem_of_fmap_2 fst) in Hk. specialize (Hj _ Hk). simpl in Hj. lia.
Qed.

Definition sweep_ok (f : Feedback) (s : Flow) : Prop :=
  core size_ s /\ message s = Some f /\ pending_deletions_ s = true /\
  Forall (fun k => current_timeout_key_ s <= k) (zero_keys (trackers_ s)).

(** What [check_timeouts] does when it has no empty channel to report. *)
Definition search_timeout (f : Feedback) (s : Flow) : System :=
  let '(zero, is_empty) := find_timeout (current_timeout_key_ s) (trackers_ s) (new_channel_is_empty_ s) in
  let s := set_new_channel_is_empty is_empty s in
  match zero with
  | Some k =>
      (set_trackers (erase_tracker k (trackers_ s)) (set_current_timeout_key k s), WaitBuffer send_timeout_event)
  | None =>
      dispatch f (set_channel_is_empty (new_channel_is_empty_ s)
        (set_current_timeout_key 0 (set_pending_deletions false s)))
  end.

Definition start_sweep (s : Flow) : Flow :=
  if current_timeout_key_ s =? 0 then set_new_channel_is_empty (u16 (Z.shiftl 1 size_ - 1)) s else s.

Definition must_report_empty (s : Flow) : bool :=
  negb (current_timeout_key_ s =? 0) && Z.testbit (channel_pending_empty_ s) (key_channel (current_timeout_key_ s)) &&
  (num_loco_in_channel_locked (trackers_ s) (key_channel (current_timeout_key_ s)) =? 0).

Lemma check_timeouts_cases f s : pending_deletions_ s = true ->
  check_timeouts_state f s =
    if must_report_empty (start_sweep s) then (start_sweep s, WaitBuffer send_channel_empty)
    else search_timeout f (start_sweep s).
Proof.
  intros Hp. unfold RailcomBroadcast.check_timeouts_state, search_timeout, must_report_empty, start_sweep. rewrite Hp.
  by destruct (current_timeout_key_ s =? 0) eqn:E; simpl; rewrite ?E.
Qed.

Lemma start_sweep_ok f s : sweep_ok f s -> sweep_ok f (start_sweep s) /\ effects (start_sweep s) = effects s /\
  trackers_ (start_sweep s) = trackers_ s.
Proof. intros ([H1 H2 H3] & H). unfold start_sweep. by destruct (_ =? 0). Qed.

Lemma start_sweep_empty s : must_report_empty (start_sweep s) = must_report_empty s.
Proof. unfold start_sweep. by destruct (_ =? 0). Qed.

Lemma cleared_once (s : Flow) ch : 0 <= ch -> Z.testbit (channel_pending_empty_ (clear_pending_empty ch s)) ch = false.
Proof.
  intros Hch. unfold clear_pending_empty. cbn [channel_pending_empty_ set_channel_pending_empty].
  rewrite Z.land_spec, Z.lnot_spec, Z.shiftl_spec, Z.sub_diag by done. apply andb_false_r.
Qed.

Definition search_in (n : nat) : Prop := forall f s,
  sweep_ok f s -> (length (zero_keys (trackers_ s)) <= n)%nat ->
  settles (4 * n + 6) (zero_keys (trackers_ s)) (effects s) (search_timeout f s).

Lemma check_settles n f s : search_in n ->
  sweep_ok f s -> (length (zero_keys (trackers_ s)) <= n)%nat ->
  settles (4 * n + 8) (zero_keys (trackers_ s)) (effects s) (check_timeouts_state f s).
Proof.
  intros IH Hs Hn. rewrite check_timeouts_cases by apply Hs.
  destruct (start_sweep_ok f s Hs) as (Hs0 & He & Ht). rewrite <- He, <- Ht. rewrite <- Ht in Hn.
  clear Hs He Ht. revert Hs0 Hn. generalize (start_sweep s). clear s. intros s Hs Hn.
  destruct (must_report_empty s) eqn:E; [|apply (settles_le (4 * n + 6)); [lia | by apply IH]].
  replace (4 * n + 8)%nat with (S (S (4 * n + 6))) by lia.
  apply (settles_buffer _ _ _ _ _ f); [apply Hs|]. cbn [send]. set (ch := key_channel (current_timeout_key_ s)).
  apply (settles_sent _ _ _ _ _ f); [done | apply Hs|]. cbn [resume].
  set (s1 := emit _ s). assert (Hs1 : sweep_ok f (clear_pending_empty ch s1)).
  { destruct Hs as ([H1 H2 H3] & H4 & H5 & H6). repeat split; done. }
  rewrite check_timeouts_cases by apply Hs1. destruct (start_sweep_ok _ _ Hs1) as (Hs2 & He2 & Ht2).
  assert (Em : must_report_empty (start_sweep (clear_pending_empty ch s1)) = false).
  { assert (Hch : 0 <= ch) by (apply Z.land_nonneg; right; lia). pose proof (cleared_once s1 ch Hch) as Hbit.
    rewrite start_sweep_empty. unfold must_report_empty.
    change (key_channel (current_timeout_key_ (clear_pending_empty ch s1))) with ch. by rewrite Hbit, andb_false_r. }
  rewrite Em. change (trackers_ s) with (trackers_ (clear_pending_empty ch s1)). rewrite <- Ht2.
  eapply settles_later; [|apply IH; [done | by rewrite Ht2]]. rewrite He2. by eexists.
Qed.

Lemma search_settles n : search_in n.
Proof.
  induction n as [|n IH]; intros f s Hs Hn; pose proof Hs as (Hc & Hm & Hp & Hf);
    unfold search_timeout; pose proof (find_timeout_first _ (trackers_ s) (new_channel_is_empty_ s) (co_sorted _ _ Hc) Hf) as Hfirst;
    destruct (find_timeout _ _ _) as [[k|] e]; cbn [fst] in Hfirst.
  - rewrite Hfirst in Hn. simpl in Hn. lia.
  - rewrite Hfirst. apply (settles_le 6); [lia|]. refine (dispatch_settles f (set_channel_is_empty e (set_current_timeout_key 0
      (set_pending_deletions false (set_new_channel_is_empty e s)))) _ Hfirst Hm). by destruct Hc.
  - rewrite Hfirst in Hn |- *. apply settles_exit. replace (4 * S n + 6)%nat with (S (S (4 * n + 8))) by lia.
    apply (settles_buffer _ _ _ _ _ f); [done|]. cbn [send]. apply (settles_sent _ _ _ _ _ f); [done | done|]. cbn [resume].
    match goal with |- settles _ _ _ (check_timeouts_state f ?s1) => refine (check_settles n f s1 IH _ _) end;
      [|simpl in Hn; simpl; lia]. split; [|split; [done | split; [done|]]].
    + by destruct (core_erase size_ s k Hc).
    + pose proof (zero_keys_ascending _ (co_sorted _ _ Hc)) as Ha. rewrite Hfirst in Ha. apply ascending_cons in Ha as [_ Ha].
      apply Forall_forall. intros y Hy. specialize (Ha y Hy). cbn. lia.
  - rewrite Hfirst. apply (settles_le 6); [lia|]. refine (dispatch_settles f (set_channel_is_empty e (set_current_timeout_key 0
      (set_pending_deletions false (set_new_channel_is_empty e s)))) _ Hfirst Hm). by destruct Hc.
Qed.

(** C25: When the flow is idle, a message waits and the flow has noted that some
    locomotive left its last packets unanswered ([pending_deletions_], which a
    sweep can lose, [zero_forgotten]), then the flow gets through with that message in at
    most four steps for each tracker and seven more: every tracker at zero is
    gone then, no other has come to zero, and the exit of each of them has been
    reported. *)
Theorem silent_locos_leave l s :
  Forall event_ok l -> run l (new_Flow size_, Idle) = Some (s, Idle) ->
  pending_deletions_ s = true -> queue s <> [] ->
  exists n s' es,
    (n <= 4 * length (trackers_ s) + 7)%nat /\ drive n (s, Idle) = Some (s', Idle) /\
    zero_keys (trackers_ s') = [] /\ effects s' = effects s ++ es /\
    Forall (fun k => exit_report k ∈ es) (zero_keys (trackers_ s)).
Proof.
  intros Hl Hr Hp Hq.
  pose proof (flow_run_ok node_id size_ occupancyPort_ overcurrentPort_ debugPort_ Hsize _ _ _ Hl (tracking_new_flow_ok node_id size_) Hr) as Hok.
  destruct (queue s) as [|f q] eqn:Eq; [done|]. pose proof (fo_core _ _ _ Hok) as [H1 H2 H3]. cbn [fst] in H1, H2, H3.
  set (s0 := set_current_timeout_key 0 (set_message (Some f) (set_queue q s))).
  assert (Hs0 : sweep_ok f s0).
  { repeat split; [done | done | simpl; rewrite Eq in H3; by apply Forall_cons in H3 as [] | done|].
    apply Forall_forall. intros k (e & -> & He)%list_elem_of_fmap. apply list_elem_of_filter in He as [_ He].
    rewrite Forall_forall in H2. destruct (H2 e He) as ((addr & ch & Ha & Hch & ->) & _).
    apply Z.lor_nonneg. unfold valid_address, valid_channel in *. split; [apply Z.shiftl_nonneg|]; lia. }
  assert (Hlen : (length (zero_keys (trackers_ s0)) <= length (trackers_ s))%nat).
  { unfold zero_keys. rewrite length_fmap. apply length_filter. }
  assert (Hset : settles (4 * length (trackers_ s) + 7) (zero_keys (trackers_ s)) (effects s) (s, Idle)).
  { replace (4 * length (trackers_ s) + 7)%nat with (S (4 * length (trackers_ s) + 6)) by lia.
    eapply settles_step; [simpl; rewrite Eq; reflexivity|]. unfold entry. cbn [pending_deletions_ set_message set_queue].
    rewrite Hp. fold s0. rewrite check_timeouts_cases by done.
    destruct (start_sweep_ok f s0 Hs0) as (Hs1 & He & Ht).
    assert (Em : must_report_empty (start_sweep s0) = false) by reflexivity.
    rewrite Em. change (trackers_ s) with (trackers_ s0) at 2. change (effects s) with (effects s0). rewrite <- Ht, <- He.
    apply search_settles; [done|]. rewrite Ht. exact Hlen. }
  destruct Hset as (n & s' & es & H). by exists n, s', es.
Qed.

End Timeouts.
