(* ===== verification/ProgrammingTrack.v ===== *)
(** The programming track (src/cs/commandstation/ProgrammingTrackFrontend.hxx):
    reading and writing configuration variables (CVs) of decoders in service
    mode and, with RailCom, on the main.

    The states of the flow are functions on the members of
    [ProgrammingTrackFrontend]; a state ends with what the flow waits for.  The
    backend that sends service mode packets, the track, the RailCom hub and the
    parser of RailCom data are OpenMRN code: the frontend sends them messages
    and resumes with their answers.  [step] is one event at the flow: a request,
    an answer, RailCom feedback or a timer. *)

From S2P Require Import Prelude.

(** ** Data *)

(** [dcc::TrainAddressType] *)
Inductive TrainAddressType :=
| DCC_SHORT_ADDRESS
| DCC_LONG_ADDRESS
| DCC_ACCY_BASIC_OUTPUT
| DCC_ACCY_EXT
| MM
| UNSPECIFIED
| UNSUPPORTED.

Inductive Command :=
| DIRECT_WRITE_BYTE
| DIRECT_WRITE_BIT
| DIRECT_READ_BYTE
| DIRECT_READ_BIT
| POM_WRITE_BYTE
| POM_READ_BYTE
| POM_WRITE_BIT
| PAGED_WRITE_BYTE
| PAGED_VERIFY_BYTE
| PAGED_READ_BYTE
| EXIT_SERVICE_MODE.

#[export] Instance Command_eq_dec : EqDecision Command.
Proof. solve_decision. Defined.

Record Request := mkRequest {
  cmd_ : Command;
  cvOffset_ : Z;
  value_ : Z;
  bitOffset_ : Z;
  addrType_ : TrainAddressType;
  dccAddress_ : Z;
  resultCode : Z
}.
Definition set_cmd (x : Command) (s : Request) : Request :=
  mkRequest x (cvOffset_ s) (value_ s) (bitOffset_ s) (addrType_ s) (dccAddress_ s)
    (resultCode s).
Definition set_cvOffset (x : Z) (s : Request) : Request :=
  mkRequest (cmd_ s) x (value_ s) (bitOffset_ s) (addrType_ s) (dccAddress_ s) (resultCode s).
Definition set_value (x : Z) (s : Request) : Request :=
  mkRequest (cmd_ s) (cvOffset_ s) x (bitOffset_ s) (addrType_ s) (dccAddress_ s) (resultCode s).
Definition set_bitOffset (x : Z) (s : Request) : Request :=
  mkRequest (cmd_ s) (cvOffset_ s) (value_ s) x (addrType_ s) (dccAddress_ s) (resultCode s).
Definition set_addrType (x : TrainAddressType) (s : Request) : Request :=
  mkRequest (cmd_ s) (cvOffset_ s) (value_ s) (bitOffset_ s) x (dccAddress_ s) (resultCode s).
Definition set_dccAddress (x : Z) (s : Request) : Request :=
  mkRequest (cmd_ s) (cvOffset_ s) (value_ s) (bitOffset_ s) (addrType_ s) x (resultCode s).
Definition set_resultCode (x : Z) (s : Request) : Request :=
  mkRequest (cmd_ s) (cvOffset_ s) (value_ s) (bitOffset_ s) (addrType_ s) (dccAddress_ s) x.

(** The overloads of [reset], on a buffer that may have been used before. *)

Definition cv_offset (cv_number : Z) : Z := u32 (cv_number - 1).

Definition reset_direct_write_byte (cv_number value : Z) (r : Request) : Request :=
  set_value (u8 value) (set_cvOffset (cv_offset cv_number) (set_cmd DIRECT_WRITE_BYTE r)).

Definition reset_pom_write_byte (addrtype : TrainAddressType) (dcc_address cv_number value : Z)
    (r : Request) : Request :=
  set_value (u8 value) (set_cvOffset (cv_offset cv_number) (set_dccAddress (u16 dcc_address)
    (set_addrType addrtype (set_cmd POM_WRITE_BYTE r)))).

Definition reset_paged_write_byte (cv_number value : Z) (r : Request) : Request :=
  set_value (u8 value) (set_cvOffset (cv_offset cv_number) (set_cmd PAGED_WRITE_BYTE r)).

Definition reset_paged_verify_byte (cv_number value : Z) (r : Request) : Request :=
  set_value (u8 value) (set_cvOffset (cv_offset cv_number) (set_cmd PAGED_VERIFY_BYTE r)).

Definition reset_direct_read_byte (cv_number : Z) (r : Request) : Request :=
  set_value 0 (set_cvOffset (cv_offset cv_number) (set_cmd DIRECT_READ_BYTE r)).

Definition reset_pom_read_byte (addrtype : TrainAddressType) (dcc_address cv_number : Z)
    (r : Request) : Request :=
  set_value 0 (set_cvOffset (cv_offset cv_number) (set_dccAddress (u16 dcc_address)
    (set_addrType addrtype (set_cmd POM_READ_BYTE r)))).

Definition reset_direct_write_bit (cv_number bit : Z) (value : bool) (r : Request) : Request :=
  set_value (b2z value) (set_bitOffset (u8 bit) (set_cvOffset (cv_offset cv_number)
    (set_cmd DIRECT_WRITE_BIT r))).

Definition reset_pom_write_bit (addrtype : TrainAddressType) (dcc_address cv_number bit : Z)
    (value : bool) (r : Request) : Request :=
  set_value (b2z value) (set_bitOffset (u8 bit) (set_cvOffset (cv_offset cv_number)
    (set_dccAddress (u16 dcc_address) (set_addrType addrtype (set_cmd POM_WRITE_BIT r))))).

Definition reset_exit_service_mode (r : Request) : Request := set_cmd EXIT_SERVICE_MODE r.

(** *** Messages *)

(** [dcc::Packet] with service mode contents: the member of [dcc::Packet] that
    filled it in, and its arguments. *)
Inductive SvcPacket :=
| dcc_svc_write_byte (cv value : Z)
| dcc_svc_write_bit (cv bit : Z) (value : bool)
| dcc_svc_verify_byte (cv value : Z)
| dcc_svc_verify_bit (cv bit : Z) (value : bool)
| dcc_svc_paged_set_page (page : Z)
| dcc_svc_paged_write_reg (reg value : Z)
| dcc_svc_paged_verify_reg (reg value : Z).

(** Requests to the backend, [ProgrammingTrackRequest], and its answers. *)
Inductive BackendRequest :=
| ENTER_SERVICE
| EXIT_SERVICE
| SEND_RESET (repeats : Z)
| SEND_PROGRAMMING_PACKET (p : SvcPacket) (repeats : Z) (terminate_on_ack : bool).

Record BackendResult := mkBackendResult {
  hasShortCircuit_ : bool;
  hasAck_ : bool
}.

(** Packets on the main. *)
Inductive PacketAddress :=
| dcc_short_address (a : Z)
| dcc_long_address (a : Z)
| dcc_accy_basic (a : Z)
| dcc_accy_ext (a : Z).

Inductive PomPacket :=
| dcc_pom_write1 (a : PacketAddress) (cv value : Z)
| dcc_pom_read1 (a : PacketAddress) (cv : Z).

(** What is parsed from RailCom data. *)
Inductive RailcomPacketType := BUSY | NACK | ACK | MOB_POM | GARBAGE | OTHER_RAILCOM.

Record RailcomPacket := mkRailcomPacket {
  railcom_channel : Z;
  type_ : RailcomPacketType;
  argument_ : Z
}.

Record Feedback := mkFeedback {
  feedbackKey : Z;
  channel : Z;
  ch2Size : Z;
  ch2Data : list Z
}.

(** What the frontend has sent to others, and what it got from them. *)
Inductive Effect :=
| ToBackend (r : BackendRequest)
| FromBackend (b : BackendResult)
| ToTrack (p : PomPacket) (rept_count : Z)
| Heard (f : Feedback)
| Returned (r : Request).

(** States at which the flow resumes when what it waits for is there. *)
Inductive State :=
| send_initial_resets
| enter_service_mode_done
| write_pkt_sent
| write_cooldown_done
| write_verify_cooldown
| write_verify_cooldown_done
| check_next_bit_one
| cooldown_next_bit_one
| check_final_byte
| cooldown_final_verify
| send_pageset_cooldown
| send_paged_command
| paged_write_done
| paged_write_cooldown_done
| paged_hard_reset_exit
| exit_service_mode_done.

#[export] Instance State_eq_dec : EqDecision State.
Proof. solve_decision. Defined.

Inductive TrackState := fill_pom_write_byte_packet | fill_pom_read_byte_packet.
Inductive TimerState := write_returned | pom_write_byte_again | read_returned.

Inductive Wait :=
| Idle
| WaitBackend (next : State)
| WaitTrack (next : TrackState)
| WaitTimer (nsec : Z) (next : TimerState).

(** The service mode timer: the timer object of OpenMRN, triggered ahead of its
    time by [trigger]. *)
Inductive TimerObject := TimerOff | TimerRunning | TimerTriggered.

(** Members.  [confirmedOnes_] and [cvData_] are one byte (a union). *)
Record Frontend := mkFrontend {
  request : Request;
  confirmedOnes_ : Z;
  confirmedZeros_ : Z;
  verifyRepeats_ : Z;
  verifyCooldownReset_ : Z;
  nextBitToRead_ : Z;
  foundAck_ : bool;
  hasWriteAck_ : bool;
  errorCode_ : Z;
  numTry_ : Z;
  seenRailcomBusy_ : bool;
  seenRailcomGarbage_ : bool;
  pagedRegister_ : Z;
  inServiceMode_ : bool;
  serviceModePacket_ : SvcPacket;
  isRunning_ : bool;
  serviceModeTimer_ : TimerObject;
  railcomRegistered : bool;
  queue : list Request;
  effects : list Effect
}.
Definition set_request (x : Request) (s : Frontend) : Frontend :=
  mkFrontend x (confirmedOnes_ s) (confirmedZeros_ s) (verifyRepeats_ s)
    (verifyCooldownReset_ s) (nextBitToRead_ s) (foundAck_ s) (hasWriteAck_ s) (errorCode_ s)
    (numTry_ s) (seenRailcomBusy_ s) (seenRailcomGarbage_ s) (pagedRegister_ s)
    (inServiceMode_ s) (serviceModePacket_ s) (isRunning_ s) (serviceModeTimer_ s)
    (railcomRegistered s) (queue s) (effects s).
Definition set_confirmedOnes (x : Z) (s : Frontend) : Frontend :=
  mkFrontend (request s) x (confirmedZeros_ s) (verifyRepeats_ s) (verifyCooldownReset_ s)
    (nextBitToRead_ s) (foundAck_ s) (hasWriteAck_ s) (errorCode_ s) (numTry_ s)
    (seenRailcomBusy_ s) (seenRailcomGarbage_ s) (pagedRegister_ s) (inServiceMode_ s)
    (serviceModePacket_ s) (isRunning_ s) (serviceModeTimer_ s) (railcomRegistered s) (queue s)
    (effects s).
Definition set_confirmedZeros (x : Z) (s : Frontend) : Frontend :=
  mkFrontend (request s) (confirmedOnes_ s) x (verifyRepeats_ s) (verifyCooldownReset_ s)
    (nextBitToRead_ s) (foundAck_ s) (hasWriteAck_ s) (errorCode_ s) (numTry_ s)
    (seenRailcomBusy_ s) (seenRailcomGarbage_ s) (pagedRegister_ s) (inServiceMode_ s)
    (serviceModePacket_ s) (isRunning_ s) (serviceModeTimer_ s) (railcomRegistered s) (queue s)
    (effects s).
Definition set_verifyRepeats (x : Z) (s : Frontend) : Frontend :=
  mkFrontend (request s) (confirmedOnes_ s) (confirmedZeros_ s) x (verifyCooldownReset_ s)
    (nextBitToRead_ s) (foundAck_ s) (hasWriteAck_ s) (errorCode_ s) (numTry_ s)
    (seenRailcomBusy_ s) (seenRailcomGarbage_ s) (pagedRegister_ s) (inServiceMode_ s)
    (serviceModePacket_ s) (isRunning_ s) (serviceModeTimer_ s) (railcomRegistered s) (queue s)
    (effects s).
Definition set_verifyCooldownReset (x : Z) (s : Frontend) : Frontend :=
  mkFrontend (request s) (confirmedOnes_ s) (confirmedZeros_ s) (verifyRepeats_ s) x
    (nextBitToRead_ s) (foundAck_ s) (hasWriteAck_ s) (errorCode_ s) (numTry_ s)
    (seenRailcomBusy_ s) (seenRailcomGarbage_ s) (pagedRegister_ s) (inServiceMode_ s)
    (serviceModePacket_ s) (isRunning_ s) (serviceModeTimer_ s) (railcomRegistered s) (queue s)
    (effects s).
Definition set_nextBitToRead (x : Z) (s : Frontend) : Frontend :=
  mkFrontend (request s) (confirmedOnes_ s) (confirmedZeros_ s) (verifyRepeats_ s)
    (verifyCooldownReset_ s) x (foundAck_ s) (hasWriteAck_ s) (errorCode_ s) (numTry_ s)
    (seenRailcomBusy_ s) (seenRailcomGarbage_ s) (pagedRegister_ s) (inServiceMode_ s)
    (serviceModePacket_ s) (isRunning_ s) (serviceModeTimer_ s) (railcomRegistered s) (queue s)
    (effects s).
Definition set_foundAck (x : bool) (s : Frontend) : Frontend :=
  mkFrontend (request s) (confirmedOnes_ s) (confirmedZeros_ s) (verifyRepeats_ s)
    (verifyCooldownReset_ s) (nextBitToRead_ s) x (hasWriteAck_ s) (errorCode_ s) (numTry_ s)
    (seenRailcomBusy_ s) (seenRailcomGarbage_ s) (pagedRegister_ s) (inServiceMode_ s)
    (serviceModePacket_ s) (isRunning_ s) (serviceModeTimer_ s) (railcomRegistered s) (queue s)
    (effects s).
Definition set_hasWriteAck (x : bool) (s : Frontend) : Frontend :=
  mkFrontend (request s) (confirmedOnes_ s) (confirmedZeros_ s) (verifyRepeats_ s)
    (verifyCooldownReset_ s) (nextBitToRead_ s) (foundAck_ s) x (errorCode_ s) (numTry_ s)
    (seenRailcomBusy_ s) (seenRailcomGarbage_ s) (pagedRegister_ s) (inServiceMode_ s)
    (serviceModePacket_ s) (isRunning_ s) (serviceModeTimer_ s) (railcomRegistered s) (queue s)
    (effects s).
Definition set_errorCode (x : Z) (s : Frontend) : Frontend :=
  mkFrontend (request s) (confirmedOnes_ s) (confirmedZeros_ s) (verifyRepeats_ s)
    (verifyCooldownReset_ s) (nextBitToRead_ s) (foundAck_ s) (hasWriteAck_ s) x (numTry_ s)
    (seenRailcomBusy_ s) (seenRailcomGarbage_ s) (pagedRegister_ s) (inServiceMode_ s)
    (serviceModePacket_ s) (isRunning_ s) (serviceModeTimer_ s) (railcomRegistered s) (queue s)
    (effects s).
Definition set_numTry (x : Z) (s : Frontend) : Frontend :=
  mkFrontend (request s) (confirmedOnes_ s) (confirmedZeros_ s) (verifyRepeats_ s)
    (verifyCooldownReset_ s) (nextBitToRead_ s) (foundAck_ s) (hasWriteAck_ s) (errorCode_ s) x
    (seenRailcomBusy_ s) (seenRailcomGarbage_ s) (pagedRegister_ s) (inServiceMode_ s)
    (serviceModePacket_ s) (isRunning_ s) (serviceModeTimer_ s) (railcomRegistered s) (queue s)
    (effects s).
Definition set_seenRailcomBusy (x : bool) (s : Frontend) : Frontend :=
  mkFrontend (request s) (confirmedOnes_ s) (confirmedZeros_ s) (verifyRepeats_ s)
    (verifyCooldownReset_ s) (nextBitToRead_ s) (foundAck_ s) (hasWriteAck_ s) (errorCode_ s)
    (numTry_ s) x (seenRailcomGarbage_ s) (pagedRegister_ s) (inServiceMode_ s)
    (serviceModePacket_ s) (isRunning_ s) (serviceModeTimer_ s) (railcomRegistered s) (queue s)
    (effects s).
Definition set_seenRailcomGarbage (x : bool) (s : Frontend) : Frontend :=
  mkFrontend (request s) (confirmedOnes_ s) (confirmedZeros_ s) (verifyRepeats_ s)
    (verifyCooldownReset_ s) (nextBitToRead_ s) (foundAck_ s) (hasWriteAck_ s) (errorCode_ s)
    (numTry_ s) (seenRailcomBusy_ s) x (pagedRegister_ s) (inServiceMode_ s)
    (serviceModePacket_ s) (isRunning_ s) (serviceModeTimer_ s) (railcomRegistered s) (queue s)
    (effects s).
Definition set_pagedRegister (x : Z) (s : Frontend) : Frontend :=
  mkFrontend (request s) (confirmedOnes_ s) (confirmedZeros_ s) (verifyRepeats_ s)
    (verifyCooldownReset_ s) (nextBitToRead_ s) (foundAck_ s) (hasWriteAck_ s) (errorCode_ s)
    (numTry_ s) (seenRailcomBusy_ s) (seenRailcomGarbage_ s) x (inServiceMode_ s)
    (serviceModePacket_ s) (isRunning_ s) (serviceModeTimer_ s) (railcomRegistered s) (queue s)
    (effects s).
Definition set_inServiceMode (x : bool) (s : Frontend) : Frontend :=
  mkFrontend (request s) (confirmedOnes_ s) (confirmedZeros_ s) (verifyRepeats_ s)
    (verifyCooldownReset_ s) (nextBitToRead_ s) (foundAck_ s) (hasWriteAck_ s) (errorCode_ s)
    (numTry_ s) (seenRailcomBusy_ s) (seenRailcomGarbage_ s) (pagedRegister_ s) x
    (serviceModePacket_ s) (isRunning_ s) (serviceModeTimer_ s) (railcomRegistered s) (queue s)
    (effects s).
Definition set_serviceModePacket (x : SvcPacket) (s : Frontend) : Frontend :=
  mkFrontend (request s) (confirmedOnes_ s) (confirmedZeros_ s) (verifyRepeats_ s)
    (verifyCooldownReset_ s) (nextBitToRead_ s) (foundAck_ s) (hasWriteAck_ s) (errorCode_ s)
    (numTry_ s) (seenRailcomBusy_ s) (seenRailcomGarbage_ s) (pagedRegister_ s)
    (inServiceMode_ s) x (isRunning_ s) (serviceModeTimer_ s) (railcomRegistered s) (queue s)
    (effects s).
Definition set_isRunning (x : bool) (s : Frontend) : Frontend :=
  mkFrontend (request s) (confirmedOnes_ s) (confirmedZeros_ s) (verifyRepeats_ s)
    (verifyCooldownReset_ s) (nextBitToRead_ s) (foundAck_ s) (hasWriteAck_ s) (errorCode_ s)
    (numTry_ s) (seenRailcomBusy_ s) (seenRailcomGarbage_ s) (pagedRegister_ s)
    (inServiceMode_ s) (serviceModePacket_ s) x (serviceModeTimer_ s) (railcomRegistered s)
    (queue s) (effects s).
Definition set_serviceModeTimer (x : TimerObject) (s : Frontend) : Frontend :=
  mkFrontend (request s) (confirmedOnes_ s) (confirmedZeros_ s) (verifyRepeats_ s)
    (verifyCooldownReset_ s) (nextBitToRead_ s) (foundAck_ s) (hasWriteAck_ s) (errorCode_ s)
    (numTry_ s) (seenRailcomBusy_ s) (seenRailcomGarbage_ s) (pagedRegister_ s)
    (inServiceMode_ s) (serviceModePacket_ s) (isRunning_ s) x (railcomRegistered s) (queue s)
    (effects s).
Definition set_railcomRegistered (x : bool) (s : Frontend) : Frontend :=
  mkFrontend (request s) (confirmedOnes_ s) (confirmedZeros_ s) (verifyRepeats_ s)
    (verifyCooldownReset_ s) (nextBitToRead_ s) (foundAck_ s) (hasWriteAck_ s) (errorCode_ s)
    (numTry_ s) (seenRailcomBusy_ s) (seenRailcomGarbage_ s) (pagedRegister_ s)
    (inServiceMode_ s) (serviceModePacket_ s) (isRunning_ s) (serviceModeTimer_ s) x (queue s)
    (effects s).
Definition set_queue (x : list Request) (s : Frontend) : Frontend :=
  mkFrontend (request s) (confirmedOnes_ s) (confirmedZeros_ s) (verifyRepeats_ s)
    (verifyCooldownReset_ s) (nextBitToRead_ s) (foundAck_ s) (hasWriteAck_ s) (errorCode_ s)
    (numTry_ s) (seenRailcomBusy_ s) (seenRailcomGarbage_ s) (pagedRegister_ s)
    (inServiceMode_ s) (serviceModePacket_ s) (isRunning_ s) (serviceModeTimer_ s)
    (railcomRegistered s) x (effects s).
Definition set_effects (x : list Effect) (s : Frontend) : Frontend :=
  mkFrontend (request s) (confirmedOnes_ s) (confirmedZeros_ s) (verifyRepeats_ s)
    (verifyCooldownReset_ s) (nextBitToRead_ s) (foundAck_ s) (hasWriteAck_ s) (errorCode_ s)
    (numTry_ s) (seenRailcomBusy_ s) (seenRailcomGarbage_ s) (pagedRegister_ s)
    (inServiceMode_ s) (serviceModePacket_ s) (isRunning_ s) (serviceModeTimer_ s)
    (railcomRegistered s) (queue s) x.

Definition cvData_ : Frontend -> Z := confirmedOnes_.
Definition set_cvData : Z -> Frontend -> Frontend := set_confirmedOnes.

(** ** Constants *)

Definition DEFAULT_VERIFY_REPEATS : Z := 5.
Definition DEFAULT_VERIFY_COOLDOWN : Z := 15.
Definition DEFAULT_WRITE_REPEATS : Z := 5.
Definition DEFAULT_POM_WRITE_RETRIES_ON_BUSY : Z := 3.
Definition DEFAULT_POM_READ_RETRIES : Z := 3.
Definition DEFAULT_PAGED_PAGESET_REPEATS : Z := 5.
Definition DEFAULT_PAGED_WRITE_REPEATS : Z := 5.
Definition DEFAULT_PAGED_VERIFY_REPEATS : Z := 11.
Definition DEFAULT_PAGED_COOLDOWN_REPEATS : Z := 5.
Definition DEFAULT_PAGED_ADDRESS_COOLDOWN_REPEATS : Z := 10.
Definition DEFAULT_PAGED_HARD_RESET_REPEATS : Z := 100.

Definition ERROR_PENDING : Z := 1.
Definition ERROR_OK : Z := 2.
Definition ERROR_BUSY : Z := 3.

Definition MSEC_TO_NSEC (ms : Z) : Z := ms * 1000000.

(** Error codes of OpenMRN. *)
Class ErrorDefs := {
  ERROR_CODE_OK : Z;
  ERROR_OPENLCB_TIMEOUT : Z;
  ERROR_UNIMPLEMENTED_CMD : Z;
  ERROR_INVALID_ARGS : Z;
  ERROR_SRC_NOT_PERMITTED : Z;
  ERROR_TEMPORARY : Z;
  OPERATION_PENDING : Z
}.

Section Frontend.

Context `{ED : ErrorDefs}.
(** Whether there is a [backend_], the address of this object, and the parser of
    RailCom data. *)
Context (backend_ : bool) (self : Z) (parse_railcom_data : Feedback -> list RailcomPacket).

Definition ERROR_NO_LOCO : Z := Z.lor ERROR_OPENLCB_TIMEOUT 1.
Definition ERROR_FAILED_VERIFY : Z := Z.lor ERROR_OPENLCB_TIMEOUT 2.
Definition ERROR_NO_RAILCOM : Z := Z.lor ERROR_OPENLCB_TIMEOUT 3.
Definition ERROR_INVALID_RESPONSE : Z := Z.lor ERROR_OPENLCB_TIMEOUT 4.
Definition ERROR_PGM_SHORT : Z := Z.lor ERROR_OPENLCB_TIMEOUT 5.
Definition ERROR_PGMTRACK_DISABLED : Z := Z.lor ERROR_SRC_NOT_PERMITTED 1.

Definition set_repeat_verify (cnt : Z) (s : Frontend) : Frontend := set_verifyRepeats (u8 cnt) s.
Definition set_repeat_verify_cooldown (cnt : Z) (s : Frontend) : Frontend :=
  set_verifyCooldownReset (u8 cnt) s.

(** ** Parts of states *)

Definition emit (e : Effect) (s : Frontend) : Frontend := set_effects (effects s ++ [e]) s.

(** [invoke_subflow_and_wait(backend_, STATE(next), r)] *)
Definition invoke_backend (r : BackendRequest) (next : State) (s : Frontend) : Frontend * Wait :=
  (emit (ToBackend r) s, WaitBackend next).

(** [CallableFlow::return_with_error] *)
Definition return_with_error (error : Z) (s : Frontend) : Frontend * Wait :=
  let r := set_resultCode error (request s) in
  (emit (Returned r) (set_request r s), Idle).

Definition return_ok : Frontend -> Frontend * Wait := return_with_error 0.

(** [request()->resultCode |= code] *)
Definition or_result (code : Z) (s : Frontend) : Frontend :=
  set_request (set_resultCode (Z.lor (resultCode (request s)) code) (request s)) s.

(** [StateFlow::invoke_subflow_and_ignore_result(this, EXIT_SERVICE_MODE)]: the
    request waits like those of other callers. *)
Definition blank_request : Request := mkRequest EXIT_SERVICE_MODE 0 0 0 UNSPECIFIED 0 0.
Definition queue_exit (s : Frontend) : Frontend :=
  set_queue (queue s ++ [reset_exit_service_mode blank_request]) s.

(** *** [ServiceModeTimer] *)

Definition ping (s : Frontend) : Frontend :=
  if isRunning_ s then set_serviceModeTimer TimerRunning s
  else set_isRunning true (set_serviceModeTimer TimerRunning s).

Definition stop_wait (s : Frontend) : Frontend :=
  if isRunning_ s then set_isRunning false (set_serviceModeTimer TimerTriggered s) else s.

Definition service_mode_timeout (s : Frontend) : Frontend :=
  let triggered := match serviceModeTimer_ s with TimerTriggered => true | _ => false end in
  let s := set_serviceModeTimer TimerOff (set_isRunning false s) in
  if triggered then s else queue_exit s.

Definition done_and_return (s : Frontend) : Frontend * Wait :=
  let s := ping s in
  return_with_error (Z.land (resultCode (request s)) (Z.lnot OPERATION_PENDING)) s.

Definition exit_unimplemented (s : Frontend) : Frontend * Wait :=
  done_and_return (or_result ERROR_UNIMPLEMENTED_CMD s).

Definition pgm_short (s : Frontend) : Frontend * Wait :=
  return_with_error ERROR_PGM_SHORT (queue_exit s).

Definition send_packet (p : SvcPacket) (repeats : Z) (terminate_on_ack : bool) (next : State)
    (s : Frontend) : Frontend * Wait :=
  invoke_backend (SEND_PROGRAMMING_PACKET p repeats terminate_on_ack) next
    (set_serviceModePacket p s).

(** [if (b->data()->hasAck_) foundAck_ = 1] *)
Definition note_ack (b : BackendResult) (s : Frontend) : Frontend :=
  if hasAck_ b then set_foundAck true s else s.

(** ** Service mode: writes *)

Definition read_next_bit (s : Frontend) : Frontend * Wait :=
  send_packet (dcc_svc_verify_bit (cvOffset_ (request s)) (nextBitToRead_ s) true)
    (verifyRepeats_ s) false check_next_bit_one s.

Definition direct_read_byte (s : Frontend) : Frontend * Wait :=
  read_next_bit (set_confirmedZeros 0 (set_confirmedOnes 0 (set_nextBitToRead 0 s))).

(** The page and the zero based register of a CV. *)
Definition page_of (cvOffset : Z) : Z * Z :=
  if (cvOffset =? 6) || (cvOffset =? 7) then (1, cvOffset)
  else if cvOffset =? 28 then (1, 4)
  else (Z.land (u32 (cvOffset / 4 + 1)) 0xFF, Z.land cvOffset 3).

Definition send_page_preset (s : Frontend) : Frontend * Wait :=
  let '(page, reg) := page_of (cvOffset_ (request s)) in
  send_packet (dcc_svc_paged_set_page page) DEFAULT_PAGED_PAGESET_REPEATS true send_paged_command
    (set_hasWriteAck false (set_foundAck false (set_pagedRegister reg s))).

Definition act_service_mode (s : Frontend) : Frontend * Wait :=
  let r := request s in
  let send_write p := send_packet p DEFAULT_WRITE_REPEATS false write_pkt_sent
    (set_hasWriteAck false (set_foundAck false s)) in
  match cmd_ r with
  | DIRECT_WRITE_BYTE => send_write (dcc_svc_write_byte (cvOffset_ r) (value_ r))
  | DIRECT_WRITE_BIT =>
      send_write (dcc_svc_write_bit (cvOffset_ r) (bitOffset_ r) (negb (value_ r =? 0)))
  | DIRECT_READ_BYTE => direct_read_byte s
  | PAGED_WRITE_BYTE | PAGED_VERIFY_BYTE => send_page_preset s
  | _ => exit_unimplemented s
  end.

Definition enter_service_mode (s : Frontend) : Frontend * Wait :=
  if inServiceMode_ s then act_service_mode s
  else if negb backend_ then return_with_error ERROR_PGMTRACK_DISABLED s
  else invoke_backend ENTER_SERVICE send_initial_resets (set_inServiceMode true s).

(** The second half of [write_cooldown_done]: the verify packet of a write. *)
Definition send_write_verify (s : Frontend) : Frontend * Wait :=
  let r := request s in
  match cmd_ r with
  | DIRECT_WRITE_BYTE =>
      send_packet (dcc_svc_verify_byte (cvOffset_ r) (value_ r)) (verifyRepeats_ s) false
        write_verify_cooldown (set_foundAck false s)
  | DIRECT_WRITE_BIT =>
      send_packet (dcc_svc_verify_bit (cvOffset_ r) (bitOffset_ r) (negb (value_ r =? 0)))
        (verifyRepeats_ s) false write_verify_cooldown (set_foundAck false s)
  | _ => exit_unimplemented s
  end.

Definition write_result (s : Frontend) : Frontend * Wait :=
  done_and_return
    (or_result (if foundAck_ s then ERROR_CODE_OK
                else if hasWriteAck_ s then ERROR_FAILED_VERIFY
                else ERROR_NO_LOCO) s).

Definition set_result_ok (s : Frontend) : Frontend := or_result ERROR_CODE_OK s.

(** ** Service mode: answers of the backend

    One case per state that the flow resumes with an answer [b]. *)

Definition after_backend (next : State) (b : BackendResult) (s : Frontend) : Frontend * Wait :=
  if match next with exit_service_mode_done => false | _ => hasShortCircuit_ b end then pgm_short s
  else match next with
  | send_initial_resets => invoke_backend (SEND_RESET 85) enter_service_mode_done s
  | enter_service_mode_done => act_service_mode s
  | write_pkt_sent => invoke_backend (SEND_RESET 15) write_cooldown_done (note_ack b s)
  | write_cooldown_done =>
      let s := note_ack b s in
      send_write_verify (set_hasWriteAck (foundAck_ s) s)
  | write_verify_cooldown =>
      invoke_backend (SEND_RESET (verifyCooldownReset_ s)) write_verify_cooldown_done (note_ack b s)
  | write_verify_cooldown_done => write_result (note_ack b s)
  | check_next_bit_one =>
      let s := if hasAck_ b
        then set_confirmedOnes (u8 (Z.lor (confirmedOnes_ s) (Z.shiftl 1 (nextBitToRead_ s)))) s
        else s in
      invoke_backend (SEND_RESET (verifyCooldownReset_ s)) cooldown_next_bit_one s
  | cooldown_next_bit_one =>
      let s := if hasAck_ b
        then set_confirmedOnes (u8 (Z.lor (confirmedOnes_ s) (Z.shiftl 1 (nextBitToRead_ s)))) s
        else s in
      if nextBitToRead_ s =? 7 then
        send_packet (dcc_svc_verify_byte (cvOffset_ (request s)) (confirmedOnes_ s))
          (verifyRepeats_ s) false check_final_byte
          (set_request (set_value (confirmedOnes_ s) (request s)) s)
      else read_next_bit (set_nextBitToRead ((nextBitToRead_ s + 1) mod 2 ^ 4) s)
  | check_final_byte =>
      if hasAck_ b then done_and_return (set_result_ok s)
      else invoke_backend (SEND_RESET (verifyCooldownReset_ s)) cooldown_final_verify s
  | cooldown_final_verify =>
      done_and_return (if hasAck_ b then set_result_ok s else or_result ERROR_FAILED_VERIFY s)
  | send_pageset_cooldown =>
      invoke_backend (SEND_RESET DEFAULT_PAGED_COOLDOWN_REPEATS) send_paged_command s
  | send_paged_command =>
      let r := request s in
      match cmd_ r with
      | PAGED_WRITE_BYTE =>
          send_packet (dcc_svc_paged_write_reg (pagedRegister_ s) (value_ r))
            DEFAULT_PAGED_WRITE_REPEATS true paged_write_done s
      | PAGED_VERIFY_BYTE =>
          send_packet (dcc_svc_paged_verify_reg (pagedRegister_ s) (value_ r))
            DEFAULT_PAGED_VERIFY_REPEATS true check_final_byte s
      | _ => exit_unimplemented s
      end
  | paged_write_done =>
      let repeats := if cvOffset_ (request s) =? 0 then DEFAULT_PAGED_ADDRESS_COOLDOWN_REPEATS
                     else DEFAULT_PAGED_COOLDOWN_REPEATS in
      invoke_backend (SEND_RESET repeats) paged_write_cooldown_done (note_ack b s)
  | paged_write_cooldown_done =>
      let s := note_ack b s in
      let s := set_foundAck false (set_hasWriteAck (foundAck_ s) s) in
      let r := request s in
      if (cvOffset_ r =? 7) && (value_ r =? 8) then
        invoke_backend (SEND_RESET DEFAULT_PAGED_HARD_RESET_REPEATS) paged_hard_reset_exit s
      else
        send_packet (dcc_svc_paged_verify_reg (pagedRegister_ s) (value_ r))
          DEFAULT_PAGED_VERIFY_REPEATS true write_verify_cooldown_done s
  | paged_hard_reset_exit =>
      let s := note_ack b s in
      done_and_return
        (if foundAck_ s || hasWriteAck_ s then set_result_ok s else or_result ERROR_NO_LOCO s)
  | exit_service_mode_done => return_ok s
  end.

Definition exit_service_mode (s : Frontend) : Frontend * Wait :=
  let s := stop_wait s in
  if negb (inServiceMode_ s) then return_ok s
  else
    let s := set_inServiceMode false s in
    if negb backend_ then return_ok s
    else invoke_backend EXIT_SERVICE exit_service_mode_done s.

(** ** Programming on the main *)

Definition pom_write_byte (s : Frontend) : Frontend * Wait := (s, WaitTrack fill_pom_write_byte_packet).
Definition pom_read_byte (s : Frontend) : Frontend * Wait := (s, WaitTrack fill_pom_read_byte_packet).

(** From [register_port] to [track_->send]. *)
Definition send_pom (p : PomPacket) (next : TimerState) (s : Frontend) : Frontend * Wait :=
  let s := set_railcomRegistered true s in
  let s := set_errorCode ERROR_PENDING (set_seenRailcomGarbage false (set_seenRailcomBusy false s)) in
  (emit (ToTrack p 3) s, WaitTimer (MSEC_TO_NSEC 500) next).

Definition after_track (next : TrackState) (s : Frontend) : Frontend * Wait :=
  let r := request s in
  match next with
  | fill_pom_write_byte_packet =>
      let send a := send_pom (dcc_pom_write1 a (cvOffset_ r) (value_ r)) write_returned s in
      match addrType_ r with
      | DCC_SHORT_ADDRESS => send (dcc_short_address (dccAddress_ r))
      | DCC_LONG_ADDRESS => send (dcc_long_address (dccAddress_ r))
      | DCC_ACCY_BASIC_OUTPUT => send (dcc_accy_basic (dccAddress_ r))
      | DCC_ACCY_EXT => send (dcc_accy_ext (dccAddress_ r))
      | MM | UNSPECIFIED | UNSUPPORTED => return_with_error ERROR_INVALID_ARGS s
      end
  | fill_pom_read_byte_packet =>
      let send a := send_pom (dcc_pom_read1 a (cvOffset_ r)) read_returned (set_cvData 0 s) in
      match addrType_ r with
      | DCC_SHORT_ADDRESS => send (dcc_short_address (dccAddress_ r))
      | DCC_LONG_ADDRESS => send (dcc_long_address (dccAddress_ r))
      | _ => return_with_error ERROR_INVALID_ARGS s
      end
  end.

(** [numTry_] has 4 bits. *)
Definition next_try (s : Frontend) : Frontend := set_numTry ((numTry_ s + 1) mod 2 ^ 4) s.

Definition after_timer (next : TimerState) (s : Frontend) : Frontend * Wait :=
  let no_answer s :=
    return_with_error (if seenRailcomBusy_ s || seenRailcomGarbage_ s then ERROR_INVALID_RESPONSE
                       else ERROR_NO_RAILCOM) s in
  match next with
  | write_returned =>
      if errorCode_ s =? ERROR_PENDING then
        let s := set_railcomRegistered false s in
        if seenRailcomBusy_ s then
          let s := next_try s in
          if numTry_ s <? DEFAULT_POM_WRITE_RETRIES_ON_BUSY
          then (s, WaitTimer (MSEC_TO_NSEC 100) pom_write_byte_again)
          else no_answer s
        else no_answer s
      else if errorCode_ s =? ERROR_OK then return_with_error ERROR_CODE_OK s
      else return_with_error ERROR_TEMPORARY s
  | pom_write_byte_again => pom_write_byte s
  | read_returned =>
      if errorCode_ s =? ERROR_OK then
        return_with_error ERROR_CODE_OK (set_request (set_value (cvData_ s) (request s)) s)
      else
        let s := if errorCode_ s =? ERROR_PENDING then set_railcomRegistered false s else s in
        let s := next_try s in
        if numTry_ s <? DEFAULT_POM_READ_RETRIES then pom_read_byte s else no_answer s
  end.

(** *** RailCom feedback *)

Definition record_railcom_status (code : Z) (s : Frontend) : Frontend :=
  set_railcomRegistered false (set_errorCode code s).

(** The loop over the parsed packets; the flag is [new_status == ERROR_OK]. *)
Fixpoint interpret_responses (l : list RailcomPacket) (ok : bool) (s : Frontend) : bool * Frontend :=
  match l with
  | [] => (ok, s)
  | e :: l =>
      if negb (railcom_channel e =? 2) then interpret_responses l ok s
      else match type_ e with
      | BUSY => interpret_responses l ok (set_seenRailcomBusy true s)
      | NACK | ACK => interpret_responses l ok s
      | MOB_POM => interpret_responses l true (set_cvData (u8 (argument_ e)) s)
      | GARBAGE | OTHER_RAILCOM => interpret_responses l ok (set_seenRailcomGarbage true s)
      end
  end.

Definition railcom_feedback (f : Feedback) (s : Frontend) : Frontend :=
  if negb (errorCode_ s =? ERROR_PENDING) then s
  else if negb (feedbackKey f =? self) then
    if seenRailcomBusy_ s then record_railcom_status ERROR_BUSY s else s
  else if channel f =? 0xff then s
  else if ch2Size f =? 0 then s
  else
    let '(ok, s) := interpret_responses (parse_railcom_data f) false s in
    if ok then record_railcom_status ERROR_OK s else s.

(** ** The flow *)

Definition entry (s : Frontend) : Frontend * Wait :=
  let s := set_request (set_resultCode OPERATION_PENDING (request s)) s in
  match cmd_ (request s) with
  | DIRECT_WRITE_BYTE | DIRECT_WRITE_BIT | DIRECT_READ_BYTE | DIRECT_READ_BIT
  | PAGED_WRITE_BYTE | PAGED_VERIFY_BYTE => enter_service_mode s
  | POM_READ_BYTE => pom_read_byte (set_numTry 0 s)
  | POM_WRITE_BYTE => pom_write_byte (set_numTry 0 s)
  | POM_WRITE_BIT | PAGED_READ_BYTE => return_with_error ERROR_UNIMPLEMENTED_CMD s
  | EXIT_SERVICE_MODE => exit_service_mode s
  end.

(** Events at the flow, all on its executor.  A timer that was triggered is
    handled before anything else. *)
Inductive event :=
| Call (r : Request)
| Start
| BackendDone (b : BackendResult)
| TrackReady
| TimerDone
| Railcom (f : Feedback)
| ServiceTimeout.

Definition System : Type := Frontend * Wait.

Definition triggered (s : Frontend) : bool :=
  match serviceModeTimer_ s with TimerTriggered => true | _ => false end.

(** [None]: the event cannot happen now. *)
Definition step (e : event) (x : System) : option System :=
  let '(s, w) := x in
  match e with
  | ServiceTimeout =>
      match serviceModeTimer_ s with
      | TimerOff => None
      | _ => Some (service_mode_timeout s, w)
      end
  | Call r => Some (set_queue (queue s ++ [r]) s, w)
  | _ =>
      if triggered s then None
      else match e, w with
      | Start, Idle =>
          match queue s with
          | r :: l => Some (entry (set_request r (set_queue l s)))
          | [] => None
          end
      | BackendDone b, WaitBackend next => Some (after_backend next b (emit (FromBackend b) s))
      | TrackReady, WaitTrack next => Some (after_track next s)
      | TimerDone, WaitTimer _ next => Some (after_timer next s)
      | Railcom f, _ => if railcomRegistered s then Some (railcom_feedback f (emit (Heard f) s), w) else None
      | _, _ => None
      end
  end.

Fixpoint run (l : list event) (x : System) : option System :=
  match l with
  | [] => Some x
  | e :: l => x ← step e x; run l x
  end.

(** The constructor; other members are left as the memory has them. *)
Definition new_Frontend (memory : Frontend) : System :=
  let s := set_verifyCooldownReset DEFAULT_VERIFY_COOLDOWN
    (set_verifyRepeats DEFAULT_VERIFY_REPEATS (set_inServiceMode false memory)) in
  let s := set_railcomRegistered false (set_serviceModeTimer TimerOff (set_isRunning false s)) in
  (set_effects [] (set_queue [] s), Idle).

End Frontend.
