(* ===== verification/ProgrammingCVSpace.v ===== *)
(** The memory space of the programming track
    (src/cs/commandstation/ProgrammingTrackCVSpace.hxx, with the layout of
    ProgrammingTrackSpaceConfig.hxx): reads and writes at an address become
    requests to the programming track, or accesses to the fields of a record that
    lives in memory.

    A call that needs the programming track returns [ERROR_AGAIN], starts the
    flow, and is made again when it has been notified.  [store_] is its bytes,
    most significant first; a copy that leaves them crashes.  The frontend is
    told by [ToFrontend] what to do and answers with a result.  *)

From S2P Require Import Prelude ProgrammingTrack.

Definition NodeID := Z.

(** Functions and constants of OpenMRN.  [unsigned_integer_to_buffer] has the
    characters that it writes, without the null at the end. *)
Class CvSpaceDefs := {
  byte_of_type : TrainAddressType -> Z;
  type_of_byte : Z -> TrainAddressType;
  legacy_address_from_train_node_id : NodeID -> option (TrainAddressType * Z);
  decode_address_partition : Z -> option (Z * TrainAddressType);
  accy_address_binary_to_user : Z -> Z;
  accy_address_user_to_binary : Z -> Z;
  unsigned_integer_to_buffer : Z -> list Z;
  ERROR_OUT_OF_BOUNDS : Z;
  ERROR_AGAIN : Z;
  ERROR_UNIMPLEMENTED : Z
}.

Section CVSpace.

Context `{ED : ErrorDefs} `{CD : CvSpaceDefs}.
(** The node that the programming track belongs to. *)
Context (node_ : NodeID).

Definition MAX_CV : Z := 1023.

(** ** The record *)

Definition MIN_ADDRESS : Z := 0x7F100000.
(** [sizeof(store_)], and [ProgrammingTrackSpaceConfig::size()]. *)
Definition store_size : Z := 44.
Definition MAX_ADDRESS : Z := MIN_ADDRESS + store_size - 1.

Definition ADDRESS_PREFIX_SVC_BITOP : Z := Z.shiftl 0x10 24.

(** Offsets of the fields. *)
Definition mode_offset : Z := 0.
Definition address_type_offset : Z := 1.
Definition dcc_address_offset : Z := 2.
Definition cv_offset_ : Z := 4.
Definition value_offset : Z := 8.
Definition bit_write_value_offset : Z := 10.
Definition bit_value_string_offset : Z := 12.
Definition verify_repeats_offset : Z := 36.
Definition verify_cooldown_repeats_offset : Z := 40.

(** [OperatingMode] *)
Definition DIRECT_MODE : Z := 1.
Definition POM_MODE : Z := 2.
Definition PAGED_MODE : Z := 3.

Definition Store : Type := list Z.

Definition byte_at (ofs : Z) (m : Store) : Z := default 0 (znth m ofs).
Definition be16toh (ofs : Z) (m : Store) : Z := byte_at ofs m * 2 ^ 8 + byte_at (ofs + 1) m.
Definition be32toh (ofs : Z) (m : Store) : Z := be16toh ofs m * 2 ^ 16 + be16toh (ofs + 2) m.

(** Bytes at an offset that is inside. *)
Definition put_bytes (ofs : Z) (l : list Z) (m : Store) : Store :=
  take (Z.to_nat ofs) m ++ l ++ drop (Z.to_nat ofs + length l) m.

Definition htobe16 (x : Z) : list Z := [u8 (Z.shiftr x 8); u8 x].
Definition htobe32 (x : Z) : list Z := htobe16 (Z.shiftr x 16) ++ htobe16 x.

Definition empty_store : Store :=
  put_bytes bit_write_value_offset (htobe16 1000) (replicate (Z.to_nat store_size) 0).

(** ** State *)

Inductive AsyncState := IDLE | PENDING | DONE.

(** States of the flow that [start_flow] may start with, and those that go on
    with the answer of the frontend. *)
Inductive StartState := do_cv_write | do_bit_write | do_cv_read.
Inductive DoneState := cv_write_done | cv_read_done.
Inductive FlowState := Terminated | Scheduled (st : StartState) | WaitFrontend (next : DoneState).

Record Space := mkSpace {
  asyncState_ : AsyncState;
  asyncError_ : Z;
  store_ : Store;
  isMainNode_ : bool;
  bitOperation_ : bool;
  bitNum_ : Z;
  enableServiceMode_ : bool;
  flow : FlowState
}.
Definition set_asyncState (x : AsyncState) (s : Space) : Space :=
  mkSpace x (asyncError_ s) (store_ s) (isMainNode_ s) (bitOperation_ s) (bitNum_ s)
    (enableServiceMode_ s) (flow s).
Definition set_asyncError (x : Z) (s : Space) : Space :=
  mkSpace (asyncState_ s) x (store_ s) (isMainNode_ s) (bitOperation_ s) (bitNum_ s)
    (enableServiceMode_ s) (flow s).
Definition set_store (x : Store) (s : Space) : Space :=
  mkSpace (asyncState_ s) (asyncError_ s) x (isMainNode_ s) (bitOperation_ s) (bitNum_ s)
    (enableServiceMode_ s) (flow s).
Definition set_isMainNode (x : bool) (s : Space) : Space :=
  mkSpace (asyncState_ s) (asyncError_ s) (store_ s) x (bitOperation_ s) (bitNum_ s)
    (enableServiceMode_ s) (flow s).
Definition set_bitOperation (x : bool) (s : Space) : Space :=
  mkSpace (asyncState_ s) (asyncError_ s) (store_ s) (isMainNode_ s) x (bitNum_ s)
    (enableServiceMode_ s) (flow s).
Definition set_bitNum (x : Z) (s : Space) : Space :=
  mkSpace (asyncState_ s) (asyncError_ s) (store_ s) (isMainNode_ s) (bitOperation_ s) x
    (enableServiceMode_ s) (flow s).
Definition set_enable_service_mode (x : bool) (s : Space) : Space :=
  mkSpace (asyncState_ s) (asyncError_ s) (store_ s) (isMainNode_ s) (bitOperation_ s)
    (bitNum_ s) x (flow s).
Definition set_flow (x : FlowState) (s : Space) : Space :=
  mkSpace (asyncState_ s) (asyncError_ s) (store_ s) (isMainNode_ s) (bitOperation_ s)
    (bitNum_ s) (enableServiceMode_ s) x.

(** The constructor leaves the error, the node and the bit operation as they are
    in memory. *)
Definition new_Space (error : Z) (main bitop : bool) (bit : Z) : Space :=
  mkSpace IDLE error empty_store main bitop (bit mod 2 ^ 3) true Terminated.

Definition mode (s : Space) : Z := byte_at mode_offset (store_ s).
Definition set_mode (m : Z) (s : Space) : Space := set_store (put_bytes mode_offset [m] (store_ s)) s.
Definition cv (s : Space) : Z := be32toh cv_offset_ (store_ s).
Definition set_cv (n : Z) (s : Space) : Space := set_store (put_bytes cv_offset_ (htobe32 n) (store_ s)) s.
Definition value (s : Space) : Z := byte_at value_offset (store_ s).
Definition set_space_value (v : Z) (s : Space) : Space := set_store (put_bytes value_offset [v] (store_ s)) s.
Definition address_type (s : Space) : TrainAddressType := type_of_byte (byte_at address_type_offset (store_ s)).
Definition dcc_address (s : Space) : Z := be16toh dcc_address_offset (store_ s).
Definition set_address (t : TrainAddressType) (addr : Z) (s : Space) : Space :=
  set_store (put_bytes dcc_address_offset (htobe16 addr) (put_bytes address_type_offset [u8 (byte_of_type t)] (store_ s))) s.

(** [memcpy] into [store_]. *)
Definition copy_in (ofs : Z) (data : list Z) : prog Space unit :=
  if (0 <=? ofs) && (ofs + zlen data <=? store_size)
  then modify_state (fun s => set_store (put_bytes ofs data (store_ s)) s)
  else crashing OutOfBounds.

(** [memcpy] out of [store_]. *)
Definition copy_out (ofs len : Z) : prog Space (list Z) :=
  s ← get_state;
  if (0 <=? ofs) && (ofs + len <=? store_size)
  then mret (take (Z.to_nat len) (drop (Z.to_nat ofs) (store_ s)))
  else crashing OutOfBounds.

(** ** The node *)

(** [None]: no node. *)
Definition set_node (node : option NodeID) (s : Space) : bool * Space :=
  match node with
  | None => (false, s)
  | Some id =>
      if id =? node_ then (true, set_isMainNode true s)
      else
        let s := set_isMainNode false s in
        match legacy_address_from_train_node_id id with
        | Some ((DCC_SHORT_ADDRESS | DCC_LONG_ADDRESS) as at_, addr) => (true, set_address at_ addr s)
        | _ => (false, s)
        end
  end.

(** ** Addresses *)

Definition is_accessory (t : TrainAddressType) : bool :=
  match t with DCC_ACCY_BASIC_OUTPUT | DCC_ACCY_EXT => true | _ => false end.

(** The [switch] of [precompute_address]; [inr] is the error that is filled in,
    if any. *)
Definition select_mode (hi hi_addr : Z) (s : Space) : Space + option Z :=
  if hi =? 0 then inl (set_mode (if isMainNode_ s then DIRECT_MODE else POM_MODE) s)
  else if hi =? 1 then inl (set_mode DIRECT_MODE s)
  else if hi =? 2 then inl (set_mode POM_MODE s)
  else if hi =? 3 then inl (set_mode PAGED_MODE s)
  else if hi =? 4 then
    match decode_address_partition hi_addr with
    | None => inr None
    | Some (addr, atype) =>
        inl (set_address atype (if is_accessory atype then accy_address_binary_to_user addr else addr) (set_mode POM_MODE s))
    end
  else inr (Some ERROR_OUT_OF_BOUNDS).

(** The normalized address, or the error; and the state. *)
Definition precompute_address (address : Z) (s : Space) : (Z + option Z) * Space :=
  let s := set_bitOperation false s in
  if Z.shiftr address 24 =? Z.shiftr MIN_ADDRESS 24 then (inl address, s)
  else
    let hi := u8 (Z.shiftr address 24) in
    let hi_addr := if hi =? 4 then Z.shiftr (Z.land address 0xFFFFFF) 10 else 0 in
    let address := if hi =? 4 then Z.ldiff address (Z.shiftl 0x3FFF 10) else address in
    if negb (Z.land address 0xFFFFFF <? 1024) then (inr (Some ERROR_OUT_OF_BOUNDS), s)
    else
      let bitop := Z.land hi 0xF8 =? Z.shiftr ADDRESS_PREFIX_SVC_BITOP 24 in
      let s := if bitop then set_bitNum (Z.land hi 7) (set_bitOperation true s) else s in
      let hi := if bitop then 0 else hi in
      match select_mode hi hi_addr s with
      | inr None => (inr None, set_mode POM_MODE s)
      | inr e => (inr e, s)
      | inl s =>
          if negb (enableServiceMode_ s) && negb (mode s =? POM_MODE)
          then (inr (Some ERROR_PGMTRACK_DISABLED), set_mode POM_MODE s)
          else (inl (Z.land address 0xFFFFFF), s)
      end.

(** ** Calls *)

(** What [read] and [write] return: the number of bytes, what is left in [*error]
    if it is written, and for [read] the bytes. *)
Record Result := mkResult { count : Z; error : option Z; bytes : list Z }.

(** What is sent to the frontend. *)
Inductive ToFrontend :=
| SetRepeatVerify (cnt : Z)
| SetRepeatVerifyCooldown (cnt : Z)
| Invoke (reset : Request -> Request).

Definition eval_async_state (start_state : StartState) (len : Z) (data : list Z) : prog Space Result :=
  s ← get_state;
  match asyncState_ s with
  | DONE => put_state (set_asyncState IDLE s);; mret (mkResult len (Some (asyncError_ s)) data)
  | PENDING => crashing AssertFailed
  | IDLE =>
      match flow s with
      | Terminated =>
          put_state (set_asyncError 0 (set_asyncState PENDING (set_flow (Scheduled start_state) s)));;
          mret (mkResult 0 (Some ERROR_AGAIN) data)
      | _ => crashing AssertFailed
      end
  end.

(** The number of bytes of an access that goes on to the end of the record, or of
    the field. *)
Definition trim_len (destination len : Z) : Z :=
  let len := if MAX_ADDRESS <? destination + len - 1 then MAX_ADDRESS - destination + 1 else len in
  if Z.ldiff destination 3 + 4 <? destination + len then Z.ldiff destination 3 + 4 - destination else len.

(** The [switch] of [write], at an address whose low two bits are clear. *)
Definition field_written (destination len : Z) : prog Space (Result * list ToFrontend) :=
  if destination =? MIN_ADDRESS + value_offset then
    r ← eval_async_state do_cv_write len []; mret (r, [])
  else if destination =? MIN_ADDRESS + bit_write_value_offset then
    r ← eval_async_state do_bit_write len []; mret (r, [])
  else
    s ← get_state;
    if destination =? MIN_ADDRESS + verify_repeats_offset then
      mret (mkResult len None [], [SetRepeatVerify (be32toh verify_repeats_offset (store_ s))])
    else if destination =? MIN_ADDRESS + verify_cooldown_repeats_offset then
      mret (mkResult len None [], [SetRepeatVerifyCooldown (be32toh verify_cooldown_repeats_offset (store_ s))])
    else mret (mkResult len None [], []).

Definition write (destination : Z) (data : list Z) : prog Space (Result * list ToFrontend) :=
  s ← get_state;
  let '(a, s) := precompute_address destination s in
  put_state s;;
  match a with
  | inr e => mret (mkResult 0 e [], [])
  | inl destination =>
      if destination <=? MAX_CV then
        modify_state (set_cv (destination + 1));;
        match data with
        | [] => crashing OutOfBounds
        | v :: _ =>
            modify_state (set_space_value v);;
            r ← eval_async_state do_cv_write 1 [];
            mret (r, [])
        end
      else if (destination <? MIN_ADDRESS) || (MAX_ADDRESS <? destination) then
        mret (mkResult 0 (Some ERROR_OUT_OF_BOUNDS) [], [])
      else
        let len := trim_len destination (zlen data) in
        copy_in (destination - MIN_ADDRESS) (take (Z.to_nat len) data);;
        field_written (Z.ldiff destination 3) len
  end.

Definition read (source len : Z) : prog Space Result :=
  s ← get_state;
  let '(a, s) := precompute_address source s in
  put_state s;;
  match a with
  | inr e => mret (mkResult 0 e [])
  | inl source =>
      if source <=? MAX_CV then
        s ← get_state;
        let dst := [value s] in
        modify_state (set_cv (source + 1));;
        eval_async_state do_cv_read 1 dst
      else if (source <? MIN_ADDRESS) || (MAX_ADDRESS <? source) then
        mret (mkResult 0 (Some ERROR_OUT_OF_BOUNDS) [])
      else
        let len := if MAX_ADDRESS <? source + len - 1 then MAX_ADDRESS - source + 1 else len in
        dst ← copy_out (source - MIN_ADDRESS) len;
        if (source =? MIN_ADDRESS + value_offset) && (len =? 1) then eval_async_state do_cv_read len dst
        else mret (mkResult len None dst)
  end.

(** [apply_configuration] *)
Definition apply_configuration (s : Space) : Space := set_store empty_store s.

(** ** The flow *)

(** The text of the bits that are set, from bit [bit] on; [empty]: there is none
    before. *)
Fixpoint bits_text (bits : nat) (bit : Z) (value : Z) (empty : bool) : list Z :=
  match bits with
  | O => []
  | S bits =>
      if Z.testbit value bit then
        (if empty then [] else [byte_of_ascii "+"]) ++ unsigned_integer_to_buffer (Z.shiftl 1 bit)
          ++ bits_text bits (bit + 1) value false
      else bits_text bits (bit + 1) value empty
  end.

Definition decomposition (value : Z) : list Z :=
  if value =? 0 then bytes_of_string "none" else bits_text 8 0 value true.

Definition update_bits_decomposition : prog Space unit :=
  s ← get_state;
  copy_in bit_value_string_offset (decomposition (value s) ++ [0]).

Definition find_unique_bit (exp : Z) : option Z :=
  head (filter (fun u => Z.shiftl 1 u = exp) (seqZ 0 8)).

(** Done: the caller is notified. *)
Definition finish_async_state (error_code : Z) (s : Space) : Space :=
  set_flow Terminated (set_asyncState DONE (set_asyncError error_code s)).

(** What a state of the flow does: a message to the frontend, or an end. *)
Definition invoke (next : DoneState) (reset : Request -> Request) : prog Space (option ToFrontend) :=
  modify_state (set_flow (WaitFrontend next));; mret (Some (Invoke reset)).

Definition finish (error_code : Z) : prog Space (option ToFrontend) :=
  modify_state (finish_async_state error_code);; mret None.

(** The address for POM. *)
Definition pom_address (s : Space) : Z :=
  if is_accessory (address_type s) then accy_address_user_to_binary (dcc_address s) else dcc_address s.

Definition run_cv_write : prog Space (option ToFrontend) :=
  s ← get_state;
  if mode s =? DIRECT_MODE then
    if bitOperation_ s then
      invoke cv_write_done (reset_direct_write_bit (cv s) (bitNum_ s) (negb (value s =? 0)))
    else
      update_bits_decomposition;;
      invoke cv_write_done (reset_direct_write_byte (cv s) (value s))
  else if (mode s =? PAGED_MODE) && negb (bitOperation_ s) then
    update_bits_decomposition;;
    invoke cv_write_done (reset_paged_write_byte (cv s) (value s))
  else if mode s =? POM_MODE then
    if bitOperation_ s then
      invoke cv_write_done
        (reset_pom_write_bit (address_type s) (pom_address s) (cv s) (bitNum_ s) (negb (value s =? 0)))
    else
      update_bits_decomposition;;
      invoke cv_read_done (reset_pom_write_byte (address_type s) (pom_address s) (cv s) (value s))
  else finish ERROR_UNIMPLEMENTED.

Definition run_bit_write : prog Space (option ToFrontend) :=
  s ← get_state;
  let v := be16toh bit_write_value_offset (store_ s) in
  let write_bit bit new_value := invoke cv_write_done (reset_direct_write_bit (cv s) bit new_value) in
  if (100 <=? v) && (v <=? 107) then write_bit (v - 100) true
  else if (200 <=? v) && (v <=? 207) then write_bit (v - 200) false
  else if (1001 <=? v) && (v <=? 1128) then
    match find_unique_bit (v - 1000) with
    | None => finish ERROR_INVALID_ARGS
    | Some bit => write_bit bit true
    end
  else if (2001 <=? v) && (v <=? 2128) then
    match find_unique_bit (v - 2000) with
    | None => finish ERROR_INVALID_ARGS
    | Some bit => write_bit bit false
    end
  else finish 0.

Definition run_cv_read : prog Space (option ToFrontend) :=
  s ← get_state;
  if mode s =? DIRECT_MODE then invoke cv_read_done (reset_direct_read_byte (cv s))
  else if mode s =? POM_MODE then
    invoke cv_read_done (reset_pom_read_byte (address_type s) (pom_address s) (cv s))
  else finish ERROR_UNIMPLEMENTED.

Definition run_start (st : StartState) : prog Space (option ToFrontend) :=
  match st with
  | do_cv_write => run_cv_write
  | do_bit_write => run_bit_write
  | do_cv_read => run_cv_read
  end.

(** The answer of the frontend. *)
Definition run_done (next : DoneState) (code v : Z) : prog Space unit :=
  match next with
  | cv_write_done => modify_state (finish_async_state code)
  | cv_read_done =>
      modify_state (set_space_value v);;
      update_bits_decomposition;;
      modify_state (finish_async_state code)
  end.

(** ** Steps *)

Inductive op :=
| SetNode (node : option NodeID)
| EnableServiceMode (b : bool)
| Write (destination : Z) (data : list Z)
| Read (source len : Z)
| ApplyConfiguration
| FlowStep
| FrontendAnswer (code v : Z).

Inductive Output :=
| NodeSet (ok : bool)
| Called (r : Result)
| Sent (m : ToFrontend)
| Notified.

(** A flow step or an answer that cannot come does nothing. *)
Definition exec (o : op) : prog Space (list Output) :=
  match o with
  | SetNode n => s ← get_state; let '(b, s) := set_node n s in put_state s;; mret [NodeSet b]
  | EnableServiceMode b => modify_state (set_enable_service_mode b);; mret []
  | Write d data => '(r, ms) ← write d data; mret ((Sent <$> ms) ++ [Called r])
  | Read a len => r ← read a len; mret [Called r]
  | ApplyConfiguration => modify_state apply_configuration;; mret []
  | FlowStep =>
      s ← get_state;
      match flow s with
      | Scheduled st => m ← run_start st; mret (match m with Some m => [Sent m] | None => [Notified] end)
      | _ => mret []
      end
  | FrontendAnswer code v =>
      s ← get_state;
      match flow s with
      | WaitFrontend next => run_done next code v;; mret [Notified]
      | _ => mret []
      end
  end.

End CVSpace.
