(* ===== verification/ProgrammingSafety.v ===== *)
(** What the programming track frontend guarantees: results that say OK were
    confirmed by the decoder, service mode is entered and left in order, and
    requests return. *)

From S2P Require Import Prelude ProgrammingTrack.

(** ** Error codes

    The codes of OpenMRN leave the bit of [OPERATION_PENDING] free, and no error
    is the code for success. *)

Class ErrorDefsOk `{ED : ErrorDefs} : Prop := {
  ok_is_zero : ERROR_CODE_OK = 0;
  errors_nonzero c :
    c ∈ [ERROR_NO_LOCO; ERROR_FAILED_VERIFY; ERROR_NO_RAILCOM; ERROR_INVALID_RESPONSE;
         ERROR_PGM_SHORT; ERROR_PGMTRACK_DISABLED; ERROR_UNIMPLEMENTED_CMD; ERROR_INVALID_ARGS;
         ERROR_TEMPORARY] -> c <> 0;
  pending_bit_free c :
    c ∈ [ERROR_NO_LOCO; ERROR_FAILED_VERIFY; ERROR_UNIMPLEMENTED_CMD] ->
    Z.land c OPERATION_PENDING = 0
}.

Lemma clear_pending p c : Z.land c p = 0 -> Z.land (Z.lor p c) (Z.lnot p) = c.
Proof.
  intros H. apply Z.bits_inj'. intros i Hi.
  apply (f_equal (fun z => Z.testbit z i)) in H. revert H.
  rewrite Z.land_spec, Z.bits_0, Z.land_spec, Z.lor_spec, Z.lnot_spec by done.
  by destruct (Z.testbit c i), (Z.testbit p i).
Qed.

Section Safety.

Context `{EO : ErrorDefsOk}.
Context (backend_ : bool) (self : Z) (parse_railcom_data : Feedback -> list RailcomPacket).

Abbreviation step := (step backend_ self parse_railcom_data).
Abbreviation run := (run backend_ self parse_railcom_data).

Lemma result_of c s :
  c ∈ [ERROR_CODE_OK; ERROR_NO_LOCO; ERROR_FAILED_VERIFY; ERROR_UNIMPLEMENTED_CMD] ->
  resultCode (request s) = OPERATION_PENDING ->
  done_and_return (or_result c s) =
    return_with_error c (ping (or_result c s)).
Proof.
  intros Hc Hp. unfold done_and_return. f_equal.
  replace (resultCode (request (ping (or_result c s)))) with (Z.lor OPERATION_PENDING c).
  - apply clear_pending. apply elem_of_cons in Hc as [->|Hc]; [by rewrite ok_is_zero|].
    by apply pending_bit_free.
  - unfold ping. rewrite <- Hp. by destruct (isRunning_ _).
Qed.

(** ** Confirmation *)

(** What was seen on the tracks: the last page that was set, the last service
    mode packet, whether there was an acknowledgement since, the last packet on
    the main, and the answer that came in for it. *)
Record Observed := mkObserved {
  page : option Z;
  packet : option SvcPacket;
  acked : bool;
  pom : option PomPacket;
  answer : option Z
}.

(** The answer in RailCom feedback: the last one on channel 2. *)
Definition pom_argument (e : RailcomPacket) : option Z :=
  match type_ e with
  | MOB_POM => if railcom_channel e =? 2 then Some (u8 (argument_ e)) else None
  | _ => None
  end.

Definition pom_answer (f : Feedback) : option Z :=
  if (feedbackKey f =? self) && negb (channel f =? 0xff) && negb (ch2Size f =? 0)
  then last (omap pom_argument (parse_railcom_data f)) else None.

Definition observe (o : Observed) (e : Effect) : Observed :=
  match e with
  | ToBackend (SEND_PROGRAMMING_PACKET p _ _) =>
      mkObserved (match p with dcc_svc_paged_set_page n => Some n | _ => page o end)
        (Some p) false (pom o) (answer o)
  | FromBackend b => mkObserved (page o) (packet o) (acked o || hasAck_ b) (pom o) (answer o)
  | ToTrack p _ => mkObserved (page o) (packet o) (acked o) (Some p) None
  | Heard f =>
      mkObserved (page o) (packet o) (acked o) (pom o)
        (match pom_answer f with Some a => Some a | None => answer o end)
  | _ => o
  end.

Definition observed (t : list Effect) : Observed :=
  foldl observe (mkObserved None None false None None) t.

#[local] Arguments observed : simpl never.

Lemma observed_snoc t e : observed (t ++ [e]) = observe (observed t) e.
Proof. unfold observed. by rewrite foldl_app. Qed.

(** The address of a packet for a request, if its type has one. *)
Definition pom_address (r : Request) : option PacketAddress :=
  match addrType_ r with
  | DCC_SHORT_ADDRESS => Some (dcc_short_address (dccAddress_ r))
  | DCC_LONG_ADDRESS => Some (dcc_long_address (dccAddress_ r))
  | DCC_ACCY_BASIC_OUTPUT => Some (dcc_accy_basic (dccAddress_ r))
  | DCC_ACCY_EXT => Some (dcc_accy_ext (dccAddress_ r))
  | _ => None
  end.

(** The packet that asks the decoder about the value of a request. *)
Definition asks (r : Request) (o : Observed) : Prop :=
  match cmd_ r with
  | DIRECT_WRITE_BYTE | DIRECT_READ_BYTE =>
      packet o = Some (dcc_svc_verify_byte (cvOffset_ r) (value_ r))
  | DIRECT_WRITE_BIT =>
      packet o = Some (dcc_svc_verify_bit (cvOffset_ r) (bitOffset_ r) (negb (value_ r =? 0)))
  | PAGED_WRITE_BYTE | PAGED_VERIFY_BYTE =>
      page o = Some (page_of (cvOffset_ r)).1 /\
      packet o = Some (dcc_svc_paged_verify_reg (page_of (cvOffset_ r)).2 (value_ r))
  | POM_WRITE_BYTE =>
      exists a, pom_address r = Some a /\ pom o = Some (dcc_pom_write1 a (cvOffset_ r) (value_ r))
  | POM_READ_BYTE =>
      exists a, pom_address r = Some a /\ pom o = Some (dcc_pom_read1 a (cvOffset_ r))
  | _ => False
  end.

(** A write of 8 to CV 8 in paged mode resets the decoder, which is only
    acknowledged. *)
Definition is_hard_reset (r : Request) : bool :=
  match cmd_ r with PAGED_WRITE_BYTE => (cvOffset_ r =? 7) && (value_ r =? 8) | _ => false end.

Definition confirmed (r : Request) (o : Observed) : Prop :=
  match cmd_ r with
  | EXIT_SERVICE_MODE => True
  | POM_READ_BYTE => asks r o /\ answer o = Some (value_ r)
  | POM_WRITE_BYTE => asks r o /\ is_Some (answer o)
  | _ =>
      acked o = true /\
      if is_hard_reset r
      then page o = Some (page_of (cvOffset_ r)).1 /\
           packet o = Some (dcc_svc_paged_write_reg (page_of (cvOffset_ r)).2 (value_ r))
      else asks r o
  end.

(** Every request that returned with success was confirmed just before. *)
Definition returns_confirmed (t : list Effect) : Prop :=
  forall t1 r t2, t = t1 ++ Returned r :: t2 -> resultCode r = ERROR_CODE_OK -> confirmed r (observed t1).

Lemma returns_confirmed_nil : returns_confirmed [].
Proof. intros [|] r t2; done. Qed.

Lemma returns_confirmed_snoc t e :
  returns_confirmed t ->
  (forall r, e = Returned r -> resultCode r = ERROR_CODE_OK -> confirmed r (observed t)) ->
  returns_confirmed (t ++ [e]).
Proof.
  intros Ht He t1 r t2 E Hr. destruct (decide (t2 = [])) as [->|Hne].
  - apply app_inj_tail in E as [-> ->]. by apply He.
  - destruct (exists_last Hne) as (t3 & e' & ->).
    rewrite (app_comm_cons t3 [e'] (Returned r)), app_assoc in E. apply app_inj_tail in E as [-> ->].
    by apply (Ht t1 r t3).
Qed.

(** ** Service mode *)

(** The requests that need the programming track. *)
Definition is_service (c : Command) : bool :=
  match c with
  | DIRECT_WRITE_BYTE | DIRECT_WRITE_BIT | DIRECT_READ_BYTE | DIRECT_READ_BIT
  | PAGED_WRITE_BYTE | PAGED_VERIFY_BYTE => true
  | _ => false
  end.

Definition is_direct_write (c : Command) : bool :=
  match c with DIRECT_WRITE_BYTE | DIRECT_WRITE_BIT => true | _ => false end.

Definition is_paged (c : Command) : bool :=
  match c with PAGED_WRITE_BYTE | PAGED_VERIFY_BYTE => true | _ => false end.

(** Service mode at the backend: [None] if something was sent out of order. *)
Definition service_step (m : option bool) (e : Effect) : option bool :=
  m ← m;
  match e, m with
  | ToBackend ENTER_SERVICE, false => Some true
  | ToBackend ENTER_SERVICE, true => None
  | ToBackend EXIT_SERVICE, true => Some false
  | ToBackend _, false => None
  | _, m => Some m
  end.

Definition service_mode (t : list Effect) : option bool := foldl service_step (Some false) t.

#[local] Arguments service_mode : simpl never.

Lemma service_mode_snoc t e : service_mode (t ++ [e]) = service_step (service_mode t) e.
Proof. unfold service_mode. by rewrite foldl_app. Qed.

(** *** What holds while the flow waits for the backend *)

Definition page_set (s : Frontend) : Prop :=
  page (observed (effects s)) = Some (page_of (cvOffset_ (request s))).1 /\
  pagedRegister_ s = (page_of (cvOffset_ (request s))).2.

Definition register_written (s : Frontend) : Prop :=
  cmd_ (request s) = PAGED_WRITE_BYTE /\ page_set s /\
  packet (observed (effects s)) =
    Some (dcc_svc_paged_write_reg (page_of (cvOffset_ (request s))).2 (value_ (request s))).

Definition expect (next : State) (s : Frontend) : Prop :=
  let r := request s in
  let o := observed (effects s) in
  match next with
  | send_initial_resets | enter_service_mode_done => True
  | write_pkt_sent | write_cooldown_done => is_direct_write (cmd_ r) = true
  | write_verify_cooldown =>
      is_direct_write (cmd_ r) = true /\ asks r o /\ acked o = false /\ foundAck_ s = false
  | write_verify_cooldown_done => asks r o /\ is_hard_reset r = false /\ acked o = foundAck_ s
  | check_next_bit_one | cooldown_next_bit_one =>
      cmd_ r = DIRECT_READ_BYTE /\ 0 <= nextBitToRead_ s <= 7
  | check_final_byte | cooldown_final_verify =>
      asks r o /\ is_hard_reset r = false /\ acked o = false
  | send_pageset_cooldown => False
  | send_paged_command => is_paged (cmd_ r) = true /\ page_set s /\ foundAck_ s = false
  | paged_write_done => register_written s /\ acked o = false /\ foundAck_ s = false
  | paged_write_cooldown_done => register_written s /\ acked o = foundAck_ s
  | paged_hard_reset_exit =>
      register_written s /\ is_hard_reset r = true /\ acked o = foundAck_ s || hasWriteAck_ s
  | exit_service_mode_done => False
  end.

(** *** What holds while it waits for a packet or RailCom *)

Definition expect_track (next : TrackState) (s : Frontend) : Prop :=
  cmd_ (request s) =
    match next with fill_pom_write_byte_packet => POM_WRITE_BYTE | _ => POM_READ_BYTE end /\
  0 <= numTry_ s <= 2.

(** The feedback status and what was heard. *)
Definition status_ok (s : Frontend) : Prop :=
  let o := observed (effects s) in
  asks (request s) o /\
  ((errorCode_ s = ERROR_PENDING /\ railcomRegistered s = true /\ answer o = None) \/
   (errorCode_ s = ERROR_BUSY /\ railcomRegistered s = false) \/
   (errorCode_ s = ERROR_OK /\ railcomRegistered s = false /\ answer o = Some (cvData_ s))).

Definition expect_timer (next : TimerState) (s : Frontend) : Prop :=
  match next with
  | write_returned => cmd_ (request s) = POM_WRITE_BYTE /\ 0 <= numTry_ s <= 2 /\ status_ok s
  | pom_write_byte_again =>
      cmd_ (request s) = POM_WRITE_BYTE /\ 0 <= numTry_ s <= 2 /\ railcomRegistered s = false
  | read_returned => cmd_ (request s) = POM_READ_BYTE /\ 0 <= numTry_ s <= 2 /\ status_ok s
  end.

Definition expects (x : System) : Prop :=
  let '(s, w) := x in
  match w with
  | Idle => railcomRegistered s = false
  | WaitBackend exit_service_mode_done =>
      cmd_ (request s) = EXIT_SERVICE_MODE /\ inServiceMode_ s = false /\ railcomRegistered s = false
  | WaitBackend next =>
      is_service (cmd_ (request s)) = true /\ resultCode (request s) = OPERATION_PENDING /\
      inServiceMode_ s = true /\ railcomRegistered s = false /\ expect next s
  | WaitTrack next => expect_track next s /\ railcomRegistered s = false
  | WaitTimer _ next => expect_timer next s
  end.

(** Service mode will not be forgotten. *)
Definition will_exit (x : System) : Prop :=
  let '(s, w) := x in
  isRunning_ s = true \/ (exists r, r ∈ queue s /\ cmd_ r = EXIT_SERVICE_MODE) \/
  exists next, w = WaitBackend next.

Record flow_ok (x : System) : Prop := {
  ok_expects : expects x;
  ok_returns : returns_confirmed (effects x.1);
  ok_service : service_mode (effects x.1) = Some (inServiceMode_ x.1);
  ok_backend : inServiceMode_ x.1 = true -> backend_ = true;
  ok_will_exit : inServiceMode_ x.1 = true -> will_exit x;
  ok_timer : serviceModeTimer_ x.1 = TimerRunning <-> isRunning_ x.1 = true
}.

(** *** While a request uses the programming track *)

Record active (s : Frontend) : Prop := {
  ac_service : is_service (cmd_ (request s)) = true;
  ac_pending : resultCode (request s) = OPERATION_PENDING;
  ac_mode : inServiceMode_ s = true;
  ac_quiet : railcomRegistered s = false;
  ac_returns : returns_confirmed (effects s);
  ac_trace : service_mode (effects s) = Some true;
  ac_backend : backend_ = true;
  ac_timer : serviceModeTimer_ s = TimerRunning <-> isRunning_ s = true
}.

(** Members that [active] does not depend on. *)
Ltac still_active := match goal with H : active _ |- active _ => by destruct H; split end.

Lemma active_answer b s : active s -> active (emit (FromBackend b) s).
Proof.
  intros A. destruct A as [A1 A2 A3 A4 A5 A6 A7 A8]. split; try done; cbn.
  - by apply returns_confirmed_snoc.
  - by rewrite service_mode_snoc, A6.
Qed.

Definition is_send (r : BackendRequest) : bool :=
  match r with SEND_RESET _ | SEND_PROGRAMMING_PACKET _ _ _ => true | _ => false end.

Lemma send_ok r next s :
  active s -> is_send r = true -> next <> exit_service_mode_done ->
  expect next (emit (ToBackend r) s) -> flow_ok (invoke_backend r next s).
Proof.
  intros A Hr Hn He. destruct A as [A1 A2 A3 A4 A5 A6 A7 A8]. unfold invoke_backend. split; cbn; try done.
  - by destruct next.
  - by apply returns_confirmed_snoc.
  - rewrite service_mode_snoc, A6, A3. by destruct r.
  - intros _. right. right. by exists next.
Qed.

Lemma return_ok_flow c s :
  railcomRegistered s = false -> returns_confirmed (effects s) ->
  (c = ERROR_CODE_OK -> confirmed (request s) (observed (effects s))) ->
  service_mode (effects s) = Some (inServiceMode_ s) ->
  (inServiceMode_ s = true -> backend_ = true) ->
  (inServiceMode_ s = true -> will_exit (s, Idle)) ->
  (serviceModeTimer_ s = TimerRunning <-> isRunning_ s = true) ->
  flow_ok (return_with_error c s).
Proof.
  intros Hq Hr Hc Hm Hb Hw Ht. split; cbn; try done.
  - apply returns_confirmed_snoc; [done|]. by intros r [= <-].
  - rewrite service_mode_snoc, Hm. by destruct (inServiceMode_ s).
Qed.

Lemma finish_ok c s :
  active s ->
  c ∈ [ERROR_CODE_OK; ERROR_NO_LOCO; ERROR_FAILED_VERIFY; ERROR_UNIMPLEMENTED_CMD] ->
  (c = ERROR_CODE_OK -> confirmed (request s) (observed (effects s))) ->
  flow_ok (done_and_return (or_result c s)).
Proof.
  intros A Hc Hconf. rewrite result_of by (try done; apply A).
  destruct A as [A1 A2 A3 A4 A5 A6 A7 A8].
  assert (E : flow_ok (return_with_error c (set_isRunning true
                (set_serviceModeTimer TimerRunning (or_result c s))))).
  { apply return_ok_flow; cbn; try done; [by rewrite A3|by left]. }
  unfold ping. destruct (isRunning_ (or_result c s)) eqn:Er; [|done].
  replace (set_serviceModeTimer TimerRunning (or_result c s)) with
    (set_isRunning true (set_serviceModeTimer TimerRunning (or_result c s))); [done|].
  cbn in Er. unfold set_isRunning, set_serviceModeTimer, or_result. cbn. by rewrite Er.
Qed.

(** An error is not a success. *)
Lemma not_ok c P :
  c ∈ [ERROR_NO_LOCO; ERROR_FAILED_VERIFY; ERROR_NO_RAILCOM; ERROR_INVALID_RESPONSE;
       ERROR_PGM_SHORT; ERROR_PGMTRACK_DISABLED; ERROR_UNIMPLEMENTED_CMD; ERROR_INVALID_ARGS;
       ERROR_TEMPORARY] -> c = ERROR_CODE_OK -> P.
Proof. intros Hc%errors_nonzero E. rewrite ok_is_zero in E. done. Qed.

Ltac in_codes := rewrite ?elem_of_cons; tauto.

Lemma exit_queued l :
  exists r, r ∈ l ++ [reset_exit_service_mode blank_request] /\ cmd_ r = EXIT_SERVICE_MODE.
Proof. exists (reset_exit_service_mode blank_request). split; [|done]. set_solver. Qed.

Lemma short_ok s : active s -> flow_ok (pgm_short s).
Proof.
  intros A. destruct A as [A1 A2 A3 A4 A5 A6 A7 A8]. apply return_ok_flow; cbn; try done.
  - apply not_ok. in_codes.
  - by rewrite A3.
  - intros _. right. left. apply exit_queued.
Qed.

Lemma unimplemented_ok s : active s -> flow_ok (exit_unimplemented s).
Proof. intros A. apply finish_ok; [done|in_codes|]. apply not_ok. in_codes. Qed.

Lemma read_next_bit_ok s :
  active s -> cmd_ (request s) = DIRECT_READ_BYTE -> 0 <= nextBitToRead_ s <= 7 ->
  flow_ok (read_next_bit s).
Proof. intros A Hc Hb. apply send_ok; try done. still_active. Qed.

(** The state [s] with members changed that [active] does not depend on. *)
Lemma act_service_mode_ok s : active s -> flow_ok (act_service_mode s).
Proof.
  intros A. unfold act_service_mode. pose proof (ac_service s A) as Hs.
  destruct (cmd_ (request s)) eqn:Ec; try done.
  - apply send_ok; [still_active|done|done|]. cbn. by rewrite Ec.
  - apply send_ok; [still_active|done|done|]. cbn. by rewrite Ec.
  - apply read_next_bit_ok; [still_active|done|]. cbn. lia.
  - by apply unimplemented_ok.
  - unfold send_page_preset. destruct (page_of _) as [pg reg] eqn:Ep.
    apply send_ok; [still_active|done|done|]. cbn. rewrite Ec. unfold page_set. cbn.
    by rewrite observed_snoc, Ep.
  - unfold send_page_preset. destruct (page_of _) as [pg reg] eqn:Ep.
    apply send_ok; [still_active|done|done|]. cbn. rewrite Ec. unfold page_set. cbn.
    by rewrite observed_snoc, Ep.
Qed.

(** *** Answers *)

Lemma acked_answer b t : acked (observed (t ++ [FromBackend b])) = acked (observed t) || hasAck_ b.
Proof. by rewrite observed_snoc. Qed.

Lemma acked_reset_list n t : acked (observed (t ++ [ToBackend (SEND_RESET n)])) = acked (observed t).
Proof. by rewrite observed_snoc. Qed.

(** Effects that do not change what was sent. *)
Definition passive (e : Effect) : bool :=
  match e with FromBackend _ | ToBackend (SEND_RESET _) => true | _ => false end.

Lemma asks_passive r e t : passive e = true -> asks r (observed (t ++ [e])) <-> asks r (observed t).
Proof. intros He. rewrite observed_snoc. by destruct e as [[]| | | |]. Qed.

Lemma page_set_passive e s : passive e = true -> page_set (emit e s) <-> page_set s.
Proof. intros He. unfold page_set. cbn. rewrite observed_snoc. by destruct e as [[]| | | |]. Qed.

Lemma written_passive e s : passive e = true -> register_written (emit e s) <-> register_written s.
Proof.
  intros He. unfold register_written. rewrite page_set_passive by done. cbn. rewrite observed_snoc.
  by destruct e as [[]| | | |].
Qed.

(** A confirmed request whose packet was asked for. *)
Lemma asks_confirmed r o :
  is_service (cmd_ r) = true -> is_hard_reset r = false -> asks r o -> acked o = true -> confirmed r o.
Proof. unfold confirmed. intros Hs -> Ha Hk. by destruct (cmd_ r). Qed.

Lemma reset_confirmed s :
  register_written s -> is_hard_reset (request s) = true ->
  acked (observed (effects s)) = true -> confirmed (request s) (observed (effects s)).
Proof. intros (Hc & [Hp _] & Hw) Hh Ha. unfold confirmed. by rewrite Hh, Hc. Qed.

Lemma note_ack_active b s : active s -> active (note_ack b s).
Proof. intros A. unfold note_ack. destruct (hasAck_ b); [still_active|done]. Qed.

Lemma note_ack_spec b s :
  note_ack b s = set_foundAck (foundAck_ s || hasAck_ b) s.
Proof. unfold note_ack. destruct s, (hasAck_ b); cbn; [by rewrite orb_true_r|by rewrite orb_false_r]. Qed.

Lemma write_verify_ok s :
  active s -> is_direct_write (cmd_ (request s)) = true -> flow_ok (send_write_verify s).
Proof.
  intros A Hd. unfold send_write_verify. destruct (cmd_ (request s)) eqn:Ec; try done;
    (apply send_ok; [still_active|done|done|]); cbn; rewrite Ec, observed_snoc; unfold asks; cbn; by rewrite Ec.
Qed.

Lemma write_result_ok s :
  active s -> asks (request s) (observed (effects s)) -> is_hard_reset (request s) = false ->
  acked (observed (effects s)) = foundAck_ s -> flow_ok (write_result s).
Proof.
  intros A Ha Hh Hk. unfold write_result. destruct (foundAck_ s); [|destruct (hasWriteAck_ s)].
  - apply finish_ok; [done|in_codes|]. intros _. apply asks_confirmed; try done. apply A.
  - apply finish_ok; [done|in_codes|]. apply not_ok. in_codes.
  - apply finish_ok; [done|in_codes|]. apply not_ok. in_codes.
Qed.

(** The register packets of paged mode. *)
Lemma page_written n b p s :
  cmd_ (request s) = PAGED_WRITE_BYTE -> page_set s ->
  register_written (emit (ToBackend (SEND_PROGRAMMING_PACKET
    (dcc_svc_paged_write_reg (pagedRegister_ s) (value_ (request s))) n b)) (set_serviceModePacket p s)).
Proof.
  intros Hc [Hp Hr]. unfold register_written, page_set. cbn. by rewrite observed_snoc, Hc, Hr.
Qed.

Lemma page_asked n b s :
  is_paged (cmd_ (request s)) = true -> page_set s ->
  asks (request s) (observed (effects s ++ [ToBackend (SEND_PROGRAMMING_PACKET
    (dcc_svc_paged_verify_reg (pagedRegister_ s) (value_ (request s))) n b)])).
Proof.
  intros Hc [Hp Hr]. rewrite observed_snoc. unfold asks. destruct (cmd_ (request s)); try done; cbn; by rewrite Hr.
Qed.

(** The answer [b] came in: the flow resumes at [next]. *)
Lemma resume_ok next b s :
  active s -> next <> exit_service_mode_done -> expect next s ->
  flow_ok (after_backend next b (emit (FromBackend b) s)).
Proof.
  intros A0 Hn He. pose proof (active_answer b s A0) as A.
  assert (Hk := acked_answer b (effects s)).
  unfold after_backend. destruct (match next with exit_service_mode_done => _ | _ => _ end).
  { by apply short_ok. }
  destruct next; try done; cbn [expect] in He.
  - by apply send_ok.
  - by apply act_service_mode_ok.
  - apply send_ok; [by apply note_ack_active|done|done|]. by rewrite note_ack_spec.
  - apply write_verify_ok; rewrite note_ack_spec; [still_active|done].
  - destruct He as (Hd & Ha & Hk0 & Hf). apply send_ok; [by apply note_ack_active|done|done|].
    rewrite note_ack_spec. cbn. rewrite !asks_passive, acked_reset_list, Hk, Hk0, Hf by done.
    split; [done|]. split; [|done]. unfold is_hard_reset. by destruct (cmd_ (request s)).
  - destruct He as (Ha & Hh & Hk0).
    apply write_result_ok; rewrite note_ack_spec; [still_active| |done|]; cbn.
    + by rewrite asks_passive.
    + by rewrite Hk, Hk0.
  - destruct He as [Hc Hb]. apply send_ok; [|done|done|]; destruct (hasAck_ b); try done; still_active.
  - destruct He as [Hc Hb]. set (s1 := if hasAck_ b then _ else _).
    assert (A1 : active s1) by (unfold s1; destruct (hasAck_ b); [still_active|done]).
    assert (E1 : request s1 = request s /\ nextBitToRead_ s1 = nextBitToRead_ s)
      by (unfold s1; by destruct (hasAck_ b)).
    destruct E1 as [E1 E2]. destruct (Z.eqb_spec (nextBitToRead_ s1) 7).
    + apply send_ok; [still_active|done|done|]. cbn. rewrite E1, observed_snoc. unfold asks, is_hard_reset.
      cbn. by rewrite Hc.
    + apply read_next_bit_ok; [still_active|by rewrite <- Hc, <- E1|]. cbn. rewrite E2 in *.
      rewrite Z.mod_small; lia.
  - destruct He as (Ha & Hh & Hk0). destruct (hasAck_ b) eqn:Eb.
    + apply finish_ok; [done|in_codes|]. intros _.
      apply asks_confirmed; [apply A|done|by apply asks_passive|]. cbn. by rewrite Hk, orb_true_r.
    + apply send_ok; try done. cbn. rewrite !asks_passive, acked_reset_list, Hk, Hk0 by done. done.
  - destruct He as (Ha & Hh & Hk0). destruct (hasAck_ b) eqn:Eb; (apply finish_ok; [done|in_codes|]).
    + intros _. apply asks_confirmed; [apply A|done|by apply asks_passive|]. cbn. by rewrite Hk, orb_true_r.
    + apply not_ok. in_codes.
  - destruct He as (Hp & Hs & Hf). apply (page_set_passive (FromBackend b)) in Hs; [|done].
    cbn. destruct (cmd_ (request s)) eqn:Ec; try done;
      (apply send_ok; [still_active|done|done|]).
    + split; [by apply (page_written _ _ _ (emit (FromBackend b) s))|].
      split; [|done]. cbn. by rewrite observed_snoc.
    + split; [apply (page_asked _ _ (emit (FromBackend b) s)); [by cbn; rewrite Ec|done]|].
      unfold is_hard_reset. cbn. by rewrite Ec, observed_snoc.
  - destruct He as (Hw & Hk0 & Hf). apply (written_passive (FromBackend b)) in Hw; [|done].
    apply send_ok; [by apply note_ack_active|done|done|]. rewrite note_ack_spec. cbn.
    rewrite acked_reset_list, Hk, Hk0, Hf. split; [|done].
    by apply (written_passive (ToBackend (SEND_RESET _))).
  - destruct He as (Hw & Hk0). apply (written_passive (FromBackend b)) in Hw; [|done].
    rewrite note_ack_spec. cbn. destruct (_ && _) eqn:Eh.
    + apply send_ok; [still_active|done|done|]. cbn. rewrite acked_reset_list, Hk, Hk0.
      split; [by apply (written_passive (ToBackend (SEND_RESET _)))|]. split; [|done].
      destruct Hw as [Hc _]. unfold is_hard_reset. cbn in *. by rewrite Hc.
    + destruct Hw as (Hc & Hp & _). apply send_ok; [still_active|done|done|].
      split; [apply (page_asked _ _ (set_foundAck false (emit (FromBackend b) s))); [cbn in *; by rewrite Hc|done]|].
      cbn in *. unfold is_hard_reset. cbn. by rewrite observed_snoc, Hc.
  - destruct He as (Hw & Hh & Hk0). apply (written_passive (FromBackend b)) in Hw; [|done].
    rewrite note_ack_spec. set (s1 := set_foundAck _ _).
    assert (A1 : active s1) by (unfold s1; still_active).
    destruct (foundAck_ s1 || hasWriteAck_ s1) eqn:Ea; (apply finish_ok; [done|in_codes|]).
    + intros _. apply (reset_confirmed (emit (FromBackend b) s)); [done|done|].
      cbn. rewrite Hk, Hk0. revert Ea. unfold s1. cbn.
      by destruct (foundAck_ s), (hasWriteAck_ s), (hasAck_ b).
    + apply not_ok. in_codes.
Qed.

(** *** RailCom feedback *)

Lemma interpret_spec l ok s :
  exists b g, interpret_responses l ok s =
    (ok || bool_decide (is_Some (last (omap pom_argument l))),
     set_seenRailcomGarbage g (set_seenRailcomBusy b
       (set_cvData (default (cvData_ s) (last (omap pom_argument l))) s))).
Proof.
  revert ok s. induction l as [|e l IH]; intros ok s.
  { exists (seenRailcomBusy_ s), (seenRailcomGarbage_ s). cbn. rewrite orb_false_r. by destruct s. }
  change (omap pom_argument (e :: l)) with
    (match pom_argument e with Some a => a :: omap pom_argument l | None => omap pom_argument l end).
  cbn [interpret_responses]. destruct (pom_argument e) as [a|] eqn:Ea; unfold pom_argument in Ea;
    destruct (railcom_channel e =? 2), (type_ e); try discriminate; cbn [negb]; try apply IH.
  - injection Ea as <-. destruct (IH true (set_cvData (u8 (argument_ e)) s)) as (b & g & ->). exists b, g.
    rewrite last_cons. destruct (last (omap pom_argument l)); cbn; by rewrite ?orb_true_r.
  - destruct (IH ok (set_seenRailcomBusy true s)) as (b & g & ->). by exists b, g.
  - destruct (IH ok (set_seenRailcomGarbage true s)) as (b & g & ->). by exists b, g.
  - destruct (IH ok (set_seenRailcomGarbage true s)) as (b & g & ->). by exists b, g.
Qed.

(** Members that the flow does not change while RailCom answers. *)
Record same_flow (s s' : Frontend) : Prop := {
  sf_request : request s' = request s;
  sf_mode : inServiceMode_ s' = inServiceMode_ s;
  sf_effects : effects s' = effects s;
  sf_queue : queue s' = queue s;
  sf_try : numTry_ s' = numTry_ s;
  sf_bit : nextBitToRead_ s' = nextBitToRead_ s;
  sf_running : isRunning_ s' = isRunning_ s;
  sf_timer : serviceModeTimer_ s' = serviceModeTimer_ s
}.

Lemma feedback_same_flow f s : same_flow s (railcom_feedback self parse_railcom_data f s).
Proof.
  unfold railcom_feedback.
  destruct (interpret_spec (parse_railcom_data f) false s) as (b & g & ->).
  repeat (case_match; try done).
Qed.

Lemma feedback_status f s :
  status_ok s -> railcomRegistered s = true ->
  status_ok (railcom_feedback self parse_railcom_data f (emit (Heard f) s)).
Proof.
  intros [Ha Hs] Hr.
  assert (Hask : asks (request s) (observed (effects s ++ [Heard f]))) by by rewrite observed_snoc.
  assert (Hans : answer (observed (effects s)) = None) by (destruct Hs as [(_ & _ & ?)|[[_ ?]|(_ & ? & _)]]; congruence).
  assert (He : errorCode_ s = ERROR_PENDING) by (destruct Hs as [(? & _)|[[_ ?]|(_ & ? & _)]]; congruence).
  assert (Ho : answer (observed (effects s ++ [Heard f])) = pom_answer f).
  { rewrite observed_snoc. cbn. rewrite Hans. by destruct (pom_answer f). }
  assert (Hn : pom_answer f = None -> status_ok (emit (Heard f) s)).
  { intros En. split; [done|]. left. cbn. by rewrite Ho. }
  assert (Hb : status_ok (record_railcom_status ERROR_BUSY (emit (Heard f) s))).
  { split; [done|]. right. by left. }
  unfold railcom_feedback. cbn [emit errorCode_ set_effects]. rewrite He. unfold pom_answer in Ho, Hn.
  change (negb (ERROR_PENDING =? ERROR_PENDING)) with false. cbn iota.
  destruct (feedbackKey f =? self), (channel f =? 255), (ch2Size f =? 0); cbn [negb andb] in *;
    try (by apply Hn); try (by destruct (seenRailcomBusy_ _); [|apply Hn]).
  destruct (interpret_spec (parse_railcom_data f) false (emit (Heard f) s)) as (b & g & ->).
  destruct (last (omap pom_argument (parse_railcom_data f))) as [v|] eqn:El; cbn [orb].
  - rewrite bool_decide_eq_true_2 by done. split; [done|]. right. right. by cbn; rewrite Ho.
  - rewrite bool_decide_eq_false_2 by by intros [??]. split; [done|]. left. by cbn; rewrite Ho.
Qed.

(** *** Whole steps *)

(** What holds between requests and while they wait for RailCom. *)
Record calm (s : Frontend) : Prop := {
  cm_returns : returns_confirmed (effects s);
  cm_trace : service_mode (effects s) = Some (inServiceMode_ s);
  cm_backend : inServiceMode_ s = true -> backend_ = true;
  cm_will_exit : inServiceMode_ s = true ->
    isRunning_ s = true \/ exists r, r ∈ queue s /\ cmd_ r = EXIT_SERVICE_MODE;
  cm_timer : serviceModeTimer_ s = TimerRunning <-> isRunning_ s = true
}.

Ltac still_calm := match goal with H : calm _ |- calm _ => by destruct H; split end.

Lemma calm_flow s w : calm s -> expects (s, w) -> flow_ok (s, w).
Proof.
  intros [C1 C2 C3 C4 C5] He. split; try done. intros Hs%C4. unfold will_exit. tauto.
Qed.

Lemma flow_calm s w : flow_ok (s, w) -> (forall next, w <> WaitBackend next) -> calm s.
Proof.
  intros [F1 F2 F3 F4 F5 F6] Hw. split; try done. intros Hs%F5. cbn in Hs.
  destruct Hs as [?|[?|[next ->]]]; [by left|by right|]. by destruct (Hw next).
Qed.

Lemma calm_send p n s : calm s -> calm (emit (ToTrack p n) s).
Proof.
  intros C. destruct C as [C1 C2 C3 C4 C5]. split; try done; cbn.
  - by apply returns_confirmed_snoc.
  - rewrite service_mode_snoc, C2. by destruct (inServiceMode_ s).
Qed.

Lemma calm_return c s :
  calm s -> railcomRegistered s = false ->
  (c = ERROR_CODE_OK -> confirmed (request s) (observed (effects s))) -> flow_ok (return_with_error c s).
Proof.
  intros C Hr Hc. destruct C as [C1 C2 C3 C4 C5]. apply return_ok_flow; try done.
  intros Hs%C4. unfold will_exit. tauto.
Qed.

Lemma pom_send_ok p next s r :
  calm s -> request s = r ->
  (forall t, asks r (observed (t ++ [ToTrack p 3]))) ->
  cmd_ r = match next with read_returned => POM_READ_BYTE | _ => POM_WRITE_BYTE end ->
  next <> pom_write_byte_again -> 0 <= numTry_ s <= 2 ->
  flow_ok (send_pom p next s).
Proof.
  intros C Er Ha Hc Hn Ht. unfold send_pom. apply calm_flow; [apply calm_send; still_calm|].
  assert (Hs : status_ok (emit (ToTrack p 3) (set_errorCode ERROR_PENDING
    (set_seenRailcomGarbage false (set_seenRailcomBusy false (set_railcomRegistered true s)))))).
  { split; cbn; [by rewrite Er|]. left. by rewrite observed_snoc. }
  destruct next; cbn; rewrite ?Er; try done.
Qed.

Lemma after_track_ok next s :
  calm s -> railcomRegistered s = false -> expect_track next s -> flow_ok (after_track next s).
Proof.
  intros C Hr [Hc Ht].
  assert (Hinv : flow_ok (return_with_error ERROR_INVALID_ARGS s))
    by (apply calm_return; [done|done|apply not_ok; in_codes]).
  destruct next; cbn; destruct (addrType_ (request s)) eqn:Ea; try exact Hinv;
    (eapply pom_send_ok; [still_calm|done| |done|done|done]); intros t;
    rewrite observed_snoc; unfold asks, pom_address; cbn; rewrite Hc, Ea; eauto.
Qed.

Lemma status_done s :
  status_ok s -> errorCode_ s <> ERROR_PENDING -> railcomRegistered s = false.
Proof. intros [_ [[? _]|[[_ ?]|(_ & ? & _)]]]; done. Qed.

Lemma status_answer s :
  status_ok s -> errorCode_ s = ERROR_OK ->
  asks (request s) (observed (effects s)) /\ answer (observed (effects s)) = Some (cvData_ s).
Proof. intros [Ha [[E _]|[[E _]|(_ & _ & ?)]]] E2; [by rewrite E2 in E|by rewrite E2 in E|done]. Qed.

(** The end of a request on the main without an answer. *)
Lemma no_answer_ok s (b : bool) :
  calm s -> railcomRegistered s = false ->
  flow_ok (return_with_error (if b then ERROR_INVALID_RESPONSE else ERROR_NO_RAILCOM) s).
Proof. intros C Hr. destruct b; (apply calm_return; [done|done|apply not_ok; in_codes]). Qed.

Lemma try_range s : 0 <= numTry_ s <= 2 -> numTry_ (next_try s) = numTry_ s + 1.
Proof. intros H. cbn. apply Z.mod_small. lia. Qed.

Lemma after_timer_ok next s : calm s -> expect_timer next s -> flow_ok (after_timer next s).
Proof.
  intros C He. destruct next; cbn [after_timer expect_timer] in *.
  - destruct He as (Hc & Ht & Hs). destruct (Z.eqb_spec (errorCode_ s) ERROR_PENDING) as [E|E].
    + destruct (seenRailcomBusy_ (set_railcomRegistered false s)); [|apply no_answer_ok; [still_calm|done]].
      destruct (Z.ltb_spec (numTry_ (next_try (set_railcomRegistered false s)))
        DEFAULT_POM_WRITE_RETRIES_ON_BUSY) as [Hl|]; [|apply no_answer_ok; [still_calm|done]].
      apply calm_flow; [still_calm|]. split; [done|]. split; [|done].
      rewrite try_range in * by done. unfold DEFAULT_POM_WRITE_RETRIES_ON_BUSY in Hl.
      change (numTry_ (set_railcomRegistered false s)) with (numTry_ s) in *. lia.
    + pose proof (status_done s Hs E) as Hr. destruct (Z.eqb_spec (errorCode_ s) ERROR_OK) as [E2|].
      * apply calm_return; [done|done|]. intros _. destruct (status_answer s Hs E2) as [Ha Hv].
        unfold confirmed. rewrite Hc. by rewrite Hv.
      * apply calm_return; [done|done|]. apply not_ok. in_codes.
  - destruct He as (Hc & Ht & Hr). by apply calm_flow.
  - destruct He as (Hc & Ht & Hs). destruct (Z.eqb_spec (errorCode_ s) ERROR_OK) as [E|E].
    + assert (Hr : railcomRegistered s = false) by (apply (status_done s Hs); by rewrite E).
      apply calm_return; [still_calm|done|]. intros _. destruct (status_answer s Hs E) as [Ha Hv].
      unfold confirmed. cbn. rewrite Hc. split; [|done]. unfold asks in *. cbn. by rewrite Hc in *.
    + set (s1 := if errorCode_ s =? ERROR_PENDING then _ else _).
      assert (A : calm s1 /\ railcomRegistered s1 = false /\ request s1 = request s /\ numTry_ s1 = numTry_ s).
      { unfold s1. destruct (Z.eqb_spec (errorCode_ s) ERROR_PENDING); (split; [still_calm|]); [done|].
        split; [by apply status_done|done]. }
      destruct A as (C1 & Hr & Er & Et).
      destruct (Z.ltb_spec (numTry_ (next_try s1)) DEFAULT_POM_READ_RETRIES) as [Hl|];
        [|apply no_answer_ok; [still_calm|done]].
      apply calm_flow; [still_calm|]. split; [|done]. split; [by cbn; rewrite Er|].
      rewrite try_range in * by lia. unfold DEFAULT_POM_READ_RETRIES in Hl. lia.
Qed.

Lemma railcom_ok f s w :
  flow_ok (s, w) -> railcomRegistered s = true ->
  flow_ok (railcom_feedback self parse_railcom_data f (emit (Heard f) s), w).
Proof.
  intros F Hr. pose proof (ok_expects _ F) as He. cbn in He.
  destruct w as [|next|next|n next]; [congruence| |destruct He; congruence|].
  { destruct next; destruct He as (?&?&?); try congruence; destruct_and!; congruence. }
  assert (C : calm s) by (by apply (flow_calm s _ F)).
  assert (C1 : calm (emit (Heard f) s)).
  { destruct C as [C1 C2 C3 C4 C5]. split; try done; cbn; [by apply returns_confirmed_snoc|].
    rewrite service_mode_snoc, C2. by destruct (inServiceMode_ s). }
  pose proof (feedback_same_flow f (emit (Heard f) s)) as S.
  set (s' := railcom_feedback _ _ _ _) in *. apply calm_flow.
  - destruct C1 as [C1 C2 C3 C4 C5], S as [S1 S2 S3 S4 S5 S6 S7 S8]. split; by rewrite ?S2, ?S3, ?S4, ?S7, ?S8.
  - assert (Hs : status_ok s -> status_ok s') by (intros Hs; by apply feedback_status).
    destruct next; cbn in He |- *; rewrite (sf_request _ _ S), (sf_try _ _ S); [tauto| |tauto].
    destruct He as (_ & _ & He). congruence.
Qed.

Lemma exit_ok s :
  railcomRegistered s = false -> cmd_ (request s) = EXIT_SERVICE_MODE ->
  returns_confirmed (effects s) -> service_mode (effects s) = Some (inServiceMode_ s) ->
  (inServiceMode_ s = true -> backend_ = true) ->
  (serviceModeTimer_ s = TimerRunning <-> isRunning_ s = true) ->
  flow_ok (exit_service_mode backend_ s).
Proof.
  intros Hr Hc Ht Hm Hb Hti. unfold exit_service_mode. set (s1 := stop_wait s).
  assert (E : request s1 = request s /\ railcomRegistered s1 = railcomRegistered s /\
    effects s1 = effects s /\ inServiceMode_ s1 = inServiceMode_ s /\
    (serviceModeTimer_ s1 = TimerRunning <-> isRunning_ s1 = true))
    by (unfold s1, stop_wait; by destruct (isRunning_ s) eqn:Er; rewrite ?Er).
  destruct E as (E1 & E2 & E3 & E4 & E5). rewrite E4.
  assert (Hconf : forall o, confirmed (request s1) o) by (intros o; unfold confirmed; by rewrite E1, Hc).
  destruct (inServiceMode_ s) eqn:Em; cbn [negb].
  - rewrite (Hb eq_refl). split; cbn; try done.
    + by rewrite E1, E2.
    + apply returns_confirmed_snoc; [by rewrite E3|done].
    + by rewrite E3, service_mode_snoc, Hm.
  - apply return_ok_flow; try done; rewrite ?E2, ?E3, ?E4; try done.
Qed.

Lemma frontend_entry_ok r l s :
  calm s -> railcomRegistered s = false -> queue s = r :: l ->
  flow_ok (entry backend_ (set_request r (set_queue l s))).
Proof.
  intros C Hr Hq. destruct C as [C1 C2 C3 C4 C5].
  set (s1 := set_request (set_resultCode OPERATION_PENDING r) (set_request r (set_queue l s))).
  change (entry backend_ (set_request r (set_queue l s))) with
    (match cmd_ r with
     | POM_READ_BYTE => pom_read_byte (set_numTry 0 s1)
     | POM_WRITE_BYTE => pom_write_byte (set_numTry 0 s1)
     | POM_WRITE_BIT | PAGED_READ_BYTE => return_with_error ERROR_UNIMPLEMENTED_CMD s1
     | EXIT_SERVICE_MODE => exit_service_mode backend_ s1
     | _ => enter_service_mode backend_ s1
     end).
  assert (C : cmd_ r <> EXIT_SERVICE_MODE -> calm s1).
  { intros Hne. split; try done; cbn. intros Hs%C4. rewrite Hq in Hs.
    destruct Hs as [?|(r' & [->|?]%elem_of_cons & ?)]; [by left|done|right; eauto]. }
  assert (Hsv : is_service (cmd_ r) = true -> flow_ok (enter_service_mode backend_ s1)).
  { intros Hc. unfold enter_service_mode. destruct (inServiceMode_ s1) eqn:Em; cbn in Em.
    - apply act_service_mode_ok. split; try done; cbn; [by rewrite C2, Em|by apply C3].
    - destruct backend_ eqn:Eb; cbn [negb].
      + split; cbn; try done.
        * by apply returns_confirmed_snoc.
        * by rewrite service_mode_snoc, C2, Em.
        * intros _. right. right. by eexists.
      + apply calm_return; [apply C; by destruct (cmd_ r)|done|apply not_ok; in_codes]. }
  destruct (cmd_ r) eqn:Ec; try (by apply Hsv); try (specialize (C (fun H => ltac:(discriminate H)))).
  - apply calm_flow; [still_calm|]. split; [|done]. split; [done|]. cbn. lia.
  - apply calm_flow; [still_calm|]. split; [|done]. split; [done|]. cbn. lia.
  - apply calm_return; [done|done|apply not_ok; in_codes].
  - apply calm_return; [done|done|apply not_ok; in_codes].
  - by apply exit_ok.
Qed.

(** Every event keeps [flow_ok]. *)
Lemma frontend_step_ok e x x' : flow_ok x -> step e x = Some x' -> flow_ok x'.
Proof.
  destruct x as [s w]. intros F E. pose proof (ok_expects _ F) as He. unfold step in E.
  destruct e as [r| |b| | |f|].
  - injection E as <-. destruct F as [F1 F2 F3 F4 F5 F6]. split; try done; cbn in *.
    intros [?|[(r' & ? & ?)|?]]%F5; [by left| |by right; right].
    right. left. exists r'. split; [set_solver|done].
  - destruct (triggered s), w; try done. destruct (queue s) as [|r l] eqn:Eq; [done|]. injection E as <-.
    apply frontend_entry_ok; [by apply (flow_calm s Idle)|done|done].
  - destruct (triggered s), w as [|next| |]; try done. injection E as <-.
    destruct (decide (next = exit_service_mode_done)) as [->|Hn].
    + destruct He as (Hc & Hm & Hr). destruct F as [F1 F2 F3 F4 F5 F6]. cbn in *.
      apply return_ok_flow; cbn; try done; try (by rewrite Hm).
      * by apply returns_confirmed_snoc.
      * intros _. unfold confirmed. by rewrite Hc.
      * by rewrite service_mode_snoc, F3, Hm.
    + destruct F as [F1 F2 F3 F4 F5 F6]. cbn in He, F2, F3, F4, F6.
      assert (A : active s /\ expect next s).
      { destruct next; try done; destruct He as (H1 & H2 & H3 & H4 & H5);
          (split; [|done]); split; try done; first [by rewrite F3, H3|by apply F4]. }
      destruct A. by apply resume_ok.
  - destruct (triggered s), w as [| |next|]; try done. injection E as <-. destruct He as [He Hr].
    apply after_track_ok; [by apply (flow_calm s _ F)|done|done].
  - destruct (triggered s), w as [| | |n next]; try done. injection E as <-.
    apply after_timer_ok; [by apply (flow_calm s _ F)|done].
  - destruct (triggered s); [done|]. destruct (railcomRegistered s) eqn:Er; [|by destruct w].
    assert (E' : x' = (railcom_feedback self parse_railcom_data f (emit (Heard f) s), w))
      by (destruct w; congruence).
    subst x'. by apply railcom_ok.
  - destruct F as [F1 F2 F3 F4 F5 F6]. cbn in *. unfold service_mode_timeout in E.
    destruct (serviceModeTimer_ s) eqn:Et; try done; injection E as <-.
    + split; try done; cbn. intros _. right. left. apply exit_queued.
    + split; try done; cbn. intros [Hr|?]%F5; [|by right]. by apply F6 in Hr.
Qed.

Lemma run_ok l x x' : flow_ok x -> run l x = Some x' -> flow_ok x'.
Proof.
  revert x. induction l as [|e l IH]; intros x F; cbn; [by intros [= <-]|].
  destruct (step e x) as [x1|] eqn:E; [|done]. cbn. apply IH. by apply (frontend_step_ok e x).
Qed.

Lemma new_flow_ok memory : flow_ok (new_Frontend memory).
Proof. split; cbn; try done. apply returns_confirmed_nil. Qed.

(** ** Theorems *)

(** C8: A request that returns with success was answered by the decoder.  Take
    any sequence of requests, answers of the backend, RailCom feedback and
    timers: when a service mode request returns [ERROR_CODE_OK], the last service
    mode packet before was the verify packet for the value in the request (for a
    paged mode request with the page of its CV set), and the decoder has
    acknowledged it since; for a reset of the decoder the write was acknowledged.
    A read on the main returns the value of the answer that came back for its
    packet; a write on the main was answered, with any value, which the code does
    not compare with the one written.  Nothing is said of the request to leave
    service mode, which asks no decoder. *)
Theorem success_is_confirmed memory l s w t1 r t2 :
  run l (new_Frontend memory) = Some (s, w) -> effects s = t1 ++ Returned r :: t2 ->
  resultCode r = ERROR_CODE_OK -> confirmed r (observed t1).
Proof.
  intros R E Hr. apply (ok_returns (s, w) (run_ok _ _ _ (new_flow_ok memory) R) t1 r t2 E Hr).
Qed.

(** C21: The backend is used in order: service mode is entered only when it is
    not active, left only when it is, and packets are sent only in between;
    [inServiceMode_] is what the backend is in.  Service mode does not last
    forever: while it is active a request is using it, or the timer runs that
    ends it, or a request to end it waits in the queue. *)
Theorem service_mode_is_bracketed memory l s w :
  run l (new_Frontend memory) = Some (s, w) ->
  service_mode (effects s) = Some (inServiceMode_ s) /\
  (inServiceMode_ s = true ->
   (exists next, w = WaitBackend next) \/ (exists r, r ∈ queue s /\ cmd_ r = EXIT_SERVICE_MODE) \/
   (serviceModeTimer_ s = TimerRunning /\
    exists s', step ServiceTimeout (s, w) = Some (s', w) /\
      exists r, r ∈ queue s' /\ cmd_ r = EXIT_SERVICE_MODE)).
Proof.
  intros R. destruct (run_ok _ _ _ (new_flow_ok memory) R) as [_ _ F3 _ F5 F6]. split; [done|].
  intros Hs%F5. cbn in Hs, F6. destruct Hs as [Hr|[?|?]]; [|by right; left|by left].
  apply F6 in Hr. right. right. split; [done|]. cbn. unfold service_mode_timeout. rewrite Hr.
  eexists. split; [done|]. apply exit_queued.
Qed.

End Safety.
