(* ===== verification/ProgrammingRuns.v ===== *)
(** Runs of the programming track frontend: how long requests take, in which
    order they return, and what is read from a decoder. *)

From S2P Require Import Prelude ProgrammingTrack ProgrammingSafety.

Section Runs.

Context `{EO : ErrorDefsOk}.
Context (backend_ : bool) (self : Z) (parse_railcom_data : Feedback -> list RailcomPacket).

Abbreviation step := (step backend_ self parse_railcom_data).
Abbreviation run := (run backend_ self parse_railcom_data).
Abbreviation flow_ok := (flow_ok backend_ self parse_railcom_data).

(** ** Steps that are left *)

(** How many more answers (of the backend, of the track, of timers) the current
    request can need. *)
Definition remaining (x : System) : Z :=
  let '(s, w) := x in
  match w with
  | Idle => 0
  | WaitBackend next =>
      match next with
      | send_initial_resets => 20
      | enter_service_mode_done => 19
      | check_next_bit_one => 2 * (7 - nextBitToRead_ s) + 4
      | cooldown_next_bit_one => 2 * (7 - nextBitToRead_ s) + 3
      | send_pageset_cooldown => 6
      | send_paged_command => 5
      | write_pkt_sent => 4
      | write_cooldown_done | paged_write_done => 3
      | write_verify_cooldown | check_final_byte | paged_write_cooldown_done => 2
      | write_verify_cooldown_done | cooldown_final_verify | paged_hard_reset_exit
      | exit_service_mode_done => 1
      end
  | WaitTrack fill_pom_write_byte_packet => 3 * (2 - numTry_ s) + 2
  | WaitTrack fill_pom_read_byte_packet => 2 * (2 - numTry_ s) + 2
  | WaitTimer _ write_returned => 3 * (2 - numTry_ s) + 1
  | WaitTimer _ pom_write_byte_again => 3 * (2 - numTry_ s) + 3
  | WaitTimer _ read_returned => 2 * (2 - numTry_ s) + 1
  end.

Definition max_answers : Z := 20.

(** ** Requests in order *)

(** A request without its results. *)
Definition key (r : Request) : Request := set_value 0 (set_resultCode 0 r).

Definition returned (t : list Effect) : list Request :=
  omap (fun e => match e with Returned r => Some (key r) | _ => None end) t.

(** The requests that came in so far: those that have returned, the one that is
    being served, and those that wait. *)
Definition seen (x : System) : list Request :=
  let '(s, w) := x in
  returned (effects s) ++ match w with Idle => [] | _ => [key (request s)] end ++ map key (queue s).

Lemma returned_snoc t e :
  returned (t ++ [e]) = returned t ++ match e with Returned r => [key r] | _ => [] end.
Proof. unfold returned. rewrite omap_app. by destruct e. Qed.

(** [serves v k x]: the flow goes on from a state with the requests [v], and may
    need [k] answers. *)
Definition view (s : Frontend) : list Request :=
  returned (effects s) ++ key (request s) :: map key (queue s).

Definition exit_key : Request := key (reset_exit_service_mode blank_request).

Definition serves (v : list Request) (k : Z) (x : System) : Prop :=
  0 <= remaining x <= k /\ (seen x = v \/ seen x = v ++ [exit_key]).

Lemma view_emit e s : (forall r, e <> Returned r) -> view (emit e s) = view s.
Proof.
  intros He. unfold view. cbn. rewrite returned_snoc.
  destruct e; try (by rewrite app_nil_r). by destruct (He r).
Qed.

Lemma serves_invoke v k r next s :
  view s = v -> 0 <= remaining (s, WaitBackend next) <= k -> serves v k (invoke_backend r next s).
Proof.
  intros <- Hk. split; [by destruct next|]. left. rewrite <- (view_emit (ToBackend r) s); done.
Qed.

Lemma serves_return v k c s : view s = v -> 0 <= k -> serves v k (return_with_error c s).
Proof.
  intros <- Hk. split; [cbn; lia|]. left. unfold view. cbn. by rewrite returned_snoc, <- app_assoc.
Qed.

Lemma serves_done v k s : view s = v -> 0 <= k -> serves v k (done_and_return s).
Proof. intros Hv. apply serves_return. unfold ping. by destruct (isRunning_ s). Qed.

Lemma serves_short v k s : view s = v -> 0 <= k -> serves v k (pgm_short s).
Proof.
  intros <- Hk. split; [cbn; lia|]. right. unfold view. cbn.
  rewrite returned_snoc, map_app, <- !app_assoc. done.
Qed.

Lemma serves_weaken v j k x : serves v j x -> j <= k -> serves v k x.
Proof. intros [? ?] Hk. split; [lia|done]. Qed.

Lemma act_serves v k s : view s = v -> 18 <= k -> serves v k (act_service_mode s).
Proof.
  intros Hv Hk. unfold act_service_mode, direct_read_byte, send_page_preset, read_next_bit, send_packet.
  destruct (cmd_ (request s)); try (apply serves_done; [done|lia]);
    try destruct (page_of _); (apply serves_invoke; [done|cbn; lia]).
Qed.

(** The flow resumes with an answer of the backend. *)
Lemma backend_serves v k next b s :
  (next = check_next_bit_one \/ next = cooldown_next_bit_one -> 0 <= nextBitToRead_ s <= 7) ->
  view s = v -> remaining (s, WaitBackend next) = k + 1 ->
  serves v k (after_backend next b s).
Proof.
  intros Hbit Hv Hk. unfold after_backend.
  destruct (match next with exit_service_mode_done => _ | _ => _ end).
  { apply serves_short; [done|]. destruct next; cbn in Hk; try lia; specialize (Hbit ltac:(auto)); lia. }
  destruct next; cbn [remaining] in Hk; rewrite ?note_ack_spec.
  - apply serves_invoke; [done|cbn; lia].
  - apply act_serves; [done|lia].
  - apply serves_invoke; [done|cbn; lia].
  - unfold send_write_verify, send_packet.
    destruct (cmd_ _); try (apply serves_done; [done|lia]); (apply serves_invoke; [done|cbn; lia]).
  - apply serves_invoke; [done|cbn; lia].
  - apply serves_done; [done|lia].
  - specialize (Hbit ltac:(auto)). apply serves_invoke; destruct (hasAck_ b); try done; cbn; lia.
  - specialize (Hbit ltac:(auto)). destruct (hasAck_ b); cbn; (destruct (Z.eqb_spec (nextBitToRead_ s) 7);
      (apply serves_invoke; [done|]); cbn; [lia|rewrite Z.mod_small; lia]).
  - destruct (hasAck_ b); [apply serves_done; [done|lia]|apply serves_invoke; [done|cbn; lia]].
  - destruct (hasAck_ b); (apply serves_done; [done|lia]).
  - apply serves_invoke; [done|cbn; lia].
  - unfold send_packet.
    destruct (cmd_ _); try (apply serves_done; [done|lia]); (apply serves_invoke; [done|cbn; lia]).
  - apply serves_invoke; [done|cbn; lia].
  - unfold send_packet. cbn. destruct (_ && _); (apply serves_invoke; [done|cbn; lia]).
  - destruct (_ || _); (apply serves_done; [done|lia]).
  - apply serves_return; [done|lia].
Qed.

Lemma serves_wait v k s w :
  view s = v -> w <> Idle -> 0 <= remaining (s, w) <= k -> serves v k (s, w).
Proof. intros <- Hw Hk. split; [done|]. left. by destruct w. Qed.

Lemma track_serves v k next s :
  expect_track next s -> view s = v -> remaining (s, WaitTrack next) = k + 1 ->
  serves v k (after_track next s).
Proof.
  intros [_ Ht] Hv Hk.
  assert (Hp : forall p tn s', view s' = v -> 0 <= remaining (s', WaitTimer 0 tn) <= k ->
    serves v k (send_pom p tn s')).
  { intros p tn s' Hv' Hk'. apply serves_wait; [|done|by destruct tn].
    by rewrite view_emit. }
  destruct next; cbn in Hk; cbn [after_track]; destruct (addrType_ _);
    try (apply serves_return; [done|lia]); (apply Hp; [done|cbn; lia]).
Qed.

Lemma timer_serves v k n next s :
  expect_timer self parse_railcom_data next s -> view s = v ->
  remaining (s, WaitTimer n next) = k + 1 -> serves v k (after_timer next s).
Proof.
  intros He Hv Hk. assert (Ht : 0 <= numTry_ s <= 2) by (destruct next; apply He).
  destruct next; cbn [remaining] in Hk; cbn [after_timer].
  - destruct (_ =? _); [|destruct (_ =? _); (apply serves_return; [done|lia])].
    destruct (seenRailcomBusy_ _); [|apply serves_return; [done|lia]].
    destruct (Z.ltb_spec (numTry_ (next_try (set_railcomRegistered false s)))
      DEFAULT_POM_WRITE_RETRIES_ON_BUSY) as [Hl|]; [|apply serves_return; [done|lia]].
    apply serves_wait; [done|done|]. cbn [remaining]. rewrite try_range in * by done.
    change (numTry_ (set_railcomRegistered false s)) with (numTry_ s) in *.
    unfold DEFAULT_POM_WRITE_RETRIES_ON_BUSY in Hl. lia.
  - apply serves_wait; [done|done|]. cbn [remaining]. lia.
  - destruct (errorCode_ s =? ERROR_OK); [apply serves_return; [done|lia]|].
    set (s1 := if _ =? _ then _ else _).
    assert (E : view s1 = view s /\ numTry_ s1 = numTry_ s) by (unfold s1; by destruct (_ =? _)).
    destruct E as [Ev Et].
    destruct (Z.ltb_spec (numTry_ (next_try s1)) DEFAULT_POM_READ_RETRIES) as [Hl|];
      [|apply serves_return; [by rewrite <- Hv, <- Ev|lia]].
    apply serves_wait; [by rewrite <- Hv, <- Ev|done|]. cbn [remaining].
    rewrite try_range in * by lia. unfold DEFAULT_POM_READ_RETRIES in Hl. lia.
Qed.

Lemma entry_serves r l s :
  queue s = r :: l -> serves (seen (s, Idle)) max_answers (entry backend_ (set_request r (set_queue l s))).
Proof.
  intros Hq. set (v := seen (s, Idle)).
  assert (Hv : forall s', effects s' = effects s -> key (request s') = key r -> queue s' = l -> view s' = v).
  { intros s' E1 E2 E3. unfold view, v, seen. by rewrite E1, E2, E3, Hq. }
  unfold max_answers, entry. cbn [request set_request cmd_ set_resultCode].
  assert (Hs : forall s', view s' = v -> serves v 20 (enter_service_mode backend_ s')).
  { intros s' Hv'. unfold enter_service_mode. destruct (inServiceMode_ s'); [by apply act_serves|].
    destruct (negb backend_); [by apply serves_return|by apply serves_invoke]. }
  destruct (cmd_ r); try (by apply Hs, Hv); try (by apply serves_return; [apply Hv|]);
    try (by apply serves_wait; [apply Hv| |]).
  unfold exit_service_mode. set (s1 := stop_wait _).
  assert (Hv1 : view s1 = v) by (unfold s1, stop_wait; destruct (isRunning_ _); by apply Hv).
  destruct (negb _); [by apply serves_return|]. destruct (negb _); [by apply serves_return|].
  by apply serves_invoke.
Qed.

(** ** Steps *)

Definition is_answer (e : event) : bool :=
  match e with BackendDone _ | TrackReady | TimerDone => true | _ => false end.

(** What an event adds to the requests seen: a request, or one to end service mode. *)
Definition adds (e : event) (l : list Request) : Prop :=
  match e with
  | Call r => l = [key r]
  | _ => l = [] \/ l = [exit_key]
  end.

(** What a step does to the measure and to the requests. *)
Definition advances (e : event) (x x' : System) : Prop :=
  (exists l, adds e l /\ seen x' = seen x ++ l) /\ 0 <= remaining x' /\
  match e with
  | Start => snd x = Idle /\ remaining x' <= max_answers
  | _ => remaining x' + (if is_answer e then 1 else 0) <= remaining x
  end.

Lemma serves_advances e s w x' :
  is_answer e = true -> w <> Idle -> serves (view s) (remaining (s, w) - 1) x' -> advances e (s, w) x'.
Proof.
  intros He Hw [Hk Hv].
  assert (E : seen (s, w) = view s) by by destruct w. split; [|split; [lia|]].
  - rewrite E. destruct Hv as [->| ->]; [exists []; rewrite app_nil_r|exists [exit_key]];
      (split; [|done]); destruct e; try done; unfold adds; auto.
  - destruct e; try done; cbn [is_answer]; lia.
Qed.

(** Events that leave the current request alone. *)
Lemma aside_advances e s s' w l :
  flow_ok (s, w) -> is_answer e = false -> e <> Start ->
  effects s' = effects s \/ (exists f, effects s' = effects s ++ [Heard f]) ->
  key (request s') = key (request s) -> nextBitToRead_ s' = nextBitToRead_ s ->
  numTry_ s' = numTry_ s -> map key (queue s') = map key (queue s) ++ l -> adds e l ->
  advances e (s, w) (s', w).
Proof.
  intros F Ha Hne Heff Hr Hb Ht Hq Hl.
  assert (Er : remaining (s', w) = remaining (s, w)).
  { unfold remaining. by rewrite Hb, Ht. }
  assert (Ee : returned (effects s') = returned (effects s)).
  { destruct Heff as [->|[f ->]]; [done|]. rewrite returned_snoc. apply app_nil_r. }
  split; [|split].
  - exists l. split; [done|]. unfold seen. by rewrite Ee, Hr, Hq, !app_assoc.
  - rewrite Er. pose proof (ok_expects _ _ _ _ F) as He. cbn in He |- *.
    destruct w as [|next|next|n next]; [done| | |]; destruct next; try done;
      unfold expect_track in *; cbn in He; lia.
  - rewrite Er, Ha. destruct e; try done; lia.
Qed.

Lemma step_advances e x x' : flow_ok x -> step e x = Some x' -> advances e x x'.
Proof.
  destruct x as [s w]. intros F E. pose proof (ok_expects _ _ _ _ F) as He. unfold ProgrammingTrack.step in E.
  destruct e as [r| |b| | |f|].
  - injection E as <-. apply (aside_advances _ _ _ _ [key r]); auto; [cbn; by rewrite map_app|done].
  - destruct (triggered s), w; try done. destruct (queue s) as [|r l] eqn:Eq; [done|]. injection E as <-.
    destruct (entry_serves r l s Eq) as [Hk Hv]. split; [|split; [lia|split; [done|lia]]].
    destruct Hv as [->| ->]; [exists []; rewrite app_nil_r|exists [exit_key]]; (split; [|done]); cbn; auto.
  - destruct (triggered s), w as [|next| |]; try done. injection E as <-.
    apply serves_advances; [done|done|].
    rewrite <- (view_emit (FromBackend b)) by done. apply backend_serves; [|done|].
    + cbn. intros [->| ->]; apply He.
    + cbn. destruct next; lia.
  - destruct (triggered s), w as [| |next|]; try done. injection E as <-. destruct He as [He Hr].
    apply serves_advances; [done|done|]. apply track_serves; [done|done|lia].
  - destruct (triggered s), w as [| | |n next]; try done. injection E as <-.
    apply serves_advances; [done|done|]. apply (timer_serves _ _ n); [done|done|lia].
  - destruct (triggered s); [done|]. destruct (railcomRegistered s) eqn:Er; [|by destruct w].
    assert (E' : x' = (railcom_feedback self parse_railcom_data f (emit (Heard f) s), w))
      by (destruct w; congruence).
    subst x'. pose proof (feedback_same_flow self parse_railcom_data f (emit (Heard f) s)) as S.
    set (s' := railcom_feedback _ _ _ _) in *. destruct S as [S1 S2 S3 S4 S5 S6 S7 S8].
    apply (aside_advances _ _ _ _ []); rewrite ?S1, ?S3, ?S4, ?S5, ?S6; cbn; eauto. by rewrite app_nil_r.
  - unfold service_mode_timeout in E. destruct (serviceModeTimer_ s); try done; injection E as <-.
    + apply (aside_advances _ _ _ _ [exit_key]); cbn; eauto. by rewrite map_app.
    + apply (aside_advances _ _ _ _ []); cbn; eauto. by rewrite app_nil_r.
Qed.

Lemma remaining_pos s w : flow_ok (s, w) -> w <> Idle -> 0 < remaining (s, w).
Proof.
  intros F Hw. pose proof (ok_expects _ _ _ _ F) as He. cbn in He |- *.
  destruct w as [|next|next|n next]; [done| | |]; destruct next; try done;
    unfold expect_track in *; cbn in He; lia.
Qed.

Definition answers (l : list event) : Z := zlen (filter (fun e => is_answer e = true) l).

Lemma answers_cons e l : answers (e :: l) = (if is_answer e then 1 else 0) + answers l.
Proof.
  unfold answers. rewrite filter_cons. case_decide as Hd; [by rewrite zlen_cons, Hd|].
  by destruct (is_answer e).
Qed.

Lemma run_remaining l x x' :
  flow_ok x -> run l x = Some x' -> Start ∉ l -> remaining x' + answers l <= remaining x.
Proof.
  revert x. induction l as [|e l IH]; intros x F; cbn; [intros [= <-] _; change (answers []) with 0; lia|].
  destruct (step e x) as [x1|] eqn:E; [|done]. cbn. intros R Hs.
  destruct (step_advances e x x1 F E) as (_ & _ & Hk).
  assert (F1 : flow_ok x1) by (by apply (frontend_step_ok _ _ _ e x)).
  assert (Hl : remaining x1 + (if is_answer e then 1 else 0) <= remaining x)
    by (destruct e; try done; by destruct Hs; left).
  specialize (IH x1 F1 R ltac:(by intros ?; apply Hs; right)). rewrite answers_cons. lia.
Qed.

(** *** Order *)

Definition calls (l : list event) : list Request :=
  omap (fun e => match e with Call r => Some (key r) | _ => None end) l.

(** The flow adds requests of its own, to end service mode. *)
Definition of_clients (l : list Request) : list Request :=
  filter (fun r => cmd_ r <> EXIT_SERVICE_MODE) l.

Lemma of_clients_app l1 l2 : of_clients (l1 ++ l2) = of_clients l1 ++ of_clients l2.
Proof. apply filter_app. Qed.

Lemma run_seen l x x' :
  flow_ok x -> run l x = Some x' -> of_clients (seen x') = of_clients (seen x ++ calls l).
Proof.
  revert x. induction l as [|e l IH]; intros x F; cbn [ProgrammingTrack.run].
  { intros [= <-]. by rewrite app_nil_r. }
  destruct (step e x) as [x1|] eqn:E; [|done]. cbn [mbind option_bind]. intros R.
  destruct (step_advances e x x1 F E) as ((ls & Ha & Es) & _).
  rewrite (IH x1 (frontend_step_ok _ _ _ e x x1 F E) R), Es, <- app_assoc, !of_clients_app. f_equal.
  assert (Hc : calls (e :: l) = match e with Call r => [key r] | _ => [] end ++ calls l)
    by (by destruct e).
  rewrite Hc, of_clients_app. f_equal. destruct e; cbn in Ha; try (by destruct Ha as [->| ->]).
  by subst ls.
Qed.

(** ** Theorems *)

(** C22: However the backend, decoders and RailCom answer, a request returns
    after at most 20 answers, and whenever it has not returned yet the flow waits
    for an answer (or for a timer that was stopped), so that it is never stuck. *)
Theorem requests_return_soon memory l0 x0 x1 l s w :
  run l0 (new_Frontend memory) = Some x0 -> step Start x0 = Some x1 ->
  run l x1 = Some (s, w) -> Start ∉ l ->
  answers l <= max_answers /\
  (w <> Idle ->
   answers l < max_answers /\
   exists e x', (is_answer e = true \/ e = ServiceTimeout) /\ step e (s, w) = Some x').
Proof.
  intros R0 E R Hl.
  pose proof (run_ok _ _ _ _ _ _ (new_flow_ok _ _ _ memory) R0) as F0.
  pose proof (frontend_step_ok _ _ _ _ _ _ F0 E) as F1. pose proof (run_ok _ _ _ _ _ _ F1 R) as F2.
  destruct (step_advances _ _ _ F0 E) as (_ & _ & _ & Hm).
  pose proof (run_remaining _ _ _ F1 R Hl) as Hr.
  assert (Hp : 0 <= remaining (s, w)).
  { destruct w; [done|..]; (apply Z.lt_le_incl, remaining_pos; [done|done]). }
  split; [lia|]. intros Hw. pose proof (remaining_pos s w F2 Hw). split; [lia|].
  destruct (triggered s) eqn:Et.
  - exists ServiceTimeout. unfold triggered in Et. cbn. destruct (serviceModeTimer_ s); try done. eauto.
  - destruct w as [|next|next|n next]; [done| | |].
    + exists (BackendDone (mkBackendResult false false)). cbn. rewrite Et. eauto.
    + exists TrackReady. cbn. rewrite Et. eauto.
    + exists TimerDone. cbn. rewrite Et. eauto.
Qed.

(** Every request returns once, in the order of the calls: the requests that
    have returned, the one being served and those that wait are the requests
    that were called, apart from those with which the flow itself ends service
    mode. *)
Theorem requests_return_in_order memory l s w :
  run l (new_Frontend memory) = Some (s, w) ->
  of_clients (returned (effects s)) ++
    of_clients (match w with Idle => [] | _ => [key (request s)] end ++ map key (queue s)) =
  of_clients (calls l).
Proof.
  intros R. rewrite <- of_clients_app. exact (run_seen l _ _ (new_flow_ok _ _ _ memory) R).
Qed.

End Runs.
