(* ===== verification/ProgrammingDecoder.v ===== *)
(** Reading from a decoder on the programming track: bit by bit, the value that
    the decoder holds. *)

From S2P Require Import Prelude ProgrammingTrack ProgrammingSafety ProgrammingRuns.

(** A decoder on the programming track, with the backend in front of it.  The
    environment [E] answers requests; [holds e cvs] says that the decoder has the
    values [cvs] in its CVs, numbered from 0. *)
Class Decoder (E : Type) := {
  dec_answer : E -> BackendRequest -> BackendResult * E;
  holds : E -> (Z -> Z) -> Prop
}.

Definition writes (r : BackendRequest) : bool :=
  match r with
  | SEND_PROGRAMMING_PACKET p _ _ =>
      match p with
      | dcc_svc_write_byte _ _ | dcc_svc_write_bit _ _ _ | dcc_svc_paged_write_reg _ _ => true
      | _ => false
      end
  | _ => false
  end.

(** The acknowledgement of a verify packet comes while the packet is repeated or
    during the reset packets after it. *)
Class DecoderOk (E : Type) `{D : Decoder E} : Prop := {
  no_short e cvs r : holds e cvs -> hasShortCircuit_ (dec_answer e r).1 = false;
  keeps e cvs r : holds e cvs -> writes r = false -> holds (dec_answer e r).2 cvs;
  acks_bit e cvs cv bit n k : holds e cvs -> 0 < n ->
    let '(b1, e1) := dec_answer e (SEND_PROGRAMMING_PACKET (dcc_svc_verify_bit cv bit true) n false) in
    hasAck_ b1 || hasAck_ (dec_answer e1 (SEND_RESET k)).1 = Z.testbit (cvs cv) bit;
  acks_byte e cvs cv n k : holds e cvs -> 0 < n ->
    let '(b1, e1) := dec_answer e (SEND_PROGRAMMING_PACKET (dcc_svc_verify_byte cv (cvs cv)) n false) in
    hasAck_ b1 || hasAck_ (dec_answer e1 (SEND_RESET k)).1 = true
}.

(** *** Bits that were confirmed *)

Lemma confirm_bit v i (b : bool) :
  0 <= v < 256 -> 0 <= i <= 7 -> b = Z.testbit v i ->
  (if b then u8 (Z.lor (v mod 2 ^ i) (Z.shiftl 1 i)) else v mod 2 ^ i) = v mod 2 ^ (i + 1).
Proof.
  intros Hv Hi ->. apply Z.bits_inj'. intros j Hj.
  assert (Hm : Z.testbit (v mod 2 ^ (i + 1)) j = if j <? i + 1 then Z.testbit v j else false).
  { destruct (Z.ltb_spec j (i + 1)); [apply Z.mod_pow2_bits_low|apply Z.mod_pow2_bits_high]; lia. }
  assert (Hl : Z.testbit (v mod 2 ^ i) j = if j <? i then Z.testbit v j else false).
  { destruct (Z.ltb_spec j i); [apply Z.mod_pow2_bits_low|apply Z.mod_pow2_bits_high]; lia. }
  rewrite Hm. destruct (Z.testbit v i) eqn:Eb.
  - unfold u8. destruct (Z.ltb_spec j 8).
    + rewrite testbit_low_mod, Z.lor_spec, Hl, Z.shiftl_1_l, Z.pow2_bits_eqb by lia.
      destruct (Z.eqb_spec i j) as [->|].
      * rewrite orb_true_r. destruct (Z.ltb_spec j (j + 1)); [done|lia].
      * rewrite orb_false_r. destruct (Z.ltb_spec j i), (Z.ltb_spec j (i + 1)); done || lia.
    + rewrite Z.mod_pow2_bits_high by lia. by destruct (Z.ltb_spec j (i + 1)); [lia|].
  - rewrite Hl. destruct (Z.ltb_spec j i), (Z.ltb_spec j (i + 1)); try done; try lia.
    by replace j with i by lia.
Qed.

Lemma confirm_twice c m : u8 (Z.lor (u8 (Z.lor c m)) m) = u8 (Z.lor c m).
Proof.
  apply Z.bits_inj'. intros j Hj. unfold u8. destruct (Z.ltb_spec j 8).
  - rewrite !testbit_low_mod, Z.lor_spec, testbit_low_mod, Z.lor_spec by lia.
    by rewrite <- orb_assoc, orb_diag.
  - by rewrite !Z.mod_pow2_bits_high by lia.
Qed.

Section Decoder.

Context `{EO : ErrorDefsOk} {E : Type} `{DO : DecoderOk E}.
Context (backend_ : bool) (self : Z) (parse_railcom_data : Feedback -> list RailcomPacket).

Abbreviation step := (step backend_ self parse_railcom_data).

(** The flow with the answers of the decoder, [n] of them at most. *)
Fixpoint drive (n : nat) (e : E) (x : System) : E * System :=
  match n with
  | O => (e, x)
  | S n =>
      match snd x, last (effects (fst x)) with
      | WaitBackend _, Some (ToBackend r) =>
          let '(b, e') := dec_answer e r in
          match step (BackendDone b) x with
          | Some x' => drive n e' x'
          | None => (e, x)
          end
      | _, _ => (e, x)
      end
  end.

Lemma drive_plus n m e x : drive (n + m) e x = let '(e', x') := drive n e x in drive m e' x'.
Proof.
  revert e x. induction n as [|n IH]; intros e x; [done|]. cbn.
  destruct x as [s w]. cbn. destruct w as [|next| |]; try (by destruct m).
  destruct (last (effects s)) as [[r| | | |]|] eqn:El; try (by destruct m; cbn; rewrite ?El).
  destruct (dec_answer e r) as [b e'] eqn:Ed. destruct (triggered s) eqn:Et; [|apply IH].
  destruct m; [done|]. cbn. by rewrite El, Ed, Et.
Qed.

Lemma drive_idle n e s : drive n e (s, Idle) = (e, (s, Idle)).
Proof. by destruct n. Qed.

(** One answer, to a request that was just sent. *)
Lemma drive_answer n e r next s :
  triggered s = false ->
  drive (S n) e (invoke_backend r next s) =
    drive n (dec_answer e r).2
      (after_backend next (dec_answer e r).1
         (emit (FromBackend (dec_answer e r).1) (emit (ToBackend r) s))).
Proof.
  intros Ht. cbn. rewrite last_snoc. destruct (dec_answer e r) as [b e'].
  change (triggered (emit (ToBackend r) s)) with (triggered s). by rewrite Ht.
Qed.

Section Read.
Context (cvs : Z -> Z) (r : Request).
Abbreviation v := (cvs (cvOffset_ r)).
Hypothesis Hcmd : cmd_ r = DIRECT_READ_BYTE.
Hypothesis Hv : 0 <= v < 256.

(** While the byte is read. *)
Record reading (s : Frontend) : Prop := {
  rd_request : request s = set_resultCode OPERATION_PENDING r;
  rd_timer : triggered s = false;
  rd_repeats : 0 < verifyRepeats_ s
}.

Ltac still_reading := match goal with H : reading _ |- reading _ => by destruct H; split end.

(** The two answers for one bit. *)
Lemma drive_bit n e s :
  reading s -> holds e cvs -> 0 <= nextBitToRead_ s <= 7 -> confirmedOnes_ s = v mod 2 ^ nextBitToRead_ s ->
  exists e' s', holds e' cvs /\ reading s' /\ nextBitToRead_ s' = nextBitToRead_ s /\
    confirmedOnes_ s' = v mod 2 ^ (nextBitToRead_ s + 1) /\
    drive (S (S n)) e (read_next_bit s) =
      drive n e'
        (if nextBitToRead_ s =? 7 then
           send_packet (dcc_svc_verify_byte (cvOffset_ r) (confirmedOnes_ s')) (verifyRepeats_ s') false
             check_final_byte (set_request (set_value (confirmedOnes_ s') (request s')) s')
         else read_next_bit (set_nextBitToRead ((nextBitToRead_ s + 1) mod 2 ^ 4) s')).
Proof.
  intros R Hh Hb Hc. destruct R as [R1 R2 R3]. set (i := nextBitToRead_ s) in *.
  unfold read_next_bit at 1, send_packet. rewrite drive_answer by done. fold i.
  rewrite R1. cbn [cvOffset_ set_resultCode].
  set (q1 := SEND_PROGRAMMING_PACKET _ _ _).
  pose proof (no_short e cvs q1 Hh) as Hs1. pose proof (keeps e cvs q1 Hh eq_refl) as Hh1.
  pose proof (acks_bit e cvs (cvOffset_ r) i (verifyRepeats_ s) (verifyCooldownReset_ s) Hh R3) as Hk.
  fold q1 in Hk. destruct (dec_answer e q1) as [b1 e1]. cbn [fst snd] in *.
  unfold after_backend at 1. rewrite Hs1. set (s1 := if hasAck_ b1 then _ else _).
  assert (E1 : triggered s1 = false /\ verifyCooldownReset_ s1 = verifyCooldownReset_ s)
    by (unfold s1; by destruct (hasAck_ b1)).
  destruct E1 as [E1 E2]. rewrite drive_answer, E2 by done.
  set (q2 := SEND_RESET _) in *.
  pose proof (no_short e1 cvs q2 Hh1) as Hs2. pose proof (keeps e1 cvs q2 Hh1 eq_refl) as Hh2.
  destruct (dec_answer e1 q2) as [b2 e2]. cbn [fst snd] in *. unfold after_backend at 1. rewrite Hs2.
  set (s2 := if hasAck_ b2 then _ else _).
  assert (S2 : reading s2 /\ nextBitToRead_ s2 = i /\
    confirmedOnes_ s2 = if hasAck_ b1 || hasAck_ b2
      then u8 (Z.lor (confirmedOnes_ s) (Z.shiftl 1 i)) else confirmedOnes_ s).
  { unfold s2, s1. destruct (hasAck_ b1), (hasAck_ b2); (split; [by split|split; [done|]]); try done.
    exact (confirm_twice (confirmedOnes_ s) (Z.shiftl 1 i)). }
  destruct S2 as (Hr2 & Hi2 & Hc2). exists e2, s2. rewrite Hc2, Hc, Hi2.
  split; [done|]. split; [done|]. split; [done|]. split; [by apply confirm_bit|].
  by rewrite (rd_request _ Hr2).
Qed.

(** All bits from the next one on. *)
Lemma drive_bits k n e s :
  reading s -> holds e cvs -> nextBitToRead_ s = 7 - Z.of_nat k -> (k <= 7)%nat ->
  confirmedOnes_ s = v mod 2 ^ nextBitToRead_ s ->
  exists e' s', holds e' cvs /\ reading s' /\
    drive (2 * S k + n) e (read_next_bit s) =
      drive n e' (send_packet (dcc_svc_verify_byte (cvOffset_ r) v) (verifyRepeats_ s') false
        check_final_byte (set_request (set_value v (request s')) s')).
Proof.
  revert e s. induction k as [|k IH]; intros e s R Hh Hi Hk Hc.
  - destruct (drive_bit n e s R Hh ltac:(lia) Hc) as (e1 & s1 & H1 & R1 & I1 & C1 & D1).
    rewrite Hi in *. cbn in D1. exists e1, s1. split; [done|]. split; [done|].
    replace v with (confirmedOnes_ s1) by (rewrite C1; apply Z.mod_small; done). done.
  - destruct (drive_bit (2 * S k + n) e s R Hh ltac:(lia) Hc) as (e1 & s1 & H1 & R1 & I1 & C1 & D1).
    set (s2 := set_nextBitToRead ((nextBitToRead_ s + 1) mod 2 ^ 4) s1) in *.
    assert (I2 : nextBitToRead_ s2 = nextBitToRead_ s + 1) by (apply Z.mod_small; lia).
    destruct (IH e1 s2) as (e' & s' & H' & R' & D'); try done; try lia.
    { still_reading. }
    { by rewrite I2, <- C1. }
    exists e', s'. split; [done|]. split; [done|]. rewrite <- D'.
    replace (2 * S (S k) + n)%nat with (S (S (2 * S k + n))) by lia. rewrite D1.
    by replace (nextBitToRead_ s =? 7) with false by (symmetry; apply Z.eqb_neq; lia).
Qed.

(** The verification of the whole byte. *)
Lemma drive_verify e s :
  reading s -> holds e cvs ->
  exists e' s', holds e' cvs /\
    drive 2 e (send_packet (dcc_svc_verify_byte (cvOffset_ r) v) (verifyRepeats_ s) false
      check_final_byte (set_request (set_value v (request s)) s)) = (e', (s', Idle)) /\
    last (effects s') = Some (Returned (set_resultCode ERROR_CODE_OK (set_value v r))).
Proof.
  intros [R1 R2 R3] Hh. unfold send_packet. rewrite drive_answer by done.
  set (q1 := SEND_PROGRAMMING_PACKET _ _ _). set (s0 := emit (ToBackend q1) _).
  pose proof (no_short e cvs q1 Hh) as Hs1. pose proof (keeps e cvs q1 Hh eq_refl) as Hh1.
  pose proof (acks_byte e cvs (cvOffset_ r) (verifyRepeats_ s) (verifyCooldownReset_ s) Hh R3) as Hk.
  fold q1 in Hk. destruct (dec_answer e q1) as [b1 e1]. cbn [fst snd] in *.
  assert (Hdone : forall s', request s' = set_value v (set_resultCode OPERATION_PENDING r) ->
    exists s2, done_and_return (set_result_ok s') = (s2, Idle) /\
      last (effects s2) = Some (Returned (set_resultCode ERROR_CODE_OK (set_value v r)))).
  { intros s' Er. unfold set_result_ok. rewrite result_of by (by left || by rewrite Er).
    eexists. split; [done|]. cbn. rewrite last_snoc. unfold ping. cbn.
    destruct (isRunning_ s'); cbn; by rewrite Er. }
  unfold after_backend at 1. rewrite Hs1. destruct (hasAck_ b1).
  - destruct (Hdone (emit (FromBackend b1) s0)) as (s2 & -> & Hl); [cbn; by rewrite R1|].
    exists e1, s2. by rewrite drive_idle.
  - rewrite drive_answer by done. cbn [verifyCooldownReset_ emit set_effects].
    set (q2 := SEND_RESET _).
    pose proof (no_short e1 cvs q2 Hh1) as Hs2. pose proof (keeps e1 cvs q2 Hh1 eq_refl) as Hh2.
    change (hasAck_ (dec_answer e1 q2).1 = true) in Hk.
    destruct (dec_answer e1 q2) as [b2 e2]. cbn [fst snd] in *.
    unfold after_backend at 1. rewrite Hs2, Hk.
    destruct (Hdone (emit (FromBackend b2) (emit (ToBackend q2) (emit (FromBackend b1) s0))))
      as (s2 & -> & Hl); [cbn; by rewrite R1|].
    exists e2, s2. by rewrite drive_idle.
Qed.

Lemma drive_read e s :
  reading s -> holds e cvs ->
  exists e' s', holds e' cvs /\ drive 18 e (act_service_mode s) = (e', (s', Idle)) /\
    last (effects s') = Some (Returned (set_resultCode ERROR_CODE_OK (set_value v r))).
Proof.
  intros R Hh. unfold act_service_mode. rewrite (rd_request _ R). cbn [cmd_ set_resultCode]. rewrite Hcmd.
  unfold direct_read_byte. set (s0 := set_confirmedZeros _ _).
  destruct (drive_bits 7 2 e s0) as (e1 & s1 & H1 & R1 & D1); try done.
  { unfold s0. still_reading. }
  { symmetry. apply Z.mod_1_r. }
  destruct (drive_verify e1 s1 R1 H1) as (e2 & s2 & H2 & D2 & Hl).
  exists e2, s2. split; [done|]. split; [|done]. change 18%nat with (2 * 8 + 2)%nat. by rewrite D1.
Qed.

End Read.

(** C20: Reading a byte in direct mode returns the value that the decoder holds.
    If the decoder acknowledges verify packets for what it holds, while the
    packets are repeated or during the reset packets after them, and there is no
    short circuit, the flow tests the eight bits, assembles the byte and returns
    it with success, after at most 20 answers of the backend; whether or not
    service mode was active before. *)
Theorem direct_read_returns_value e cvs s r l x1 :
  holds e cvs -> queue s = r :: l -> cmd_ r = DIRECT_READ_BYTE ->
  0 <= cvs (cvOffset_ r) < 256 -> 0 < verifyRepeats_ s ->
  (inServiceMode_ s = true \/ backend_ = true) -> step Start (s, Idle) = Some x1 ->
  exists e' s', holds e' cvs /\ drive 20 e x1 = (e', (s', Idle)) /\
    last (effects s') = Some (Returned (set_resultCode ERROR_CODE_OK (set_value (cvs (cvOffset_ r)) r))).
Proof.
  intros Hh Hq Hcmd Hv Hrep Hm Hx. cbn in Hx. destruct (triggered s) eqn:Et; [done|].
  rewrite Hq in Hx. injection Hx as <-. unfold entry. cbn [request set_request cmd_ set_resultCode].
  rewrite Hcmd. set (s0 := set_request _ _). unfold enter_service_mode.
  change (inServiceMode_ s0) with (inServiceMode_ s). destruct (inServiceMode_ s).
  - destruct (drive_read cvs r Hcmd Hv e s0) as (e' & s' & H' & D' & Hl); [by split|done|].
    exists e', s'. split; [done|]. split; [|done].
    change 20%nat with (18 + 2)%nat. by rewrite drive_plus, D', drive_idle.
  - destruct Hm as [Hm| ->]; [done|]. cbn [negb]. rewrite drive_answer by done.
    pose proof (no_short e cvs ENTER_SERVICE Hh) as Hs1. pose proof (keeps e cvs ENTER_SERVICE Hh eq_refl) as Hh1.
    destruct (dec_answer e ENTER_SERVICE) as [b1 e1]. cbn [fst snd] in *.
    unfold after_backend at 1. rewrite Hs1. rewrite drive_answer by done.
    pose proof (no_short e1 cvs (SEND_RESET 85) Hh1) as Hs2.
    pose proof (keeps e1 cvs (SEND_RESET 85) Hh1 eq_refl) as Hh2.
    destruct (dec_answer e1 (SEND_RESET 85)) as [b2 e2]. cbn [fst snd] in *.
    unfold after_backend at 1. rewrite Hs2. by apply drive_read.
Qed.

End Decoder.
