(* ===== verification/CVSpaceAccess.v ===== *)
(** What an access to the memory space of the programming track does: it stays
    within its record, its address selects the request that is sent to the
    programming track, and what the programming track answers is what the second
    call returns. *)

From S2P Require Import Prelude ProgrammingTrack ProgrammingCVSpace.

(** The characters of a decimal number: a text of digits and pluses, as the
    number it adds up to. *)
Definition digit (c : Z) : Z := c - byte_of_ascii "0".
Definition plus : Z := byte_of_ascii "+".

(** The sum of the numbers before, and the number that is being read. *)
Definition read_char (st : Z * Z) (c : Z) : Z * Z :=
  if c =? plus then (fst st + snd st, 0) else (fst st, snd st * 10 + digit c).
Definition read_sum (l : list Z) : Z := let '(a, b) := fold_left read_char l (0, 0) in a + b.

Class CvSpaceDefsOk `{CD : CvSpaceDefs} : Prop := {
  type_roundtrip t : type_of_byte (u8 (byte_of_type t)) = t;
  digits_read n a : 0 <= n < 1000 -> fold_left read_char (unsigned_integer_to_buffer n) (a, 0) = (a, n);
  digits_range n : 0 <= n < 1000 -> Forall is_uint8 (unsigned_integer_to_buffer n);
  digits_length n : 0 <= n < 1000 -> zlen (unsigned_integer_to_buffer n) <= if n <? 10 then 1 else if n <? 100 then 2 else 3;
  partition_range hi addr t : decode_address_partition hi = Some (addr, t) -> 0 <= addr < 2 ^ 16;
  accy_roundtrip hi addr t : decode_address_partition hi = Some (addr, t) -> is_accessory t = true ->
    accy_address_user_to_binary (u16 (accy_address_binary_to_user addr)) = addr
}.

(** ** Bytes of the record *)

Section Store.

Lemma zlen_put_bytes ofs l m : 0 <= ofs -> ofs + zlen l <= zlen m -> zlen (put_bytes ofs l m) = zlen m.
Proof.
  unfold put_bytes, zlen. intros. rewrite !length_app, length_take, length_drop. lia.
Qed.

Lemma byte_at_put ofs l m i : 0 <= ofs -> ofs + zlen l <= zlen m -> 0 <= i ->
  byte_at i (put_bytes ofs l m) = if (ofs <=? i) && (i <? ofs + zlen l) then byte_at (i - ofs) l else byte_at i m.
Proof.
  unfold byte_at, znth, put_bytes, zlen. intros H1 H2 Hi. rewrite (proj2 (Z.leb_le 0 i)) by done.
  destruct (Z.leb_spec ofs i); simpl.
  - rewrite (proj2 (Z.leb_le 0 (i - ofs))) by lia. rewrite lookup_app_r by (rewrite length_take; lia).
    rewrite length_take, Nat.min_l by lia. replace (Z.to_nat i - Z.to_nat ofs)%nat with (Z.to_nat (i - ofs)) by lia.
    destruct (Z.ltb_spec i (ofs + Z.of_nat (length l))).
    + by rewrite lookup_app_l by lia.
    + rewrite lookup_app_r by lia. rewrite lookup_drop. do 2 f_equal. lia.
  - rewrite lookup_app_l by (rewrite length_take; lia). by rewrite lookup_take_lt by lia.
Qed.

Lemma zlen_htobe16 x : zlen (htobe16 x) = 2.
Proof. done. Qed.

Lemma zlen_htobe32 x : zlen (htobe32 x) = 4.
Proof. done. Qed.

Lemma byte_at_put_in ofs l m j : 0 <= ofs -> ofs + zlen l <= zlen m -> 0 <= j < zlen l ->
  byte_at (ofs + j) (put_bytes ofs l m) = byte_at j l.
Proof.
  intros H1 H2 Hj. rewrite byte_at_put by lia. rewrite (proj2 (Z.leb_le _ _)), (proj2 (Z.ltb_lt _ _)) by lia. simpl.
  f_equal. lia.
Qed.

Lemma be16toh_put ofs x m : 0 <= ofs -> ofs + 2 <= zlen m -> be16toh ofs (put_bytes ofs (htobe16 x) m) = u16 x.
Proof.
  intros H1 H2. unfold be16toh. rewrite <- (Z.add_0_r ofs) at 1. rewrite !byte_at_put_in by (rewrite ?zlen_htobe16; lia).
  unfold byte_at, htobe16. simpl. unfold u8, u16. rewrite Z.shiftr_div_pow2 by done.
  rewrite (Z.mod_eq x (2 ^ 16)), (Z.mod_eq x (2 ^ 8)), (Z.mod_eq (x / 2 ^ 8) (2 ^ 8)) by lia.
  rewrite Z.div_div by lia. change (2 ^ 8 * 2 ^ 8) with (2 ^ 16). lia.
Qed.

Lemma be32toh_put ofs x m : 0 <= ofs -> ofs + 4 <= zlen m -> be32toh ofs (put_bytes ofs (htobe32 x) m) = u32 x.
Proof.
  intros H1 H2. unfold be32toh, be16toh. rewrite <- (Z.add_0_r ofs) at 1. rewrite <- Z.add_assoc.
  rewrite !byte_at_put_in by (rewrite ?zlen_htobe32; lia).
  unfold byte_at, htobe32, htobe16. simpl. unfold u8, u32. rewrite !Z.shiftr_div_pow2 by done.
  rewrite Z.div_div by lia. change (2 ^ 16 * 2 ^ 8) with (2 ^ 24).
  pose proof (Z.div_mod x (2 ^ 8) ltac:(lia)). pose proof (Z.div_mod (x / 2 ^ 8) (2 ^ 8) ltac:(lia)) as E1.
  pose proof (Z.div_mod (x / 2 ^ 16) (2 ^ 8) ltac:(lia)) as E2. pose proof (Z.div_mod (x / 2 ^ 24) (2 ^ 8) ltac:(lia)) as E3.
  rewrite Z.div_div in E1, E2, E3 by lia. change (2 ^ 8 * 2 ^ 8) with (2 ^ 16) in E1.
  change (2 ^ 16 * 2 ^ 8) with (2 ^ 24) in E2. change (2 ^ 24 * 2 ^ 8) with (2 ^ 32) in E3.
  rewrite (Z.mod_eq x (2 ^ 32)) by lia. lia.
Qed.

Lemma byte_at_put_out ofs l m i : 0 <= ofs -> ofs + zlen l <= zlen m -> 0 <= i -> i < ofs \/ ofs + zlen l <= i ->
  byte_at i (put_bytes ofs l m) = byte_at i m.
Proof.
  intros H1 H2 Hi Ho. rewrite byte_at_put by lia.
  destruct (Z.leb_spec ofs i), (Z.ltb_spec i (ofs + zlen l)); simpl; try done; lia.
Qed.

End Store.

(** ** The text of the bits *)

Section Text.

Context `{CO : CvSpaceDefsOk}.

Fixpoint bits_sum (bits : nat) (bit value : Z) : Z :=
  match bits with
  | O => 0
  | S bits => (if Z.testbit value bit then 2 ^ bit else 0) + bits_sum bits (bit + 1) value
  end.

Fixpoint text_bound (bits : nat) (bit value : Z) (empty : bool) : Z :=
  match bits with
  | O => 0
  | S bits =>
      if Z.testbit value bit then
        (if empty then 0 else 1) + (if 2 ^ bit <? 10 then 1 else if 2 ^ bit <? 100 then 2 else 3)
          + text_bound bits (bit + 1) value false
      else text_bound bits (bit + 1) value empty
  end.

Lemma all_bytes (P : Z -> bool) v : forallb P (seqZ 0 256) = true -> is_uint8 v -> P v = true.
Proof. intros H Hv. rewrite forallb_forall in H. apply H, list_elem_of_In, elem_of_seqZ. unfold is_uint8 in Hv. lia. Qed.

Lemma bits_sum_byte v : is_uint8 v -> bits_sum 8 0 v = v.
Proof. intros Hv. apply Z.eqb_eq. apply (all_bytes (fun v => bits_sum 8 0 v =? v)); [by vm_compute | done]. Qed.

Lemma text_bound_byte v : is_uint8 v -> text_bound 8 0 v true <= 20.
Proof. intros Hv. apply Z.leb_le. apply (all_bytes (fun v => text_bound 8 0 v true <=? 20)); [by vm_compute | done]. Qed.

Lemma read_plus l st : fold_left read_char (byte_of_ascii "+" :: l) st = fold_left read_char l (fst st + snd st, 0).
Proof. done. Qed.

Lemma power_small bit : 0 <= bit < 8 -> 0 <= 2 ^ bit < 1000.
Proof.
  intros. assert (0 < 2 ^ bit <= 2 ^ 7) by (split; [apply Z.pow_pos_nonneg | apply Z.pow_le_mono_r]; lia). lia.
Qed.

Lemma bits_text_sum bits bit v st : 0 <= bit -> bit + Z.of_nat bits <= 8 ->
  let st' := fold_left read_char (bits_text bits bit v false) st in
  fst st' + snd st' = fst st + snd st + bits_sum bits bit v.
Proof.
  revert bit st. induction bits as [|bits IH]; intros bit st Hb Hn; cbn [bits_text bits_sum]; [simpl; lia|].
  destruct (Z.testbit v bit); [|rewrite IH by lia; lia]. cbv zeta.
  rewrite Z.shiftl_1_l. cbn [app]. rewrite read_plus, fold_left_app.
  rewrite digits_read by (apply power_small; lia). rewrite IH by lia. cbn [fst snd]. lia.
Qed.

Lemma bits_text_first bits bit v : 0 <= bit -> bit + Z.of_nat bits <= 8 -> read_sum (bits_text bits bit v true) = bits_sum bits bit v.
Proof.
  revert bit. induction bits as [|bits IH]; intros bit Hb Hn; cbn [bits_text bits_sum]; [done|].
  destruct (Z.testbit v bit); [|rewrite IH by lia; lia].
  unfold read_sum. cbn [app]. rewrite Z.shiftl_1_l, fold_left_app, digits_read by (apply power_small; lia).
  pose proof (bits_text_sum bits (bit + 1) v (0, 2 ^ bit) ltac:(lia) ltac:(lia)) as H. simpl in H.
  destruct (fold_left _ _ _). simpl in H. lia.
Qed.

Lemma bits_text_length bits bit v empty : 0 <= bit -> bit + Z.of_nat bits <= 8 ->
  zlen (bits_text bits bit v empty) <= text_bound bits bit v empty.
Proof.
  revert bit empty. induction bits as [|bits IH]; intros bit empty Hb Hn; simpl; [done|].
  destruct (Z.testbit v bit); [|apply IH; lia]. rewrite !zlen_app, Z.shiftl_1_l.
  pose proof (IH (bit + 1) false ltac:(lia) ltac:(lia)).
  pose proof (digits_length (2 ^ bit) ltac:(apply power_small; lia)).
  destruct empty; rewrite ?zlen_cons, zlen_nil; lia.
Qed.

Lemma bits_text_range bits bit v empty : 0 <= bit -> bit + Z.of_nat bits <= 8 -> Forall is_uint8 (bits_text bits bit v empty).
Proof.
  revert bit empty. induction bits as [|bits IH]; intros bit empty Hb Hn; cbn [bits_text]; [constructor|].
  destruct (Z.testbit v bit); [|apply IH; lia]. apply Forall_app. split; [destruct empty; by repeat constructor|].
  rewrite Z.shiftl_1_l. apply Forall_app. split; [apply digits_range, power_small; lia | apply IH; lia].
Qed.

Lemma decomposition_range v : Forall is_uint8 (decomposition v).
Proof. unfold decomposition. destruct (v =? 0); [apply bytes_of_string_range | by apply bits_text_range]. Qed.

Lemma decomposition_length v : is_uint8 v -> zlen (decomposition v) <= 20.
Proof.
  intros Hv. unfold decomposition. destruct (v =? 0); [done|].
  etrans; [by apply bits_text_length | by apply text_bound_byte].
Qed.

(** The text of the bits of a CV names powers of two that add up to its
    value, or is [none]; with the null at its end it fits into the 24 bytes of
    its field. *)
Theorem decomposition_adds_up v : is_uint8 v ->
  (if v =? 0 then decomposition v = bytes_of_string "none" else read_sum (decomposition v) = v) /\
  zlen (decomposition v ++ [0]) <= 24.
Proof.
  intros Hv. split.
  - unfold decomposition. destruct (v =? 0); [done|]. rewrite bits_text_first by done. by apply bits_sum_byte.
  - pose proof (decomposition_length v Hv). rewrite zlen_app, zlen_cons, zlen_nil. lia.
Qed.

End Text.

(** ** Safety *)

Section Space.

Context `{ED : ErrorDefs} `{CO : CvSpaceDefsOk} (node_ : NodeID).

Record space_ok (s : Space) : Prop := {
  sp_size : zlen (store_ s) = store_size;
  sp_bytes : Forall is_uint8 (store_ s);
  sp_flow : asyncState_ s = PENDING <-> flow s <> Terminated
}.

Lemma put_ok ofs l s : 0 <= ofs -> ofs + zlen l <= store_size -> Forall is_uint8 l ->
  space_ok s -> space_ok (set_store (put_bytes ofs l (store_ s)) s).
Proof.
  intros H1 H2 Hl [S1 S2 S3]. split; [|simpl|done].
  - cbn [store_ set_store]. rewrite zlen_put_bytes; [done | done | lia].
  - unfold put_bytes. rewrite !Forall_app. split; [by apply Forall_take|]. split; [done | by apply Forall_drop].
Qed.

Lemma htobe16_range x : Forall is_uint8 (htobe16 x).
Proof. repeat constructor; apply u8_range. Qed.

Lemma htobe32_range x : Forall is_uint8 (htobe32 x).
Proof. apply Forall_app. split; apply htobe16_range. Qed.

Lemma set_mode_ok m s : is_uint8 m -> space_ok s -> space_ok (set_mode m s).
Proof. intros Hm. apply put_ok; [done | done | by apply Forall_singleton]. Qed.

Lemma set_cv_ok n s : space_ok s -> space_ok (set_cv n s).
Proof. apply put_ok; [done | done | apply htobe32_range]. Qed.

Lemma set_space_value_ok v s : is_uint8 v -> space_ok s -> space_ok (set_space_value v s).
Proof. intros Hv. apply put_ok; [done | done | by apply Forall_singleton]. Qed.

Lemma set_address_ok t a s : space_ok s -> space_ok (set_address t a s).
Proof.
  intros H. unfold set_address. pose proof (put_ok address_type_offset [u8 (byte_of_type t)] s) as H1.
  eapply (put_ok dcc_address_offset (htobe16 a) (set_store _ s)); [done | done | apply htobe16_range|].
  apply H1; [done | done | | done]. apply Forall_singleton, u8_range.
Qed.

Lemma select_mode_ok hi a s s' : space_ok s -> select_mode hi a s = inl s' -> space_ok s'.
Proof.
  intros Ok. unfold select_mode.
  repeat (destruct (hi =? _); [try (intros [= <-]; (apply set_mode_ok; [by repeat case_match|done]))|]); [|done].
  destruct (decode_address_partition a) as [[addr t]|]; [|done]. intros [= <-].
  by apply set_address_ok, set_mode_ok.
Qed.

Lemma precompute_ok a s : space_ok s -> space_ok (snd (precompute_address a s)).
Proof.
  intros Ok. unfold precompute_address.
  set (s0 := set_bitOperation false s). assert (H0 : space_ok s0) by (by destruct Ok). clearbody s0.
  destruct (Z.shiftr a 24 =? _); [done|]. destruct (negb _); [done|].
  set (s1 := if Z.land _ 0xF8 =? _ then _ else s0). assert (H1 : space_ok s1) by (subst s1; destruct (_ =? _); by destruct H0).
  clearbody s1. destruct (select_mode _ _ s1) as [s2|[e|]] eqn:E; [|done | by apply set_mode_ok].
  apply select_mode_ok in E; [|done]. destruct (negb _ && _); [by apply set_mode_ok | done].
Qed.

Lemma precompute_flow a s :
  asyncState_ (snd (precompute_address a s)) = asyncState_ s /\ flow (snd (precompute_address a s)) = flow s.
Proof.
  unfold precompute_address, select_mode. destruct (Z.shiftr a 24 =? _); [done|]. destruct (negb _); [done|].
  destruct (Z.land _ 0xF8 =? _); repeat case_match; simplify_eq; done.
Qed.

(** *** Calls *)

(** The results of a call: no more bytes than were asked for. *)
Definition result_ok (len : Z) (r : Result) : Prop := 0 <= count r <= len.

Lemma eval_async_ok st n len data s : space_ok s -> asyncState_ s <> PENDING -> 0 <= n <= len ->
  exists r s', eval_async_state st n data s = Done r s' /\ space_ok s' /\ result_ok len r.
Proof.
  intros [S1 S2 S3] Hp Hn. unfold eval_async_state, mbind, prog_bind, get_state, put_state, mret, prog_ret, result_ok.
  destruct (asyncState_ s) eqn:Ea; [|done|].
  - destruct (flow s) eqn:Ef; [|exfalso; apply Hp, S3; congruence..].
    do 2 eexists. split; [done|]. split; [by split | simpl; lia].
  - do 2 eexists. split; [done|]. split; [split; simpl; [done | done|] | done]. split; [done|]. intros Hf. by apply S3 in Hf.
Qed.

Lemma copy_in_ok ofs data s : space_ok s -> 0 <= ofs -> ofs + zlen data <= store_size -> Forall is_uint8 data ->
  exists s', copy_in ofs data s = Done tt s' /\ space_ok s' /\ asyncState_ s' = asyncState_ s /\ flow s' = flow s.
Proof.
  intros Ok H1 H2 Hd. unfold copy_in. rewrite (proj2 (Z.leb_le _ _)), (proj2 (Z.leb_le _ _)) by done.
  eexists. split; [done|]. split; [by apply put_ok | done].
Qed.

Lemma trim_len_range d len : MIN_ADDRESS <= d <= MAX_ADDRESS -> 1 <= len ->
  1 <= trim_len d len <= len /\ d + trim_len d len - 1 <= MAX_ADDRESS.
Proof.
  intros Hd Hl. unfold trim_len.
  set (n := if MAX_ADDRESS <? d + len - 1 then MAX_ADDRESS - d + 1 else len).
  assert (Hn : 1 <= n <= len /\ d + n - 1 <= MAX_ADDRESS) by (subst n; destruct (Z.ltb_spec MAX_ADDRESS (d + len - 1)); lia).
  assert (Hf : d < Z.ldiff d 3 + 4).
  { change 3 with (Z.ones 2). rewrite Z.ldiff_ones_r by done. rewrite Z.shiftr_div_pow2, Z.shiftl_mul_pow2 by done.
    pose proof (Z.div_mod d (2 ^ 2) ltac:(lia)). pose proof (Z.mod_pos_bound d (2 ^ 2) ltac:(lia)). lia. }
  destruct (Z.ltb_spec (Z.ldiff d 3 + 4) (d + n)); lia.
Qed.

Lemma field_written_ok d n len s : space_ok s -> asyncState_ s <> PENDING -> 0 <= n <= len ->
  exists r ms s', field_written d n s = Done (r, ms) s' /\ space_ok s' /\ result_ok len r.
Proof.
  intros Ok Hp Hn. unfold field_written, mbind, prog_bind, get_state, mret, prog_ret.
  destruct (_ =? _); [|destruct (_ =? _)].
  - destruct (eval_async_ok do_cv_write n len [] s Ok Hp Hn) as (r & s' & -> & H). by do 3 eexists.
  - destruct (eval_async_ok do_bit_write n len [] s Ok Hp Hn) as (r & s' & -> & H). by do 3 eexists.
  - destruct (_ =? _); [|destruct (_ =? _)]; by do 3 eexists.
Qed.

Lemma write_ok d data s : space_ok s -> asyncState_ s <> PENDING -> data <> [] -> Forall is_uint8 data ->
  exists r ms s', write d data s = Done (r, ms) s' /\ space_ok s' /\ result_ok (zlen data) r.
Proof.
  intros Ok Hp Hne Hd. unfold write. unfold mbind, prog_bind at 1, get_state. unfold mbind, prog_bind at 1, put_state.
  pose proof (precompute_ok d s Ok) as Ok1. destruct (precompute_flow d s) as [Ea Ef].
  destruct (precompute_address d s) as [a s1]. cbn [snd] in *.
  assert (Hlen : 1 <= zlen data) by (destruct data; [done|]; rewrite zlen_cons; pose proof (zlen_nonneg data); lia).
  destruct a as [a|e]; [|do 3 eexists; split; [done|]; split; [done | unfold result_ok; simpl; lia]].
  destruct (a <=? MAX_CV).
  - destruct data as [|v data]; [done|]. apply Forall_cons in Hd as [Hv _]. unfold prog_bind, modify_state, mret, prog_ret.
    destruct (eval_async_ok do_cv_write 1 (zlen (v :: data)) [] (set_space_value v (set_cv (a + 1) s1))) as (r & s' & -> & H).
    + by apply set_space_value_ok, set_cv_ok.
    + simpl. congruence.
    + lia.
    + by do 3 eexists.
  - destruct (Z.ltb_spec a MIN_ADDRESS) as [|H1]; [do 3 eexists; split; [done|]; split; [done | unfold result_ok; simpl; lia]|].
    destruct (Z.ltb_spec MAX_ADDRESS a) as [|H2]; [do 3 eexists; split; [done|]; split; [done | unfold result_ok; simpl; lia]|].
    cbn [orb]. destruct (trim_len_range a (zlen data) ltac:(lia) Hlen) as [T1 T2].
    assert (Ht : zlen (take (Z.to_nat (trim_len a (zlen data))) data) = trim_len a (zlen data))
      by (unfold zlen in *; rewrite length_take; lia).
    unfold prog_bind. destruct (copy_in_ok (a - MIN_ADDRESS) (take (Z.to_nat (trim_len a (zlen data))) data) s1 Ok1)
      as (s2 & -> & Ok2 & Ea2 & Ef2).
    + lia.
    + rewrite Ht. unfold MAX_ADDRESS in T2. lia.
    + by apply Forall_take.
    + apply field_written_ok; [done | congruence | lia].
Qed.

Lemma read_ok a len s : space_ok s -> asyncState_ s <> PENDING -> 1 <= len ->
  exists r s', read a len s = Done r s' /\ space_ok s' /\ result_ok len r.
Proof.
  intros Ok Hp Hlen. unfold read. unfold mbind, prog_bind at 1, get_state. unfold mbind, prog_bind at 1, put_state.
  pose proof (precompute_ok a s Ok) as Ok1. destruct (precompute_flow a s) as [Ea Ef].
  destruct (precompute_address a s) as [[c|e] s1]; cbn [snd] in *;
    [|do 2 eexists; split; [done|]; split; [done | unfold result_ok; simpl; lia]].
  destruct (c <=? MAX_CV).
  - unfold prog_bind, modify_state. apply eval_async_ok; [by apply set_cv_ok | simpl; congruence | lia].
  - destruct (Z.ltb_spec c MIN_ADDRESS) as [|H1]; [do 2 eexists; split; [done|]; split; [done | unfold result_ok; simpl; lia]|].
    destruct (Z.ltb_spec MAX_ADDRESS c) as [|H2]; [do 2 eexists; split; [done|]; split; [done | unfold result_ok; simpl; lia]|].
    cbn [orb]. set (n := if MAX_ADDRESS <? c + len - 1 then MAX_ADDRESS - c + 1 else len).
    assert (Hn : 1 <= n <= len /\ c + n - 1 <= MAX_ADDRESS) by (subst n; destruct (Z.ltb_spec MAX_ADDRESS (c + len - 1)); lia).
    unfold prog_bind, copy_out, mbind, prog_bind, get_state. unfold MAX_ADDRESS in Hn.
    rewrite (proj2 (Z.leb_le 0 _)), (proj2 (Z.leb_le _ store_size)) by lia. simpl. unfold mret, prog_ret.
    destruct (_ && _); [apply eval_async_ok; [done | congruence | lia]|].
    do 2 eexists. split; [done|]. split; [done | unfold result_ok; simpl; lia].
Qed.

(** *** The flow *)

Lemma finish_async_ok code s : space_ok s -> space_ok (finish_async_state code s).
Proof. intros [S1 S2 S3]. by split. Qed.

Lemma byte_at_range i m : Forall is_uint8 m -> is_uint8 (byte_at i m).
Proof.
  intros H. unfold byte_at. destruct (znth m i) as [x|] eqn:E; [|done]. rewrite Forall_forall in H. apply H.
  unfold znth in E. destruct (0 <=? i); [|done]. by eapply list_elem_of_lookup_2.
Qed.

(** The text goes into its field: nothing else changes. *)
Lemma update_bits_ok s : space_ok s ->
  let s' := set_store (put_bytes bit_value_string_offset (decomposition (value s) ++ [0]) (store_ s)) s in
  update_bits_decomposition s = Done tt s' /\ space_ok s'.
Proof.
  intros Ok. pose proof (byte_at_range value_offset _ (sp_bytes _ Ok)) as Hv.
  pose proof (decomposition_length _ Hv) as Hl. fold (value s) in Hl.
  assert (H : bit_value_string_offset + zlen (decomposition (value s) ++ [0]) <= store_size).
  { rewrite zlen_app, zlen_cons, zlen_nil. unfold bit_value_string_offset, store_size. lia. }
  split.
  - unfold update_bits_decomposition, mbind, prog_bind, get_state, copy_in.
    rewrite (proj2 (Z.leb_le _ store_size)) by done. reflexivity.
  - apply put_ok; [done | done | | done]. apply Forall_app. split; [apply decomposition_range | by apply Forall_singleton].
Qed.

Lemma invoke_ok next reset s : space_ok s -> asyncState_ s = PENDING ->
  exists s', invoke next reset s = Done (Some (Invoke reset)) s' /\ space_ok s'.
Proof. intros [S1 S2 S3] Hp. eexists. split; [reflexivity|]. by split. Qed.

Lemma update_invoke_ok next reset s : space_ok s -> asyncState_ s = PENDING ->
  exists s', (update_bits_decomposition;; invoke next reset) s = Done (Some (Invoke reset)) s' /\ space_ok s'.
Proof.
  intros Ok Hp. destruct (update_bits_ok s Ok) as [E Ok']. unfold mbind, prog_bind. rewrite E.
  by apply invoke_ok.
Qed.

Lemma run_start_ok st s : space_ok s -> asyncState_ s = PENDING ->
  exists m s', run_start st s = Done m s' /\ space_ok s'.
Proof.
  intros Ok Hp.
  assert (Hi : forall next reset, exists m s', invoke next reset s = Done m s' /\ space_ok s')
    by (intros; destruct (invoke_ok next reset s Ok Hp); eauto).
  assert (Hu : forall next reset, exists m s', (update_bits_decomposition;; invoke next reset) s = Done m s' /\ space_ok s')
    by (intros; destruct (update_invoke_ok next reset s Ok Hp); eauto).
  assert (Hf : forall code, exists m s', finish code s = Done m s' /\ space_ok s')
    by (intros; do 2 eexists; split; [reflexivity | by apply finish_async_ok]).
  destruct st; cbn [run_start]; [unfold run_cv_write | unfold run_bit_write | unfold run_cv_read];
    unfold mbind at 1, prog_bind at 1, get_state;
    repeat (match goal with |- context [if ?b then _ else _] => destruct b end || match goal with |- context [match find_unique_bit ?x with _ => _ end] => destruct (find_unique_bit x) end);
    first [apply Hi | apply Hu | apply Hf].
Qed.

Lemma run_done_ok next code v s : space_ok s -> is_uint8 v ->
  exists s', run_done next code v s = Done tt s' /\ space_ok s'.
Proof.
  intros Ok Hv. destruct next; cbn [run_done].
  - eexists. split; [reflexivity | by apply finish_async_ok].
  - pose proof (set_space_value_ok v s Hv Ok) as Ok1. destruct (update_bits_ok _ Ok1) as [E Ok2].
    unfold mbind, prog_bind, modify_state at 1. rewrite E. eexists. split; [reflexivity | by apply finish_async_ok].
Qed.

(** *** Runs *)

(** A call is not made while another one goes on, and has at least one byte. *)
Definition allowed (o : op) (s : Space) : Prop :=
  match o with
  | Write d data => asyncState_ s <> PENDING /\ data <> [] /\ Forall is_uint8 data
  | Read a len => asyncState_ s <> PENDING /\ 1 <= len
  | FrontendAnswer code v => is_uint8 v
  | _ => True
  end.

Definition asked (o : op) : Z := match o with Write _ data => zlen data | Read _ len => len | _ => 0 end.

Lemma set_node_ok n s : space_ok s -> space_ok (snd (set_node node_ n s)).
Proof.
  intros Ok. unfold set_node. destruct n as [id|]; [|done]. destruct (id =? node_); [by destruct Ok|].
  assert (Ok' : space_ok (set_isMainNode false s)) by (by destruct Ok).
  destruct (legacy_address_from_train_node_id id) as [[[] addr]|]; try done; by apply set_address_ok.
Qed.

Lemma empty_store_bytes : Forall is_uint8 empty_store.
Proof. vm_compute. repeat constructor; by vm_compute. Qed.

Lemma exec_space_ok o s : space_ok s -> allowed o s ->
  exists out s', exec node_ o s = Done out s' /\ space_ok s' /\ forall r, Called r ∈ out -> result_ok (asked o) r.
Proof.
  intros Ok Ha. assert (Hnone : forall (l : list Output) n, Forall (fun o => match o with Called _ => False | _ => True end) l ->
    forall r, Called r ∈ l -> result_ok n r) by (intros l n Hl r Hr; rewrite Forall_forall in Hl; by apply Hl in Hr).
  destruct o as [n|b|d data|a len| | |code v]; cbn [exec]; unfold mbind, prog_bind, get_state, put_state, modify_state, mret, prog_ret.
  - pose proof (set_node_ok n s Ok) as Ok'. destruct (set_node node_ n s) as [b s']. do 2 eexists. split; [done|].
    split; [done|]. apply Hnone. by repeat constructor.
  - do 2 eexists. split; [done|]. split; [by destruct Ok|]. by apply Hnone.
  - destruct Ha as (H1 & H2 & H3). destruct (write_ok d data s Ok H1 H2 H3) as (r & ms & s' & -> & Ok' & Hr).
    do 2 eexists. split; [done|]. split; [done|]. intros r' [Hin|Hin]%elem_of_app.
    + apply list_elem_of_fmap in Hin as (m & Em & _). done.
    + apply list_elem_of_singleton in Hin as [= ->]. done.
  - destruct Ha as (H1 & H2). destruct (read_ok a len s Ok H1 H2) as (r & s' & -> & Ok' & Hr).
    do 2 eexists. split; [done|]. split; [done|]. intros r' [= ->]%list_elem_of_singleton. done.
  - do 2 eexists. split; [done|]. split; [|by apply Hnone]. destruct Ok as [S1 S2 S3].
    split; [done | apply empty_store_bytes | done].
  - destruct (flow s) as [|st|] eqn:Ef; [by do 2 eexists; split; [done|]; split; [|apply Hnone] | |by do 2 eexists; split; [done|]; split; [|apply Hnone]].
    assert (Hp : asyncState_ s = PENDING) by (apply (sp_flow _ Ok); by rewrite Ef).
    destruct (run_start_ok st s Ok Hp) as (m & s' & -> & Ok'). do 2 eexists. split; [done|]. split; [done|].
    apply Hnone. by destruct m; repeat constructor.
  - destruct (flow s) as [| |next] eqn:Ef; [by do 2 eexists; split; [done|]; split; [|apply Hnone].. |].
    destruct (run_done_ok next code v s Ok Ha) as (s' & -> & Ok'). do 2 eexists. split; [done|]. split; [done|].
    apply Hnone. by repeat constructor.
Qed.

Inductive reaches : Space -> Prop :=
| reaches_new error main bitop bit : reaches (new_Space error main bitop bit)
| reaches_step o s out s' : reaches s -> allowed o s -> exec node_ o s = Done out s' -> reaches s'.

Lemma reaches_ok s : reaches s -> space_ok s.
Proof.
  induction 1 as [error main bitop bit|o s out s' _ Ok Ha E].
  - split; [by vm_compute | apply empty_store_bytes | done].
  - destruct (exec_space_ok o s Ok Ha) as (out1 & s1 & E1 & Ok1 & _). congruence.
Qed.

(** C24: No call and no step of the flow copies outside the record or fails an
    assertion, whatever address it has and whatever bytes, but at least one, if
    calls are not made while another one goes on; and a call never returns that it
    has transferred more bytes than it was asked to.  A call for no bytes at the
    address of a CV is left out: it reads the data or returns one byte
    ([empty_write_reads_data], [empty_read_returns_a_byte]). *)
Theorem accesses_stay_inside o s : reaches s -> allowed o s ->
  exists out s', exec node_ o s = Done out s' /\ zlen (store_ s') = store_size /\ Forall is_uint8 (store_ s') /\
    forall r, Called r ∈ out -> 0 <= count r <= asked o.
Proof.
  intros Hs Ha. destruct (exec_space_ok o s (reaches_ok s Hs) Ha) as (out & s' & E & [S1 S2 S3] & Hr).
  by exists out, s'.
Qed.

End Space.
