(* ===== verification/CVSpaceValues.v ===== *)
(** What the memory space of the programming track reads and writes: the address
    selects the programming mode, the decoder and the CV, and the value and the
    error of the programming track come back to the caller. *)

From S2P Require Import Prelude ProgrammingTrack ProgrammingCVSpace CVSpaceAccess.

(** ** Addresses of CVs *)

(** How an address says what to do, by its upper byte. *)
Inductive AddressMode :=
| DefaultMode
| DirectMode
| PomMode
| PagedMode
| PomAddress (partition : Z)
| SvcBit (bit : Z).

Definition valid_mode (m : AddressMode) : Prop :=
  match m with
  | PomAddress n => 0 <= n < 2 ^ 14
  | SvcBit b => 0 <= b < 8
  | _ => True
  end.

Definition upper_byte (m : AddressMode) : Z :=
  match m with
  | DefaultMode => 0
  | DirectMode => 1
  | PomMode => 2
  | PagedMode => 3
  | PomAddress _ => 4
  | SvcBit b => 0x10 + b
  end.

Definition middle_bits (m : AddressMode) : Z := match m with PomAddress n => n | _ => 0 end.

(** The address of the CV [c] (from 0 on). *)
Definition cv_address (m : AddressMode) (c : Z) : Z := upper_byte m * 2 ^ 24 + middle_bits m * 2 ^ 10 + c.

Section Values.

Context `{ED : ErrorDefs} `{CO : CvSpaceDefsOk} (node_ : NodeID).

(** The state with the mode, the decoder and the bit that an address selects;
    [None]: there is no such decoder. *)
Definition selected (m : AddressMode) (s : Space) : option Space :=
  let s := set_bitOperation false s in
  let main := if isMainNode_ s then DIRECT_MODE else POM_MODE in
  match m with
  | DefaultMode => Some (set_mode main s)
  | DirectMode => Some (set_mode DIRECT_MODE s)
  | PomMode => Some (set_mode POM_MODE s)
  | PagedMode => Some (set_mode PAGED_MODE s)
  | PomAddress n =>
      '(addr, t) ← decode_address_partition n;
      Some (set_address t (if is_accessory t then accy_address_binary_to_user addr else addr) (set_mode POM_MODE s))
  | SvcBit b => Some (set_mode main (set_bitNum b (set_bitOperation true s)))
  end.

Lemma middle_range m : valid_mode m -> 0 <= middle_bits m < 2 ^ 14.
Proof. destruct m; simpl; lia. Qed.

Lemma upper_range m : valid_mode m -> 0 <= upper_byte m < 0x18.
Proof. destruct m; simpl; lia. Qed.

Lemma address_upper m c : valid_mode m -> 0 <= c < 1024 -> Z.shiftr (cv_address m c) 24 = upper_byte m.
Proof.
  intros Hm Hc. pose proof (middle_range m Hm). unfold cv_address. rewrite Z.shiftr_div_pow2 by done.
  rewrite <- Z.add_assoc, Z.div_add_l by lia. rewrite Z.div_small by lia. lia.
Qed.

Lemma address_lower m c : valid_mode m -> 0 <= c < 1024 -> Z.land (cv_address m c) 0xFFFFFF = middle_bits m * 2 ^ 10 + c.
Proof.
  intros Hm Hc. pose proof (middle_range m Hm). unfold cv_address. change 0xFFFFFF with (Z.ones 24).
  rewrite Z.land_ones by done. rewrite <- Z.add_assoc, Z.add_comm, Z.mod_add by lia. apply Z.mod_small. lia.
Qed.

Lemma land_shifted a b n : 0 <= n -> Z.land a (Z.shiftl b n) = Z.shiftl (Z.land (Z.shiftr a n) b) n.
Proof.
  intros Hn. apply Z.bits_inj'. intros i Hi. rewrite Z.land_spec, !Z.shiftl_spec, Z.land_spec by done.
  destruct (Z.ltb_spec (i - n) 0); [by rewrite !(Z.testbit_neg_r _ (i - n)), andb_false_r by done|].
  rewrite Z.shiftr_spec by done. by replace (i - n + n) with i by lia.
Qed.

(** Masking out the partition leaves the CV. *)
Lemma address_masked n c : 0 <= n < 2 ^ 14 -> 0 <= c < 1024 ->
  Z.ldiff (cv_address (PomAddress n) c) (Z.shiftl 0x3FFF 10) = cv_address (PomAddress 0) c.
Proof.
  intros Hn Hc. set (a := cv_address (PomAddress n) c). change 0x3FFF with (Z.ones 14).
  assert (E : Z.ldiff a (Z.shiftl (Z.ones 14) 10) = a - Z.land a (Z.shiftl (Z.ones 14) 10)).
  { rewrite Z.sub_nocarry_ldiff; apply Z.bits_inj'; intros i Hi; rewrite !Z.ldiff_spec, Z.land_spec, ?Z.bits_0;
      by destruct (Z.testbit a i), (Z.testbit _ i). }
  rewrite E, land_shifted, Z.land_ones, Z.shiftr_div_pow2, Z.shiftl_mul_pow2 by done.
  assert (Ed : a / 2 ^ 10 = 4 * 2 ^ 14 + n).
  { unfold a, cv_address. simpl upper_byte. simpl middle_bits.
    replace (4 * 2 ^ 24 + n * 2 ^ 10 + c) with ((4 * 2 ^ 14 + n) * 2 ^ 10 + c) by lia.
    rewrite Z.div_add_l by lia. rewrite (Z.div_small c) by lia. lia. }
  rewrite Ed, Z.add_comm, Z.mod_add, Z.mod_small by lia. unfold a, cv_address. simpl. lia.
Qed.

Definition service_allowed (s s' : Space) : bool := enableServiceMode_ s || (mode s' =? POM_MODE).

Lemma enable_selected m s s' : selected m s = Some s' -> enableServiceMode_ s' = enableServiceMode_ s.
Proof.
  destruct m; simpl; try by intros [= <-]. destruct (decode_address_partition partition) as [[]|]; [|done]. by intros [= <-].
Qed.

Lemma selected_error m s s' : selected m s = Some s' -> asyncError_ s' = asyncError_ s.
Proof.
  destruct m; simpl; try by intros [= <-]. destruct (decode_address_partition partition) as [[]|]; [|done]. by intros [= <-].
Qed.

(** What an address of a CV is turned into. *)
Lemma precompute_cv m c s : valid_mode m -> 0 <= c < 1024 ->
  precompute_address (cv_address m c) s =
    match selected m s with
    | Some s' => if service_allowed s s' then (inl c, s') else (inr (Some ERROR_PGMTRACK_DISABLED), set_mode POM_MODE s')
    | None => (inr None, set_mode POM_MODE (set_bitOperation false s))
    end.
Proof.
  intros Hm Hc. pose proof (upper_range m Hm) as Hu. unfold precompute_address.
  rewrite address_upper by done. change (Z.shiftr MIN_ADDRESS 24) with 0x7F.
  destruct (Z.eqb_spec (upper_byte m) 0x7F) as [|_]; [lia|]. rewrite (u8_small (upper_byte m)) by (unfold is_uint8; lia).
  set (a := if upper_byte m =? 4 then Z.ldiff _ _ else _).
  assert (Ha : Z.land a 0xFFFFFF = c).
  { subst a. destruct (Z.eqb_spec (upper_byte m) 4) as [E|E].
    - destruct m as [| | | |p|b]; simpl in E, Hm; try lia. rewrite address_masked, address_lower by (simpl; lia). simpl. lia.
    - rewrite address_lower by done. destruct m; simpl in *; lia. }
  rewrite Ha. rewrite (proj2 (Z.ltb_lt _ _)) by lia. cbn [negb]. clearbody a.
  assert (Hen : forall s', selected m s = Some s' ->
    (if negb (enableServiceMode_ s') && negb (mode s' =? POM_MODE)
     then (inr (Some ERROR_PGMTRACK_DISABLED), set_mode POM_MODE s') else (inl c, s')) =
    (if service_allowed s s' then (inl c, s') else (inr (A := Z) (Some ERROR_PGMTRACK_DISABLED), set_mode POM_MODE s'))).
  { intros s' E. unfold service_allowed. rewrite (enable_selected m s s' E).
    by destruct (enableServiceMode_ s), (mode s' =? POM_MODE). }
  destruct m as [| | | |n|b]; simpl upper_byte; cbn [selected] in *.
  - specialize (Hen _ eq_refl). exact Hen.
  - specialize (Hen _ eq_refl). exact Hen.
  - specialize (Hen _ eq_refl). exact Hen.
  - specialize (Hen _ eq_refl). exact Hen.
  - rewrite address_lower by done. replace (Z.shiftr (middle_bits (PomAddress n) * 2 ^ 10 + c) 10) with n
      by (rewrite Z.shiftr_div_pow2, Z.div_add_l, (Z.div_small c) by lia; simpl; lia).
    change (select_mode _ _ _) with (select_mode 4 n (set_bitOperation false s)). unfold select_mode. simpl in Hen |- *.
    destruct (decode_address_partition n) as [[addr t]|]; [|done]. specialize (Hen _ eq_refl). exact Hen.
  - assert (Hb : b = 0 \/ b = 1 \/ b = 2 \/ b = 3 \/ b = 4 \/ b = 5 \/ b = 6 \/ b = 7) by (simpl in Hm; lia).
    specialize (Hen _ eq_refl). destruct Hb as [->|[->|[->|[->|[->|[->|[->| ->]]]]]]]; exact Hen.
Qed.

(** ** Fields *)

Ltac other_field Ok :=
  rewrite byte_at_put_out; [reflexivity | done | pose proof (sp_size _ Ok); done | done | first [left; done | right; done]].

Lemma mode_set_mode x s : space_ok s -> mode (set_mode x s) = x.
Proof. intros Ok. unfold mode, set_mode. cbn [store_ set_store]. change mode_offset with (0 + 0) at 1.
  rewrite byte_at_put_in; [done | done | rewrite (sp_size _ Ok); done | done]. Qed.

Lemma cv_set_cv n s : space_ok s -> cv (set_cv n s) = u32 n.
Proof. intros Ok. apply be32toh_put; [done|]. rewrite (sp_size _ Ok). done. Qed.

Lemma value_set_value v s : space_ok s -> value (set_space_value v s) = v.
Proof. intros Ok. unfold value, set_space_value. cbn [store_ set_store]. change value_offset with (8 + 0) at 1.
  rewrite byte_at_put_in; [done | done | rewrite (sp_size _ Ok); done | done]. Qed.

(** The fields that a request is made of, other than the CV and its value. *)
Definition same_target (s s' : Space) : Prop :=
  (forall i, 0 <= i < 4 -> byte_at i (store_ s') = byte_at i (store_ s)) /\
  bitOperation_ s' = bitOperation_ s /\ bitNum_ s' = bitNum_ s.

Lemma same_target_mode s s' : same_target s s' -> mode s' = mode s.
Proof. intros (H & _). by apply H. Qed.

Lemma same_target_pom s s' : same_target s s' ->
  address_type s' = address_type s /\ pom_address s' = pom_address s.
Proof.
  intros (H & _). assert (Et : address_type s' = address_type s) by (unfold address_type; by rewrite H).
  split; [done|]. unfold pom_address. rewrite Et. unfold dcc_address, be16toh. by rewrite !H.
Qed.

Lemma put_same_target ofs l s : 4 <= ofs -> ofs + zlen l <= store_size -> space_ok s ->
  same_target s (set_store (put_bytes ofs l (store_ s)) s).
Proof.
  intros H1 H2 Ok. split; [|done]. intros i Hi. cbn [store_ set_store].
  apply byte_at_put_out; [lia | by rewrite (sp_size _ Ok) | lia | lia].
Qed.

Lemma same_target_trans s1 s2 s3 : same_target s1 s2 -> same_target s2 s3 -> same_target s1 s3.
Proof.
  intros (H1 & E1 & F1) (H2 & E2 & F2). split; [|split; congruence]. intros i Hi. by rewrite H2, H1.
Qed.

Lemma selected_ok m s s' : space_ok s -> selected m s = Some s' -> space_ok s'.
Proof.
  intros Ok. assert (Ok0 : forall b, space_ok (set_bitOperation b s)) by (intros; by destruct Ok).
  destruct m; simpl; try (intros [= <-]; apply set_mode_ok; [by destruct (isMainNode_ s)|]; by destruct Ok).
  destruct (decode_address_partition partition) as [[addr t]|]; [|done]. intros [= <-]. by apply set_address_ok, set_mode_ok.
Qed.

Lemma selected_frame m s s' : space_ok s -> selected m s = Some s' ->
  value s' = value s /\ asyncState_ s' = asyncState_ s /\ flow s' = flow s /\ isMainNode_ s' = isMainNode_ s.
Proof.
  intros Ok E. pose proof (sp_size _ Ok) as Hs. split; [|destruct m; simpl in E; try by injection E as <-].
  - unfold value. assert (Hv : forall x b, byte_at value_offset (put_bytes mode_offset x (store_ (set_bitOperation b s))) = byte_at value_offset (store_ s) \/ zlen x <> 1).
    { intros x b. destruct (decide (zlen x = 1)) as [Hx|]; [left|by right]. apply byte_at_put_out; [done | rewrite Hx; simpl; by rewrite Hs | done | right; by rewrite Hx]. }
    destruct m; simpl in E; try (injection E as <-; by destruct (Hv [if isMainNode_ s then DIRECT_MODE else POM_MODE] false)
      || by destruct (Hv [DIRECT_MODE] false) || by destruct (Hv [POM_MODE] false) || by destruct (Hv [PAGED_MODE] false)).
    destruct (decode_address_partition partition) as [[addr t]|]; [|done]. injection E as <-. unfold set_address. cbn [store_ set_store set_mode].
    assert (Z1 : zlen (put_bytes mode_offset [POM_MODE] (store_ (set_bitOperation false s))) = store_size)
      by (rewrite zlen_put_bytes; simpl; rewrite ?Hs; done).
    assert (Z2 : zlen (put_bytes address_type_offset [u8 (byte_of_type t)] (put_bytes mode_offset [POM_MODE] (store_ (set_bitOperation false s)))) = store_size)
      by (rewrite zlen_put_bytes; rewrite ?Z1; done).
    rewrite byte_at_put_out; [|done|by rewrite Z2|done|by right].
    rewrite byte_at_put_out; [|done|by rewrite Z1|done|by right].
    by destruct (Hv [POM_MODE] false).
  - destruct (decode_address_partition partition) as [[addr t]|]; [|done]. by injection E as <-.
Qed.

(** ** Requests *)

(** How a CV is accessed: in service mode, or on the main with a decoder's
    address. *)
Inductive Programming := Direct | Paged | Pom (t : TrainAddressType) (addr : Z).

Definition programming (m : AddressMode) (s : Space) : option Programming :=
  let on_main := Pom (address_type s) (pom_address s) in
  match m with
  | DefaultMode | SvcBit _ => Some (if isMainNode_ s then Direct else on_main)
  | DirectMode => Some Direct
  | PagedMode => Some Paged
  | PomMode => Some on_main
  | PomAddress n => '(addr, t) ← decode_address_partition n; Some (Pom t addr)
  end.

Definition bit_of (m : AddressMode) : option Z := match m with SvcBit b => Some b | _ => None end.

Definition read_request (p : Programming) (c : Z) : option (Request -> Request) :=
  match p with
  | Direct => Some (reset_direct_read_byte (c + 1))
  | Pom t addr => Some (reset_pom_read_byte t addr (c + 1))
  | Paged => None
  end.

Definition write_request (p : Programming) (bit : option Z) (c v : Z) : option (Request -> Request) :=
  match p, bit with
  | Direct, None => Some (reset_direct_write_byte (c + 1) v)
  | Direct, Some b => Some (reset_direct_write_bit (c + 1) b (negb (v =? 0)))
  | Paged, None => Some (reset_paged_write_byte (c + 1) v)
  | Paged, Some _ => None
  | Pom t addr, None => Some (reset_pom_write_byte t addr (c + 1) v)
  | Pom t addr, Some b => Some (reset_pom_write_bit t addr (c + 1) b (negb (v =? 0)))
  end.

(** The selected state is one for this way to access CVs. *)
Definition selects (p : Programming) (s : Space) : Prop :=
  match p with
  | Direct => mode s = DIRECT_MODE
  | Paged => mode s = PAGED_MODE
  | Pom t addr => mode s = POM_MODE /\ address_type s = t /\ pom_address s = addr
  end.

Lemma selects_same p s s' : same_target s s' -> selects p s -> selects p s'.
Proof.
  intros H. unfold selects. rewrite (same_target_mode s s' H). destruct (same_target_pom s s' H) as [-> ->]. done.
Qed.

Lemma set_mode_pom x s : space_ok s -> address_type (set_mode x s) = address_type s /\ pom_address (set_mode x s) = pom_address s.
Proof.
  intros Ok. assert (H : forall i, 1 <= i < 4 -> byte_at i (store_ (set_mode x s)) = byte_at i (store_ s)).
  { intros i Hi. unfold set_mode. cbn [store_ set_store]. apply byte_at_put_out; [done | rewrite (sp_size _ Ok); done | lia|].
    right. change (mode_offset + zlen [x]) with 1. lia. }
  assert (Et : address_type (set_mode x s) = address_type s) by (unfold address_type; by rewrite H).
  split; [done|]. unfold pom_address. rewrite Et. unfold dcc_address, be16toh. by rewrite !H.
Qed.

Lemma set_address_pom t addr s : space_ok s ->
  address_type (set_address t addr s) = t /\ dcc_address (set_address t addr s) = u16 addr /\ mode (set_address t addr s) = mode s.
Proof.
  intros Ok. pose proof (sp_size _ Ok) as Hs. unfold set_address, address_type, dcc_address, mode. cbn [store_ set_store].
  assert (Z1 : zlen (put_bytes address_type_offset [u8 (byte_of_type t)] (store_ s)) = store_size)
    by (rewrite zlen_put_bytes; rewrite ?Hs; done).
  split; [|split].
  - rewrite byte_at_put_out; [|done|by rewrite Z1|done|by left].
    change address_type_offset with (1 + 0) at 1. rewrite byte_at_put_in; [|done|by rewrite Hs|done].
    apply type_roundtrip.
  - apply be16toh_put; [done | by rewrite Z1].
  - rewrite byte_at_put_out; [|done|by rewrite Z1|done|by left].
    rewrite byte_at_put_out; [done|done|by rewrite Hs|done|by left].
Qed.

Lemma programming_selected m s s' p : space_ok s -> selected m s = Some s' -> programming m s = Some p ->
  selects p s' /\ bitOperation_ s' = match bit_of m with Some _ => true | None => false end /\
  (forall b, bit_of m = Some b -> bitNum_ s' = b).
Proof.
  intros Ok E Ep.
  assert (Ok0 : forall b, space_ok (set_bitOperation b s)) by (intros; by destruct Ok).
  assert (Hpom : forall s0, space_ok s0 -> address_type s0 = address_type s -> pom_address s0 = pom_address s ->
    selects (Pom (address_type s) (pom_address s)) (set_mode POM_MODE s0)).
  { intros s0 Ok' E1 E2. split; [by apply mode_set_mode|]. destruct (set_mode_pom POM_MODE s0 Ok') as [-> ->]. done. }
  assert (Hdir : forall x s0, space_ok s0 -> mode (set_mode x s0) = x) by (intros; by apply mode_set_mode).
  destruct m as [| | | |n|b]; cbn [selected programming bit_of] in *;
    try (injection E as <-; injection Ep as <-; split; [|by split]).
  - destruct (isMainNode_ s); [by apply Hdir | by apply Hpom].
  - by apply Hdir.
  - by apply Hpom.
  - by apply Hdir.
  - destruct (decode_address_partition n) as [[addr t]|] eqn:Ed; [|done]. simpl in E, Ep. injection E as <-. injection Ep as <-.
    assert (Ok1 : space_ok (set_mode POM_MODE (set_bitOperation false s))) by (by apply set_mode_ok).
    split; [|by split]. destruct (set_address_pom t (if is_accessory t then accy_address_binary_to_user addr else addr) _ Ok1) as (A1 & A2 & A3).
    split; [rewrite A3; by apply Hdir|]. split; [done|]. unfold pom_address. rewrite A1, A2.
    destruct (is_accessory t) eqn:Ea; [by eapply accy_roundtrip|].
    apply Z.mod_small. by eapply partition_range.
  - injection E as <-. injection Ep as <-. assert (Ok1 : space_ok (set_bitNum b (set_bitOperation true s))) by (by destruct Ok).
    split; [destruct (isMainNode_ s); [by apply Hdir | by apply Hpom]|]. split; [done|]. by intros b' [= ->].
Qed.

(** ** Calls *)

Definition accepted (m : AddressMode) (s s' : Space) : Prop :=
  selected m s = Some s' /\ service_allowed s s' = true.

Lemma read_cv_call m c len s s' : valid_mode m -> 0 <= c < 1024 -> accepted m s s' -> space_ok s ->
  read (cv_address m c) len s = eval_async_state do_cv_read 1 [value s] (set_cv (c + 1) s').
Proof.
  intros Hm Hc [E Ha] Ok. destruct (selected_frame m s s' Ok E) as (Ev & _).
  unfold read, mbind, prog_bind, get_state, put_state, modify_state. rewrite precompute_cv, E, Ha by done.
  unfold MAX_CV. rewrite (proj2 (Z.leb_le c 1023)) by lia. by rewrite Ev.
Qed.

Lemma write_cv_call m c v data s s' : valid_mode m -> 0 <= c < 1024 -> accepted m s s' -> space_ok s ->
  write (cv_address m c) (v :: data) s =
    match eval_async_state do_cv_write 1 [] (set_space_value v (set_cv (c + 1) s')) with
    | Done r s1 => Done (r, []) s1
    | Failed s1 => Failed s1
    | Crashed e => Crashed e
    end.
Proof.
  intros Hm Hc [E Ha] Ok. unfold write, mbind, prog_bind, get_state, put_state, modify_state.
  rewrite precompute_cv, E, Ha by done. unfold MAX_CV. by rewrite (proj2 (Z.leb_le c 1023)) by lia.
Qed.

(** A state in which the same address selects the same mode. *)
Lemma accepted_again m s s' t : space_ok s -> space_ok t -> accepted m s s' ->
  isMainNode_ t = isMainNode_ s -> enableServiceMode_ t = enableServiceMode_ s -> exists t', accepted m t t'.
Proof.
  intros Oks Okt [E Ha] Em Ee. unfold accepted, service_allowed in *. rewrite Ee.
  assert (Hx : forall x u, space_ok u -> mode (set_mode x u) = x) by (intros; by apply mode_set_mode).
  assert (Hb : forall b u, space_ok u -> space_ok (set_bitOperation b u)) by (intros b u []; by split).
  assert (Hn : forall b u, space_ok u -> space_ok (set_bitNum b u)) by (intros b u []; by split).
  destruct m as [| | | |n|b]; simpl in E |- *;
    try (injection E as <-; eexists; (split; [reflexivity|]); rewrite ?Em, Hx in * by auto; done).
  destruct (decode_address_partition n) as [[addr ty]|]; [|done]. injection E as <-. eexists. split; [reflexivity|].
  destruct (set_address_pom ty (if is_accessory ty then accy_address_binary_to_user addr else addr) _
    (set_mode_ok POM_MODE _ ltac:(done) (Hb false s Oks))) as (_ & _ & Es).
  destruct (set_address_pom ty (if is_accessory ty then accy_address_binary_to_user addr else addr) _
    (set_mode_ok POM_MODE _ ltac:(done) (Hb false t Okt))) as (_ & _ & Et).
  rewrite Es, Hx in Ha by auto. by rewrite Et, Hx by auto.
Qed.

(** The node and the settings stay. *)
Definition same_node (s s' : Space) : Prop :=
  isMainNode_ s' = isMainNode_ s /\ enableServiceMode_ s' = enableServiceMode_ s.

Lemma run_read p c s : selects p s -> cv s = c + 1 ->
  run_cv_read s = match read_request p c with
    | Some q => Done (Some (Invoke q)) (set_flow (WaitFrontend cv_read_done) s)
    | None => Done None (finish_async_state ERROR_UNIMPLEMENTED s)
    end.
Proof.
  intros Hp Hc. unfold run_cv_read, mbind, prog_bind, get_state. cbv beta iota. rewrite Hc.
  destruct p as [| |t addr]; simpl in Hp.
  - by rewrite Hp.
  - by rewrite Hp.
  - destruct Hp as (-> & -> & ->). done.
Qed.

Lemma update_invoke next reset s : space_ok s -> asyncState_ s = PENDING ->
  exists s', (update_bits_decomposition;; invoke next reset) s = Done (Some (Invoke reset)) s' /\
    space_ok s' /\ asyncState_ s' = PENDING /\ flow s' = WaitFrontend next /\ same_node s s'.
Proof.
  intros Ok Hp. destruct (update_bits_ok s Ok) as [E Ok']. unfold mbind, prog_bind. rewrite E.
  eexists. split; [reflexivity|]. split; [|done]. destruct Ok' as [S1 S2 S3]. by split.
Qed.

Lemma plain_invoke next reset s : space_ok s -> asyncState_ s = PENDING ->
  exists s', invoke next reset s = Done (Some (Invoke reset)) s' /\
    space_ok s' /\ asyncState_ s' = PENDING /\ flow s' = WaitFrontend next /\ same_node s s'.
Proof. intros [S1 S2 S3] Hp. eexists. split; [reflexivity|]. split; [by split | done]. Qed.

Lemma run_write p bit c v s : space_ok s -> asyncState_ s = PENDING -> selects p s -> cv s = c + 1 -> value s = v ->
  bitOperation_ s = match bit with Some _ => true | None => false end -> (forall b, bit = Some b -> bitNum_ s = b) ->
  match write_request p bit c v with
  | Some q => exists s' next, run_cv_write s = Done (Some (Invoke q)) s' /\
      space_ok s' /\ asyncState_ s' = PENDING /\ flow s' = WaitFrontend next /\ same_node s s'
  | None => run_cv_write s = Done None (finish_async_state ERROR_UNIMPLEMENTED s)
  end.
Proof.
  intros Ok Ha Hp Hc Hv Hb Hn.
  assert (Hu : forall next q, exists s' next', (update_bits_decomposition;; invoke next q) s = Done (Some (Invoke q)) s' /\
    space_ok s' /\ asyncState_ s' = PENDING /\ flow s' = WaitFrontend next' /\ same_node s s')
    by (intros next q; destruct (update_invoke next q s Ok Ha) as (s' & H); by exists s', next).
  assert (Hi : forall next q, exists s' next', invoke next q s = Done (Some (Invoke q)) s' /\
    space_ok s' /\ asyncState_ s' = PENDING /\ flow s' = WaitFrontend next' /\ same_node s s')
    by (intros next q; destruct (plain_invoke next q s Ok Ha) as (s' & H); by exists s', next).
  destruct bit as [b|]; [specialize (Hn b eq_refl)|]; destruct p as [| |t addr]; simpl in Hp |- *;
    unfold run_cv_write; unfold mbind at 1, prog_bind at 1, get_state; cbv beta iota; rewrite Hc, Hv, Hb, ?Hn.
  - rewrite Hp. apply Hi.
  - by rewrite Hp.
  - destruct Hp as (-> & -> & ->). apply Hi.
  - rewrite Hp. apply Hu.
  - rewrite Hp. apply Hu.
  - destruct Hp as (-> & -> & ->). apply Hu.
Qed.

Lemma run_done_spec next code v s : space_ok s -> is_uint8 v ->
  exists s', run_done next code v s = Done tt s' /\ space_ok s' /\ asyncState_ s' = DONE /\ asyncError_ s' = code /\
    same_node s s' /\ (next = cv_read_done -> value s' = v).
Proof.
  intros Ok Hv. destruct next; cbn [run_done].
  - eexists. split; [reflexivity|]. split; [by apply finish_async_ok|]. done.
  - pose proof (set_space_value_ok v s Hv Ok) as Ok1. destruct (update_bits_ok _ Ok1) as [E Ok2].
    unfold mbind, prog_bind, modify_state at 1. rewrite E. eexists. split; [reflexivity|].
    split; [by apply finish_async_ok|]. split; [done|]. split; [done|]. split; [done|]. intros _.
    etrans; [|by apply (value_set_value v s Ok)]. unfold value at 1. cbn [store_ finish_async_state set_flow set_asyncState set_asyncError set_store].
    pose proof (decomposition_length _ (byte_at_range value_offset _ (sp_bytes _ Ok1))) as Hl. fold (value (set_space_value v s)) in Hl.
    apply byte_at_put_out; [done | | done | by left]. rewrite (sp_size _ Ok1), zlen_app, zlen_cons, zlen_nil.
    unfold bit_value_string_offset, store_size. lia.
Qed.

(** A call that needs the programming track is made, is answered that it has to be
    made again, and the flow runs: it sends a request, and whatever the answer is
    the second call returns [result] of it; or it cannot be done. *)
Definition converses (call : op) (request : option (Request -> Request)) (result : Z -> Z -> Result) (s : Space) : Prop :=
  exists r1 s1, exec node_ call s = Done [Called r1] s1 /\ count r1 = 0 /\ error r1 = Some ERROR_AGAIN /\
  match request with
  | Some q => exists s2, exec node_ FlowStep s1 = Done [Sent (Invoke q)] s2 /\
      forall code v, is_uint8 v -> exists s3 s4, exec node_ (FrontendAnswer code v) s2 = Done [Notified] s3 /\
        exec node_ call s3 = Done [Called (result code v)] s4 /\ asyncState_ s4 = IDLE
  | None => exists s2 r2 s3, exec node_ FlowStep s1 = Done [Notified] s2 /\
      exec node_ call s2 = Done [Called r2] s3 /\ error r2 = Some ERROR_UNIMPLEMENTED /\ asyncState_ s3 = IDLE
  end.

(** The state of a call that was made. *)
Definition called (st : StartState) (s : Space) : Space :=
  set_asyncError 0 (set_asyncState PENDING (set_flow (Scheduled st) s)).

Lemma eval_idle st n data s : asyncState_ s = IDLE -> flow s = Terminated ->
  eval_async_state st n data s = Done (mkResult 0 (Some ERROR_AGAIN) data) (called st s).
Proof. intros Ea Ef. unfold eval_async_state, mbind, prog_bind, get_state. by rewrite Ea, Ef. Qed.

Lemma eval_done st n data s : asyncState_ s = DONE ->
  eval_async_state st n data s = Done (mkResult n (Some (asyncError_ s)) data) (set_asyncState IDLE s).
Proof. intros Ea. unfold eval_async_state, mbind, prog_bind, get_state. by rewrite Ea. Qed.

Lemma idle_terminated s : space_ok s -> asyncState_ s = IDLE -> flow s = Terminated.
Proof. intros [_ _ H] E. destruct (flow s) eqn:Ef; [done|..]; (assert (asyncState_ s = PENDING) by (by apply H); congruence). Qed.

Lemma called_ok st s : space_ok s -> space_ok (called st s).
Proof. intros [S1 S2 _]. by split. Qed.

Lemma u32_small_cv c : 0 <= c < 1024 -> u32 (c + 1) = c + 1.
Proof. intros. apply Z.mod_small. lia. Qed.

(** What a call has prepared before the flow starts. *)
Lemma prepared m c s s' p : space_ok s -> 0 <= c < 1024 -> accepted m s s' -> programming m s = Some p ->
  let s0 := set_cv (c + 1) s' in
  space_ok s0 /\ selects p s0 /\ cv s0 = c + 1 /\ asyncState_ s0 = asyncState_ s /\ flow s0 = flow s /\
  same_node s s0 /\ bitOperation_ s0 = match bit_of m with Some _ => true | None => false end /\
  (forall b, bit_of m = Some b -> bitNum_ s0 = b).
Proof.
  intros Ok Hc [E Ha] Ep s0. pose proof (selected_ok m s s' Ok E) as Ok'. destruct (selected_frame m s s' Ok E) as (_ & Ea & Ef & Em).
  destruct (programming_selected m s s' p Ok E Ep) as (Hsel & Hb & Hn). split; [by apply set_cv_ok|].
  split; [apply (selects_same p s'); [by apply (put_same_target cv_offset_ (htobe32 (c + 1)) s') | done]|].
  split; [unfold s0; rewrite cv_set_cv by done; by apply u32_small_cv|].
  split; [done|]. split; [done|]. split; [|done]. split; [done|]. exact (enable_selected m s s' E).
Qed.

Lemma space_exec_read a len s : exec node_ (Read a len) s = match read a len s with Done r s' => Done [Called r] s' | Failed s' => Failed s' | Crashed e => Crashed e end.
Proof. done. Qed.

Lemma space_exec_write a data s : exec node_ (Write a data) s =
  match write a data s with Done (r, ms) s' => Done ((Sent <$> ms) ++ [Called r]) s' | Failed s' => Failed s' | Crashed e => Crashed e end.
Proof. cbn [exec]. unfold mbind, prog_bind. by destruct (write a data s) as [[r ms] s'| |]. Qed.

Lemma exec_flow st s : flow s = Scheduled st -> exec node_ FlowStep s =
  match run_start st s with
  | Done m s' => Done (match m with Some m => [Sent m] | None => [Notified] end) s'
  | Failed s' => Failed s' | Crashed e => Crashed e
  end.
Proof. intros E. cbn [exec]. unfold mbind, prog_bind, get_state. by rewrite E. Qed.

Lemma exec_answer next code v s : flow s = WaitFrontend next -> exec node_ (FrontendAnswer code v) s =
  match run_done next code v s with Done _ s' => Done [Notified] s' | Failed s' => Failed s' | Crashed e => Crashed e end.
Proof. intros E. cbn [exec]. unfold mbind, prog_bind, get_state. by rewrite E. Qed.

Lemma same_node_trans s1 s2 s3 : same_node s1 s2 -> same_node s2 s3 -> same_node s1 s3.
Proof. intros [] []. split; congruence. Qed.

(** C23: Reading a CV, at any of its addresses, sends the request for this CV in
    the mode and to the decoder that the address selects; when the programming
    track has answered, the repeated call returns the value and the error of the
    answer, and the space is ready for the next call.  Reading in paged mode is
    not implemented, and says so. *)
Theorem cv_read_returns_value m c len s s' p : reaches node_ s -> asyncState_ s = IDLE ->
  valid_mode m -> 0 <= c < 1024 -> accepted m s s' -> programming m s = Some p ->
  converses (Read (cv_address m c) len) (read_request p c) (fun code v => mkResult 1 (Some code) [v]) s.
Proof.
  intros Hs Hi Hm Hc Hacc Hp. apply reaches_ok in Hs as Ok.
  destruct (prepared m c s s' p Ok Hc Hacc Hp) as (Ok0 & Hsel & Hcv & Ea & Ef & Hnode & _). set (s0 := set_cv (c + 1) s') in *.
  assert (Hcall : forall t t', space_ok t -> accepted m t t' -> asyncState_ t = DONE ->
    exists t1, exec node_ (Read (cv_address m c) len) t = Done [Called (mkResult 1 (Some (asyncError_ t)) [value t])] t1 /\ asyncState_ t1 = IDLE).
  { intros t t' Okt Ht Hd. rewrite space_exec_read, (read_cv_call m c len t t') by done.
    destruct (selected_frame m t t' Okt (proj1 Ht)) as (_ & Et & _).
    rewrite eval_done by (rewrite <- Hd; exact Et). exists (set_asyncState IDLE (set_cv (c + 1) t')).
    change (asyncError_ (set_cv (c + 1) t')) with (asyncError_ t'). rewrite (selected_error m t t') by apply Ht.
    split; reflexivity. }
  exists (mkResult 0 (Some ERROR_AGAIN) [value s]), (called do_cv_read s0).
  split.
  { rewrite space_exec_read, (read_cv_call m c len s s') by done. fold s0.
    rewrite eval_idle; [done | congruence | rewrite Ef; by apply idle_terminated]. }
  split; [done|]. split; [done|]. pose proof (called_ok do_cv_read s0 Ok0) as Ok1.
  pose proof (run_read p c (called do_cv_read s0) Hsel Hcv) as Hrun.
  pose proof (exec_flow do_cv_read (called do_cv_read s0) eq_refl) as Hexec. cbn [run_start] in Hexec. rewrite Hrun in Hexec.
  destruct (read_request p c) as [q|].
  - eexists. split; [exact Hexec|]. intros code v Hv. set (s2 := set_flow _ _) in *.
    assert (Ok2 : space_ok s2) by (destruct Ok1; by split).
    destruct (run_done_spec cv_read_done code v s2 Ok2 Hv) as (s3 & E3 & Ok3 & Hd3 & He3 & Hn3 & Hv3).
    assert (Hn : same_node s s3) by (eapply same_node_trans; [exact Hnode | exact Hn3]).
    destruct (accepted_again m s s' s3 Ok Ok3 Hacc) as [t' Ht']; [apply Hn..|].
    destruct (Hcall s3 t' Ok3 Ht' Hd3) as (s4 & E4 & Hd4). exists s3, s4.
    split; [by rewrite (exec_answer cv_read_done), E3|]. rewrite E4, He3, (Hv3 eq_refl). done.
  - set (s2 := finish_async_state ERROR_UNIMPLEMENTED (called do_cv_read s0)) in *.
    assert (Ok2 : space_ok s2) by (by apply finish_async_ok).
    destruct (accepted_again m s s' s2 Ok Ok2 Hacc) as [t' Ht']; [apply Hnode..|].
    destruct (Hcall s2 t' Ok2 Ht' eq_refl) as (s3 & E3 & Hd3). exists s2. eexists. exists s3.
    split; [exact Hexec|]. split; [exact E3|]. done.
Qed.

(** Writing a CV, at any of its addresses, sends the request that writes this
    value, or the bit that the address names, in the mode and to the decoder that
    the address selects; when the programming track has answered, the repeated
    call returns that one byte was written, with the error of the answer, and the
    space is ready for the next call. *)
Theorem cv_write_is_requested m c v data s s' p : reaches node_ s -> asyncState_ s = IDLE ->
  valid_mode m -> 0 <= c < 1024 -> is_uint8 v -> accepted m s s' -> programming m s = Some p ->
  converses (Write (cv_address m c) (v :: data)) (write_request p (bit_of m) c v)
    (fun code _ => mkResult 1 (Some code) []) s.
Proof.
  intros Hs Hi Hm Hc Hv Hacc Hp. apply reaches_ok in Hs as Ok.
  destruct (prepared m c s s' p Ok Hc Hacc Hp) as (Ok' & Hsel' & Hcv' & Ea & Ef & Hnode & Hb & Hn).
  set (s0 := set_space_value v (set_cv (c + 1) s')) in *.
  assert (Ok0 : space_ok s0) by (by apply set_space_value_ok).
  assert (Hsel : selects p s0) by (eapply selects_same, Hsel'; by apply (put_same_target value_offset [v])).
  assert (Hcv : cv s0 = c + 1).
  { rewrite <- Hcv'. unfold cv, be32toh, be16toh, s0, set_space_value. cbn [store_ set_store].
    rewrite !byte_at_put_out by (first [done | rewrite (sp_size _ Ok'); done | by left]). done. }
  assert (Hcall : forall t t', space_ok t -> accepted m t t' -> asyncState_ t = DONE ->
    exists t1, exec node_ (Write (cv_address m c) (v :: data)) t = Done [Called (mkResult 1 (Some (asyncError_ t)) [])] t1 /\ asyncState_ t1 = IDLE).
  { intros t t' Okt Ht Hd. rewrite space_exec_write, (write_cv_call m c v data t t') by done.
    destruct (selected_frame m t t' Okt (proj1 Ht)) as (_ & Et & _).
    rewrite eval_done by (rewrite <- Hd; exact Et). exists (set_asyncState IDLE (set_space_value v (set_cv (c + 1) t'))).
    change (asyncError_ (set_space_value v (set_cv (c + 1) t'))) with (asyncError_ t'). rewrite (selected_error m t t') by apply Ht.
    split; reflexivity. }
  exists (mkResult 0 (Some ERROR_AGAIN) []), (called do_cv_write s0). split.
  { rewrite space_exec_write, (write_cv_call m c v data s s') by done. fold s0.
    rewrite eval_idle; [done | rewrite <- Hi; exact Ea |]. rewrite <- (idle_terminated s Ok Hi). exact Ef. }
  split; [done|]. split; [done|]. pose proof (called_ok do_cv_write s0 Ok0) as Ok1.
  pose proof (run_write p (bit_of m) c v (called do_cv_write s0) Ok1 eq_refl Hsel Hcv (value_set_value v _ Ok') Hb Hn) as Hrun.
  pose proof (exec_flow do_cv_write (called do_cv_write s0) eq_refl) as Hexec. cbn [run_start] in Hexec.
  destruct (write_request p (bit_of m) c v) as [q|].
  - destruct Hrun as (s2 & next & Erun & Ok2 & Ha2 & Hf2 & Hn2). rewrite Erun in Hexec.
    exists s2. split; [exact Hexec|]. intros code w Hw.
    destruct (run_done_spec next code w s2 Ok2 Hw) as (s3 & E3 & Ok3 & Hd3 & He3 & Hn3 & _).
    assert (Hnn : same_node s s3) by (eapply same_node_trans; [exact Hnode | eapply same_node_trans; [exact Hn2 | exact Hn3]]).
    destruct (accepted_again m s s' s3 Ok Ok3 Hacc) as [t' Ht']; [apply Hnn..|].
    destruct (Hcall s3 t' Ok3 Ht' Hd3) as (s4 & E4 & Hd4). exists s3, s4.
    split; [by rewrite (exec_answer next), E3|]. by rewrite E4, He3.
  - rewrite Hrun in Hexec. set (s2 := finish_async_state ERROR_UNIMPLEMENTED (called do_cv_write s0)) in *.
    assert (Ok2 : space_ok s2) by (by apply finish_async_ok).
    destruct (accepted_again m s s' s2 Ok Ok2 Hacc) as [t' Ht']; [apply Hnode..|].
    destruct (Hcall s2 t' Ok2 Ht' eq_refl) as (s3 & E3 & Hd3). exists s2. eexists. exists s3.
    split; [exact Hexec|]. split; [exact E3|]. done.
Qed.

(** ** The field for bits *)

Definition unscheduled {A} (m : prog Space A) : Prop :=
  forall t r t', flow t <> Scheduled do_bit_write -> m t = Done r t' -> flow t' <> Scheduled do_bit_write.

Lemma unscheduled_bind {A B} (m : prog Space A) (k : A -> prog Space B) :
  unscheduled m -> (forall a, unscheduled (k a)) -> unscheduled (m ≫= k).
Proof. intros Hm Hk t r t' Ht (a & t1 & E1 & E2)%bind_Done. by eapply Hk, E2; eapply Hm, E1. Qed.

Lemma unscheduled_ret {A} (x : A) : unscheduled (mret x : prog Space A).
Proof. by intros t r t' Ht [= _ <-]. Qed.

Lemma unscheduled_get : unscheduled get_state.
Proof. by intros t r t' Ht [= _ <-]. Qed.

Lemma unscheduled_modify f : (forall t, flow t <> Scheduled do_bit_write -> flow (f t) <> Scheduled do_bit_write) -> unscheduled (modify_state f).
Proof. intros Hf t r t' Ht [= _ <-]. by apply Hf. Qed.

Lemma unscheduled_eval st n data : st <> do_bit_write -> unscheduled (eval_async_state st n data).
Proof.
  intros Hst t r t' Ht. unfold eval_async_state, mbind, prog_bind, get_state, put_state, mret, prog_ret, crashing.
  destruct (asyncState_ t); [destruct (flow t) | |]; try done; intros [= _ <-]; simpl; congruence.
Qed.

Lemma unscheduled_copy_in ofs l : unscheduled (copy_in ofs l).
Proof. unfold copy_in. destruct (_ && _); [by apply unscheduled_modify | done]. Qed.

Lemma unscheduled_field d n : unscheduled (field_written (Z.ldiff d 3) n).
Proof.
  unfold field_written. destruct (_ =? _); [apply unscheduled_bind; [by apply unscheduled_eval | intros; apply unscheduled_ret]|].
  destruct (Z.eqb_spec (Z.ldiff d 3) (MIN_ADDRESS + bit_write_value_offset)) as [E|_].
  - exfalso. apply (f_equal (fun x => Z.testbit x 1)) in E. rewrite Z.ldiff_spec in E.
    change (Z.testbit 3 1) with true in E. rewrite andb_false_r in E. by vm_compute in E.
  - apply unscheduled_bind; [apply unscheduled_get|]. intros s. repeat case_match; apply unscheduled_ret.
Qed.

Lemma unscheduled_precompute {A} a (k : Z + option Z -> prog Space A) : (forall x, unscheduled (k x)) ->
  unscheduled (s ← get_state; let '(x, s) := precompute_address a s in put_state s;; k x).
Proof.
  intros Hk t r t' Ht. unfold mbind at 1, prog_bind at 1, get_state. cbv beta iota.
  destruct (precompute_flow a t) as [_ Ef]. destruct (precompute_address a t) as [x s1]. cbn [snd] in Ef.
  unfold mbind, prog_bind, put_state. apply Hk. by rewrite Ef.
Qed.

Lemma unscheduled_write d data : unscheduled (write d data).
Proof.
  unfold write. apply unscheduled_precompute. intros [c|e]; [|apply unscheduled_ret]. destruct (c <=? MAX_CV).
  - apply unscheduled_bind; [by apply unscheduled_modify|]. intros _. destruct data as [|v data]; [done|].
    apply unscheduled_bind; [by apply unscheduled_modify|]. intros _.
    apply unscheduled_bind; [by apply unscheduled_eval | intros; apply unscheduled_ret].
  - destruct (_ || _); [apply unscheduled_ret|].
    apply unscheduled_bind; [apply unscheduled_copy_in | intros; apply unscheduled_field].
Qed.

Lemma unscheduled_read a n : unscheduled (read a n).
Proof.
  unfold read. apply unscheduled_precompute. intros [c|e]; [|apply unscheduled_ret]. destruct (c <=? MAX_CV).
  - apply unscheduled_bind; [apply unscheduled_get|]. intros s. apply unscheduled_bind; [by apply unscheduled_modify|].
    intros _. by apply unscheduled_eval.
  - destruct (_ || _); [apply unscheduled_ret|]. apply unscheduled_bind.
    + unfold copy_out. apply unscheduled_bind; [apply unscheduled_get|]. intros s. destruct (_ && _); [apply unscheduled_ret | done].
    + intros l. destruct (_ && _); [by apply unscheduled_eval | apply unscheduled_ret].
Qed.

Lemma unscheduled_update : unscheduled update_bits_decomposition.
Proof. unfold update_bits_decomposition. apply unscheduled_bind; [apply unscheduled_get | intros; apply unscheduled_copy_in]. Qed.

Lemma unscheduled_start st : unscheduled (run_start st).
Proof.
  assert (Hi : forall next q, unscheduled (invoke next q))
    by (intros; apply unscheduled_bind; [by apply unscheduled_modify | intros; apply unscheduled_ret]).
  assert (Hu : forall next q, unscheduled (update_bits_decomposition;; invoke next q))
    by (intros; apply unscheduled_bind; [apply unscheduled_update | intros; apply Hi]).
  assert (Hf : forall code, unscheduled (finish code))
    by (intros; apply unscheduled_bind; [by apply unscheduled_modify | intros; apply unscheduled_ret]).
  destruct st; cbn [run_start]; [unfold run_cv_write | unfold run_bit_write | unfold run_cv_read];
    (apply unscheduled_bind; [apply unscheduled_get|]); intros s;
    repeat (match goal with |- context [if ?b then _ else _] => destruct b end || match goal with |- context [match find_unique_bit ?x with _ => _ end] => destruct (find_unique_bit x) end);
    first [apply Hi | apply Hu | apply Hf].
Qed.

(** The address that [write] compares with the field for bits has its low two
    bits clear, and the address of the field has not: no write ever starts
    [do_bit_write]. *)
Theorem bit_field_never_written s : reaches node_ s -> flow s <> Scheduled do_bit_write.
Proof.
  induction 1 as [error main bitop bit|o s out s' Hs IH Ha E]; [done|].
  assert (H : unscheduled (exec node_ o)); [|by apply (H s out s')]. clear.
  destruct o as [n|b|d data|a len| | |code v]; cbn [exec].
  - intros t r t' Ht. unfold mbind, prog_bind, get_state, put_state, mret, prog_ret.
    destruct (set_node node_ n t) as [b s1] eqn:En. intros [= _ <-].
    replace s1 with (snd (set_node node_ n t)) by (by rewrite En). unfold set_node. by repeat case_match.
  - apply unscheduled_bind; [by apply unscheduled_modify | intros; apply unscheduled_ret].
  - apply unscheduled_bind; [apply unscheduled_write | intros []; apply unscheduled_ret].
  - apply unscheduled_bind; [apply unscheduled_read | intros; apply unscheduled_ret].
  - apply unscheduled_bind; [by apply unscheduled_modify | intros; apply unscheduled_ret].
  - apply unscheduled_bind; [apply unscheduled_get|]. intros s. destruct (flow s); try apply unscheduled_ret.
    apply unscheduled_bind; [apply unscheduled_start | intros; apply unscheduled_ret].
  - apply unscheduled_bind; [apply unscheduled_get|]. intros s. destruct (flow s); try apply unscheduled_ret.
    apply unscheduled_bind; [|intros; apply unscheduled_ret]. destruct next; cbn [run_done]; [by apply unscheduled_modify|].
    apply unscheduled_bind; [by apply unscheduled_modify|]. intros _.
    apply unscheduled_bind; [apply unscheduled_update|]. intros _. by apply unscheduled_modify.
Qed.

End Values.
