(* ===== verification/Witnesses.v ===== *)
(** Concrete instances of the theorems: small programs, machines and
    configurations at which their hypotheses hold. *)

From S2P Require Import Prelude Bytecode Variables VMState VM Safety AST Driver Codegen Semantics Simulation CallSim ExprSim CmdSim Declarations Program FindProtocol Olcb Runner.

(** ** The machine *)

(** A factory that creates variables which always read 0. *)
#[local] Instance zero_variables : VariableFactory unit unit := {
  create_variable := fun _ w => inl (Some tt, w);
  var_read := fun _ _ w => (0, false, w);
  var_write := fun _ _ _ w => (false, w);
  var_max_state := fun _ _ => 1
}.

#[local] Instance zero_variables_ok : VariableFactoryOk unit unit zero_variables.
Proof.
  split.
  - intros h arg w. unfold is_int32, INT_MIN, INT_MAX. simpl. lia.
  - intros r w c. simpl. intros [=].
Defined.

Definition new_machine : @VM unit unit := VM_clear (VM_new tt).

(** The machine [s] with [code] as block [b]. *)
Definition loaded_machine (b : Z) (code : list Z) (s : @VM unit unit) : @VM unit unit :=
  match set_block_code b code s with
  | Done _ s => s
  | _ => s
  end.

Definition int_type : TypeSpecifier := mkTypeSpecifier DATATYPE_INT.

(** [exported bool light; int a = 5; a = a + 2;] *)
Definition sample_commands : list Command :=
  [ IndirectVarCreate 7 0 DATATYPE_BOOL (-1) "light" 0;
    LocalVarCreate "a" int_type 1 (IntCmd (IntConstant 5));
    NumericAssignment (LocalVariableReference "a" 1)
      (IntBinaryExpression NUMERIC_PLUS (IntVariable (LocalVariableReference "a" 1)) (IntConstant 2)) ].

Definition sample_driver : Driver := set_commands sample_commands Driver_new.
Definition sample_code : list Z := fst (Driver_serialize [] sample_driver).
Definition sample_machine : @VM unit unit := loaded_machine 0 sample_code new_machine.

Lemma sample_commands_wf : Forall wf_cmd sample_commands.
Proof.
  unfold sample_commands. repeat constructor; unfold wf_cmd, wf_int, wf_ref, is_int32, INT_MIN, INT_MAX; try lia.
Defined.

Lemma sample_preamble_wf : Forall wf_preamble sample_commands.
Proof.
  unfold sample_commands. repeat constructor; unfold is_int32, INT_MIN, INT_MAX; try lia.
Defined.

Lemma compiled_program_runs_witness :
  let s := set_preamble false (VM_clear sample_machine) in
  let meaning := run_commands (symbol_table_ (global_context_ sample_driver)) 0 sample_commands (set_block_num 0 (data s)) in
  runs_as (fun fuel => execute_block fuel 0 s) meaning /\
  (forallb call_free sample_commands = true -> meaning <> Stuck).
Proof.
  apply (compiled_program_runs sample_driver 0 new_machine sample_machine);
    [reflexivity|exact sample_commands_wf|lia|vm_compute; reflexivity].
Defined.

Lemma compiled_preamble_creates_witness :
  let s := set_preamble true (VM_clear sample_machine) in
  runs_as (fun fuel => execute_block fuel 0 s)
    (run_preamble sample_commands (set_block_num 0 (data s))).
Proof.
  apply (compiled_preamble_creates sample_driver 0 new_machine sample_machine);
    [exact sample_preamble_wf|lia|vm_compute; reflexivity].
Defined.

Lemma varint_roundtrip_witness :
  let s := mkVM (data new_machine) (mkControl (Some (append_varint [5] (-1000) ++ [9])) 1 0 []) in
  parse_varint s = Done (-1000) (adv 2 s).
Proof.
  intros s.
  assert (H : is_int32 (-1000)) by (unfold is_int32, INT_MIN, INT_MAX; lia).
  exact (proj1 (varint_roundtrip [5] (-1000) [9] s H eq_refl eq_refl)).
Defined.

(** ** The runner *)

(** A bus on which nobody answers. *)
#[local] Instance quiet_bus : EventBus unit := {
  bit_query_producer := fun _ _ b => ([], b);
  bit_query_consumer := fun _ _ b => ([], b);
  bit_report := fun _ _ _ b => ([], b);
  register_range := fun _ _ b => b;
  exchange := fun _ b => ([], b)
}.

Definition any_text (s : string) : string := s.

(** A parser that knows one program. *)
Definition parse_sample (text : string) (d : Driver) : Z * Driver :=
  (0, set_commands sample_commands d).

Definition sample_block : LogicBlock :=
  mkBlock "" 1 [mkImport "" 10 11; mkImport "signal" 12 13] "exported bool light; ..." "".

Definition sample_world : OlcbWorld (B := unit) := mkWorld [sample_block] tt ∅ 0.

Definition sample_runner : Runner (B := unit) :=
  mkRunner Driver_new (VM_clear (VM_new sample_world)) [false] None ∅.

Abbreviation compile_sample :=
  (compile_impl any_text any_text (fun z => z) parse_sample 100).

Definition state_of {S A} (s : S) (o : option (outcome S A)) : S :=
  match o with
  | Some (Done _ s) => s
  | _ => s
  end.

Definition compiled_runner : Runner (B := unit) := state_of sample_runner (compile_sample sample_runner).

Definition stepped_runner : Runner (B := unit) :=
  state_of compiled_runner (single_step any_text any_text 100 compiled_runner).

Lemma compiled_runner_done : compile_sample sample_runner = Some (Done tt compiled_runner).
Proof. vm_compute. reflexivity. Defined.

Lemma parsed_sample i bl d :
  parsed parse_sample i bl 0 d -> in_function_ d = false /\ commands_ d = sample_commands.
Proof.
  intros (d0 & He & Hc & Hf & Hg & E). unfold parse_file, parse_sample in E.
  destruct (negb _); [discriminate|]. injection E as <-. split; [exact Hf|reflexivity].
Defined.

Lemma parsed_sample_wf i bl d :
  parsed parse_sample i bl 0 d -> in_function_ d = false /\ Forall wf_cmd (commands_ d).
Proof. intros [Hf ->]%parsed_sample. split; [exact Hf|exact sample_commands_wf]. Defined.

Lemma enabled_block_runs_witness :
  let vm := vm_ stepped_runner in
  let prepared := set_vm_block_num 0 (set_preamble false (VM_clear vm)) in
  exists d, parsed parse_sample 0 sample_block 0 d /\
    let meaning := run_commands (F := OlcbVariableFactory any_text) (symbol_table_ (global_context_ d)) 0
                     (commands_ d) (data prepared) in
    runs_as (fun fuel => execute_block (F := OlcbVariableFactory any_text) fuel 0 prepared) meaning /\
    (forallb call_free (commands_ d) = true -> meaning <> Stuck).
Proof.
  apply (enabled_block_runs any_text any_text (fun z => z) parse_sample 100
           sample_runner compiled_runner 0 sample_block (vm_ stepped_runner)).
  - exact compiled_runner_done.
  - reflexivity.
  - vm_compute. reflexivity.
  - lia.
  - vm_compute. reflexivity.
  - apply parsed_sample_wf.
Defined.

Lemma compile_impl_result_witness :
  compiled any_text (fun z => z) parse_sample 0 sample_block compiled_runner.
Proof.
  apply (compile_impl_result any_text any_text (fun z => z) parse_sample 100
           sample_runner compiled_runner 0 sample_block).
  - exact compiled_runner_done.
  - reflexivity.
Defined.

Lemma compile_impl_terminates_witness :
  settles (fun fuel => compile_impl any_text any_text (fun z => z) parse_sample fuel sample_runner).
Proof.
  apply (compile_impl_terminates any_text any_text (fun z => z) parse_sample sample_runner).
  - vm_compute. lia.
  - intros i bl d _ [_ ->]%parsed_sample. exact sample_preamble_wf.
Defined.

(** A round in which the block fails: its variable was never created. *)
Definition broken_runner : Runner (B := unit) :=
  set_vm (VM_clear (vm_ (set_vm (mkVM (set_external_variables ∅ (data (vm_ compiled_runner)))
                                   (ctl (vm_ compiled_runner))) compiled_runner))) compiled_runner.

Lemma single_step_isolates_witness :
  let s' := state_of broken_runner (single_step any_text any_text 100 broken_runner) in
  logic_blocks_ s' = [false] /\
  exists si, for_blocks (step_block any_text any_text 100) 0 0 broken_runner = Some (Done tt si) /\
    view 0 si = view 0 broken_runner /\ blocks_ (data (vm_ si)) = blocks_ (data (vm_ broken_runner)) /\
    turn_ends any_text any_text 100 0 si s'.
Proof.
  intros s'. split; [vm_compute; reflexivity|].
  apply (single_step_isolates any_text any_text 100 broken_runner s' 0).
  - vm_compute. reflexivity.
  - vm_compute. lia.
Defined.

Lemma stopped_runner_is_quiet_witness :
  let t := fresh (dom (timers_ sample_runner)) in
  let run l := run_events any_text any_text (fun z => z) parse_sample 100 l in
  let s := state_of sample_runner (run [CompileRequested; StartRunning; Timeout t] sample_runner) in
  let s' := state_of s (run [Timeout t] (stop_running s)) in
  vm_ s' = vm_ s /\ logic_blocks_ s' = logic_blocks_ s.
Proof.
  intros t run s s'.
  apply (stopped_runner_is_quiet any_text any_text (fun z => z) parse_sample 100
           [CompileRequested; StartRunning; Timeout t] [Timeout t] sample_runner s s').
  - reflexivity.
  - reflexivity.
  - vm_compute. reflexivity.
  - repeat constructor.
  - vm_compute. reflexivity.
Defined.

(** ** Memory safety *)

(** [P] holds of all states of a run that ends within [n] instructions. *)
Fixpoint always (n : nat) (P : @VM unit unit -> bool) (s : @VM unit unit) : bool :=
  match n with
  | O => false
  | S n =>
      P s && match step s with
             | Done true s => always n P s
             | _ => true
             end
  end.

Lemma always_steps n P s s' : always n P s = true -> steps s s' -> P s' = true.
Proof.
  revert s. induction n as [|n IH]; intros s E; [discriminate|]. simpl in E.
  apply andb_prop in E as [HP E]. intros Hs. inversion Hs as [|? s2 ? _ Hstep H]; subst.
  - exact HP.
  - rewrite Hstep in E. by apply (IH s2).
Defined.

(** The next instruction is no [CREATE_VAR] of a variable with references. *)
Definition creation_safe (s : @VM unit unit) : bool :=
  match fetch_insn s with
  | Done b s1 =>
      if bool_decide (b = opcode_byte CREATE_VAR) then
        match parse_varint s1 with
        | Done g _ =>
            match external_variables_ (data s) !! u32 g with
            | Some l => forallb (fun r => match ref_var r with VarAt l' => negb (l' =? l)%nat | _ => true end)
                          (variable_stack_ (data s))
            | None => true
            end
        | _ => true
        end
      else true
  | _ => true
  end.

Lemma creation_safe_sound s g : creation_safe s = true -> creates_guid s g -> unreferenced g (data s).
Proof.
  intros H (s1 & s2 & E1 & E2) l El. unfold creation_safe in H. rewrite E1, bool_decide_true, E2, El in H by reflexivity.
  rewrite forallb_forall in H. apply List.Forall_forall. intros r Hr Er. specialize (H r Hr). rewrite Er in H.
  rewrite Nat.eqb_refl in H. discriminate.
Defined.

(** Creates the static variable 7 and takes a reference to it, creates the
    variable 9 meanwhile, and writes to the first one. *)
Definition static_code : list Z :=
  append_varint (append_opcode [] PUSH_CONSTANT) 4
  ++ append_varint (append_opcode [] CREATE_STATIC_VAR) 7
  ++ append_varint (append_varint (append_opcode [] CREATE_VAR) 9) (-1)
  ++ append_opcode (append_opcode (append_opcode [] POP_OP) INDIRECT_STORE) TERMINATE.

Definition static_machine : @VM unit unit :=
  mkVM (data new_machine) (mkControl (Some static_code) 0 0 [mkEnv 0 0 0]).

Definition static_final : @VM unit unit := state_of static_machine (execute 100 static_machine).

Lemma static_final_done : execute 100 static_machine = Some (Done tt static_final).
Proof. vm_compute. reflexivity. Defined.

Lemma new_machine_memory : memory_ok (data new_machine).
Proof.
  split; [split|constructor|constructor]; simpl; intros *; rewrite ?lookup_empty.
  - discriminate.
  - discriminate.
  - discriminate.
  - intros Hl. by apply elem_of_nil in Hl.
  - intros [o Ho]. discriminate.
  - discriminate.
Defined.

Lemma execute_memory_safe_witness :
  heap_ (data static_final) !! 0%nat = Some (StaticObj (mkStatic 4)) /\
  external_variables_ (data static_final) !! 9 = Some 1%nat /\ variable_stack_ (data static_final) <> [] /\
  memory_ok (data static_final).
Proof.
  split; [vm_compute; reflexivity|]. split; [vm_compute; reflexivity|]. split; [vm_compute; discriminate|].
  apply (execute_memory_safe 100 static_machine (Done tt static_final)).
  - exact new_machine_memory.
  - by eexists.
  - intros s' g Hs Hc. apply creation_safe_sound; [|exact Hc].
    apply (always_steps 10 creation_safe static_machine); [vm_compute; reflexivity|exact Hs].
  - exact static_final_done.
Defined.

(** ** The driver *)

Definition int_driver : Driver := set_decl LOCAL_VAR int_type Driver_new.
Definition somewhere : location := mkLocation 1 1 1 2.

Lemma Driver_new_context_ok : context_ok (current_context int_driver).
Proof.
  split; simpl.
  - intros name s. rewrite lookup_empty. discriminate.
  - intros n1 n2 s1 s2. rewrite lookup_empty. discriminate.
  - unfold INT_MAX. lia.
Defined.

Definition declared_a : option Command * Driver :=
  match declare_variable "a" somewhere PolyVoid somewhere int_driver with
  | Done c d => (c, d)
  | _ => (None, int_driver)
  end.

Lemma declare_variable_allocates_witness :
  match declared_a with
  | (Some c, d') => creates c 0 /\ context_ok (current_context d')
  | _ => False
  end.
Proof.
  destruct declared_a as [[c|] d'] eqn:E; [|vm_compute in E; discriminate].
  pose proof (declare_variable_allocates "a" somewhere PolyVoid somewhere int_driver c d'
    Driver_new_context_ok ltac:(vm_compute; reflexivity)) as Hd.
  unfold declared_a in E.
  destruct (declare_variable "a" somewhere PolyVoid somewhere int_driver) as [c0 d0| |] eqn:E0;
    try discriminate.
  injection E as -> ->. specialize (Hd eq_refl). split; apply Hd.
Defined.

(** [void f(int x)] is declared. *)
Definition f_symbol : Symbol :=
  set_args [mkFunctionArgument "x" int_type LOCAL_VAR] (set_symbol_type FUNCTION Symbol_new).

Definition f_driver : Driver :=
  set_global_context (mkContext {[ "f" := f_symbol ]} 0) Driver_new.

Lemma get_function_call_checks_witness :
  get_function_call "f" somewhere (Some [mkLocated somewhere (PolyInt (IntConstant 3))]) false f_driver
  = Done (Some (mkFunctionCall 0 "f" "f" [PolyInt (IntConstant 3)] false)) f_driver.
Proof.
  apply (proj1 (get_function_call_checks "f" somewhere
                  [mkLocated somewhere (PolyInt (IntConstant 3))] false f_driver)).
  repeat constructor.
Defined.

(** A function [f] of the toplevel; inside of it, a variable that is not declared,
    a variable declared twice, and a call of [f]. *)
Definition with_function : Driver :=
  match allocate_symbol "f" somewhere FUNCTION Driver_new with
  | Done (Some s) d => match enter_function (mkTypeSpecifier DATATYPE_VOID) d with Done _ d => d | _ => d end
  | Done None d => d
  | _ => Driver_new
  end.

Definition with_variable : Driver :=
  match allocate_variable "a" somewhere VARIABLE with_function with Done _ d => d | _ => with_function end.

Lemma rejections_are_reported_witness :
  (exists msg d', get_variable "x" somewhere DATATYPE_INT with_variable = Done None d' /\ msg <> "" /\
     error_output_ d' = error_output_ with_variable +:+ msg /\ fst (parse_file (fun d => (0, d)) d') <> 0) /\
  (exists msg d', allocate_variable "a" somewhere VARIABLE with_variable = Done None d' /\ msg <> "" /\
     error_output_ d' = error_output_ with_variable +:+ msg) /\
  (exists s, find_function "f" with_variable = Done (Some s) with_variable).
Proof.
  destruct rejections_are_reported as (_ & Ha & _ & Hv & _ & _ & _ & _ & Hf & Hp). split; [|split].
  - destruct (get_variable "x" somewhere DATATYPE_INT with_variable) as [[r|] d'| |] eqn:E;
      [by vm_compute in E| |by vm_compute in E..].
    destruct (Hv _ _ _ _ _ _ E) as (msg & H1 & H2). exists msg, d'. do 3 (split; [done|]).
    intros [_ H]%Hp. revert H1. cbn [snd] in H. rewrite H in H2. intros H1. by destruct (error_output_ with_variable), msg.
  - destruct (allocate_variable "a" somewhere VARIABLE with_variable) as [[r|] d'| |] eqn:E;
      [by vm_compute in E| |by vm_compute in E..].
    destruct (Ha _ _ _ _ _ _ E) as (msg & H1 & H2). by exists msg, d'.
  - destruct (find_symbol "f" with_variable) as [s|] eqn:E; [|by vm_compute in E]. exists s. apply Hf; [|done|].
    + intros _ name s' Hs'%elem_of_map_to_list.
      assert (Hall : forallb (fun p => negb (is_function (snd p))) (map_to_list (symbol_table_ (current_context with_variable))) = true)
        by (vm_compute; reflexivity).
      rewrite forallb_forall in Hall. apply list_elem_of_In, Hall in Hs'. by apply negb_true_iff in Hs'.
    + vm_compute in E. injection E as <-. reflexivity.
Defined.

(** ** The train search protocol *)

Import TrainDbDefs.

(** [EVENT_IS_TRAIN]. *)
Definition is_train : Z := 0x0101000000000303.

Definition engine : TrainDbEntry := ExternalTrainDbEntry "Re 460" 460 DCC_128.

Lemma address_search_finds_prefixes_witness :
  let event := 0x090099FFFFFF4620 in
  match_query_to_node is_train initial_defaults event engine <> 0 <->
  fst (query_to_address initial_defaults event) = u32 (get_legacy_address engine) \/
  fst (query_to_address initial_defaults event) <> 0 /\
  exists k, 1 <= k /\
    u32 (get_legacy_address engine) / 10 ^ k = fst (query_to_address initial_defaults event).
Proof.
  intros event.
  apply (address_search_finds_prefixes is_train initial_defaults event engine);
    vm_compute; solve [reflexivity | discriminate].
Defined.

Lemma address_query_roundtrip_witness :
  exists query, address_to_query 460 true DCC_128 = Some query /\
    is_find_event query = true /\ query_to_address initial_defaults query = (460, DCC_128).
Proof.
  pose proof (address_query_roundtrip initial_defaults 460 true DCC_128 ltac:(lia) ltac:(vm_compute; split; congruence)) as H.
  destruct (address_to_query 460 true DCC_128) as [query|]; [|exfalso; lia]. exists query. split; [done|apply H].
Defined.

Lemma typed_digits_roundtrip_witness :
  is_find_event (input_to_search is_train "460") = true /\
  fst (query_to_address initial_defaults (input_to_search is_train "460")) = 460.
Proof.
  apply (typed_digits_roundtrip is_train initial_defaults "460").
  - repeat constructor.
  - vm_compute; split; congruence.
Defined.

(** ** OpenLCB variables *)

Definition light_request : VariableCreationRequest :=
  mkRequest 0 TYPE_BOOL 2 "light" 0 0.

Definition created_light : option nat * OlcbWorld (B := unit) :=
  match OlcbVariableFactory_create_variable any_text light_request sample_world with
  | inl r => r
  | inr _ => (None, sample_world)
  end.

Lemma created_light_done :
  OlcbVariableFactory_create_variable any_text light_request sample_world
  = inl (Some 0%nat, snd created_light).
Proof. vm_compute. reflexivity. Defined.

Lemma create_variable_persistent_witness :
  exists h w3, OlcbVariableFactory_create_variable any_text light_request (snd created_light)
               = inl (Some h, w3) /\ cfg_ w3 = cfg_ (snd created_light).
Proof.
  destruct (create_variable_persistent any_text light_request sample_world 0 (snd created_light)
              created_light_done eq_refl) as (v & Hv & H).
  destruct (H (snd created_light) eq_refl) as (h & w3 & v2 & E & Hc & _). by exists h, w3.
Defined.

Lemma int_variable_state_in_range_witness :
  let run v op := match op with
                  | inl m => fst (handle_message v m)
                  | inr value => snd (fst (OlcbIntVariable_write v 0 value tt))
                  end in
  let v := fold_left run [inl (EventReport 103); inr 4; inr 9] (fst (OlcbIntVariable_new 100 5 tt)) in
  OlcbIntVariable_read v 0 = 4 /\ 0 <= OlcbIntVariable_read v 0 <= OlcbIntVariable_max_state v.
Proof.
  intros run v. split; [reflexivity|].
  apply (int_variable_state_in_range 100 5 tt [inl (EventReport 103); inr 4; inr 9] (fun _ => tt)); lia.
Defined.

