(* ===== verification/AutomataWitnesses.v ===== *)
(** Concrete instances of the theorems on automata: a node with one byte for
    eight bits and nobody else on the bus, a layout of 64 variables, and small
    automata, boards and tracks. *)

From S2P Require Import Prelude AutomataDefs Automata AutomataTermination AutomataOps AutomataSim AutomataBuild AutomataBoard AutomataRun AutomataThread ControlRules ControlLogic ControlTurnouts ControlBuild ControlSafety ControlPermits.

(** ** The node *)

#[local] Instance whole_velocity : Velocity Z := {
  velocity_FORWARD := 0;
  velocity_REVERSE := 1;
  velocity_zero := 0;
  velocity_nan := -1;
  velocity_isnan := fun v => v =? -1;
  velocity_direction := fun v => Z.land v 1;
  velocity_set_direction := fun d v => 2 * Z.shiftr v 1 + d;
  velocity_forward := fun v => 2 * Z.shiftr v 1;
  velocity_reverse := fun v => 2 * Z.shiftr v 1 + 1;
  velocity_set_mph := fun mph v => 2 * mph + Z.land v 1;
  velocity_scale := fun z v => 2 * Z.shiftr (z * Z.shiftr v 1) 5 + Z.land v 1
}.

(** The words of a range with a bit set. *)
Definition set_range (data : list Z) (arg : Z) (v : bool) : list Z :=
  let word := default 0 (znth data (Z.shiftr arg 5)) in
  let bit := Z.shiftl 1 (Z.land arg 31) in
  zset data (Z.shiftr arg 5) (if v then Z.lor word bit else Z.land word (Z.lnot bit)).

#[local] Instance lonely_node : Node Z unit := {
  memory_bit_state := fun mask byte => if Z.land byte mask =? 0 then INVALID else VALID;
  memory_bit_set := fun mask byte v => if v : bool then Z.lor byte mask else Z.land byte (Z.lnot mask);
  bit_range_get := fun data i => Z.testbit (default 0 (znth data (Z.shiftr i 5))) (Z.land i 31);
  bus := fun r m w =>
    match r with
    | RangeSet l arg v =>
        (mkMemory (clients m) (alter (fun data => set_range data arg v) l (storage m)), w)
    | _ => (m, w)
    end;
  speed_query := fun _ m w => (None, m, w);
  last_payload := fun _ => [];
  clear_last_payload := fun w => w
}.

Lemma land_bit x i : 0 <= i -> (Z.land x (Z.shiftl 1 i) =? 0) = negb (Z.testbit x i).
Proof.
  intros Hi. rewrite Z.shiftl_1_l. destruct (Z.testbit x i) eqn:E.
  - apply Z.eqb_neq. intros H. assert (Ht : Z.testbit (Z.land x (2 ^ i)) i = true).
    { rewrite Z.land_spec, E, Z.pow2_bits_true; done. }
    by rewrite H, Z.bits_0 in Ht.
  - apply Z.eqb_eq. apply Z.bits_inj. intros j. rewrite Z.land_spec, Z.bits_0.
    destruct (decide (j = i)) as [->|Hj]; [by rewrite E|]. rewrite Z.pow2_bits_false by lia. by rewrite andb_false_r.
Qed.

Lemma word_bits arg : Z.shiftr arg 5 = arg / 32 /\ Z.land arg 31 = arg mod 32.
Proof. split; [by rewrite Z.shiftr_div_pow2|by apply (Z.land_ones arg 5)]. Qed.

Lemma range_get_set data arg v i :
  0 <= arg < 32 * zlen data -> 0 <= i ->
  bit_range_get (set_range data arg v) i = if decide (i = arg) then v else bit_range_get data i.
Proof.
  intros Ha Hi. cbn. unfold set_range. destruct (word_bits arg) as [-> ->], (word_bits i) as [-> ->].
  pose proof (Z.div_mod arg 32 ltac:(lia)). pose proof (Z.mod_pos_bound arg 32 ltac:(lia)).
  pose proof (Z.div_mod i 32 ltac:(lia)). pose proof (Z.mod_pos_bound i 32 ltac:(lia)).
  destruct (decide (i / 32 = arg / 32)) as [E|E].
  - rewrite E, zset_lookup by lia. cbn [default]. unfold id. rewrite Z.shiftl_1_l. case_decide as Hc.
    + subst i. destruct v.
      * by rewrite Z.lor_spec, Z.pow2_bits_true, orb_true_r by lia.
      * by rewrite Z.land_spec, Z.lnot_spec, Z.pow2_bits_true, andb_false_r by lia.
    + destruct v.
      * by rewrite Z.lor_spec, Z.pow2_bits_false, orb_false_r by lia.
      * rewrite Z.land_spec, Z.lnot_spec, Z.pow2_bits_false by lia. by rewrite andb_true_r.
  - rewrite znth_zset_ne by (first [lia | done]). rewrite decide_False; [done|]. by intros ->.
Qed.

#[local] Instance lonely_quiet : QuietNode Z unit.
Proof.
  split.
  - intros i byte v Hi. cbn. rewrite land_bit by lia. rewrite Z.shiftl_1_l. destruct v; cbn.
    + rewrite Z.lor_spec, Z.pow2_bits_true, orb_true_r by lia. done.
    + rewrite Z.land_spec, Z.lnot_spec, Z.pow2_bits_true, andb_false_r by lia. done.
  - intros i j byte v Hi Hj Hne. cbn. rewrite !land_bit by lia. rewrite Z.shiftl_1_l. destruct v; cbn.
    + by rewrite Z.lor_spec, Z.pow2_bits_false, orb_false_r by lia.
    + rewrite Z.land_spec, Z.lnot_spec, Z.pow2_bits_false by lia. by rewrite andb_true_r.
  - done.
  - intros l arg v m w data Hd Ha. exists (set_range data arg v). cbn. split; [|split].
    + f_equal. apply map_eq. intros j. destruct (decide (j = l)) as [->|Hne]; by simplify_map_eq.
    + apply zlen_zset.
    + intros i Hi. apply range_get_set; lia.
Defined.

Abbreviation example_core := (Core (V := Z) (W := unit)).
Abbreviation example_runner := (AutomataRunner (V := Z) (W := unit)).

(** ** A layout *)

(** Variable [k] has the id [100 + k] and bit [k mod 8] of byte [k / 8]. *)
Definition example_gid (k : nat) : option GlobalVariableId :=
  if decide (k < 64)%nat then Some (mkGlobalId (100 + Z.of_nat k) 0) else None.

Definition example_bit (k : nat) : MemoryBit :=
  mkMemoryBit 0 0 (Z.of_nat k / 8) (Z.shiftl 1 (Z.of_nat k mod 8)).

Definition example_place (k : nat) : option Place :=
  if decide (k < 64)%nat then Some (AtBit k (example_bit k)) else None.

(** The bytes in which the variables [on] are on. *)
Definition example_byte (on : list nat) (i : Z) : Z :=
  foldr (fun k byte => if Z.of_nat k / 8 =? i then Z.lor byte (Z.shiftl 1 (Z.of_nat k mod 8)) else byte) 0 on.

(** One automata, with the address 0, in a layout. *)
Definition layout_core (on : list nat) (state : Z) : example_core :=
  mkCore 0 0 0 0 [0; 0] [0%nat]
    (list_to_map (List.map (fun k => (100 + Z.of_nat k, k)) (seq 0 64)))
    (replicate 32 None) (replicate 32 0) None 0
    {[0%nat := mkAutomata 0 state 0 0]}
    (list_to_map (List.map (fun k => (k, EventBit (example_bit k) true)) (seq 0 64))) 64
    (mkMemory (List.map (example_byte on) (List.map Z.of_nat (seq 0 256))) ∅)
    (replicate 8 0) (replicate 64 0) tt.

Definition layout_runner (on : list nat) (state : Z) : example_runner :=
  mkRunner 0 0 (mkDebug 0 0) (layout_core on state).

Definition layout_env (on : list nat) (state : Z) : Env :=
  mkEnv (fun k => bool_decide (k ∈ on)) state 0 0.

Lemma example_place_Some k p : example_place k = Some p -> (k < 64)%nat /\ p = AtBit k (example_bit k).
Proof. unfold example_place. case_decide; [|done]. by intros [= <-]. Qed.

Lemma example_placed : well_placed example_gid example_place.
Proof.
  split.
  - intros k l bit [_ [= -> ->]]%example_place_Some. exists (Z.of_nat k mod 8). split; [|done].
    apply Z.mod_pos_bound. lia.
  - by intros k l arg g [_ [=]]%example_place_Some.
  - intros k1 k2 p1 p2 [_ ->]%example_place_Some [_ ->]%example_place_Some Hne.
    split; [done|]. cbn [example_bit bit_ptr bit_mask].
    destruct (decide (Z.of_nat k1 / 8 = Z.of_nat k2 / 8)) as [E|E]; [right|by left].
    intros Hm. rewrite !Z.shiftl_1_l in Hm. pose proof (Z.mod_pos_bound (Z.of_nat k1) 8 ltac:(lia)).
    pose proof (Z.mod_pos_bound (Z.of_nat k2) 8 ltac:(lia)).
    apply Z.pow_inj_r in Hm; [|lia..]. apply Hne.
    pose proof (Z.div_mod (Z.of_nat k1) 8 ltac:(lia)). pose proof (Z.div_mod (Z.of_nat k2) 8 ltac:(lia)). lia.
Qed.

Lemma example_all byte : all_placed example_gid example_place byte.
Proof. intros k _ [g Hk]. unfold example_gid in Hk. unfold example_place. case_decide; [by eexists|done]. Qed.

Lemma example_args : args_ok example_gid.
Proof. intros k g. unfold example_gid. case_decide; [|done]. intros [= <-]. cbn. lia. Qed.

(** What can be checked variable by variable. *)
Definition layout_checks (on : list nat) (state : Z) (k : nat) : bool :=
  let c := layout_core on state in
  bool_decide (declared_bits_ c !! (100 + Z.of_nat k) = Some k) &&
  match bits c !! k with
  | Some (EventBit bit d) => bool_decide (bit_ptr bit = Z.of_nat k / 8 /\ bit_mask bit = Z.shiftl 1 (Z.of_nat k mod 8) /\
      bit_event_on bit = 0 /\ bit_event_off bit = 0)
  | _ => false
  end &&
  match znth (clients (memory_ c)) (Z.of_nat k / 8) with
  | Some byte => bool_decide (memory_bit_state (Z.shiftl 1 (Z.of_nat k mod 8)) byte =
                              if bool_decide (k ∈ on) then VALID else INVALID)
  | None => false
  end.

Lemma layout_represents on state :
  forallb (layout_checks on state) (seq 0 64) = true ->
  represents example_gid example_place {[None := timer_bit_]} (reset_imports 0 (layout_core on state))
    (layout_env on state).
Proof.
  intros H. rewrite forallb_forall in H.
  assert (Hk : forall k, (k < 64)%nat -> layout_checks on state k = true).
  { intros k Hk. apply H, in_seq. lia. }
  split; try done.
  - exists 0%nat, (mkAutomata 0 state 0 0). do 5 (split; [done|]).
    intros i [_ <-]%lookup_singleton_Some. done.
  - intros k i [[=] _]%lookup_singleton_Some.
  - intros v i [_ <-]%lookup_singleton_Some. unfold timer_bit_, MAX_IMPORT_VAR. lia.
  - intros k p [Hlt ->]%example_place_Some. specialize (Hk k Hlt).
    unfold layout_checks in Hk. apply andb_prop in Hk as [[_ Hb]%andb_prop Hv].
    split.
    + change (bits (reset_imports 0 (layout_core on state))) with (bits (layout_core on state)).
      destruct (bits (layout_core on state) !! k) as [[b d| | | |]|]; try done.
      apply bool_decide_eq_true in Hb as (E1 & E2 & E3 & E4). exists d. do 2 f_equal.
      destruct b. cbn in *. unfold example_bit. by subst.
    + change (memory_ (reset_imports 0 (layout_core on state))) with (memory_ (layout_core on state)).
      cbn [example_bit bit_ptr bit_mask]. destruct (znth _ _) as [byte|]; [|done].
      exists byte. split; [done|]. by apply bool_decide_eq_true in Hv.
  - intros k p g [Hlt ->]%example_place_Some. unfold example_gid. rewrite decide_True by done.
    intros [= <-]. specialize (Hk k Hlt). unfold layout_checks in Hk.
    apply andb_prop in Hk as [[Hd _]%andb_prop _]. apply bool_decide_eq_true in Hd. cbn [gid_id].
    rewrite Z.mod_small by lia. exact Hd.
Qed.

(** ** Bodies *)

Definition rendered (body : AutomataCallback) : list Z :=
  match Render body (Some []) AutomataDef_new with
  | Done (Some out) _ => out
  | _ => []
  end.

Definition renders_well (body : AutomataCallback) : bool :=
  match Render body (Some []) AutomataDef_new with
  | Done (Some out) _ => zlen out <? 2 ^ 31
  | _ => false
  end.

Lemma layout_runnable body on state :
  renders_well body = true ->
  runnable example_gid example_place body (rendered body) 0 (layout_runner on state).
Proof.
  unfold renders_well, rendered. intros H.
  destruct (Render body (Some []) AutomataDef_new) as [[out|] def'| |] eqn:E; try done.
  apply Z.ltb_lt in H. split; [apply example_placed|apply example_all|apply example_args| |done|done].
  exists AutomataDef_new, def', [], out, (mkAutomata 0 state 0 0).
  split; [by intros id Hid%not_elem_of_empty|]. do 2 (split; [done|]).
  exists [], []. split; [by rewrite app_nil_r|done].
Qed.

(** A pass over a layout. *)
Lemma layout_pass body rs on state :
  renders_well body = true -> forallb (layout_checks on state) (seq 0 64) = true ->
  builds example_gid [] body rs [] ->
  pass (V := Z) (W := unit) example_gid example_place body (rendered body) 0 (layout_env on state)
    (exec_rules rs (layout_env on state)).
Proof.
  intros Hr Hl Hb. pose proof (layout_runnable body on state Hr) as Hrun.
  pose proof (layout_represents on state Hl) as R.
  destruct (body_runs example_gid example_place body rs [] (rendered body) 0 _ (layout_runner on state) Hrun Hb R)
    as (s' & u & E & R').
  exists (layout_runner on state), s', u. done.
Qed.

Lemma body_runs_rules_witness :
  exists s' u, run_automata (rendered HandleInitState) 0 (layout_runner [7%nat] StInit) = Some (Done tt s') /\
    represents example_gid example_place u (core s') (exec_rules [init_rule] (layout_env [7%nat] StInit)).
Proof.
  apply (body_runs_rules example_gid example_place HandleInitState [init_rule] []).
  - apply layout_runnable. vm_compute. reflexivity.
  - apply builds_HandleInitState.
  - apply (layout_represents [7%nat] StInit). vm_compute. reflexivity.
Defined.

(** ** Tracks, magnets and signals *)

Definition track_automata : AutomataCallback :=
  RunAll (StraightTrackWithDetector_plugins example_gid None example_track 51).

Lemma routes_never_conflict_witness :
  let e1 := exec_rules (detector_track_rules None example_track 51) (layout_env [51%nat] StInit) in
  let e := network [(51%nat, false); (20%nat, true); (40%nat, true)] e1 in
  ~ (evar e (route_set_ab_ example_track) = true /\ evar e (route_set_ba_ example_track) = true).
Proof.
  intros e1 e.
  apply (routes_never_conflict (V := Z) (W := unit) example_gid example_place example_track 51
           (rendered track_automata) 0 (layout_env [51%nat] StInit) e1 e).
  - exact example_args.
  - exact example_separate.
  - intros k Hk. cbn in Hk. repeat destruct Hk as [<-|Hk]; try done; vm_compute; eexists; reflexivity.
  - reflexivity.
  - intros k Hk. cbn in Hk. repeat destruct Hk as [<-|Hk]; try done; vm_compute; reflexivity.
  - apply layout_pass; [vm_compute; reflexivity|vm_compute; reflexivity|].
    apply builds_detector_track, example_args.
  - apply rtc_once, step_layout.
    + reflexivity.
    + intros k Hk. cbn in Hk. repeat destruct Hk as [<-|Hk]; try done.
    + intros k Hk. cbn in Hk. repeat destruct Hk as [<-|Hk]; try done.
Defined.

Definition example_magnets : list MagnetDef :=
  [mkMagnet 0 1 2 3 4 11 false; mkMagnet 5 6 7 8 9 12 true].

Definition example_coupled : list CoupledMagnetDef :=
  [mkCoupled 10 11 12 (mkMagnet 0 1 2 3 4 11 false) true].

Definition magnets_automata : AutomataCallback :=
  RunAll (magnet_plugins example_gid example_magnets example_coupled).

Lemma example_wired : wired example_magnets example_coupled.
Proof.
  split.
  - intros m [<-|[<-|[]]]; unfold StBase; cbn; lia.
  - intros m m' k [<-|[<-|[]]] [<-|[<-|[]]] Hk Hk'; cbn in *; try done; lia.
  - intros m m' [<-|[<-|[]]] [<-|[<-|[]]]; cbn; lia.
  - intros c m [<-|[]] [<-|[<-|[]]]; repeat constructor; cbn; lia.
Qed.

Definition example_magnet_rules : list Rule :=
  concat (List.map couple_rules example_coupled ++ List.map magnet_rules example_magnets ++
          [[final_rule]; [init_rule]]).

Lemma builds_example_magnets : builds example_gid [] magnets_automata example_magnet_rules [].
Proof.
  apply builds_RunAll. repeat constructor; intros G; cbn [snd].
  - apply builds_MagnetAutomataCouple, example_args.
  - apply builds_MagnetAutomataEntry; [apply example_args|cbn; lia].
  - apply builds_MagnetAutomataEntry; [apply example_args|cbn; lia].
  - apply builds_MagnetAutomataFinal.
  - apply builds_HandleInitState.
Qed.

Lemma example_coils_off m k :
  In m example_magnets -> In k (coils m) ->
  is_Some (example_gid k) /\ evar (layout_env [0; 6]%nat StBase) k = false.
Proof.
  intros [<-|[<-|[]]] [<-|[<-|[]]]; (split; [vm_compute; eexists; reflexivity|vm_compute; reflexivity]).
Qed.

(** Both magnets are to move: one of them is pulled. *)
Lemma one_magnet_at_a_time_witness :
  let e := exec_rules example_magnet_rules (layout_env [0; 6]%nat StBase) in
  evar e 4 = true /\
  forall m' k', In m' example_magnets -> In k' (coils m') -> evar e k' = true -> k' = 4%nat.
Proof.
  intros e. assert (E : evar e 4 = true) by (vm_compute; reflexivity). split; [exact E|].
  destruct (one_magnet_at_a_time (V := Z) (W := unit) example_gid example_place example_magnets example_coupled
              (rendered magnets_automata) 0 (layout_env [0; 6]%nat StBase) e) as [H _].
  - exact example_args.
  - exact example_wired.
  - exact example_coils_off.
  - apply rtc_once, magnet_pass. apply layout_pass; [vm_compute; reflexivity|vm_compute; reflexivity|].
    exact builds_example_magnets.
  - apply (H (mkMagnet 0 1 2 3 4 11 false) 4%nat); [left; reflexivity|right; left; reflexivity|exact E].
Defined.

Lemma signal_shows_next_witness :
  exists s', run_automata (rendered (SetSignalState example_gid example_track)) 0
               (layout_runner [1; 34]%nat StBase) = Some (Done tt s') /\
    forall u e', represents example_gid example_place u (core s') e' ->
      aspect (binding (side_a example_track)) e' = 2.
Proof.
  destruct (signal_shows_next example_gid example_place example_track
              (rendered (SetSignalState example_gid example_track)) 0 (layout_env [1; 34]%nat StBase)
              (layout_runner [1; 34]%nat StBase)) as (s' & E & H).
  - apply (bool_decide_unpack _). vm_compute. exact I.
  - intros k Hk. cbn in Hk. repeat destruct Hk as [<-|Hk]; try done; vm_compute; eexists; reflexivity.
  - apply layout_runnable. vm_compute. reflexivity.
  - apply layout_represents. vm_compute. reflexivity.
  - exists s'. split; [exact E|]. intros u e' R. destruct (H u e' R) as [H1 _]. rewrite H1. vm_compute. reflexivity.
Defined.

(** ** The interpreter *)

Definition tiny_program : list Operation := [mkOperation [TestState 0] [ChangeState 1; ChangeTimer 3]].
Definition tiny_calls : list (list OpCall) := [[CallIfState 0; CallActState 1; CallActTimer 3]].
Definition tiny_code : list Z := encode_program tiny_program ++ [0].

Lemma tiny_calls_ok : Forall def_ok tiny_calls.
Proof. repeat constructor; cbn; try lia; try done. Qed.

Lemma automata_terminate_witness :
  (exists o, InitializeState tiny_code (layout_runner [] 0) = Some o) /\
  (exists o, RunAllAutomata tiny_code (layout_runner [] 0) = Some o).
Proof.
  apply (automata_terminate tiny_code); [vm_compute; reflexivity|].
  repeat constructor; vm_compute; done.
Defined.

Lemma run_automata_refines_witness :
  runs_as_core (sem_program tiny_program (reset_imports 0 (layout_core [] 0)))
    (run_automata tiny_code 0 (layout_runner [] 0)).
Proof.
  apply (run_automata_refines tiny_code 0 (mkAutomata 0 0 0 0) tiny_program (layout_runner [] 0)).
  - vm_compute. reflexivity.
  - reflexivity.
  - reflexivity.
  - split; [|done]. split; repeat constructor; cbn; try lia; done.
  - exists [], []. split; [rewrite app_nil_r; reflexivity|reflexivity].
Defined.

Lemma rendered_body_runs_witness :
  runs_as_core (sem_program (List.map operation_of tiny_calls) (reset_imports 0 (layout_core [] 0)))
    (run_automata (rendered (def_body tiny_calls)) 0 (layout_runner [] 0)).
Proof.
  eapply (rendered_body_runs tiny_calls AutomataDef_new _ [] (rendered (def_body tiny_calls)) _ 0
            (mkAutomata 0 0 0 0) (layout_runner [] 0)).
  - exact tiny_calls_ok.
  - vm_compute. reflexivity.
  - vm_compute. reflexivity.
  - reflexivity.
  - reflexivity.
  - exists [], []. split; [rewrite app_nil_r; reflexivity|reflexivity].
Defined.

Definition sample_steps : list BuildStep :=
  [ StepImport 0 (Some (mkGlobalId 100 0)); StepReserve; StepDef (run_calls [CallIfReg1 1; CallActReg0 2]);
    StepClear; StepImport 1 (Some (mkGlobalId 101 0)); StepImport 2 (Some (mkGlobalId 102 0)); StepNewState ].

Definition steps_built : AutomataDef :=
  match build_steps sample_steps AutomataDef_new with
  | Done _ a => a
  | _ => AutomataDef_new
  end.

Lemma import_ids_distinct_witness :
  used_variables_ steps_built !! Some 1%nat = Some 1 /\ used_variables_ steps_built !! Some 2%nat = Some 3 /\
  ids_ok steps_built.
Proof.
  split; [vm_compute; reflexivity|]. split; [vm_compute; reflexivity|].
  apply (import_ids_distinct sample_steps). vm_compute. reflexivity.
Defined.

(** ** Boards *)

Definition sample_board : Board :=
  mkBoard [mkInfo AutomataDef_new (fun _ => def_body tiny_calls) 0 0]
    [EventBasedVariable 101 100 0 16; ByteImportVariable 200 7] [].

Definition built_board : Board * list Z :=
  match Board_Render sample_board [] with
  | Done b out => (b, out)
  | _ => (sample_board, [])
  end.

Lemma sample_board_code : board_code sample_board (fst built_board) [List.map operation_of tiny_calls] (snd built_board).
Proof.
  split.
  - vm_compute. reflexivity.
  - repeat constructor; cbn; lia.
  - repeat constructor. eexists. split; [vm_compute; reflexivity|]. split.
    + apply (emits_def_body tiny_calls AutomataDef_new), tiny_calls_ok.
    + intros out. eexists. apply emits_Render, emits_def_body, tiny_calls_ok.
  - vm_compute. congruence.
  - vm_compute. repeat split; congruence.
  - vm_compute. reflexivity.
Qed.

(** A runner with no automata and no bits. *)
Definition empty_runner : example_runner :=
  mkRunner 0 0 (mkDebug 0 0)
    (mkCore 0 0 0 0 [0; 0] [] ∅ (replicate 32 None) (replicate 32 0) None 0 ∅ ∅ 0
       (mkMemory (replicate 256 0) ∅) (replicate 8 0) (replicate 64 0) tt).

Lemma board_starts_witness :
  runs_as_core
    (sem_initialize (List.map offset (automatas_ (fst built_board))) (board_preamble sample_board)
       (core empty_runner))
    (InitializeState (snd built_board) empty_runner).
Proof.
  apply (board_starts sample_board (fst built_board) [List.map operation_of tiny_calls]).
  - exact sample_board_code.
  - reflexivity.
Defined.

Definition started_runner : example_runner :=
  match InitializeState (snd built_board) empty_runner with
  | Some (Done _ s) => s
  | _ => empty_runner
  end.

Lemma board_runs_witness :
  length (all_automata_ (core started_runner)) = 1%nat /\
  runs_as_core (sem_rounds 3 [List.map operation_of tiny_calls] (core started_runner))
    (rounds (snd built_board) 3 started_runner).
Proof.
  split; [vm_compute; reflexivity|].
  apply (board_runs sample_board (fst built_board) [List.map operation_of tiny_calls] (snd built_board) 3 empty_runner).
  - exact sample_board_code.
  - reflexivity.
  - reflexivity.
  - vm_compute. reflexivity.
Defined.

Lemma variable_declared_witness :
  exists c' l ptr mask,
    sem_program (variable_ops 4 (EventBasedVariable 101 100 0 17)) (core empty_runner) = Done tt c' /\
    bit_place 1 = Some (ptr, mask) /\
    declared_bits_ c' !! 28 = Some l /\ bits c' !! l = Some (EventBit (mkMemoryBit 101 100 ptr mask) false).
Proof.
  apply (variable_declared (V := Z) (W := unit) 4 101 100 1 (EventBasedVariable 101 100 0 17) (core empty_runner)).
  - lia.
  - vm_compute. reflexivity.
  - reflexivity.
  - reflexivity.
Defined.

Lemma stop_takes_effect_witness :
  let k := mkControl RUN None new_AutomataTick AtTop [] started_runner in
  exists k1 k', Stop 5 true k = Some k1 /\ thread_rounds (snd built_board) 4 k1 = Some k' /\
    notified k' = [5%nat] /\ deleted (runner k') /\
    thread k' = Exited /\ exit_ (automata_timer_ k') = true.
Proof.
  intros k. apply (stop_takes_effect (snd built_board) 5 true k); [reflexivity|discriminate].
Defined.

(** ** Permits *)

Definition example_clients : list FlipFlopClient := [mkClient 1 2 3 4; mkClient 5 6 7 8].

Lemma example_permits_wired : permits_wired 9 10 example_clients.
Proof.
  split.
  - intros c c' k [<-|[<-|[]]] [<-|[<-|[]]]; cbn; intros Hk Hk'; try done; lia.
  - intros c [<-|[<-|[]]]; cbn; apply (bool_decide_unpack _); vm_compute; exact I.
  - intros c [<-|[<-|[]]]; cbn; lia.
Qed.

(** Both clients have requested a permit; the first gets it. *)
Lemma permits_are_exclusive_witness :
  let e := exec_rules (permit_rules 9 10 example_clients ++ [init_rule]) (layout_env [1; 5]%nat StInit) in
  has_permit (mkClient 1 2 3 4) e = true /\
  forall c, In c example_clients -> has_permit c e = true -> c = mkClient 1 2 3 4.
Proof.
  intros e. assert (E : has_permit (mkClient 1 2 3 4) e = true) by (vm_compute; reflexivity). split; [exact E|].
  destruct (permits_are_exclusive (V := Z) (W := unit) example_gid example_place 9 10 example_clients
              (rendered (RunAll (FlipFlopAutomata example_gid 9 10 example_clients))) 0
              (layout_env [1; 5]%nat StInit) e) as [H _].
  - exact example_args.
  - exact example_permits_wired.
  - intros c k [<-|[<-|[]]]; cbn; intros Hk; repeat (destruct Hk as [<-|Hk]; [eexists; reflexivity|]); destruct Hk.
  - split; [reflexivity|]. intros c [<-|[<-|[]]]; vm_compute; repeat split.
  - apply rtc_once, permit_pass. apply layout_pass; [vm_compute; reflexivity|vm_compute; reflexivity|].
    apply builds_flipflop. exact example_args.
  - intros c Hc Ec. apply (H c (mkClient 1 2 3 4)); [exact Hc|left; reflexivity|exact Ec|exact E].
Defined.

(** A runner with a pending tick and a timer at 3. *)
Definition ticking_runner : example_runner :=
  set_core (set_pending_ticks 1 (set_automatas {[0%nat := mkAutomata 0 0 3 0]} (layout_core [] 0))) (layout_runner [] 0).

Lemma ticks_every_second_witness :
  pending_ticks_ (snd (timer_calls (replicate 22 true) (new_AutomataTick, layout_core [] 0))) = 2 /\
  exists s', apply_pending_tick ticking_runner = Some (Done tt s') /\ pending_ticks_ (core s') = 0 /\
    automatas (core s') !! 0%nat = Some (mkAutomata 0 0 2 0).
Proof.
  destruct (ticks_every_second (replicate 22 true) (layout_core [] 0) ticking_runner) as (E & _ & _ & H).
  split; [rewrite E; vm_compute; reflexivity|].
  destruct H as (s' & Es & Hp & Hm).
  - repeat constructor. intros Hin. by apply elem_of_nil in Hin.
  - repeat constructor. eexists. split; [reflexivity|]. cbn. lia.
  - reflexivity.
  - exists s'. split; [exact Es|]. split; [rewrite Hp; reflexivity|]. rewrite Hm. vm_compute. reflexivity.
Defined.
