(* ===== verification/TrainWitnesses.v ===== *)
(** Concrete instances of the theorems on the train search, the train database,
    the description of functions and the DCC update loop. *)

From stdpp Require Import pretty.
From S2P Require Import Prelude Queues FindProtocol UpdateProcessor XmlGenerator TrainDb FdiXmlGenerator FindProtocolServer TrainSearch.

(** ** The update loop: packets at least 50 apart, lists as queues *)

Abbreviation Loop := (@UpdateProcessor.UpdateProcessor (list PriorityUpdate)).
Abbreviation loop_exec := (UpdateProcessor.exec 1000 50 (Q := list PriorityUpdate)).

Definition after (u : Loop) (l : list op) : Loop :=
  fold_left (fun u o => match loop_exec o u with Done _ u' => u' | _ => u end) l u.

Definition s1 : PacketSource := 1%positive.
Definition s2 : PacketSource := 2%positive.

Definition no_sources : Loop := new_UpdateProcessor.
Definition two_sources : Loop := after no_sources [Add s1 5; Add s2 5].

Lemma after_Add u s p :
  UpdateProcessor.reachable 1000 50 u -> bool_decide (s ∈ refreshSources_ u) = false ->
  zlen (refreshSources_ u) < NO_EXCLUSIVE -> (exists r, loop_exec (Add s p) u = Done r (after u [Add s p])) ->
  UpdateProcessor.reachable 1000 50 (after u [Add s p]).
Proof.
  intros R Hs Hl [r E]. apply (UpdateProcessor.reachable_step 1000 50 (Add s p) u r); [done| |done].
  by apply bool_decide_eq_false in Hs.
Qed.

Lemma two_sources_reachable : UpdateProcessor.reachable 1000 50 two_sources.
Proof.
  change two_sources with (after (after no_sources [Add s1 5]) [Add s2 5]).
  apply after_Add; [|vm_compute; done|done|by eexists].
  apply after_Add; [constructor|vm_compute; done|done|by eexists].
Qed.

(** Source 1 had a packet at 100. *)
Definition served : Loop := after two_sources [Entry 100].

Lemma served_entry : UpdateProcessor.entry 50 100 two_sources = Done (FromSource s1 0) served.
Proof. by vm_compute. Qed.

Lemma packet_source_choice_witness :
  exists p u', UpdateProcessor.entry 50 100 two_sources = Done p u' /\ forall s c, p = FromSource s c -> s ∈ [s1; s2].
Proof.
  destruct (packet_source_choice 1000 50 eq_refl two_sources 100 two_sources_reachable)
    as (p & u' & E & _ & _ & H).
  exists p, u'. split; [exact E|]. exact H.
Defined.

(** Source 2 is next at 101, source 1 again at 150. *)
Lemma packets_keep_distance_witness : 100 + 50 <= 151.
Proof.
  set (u1 := served). set (u2 := after served [Entry 101]). set (u3 := after u2 [Entry 151]).
  apply (packets_keep_distance 1000 50 eq_refl two_sources s1 0 100 u1 [Entry 101] [(101, FromSource s2 0)] u2 0 151 u3).
  - exact two_sources_reachable.
  - exact served_entry.
  - apply (UpdateProcessor.steps_cons 1000 50 (Entry 101) u1 (Some (101, FromSource s2 0)) u2 [] [] u2);
      [done|by vm_compute|constructor].
  - repeat constructor. done.
  - by vm_compute.
  - by vm_compute.
Defined.

(** Source 2 reports an update after its own packet and one of source 1. *)
Definition reported : Loop := after two_sources [Notify s1 7; Notify s2 9].

Lemma reported_reachable : UpdateProcessor.reachable 1000 50 reported.
Proof.
  apply (UpdateProcessor.reachable_step 1000 50 (Notify s2 9) (after two_sources [Notify s1 7]) None); [|done|done].
  by apply (UpdateProcessor.reachable_step 1000 50 (Notify s1 7) two_sources None); [exact two_sources_reachable| |].
Qed.

Lemma urgent_update_served_witness :
  exists now c, (now, FromSource s2 c) ∈ [(100, FromSource s1 7); (101, FromSource s2 9)].
Proof.
  apply (urgent_update_served 1000 50 eq_refl 100 s2 1 reported [Entry 100; Entry 101]
           [(100, FromSource s1 7); (101, FromSource s2 9)] (after reported [Entry 100; Entry 101])).
  - exact reported_reachable.
  - split; [done|]. split; [vm_compute; right; left|]. split; [done|].
    by exists [(s1, 7)], 9, [].
  - apply (UpdateProcessor.steps_cons 1000 50 (Entry 100) reported (Some (100, FromSource s1 7))
             (after reported [Entry 100]) [Entry 101] [(101, FromSource s2 9)]); [done|by vm_compute|].
    apply (UpdateProcessor.steps_cons 1000 50 (Entry 101) _ (Some (101, FromSource s2 9)) (after reported [Entry 100; Entry 101]) [] []);
      [done|by vm_compute|constructor].
  - repeat constructor; done.
  - vm_compute. lia.
Defined.

Lemma background_round_robin_witness :
  [(200, FromSource s2 0); (201, FromSource s1 0)] =
    zip [200; 201] ((fun s => FromSource s 0) <$> [s2; s1]) /\
  rotation (after served [Entry 200; Entry 201]) = [s2; s1].
Proof.
  apply (background_round_robin 1000 50 eq_refl 200 [200; 201] served
           [(200, FromSource s2 0); (201, FromSource s1 0)] (after served [Entry 200; Entry 201])).
  - apply (UpdateProcessor.reachable_step 1000 50 (Entry 100) two_sources (Some (100, FromSource s1 0)));
      [exact two_sources_reachable|done|by vm_compute].
  - done.
  - done.
  - intros s Hs. vm_compute in Hs. apply elem_of_cons in Hs as [->|Hs%list_elem_of_singleton]; [done|by subst].
  - done.
  - repeat constructor; done.
  - apply (UpdateProcessor.steps_cons 1000 50 (Entry 200) served (Some (200, FromSource s2 0))
             (after served [Entry 200]) [Entry 201] [(201, FromSource s1 0)]); [done|by vm_compute|].
    apply (UpdateProcessor.steps_cons 1000 50 (Entry 201) _ (Some (201, FromSource s1 0)) (after served [Entry 200; Entry 201]) [] []);
      [done|by vm_compute|constructor].
Defined.

(** ** The database: two slots, of which the second one is in use *)

Definition node_of (type : TrainDbDefs.TrainAddressType) (address : Z) : Z :=
  match type with TrainDbDefs.DCC_SHORT => 0x060100000000 + address | _ => address end.

Definition slots : TrainFile :=
  [mkCdiEntry 0 0 "" []; mkCdiEntry 3 TrainDbDefs.DCC_28 "Engine" [mkFunctionGroup 4 0; mkFunctionGroup 0 0; mkFunctionGroup 14 1]].

Definition no_trains : TrainDb := mkTrainDb true [].
Definition slot_start (i : nat) : Z := 100 * Z.of_nat i.

(** Two trains, and the file after the first slot was edited to the address of the
    second. *)
Definition two_slots : TrainFile :=
  [mkCdiEntry 5 TrainDbDefs.DCC_28 "First" []; mkCdiEntry 3 TrainDbDefs.DCC_28 "Second" []].
Definition edited_slots : TrainFile :=
  [mkCdiEntry 3 TrainDbDefs.DCC_28 "Copy" []; mkCdiEntry 3 TrainDbDefs.DCC_28 "Second" []].

Definition before_edit : TrainDb := snd (load_from_file node_of [] slot_start two_slots true no_trains).
Definition after_edit : TrainDb := snd (load_from_file node_of [] slot_start edited_slots false before_edit).

Definition train_of (file : TrainFile) (d : TrainDb) (id : Z) : option Z :=
  get_traction_node node_of [] file <$> get_entry d id.

(** Two ids come to mean one train. *)
Example ids_of_one_train :
  List.map (train_of two_slots before_edit) [0; 1] = [Some 0x060100000005; Some 0x060100000003] /\
  List.map (train_of edited_slots after_edit) [0; 1] = [Some 0x060100000003; Some 0x060100000003].
Proof. vm_compute. split; reflexivity. Qed.

Lemma reload_keeps_trains_witness :
  (exists e', get_entry after_edit 1 = Some e' /\ get_traction_node node_of [] edited_slots e' = 0x060100000003) /\
  (exists id e, (id = 0 \/ id = 1) /\ get_entry before_edit id = Some e /\ edited node_of [] two_slots edited_slots e) /\
  exists s, find_entry node_of [] edited_slots after_edit 0x060100000003 5 = Some (new_FileTrainDbEntry edited_slots s).
Proof.
  destruct (reload_keeps_trains node_of [] slot_start two_slots edited_slots before_edit 200 after_edit eq_refl eq_refl)
    as (H1 & H2 & H3). split; [|split].
  - destruct (H1 1 (new_FileTrainDbEntry two_slots 1) ltac:(vm_compute; reflexivity)) as (e' & E & _ & H). exists e'.
    split; [done|]. rewrite H; [vm_compute; reflexivity|]. intros He. apply He. vm_compute. reflexivity.
  - refine (H2 _ 0 1 (new_FileTrainDbEntry edited_slots 1) (new_FileTrainDbEntry edited_slots 1) _ _ _ _); [|lia|vm_compute; reflexivity..].
    refine (bool_decide_unpack (NoDup [0x060100000005; 0x060100000003]) _). vm_compute. exact I.
  - destruct (H3 1%nat 5) as (s & Hs & _); [vm_compute; lia|vm_compute; reflexivity|]. by exists s.
Defined.

Lemma max_fn_is_highest_witness :
  get_max_fn (new_FileTrainDbEntry slots 1) = 3 /\
  (forall n, is_assigned [] slots (new_FileTrainDbEntry slots 1) n -> 0 <= n /\ n <= 3 /\
     get_function_label [] slots (new_FileTrainDbEntry slots 1) n <> FN_NONEXISTANT).
Proof.
  split; [done|]. apply (max_fn_is_highest [] slots (FileTrainDbEntry 1 0)). done.
Defined.

(** ** The description of this train, read in pieces of 100 characters *)

Definition decimal_of (z : Z) : string := pretty z.

Lemma fdi_read_in_pieces_witness :
  exists (x1 x' : @XmlGenerator.XmlGenerator (list GeneratorAction) (@Fdi TrainDbEntry)),
    read_pieces decimal_of (generate_more (FL := TrainDb_FunctionList [] slots)) fdi_fuel 0 [100; 100] x1 =
    Some (Done (take 200 (list_ascii_of_string
      (fdi_document decimal_of (FL := TrainDb_FunctionList [] slots) (new_FileTrainDbEntry slots 1)))) x').
Proof.
  destruct (fdi_read_in_pieces decimal_of (FL := TrainDb_FunctionList [] slots) fdi_fuel
              (new_FileTrainDbEntry slots 1)
              (mkXmlGenerator (T := list GeneratorAction) [] 0 0 "" (mkFdi STATE_EOF (new_FileTrainDbEntry slots 1) 0))
              [100; 100]) as (x1 & x' & _ & E).
  - vm_compute. split; congruence.
  - unfold fdi_fuel. lia.
  - unfold fdi_fuel. cbn. lia.
  - repeat constructor; lia.
  - by exists x1, x'.
Defined.

(** ** The search server: one train, and a second one that can be allocated *)

Definition train_3 : FindProtocol.TrainDbEntry := ExternalTrainDbEntry "Engine" 3 TrainDbDefs.DCC_28.
Definition train_7 : FindProtocol.TrainDbEntry := ExternalTrainDbEntry "7" 7 TrainDbDefs.DCC_128.

(** Whether the second train is there. *)
#[local] Instance two_trains : AllTrainNodes bool := {
  nodes_size b := if b then 2 else 1;
  train_entry b i := if i =? 0 then Some train_3 else if b && (i =? 1) then Some train_7 else None;
  get_train_node_id b i := if i =? 0 then 103 else if b && (i =? 1) then 107 else 0;
  allocate_node mode address b := if b then (0, true) else (107, true);
  is_known_train_node b id := (id =? 103) || b && (id =? 107);
  is_local_node b id := (id =? 103) || b && (id =? 107)
}.

#[local, refine] Instance two_trains_ok : AllTrainNodesOk bool := {}.
Proof.
  - intros []; cbn; lia.
  - intros mode address []; (split; [cbn; lia|cbn; intros i Hi|cbn; intros id H]); try done.
    + by replace i with 0 by lia.
    + rewrite orb_false_r in H. by rewrite H.
  - intros mode address []; cbn; done.
Defined.

Definition IS_TRAIN_EVENT : Z := 0x0101000000000303.
Definition same_node (a b : Z) : bool := a =? b.

Abbreviation SearchServer := (@FindProtocolServer bool (list Request)).
Abbreviation search_step := (FindProtocolServer.step IS_TRAIN_EVENT initial_defaults same_node).
Abbreviation search_flow := (FindProtocolServer.run_flow IS_TRAIN_EVENT initial_defaults).

Definition new_server : SearchServer := new_FindProtocolServer false.

(** The flow runs [n] steps. *)
Fixpoint flow_steps (n : nat) (s : SearchServer) : SearchServer :=
  match n with
  | O => s
  | S n => match search_flow true s with Done _ s' => flow_steps n s' | _ => s end
  end.

Lemma flow_steps_rtc n s : rtc search_step s (flow_steps n s).
Proof.
  revert s. induction n as [|n IH]; intros s; cbn; [constructor|].
  destruct (search_flow true s) as [[] s'| |] eqn:E; [|constructor|constructor].
  eapply rtc_l; [|apply IH]. by apply (step_flow _ _ _ true).
Qed.

Definition asked : SearchServer := identify_all IS_TRAIN_EVENT same_node GLOBAL 5 new_server.

Lemma identify_requests_answered_witness :
  mkMessage PRODUCER_IDENTIFIED_RANGE 103 TRAIN_FIND_BASE ∈ drop 0 (sent (flow_steps 8 asked)).
Proof.
  apply (identify_requests_answered IS_TRAIN_EVENT initial_defaults same_node ltac:(done) eq_refl false GLOBAL 5
           new_server (flow_steps 8 asked)) with (i := 0).
  - constructor.
  - apply flow_steps_rtc.
  - done.
  - cbn. lia.
  - done.
  - right. left.
Defined.

(** A throttle asks for train 7, and to allocate it. *)
Definition query_7 : Z := default 0 (address_to_allocate 7 false TrainDbDefs.DCCMODE_DEFAULT).
Definition searched : SearchServer :=
  flow_steps 1 (handle_identify_producer IS_TRAIN_EVENT same_node query_7 5 new_server).

Lemma searched_reachable : rtc search_step new_server searched.
Proof.
  eapply rtc_l; [|apply flow_steps_rtc]. apply step_request, request_producer. left. by vm_compute.
Qed.

Fixpoint flow_steps_work (n : nat) (s : SearchServer) : bool :=
  match n with
  | O => true
  | S n => negb (bool_decide (state (flow_ s) = WAITING)) &&
           match search_flow true s with Done _ s' => flow_steps_work n s' | _ => true end
  end.

Lemma flow_steps_is_work n s :
  flow_steps_work n s = true -> work IS_TRAIN_EVENT initial_defaults same_node false s (flow_steps n s).
Proof.
  revert s. induction n as [|n IH]; intros s; cbn; [constructor|].
  intros [Hw H]%andb_true_iff. apply negb_true_iff, bool_decide_eq_false in Hw.
  destruct (search_flow true s) as [[] s'| |] eqn:E; [|constructor|constructor].
  eapply work_flow; [done|exact E|]. by apply IH.
Qed.

Lemma search_answers_witness :
  sent (flow_steps 9 searched) = [mkMessage PRODUCER_IDENTIFIED_VALID 107 query_7].
Proof.
  destruct (search_answers IS_TRAIN_EVENT initial_defaults same_node ltac:(done) eq_refl false searched
              (mkRequest query_7 5) false (flow_steps 9 searched)) as [E|(H & _)].
  - exact searched_reachable.
  - by vm_compute.
  - by vm_compute.
  - by vm_compute.
  - apply flow_steps_is_work. by vm_compute.
  - by vm_compute.
  - rewrite E. by vm_compute.
  - done.
Defined.

Lemma server_becomes_idle_witness :
  exists s', flows IS_TRAIN_EVENT initial_defaults searched s' /\ idle s'.
Proof.
  apply (server_becomes_idle IS_TRAIN_EVENT initial_defaults same_node ltac:(done) eq_refl false searched).
  exact searched_reachable.
Defined.
