(* ===== verification/TrackWitnesses.v ===== *)
(** Concrete instances of the theorems on the track: the programming track, its
    memory space, RailCom detectors, and track power. *)

From S2P Require Import Prelude Queues UpdateProcessor UpdateLoop TrackPower TrackPowerSafety RailcomBroadcast RailcomTracking RailcomTimeouts ProgrammingTrack ProgrammingCVSpace ProgrammingSafety ProgrammingRuns ProgrammingDecoder CVSpaceAccess CVSpaceValues.

(** ** Concrete instances of the theorems on the programming track frontend. *)

Module Programming.

Import ProgrammingTrack ProgrammingSafety ProgrammingRuns ProgrammingDecoder.

(** The codes of OpenMRN. *)
#[local] Instance openlcb_errors : ErrorDefs := {
  ERROR_CODE_OK := 0;
  ERROR_OPENLCB_TIMEOUT := 0x2030;
  ERROR_UNIMPLEMENTED_CMD := 0x1041;
  ERROR_INVALID_ARGS := 0x1080;
  ERROR_SRC_NOT_PERMITTED := 0x1020;
  ERROR_TEMPORARY := 0x2000;
  OPERATION_PENDING := 0x20000
}.

#[local] Instance openlcb_errors_ok : ErrorDefsOk.
Proof.
  split; [reflexivity| |]; intros c Hc;
    repeat (apply elem_of_cons in Hc as [->|Hc]; [vm_compute; congruence|]); by apply elem_of_nil in Hc.
Qed.

(** RailCom data is parsed as one packet with the first byte as its argument. *)
Definition one_packet (f : Feedback) : list RailcomPacket :=
  match ch2Data f with
  | [t; v] => [mkRailcomPacket 2 (if t =? 0 then BUSY else MOB_POM) v]
  | _ => []
  end.

Abbreviation example_run := (run true 5 one_packet).

Definition memory : Frontend :=
  mkFrontend blank_request 0 0 0 0 0 false false 0 0 false false 0 true (dcc_svc_paged_set_page 0)
    true TimerRunning true [] [].

Definition backend_done (ack : bool) : event := BackendDone (mkBackendResult false ack).

(** CV 3 is written with the value 7. *)
Definition write_request : Request := reset_direct_write_byte 3 7 blank_request.

Definition write_events : list event :=
  [Call write_request; Start; backend_done false; backend_done false; backend_done true;
   backend_done false; backend_done true; backend_done false].

Definition after_events (l : list event) : System :=
  default (new_Frontend memory) (example_run l (new_Frontend memory)).

Lemma success_is_confirmed_witness :
  confirmed write_request (observed 5 one_packet (removelast (effects (fst (after_events write_events))))).
Proof.
  apply (success_is_confirmed true 5 one_packet memory write_events (fst (after_events write_events))
    (snd (after_events write_events)) (removelast (effects (fst (after_events write_events))))
    write_request []); vm_compute; reflexivity.
Defined.

Lemma service_mode_is_bracketed_witness :
  service_mode (effects (fst (after_events write_events))) = Some true.
Proof.
  destruct (service_mode_is_bracketed true 5 one_packet memory write_events (fst (after_events write_events))
    (snd (after_events write_events))) as [H _]; [vm_compute; reflexivity|].
  rewrite H. vm_compute. reflexivity.
Defined.

Lemma requests_return_soon_witness :
  answers [backend_done false; backend_done false] < max_answers /\
  exists e x', (is_answer e = true \/ e = ServiceTimeout) /\
    step true 5 one_packet e (fst (after_events (take 4 write_events)), snd (after_events (take 4 write_events))) = Some x'.
Proof.
  destruct (requests_return_soon true 5 one_packet memory [Call write_request]
    (after_events (take 1 write_events)) (after_events (take 2 write_events))
    [backend_done false; backend_done false] (fst (after_events (take 4 write_events)))
    (snd (after_events (take 4 write_events)))) as [_ H].
  - vm_compute. reflexivity.
  - vm_compute. reflexivity.
  - vm_compute. reflexivity.
  - apply not_elem_of_cons. split; [discriminate|]. apply not_elem_of_cons. split; [discriminate|]. apply not_elem_of_nil.
  - exact (H ltac:(vm_compute; discriminate)).
Defined.

Lemma requests_return_in_order_witness :
  of_clients (returned (effects (fst (after_events (write_events ++ [Call write_request]))))) ++
    of_clients (map key (queue (fst (after_events (write_events ++ [Call write_request]))))) =
  [key write_request; key write_request].
Proof.
  apply (requests_return_in_order true 5 one_packet memory (write_events ++ [Call write_request])
    (fst (after_events (write_events ++ [Call write_request]))) (snd (after_events (write_events ++ [Call write_request])))).
  vm_compute. reflexivity.
Defined.

(** ** Reading *)

(** A decoder whose values cannot be changed, and that acknowledges at once. *)
#[local] Instance locked_decoder : Decoder (Z -> Z) := {
  dec_answer e r :=
    (mkBackendResult false
      match r with
      | SEND_PROGRAMMING_PACKET (dcc_svc_verify_bit cv bit v) _ _ => Bool.eqb (Z.testbit (e cv) bit) v
      | SEND_PROGRAMMING_PACKET (dcc_svc_verify_byte cv v) _ _ => e cv =? v
      | _ => false
      end, e);
  holds e cvs := forall cv, e cv = cvs cv
}.

#[local] Instance locked_decoder_ok : DecoderOk (Z -> Z).
Proof.
  split; cbn; intros; try done.
  - rewrite H, orb_false_r. by destruct (Z.testbit _ _).
  - by rewrite H, Z.eqb_refl.
Qed.

Definition read_request : Request := reset_direct_read_byte 29 blank_request.

Definition before_read : Frontend := fst (after_events [Call read_request]).

Lemma direct_read_returns_value_witness :
  exists e' s', holds e' (fun cv => 150 + cv) /\
    drive true 5 one_packet 20 (fun cv => 150 + cv) (entry true (set_request read_request (set_queue [] before_read))) = (e', (s', Idle)) /\
    last (effects s') = Some (Returned (set_resultCode 0 (set_value 178 read_request))).
Proof.
  refine (direct_read_returns_value true 5 one_packet (fun cv => 150 + cv) (fun cv => 150 + cv) before_read
    read_request [] (entry true (set_request read_request (set_queue [] before_read))) _ _ _ _ _ _ _).
  - intros cv. reflexivity.
  - vm_compute. reflexivity.
  - reflexivity.
  - vm_compute. split; [discriminate|reflexivity].
  - vm_compute. reflexivity.
  - right. reflexivity.
  - vm_compute. reflexivity.
Defined.

(** ** A write that the decoder is busy with *)

(** All packets of the first try are answered with BUSY; the RailCom data of the
    next packet to another locomotive ends the wait, and the write returns a
    temporary error without being tried again. *)
Example busy_write_is_not_retried :
  fmap (fun x : System => (snd x, resultCode (request (fst x)), numTry_ (fst x)))
    (example_run [Call (reset_pom_write_byte DCC_SHORT_ADDRESS 3 3 7 blank_request); Start; TrackReady;
      Railcom (mkFeedback 5 1 2 [0; 0]); Railcom (mkFeedback 6 1 2 [1; 1]); TimerDone] (new_Frontend memory)) =
  Some (Idle, ERROR_TEMPORARY, 0).
Proof. vm_compute. reflexivity. Qed.

End Programming.

(** ** Concrete instances of the theorems on the memory space of the programming track. *)

Module CVSpace.

Import ProgrammingTrack ProgrammingCVSpace CVSpaceAccess CVSpaceValues.

#[local] Instance some_errors : ErrorDefs := {
  ERROR_CODE_OK := 0;
  ERROR_OPENLCB_TIMEOUT := 0x2030;
  ERROR_UNIMPLEMENTED_CMD := 0x1041;
  ERROR_INVALID_ARGS := 0x1080;
  ERROR_SRC_NOT_PERMITTED := 0x1021;
  ERROR_TEMPORARY := 0x2000;
  OPERATION_PENDING := 0x20000
}.

(** Numbers of up to three digits. *)
Definition three_digits (n : Z) : list Z :=
  let d k := 48 + k mod 10 in
  if n <? 10 then [d n] else if n <? 100 then [d (n / 10); d n] else [d (n / 100); d (n / 10); d n].

(** Short addresses, and from 0x3000 on basic accessory decoders, whose numbers
    begin with 1 for the user. *)
#[local] Instance cv_defs : CvSpaceDefs := {
  byte_of_type t := match t with
    | UNSPECIFIED => 0 | DCC_SHORT_ADDRESS => 1 | DCC_LONG_ADDRESS => 2 | MM => 3
    | DCC_ACCY_BASIC_OUTPUT => 4 | DCC_ACCY_EXT => 5 | UNSUPPORTED => 6 end;
  type_of_byte b :=
    if b =? 0 then UNSPECIFIED else if b =? 1 then DCC_SHORT_ADDRESS else if b =? 2 then DCC_LONG_ADDRESS
    else if b =? 3 then MM else if b =? 4 then DCC_ACCY_BASIC_OUTPUT else if b =? 5 then DCC_ACCY_EXT else UNSUPPORTED;
  legacy_address_from_train_node_id id := Some (DCC_SHORT_ADDRESS, id mod 128);
  decode_address_partition n :=
    if (0 <=? n) && (n <? 128) then Some (n, DCC_SHORT_ADDRESS)
    else if (0x3000 <=? n) && (n <? 0x3800) then Some (n - 0x3000, DCC_ACCY_BASIC_OUTPUT) else None;
  accy_address_binary_to_user a := a + 1;
  accy_address_user_to_binary a := a - 1;
  unsigned_integer_to_buffer := three_digits;
  ERROR_OUT_OF_BOUNDS := 0x1082;
  ERROR_AGAIN := 0x3000;
  ERROR_UNIMPLEMENTED := 0x1040
}.

#[local] Instance cv_defs_ok : CvSpaceDefsOk.
Proof.
  split.
  - by intros [].
  - intros n a Hn. simpl. unfold three_digits.
    assert (E : forall m b, fold_left read_char [48 + m mod 10] (a, b) = (a, b * 10 + m mod 10)).
    { intros m b. pose proof (Z.mod_pos_bound m 10 ltac:(lia)). cbn [fold_left]. unfold read_char, plus, digit.
      change (byte_of_ascii "+") with 43. change (byte_of_ascii "0") with 48.
      destruct (Z.eqb_spec (48 + m mod 10) 43); [lia|]. cbn [fst snd]. f_equal. lia. }
    assert (E2 : forall x y b, fold_left read_char (48 + x mod 10 :: y) (a, b) = fold_left read_char y (a, b * 10 + x mod 10))
      by (intros x y b; specialize (E x b); cbn [fold_left] in *; by rewrite E).
    destruct (Z.ltb_spec n 10); [|destruct (Z.ltb_spec n 100)]; rewrite !E2; cbn [fold_left]; f_equal.
    + rewrite Z.mod_small by lia. lia.
    + rewrite (Z.mod_small (n / 10)) by (split; [apply Z.div_pos | apply Z.div_lt_upper_bound]; lia).
      pose proof (Z.div_mod n 10 ltac:(lia)). lia.
    + rewrite (Z.mod_small (n / 100)) by (split; [apply Z.div_pos | apply Z.div_lt_upper_bound]; lia).
      pose proof (Z.div_mod n 10 ltac:(lia)). pose proof (Z.div_mod (n / 10) 10 ltac:(lia)) as Hd.
      rewrite Z.div_div in Hd by lia. change (10 * 10) with 100 in Hd. lia.
  - intros n Hn. simpl. unfold three_digits.
    assert (H : forall m, is_uint8 (48 + m mod 10)) by (intros m; unfold is_uint8; pose proof (Z.mod_pos_bound m 10 ltac:(lia)); lia).
    destruct (n <? 10); [|destruct (n <? 100)]; repeat constructor; apply H.
  - intros n Hn. simpl. unfold three_digits. by destruct (n <? 10); [|destruct (n <? 100)].
  - intros hi addr t. simpl. destruct (Z.leb_spec 0 hi), (Z.ltb_spec hi 128), (Z.leb_spec 0x3000 hi), (Z.ltb_spec hi 0x3800);
      simpl; intros [= <- _]; lia.
  - intros hi addr t. simpl. destruct (Z.leb_spec 0 hi), (Z.ltb_spec hi 128), (Z.leb_spec 0x3000 hi), (Z.ltb_spec hi 0x3800);
      simpl; intros [= <- <-] He; try done; unfold u16; rewrite Z.mod_small by lia; lia.
Qed.

Definition main_node : NodeID := 0x050101011234.

(** The space of the main node. *)
Definition main_space : Space := snd (set_node main_node (Some main_node) (new_Space 0 false false 0)).

Lemma main_reaches : reaches main_node main_space.
Proof.
  eapply (reaches_step main_node (SetNode (Some main_node))); [apply (reaches_new main_node 0 false false 0) | exact I | reflexivity].
Qed.

Lemma decomposition_adds_up_witness : read_sum (decomposition 0xA1) = 0xA1 /\ zlen (decomposition 0xA1 ++ [0]) <= 24.
Proof. apply (decomposition_adds_up 0xA1). unfold is_uint8. lia. Defined.

Lemma accesses_stay_inside_witness :
  exists out s', exec main_node (Write (MIN_ADDRESS + 42) [1; 2; 3; 4]) main_space = Done out s' /\ zlen (store_ s') = store_size /\
    Forall is_uint8 (store_ s') /\ forall r, Called r ∈ out -> 0 <= count r <= 4.
Proof.
  apply (accesses_stay_inside main_node (Write (MIN_ADDRESS + 42) [1; 2; 3; 4])).
  - exact main_reaches.
  - split; [done|]. split; [done|]. repeat (constructor; [unfold is_uint8; lia|]). constructor.
Defined.

(** Calls without a byte, at the address of a CV: a write reads the first byte of
    its data, and the second call of a read returns one byte. *)
Example empty_write_reads_data :
  exec main_node (Write (cv_address DefaultMode 28) []) main_space = Crashed OutOfBounds.
Proof. vm_compute. reflexivity. Qed.

Fixpoint exec_all (l : list op) (s : Space) : option (list Output) :=
  match l with
  | [] => Some []
  | o :: l =>
      match exec main_node o s with
      | Done out s' => rest ← exec_all l s'; Some (out ++ rest)
      | _ => None
      end
  end.

Definition results (l : list Output) : list Result :=
  l ≫= fun o => match o with Called r => [r] | _ => [] end.

Example empty_read_returns_a_byte :
  option_map results
    (exec_all [Read (cv_address DefaultMode 28) 0; FlowStep; FrontendAnswer 0 6; Read (cv_address DefaultMode 28) 0] main_space)
  = Some [mkResult 0 (Some ERROR_AGAIN) [0]; mkResult 1 (Some 0) [6]].
Proof. vm_compute. reflexivity. Qed.

(** CV 29 in service mode. *)
Lemma cv_read_returns_value_witness :
  converses main_node (Read (cv_address DefaultMode 28) 1) (Some (reset_direct_read_byte 29)) (fun code v => mkResult 1 (Some code) [v]) main_space.
Proof.
  apply (cv_read_returns_value main_node DefaultMode 28 1 main_space (set_mode DIRECT_MODE (set_bitOperation false main_space)) Direct).
  - exact main_reaches.
  - vm_compute. reflexivity.
  - exact I.
  - lia.
  - split; vm_compute; reflexivity.
  - vm_compute. reflexivity.
Defined.

(** CV 1 of an accessory decoder on the main. *)
Lemma cv_write_is_requested_witness :
  converses main_node (Write (cv_address (PomAddress 0x3005) 0) [7]) (Some (reset_pom_write_byte DCC_ACCY_BASIC_OUTPUT 5 1 7))
    (fun code _ => mkResult 1 (Some code) []) main_space.
Proof.
  apply (cv_write_is_requested main_node (PomAddress 0x3005) 0 7 [] main_space
    (set_address DCC_ACCY_BASIC_OUTPUT 6 (set_mode POM_MODE (set_bitOperation false main_space))) (Pom DCC_ACCY_BASIC_OUTPUT 5)).
  - exact main_reaches.
  - vm_compute. reflexivity.
  - unfold valid_mode. lia.
  - lia.
  - unfold is_uint8. lia.
  - split; vm_compute; reflexivity.
  - vm_compute. reflexivity.
Defined.

End CVSpace.

(** ** Concrete instances of the theorems on RailCom detectors. *)

Module Railcom.

Import RailcomBroadcast RailcomTracking RailcomTimeouts.

#[local] Instance dcc_defs : DccDefs := {
  ADR_MOBILE_SHORT := 0x38;
  ADR_CONSIST_SHORT := 0x39;
  MAX_MOBILE_LONG := 0x27;
  DccLongAddress_MAX := 10239;
  railcom_invalid := fun b => b =? 0xFF
}.

#[local] Instance dcc_defs_ok : DccDefsOk.
Proof. by split. Defined.

(** The current address, which two bytes of channel 1 give, and the last one. *)
#[local] Instance pair_decoder : BroadcastDecoder (Z * Z) := {
  new_decoder := (0, 0);
  current_address := fst;
  lastAddress_ := snd;
  set_lastAddress := fun a d => (d.1, a);
  process_packet := fun f d => (true, (ch1Data f 0, d.2));
  set_occupancy := fun b d => if b then d else (0, d.2)
}.

Abbreviation example_run := (run 0x050101011234 4 true false true).

(** Locomotive 3 answers at detector 1, then a message of detector 2. *)
Definition loco_3 : Feedback := mkFeedback 1 (fun _ => 0) 1 (fun _ => 0x55) 0x0300.
Definition elsewhere : Feedback := mkFeedback 2 (fun _ => 0) 0 (fun _ => 0) 0.
Definition packet_3 : event := DccPacket 3 0x64.

Definition enters : list event := [Receive loco_3; Start; Buffer; Sent].
Definition silent : list event := [packet_3; packet_3; packet_3; packet_3; Receive elsewhere].
Definition leaves : list event := [Start; Buffer; Sent].

Definition new_flow : System := (new_Flow 4, Idle).
Definition state_after (l : list event) : System := default new_flow (example_run l new_flow).

Lemma ran l : is_Some (example_run l new_flow) -> example_run l new_flow = Some (state_after l).
Proof. unfold state_after. by intros [x ->]. Qed.

Lemma detectors_report_in_turn_witness :
  let '(s, w) := state_after (enters ++ silent ++ leaves) in
  w = Idle /\ ch2_reports 0x050101011234 1 0x3803 (effects s) = [true; false] /\
  alternates true (ch2_reports 0x050101011234 1 0x3803 (effects s)).
Proof.
  destruct (state_after (enters ++ silent ++ leaves)) as [s w] eqn:E. split; [|split].
  - change (snd (s, w) = Idle). rewrite <- E. vm_compute. reflexivity.
  - change (ch2_reports 0x050101011234 1 0x3803 (effects (fst (s, w))) = [true; false]). rewrite <- E. vm_compute. reflexivity.
  - refine (proj1 (detectors_report_in_turn 0x050101011234 4 true false true _ (enters ++ silent ++ leaves) s w 1 0x3803 _ _ _ _)).
    + lia.
    + repeat constructor; simpl; lia.
    + rewrite <- E. apply ran. vm_compute. eauto.
    + unfold valid_channel. lia.
    + unfold valid_address. lia.
Defined.

Lemma answers_keep_presence_witness :
  exists c, find_tracker (trackers_ (fst (state_after (enters ++ [packet_3; packet_3; packet_3])))) (tracker_key 0x3803 1) = Some c /\
    4 - 3 <= c <= MAX_COUNT.
Proof.
  assert (P : packets_to (tracker_key 0x3803 1) [packet_3; packet_3; packet_3] = 3) by (vm_compute; reflexivity).
  rewrite <- P.
  apply (answers_keep_presence 0x050101011234 4 true false true ltac:(lia) enters [packet_3; packet_3; packet_3] (state_after enters)).
  - repeat constructor; simpl; lia.
  - repeat constructor; simpl; lia.
  - apply ran. vm_compute. eauto.
  - vm_compute. reflexivity.
  - vm_compute. reflexivity.
  - rewrite P. lia.
Defined.

Lemma silent_locos_leave_witness :
  exists n s' es,
    (n <= 4 * 1 + 7)%nat /\ drive 0x050101011234 4 true false true n (state_after (enters ++ silent)) = Some (s', Idle) /\
    zero_keys (trackers_ s') = [] /\ effects s' = effects (fst (state_after (enters ++ silent))) ++ es /\
    Forall (fun k => exit_report 0x050101011234 k ∈ es) [tracker_key 0x3803 1].
Proof.
  assert (E : (fst (state_after (enters ++ silent)), Idle) = state_after (enters ++ silent)) by (vm_compute; reflexivity).
  assert (K : zero_keys (trackers_ (fst (state_after (enters ++ silent)))) = [tracker_key 0x3803 1]) by (vm_compute; reflexivity).
  assert (L : length (trackers_ (fst (state_after (enters ++ silent)))) = 1%nat) by (vm_compute; reflexivity).
  assert (H := silent_locos_leave 0x050101011234 4 true false true ltac:(lia) (enters ++ silent) (fst (state_after (enters ++ silent)))).
  rewrite E, K, L in H. apply H.
  - repeat constructor; simpl; lia.
  - apply ran. vm_compute. eauto.
  - vm_compute. reflexivity.
  - vm_compute. discriminate.
Defined.

(** A locomotive with a lower address that comes to zero while the flow is
    busy with others is forgotten: the end of the sweep clears the mark that it
    has set, and its exit waits for the next locomotive that comes to zero. *)
Definition loco_2 : Feedback := mkFeedback 1 (fun _ => 0) 1 (fun _ => 0x55) 0x0200.
Definition packet_2 : event := DccPacket 2 0x64.

Example zero_forgotten :
  let '(s, w) := state_after ([Receive loco_2; Start; Buffer; Sent] ++ enters ++ silent ++
    [Start] ++ [packet_2; packet_2; packet_2; packet_2] ++ [Buffer; Sent]) in
  w = Idle /\ zero_keys (trackers_ s) = [tracker_key 0x3802 1] /\ pending_deletions_ s = false.
Proof. vm_compute. repeat split. Qed.

End Railcom.

(** ** Concrete instances of the theorems on track power, with the update processor as the update loop. *)

Module TrackPower.

Import Queues UpdateProcessor UpdateLoop TrackPower TrackPowerSafety.

(** An output is the set of its reasons. *)
#[local] Instance reasons_output : DccOutput Z := {
  disable_output_for_reason := fun r o => Z.lor o r;
  clear_disable_output_for_reason := fun r o => Z.ldiff o r;
  get_disable_output_reasons := id
}.

Abbreviation Loop := (UpdateProcessor (Q := list PriorityUpdate)).
Abbreviation Station := (TrackPowerState (U := Loop) (O := Z)).

Definition exclusive_min : Z := 1000.
Definition delay : Z := 50.

#[local] Instance station_loop : UpdateLoop Loop := update_processor_loop exclusive_min delay.
#[local] Instance station_loop_ok : UpdateLoopOk Loop exclusive_min NO_EXCLUSIVE :=
  update_processor_loop_ok exclusive_min delay eq_refl.

(** The source 1 sends emergency stops, a train is source 2. *)
Abbreviation station_exec := (exec (U := Loop) (O := Z) 1%positive true 2000 4).
Abbreviation station_runs := (runs (U := Loop) (O := Z) (exclusive_min := exclusive_min) (capacity := NO_EXCLUSIVE) 1%positive 2000 4).

Definition new_station : Station := new_TrackPowerState 63 0 0 new_UpdateProcessor.

Lemma new_loop_inv : loop_inv (exclusive_min := exclusive_min) (capacity := NO_EXCLUSIVE) 1%positive 2000 false (new_UpdateProcessor (Q := list PriorityUpdate)).
Proof.
  split.
  - exact (new_ok exclusive_min eq_refl).
  - split; [by intros H%elem_of_nil | done].
  - done.
  - by intros s H%elem_of_nil.
  - done.
Qed.

(** A run, executed. *)
Fixpoint execute (l : list event) (s : Station) : option (list TrackPacket * Station) :=
  match l with
  | [] => Some ([], s)
  | e :: l =>
      match station_exec e s with
      | Done ps s => '(ps', s) ← execute l s; Some (ps ++ ps', s)
      | _ => None
      end
  end.

Definition quiet_event (e : event) : bool := match e with AddSource _ _ => false | RemoveSource _ => false | _ => true end.

Lemma execute_runs l s ps s' : forallb quiet_event l = true -> execute l s = Some (ps, s') -> station_runs s l ps s'.
Proof.
  revert s ps. induction l as [|e l IH]; intros s ps Hq E; cbn [execute] in E; [injection E as <- <-; constructor|].
  simpl in Hq. apply andb_true_iff in Hq as [Hq Hl].
  destruct (station_exec e s) as [ps1 s1| |] eqn:E1; [|done..].
  destruct (execute l s1) as [[ps2 s2]|] eqn:E2; [|done]. injection E as <- <-.
  econstructor; [|exact E1 | by apply IH]. by destruct e.
Qed.

Definition sends (n : nat) : list event := (fun i => SendPacket (100 * Z.of_nat i)) <$> seq 1 n.
Definition after (l : list event) : Station := from_option snd new_station (execute l new_station).

Lemma power_is_cut_after_stops_witness :
  let s' := after (PowerBit false :: sends 20) in
  track_output s' = 4 /\ lcc_output s' = 4 /\ power_get_current_state 4 s' = INVALID.
Proof.
  assert (H := power_is_cut_after_stops (U := Loop) (O := Z) (exclusive_min := exclusive_min) (capacity := NO_EXCLUSIVE)
    1%positive 2000 4 ltac:(done) 63 0 0 new_UpdateProcessor [] [] new_station (sends 20)
    (nth_estop <$> seq 0 20) (after (PowerBit false :: sends 20)) new_loop_inv).
  destruct H as (_ & H1 & H2).
  - constructor.
  - apply execute_runs; vm_compute; reflexivity.
  - vm_compute. repeat constructor.
  - change (track_output (after (PowerBit false :: sends 20)) = 4) in H1.
    change (lcc_output (after (PowerBit false :: sends 20)) = 4) in H2.
    split; [exact H1|]. split; [exact H2|]. vm_compute. reflexivity.
Defined.

Lemma stop_silences_trains_witness :
  exists ps s', station_exec (SendPacket 500) (after [StopBit false]) = Done ps s' /\ Forall (fun p => is_estop p = true) ps.
Proof.
  refine (proj2 (stop_silences_trains (U := Loop) (O := Z) (exclusive_min := exclusive_min) (capacity := NO_EXCLUSIVE)
    1%positive 2000 4 ltac:(done) 63 0 0 new_UpdateProcessor [StopBit false] [] (after [StopBit false]) (SendPacket 500) _ _ _)).
  - exact new_loop_inv.
  - apply execute_runs; vm_compute; reflexivity.
  - exact I.
Defined.

(** The power bit that goes on again before the twenty packets are out does not
    stop the count: when the emergency stop is on as well, or goes on later, the
    power is cut although the bit is on, and stays so. *)
Example power_cut_while_on :
  let s := after ([PowerBit false] ++ sends 5 ++ [PowerBit true; StopBit false] ++ sends 15 ++ [StopBit true]) in
  isEOff_ s = false /\ isEStop_ s = false /\ power_get_current_state 4 s = INVALID.
Proof. vm_compute. repeat split. Qed.

End TrackPower.
