(* ===== verification/TrainCacheWitnesses.v ===== *)
(** Concrete instances of the theorems on the cache of search results. *)

From stdpp Require Import sorting.
From S2P Require Import Prelude TrainNodeInfoCache TrainCacheWindow TrainCacheRuns TrainCacheDisplay.

Definition no_guess (id : NodeID) : string := "train".

Abbreviation example_step := (step no_guess).

Definition memory : Cache :=
  mkCache 1 2 3 4 true true false true 5 6 7 8 9 10 (mkResultList [] 1 2 3 4 5 6 7) [] [] ∅ 3%positive [] WaitStart.

(** Three lines are shown, one more is fetched at either end, five are kept. *)
Definition small_cache : Cache := set_cache_max_size 5 1 (new_Cache memory).

Definition all_trains : list NodeID := [30; 70; 10; 50; 20; 60; 40].

(** All trains answer a search; then the user scrolls down, which needs a second
    search, whose results come in another order. *)
Definition first_search : list event :=
  [FlowStart; Result 30; Result 70; Result 10; Result 50; Result 20; Result 60; Result 40; SearchDone].

(** The trains that have still to answer after an event, if it may come. *)
Definition still_out (e : event) (s : Cache) (R : list NodeID) : option (list NodeID) :=
  match e with
  | UserReset => match wait s with WaitSearch => None | _ => Some R end
  | UserScrollTo _ b a =>
      if b mod 2 ^ 4 + a mod 2 ^ 4 + 1 + 2 * scrollPrefetchSize_ s <=? cacheMaxSize_ s then Some R else None
  | Result n => if bool_decide (n ∈ R) then Some (remove Z.eq_dec n R) else None
  | SearchDone => if bool_decide (R = []) then Some R else None
  | _ => Some R
  end.

Fixpoint turns (l : list event) (s : Cache) (R : list NodeID) : option (Cache * list NodeID) :=
  match l with
  | [] => Some (s, R)
  | e :: l =>
      R' ← still_out e s R;
      s' ← example_step e s;
      turns l s' (if Nat.eqb (searches s') (searches s) then R' else all_trains)
  end.

Lemma remove_perm n (R : list Z) : NoDup R -> n ∈ R -> R ≡ₚ n :: remove Z.eq_dec n R.
Proof.
  induction R as [|x R IH]; intros Hd Hn; [by apply elem_of_nil in Hn|]. apply NoDup_cons in Hd as [Hx Hd].
  simpl. destruct (Z.eq_dec n x) as [->|Hne].
  - by rewrite notin_remove by (by rewrite <- list_elem_of_In).
  - apply elem_of_cons in Hn as [|Hn]; [done|]. rewrite Permutation_swap. by constructor; apply IH.
Qed.

Lemma still_out_comes e s R R' : NoDup R -> still_out e s R = Some R' -> may_come e s R R' /\ NoDup R'.
Proof.
  intros Hd. destruct e; simpl; try (intros [= <-]; by split).
  - destruct (wait s); intros [= <-]; repeat split; done.
  - destruct (Z.leb_spec (before mod 2 ^ 4 + after mod 2 ^ 4 + 1 + 2 * scrollPrefetchSize_ s) (cacheMaxSize_ s));
      [|done]. intros [= <-]. repeat split; done.
  - case_bool_decide; [|done]. intros [= <-]. by subst R.
  - case_bool_decide as Hn; [|done]. intros [= <-]. pose proof (remove_perm node R Hd Hn) as Hp. split; [done|].
    rewrite Hp in Hd. by apply NoDup_cons in Hd as [_ Hd].
Qed.

Lemma turns_reachable l s R s' R' :
  NoDup R -> reachable no_guess all_trains s R -> turns l s R = Some (s', R') -> reachable no_guess all_trains s' R'.
Proof.
  revert s R. induction l as [|e l IH]; intros s R Hd Hr; simpl; [by intros [= <- <-]|].
  destruct (still_out e s R) as [R1|] eqn:E1; [|done]. destruct (example_step e s) as [s1|] eqn:E2; [|done]. simpl.
  apply (still_out_comes e s R R1 Hd) in E1 as [Hc Hd1]. intros Ht. eapply IH; [|by eapply reach_step|exact Ht].
  destruct (Nat.eqb _ _); [done|]. apply (bool_decide_unpack _); vm_compute; exact I.
Qed.

Definition after_turns (l : list event) : Cache :=
  match turns l (reset_search small_cache) [] with Some (s, _) => s | None => small_cache end.

Definition scrolled : list event :=
  first_search ++ [UserDown; UserDown; QueryBuffer; QuerySent; QueryBuffer; QuerySent; QueryBuffer; QuerySent;
    QueryBuffer; QuerySent; QueryBuffer; QuerySent] ++ tail first_search.

Lemma after_turns_reachable l :
  (if turns l (reset_search small_cache) [] is Some _ then true else false) = true ->
  exists R, reachable no_guess all_trains (after_turns l) R.
Proof.
  unfold after_turns. destruct (turns l _ _) as [[s R]|] eqn:E; [|done]. intros _. exists R.
  eapply turns_reachable; [constructor | | exact E]. apply reach_start; [|reflexivity].
  vm_compute. repeat split; discriminate.
Qed.

Lemma all_trains_ids n : n ∈ all_trains -> kMinNode < n < kMaxNode.
Proof.
  intros Hn. unfold all_trains in Hn. repeat (apply elem_of_cons in Hn as [->|Hn]; [vm_compute; split; reflexivity|]).
  by apply elem_of_nil in Hn.
Qed.

Lemma cache_is_window_witness :
  zlen (nodes_ (trainNodes_ (after_turns scrolled))) <= 5 /\
  num_results (trainNodes_ (after_turns scrolled)) = 7 /\
  first_result_offset (after_turns scrolled) = 2.
Proof.
  destruct (after_turns_reachable scrolled) as [R Hr]; [vm_compute; reflexivity|].
  destruct (cache_is_window no_guess all_trains) with (s := after_turns scrolled) (R := R) as [H1 H2].
  - apply (bool_decide_unpack _). vm_compute. exact I.
  - vm_compute. reflexivity.
  - exact all_trains_ids.
  - exact Hr.
  - split; [exact H1|]. destruct H2 as (H2 & H3 & _); [vm_compute; reflexivity|]. split; [exact H2|].
    rewrite H3; [vm_compute; reflexivity|]. apply (bool_decide_unpack _). vm_compute. exact I.
Defined.

Lemma fresh_search_is_sorted_prefix_witness :
  let l := trainNodes_ (fold_left (fun s n => add_to_list n s) all_trains (reset_search small_cache)) in
  keys l = [10; 20; 30; 40; 50] /\ num_results l = 7.
Proof.
  destruct (fresh_search_is_sorted_prefix small_cache all_trains) as [H1 H2].
  - apply (bool_decide_unpack _). vm_compute. exact I.
  - vm_compute. reflexivity.
  - exact all_trains_ids.
  - vm_compute. reflexivity.
  - split; [rewrite H1; vm_compute; reflexivity|exact H2].
Defined.

Lemma lines_have_their_ids_witness :
  get_result_id 1 (snd (update_ui_output no_guess (after_turns scrolled))) = Some 40.
Proof.
  destruct (lines_have_their_ids no_guess (after_turns scrolled) 1) as [_ H].
  - vm_compute. repeat constructor.
  - vm_compute. reflexivity.
  - vm_compute. discriminate.
  - vm_compute. discriminate.
  - vm_compute. split; [discriminate|reflexivity].
  - rewrite H. vm_compute. reflexivity.
Defined.

(** ** An answer after the output was computed *)

(** Three trains are shown and fit; when a fourth one answers before the next
    refresh, asking for the third line dereferences the end of the map. *)
Example id_of_evicted_line_is_undefined :
  let s0 := set_cache_max_size 3 1 (new_Cache memory) in
  let s1 := fold_left (fun s e => default s (example_step e s))
    [UserReset; FlowStart; Result 10; Result 20; Result 30; SearchDone; Result 5] s0 in
  entry_names s1 <> [] /\ get_result_id 2 s1 = None.
Proof. vm_compute. split; [discriminate|reflexivity]. Qed.

(** A search that is reset while the last one is answered counts trains twice. *)
Example reset_during_search_counts_twice :
  let s0 := set_cache_max_size 3 1 (new_Cache memory) in
  let s1 := fold_left (fun s e => default s (example_step e s))
    [UserReset; FlowStart; UserReset; Result 10; Result 20; Result 30; Result 40; SearchDone;
     Result 10; Result 20; Result 30; Result 40; SearchDone] s0 in
  num_results (trainNodes_ s1) = 5.
Proof. vm_compute. reflexivity. Qed.

(** A search that is cancelled before it was sent stays pending: scrolling does
    not fetch further trains any more. *)
Example cancelled_search_stays_pending :
  let s := fold_left (fun s e => default s (example_step e s))
    (first_search ++ [UserDown; UserDown; UserCancel; QueryBuffer; QuerySent; QueryBuffer; QuerySent; QueryBuffer;
      QuerySent; QueryBuffer; QuerySent; QueryBuffer; QuerySent; UserDown; UserDown]) (reset_search small_cache) in
  wait s = Terminated /\ pendingSearch_ s = true /\ keys (trainNodes_ s) = [10; 20; 30; 40; 50].
Proof. vm_compute. repeat split. Qed.
