(* ===== verification/ScheduleWitnesses.v ===== *)
(** Concrete instances of the theorems on train schedules and on layouts: a train
    that goes from a block to another, into a stub, and back; and a train of the
    layout 6a, with a byte for its speed among the variables of its runner. *)

From stdpp Require Import strings.
From S2P Require Import Prelude AutomataDefs Automata AutomataTermination AutomataOps AutomataSim AutomataBuild AutomataRun ControlRules ControlLogic ControlTurnouts ScheduleRules TrainSchedule ScheduleBuild ScheduleOps ScheduleSpec ScheduleRuns ScheduleRounds ScheduleSafety ScheduleDeparture ScheduleCheck TrackPlan Layouts LayoutChecks LayoutPlans LayoutSafety AutomataWitnesses.

#[local] Existing Instances whole_velocity lonely_node lonely_quiet.

#[local] Instance lonely_train : QuietTrain Z unit.
Proof. done. Defined.

(** ** A schedule *)

Definition example_block (name : string) (k : nat) : SignalBlock :=
  mkSignalBlock name k k (k + 1) (k + 2) (k + 3) (k + 4).

Definition block_A : SignalBlock := example_block "A" 0.
Definition block_B : SignalBlock := example_block "B" 5.
Definition block_C : SignalBlock := example_block "C" 10.

Definition example_turnout : MagnetDef := mkMagnet 15 16 17 18 19 2 false.
Definition example_client : FlipFlopClient := mkClient 20 21 22 23.

(** An eager transition over a turnout; one with a permit, into a stub; and one
    that is only made while no route is set at the variable 24. *)
Definition example_calls : list ScheduleCall :=
  [ Transition block_A block_B None [] true; Turnout example_turnout true;
    BeginLock 25; Transition block_B block_C (Some example_client) [(24%nat, false)] false;
    ReverseAtStub block_C; EndLock;
    ClearVariables; Transition block_C block_A None [(24%nat, false)] false ].

Definition example_train : ScheduleVars := mkSchedule 1536 26 27 28 29 30 31 32 None.

Definition example_body : prog (Building Members) unit :=
  schedule_body example_gid None example_train (schedule_calls example_gid example_train example_calls).

(** The automata after the constructor, and the members after the preamble. *)
Definition example_def : AutomataDef :=
  match reserve_locals AutomataDef_new with Done _ a => a | _ => AutomataDef_new end.

Definition example_members : Members :=
  match preamble example_body example_def (new_Members 33) with Some t => t | None => new_Members 33 end.

Definition example_parts : list Part :=
  match resolve example_calls (set_current_location None example_members) with Some (ps, _) => ps | None => [] end.

Definition schedule_code : list Z :=
  match Render (body_with example_body example_members) (Some []) example_def with
  | Done (Some out) _ => out
  | _ => []
  end.

Lemma example_reserved : reserved_variables_ example_def = local_ids.
Proof.
  destruct reserve_locals_ids as (a & E & H). unfold example_def. rewrite E. exact H.
Qed.

Definition renders_schedule : bool :=
  match Render (body_with example_body example_members) (Some []) example_def with
  | Done (Some out) _ => zlen out <? 2 ^ 31
  | _ => false
  end.

Lemma example_rendered on state :
  schedule_rendered example_gid example_place None example_train example_calls example_parts schedule_code 0
    (layout_runner on state).
Proof.
  assert (Hr : renders_schedule = true) by (vm_compute; reflexivity).
  assert (Hres : exists t', resolve example_calls (set_current_location None example_members) = Some (example_parts, t')).
  { unfold example_parts. destruct (resolve _ _) as [[ps t']|] eqn:E; [by exists t'|]. by vm_compute in E. }
  destruct Hres as [t' Ht]. split.
  - by split.
  - apply check_owned_sound. vm_compute. reflexivity.
  - exists example_members, t'. split; [exact Ht|]. fold example_body. unfold renders_schedule, schedule_code in *.
    destruct (Render _ _ _) as [[out|] def'| |] eqn:E; [|discriminate Hr..]. apply Z.ltb_lt in Hr.
    split; [apply example_placed|apply example_all|apply example_args|exact local_ids_range| |exact Hr|reflexivity].
    exists example_def, def', [], out, (mkAutomata 0 state 0 0). split; [exact example_reserved|].
    split; [exact E|]. split; [reflexivity|]. exists [], []. split; [by rewrite app_nil_r|reflexivity].
Qed.

Lemma example_ready on state :
  forallb (layout_checks on state) (seq 0 64) = true ->
  ready example_gid example_place None 0 (layout_runner on state) (layout_env on state).
Proof. intros H. split; [by apply layout_represents|done|done]. Qed.

(** The train waits at the end of block A, which is number 33. *)
Definition train_at_A : list nat := [33%nat; 0%nat].

Lemma schedule_runs_as_rules_witness :
  exists s' u x,
    xexec_rules (schedule_rules None example_train example_parts)
      (mkXEnv (layout_env train_at_A StWaiting) (fun _ => None)) = Some x /\
    run_automata schedule_code 0 (layout_runner train_at_A StWaiting) = Some (Done tt s') /\
    xrepresents example_gid example_place local_ids None u (core s') x.
Proof.
  pose proof (schedule_runs_as_rules example_gid example_place None example_train example_calls example_parts schedule_code 0
    (layout_runner train_at_A StWaiting) (layout_env train_at_A StWaiting) (example_rendered _ _)
    (example_ready train_at_A StWaiting ltac:(vm_compute; reflexivity))) as H.
  destruct (xexec_rules _ _) as [x|] eqn:E.
  - destruct H as (s' & u & H1 & H2). exists s', u, x. split; [reflexivity|]. split; assumption.
  - exfalso. assert (Hx : match xexec_rules (schedule_rules None example_train example_parts)
      (mkXEnv (layout_env train_at_A StWaiting) (fun _ => None)) with Some _ => true | None => false end = true)
      by (vm_compute; reflexivity).
    rewrite E in Hx. discriminate.
Defined.

Lemma train_follows_schedule_witness :
  exists s' u x k', run_automata schedule_code 0 (layout_runner train_at_A StWaiting) = Some (Done tt s') /\
    xrepresents example_gid example_place local_ids None u (core s') x /\
    on_schedule example_parts k' (layout x) /\
    journey example_train example_parts (layout_env train_at_A StWaiting) 33 k'.
Proof.
  apply (train_follows_schedule example_gid example_place None example_train example_calls example_parts schedule_code 0
    (layout_runner train_at_A StWaiting) (layout_env train_at_A StWaiting) 33).
  - apply example_rendered.
  - apply check_parts_sound. vm_compute. reflexivity.
  - apply check_wired_sound. vm_compute. reflexivity.
  - apply example_ready. vm_compute. reflexivity.
  - apply check_place_sound. vm_compute. reflexivity.
Defined.

Lemma train_goes_when_clear_witness :
  exists s' u x, run_automata schedule_code 0 (layout_runner train_at_A StWaiting) = Some (Done tt s') /\
    xrepresents example_gid example_place local_ids None u (core s') x /\
    (estate (layout x) = StTurnout ->
     exists l, In l (legs example_parts) /\ cleared example_train l (layout_env train_at_A StWaiting) /\ active l (layout x)).
Proof.
  apply (train_goes_when_clear example_gid example_place None example_train example_calls example_parts schedule_code 0
    (layout_runner train_at_A StWaiting) (layout_env train_at_A StWaiting) 33).
  - apply example_rendered.
  - apply check_parts_sound. vm_compute. reflexivity.
  - apply check_wired_sound. vm_compute. reflexivity.
  - apply check_tests_sound. vm_compute. reflexivity.
  - apply example_ready. vm_compute. reflexivity.
  - apply check_place_sound. vm_compute. reflexivity.
  - left. reflexivity.
Defined.

(** In this run the train does go. *)
Example train_at_A_goes :
  match xexec_rules (schedule_rules None example_train example_parts)
          (mkXEnv (layout_env train_at_A StWaiting) (fun _ => None)) with
  | Some x => estate (layout x) = StTurnout
  | None => False
  end.
Proof. vm_compute. reflexivity. Qed.

(** ** A runner with a byte *)

(** Variable 7, the speed of a train, is a byte; all others are single bits. *)
Definition speed_place (k : nat) : option Place := if decide (k = 7)%nat then None else example_place k.

Definition speed_core (on : list nat) (state : Z) : example_core :=
  let c := layout_core on state in
  mkCore (aut_srcplace_ c) (aut_trainid_ c) (aut_signal_aspect_ c) (aut_speed_ c) (aut_eventids_ c)
    (all_automata_ c) (declared_bits_ c) (imported_bits_ c) (imported_bit_args_ c)
    (current_automata_ c) (pending_ticks_ c) (automatas c) (<[7%nat := EventByteBlockConsumer 0 1]> (bits c))
    (next_address c) (mkMemory (clients (memory_ c)) {[7%nat := [0]]}) (locks c) (signal_aspects c) (node_ c).

Definition speed_runner (on : list nat) (state : Z) : example_runner :=
  mkRunner 0 0 (mkDebug 0 0) (speed_core on state).

Lemma speed_place_Some k p : speed_place k = Some p -> k <> 7%nat /\ example_place k = Some p.
Proof. unfold speed_place. by case_decide. Qed.

Lemma speed_placed : well_placed example_gid speed_place.
Proof.
  destruct example_placed as [Hm Ha Hp]. split.
  - intros k l bit [_ H]%speed_place_Some. by apply (Hm k l).
  - intros k l arg g [_ H]%speed_place_Some. by apply (Ha k l).
  - intros k1 k2 p1 p2 [_ H1]%speed_place_Some [_ H2]%speed_place_Some. by apply Hp.
Qed.

Lemma speed_all : all_placed example_gid speed_place (fun k => Some 7%nat = Some k).
Proof.
  intros k Hk Hg. unfold speed_place. rewrite decide_False by congruence. by apply (example_all (fun _ => False)); [intros []|].
Qed.

Lemma speed_ready on state :
  forallb (layout_checks on state) (seq 0 64) = true ->
  ready example_gid speed_place (Some 7%nat) 0 (speed_runner on state) (layout_env on state).
Proof.
  intros H. destruct (layout_represents on state H) as [Ha _ Hl Hb Hg Hv Hd]. split; [split; [exact Ha| |exact Hl|exact Hb|exact Hg| |]| |reflexivity].
  - intros k i [[=] _]%lookup_singleton_Some.
  - intros k p [Hk Hp]%speed_place_Some. specialize (Hv k p Hp). destruct (example_place_Some k p Hp) as [_ ->].
    destruct Hv as ((d & Hbit) & Hbyte). split; [|exact Hbyte]. exists d.
    transitivity (bits (layout_core on state) !! k); [by apply lookup_insert_ne|exact Hbit].
  - intros k p g [_ Hp]%speed_place_Some. by apply (Hd k p).
  - intros k g [= <-] [= <-]. exists 7%nat. split; [vm_compute; reflexivity|]. exists 0, 1, 0, [].
    split; vm_compute; reflexivity.
Qed.

(** ** The first train of the layout 6a *)

Definition train_6a : Train := mkTrain "Re465" (DccShortAddress 47) Layout6a.CircleTrain.

Definition members_6a : Members :=
  default (new_Members 0) (members_of (train_id train_6a) (run_transition train_6a)).

Definition code_6a : list Z :=
  match Render (body_with (train_body example_gid (train_id train_6a) (run_transition train_6a)) members_6a)
          (Some []) constructed with
  | Done (Some out) _ => out
  | _ => []
  end.

Definition parts_6a : list Part := default [] (parts_of (train_id train_6a) (run_transition train_6a)).

(** The first block of its schedule. *)
Definition home_6a : nat := hd 0%nat (places parts_6a).

(** The train is at the end of this block, where its detector is on. *)
Definition stopped_6a : list nat := [home_6a; 13%nat].

Lemma train_6a_here : In train_6a (trains Layout6a.layout_6a).
Proof. left. reflexivity. Qed.

Definition renders_6a : bool :=
  match Render (body_with (train_body example_gid (train_id train_6a) (run_transition train_6a)) members_6a)
          (Some []) constructed with
  | Done (Some out) _ => zlen out <? 2 ^ 31
  | _ => false
  end.

Lemma train_6a_rendered on state :
  train_rendered example_gid speed_place train_6a code_6a 0 (speed_runner on state).
Proof.
  assert (Hr : renders_6a = true) by (vm_compute; reflexivity). exists members_6a. split.
  { unfold members_6a. destruct (members_of _ _) eqn:E; [done|]. by vm_compute in E. }
  unfold renders_6a, code_6a in *. destruct (Render _ _ _) as [[out|] def'| |] eqn:E; [|discriminate Hr..].
  apply Z.ltb_lt in Hr.
  split; [apply speed_placed|apply speed_all|apply example_args|exact local_ids_range| |exact Hr|reflexivity].
  exists constructed, def', [], out, (mkAutomata 0 state 0 0). split; [exact example_reserved|].
  split; [exact E|]. split; [reflexivity|]. exists [], []. split; [by rewrite app_nil_r|reflexivity].
Qed.

Lemma layout_trains_follow_witness :
  exists ps, parts_of (train_id train_6a) (run_transition train_6a) = Some ps /\
    exists s' u x k', run_automata code_6a 0 (speed_runner stopped_6a StWaiting) = Some (Done tt s') /\
      xrepresents example_gid speed_place local_ids (Some 7%nat) u (core s') x /\
      on_schedule ps k' (layout x) /\
      journey (vars_of (train_id train_6a)) ps (layout_env stopped_6a StWaiting) home_6a k' /\
      (estate (layout x) = StTurnout ->
       exists leg, In leg (legs ps) /\
         cleared (vars_of (train_id train_6a)) leg (layout_env stopped_6a StWaiting) /\ active leg (layout x)).
Proof.
  destruct (layout_trains_follow Layout6a.layout_6a train_6a ltac:(unfold running_layouts; do 3 right; by left) train_6a_here)
    as (ps & Hps & H).
  exists ps. split; [exact Hps|].
  destruct (H example_gid speed_place code_6a 0%nat (speed_runner stopped_6a StWaiting) (layout_env stopped_6a StWaiting) home_6a)
    as (s' & u & x & k' & Hs & Hx & Hon & J & Hgo).
  - apply train_6a_rendered.
  - apply speed_ready. vm_compute. reflexivity.
  - assert (E : ps = parts_6a) by (unfold parts_6a; rewrite Hps; reflexivity).
    rewrite E. apply check_place_sound. vm_compute. reflexivity.
  - exists s', u, x, k'. split; [exact Hs|]. split; [exact Hx|]. split; [exact Hon|].
    split; [exact J|]. apply Hgo. left. reflexivity.
Defined.

(** In this run the train decides to go. *)
Example train_6a_goes :
  match xexec_rules (schedule_rules (reset_routes_of (run_transition train_6a)) (vars_of (train_id train_6a)) parts_6a)
          (mkXEnv (layout_env stopped_6a StWaiting) (fun _ => None)) with
  | Some x => estate (layout x) = StTurnout
  | None => False
  end.
Proof. vm_compute. reflexivity. Qed.

(** ** Wiring and boards *)

Lemma layouts_render_witness :
  renders train_6a /\
  (forall t, In t (trains Layout2b.layout_2b) -> ~ renders t) /\
  ~ renders (mkTrain "ICE" (MMAddress 2) Layout3h.ICEPushPull).
Proof.
  split; [|split].
  - destruct (layouts_render Layout6a.layout_6a ltac:(unfold all_layouts; do 5 right; by left)) as (_ & _ & H & _).
    apply H; [unfold running_layouts; do 3 right; by left|exact train_6a_here].
  - destruct (layouts_render Layout2b.layout_2b ltac:(unfold all_layouts; do 2 right; by left)) as (_ & _ & _ & H & _).
    apply H. reflexivity.
  - destruct (layouts_render Layout3h.layout_3h ltac:(unfold all_layouts; do 3 right; by left)) as (_ & _ & _ & _ & H).
    destruct (H eq_refl) as [Hin Hr]. intros Hice. by apply (proj1 (Hr _ Hin) Hice).
Defined.

(** The first transition of the train. *)
Definition way_6a : Way :=
  hd (mkWay (Fwd Layout6a.Block_XXA2) (Fwd Layout6a.Block_XXA2) []) (ways (run_transition train_6a)).

Lemma transitions_lead_witness : leads Layout6a.layout_6a way_6a.
Proof.
  apply (transitions_lead Layout6a.layout_6a [] (run_transition train_6a) way_6a).
  - unfold wiring. do 5 right. by left.
  - unfold classes. apply in_map_iff. exists train_6a. split; [reflexivity|exact train_6a_here].
  - vm_compute. by left.
  - by intros [].
Defined.
